(* ===== verification/_CoqProject ===== *)
-Q . S2P
Prelude.v
RbSpec.v
RbTree.v
RbShape.v
RbInsert.v
RbWalk.v
RbErase.v
RbInstance.v
RbProps.v
ExtentCache.v
ExtentIo.v
ExtentIoInv.v
ExtentIoSpec.v
ExtentCacheProps.v
ExtentIoProps.v
Buf.v
CtreeFmt.v
ItemFmt.v
LeafOps.v
LeafSpec.v
LeafResize.v
LeafPush.v
NodeOps.v
LeafProps.v
TreeWorld.v
TreeBalance.v
TreeOps.v
Crc.v
DirItem.v
InodeItem.v
FileItem.v
TreeSpec.v
TreeSearch.v
TreeWalk.v
TreeFrame.v
TreeInsert.v
TreeItem.v
PackSpec.v
TreeSafe.v
DirSpec.v
TreeDemo.v
InodeSpec.v
DirProps.v
InodeProps.v
TreeProps.v
ListSort.v
Volumes.v
VolumesSpec.v
VolumesMap.v
VolumesMapping.v
VolumesProps.v
ExtentAlloc.v
ExtentAllocSpec.v
ExtentAllocProps.v
GroupCache.v
ExtentItem.v
ExtentItemSpec.v
ExtentRef.v
ExtentRefSpec.v
ExtentOps.v
ExtentOpsSpec.v
ExtentClient.v
ExtentRefProps.v
Raid6.v
BlockIo.v
BlockIoSpec.v
BlockIoStripe.v
BlockIoTree.v
BlockIoProps.v
CheckRec.v
CheckRun.v
CheckHist.v
CheckVerdict.v
CheckProps.v
SendStream.v
SendProps.v
SuperBlock.v
SuperProps.v
