(* ===== verification/Prelude.v ===== *)
(** * A verification of the core of btrfs-tools

    btrfs-tools is the user space of the btrfs file system.  Its tools share a
    core, a user-space copy of the kernel's data structures: red-black trees
    ([src/rbtree.c]), caches of extents on top of them
    ([src/extent-cache.c]), flags on byte ranges ([src/extent_io.c]), and the
    copy-on-write B-tree that holds all metadata ([src/ctree.c], with the
    on-disk format in [src/ctree.h]), and below it the chunk maps
    ([src/volumes.c]), the parity of RAID 6 ([src/raid6.c]), checksums
    ([src/crc32c.c]) and block I/O ([src/disk-io.c], [src/extent_io.c]); beside
    them the extent tree ([src/extent-tree.c]), which counts who uses what, and
    the checker ([src/cmds-check.c]), which compares its counts with the other
    trees, the super blocks and the lists of devices ([src/disk-io.c],
    [src/volumes.c]), and the reader of send streams ([src/send-stream.c]).  This
    development models that core and proves it correct.

    ** The parts

    - Effects and machine integers: this file.  A C function on shared state is
      an [act], a state transformer that can end abnormally: [None] is a failed
      [BUG_ON] or [WARN_ON] (both are assertions in [src/kerncompat.h]), a
      dereference of an invalid pointer, an access outside an array, or fuel
      that has run out.  Unsigned arithmetic wraps with [u8 .. u64]; an [int]
      that is assigned an unsigned value is [s32] of it.
    - Red-black trees, [src/rbtree.c].  [RbSpec]: the class [RbTree] of
      the operations the clients call and [RbTreeLaws], their laws.  [RbTree]:
      the operations on a heap of linked nodes, pointer by pointer.
      [RbShape]: the tree a heap holds, as a term with a context for the place
      the code works at, and the rotations on it.  [RbInsert], [RbErase],
      [RbWalk]: insertion, deletion and the walks.  [RbInstance] discharges
      the class; [RbProps] states the results.
    - Extent caches, [src/extent-cache.c].  [ExtentCache]: the operations over
      any [RbTreeLaws]; [ExtentCacheProps]: a cache is a set of disjoint ranges.
    - Extent states, [src/extent_io.c].  [ExtentIo]: setting, clearing,
      finding and testing bits on byte ranges; [ExtentIoInv]: the invariant;
      [ExtentIoSpec]: the effect on every byte; [ExtentIoProps]: the results, with the case in which
      [set_extent_bits] sets the wrong half.
    - Blocks, [src/extent_io.c] and [src/ctree.h].  [Buf]: a block is a function
      from offsets to bytes; [CtreeFmt]: keys, headers, items and key pointers
      as little-endian fields.
    - One leaf, [src/ctree.c].  [LeafOps]: the byte-level part of every function
      that works on one leaf.  [LeafSpec]: [leaf_repr root b l], the block [b] is
      a leaf with the items [l].  [LeafSpec], [LeafResize]: each operation is the list operation it stands for.
      [LeafProps]: the results.
    - Two blocks.  [LeafPush], [NodeOps]: pushing items and
      pointers to a neighbour and splitting a block, with [node_repr] for nodes.
    - The tree.  [TreeWorld]: the state - the blocks by address, the root, one
      path, and the extent tree behind the class [ExtentTree] - and copy on
      write; [TreeBalance]: splitting and merging along the path; [TreeOps]:
      [btrfs_search_slot], insertion, deletion, resizing, [btrfs_next_leaf] and
      [btrfs_prev_leaf].  [TreeSpec]: [subtree], the tree a block is the root
      of, and [on_path], the place in it that a path stands for.  [TreeSearch],
      [TreeWalk]: search and walks.  [TreeFrame], [TreeInsert]: what writing one
      leaf and the keys above it makes of the whole tree.  [TreeSafe]: a triple
      for actions and the proof that every operation keeps committed blocks.
      [TreeDemo]: small trees for the witnesses.  [TreeProps]: the results, those
      about two blocks included.
    - The clients of the tree.  [ItemFmt]: the fields of the items of files and
      directories, and the codec between bytes in a block and lists of bytes.
      [DirItem], [src/dir-item.c]: directory entries and extended attributes;
      [InodeItem], [src/inode-item.c], [src/root-tree.c] and
      [src/inode-map.c]: references, inodes, roots, free inode numbers;
      [FileItem], [src/file-item.c]: file extents and checksums of data.
      [TreeItem]: what reading, inserting, growing and writing one item does to
      the items of a tree.  [PackSpec]: the class [Packed], several records with
      names packed in one item, with the laws of their format; entries of
      directories and references to inodes are instances.  [DirSpec],
      [InodeSpec]: the operations on trees; [DirProps], [InodeProps]: the
      results.
    - Checksums, [src/crc32c.c] and [src/disk-io.c].  [Crc]: the table-driven
      CRC, the bit-by-bit division it stands for, the sum of a block, and the
      results.
    - Sorting, [src/list_sort.c].  [ListSort]: the merge sort with its array of
      partial lists and the ring with back links it leaves, the insertion sort it is
      compared with, and the result.
    - Chunk maps, [src/volumes.c].  [Volumes]: from a logical address to places
      on the devices and back, over a tree of chunks behind [RbTree].
      [VolumesSpec]: a chunk as a table of rows and columns of stripes, with the
      place of every byte, its copies and its parity, for each [profile].
      [VolumesMap], [VolumesMapping]: what the code answers is what
      the table says.  [VolumesProps]: chunks for the witnesses, and the results.
    - Parity, [src/raid6.c].  [Raid6]: the word-wise computation and the field
      it computes in, and the results.
    - Block I/O, [src/disk-io.c], [src/extent_io.c] and the full-stripe writes
      of [src/volumes.c].  [BlockIo]: reads and writes of data and of tree
      blocks, on disks behind file descriptors.  [BlockIoSpec]: [volume_ok st ms
      vol], the disks [st] hold the contents [vol] of the logical addresses of
      the chunks [ms], every copy and the parity included.  [BlockIoSpec],
      [BlockIoStripe]: reads return [vol], writes replace a range of it.
      [BlockIoTree]: the tests of a tree block and the choice among its mirrors.
      [BlockIoProps]: the results, with disks for the witnesses.
    - Block groups and the allocator, part of [src/extent-tree.c].  [ExtentAlloc]:
      the five trees of flags of [struct btrfs_fs_info], block groups and their
      accounts, the free space cache filled from the extent tree, the search for
      a free extent, pinned extents, and the instance of [ExtentTree] for the
      extent tree itself, whose blocks are only noted down as pending.
      [ExtentAllocSpec]: [alloc_ok], the flags of every byte in each tree, and
      what an extent that is found satisfies, for groups whose free space was read
      before; the law [PinnedExtents] for the
      instance; the searches end and find what there is.
      [ExtentAllocProps]: the results.  [GroupCache]: reading the free space of a
      group, the walk over the items of the extent tree and the stripes of the
      super blocks, with the result.
    - Extent items and references, [src/extent-tree.c].  [ExtentItem]: the bytes of
      an item, with the references it holds, and the functions on one item.
      [ExtentItemSpec]: an item as a value, [extent], whose references are a list
      in the order of their types and a map from [extent_ref] to counts; adding
      and dropping a reference on the list and on the bytes.  [ExtentRef]: the
      functions on a tree, [lookup_extent_backref] down to items of the first
      format.  [ExtentRefSpec]: the searches for an item and its neighbours, and
      what writing one item makes of the tree.  [ExtentOps]: [__free_extent] and
      the operations on the extent tree itself that are put off in [extent_ins]
      and [pending_del]; [ExtentOpsSpec]: they are run to the end and keep the
      laws of the allocator.  [ExtentClient]: what the other trees call - new
      blocks, reserved extents, the references a block holds - and block groups:
      laying them out, reading, writing and freeing them.  [ExtentRefProps]: the
      results.
    - The checker, [src/cmds-check.c].  [CheckRec]: the records of extents, with
      what the extent tree declares and what the other trees refer to, and the
      verdict on them.  [CheckRun]: each call as a function on the record of one
      extent ([extent_step], [tree_step], [data_step]).  [CheckHist]: what the
      calls for an extent say, [event]s, and when they are [consistent];
      [CheckVerdict]: the record at any time against the calls so far, with the
      records that were freed early.  [CheckProps]: the results.
    - Super blocks and devices, [src/disk-io.c] and [src/volumes.c].  [SuperBlock]:
      reading the copies of a super block and choosing one, writing them to all
      devices of a commit, the list of devices a scan has found.  [SuperProps]: the
      newest copy is read, and what was written is read back, with the results.
    - Send streams, [src/send-stream.c] with the format in [src/send.h].
      [SendStream]: reading commands and their attributes from a descriptor that
      delivers its bytes in pieces, and calling the receiver, [send_op] being
      the table of its functions.  [SendProps]: an encoder to compare it with,
      and the results.

    ** Correspondence

    Definitions carry the names of the C functions.  Where one C function is
    more than one definition, the parts are named after it and composed as the
    code composes them: [set_extent_bits_pass] is one round of its loop,
    [insert_empty_items_leaf] the bytes of [btrfs_insert_empty_items],
    [search_block] one round of [btrfs_search_slot], [push_for_insert_left]
    half of [push_nodes_for_insert].  Pointers to tree nodes are keys of a
    heap; an [extent_buffer] is named by the address of its block.

    ** What the theorems show

    - Representation and refinement: the red-black operations keep order,
      colours and heights and do to the sequence of nodes what their names say;
      the extent cache and the extent states do the same against any lawful
      tree.
    - Leaves and nodes: search, insertion, deletion, truncation, extension,
      splitting, pushing to either side are the list operations, byte for byte,
      including what happens when there is no room.
    - Trees: search finds a key or its place at any depth; insertion and
      deletion keep the whole tree well formed, sorted, unshared and in blocks
      of the running transaction, with the keys of all nodes above right, where
      there is room in every block ([has_room]) or, for deletion, nodes are a
      quarter full, so that nothing is split or merged on the way; the
      walks visit the leaves in order, reach all of them and stop.
    - Directories: a directory is a map from names to entries, kept in items
      that names with the same hash share: an inserted entry is found, the
      others are still found, a name that is there is refused (again where there is
      room in every block).  References to
      inodes are kept the same way.  A free inode number is free.
    - Safety: whatever the blocks hold, no sequence of operations changes a
      byte of a block that was committed, as long as pinned extents are not
      handed out ([PinnedExtents]); the allocator keeps that law for the extent
      tree's own blocks.
    - Allocation: once the free space of every group has been read ([bg_cached],
      part of [alloc_ok]), an extent that is handed out lies in a group of the type
      asked for, was free, is neither pinned nor pending nor excluded, and is not
      free any more unless memory has run out; when a group has room, the search
      reaches it.  Reading the free space of a group makes those bytes free that no
      extent item covers and no super block lies in ([cache_block_group_correct]).
    - The extent tree: adding a reference adds one to its count, in the item of
      the extent or, when that is full, in an item of its own, and to the total;
      dropping one that is in the item and not the last undoes that; the flags and counts read are those of the item;
      nothing else in the tree changes.  The groups of a new device tile it.
    - The checker: it reports no error exactly when for every extent the extent
      tree and the other trees agree ([check_extents_correct]), in whatever order
      it has read them, for calls about extents that lie apart and are declared once
      ([calls_ok]); what it makes of an item are the references in it.
    - Super blocks: of the copies on a device the newest good one is read; after
      [write_ctree_super] every device gives back the new super block with its own
      description, also when only a first part of the copies was written.
    - Send streams: what an encoder wrote for a list of operations is replayed,
      in order; a command with a wrong byte is refused; a command whose length
      fits the buffer never takes the reader outside it, and one that does not
      fit does.
    - Storage: no two bytes share a place on a device, nor does data with
      parity; the reverse map inverts the map; the parity and the syndrome of a
      full stripe determine any two lost stripes; writing data that is aligned to
      leaves ([leaf_aligned]) is an assignment
      to a range of the logical addresses that keeps all copies equal and the
      parity right; a tree block that was written is read back.
    - Errors: what unreadable neighbours do; reading a tree block always ends,
      returns only blocks that pass the tests, and finds a good copy when there
      is one; a wrong byte is noticed by the checksum; a few theorems pin down
      where the code does not do what it means to.

    ** Bounds and fuel

    The tree has at most eight levels; the loops over levels run on that
    number.  A search runs on fuel, one unit a level, and [n + 1] units are
    shown to be enough for a tree of [n] levels above the leaves.  The search for
    a name in an item needs one round for every header that fits it, and one
    more; the search for a free inode number two rounds an item, and two more.
    The binary
    search of a block runs 32 rounds, enough for any [int] range.  The loops of
    the red-black tree run on the number of nodes of the heap, those of the
    extent states on the number of states and shown to be enough.  Sizes of
    blocks are those [mkfs] accepts, 4096 to 65536 bytes ([root_ok]).  A read
    or write of data needs at most one round a byte, and a full-stripe write
    one more for every byte of a stripe; reading a tree block needs two rounds
    more than there are copies.  The trees of flags get three rounds a state and
    three more ([io_fuel]); the walk over the extent items of a group two rounds an item
    and two more; the search through the groups twice the number of
    groups and three, as it wraps around once; the rounds of [find_free_extent]
    are an argument, and one is enough when there is room.  The loop over the
    references in an item gets a round for every byte of it; the loop over the
    records of the checker one for every extent, and one more.  Reading from a
    descriptor takes at most a round a byte; the loop over a send stream gets
    one for every command, and one more.  [map_ok] bounds a chunk by what
    [btrfs_alloc_chunk] makes: the size of a full stripe fits an [int], and the
    addresses fit [u64].

    ** Not modelled

    Reference counts of buffers, dirty flags, the list of dirty roots and
    read-ahead have no effect on contents and are left out; so is
    [btrfs_copy_root].  In the tree's world, reading a block is a lookup among
    the blocks, a block that cannot be read is not there; the [read_tree_block]
    of [BlockIo], with devices, mirrors and checksums, is not yet put in its
    place.  The tree's world knows the extent tree as the interface [ExtentTree];
    the instance for the extent tree itself is modelled, that for the other trees
    as functions ([ExtentClient]) that are not yet put behind the interface.  The
    results about references are for items that stay in the tree: giving up the
    last reference, which deletes the item, is modelled without a theorem.  The
    hooks of [btrfs-convert] ([ops->free_extent] in [__free_extent] among them), the
    hook [free_extent_hook] that [__free_extent] calls for the checker, and the
    allocation of chunks are left out.  The allocator is not shown to work while it
    still reads free space in between: its theorems are for groups that were read
    before.
    The insertion and deletion theorems are about trees with room in every
    block and leaves that stay a quarter full; splitting and merging are
    modelled, and shown to keep items and committed blocks, but not yet that they
    keep the whole tree well formed.  Of the disks, [pread] and [pwrite] are
    modelled with bad sectors and short counts, failed allocations are not.
    Allocating chunks and reading the chunk tree, setting up the roots, the order
    of a commit and the free space cache are not modelled.  The operations on directories are shown for trees with room in the
    leaf, like the insertion they call.  Of the
    checker, the records of inodes, roots, chunks and devices and all repair are
    not modelled.  The command line tools, [mkfs], conversion, image dumps, the
    two programs at the ends of a send stream and the graphical front end are
    outside this development: they are drivers of the core, or wrap system
    calls. *)

From Stdlib Require Export ZArith Lia.
From stdpp Require Export base option numbers gmap list.

#[global] Open Scope Z_scope.


(** ** Machine integers

    C's unsigned integers are [Z] with the wrap-around written out, signed
    [int] results are [Z] in range. *)

Declare Scope c_scope.
Delimit Scope c_scope with C.

Definition u8 (x : Z) : Z := x `mod` 2 ^ 8.
Definition u16 (x : Z) : Z := x `mod` 2 ^ 16.
Definition u32 (x : Z) : Z := x `mod` 2 ^ 32.
Definition u64 (x : Z) : Z := x `mod` 2 ^ 64.

(** The value an [int] takes when it is assigned [x]. *)
Definition s32 (x : Z) : Z := (x + 2 ^ 31) `mod` 2 ^ 32 - 2 ^ 31.

Definition U64_MAX : Z := 2 ^ 64 - 1.

(** Errno values the sources return (negated). *)
Definition EPERM : Z := 1.
Definition ENOENT : Z := 2.
Definition EIO : Z := 5.
Definition EAGAIN : Z := 11.
Definition ENOMEM : Z := 12.
Definition EEXIST : Z := 17.
Definition EINVAL : Z := 22.
Definition ENOSPC : Z := 28.

(** ** Tactics *)

(** [lia] after turning divisions and remainders by constants into equations. *)
Ltac zlia := Z.to_euclidean_division_equations; lia.

(** Split every boolean comparison a hypothesis or the goal branches on. *)
Ltac zcase :=
  repeat match goal with
  | |- context [if ?a <? ?b then _ else _] => destruct (Z.ltb_spec a b)
  | |- context [if ?a <=? ?b then _ else _] => destruct (Z.leb_spec a b)
  | |- context [if ?a =? ?b then _ else _] => destruct (Z.eqb_spec a b)
  end.

Lemma u8_id x : 0 <= x < 2 ^ 8 -> u8 x = x.
Proof. intros. apply Z.mod_small. lia. Qed.
Lemma u16_id x : 0 <= x < 2 ^ 16 -> u16 x = x.
Proof. intros. apply Z.mod_small. lia. Qed.
Lemma u32_id x : 0 <= x < 2 ^ 32 -> u32 x = x.
Proof. intros. apply Z.mod_small. lia. Qed.
Lemma u64_id x : 0 <= x < 2 ^ 64 -> u64 x = x.
Proof. intros. apply Z.mod_small. lia. Qed.
Lemma s32_id x : - 2 ^ 31 <= x < 2 ^ 31 -> s32 x = x.
Proof. intros. unfold s32. rewrite Z.mod_small; lia. Qed.
Lemma u64_range x : 0 <= u64 x < 2 ^ 64.
Proof. apply Z.mod_pos_bound. lia. Qed.
Lemma u32_range x : 0 <= u32 x < 2 ^ 32.
Proof. apply Z.mod_pos_bound. lia. Qed.

Lemma land_bounds a b : 0 <= a -> 0 <= b -> 0 <= Z.land a b <= b.
Proof.
  intros Ha Hb. rewrite <- (Z2N.id a), <- (Z2N.id b), <- N2Z.inj_land by done.
  split; [lia|]. apply N2Z.inj_le, N.land_le_r.
Qed.
Lemma ldiff_bounds a b : 0 <= a -> 0 <= Z.ldiff a b <= a.
Proof.
  intros Ha. split; [apply Z.ldiff_nonneg; by left|].
  pose proof (Z.add_lor_land (Z.ldiff a b) (Z.land a b)) as Hs.
  rewrite Z.lor_ldiff_and in Hs. pose proof (Z.land_nonneg a b).
  assert (Z.land (Z.ldiff a b) (Z.land a b) = 0) as Hz.
  { apply Z.bits_inj'. intros n Hn. rewrite !Z.land_spec, Z.ldiff_spec, Z.bits_0.
    by destruct (Z.testbit a n), (Z.testbit b n). }
  lia.
Qed.

Lemma log2_lt_bits a n : 0 < n -> 0 <= a < 2 ^ n -> Z.log2 a < n.
Proof.
  intros Hn Ha. destruct (Z.eq_dec a 0) as [->|]; [done|]. apply Z.log2_lt_pow2; lia.
Qed.
Lemma lor_bounds a b n : 0 < n -> 0 <= a < 2 ^ n -> 0 <= b < 2 ^ n -> 0 <= Z.lor a b < 2 ^ n.
Proof.
  intros Hn Ha Hb. assert (0 <= Z.lor a b) by (apply Z.lor_nonneg; lia). split; [done|].
  destruct (Z.eq_dec (Z.lor a b) 0) as [->|]; [lia|].
  apply Z.log2_lt_pow2; [lia|]. rewrite Z.log2_lor by lia.
  pose proof (log2_lt_bits a n). pose proof (log2_lt_bits b n). lia.
Qed.

Create Rewrite HintDb machine.
#[export] Hint Rewrite u8_id u16_id u32_id u64_id s32_id using lia : machine.

(** Remove the wrap-arounds that the bounds in the context make identities. *)
Ltac nowrap := repeat (autorewrite with machine in * ).

(** Remove the wrap-arounds, the innermost first; [tac] proves the bounds. *)
Ltac unwrap_by tac :=
  repeat match goal with
  | |- context [s32 ?x] =>
      lazymatch x with context [s32 _] => fail | context [u32 _] => fail | _ => rewrite (s32_id x) by tac end
  | |- context [u32 ?x] =>
      lazymatch x with context [s32 _] => fail | context [u32 _] => fail | _ => rewrite (u32_id x) by tac end
  end.

(** ** Effects

    A C function that works on shared state is a state transformer.  [None]
    is the abnormal end of the program: a failed [BUG_ON], the dereference of
    an invalid pointer or, where a definition takes fuel, its exhaustion. *)

Definition act (S A : Type) : Type := S -> option (A * S).

Definition ret {S A} (a : A) : act S A := fun s => Some (a, s).
Definition bind {S A B} (c : act S A) (k : A -> act S B) : act S B :=
  fun s => match c s with Some (a, s') => k a s' | None => None end.
Definition gets {S A} (f : S -> A) : act S A := fun s => Some (f s, s).
Definition deref {S A} (f : S -> option A) : act S A :=
  fun s => match f s with Some a => Some (a, s) | None => None end.
Definition modify {S} (f : S -> S) : act S unit := fun s => Some (tt, f s).
Definition bug {S A} : act S A := fun _ => None.
Definition bug_on {S} (b : bool) : act S unit := if b then bug else ret tt.
Definition assume_some {S A} (o : option A) : act S A :=
  match o with Some a => ret a | None => bug end.

(** An action on a part of the state. *)
Definition zoom {S W A} (get : S -> W) (put : W -> S -> S) (c : act W A) : act S A :=
  fun s => match c (get s) with Some (a, x) => Some (a, put x s) | None => None end.

Declare Scope act_scope.
Delimit Scope act_scope with act.
Notation "x <- c ;; k" := (bind c (fun x => k))
  (at level 100, c at next level, right associativity) : act_scope.
Notation "c ;;; k" := (bind c (fun _ => k))
  (at level 100, k at level 200, right associativity) : act_scope.

Lemma bind_some {S A B} (c : act S A) (k : A -> act S B) s a s' :
  c s = Some (a, s') -> bind c k s = k a s'.
Proof. intros H. unfold bind. by rewrite H. Qed.

Lemma gets_run {S A} (f : S -> A) s : gets f s = Some (f s, s).
Proof. done. Qed.

Lemma bind_run {S A B} (c : act S A) (k : A -> act S B) s a s' r :
  c s = Some (a, s') -> k a s' = r -> bind c k s = r.
Proof. intros H <-. by apply bind_some. Qed.

(** The same when what the run ends in is still to be found. *)
Lemma ex_and_run {S A B} (c : act S A) (k : A -> act S B) s a s' b (P : S -> Prop) :
  c s = Some (a, s') -> (exists u, k a s' = Some (b, u) /\ P u) ->
  exists u, bind c k s = Some (b, u) /\ P u.
Proof. intros H (u & Hu & HP). exists u. split; [by eapply bind_run|done]. Qed.

Lemma bind_assoc {S A B D} (c : act S A) (f : A -> act S B) (g : B -> act S D) s :
  bind (bind c f) g s = bind c (fun a => bind (f a) g) s.
Proof. unfold bind. by destruct (c s) as [[a s']|]. Qed.

(** Run the next action of a [bind] with an equation for it. *)
Ltac step_with H := erewrite bind_some; [ | exact H ].

(** ** Heaps of allocated objects

    [heap_is h K]: the heap [h] holds exactly the objects of [K]. *)

Section Heap.
Context {A : Type}.
Implicit Types (h : gmap positive A) (K : list (positive * A)).

Definition heap_is h K : Prop := NoDup K.*1 /\ h = list_to_map K.

Lemma heap_is_perm h K K' : K ≡ₚ K' -> heap_is h K -> heap_is h K'.
Proof.
  intros HK [Hnd ->]. split; [by rewrite <- HK|]. by apply list_to_map_proper.
Qed.

Lemma heap_is_lookup h K p a : heap_is h K -> (p, a) ∈ K -> h !! p = Some a.
Proof. intros [Hnd ->] Hin. by apply elem_of_list_to_map. Qed.

Lemma heap_is_update h K p a b : heap_is h ((p, a) :: K) -> heap_is (<[p := b]> h) ((p, b) :: K).
Proof. intros [Hnd ->]. split; [done|]. simpl. by rewrite insert_insert_eq. Qed.

Lemma heap_is_insert h K p a : heap_is h K -> p ∉ K.*1 -> heap_is (<[p := a]> h) ((p, a) :: K).
Proof. intros [Hnd ->] Hp. split; [by constructor|done]. Qed.

Lemma heap_is_delete h K p a : heap_is h ((p, a) :: K) -> heap_is (delete p h) K.
Proof.
  intros [[Hp Hnd]%NoDup_cons ->]. split; [done|]. simpl.
  rewrite delete_insert_id; [done|]. by apply not_elem_of_list_to_map_1.
Qed.

Lemma heap_is_update_at h K1 K2 p a b :
  heap_is h (K1 ++ (p, a) :: K2) -> heap_is (<[p := b]> h) (K1 ++ (p, b) :: K2).
Proof.
  intros Hh. eapply heap_is_perm; [apply Permutation_middle|].
  eapply heap_is_update, heap_is_perm, Hh. symmetry. apply Permutation_middle.
Qed.

Lemma heap_is_delete_at h K1 K2 p a :
  heap_is h (K1 ++ (p, a) :: K2) -> heap_is (delete p h) (K1 ++ K2).
Proof.
  intros Hh. eapply heap_is_delete, heap_is_perm, Hh. symmetry. apply Permutation_middle.
Qed.
End Heap.
