(* ===== verification/RbSpec.v ===== *)
(** The interface of [src/rbtree.c].

    What the callers of the red-black tree rely on: the operations of
    [rbtree.c] on intrusive nodes named by pointers, and the contract that
    relates them to the in-order sequence of the nodes.  The extent caches are
    verified against this interface. *)

From S2P Require Import Prelude.

(** The address of an intrusive [struct rb_node]; the null pointer is [None]. *)
Abbreviation ptr := positive.

(** A comparison callback dereferences the node it is given, so it may fault.
    Its result is the C [int]: negative, zero or positive. *)
Definition cmp_key : Type := ptr -> option Z.

Class RbTree (T : Type) : Type := {
  RB_ROOT : T;
  (** [rb_insert root node comp]: the new root and the return value. *)
  rb_insert : T -> ptr -> cmp_key -> option (T * Z);
  (** [rb_search root key comp next_ret]: the match, and [*next_ret] when
      there is none. *)
  rb_search : T -> cmp_key -> option (option ptr * option ptr);
  rb_erase : ptr -> T -> option T;
  rb_first : T -> option (option ptr);
  rb_next : T -> ptr -> option (option ptr);
  rb_prev : T -> ptr -> option (option ptr);
}.

(** Every node of the sequence is ordered before, respectively after, the key. *)
Definition all_before (c : cmp_key) (l : list ptr) : Prop :=
  forall x, x ∈ l -> exists r, c x = Some r /\ 0 < r.
Definition all_after (c : cmp_key) (l : list ptr) : Prop :=
  forall x, x ∈ l -> exists r, c x = Some r /\ r < 0.

Definition all_match (c : cmp_key) (l : list ptr) : Prop :=
  forall x, x ∈ l -> c x = Some 0.

Class RbTreeLaws (T : Type) `{RbTree T} : Type := {
  rb_seq : T -> list ptr -> Prop;
  rb_seq_nodup : forall t l, rb_seq t l -> NoDup l;
  rb_seq_empty : rb_seq RB_ROOT [];
  rb_insert_new : forall t l1 l2 p c,
    rb_seq t (l1 ++ l2) -> p ∉ l1 ++ l2 -> all_before c l1 -> all_after c l2 ->
    exists t', rb_insert t p c = Some (t', 0) /\ rb_seq t' (l1 ++ p :: l2);
  rb_insert_exist : forall t l1 m l2 p c,
    rb_seq t (l1 ++ m ++ l2) -> m <> [] ->
    all_before c l1 -> all_match c m -> all_after c l2 ->
    rb_insert t p c = Some (t, - EEXIST);
  rb_search_found : forall t l1 m l2 c,
    rb_seq t (l1 ++ m ++ l2) -> m <> [] ->
    all_before c l1 -> all_match c m -> all_after c l2 ->
    exists x n, rb_search t c = Some (Some x, n) /\ x ∈ m;
  rb_search_next : forall t l1 l2 c,
    rb_seq t (l1 ++ l2) -> all_before c l1 -> all_after c l2 ->
    rb_search t c = Some (None, head l2);
  rb_erase_spec : forall t l1 p l2,
    rb_seq t (l1 ++ p :: l2) ->
    exists t', rb_erase p t = Some t' /\ rb_seq t' (l1 ++ l2);
  rb_first_spec : forall t l, rb_seq t l -> rb_first t = Some (head l);
  rb_next_spec : forall t l1 p l2,
    rb_seq t (l1 ++ p :: l2) -> rb_next t p = Some (head l2);
  rb_prev_spec : forall t l1 p l2,
    rb_seq t (l1 ++ p :: l2) -> rb_prev t p = Some (last l1);
}.
