(* ===== verification/RbTree.v ===== *)
(** The red-black tree of [src/rbtree.c] on a heap of intrusive nodes.

    The state is the [struct rb_root] and the memory of the nodes it links.
    Every function is the source's, statement by statement: parent pointers,
    the rotations with their writes to the parent's link, and the two loops
    that restore the colours.  The loops run on fuel; [fuel_of] is what the
    entry points give them. *)

From S2P Require Import Prelude RbSpec.

Inductive rb_colour := RB_RED | RB_BLACK.

#[export] Instance rb_colour_eq_dec : EqDecision rb_colour.
Proof. solve_decision. Defined.

(** [struct rb_node]; [rb_parent] and [rb_color] are the two parts of
    [rb_parent_color] (section [Packing]). *)
Record rb_node := RbNode {
  rb_parent : option ptr;
  rb_color : rb_colour;
  rb_right : option ptr;
  rb_left : option ptr;
}.

#[export] Instance rb_node_eq_dec : EqDecision rb_node.
Proof. solve_decision. Defined.

Record rb_mem := RbMem { rb_root : option ptr; rb_nodes : gmap ptr rb_node }.

(** The pointer to a link that [rb_insert] walks down with. *)
Inductive rb_link := LinkRoot | LinkLeft (p : ptr) | LinkRight (p : ptr).

Section Rb.
Open Scope act_scope.

Definition node_get (p : ptr) : act rb_mem rb_node := deref (fun m => rb_nodes m !! p).
Definition node_put (p : ptr) (n : rb_node) : act rb_mem unit :=
  modify (fun m => RbMem (rb_root m) (<[p := n]> (rb_nodes m))).
Definition root_get : act rb_mem (option ptr) := gets rb_root.
Definition set_root (o : option ptr) : act rb_mem unit := modify (fun m => RbMem o (rb_nodes m)).
Definition node_update (p : ptr) (f : rb_node -> rb_node) : act rb_mem unit :=
  n <- node_get p ;; node_put p (f n).
Definition fuel_of (m : rb_mem) : nat := S (S (size (rb_nodes m))).

#[global] Arguments fuel_of : simpl never.

Definition with_parent (q : option ptr) (n : rb_node) : rb_node :=
  RbNode q (rb_color n) (rb_right n) (rb_left n).
Definition with_color (c : rb_colour) (n : rb_node) : rb_node :=
  RbNode (rb_parent n) c (rb_right n) (rb_left n).
Definition with_right (q : option ptr) (n : rb_node) : rb_node :=
  RbNode (rb_parent n) (rb_color n) q (rb_left n).
Definition with_left (q : option ptr) (n : rb_node) : rb_node :=
  RbNode (rb_parent n) (rb_color n) (rb_right n) q.

Definition rb_set_parent (p : ptr) (q : option ptr) : act rb_mem unit := node_update p (with_parent q).
Definition rb_set_color (p : ptr) (c : rb_colour) : act rb_mem unit := node_update p (with_color c).
Definition rb_set_red (p : ptr) : act rb_mem unit := rb_set_color p RB_RED.
Definition rb_set_black (p : ptr) : act rb_mem unit := rb_set_color p RB_BLACK.
Definition set_right (p : ptr) (q : option ptr) : act rb_mem unit := node_update p (with_right q).
Definition set_left (p : ptr) (q : option ptr) : act rb_mem unit := node_update p (with_left q).

(** [if (p) f(p)], and the dereference of a pointer that may be null. *)
Definition when_some (o : option ptr) (f : ptr -> act rb_mem unit) : act rb_mem unit :=
  match o with Some p => f p | None => ret tt end.
Definition not_null (o : option ptr) : act rb_mem ptr := assume_some o.

Definition is_red (p : ptr) : act rb_mem bool :=
  n <- node_get p ;; ret (bool_decide (rb_color n = RB_RED)).
(** [!p || rb_is_black(p)] *)
Definition null_or_black (o : option ptr) : act rb_mem bool :=
  match o with
  | None => ret true
  | Some p => r <- is_red p ;; ret (negb r)
  end.

Definition __rb_rotate_left (node : ptr) : act rb_mem unit :=
  n <- node_get node ;;
  right <- not_null (rb_right n) ;;
  let parent := rb_parent n in
  r <- node_get right ;;
  set_right node (rb_left r) ;;;
  when_some (rb_left r) (fun q => rb_set_parent q (Some node)) ;;;
  set_left right (Some node) ;;;
  rb_set_parent right parent ;;;
  match parent with
  | Some p =>
      g <- node_get p ;;
      if decide (rb_left g = Some node) then set_left p (Some right) else set_right p (Some right)
  | None => set_root (Some right)
  end ;;;
  rb_set_parent node (Some right).

Definition __rb_rotate_right (node : ptr) : act rb_mem unit :=
  n <- node_get node ;;
  left <- not_null (rb_left n) ;;
  let parent := rb_parent n in
  l <- node_get left ;;
  set_left node (rb_right l) ;;;
  when_some (rb_right l) (fun q => rb_set_parent q (Some node)) ;;;
  set_right left (Some node) ;;;
  rb_set_parent left parent ;;;
  match parent with
  | Some p =>
      g <- node_get p ;;
      if decide (rb_right g = Some node) then set_right p (Some left) else set_left p (Some left)
  | None => set_root (Some left)
  end ;;;
  rb_set_parent node (Some left).

Fixpoint rb_insert_color_loop (fuel : nat) (node : ptr) : act rb_mem unit :=
  match fuel with
  | O => bug
  | S fuel =>
    n <- node_get node ;;
    match rb_parent n with
    | None => ret tt
    | Some parent =>
      red <- is_red parent ;;
      if negb red then ret tt else
      pn <- node_get parent ;;
      gparent <- not_null (rb_parent pn) ;;
      g <- node_get gparent ;;
      if decide (rb_left g = Some parent) then
        black <- null_or_black (rb_right g) ;;
        if negb black then
          uncle <- not_null (rb_right g) ;;
          rb_set_black uncle ;;;
          rb_set_black parent ;;;
          rb_set_red gparent ;;;
          rb_insert_color_loop fuel gparent
        else
          np <- (if decide (rb_right pn = Some node)
                 then __rb_rotate_left parent ;;; ret (parent, node)
                 else ret (node, parent)) ;;
          rb_set_black np.2 ;;;
          rb_set_red gparent ;;;
          __rb_rotate_right gparent ;;;
          rb_insert_color_loop fuel np.1
      else
        black <- null_or_black (rb_left g) ;;
        if negb black then
          uncle <- not_null (rb_left g) ;;
          rb_set_black uncle ;;;
          rb_set_black parent ;;;
          rb_set_red gparent ;;;
          rb_insert_color_loop fuel gparent
        else
          np <- (if decide (rb_left pn = Some node)
                 then __rb_rotate_right parent ;;; ret (parent, node)
                 else ret (node, parent)) ;;
          rb_set_black np.2 ;;;
          rb_set_red gparent ;;;
          __rb_rotate_left gparent ;;;
          rb_insert_color_loop fuel np.1
    end
  end.

Definition rb_insert_color (node : ptr) : act rb_mem unit :=
  fuel <- gets fuel_of ;;
  rb_insert_color_loop fuel node ;;;
  root <- root_get ;;
  r <- not_null root ;;
  rb_set_black r.

(** The loop of [__rb_erase_color]; the result is [node] when it ends. *)
Fixpoint __rb_erase_color_loop (fuel : nat) (node parent : option ptr) : act rb_mem (option ptr) :=
  match fuel with
  | O => bug
  | S fuel =>
    black <- null_or_black node ;;
    root <- root_get ;;
    if negb (black && negb (bool_decide (node = root))) then ret node else
    par <- not_null parent ;;
    pn <- node_get par ;;
    if decide (rb_left pn = node) then
      other <- not_null (rb_right pn) ;;
      red <- is_red other ;;
      other <- (if red : bool then
                  rb_set_black other ;;;
                  rb_set_red par ;;;
                  __rb_rotate_left par ;;;
                  pn <- node_get par ;;
                  not_null (rb_right pn)
                else ret other) ;;
      o <- node_get other ;;
      lb <- null_or_black (rb_left o) ;;
      rb <- null_or_black (rb_right o) ;;
      if lb && rb then
        rb_set_red other ;;;
        pn <- node_get par ;;
        __rb_erase_color_loop fuel (Some par) (rb_parent pn)
      else
        other <- (if rb : bool then
                    when_some (rb_left o) rb_set_black ;;;
                    rb_set_red other ;;;
                    __rb_rotate_right other ;;;
                    pn <- node_get par ;;
                    not_null (rb_right pn)
                  else ret other) ;;
        pn <- node_get par ;;
        rb_set_color other (rb_color pn) ;;;
        rb_set_black par ;;;
        o <- node_get other ;;
        when_some (rb_right o) rb_set_black ;;;
        __rb_rotate_left par ;;;
        root_get
    else
      other <- not_null (rb_left pn) ;;
      red <- is_red other ;;
      other <- (if red : bool then
                  rb_set_black other ;;;
                  rb_set_red par ;;;
                  __rb_rotate_right par ;;;
                  pn <- node_get par ;;
                  not_null (rb_left pn)
                else ret other) ;;
      o <- node_get other ;;
      lb <- null_or_black (rb_left o) ;;
      rb <- null_or_black (rb_right o) ;;
      if lb && rb then
        rb_set_red other ;;;
        pn <- node_get par ;;
        __rb_erase_color_loop fuel (Some par) (rb_parent pn)
      else
        other <- (if lb : bool then
                    when_some (rb_right o) rb_set_black ;;;
                    rb_set_red other ;;;
                    __rb_rotate_left other ;;;
                    pn <- node_get par ;;
                    not_null (rb_left pn)
                  else ret other) ;;
        pn <- node_get par ;;
        rb_set_color other (rb_color pn) ;;;
        rb_set_black par ;;;
        o <- node_get other ;;
        when_some (rb_left o) rb_set_black ;;;
        __rb_rotate_right par ;;;
        root_get
  end.

Definition __rb_erase_color (node parent : option ptr) : act rb_mem unit :=
  fuel <- gets fuel_of ;;
  node <- __rb_erase_color_loop fuel node parent ;;
  when_some node rb_set_black.

(** Follow the left, respectively right, links to the end. *)
Fixpoint leftmost (fuel : nat) (n : ptr) : act rb_mem ptr :=
  match fuel with
  | O => bug
  | S fuel =>
      nd <- node_get n ;;
      match rb_left nd with Some l => leftmost fuel l | None => ret n end
  end.

Fixpoint rightmost (fuel : nat) (n : ptr) : act rb_mem ptr :=
  match fuel with
  | O => bug
  | S fuel =>
      nd <- node_get n ;;
      match rb_right nd with Some r => rightmost fuel r | None => ret n end
  end.

(** [rb_erase] of a node with two children: its successor takes its place. *)
Definition rb_erase_two (old succ : ptr) : act rb_mem (option ptr * option ptr * rb_colour) :=
  fuel <- gets fuel_of ;;
  node <- leftmost fuel succ ;;
  n <- node_get node ;;
  let child := rb_right n in
  parent <- not_null (rb_parent n) ;;
  let color := rb_color n in
  when_some child (fun c => rb_set_parent c (Some parent)) ;;;
  parent <- (if decide (parent = old)
             then set_right parent child ;;; ret node
             else set_left parent child ;;; ret parent) ;;
  o <- node_get old ;;
  node_update node (fun _ => RbNode (rb_parent o) (rb_color o) (rb_right o) (rb_left o)) ;;;
  match rb_parent o with
  | Some g =>
      gn <- node_get g ;;
      if decide (rb_left gn = Some old) then set_left g (Some node) else set_right g (Some node)
  | None => set_root (Some node)
  end ;;;
  left <- not_null (rb_left o) ;;
  rb_set_parent left (Some node) ;;;
  when_some (rb_right o) (fun r => rb_set_parent r (Some node)) ;;;
  ret (child, Some parent, color).

(** [rb_erase] of a node with at most one child, which takes its place. *)
Definition rb_erase_one (node : ptr) (child : option ptr)
    : act rb_mem (option ptr * option ptr * rb_colour) :=
  n <- node_get node ;;
  let parent := rb_parent n in
  let color := rb_color n in
  when_some child (fun c => rb_set_parent c parent) ;;;
  match parent with
  | Some p =>
      pn <- node_get p ;;
      if decide (rb_left pn = Some node) then set_left p child else set_right p child
  | None => set_root child
  end ;;;
  ret (child, parent, color).

Definition rb_erase_node (node : ptr) : act rb_mem unit :=
  n <- node_get node ;;
  cpc <- match rb_left n, rb_right n with
         | None, child => rb_erase_one node child
         | child, None => rb_erase_one node child
         | Some _, Some succ => rb_erase_two node succ
         end ;;
  let '(child, parent, color) := cpc in
  if decide (color = RB_BLACK) then __rb_erase_color child parent else ret tt.

Definition rb_first_node : act rb_mem (option ptr) :=
  root <- root_get ;;
  match root with
  | None => ret None
  | Some n => fuel <- gets fuel_of ;; n <- leftmost fuel n ;; ret (Some n)
  end.

Definition rb_last_node : act rb_mem (option ptr) :=
  root <- root_get ;;
  match root with
  | None => ret None
  | Some n => fuel <- gets fuel_of ;; n <- rightmost fuel n ;; ret (Some n)
  end.

(** Climb while the node is the right, respectively left, child. *)
Fixpoint climb_right (fuel : nat) (node : ptr) : act rb_mem (option ptr) :=
  match fuel with
  | O => bug
  | S fuel =>
      n <- node_get node ;;
      match rb_parent n with
      | None => ret None
      | Some parent =>
          pn <- node_get parent ;;
          if decide (rb_right pn = Some node) then climb_right fuel parent else ret (Some parent)
      end
  end.

Fixpoint climb_left (fuel : nat) (node : ptr) : act rb_mem (option ptr) :=
  match fuel with
  | O => bug
  | S fuel =>
      n <- node_get node ;;
      match rb_parent n with
      | None => ret None
      | Some parent =>
          pn <- node_get parent ;;
          if decide (rb_left pn = Some node) then climb_left fuel parent else ret (Some parent)
      end
  end.

Definition rb_next_node (node : ptr) : act rb_mem (option ptr) :=
  n <- node_get node ;;
  if decide (rb_parent n = Some node) then ret None else
  fuel <- gets fuel_of ;;
  match rb_right n with
  | Some r => r <- leftmost fuel r ;; ret (Some r)
  | None => climb_right fuel node
  end.

Definition rb_prev_node (node : ptr) : act rb_mem (option ptr) :=
  n <- node_get node ;;
  if decide (rb_parent n = Some node) then ret None else
  fuel <- gets fuel_of ;;
  match rb_left n with
  | Some l => l <- rightmost fuel l ;; ret (Some l)
  | None => climb_left fuel node
  end.

Definition rb_replace_node (victim new : ptr) : act rb_mem unit :=
  v <- node_get victim ;;
  match rb_parent v with
  | Some parent =>
      pn <- node_get parent ;;
      if decide (rb_left pn = Some victim) then set_left parent (Some new)
      else set_right parent (Some new)
  | None => set_root (Some new)
  end ;;;
  when_some (rb_left v) (fun l => rb_set_parent l (Some new)) ;;;
  when_some (rb_right v) (fun r => rb_set_parent r (Some new)) ;;;
  v <- node_get victim ;;
  node_put new v.

Definition link_get (l : rb_link) : act rb_mem (option ptr) :=
  match l with
  | LinkRoot => root_get
  | LinkLeft p => n <- node_get p ;; ret (rb_left n)
  | LinkRight p => n <- node_get p ;; ret (rb_right n)
  end.
Definition link_set (l : rb_link) (o : option ptr) : act rb_mem unit :=
  match l with
  | LinkRoot => set_root o
  | LinkLeft p => set_left p o
  | LinkRight p => set_right p o
  end.

Definition rb_link_node (node : ptr) (parent : option ptr) (link : rb_link) : act rb_mem unit :=
  node_put node (RbNode parent RB_RED None None) ;;;
  link_set link (Some node).

(** The walk down of [rb_insert]: the link to fill and its parent, or a node
    that compares equal. *)
Fixpoint rb_insert_walk (fuel : nat) (comp : cmp_key) (p : rb_link) (parent : option ptr)
    : act rb_mem (option (rb_link * option ptr)) :=
  match fuel with
  | O => bug
  | S fuel =>
      o <- link_get p ;;
      match o with
      | None => ret (Some (p, parent))
      | Some n =>
          r <- assume_some (comp n) ;;
          if r <? 0 then rb_insert_walk fuel comp (LinkLeft n) (Some n)
          else if 0 <? r then rb_insert_walk fuel comp (LinkRight n) (Some n)
          else ret None
      end
  end.

Definition rb_insert_node (node : ptr) (comp : cmp_key) : act rb_mem Z :=
  fuel <- gets fuel_of ;;
  w <- rb_insert_walk fuel comp LinkRoot None ;;
  match w with
  | None => ret (- EEXIST)
  | Some (p, parent) => rb_link_node node parent p ;;; rb_insert_color node ;;; ret 0
  end.

(** The walk of [rb_search]: the match, or the last node compared with and
    the result of the comparison. *)
Fixpoint rb_search_walk (fuel : nat) (comp : cmp_key) (n parent : option ptr) (r : Z)
    : act rb_mem (ptr + option ptr * Z) :=
  match fuel with
  | O => bug
  | S fuel =>
      match n with
      | None => ret (inr (parent, r))
      | Some q =>
          r <- assume_some (comp q) ;;
          nd <- node_get q ;;
          if r <? 0 then rb_search_walk fuel comp (rb_left nd) (Some q) r
          else if 0 <? r then rb_search_walk fuel comp (rb_right nd) (Some q) r
          else ret (inl q)
      end
  end.

(** [rb_search] with a non-null [next_ret]. *)
Definition rb_search_node (comp : cmp_key) : act rb_mem (option ptr * option ptr) :=
  fuel <- gets fuel_of ;;
  root <- root_get ;;
  w <- rb_search_walk fuel comp root None 0 ;;
  match w with
  | inl q => ret (Some q, None)
  | inr (Some parent, r) =>
      if 0 <? r then n <- rb_next_node parent ;; ret (None, n) else ret (None, Some parent)
  | inr (None, _) => ret (None, None)
  end.

(** [rb_free_nodes]: the nodes given to [free_node], in order. *)
Fixpoint rb_free_nodes (fuel : nat) : act rb_mem (list ptr) :=
  match fuel with
  | O => bug
  | S fuel =>
      o <- rb_first_node ;;
      match o with
      | None => ret []
      | Some node => rb_erase_node node ;;; l <- rb_free_nodes fuel ;; ret (node :: l)
      end
  end.
End Rb.
