(* ===== verification/RbShape.v ===== *)
(** Trees in the node memory of [RbTree].

    [holds m t]: the root and the nodes of [m] link exactly the shape [t].
    [plug C t] is [t] in a one-hole context, whose frames are the way up along
    the parent pointers.  Each primitive of [rbtree.c] (a recolouring, a
    rotation, a splice, a replacement) is an equation between runs that takes
    [holds m (plug C t)] to [holds m' (plug C t')]. *)

From S2P Require Import Prelude RbSpec RbTree.

Inductive tree := Leaf | Node (c : rb_colour) (l : tree) (p : ptr) (r : tree).

Definition rootp (t : tree) : option ptr := match t with Leaf => None | Node _ _ p _ => Some p end.

Fixpoint elems (t : tree) : list ptr :=
  match t with Leaf => [] | Node _ l p r => elems l ++ p :: elems r end.

(** The side of its parent the hole is on. *)
Inductive side := SLeft | SRight.

Inductive frame := Frame (d : side) (c : rb_colour) (p : ptr) (s : tree).

Definition fill (f : frame) (t : tree) : tree :=
  match f with
  | Frame SLeft c p s => Node c t p s
  | Frame SRight c p s => Node c s p t
  end.

Fixpoint plug (C : list frame) (t : tree) : tree :=
  match C with [] => t | f :: C' => plug C' (fill f t) end.

Definition parent_of (C : list frame) : option ptr :=
  match C with [] => None | Frame _ _ p _ :: _ => Some p end.

(** The nodes of the context before and after the hole, in order. *)
Fixpoint before (C : list frame) : list ptr :=
  match C with
  | [] => []
  | Frame SLeft _ _ _ :: C' => before C'
  | Frame SRight _ p s :: C' => before C' ++ elems s ++ [p]
  end.
Fixpoint after (C : list frame) : list ptr :=
  match C with
  | [] => []
  | Frame SLeft _ p s :: C' => p :: elems s ++ after C'
  | Frame SRight _ _ _ :: C' => after C'
  end.

Lemma elems_plug C t : elems (plug C t) = before C ++ elems t ++ after C.
Proof.
  revert t. induction C as [|[[] c p s] C IH]; intros t; simpl; [by rewrite app_nil_r| |];
    rewrite IH; simpl; by rewrite <- !(assoc_L (++)).
Qed.

Lemma plug_app C D t : plug (C ++ D) t = plug D (plug C t).
Proof. revert t. induction C as [|f C IH]; intros t; simpl; auto. Qed.

Implicit Types (h : gmap ptr rb_node) (m : rb_mem) (t : tree) (C : list frame).

Fixpoint repr h (par : option ptr) t : Prop :=
  match t with
  | Leaf => True
  | Node c l p r =>
      h !! p = Some (RbNode par c (rootp r) (rootp l)) /\ repr h (Some p) l /\ repr h (Some p) r
  end.

Definition frame_node (d : side) (par : option ptr) (c : rb_colour) (s : tree) (o : option ptr) : rb_node :=
  match d with
  | SLeft => RbNode par c (rootp s) o
  | SRight => RbNode par c o (rootp s)
  end.

Fixpoint repr_ctx h (root : option ptr) C (o : option ptr) : Prop :=
  match C with
  | [] => root = o
  | Frame d c p s :: C' =>
      h !! p = Some (frame_node d (parent_of C') c s o) /\ repr h (Some p) s /\
      repr_ctx h root C' (Some p)
  end.

Definition holds m t : Prop :=
  repr (rb_nodes m) None t /\ rb_root m = rootp t /\ NoDup (elems t).

Lemma repr_plug h root C t :
  repr h None (plug C t) /\ root = rootp (plug C t) <->
  repr h (parent_of C) t /\ repr_ctx h root C (rootp t).
Proof.
  revert t. induction C as [|[[] c p s] C IH]; intros t; simpl; [done| |];
    rewrite IH; simpl; tauto.
Qed.

Lemma holds_plug m C t :
  holds m (plug C t) <->
  repr (rb_nodes m) (parent_of C) t /\ repr_ctx (rb_nodes m) (rb_root m) C (rootp t) /\
  NoDup (before C ++ elems t ++ after C).
Proof.
  unfold holds. rewrite elems_plug. pose proof (repr_plug (rb_nodes m) (rb_root m) C t). tauto.
Qed.

(** ** Frames: what does not look at the changed nodes *)

Lemma repr_agree h h' par t :
  (forall p, p ∈ elems t -> h' !! p = h !! p) -> repr h par t -> repr h' par t.
Proof.
  revert par. induction t as [|c l IHl p r IHr]; intros par Hag; simpl; [done|].
  intros (Hp & Hl & Hr). split; [|split].
  - rewrite Hag by (simpl; set_solver). done.
  - apply IHl; [|done]. intros q Hq. apply Hag. simpl. set_solver.
  - apply IHr; [|done]. intros q Hq. apply Hag. simpl. set_solver.
Qed.

Lemma repr_ctx_agree h h' root C o :
  (forall p, p ∈ before C ++ after C -> h' !! p = h !! p) ->
  repr_ctx h root C o -> repr_ctx h' root C o.
Proof.
  revert o. induction C as [|[d c p s] C IH]; intros o Hag; simpl; [done|].
  intros (Hp & Hs & HC). split; [|split].
  - rewrite Hag by (destruct d; simpl; set_solver). done.
  - eapply repr_agree; [|exact Hs]. intros q Hq. apply Hag. destruct d; simpl; set_solver.
  - apply IH; [|done]. intros q Hq. apply Hag. destruct d; simpl; set_solver.
Qed.

Lemma holds_root m t : holds m t -> rb_root m = rootp t.
Proof. by intros (_ & ? & _). Qed.
Lemma holds_nodup m t : holds m t -> NoDup (elems t).
Proof. by intros (_ & _ & ?). Qed.

Lemma holds_get m C c l p r :
  holds m (plug C (Node c l p r)) ->
  rb_nodes m !! p = Some (RbNode (parent_of C) c (rootp r) (rootp l)).
Proof. rewrite holds_plug. by intros ((? & _) & _). Qed.

(** Every node of the tree is in memory, so the fuel exceeds their number. *)
Lemma repr_elem h par t p : repr h par t -> p ∈ elems t -> is_Some (h !! p).
Proof.
  revert par. induction t as [|c l IHl q r IHr]; intros par; simpl; [set_solver|].
  intros (Hq & Hl & Hr) [Hp|[->|Hp]%elem_of_cons]%elem_of_app; eauto.
Qed.

Lemma holds_size m t : holds m t -> (length (elems t) <= size (rb_nodes m))%nat.
Proof.
  intros (Hr & _ & Hnd). rewrite <- size_dom.
  rewrite <- (size_list_to_set (C := gset ptr)) by done.
  apply subseteq_size. intros p Hp%elem_of_list_to_set. apply elem_of_dom. by eapply repr_elem.
Qed.

Lemma plug_length C t : (length C + length (elems t) <= length (elems (plug C t)))%nat.
Proof.
  revert t. induction C as [|[[] c p s] C IH]; intros t; simpl; [lia| |];
    (etrans; [|apply IH]); simpl; rewrite length_app; simpl; lia.
Qed.

Lemma holds_fuel m C t : holds m (plug C t) -> (length C + length (elems t) + 1 < fuel_of m)%nat.
Proof.
  intros Hm. pose proof (holds_size _ _ Hm). pose proof (plug_length C t). unfold fuel_of. lia.
Qed.

(** ** Running the accessors *)

Definition with_nodes m h : rb_mem := RbMem (rb_root m) h.
Definition node_set m (p : ptr) (n : rb_node) : rb_mem := with_nodes m (<[p := n]> (rb_nodes m)).

Section Runs.
Context {X : Type}.

Lemma run_node_get m p n (k : rb_node -> act rb_mem X) :
  rb_nodes m !! p = Some n -> bind (node_get p) k m = k n m.
Proof. intros Hp. unfold bind, node_get, deref. by rewrite Hp. Qed.

Lemma run_update m p n f (k : unit -> act rb_mem X) :
  rb_nodes m !! p = Some n -> bind (node_update p f) k m = k tt (node_set m p (f n)).
Proof. intros Hp. unfold node_update, bind, node_get, deref. by rewrite Hp. Qed.

Lemma run_is_red m p n (k : bool -> act rb_mem X) :
  rb_nodes m !! p = Some n -> bind (is_red p) k m = k (bool_decide (rb_color n = RB_RED)) m.
Proof. intros Hp. unfold is_red, bind, node_get, deref. by rewrite Hp. Qed.
End Runs.

(** ** The primitives of [rbtree.c] on shapes: recolouring, rotations, splices. *)

Implicit Types (a b d l r s : tree).

(** Split a [NoDup] hypothesis into disjointness facts. *)
Ltac split_nodup H :=
  repeat (rewrite NoDup_app in H || rewrite NoDup_cons in H); destruct_and? H.

Lemma run_set m p n f :
  rb_nodes m !! p = Some n -> node_update p f m = Some (tt, node_set m p (f n)).
Proof. intros Hp. unfold node_update, bind, node_get, deref. by rewrite Hp. Qed.

Lemma set_color_holds m C c c' l p r :
  holds m (plug C (Node c l p r)) ->
  exists m', rb_set_color p c' m = Some (tt, m') /\ holds m' (plug C (Node c' l p r)).
Proof.
  rewrite holds_plug. intros ((Hp & Hl & Hr) & HC & Hnd).
  eexists. split; [by apply run_set|].
  rewrite holds_plug. simpl in *. split; [|split].
  - rewrite lookup_insert_eq. split; [done|].
    split_nodup Hnd. split; (eapply repr_agree; [|done]); intros q Hq;
      rewrite lookup_insert_ne; [done|set_solver|done|set_solver].
  - eapply repr_ctx_agree; [|done]. intros q Hq. rewrite lookup_insert_ne; [done|].
    split_nodup Hnd. set_solver.
  - done.
Qed.

(** Give the subtree a new parent. *)
Lemma reparent_repr m par par' t :
  repr (rb_nodes m) par t -> NoDup (elems t) ->
  exists h, when_some (rootp t) (fun q => rb_set_parent q par') m = Some (tt, with_nodes m h) /\
    repr h par' t /\ (forall p, p ∉ elems t -> h !! p = rb_nodes m !! p).
Proof.
  destruct t as [|c l p r]; simpl.
  - intros _ _. exists (rb_nodes m). by destruct m.
  - intros (Hp & Hl & Hr) Hnd. split_nodup Hnd. eexists. split; [by apply run_set|]. split.
    + rewrite lookup_insert_eq. split; [done|].
      split; (eapply repr_agree; [|done]); intros q Hq;
        rewrite lookup_insert_ne; [done|set_solver|done|set_solver].
    + intros q Hq. rewrite lookup_insert_ne; [done|]. set_solver.
Qed.

(** Redirect the parent's link from one node to another; the two functions
    differ in the link they test first. *)
Definition relink_left (parent : option ptr) (node : ptr) (new : option ptr) : act rb_mem unit :=
  match parent with
  | Some p =>
      bind (node_get p) (fun g =>
      if decide (rb_left g = Some node) then set_left p new else set_right p new)
  | None => set_root new
  end.
Definition relink_right (parent : option ptr) (node : ptr) (new : option ptr) : act rb_mem unit :=
  match parent with
  | Some p =>
      bind (node_get p) (fun g =>
      if decide (rb_right g = Some node) then set_right p new else set_left p new)
  | None => set_root new
  end.

Lemma rootp_elem t p : rootp t = Some p -> p ∈ elems t.
Proof. destruct t; simpl; [done|]. intros [= ->]. set_solver. Qed.

Lemma relink_repr m C node new relink :
  relink = relink_left \/ relink = relink_right ->
  repr_ctx (rb_nodes m) (rb_root m) C (Some node) -> node ∉ before C ++ after C ->
  NoDup (before C ++ after C) ->
  exists m', relink (parent_of C) node new m = Some (tt, m') /\
    repr_ctx (rb_nodes m') (rb_root m') C new /\
    (forall p, p ∉ before C ++ after C -> rb_nodes m' !! p = rb_nodes m !! p).
Proof.
  intros Hre HC Hno Hnd. destruct C as [|[d c p s] C]; simpl in *.
  { exists (RbMem new (rb_nodes m)). by destruct Hre as [-> | ->]. }
  destruct HC as (Hp & Hs & HC).
  exists (node_set m p (frame_node d (parent_of C) c s new)). split; [|split].
  - assert (rootp s <> Some node) by (intros ?%rootp_elem; destruct d; simpl in Hno; set_solver).
    destruct Hre as [Hre | Hre], d; subst relink; unfold relink_left, relink_right;
      (erewrite bind_some by (unfold node_get, deref; rewrite Hp; reflexivity)); simpl;
      rewrite ?decide_True, ?decide_False by done;
      unfold set_left, set_right; by erewrite run_set by done.
  - simpl. rewrite lookup_insert_eq. split; [done|].
    assert (p ∉ elems s /\ p ∉ before C ++ after C) as [Hps HpC].
    { destruct d; simpl in Hnd; split_nodup Hnd; set_solver. }
    split.
    + eapply repr_agree; [|done]. intros q Hq. rewrite lookup_insert_ne; [done|set_solver].
    + eapply repr_ctx_agree; [|done]. intros q Hq. rewrite lookup_insert_ne; [done|set_solver].
  - intros q Hq. simpl. rewrite lookup_insert_ne; [done|]. destruct d; simpl in Hq; set_solver.
Qed.

Lemma node_get_run m p n : rb_nodes m !! p = Some n -> node_get p m = Some (n, m).
Proof. intros Hp. unfold node_get, deref. by rewrite Hp. Qed.

(** Evaluate a lookup in updated memory. *)
Ltac distinct := first [ assumption | congruence | done ].
Ltac look :=
  simpl; repeat first
    [ rewrite lookup_insert_eq
    | rewrite lookup_insert_ne by distinct
    | match goal with
      | H : forall p, p ∉ _ -> ?h !! p = _ |- context [?h !! _] => rewrite H by distinct
      | H : forall p, p ∉ _ -> rb_nodes ?m !! p = _ |- context [rb_nodes ?m !! _] =>
          rewrite H by distinct
      end
    | progress simpl ];
  try done.

(** Three subtrees, the two nodes between them and the context are disjoint. *)
Record apart C a x b y d : Prop := {
  apart_xy : x <> y;
  apart_x : x ∉ before C ++ after C /\ x ∉ elems a /\ x ∉ elems b /\ x ∉ elems d;
  apart_y : y ∉ before C ++ after C /\ y ∉ elems a /\ y ∉ elems b /\ y ∉ elems d;
  apart_a : forall q, q ∈ elems a -> q <> x /\ q <> y /\ q ∉ elems b /\ q ∉ before C ++ after C;
  apart_b : forall q, q ∈ elems b -> q <> x /\ q <> y /\ q ∉ before C ++ after C;
  apart_d : forall q, q ∈ elems d -> q <> x /\ q <> y /\ q ∉ elems b /\ q ∉ before C ++ after C;
  apart_ctx : forall q, q ∈ before C ++ after C -> q <> x /\ q <> y /\ q ∉ elems b;
  apart_nodup : NoDup (before C ++ after C) /\ NoDup (elems b);
}.

Lemma apart_intro C a x b y d :
  NoDup (before C ++ (elems a ++ x :: elems b ++ y :: elems d) ++ after C) -> apart C a x b y d.
Proof.
  intros Hn. split_nodup Hn.
  split; [set_solver..|]. split; [|done]. rewrite NoDup_app. set_solver.
Qed.

Lemma elems_assoc a x b y d :
  elems (Node RB_RED (Node RB_RED a x b) y d) = elems a ++ x :: elems b ++ y :: elems d.
Proof. simpl. by rewrite <- (assoc_L (++)). Qed.

Lemma rotate_left_holds m C c c' a x b y d :
  holds m (plug C (Node c a x (Node c' b y d))) ->
  exists m', __rb_rotate_left x m = Some (tt, m') /\
    holds m' (plug C (Node c' (Node c a x b) y d)).
Proof.
  rewrite holds_plug. simpl. intros ((Hx & Ha & Hy & Hb & Hd) & HC & Hnd).
  destruct (apart_intro _ _ _ _ _ _ Hnd)
    as [Hxy (?&?&?&?) (?&?&?&?) Has Hbs Hds HCs [HndC Hndb]].
  pose (m1 := node_set m x (RbNode (parent_of C) c (rootp b) (rootp a))).
  destruct (reparent_repr m1 (Some y) (Some x) b) as (h2 & Hrun2 & Hb2 & Hag2); [|done|].
  { eapply repr_agree; [|exact Hb]. intros q Hq. destruct (Hbs q Hq) as (? & ? & ?). unfold m1. look. }
  pose (m3 := node_set (with_nodes m1 h2) y (RbNode (Some x) c' (rootp d) (Some x))).
  pose (m4 := node_set m3 y (RbNode (parent_of C) c' (rootp d) (Some x))).
  destruct (relink_repr m4 C x (Some y) relink_left) as (m5 & Hrun5 & HC5 & Hag5);
    [by left| |done|done|].
  { eapply repr_ctx_agree; [|exact HC]. intros q Hq. destruct (HCs q Hq) as (? & ? & ?).
    unfold m4, m3, m1. look. }
  exists (node_set m5 x (RbNode (Some y) c (rootp b) (rootp a))). split.
  - unfold __rb_rotate_left. eapply bind_run; [by apply node_get_run|].
    eapply bind_run; [done|]. eapply bind_run; [by apply node_get_run|].
    eapply bind_run; [by apply run_set|]. eapply bind_run; [exact Hrun2|].
    eapply bind_run; [apply run_set; look|]. eapply bind_run; [apply run_set; look|].
    eapply bind_run; [exact Hrun5|].
    apply (run_set m5 x (RbNode (parent_of C) c (rootp b) (rootp a)) (with_parent (Some y))). look.
  - rewrite holds_plug. simpl. look. split_and!; try done.
    + eapply repr_agree; [|exact Ha]. intros q Hq. destruct (Has q Hq) as (? & ? & ? & ?). look.
    + eapply repr_agree; [|exact Hb2]. intros q Hq. destruct (Hbs q Hq) as (? & ? & ?). look.
    + eapply repr_agree; [|exact Hd]. intros q Hq. destruct (Hds q Hq) as (? & ? & ? & ?). look.
    + eapply repr_ctx_agree; [|exact HC5]. intros q Hq. destruct (HCs q Hq) as (? & ? & ?). look.
    + by rewrite <- elems_assoc in Hnd.
Qed.

Lemma rotate_right_holds m C c c' a x b y d :
  holds m (plug C (Node c (Node c' a x b) y d)) ->
  exists m', __rb_rotate_right y m = Some (tt, m') /\
    holds m' (plug C (Node c' a x (Node c b y d))).
Proof.
  rewrite holds_plug. simpl. intros ((Hy & (Hx & Ha & Hb) & Hd) & HC & Hnd).
  pose proof (elems_assoc a x b y d) as He. simpl in He. rewrite He in Hnd.
  destruct (apart_intro _ _ _ _ _ _ Hnd)
    as [Hxy (?&?&?&?) (?&?&?&?) Has Hbs Hds HCs [HndC Hndb]].
  pose (m1 := node_set m y (RbNode (parent_of C) c (rootp d) (rootp b))).
  destruct (reparent_repr m1 (Some x) (Some y) b) as (h2 & Hrun2 & Hb2 & Hag2); [|done|].
  { eapply repr_agree; [|exact Hb]. intros q Hq. destruct (Hbs q Hq) as (? & ? & ?). unfold m1. look. }
  pose (m3 := node_set (with_nodes m1 h2) x (RbNode (Some y) c' (Some y) (rootp a))).
  pose (m4 := node_set m3 x (RbNode (parent_of C) c' (Some y) (rootp a))).
  destruct (relink_repr m4 C y (Some x) relink_right) as (m5 & Hrun5 & HC5 & Hag5);
    [by right| |done|done|].
  { eapply repr_ctx_agree; [|exact HC]. intros q Hq. destruct (HCs q Hq) as (? & ? & ?).
    unfold m4, m3, m1. look. }
  exists (node_set m5 y (RbNode (Some x) c (rootp d) (rootp b))). split.
  - unfold __rb_rotate_right. eapply bind_run; [by apply node_get_run|].
    eapply bind_run; [done|]. eapply bind_run; [by apply node_get_run|].
    eapply bind_run; [by apply run_set|]. eapply bind_run; [exact Hrun2|].
    eapply bind_run; [apply run_set; look|]. eapply bind_run; [apply run_set; look|].
    eapply bind_run; [exact Hrun5|].
    apply (run_set m5 y (RbNode (parent_of C) c (rootp d) (rootp b)) (with_parent (Some x))). look.
  - rewrite holds_plug. simpl. look. split_and!; try done.
    + eapply repr_agree; [|exact Ha]. intros q Hq. destruct (Has q Hq) as (? & ? & ? & ?). look.
    + eapply repr_agree; [|exact Hb2]. intros q Hq. destruct (Hbs q Hq) as (? & ? & ?). look.
    + eapply repr_agree; [|exact Hd]. intros q Hq. destruct (Hds q Hq) as (? & ? & ? & ?). look.
    + eapply repr_ctx_agree; [|exact HC5]. intros q Hq. destruct (HCs q Hq) as (? & ? & ?). look.
Qed.

(** ** Linking a new leaf, taking a node out, replacing a node *)

Definition link_of C : rb_link :=
  match C with
  | [] => LinkRoot
  | Frame SLeft _ p _ :: _ => LinkLeft p
  | Frame SRight _ p _ :: _ => LinkRight p
  end.

Lemma repr_ctx_head h h' root C o o' :
  repr_ctx h root C o -> NoDup (before C ++ after C) ->
  match C with
  | [] => True
  | Frame d c p s :: C' => h' = <[p := frame_node d (parent_of C') c s o']> h
  end -> repr_ctx h' (match C with [] => o' | _ => root end) C o'.
Proof.
  destruct C as [|[d c p s] C]; simpl; [done|]. intros (Hp & Hs & HC) Hnd ->.
  assert (p ∉ elems s /\ p ∉ before C ++ after C) as [Hps HpC].
  { destruct d; simpl in Hnd; split_nodup Hnd; set_solver. }
  rewrite lookup_insert_eq. split_and!; [done| |].
  - eapply repr_agree; [|done]. intros q Hq. rewrite lookup_insert_ne; [done|set_solver].
  - eapply repr_ctx_agree; [|done]. intros q Hq. rewrite lookup_insert_ne; [done|set_solver].
Qed.

Lemma link_holds m C p :
  holds m (plug C Leaf) -> p ∉ elems (plug C Leaf) ->
  exists m', rb_link_node p (parent_of C) (link_of C) m = Some (tt, m') /\
    holds m' (plug C (Node RB_RED Leaf p Leaf)).
Proof.
  rewrite elems_plug. rewrite holds_plug. simpl. intros (_ & HC & Hnd) Hp.
  pose (n := RbNode (parent_of C) RB_RED None None).
  assert (HC1 : repr_ctx (<[p := n]> (rb_nodes m)) (rb_root m) C None).
  { eapply repr_ctx_agree; [|done]. intros q Hq. rewrite lookup_insert_ne; [done|set_solver]. }
  assert (Hnd' : NoDup (before C ++ p :: after C)).
  { apply NoDup_app. split_nodup Hnd. rewrite NoDup_cons. set_solver. }
  unfold rb_link_node. destruct C as [|[d c g s] C].
  - eexists. split; [reflexivity|]. rewrite holds_plug. simpl in *. by rewrite lookup_insert_eq.
  - pose proof HC1 as (Hg & _).
    exists (RbMem (rb_root m) (<[g := frame_node d (parent_of C) c s (Some p)]> (<[p := n]> (rb_nodes m)))).
    split.
    + eapply bind_run; [reflexivity|]. destruct d; exact (run_set (node_set m p n) g _ _ Hg).
    + rewrite holds_plug. split_and!; [|apply (repr_ctx_head _ _ _ _ _ (Some p) HC1 Hnd eq_refl)|done].
      simpl. rewrite lookup_insert_ne, lookup_insert_eq; [done|]. destruct d; simpl in Hp; set_solver.
Qed.

(** The subtree [t] takes the place of the node [p], its parent. *)
Lemma splice_holds m C c l p r t :
  holds m (plug C (Node c l p r)) -> (l = Leaf /\ t = r \/ r = Leaf /\ t = l) ->
  exists m', rb_erase_one p (rootp t) m = Some ((rootp t, parent_of C, c), m') /\
    holds m' (plug C t).
Proof.
  intros Hm Ht. pose proof (holds_get _ _ _ _ _ _ Hm) as Hp.
  rewrite holds_plug in Hm. destruct Hm as ((_ & Hl & Hr) & HC & Hnd).
  assert (Hrt : repr (rb_nodes m) (Some p) t) by (by destruct Ht as [[_ ->]|[_ ->]]).
  assert (Hnd' : NoDup (before C ++ (p :: elems t) ++ after C)).
  { destruct Ht as [[-> ->]|[-> ->]]; [done|]. simpl in Hnd. by rewrite (Permutation_app_comm (elems l) [p]) in Hnd. }
  assert (Hd : NoDup (elems t) /\ NoDup (before C ++ elems t ++ after C) /\ NoDup (before C ++ after C)
    /\ p ∉ before C ++ after C /\ forall q, q ∈ elems t -> q ∉ before C ++ after C).
  { clear -Hnd'. split_nodup Hnd'. rewrite !NoDup_app. set_solver. }
  clear Hnd Hnd'. destruct Hd as (Hndt & Hnd & HndC & HpC & HtC).
  destruct (reparent_repr m (Some p) (parent_of C) t) as (h1 & Hrun1 & Ht1 & Hag1); [done|done|].
  destruct (relink_repr (with_nodes m h1) C p (rootp t) relink_left)
    as (m2 & Hrun2 & HC2 & Hag2); [by left| |done|done|].
  { eapply repr_ctx_agree; [|exact HC]. intros q Hq. apply Hag1. intros Hq'. by apply (HtC q). }
  exists m2. split.
  - unfold rb_erase_one. eapply bind_run; [by apply node_get_run|].
    eapply bind_run; [exact Hrun1|]. by eapply bind_run; [exact Hrun2|].
  - rewrite holds_plug. split_and!; [|done|done].
    eapply repr_agree; [|exact Ht1]. intros q Hq. by apply Hag2, HtC.
Qed.

(** The links around [p] redirected to [q]; only the node [q] is left to fill. *)
Lemma redirect_holds m C c l p r q :
  repr (rb_nodes m) (Some p) l -> repr (rb_nodes m) (Some p) r ->
  repr_ctx (rb_nodes m) (rb_root m) C (Some p) ->
  NoDup (p :: q :: before C ++ (elems l ++ elems r) ++ after C) ->
  exists m1 h2 h3,
    relink_left (parent_of C) p (Some q) m = Some (tt, m1) /\
    when_some (rootp l) (fun x => rb_set_parent x (Some q)) m1 = Some (tt, with_nodes m1 h2) /\
    when_some (rootp r) (fun x => rb_set_parent x (Some q)) (with_nodes m1 h2)
      = Some (tt, with_nodes m1 h3) /\
    h3 !! p = rb_nodes m !! p /\ h3 !! q = rb_nodes m !! q /\
    holds (node_set (with_nodes m1 h3) q (RbNode (parent_of C) c (rootp r) (rootp l)))
      (plug C (Node c l q r)).
Proof.
  intros Hl Hr HC Hnd.
  assert (Hd : NoDup (before C ++ after C) /\ NoDup (elems l) /\ NoDup (elems r) /\
    (p ∉ before C ++ after C /\ p ∉ elems l /\ p ∉ elems r) /\
    (q ∉ before C ++ after C /\ q ∉ elems l /\ q ∉ elems r) /\
    (forall x, x ∈ elems l -> x ∉ before C ++ after C /\ x ∉ elems r /\ x <> q) /\
    (forall x, x ∈ elems r -> x ∉ before C ++ after C /\ x ∉ elems l /\ x <> q) /\
    (forall x, x ∈ before C ++ after C -> x ∉ elems l /\ x ∉ elems r /\ x <> q)).
  { clear -Hnd. split_nodup Hnd. rewrite NoDup_app. split_and!; try done; set_solver. }
  destruct Hd as (HndC & Hndl & Hndr & (?&?&?) & (?&?&?) & Hls & Hrs & HCs).
  destruct (relink_repr m C p (Some q) relink_left) as (m1 & Hrun1 & HC1 & Hag1);
    [by left|done|done|done|].
  destruct (reparent_repr m1 (Some p) (Some q) l) as (h2 & Hrun2 & Hl2 & Hag2); [|done|].
  { eapply repr_agree; [|exact Hl]. intros x Hx. destruct (Hls x Hx) as (? & ? & ?). look. }
  destruct (reparent_repr (with_nodes m1 h2) (Some p) (Some q) r) as (h3 & Hrun3 & Hr3 & Hag3);
    [|done|].
  { eapply repr_agree; [|exact Hr]. intros x Hx. destruct (Hrs x Hx) as (? & ? & ?). look. }
  exists m1, h2, h3. split_and!; [done..|look|look|].
  rewrite holds_plug. simpl. split_and!; [look| | | |].
  - eapply repr_agree; [|exact Hl2]. intros x Hx. destruct (Hls x Hx) as (? & ? & ?). look.
  - eapply repr_agree; [|exact Hr3]. intros x Hx. destruct (Hrs x Hx) as (? & ? & ?). look.
  - eapply repr_ctx_agree; [|exact HC1]. intros x Hx. destruct (HCs x Hx) as (? & ? & ?). look.
  - clear -Hnd. apply NoDup_cons in Hnd as [_ Hnd]. revert Hnd.
    rewrite <- !(assoc_L (++)). simpl. by rewrite <- !Permutation_middle.
Qed.

Lemma replace_holds m C c l p r q :
  holds m (plug C (Node c l p r)) -> q ∉ elems (plug C (Node c l p r)) ->
  exists m', rb_replace_node p q m = Some (tt, m') /\ holds m' (plug C (Node c l q r)).
Proof.
  intros Hm Hq. pose proof (holds_get _ _ _ _ _ _ Hm) as Hp.
  rewrite elems_plug in Hq. rewrite holds_plug in Hm. simpl in *.
  destruct Hm as ((_ & Hl & Hr) & HC & Hnd).
  destruct (redirect_holds m C c l p r q) as (m1 & h2 & h3 & Hr1 & Hr2 & Hr3 & Hp3 & _ & Hm');
    [done|done|done| |].
  { rewrite NoDup_cons. rewrite NoDup_cons. clear -Hnd Hq.
    split_nodup Hnd. rewrite !NoDup_app. set_solver. }
  eexists. split; [|exact Hm'].
  unfold rb_replace_node. eapply bind_run; [by apply node_get_run|].
  eapply bind_run; [exact Hr1|]. eapply bind_run; [exact Hr2|]. eapply bind_run; [exact Hr3|].
  eapply bind_run; [apply node_get_run; simpl; by rewrite Hp3|]. done.
Qed.
