(* ===== verification/RbInsert.v ===== *)
(** The red-black invariant and [rb_insert].

    [is_rb t n]: no red node has a red child and every path down has [n] black
    nodes.  [ctx_rb C n] says what the context needs from a subtree of black
    height [n] for the whole to keep the invariant. *)

From S2P Require Import Prelude RbSpec RbTree RbShape.

Definition tblack (t : tree) : bool :=
  match t with Node RB_RED _ _ _ => false | _ => true end.

Fixpoint is_rb (t : tree) (n : nat) : Prop :=
  match t with
  | Leaf => n = O
  | Node RB_RED l _ r => is_rb l n /\ is_rb r n /\ tblack l = true /\ tblack r = true
  | Node RB_BLACK l _ r => exists k, n = S k /\ is_rb l k /\ is_rb r k
  end.

(** The innermost frame is a black node. *)
Definition cblack (C : list frame) : bool :=
  match C with Frame _ RB_BLACK _ _ :: _ => true | _ => false end.

Fixpoint ctx_rb (C : list frame) (n : nat) : Prop :=
  match C with
  | [] => True
  | Frame _ RB_RED _ s :: C' => is_rb s n /\ tblack s = true /\ cblack C' = true /\ ctx_rb C' n
  | Frame _ RB_BLACK _ s :: C' => is_rb s n /\ ctx_rb C' (S n)
  end.

Definition blacken (t : tree) : tree :=
  match t with Leaf => Leaf | Node _ l p r => Node RB_BLACK l p r end.

Implicit Types (m : rb_mem) (t a b d l r s : tree) (C : list frame).

Lemma is_rb_blacken t n : is_rb t n -> exists k, is_rb (blacken t) k.
Proof.
  destruct t as [|[] l p r]; simpl; [eauto| |eauto]. intros (Hl & Hr & _). by exists (S n), n.
Qed.

Lemma plug_rb C t n :
  ctx_rb C n -> is_rb t n -> tblack t = true \/ cblack C = true -> exists k, is_rb (plug C t) k.
Proof.
  revert t n. induction C as [|[d [] p s] C IH]; intros t n HC Ht Hb; simpl in *; [eauto| |].
  - destruct HC as (Hs & Hsb & HCb & HC). destruct Hb as [Hb|]; [|done].
    destruct d; (eapply IH; [exact HC| |by right]); simpl; by split_and!.
  - destruct HC as (Hs & HC). destruct d; (eapply IH; [exact HC| |by left]); simpl; by exists n.
Qed.

Lemma tblack_run m par t :
  repr (rb_nodes m) par t -> null_or_black (rootp t) m = Some (tblack t, m).
Proof.
  destruct t as [|c l p r]; simpl; [done|]. intros (Hp & _). unfold is_red.
  eapply bind_run; [eapply bind_run; [by apply node_get_run|reflexivity]|]. by destruct c.
Qed.

Lemma red_run m C c l p r :
  holds m (plug C (Node c l p r)) -> is_red p m = Some (bool_decide (c = RB_RED), m).
Proof. intros Hm%holds_get. unfold is_red. by eapply bind_run; [by apply node_get_run|]. Qed.

Lemma get_run m C c l p r :
  holds m (plug C (Node c l p r)) ->
  node_get p m = Some (RbNode (parent_of C) c (rootp r) (rootp l), m).
Proof. intros Hm%holds_get. by apply node_get_run. Qed.

Lemma plug_black_run m C t : holds m (plug C t) -> null_or_black (rootp t) m = Some (tblack t, m).
Proof. intros (Ht & _)%holds_plug. by eapply tblack_run. Qed.

(** A node is not the child on both sides. *)
Lemma holds_side m C c l p r q :
  holds m (plug C (Node c l p r)) -> rootp l = Some q -> rootp r <> Some q.
Proof.
  intros (_ & _ & Hnd)%holds_plug Hl Hr. apply rootp_elem in Hl, Hr. simpl in Hnd.
  split_nodup Hnd. set_solver.
Qed.

(** ** The loop of [rb_insert_color] *)

Lemma insert_loop_stop fuel m C t p :
  holds m (plug C t) -> rootp t = Some p -> C = [] \/ cblack C = true ->
  rb_insert_color_loop (S fuel) p m = Some (tt, m).
Proof.
  intros Hm Ht HC. destruct t as [|c l q r]; [done|]. injection Ht as ->. simpl.
  eapply bind_run; [by eapply get_run|].
  destruct C as [|[d [] g s] C]; [done|by destruct HC|].
  destruct d; (eapply bind_run; [by eapply (red_run m C)|]); done.
Qed.

(** What an insertion leaves: the same nodes in order, balanced once the root
    is black. *)
Definition inserted (m : rb_mem) (l : list ptr) : Prop :=
  exists t n, holds m t /\ elems t = l /\ is_rb (blacken t) n /\ t <> Leaf.

Lemma plug_node C c l p r : plug C (Node c l p r) <> Leaf.
Proof.
  revert c l p r. induction C as [|[[] c' q s] C IH]; intros c l p r; simpl; [done|apply IH..].
Qed.

Lemma inserted_plug m C c l p r n :
  holds m (plug C (Node c l p r)) -> ctx_rb C n -> is_rb (Node c l p r) n ->
  c = RB_BLACK \/ cblack C = true -> inserted m (elems (plug C (Node c l p r))).
Proof.
  intros Hm HC Ht Hb. destruct (plug_rb C (Node c l p r) n) as [k Hk]; [done|done| |].
  { destruct Hb as [->|]; [by left|by right]. }
  destruct (is_rb_blacken _ _ Hk) as [k' Hk']. exists (plug C (Node c l p r)), k'.
  split_and!; [done..|apply plug_node].
Qed.

(** The same nodes in the same order. *)
Ltac elems_eq := simpl; repeat (rewrite <- !(assoc_L (++)); simpl); done.

Lemma elems_plug_eq C t t' : elems t = elems t' -> elems (plug C t) = elems (plug C t').
Proof. intros He. by rewrite !elems_plug, He. Qed.

(** The uncle is black: the rotation at the grandparent ends the loop. *)
Lemma insert_finish_left fuel m C a x b g u q n :
  holds m (plug C (Node RB_BLACK (Node RB_RED a x b) g u)) -> rootp a = Some q ->
  is_rb a n -> is_rb b n -> is_rb u n -> tblack b = true -> tblack u = true -> ctx_rb C (S n) ->
  exists m', bind (rb_set_black x) (fun _ => bind (rb_set_red g) (fun _ =>
      bind (__rb_rotate_right g) (fun _ => rb_insert_color_loop (S fuel) q))) m = Some (tt, m') /\
    inserted m' (elems (plug C (Node RB_BLACK (Node RB_RED a x b) g u))).
Proof.
  intros Hm Hq Ha Hb Hu Hbb Hub HC.
  destruct (set_color_holds m (Frame SLeft RB_BLACK g u :: C) _ RB_BLACK _ _ _ Hm) as (m1 & Hr1 & Hm1).
  destruct (set_color_holds m1 C _ RB_RED _ _ _ Hm1) as (m2 & Hr2 & Hm2).
  destruct (rotate_right_holds m2 C _ _ _ _ _ _ _ Hm2) as (m3 & Hr3 & Hm3).
  exists m3. split.
  - eapply bind_run; [exact Hr1|]. eapply bind_run; [exact Hr2|]. eapply bind_run; [exact Hr3|].
    eapply (insert_loop_stop _ _ (Frame SLeft RB_BLACK x _ :: C)); [exact Hm3|done|by right].
  - erewrite elems_plug_eq; [eapply inserted_plug; [exact Hm3|exact HC| |by left]|].
    + simpl. eauto 10.
    + elems_eq.
Qed.

Lemma insert_finish_right fuel m C a x b g u q n :
  holds m (plug C (Node RB_BLACK u g (Node RB_RED b x a))) -> rootp a = Some q ->
  is_rb a n -> is_rb b n -> is_rb u n -> tblack b = true -> tblack u = true -> ctx_rb C (S n) ->
  exists m', bind (rb_set_black x) (fun _ => bind (rb_set_red g) (fun _ =>
      bind (__rb_rotate_left g) (fun _ => rb_insert_color_loop (S fuel) q))) m = Some (tt, m') /\
    inserted m' (elems (plug C (Node RB_BLACK u g (Node RB_RED b x a)))).
Proof.
  intros Hm Hq Ha Hb Hu Hbb Hub HC.
  destruct (set_color_holds m (Frame SRight RB_BLACK g u :: C) _ RB_BLACK _ _ _ Hm) as (m1 & Hr1 & Hm1).
  destruct (set_color_holds m1 C _ RB_RED _ _ _ Hm1) as (m2 & Hr2 & Hm2).
  destruct (rotate_left_holds m2 C _ _ _ _ _ _ _ Hm2) as (m3 & Hr3 & Hm3).
  exists m3. split.
  - eapply bind_run; [exact Hr1|]. eapply bind_run; [exact Hr2|]. eapply bind_run; [exact Hr3|].
    eapply (insert_loop_stop _ _ (Frame SRight RB_BLACK x _ :: C)); [exact Hm3|done|by right].
  - erewrite elems_plug_eq; [eapply inserted_plug; [exact Hm3|exact HC| |by left]|].
    + simpl. eauto 10.
    + elems_eq.
Qed.

(** The uncle is red: the colours flip and the loop goes on two levels up. *)
Definition climbs (fuel : nat) : Prop := forall m C l p r n,
  holds m (plug C (Node RB_RED l p r)) -> is_rb (Node RB_RED l p r) n -> ctx_rb C n ->
  (length C < fuel)%nat ->
  exists m', rb_insert_color_loop fuel p m = Some (tt, m') /\
    inserted m' (elems (plug C (Node RB_RED l p r))).

Lemma insert_flip fuel m C t1 t2 x y c1 c2 a1 b1 a2 b2 g n (first : bool) :
  climbs fuel -> t1 = Node c1 a1 x b1 -> t2 = Node c2 a2 y b2 ->
  holds m (plug C (Node RB_BLACK t1 g t2)) ->
  is_rb (Node RB_BLACK a1 x b1) (S n) -> is_rb (Node RB_BLACK a2 y b2) (S n) ->
  ctx_rb C (S n) -> (length C < fuel)%nat ->
  exists m', bind (rb_set_black (if first then x else y)) (fun _ =>
      bind (rb_set_black (if first then y else x)) (fun _ =>
      bind (rb_set_red g) (fun _ => rb_insert_color_loop fuel g))) m = Some (tt, m') /\
    inserted m' (elems (plug C (Node RB_BLACK t1 g t2))).
Proof.
  intros Hclimb -> -> Hm H1 H2 HC Hf.
  assert (exists m2, bind (rb_set_black (if first then x else y)) (fun _ =>
      rb_set_black (if first then y else x)) m = Some (tt, m2) /\
      holds m2 (plug C (Node RB_BLACK (Node RB_BLACK a1 x b1) g (Node RB_BLACK a2 y b2))))
    as (m2 & Hr2 & Hm2).
  { destruct first.
    - destruct (set_color_holds m (Frame SLeft RB_BLACK g _ :: C) _ RB_BLACK _ _ _ Hm) as (m1 & Hr1 & Hm1).
      destruct (set_color_holds m1 (Frame SRight RB_BLACK g _ :: C) _ RB_BLACK _ _ _ Hm1) as (m2 & Hr2 & Hm2).
      exists m2. split; [|exact Hm2]. by eapply bind_run.
    - destruct (set_color_holds m (Frame SRight RB_BLACK g _ :: C) _ RB_BLACK _ _ _ Hm) as (m1 & Hr1 & Hm1).
      destruct (set_color_holds m1 (Frame SLeft RB_BLACK g _ :: C) _ RB_BLACK _ _ _ Hm1) as (m2 & Hr2 & Hm2).
      exists m2. split; [|exact Hm2]. by eapply bind_run. }
  destruct (set_color_holds m2 C _ RB_RED _ _ _ Hm2) as (m3 & Hr3 & Hm3).
  destruct (Hclimb m3 C _ g _ (S n) Hm3) as (m' & Hr & Hins); [by split_and!|done|done|].
  exists m'. split.
  - rewrite <- bind_assoc. eapply bind_run; [exact Hr2|]. by eapply bind_run.
  - erewrite elems_plug_eq; [exact Hins|done].
Qed.

(** The parent is a red left child. *)
Lemma climb_left_parent fuel m C e pp s g u l p r n :
  climbs (S fuel) ->
  holds m (plug (Frame e RB_RED pp s :: Frame SLeft RB_BLACK g u :: C) (Node RB_RED l p r)) ->
  is_rb (Node RB_RED l p r) n -> is_rb s n -> tblack s = true -> is_rb u n ->
  ctx_rb C (S n) -> (length C < S fuel)%nat ->
  exists m', rb_insert_color_loop (S (S fuel)) p m = Some (tt, m') /\
    inserted m' (elems (plug (Frame e RB_RED pp s :: Frame SLeft RB_BLACK g u :: C) (Node RB_RED l p r))).
Proof.
  intros Hclimb Hm Ht Hs Hsb Hu HC Hf.
  remember (S fuel) as fuel' eqn:Hfu.
  pose proof (get_run _ _ _ _ _ _ Hm) as Hget. destruct Ht as (Hl & Hr & Hlb & Hrb).
  destruct e; simpl in *.
  - pose proof (red_run m (Frame SLeft RB_BLACK g u :: C) _ _ _ _ Hm) as Hred.
    pose proof (get_run m (Frame SLeft RB_BLACK g u :: C) _ _ _ _ Hm) as Hgpp.
    pose proof (get_run m C _ _ _ _ Hm) as Hgg.
    pose proof (plug_black_run m (Frame SRight RB_BLACK g _ :: C) u Hm) as Hub.
    eapply ex_and_run; [exact Hget|]. simpl.
    eapply ex_and_run; [exact Hred|]. simpl.
    eapply ex_and_run; [exact Hgpp|]. eapply ex_and_run; [reflexivity|].
    eapply ex_and_run; [exact Hgg|]. simpl. rewrite decide_True by done.
    eapply ex_and_run; [exact Hub|].
    destruct (tblack u) eqn:Hbu; simpl.
    + rewrite decide_False by (eapply (holds_side m (Frame SLeft RB_BLACK g u :: C)); [exact Hm|done]).
      eapply ex_and_run; [reflexivity|]. simpl. subst fuel'.
      by eapply insert_finish_left; eauto; simpl.
    + destruct u as [|[] ul up ur]; try done. eapply ex_and_run; [reflexivity|].
      destruct Hu as (? & ? & ? & ?).
      eapply (insert_flip fuel' m C _ _ _ _ _ _ _ _ _ _ _ n false); eauto; simpl; eauto 10.
  - pose proof (red_run m (Frame SLeft RB_BLACK g u :: C) _ _ _ _ Hm) as Hred.
    pose proof (get_run m (Frame SLeft RB_BLACK g u :: C) _ _ _ _ Hm) as Hgpp.
    pose proof (get_run m C _ _ _ _ Hm) as Hgg.
    pose proof (plug_black_run m (Frame SRight RB_BLACK g _ :: C) u Hm) as Hub.
    eapply ex_and_run; [exact Hget|]. simpl.
    eapply ex_and_run; [exact Hred|]. simpl.
    eapply ex_and_run; [exact Hgpp|]. eapply ex_and_run; [reflexivity|].
    eapply ex_and_run; [exact Hgg|]. simpl. rewrite decide_True by done.
    eapply ex_and_run; [exact Hub|].
    destruct (tblack u) eqn:Hbu; simpl.
    + rewrite decide_True by done.
      destruct (rotate_left_holds m (Frame SLeft RB_BLACK g u :: C) _ _ _ _ _ _ _ Hm) as (m1 & Hr1 & Hm1).
      eapply ex_and_run; [eapply bind_run; [exact Hr1|reflexivity]|]. simpl. subst fuel'.
      erewrite elems_plug_eq; [eapply insert_finish_left; eauto; simpl; eauto|].
      elems_eq.
    + destruct u as [|[] ul up ur]; try done. eapply ex_and_run; [reflexivity|].
      destruct Hu as (? & ? & ? & ?).
      eapply (insert_flip fuel' m C _ _ _ _ _ _ _ _ _ _ _ n false); eauto; simpl; eauto 10.
Qed.

(** The parent is a red right child. *)
Lemma climb_right_parent fuel m C e pp s g u l p r n :
  climbs (S fuel) ->
  holds m (plug (Frame e RB_RED pp s :: Frame SRight RB_BLACK g u :: C) (Node RB_RED l p r)) ->
  is_rb (Node RB_RED l p r) n -> is_rb s n -> tblack s = true -> is_rb u n ->
  ctx_rb C (S n) -> (length C < S fuel)%nat ->
  exists m', rb_insert_color_loop (S (S fuel)) p m = Some (tt, m') /\
    inserted m' (elems (plug (Frame e RB_RED pp s :: Frame SRight RB_BLACK g u :: C) (Node RB_RED l p r))).
Proof.
  intros Hclimb Hm Ht Hs Hsb Hu HC Hf.
  remember (S fuel) as fuel' eqn:Hfu.
  pose proof (get_run _ _ _ _ _ _ Hm) as Hget. destruct Ht as (Hl & Hr & Hlb & Hrb).
  destruct e; simpl in *.
  - pose proof (red_run m (Frame SRight RB_BLACK g u :: C) _ _ _ _ Hm) as Hred.
    pose proof (get_run m (Frame SRight RB_BLACK g u :: C) _ _ _ _ Hm) as Hgpp.
    pose proof (get_run m C _ _ _ _ Hm) as Hgg.
    pose proof (plug_black_run m (Frame SLeft RB_BLACK g _ :: C) u Hm) as Hub.
    eapply ex_and_run; [exact Hget|]. simpl.
    eapply ex_and_run; [exact Hred|]. simpl.
    eapply ex_and_run; [exact Hgpp|]. eapply ex_and_run; [reflexivity|].
    eapply ex_and_run; [exact Hgg|]. simpl.
    rewrite decide_False by (intros Hc; by apply (holds_side m C _ _ _ _ _ Hm Hc)).
    eapply ex_and_run; [exact Hub|].
    destruct (tblack u) eqn:Hbu; simpl.
    + rewrite decide_True by done.
      destruct (rotate_right_holds m (Frame SRight RB_BLACK g u :: C) _ _ _ _ _ _ _ Hm) as (m1 & Hr1 & Hm1).
      eapply ex_and_run; [eapply bind_run; [exact Hr1|reflexivity]|]. simpl. subst fuel'.
      erewrite elems_plug_eq; [eapply insert_finish_right; eauto; simpl; eauto|].
      elems_eq.
    + destruct u as [|[] ul up ur]; try done. eapply ex_and_run; [reflexivity|].
      destruct Hu as (? & ? & ? & ?).
      eapply (insert_flip fuel' m C _ _ _ _ _ _ _ _ _ _ _ n true); eauto; simpl; eauto 10.
  - pose proof (red_run m (Frame SRight RB_BLACK g u :: C) _ _ _ _ Hm) as Hred.
    pose proof (get_run m (Frame SRight RB_BLACK g u :: C) _ _ _ _ Hm) as Hgpp.
    pose proof (get_run m C _ _ _ _ Hm) as Hgg.
    pose proof (plug_black_run m (Frame SLeft RB_BLACK g _ :: C) u Hm) as Hub.
    eapply ex_and_run; [exact Hget|]. simpl.
    eapply ex_and_run; [exact Hred|]. simpl.
    eapply ex_and_run; [exact Hgpp|]. eapply ex_and_run; [reflexivity|].
    eapply ex_and_run; [exact Hgg|]. simpl.
    rewrite decide_False by (intros Hc; by apply (holds_side m C _ _ _ _ _ Hm Hc)).
    eapply ex_and_run; [exact Hub|].
    destruct (tblack u) eqn:Hbu; simpl.
    + rewrite decide_False by (intros Hc;
        by apply (holds_side m (Frame SRight RB_BLACK g u :: C) _ _ _ _ _ Hm Hc)).
      eapply ex_and_run; [reflexivity|]. simpl. subst fuel'.
      by eapply insert_finish_right; eauto; simpl.
    + destruct u as [|[] ul up ur]; try done. eapply ex_and_run; [reflexivity|].
      destruct Hu as (? & ? & ? & ?).
      eapply (insert_flip fuel' m C _ _ _ _ _ _ _ _ _ _ _ n true); eauto; simpl; eauto 10.
Qed.

Lemma climbs_all fuel : climbs fuel.
Proof.
  induction fuel as [|fuel IH]; intros m C l p r n Hm Ht HC Hf; [lia|].
  destruct C as [|[e [] pp s] C].
  - exists m. split; [eapply (insert_loop_stop _ _ []); [exact Hm|done|by left]|].
    destruct Ht as (? & ? & ? & ?). exists (Node RB_RED l p r), (S n).
    split_and!; [done|done| |done]. by exists n.
  - destruct HC as (Hs & Hsb & HCb & HC). destruct C as [|[e' [] g u] C]; [done..|].
    destruct HC as (Hu & HC). simpl in Hf. destruct fuel as [|fuel]; [lia|].
    destruct e'; [eapply climb_left_parent|eapply climb_right_parent]; eauto; lia.
  - exists m. split; [eapply (insert_loop_stop _ _ (Frame e RB_BLACK pp s :: C)); [exact Hm|done|by right]|].
    eapply inserted_plug; [exact Hm|exact HC|exact Ht|by right].
Qed.
