(* ===== verification/RbWalk.v ===== *)
(** The walks of [rbtree.c]: [rb_insert] and [rb_search] down, [rb_first],
    [rb_next] and [rb_prev] sideways. *)

From S2P Require Import Prelude RbSpec RbTree RbShape RbInsert.

Implicit Types (m : rb_mem) (t : tree) (C : list frame) (c : cmp_key).

(** A comparison that splits the sequence: first the nodes before the key,
    then those that match it, then those after it. *)
Definition splits c (L : list ptr) : Prop :=
  exists l1 lm l2, L = l1 ++ lm ++ l2 /\ all_before c l1 /\ all_match c lm /\ all_after c l2.

Lemma splits_total c L p : splits c L -> p ∈ L -> exists r, c p = Some r.
Proof.
  intros (l1 & lm & l2 & -> & H1 & Hm & H2).
  intros [Hp|[Hp|Hp]%elem_of_app]%elem_of_app; [destruct (H1 p Hp)|exists 0|destruct (H2 p Hp)];
    naive_solver.
Qed.

Lemma splits_after c A p B r : splits c (A ++ p :: B) -> c p = Some r -> r < 0 -> all_after c B.
Proof.
  intros (l1 & lm & l2 & Heq & H1 & Hm & H2) Hp Hr.
  assert (p ∉ l1) by (intros Hin; destruct (H1 p Hin) as (? & ? & ?); simplify_eq; lia).
  assert (p ∉ lm) by (intros Hin; specialize (Hm p Hin); simplify_eq; lia).
  assert (exists k, l2 = k ++ p :: B) as [k ->].
  { symmetry in Heq. apply app_eq_inv in Heq as [(k & -> & Heq)|(k & -> & Heq)].
    - destruct k as [|? k]; simpl in Heq; [|set_solver].
      destruct lm; simpl in Heq; [by exists []|set_solver].
    - apply app_eq_inv in Heq as [(k' & -> & Heq)|(k' & -> & Heq)]; [|by exists k'].
      destruct k' as [|? k']; simpl in Heq; [by exists []|set_solver]. }
  intros x Hx. apply H2. set_solver.
Qed.

Lemma splits_before c A p B r : splits c (A ++ p :: B) -> c p = Some r -> 0 < r -> all_before c A.
Proof.
  intros (l1 & lm & l2 & Heq & H1 & Hm & H2) Hp Hr.
  assert (p ∉ l2) by (intros Hin; destruct (H2 p Hin) as (? & ? & ?); simplify_eq; lia).
  assert (p ∉ lm) by (intros Hin; specialize (Hm p Hin); simplify_eq; lia).
  assert (exists k, l1 = A ++ k) as [k ->].
  { apply app_eq_inv in Heq as [(k & -> & Heq)|(k & -> & Heq)]; [|by exists k].
    exfalso. assert (p ∈ lm ++ l2) by (rewrite Heq; set_solver). set_solver. }
  intros x Hx. apply H1. set_solver.
Qed.

Lemma splits_unique c A B l1 lm l2 :
  A ++ B = l1 ++ lm ++ l2 -> all_before c A -> all_after c B ->
  all_before c l1 -> all_match c lm -> all_after c l2 -> lm = [] /\ A = l1 /\ B = l2.
Proof.
  intros Heq HA HB H1 Hm H2.
  assert (Hno : forall x, x ∈ lm -> x ∈ A ++ B -> False).
  { intros x Hx [HxA|HxB]%elem_of_app; specialize (Hm x Hx);
      [destruct (HA x HxA) as (?&?&?)|destruct (HB x HxB) as (?&?&?)]; simplify_eq; lia. }
  destruct lm as [|y lm]; cycle 1.
  { destruct (Hno y); [set_solver|]. rewrite Heq. set_solver. }
  split; [done|]. simpl in Heq.
  apply app_eq_inv in Heq as [(k & -> & ->)|(k & -> & ->)];
    (destruct k as [|x k]; [by rewrite ?app_nil_r|]).
  - exfalso. destruct (HA x) as (?&?&?); [set_solver|]. destruct (H2 x) as (?&?&?); [set_solver|].
    simplify_eq; lia.
  - exfalso. destruct (HB x) as (?&?&?); [set_solver|]. destruct (H1 x) as (?&?&?); [set_solver|].
    simplify_eq; lia.
Qed.

Lemma all_before_app c l1 l2 : all_before c (l1 ++ l2) <-> all_before c l1 /\ all_before c l2.
Proof. unfold all_before. set_solver. Qed.
Lemma all_after_app c l1 l2 : all_after c (l1 ++ l2) <-> all_after c l1 /\ all_after c l2.
Proof. unfold all_after. set_solver. Qed.

(** ** Walking down *)

(** Where a walk for the key ends: at the leaf the key belongs to, or at a
    node that matches it. *)
Definition lands c T C : Prop :=
  plug C Leaf = T /\ all_before c (before C) /\ all_after c (after C).

Lemma down_step c C col l p r q :
  splits c (elems (plug C (Node col l p r))) ->
  all_before c (before C) -> all_after c (after C) -> c p = Some q ->
  (q < 0 -> all_after c (after (Frame SLeft col p r :: C))) /\
  (0 < q -> all_before c (before (Frame SRight col p l :: C))).
Proof.
  rewrite elems_plug. simpl. intros Hs HB HA Hp.
  rewrite <- (assoc_L (++)), (assoc_L (++) (before C)) in Hs. simpl in Hs. split; intros Hq.
  - intros x [->|Hx]%elem_of_cons; [eauto|]. eapply splits_after; eauto.
  - rewrite (assoc_L (++)). apply all_before_app. split; [by eapply splits_before|].
    intros x ->%list_elem_of_singleton. eauto.
Qed.

Lemma insert_walk_spec c m C t fuel :
  holds m (plug C t) -> splits c (elems (plug C t)) ->
  all_before c (before C) -> all_after c (after C) -> (length (elems t) < fuel)%nat ->
  (exists C', rb_insert_walk fuel c (link_of C) (parent_of C) m =
      Some (Some (link_of C', parent_of C'), m) /\ lands c (plug C t) C') \/
  (exists p, p ∈ elems (plug C t) /\ c p = Some 0 /\
    rb_insert_walk fuel c (link_of C) (parent_of C) m = Some (None, m)).
Proof.
  revert C t. induction fuel as [|fuel IH]; intros C t Hm Hs HB HA Hf; [lia|].
  assert (Hlink : link_get (link_of C) m = Some (rootp t, m)).
  { pose proof Hm as (_ & HC & _)%holds_plug. destruct C as [|[e col g s] C]; simpl in *.
    - unfold root_get, gets. by rewrite HC.
    - destruct HC as (Hg & _). destruct e; simpl; (eapply bind_run; [by apply node_get_run|]); done. }
  destruct t as [|col l p r].
  { left. exists C. split; [|done]. simpl. by eapply bind_run. }
  simpl in Hf. rewrite length_app in Hf. simpl in Hf.
  assert (Hp : p ∈ elems (plug C (Node col l p r))) by (rewrite elems_plug; simpl; set_solver).
  destruct (splits_total _ _ _ Hs Hp) as (q & Hq).
  destruct (down_step _ _ _ _ _ _ _ Hs HB HA Hq) as [HA' HB'].
  assert (Hstep : rb_insert_walk (S fuel) c (link_of C) (parent_of C) m =
    (if q <? 0 then rb_insert_walk fuel c (LinkLeft p) (Some p)
     else if 0 <? q then rb_insert_walk fuel c (LinkRight p) (Some p) else ret None) m).
  { simpl. eapply bind_run; [exact Hlink|]. simpl. rewrite Hq. by eapply bind_run. }
  rewrite Hstep.
  destruct (Z.ltb_spec q 0); [|destruct (Z.ltb_spec 0 q)].
  - apply (IH (Frame SLeft col p r :: C) l); simpl; auto; lia.
  - apply (IH (Frame SRight col p l :: C) r); simpl; auto; lia.
  - right. exists p. assert (q = 0) as -> by lia. by split_and!.
Qed.

(** [rb_search] walks the same way. *)
Lemma search_walk_spec c m C t fuel q0 :
  holds m (plug C t) -> splits c (elems (plug C t)) ->
  all_before c (before C) -> all_after c (after C) -> (length (elems t) < fuel)%nat ->
  match C with
  | [] => q0 = 0
  | Frame SLeft _ p _ :: _ => q0 < 0
  | Frame SRight _ p _ :: _ => 0 < q0
  end ->
  (exists C' q, rb_search_walk fuel c (rootp t) (parent_of C) q0 m =
      Some (inr (parent_of C', q), m) /\ lands c (plug C t) C' /\
      match C' with
      | [] => q = 0
      | Frame SLeft _ p _ :: _ => q < 0
      | Frame SRight _ p _ :: _ => 0 < q
      end) \/
  (exists p, p ∈ elems (plug C t) /\ c p = Some 0 /\
    rb_search_walk fuel c (rootp t) (parent_of C) q0 m = Some (inl p, m)).
Proof.
  revert C t q0. induction fuel as [|fuel IH]; intros C t q0 Hm Hs HB HA Hf Hq0; [lia|].
  destruct t as [|col l p r].
  { left. by exists C, q0. }
  simpl in Hf. rewrite length_app in Hf. simpl in Hf.
  assert (Hp : p ∈ elems (plug C (Node col l p r))) by (rewrite elems_plug; simpl; set_solver).
  destruct (splits_total _ _ _ Hs Hp) as (q & Hq).
  destruct (down_step _ _ _ _ _ _ _ Hs HB HA Hq) as [HA' HB'].
  assert (Hstep : rb_search_walk (S fuel) c (rootp (Node col l p r)) (parent_of C) q0 m =
    (if q <? 0 then rb_search_walk fuel c (rootp l) (Some p) q
     else if 0 <? q then rb_search_walk fuel c (rootp r) (Some p) q else ret (inl p)) m).
  { simpl. rewrite Hq. eapply bind_run; [reflexivity|]. eapply bind_run; [by eapply get_run|]. done. }
  rewrite Hstep.
  destruct (Z.ltb_spec q 0); [|destruct (Z.ltb_spec 0 q)].
  - apply (IH (Frame SLeft col p r :: C) l); simpl; auto; lia.
  - apply (IH (Frame SRight col p l :: C) r); simpl; auto; lia.
  - right. exists p. assert (q = 0) as -> by lia. by split_and!.
Qed.

(** ** Walking sideways *)

Lemma leftmost_run m C col l p r fuel :
  holds m (plug C (Node col l p r)) -> (length (elems l) < fuel)%nat ->
  exists q, leftmost fuel p m = Some (q, m) /\ head (elems (Node col l p r)) = Some q.
Proof.
  revert C col l p r. induction fuel as [|fuel IH]; intros C col l p r Hm Hf; [lia|].
  destruct l as [|col' l' p' r'].
  - exists p. split; [|done]. simpl. by eapply bind_run; [by eapply get_run|].
  - simpl in Hf. rewrite length_app in Hf. simpl in Hf.
    destruct (IH (Frame SLeft col p r :: C) col' l' p' r' Hm) as (q & Hr & Hq); [lia|].
    exists q. split; [simpl; by eapply bind_run; [by eapply get_run|]|].
    simpl in *. by destruct (elems l').
Qed.

Lemma rightmost_run m C col l p r fuel :
  holds m (plug C (Node col l p r)) -> (length (elems r) < fuel)%nat ->
  exists q, rightmost fuel p m = Some (q, m) /\ last (elems (Node col l p r)) = Some q.
Proof.
  revert C col l p r. induction fuel as [|fuel IH]; intros C col l p r Hm Hf; [lia|].
  destruct r as [|col' l' p' r'].
  - exists p. simpl. split; [by eapply bind_run; [by eapply get_run|]|]. by rewrite last_snoc.
  - simpl in Hf. rewrite length_app in Hf. simpl in Hf.
    destruct (IH (Frame SRight col p l :: C) col' l' p' r' Hm) as (q & Hr & Hq); [lia|].
    exists q. split; [simpl; by eapply bind_run; [by eapply get_run|]|].
    simpl in *. rewrite last_app, last_cons. by rewrite Hq.
Qed.

Lemma climb_right_run m C col l p r fuel :
  holds m (plug C (Node col l p r)) -> (length C < fuel)%nat ->
  climb_right fuel p m = Some (head (after C), m).
Proof.
  revert C col l p r. induction fuel as [|fuel IH]; intros C col l p r Hm Hf; [lia|]. simpl.
  eapply bind_run; [by eapply get_run|]. destruct C as [|[[] c g s] C]; simpl; [done| |].
  - eapply bind_run; [by eapply (get_run m C)|]. simpl.
    by rewrite decide_False by (by eapply (holds_side m C)).
  - eapply bind_run; [by eapply (get_run m C)|]. simpl. rewrite decide_True by done.
    simpl in Hf. eapply (IH C); [exact Hm|lia].
Qed.

Lemma climb_left_run m C col l p r fuel :
  holds m (plug C (Node col l p r)) -> (length C < fuel)%nat ->
  climb_left fuel p m = Some (last (before C), m).
Proof.
  revert C col l p r. induction fuel as [|fuel IH]; intros C col l p r Hm Hf; [lia|]. simpl.
  eapply bind_run; [by eapply get_run|]. destruct C as [|[[] c g s] C]; simpl; [done| |].
  - eapply bind_run; [by eapply (get_run m C)|]. simpl. rewrite decide_True by done.
    simpl in Hf. eapply (IH C); [exact Hm|lia].
  - eapply bind_run; [by eapply (get_run m C)|]. simpl.
    rewrite decide_False by (intros Hs; by eapply (holds_side m C)).
    by rewrite (assoc_L (++)), last_snoc.
Qed.

Lemma holds_not_self m C col l p r :
  holds m (plug C (Node col l p r)) -> parent_of C <> Some p.
Proof.
  intros (_ & _ & Hnd)%holds_plug Hp. destruct C as [|[e c g s] C]; [done|].
  injection Hp as ->. destruct e; simpl in Hnd; split_nodup Hnd; set_solver.
Qed.

Lemma next_run m C col l p r :
  holds m (plug C (Node col l p r)) ->
  rb_next_node p m = Some (head (elems r ++ after C), m).
Proof.
  intros Hm. unfold rb_next_node. eapply bind_run; [by eapply get_run|].
  cbn [rb_parent rb_left rb_right]. rewrite decide_False by by eapply holds_not_self.
  eapply bind_run; [apply gets_run|]. pose proof (holds_fuel _ _ _ Hm) as Hf.
  simpl in Hf. rewrite length_app in Hf. simpl in Hf.
  destruct r as [|col' l' q r']; cbn [rootp elems app].
  - eapply climb_right_run; [exact Hm|lia].
  - simpl in Hf. rewrite length_app in Hf. simpl in Hf.
    destruct (leftmost_run m (Frame SRight col p l :: C) col' l' q r' (fuel_of m) Hm)
      as (x & Hr & Hx); [lia|].
    eapply bind_run; [exact Hr|]. simpl in Hx |- *. by destruct (elems l'); simpl in *; rewrite Hx.
Qed.

Lemma prev_run m C col l p r :
  holds m (plug C (Node col l p r)) ->
  rb_prev_node p m = Some (last (before C ++ elems l), m).
Proof.
  intros Hm. unfold rb_prev_node. eapply bind_run; [by eapply get_run|].
  cbn [rb_parent rb_left rb_right]. rewrite decide_False by by eapply holds_not_self.
  eapply bind_run; [apply gets_run|]. pose proof (holds_fuel _ _ _ Hm) as Hf.
  simpl in Hf. rewrite length_app in Hf. simpl in Hf.
  destruct l as [|col' l' q r']; cbn [rootp elems app].
  - rewrite app_nil_r. eapply climb_left_run; [exact Hm|lia].
  - simpl in Hf. rewrite length_app in Hf. simpl in Hf.
    destruct (rightmost_run m (Frame SLeft col p r :: C) col' l' q r' (fuel_of m) Hm)
      as (x & Hr & Hx); [lia|].
    eapply bind_run; [exact Hr|]. simpl in Hx. by rewrite last_app, Hx.
Qed.

Lemma first_run m t : holds m t -> rb_first_node m = Some (head (elems t), m).
Proof.
  intros Hm. unfold rb_first_node. eapply bind_run; [reflexivity|]. rewrite (holds_root _ _ Hm).
  destruct t as [|c l p r]; [done|]. cbn [rootp]. eapply bind_run; [apply gets_run|].
  pose proof (holds_fuel m [] _ Hm) as Hf. simpl in Hf. rewrite length_app in Hf. simpl in Hf.
  destruct (leftmost_run m [] c l p r (fuel_of m) Hm) as (q & Hr & Hq); [lia|].
  eapply bind_run; [exact Hr|]. by rewrite Hq.
Qed.

Lemma last_run m t : holds m t -> rb_last_node m = Some (last (elems t), m).
Proof.
  intros Hm. unfold rb_last_node. eapply bind_run; [reflexivity|]. rewrite (holds_root _ _ Hm).
  destruct t as [|c l p r]; [done|]. cbn [rootp]. eapply bind_run; [apply gets_run|].
  pose proof (holds_fuel m [] _ Hm) as Hf. simpl in Hf. rewrite length_app in Hf. simpl in Hf.
  destruct (rightmost_run m [] c l p r (fuel_of m) Hm) as (q & Hr & Hq); [lia|].
  eapply bind_run; [exact Hr|]. by rewrite Hq.
Qed.
