(* ===== verification/RbErase.v ===== *)
(** [rb_erase]: the colour loop and the cases of the removed node. *)

From S2P Require Import Prelude RbSpec RbTree RbShape RbInsert RbWalk.

Implicit Types (m : rb_mem) (t : tree) (C : list frame).

(** What an erasure leaves: the nodes in order in a red-black tree. *)
Definition balanced (m : rb_mem) (l : list ptr) : Prop :=
  exists t n, holds m t /\ elems t = l /\ is_rb t n /\ tblack t = true.

Lemma plug_tblack C t n :
  ctx_rb C n -> tblack t = true \/ cblack C = true -> tblack (plug C t) = true.
Proof.
  revert t n. induction C as [|[e [] p s] C IH]; intros t n HC Hb; simpl in *.
  - by destruct Hb.
  - destruct HC as (_ & _ & HCb & HC). eapply IH; [exact HC|by right].
  - destruct HC as (_ & HC). eapply IH; [exact HC|left]. by destruct e.
Qed.

Lemma balanced_plug m C t n :
  holds m (plug C t) -> ctx_rb C n -> is_rb t n -> tblack t = true \/ cblack C = true ->
  balanced m (elems (plug C t)).
Proof.
  intros Hm HC Ht Hb. destruct (plug_rb C t n HC Ht Hb) as [k Hk].
  exists (plug C t), k. split_and!; [done..|]. by eapply plug_tblack.
Qed.

(** The black height of a node of the colour over children of height [n]. *)
Definition height_of (c : rb_colour) (n : nat) : nat :=
  match c with RB_RED => n | RB_BLACK => S n end.

(** The subtree lacks one black node, unless its root is red. *)
Definition deficient t (n : nat) : Prop :=
  if tblack t then is_rb t n else is_rb (blacken t) (S n).

(** The loop of [__rb_erase_color] and the colouring after it. *)
Definition erase_color_from (fuel : nat) (node parent : option ptr) : act rb_mem unit :=
  bind (__rb_erase_color_loop fuel node parent) (fun node => when_some node rb_set_black).

Definition shrinks (fuel : nat) : Prop := forall m C t n,
  holds m (plug C t) -> deficient t n -> ctx_rb C (S n) ->
  (length C < fuel)%nat \/ (tblack t = false /\ (0 < fuel)%nat) ->
  exists m', erase_color_from fuel (rootp t) (parent_of C) m = Some (tt, m') /\
    balanced m' (elems (plug C t)).

(** The end of an iteration, once the sibling is black. *)
Definition erase_tail_left (next : option ptr -> option ptr -> act rb_mem (option ptr))
    (par other : ptr) : act rb_mem (option ptr) :=
  bind (node_get other) (fun o =>
  bind (null_or_black (rb_left o)) (fun lb =>
  bind (null_or_black (rb_right o)) (fun rb =>
  if lb && rb then
    bind (rb_set_red other) (fun _ =>
    bind (node_get par) (fun pn => next (Some par) (rb_parent pn)))
  else
    bind (if rb : bool then
            bind (when_some (rb_left o) rb_set_black) (fun _ =>
            bind (rb_set_red other) (fun _ =>
            bind (__rb_rotate_right other) (fun _ =>
            bind (node_get par) (fun pn => not_null (rb_right pn)))))
          else ret other) (fun other =>
    bind (node_get par) (fun pn =>
    bind (rb_set_color other (rb_color pn)) (fun _ =>
    bind (rb_set_black par) (fun _ =>
    bind (node_get other) (fun o =>
    bind (when_some (rb_right o) rb_set_black) (fun _ =>
    bind (__rb_rotate_left par) (fun _ => root_get)))))))))).

Definition erase_tail_right (next : option ptr -> option ptr -> act rb_mem (option ptr))
    (par other : ptr) : act rb_mem (option ptr) :=
  bind (node_get other) (fun o =>
  bind (null_or_black (rb_left o)) (fun lb =>
  bind (null_or_black (rb_right o)) (fun rb =>
  if lb && rb then
    bind (rb_set_red other) (fun _ =>
    bind (node_get par) (fun pn => next (Some par) (rb_parent pn)))
  else
    bind (if lb : bool then
            bind (when_some (rb_right o) rb_set_black) (fun _ =>
            bind (rb_set_red other) (fun _ =>
            bind (__rb_rotate_left other) (fun _ =>
            bind (node_get par) (fun pn => not_null (rb_left pn)))))
          else ret other) (fun other =>
    bind (node_get par) (fun pn =>
    bind (rb_set_color other (rb_color pn)) (fun _ =>
    bind (rb_set_black par) (fun _ =>
    bind (node_get other) (fun o =>
    bind (when_some (rb_left o) rb_set_black) (fun _ =>
    bind (__rb_rotate_right par) (fun _ => root_get)))))))))).

(** The last rotation: the result is the root, which is black already. *)
Lemma set_black_root_run m C t n :
  holds m (plug C t) -> ctx_rb C n -> is_rb t n -> tblack t = true \/ cblack C = true ->
  exists m', bind root_get (fun r => when_some r rb_set_black) m = Some (tt, m') /\
    balanced m' (elems (plug C t)).
Proof.
  intros Hm HC Ht Hb. destruct (balanced_plug m C t n) as (T & k & HT & He & Hk & HTb); [done..|].
  destruct T as [|c l p r].
  - exists m. split; [eapply bind_run; [apply gets_run|]; by rewrite (holds_root _ _ HT)|].
    exists Leaf, k. by rewrite <- He.
  - destruct c; [done|].
    destruct (set_color_holds m [] RB_BLACK RB_BLACK l p r HT) as (m' & Hr & Hm').
    exists m'. split; [eapply bind_run; [apply gets_run|]; by rewrite (holds_root _ _ HT)|].
    rewrite <- He. by exists (Node RB_BLACK l p r), k.
Qed.

(** The sibling's far child is red: the rotation pays the missing black. *)
Lemma erase_finish_left m C c t par sl o a x b n :
  holds m (plug C (Node c t par (Node RB_BLACK sl o (Node RB_RED a x b)))) ->
  is_rb t n -> is_rb sl n -> is_rb (Node RB_RED a x b) n ->
  ctx_rb C (height_of c (S n)) -> (c = RB_RED -> cblack C = true) ->
  exists m', bind (bind (node_get par) (fun pn =>
    bind (rb_set_color o (rb_color pn)) (fun _ =>
    bind (rb_set_black par) (fun _ =>
    bind (node_get o) (fun nd =>
    bind (when_some (rb_right nd) rb_set_black) (fun _ =>
    bind (__rb_rotate_left par) (fun _ => root_get)))))))
      (fun r => when_some r rb_set_black) m = Some (tt, m') /\
    balanced m' (elems (plug C (Node c t par (Node RB_BLACK sl o (Node RB_RED a x b))))).
Proof.
  intros Hm Ht Hsl Hx HC Hc.
  destruct (set_color_holds m (Frame SRight c par t :: C) _ c _ _ _ Hm) as (m1 & Hr1 & Hm1).
  destruct (set_color_holds m1 C _ RB_BLACK _ _ _ Hm1) as (m2 & Hr2 & Hm2).
  destruct (set_color_holds m2 (Frame SRight c o sl :: Frame SRight RB_BLACK par t :: C) _ RB_BLACK _ _ _ Hm2)
    as (m3 & Hr3 & Hm3).
  destruct (rotate_left_holds m3 C _ _ _ _ _ _ _ Hm3) as (m4 & Hr4 & Hm4).
  rewrite (elems_plug_eq C _ (Node c (Node RB_BLACK t par sl) o (Node RB_BLACK a x b))) by elems_eq.
  destruct (set_black_root_run m4 C _ (height_of c (S n)) Hm4) as (m5 & Hr5 & Hm5); [done| | |].
  { destruct Hx as (? & ? & _). destruct c; simpl; eauto 10. }
  { destruct c; [right|left]; auto. }
  exists m5. split; [|done].
  rewrite bind_assoc. eapply bind_run; [by eapply get_run|]. cbn [rb_color].
  rewrite bind_assoc. eapply bind_run; [exact Hr1|].
  rewrite bind_assoc. eapply bind_run; [exact Hr2|].
  rewrite bind_assoc. eapply bind_run; [by eapply (get_run m2 (Frame SRight RB_BLACK par t :: C))|].
  rewrite bind_assoc. eapply bind_run; [exact Hr3|].
  rewrite bind_assoc. by eapply bind_run; [exact Hr4|].
Qed.

Lemma erase_finish_right m C c t par sr o a x b n :
  holds m (plug C (Node c (Node RB_BLACK (Node RB_RED a x b) o sr) par t)) ->
  is_rb t n -> is_rb sr n -> is_rb (Node RB_RED a x b) n ->
  ctx_rb C (height_of c (S n)) -> (c = RB_RED -> cblack C = true) ->
  exists m', bind (bind (node_get par) (fun pn =>
    bind (rb_set_color o (rb_color pn)) (fun _ =>
    bind (rb_set_black par) (fun _ =>
    bind (node_get o) (fun nd =>
    bind (when_some (rb_left nd) rb_set_black) (fun _ =>
    bind (__rb_rotate_right par) (fun _ => root_get)))))))
      (fun r => when_some r rb_set_black) m = Some (tt, m') /\
    balanced m' (elems (plug C (Node c (Node RB_BLACK (Node RB_RED a x b) o sr) par t))).
Proof.
  intros Hm Ht Hsl Hx HC Hc.
  destruct (set_color_holds m (Frame SLeft c par t :: C) _ c _ _ _ Hm) as (m1 & Hr1 & Hm1).
  destruct (set_color_holds m1 C _ RB_BLACK _ _ _ Hm1) as (m2 & Hr2 & Hm2).
  destruct (set_color_holds m2 (Frame SLeft c o sr :: Frame SLeft RB_BLACK par t :: C) _ RB_BLACK _ _ _ Hm2)
    as (m3 & Hr3 & Hm3).
  destruct (rotate_right_holds m3 C _ _ _ _ _ _ _ Hm3) as (m4 & Hr4 & Hm4).
  rewrite (elems_plug_eq C _ (Node c (Node RB_BLACK a x b) o (Node RB_BLACK sr par t))) by elems_eq.
  destruct (set_black_root_run m4 C _ (height_of c (S n)) Hm4) as (m5 & Hr5 & Hm5); [done| | |].
  { destruct Hx as (? & ? & _). destruct c; simpl; eauto 10. }
  { destruct c; [right|left]; auto. }
  exists m5. split; [|done].
  rewrite bind_assoc. eapply bind_run; [by eapply get_run|]. cbn [rb_color].
  rewrite bind_assoc. eapply bind_run; [exact Hr1|].
  rewrite bind_assoc. eapply bind_run; [exact Hr2|].
  rewrite bind_assoc. eapply bind_run; [by eapply (get_run m2 (Frame SLeft RB_BLACK par t :: C))|].
  rewrite bind_assoc. eapply bind_run; [exact Hr3|].
  rewrite bind_assoc. by eapply bind_run; [exact Hr4|].
Qed.

Lemma tblack_red t : tblack t = false -> exists l p r, t = Node RB_RED l p r.
Proof. destruct t as [|[] l p r]; simpl; try done. eauto. Qed.

Lemma erase_tail_left_spec fuel m C c t par sl o sr n :
  shrinks fuel -> holds m (plug C (Node c t par (Node RB_BLACK sl o sr))) ->
  is_rb t n -> tblack t = true -> is_rb sl n -> is_rb sr n ->
  ctx_rb C (height_of c (S n)) -> (c = RB_RED -> cblack C = true) ->
  (length C < fuel)%nat \/ (c = RB_RED /\ (0 < fuel)%nat) ->
  exists m', bind (erase_tail_left (__rb_erase_color_loop fuel) par o)
      (fun r => when_some r rb_set_black) m = Some (tt, m') /\
    balanced m' (elems (plug C (Node c t par (Node RB_BLACK sl o sr)))).
Proof.
  intros Hsh Hm Ht Htb Hsl Hsr HC Hc Hf. unfold erase_tail_left. rewrite !bind_assoc.
  pose proof (get_run m (Frame SRight c par t :: C) _ _ _ _ Hm) as Ho.
  pose proof (plug_black_run m (Frame SLeft RB_BLACK o sr :: Frame SRight c par t :: C) sl Hm) as Hlb.
  pose proof (plug_black_run m (Frame SRight RB_BLACK o sl :: Frame SRight c par t :: C) sr Hm) as Hrb.
  eapply ex_and_run; [exact Ho|]. rewrite bind_assoc. eapply ex_and_run; [exact Hlb|].
  rewrite bind_assoc. eapply ex_and_run; [exact Hrb|].
  destruct (tblack sr) eqn:Hsrb; [destruct (tblack sl) eqn:Hslb|]; cbn [andb]; rewrite ?andb_false_r.
  - destruct (set_color_holds m (Frame SRight c par t :: C) _ RB_RED _ _ _ Hm) as (m1 & Hr1 & Hm1).
    rewrite bind_assoc. eapply ex_and_run; [exact Hr1|]. rewrite bind_assoc.
    eapply ex_and_run; [by eapply (get_run m1 C)|].
    destruct (Hsh m1 C (Node c t par (Node RB_RED sl o sr)) (height_of c n) Hm1) as (m2 & Hr2 & Hm2).
    { destruct c; simpl; unfold deficient; simpl; eauto 10. }
    { by destruct c. }
    { destruct Hf as [?|[-> ?]]; [by left|by right]. }
    exists m2. split; [exact Hr2|]. by erewrite elems_plug_eq.
  - destruct (tblack_red _ Hslb) as (a & x & b & ->).
    destruct (set_color_holds m (Frame SLeft RB_BLACK o sr :: Frame SRight c par t :: C) _ RB_BLACK _ _ _ Hm)
      as (m1 & Hr1 & Hm1).
    destruct (set_color_holds m1 (Frame SRight c par t :: C) _ RB_RED _ _ _ Hm1) as (m2 & Hr2 & Hm2).
    destruct (rotate_right_holds m2 (Frame SRight c par t :: C) _ _ _ _ _ _ _ Hm2) as (m3 & Hr3 & Hm3).
    destruct Hsl as (Ha & Hb & _ & Hbb).
    destruct (erase_finish_left m3 C c t par a x b o sr n Hm3) as (m4 & Hr4 & Hm4);
      [done|done|by split_and!|done|done|].
    exists m4. split.
    + rewrite bind_assoc. rewrite bind_assoc. eapply bind_run; [exact Hr1|].
      rewrite bind_assoc. eapply bind_run; [exact Hr2|].
      rewrite bind_assoc. eapply bind_run; [exact Hr3|].
      rewrite bind_assoc. eapply bind_run; [by eapply (get_run m3 C)|].
      eapply bind_run; [reflexivity|]. exact Hr4.
    + erewrite elems_plug_eq; [exact Hm4|]. elems_eq.
  - destruct (tblack_red _ Hsrb) as (a & x & b & ->).
    destruct (erase_finish_left m C c t par sl o a x b n Hm) as (m4 & Hr4 & Hm4); [done..|].
    exists m4. split; [|done]. rewrite bind_assoc. eapply bind_run; [reflexivity|]. exact Hr4.
Qed.

Lemma erase_tail_right_spec fuel m C c t par sl o sr n :
  shrinks fuel -> holds m (plug C (Node c (Node RB_BLACK sl o sr) par t)) ->
  is_rb t n -> tblack t = true -> is_rb sl n -> is_rb sr n ->
  ctx_rb C (height_of c (S n)) -> (c = RB_RED -> cblack C = true) ->
  (length C < fuel)%nat \/ (c = RB_RED /\ (0 < fuel)%nat) ->
  exists m', bind (erase_tail_right (__rb_erase_color_loop fuel) par o)
      (fun r => when_some r rb_set_black) m = Some (tt, m') /\
    balanced m' (elems (plug C (Node c (Node RB_BLACK sl o sr) par t))).
Proof.
  intros Hsh Hm Ht Htb Hsl Hsr HC Hc Hf. unfold erase_tail_right. rewrite !bind_assoc.
  pose proof (get_run m (Frame SLeft c par t :: C) _ _ _ _ Hm) as Ho.
  pose proof (plug_black_run m (Frame SLeft RB_BLACK o sr :: Frame SLeft c par t :: C) sl Hm) as Hlb.
  pose proof (plug_black_run m (Frame SRight RB_BLACK o sl :: Frame SLeft c par t :: C) sr Hm) as Hrb.
  eapply ex_and_run; [exact Ho|]. rewrite bind_assoc. eapply ex_and_run; [exact Hlb|].
  rewrite bind_assoc. eapply ex_and_run; [exact Hrb|].
  destruct (tblack sl) eqn:Hslb; [destruct (tblack sr) eqn:Hsrb|]; cbn [andb].
  - destruct (set_color_holds m (Frame SLeft c par t :: C) _ RB_RED _ _ _ Hm) as (m1 & Hr1 & Hm1).
    rewrite bind_assoc. eapply ex_and_run; [exact Hr1|]. rewrite bind_assoc.
    eapply ex_and_run; [by eapply (get_run m1 C)|].
    destruct (Hsh m1 C (Node c (Node RB_RED sl o sr) par t) (height_of c n) Hm1) as (m2 & Hr2 & Hm2).
    { destruct c; simpl; unfold deficient; simpl; eauto 10. }
    { by destruct c. }
    { destruct Hf as [?|[-> ?]]; [by left|by right]. }
    exists m2. split; [exact Hr2|]. by erewrite elems_plug_eq.
  - destruct (tblack_red _ Hsrb) as (a & x & b & ->).
    destruct (set_color_holds m (Frame SRight RB_BLACK o sl :: Frame SLeft c par t :: C) _ RB_BLACK _ _ _ Hm)
      as (m1 & Hr1 & Hm1).
    destruct (set_color_holds m1 (Frame SLeft c par t :: C) _ RB_RED _ _ _ Hm1) as (m2 & Hr2 & Hm2).
    destruct (rotate_left_holds m2 (Frame SLeft c par t :: C) _ _ _ _ _ _ _ Hm2) as (m3 & Hr3 & Hm3).
    destruct Hsr as (Ha & Hb & Hab & _).
    destruct (erase_finish_right m3 C c t par b x sl o a n Hm3) as (m4 & Hr4 & Hm4);
      [done|done|by split_and!|done|done|].
    exists m4. split.
    + rewrite bind_assoc. rewrite bind_assoc. eapply bind_run; [exact Hr1|].
      rewrite bind_assoc. eapply bind_run; [exact Hr2|].
      rewrite bind_assoc. eapply bind_run; [exact Hr3|].
      rewrite bind_assoc. eapply bind_run; [by eapply (get_run m3 C)|].
      eapply bind_run; [reflexivity|]. exact Hr4.
    + erewrite elems_plug_eq; [exact Hm4|]. elems_eq.
  - destruct (tblack_red _ Hslb) as (a & x & b & ->).
    destruct (erase_finish_right m C c t par sr o a x b n Hm) as (m4 & Hr4 & Hm4); [done..|].
    exists m4. split; [|done]. rewrite bind_assoc. eapply bind_run; [reflexivity|]. exact Hr4.
Qed.

Lemma plug_root f C t :
  exists q, rootp (plug (f :: C) t) = Some q /\ q ∈ before (f :: C) ++ after (f :: C).
Proof.
  revert f t. induction C as [|g C IH]; intros [e c p s] t.
  - exists p. destruct e; simpl; (split; [done|set_solver]).
  - destruct (IH g (fill (Frame e c p s) t)) as (q & Hq & Hin). exists q. split; [exact Hq|].
    destruct e, g as [[] c' p' s']; simpl in *; set_solver.
Qed.

Lemma holds_not_root m f C t : holds m (plug (f :: C) t) -> rootp t <> rb_root m.
Proof.
  intros Hm. rewrite (holds_root _ _ Hm). destruct (plug_root f C t) as (q & -> & Hq).
  intros Hr%rootp_elem. apply holds_plug in Hm as (_ & _ & Hnd).
  apply NoDup_app in Hnd as (_ & HB & Hnd). apply NoDup_app in Hnd as (_ & HA & _).
  apply elem_of_app in Hq as [Hq|Hq]; [eapply HB; set_solver|by eapply HA].
Qed.

Lemma loop_left fuel m C c par t s n :
  shrinks fuel -> holds m (plug C (Node c t par s)) -> is_rb t n -> tblack t = true ->
  ctx_rb (Frame SLeft c par s :: C) (S n) -> (length C < fuel)%nat ->
  exists m', erase_color_from (S fuel) (rootp t) (Some par) m = Some (tt, m') /\
    balanced m' (elems (plug C (Node c t par s))).
Proof.
  intros Hsh Hm Ht Htb HC Hf. unfold erase_color_from. simpl. rewrite bind_assoc.
  eapply ex_and_run; [by apply (plug_black_run m (Frame SLeft c par s :: C))|].
  rewrite bind_assoc. eapply ex_and_run; [apply gets_run|]. rewrite Htb.
  rewrite bool_decide_eq_false_2 by by eapply (holds_not_root m (Frame SLeft c par s) C).
  cbn [andb negb]. rewrite bind_assoc. eapply ex_and_run; [reflexivity|].
  rewrite bind_assoc. eapply ex_and_run; [by eapply get_run|].
  cbn [rb_left rb_right]. rewrite decide_True by done.
  destruct s as [|[] sl o sr].
  { destruct c; [by destruct HC|]. by destruct HC. }
  - destruct c; [by destruct HC as (_ & ? & _)|]. destruct HC as ((Hsl & Hsr & Hslb & Hsrb) & HC).
    pose proof (red_run m (Frame SRight RB_BLACK par t :: C) _ _ _ _ Hm) as Hred.
    destruct (set_color_holds m (Frame SRight RB_BLACK par t :: C) _ RB_BLACK _ _ _ Hm) as (m1 & Hr1 & Hm1).
    destruct (set_color_holds m1 C _ RB_RED _ _ _ Hm1) as (m2 & Hr2 & Hm2).
    destruct (rotate_left_holds m2 C _ _ _ _ _ _ _ Hm2) as (m3 & Hr3 & Hm3).
    destruct sl as [|[] a x b]; [done..|]. destruct Hsl as (k & [= <-] & Ha & Hb).
    destruct (erase_tail_left_spec fuel m3 (Frame SLeft RB_BLACK o sr :: C) RB_RED t par a x b n)
      as (m4 & Hr4 & Hm4);
      [done|exact Hm3|done|done|done|done|by split|done|right; split; [done|lia]|].
    exists m4. split.
    + rewrite bind_assoc. eapply bind_run; [reflexivity|].
      rewrite bind_assoc. eapply bind_run; [exact Hred|].
      rewrite bind_assoc. eapply bind_run.
      { cbn [bool_decide]. eapply bind_run; [exact Hr1|]. eapply bind_run; [exact Hr2|].
        eapply bind_run; [exact Hr3|].
        eapply bind_run; [by eapply (get_run m3 (Frame SLeft RB_BLACK o sr :: C))|]. reflexivity. }
      exact Hr4.
    + erewrite elems_plug_eq; [exact Hm4|]. elems_eq.
  - assert (Hs : is_rb sl n /\ is_rb sr n /\ ctx_rb C (height_of c (S n)) /\ (c = RB_RED -> cblack C = true)).
    { destruct c; [destruct HC as ((k & [= <-] & ? & ?) & _ & ? & ?)|destruct HC as ((k & [= <-] & ? & ?) & ?)];
        by split_and!. }
    destruct Hs as (Hsl & Hsr & HC' & Hcb).
    pose proof (red_run m (Frame SRight c par t :: C) _ _ _ _ Hm) as Hred.
    destruct (erase_tail_left_spec fuel m C c t par sl o sr n) as (m4 & Hr4 & Hm4);
      [done|exact Hm|done|done|done|done|done|done|by left|].
    exists m4. split; [|exact Hm4]. rewrite bind_assoc. eapply bind_run; [reflexivity|].
    rewrite bind_assoc. eapply bind_run; [exact Hred|].
    rewrite bind_assoc. eapply bind_run; [reflexivity|]. exact Hr4.
Qed.

Lemma loop_right fuel m C c par t s n :
  shrinks fuel -> holds m (plug C (Node c s par t)) -> is_rb t n -> tblack t = true ->
  ctx_rb (Frame SRight c par s :: C) (S n) -> (length C < fuel)%nat ->
  exists m', erase_color_from (S fuel) (rootp t) (Some par) m = Some (tt, m') /\
    balanced m' (elems (plug C (Node c s par t))).
Proof.
  intros Hsh Hm Ht Htb HC Hf. unfold erase_color_from. simpl. rewrite bind_assoc.
  eapply ex_and_run; [by apply (plug_black_run m (Frame SRight c par s :: C))|].
  rewrite bind_assoc. eapply ex_and_run; [apply gets_run|]. rewrite Htb.
  rewrite bool_decide_eq_false_2 by by eapply (holds_not_root m (Frame SRight c par s) C).
  cbn [andb negb]. rewrite bind_assoc. eapply ex_and_run; [reflexivity|].
  rewrite bind_assoc. eapply ex_and_run; [by eapply get_run|].
  cbn [rb_left rb_right].
  destruct s as [|[] sl o sr].
  { destruct c; [by destruct HC|]. by destruct HC. }
  - destruct c; [by destruct HC as (_ & ? & _)|]. destruct HC as ((Hsl & Hsr & Hslb & Hsrb) & HC).
    rewrite decide_False by (intros Hc; symmetry in Hc; by apply (holds_side m C _ _ _ _ _ Hm eq_refl)).
    pose proof (red_run m (Frame SLeft RB_BLACK par t :: C) _ _ _ _ Hm) as Hred.
    destruct (set_color_holds m (Frame SLeft RB_BLACK par t :: C) _ RB_BLACK _ _ _ Hm) as (m1 & Hr1 & Hm1).
    destruct (set_color_holds m1 C _ RB_RED _ _ _ Hm1) as (m2 & Hr2 & Hm2).
    destruct (rotate_right_holds m2 C _ _ _ _ _ _ _ Hm2) as (m3 & Hr3 & Hm3).
    destruct sr as [|[] a x b]; [done..|]. destruct Hsr as (k & [= <-] & Ha & Hb).
    destruct (erase_tail_right_spec fuel m3 (Frame SRight RB_BLACK o sl :: C) RB_RED t par a x b n)
      as (m4 & Hr4 & Hm4);
      [done|exact Hm3|done|done|done|done|by split|done|right; split; [done|lia]|].
    exists m4. split.
    + rewrite bind_assoc. eapply bind_run; [reflexivity|].
      rewrite bind_assoc. eapply bind_run; [exact Hred|].
      rewrite bind_assoc. eapply bind_run.
      { cbn [bool_decide]. eapply bind_run; [exact Hr1|]. eapply bind_run; [exact Hr2|].
        eapply bind_run; [exact Hr3|].
        eapply bind_run; [by eapply (get_run m3 (Frame SRight RB_BLACK o sl :: C))|]. reflexivity. }
      exact Hr4.
    + erewrite elems_plug_eq; [exact Hm4|]. elems_eq.
  - rewrite decide_False by (intros Hc; symmetry in Hc; by apply (holds_side m C _ _ _ _ _ Hm eq_refl)).
    assert (Hs : is_rb sl n /\ is_rb sr n /\ ctx_rb C (height_of c (S n)) /\ (c = RB_RED -> cblack C = true)).
    { destruct c; [destruct HC as ((k & [= <-] & ? & ?) & _ & ? & ?)|destruct HC as ((k & [= <-] & ? & ?) & ?)];
        by split_and!. }
    destruct Hs as (Hsl & Hsr & HC' & Hcb).
    pose proof (red_run m (Frame SLeft c par t :: C) _ _ _ _ Hm) as Hred.
    destruct (erase_tail_right_spec fuel m C c t par sl o sr n) as (m4 & Hr4 & Hm4);
      [done|exact Hm|done|done|done|done|done|done|by left|].
    exists m4. split; [|exact Hm4]. rewrite bind_assoc. eapply bind_run; [reflexivity|].
    rewrite bind_assoc. eapply bind_run; [exact Hred|].
    rewrite bind_assoc. eapply bind_run; [reflexivity|]. exact Hr4.
Qed.

Lemma shrinks_all fuel : shrinks fuel.
Proof.
  induction fuel as [|fuel IH]; intros m C t n Hm Ht HC Hf; [lia|].
  unfold deficient in Ht. destruct (tblack t) eqn:Htb; cycle 1.
  - destruct (tblack_red _ Htb) as (l & p & r & ->).
    destruct (set_color_holds m C _ RB_BLACK _ _ _ Hm) as (m1 & Hr1 & Hm1).
    exists m1. split.
    + unfold erase_color_from. simpl. rewrite bind_assoc.
      eapply bind_run; [by eapply (plug_black_run m C (Node RB_RED l p r))|].
      rewrite bind_assoc. eapply bind_run; [apply gets_run|]. eapply bind_run; [reflexivity|]. exact Hr1.
    + rewrite (elems_plug_eq C _ (Node RB_BLACK l p r)) by done.
      eapply balanced_plug; [exact Hm1|exact HC|exact Ht|by left].
  - destruct C as [|[[] c par s] C].
    + destruct (set_black_root_run m [] t n) as (m1 & Hr1 & Hm1); [done|done|done|by left|].
      exists m1. split; [|done]. unfold erase_color_from. simpl. rewrite bind_assoc.
      eapply bind_run; [by eapply (plug_black_run m [])|].
      rewrite bind_assoc. eapply bind_run; [apply gets_run|]. rewrite Htb.
      rewrite bool_decide_eq_true_2 by (symmetry; by apply holds_root).
      eapply bind_run; [reflexivity|]. simpl in Hm. by rewrite <- (holds_root _ _ Hm).
    + simpl in Hf. eapply loop_left; try done. destruct Hf as [?|[? _]]; [lia|done].
    + simpl in Hf. eapply loop_right; try done. destruct Hf as [?|[? _]]; [lia|done].
Qed.

(** ** The node that goes *)

Lemma unplug_rb C t k :
  is_rb (plug C t) k -> tblack (plug C t) = true ->
  exists n, is_rb t n /\ ctx_rb C n /\ (tblack t = false -> cblack C = true).
Proof.
  revert t. induction C as [|[e c p s] C IH]; intros t Ht Hb; simpl in *.
  { exists k. split_and!; [done..|]. by rewrite Hb. }
  destruct (IH _ Ht Hb) as (n & Hn & HC & Hc).
  destruct e, c; simpl in Hn.
  1, 3: destruct Hn as (H1 & H2 & H3 & H4); exists n; split_and!; auto; congruence.
  all: destruct Hn as (n' & -> & H1 & H2); exists n'; by split_and!.
Qed.

Lemma erase_color_run m C t n :
  holds m (plug C t) -> deficient t n -> ctx_rb C (S n) ->
  exists m', __rb_erase_color (rootp t) (parent_of C) m = Some (tt, m') /\
    balanced m' (elems (plug C t)).
Proof.
  intros Hm Ht HC. destruct (shrinks_all (fuel_of m) m C t n) as (m' & Hr & Hm'); [done..| |].
  { left. pose proof (holds_fuel _ _ _ Hm). lia. }
  exists m'. split; [|done]. unfold __rb_erase_color. eapply bind_run; [apply gets_run|]. exact Hr.
Qed.

(** The child of a node without a second child, in the node's place. *)
Lemma recolor_after m C c t n :
  holds m (plug C t) -> is_rb t n -> ctx_rb C (height_of c n) ->
  (c = RB_RED -> tblack t = true /\ cblack C = true) -> n = O ->
  exists m', (if decide (c = RB_BLACK) then __rb_erase_color (rootp t) (parent_of C) else ret tt) m
      = Some (tt, m') /\ balanced m' (elems (plug C t)).
Proof.
  intros Hm Ht HC Hc ->. destruct c; simpl in *.
  - exists m. split; [done|]. destruct (Hc eq_refl). eapply balanced_plug; eauto.
  - eapply erase_color_run; [done| |done]. unfold deficient. destruct (tblack t) eqn:Htb; [done|].
    destruct (tblack_red _ Htb) as (l & p & r & ->). simpl in *.
    destruct Ht as (? & ? & _). by exists O.
Qed.

Definition all_left (C : list frame) : Prop :=
  Forall (fun f => match f with Frame e _ _ _ => e = SLeft end) C.

(** The successor: the end of the left links. *)
Lemma successor_run m C c l p r fuel :
  holds m (plug C (Node c l p r)) -> (length (elems l) < fuel)%nat ->
  exists D cs q rc, leftmost fuel p m = Some (q, m) /\ all_left D /\
    Node c l p r = plug D (Node cs Leaf q rc).
Proof.
  revert C c l p r. induction fuel as [|fuel IH]; intros C c l p r Hm Hf; [lia|].
  destruct l as [|c' l' p' r'].
  - exists [], c, p, r. split_and!; [|by constructor|done]. simpl.
    by eapply bind_run; [by eapply get_run|].
  - simpl in Hf. rewrite length_app in Hf. simpl in Hf.
    destruct (IH (Frame SLeft c p r :: C) c' l' p' r' Hm) as (D & cs & q & rc & Hr & HD & He); [lia|].
    exists (D ++ [Frame SLeft c p r]), cs, q, rc. split_and!.
    + simpl. by eapply bind_run; [by eapply get_run|].
    + apply Forall_app. split; [done|]. by constructor.
    + by rewrite plug_app, <- He.
Qed.

Lemma all_left_before D : all_left D -> before D = [].
Proof. induction 1 as [|[e c p s] D -> _ IH]; [done|exact IH]. Qed.

Lemma ctx_rb_rename D e c p q s C n :
  ctx_rb (D ++ Frame e c p s :: C) n -> ctx_rb (D ++ Frame e c q s :: C) n.
Proof.
  revert n. induction D as [|[e' c' p' s'] D IH]; intros n; simpl; [done|].
  destruct c'; [|naive_solver]. intros (H1 & H2 & H3 & H4). split_and!; auto.
  by destruct D as [|[? [] ? ?] D].
Qed.

Lemma cblack_rename D e c p q s C :
  cblack (D ++ Frame e c p s :: C) = cblack (D ++ Frame e c q s :: C).
Proof. by destruct D as [|[? [] ? ?] D]. Qed.

(** The successor is unlinked: its child takes its place. *)
Lemma detach_holds m e c g s C cs q rc :
  holds m (plug (Frame e c g s :: C) (Node cs Leaf q rc)) ->
  exists m1 m2,
    when_some (rootp rc) (fun x => rb_set_parent x (Some g)) m = Some (tt, m1) /\
    match e with SLeft => set_left g (rootp rc) | SRight => set_right g (rootp rc) end m1
      = Some (tt, m2) /\
    holds m2 (plug (Frame e c g s :: C) rc) /\ is_Some (rb_nodes m2 !! q).
Proof.
  set (E := Frame e c g s :: C). intros Hm. pose proof (holds_get _ _ _ _ _ _ Hm) as Hq.
  apply holds_plug in Hm as ((_ & _ & Hrc) & HC & Hnd). cbn [elems app] in Hnd.
  assert (Hd : NoDup (elems rc) /\ NoDup (before E ++ elems rc ++ after E) /\
    NoDup (before E ++ after E) /\ q ∉ elems rc /\ q ∉ before E ++ after E /\
    (forall x, x ∈ elems rc -> x ∉ before E ++ after E)).
  { clearbody E. clear -Hnd. split_nodup Hnd. rewrite !NoDup_app. set_solver. }
  destruct Hd as (Hndr & Hnd' & HndC & Hqr & HqC & Hrs).
  assert (HgC : g ∈ before E ++ after E) by (unfold E; destruct e; simpl; set_solver).
  destruct (reparent_repr m (Some q) (Some g) rc) as (h1 & Hr1 & Hrc1 & Hag1); [done|done|].
  assert (HC1 : repr_ctx h1 (rb_root m) E (Some q)).
  { eapply repr_ctx_agree; [|exact HC]. intros x Hx. apply Hag1. intros Hx'. by apply (Hrs x). }
  pose proof HC1 as (Hg & _).
  exists (with_nodes m h1), (node_set (with_nodes m h1) g (frame_node e (parent_of C) c s (rootp rc))).
  split_and!; [exact Hr1|destruct e; exact (run_set (with_nodes m h1) g _ _ Hg)| |].
  - apply holds_plug. split_and!; [| |done].
    + eapply repr_agree; [|exact Hrc1]. intros x Hx. simpl. rewrite lookup_insert_ne; [done|].
      intros ->. by apply (Hrs x).
    + exact (repr_ctx_head _ _ _ _ _ (rootp rc) HC1 HndC eq_refl).
  - simpl. rewrite lookup_insert_ne by congruence. rewrite Hag1 by done. rewrite Hq. eauto.
Qed.

(** The unlinked successor [q] takes the place of [p]. *)
Lemma take_place m C c l p r q :
  holds m (plug C (Node c l p r)) -> l <> Leaf -> is_Some (rb_nodes m !! q) ->
  q ∉ elems (plug C (Node c l p r)) ->
  forall X (k : unit -> act rb_mem X), exists m',
    bind (node_get p) (fun o =>
    bind (node_update q (fun _ => RbNode (rb_parent o) (rb_color o) (rb_right o) (rb_left o))) (fun _ =>
    bind (relink_left (rb_parent o) p (Some q)) (fun _ =>
    bind (not_null (rb_left o)) (fun left =>
    bind (rb_set_parent left (Some q)) (fun _ =>
    bind (when_some (rb_right o) (fun r => rb_set_parent r (Some q))) k))))) m = k tt m' /\
    holds m' (plug C (Node c l q r)).
Proof.
  intros Hm Hl [n Hn] Hq X k. pose proof (holds_get _ _ _ _ _ _ Hm) as Hp.
  assert (Hpq : p <> q).
  { intros ->. apply Hq. rewrite elems_plug. simpl. set_solver. }
  pose (m1 := node_set m q (RbNode (parent_of C) c (rootp r) (rootp l))).
  rewrite elems_plug in Hq. apply holds_plug in Hm as ((_ & Hll & Hrr) & HC & Hnd). simpl in *.
  destruct (redirect_holds m1 C c l p r q) as (m2 & h3 & h4 & Hr1 & Hr2 & Hr3 & _ & Hq4 & Hm').
  - eapply repr_agree; [|exact Hll]. intros x Hx. simpl. rewrite lookup_insert_ne; [done|set_solver].
  - eapply repr_agree; [|exact Hrr]. intros x Hx. simpl. rewrite lookup_insert_ne; [done|set_solver].
  - eapply repr_ctx_agree; [|exact HC]. intros x Hx. simpl. rewrite lookup_insert_ne; [done|set_solver].
  - rewrite NoDup_cons. rewrite NoDup_cons. clear -Hnd Hq.
    split_nodup Hnd. rewrite !NoDup_app. set_solver.
  - exists (with_nodes m2 h4). split.
    + eapply bind_run; [by apply node_get_run|]. cbn [rb_parent rb_color rb_right rb_left].
      eapply bind_run; [by apply run_set|]. eapply bind_run; [exact Hr1|].
      destruct l as [|lc ll lp lr]; [done|]. eapply bind_run; [reflexivity|].
      eapply bind_run; [exact Hr2|]. eapply bind_run; [exact Hr3|]. done.
    + revert Hm'. unfold node_set. simpl. rewrite insert_id; [done|].
      rewrite Hq4. simpl. by rewrite lookup_insert_eq.
Qed.

(** The frame above the successor: the removed node itself or a left parent. *)
Lemma successor_frame D e c old l C :
  all_left D -> exists e' c' g s' C', D ++ Frame e c old l :: C = Frame e' c' g s' :: C' /\
    (D = [] /\ e' = e /\ g = old \/ e' = SLeft /\ g ∈ after D).
Proof.
  destruct 1 as [|[e' c' g s'] D -> HD].
  - exists e, c, old, l, C. split; [done|]. by left.
  - exists SLeft, c', g, s', (D ++ Frame e c old l :: C). split; [done|]. right. simpl. set_solver.
Qed.

Lemma after_app C D : after (C ++ D) = after C ++ after D.
Proof.
  induction C as [|[[] c p s] C IH]; simpl; [done| |done]. by rewrite IH, <- (assoc_L (++)).
Qed.

Lemma erase_two_run m C c l old r :
  holds m (plug C (Node c l old r)) -> l <> Leaf -> r <> Leaf ->
  exists m' D cs q rc, r = plug D (Node cs Leaf q rc) /\ all_left D /\
    (forall r', rootp r = Some r' -> rb_erase_two old r' m =
      Some ((rootp rc, parent_of (D ++ Frame SRight c q l :: C), cs), m')) /\
    holds m' (plug (D ++ Frame SRight c q l :: C) rc).
Proof.
  intros Hm Hl Hr. destruct r as [|cr lr pr rr]; [done|].
  destruct (successor_run m (Frame SRight c old l :: C) cr lr pr rr (fuel_of m) Hm)
    as (D & cs & q & rc & Hleft & HD & Heq).
  { pose proof (holds_fuel m (Frame SRight c old l :: C) _ Hm) as Hf. simpl in Hf.
    rewrite length_app in Hf. lia. }
  pose proof Hm as Hmq. rewrite Heq in Hmq.
  change (plug C (Node c l old (plug D (Node cs Leaf q rc))))
    with (plug (Frame SRight c old l :: C) (plug D (Node cs Leaf q rc))) in Hmq.
  rewrite <- plug_app in Hmq.
  assert (Hqo : q <> old /\ q ∉ elems (plug C (Node c l old (plug D rc))) /\ old ∉ after D).
  { apply holds_nodup in Hm. rewrite Heq, !elems_plug in Hm. rewrite !elems_plug. simpl in *.
    rewrite !elems_plug in *. clear -Hm. simpl in Hm. split_nodup Hm. set_solver. }
  destruct Hqo as (Hqo & Hqn & HoD).
  destruct (successor_frame D SRight c old l C HD) as (e' & c' & g & s' & C' & Hfr & Hcase).
  pose proof (get_run _ _ _ _ _ _ Hmq) as Hgetq. rewrite Hfr in Hmq, Hgetq.
  destruct (detach_holds m e' c' g s' C' cs q rc Hmq) as (m1 & m2 & Hr1 & Hr2 & Hm2 & Hex).
  rewrite <- Hfr, plug_app in Hm2.
  assert (exists np, parent_of (D ++ Frame SRight c q l :: C) = Some np) as [np Hnp].
  { destruct D as [|[e1 c1 g1 s1] D]; simpl; eauto. }
  destruct (take_place m2 C c l old (plug D rc) q Hm2 Hl Hex Hqn _
    (fun _ => ret (rootp rc, Some np, cs))) as (m' & Hr' & Hm').
  exists m', D, cs, q, rc. split_and!; [done|done| |by rewrite plug_app].
  intros r' [= <-]. rewrite Hnp. unfold rb_erase_two.
  eapply bind_run; [apply gets_run|]. eapply bind_run; [exact Hleft|].
  eapply bind_run; [exact Hgetq|]. cbn [rb_right rb_parent rb_color parent_of].
  eapply bind_run; [reflexivity|]. eapply bind_run; [exact Hr1|].
  eapply bind_run; [|exact Hr'].
  destruct Hcase as [(-> & -> & ->)|(-> & HgD)].
  - rewrite decide_True by done. injection Hnp as <-. by eapply bind_run; [exact Hr2|].
  - rewrite decide_False by (intros ->; done). eapply bind_run; [exact Hr2|].
    destruct D as [|[e1 c1 g1 s1] D1]; [by apply not_elem_of_nil in HgD|].
    simpl in Hfr, Hnp. injection Hfr as -> -> -> -> <-. by injection Hnp as <-.
Qed.

Lemma erase_run m C c l p r k :
  holds m (plug C (Node c l p r)) -> is_rb (plug C (Node c l p r)) k ->
  tblack (plug C (Node c l p r)) = true ->
  exists m', rb_erase_node p m = Some (tt, m') /\ balanced m' (before C ++ (elems l ++ elems r) ++ after C).
Proof.
  intros Hm Hk Hb.
  assert (Hone : l = Leaf \/ r = Leaf \/ l <> Leaf /\ r <> Leaf) by (destruct l, r; auto; right; right; done).
  pose proof (get_run _ _ _ _ _ _ Hm) as Hget. unfold rb_erase_node.
  destruct (unplug_rb C _ k Hk Hb) as (n & Hn & HC & Hcb).
  assert (Hchild : forall t, l = Leaf /\ t = r \/ r = Leaf /\ t = l ->
    exists m', bind (rb_erase_one p (rootp t)) (fun cpc =>
      let '(child, parent, color) := cpc in
      if decide (color = RB_BLACK) then __rb_erase_color child parent else ret tt) m = Some (tt, m') /\
      balanced m' (elems (plug C t))).
  { intros t Ht. destruct (splice_holds m C c l p r t Hm Ht) as (m1 & Hr1 & Hm1).
    eapply ex_and_run; [exact Hr1|]. apply (recolor_after m1 C c t 0 Hm1); try done.
    - destruct c; simpl in Hn; destruct Ht as [[-> ->]|[-> ->]]; simpl in Hn; naive_solver.
    - destruct c; simpl in Hn |- *; destruct Ht as [[-> ->]|[-> ->]]; simpl in Hn; naive_solver.
    - intros ->. split; [|by apply Hcb]. simpl in Hn. destruct Ht as [[-> ->]|[-> ->]]; naive_solver. }
  destruct Hone as [->|[->|[Hl Hr]]].
  - destruct (Hchild r) as (m' & Hr' & Hm'); [by left|]. exists m'. split.
    + eapply bind_run; [exact Hget|]. exact Hr'.
    + by rewrite elems_plug in Hm'.
  - destruct (Hchild l) as (m' & Hr' & Hm'); [by right|]. exists m'. split.
    + eapply bind_run; [exact Hget|]. destruct l; exact Hr'.
    + rewrite elems_plug in Hm'. simpl. by rewrite app_nil_r.
  - destruct (erase_two_run m C c l p r Hm Hl Hr) as (m1 & D & cs & q & rc & -> & HD & Hr1 & Hm1).
    assert (Hrb : exists n', is_rb (Node cs Leaf q rc) n' /\ ctx_rb (D ++ Frame SRight c p l :: C) n' /\
      (tblack (Node cs Leaf q rc) = false -> cblack (D ++ Frame SRight c p l :: C) = true)).
    { apply (unplug_rb _ _ k); by rewrite plug_app. }
    destruct Hrb as (n' & Hq & HC' & Hcq).
    apply (ctx_rb_rename D SRight c p q l C) in HC'. rewrite (cblack_rename _ _ _ _ q) in Hcq.
    destruct (recolor_after m1 (D ++ Frame SRight c q l :: C) cs rc 0 Hm1) as (m2 & Hr2 & Hm2).
    + destruct cs; simpl in Hq; naive_solver.
    + destruct cs; simpl in Hq |- *; naive_solver.
    + intros ->. split; [simpl in Hq; naive_solver|by apply Hcq].
    + done.
    + exists m2. split.
      * eapply bind_run; [exact Hget|].
        destruct (plug D (Node cs Leaf q rc)) as [|cr lr pr rr] eqn:Hpl; [done|].
        destruct l as [|ll lc lp lr']; [done|]. cbn [rb_left rb_right rootp].
        eapply bind_run; [by apply Hr1|]. exact Hr2.
      * revert Hm2. rewrite plug_app, !elems_plug. simpl.
        rewrite (all_left_before _ HD). elems_eq.
Qed.
