(* ===== verification/RbInstance.v ===== *)
(** The node memory of [RbTree] implements the interface of [RbSpec]. *)

From S2P Require Import Prelude RbSpec RbTree RbShape RbInsert RbWalk RbErase.

Implicit Types (m : rb_mem) (t : tree) (C : list frame).

Lemma focus t p : p ∈ elems t -> exists C c l r, t = plug C (Node c l p r).
Proof.
  enough (forall C, p ∈ elems t -> exists C' c l r, plug C t = plug C' (Node c l p r)) as H
    by (intros Hp; destruct (H [] Hp) as (C' & c & l & r & Heq); eauto).
  induction t as [|c l IHl q r IHr]; intros C; simpl; [by intros ?%elem_of_nil|].
  intros [Hp|[->|Hp]%elem_of_cons]%elem_of_app.
  - apply (IHl (Frame SLeft c q r :: C) Hp).
  - by exists C, c, l, r.
  - apply (IHr (Frame SRight c q l :: C) Hp).
Qed.

Lemma nodup_pivot (l1 l2 k1 k2 : list ptr) p :
  NoDup (l1 ++ p :: l2) -> l1 ++ p :: l2 = k1 ++ p :: k2 -> l1 = k1 /\ l2 = k2.
Proof.
  intros Hnd Heq. pose proof Heq as Heq'.
  apply app_eq_inv in Heq' as [(k & Hk & Hk')|(k & Hk & Hk')]; subst;
    (destruct k as [|x k]; simpl in Hk'; [rewrite app_nil_r; by simplify_eq|simplify_eq]);
    exfalso; (try rewrite Heq in Hnd); split_nodup Hnd; set_solver.
Qed.

Lemma focus_at m t l1 p l2 :
  holds m t -> elems t = l1 ++ p :: l2 ->
  exists C c l r, t = plug C (Node c l p r) /\ before C ++ elems l = l1 /\ elems r ++ after C = l2.
Proof.
  intros Hm He. destruct (focus t p) as (C & c & l & r & ->); [rewrite He; set_solver|].
  exists C, c, l, r. split; [done|]. rewrite elems_plug in He. simpl in He.
  pose proof (holds_nodup _ _ Hm) as Hnd. rewrite elems_plug in Hnd. simpl in Hnd.
  rewrite <- (assoc_L (++)), (assoc_L (++) (before C)) in He, Hnd. by eapply nodup_pivot.
Qed.

Lemma inserted_blacken m L : inserted m L -> exists m',
  bind root_get (fun root => bind (not_null root) rb_set_black) m = Some (tt, m') /\ balanced m' L.
Proof.
  intros (t & n & Hm & He & Hn & Ht). destruct t as [|c l p r]; [done|].
  destruct (set_color_holds m [] c RB_BLACK l p r Hm) as (m' & Hr & Hm').
  exists m'. split.
  - eapply bind_run; [apply gets_run|]. rewrite (holds_root _ _ Hm). eapply bind_run; [reflexivity|]. exact Hr.
  - exists (Node RB_BLACK l p r), n. by rewrite <- He.
Qed.

(** [rb_insert] of a new node links it at its place. *)
Lemma insert_new_run m l1 l2 p c :
  balanced m (l1 ++ l2) -> p ∉ l1 ++ l2 -> all_before c l1 -> all_after c l2 ->
  exists m', rb_insert_node p c m = Some (0, m') /\ balanced m' (l1 ++ p :: l2).
Proof.
  intros (t & k & Hm & He & Hk & Hb) Hp H1 H2.
  assert (Hs : splits c (elems t)).
  { exists l1, [], l2. split_and!; [done|done|by intros ? ?%elem_of_nil|done]. }
  destruct (insert_walk_spec c m [] t (fuel_of m) Hm Hs)
    as [(C & Hwalk & Hpl & HB & HA)|(q & Hq & Hcq & _)];
    [by intros ? ?%elem_of_nil|by intros ? ?%elem_of_nil|pose proof (holds_fuel m [] t Hm); simpl in *; lia| |].
  - simpl in Hpl. subst t. rewrite elems_plug in He. simpl in He.
    destruct (splits_unique c (before C) (after C) l1 [] l2) as (_ & <- & <-); try done.
    { by intros ? ?%elem_of_nil. }
    destruct (link_holds m C p Hm) as (m1 & Hr1 & Hm1); [by rewrite elems_plug|].
    destruct (unplug_rb C Leaf k Hk Hb) as (n & -> & HC & _).
    destruct (climbs_all (fuel_of m1) m1 C Leaf p Leaf O Hm1) as (m2 & Hr2 & Hm2); [done|done| |].
    { pose proof (holds_fuel _ _ _ Hm1). lia. }
    destruct (inserted_blacken _ _ Hm2) as (m3 & Hr3 & Hm3).
    exists m3. rewrite elems_plug in Hm3. split; [|done].
    unfold rb_insert_node. eapply bind_run; [apply gets_run|]. eapply bind_run; [exact Hwalk|].
    eapply bind_run; [exact Hr1|]. eapply bind_run; [|reflexivity].
    unfold rb_insert_color. eapply bind_run; [apply gets_run|]. eapply bind_run; [exact Hr2|]. exact Hr3.
  - exfalso. simpl in Hq. rewrite He in Hq.
    apply elem_of_app in Hq as [Hq|Hq]; [destruct (H1 q Hq) as (?&?&?)|destruct (H2 q Hq) as (?&?&?)];
      simplify_eq; lia.
Qed.

(** [rb_insert] of a node that compares equal to another changes nothing. *)
Lemma insert_exist_run m l1 lm l2 p c :
  balanced m (l1 ++ lm ++ l2) -> lm <> [] ->
  all_before c l1 -> all_match c lm -> all_after c l2 ->
  rb_insert_node p c m = Some (- EEXIST, m).
Proof.
  intros (t & k & Hm & He & Hk & Hb) Hne H1 Hlm H2.
  assert (Hs : splits c (elems t)) by by exists l1, lm, l2.
  destruct (insert_walk_spec c m [] t (fuel_of m) Hm Hs)
    as [(C & Hwalk & Hpl & HB & HA)|(q & Hq & Hcq & Hwalk)];
    [by intros ? ?%elem_of_nil|by intros ? ?%elem_of_nil|pose proof (holds_fuel m [] t Hm); simpl in *; lia| |].
  - exfalso. simpl in Hpl. subst t. rewrite elems_plug in He. simpl in He.
    by destruct (splits_unique c (before C) (after C) l1 lm l2) as (? & _ & _).
  - unfold rb_insert_node. eapply bind_run; [apply gets_run|]. by eapply bind_run; [exact Hwalk|].
Qed.

Lemma search_run m l1 lm l2 c :
  balanced m (l1 ++ lm ++ l2) -> all_before c l1 -> all_match c lm -> all_after c l2 ->
  (exists q, q ∈ lm /\ rb_search_node c m = Some ((Some q, None), m)) \/
  (lm = [] /\ rb_search_node c m = Some ((None, head l2), m)).
Proof.
  intros (t & k & Hm & He & Hk & Hb) H1 Hlm H2.
  assert (Hs : splits c (elems t)) by by exists l1, lm, l2.
  pose proof (holds_fuel m [] t Hm) as Hf. simpl in Hf.
  destruct (search_walk_spec c m [] t (fuel_of m) 0 Hm Hs)
    as [(C & q & Hwalk & (Hpl & HB & HA) & Hq)|(q & Hq & Hcq & Hwalk)];
    [by intros ? ?%elem_of_nil|by intros ? ?%elem_of_nil|lia|done| |].
  - right. simpl in Hpl. subst t. rewrite elems_plug in He. simpl in He.
    destruct (splits_unique c (before C) (after C) l1 lm l2) as (-> & <- & <-); [done..|].
    split; [done|]. unfold rb_search_node. eapply bind_run; [apply gets_run|].
    eapply bind_run; [apply gets_run|]. rewrite (holds_root _ _ Hm).
    eapply bind_run; [exact Hwalk|]. destruct C as [|[[] col g s] C]; cbn [parent_of].
    + done.
    + by rewrite (proj2 (Z.ltb_ge _ _)) by lia.
    + rewrite (proj2 (Z.ltb_lt _ _)) by lia.
      eapply bind_run; [by eapply (next_run m C col s g Leaf)|]. done.
  - left. exists q. split.
    + simpl in Hq. rewrite He in Hq. apply elem_of_app in Hq as [Hq|[Hq|Hq]%elem_of_app]; [|done|];
        [destruct (H1 q Hq) as (?&?&?)|destruct (H2 q Hq) as (?&?&?)]; simplify_eq; lia.
    + unfold rb_search_node. eapply bind_run; [apply gets_run|].
      eapply bind_run; [apply gets_run|]. rewrite (holds_root _ _ Hm).
      by eapply bind_run; [exact Hwalk|].
Qed.

Lemma erase_at_run m l1 p l2 :
  balanced m (l1 ++ p :: l2) ->
  exists m', rb_erase_node p m = Some (tt, m') /\ balanced m' (l1 ++ l2).
Proof.
  intros (t & k & Hm & He & Hk & Hb).
  destruct (focus_at m t l1 p l2 Hm He) as (C & c & l & r & -> & <- & <-).
  destruct (erase_run m C c l p r k) as (m' & Hr & Hm'); [done..|].
  exists m'. split; [done|]. revert Hm'. by rewrite <- !(assoc_L (++)).
Qed.

Lemma next_at_run m l1 p l2 : balanced m (l1 ++ p :: l2) -> rb_next_node p m = Some (head l2, m).
Proof.
  intros (t & k & Hm & He & _). destruct (focus_at m t l1 p l2 Hm He) as (C & c & l & r & -> & _ & <-).
  by eapply next_run.
Qed.

Lemma prev_at_run m l1 p l2 : balanced m (l1 ++ p :: l2) -> rb_prev_node p m = Some (last l1, m).
Proof.
  intros (t & k & Hm & He & _). destruct (focus_at m t l1 p l2 Hm He) as (C & c & l & r & -> & <- & _).
  by eapply prev_run.
Qed.

(** ** The instance *)

Definition swap {A B} (x : option (A * B)) : option (B * A) :=
  match x with Some (a, b) => Some (b, a) | None => None end.

#[export] Instance rb_mem_tree : RbTree rb_mem := {
  RB_ROOT := RbMem None ∅;
  rb_insert m p c := swap (rb_insert_node p c m);
  rb_search m c := fst <$> rb_search_node c m;
  rb_erase p m := snd <$> rb_erase_node p m;
  rb_first m := fst <$> rb_first_node m;
  rb_next m p := fst <$> rb_next_node p m;
  rb_prev m p := fst <$> rb_prev_node p m;
}.

Lemma balanced_empty : balanced (RbMem None ∅) [].
Proof. exists Leaf, O. split_and!; try done. split_and!; try done. constructor. Qed.

#[export] Instance rb_mem_laws : RbTreeLaws rb_mem.
Proof.
  refine {| rb_seq := balanced |}.
  - intros m l (t & k & Hm & <- & _). by eapply holds_nodup.
  - apply balanced_empty.
  - intros m l1 l2 p c Hm Hp H1 H2. destruct (insert_new_run m l1 l2 p c Hm Hp H1 H2) as (m' & Hr & Hm').
    exists m'. simpl. by rewrite Hr.
  - intros m l1 lm l2 p c Hm Hne H1 Hlm H2. simpl. by rewrite (insert_exist_run m l1 lm l2 p c).
  - intros m l1 lm l2 c Hm Hne H1 Hlm H2.
    destruct (search_run m l1 lm l2 c Hm H1 Hlm H2) as [(q & Hq & Hr)|[-> _]]; [|done].
    exists q, None. simpl. by rewrite Hr.
  - intros m l1 l2 c Hm H1 H2.
    destruct (search_run m l1 [] l2 c Hm H1) as [(q & Hq & Hr)|[_ Hr]];
      [by intros ? ?%elem_of_nil|done|by apply elem_of_nil in Hq|]. simpl. by rewrite Hr.
  - intros m l1 p l2 Hm. destruct (erase_at_run m l1 p l2 Hm) as (m' & Hr & Hm').
    exists m'. simpl. by rewrite Hr.
  - intros m l (t & k & Hm & <- & _). simpl. by rewrite (first_run m t).
  - intros m l1 p l2 Hm. simpl. by rewrite (next_at_run m l1 p l2).
  - intros m l1 p l2 Hm. simpl. by rewrite (prev_at_run m l1 p l2).
Defined.

(** ** The height *)

Fixpoint height (t : tree) : nat :=
  match t with Leaf => O | Node _ l _ r => S (Nat.max (height l) (height r)) end.

Lemma is_rb_size t n : is_rb t n -> (2 ^ n <= length (elems t) + 1)%nat.
Proof.
  revert n. induction t as [|[] l IHl p r IHr]; intros n; simpl; [by intros ->| |].
  - intros (Hl & Hr & _). rewrite length_app. simpl. specialize (IHl _ Hl). lia.
  - intros (k & -> & Hl & Hr). rewrite length_app. simpl. specialize (IHl _ Hl). specialize (IHr _ Hr). lia.
Qed.

Lemma is_rb_height t n : is_rb t n -> (height t <= 2 * n + if tblack t then 0 else 1)%nat.
Proof.
  revert n. induction t as [|[] l IHl p r IHr]; intros n; simpl; [lia| |].
  - intros (Hl & Hr & Hlb & Hrb). specialize (IHl _ Hl). specialize (IHr _ Hr).
    rewrite Hlb in IHl. rewrite Hrb in IHr. lia.
  - intros (k & -> & Hl & Hr). specialize (IHl _ Hl). specialize (IHr _ Hr).
    destruct (tblack l), (tblack r); lia.
Qed.

(** ** [rb_replace_node] and [rb_free_nodes] *)

Lemma is_rb_replace C c l p q r k : is_rb (plug C (Node c l p r)) k -> is_rb (plug C (Node c l q r)) k.
Proof.
  enough (forall t t', (forall k, is_rb t k -> is_rb t' k) -> tblack t = tblack t' ->
    forall k, is_rb (plug C t) k -> is_rb (plug C t') k) as H by (apply H; by destruct c).
  induction C as [|[e c' g s] C IH]; intros t t' Ht Hb; simpl; [done|].
  apply IH; [|by destruct e, c']. intros k'. destruct e, c'; simpl; rewrite <- ?Hb; naive_solver.
Qed.

Lemma tblack_replace C c l p q r :
  tblack (plug C (Node c l p r)) = tblack (plug C (Node c l q r)).
Proof.
  enough (forall t t', tblack t = tblack t' -> tblack (plug C t) = tblack (plug C t')) as H by by apply H.
  induction C as [|[e c' g s] C IH]; intros t t' Hb; simpl; [done|]. apply IH. by destruct e.
Qed.

Lemma replace_at_run m l1 p l2 q :
  balanced m (l1 ++ p :: l2) -> q ∉ l1 ++ p :: l2 ->
  exists m', rb_replace_node p q m = Some (tt, m') /\ balanced m' (l1 ++ q :: l2).
Proof.
  intros (t & k & Hm & He & Hk & Hb) Hq.
  destruct (focus_at m t l1 p l2 Hm He) as (C & c & l & r & -> & <- & <-).
  destruct (replace_holds m C c l p r q Hm) as (m' & Hr & Hm'); [by rewrite He|].
  exists m'. split; [done|]. exists (plug C (Node c l q r)), k. split_and!; [done| | |].
  - rewrite elems_plug. simpl. by rewrite <- !(assoc_L (++)).
  - by eapply is_rb_replace.
  - by rewrite <- (tblack_replace C c l p q r).
Qed.

Lemma free_nodes_run m L fuel :
  balanced m L -> (length L < fuel)%nat ->
  exists m', rb_free_nodes fuel m = Some (L, m') /\ balanced m' [].
Proof.
  revert m L. induction fuel as [|fuel IH]; intros m L Hm Hf; [lia|].
  assert (Hfirst : rb_first_node m = Some (head L, m)).
  { destruct Hm as (t & k & Hm & <- & _). by apply first_run. }
  destruct L as [|p L].
  - exists m. split; [|done]. simpl. by eapply bind_run; [exact Hfirst|].
  - destruct (erase_at_run m [] p L Hm) as (m1 & Hr1 & Hm1). simpl in Hf, Hm1.
    destruct (IH m1 L Hm1) as (m2 & Hr2 & Hm2); [lia|].
    exists m2. split; [|done]. simpl. eapply bind_run; [exact Hfirst|]. simpl.
    eapply bind_run; [exact Hr1|]. by eapply bind_run; [exact Hr2|].
Qed.
