(* ===== verification/RbProps.v ===== *)
(** What [rbtree.c] guarantees, on the node memory itself: the order, the
    red-black invariant and the height, with a concrete three-node tree. *)

From S2P Require Import Prelude RbSpec RbTree RbShape RbInsert RbWalk RbErase RbInstance.

Implicit Types (m : rb_mem).

(** A tree of the nodes 10, 20 and 30, its root black. *)
Definition three_nodes : rb_mem :=
  RbMem (Some 20%positive)
    (<[10%positive := RbNode (Some 20%positive) RB_RED None None]>
    (<[20%positive := RbNode None RB_BLACK (Some 30%positive) (Some 10%positive)]>
    (<[30%positive := RbNode (Some 20%positive) RB_RED None None]> ∅))).

Lemma three_nodes_balanced : balanced three_nodes [10; 20; 30]%positive.
Proof.
  exists (Node RB_BLACK (Node RB_RED Leaf 10%positive Leaf) 20%positive (Node RB_RED Leaf 30%positive Leaf)), 1%nat.
  split_and!; [|done| |done].
  - split_and!; [by repeat split|done|]. simpl. apply (bool_decide_unpack _). by vm_compute.
  - by exists O.
Qed.

(** The comparison of a node's address with a key. *)
Definition by_address (key : Z) : cmp_key := fun p => Some (key - Zpos p).

(** C34: [rb_insert] of a node outside a red-black tree, with a comparison that
    puts it between two parts of the sequence or finds nodes equal to it: a new
    node is linked at its place and the tree is a red-black tree again (no red
    node with a red child, all paths with the same number of black nodes,
    consistent parent pointers); otherwise the memory is left untouched and the
    result is [-EEXIST]. *)
Theorem rb_insert_correct m l1 lm l2 p c
  (Hm : balanced m (l1 ++ lm ++ l2)) (Hp : p ∉ l1 ++ lm ++ l2)
  (H1 : all_before c l1) (Heq : all_match c lm) (H2 : all_after c l2) :
  exists r m', rb_insert_node p c m = Some (r, m') /\
    match lm with
    | [] => r = 0 /\ balanced m' (l1 ++ p :: l2)
    | _ => r = - EEXIST /\ m' = m
    end.
Proof.
  destruct lm as [|q lm].
  - destruct (insert_new_run m l1 l2 p c) as (m' & Hr & Hm'); [done..|]. eauto.
  - exists (- EEXIST), m. split; [|done]. by apply (insert_exist_run m l1 (q :: lm) l2 p c).
Qed.

Lemma rb_insert_correct_witness :
  exists r m', rb_insert_node 25%positive (by_address 25) three_nodes = Some (r, m') /\
    r = 0 /\ balanced m' [10; 20; 25; 30]%positive.
Proof.
  apply (rb_insert_correct three_nodes [10; 20]%positive [] [30]%positive 25%positive (by_address 25)).
  - apply three_nodes_balanced.
  - apply (bool_decide_unpack _). by vm_compute.
  - intros x Hx. exists (25 - Zpos x). split; [done|]. repeat (apply elem_of_cons in Hx as [->|Hx]; [done|]).
    by apply elem_of_nil in Hx.
  - intros x Hx. by apply elem_of_nil in Hx.
  - intros x Hx. exists (25 - Zpos x). split; [done|]. repeat (apply elem_of_cons in Hx as [->|Hx]; [done|]).
    by apply elem_of_nil in Hx.
Defined.

(** C24: [rb_erase] takes exactly the node out, wherever it is in the tree, and
    leaves a red-black tree of the other nodes in the same order. *)
Theorem rb_erase_correct m l1 p l2 (Hm : balanced m (l1 ++ p :: l2)) :
  exists m', rb_erase_node p m = Some (tt, m') /\ balanced m' (l1 ++ l2).
Proof. by apply erase_at_run. Qed.

Lemma rb_erase_correct_witness :
  exists m', rb_erase_node 20%positive three_nodes = Some (tt, m') /\ balanced m' [10; 30]%positive.
Proof.
  apply (rb_erase_correct three_nodes [10]%positive 20%positive [30]%positive three_nodes_balanced).
Defined.

(** [rb_search] with a non-null [next_ret]: a node that matches the key when
    there is one, otherwise none and the first node after the key. *)
Theorem rb_search_correct m l1 lm l2 c
  (Hm : balanced m (l1 ++ lm ++ l2))
  (H1 : all_before c l1) (Heq : all_match c lm) (H2 : all_after c l2) :
  exists node next, rb_search_node c m = Some ((node, next), m) /\
    match lm with
    | [] => node = None /\ next = head l2
    | _ => exists q, node = Some q /\ q ∈ lm
    end.
Proof.
  destruct (search_run m l1 lm l2 c Hm H1 Heq H2) as [(q & Hq & Hr)|[-> Hr]].
  - exists (Some q), None. split; [done|]. destruct lm; [by apply elem_of_nil in Hq|]. eauto.
  - eauto 6.
Qed.

Lemma rb_search_correct_witness :
  exists node next, rb_search_node (by_address 25) three_nodes = Some ((node, next), three_nodes) /\
    node = None /\ next = Some 30%positive.
Proof.
  apply (rb_search_correct three_nodes [10; 20]%positive [] [30]%positive (by_address 25)).
  - apply three_nodes_balanced.
  - intros x Hx. exists (25 - Zpos x). split; [done|]. repeat (apply elem_of_cons in Hx as [->|Hx]; [done|]).
    by apply elem_of_nil in Hx.
  - intros x Hx. by apply elem_of_nil in Hx.
  - intros x Hx. exists (25 - Zpos x). split; [done|]. repeat (apply elem_of_cons in Hx as [->|Hx]; [done|]).
    by apply elem_of_nil in Hx.
Defined.

(** The height of the tree, which bounds the steps of every walk, is at most
    twice the logarithm of the number of nodes plus one. *)
Theorem rb_height_bound m L (Hm : balanced m L) :
  exists t, holds m t /\ elems t = L /\ Z.of_nat (height t) <= 2 * Z.log2 (Z.of_nat (length L) + 1).
Proof.
  destruct Hm as (t & n & Ht & <- & Hn & Hb). exists t. split_and!; [done..|].
  pose proof (is_rb_size _ _ Hn) as Hs. pose proof (is_rb_height _ _ Hn) as Hh. rewrite Hb in Hh.
  assert (Z.of_nat n <= Z.log2 (Z.of_nat (length (elems t)) + 1)); [|lia].
  apply Z.log2_le_pow2; [lia|]. rewrite <- (Nat2Z.inj_pow 2). lia.
Qed.

Lemma rb_height_bound_witness :
  exists t, holds three_nodes t /\ elems t = [10; 20; 30]%positive /\ Z.of_nat (height t) <= 4.
Proof. apply (rb_height_bound three_nodes [10; 20; 30]%positive three_nodes_balanced). Defined.

(** [rb_next] and [rb_prev] step along the order, [rb_first] and [rb_last] give
    its ends, and none of them writes to the tree. *)
Theorem rb_order_walk m l1 p l2 (Hm : balanced m (l1 ++ p :: l2)) :
  rb_next_node p m = Some (head l2, m) /\ rb_prev_node p m = Some (last l1, m) /\
  rb_first_node m = Some (head (l1 ++ [p]), m) /\ rb_last_node m = Some (last (p :: l2), m).
Proof.
  split_and!; [by eapply next_at_run|by eapply prev_at_run| |];
    destruct Hm as (t & k & Ht & He & _).
  - rewrite (first_run m t Ht), He. by destruct l1.
  - rewrite (last_run m t Ht), He, last_app. by rewrite last_cons; destruct (last l2).
Qed.

Lemma rb_order_walk_witness :
  rb_next_node 20%positive three_nodes = Some (Some 30%positive, three_nodes) /\
  rb_prev_node 20%positive three_nodes = Some (Some 10%positive, three_nodes) /\
  rb_first_node three_nodes = Some (Some 10%positive, three_nodes) /\
  rb_last_node three_nodes = Some (Some 30%positive, three_nodes).
Proof. apply (rb_order_walk three_nodes [10]%positive 20%positive [30]%positive three_nodes_balanced). Defined.

(** [rb_replace_node] puts the new node in the victim's place, and
    [rb_free_nodes] hands every node to its callback once, in order, and
    empties the tree. *)
Theorem rb_replace_then_free m l1 p l2 q fuel
  (Hm : balanced m (l1 ++ p :: l2)) (Hq : q ∉ l1 ++ p :: l2) (Hf : (length l1 + length l2 + 1 < fuel)%nat) :
  exists m1 m2, rb_replace_node p q m = Some (tt, m1) /\ balanced m1 (l1 ++ q :: l2) /\
    rb_free_nodes fuel m1 = Some (l1 ++ q :: l2, m2) /\ balanced m2 [].
Proof.
  destruct (replace_at_run m l1 p l2 q Hm Hq) as (m1 & Hr1 & Hm1).
  destruct (free_nodes_run m1 (l1 ++ q :: l2) fuel Hm1) as (m2 & Hr2 & Hm2).
  - rewrite length_app. simpl. lia.
  - eauto 8.
Qed.

Lemma rb_replace_then_free_witness :
  exists m1 m2, rb_replace_node 20%positive 21%positive three_nodes = Some (tt, m1) /\
    balanced m1 [10; 21; 30]%positive /\
    rb_free_nodes 5 m1 = Some ([10; 21; 30]%positive, m2) /\ balanced m2 [].
Proof.
  apply (rb_replace_then_free three_nodes [10]%positive 20%positive [30]%positive 21%positive 5).
  - apply three_nodes_balanced.
  - apply (bool_decide_unpack _). by vm_compute.
  - simpl. lia.
Defined.

(** ** The packed word

    [rb_parent_color] holds the parent's address and the colour in its low
    bits.  On addresses that are multiples of four the accessors of [rbtree.h]
    act as those of the record. *)

Definition pc_parent (w : Z) : Z := Z.land w (Z.lnot 3).
Definition pc_color (w : Z) : Z := Z.land w 1.
Definition pc_set_red (w : Z) : Z := Z.land w (Z.lnot 1).
Definition pc_set_black (w : Z) : Z := Z.lor w 1.
Definition pc_set_parent (w p : Z) : Z := Z.lor (Z.land w 3) p.
Definition pc_set_color (w color : Z) : Z := Z.lor (Z.land w (Z.lnot 1)) color.

Definition colour_bit (c : rb_colour) : Z := match c with RB_RED => 0 | RB_BLACK => 1 end.

(** The word of a parent address and a colour. *)
Definition packed (p : Z) (c : rb_colour) : Z := Z.lor p (colour_bit c).

Lemma aligned_shift p : Z.land p 3 = 0 -> exists q, p = Z.shiftl q 2.
Proof.
  intros Hp. exists (Z.shiftr p 2). apply Z.bits_inj'. intros n Hn.
  rewrite Z.shiftl_spec by done. destruct (Z.ltb_spec n 2).
  - rewrite (Z.testbit_neg_r (Z.shiftr p 2)) by lia.
    apply (f_equal (fun z => Z.testbit z n)) in Hp. rewrite Z.land_spec, Z.bits_0 in Hp.
    assert (n = 0 \/ n = 1) as [-> | ->] by lia; by destruct (Z.testbit p _).
  - rewrite Z.shiftr_spec by lia. f_equal. lia.
Qed.

(** Masks and colours of aligned addresses, bit by bit. *)
Ltac packed_bits :=
  apply Z.bits_inj'; intros n Hn;
  repeat first [ rewrite Z.land_spec | rewrite Z.lor_spec | rewrite Z.lnot_spec by done
               | rewrite Z.shiftl_spec by done ];
  destruct (Z.eq_dec n 0) as [->|]; [done || by rewrite ?(Z.testbit_neg_r _ (0 - 2))|];
  destruct (Z.eq_dec n 1) as [->|]; [done || by rewrite ?(Z.testbit_neg_r _ (1 - 2))|];
  rewrite ?(Z.bits_above_log2 3 n), ?(Z.bits_above_log2 1 n) by (simpl; lia);
  simpl; rewrite ?Z.bits_0, ?andb_true_r, ?andb_false_r, ?orb_false_r; done.

(** The accessors of the packed word implement those of the record: reading
    gives back the parent and the colour, and each setter changes its part. *)
Theorem packed_word_refines (p q : Z) (c d : rb_colour) (Hp : Z.land p 3 = 0) (Hq : Z.land q 3 = 0) :
  pc_parent (packed p c) = p /\ pc_color (packed p c) = colour_bit c /\
  pc_set_red (packed p c) = packed p RB_RED /\ pc_set_black (packed p c) = packed p RB_BLACK /\
  pc_set_parent (packed p c) q = packed q c /\
  pc_set_color (packed p c) (colour_bit d) = packed p d.
Proof.
  apply aligned_shift in Hp as [a ->], Hq as [b ->].
  unfold pc_parent, pc_color, pc_set_red, pc_set_black, pc_set_parent, pc_set_color, packed.
  split_and!; [destruct c..|destruct c, d]; simpl colour_bit; packed_bits.
Qed.

Lemma packed_word_refines_witness :
  pc_parent (packed 4096 RB_BLACK) = 4096 /\ pc_color (packed 4096 RB_BLACK) = 1 /\
  pc_set_red (packed 4096 RB_BLACK) = packed 4096 RB_RED /\
  pc_set_black (packed 4096 RB_BLACK) = packed 4096 RB_BLACK /\
  pc_set_parent (packed 4096 RB_BLACK) 8192 = packed 8192 RB_BLACK /\
  pc_set_color (packed 4096 RB_BLACK) 0 = packed 4096 RB_RED.
Proof. apply (packed_word_refines 4096 8192 RB_BLACK RB_RED); reflexivity. Defined.
