(* ===== verification/ExtentCache.v ===== *)
(** The extent caches of [src/extent-cache.c]: ranges kept in a red-black tree. *)

From S2P Require Import Prelude RbSpec.

(** [struct cache_extent], less its embedded [rb_node]. *)
Record cache_extent := CacheExtent {
  ce_objectid : Z;
  ce_start : Z;
  ce_size : Z;
}.

Record cache_extent_search_range := SearchRange {
  sr_objectid : Z;
  sr_start : Z;
  sr_size : Z;
}.

Definition cache_tree_comp_range (entry : cache_extent) (range : cache_extent_search_range) : Z :=
  if u64 (ce_start entry + ce_size entry) <=? sr_start range then 1
  else if u64 (sr_start range + sr_size range) <=? ce_start entry then -1
  else 0.

Definition cache_tree_comp_nodes (node1 node2 : cache_extent) : Z :=
  cache_tree_comp_range node1
    {| sr_objectid := 0; sr_start := ce_start node2; sr_size := ce_size node2 |}.

Definition cache_tree_comp_range2 (entry : cache_extent) (range : cache_extent_search_range) : Z :=
  if ce_objectid entry <? sr_objectid range then 1
  else if sr_objectid range <? ce_objectid entry then -1
  else if u64 (ce_start entry + ce_size entry) <=? sr_start range then 1
  else if u64 (sr_start range + sr_size range) <=? ce_start entry then -1
  else 0.

Definition cache_tree_comp_nodes2 (node1 node2 : cache_extent) : Z :=
  cache_tree_comp_range2 node1
    {| sr_objectid := ce_objectid node2; sr_start := ce_start node2; sr_size := ce_size node2 |}.

(** The entry a tree node is embedded in ([rb_entry] and [container_of]). *)
Definition entries : Type := ptr -> option cache_extent.

Section Cache.
Context {T : Type} `{RbTree T}.
Implicit Types (tree : T) (ce : entries).

Definition cache_tree_init : T := RB_ROOT.

(** [rb_insert] compares each node of the path with the new node. *)
Definition insert_cache_extent tree ce (pe : ptr) : option (T * Z) :=
  match ce pe with
  | None => None
  | Some e => rb_insert tree pe (fun p => n ← ce p; Some (cache_tree_comp_nodes n e))
  end.

Definition insert_cache_extent2 tree ce (pe : ptr) : option (T * Z) :=
  match ce pe with
  | None => None
  | Some e => rb_insert tree pe (fun p => n ← ce p; Some (cache_tree_comp_nodes2 n e))
  end.

Definition lookup_cache_extent tree ce (start size : Z) : option (option ptr) :=
  let range := {| sr_objectid := 0; sr_start := start; sr_size := size |} in
  '(node, _) ← rb_search tree (fun p => n ← ce p; Some (cache_tree_comp_range n range));
  Some node.

Definition lookup_cache_extent2 tree ce (objectid start size : Z) : option (option ptr) :=
  let range := {| sr_objectid := objectid; sr_start := start; sr_size := size |} in
  '(node, _) ← rb_search tree (fun p => n ← ce p; Some (cache_tree_comp_range2 n range));
  Some node.

Definition search_cache_extent tree ce (start : Z) : option (option ptr) :=
  let range := {| sr_objectid := 0; sr_start := start; sr_size := 1 |} in
  '(node, next) ← rb_search tree (fun p => n ← ce p; Some (cache_tree_comp_range n range));
  Some (match node with Some n => Some n | None => next end).

Definition search_cache_extent2 tree ce (objectid start : Z) : option (option ptr) :=
  let range := {| sr_objectid := objectid; sr_start := start; sr_size := 1 |} in
  '(node, next) ← rb_search tree (fun p => n ← ce p; Some (cache_tree_comp_range2 n range));
  Some (match node with Some n => Some n | None => next end).

Definition first_cache_extent tree : option (option ptr) := rb_first tree.
Definition prev_cache_extent tree (pe : ptr) : option (option ptr) := rb_prev tree pe.
Definition next_cache_extent tree (pe : ptr) : option (option ptr) := rb_next tree pe.
Definition remove_cache_extent tree (pe : ptr) : option T := rb_erase pe tree.
End Cache.

(** ** The ranges of a cache *)

Definition ce_end (e : cache_extent) : Z := ce_start e + ce_size e.

(** The ranges are in order, disjoint, not empty, start at or after [lo] and
    end below 2^64. *)
Fixpoint ranges_ok (lo : Z) (l : list cache_extent) : Prop :=
  match l with
  | [] => True
  | e :: l' => lo <= ce_start e /\ 0 < ce_size e /\ ce_end e < 2 ^ 64 /\ ranges_ok (ce_end e) l'
  end.

(** The end of the last range, [lo] for none. *)
Fixpoint ranges_end (lo : Z) (l : list cache_extent) : Z :=
  match l with [] => lo | e :: l' => ranges_end (ce_end e) l' end.

Lemma ranges_ok_app lo l1 l2 :
  ranges_ok lo (l1 ++ l2) <-> ranges_ok lo l1 /\ ranges_ok (ranges_end lo l1) l2.
Proof. revert lo. induction l1 as [|e l1 IH]; intros lo; simpl; [tauto|]. rewrite IH. tauto. Qed.

Lemma ranges_ok_weaken lo lo' l : lo' <= lo -> ranges_ok lo l -> ranges_ok lo' l.
Proof. destruct l; simpl; intuition lia. Qed.

Lemma ranges_end_ge lo l : ranges_ok lo l -> lo <= ranges_end lo l.
Proof.
  revert lo. induction l as [|e l IH]; intros lo; simpl; [lia|].
  intros (? & ? & ? & Hl). specialize (IH _ Hl). unfold ce_end in *. lia.
Qed.

Lemma ranges_end_lt lo l : lo < 2 ^ 64 -> ranges_ok lo l -> ranges_end lo l < 2 ^ 64.
Proof. revert lo. induction l as [|e l IH]; intros lo; simpl; [lia|]. intros ? (?&?&?&?). auto. Qed.

Lemma ranges_ok_elem lo l e :
  ranges_ok lo l -> e ∈ l ->
  lo <= ce_start e /\ 0 < ce_size e /\ ce_end e < 2 ^ 64 /\ ce_end e <= ranges_end lo l.
Proof.
  revert lo. induction l as [|e' l IH]; intros lo; simpl; [by intros ? ?%elem_of_nil|].
  intros (? & ? & ? & Hl) [->|He]%elem_of_cons.
  - apply ranges_end_ge in Hl. unfold ce_end in *. lia.
  - destruct (IH _ Hl He) as (?&?&?&?). unfold ce_end in *. lia.
Qed.

(** The entry a comparison sees is the one the list of ranges holds. *)
Definition views (ce : entries) (ps : list ptr) (es : list cache_extent) : Prop :=
  Forall2 (fun p e => ce p = Some e) ps es.

Lemma views_elem ce ps es p :
  views ce ps es -> p ∈ ps -> exists e, ce p = Some e /\ e ∈ es.
Proof.
  intros Hv Hp. apply list_elem_of_lookup in Hp as [i Hi].
  destruct (Forall2_lookup_l _ _ _ _ _ Hv Hi) as (e & He & Hce).
  exists e. split; [done|]. by apply list_elem_of_lookup_2 in He.
Qed.

Definition range_cmp ce range : cmp_key :=
  fun p => n ← ce p; Some (cache_tree_comp_range n range).

Section Compare.
Context (ce : entries) (range : cache_extent_search_range).
Hypothesis Hrange : 0 <= sr_start range /\ 0 < sr_size range /\ sr_start range + sr_size range < 2 ^ 64.

Lemma range_before ps es lo :
  views ce ps es -> 0 <= lo -> ranges_ok lo es -> ranges_end lo es <= sr_start range ->
  all_before (range_cmp ce range) ps.
Proof.
  intros Hv Hlo Hok Hend p Hp. destruct (views_elem _ _ _ _ Hv Hp) as (e & Hce & He).
  destruct (ranges_ok_elem _ _ _ Hok He) as (?&?&?&?).
  unfold range_cmp. rewrite Hce. simpl. eexists. split; [reflexivity|].
  unfold cache_tree_comp_range, ce_end in *. rewrite u64_id by lia. zcase; lia.
Qed.

Lemma range_after ps es lo :
  views ce ps es -> 0 <= lo -> ranges_ok lo es -> sr_start range + sr_size range <= lo ->
  all_after (range_cmp ce range) ps.
Proof.
  intros Hv Hlo Hok Hend p Hp. destruct (views_elem _ _ _ _ Hv Hp) as (e & Hce & He).
  destruct (ranges_ok_elem _ _ _ Hok He) as (?&?&?&?).
  unfold range_cmp. rewrite Hce. simpl. eexists. split; [reflexivity|].
  unfold cache_tree_comp_range, ce_end in *. rewrite !u64_id by lia. zcase; lia.
Qed.

Lemma range_match ps es :
  views ce ps es ->
  (forall e, e ∈ es -> 0 <= ce_start e /\ ce_end e < 2 ^ 64 /\ sr_start range < ce_end e /\
     ce_start e < sr_start range + sr_size range /\ 0 < ce_size e) ->
  all_match (range_cmp ce range) ps.
Proof.
  intros Hv Hin p Hp. destruct (views_elem _ _ _ _ Hv Hp) as (e & Hce & He).
  destruct (Hin _ He) as (?&?&?&?&?).
  unfold range_cmp. rewrite Hce. simpl. f_equal.
  unfold cache_tree_comp_range, ce_end in *. rewrite !u64_id by lia. zcase; lia.
Qed.
End Compare.

(** Every sorted sequence of ranges splits at a search range into the entries
    before it, those that overlap it and those after it. *)
Lemma ranges_split lo es s z :
  ranges_ok lo es -> 0 < z ->
  exists A M C, es = A ++ M ++ C /\ ranges_end lo A <= Z.max lo s /\
    (forall e, e ∈ A -> ce_end e <= s) /\
    (forall e, e ∈ M -> s < ce_end e /\ ce_start e < s + z) /\
    (forall e, e ∈ C -> s + z <= ce_start e).
Proof.
  assert (Hnil : forall P : cache_extent -> Prop, forall e, e ∈ [] -> P e)
    by (intros ? ? ?%elem_of_nil; done).
  revert lo. induction es as [|e es IH]; intros lo Hok Hz.
  { exists [], [], []. simpl. split_and!; [done|lia|by apply Hnil..]. }
  destruct Hok as (H1 & H2 & H3 & Hok).
  destruct (Z.le_gt_cases (s + z) (ce_start e)) as [Ha|Ha].
  { exists [], [], (e :: es). simpl. split_and!; [done|lia|by apply Hnil..|].
    intros e' [->|He']%elem_of_cons; [done|].
    destruct (ranges_ok_elem _ _ _ Hok He') as (?&?&?&?). unfold ce_end in *. lia. }
  destruct (IH _ Hok Hz) as (A & M & C & -> & HA & HA' & HM & HC).
  destruct (Z.le_gt_cases (ce_end e) s) as [Hb|Hb].
  - exists (e :: A), M, C. simpl. split_and!; [done|lia| |done|done].
    intros e' [->|He']%elem_of_cons; auto.
  - assert (A = []) as ->.
    { destruct A as [|a A]; [done|]. specialize (HA' a (list_elem_of_here _ _)).
      simpl in Hok. unfold ce_end in *. lia. }
    exists [], (e :: M), C. simpl. split_and!; [done|lia|by apply Hnil| |done].
    intros e' [->|He']%elem_of_cons; auto.
Qed.

Section Spec.
Context {T : Type} `{RbTreeLaws T}.
Implicit Types (tree : T) (ce : entries).

(** [tree] holds the ranges [es], embedded in the nodes [ps], in order. *)
Record cache_seq tree ce (ps : list ptr) (es : list cache_extent) : Prop := {
  cs_seq : rb_seq tree ps;
  cs_views : views ce ps es;
  cs_ranges : ranges_ok 0 es;
}.

(** What [search_cache_extent] finds, stated for a sequence already split at
    the key: the first range that ends after [start]. *)
Lemma search_cache_extent_split tree ce p1 p2 e1 e2 start :
  cache_seq tree ce (p1 ++ p2) (e1 ++ e2) -> length p1 = length e1 ->
  0 <= start < 2 ^ 64 - 1 ->
  ranges_end 0 e1 <= start ->
  match e2 with [] => True | e :: _ => start < ce_end e end ->
  search_cache_extent tree ce start = Some (head p2).
Proof.
  intros [Hseq Hv Hok] Hlen Hs H1 H2.
  apply ranges_ok_app in Hok as [Hok1 Hok2].
  apply Forall2_app_inv in Hv as [Hv1 Hv2]; [|done].
  set (range := {| sr_objectid := 0; sr_start := start; sr_size := 1 |}).
  assert (Hr : 0 <= sr_start range /\ 0 < sr_size range /\
               sr_start range + sr_size range < 2 ^ 64) by (simpl; lia).
  assert (Hb : all_before (range_cmp ce range) p1) by (apply (range_before ce range p1 e1 0); [done|lia|done|simpl; lia]).
  unfold search_cache_extent. fold range.
  pose proof (ranges_end_ge _ _ Hok1) as Hge.
  destruct p2 as [|p p2], e2 as [|e e2]; try by inversion Hv2.
  { rewrite (rb_search_next tree p1 [] (range_cmp ce range)); [done..|].
    intros x Hx. by apply elem_of_nil in Hx. }
  apply Forall2_cons in Hv2 as [Hp Hv2]. destruct Hok2 as (Ha & Hb' & Hc & Hok2). simpl in H2.
  destruct (Z.le_gt_cases (start + 1) (ce_start e)).
  - rewrite (rb_search_next tree p1 (p :: p2) (range_cmp ce range)); [done..|].
    eapply (range_after ce range Hr (p :: p2) (e :: e2) (start + 1)); simpl; [|lia| |lia].
    + by constructor.
    + split_and!; [lia..|done].
  - destruct (rb_search_found tree p1 [p] p2 (range_cmp ce range)) as (x & n & Hx & Hin);
      [done|done|done| | |].
    + eapply (range_match ce range Hr [p] [e]); [by repeat constructor|].
      intros e' ->%list_elem_of_singleton. simpl. lia.
    + eapply (range_after ce range Hr _ _ (ce_end e)); [done| |done|]; simpl; unfold ce_end in *; lia.
    + apply list_elem_of_singleton in Hin as ->. unfold range_cmp in Hx. by rewrite Hx.
Qed.

(** [insert_cache_extent] puts the range at its place when it overlaps nothing. *)
Lemma insert_cache_extent_split tree ce p1 p2 e1 e2 p e :
  rb_seq tree (p1 ++ p2) -> views ce p1 e1 -> views ce p2 e2 -> p ∉ p1 ++ p2 ->
  ce p = Some e -> ranges_ok 0 (e1 ++ e :: e2) ->
  exists tree', insert_cache_extent tree ce p = Some (tree', 0) /\
    rb_seq tree' (p1 ++ p :: p2).
Proof.
  intros Hseq Hv1 Hv2 Hp Hce [Hok1 Hok2]%ranges_ok_app.
  destruct Hok2 as (Ha & Hb & Hc & Hok2). pose proof (ranges_end_ge _ _ Hok1).
  unfold insert_cache_extent. rewrite Hce.
  set (range := {| sr_objectid := 0; sr_start := ce_start e; sr_size := ce_size e |}).
  assert (Hr : 0 <= sr_start range /\ 0 < sr_size range /\
               sr_start range + sr_size range < 2 ^ 64) by (unfold ce_end in *; simpl; lia).
  apply (rb_insert_new tree p1 p2 p (range_cmp ce range) Hseq Hp).
  - apply (range_before ce range p1 e1 0); [done|lia|done|simpl; lia].
  - apply (range_after ce range Hr p2 e2 (ce_end e)); [done| |done|]; simpl; unfold ce_end in *; lia.
Qed.

(** ... and refuses it when it overlaps a range of the tree. *)
Lemma insert_cache_extent_overlap tree ce ps es p e :
  cache_seq tree ce ps es -> ce p = Some e ->
  0 <= ce_start e -> 0 < ce_size e -> ce_end e < 2 ^ 64 ->
  (exists e', e' ∈ es /\ ce_start e < ce_end e' /\ ce_start e' < ce_end e) ->
  insert_cache_extent tree ce p = Some (tree, - EEXIST).
Proof.
  intros [Hseq Hv Hok] Hce H1 H2 H3 (e' & He' & Ho1 & Ho2).
  destruct (ranges_split _ _ (ce_start e) (ce_size e) Hok H2)
    as (A & M & C & -> & HAe & HA & HM & HC).
  apply Forall2_app_inv_r in Hv as (pA & pr & HvA & Hv & ->).
  apply Forall2_app_inv_r in Hv as (pM & pC & HvM & HvC & ->).
  apply ranges_ok_app in Hok as [HokA Hok]. apply ranges_ok_app in Hok as [HokM HokC].
  unfold insert_cache_extent. rewrite Hce.
  set (range := {| sr_objectid := 0; sr_start := ce_start e; sr_size := ce_size e |}).
  assert (Hr : 0 <= sr_start range /\ 0 < sr_size range /\
               sr_start range + sr_size range < 2 ^ 64) by (unfold ce_end in *; simpl; lia).
  pose proof (ranges_end_ge _ _ HokA). pose proof (ranges_end_ge _ _ HokM).
  apply (rb_insert_exist tree pA pM pC p (range_cmp ce range) Hseq).
  - destruct M as [|m M]; [|by inversion HvM].
    apply elem_of_app in He' as [He|He].
    + specialize (HA _ He). lia.
    + specialize (HC _ He). unfold ce_end in *. lia.
  - apply (range_before ce range pA A 0); [done|lia|done|simpl; lia].
  - eapply (range_match ce range Hr); [done|]. intros m Hm.
    destruct (ranges_ok_elem _ _ _ HokM Hm) as (?&?&?&?).
    destruct (HM _ Hm) as [??]. simpl. lia.
  - destruct C as [|c C].
    { inversion HvC. intros x Hx. by apply elem_of_nil in Hx. }
    eapply (range_after ce range Hr pC (c :: C) (ce_start c)); try done;
      specialize (HC c (list_elem_of_here _ _)); simpl in *.
    + unfold ce_end in *. lia.
    + intuition lia.
    + lia.
Qed.

(** [lookup_cache_extent] returns an entry that overlaps the range exactly
    when the cache holds one. *)
Lemma lookup_cache_extent_spec tree ce ps es start size :
  cache_seq tree ce ps es -> 0 <= start -> 0 < size -> start + size < 2 ^ 64 ->
  exists r, lookup_cache_extent tree ce start size = Some r /\
    match r with
    | Some p => exists e, p ∈ ps /\ ce p = Some e /\ start < ce_end e /\ ce_start e < start + size
    | None => forall e, e ∈ es -> ce_end e <= start \/ start + size <= ce_start e
    end.
Proof.
  intros [Hseq Hv Hok] H1 H2 H3.
  destruct (ranges_split _ _ start size Hok H2) as (A & M & C & -> & HAe & HA & HM & HC).
  apply Forall2_app_inv_r in Hv as (pA & pr & HvA & Hv & ->).
  apply Forall2_app_inv_r in Hv as (pM & pC & HvM & HvC & ->).
  apply ranges_ok_app in Hok as [HokA Hok]. apply ranges_ok_app in Hok as [HokM HokC].
  set (range := {| sr_objectid := 0; sr_start := start; sr_size := size |}).
  assert (Hr : 0 <= sr_start range /\ 0 < sr_size range /\
               sr_start range + sr_size range < 2 ^ 64) by (simpl; lia).
  assert (Hb : all_before (range_cmp ce range) pA)
    by (apply (range_before ce range pA A 0); [done|lia|done|simpl; lia]).
  assert (Ha : all_after (range_cmp ce range) pC).
  { destruct C as [|c C]; [inversion HvC; intros x Hx; by apply elem_of_nil in Hx|].
    specialize (HC c (list_elem_of_here _ _)).
    apply (range_after ce range Hr pC (c :: C) (ce_start c)); [done|lia| |simpl; lia].
    simpl in *. intuition lia. }
  pose proof (ranges_end_ge _ _ HokA).
  unfold lookup_cache_extent. fold range. destruct M as [|m M].
  - inversion HvM; subst. exists None. split.
    + by rewrite (rb_search_next tree pA pC (range_cmp ce range)).
    + intros e [He|He]%elem_of_app; [left; by apply HA|right; by apply HC].
  - destruct (rb_search_found tree pA pM pC (range_cmp ce range)) as (x & n & Hx & Hin);
      [done|by inversion HvM|done| |done|].
    + eapply (range_match ce range Hr); [done|]. intros e He.
      destruct (ranges_ok_elem _ _ _ HokM He) as (?&?&?&?).
      destruct (HM _ He). simpl. lia.
    + exists (Some x). split; [unfold range_cmp in Hx; by rewrite Hx|].
      destruct (views_elem _ _ _ _ HvM Hin) as (e & He & Hem).
      exists e. split_and!; [|done|by apply HM..].
      rewrite !elem_of_app. auto.
Qed.
End Spec.

(** ** Caches of plain ranges

    [add_cache_extent] allocates the entry it inserts.  The heap holds the
    allocated entries; [cw_mallocs] is how many more calls of [malloc] succeed
    ([exit(1)] ends the program when one fails). *)

Section World.
Context {T : Type} `{RbTree T}.

Record cache_world := CacheWorld {
  cw_tree : T;
  cw_heap : gmap ptr cache_extent;
  cw_next : ptr;
  cw_mallocs : nat;
}.

Definition alloc_cache_extent (objectid start size : Z) : act cache_world (option ptr) := fun w =>
  match cw_mallocs w with
  | O => Some (None, w)
  | S n =>
      let pe := cw_next w in
      let e := {| ce_objectid := objectid; ce_start := start; ce_size := size |} in
      Some (Some pe, CacheWorld (cw_tree w) (<[pe := e]> (cw_heap w)) (Pos.succ pe) n)
  end.

Definition free_cache_extent_entry (pe : ptr) : act cache_world unit := fun w =>
  Some (tt, CacheWorld (cw_tree w) (delete pe (cw_heap w)) (cw_next w) (cw_mallocs w)).

Definition insert_entry (pe : ptr) : act cache_world Z := fun w =>
  '(t, ret) ← insert_cache_extent (cw_tree w) (fun p => cw_heap w !! p) pe;
  Some (ret, CacheWorld t (cw_heap w) (cw_next w) (cw_mallocs w)).

Definition __add_cache_extent (objectid start size : Z) : act cache_world Z :=
  (pe <- alloc_cache_extent objectid start size ;;
   match pe with
   | None => bug
   | Some pe =>
       r <- insert_entry pe ;;
       (if r =? 0 then ret tt else free_cache_extent_entry pe) ;;;
       ret r
   end)%act.

Definition add_cache_extent (start size : Z) : act cache_world Z :=
  __add_cache_extent 0 start size.

(** Note that [__add_cache_extent] calls [insert_cache_extent], which does not
    compare the object ids, for the two-level key as well. *)
Definition add_cache_extent2 (objectid start size : Z) : act cache_world Z :=
  __add_cache_extent objectid start size.

(** [cache_tree_free_extents] with [free_extent_cache] as its callback; [fuel]
    bounds the number of iterations of its loop. *)
Fixpoint cache_tree_free_extents (fuel : nat) : act cache_world unit := fun w =>
  match fuel with
  | O => None
  | S fuel =>
      first ← first_cache_extent (cw_tree w);
      match first with
      | None => Some (tt, w)
      | Some pe =>
          t ← remove_cache_extent (cw_tree w) pe;
          (free_cache_extent_entry pe ;;; cache_tree_free_extents fuel)%act
            (CacheWorld t (cw_heap w) (cw_next w) (cw_mallocs w))
      end
  end.

Definition free_extent_cache_tree (fuel : nat) : act cache_world unit :=
  cache_tree_free_extents fuel.
End World.
Arguments cache_world : clear implicits.


Section WorldSpec.
Context {T : Type} `{RbTreeLaws T}.
Implicit Types (w : cache_world T) (L : list (ptr * cache_extent)).

(** The cache holds exactly the ranges of [L], sorted and disjoint, and the
    heap exactly its entries. *)
Record cache_wf w L : Prop := {
  cwf_seq : rb_seq (cw_tree w) L.*1;
  cwf_heap : cw_heap w = list_to_map L;
  cwf_ranges : ranges_ok 0 L.*2;
  cwf_next : forall p, p ∈ L.*1 -> (p < cw_next w)%positive;
}.

Lemma heap_views L (m : gmap ptr cache_extent) :
  NoDup L.*1 -> (forall p e, (p, e) ∈ L -> m !! p = Some e) ->
  views (fun p => m !! p) L.*1 L.*2.
Proof.
  intros _ Hm. apply Forall2_fmap_l, Forall2_fmap_r, Forall_Forall2_diag, Forall_forall.
  intros [p e]. apply Hm.
Qed.

Lemma cache_wf_seq w L : cache_wf w L -> cache_seq (cw_tree w) (fun p => cw_heap w !! p) L.*1 L.*2.
Proof.
  intros [Hs Hh Hr Hn]. pose proof (rb_seq_nodup _ _ Hs) as Hnd. split; [done| |done].
  apply heap_views; [done|]. intros p e Hp. rewrite Hh. by apply elem_of_list_to_map.
Qed.

Lemma split_pairs L A C : L.*2 = A ++ C ->
  exists L1 L2, L = L1 ++ L2 /\ L1.*2 = A /\ L2.*2 = C.
Proof. intros Hl. apply fmap_app_inv in Hl as (k1 & k2 & -> & -> & ->). eauto. Qed.

(** The two outcomes of [__add_cache_extent], as relations on the sequence. *)
Lemma add_cache_extent_new w L oid start size :
  cache_wf w L -> cw_mallocs w <> O ->
  0 <= start -> 0 < size -> start + size < 2 ^ 64 ->
  (forall e, e ∈ L.*2 -> ce_end e <= start \/ start + size <= ce_start e) ->
  exists w' L1 L2 p, __add_cache_extent oid start size w = Some (0, w') /\ L = L1 ++ L2 /\
    cache_wf w' (L1 ++ (p, CacheExtent oid start size) :: L2).
Proof.
  intros Hwf Hm H1 H2 H3 Hno.
  destruct (cw_mallocs w) as [|n] eqn:Hmal; [done|].
  pose proof Hwf as [Hs Hh Hr Hn].
  destruct (ranges_split _ _ start size Hr H2) as (A & M & C & Heq & HAe & HA & HM & HC).
  destruct M as [|m M]; [|destruct (HM m ltac:(left)); destruct (Hno m); [rewrite Heq; set_solver|lia..]].
  destruct (split_pairs _ _ _ Heq) as (L1 & L2 & -> & HL1 & HL2).
  set (p := cw_next w). set (e := CacheExtent oid start size).
  set (h := <[p := e]> (cw_heap w)).
  assert (Hfresh : p ∉ L1.*1 ++ L2.*1).
  { intros Hp. rewrite <- fmap_app in Hp. specialize (Hn _ Hp). unfold p in *. lia. }
  pose proof (rb_seq_nodup _ _ Hs) as Hnd.
  assert (Hlook : forall q f, (q, f) ∈ L1 ++ L2 -> h !! q = Some f).
  { intros q f Hq. unfold h. rewrite lookup_insert_ne.
    - rewrite Hh. by apply elem_of_list_to_map.
    - intros <-. apply Hfresh. rewrite <- fmap_app. by apply (list_elem_of_fmap_2 fst) in Hq. }
  rewrite fmap_app in Hnd. apply NoDup_app in Hnd as (Hnd1 & _ & Hnd2).
  rewrite Heq in Hr. apply ranges_ok_app in Hr as [HrA HrC].
  destruct (insert_cache_extent_split (cw_tree w) (fun q => h !! q) L1.*1 L2.*1 L1.*2 L2.*2 p e)
    as (t' & Hins & Hseq').
  - by rewrite <- fmap_app.
  - apply heap_views; [done|]. intros. apply Hlook. set_solver.
  - apply heap_views; [done|]. intros. apply Hlook. set_solver.
  - done.
  - unfold h. by rewrite lookup_insert_eq.
  - rewrite HL1, HL2. apply ranges_ok_app. split; [done|]. simpl.
    unfold ce_end; simpl. split_and!; [lia..|].
    destruct C as [|c C]; [done|]. specialize (HC c ltac:(left)). simpl in *. intuition lia.
  - eexists (CacheWorld t' h (Pos.succ p) n), L1, L2, p. split; [|split; [done|]].
    + unfold __add_cache_extent, bind, alloc_cache_extent. rewrite Hmal.
      unfold insert_entry. simpl. fold p e h. rewrite Hins. reflexivity.
    + split; simpl.
      * by rewrite fmap_app.
      * rewrite list_to_map_app. simpl. unfold h. rewrite Hh, list_to_map_app.
        rewrite insert_union_r; [done|].
        apply not_elem_of_list_to_map_1. set_solver.
      * rewrite fmap_app, fmap_cons, HL1, HL2. apply ranges_ok_app. split; [done|]. simpl.
        unfold ce_end; simpl. split_and!; [lia..|].
        destruct C as [|c C]; [done|]. specialize (HC c ltac:(left)). simpl in *. intuition lia.
      * intros q Hq. assert (q = p \/ q ∈ (L1 ++ L2).*1) as [->|Hq'].
        { rewrite fmap_app in Hq |- *. set_solver. }
        -- lia.
        -- specialize (Hn _ Hq'). unfold p. lia.
Qed.

Lemma add_cache_extent_exists w L oid start size :
  cache_wf w L -> cw_mallocs w <> O ->
  0 <= start -> 0 < size -> start + size < 2 ^ 64 ->
  (exists e, e ∈ L.*2 /\ start < ce_end e /\ ce_start e < start + size) ->
  exists w', __add_cache_extent oid start size w = Some (- EEXIST, w') /\ cache_wf w' L.
Proof.
  intros Hwf Hm H1 H2 H3 Hov.
  destruct (cw_mallocs w) as [|n] eqn:Hmal; [done|].
  pose proof Hwf as [Hs Hh Hr Hn].
  set (p := cw_next w). set (e := CacheExtent oid start size).
  set (h := <[p := e]> (cw_heap w)).
  assert (Hfresh : p ∉ L.*1).
  { intros Hp. specialize (Hn _ Hp). unfold p in *. lia. }
  pose proof (rb_seq_nodup _ _ Hs) as Hnd.
  assert (Hins : insert_cache_extent (cw_tree w) (fun q => h !! q) p = Some (cw_tree w, - EEXIST)).
  { apply (insert_cache_extent_overlap _ _ L.*1 L.*2 p e); [|unfold h; by rewrite lookup_insert_eq|done..].
    split; [done| |done]. apply heap_views; [done|]. intros q f Hq. unfold h.
    rewrite lookup_insert_ne; [rewrite Hh; by apply elem_of_list_to_map|].
    intros <-. apply Hfresh. by apply (list_elem_of_fmap_2 fst) in Hq. }
  eexists (CacheWorld (cw_tree w) (delete p h) (Pos.succ p) n). split.
  - unfold __add_cache_extent, bind, alloc_cache_extent. rewrite Hmal.
    unfold insert_entry. simpl. fold p e h. rewrite Hins. reflexivity.
  - split; simpl; [done| |done|].
    + unfold h. rewrite delete_insert_id; [done|]. rewrite Hh. by apply not_elem_of_list_to_map_1.
    + intros q Hq. specialize (Hn _ Hq). unfold p. lia.
Qed.
End WorldSpec.
