(* ===== verification/ExtentIo.v ===== *)
(** The extent state tree of [src/extent_io.c]: flags on byte ranges.

    A world holds the [state] tree of a [struct extent_io_tree], the allocated
    [struct extent_state]s and the allocator.  The tree is any implementation
    of the red-black tree interface. *)

From S2P Require Import Prelude RbSpec ExtentCache.

Definition EXTENT_DIRTY : Z := 1.
Definition EXTENT_WRITEBACK : Z := Z.shiftl 1 1.
Definition EXTENT_UPTODATE : Z := Z.shiftl 1 2.
Definition EXTENT_LOCKED : Z := Z.shiftl 1 3.
Definition EXTENT_IOBITS : Z := Z.lor EXTENT_LOCKED EXTENT_WRITEBACK.

Record extent_state := ExtentState {
  es_node : cache_extent;
  es_start : Z;
  es_end : Z;
  es_refs : Z;
  es_state : Z;
  es_private : Z;
}.

Definition es_with_range (e : extent_state) (start last : Z) : extent_state :=
  ExtentState (es_node e) start last (es_refs e) (es_state e) (es_private e).
Definition es_with_state (e : extent_state) (v : Z) : extent_state :=
  ExtentState (es_node e) (es_start e) (es_end e) (es_refs e) v (es_private e).
Definition es_with_refs (e : extent_state) (r : Z) : extent_state :=
  ExtentState (es_node e) (es_start e) (es_end e) r (es_state e) (es_private e).
Definition es_with_private (e : extent_state) (v : Z) : extent_state :=
  ExtentState (es_node e) (es_start e) (es_end e) (es_refs e) (es_state e) v.

(** [update_extent_state]: the cache node's range from the state's. *)
Definition updated_extent_state (e : extent_state) : extent_state :=
  ExtentState
    {| ce_objectid := ce_objectid (es_node e); ce_start := es_start e;
       ce_size := u64 (es_end e + 1 - es_start e) |}
    (es_start e) (es_end e) (es_refs e) (es_state e) (es_private e).

(** Where an iteration of the loops of [set_extent_bits] and
    [clear_extent_bits] goes: the labels [out] and [search_again], or a
    [return]. *)
Inductive jump :=
| Out (prealloc : option ptr)
| SearchAgain (prealloc : option ptr) (start : Z)
| Return (r : Z).

Section Io.
Context {T : Type} `{RbTree T}.

Record io_world := IoWorld {
  iw_tree : T;
  iw_heap : gmap ptr extent_state;
  iw_next : ptr;
  iw_mallocs : nat;
}.

Open Scope act_scope.

Definition io_nodes (w : io_world) : entries := fun p => es_node <$> iw_heap w !! p.

Definition es_get (p : ptr) : act io_world extent_state := deref (fun w => iw_heap w !! p).
Definition es_put (p : ptr) (e : extent_state) : act io_world unit :=
  modify (fun w => IoWorld (iw_tree w) (<[p := e]> (iw_heap w)) (iw_next w) (iw_mallocs w)).
Definition set_tree (t : T) : act io_world unit :=
  modify (fun w => IoWorld t (iw_heap w) (iw_next w) (iw_mallocs w)).

Definition alloc_extent_state : act io_world (option ptr) := fun w =>
  match iw_mallocs w with
  | O => Some (None, w)
  | S n =>
      let p := iw_next w in
      (* malloc leaves the fields that are not assigned undefined *)
      let e := ExtentState {| ce_objectid := 0; ce_start := 0; ce_size := 0 |} 0 0 1 0 0 in
      Some (Some p, IoWorld (iw_tree w) (<[p := e]> (iw_heap w)) (Pos.succ p) n)
  end.

Definition btrfs_free_extent_state (p : ptr) : act io_world unit :=
  e <- es_get p ;;
  let refs := es_refs e - 1 in
  es_put p (es_with_refs e refs) ;;;
  bug_on (refs <? 0) ;;;
  if refs =? 0
  then modify (fun w => IoWorld (iw_tree w) (delete p (iw_heap w)) (iw_next w) (iw_mallocs w))
  else ret tt.

Definition update_extent_state (p : ptr) : act io_world unit :=
  e <- es_get p ;; es_put p (updated_extent_state e).

Definition io_search (start : Z) : act io_world (option ptr) :=
  deref (fun w => search_cache_extent (iw_tree w) (io_nodes w) start).
Definition io_prev (p : ptr) : act io_world (option ptr) :=
  deref (fun w => prev_cache_extent (iw_tree w) p).
Definition io_next (p : ptr) : act io_world (option ptr) :=
  deref (fun w => next_cache_extent (iw_tree w) p).
Definition io_insert (p : ptr) : act io_world Z :=
  tr <- deref (fun w => insert_cache_extent (iw_tree w) (io_nodes w) p) ;;
  set_tree tr.1 ;;; ret tr.2.
Definition io_remove (p : ptr) : act io_world unit :=
  t <- deref (fun w => remove_cache_extent (iw_tree w) p) ;; set_tree t.

Definition merge_prev (state : ptr) : act io_world unit :=
  other_node <- io_prev state ;;
  match other_node with
  | None => ret tt
  | Some o =>
      s <- es_get state ;; other <- es_get o ;;
      if (es_end other =? u64 (es_start s - 1)) && (es_state other =? es_state s) then
        es_put state (es_with_range s (es_start other) (es_end s)) ;;;
        update_extent_state state ;;;
        io_remove o ;;;
        btrfs_free_extent_state o
      else ret tt
  end.

Definition merge_next (state : ptr) : act io_world unit :=
  other_node <- io_next state ;;
  match other_node with
  | None => ret tt
  | Some o =>
      s <- es_get state ;; other <- es_get o ;;
      if (es_start other =? u64 (es_end s + 1)) && (es_state other =? es_state s) then
        es_put o (es_with_range other (es_start s) (es_end other)) ;;;
        update_extent_state o ;;;
        io_remove state ;;;
        btrfs_free_extent_state state
      else ret tt
  end.

Definition merge_state (state : ptr) : act io_world Z :=
  s <- es_get state ;;
  if negb (Z.land (es_state s) EXTENT_IOBITS =? 0) then ret 0
  else merge_prev state ;;; merge_next state ;;; ret 0.

Definition insert_state (state : ptr) (start last bits : Z) : act io_world Z :=
  bug_on (last <? start) ;;;
  s <- es_get state ;;
  es_put state (es_with_range (es_with_state s (Z.lor (es_state s) (u64 bits))) start last) ;;;
  update_extent_state state ;;;
  r <- io_insert state ;;
  bug_on (negb (r =? 0)) ;;;
  merge_state state ;;;
  ret 0.

Definition split_state (orig prealloc : ptr) (split : Z) : act io_world Z :=
  o <- es_get orig ;; p <- es_get prealloc ;;
  es_put prealloc (es_with_state (es_with_range p (es_start o) (u64 (split - 1))) (es_state o)) ;;;
  update_extent_state prealloc ;;;
  es_put orig (es_with_range o split (es_end o)) ;;;
  update_extent_state orig ;;;
  r <- io_insert prealloc ;;
  bug_on (negb (r =? 0)) ;;;
  ret 0.

Definition clear_state_bit (state : ptr) (bits : Z) : act io_world Z :=
  s <- es_get state ;;
  let r := s32 (Z.land (es_state s) (u64 bits)) in
  let v := Z.land (es_state s) (u64 (Z.lnot bits)) in
  es_put state (es_with_state s v) ;;;
  (if v =? 0 then io_remove state ;;; btrfs_free_extent_state state
   else merge_state state ;;; ret tt) ;;;
  ret r.

(** [again:] of both loops: make sure there is a preallocated state. *)
Definition get_prealloc (prealloc : option ptr) : act io_world (option ptr) :=
  match prealloc with Some p => ret (Some p) | None => alloc_extent_state end.

Definition free_prealloc (prealloc : option ptr) : act io_world unit :=
  match prealloc with Some p => btrfs_free_extent_state p | None => ret tt end.

(** One pass from the label [again] of [clear_extent_bits]; the result is the
    jump it ends with and the bits it adds to [set]. *)
Definition clear_extent_bits_pass (prealloc : option ptr) (start last bits : Z)
    : act io_world (jump * Z) :=
  prealloc <- get_prealloc prealloc ;;
  match prealloc with
  | None => ret (Return (- ENOMEM), 0)
  | Some pre =>
    node <- io_search start ;;
    match node with
    | None => ret (Out (Some pre), 0)
    | Some state =>
      s <- es_get state ;;
      if last <? es_start s then ret (Out (Some pre), 0) else
      let last_end := es_end s in
      if es_start s <? start then
        err <- split_state state pre start ;;
        bug_on (err =? - EEXIST) ;;;
        (if negb (err =? 0) then ret (Out None, 0) else
         s <- es_get state ;;
         if es_end s <=? last then
           set <- clear_state_bit state bits ;;
           if last_end =? U64_MAX then ret (Out None, set)
           else ret (SearchAgain None (u64 (last_end + 1)), set)
         else ret (SearchAgain None (es_start s), 0))
      else if (es_start s <=? last) && (last <? es_end s) then
        err <- split_state state pre (u64 (last + 1)) ;;
        bug_on (err =? - EEXIST) ;;;
        set <- clear_state_bit pre bits ;;
        ret (Out None, set)
      else
        set <- clear_state_bit state bits ;;
        if last_end =? U64_MAX then ret (Out (Some pre), set)
        else ret (SearchAgain (Some pre) (u64 (last_end + 1)), set)
    end
  end.

Fixpoint clear_extent_bits_loop (fuel : nat) (prealloc : option ptr) (start last bits set : Z)
    : act io_world Z :=
  match fuel with
  | O => bug
  | S fuel =>
      js <- clear_extent_bits_pass prealloc start last bits ;;
      let set := Z.lor set js.2 in
      match js.1 with
      | Return r => ret r
      | Out p => free_prealloc p ;;; ret set
      | SearchAgain p start =>
          if last <? start then free_prealloc p ;;; ret set
          else clear_extent_bits_loop fuel p start last bits set
      end
  end.

Definition clear_extent_bits (fuel : nat) (start last bits : Z) : act io_world Z :=
  clear_extent_bits_loop fuel None start last bits 0.

(** One pass from the label [again] of [set_extent_bits]. *)
Definition set_extent_bits_pass (prealloc : option ptr) (start last bits : Z)
    : act io_world jump :=
  prealloc <- get_prealloc prealloc ;;
  match prealloc with
  | None => ret (Return (- ENOMEM))
  | Some pre =>
    node <- io_search start ;;
    match node with
    | None =>
        err <- insert_state pre start last bits ;;
        bug_on (err =? - EEXIST) ;;;
        ret (Out None)
    | Some state =>
      s <- es_get state ;;
      let last_start := es_start s in
      let last_end := es_end s in
      if (es_start s =? start) && (es_end s <=? last) then
        es_put state (es_with_state s (Z.lor (es_state s) (u64 bits))) ;;;
        merge_state state ;;;
        if last_end =? U64_MAX then ret (Out (Some pre))
        else ret (SearchAgain (Some pre) (u64 (last_end + 1)))
      else if es_start s <? start then
        err <- split_state state pre start ;;
        bug_on (err =? - EEXIST) ;;;
        (if negb (err =? 0) then ret (Out None) else
         s <- es_get state ;;
         if es_end s <=? last then
           es_put state (es_with_state s (Z.lor (es_state s) (u64 bits))) ;;;
           merge_state state ;;;
           if last_end =? U64_MAX then ret (Out None)
           else ret (SearchAgain None (u64 (last_end + 1)))
         else ret (SearchAgain None (es_start s)))
      else if start <? es_start s then
        let this_end := if last <? last_start then last else u64 (last_start - 1) in
        err <- insert_state pre start this_end bits ;;
        bug_on (err =? - EEXIST) ;;;
        if negb (err =? 0) then ret (Out None)
        else ret (SearchAgain None (u64 (this_end + 1)))
      else
        err <- split_state state pre (u64 (last + 1)) ;;
        bug_on (err =? - EEXIST) ;;;
        s <- es_get state ;;
        es_put state (es_with_state s (Z.lor (es_state s) (u64 bits))) ;;;
        merge_state pre ;;;
        ret (Out None)
    end
  end.

Fixpoint set_extent_bits_loop (fuel : nat) (prealloc : option ptr) (start last bits : Z)
    : act io_world Z :=
  match fuel with
  | O => bug
  | S fuel =>
      j <- set_extent_bits_pass prealloc start last bits ;;
      match j with
      | Return r => ret r
      | Out p => free_prealloc p ;;; ret 0
      | SearchAgain p start =>
          if last <? start then free_prealloc p ;;; ret 0
          else set_extent_bits_loop fuel p start last bits
      end
  end.

Definition set_extent_bits (fuel : nat) (start last bits : Z) : act io_world Z :=
  set_extent_bits_loop fuel None start last bits.

Definition set_extent_dirty (fuel : nat) (start last : Z) : act io_world Z :=
  set_extent_bits fuel start last EXTENT_DIRTY.
Definition clear_extent_dirty (fuel : nat) (start last : Z) : act io_world Z :=
  clear_extent_bits fuel start last EXTENT_DIRTY.

(** [find_first_extent_bit]: [None] is the return value 1, [Some (s, e)] the
    return value 0 with [*start_ret] and [*end_ret]. *)
Fixpoint find_first_extent_bit_loop (fuel : nat) (node : ptr) (start bits : Z)
    : act io_world (option (Z * Z)) :=
  match fuel with
  | O => bug
  | S fuel =>
      s <- es_get node ;;
      if (start <=? es_end s) && negb (Z.land (es_state s) (u64 bits) =? 0)
      then ret (Some (es_start s, es_end s))
      else
        next <- io_next node ;;
        match next with
        | None => ret None
        | Some n => find_first_extent_bit_loop fuel n start bits
        end
  end.

Definition find_first_extent_bit (fuel : nat) (start bits : Z) : act io_world (option (Z * Z)) :=
  node <- io_search start ;;
  match node with
  | None => ret None
  | Some n => find_first_extent_bit_loop fuel n start bits
  end.

(** The loop of [test_range_bit]; [filled] is a C truth value. *)
Fixpoint test_range_bit_loop (fuel : nat) (node : option ptr) (start last bits : Z)
    (filled : bool) (bitset : Z) : act io_world Z :=
  match node with
  | None => ret bitset
  | Some n =>
    if negb (start <=? last) then ret bitset else
    match fuel with
    | O => bug
    | S fuel =>
      s <- es_get n ;;
      if filled && (start <? es_start s) then ret 0
      else if last <? es_start s then ret bitset
      else
        let hit := negb (Z.land (es_state s) (u64 bits) =? 0) in
        let bitset := if hit then 1 else bitset in
        if hit && negb filled then ret bitset
        else if negb hit && filled then ret 0
        else
          let start := u64 (es_end s + 1) in
          if last <? start then ret bitset
          else
            next <- io_next n ;;
            match next with
            | None => ret (if filled then 0 else bitset)
            | Some n' => test_range_bit_loop fuel (Some n') start last bits filled bitset
            end
    end
  end.

Definition test_range_bit (fuel : nat) (start last bits : Z) (filled : bool) : act io_world Z :=
  node <- io_search start ;;
  test_range_bit_loop fuel node start last bits filled 0.

Definition set_state_private (start private : Z) : act io_world Z :=
  node <- io_search start ;;
  match node with
  | None => ret (- ENOENT)
  | Some n =>
      s <- es_get n ;;
      if negb (es_start s =? start) then ret (- ENOENT)
      else es_put n (es_with_private s private) ;;; ret 0
  end.

(** The value of [*private] comes with the return value 0. *)
Definition get_state_private (start : Z) : act io_world (Z * option Z) :=
  node <- io_search start ;;
  match node with
  | None => ret (- ENOENT, None)
  | Some n =>
      s <- es_get n ;;
      if negb (es_start s =? start) then ret (- ENOENT, None)
      else ret (0, Some (es_private s))
  end.
End Io.
Arguments io_world : clear implicits.
