(* ===== verification/ExtentIoInv.v ===== *)
(** The invariant of the extent state tree and what its primitives do to it.

    A world is related to the sequence of the tree's states, in order; each
    primitive of [ExtentIo] is then an equation on that sequence. *)

From S2P Require Import Prelude RbSpec ExtentCache ExtentIo.

(** One state of the tree: its cache node carries its range, it has one
    reference, and it does not reach the last byte of the address space (the
    comparison of [extent-cache.c] overflows there). *)
Definition seg_ok (e : extent_state) : Prop :=
  es_node e = CacheExtent 0 (es_start e) (es_end e + 1 - es_start e) /\
  es_refs e = 1 /\ 0 <= es_state e < 2 ^ 64 /\
  0 <= es_start e <= es_end e /\ es_end e < U64_MAX.

Fixpoint segs_ok (lo : Z) (l : list extent_state) : Prop :=
  match l with
  | [] => True
  | e :: l' => seg_ok e /\ lo <= es_start e /\ segs_ok (es_end e + 1) l'
  end.

Fixpoint segs_end (lo : Z) (l : list extent_state) : Z :=
  match l with [] => lo | e :: l' => segs_end (es_end e + 1) l' end.

(** The state that covers byte [x], and its flags. *)
Fixpoint seg_at (l : list extent_state) (x : Z) : option extent_state :=
  match l with
  | [] => None
  | e :: l' => if (es_start e <=? x) && (x <=? es_end e) then Some e else seg_at l' x
  end.

Definition flag_of (l : list extent_state) (x : Z) : Z :=
  match seg_at l x with Some e => es_state e | None => 0 end.

Lemma segs_ok_app lo l1 l2 :
  segs_ok lo (l1 ++ l2) <-> segs_ok lo l1 /\ segs_ok (segs_end lo l1) l2.
Proof. revert lo. induction l1 as [|e l1 IH]; intros lo; simpl; [tauto|]. rewrite IH. tauto. Qed.

Lemma segs_end_app lo l1 l2 : segs_end lo (l1 ++ l2) = segs_end (segs_end lo l1) l2.
Proof. revert lo. induction l1; simpl; auto. Qed.

Lemma segs_end_snoc lo l e : segs_end lo (l ++ [e]) = es_end e + 1.
Proof. by rewrite segs_end_app. Qed.

Lemma segs_ok_weaken lo lo' l : lo' <= lo -> segs_ok lo l -> segs_ok lo' l.
Proof. destruct l; simpl; intuition lia. Qed.

Lemma segs_end_ge lo l : segs_ok lo l -> lo <= segs_end lo l.
Proof.
  revert lo. induction l as [|e l IH]; intros lo; simpl; [lia|].
  intros ((_&_&_&?&_) & ? & Hl). specialize (IH _ Hl). lia.
Qed.

Lemma segs_ok_elem lo l e : segs_ok lo l -> e ∈ l -> seg_ok e /\ lo <= es_start e.
Proof.
  revert lo. induction l as [|e' l IH]; intros lo; simpl; [by intros ? ?%elem_of_nil|].
  intros (H1 & H2 & H3) [->|He]%elem_of_cons; [done|].
  destruct (IH _ H3 He). unfold seg_ok in *. intuition lia.
Qed.

Lemma segs_ranges lo l : segs_ok lo l -> ranges_ok lo (es_node <$> l).
Proof.
  revert lo. induction l as [|e l IH]; intros lo; simpl; [done|].
  intros ((Hn & _ & _ & ? & ?) & ? & Hl). specialize (IH _ Hl).
  unfold ce_end, U64_MAX in *. rewrite Hn. simpl.
  replace (es_start e + (es_end e + 1 - es_start e)) with (es_end e + 1) by lia.
  split_and!; [lia..|done].
Qed.

Lemma ranges_end_segs lo l : segs_ok lo l -> ranges_end lo (es_node <$> l) = segs_end lo l.
Proof.
  revert lo. induction l as [|e l IH]; intros lo; simpl; [done|].
  intros ((Hn & _) & _ & Hl). rewrite <- (IH _ Hl).
  unfold ce_end. rewrite Hn. simpl. f_equal. lia.
Qed.

(** ** Covering states *)

Lemma seg_at_none_below lo l x : segs_ok lo l -> x < lo -> seg_at l x = None.
Proof.
  revert lo. induction l as [|e l IH]; intros lo; simpl; [done|].
  intros ((_&_&_&?&_) & ? & Hl) Hx. rewrite (IH _ Hl) by lia.
  by rewrite (proj2 (Z.leb_gt _ _)) by lia.
Qed.

Lemma seg_at_none_above lo l x : segs_ok lo l -> segs_end lo l <= x -> seg_at l x = None.
Proof.
  revert lo. induction l as [|e l IH]; intros lo; simpl; [done|].
  intros ((_&_&_&?&_) & ? & Hl) Hx. rewrite (IH _ Hl) by done.
  apply segs_end_ge in Hl. rewrite (proj2 (Z.leb_gt x _)) by lia. by rewrite andb_false_r.
Qed.

Lemma seg_at_app lo l1 l2 x :
  segs_ok lo (l1 ++ l2) ->
  seg_at (l1 ++ l2) x = if x <? segs_end lo l1 then seg_at l1 x else seg_at l2 x.
Proof.
  revert lo. induction l1 as [|e l1 IH]; intros lo; simpl.
  { intros Hok. destruct (Z.ltb_spec x lo); [|done]. by eapply seg_at_none_below. }
  intros ((_&_&_&?&_) & ? & Hl). rewrite (IH _ Hl).
  apply segs_ok_app in Hl as [Hl1 _]. apply segs_end_ge in Hl1.
  destruct (Z.leb_spec (es_start e) x), (Z.leb_spec x (es_end e)); simpl; try done.
  destruct (Z.ltb_spec x (segs_end (es_end e + 1) l1)); [done|lia].
Qed.

Lemma seg_at_cons_app lo l1 e l2 x :
  segs_ok lo (l1 ++ e :: l2) ->
  seg_at (l1 ++ e :: l2) x =
    if x <? es_start e then seg_at l1 x else if x <=? es_end e then Some e else seg_at l2 x.
Proof.
  intros Hok. rewrite (seg_at_app lo) by done. simpl.
  apply segs_ok_app in Hok as [Hok1 ((_&_&_&?&_) & ? & Hok2)].
  destruct (Z.ltb_spec x (segs_end lo l1)), (Z.ltb_spec x (es_start e)),
    (Z.leb_spec (es_start e) x), (Z.leb_spec x (es_end e)); simpl; try lia; try done.
  - rewrite (seg_at_none_below (es_end e + 1)) by (done || lia).
    by rewrite (seg_at_none_above lo) by (done || lia).
Qed.

Lemma seg_at_range lo l x e : segs_ok lo l -> seg_at l x = Some e -> es_start e <= x <= es_end e.
Proof.
  revert lo. induction l as [|e' l IH]; intros lo; simpl; [done|]. intros (_ & _ & Hl).
  destruct (Z.leb_spec (es_start e') x), (Z.leb_spec x (es_end e')); simpl; eauto.
  intros [= ->]. lia.
Qed.

Lemma seg_at_elem l x e : seg_at l x = Some e -> e ∈ l.
Proof.
  induction l as [|b l IH]; simpl; [done|]. destruct (_ && _); [intros [= ->]; left|right; auto].
Qed.

(** ** The sequence after a merge

    [merge_list A p e B]: the sequence [A ++ (p, e) :: B] after
    [merge_state p]. *)

Abbreviation seg := (ptr * extent_state)%type.

Definition mergeable (a b : extent_state) : bool :=
  (es_end a + 1 =? es_start b) && (es_state a =? es_state b).

Definition resized (e : extent_state) (start last : Z) : extent_state :=
  updated_extent_state (es_with_range e start last).

Definition merge_left (A : list seg) (e : extent_state) : list seg * extent_state :=
  match rev A with
  | (_, o) :: A' => if mergeable o e then (rev A', resized e (es_start o) (es_end e)) else (A, e)
  | [] => (A, e)
  end.

Definition merge_right (p : ptr) (e : extent_state) (B : list seg) : list seg :=
  match B with
  | (q, o) :: B' =>
      if mergeable e o then (q, resized o (es_start e) (es_end o)) :: B' else (p, e) :: B
  | [] => [(p, e)]
  end.

Definition merge_list (A : list seg) (p : ptr) (e : extent_state) (B : list seg) : list seg :=
  if negb (Z.land (es_state e) EXTENT_IOBITS =? 0) then A ++ (p, e) :: B
  else let '(A', e') := merge_left A e in A' ++ merge_right p e' B.

Lemma seg_ok_resized e start last :
  seg_ok e -> 0 <= start <= last -> last < U64_MAX -> seg_ok (resized e start last).
Proof.
  unfold seg_ok, resized, U64_MAX. simpl. intros (Hn & -> & ? & ? & ?) ??.
  split_and!; try done; [|lia..]. rewrite Hn. simpl. by rewrite u64_id by lia.
Qed.

Lemma merge_right_ok lo p e B :
  segs_ok lo (e :: B.*2) ->
  segs_ok lo (merge_right p e B).*2 /\
  (forall x, flag_of (merge_right p e B).*2 x = flag_of (e :: B.*2) x).
Proof.
  intros Hok. destruct B as [|[q o] B]; [done|]. simpl in *.
  destruct (mergeable e o) eqn:Hm; [|done]. unfold mergeable in Hm.
  apply andb_true_iff in Hm as [H1%Z.eqb_eq H2%Z.eqb_eq].
  destruct Hok as (He & Hlo & Ho & Ho' & Hok). pose proof He as (_&_&_&?&?).
  pose proof Ho as (_&_&_&?&?). simpl. split.
  - split_and!; [apply seg_ok_resized; [done|lia..]|done|done].
  - intros x. unfold flag_of. simpl.
    destruct (Z.leb_spec (es_start e) x), (Z.leb_spec x (es_end o)), (Z.leb_spec x (es_end e)),
      (Z.leb_spec (es_start o) x); simpl; try lia; try done.
Qed.

Lemma merge_left_ok A e C :
  segs_ok 0 (A.*2 ++ e :: C) ->
  let '(A', e') := merge_left A e in
  segs_ok 0 (A'.*2 ++ e' :: C) /\ es_end e' = es_end e /\ es_start e' <= es_start e /\
  es_state e' = es_state e /\
  (forall x, flag_of (A'.*2 ++ e' :: C) x = flag_of (A.*2 ++ e :: C) x).
Proof.
  intros Hok. unfold merge_left. destruct (rev A) as [|[q o] R] eqn:HA.
  { cbn. split_and!; (done || lia). }
  destruct (mergeable o e) eqn:Hm; [|cbn; split_and!; (done || lia)].
  assert (A = rev R ++ [(q, o)]) as ->.
  { rewrite <- (rev_involutive A), HA. done. }
  unfold mergeable in Hm. apply andb_true_iff in Hm as [H1%Z.eqb_eq H2%Z.eqb_eq].
  rewrite fmap_app, <- (assoc_L (++)) in Hok |- *. simpl in *.
  pose proof Hok as Hok0.
  apply segs_ok_app in Hok as [HR (Ho & Hlo & He & Hlo' & HC)].
  pose proof He as (_&_&_&?&?). pose proof Ho as (_&_&_&?&?).
  assert (Hok' : segs_ok 0 ((rev R).*2 ++ resized e (es_start o) (es_end e) :: C)).
  { apply segs_ok_app. split; [done|]. simpl. split_and!; [|done|done].
    apply seg_ok_resized; [done|lia..]. }
  split_and!; [done|done|simpl; lia|done|]. intros x. unfold flag_of.
  rewrite (seg_at_cons_app 0 _ _ _ _ Hok'), (seg_at_cons_app 0 _ _ _ _ Hok0). simpl.
  destruct (Z.ltb_spec x (es_start o)), (Z.leb_spec x (es_end e)), (Z.leb_spec x (es_end o)),
    (Z.leb_spec (es_start e) x); simpl; try lia; try done.
Qed.

Lemma merge_list_ok A p e B :
  segs_ok 0 (A.*2 ++ e :: B.*2) ->
  segs_ok 0 (merge_list A p e B).*2 /\
  (forall x, flag_of (merge_list A p e B).*2 x = flag_of (A.*2 ++ e :: B.*2) x).
Proof.
  intros Hok. unfold merge_list. destruct (negb _); [by rewrite fmap_app|].
  pose proof (merge_left_ok A e B.*2 Hok) as HL. destruct (merge_left A e) as [A' e'].
  destruct HL as (Hok' & _ & _ & _ & Hfl).
  pose proof Hok' as Hok2. apply segs_ok_app in Hok2 as [HA' He'].
  destruct (merge_right_ok _ p e' B He') as [HR HRf].
  rewrite fmap_app.
  assert (HM : segs_ok 0 (A'.*2 ++ (merge_right p e' B).*2)) by (by apply segs_ok_app).
  split; [done|]. intros x. rewrite <- Hfl.
  specialize (HRf x). revert HRf. unfold flag_of.
  rewrite (seg_at_app 0 _ _ _ HM), (seg_at_app 0 _ _ _ Hok').
  by destruct (x <? _).
Qed.

(** ** Primitives *)

Section Primitives.
Context {T : Type} `{RbTreeLaws T}.
Implicit Types (w : io_world T) (A B L pre : list seg).

Definition with_heap w (h : gmap ptr extent_state) : io_world T :=
  IoWorld (iw_tree w) h (iw_next w) (iw_mallocs w).
Definition with_tree w (t : T) : io_world T :=
  IoWorld t (iw_heap w) (iw_next w) (iw_mallocs w).

(** The tree holds the states of [L] in order; the heap holds them and the
    states of [pre], which are not in the tree, and nothing else. *)
Record io_ok w pre L : Prop := {
  io_seq : rb_seq (iw_tree w) L.*1;
  io_heap : heap_is (iw_heap w) (pre ++ L);
  io_segs : segs_ok 0 L.*2;
  io_next_ok : forall p, p ∈ (pre ++ L).*1 -> (p < iw_next w)%positive;
}.

Lemma run_get {X} w p e (k : extent_state -> act (io_world T) X) :
  iw_heap w !! p = Some e -> bind (es_get p) k w = k e w.
Proof. intros He. unfold bind, es_get, deref. by rewrite He. Qed.

Lemma run_put {X} w p e (k : unit -> act (io_world T) X) :
  bind (es_put p e) k w = k tt (with_heap w (<[p := e]> (iw_heap w))).
Proof. done. Qed.

Lemma run_put_update {X} w p e (k : unit -> act (io_world T) X) :
  bind (es_put p e) (fun _ => bind (update_extent_state p) k) w =
  k tt (with_heap w (<[p := updated_extent_state e]> (iw_heap w))).
Proof.
  rewrite run_put. unfold update_extent_state, bind, es_get, deref. simpl.
  rewrite lookup_insert_eq. unfold es_put, modify. simpl. by rewrite insert_insert_eq.
Qed.

Lemma run_free {X} w p e (k : unit -> act (io_world T) X) :
  iw_heap w !! p = Some e -> es_refs e = 1 ->
  bind (btrfs_free_extent_state p) k w = k tt (with_heap w (delete p (iw_heap w))).
Proof.
  intros He Hr. unfold btrfs_free_extent_state, bind, es_get, deref. rewrite He, Hr. simpl.
  unfold modify. simpl. by rewrite delete_insert_eq.
Qed.

Lemma run_remove {X} w A p e B (k : unit -> act (io_world T) X) :
  rb_seq (iw_tree w) (A ++ (p, e) :: B).*1 ->
  exists t, bind (io_remove p) k w = k tt (with_tree w t) /\ rb_seq t (A ++ B).*1.
Proof.
  rewrite !fmap_app. simpl. intros Hs. destruct (rb_erase_spec _ _ _ _ Hs) as (t & Ht & Hs').
  exists t. split; [|done]. unfold io_remove, bind, deref, remove_cache_extent. by rewrite Ht.
Qed.

Lemma run_prev {X} w A p e B (k : option ptr -> act (io_world T) X) :
  rb_seq (iw_tree w) (A ++ (p, e) :: B).*1 ->
  bind (io_prev p) k w = k (fst <$> last A) w.
Proof.
  rewrite !fmap_app. simpl. intros Hs. unfold io_prev, bind, deref, prev_cache_extent.
  rewrite (rb_prev_spec _ _ _ _ Hs). by rewrite fmap_last.
Qed.

Lemma run_next {X} w A p e B (k : option ptr -> act (io_world T) X) :
  rb_seq (iw_tree w) (A ++ (p, e) :: B).*1 ->
  bind (io_next p) k w = k (fst <$> head B) w.
Proof.
  rewrite !fmap_app. simpl. intros Hs. unfold io_next, bind, deref, next_cache_extent.
  rewrite (rb_next_spec _ _ _ _ Hs). by destruct B.
Qed.

Lemma io_lookup w pre L p e : io_ok w pre L -> (p, e) ∈ pre ++ L -> iw_heap w !! p = Some e.
Proof. intros Hok Hin. eapply heap_is_lookup; [apply Hok|done]. Qed.

Lemma io_seg w pre A p e B :
  io_ok w pre (A ++ (p, e) :: B) -> seg_ok e /\ iw_heap w !! p = Some e.
Proof.
  intros Hok. split.
  - eapply segs_ok_elem; [apply Hok|]. rewrite fmap_app. simpl. set_solver.
  - eapply io_lookup; [done|]. set_solver.
Qed.

(** Replace one state of the sequence in place. *)
Lemma io_ok_put w pre A p e e' B :
  io_ok w pre (A ++ (p, e) :: B) -> segs_ok 0 (A ++ (p, e') :: B).*2 ->
  io_ok (with_heap w (<[p := e']> (iw_heap w))) pre (A ++ (p, e') :: B).
Proof.
  intros [Hs Hh Hg Hn] Hg'. split; simpl; [|by rewrite (assoc_L (++)) in Hh |- *; eapply heap_is_update_at|done|].
  - rewrite fmap_app in Hs |- *. done.
  - intros q Hq. apply Hn. rewrite !fmap_app in Hq |- *. done.
Qed.

(** Drop one state of the sequence from the tree and free it. *)
Lemma io_ok_drop w t pre A p e B :
  io_ok w pre (A ++ (p, e) :: B) -> rb_seq t (A ++ B).*1 -> segs_ok 0 (A ++ B).*2 ->
  io_ok (with_heap (with_tree w t) (delete p (iw_heap w))) pre (A ++ B).
Proof.
  intros [Hs Hh Hg Hn] Ht Hg'. split; simpl; [done|by rewrite (assoc_L (++)) in Hh |- *; eapply heap_is_delete_at|done|].
  intros q Hq. apply Hn. rewrite !fmap_app in Hq |- *. simpl. set_solver.
Qed.

Lemma io_ok_ne w pre A p e B :
  io_ok w pre (A ++ (p, e) :: B) -> (p ∉ A.*1) /\ (p ∉ B.*1) /\ (p ∉ pre.*1).
Proof.
  intros [_ [Hnd _] _ _]. rewrite !fmap_app in Hnd. simpl in Hnd.
  apply NoDup_app in Hnd as (_ & Hpre & Hnd). apply NoDup_app in Hnd as (_ & HA & Hnd).
  apply NoDup_cons in Hnd as [HB _]. split_and!; [|done|].
  - intros Hp. by apply (HA p Hp), elem_of_cons; left.
  - intros Hp. apply (Hpre p Hp). rewrite elem_of_app, elem_of_cons. auto.
Qed.

Lemma mergeable_test a b :
  seg_ok a -> seg_ok b ->
  (es_end a =? u64 (es_start b - 1)) && (es_state a =? es_state b) = mergeable a b.
Proof.
  intros (_&_&_&?&?) (_&_&_&?&?). unfold mergeable, U64_MAX in *. f_equal.
  destruct (Z.eq_dec (es_start b) 0) as [->|Hne].
  - change (u64 (0 - 1)) with (2 ^ 64 - 1).
    destruct (Z.eqb_spec (es_end a) (2 ^ 64 - 1)), (Z.eqb_spec (es_end a + 1) 0); lia.
  - rewrite u64_id by lia.
    destruct (Z.eqb_spec (es_end a) (es_start b - 1)), (Z.eqb_spec (es_end a + 1) (es_start b)); lia.
Qed.

Lemma mergeable_test' a b :
  seg_ok a -> seg_ok b ->
  (es_start b =? u64 (es_end a + 1)) && (es_state b =? es_state a) = mergeable a b.
Proof.
  intros (_&_&_&?&?) (_&_&_&?&?). unfold mergeable, U64_MAX in *.
  rewrite u64_id by lia. by rewrite (Z.eqb_sym (es_start b)), (Z.eqb_sym (es_state b)).
Qed.

Lemma merge_prev_spec {X} w pre A p e B (k : unit -> act (io_world T) X) :
  io_ok w pre (A ++ (p, e) :: B) ->
  let '(A', e') := merge_left A e in
  exists w', bind (merge_prev p) k w = k tt w' /\ io_ok w' pre (A' ++ (p, e') :: B) /\
    iw_mallocs w' = iw_mallocs w.
Proof.
  intros Hok. pose proof (io_seg _ _ _ _ _ _ Hok) as [He Hlk].
  pose proof (merge_left_ok A e B.*2) as HL. unfold merge_left in *.
  destruct (rev A) as [|[q o] R] eqn:HA.
  { exists w. split; [|done]. assert (A = []) as ->.
    { rewrite <- (rev_involutive A), HA. done. }
    unfold merge_prev, bind at 1. by rewrite (run_prev _ _ _ _ _ _ (io_seq _ _ _ Hok)). }
  assert (A = rev R ++ [(q, o)]) as ->.
  { rewrite <- (rev_involutive A), HA. done. }
  clear HA. pose proof Hok as Hok0. rewrite <- (assoc_L (++)) in Hok. simpl in Hok.
  pose proof (io_seg _ _ _ _ _ _ Hok) as [Ho Hlq].
  assert (Hm : merge_prev p w = (if mergeable o e then
       (es_put p (es_with_range e (es_start o) (es_end e)) ;;; update_extent_state p ;;;
        io_remove q ;;; btrfs_free_extent_state q)%act else ret tt) w).
  { unfold merge_prev. rewrite (run_prev _ _ _ _ _ _ (io_seq _ _ _ Hok0)).
    rewrite last_snoc. simpl. erewrite run_get by done. erewrite run_get by done.
    by rewrite mergeable_test. }
  unfold bind. rewrite Hm. destruct (mergeable o e); [|by exists w].
  rewrite run_put_update. fold (resized e (es_start o) (es_end e)).
  set (h := <[p := _]> _).
  destruct (run_remove (with_heap w h) (rev R) q o ((p, e) :: B)
    (fun _ => btrfs_free_extent_state q) (io_seq _ _ _ Hok)) as (t & -> & Ht).
  pose proof (io_ok_ne _ _ _ _ _ _ Hok) as (_ & Hq & _).
  assert (Hqp : q <> p) by (intros ->; apply Hq; left).
  unfold btrfs_free_extent_state. erewrite run_get by (simpl; unfold h; by rewrite lookup_insert_ne).
  destruct Ho as (_ & Hr & _). rewrite Hr. rewrite run_put. simpl.
  eexists. split; [reflexivity|]. split; [|done].
  rewrite delete_insert_eq. unfold h. rewrite delete_insert_ne by done.
  assert (Hd : io_ok (with_heap (with_tree w t) (delete q (iw_heap w))) pre (rev R ++ (p, e) :: B)).
  { eapply io_ok_drop; [done|done|].
    pose proof (io_segs _ _ _ Hok) as Hg. rewrite !fmap_app in Hg |- *.
    apply segs_ok_app in Hg as [? (Hx & ? & Hg)]. apply segs_ok_app. split; [done|].
    eapply segs_ok_weaken; [|done]. destruct Hx as (_&_&_&?&_). lia. }
  apply (io_ok_put _ _ _ _ _ (resized e (es_start o) (es_end e)) _ Hd).
  rewrite fmap_app. simpl. pose proof (io_segs _ _ _ Hok0) as Hg.
  rewrite fmap_app in Hg. simpl in Hg. by apply HL.
Qed.

Lemma merge_next_spec {X} w pre A p e B (k : unit -> act (io_world T) X) :
  io_ok w pre (A ++ (p, e) :: B) ->
  exists w', bind (merge_next p) k w = k tt w' /\ io_ok w' pre (A ++ merge_right p e B) /\
    iw_mallocs w' = iw_mallocs w.
Proof.
  intros Hok. pose proof (io_seg _ _ _ _ _ _ Hok) as [He Hlk].
  destruct B as [|[q o] B].
  { exists w. split; [|done]. unfold merge_next, bind at 1.
    by rewrite (run_next _ _ _ _ _ _ (io_seq _ _ _ Hok)). }
  pose proof Hok as Hok'. rewrite (cons_middle (p, e)), (assoc_L (++)) in Hok'.
  pose proof (io_seg _ _ _ _ _ _ Hok') as [Ho Hlq].
  assert (Hm : merge_next p w = (if mergeable e o then
       (es_put q (es_with_range o (es_start e) (es_end o)) ;;; update_extent_state q ;;;
        io_remove p ;;; btrfs_free_extent_state p)%act else ret tt) w).
  { unfold merge_next. rewrite (run_next _ _ _ _ _ _ (io_seq _ _ _ Hok)). simpl.
    erewrite run_get by done. erewrite run_get by done. by rewrite mergeable_test'. }
  pose proof (merge_right_ok (segs_end 0 A.*2) p e ((q, o) :: B)) as HR.
  unfold bind. rewrite Hm. simpl in *. destruct (mergeable e o); [|by exists w].
  rewrite run_put_update. fold (resized o (es_start e) (es_end o)). set (h := <[q := _]> _).
  destruct (run_remove (with_heap w h) A p e ((q, o) :: B)
    (fun _ => btrfs_free_extent_state p) (io_seq _ _ _ Hok)) as (t & -> & Ht).
  pose proof (io_ok_ne _ _ _ _ _ _ Hok) as (_ & Hp & _).
  assert (Hqp : p <> q) by (intros ->; apply Hp; left).
  unfold btrfs_free_extent_state. erewrite run_get by (simpl; unfold h; by rewrite lookup_insert_ne).
  destruct He as (_ & Hr & _ & Hrng & _). rewrite Hr. rewrite run_put. simpl.
  eexists. split; [reflexivity|]. split; [|done].
  rewrite delete_insert_eq. unfold h. rewrite delete_insert_ne by done.
  assert (Hg : segs_ok 0 (A.*2 ++ e :: o :: B.*2))
    by (pose proof (io_segs _ _ _ Hok) as Hg; by rewrite fmap_app in Hg).
  apply segs_ok_app in Hg as [HgA Hg].
  assert (Hd : io_ok (with_heap (with_tree w t) (delete p (iw_heap w))) pre (A ++ (q, o) :: B)).
  { eapply io_ok_drop; [done|done|]. rewrite fmap_app. apply segs_ok_app. split; [done|].
    eapply segs_ok_weaken; [|apply Hg]. destruct Hg as (_ & ? & _). lia. }
  apply (io_ok_put _ _ _ _ _ (resized o (es_start e) (es_end o)) _ Hd).
  rewrite fmap_app. apply segs_ok_app. split; [done|]. by apply HR.
Qed.

Lemma merge_state_spec {X} w pre A p e B (k : Z -> act (io_world T) X) :
  io_ok w pre (A ++ (p, e) :: B) ->
  exists w', bind (merge_state p) k w = k 0 w' /\ io_ok w' pre (merge_list A p e B) /\
    iw_mallocs w' = iw_mallocs w.
Proof.
  intros Hok. pose proof (io_seg _ _ _ _ _ _ Hok) as [He Hlk].
  unfold merge_state, merge_list, bind at 1. erewrite run_get by done.
  destruct (negb _); [by exists w|].
  pose proof (merge_prev_spec w pre A p e B (fun _ => merge_next p ;;; ret 0)%act Hok) as Hp.
  destruct (merge_left A e) as [A' e']. destruct Hp as (w1 & -> & Hok1 & Hm1).
  destruct (merge_next_spec w1 pre A' p e' B (fun _ => ret 0) Hok1) as (w2 & -> & Hok2 & Hm2).
  exists w2. split_and!; [done|done|congruence].
Qed.

(** Insert a preallocated state at its place in the sequence. *)
Lemma io_insert_spec {X} w A B q f (k : Z -> act (io_world T) X) :
  rb_seq (iw_tree w) (A ++ B).*1 -> heap_is (iw_heap w) ((q, f) :: A ++ B) ->
  segs_ok 0 (A ++ (q, f) :: B).*2 ->
  (forall p, p ∈ ((q, f) :: A ++ B).*1 -> (p < iw_next w)%positive) ->
  exists w', bind (io_insert q) k w = k 0 w' /\ io_ok w' [] (A ++ (q, f) :: B) /\
    iw_mallocs w' = iw_mallocs w.
Proof.
  intros Hs Hh Hg Hn. rewrite fmap_app in Hs. rewrite fmap_app in Hg. simpl in Hg.
  assert (Hlk : forall p e, (p, e) ∈ (q, f) :: A ++ B -> io_nodes w p = Some (es_node e)).
  { intros p e Hp. unfold io_nodes. by rewrite (heap_is_lookup _ _ _ _ Hh Hp). }
  assert (Hv : forall C, C ⊆ A ++ B -> views (io_nodes w) C.*1 (es_node <$> C.*2)).
  { intros C HC. apply Forall2_fmap_l, Forall2_fmap_r, Forall2_fmap_r, Forall_Forall2_diag.
    apply Forall_forall. intros [p e] Hp. apply Hlk. right. by apply HC. }
  assert (Hq : q ∉ A.*1 ++ B.*1).
  { destruct Hh as [Hnd _]. rewrite fmap_cons, fmap_app in Hnd. by apply NoDup_cons in Hnd as [Hq _]. }
  destruct (insert_cache_extent_split (iw_tree w) (io_nodes w) A.*1 B.*1
              (es_node <$> A.*2) (es_node <$> B.*2) q (es_node f)) as (t & Hi & Ht).
  - done.
  - apply Hv. set_solver.
  - apply Hv. set_solver.
  - done.
  - apply Hlk. left.
  - change (es_node f :: (es_node <$> B.*2)) with (es_node <$> (f :: B.*2)).
    rewrite <- fmap_app. by apply segs_ranges.
  - exists (with_tree w t). split_and!; [|split; simpl|done].
    + unfold io_insert, bind, deref. by rewrite Hi.
    + by rewrite fmap_app.
    + eapply heap_is_perm, Hh. apply Permutation_middle.
    + by rewrite fmap_app.
    + intros p Hp. apply Hn. rewrite fmap_app in Hp. rewrite fmap_cons, fmap_app. set_solver.
Qed.

Definition fresh_state (f : extent_state) : Prop :=
  ce_objectid (es_node f) = 0 /\ es_refs f = 1 /\ es_state f = 0.

(** A new state with the range and flags [insert_state] gives it. *)
Definition placed (f : extent_state) (start last v : Z) : extent_state :=
  updated_extent_state (es_with_range (es_with_state f v) start last).

Lemma seg_ok_placed f start last v :
  fresh_state f -> 0 <= start <= last -> last < U64_MAX -> 0 <= v < 2 ^ 64 ->
  seg_ok (placed f start last v).
Proof.
  unfold fresh_state, seg_ok, placed, U64_MAX. simpl. intros (-> & -> & _) ???.
  split_and!; [|lia..]. simpl. by rewrite u64_id by lia.
Qed.

Lemma insert_state_spec {X} w A B q f start last bits (k : Z -> act (io_world T) X) :
  io_ok w [(q, f)] (A ++ B) -> fresh_state f -> 0 <= bits < 2 ^ 31 ->
  0 <= start <= last -> last < U64_MAX ->
  segs_end 0 A.*2 <= start -> segs_ok (last + 1) B.*2 ->
  exists w', bind (insert_state q start last bits) k w = k 0 w' /\
    io_ok w' [] (merge_list A q (placed f start last bits) B) /\
    iw_mallocs w' = iw_mallocs w.
Proof.
  intros Hok Hf Hb Hr Hl HA HB. pose proof Hok as [Hs Hh Hg Hn].
  assert (Hlk : iw_heap w !! q = Some f) by (eapply io_lookup; [done|set_solver]).
  unfold insert_state, bind at 1. rewrite (proj2 (Z.ltb_ge _ _)) by lia.
  unfold bind at 1. simpl. erewrite run_get by done. rewrite run_put_update.
  replace (Z.lor (es_state f) (u64 bits)) with bits
    by (destruct Hf as (_ & _ & ->); by rewrite u64_id by lia).
  fold (placed f start last bits). set (g := placed f start last bits).
  assert (Hgok : seg_ok g) by (apply seg_ok_placed; [done|lia..]).
  destruct (io_insert_spec (with_heap w (<[q := g]> (iw_heap w))) A B q g
    (fun r => bug_on (negb (r =? 0)) ;;; merge_state q ;;; ret 0)%act) as (w1 & -> & Hok1 & Hm1).
  - done.
  - by eapply heap_is_update.
  - rewrite fmap_app in Hg |- *. apply segs_ok_app in Hg as [HgA _]. apply segs_ok_app.
    split; [done|]. simpl. split_and!; [done|done|done].
  - done.
  - unfold bind at 1. simpl.
    destruct (merge_state_spec w1 [] A q g B (fun _ => ret 0) Hok1) as (w2 & -> & Hok2 & Hm2).
    exists w2. split_and!; [done|done|]. rewrite Hm2, Hm1. done.
Qed.

(** The two halves [split_state] makes of a state. *)
Definition split_low (f e : extent_state) (split : Z) : extent_state :=
  placed f (es_start e) (split - 1) (es_state e).
Definition split_high (e : extent_state) (split : Z) : extent_state :=
  resized e split (es_end e).

Lemma split_state_spec {X} w A p e B q f split (k : Z -> act (io_world T) X) :
  io_ok w [(q, f)] (A ++ (p, e) :: B) -> fresh_state f ->
  es_start e < split <= es_end e ->
  exists w', bind (split_state p q split) k w = k 0 w' /\
    io_ok w' [] (A ++ (q, split_low f e split) :: (p, split_high e split) :: B) /\
    iw_mallocs w' = iw_mallocs w.
Proof.
  intros Hok Hf Hsp. pose proof Hok as [Hs Hh Hg Hn].
  pose proof (io_seg _ _ _ _ _ _ Hok) as [He Hlp]. pose proof He as (_ & _ & Hv & Hr & Hl).
  assert (Hlq : iw_heap w !! q = Some f) by (eapply io_lookup; [done|set_solver]).
  assert (Hpq : p <> q).
  { pose proof (io_ok_ne _ _ _ _ _ _ Hok) as (_ & _ & Hne). set_solver. }
  unfold split_state, bind at 1. erewrite run_get by done. erewrite run_get by done.
  rewrite run_put_update. rewrite run_put_update.
  unfold U64_MAX in *. rewrite u64_id by lia.
  set (lo := updated_extent_state (es_with_state _ _)).
  change lo with (split_low f e split).
  change (updated_extent_state (es_with_range e split (es_end e))) with (split_high e split).
  assert (Hlo : seg_ok (split_low f e split)) by (apply seg_ok_placed; unfold U64_MAX; [done|lia..]).
  assert (Hhi : seg_ok (split_high e split)) by (apply seg_ok_resized; unfold U64_MAX; [done|lia..]).
  simpl. set (h := <[p := _]> _).
  destruct (io_insert_spec (with_heap w h) A ((p, split_high e split) :: B) q
    (split_low f e split) (fun r => bug_on (negb (r =? 0)) ;;; ret 0)%act)
    as (w1 & Hw1 & Hok1 & Hm1).
  - simpl. rewrite fmap_app in Hs |- *. done.
  - simpl. unfold h. rewrite app_comm_cons. apply (heap_is_update_at _ _ _ _ e).
    apply (heap_is_update _ _ _ f). done.
  - rewrite fmap_app in Hg |- *. apply segs_ok_app in Hg as [HgA (_ & Hle & HgB)].
    apply segs_ok_app. split; [done|]. simpl. split_and!; try done. lia.
  - intros r Hr'. apply Hn. rewrite fmap_cons, fmap_app in Hr'. rewrite fmap_app, fmap_app. set_solver.
  - exists w1. change (with_heap (with_heap w _) h) with (with_heap w h). rewrite Hw1. done.
Qed.

Lemma clear_bits_state e bits :
  0 <= es_state e < 2 ^ 64 -> 0 <= bits < 2 ^ 31 ->
  Z.land (es_state e) (u64 (Z.lnot bits)) = Z.ldiff (es_state e) bits.
Proof.
  intros Hv Hb. unfold u64. rewrite <- Z.land_ones, Z.land_assoc by lia.
  rewrite <- (Z.land_assoc _ (Z.lnot bits)), (Z.land_comm (Z.lnot bits)), Z.land_assoc.
  rewrite Z.land_ones, Z.mod_small by lia. by rewrite Z.ldiff_land.
Qed.

(** [clear_state_bit] clears the bits of one state, and drops it when none is left. *)
Definition cleared_list A p e B bits : list seg :=
  let v := Z.ldiff (es_state e) bits in
  if v =? 0 then A ++ B else merge_list A p (es_with_state e v) B.

Lemma clear_state_bit_spec {X} w pre A p e B bits (k : Z -> act (io_world T) X) :
  io_ok w pre (A ++ (p, e) :: B) -> 0 <= bits < 2 ^ 31 ->
  exists w', bind (clear_state_bit p bits) k w = k (Z.land (es_state e) bits) w' /\
    io_ok w' pre (cleared_list A p e B bits) /\
    iw_mallocs w' = iw_mallocs w.
Proof.
  intros Hok Hb. pose proof (io_seg _ _ _ _ _ _ Hok) as [He Hlp].
  pose proof He as (_ & Hrf & Hv & Hr & Hl).
  unfold clear_state_bit, bind at 1. erewrite run_get by done. rewrite run_put.
  rewrite clear_bits_state by done. rewrite u64_id by lia.
  assert (Hland : 0 <= Z.land (es_state e) bits < 2 ^ 31).
  { pose proof (land_bounds (es_state e) bits). lia. }
  rewrite s32_id by lia. unfold cleared_list.
  set (v := Z.ldiff (es_state e) bits).
  assert (Hv' : 0 <= v < 2 ^ 64).
  { pose proof (ldiff_bounds (es_state e) bits). unfold v. lia. }
  assert (Hok' : io_ok (with_heap w (<[p := es_with_state e v]> (iw_heap w))) pre
                   (A ++ (p, es_with_state e v) :: B)).
  { apply (io_ok_put _ _ _ _ _ (es_with_state e v) _ Hok).
    pose proof (io_segs _ _ _ Hok) as Hg. rewrite fmap_app in Hg |- *.
    apply segs_ok_app in Hg as [? Hg]. apply segs_ok_app. split; [done|]. simpl in *.
    destruct Hg as (Hx & ? & ?). split_and!; try done. unfold seg_ok in *. simpl. tauto. }
  set (w0 := with_heap w _) in *. destruct (Z.eqb_spec v 0) as [Hz|Hz].
  - destruct (run_remove w0 A p (es_with_state e v) B
      (fun _ => btrfs_free_extent_state p) (io_seq _ _ _ Hok')) as (t & Hrm & Ht).
    exists (with_heap (with_tree w0 t) (delete p (iw_heap w0))). split_and!; [|eapply io_ok_drop; [exact Hok'|exact Ht|]|done].
    + unfold bind in Hrm. unfold bind at 1. unfold bind at 1. rewrite Hrm.
      pose proof (run_free (X := unit) (with_tree w0 t) p (es_with_state e v) ret) as Hfr.
      assert (bind (btrfs_free_extent_state p) (@ret (io_world T) unit) (with_tree w0 t) =
              btrfs_free_extent_state p (with_tree w0 t)) as Hid.
      { unfold bind. destruct (btrfs_free_extent_state p _) as [[[] ?]|]; done. }
      rewrite Hid in Hfr. rewrite Hfr; [done| |done]. simpl. by rewrite lookup_insert_eq.
    + pose proof (io_segs _ _ _ Hok) as Hg. rewrite fmap_app in Hg |- *.
      simpl in Hg. apply segs_ok_app in Hg as [? (?&?&Hg)]. apply segs_ok_app. split; [done|].
      eapply segs_ok_weaken; [|done]. lia.
  - destruct (merge_state_spec w0 pre A p (es_with_state e v) B (fun _ => ret tt) Hok')
      as (w1 & Hw1 & Hok1 & Hm1).
    exists w1. split_and!; [|done|by rewrite Hm1].
    unfold bind in Hw1. unfold bind at 1. unfold bind at 1. rewrite Hw1. done.
Qed.
End Primitives.
