(* ===== verification/ExtentIoSpec.v ===== *)
(** What [set_extent_bits], [clear_extent_bits] and the queries of the extent
    state tree do, byte by byte. *)

From S2P Require Import Prelude RbSpec ExtentCache ExtentIo ExtentIoInv.

(** ** The effect on the flags of each byte *)

(** The state that covers [last] and the byte after it. *)
Definition straddle (l : list extent_state) (last : Z) : option extent_state :=
  match seg_at l last with
  | Some e => if last <? es_end e then Some e else None
  | None => None
  end.

(** [set_extent_bits] sets the bits on [start .. last] up to the state that
    straddles [last]; from there on it sets them on the part of that state
    after [last] instead. *)
Definition set_from (l : list extent_state) (start last : Z) : Z :=
  match straddle l last with Some e => Z.max (es_start e) start | None => last + 1 end.
Definition set_to (l : list extent_state) (last : Z) : Z :=
  match straddle l last with Some e => es_end e | None => last end.

Definition set_result (l : list extent_state) (start last bits x : Z) : Z :=
  if ((start <=? x) && (x <? set_from l start last)) || ((last <? x) && (x <=? set_to l last))
  then Z.lor (flag_of l x) bits else flag_of l x.

(** A pass of the loop that goes on from [s']. *)
Definition advanced (start s' last bits : Z) (l l' : list extent_state) : Prop :=
  (forall x, flag_of l' x = if (start <=? x) && (x <? s') then Z.lor (flag_of l x) bits else flag_of l x) /\
  (s' <= last -> set_from l' s' last = set_from l start last /\ set_to l' last = set_to l last) /\
  (last < s' -> s' = last + 1 /\ straddle l last = None).

(** Work left from [s], the measure of the loops. *)
Fixpoint todo (s : Z) (l : list extent_state) : nat :=
  match l with
  | [] => 0
  | e :: l' =>
      if es_end e <? s then todo s l'
      else 3 * length l + (if es_start e =? s then 0 else if es_start e <? s then 1 else 2)
  end.

Lemma todo_le s l : (todo s l <= 3 * length l + 2)%nat.
Proof. induction l as [|e l IH]; simpl; [lia|]. zcase; simpl in *; lia. Qed.

Lemma todo_skip lo s l1 l2 : segs_ok lo l1 -> segs_end lo l1 <= s -> todo s (l1 ++ l2) = todo s l2.
Proof.
  revert lo. induction l1 as [|e l1 IH]; intros lo; simpl; [done|].
  intros (_ & _ & Hl) Hs. pose proof (segs_end_ge _ _ Hl).
  rewrite (proj2 (Z.ltb_lt _ _)) by lia. eauto.
Qed.

(** The part of a merged sequence that starts with the merged state: the state
    itself, or its right neighbour with a lower start. *)
Inductive merged_tail (p : ptr) (e : extent_state) (B : list seg) : list seg -> Prop :=
| tail_same e' : es_end e' = es_end e -> merged_tail p e B ((p, e') :: B)
| tail_merged q o B' s :
    B = (q, o) :: B' -> s <= es_end e -> es_start o = es_end e + 1 ->
    merged_tail p e B ((q, resized o s (es_end o)) :: B').

Lemma merge_list_tail A p e B :
  segs_ok 0 (A.*2 ++ e :: B.*2) ->
  exists A' X, merge_list A p e B = A' ++ X /\ merged_tail p e B X.
Proof.
  intros Hok. unfold merge_list. destruct (negb _).
  { exists A, ((p, e) :: B). split; [done|]. by constructor. }
  pose proof (merge_left_ok A e B.*2 Hok) as HL. destruct (merge_left A e) as [A' e'].
  destruct HL as (Hok' & He & Hst & Hv & _). exists A', (merge_right p e' B). split; [done|].
  apply segs_ok_app in Hok' as [_ ((_&_&_&?&_) & _)].
  unfold merge_right. destruct B as [|[q o] B']; [by constructor|].
  destruct (mergeable e' o) eqn:Hm; [|by constructor].
  unfold mergeable in Hm. apply andb_true_iff in Hm as [H1%Z.eqb_eq _].
  econstructor; [done|lia|lia].
Qed.

(** [simpl] unfolds the projection of the sequence; fold it again. *)
Ltac ssimpl := simpl in *;
  change (list_fmap seg extent_state snd) with (fmap (M := list) (@snd ptr extent_state)) in *.

(** Above the merged state, the sequence covers the same bytes up to the same
    ends, with the same starts from there on. *)
Lemma merge_list_above A p e B x :
  segs_ok 0 (A.*2 ++ e :: B.*2) -> es_end e < x ->
  match seg_at B.*2 x, seg_at (merge_list A p e B).*2 x with
  | Some o, Some o' => es_end o' = es_end o /\ es_start o = Z.max (es_start o') (es_end e + 1)
  | None, None => True
  | _, _ => False
  end.
Proof.
  intros Hok Hx. pose proof (merge_list_ok A p e B Hok) as [HM _].
  destruct (merge_list_tail A p e B Hok) as (A' & X & HeqM & HX).
  rewrite HeqM in HM |- *.
  rewrite fmap_app in HM |- *. rewrite (seg_at_app 0) by done.
  pose proof HM as HM'. apply segs_ok_app in HM as [HA HXok]. apply segs_ok_app in Hok as [_ HB].
  destruct HX as [e' He|q o B' s -> Hs Ho]; ssimpl.
  - destruct HXok as ((_&_&_&?&_) & ? & _).
    destruct (Z.ltb_spec x (segs_end 0 A'.*2)); [lia|].
    rewrite He. destruct (Z.leb_spec x (es_end e)); [lia|]. rewrite andb_false_r.
    destruct HB as (_ & _ & HB). destruct (seg_at B.*2 x) as [o|] eqn:Ho; [|done]. split; [done|].
    destruct (segs_ok_elem _ _ _ HB (seg_at_elem _ _ _ Ho)). lia.
  - destruct HXok as ((_&_&_&?&_) & ? & _). ssimpl.
    destruct (Z.ltb_spec x (segs_end 0 A'.*2)); [lia|].
    destruct HB as (_ & _ & Hok2 & _ & HB). pose proof Hok2 as (_&_&_&?&_).
    destruct (Z.leb_spec (es_start o) x), (Z.leb_spec s x), (Z.leb_spec x (es_end o)); simpl; try lia.
    destruct (seg_at B'.*2 x) as [o'|] eqn:Ho'; [|done]. split; [done|].
    destruct (segs_ok_elem _ _ _ HB (seg_at_elem _ _ _ Ho')). lia.
Qed.

Lemma todo_merge A p e B :
  segs_ok 0 (A.*2 ++ e :: B.*2) ->
  (todo (es_end e + 1) (merge_list A p e B).*2 <=
     3 * length B + match B with (_, o) :: _ => if (es_start o =? es_end e + 1)%Z then 1 else 2 | [] => 0 end)%nat.
Proof.
  intros Hok. pose proof (merge_list_ok A p e B Hok) as [HM _].
  destruct (merge_list_tail A p e B Hok) as (A' & X & HeqM & HX).
  rewrite HeqM in HM |- *.
  rewrite fmap_app in HM |- *. apply segs_ok_app in HM as [HA HXok].
  apply segs_ok_app in Hok as [_ (_ & _ & HB)].
  destruct HX as [e' He|q o B' s -> Hs Ho]; ssimpl.
  - destruct HXok as ((_&_&_&?&_) & ? & _). rewrite (todo_skip 0) by (done || lia). simpl.
    rewrite (proj2 (Z.ltb_lt _ _)) by lia. destruct B as [|[q o] B]; simpl; [lia|].
    destruct HB as ((_&_&_&?&_) & ? & _). ssimpl. rewrite ?length_fmap.
    rewrite (proj2 (Z.ltb_ge _ _)) by lia. zcase; lia.
  - destruct HXok as ((_&_&_&?&_) & ? & _). ssimpl.
    destruct HB as ((_&_&_&?&_) & ? & _).
    rewrite (todo_skip 0) by (done || lia). ssimpl. rewrite ?length_fmap.
    rewrite (proj2 (Z.ltb_ge _ _)) by lia. zcase; lia.
Qed.

(** The general step: a state [e] that ends in the range got the bits on
    [start .. es_end e], and was merged. *)
Lemma advance l A p e B start last bits :
  segs_ok 0 (A.*2 ++ e :: B.*2) ->
  (forall x, flag_of (A.*2 ++ e :: B.*2) x =
     if (start <=? x) && (x <? es_end e + 1) then Z.lor (flag_of l x) bits else flag_of l x) ->
  (forall x, es_end e < x -> seg_at l x = seg_at B.*2 x) ->
  (forall o, seg_at l (es_end e) = Some o -> es_end o <= es_end e) ->
  start <= es_end e <= last ->
  advanced start (es_end e + 1) last bits l (merge_list A p e B).*2.
Proof.
  intros Hok Hfl Hab Hend Hle. pose proof (merge_list_ok A p e B Hok) as [HM HMf].
  split_and!.
  - intros x. by rewrite HMf, Hfl.
  - intros Hl. pose proof (merge_list_above A p e B last Hok ltac:(lia)) as Ha.
    unfold set_from, set_to, straddle. rewrite (Hab last) by lia.
    apply segs_ok_app in Hok as [_ (_ & _ & HB)].
    destruct (seg_at B.*2 last) as [o|], (seg_at (merge_list A p e B).*2 last) as [o'|]; try done.
    destruct Ha as [He1 He2]. rewrite He1. destruct (last <? es_end o); [|done]. split; lia.
  - intros Hl. assert (es_end e = last) as Heq by lia. rewrite Heq in *. split; [done|].
    unfold straddle. destruct (seg_at l last) as [o|] eqn:Ho; [|done].
    specialize (Hend o eq_refl). by rewrite (proj2 (Z.ltb_ge _ _)) by lia.
Qed.

(** ** Flags after the elementary changes *)

Lemma flag_set_state A e B v x :
  segs_ok 0 (A ++ e :: B) -> segs_ok 0 (A ++ es_with_state e v :: B) ->
  flag_of (A ++ es_with_state e v :: B) x =
    if (es_start e <=? x) && (x <? es_end e + 1) then v else flag_of (A ++ e :: B) x.
Proof.
  intros H1 H2. unfold flag_of.
  rewrite (seg_at_cons_app 0 _ _ _ _ H1), (seg_at_cons_app 0 _ _ _ _ H2). simpl.
  destruct (Z.ltb_spec x (es_start e)), (Z.leb_spec x (es_end e)), (Z.leb_spec (es_start e) x),
    (Z.ltb_spec x (es_end e + 1)); simpl; (lia || done).
Qed.

Lemma flag_inside A e B x :
  segs_ok 0 (A ++ e :: B) -> es_start e <= x <= es_end e -> flag_of (A ++ e :: B) x = es_state e.
Proof.
  intros Hok Hx. unfold flag_of. rewrite (seg_at_cons_app 0) by done.
  rewrite (proj2 (Z.ltb_ge _ _)), (proj2 (Z.leb_le _ _)) by lia. done.
Qed.

Lemma flag_split A e B f split x :
  segs_ok 0 (A ++ e :: B) ->
  segs_ok 0 (A ++ split_low f e split :: split_high e split :: B) ->
  es_start e < split <= es_end e ->
  flag_of (A ++ split_low f e split :: split_high e split :: B) x = flag_of (A ++ e :: B) x.
Proof.
  intros H1 H2 Hs. unfold flag_of.
  rewrite (seg_at_cons_app 0 _ _ _ _ H1), (seg_at_cons_app 0 _ _ _ _ H2). simpl.
  destruct (Z.ltb_spec x (es_start e)), (Z.leb_spec x (split - 1)), (Z.leb_spec x (es_end e)),
    (Z.leb_spec split x); simpl; (lia || done).
Qed.

Lemma flag_insert A g B x :
  segs_ok 0 (A ++ g :: B) ->
  flag_of (A ++ g :: B) x =
    if (es_start g <=? x) && (x <? es_end g + 1) then es_state g else flag_of (A ++ B) x.
Proof.
  intros Hok. pose proof Hok as Hok1. apply segs_ok_app in Hok1 as [HA ((_&_&_&?&_) & ? & HB)].
  assert (Hok2 : segs_ok 0 (A ++ B)).
  { apply segs_ok_app. split; [done|]. eapply segs_ok_weaken; [|done]. lia. }
  unfold flag_of. rewrite (seg_at_cons_app 0 _ _ _ _ Hok), (seg_at_app 0 _ _ _ Hok2).
  destruct (Z.ltb_spec x (es_start g)), (Z.leb_spec x (es_end g)), (Z.leb_spec (es_start g) x),
    (Z.ltb_spec x (es_end g + 1)), (Z.ltb_spec x (segs_end 0 A)); simpl; (lia || done || idtac).
  - by rewrite (seg_at_none_above 0) by (done || lia);
      rewrite (seg_at_none_below (es_end g + 1)) by (done || lia).
Qed.

(** Bytes no state covers have no flags. *)
Lemma flag_hole A B x :
  segs_ok 0 (A ++ B) -> segs_end 0 A <= x ->
  match B with [] => True | e :: _ => x < es_start e end -> flag_of (A ++ B) x = 0.
Proof.
  intros Hok HA HB. unfold flag_of. rewrite (seg_at_app 0) by done.
  rewrite (proj2 (Z.ltb_ge _ _)) by lia. destruct B as [|e B]; [done|].
  apply segs_ok_app in Hok as [_ (He & _ & HB')].
  rewrite (seg_at_none_below (es_start e)); [done| |done]. simpl. split_and!; [done|lia|done].
Qed.

Section Spec.
Context {T : Type} `{RbTreeLaws T}.
Implicit Types (w : io_world T) (A B L pre : list seg).

(** ** Searching and allocating *)

Lemma seg_split L start :
  segs_ok 0 L.*2 -> 0 <= start ->
  exists A B, L = A ++ B /\ segs_end 0 A.*2 <= start /\
    match B with (_, e) :: _ => start <= es_end e | [] => True end.
Proof.
  generalize 0. induction L as [|[p e] L IH]; intros lo; ssimpl.
  { exists [], []. done. }
  intros (_ & _ & Hl) Hs. destruct (Z.le_gt_cases start (es_end e)).
  - exists [], ((p, e) :: L). done.
  - destruct (IH _ Hl ltac:(lia)) as (A & B & -> & HA & HB). exists ((p, e) :: A), B. done.
Qed.

Lemma run_search {X} w pre A B start (k : option ptr -> act (io_world T) X) :
  io_ok w pre (A ++ B) -> 0 <= start < U64_MAX -> segs_end 0 A.*2 <= start ->
  match B with (_, e) :: _ => start <= es_end e | [] => True end ->
  bind (io_search start) k w = k (fst <$> head B) w.
Proof.
  intros [Hs Hh Hg Hn] Hst HA HB. rewrite fmap_app in Hs. rewrite fmap_app in Hg.
  pose proof Hg as Hg'. apply segs_ok_app in Hg' as [HgA _].
  unfold io_search, bind, deref.
  rewrite (search_cache_extent_split (iw_tree w) (io_nodes w) A.*1 B.*1
             (es_node <$> A.*2) (es_node <$> B.*2)); [by destruct B|split|..].
  - done.
  - rewrite <- !fmap_app. apply Forall2_fmap_l, Forall2_fmap_r, Forall2_fmap_r, Forall_Forall2_diag.
    apply Forall_forall. intros [p e] Hp. unfold io_nodes. simpl.
    by rewrite (heap_is_lookup _ _ p e Hh) by set_solver.
  - rewrite <- fmap_app. by apply segs_ranges.
  - by rewrite !length_fmap.
  - unfold U64_MAX in Hst. lia.
  - by rewrite ranges_end_segs.
  - destruct B as [|[p e] B]; [done|]. apply segs_ok_app in Hg as [_ ((Hnd & _) & _)].
    simpl. simpl in Hnd. unfold ce_end. rewrite Hnd. simpl. lia.
Qed.

(** What the loops know of their spare state. *)
Definition pre_ok (prealloc : option ptr) pre : Prop :=
  match prealloc, pre with
  | Some q, [(q', f)] => q = q' /\ fresh_state f
  | None, [] => True
  | _, _ => False
  end.

Lemma run_prealloc {X} w pre L prealloc (k : option ptr -> act (io_world T) X) :
  io_ok w pre L -> pre_ok prealloc pre ->
  (prealloc = None /\ iw_mallocs w = O /\ bind (get_prealloc prealloc) k w = k None w) \/
  exists q f w', bind (get_prealloc prealloc) k w = k (Some q) w' /\
    io_ok w' [(q, f)] L /\ fresh_state f /\ (iw_mallocs w <= S (iw_mallocs w'))%nat.
Proof.
  intros Hok Hp. unfold get_prealloc. destruct prealloc as [q|].
  { right. destruct pre as [|[q' f] [|]]; try done. destruct Hp as [-> Hf].
    exists q', f, w. split_and!; try done. lia. }
  destruct pre; [|done]. unfold bind, alloc_extent_state.
  destruct (iw_mallocs w) as [|n] eqn:Hm; [by left|right].
  eexists (iw_next w), (ExtentState (CacheExtent 0 0 0) 0 0 1 0 0), _. split; [reflexivity|].
  destruct Hok as [Hs Hh Hg Hn].
  assert (Hq : iw_next w ∉ L.*1).
  { intros Hq. specialize (Hn _ Hq). lia. }
  split; [|split; [by repeat split|simpl; lia]]. split; simpl; [done| |done|].
  - by apply heap_is_insert.
  - intros p [->|Hp']%elem_of_cons; [lia|]. specialize (Hn _ Hp'). lia.
Qed.

Lemma run_free_prealloc {X} w pre L prealloc (k : unit -> act (io_world T) X) :
  io_ok w pre L -> pre_ok prealloc pre ->
  exists w', bind (free_prealloc prealloc) k w = k tt w' /\ io_ok w' [] L /\
    iw_mallocs w' = iw_mallocs w.
Proof.
  intros Hok Hp. destruct prealloc as [q|], pre as [|[q' f] [|]]; try done; [|by exists w].
  destruct Hp as [-> (_ & Hr & _)].
  exists (with_heap w (delete q' (iw_heap w))). split_and!; [|split; simpl|done].
  - eapply run_free; [|done]. eapply io_lookup; [done|set_solver].
  - apply Hok.
  - eapply heap_is_delete. apply Hok.
  - apply Hok.
  - intros p Hin. apply Hok. simpl. by right.
Qed.

(** ** One pass of [set_extent_bits] *)

Definition set_pass_ok (n : nat) L start last bits (j : jump) (w' : io_world T) : Prop :=
  match j with
  | Return _ => False
  | Out p => exists pre' L', pre_ok p pre' /\ io_ok w' pre' L' /\
      forall x, flag_of L'.*2 x = set_result L.*2 start last bits x
  | SearchAgain p s' => exists pre' L', pre_ok p pre' /\ io_ok w' pre' L' /\
      advanced start s' last bits L.*2 L'.*2 /\ start <= s' /\
      (s' <= last -> (todo s' L'.*2 < todo start L.*2)%nat) /\ (n <= iw_mallocs w')%nat
  end.

(** A state with more bits. *)
Lemma io_ok_set_bits w pre A p e B bits :
  io_ok w pre (A ++ (p, e) :: B) -> 0 <= bits < 2 ^ 31 ->
  let e' := es_with_state e (Z.lor (es_state e) (u64 bits)) in
  io_ok (with_heap w (<[p := e']> (iw_heap w))) pre (A ++ (p, e') :: B).
Proof.
  intros Hok Hb e'. apply (io_ok_put _ _ _ _ _ e' _ Hok).
  pose proof (io_segs _ _ _ Hok) as Hg. rewrite fmap_app in Hg |- *.
  apply segs_ok_app in Hg as [? (Hx & ? & ?)]. apply segs_ok_app. split; [done|].
  ssimpl. split_and!; try done. unfold seg_ok in *. subst e'. simpl.
  rewrite u64_id by lia. pose proof (lor_bounds (es_state e) bits 64). intuition lia.
Qed.

Section SetPass.
Context (w : io_world T) (q : ptr) (f : extent_state) (A B : list seg) (start last bits : Z).
Hypotheses (Hok : io_ok w [(q, f)] (A ++ B)) (Hf : fresh_state f).
Hypotheses (Hr : 0 <= start <= last) (Hl : last < U64_MAX) (Hb : 0 <= bits < 2 ^ 31).
Hypothesis (HA : segs_end 0 A.*2 <= start).

Let post (j : jump) (w' : io_world T) : Prop := set_pass_ok (iw_mallocs w) (A ++ B) start last bits j w'.

(** Nothing at or after [start]: one new state to the end of the range. *)
Lemma set_pass_end :
  B = [] -> exists j w', set_extent_bits_pass (Some q) start last bits w = Some (j, w') /\ post j w'.
Proof using All.
  intros HB. subst B. unfold set_extent_bits_pass. unfold bind at 1. simpl.
  erewrite (run_search w _ A []) by (done || lia). simpl.
  destruct (insert_state_spec w A [] q f start last bits
    (fun err => bug_on (err =? - EEXIST) ;;; ret (Out None))%act) as (w1 & Hw & Hok1 & Hm1);
    [done..|].
  exists (Out None), w1. split; [by rewrite Hw|].
  exists [], (merge_list A q (placed f start last bits) []). split_and!; [done|done|].
  pose proof (io_segs _ _ _ Hok) as Hg. rewrite app_nil_r in Hg |- *.
  set (g := placed f start last bits).
  assert (Hg' : segs_ok 0 (A.*2 ++ g :: [])).
  { apply segs_ok_app. split; [done|]. simpl. split_and!; [|done|done].
    apply seg_ok_placed; [done|lia..]. }
  destruct (merge_list_ok A q g [] Hg') as [_ HM]. intros x. rewrite HM.
  rewrite flag_insert by done. rewrite app_nil_r. simpl.
  unfold set_result, set_from, set_to, straddle.
  rewrite (seg_at_none_above 0 _ last) by (done || lia).
  destruct (Z.leb_spec start x), (Z.ltb_spec x (last + 1)), (Z.ltb_spec last x), (Z.leb_spec x last);
    simpl; try lia; try done.
  rewrite <- (app_nil_r A.*2), flag_hole; [done|by rewrite app_nil_r|lia|done].
Qed.

(** The state found starts at [start] and ends in the range. *)
Lemma set_pass_inside p e B' :
  B = (p, e) :: B' -> es_start e = start -> es_end e <= last ->
  exists j w', set_extent_bits_pass (Some q) start last bits w = Some (j, w') /\ post j w'.
Proof using All.
  intros HB Hs He. subst B. pose proof (io_seg _ _ _ _ _ _ Hok) as [Hseg Hlk].
  pose proof Hseg as (_ & _ & _ & Hse & Hee).
  unfold set_extent_bits_pass. unfold bind at 1. simpl.
  erewrite (run_search w _ A ((p, e) :: B')) by (done || lia). simpl.
  erewrite run_get by done.
  rewrite (proj2 (Z.eqb_eq _ _)), (proj2 (Z.leb_le _ _)) by done. simpl. rewrite run_put.
  pose proof (io_ok_set_bits w _ A p e B' bits Hok Hb) as Hok1. simpl in Hok1.
  set (e1 := es_with_state e (Z.lor (es_state e) (u64 bits))) in *.
  set (w1 := with_heap w _) in *.
  destruct (merge_state_spec w1 [(q, f)] A p e1 B' (fun _ => if es_end e =? U64_MAX then
    ret (Out (Some q)) else ret (SearchAgain (Some q) (u64 (es_end e + 1))))%act Hok1)
    as (w2 & Hw2 & Hok2 & Hm2).
  exists (SearchAgain (Some q) (es_end e + 1)), w2. split.
  { rewrite Hw2. rewrite (proj2 (Z.eqb_neq _ _)) by lia. unfold U64_MAX in *. by rewrite u64_id by lia. }
  pose proof (io_segs _ _ _ Hok) as Hg. pose proof (io_segs _ _ _ Hok1) as Hg1.
  rewrite fmap_app in Hg. rewrite fmap_app in Hg1. ssimpl.
  exists [(q, f)], (merge_list A p e1 B'). split_and!; [done|done|done| |lia| |].
  - rewrite fmap_app. ssimpl. apply (advance _ A p e1 B' start last bits Hg1).
    + intros x. rewrite (flag_set_state _ _ _ _ _ Hg Hg1). simpl. rewrite Hs.
      destruct (Z.leb_spec start x), (Z.ltb_spec x (es_end e + 1)); simpl; try done.
      rewrite u64_id by lia. by rewrite (flag_inside _ _ _ _ Hg) by lia.
    + simpl. intros x Hx. rewrite (seg_at_cons_app 0) by done.
      by rewrite (proj2 (Z.ltb_ge _ _)), (proj2 (Z.leb_gt _ _)) by lia.
    + simpl. intros o. rewrite (seg_at_cons_app 0) by done.
      rewrite (proj2 (Z.ltb_ge _ _)), (proj2 (Z.leb_le _ _)) by lia. intros [= <-]. lia.
    + simpl. lia.
  - pose proof (todo_merge A p e1 B' Hg1) as Ht. simpl in Ht.
    rewrite fmap_app. ssimpl. apply segs_ok_app in Hg as [HgA _].
    rewrite (todo_skip 0) by (done || lia). ssimpl.
    rewrite (proj2 (Z.ltb_ge _ _)) by lia. rewrite length_fmap.
    destruct B' as [|[q' o] ?]; simpl in *; [lia|]. destruct (_ =? _) in Ht; lia.
  - rewrite Hm2. simpl. lia.
Qed.

(** The state found starts after [start]: fill the hole. *)
Lemma set_pass_hole p e B' :
  B = (p, e) :: B' -> start < es_start e ->
  exists j w', set_extent_bits_pass (Some q) start last bits w = Some (j, w') /\ post j w'.
Proof using All.
  intros HB Hs. subst B. pose proof (io_seg _ _ _ _ _ _ Hok) as [Hseg Hlk].
  pose proof Hseg as (_ & _ & _ & Hse & Hee).
  unfold set_extent_bits_pass. unfold bind at 1. simpl.
  erewrite (run_search w _ A ((p, e) :: B')) by (done || lia). simpl.
  erewrite run_get by done.
  rewrite (proj2 (Z.eqb_neq _ _)) by lia. simpl.
  rewrite (proj2 (Z.ltb_ge (es_start e) _)), (proj2 (Z.ltb_lt _ _)) by lia.
  set (this_end := if last <? es_start e then last else es_start e - 1).
  assert (Hte : (if last <? es_start e then last else u64 (es_start e - 1)) = this_end).
  { unfold this_end, U64_MAX in *. zcase; [done|]. by rewrite u64_id by lia. }
  rewrite Hte. assert (Hrange : start <= this_end <= last /\ this_end < es_start e)
    by (unfold this_end; zcase; lia).
  pose proof (io_segs _ _ _ Hok) as Hg. rewrite fmap_app in Hg. ssimpl.
  pose proof Hg as Hg'. apply segs_ok_app in Hg' as [HgA (_ & HgE & HgB)].
  destruct (insert_state_spec w A ((p, e) :: B') q f start this_end bits
    (fun err => bug_on (err =? - EEXIST) ;;; (if negb (err =? 0) then ret (Out None)
       else ret (SearchAgain None (u64 (this_end + 1)))))%act) as (w1 & Hw & Hok1 & Hm1);
    [done..|lia|lia|done|ssimpl; split_and!; [done|lia|done]|].
  exists (SearchAgain None (this_end + 1)), w1. split.
  { rewrite Hw. unfold bind, U64_MAX in *. simpl. by rewrite u64_id by lia. }
  set (g := placed f start this_end bits) in *.
  assert (Hg1 : segs_ok 0 (A.*2 ++ g :: ((p, e) :: B').*2)).
  { apply segs_ok_app. split; [done|]. ssimpl. split_and!; [|done|done|lia|done].
    apply seg_ok_placed; [done|lia..]. }
  exists [], (merge_list A q g ((p, e) :: B')). split_and!; [done|done| |lia| |].
  - rewrite fmap_app. apply (advance _ A q g ((p, e) :: B') start last bits Hg1).
    + intros x. rewrite (flag_insert _ _ _ _ Hg1). simpl.
      destruct (Z.leb_spec start x), (Z.ltb_spec x (this_end + 1)); simpl; try done.
      rewrite (flag_hole A.*2); [done|done|lia|simpl; lia].
    + intros x Hx. rewrite (seg_at_app 0) by done. simpl in Hx.
      by rewrite (proj2 (Z.ltb_ge _ _)) by lia.
    + simpl. intros o. rewrite (seg_at_app 0) by done.
      rewrite (proj2 (Z.ltb_ge _ _)) by lia. ssimpl. intros Ho.
      rewrite (proj2 (Z.leb_gt (es_start e) _)) in Ho by lia. simpl in Ho.
      rewrite (seg_at_none_below (es_end e + 1)) in Ho; [done|done|lia].
    + simpl. lia.
  - pose proof (todo_merge A q g ((p, e) :: B') Hg1) as Ht. ssimpl.
    rewrite fmap_app. ssimpl. rewrite (todo_skip 0 start) by (done || lia). ssimpl.
    rewrite (proj2 (Z.ltb_ge _ _)) by lia. rewrite length_fmap.
    rewrite (proj2 (Z.eqb_neq (es_start e) start)), (proj2 (Z.ltb_ge (es_start e) start)) by lia.
    intros Hle. assert (this_end = es_start e - 1) as Hte2 by (unfold this_end in *; revert Hle; zcase; lia).
    destruct (Z.eqb_spec (es_start e) (this_end + 1)); lia.
  - rewrite Hm1. lia.
Qed.

(** The two halves of a split state keep the sequence in order. *)
Lemma split_ok p e B' split :
  B = (p, e) :: B' -> es_start e < split <= es_end e ->
  segs_ok 0 (A.*2 ++ e :: B'.*2) /\
  segs_ok 0 (A.*2 ++ split_low f e split :: split_high e split :: B'.*2).
Proof using All.
  intros HB Hs. subst B. pose proof (io_segs _ _ _ Hok) as Hg. rewrite fmap_app in Hg. ssimpl.
  split; [done|]. apply segs_ok_app in Hg as [HgA (He & ? & HgB)].
  pose proof He as (_ & _ & ? & ? & ?).
  apply segs_ok_app. split; [done|]. simpl. split_and!; [|done| |lia|done].
  - apply seg_ok_placed; [done|lia..].
  - apply seg_ok_resized; [done|lia..].
Qed.

(** The state found starts before [start] and ends in the range: split it and
    set the bits on its second half. *)
Lemma set_pass_split p e B' :
  B = (p, e) :: B' -> es_start e < start -> start <= es_end e <= last ->
  exists j w', set_extent_bits_pass (Some q) start last bits w = Some (j, w') /\ post j w'.
Proof using All.
  intros HB Hs He. destruct (split_ok p e B' start HB ltac:(lia)) as [Hg Hg2]. subst B.
  pose proof (io_seg _ _ _ _ _ _ Hok) as [Hseg Hlk]. pose proof Hseg as (_ & _ & _ & Hse & Hee).
  unfold set_extent_bits_pass. unfold bind at 1. simpl.
  erewrite (run_search w _ A ((p, e) :: B')) by (done || lia). simpl.
  erewrite run_get by done. rewrite (proj2 (Z.eqb_neq _ _)) by lia. simpl.
  rewrite (proj2 (Z.ltb_lt (es_start e) _)) by lia.
  destruct (split_state_spec w A p e B' q f start (fun err => bug_on (err =? - EEXIST) ;;;
        (if negb (err =? 0) then ret (Out None) else
         s <- es_get p ;;
         if es_end s <=? last then
           es_put p (es_with_state s (Z.lor (es_state s) (u64 bits))) ;;;
           merge_state p ;;;
           if es_end e =? U64_MAX then ret (Out None)
           else ret (SearchAgain None (u64 (es_end e + 1)))
         else ret (SearchAgain None (es_start s))))%act Hok Hf ltac:(lia)) as (w1 & Hw & Hok1 & Hm1).
  rewrite Hw. unfold bind at 1. simpl.
  rewrite (cons_middle (q, split_low f e start)), (assoc_L (++)) in Hok1.
  pose proof (io_seg _ _ _ _ _ _ Hok1) as [Hseg1 Hlk1].
  erewrite run_get by done. simpl. rewrite (proj2 (Z.leb_le _ _)) by lia. rewrite run_put.
  pose proof (io_ok_set_bits w1 _ _ p (split_high e start) B' bits Hok1 Hb) as Hok2. simpl in Hok2.
  set (e1 := es_with_state (split_high e start) _) in *.
  set (w2 := with_heap w1 _) in *. set (A2 := A ++ [(q, split_low f e start)]) in *.
  destruct (merge_state_spec w2 [] A2 p e1 B' (fun _ => if es_end e =? U64_MAX then
    ret (Out None) else ret (SearchAgain None (u64 (es_end e + 1))))%act Hok2)
    as (w3 & Hw3 & Hok3 & Hm3).
  exists (SearchAgain None (es_end e + 1)), w3. split.
  { rewrite Hw3. rewrite (proj2 (Z.eqb_neq _ _)) by lia. unfold U64_MAX in *. by rewrite u64_id by lia. }
  pose proof (io_segs _ _ _ Hok2) as Hg1. rewrite fmap_app in Hg1. ssimpl.
  assert (HA2 : forall x C, A2.*2 ++ x :: C = A.*2 ++ split_low f e start :: x :: C).
  { intros x C. unfold A2. rewrite fmap_app, <- (assoc_L (++)). done. }
  exists [], (merge_list A2 p e1 B'). split_and!; [done|done| |lia| |].
  - rewrite fmap_app. ssimpl. apply (advance _ A2 p e1 B' start last bits Hg1).
    + intros x. rewrite <- (flag_split A.*2 e B'.*2 f start) by (done || lia).
      rewrite <- HA2. rewrite <- HA2 in Hg2. rewrite (flag_set_state _ _ _ _ _ Hg2 Hg1).
      simpl. destruct (Z.leb_spec start x), (Z.ltb_spec x (es_end e + 1)); simpl; try done.
      rewrite u64_id by lia. by rewrite (flag_inside _ _ _ _ Hg2) by (simpl; lia).
    + simpl. intros x Hx. rewrite (seg_at_cons_app 0) by done.
      by rewrite (proj2 (Z.ltb_ge _ _)), (proj2 (Z.leb_gt _ _)) by lia.
    + simpl. intros o. rewrite (seg_at_cons_app 0) by done.
      rewrite (proj2 (Z.ltb_ge _ _)), (proj2 (Z.leb_le _ _)) by lia. intros [= <-]. lia.
    + simpl. lia.
  - intros _. pose proof (todo_merge A2 p e1 B' Hg1) as Ht. simpl in Ht.
    rewrite fmap_app. ssimpl. apply segs_ok_app in Hg as [HgA _].
    rewrite (todo_skip 0) by (done || lia). ssimpl.
    rewrite (proj2 (Z.ltb_ge _ _)) by lia. rewrite length_fmap.
    destruct B' as [|[q' o] ?]; simpl in *; [lia|]. destruct (_ =? _) in Ht; lia.
  - rewrite Hm3. simpl. rewrite Hm1. lia.
Qed.

(** The state found starts before [start] and ends after the range: only split
    it; the next pass finds its second half. *)
Lemma set_pass_split_only p e B' :
  B = (p, e) :: B' -> es_start e < start -> last < es_end e ->
  exists j w', set_extent_bits_pass (Some q) start last bits w = Some (j, w') /\ post j w'.
Proof using All.
  intros HB Hs He. destruct (split_ok p e B' start HB ltac:(lia)) as [Hg Hg2]. subst B.
  pose proof (io_seg _ _ _ _ _ _ Hok) as [Hseg Hlk]. pose proof Hseg as (_ & _ & _ & Hse & Hee).
  unfold set_extent_bits_pass. unfold bind at 1. simpl.
  erewrite (run_search w _ A ((p, e) :: B')) by (done || lia). simpl.
  erewrite run_get by done. rewrite (proj2 (Z.eqb_neq _ _)) by lia. simpl.
  rewrite (proj2 (Z.ltb_lt (es_start e) _)) by lia.
  destruct (split_state_spec w A p e B' q f start (fun err => bug_on (err =? - EEXIST) ;;;
        (if negb (err =? 0) then ret (Out None) else
         s <- es_get p ;;
         if es_end s <=? last then
           es_put p (es_with_state s (Z.lor (es_state s) (u64 bits))) ;;;
           merge_state p ;;;
           if es_end e =? U64_MAX then ret (Out None)
           else ret (SearchAgain None (u64 (es_end e + 1)))
         else ret (SearchAgain None (es_start s))))%act Hok Hf ltac:(lia)) as (w1 & Hw & Hok1 & Hm1).
  rewrite Hw. unfold bind at 1. simpl. pose proof Hok1 as Hok1'.
  rewrite (cons_middle (q, split_low f e start)), (assoc_L (++)) in Hok1.
  pose proof (io_seg _ _ _ _ _ _ Hok1) as [Hseg1 Hlk1].
  erewrite run_get by done. simpl. rewrite (proj2 (Z.leb_gt _ _)) by lia.
  exists (SearchAgain None start), w1. split; [done|].
  exists [], (A ++ (q, split_low f e start) :: (p, split_high e start) :: B').
  rewrite !fmap_app. ssimpl.
  split; [done|]. split; [done|]. split_and!; [split_and!| |..].
  - intros x. rewrite flag_split by (done || lia).
    destruct (Z.leb_spec start x), (Z.ltb_spec x start); simpl; (done || lia).
  - intros _. unfold set_from, set_to, straddle.
    rewrite (seg_at_cons_app 0 _ _ _ _ Hg), (seg_at_cons_app 0 _ _ _ _ Hg2). simpl.
    rewrite (proj2 (Z.ltb_ge _ (es_start e))), (proj2 (Z.leb_le _ (es_end e))) by lia. simpl.
    rewrite (proj2 (Z.leb_gt last (start - 1))), (proj2 (Z.leb_le start last)) by lia. simpl.
    rewrite (proj2 (Z.ltb_lt _ (es_end e))) by lia. simpl. lia.
  - lia.
  - lia.
  - intros _. apply segs_ok_app in Hg as [HgA _]. rewrite !(todo_skip 0) by (done || lia). ssimpl.
    rewrite (proj2 (Z.ltb_lt (start - 1) start)) by lia.
    rewrite !(proj2 (Z.ltb_ge (es_end e) _)) by lia.
    rewrite Z.eqb_refl. zcase; lia.
  - rewrite Hm1. lia.
Qed.

(** The state found starts at [start] and ends after the range: it is split at
    the end of the range, and its second half gets the bits. *)
Lemma set_pass_tail p e B' :
  B = (p, e) :: B' -> es_start e = start -> last < es_end e ->
  exists j w', set_extent_bits_pass (Some q) start last bits w = Some (j, w') /\ post j w'.
Proof using All.
  intros HB Hs He. destruct (split_ok p e B' (last + 1) HB ltac:(lia)) as [Hg Hg2]. subst B.
  pose proof (io_seg _ _ _ _ _ _ Hok) as [Hseg Hlk]. pose proof Hseg as (_ & _ & _ & Hse & Hee).
  unfold set_extent_bits_pass. unfold bind at 1. simpl.
  erewrite (run_search w _ A ((p, e) :: B')) by (done || lia). simpl.
  erewrite run_get by done. rewrite (proj2 (Z.leb_gt (es_end e) _)) by lia. rewrite andb_false_r.
  rewrite (proj2 (Z.ltb_ge (es_start e) _)), (proj2 (Z.ltb_ge start _)) by lia.
  replace (u64 (last + 1)) with (last + 1) by (unfold U64_MAX in *; by rewrite u64_id by lia).
  destruct (split_state_spec w A p e B' q f (last + 1) (fun err => bug_on (err =? - EEXIST) ;;;
        s <- es_get p ;;
        es_put p (es_with_state s (Z.lor (es_state s) (u64 bits))) ;;;
        merge_state q ;;; ret (Out None))%act Hok Hf ltac:(lia)) as (w1 & Hw & Hok1 & Hm1).
  rewrite Hw. unfold bind at 1. simpl.
  rewrite (cons_middle (q, split_low f e (last + 1))), (assoc_L (++)) in Hok1.
  pose proof (io_seg _ _ _ _ _ _ Hok1) as [Hseg1 Hlk1].
  erewrite run_get by done. rewrite run_put.
  pose proof (io_ok_set_bits w1 _ _ p (split_high e (last + 1)) B' bits Hok1 Hb) as Hok2.
  simpl in Hok2. set (e1 := es_with_state (split_high e (last + 1)) _) in *.
  set (w2 := with_heap w1 _) in *.
  pose proof (io_segs _ _ _ Hok2) as Hg1. rewrite fmap_app in Hg1. ssimpl.
  rewrite <- (assoc_L (++)) in Hok2. simpl in Hok2.
  destruct (merge_state_spec w2 [] A q (split_low f e (last + 1)) ((p, e1) :: B')
    (fun _ => ret (Out None)) Hok2) as (w3 & Hw3 & Hok3 & Hm3).
  exists (Out None), w3. split; [done|].
  exists [], (merge_list A q (split_low f e (last + 1)) ((p, e1) :: B')). split_and!; [done|done|].
  rewrite fmap_app in Hg1. rewrite <- (assoc_L (++)) in Hg1. simpl in Hg1.
  destruct (merge_list_ok A q (split_low f e (last + 1)) ((p, e1) :: B') Hg1) as [_ HM].
  intros x. rewrite HM. rewrite fmap_app. ssimpl.
  assert (Hst : straddle (A.*2 ++ e :: B'.*2) last = Some e).
  { unfold straddle. rewrite (seg_at_cons_app 0 _ _ _ _ Hg).
    rewrite (proj2 (Z.ltb_ge last (es_start e))), (proj2 (Z.leb_le last (es_end e))) by lia.
    by rewrite (proj2 (Z.ltb_lt last (es_end e))) by lia. }
  unfold set_result, set_from, set_to. rewrite Hst.
  rewrite <- (flag_split A.*2 e B'.*2 f (last + 1)) by (done || lia).
  assert (HA2 : forall y C, A.*2 ++ split_low f e (last + 1) :: y :: C =
                 (A.*2 ++ [split_low f e (last + 1)]) ++ y :: C) by (intros; by rewrite <- (assoc_L (++))).
  rewrite !HA2. rewrite HA2 in Hg2. rewrite HA2 in Hg1.
  unfold e1. rewrite (flag_set_state _ (split_high e (last + 1)) _ _ _ Hg2 Hg1). simpl.
  destruct (Z.leb_spec start x), (Z.ltb_spec x (Z.max (es_start e) start)),
    (Z.ltb_spec last x), (Z.leb_spec x (es_end e)), (Z.leb_spec (last + 1) x),
    (Z.ltb_spec x (es_end e + 1)); simpl; try lia; try done.
  rewrite (flag_inside _ _ _ _ Hg2) by (simpl; lia). by rewrite u64_id by lia.
Qed.
End SetPass.

Lemma set_pass_spec w pre prealloc L start last bits :
  io_ok w pre L -> pre_ok prealloc pre ->
  0 <= start <= last -> last < U64_MAX -> 0 <= bits < 2 ^ 31 ->
  (iw_mallocs w = O /\ pre = [] /\
   set_extent_bits_pass prealloc start last bits w = Some (Return (- ENOMEM), w)) \/
  exists j w', set_extent_bits_pass prealloc start last bits w = Some (j, w') /\
    set_pass_ok (pred (iw_mallocs w)) L start last bits j w'.
Proof.
  intros Hok Hp Hr Hl Hb. unfold set_extent_bits_pass.
  destruct (run_prealloc w pre L prealloc (fun prealloc => match prealloc with
    | None => ret (Return (- ENOMEM))
    | Some pre => set_extent_bits_pass (Some pre) start last bits end) Hok Hp)
    as [(-> & Hm & Hrun)|(q & f & w1 & Hrun & Hok1 & Hf & Hm)].
  - left. destruct pre; [|done]. by split_and!.
  - right. destruct (seg_split L start (io_segs _ _ _ Hok)) as (A & B & -> & HA & HB); [lia|].
    assert (Hone : exists j w', set_extent_bits_pass (Some q) start last bits w1 = Some (j, w') /\
                     set_pass_ok (iw_mallocs w1) (A ++ B) start last bits j w').
    { destruct B as [|[p e] B]; [eapply set_pass_end; eauto|].
      destruct (Z.lt_trichotomy (es_start e) start) as [Hc|[Hc|Hc]].
      - destruct (Z.le_gt_cases (es_end e) last).
        + eapply set_pass_split; eauto.
        + eapply set_pass_split_only; eauto.
      - destruct (Z.le_gt_cases (es_end e) last).
        + eapply set_pass_inside; eauto.
        + eapply set_pass_tail; eauto.
      - eapply set_pass_hole; eauto. }
    destruct Hone as (j & w' & Hj & Hpost). exists j, w'. split.
    { rewrite <- Hj. exact Hrun. }
    destruct j as [p|p s'|r]; simpl in *; [done| |done].
    destruct Hpost as (pre' & L' & ?&?&?&?&?&?). exists pre', L'. split_and!; try done. lia.
Qed.

(** ** The loop of [set_extent_bits] *)

Lemma advanced_result start s' last bits l l' x :
  advanced start s' last bits l l' -> start <= s' <= last ->
  set_result l' s' last bits x = set_result l start last bits x.
Proof.
  intros (Hfl & Hst & _) Hs. destruct (Hst ltac:(lia)) as [Hf Ht].
  assert (Hge : s' <= set_from l' s' last).
  { unfold set_from. destruct (straddle l' last); lia. }
  unfold set_result. rewrite Hf, Ht, Hfl. rewrite Hf in Hge.
  destruct (Z.leb_spec s' x), (Z.ltb_spec x (set_from l start last)), (Z.ltb_spec last x),
    (Z.leb_spec x (set_to l last)), (Z.leb_spec start x), (Z.ltb_spec x s');
    simpl; (lia || done).
Qed.

Lemma advanced_done start s' last bits l l' x :
  advanced start s' last bits l l' -> last < s' ->
  flag_of l' x = set_result l start last bits x.
Proof.
  intros (Hfl & _ & Hst) Hs. destruct (Hst Hs) as [-> Hnone]. rewrite Hfl.
  unfold set_result, set_from, set_to. rewrite Hnone.
  destruct (Z.ltb_spec last x), (Z.leb_spec x last), (Z.leb_spec start x), (Z.ltb_spec x (last + 1));
    simpl; (lia || done).
Qed.

(** How the loop ends: with the whole effect, or out of memory with the effect
    on a first part of the range. *)
Definition set_loop_ok (n fuel : nat) L start last bits (r : Z) (w' : io_world T) : Prop :=
  exists L', io_ok w' [] L' /\
    ((r = 0 /\ forall x, flag_of L'.*2 x = set_result L.*2 start last bits x) \/
     (r = - ENOMEM /\ ((n < fuel)%nat /\ iw_mallocs w' = O) /\ exists m, start <= m <= last /\
        advanced start m last bits L.*2 L'.*2)).

Lemma advanced_trans start s1 s2 last bits l1 l2 l3 :
  advanced start s1 last bits l1 l2 -> advanced s1 s2 last bits l2 l3 ->
  start <= s1 <= s2 -> s2 <= last ->
  advanced start s2 last bits l1 l3.
Proof.
  intros (H1 & H2 & _) (H3 & H4 & _) Hs Hl. split_and!; [|intros _|lia].
  - intros x. rewrite H3, H1.
    destruct (Z.leb_spec s1 x), (Z.ltb_spec x s2), (Z.leb_spec start x), (Z.ltb_spec x s1);
      simpl; (lia || done).
  - destruct (H2 ltac:(lia)), (H4 ltac:(lia)). split; congruence.
Qed.

Lemma advanced_refl start last bits l : start <= last -> advanced start start last bits l l.
Proof.
  intros Hl. split_and!; [|done|lia]. intros x.
  destruct (Z.leb_spec start x), (Z.ltb_spec x start); simpl; (lia || done).
Qed.

Lemma set_loop_spec fuel w pre prealloc L start last bits :
  io_ok w pre L -> pre_ok prealloc pre ->
  0 <= start <= last -> last < U64_MAX -> 0 <= bits < 2 ^ 31 ->
  (todo start L.*2 < fuel)%nat ->
  exists r w', set_extent_bits_loop fuel prealloc start last bits w = Some (r, w') /\
    set_loop_ok (iw_mallocs w) fuel L start last bits r w'.
Proof.
  revert w pre prealloc L start. induction fuel as [|fuel IH];
    intros w pre prealloc L start Hok Hp Hr Hl Hb Hfuel; [lia|]. simpl.
  destruct (set_pass_spec w pre prealloc L start last bits Hok Hp Hr Hl Hb)
    as [(Hm & -> & Hrun)|(j & w1 & Hrun & Hpost)]; erewrite (bind_some _ _ _ _ _ Hrun).
  { exists (- ENOMEM), w. split; [done|]. exists L. split; [done|]. right.
    split; [done|]. split; [lia|]. exists start. split; [lia|]. apply advanced_refl. lia. }
  destruct j as [p|p s'|]; simpl in Hpost; [| |done].
  - destruct Hpost as (pre' & L' & Hp' & Hok' & Hfl).
    destruct (run_free_prealloc w1 pre' L' p (fun _ => ret 0) Hok' Hp') as (w2 & Hw2 & Hok2 & _).
    exists 0, w2. split; [done|]. exists L'. auto.
  - destruct Hpost as (pre' & L' & Hp' & Hok' & Hadv & Hle & Htodo & Hm).
    destruct (Z.ltb_spec last s') as [Hlt|Hge].
    + destruct (run_free_prealloc w1 pre' L' p (fun _ => ret 0) Hok' Hp') as (w2 & Hw2 & Hok2 & _).
      exists 0, w2. split; [done|]. exists L'. split; [done|]. left. split; [done|].
      intros x. by eapply advanced_done.
    + specialize (Htodo Hge).
      destruct (IH w1 pre' p L' s' Hok' Hp' ltac:(lia) Hl Hb ltac:(lia))
        as (r & w2 & Hw2 & L2 & Hok2 & Hcase).
      exists r, w2. split; [done|]. exists L2. split; [done|].
      destruct Hcase as [[-> Hfl]|(-> & Hn & m & Hmr & Hadv2)].
      * left. split; [done|]. intros x. rewrite Hfl. eapply advanced_result; [done|lia].
      * right. split; [done|]. split; [lia|]. exists m. split; [lia|].
        eapply advanced_trans; [done|done|lia..].
Qed.

Lemma set_extent_bits_spec fuel w L start last bits :
  io_ok w [] L -> 0 <= start <= last -> last < U64_MAX -> 0 <= bits < 2 ^ 31 ->
  (3 * length L + 2 < fuel)%nat ->
  exists r w', set_extent_bits fuel start last bits w = Some (r, w') /\
    set_loop_ok (iw_mallocs w) fuel L start last bits r w'.
Proof.
  intros Hok Hr Hl Hb Hf. apply (set_loop_spec fuel w [] None L); try done.
  pose proof (todo_le start L.*2) as Ht. rewrite length_fmap in Ht. lia.
Qed.
End Spec.

(** ** What [clear_extent_bits] does, byte by byte, and the bits it returns. *)

(** The bits of [v] are the ones among [bits] that some byte of [a .. b - 1] has. *)
Definition hit (l : list extent_state) (bits a b v : Z) : Prop :=
  forall i, 0 <= i ->
    (Z.testbit v i = true <->
     exists x, a <= x < b /\ Z.testbit (Z.land (flag_of l x) bits) i = true).

Definition cleared_to (start s' bits : Z) (l l' : list extent_state) : Prop :=
  forall x, flag_of l' x =
    if (start <=? x) && (x <? s') then Z.ldiff (flag_of l x) bits else flag_of l x.

Lemma hit_none l bits a b : (forall x, a <= x < b -> flag_of l x = 0) -> hit l bits a b 0.
Proof.
  intros Hz i Hi. rewrite Z.bits_0. split; [done|]. intros (x & Hx & Hb).
  rewrite Hz, Z.land_0_l, Z.bits_0 in Hb by done. done.
Qed.

Lemma hit_join l l' bits a b c v v' :
  hit l bits a b v -> hit l' bits b c v' -> (forall x, b <= x -> flag_of l' x = flag_of l x) ->
  a <= b <= c -> hit l bits a c (Z.lor v v').
Proof.
  intros H1 H2 Hfl Hle i Hi. rewrite Z.lor_spec, orb_true_iff, (H1 i Hi), (H2 i Hi). split.
  - intros [(x & Hx & Hb)|(x & Hx & Hb)]; exists x; (split; [lia|]); [done|].
    by rewrite <- Hfl by lia.
  - intros (x & Hx & Hb). destruct (Z.lt_ge_cases x b); [left|right]; exists x; (split; [lia|]); [done|].
    by rewrite Hfl by lia.
Qed.

(** The one state [e] that covers the upper part of the range. *)
Lemma hit_seg A e B bits a b :
  segs_ok 0 (A ++ e :: B) -> segs_end 0 A <= a -> Z.max a (es_start e) < b <= es_end e + 1 ->
  hit (A ++ e :: B) bits a b (Z.land (es_state e) bits).
Proof.
  intros Hok HA Hb i Hi. split.
  - intros Ht. exists (Z.max a (es_start e)). split; [lia|]. by rewrite (flag_inside _ _ _ _ Hok) by lia.
  - intros (x & Hx & Ht). destruct (Z.lt_ge_cases x (es_start e)).
    + rewrite flag_hole, Z.land_0_l, Z.bits_0 in Ht by (done || lia). done.
    + by rewrite (flag_inside _ _ _ _ Hok) in Ht by lia.
Qed.

Lemma cleared_to_refl start bits l : cleared_to start start bits l l.
Proof.
  intros x. destruct (Z.leb_spec start x), (Z.ltb_spec x start); simpl; (lia || done).
Qed.

Lemma cleared_to_trans start s1 s2 bits l1 l2 l3 :
  cleared_to start s1 bits l1 l2 -> cleared_to s1 s2 bits l2 l3 -> start <= s1 <= s2 ->
  cleared_to start s2 bits l1 l3.
Proof.
  intros H1 H2 Hs x. rewrite H2, H1.
  destruct (Z.leb_spec s1 x), (Z.ltb_spec x s2), (Z.leb_spec start x), (Z.ltb_spec x s1);
    simpl; (lia || done).
Qed.

(** ** The sequence after [clear_state_bit] *)

Lemma cleared_list_ok A p e B bits :
  segs_ok 0 (A.*2 ++ e :: B.*2) ->
  segs_ok 0 (cleared_list A p e B bits).*2 /\
  (forall x, flag_of (cleared_list A p e B bits).*2 x =
     if (es_start e <=? x) && (x <? es_end e + 1) then Z.ldiff (es_state e) bits
     else flag_of (A.*2 ++ e :: B.*2) x).
Proof.
  intros Hok. unfold cleared_list. destruct (Z.eqb_spec (Z.ldiff (es_state e) bits) 0) as [Hz|Hz].
  - assert (Hok' : segs_ok 0 (A.*2 ++ B.*2)).
    { apply segs_ok_app in Hok as [? ((_&_&_&?&_) & ? & HB)]. apply segs_ok_app. split; [done|].
      eapply segs_ok_weaken; [|done]. lia. }
    rewrite fmap_app. split; [done|]. intros x. rewrite (flag_insert _ _ _ _ Hok).
    destruct (Z.leb_spec (es_start e) x), (Z.ltb_spec x (es_end e + 1)); simpl; try done.
    rewrite Hz. apply segs_ok_app in Hok as [HA (_ & ? & HB)].
    apply flag_hole; [done|lia|]. destruct B.*2 as [|b B']; [done|]. destruct HB as (_ & ? & _). lia.
  - assert (Hok' : segs_ok 0 (A.*2 ++ es_with_state e (Z.ldiff (es_state e) bits) :: B.*2)).
    { apply segs_ok_app in Hok as [? (Hx & ? & HB)]. apply segs_ok_app. split; [done|].
      simpl. split_and!; try done. pose proof (ldiff_bounds (es_state e) bits).
      unfold seg_ok in *. simpl. intuition lia. }
    destruct (merge_list_ok A p _ B Hok') as [HM HMf]. split; [done|]. intros x.
    by rewrite HMf, (flag_set_state _ _ _ _ _ Hok Hok').
Qed.

Lemma todo_cleared A p e B bits :
  segs_ok 0 (A.*2 ++ e :: B.*2) ->
  (todo (es_end e + 1) (cleared_list A p e B bits).*2 <= 3 * length B + 2)%nat.
Proof.
  intros Hok. unfold cleared_list. destruct (_ =? 0).
  - rewrite fmap_app. apply segs_ok_app in Hok as [HA ((_&_&_&?&_) & ? & _)].
    rewrite (todo_skip 0) by (done || lia). pose proof (todo_le (es_end e + 1) B.*2) as Ht.
    by rewrite length_fmap in Ht.
  - assert (Hok' : segs_ok 0 (A.*2 ++ es_with_state e (Z.ldiff (es_state e) bits) :: B.*2)).
    { apply segs_ok_app in Hok as [? (Hx & ? & HB)]. apply segs_ok_app. split; [done|].
      simpl. split_and!; try done. pose proof (ldiff_bounds (es_state e) bits).
      unfold seg_ok in *. simpl. intuition lia. }
    pose proof (todo_merge A p _ B Hok') as Ht. simpl in Ht.
    destruct B as [|[q o] ?]; simpl in *; [lia|]. destruct (_ =? _) in Ht; lia.
Qed.

Section Spec.
Context {T : Type} `{RbTreeLaws T}.
Implicit Types (w : io_world T) (A B L pre : list seg).


Definition clear_pass_ok (n : nat) L start last bits (j : jump) (set : Z) (w' : io_world T) : Prop :=
  match j with
  | Return _ => False
  | Out p => exists pre' L', pre_ok p pre' /\ io_ok w' pre' L' /\
      cleared_to start (last + 1) bits L.*2 L'.*2 /\ hit L.*2 bits start (last + 1) set
  | SearchAgain p s' => exists pre' L', pre_ok p pre' /\ io_ok w' pre' L' /\
      cleared_to start s' bits L.*2 L'.*2 /\ hit L.*2 bits start s' set /\
      start <= s' <= last + 1 /\
      (todo s' L'.*2 < todo start L.*2)%nat /\ (n <= iw_mallocs w')%nat
  end.

Section ClearPass.
Context (w : io_world T) (q : ptr) (f : extent_state) (A B : list seg) (start last bits : Z).
Hypotheses (Hok : io_ok w [(q, f)] (A ++ B)) (Hf : fresh_state f).
Hypotheses (Hr : 0 <= start <= last) (Hl : last < U64_MAX) (Hb : 0 <= bits < 2 ^ 31).
Hypothesis (HA : segs_end 0 A.*2 <= start).

Let post (j : jump) (set : Z) (w' : io_world T) : Prop :=
  clear_pass_ok (iw_mallocs w) (A ++ B) start last bits j set w'.

(** Nothing in the range. *)
Lemma clear_pass_none :
  match B with [] => True | (_, e) :: _ => start <= es_end e /\ last < es_start e end ->
  exists j set w', clear_extent_bits_pass (Some q) start last bits w = Some (j, set, w') /\ post j set w'.
Proof using All.
  intros HB. exists (Out (Some q)), 0, w. split.
  - unfold clear_extent_bits_pass. unfold bind at 1. simpl.
    erewrite (run_search w _ A B); [|done|lia|done|by destruct B as [|[??]?]; [|lia]].
    destruct B as [|[p e] B']; [done|]. simpl. pose proof (io_seg _ _ _ _ _ _ Hok) as [_ Hlk].
    erewrite run_get by done. by rewrite (proj2 (Z.ltb_lt _ _)) by lia.
  - pose proof (io_segs _ _ _ Hok) as Hg. rewrite fmap_app in Hg.
    assert (Hz : forall x, start <= x < last + 1 -> flag_of (A ++ B).*2 x = 0).
    { intros x Hx. rewrite fmap_app. apply flag_hole; [done|lia|].
      destruct B as [|[p e] B']; [done|]. simpl. lia. }
    exists [(q, f)], (A ++ B). split; [done|]. split; [done|]. split.
    + intros x. destruct (Z.leb_spec start x), (Z.ltb_spec x (last + 1)); simpl; try done.
      by rewrite Hz, Z.ldiff_0_l by lia.
    + by apply hit_none.
Qed.

(** A state inside the range. *)
Lemma clear_pass_inside p e B' :
  B = (p, e) :: B' -> start <= es_start e -> es_end e <= last ->
  exists j set w', clear_extent_bits_pass (Some q) start last bits w = Some (j, set, w') /\ post j set w'.
Proof using All.
  intros HB Hs He. subst B. pose proof (io_seg _ _ _ _ _ _ Hok) as [Hseg Hlk].
  pose proof Hseg as (_ & _ & _ & Hse & Hee).
  unfold clear_extent_bits_pass. unfold bind at 1. simpl.
  erewrite (run_search w _ A ((p, e) :: B')) by (done || lia). simpl.
  erewrite run_get by done. rewrite (proj2 (Z.ltb_ge last _)), (proj2 (Z.ltb_ge _ start)) by lia.
  rewrite (proj2 (Z.ltb_ge last (es_end e))) by lia. rewrite andb_false_r.
  destruct (clear_state_bit_spec w _ A p e B' bits (fun set => if es_end e =? U64_MAX then
    ret (Out (Some q), set) else ret (SearchAgain (Some q) (u64 (es_end e + 1)), set))%act Hok Hb)
    as (w1 & Hw & Hok1 & Hm).
  exists (SearchAgain (Some q) (es_end e + 1)), (Z.land (es_state e) bits), w1. split.
  { rewrite Hw. rewrite (proj2 (Z.eqb_neq _ _)) by lia. unfold U64_MAX in *. by rewrite u64_id by lia. }
  pose proof (io_segs _ _ _ Hok) as Hg. rewrite fmap_app in Hg. ssimpl.
  destruct (cleared_list_ok A p e B' bits Hg) as [_ Hfl].
  exists [(q, f)], (cleared_list A p e B' bits). rewrite fmap_app. ssimpl.
  split; [done|]. split; [done|]. split_and!; [| |lia|lia| |lia].
  - intros x. rewrite Hfl.
    destruct (Z.leb_spec (es_start e) x), (Z.ltb_spec x (es_end e + 1)), (Z.leb_spec start x);
      simpl; try lia; try done.
    + by rewrite (flag_inside _ _ _ _ Hg) by lia.
    + by rewrite flag_hole, Z.ldiff_0_l by (done || lia).
  - apply hit_seg; [done|done|lia].
  - pose proof (todo_cleared A p e B' bits Hg) as Ht. apply segs_ok_app in Hg as [HgA _].
    rewrite (todo_skip 0 start) by (done || lia). ssimpl.
    rewrite (proj2 (Z.ltb_ge _ _)) by lia. rewrite length_fmap. lia.
Qed.

(** A state that starts in the range and ends after it. *)
Lemma clear_pass_tail p e B' :
  B = (p, e) :: B' -> start <= es_start e <= last -> last < es_end e ->
  exists j set w', clear_extent_bits_pass (Some q) start last bits w = Some (j, set, w') /\ post j set w'.
Proof using All.
  intros HB Hs He.
  destruct (split_ok w q f A B start last bits Hok Hf Hr Hl Hb HA p e B' (last + 1) HB ltac:(lia))
    as [Hg Hg2]. subst B.
  pose proof (io_seg _ _ _ _ _ _ Hok) as [Hseg Hlk]. pose proof Hseg as (_ & _ & _ & Hse & Hee).
  unfold clear_extent_bits_pass. unfold bind at 1. simpl.
  erewrite (run_search w _ A ((p, e) :: B')) by (done || lia). simpl.
  erewrite run_get by done. rewrite (proj2 (Z.ltb_ge last _)), (proj2 (Z.ltb_ge _ start)) by lia.
  rewrite (proj2 (Z.leb_le _ last)), (proj2 (Z.ltb_lt last (es_end e))) by lia. simpl.
  replace (u64 (last + 1)) with (last + 1) by (unfold U64_MAX in *; by rewrite u64_id by lia).
  destruct (split_state_spec w A p e B' q f (last + 1) (fun err => bug_on (err =? - EEXIST) ;;;
      set <- clear_state_bit q bits ;; ret (Out None, set))%act Hok Hf ltac:(lia))
    as (w1 & Hw & Hok1 & Hm1).
  rewrite Hw. unfold bind at 1. simpl.
  destruct (clear_state_bit_spec w1 _ A q (split_low f e (last + 1))
    ((p, split_high e (last + 1)) :: B') bits (fun set => ret (Out None, set)) Hok1 Hb)
    as (w2 & Hw2 & Hok2 & Hm2).
  exists (Out None), (Z.land (es_state e) bits), w2. split; [exact Hw2|].
  destruct (cleared_list_ok A q (split_low f e (last + 1)) ((p, split_high e (last + 1)) :: B')
              bits Hg2) as [_ Hfl]. ssimpl.
  eexists [], _. rewrite fmap_app. ssimpl. split; [done|]. split; [exact Hok2|]. split.
  - intros x. rewrite Hfl, flag_split by (done || lia).
    replace (last + 1 - 1 + 1) with (last + 1) by lia.
    destruct (Z.leb_spec (es_start e) x), (Z.ltb_spec x (last + 1)), (Z.leb_spec start x);
      simpl; try lia; try done.
    + by rewrite (flag_inside _ _ _ _ Hg) by lia.
    + by rewrite flag_hole, Z.ldiff_0_l by (done || lia).
  - apply hit_seg; [done|done|lia].
Qed.

(** A state that starts before the range and ends in it. *)
Lemma clear_pass_split p e B' :
  B = (p, e) :: B' -> es_start e < start -> start <= es_end e <= last ->
  exists j set w', clear_extent_bits_pass (Some q) start last bits w = Some (j, set, w') /\ post j set w'.
Proof using All.
  intros HB Hs He.
  destruct (split_ok w q f A B start last bits Hok Hf Hr Hl Hb HA p e B' start HB ltac:(lia))
    as [Hg Hg2]. subst B.
  pose proof (io_seg _ _ _ _ _ _ Hok) as [Hseg Hlk]. pose proof Hseg as (_ & _ & _ & Hse & Hee).
  unfold clear_extent_bits_pass. unfold bind at 1. simpl.
  erewrite (run_search w _ A ((p, e) :: B')) by (done || lia). simpl.
  erewrite run_get by done. rewrite (proj2 (Z.ltb_ge last _)), (proj2 (Z.ltb_lt _ start)) by lia.
  destruct (split_state_spec w A p e B' q f start (fun err => bug_on (err =? - EEXIST) ;;;
        (if negb (err =? 0) then ret (Out None, 0) else
         s <- es_get p ;;
         if es_end s <=? last then
           set <- clear_state_bit p bits ;;
           if es_end e =? U64_MAX then ret (Out None, set)
           else ret (SearchAgain None (u64 (es_end e + 1)), set)
         else ret (SearchAgain None (es_start s), 0)))%act Hok Hf ltac:(lia)) as (w1 & Hw & Hok1 & Hm1).
  rewrite Hw. unfold bind at 1. simpl.
  rewrite (cons_middle (q, split_low f e start)), (assoc_L (++)) in Hok1.
  pose proof (io_seg _ _ _ _ _ _ Hok1) as [Hseg1 Hlk1].
  erewrite run_get by done. simpl. rewrite (proj2 (Z.leb_le _ _)) by lia.
  set (A2 := A ++ [(q, split_low f e start)]) in *.
  destruct (clear_state_bit_spec w1 _ A2 p (split_high e start) B' bits (fun set =>
    if es_end e =? U64_MAX then ret (Out None, set)
    else ret (SearchAgain None (u64 (es_end e + 1)), set))%act Hok1 Hb) as (w2 & Hw2 & Hok2 & Hm2).
  exists (SearchAgain None (es_end e + 1)), (Z.land (es_state e) bits), w2. split.
  { rewrite Hw2. rewrite (proj2 (Z.eqb_neq _ _)) by lia. unfold U64_MAX in *. by rewrite u64_id by lia. }
  assert (HA2 : forall x C, A2.*2 ++ x :: C = A.*2 ++ split_low f e start :: x :: C).
  { intros x C. unfold A2. rewrite fmap_app, <- (assoc_L (++)). done. }
  pose proof Hg2 as Hg3. rewrite <- HA2 in Hg3.
  destruct (cleared_list_ok A2 p (split_high e start) B' bits Hg3) as [_ Hfl].
  exists [], (cleared_list A2 p (split_high e start) B' bits). rewrite fmap_app. ssimpl.
  split; [done|]. split; [done|]. split_and!; [| |lia|lia| |lia].
  - intros x. rewrite Hfl, HA2, flag_split by (done || lia).
    destruct (Z.leb_spec start x), (Z.ltb_spec x (es_end e + 1)); simpl; try lia; try done.
    by rewrite (flag_inside _ _ _ _ Hg) by lia.
  - apply hit_seg; [done|done|lia].
  - pose proof (todo_cleared A2 p (split_high e start) B' bits Hg3) as Ht. simpl in Ht.
    apply segs_ok_app in Hg as [HgA _].
    rewrite (todo_skip 0 start) by (done || lia). ssimpl.
    rewrite (proj2 (Z.ltb_ge _ _)) by lia. rewrite length_fmap. lia.
Qed.

(** A state that covers the range and the byte before it. *)
Lemma clear_pass_split_only p e B' :
  B = (p, e) :: B' -> es_start e < start -> last < es_end e ->
  exists j set w', clear_extent_bits_pass (Some q) start last bits w = Some (j, set, w') /\ post j set w'.
Proof using All.
  intros HB Hs He.
  destruct (split_ok w q f A B start last bits Hok Hf Hr Hl Hb HA p e B' start HB ltac:(lia))
    as [Hg Hg2]. subst B.
  pose proof (io_seg _ _ _ _ _ _ Hok) as [Hseg Hlk]. pose proof Hseg as (_ & _ & _ & Hse & Hee).
  unfold clear_extent_bits_pass. unfold bind at 1. simpl.
  erewrite (run_search w _ A ((p, e) :: B')) by (done || lia). simpl.
  erewrite run_get by done. rewrite (proj2 (Z.ltb_ge last _)), (proj2 (Z.ltb_lt _ start)) by lia.
  destruct (split_state_spec w A p e B' q f start (fun err => bug_on (err =? - EEXIST) ;;;
        (if negb (err =? 0) then ret (Out None, 0) else
         s <- es_get p ;;
         if es_end s <=? last then
           set <- clear_state_bit p bits ;;
           if es_end e =? U64_MAX then ret (Out None, set)
           else ret (SearchAgain None (u64 (es_end e + 1)), set)
         else ret (SearchAgain None (es_start s), 0)))%act Hok Hf ltac:(lia)) as (w1 & Hw & Hok1 & Hm1).
  rewrite Hw. unfold bind at 1. simpl. pose proof Hok1 as Hok1'.
  rewrite (cons_middle (q, split_low f e start)), (assoc_L (++)) in Hok1.
  pose proof (io_seg _ _ _ _ _ _ Hok1) as [Hseg1 Hlk1].
  erewrite run_get by done. simpl. rewrite (proj2 (Z.leb_gt _ _)) by lia.
  exists (SearchAgain None start), 0, w1. split; [done|].
  exists [], (A ++ (q, split_low f e start) :: (p, split_high e start) :: B').
  rewrite !fmap_app. ssimpl. split; [done|]. split; [done|]. split_and!; [| |lia|lia| |lia].
  - intros x. rewrite flag_split by (done || lia).
    destruct (Z.leb_spec start x), (Z.ltb_spec x start); simpl; (done || lia).
  - apply hit_none. lia.
  - apply segs_ok_app in Hg as [HgA _]. rewrite !(todo_skip 0) by (done || lia). ssimpl.
    rewrite (proj2 (Z.ltb_lt (start - 1) start)) by lia.
    rewrite !(proj2 (Z.ltb_ge (es_end e) _)) by lia.
    rewrite Z.eqb_refl. zcase; lia.
Qed.
End ClearPass.

Lemma clear_pass_spec w pre prealloc L start last bits :
  io_ok w pre L -> pre_ok prealloc pre ->
  0 <= start <= last -> last < U64_MAX -> 0 <= bits < 2 ^ 31 ->
  (iw_mallocs w = O /\ pre = [] /\
   clear_extent_bits_pass prealloc start last bits w = Some (Return (- ENOMEM), 0, w)) \/
  exists j set w', clear_extent_bits_pass prealloc start last bits w = Some (j, set, w') /\
    clear_pass_ok (pred (iw_mallocs w)) L start last bits j set w'.
Proof.
  intros Hok Hp Hr Hl Hb. unfold clear_extent_bits_pass.
  destruct (run_prealloc w pre L prealloc (fun prealloc => match prealloc with
    | None => ret (Return (- ENOMEM), 0)
    | Some pre => clear_extent_bits_pass (Some pre) start last bits end) Hok Hp)
    as [(-> & Hm & Hrun)|(q & f & w1 & Hrun & Hok1 & Hf & Hm)].
  - left. destruct pre; [|done]. by split_and!.
  - right. destruct (seg_split L start (io_segs _ _ _ Hok)) as (A & B & -> & HA & HB); [lia|].
    assert (Hone : exists j set w', clear_extent_bits_pass (Some q) start last bits w1 =
                     Some (j, set, w') /\
                     clear_pass_ok (iw_mallocs w1) (A ++ B) start last bits j set w').
    { destruct B as [|[p e] B]; [by eapply clear_pass_none; eauto|].
      destruct (Z.lt_ge_cases last (es_start e)); [by eapply clear_pass_none; eauto|].
      destruct (Z.lt_ge_cases (es_start e) start), (Z.le_gt_cases (es_end e) last).
      - eapply clear_pass_split; eauto.
      - eapply clear_pass_split_only; eauto.
      - eapply clear_pass_inside; eauto.
      - eapply clear_pass_tail; eauto. }
    destruct Hone as (j & set & w' & Hj & Hpost). exists j, set, w'. split.
    { rewrite <- Hj. exact Hrun. }
    destruct j as [p|p s'|r]; simpl in *; [done| |done].
    destruct Hpost as (pre' & L' & ?&?&?&?&?&?&?). exists pre', L'. split_and!; try done; lia.
Qed.

(** How the loop ends. *)
Definition clear_loop_ok (n fuel : nat) L start last bits (set0 r : Z) (w' : io_world T) : Prop :=
  exists L', io_ok w' [] L' /\
    ((cleared_to start (last + 1) bits L.*2 L'.*2 /\
      exists set, r = Z.lor set0 set /\ hit L.*2 bits start (last + 1) set) \/
     (r = - ENOMEM /\ ((n < fuel)%nat /\ iw_mallocs w' = O) /\
      exists m, start <= m <= last /\ cleared_to start m bits L.*2 L'.*2)).

Lemma clear_loop_spec fuel w pre prealloc L start last bits set0 :
  io_ok w pre L -> pre_ok prealloc pre ->
  0 <= start <= last -> last < U64_MAX -> 0 <= bits < 2 ^ 31 ->
  (todo start L.*2 < fuel)%nat ->
  exists r w', clear_extent_bits_loop fuel prealloc start last bits set0 w = Some (r, w') /\
    clear_loop_ok (iw_mallocs w) fuel L start last bits set0 r w'.
Proof.
  revert w pre prealloc L start set0. induction fuel as [|fuel IH];
    intros w pre prealloc L start set0 Hok Hp Hr Hl Hb Hfuel; [lia|]. simpl.
  destruct (clear_pass_spec w pre prealloc L start last bits Hok Hp Hr Hl Hb)
    as [(Hm & -> & Hrun)|(j & set & w1 & Hrun & Hpost)]; erewrite (bind_some _ _ _ _ _ Hrun).
  { exists (- ENOMEM), w. split; [done|]. exists L. split; [done|]. right.
    split; [done|]. split; [lia|]. exists start. split; [lia|]. apply cleared_to_refl. }
  destruct j as [p|p s'|]; simpl in Hpost; [| |done]; simpl.
  - destruct Hpost as (pre' & L' & Hp' & Hok' & Hfl & Hhit).
    destruct (run_free_prealloc w1 pre' L' p (fun _ => ret (Z.lor set0 set)) Hok' Hp')
      as (w2 & Hw2 & Hok2 & _).
    exists (Z.lor set0 set), w2. split; [done|]. exists L'. eauto 6.
  - destruct Hpost as (pre' & L' & Hp' & Hok' & Hfl & Hhit & Hle & Htodo & Hm).
    destruct (Z.ltb_spec last s') as [Hlt|Hge].
    + assert (s' = last + 1) as -> by lia.
      destruct (run_free_prealloc w1 pre' L' p (fun _ => ret (Z.lor set0 set)) Hok' Hp')
        as (w2 & Hw2 & Hok2 & _).
      exists (Z.lor set0 set), w2. split; [done|]. exists L'. eauto 6.
    + destruct (IH w1 pre' p L' s' (Z.lor set0 set) Hok' Hp' ltac:(lia) Hl Hb ltac:(lia))
        as (r & w2 & Hw2 & L2 & Hok2 & Hcase).
      exists r, w2. split; [done|]. exists L2. split; [done|].
      destruct Hcase as [(Hfl2 & set2 & -> & Hhit2)|(-> & Hn & m & Hmr & Hfl2)].
      * left. split; [eapply cleared_to_trans; [done|done|lia]|].
        exists (Z.lor set set2). split; [by rewrite Z.lor_assoc|].
        eapply hit_join; [done|done| |lia]. intros x Hx. rewrite Hfl.
        by rewrite (proj2 (Z.ltb_ge _ _)), andb_false_r by lia.
      * right. split; [done|]. split; [lia|]. exists m. split; [lia|].
        eapply cleared_to_trans; [done|done|lia].
Qed.

Lemma clear_extent_bits_spec fuel w L start last bits :
  io_ok w [] L -> 0 <= start <= last -> last < U64_MAX -> 0 <= bits < 2 ^ 31 ->
  (3 * length L + 2 < fuel)%nat ->
  exists r w', clear_extent_bits fuel start last bits w = Some (r, w') /\
    clear_loop_ok (iw_mallocs w) fuel L start last bits 0 r w'.
Proof.
  intros Hok Hr Hl Hb Hf. apply (clear_loop_spec fuel w [] None L); try done.
  pose proof (todo_le start L.*2) as Ht. rewrite length_fmap in Ht. lia.
Qed.
End Spec.

(** ** The queries on the extent state tree: [find_first_extent_bit],
    [test_range_bit] and the private values. *)

Lemma segs_end_snoc_seg lo (A : list seg) p e : segs_end lo (A ++ [(p, e)]).*2 = es_end e + 1.
Proof. rewrite fmap_app. apply segs_end_snoc. Qed.

(** Byte [x] has one of the bits. *)
Definition has_bits (l : list extent_state) (bits x : Z) : Prop := Z.land (flag_of l x) bits <> 0.

Lemma no_bits_outside A B bits x :
  segs_ok 0 (A ++ B) -> segs_end 0 A <= x ->
  match B with [] => True | e :: _ => x < es_start e end -> ~ has_bits (A ++ B) bits x.
Proof. intros ??? Hb. apply Hb. by rewrite flag_hole, Z.land_0_l. Qed.

Lemma zero_no_bits l bits x : Z.land (flag_of l x) bits = 0 -> ~ has_bits l bits x.
Proof. intros Hz Hb. by apply Hb. Qed.

Section Spec.
Context {T : Type} `{RbTreeLaws T}.
Implicit Types (w : io_world T) (A B L pre : list seg).


(** What the answer of [find_first_extent_bit] says: no byte from [start] on
    has the bits, or a range of bytes that have them, the first from [start] on. *)
Definition first_bit_ok (l : list extent_state) (start bits : Z) (r : option (Z * Z)) : Prop :=
  match r with
  | None => forall x, start <= x -> ~ has_bits l bits x
  | Some (s, e) => s <= e /\ start <= e /\ (forall x, s <= x <= e -> has_bits l bits x) /\
      forall x, start <= x < s -> ~ has_bits l bits x
  end.

Lemma find_loop_spec fuel w pre A p e B start bits :
  io_ok w pre (A ++ (p, e) :: B) -> 0 <= bits < 2 ^ 31 ->
  start <= es_end e -> (length B < fuel)%nat ->
  (forall x, start <= x < segs_end 0 A.*2 -> ~ has_bits (A ++ (p, e) :: B).*2 bits x) ->
  exists r, find_first_extent_bit_loop fuel p start bits w = Some (r, w) /\
    first_bit_ok (A ++ (p, e) :: B).*2 start bits r.
Proof.
  revert A p e B. induction fuel as [|fuel IH]; intros A p e B Hok Hb He Hf Hno; [lia|]. simpl.
  pose proof (io_seg _ _ _ _ _ _ Hok) as [Hseg Hlk]. pose proof Hseg as (_ & _ & _ & Hse & _).
  pose proof (io_segs _ _ _ Hok) as Hg. rewrite fmap_app in Hg.
  setoid_rewrite fmap_app in Hno. setoid_rewrite fmap_app. ssimpl.
  erewrite run_get by done. rewrite (proj2 (Z.leb_le _ _)) by done. rewrite u64_id by lia. simpl.
  assert (Hhole : forall x, start <= x < es_start e -> ~ has_bits (A.*2 ++ e :: B.*2) bits x).
  { intros x Hx. destruct (Z.lt_ge_cases x (segs_end 0 A.*2)); [apply Hno; lia|].
    apply no_bits_outside; [done|lia|lia]. }
  destruct (Z.eqb_spec (Z.land (es_state e) bits) 0) as [Hz|Hz]; simpl.
  - rewrite (run_next _ _ _ _ _ _ (io_seq _ _ _ Hok)). destruct B as [|[p' e'] B]; simpl.
    + exists None. split; [done|]. intros x Hx.
      destruct (Z.lt_ge_cases x (es_start e)); [apply Hhole; lia|].
      apply zero_no_bits. destruct (Z.le_gt_cases x (es_end e)).
      { by rewrite (flag_inside _ _ _ _ Hg) by lia. }
      unfold flag_of. rewrite (seg_at_cons_app 0) by done.
      by rewrite (proj2 (Z.ltb_ge _ _)), (proj2 (Z.leb_gt _ _)) by lia.
    + rewrite (cons_middle (p, e)), (assoc_L (++)) in Hok. simpl in Hf.
      assert (Hle : es_end e + 1 <= es_start e' <= es_end e').
      { apply segs_ok_app in Hg as [_ (_ & _ & (_&_&_&?&_) & ? & _)]. ssimpl. lia. }
      destruct (IH _ _ _ _ Hok Hb ltac:(lia) ltac:(lia)) as (r & Hr & Hok').
      { intros x Hx. rewrite segs_end_snoc_seg in Hx. rewrite <- (assoc_L (++)), fmap_app.
        ssimpl. destruct (Z.lt_ge_cases x (es_start e)); [apply Hhole; lia|].
        apply zero_no_bits. by rewrite (flag_inside _ _ _ _ Hg) by (simpl in Hx; lia). }
      exists r. split; [done|]. by rewrite <- (assoc_L (++)), fmap_app in Hok'.
  - exists (Some (es_start e, es_end e)). split; [done|]. split_and!; [lia|lia| |done].
    intros x Hx. unfold has_bits. by rewrite (flag_inside _ _ _ _ Hg) by lia.
Qed.

Lemma find_first_extent_bit_spec fuel w pre L start bits :
  io_ok w pre L -> 0 <= start < U64_MAX -> 0 <= bits < 2 ^ 31 -> (length L < fuel)%nat ->
  exists r, find_first_extent_bit fuel start bits w = Some (r, w) /\
    first_bit_ok L.*2 start bits r.
Proof.
  intros Hok Hs Hb Hf.
  destruct (seg_split L start (io_segs _ _ _ Hok)) as (A & B & -> & HA & HB); [lia|].
  unfold find_first_extent_bit. rewrite (run_search w pre A B) by done.
  rewrite length_app in Hf. destruct B as [|[p e] B]; simpl in *.
  - exists None. split; [done|]. intros x Hx. pose proof (io_segs _ _ _ Hok) as Hg.
    rewrite fmap_app in Hg |- *. apply no_bits_outside; [done|lia|done].
  - eapply find_loop_spec; [done|done|done|lia|]. intros x Hx. lia.
Qed.

(** ** [test_range_bit] *)

Definition test_ok (l : list extent_state) (start last bits : Z) (filled : bool) (r : Z) : Prop :=
  (r = 0 \/ r = 1) /\
  (r = 1 <-> if filled then forall x, start <= x <= last -> has_bits l bits x
             else exists x, start <= x <= last /\ has_bits l bits x).

(** The answer is decided by one byte of the range. *)
Lemma test_ok_decided l start last bits (filled : bool) x r :
  start <= x <= last ->
  (if filled then r = 0 /\ ~ has_bits l bits x else r = 1 /\ has_bits l bits x) ->
  test_ok l start last bits filled r.
Proof.
  intros Hx Hr. destruct filled; destruct Hr as [-> Hb]; (split; [auto|]).
  - split; [done|]. intros Hall. by destruct Hb; apply Hall.
  - split; [eauto|done].
Qed.


Section TestLoop.
Context (w : io_world T) (pre : list seg) (last bits : Z).
Hypotheses (Hb : 0 <= bits < 2 ^ 31) (Hl : last < U64_MAX).

(** The facts about the state the loop looks at. *)
Lemma test_here A p e B start :
  io_ok w pre (A ++ (p, e) :: B) -> segs_end 0 A.*2 <= start ->
  iw_heap w !! p = Some e /\ 0 <= es_start e <= es_end e /\ es_end e < U64_MAX /\
  (forall x, es_start e <= x <= es_end e ->
     (has_bits (A ++ (p, e) :: B).*2 bits x <-> Z.land (es_state e) bits <> 0)) /\
  (forall x, start <= x < es_start e -> ~ has_bits (A ++ (p, e) :: B).*2 bits x) /\
  (B = [] -> forall x, es_end e < x -> ~ has_bits (A ++ (p, e) :: B).*2 bits x).
Proof using Type.
  intros Hok Hs. pose proof (io_seg _ _ _ _ _ _ Hok) as [(_ & _ & _ & Hse & Hee) Hlk].
  pose proof (io_segs _ _ _ Hok) as Hg. rewrite fmap_app in Hg |- *. ssimpl.
  split_and!; [done|lia|lia|done| | |].
  - intros x Hx. unfold has_bits. by rewrite (flag_inside _ _ _ _ Hg) by lia.
  - intros x Hx. apply no_bits_outside; [done|lia|lia].
  - intros -> x Hx. apply zero_no_bits. unfold flag_of. rewrite (seg_at_cons_app 0) by done.
    by rewrite (proj2 (Z.ltb_ge _ _)), (proj2 (Z.leb_gt _ _)) by lia.
Qed.

Lemma test_next A p e p' e' B :
  io_ok w pre (A ++ (p, e) :: (p', e') :: B) ->
  io_ok w pre ((A ++ [(p, e)]) ++ (p', e') :: B) /\
  segs_end 0 (A ++ [(p, e)]).*2 = es_end e + 1 /\ es_end e + 1 <= es_end e'.
Proof using Type.
  intros Hok. pose proof (io_segs _ _ _ Hok) as Hg. rewrite fmap_app in Hg. ssimpl.
  split_and!; [by rewrite <- (assoc_L (++))|apply segs_end_snoc_seg|].
  apply segs_ok_app in Hg as [_ (_ & _ & (_&_&_&?&_) & ? & _)]. lia.
Qed.

Lemma test_filled_spec fuel A p e B start bitset :
  io_ok w pre (A ++ (p, e) :: B) -> segs_end 0 A.*2 <= start <= last -> start <= es_end e ->
  (length B < fuel)%nat ->
  exists r, test_range_bit_loop fuel (Some p) start last bits true bitset w = Some (r, w) /\
    test_ok (A ++ (p, e) :: B).*2 start last bits true r.
Proof using Hb Hl.
  revert A p e B start bitset. induction fuel as [|fuel IH];
    intros A p e B start bitset Hok Hs He Hf; [lia|].
  destruct (test_here A p e B start Hok ltac:(lia)) as (Hlk & Hse & Hee & Hin & Hhole & Hlast).
  simpl. rewrite (proj2 (Z.leb_le start last)) by lia. simpl.
  erewrite run_get by done. rewrite (u64_id bits) by lia.
  destruct (Z.ltb_spec start (es_start e)).
  { exists 0. split; [done|]. apply (test_ok_decided _ _ _ _ _ start); [lia|].
    split; [done|]. apply Hhole. lia. }
  rewrite (proj2 (Z.ltb_ge last _)) by lia.
  destruct (Z.eqb_spec (Z.land (es_state e) bits) 0) as [Hz|Hz]; simpl.
  { exists 0. split; [done|]. apply (test_ok_decided _ _ _ _ _ start); [lia|].
    split; [done|]. rewrite Hin by lia. auto. }
  unfold U64_MAX in *. rewrite u64_id by lia.
  destruct (Z.ltb_spec last (es_end e + 1)).
  { exists 1. split; [done|]. split; [auto|]. split; [|done]. intros _ x Hx. by apply Hin; [lia|]. }
  rewrite (run_next _ _ _ _ _ _ (io_seq _ _ _ Hok)). destruct B as [|[p' e'] B]; simpl.
  { exists 0. split; [done|]. apply (test_ok_decided _ _ _ _ _ last); [lia|].
    split; [done|]. apply Hlast; [done|lia]. }
  destruct (test_next _ _ _ _ _ _ Hok) as (Hok' & Hend & Hle). simpl in Hf.
  destruct (IH _ _ _ _ (es_end e + 1) 1 Hok' ltac:(lia) ltac:(lia) ltac:(lia)) as (r & Hr & H01 & Hiff).
  exists r. split; [exact Hr|]. split; [done|]. rewrite Hiff.
  rewrite <- (assoc_L (++)). simpl. split; intros Hall x Hx; [|apply Hall; lia].
  destruct (Z.le_gt_cases x (es_end e)); [|apply Hall; lia]. apply Hin; [lia|done].
Qed.

Lemma test_any_spec fuel A p e B start :
  io_ok w pre (A ++ (p, e) :: B) -> segs_end 0 A.*2 <= start <= last -> start <= es_end e ->
  (length B < fuel)%nat ->
  exists r, test_range_bit_loop fuel (Some p) start last bits false 0 w = Some (r, w) /\
    test_ok (A ++ (p, e) :: B).*2 start last bits false r.
Proof using Hb Hl.
  revert A p e B start. induction fuel as [|fuel IH]; intros A p e B start Hok Hs He Hf; [lia|].
  destruct (test_here A p e B start Hok ltac:(lia)) as (Hlk & Hse & Hee & Hin & Hhole & Hlast).
  simpl. rewrite (proj2 (Z.leb_le start last)) by lia. simpl.
  erewrite run_get by done. rewrite (u64_id bits) by lia.
  destruct (Z.ltb_spec last (es_start e)).
  { exists 0. split; [done|]. split; [auto|]. split; [done|].
    intros (x & Hx & Hbx). by destruct (Hhole x ltac:(lia)). }
  destruct (Z.eqb_spec (Z.land (es_state e) bits) 0) as [Hz|Hz]; simpl.
  2: { exists 1. split; [done|]. apply (test_ok_decided _ _ _ _ _ (Z.max start (es_start e))); [lia|].
       split; [done|]. apply Hin; [lia|done]. }
  assert (Hno : forall x, start <= x <= es_end e -> ~ has_bits (A ++ (p, e) :: B).*2 bits x).
  { intros x Hx. destruct (Z.lt_ge_cases x (es_start e)); [apply Hhole; lia|].
    rewrite Hin by lia. auto. }
  unfold U64_MAX in *. rewrite u64_id by lia.
  destruct (Z.ltb_spec last (es_end e + 1)).
  { exists 0. split; [done|]. split; [auto|]. split; [done|].
    intros (x & Hx & Hbx). by destruct (Hno x ltac:(lia)). }
  rewrite (run_next _ _ _ _ _ _ (io_seq _ _ _ Hok)). destruct B as [|[p' e'] B]; simpl.
  { exists 0. split; [done|]. split; [auto|]. split; [done|]. intros (x & Hx & Hbx).
    destruct (Z.le_gt_cases x (es_end e)); [by destruct (Hno x ltac:(lia))|].
    by destruct (Hlast eq_refl x ltac:(lia)). }
  destruct (test_next _ _ _ _ _ _ Hok) as (Hok' & Hend & Hle). simpl in Hf.
  destruct (IH _ _ _ _ (es_end e + 1) Hok' ltac:(lia) ltac:(lia) ltac:(lia)) as (r & Hr & H01 & Hiff).
  exists r. split; [exact Hr|]. split; [done|]. rewrite Hiff.
  rewrite <- (assoc_L (++)). simpl. split; intros (x & Hx & Hbx); exists x; (split; [|done]); [lia|].
  destruct (Z.le_gt_cases x (es_end e)); [by destruct (Hno x ltac:(lia))|lia].
Qed.
End TestLoop.

Lemma test_range_bit_spec fuel w pre L start last bits filled :
  io_ok w pre L -> 0 <= start <= last -> last < U64_MAX -> 0 <= bits < 2 ^ 31 ->
  (length L < fuel)%nat ->
  exists r, test_range_bit fuel start last bits filled w = Some (r, w) /\
    test_ok L.*2 start last bits filled r.
Proof.
  intros Hok Hs Hl Hb Hf.
  destruct (seg_split L start (io_segs _ _ _ Hok)) as (A & B & -> & HA & HB); [lia|].
  unfold test_range_bit. rewrite (run_search w pre A B) by (done || lia).
  rewrite length_app in Hf. destruct B as [|[p e] B]; simpl in *.
  - exists 0. split; [by destruct fuel|]. pose proof (io_segs _ _ _ Hok) as Hg.
    assert (Hno : forall x, start <= x -> ~ has_bits (A ++ []).*2 bits x).
    { intros x Hx. rewrite fmap_app in Hg |- *. apply no_bits_outside; [done|lia|done]. }
    split; [auto|]. split; [done|]. destruct filled.
    + intros Hall. by destruct (Hno start ltac:(lia) (Hall start ltac:(lia))).
    + intros (x & Hx & Hbx). by destruct (Hno x ltac:(lia)).
  - destruct filled.
    + eapply test_filled_spec; eauto; lia.
    + eapply test_any_spec; eauto; lia.
Qed.

(** ** Private values *)

(** What the search finds, by the state that covers the byte. *)
Lemma search_covers w pre A B start :
  io_ok w pre (A ++ B) -> segs_end 0 A.*2 <= start ->
  match B with (_, e) :: _ => start <= es_end e | [] => True end ->
  match B with
  | (p, e) :: _ => iw_heap w !! p = Some e /\
      seg_at (A ++ B).*2 start = if es_start e <=? start then Some e else None
  | [] => seg_at (A ++ B).*2 start = None
  end.
Proof.
  intros Hok HA HB.
  pose proof (io_segs _ _ _ Hok) as Hg. rewrite fmap_app in Hg |- *.
  destruct B as [|[p e] B].
  - rewrite (seg_at_app 0) by done. by rewrite (proj2 (Z.ltb_ge _ _)) by lia.
  - split; [apply (io_seg _ _ _ _ _ _ Hok)|]. ssimpl. rewrite (seg_at_cons_app 0) by done.
    rewrite (proj2 (Z.leb_le start (es_end e))) by lia.
    destruct (Z.ltb_spec start (es_start e)), (Z.leb_spec (es_start e) start); try lia; [|done].
    apply (seg_at_none_above 0); [by apply segs_ok_app in Hg as [? _]|lia].
Qed.

(** The state that starts exactly at [start]. *)
Definition state_at (l : list extent_state) (start : Z) : option extent_state :=
  match seg_at l start with
  | Some e => if es_start e =? start then Some e else None
  | None => None
  end.

Lemma get_state_private_spec w pre L start :
  io_ok w pre L -> 0 <= start < U64_MAX ->
  get_state_private start w = Some (match state_at L.*2 start with
    | Some e => (0, Some (es_private e)) | None => (- ENOENT, None) end, w).
Proof.
  intros Hok Hs. destruct (seg_split L start (io_segs _ _ _ Hok)) as (A & B & -> & HA & HB); [lia|].
  unfold get_state_private, state_at. rewrite (run_search w pre A B) by done.
  pose proof (search_covers w pre A B start Hok HA HB) as HB'.
  destruct B as [|[p e] B]; simpl; [by rewrite HB'|]. destruct HB' as [Hlk ->].
  erewrite run_get by done.
  destruct (Z.leb_spec (es_start e) start), (Z.eqb_spec (es_start e) start); simpl; try lia; done.
Qed.

(** Only the private value of the state that starts at [start] changes. *)
Lemma set_state_private_spec w pre L start v :
  io_ok w pre L -> 0 <= start < U64_MAX ->
  match state_at L.*2 start with
  | Some e => exists w' A p B, L = A ++ (p, e) :: B /\ set_state_private start v w = Some (0, w') /\
        io_ok w' pre (A ++ (p, es_with_private e v) :: B)
  | None => set_state_private start v w = Some (- ENOENT, w)
  end.
Proof.
  intros Hok Hs. destruct (seg_split L start (io_segs _ _ _ Hok)) as (A & B & -> & HA & HB); [lia|].
  unfold set_state_private, state_at.
  pose proof (search_covers w pre A B start Hok HA HB) as HB'.
  destruct B as [|[p e] B].
  { rewrite HB'. by rewrite (run_search w pre A []) by done. }
  destruct HB' as [Hlk ->].
  destruct (Z.leb_spec (es_start e) start); cycle 1.
  { rewrite (run_search w pre A ((p, e) :: B)) by done. simpl. erewrite run_get by done.
    by rewrite (proj2 (Z.eqb_neq _ _)) by lia. }
  destruct (Z.eqb_spec (es_start e) start); cycle 1.
  { rewrite (run_search w pre A ((p, e) :: B)) by done. simpl. erewrite run_get by done.
    by rewrite (proj2 (Z.eqb_neq _ _)) by lia. }
  pose proof (io_seg _ _ _ _ _ _ Hok) as [Hseg _].
  exists (with_heap w (<[p := es_with_private e v]> (iw_heap w))), A, p, B.
  split_and!; [done| |].
  - rewrite (run_search w pre A ((p, e) :: B)) by done. simpl. erewrite run_get by done.
    rewrite (proj2 (Z.eqb_eq _ _)) by done. reflexivity.
  - apply (io_ok_put w pre A p e (es_with_private e v) B Hok).
    pose proof (io_segs _ _ _ Hok) as Hg. rewrite fmap_app in Hg |- *.
    apply segs_ok_app in Hg as [HgA HgB]. apply segs_ok_app. split; [done|].
    destruct HgB as (Hse & Hlo & HgB). split; [exact Hse|]. by split.
Qed.

(** A state found at its own start is not in an earlier or a later part. *)
Lemma state_at_private w w' A p e B v start :
  io_ok w [] (A ++ (p, e) :: B) -> io_ok w' [] (A ++ (p, es_with_private e v) :: B) ->
  state_at (A ++ (p, e) :: B).*2 start = Some e ->
  state_at (A ++ (p, es_with_private e v) :: B).*2 start = Some (es_with_private e v).
Proof.
  intros Hok Hok' Hat.
  pose proof (io_segs _ _ _ Hok) as Hg. pose proof (io_segs _ _ _ Hok') as Hg'.
  unfold state_at in *. rewrite fmap_app in Hg. rewrite fmap_app in Hg'. rewrite fmap_app in Hat.
  rewrite fmap_app. ssimpl. apply segs_ok_app in Hg as [HgA HgB] .
  assert (He : es_start e = start /\ segs_end 0 A.*2 <= es_start e <= es_end e).
  { destruct (seg_at (A.*2 ++ e :: B.*2) start) as [e'|]; [|done].
    destruct (Z.eqb_spec (es_start e') start); [|done]. simplify_eq.
    destruct HgB as ((_&_&_&?&_) & ? & _). split; [done|lia]. }
  rewrite (seg_at_cons_app 0) by done. simpl.
  rewrite (proj2 (Z.ltb_ge _ _)), (proj2 (Z.leb_le _ _)) by lia. simpl.
  by rewrite (proj2 (Z.eqb_eq _ _)) by lia.
Qed.
End Spec.
