(* ===== verification/ExtentCacheProps.v ===== *)
(** What [extent-cache.c] guarantees: the cache is a set of disjoint ranges,
    and where its comparison goes wrong. *)

From S2P Require Import Prelude RbSpec RbTree RbShape RbInsert RbErase RbInstance ExtentCache.

Section Props.
Context {T : Type} `{RbTreeLaws T}.
Implicit Types (w : cache_world T) (L : list (ptr * cache_extent)).

(** [add_cache_extent] on a range that overlaps no range of the cache adds it
    and returns 0; on one that overlaps it returns [-EEXIST], frees the entry
    it allocated and leaves the cache as it was. *)
Theorem add_cache_extent_correct w L start size
  (Hwf : cache_wf w L) (Hm : cw_mallocs w <> O)
  (Hrange : 0 <= start /\ 0 < size /\ start + size < 2 ^ 64) :
  exists r w' L', add_cache_extent start size w = Some (r, w') /\ cache_wf w' L' /\
    ((forall e, e ∈ L.*2 -> ce_end e <= start \/ start + size <= ce_start e) /\
       r = 0 /\ L'.*2 ≡ₚ CacheExtent 0 start size :: L.*2
     \/ (exists e, e ∈ L.*2 /\ start < ce_end e /\ ce_start e < start + size) /\
       r = - EEXIST /\ L' = L).
Proof.
  destruct Hrange as (H1 & H2 & H3).
  destruct (decide (Exists (fun e => start < ce_end e /\ ce_start e < start + size) L.*2)) as [Ho|Hno].
  - apply Exists_exists in Ho. destruct (add_cache_extent_exists w L 0 start size) as (w' & Hr & Hw'); [done..|].
    exists (- EEXIST), w', L. split; [done|]. split; [done|]. by right.
  - assert (Hsep : forall e, e ∈ L.*2 -> ce_end e <= start \/ start + size <= ce_start e).
    { intros e He. destruct (Z.le_gt_cases (ce_end e) start), (Z.le_gt_cases (start + size) (ce_start e)); auto.
      exfalso. apply Hno, Exists_exists. exists e. split; [done|lia]. }
    destruct (add_cache_extent_new w L 0 start size) as (w' & L1 & L2 & p & Hr & -> & Hw'); [done..|].
    exists 0, w', (L1 ++ (p, CacheExtent 0 start size) :: L2). split; [done|]. split; [done|]. left.
    split; [done|]. split; [done|]. rewrite !fmap_app. simpl. by rewrite Permutation_middle.
Qed.

(** [search_cache_extent] finds the first range that ends after the byte,
    and [lookup_cache_extent] a range that overlaps exactly when there is one. *)
Theorem cache_extent_queries tree (ce : entries) ps es start size
  (Hc : cache_seq tree ce ps es)
  (Hrange : 0 <= start /\ 0 < size /\ start + size < 2 ^ 64) :
  (exists r, search_cache_extent tree ce start = Some r /\
    match r with
    | None => forall e, e ∈ es -> ce_end e <= start
    | Some p => exists e1 e e2, es = e1 ++ e :: e2 /\ ce p = Some e /\ start < ce_end e /\
        forall f, f ∈ e1 -> ce_end f <= start
    end) /\
  (exists r, lookup_cache_extent tree ce start size = Some r /\
    match r with
    | Some p => exists e, ce p = Some e /\ start < ce_end e /\ ce_start e < start + size
    | None => forall e, e ∈ es -> ce_end e <= start \/ start + size <= ce_start e
    end).
Proof.
  destruct Hrange as (H1 & H2 & H3). split.
  - destruct Hc as [Hseq Hv Hok].
    destruct (ranges_split _ _ start 1 Hok) as (A & M & C & -> & HAe & HA & HM & HC); [lia|].
    pose proof Hv as Hv'. apply Forall2_app_inv_r in Hv' as (pA & pr & HvA & Hvr & ->).
    exists (head pr). split.
    + apply (search_cache_extent_split tree ce pA pr A (M ++ C)); [done|by eapply Forall2_length|lia|lia|].
      destruct M as [|m M]; simpl; [|by apply HM; left].
      destruct C as [|c C]; [done|]. specialize (HC c ltac:(left)).
      apply ranges_ok_app in Hok as [_ (_ & Hsz & _)]. unfold ce_end. lia.
    + destruct pr as [|p pr]; simpl.
      * apply Forall2_nil_inv_l in Hvr. rewrite Hvr. intros e He. rewrite app_nil_r in He. by apply HA.
      * apply Forall2_cons_inv_l in Hvr as (e & e2 & Hp & Hv2 & Heq2).
        exists A, e, e2. split_and!; [by rewrite Heq2|done| |done].
        destruct M as [|m M]; simpl in Heq2; simplify_eq; [|by apply HM; left].
        specialize (HC e ltac:(left)).
        apply ranges_ok_app in Hok as [_ (_ & Hsz & _)]. unfold ce_end. lia.
  - destruct (lookup_cache_extent_spec tree ce ps es start size Hc H1 H2 H3) as (r & Hr & Hcase).
    exists r. split; [done|]. destruct r; [|done].
    destruct Hcase as (e & _ & He & Ho). eauto.
Qed.

(** [free_extent_cache_tree] empties the cache and frees every entry. *)
Theorem free_extent_cache_tree_correct w L fuel
  (Hwf : cache_wf w L) (Hf : (length L < fuel)%nat) :
  exists w', free_extent_cache_tree fuel w = Some (tt, w') /\ cache_wf w' [] /\ cw_heap w' = ∅.
Proof.
  enough (exists w', free_extent_cache_tree fuel w = Some (tt, w') /\ cache_wf w' []) as (w' & Hr & Hw').
  { exists w'. split; [done|]. split; [done|]. apply Hw'. }
  unfold free_extent_cache_tree. revert w L Hwf Hf.
  induction fuel as [|fuel IH]; intros w L Hwf Hf; [lia|]. simpl.
  pose proof Hwf as [Hs Hh Hr Hn]. unfold first_cache_extent. rewrite (rb_first_spec _ _ Hs).
  destruct L as [|[p e] L]; simpl; [by exists w|].
  destruct (rb_erase_spec (cw_tree w) [] p L.*1 Hs) as (t & Ht & Hs').
  unfold remove_cache_extent. rewrite Ht. simpl in Hf.
  pose proof (rb_seq_nodup _ _ Hs) as Hnd. apply NoDup_cons in Hnd as [Hp Hnd].
  edestruct (IH (CacheWorld t (delete p (cw_heap w)) (cw_next w) (cw_mallocs w)) L) as (w' & Hr' & Hw');
    [|lia|].
  - split; simpl; [done| | |].
    + rewrite Hh. simpl. rewrite delete_insert_id; [done|]. by apply not_elem_of_list_to_map_1.
    + destruct Hr as (?&?&?&Hr). eapply ranges_ok_weaken, Hr. simpl in *. unfold ce_end in *. lia.
    + intros q Hq. apply Hn. simpl. set_solver.
  - exists w'. split; [|done]. exact Hr'.
Qed.

(** [add_cache_extent2] takes no notice of the object id: a range of one
    object is refused when it overlaps a range of another one. *)
Theorem add_cache_extent2_ignores_objectid w L objectid start size e
  (Hwf : cache_wf w L) (Hm : cw_mallocs w <> O)
  (Hrange : 0 <= start /\ 0 < size /\ start + size < 2 ^ 64)
  (He : e ∈ L.*2) (Hother : ce_objectid e <> objectid)
  (Hover : start < ce_end e /\ ce_start e < start + size) :
  exists w', add_cache_extent2 objectid start size w = Some (- EEXIST, w') /\ cache_wf w' L.
Proof.
  destruct Hrange as (H1 & H2 & H3). apply add_cache_extent_exists; eauto.
Qed.
(** The sum in [cache_tree_comp_range] wraps to 0 for a range that ends at
    2^64: it compares as before every key, and a lookup of its own bytes finds
    nothing. *)
Theorem last_range_never_found tree (ce : entries) ps es p e start size
  (Hseq : rb_seq tree (ps ++ [p])) (Hv : views ce ps es) (Hok : ranges_ok 0 es) (Hp : ce p = Some e)
  (Hend : ce_start e + ce_size e = 2 ^ 64) (Hlast : ranges_end 0 es <= start)
  (Hin : ce_start e <= start /\ 0 < size /\ start + size < 2 ^ 64) (Hs : 0 <= start) :
  start < ce_end e /\ lookup_cache_extent tree ce start size = Some None.
Proof.
  destruct Hin as (H1 & H2 & H3). split; [unfold ce_end; lia|].
  set (range := {| sr_objectid := 0; sr_start := start; sr_size := size |}).
  unfold lookup_cache_extent. fold range.
  rewrite (rb_search_next tree (ps ++ [p]) [] (range_cmp ce range)).
  - done.
  - by rewrite app_nil_r.
  - intros x [Hx|Hx]%elem_of_app.
    + by apply (range_before ce range ps es 0).
    + apply list_elem_of_singleton in Hx as ->. exists 1. split; [|done].
      unfold range_cmp. rewrite Hp. simpl. unfold cache_tree_comp_range. rewrite Hend.
      change (u64 (2 ^ 64)) with 0. by rewrite (proj2 (Z.leb_le _ _)) by (simpl; lia).
  - by intros x ?%elem_of_nil.
Qed.
End Props.

(** ** Concrete caches *)

Definition empty_cache : cache_world rb_mem := CacheWorld RB_ROOT ∅ 1%positive 8.

Lemma empty_cache_wf : cache_wf empty_cache [].
Proof. split; simpl; [apply balanced_empty|done|done|by intros ? ?%elem_of_nil]. Qed.

(** The cache that holds the one range [100, 150) of object 7. *)
Definition one_range : cache_world rb_mem :=
  CacheWorld (RbMem (Some 1%positive) {[1%positive := RbNode None RB_BLACK None None]})
    {[1%positive := CacheExtent 7 100 50]} 2%positive 8.

Lemma one_node_balanced : balanced (cw_tree one_range) [1%positive].
Proof.
  exists (Node RB_BLACK Leaf 1%positive Leaf), 1%nat.
  split_and!; [|done| |done].
  - split_and!; [by repeat split|done|]. apply (bool_decide_unpack _). by vm_compute.
  - by exists O.
Qed.

Lemma one_range_wf : cache_wf one_range [(1%positive, CacheExtent 7 100 50)].
Proof.
  split; simpl; [apply one_node_balanced|done|unfold ce_end; simpl; lia|].
  intros p ->%list_elem_of_singleton. lia.
Qed.

Lemma add_cache_extent_correct_witness :
  exists r w' L', add_cache_extent 120 10 one_range = Some (r, w') /\ cache_wf w' L' /\
    ((forall e, e ∈ [CacheExtent 7 100 50] -> ce_end e <= 120 \/ 120 + 10 <= ce_start e) /\
       r = 0 /\ L'.*2 ≡ₚ CacheExtent 0 120 10 :: [CacheExtent 7 100 50]
     \/ (exists e, e ∈ [CacheExtent 7 100 50] /\ 120 < ce_end e /\ ce_start e < 120 + 10) /\
       r = - EEXIST /\ L' = [(1%positive, CacheExtent 7 100 50)]).
Proof.
  apply (add_cache_extent_correct one_range [(1%positive, CacheExtent 7 100 50)] 120 10).
  - apply one_range_wf.
  - done.
  - lia.
Defined.

Lemma cache_extent_queries_witness :
  (exists r, search_cache_extent (cw_tree one_range) (fun p => cw_heap one_range !! p) 60 = Some r /\
    match r with
    | None => forall e, e ∈ [CacheExtent 7 100 50] -> ce_end e <= 60
    | Some p => exists e1 e e2, [CacheExtent 7 100 50] = e1 ++ e :: e2 /\
        cw_heap one_range !! p = Some e /\ 60 < ce_end e /\ forall f, f ∈ e1 -> ce_end f <= 60
    end) /\
  (exists r, lookup_cache_extent (cw_tree one_range) (fun p => cw_heap one_range !! p) 60 20 = Some r /\
    match r with
    | Some p => exists e, cw_heap one_range !! p = Some e /\ 60 < ce_end e /\ ce_start e < 60 + 20
    | None => forall e, e ∈ [CacheExtent 7 100 50] -> ce_end e <= 60 \/ 60 + 20 <= ce_start e
    end).
Proof.
  apply (cache_extent_queries (cw_tree one_range) (fun p => cw_heap one_range !! p)
    [1%positive] [CacheExtent 7 100 50] 60 20).
  - apply (cache_wf_seq _ _ one_range_wf).
  - lia.
Defined.

Lemma free_extent_cache_tree_correct_witness :
  exists w', free_extent_cache_tree 3 one_range = Some (tt, w') /\ cache_wf w' [] /\ cw_heap w' = ∅.
Proof.
  apply (free_extent_cache_tree_correct one_range [(1%positive, CacheExtent 7 100 50)] 3).
  - apply one_range_wf.
  - simpl. lia.
Defined.

Lemma add_cache_extent2_ignores_objectid_witness :
  exists w', add_cache_extent2 8 120 10 one_range = Some (- EEXIST, w') /\
    cache_wf w' [(1%positive, CacheExtent 7 100 50)].
Proof.
  apply (add_cache_extent2_ignores_objectid one_range _ 8 120 10 (CacheExtent 7 100 50)).
  - apply one_range_wf.
  - done.
  - lia.
  - left.
  - done.
  - unfold ce_end. simpl. lia.
Defined.

Lemma last_range_never_found_witness :
  2 ^ 64 - 50 < ce_end (CacheExtent 0 (2 ^ 64 - 100) 100) /\
  lookup_cache_extent (cw_tree one_range) (fun _ => Some (CacheExtent 0 (2 ^ 64 - 100) 100))
    (2 ^ 64 - 50) 10 = Some None.
Proof.
  apply (last_range_never_found (cw_tree one_range) _ [] [] 1%positive
    (CacheExtent 0 (2 ^ 64 - 100) 100) (2 ^ 64 - 50) 10).
  - apply one_node_balanced.
  - constructor.
  - done.
  - done.
  - done.
  - simpl. lia.
  - simpl. lia.
  - lia.
Defined.
