(* ===== verification/ExtentIoProps.v ===== *)
(** What the extent state tree of [extent_io.c] guarantees, byte by byte. *)

From S2P Require Import Prelude RbSpec RbTree RbShape RbInsert RbErase RbInstance ExtentCache ExtentIo.
From S2P Require Import ExtentIoInv ExtentIoSpec.

Section Props.
Context {T : Type} `{RbTreeLaws T}.
Implicit Types (w : io_world T) (L : list seg).

(** C25: [clear_extent_bits] removes exactly the given bits from exactly the bytes
    of the range, keeps the tree an ordered set of disjoint states with nothing
    leaked, and returns the bits that some byte of the range had.  It fails
    only when an allocation fails, and then has cleared a first part. *)
Theorem clear_extent_bits_correct fuel w L start last bits
  (Hok : io_ok w [] L) (Hrange : 0 <= start <= last) (Hlast : last < U64_MAX)
  (Hbits : 0 <= bits < 2 ^ 31) (Hfuel : (3 * length L + 2 < fuel)%nat) :
  exists r w' L', clear_extent_bits fuel start last bits w = Some (r, w') /\ io_ok w' [] L' /\
    ((forall x, flag_of L'.*2 x =
        if (start <=? x) && (x <=? last) then Z.ldiff (flag_of L.*2 x) bits else flag_of L.*2 x) /\
     hit L.*2 bits start (last + 1) r
     \/ r = - ENOMEM /\ (iw_mallocs w < fuel)%nat /\
        exists m, start <= m <= last /\ cleared_to start m bits L.*2 L'.*2).
Proof.
  destruct (clear_extent_bits_spec fuel w L start last bits) as (r & w' & Hr & L' & Hok' & Hcase); [done..|].
  exists r, w', L'. split; [done|]. split; [done|].
  destruct Hcase as [(Hc & v & -> & Hh)|(-> & [Hm _] & Hc)]; [left|by right].
  split; [|exact Hh]. intros x. rewrite Hc.
  destruct (Z.leb_spec start x), (Z.ltb_spec x (last + 1)), (Z.leb_spec x last); simpl; lia || done.
Qed.

(** C33: [set_extent_bits] on a range whose last byte is the last byte of a state or
    not in any: the bits are added to exactly the bytes of the range. *)
Theorem set_extent_bits_correct fuel w L start last bits
  (Hok : io_ok w [] L) (Hrange : 0 <= start <= last) (Hlast : last < U64_MAX)
  (Hbits : 0 <= bits < 2 ^ 31) (Hfuel : (3 * length L + 2 < fuel)%nat)
  (Hmem : (fuel <= iw_mallocs w)%nat) (Hends : straddle L.*2 last = None) :
  exists w' L', set_extent_bits fuel start last bits w = Some (0, w') /\ io_ok w' [] L' /\
    forall x, flag_of L'.*2 x =
      if (start <=? x) && (x <=? last) then Z.lor (flag_of L.*2 x) bits else flag_of L.*2 x.
Proof.
  destruct (set_extent_bits_spec fuel w L start last bits) as (r & w' & Hr & L' & Hok' & Hcase); [done..|].
  destruct Hcase as [[-> Hf]|(_ & Hn & _)]; [|lia].
  exists w', L'. split; [done|]. split; [done|]. intros x. rewrite Hf.
  unfold set_result, set_from, set_to. rewrite Hends.
  destruct (Z.leb_spec start x), (Z.ltb_spec x (last + 1)), (Z.leb_spec x last), (Z.ltb_spec last x);
    simpl; lia || done.
Qed.

(** When a state covers the last byte of the range and the byte after it,
    [set_extent_bits] sets the bits on the wrong half of it: the bytes of the
    state after the range get the bits, those of the range in it do not. *)
Theorem set_extent_bits_wrong_half fuel w L start last bits e
  (Hok : io_ok w [] L) (Hrange : 0 <= start <= last) (Hlast : last < U64_MAX)
  (Hbits : 0 <= bits < 2 ^ 31) (Hfuel : (3 * length L + 2 < fuel)%nat)
  (Hmem : (fuel <= iw_mallocs w)%nat) (Hends : straddle L.*2 last = Some e) :
  exists w' L', set_extent_bits fuel start last bits w = Some (0, w') /\ io_ok w' [] L' /\
    (forall x, start <= x < es_start e -> flag_of L'.*2 x = Z.lor (flag_of L.*2 x) bits) /\
    (forall x, Z.max start (es_start e) <= x <= last -> flag_of L'.*2 x = flag_of L.*2 x) /\
    (forall x, last < x <= es_end e -> flag_of L'.*2 x = Z.lor (flag_of L.*2 x) bits) /\
    (forall x, x < start \/ es_end e < x -> flag_of L'.*2 x = flag_of L.*2 x).
Proof.
  destruct (set_extent_bits_spec fuel w L start last bits) as (r & w' & Hr & L' & Hok' & Hcase); [done..|].
  destruct Hcase as [[-> Hf]|(_ & Hn & _)]; [|lia].
  exists w', L'. split; [done|]. split; [done|].
  assert (es_start e <= last < es_end e).
  { unfold straddle in Hends. destruct (seg_at L.*2 last) as [e'|] eqn:He; [|done].
    destruct (Z.ltb_spec last (es_end e')); [|done]. simplify_eq.
    pose proof (seg_at_range 0 _ _ _ (io_segs _ _ _ Hok) He). lia. }
  setoid_rewrite Hf. unfold set_result, set_from, set_to. rewrite Hends.
  split_and!; intros x Hx;
    destruct (Z.leb_spec start x), (Z.ltb_spec x (Z.max (es_start e) start)),
      (Z.leb_spec x (es_end e)), (Z.ltb_spec last x); simpl; lia || done.
Qed.

(** [find_first_extent_bit] answers [None] exactly when no byte from [start] on
    has one of the bits; otherwise its range consists of such bytes and none
    lies before it.  The tree is left alone. *)
Theorem find_first_extent_bit_correct fuel w L start bits
  (Hok : io_ok w [] L) (Hstart : 0 <= start < U64_MAX) (Hbits : 0 <= bits < 2 ^ 31)
  (Hfuel : (length L < fuel)%nat) :
  exists r, find_first_extent_bit fuel start bits w = Some (r, w) /\
    match r with
    | None => forall x, start <= x -> Z.land (flag_of L.*2 x) bits = 0
    | Some (s, e) => s <= e /\ start <= e /\
        (forall x, s <= x <= e -> Z.land (flag_of L.*2 x) bits <> 0) /\
        forall x, start <= x < s -> Z.land (flag_of L.*2 x) bits = 0
    end.
Proof.
  destruct (find_first_extent_bit_spec fuel w [] L start bits) as (r & Hr & Hcase); [done..|].
  exists r. split; [done|]. destruct r as [[s e]|]; simpl in Hcase.
  - destruct Hcase as (H1 & H2 & H3 & H4). split_and!; [done..|].
    intros x Hx. apply Z.eq_dne. by apply H4.
  - intros x Hx. apply Z.eq_dne. by apply Hcase.
Qed.

(** [test_range_bit] answers 1 exactly when every byte of the range (for
    [filled]), respectively some byte, has one of the bits, and 0 otherwise. *)
Theorem test_range_bit_correct fuel w L start last bits (filled : bool)
  (Hok : io_ok w [] L) (Hrange : 0 <= start <= last) (Hlast : last < U64_MAX)
  (Hbits : 0 <= bits < 2 ^ 31) (Hfuel : (length L < fuel)%nat) :
  exists r, test_range_bit fuel start last bits filled w = Some (r, w) /\ (r = 0 \/ r = 1) /\
    (r = 1 <-> if filled
               then forall x, start <= x <= last -> Z.land (flag_of L.*2 x) bits <> 0
               else exists x, start <= x <= last /\ Z.land (flag_of L.*2 x) bits <> 0).
Proof.
  destruct (test_range_bit_spec fuel w [] L start last bits filled) as (r & Hr & H01 & Hiff); [done..|].
  exists r. by split.
Qed.

(** A private value set on the state that starts at a byte is the one read
    back there; where no state starts both return [-ENOENT]. *)
Theorem state_private_roundtrip w L start v
  (Hok : io_ok w [] L) (Hstart : 0 <= start < U64_MAX) :
  match state_at L.*2 start with
  | Some e => exists w', set_state_private start v w = Some (0, w') /\
      get_state_private start w' = Some ((0, Some v), w')
  | None => set_state_private start v w = Some (- ENOENT, w) /\
      get_state_private start w = Some ((- ENOENT, None), w)
  end.
Proof.
  pose proof (set_state_private_spec w [] L start v Hok Hstart) as Hset.
  pose proof (get_state_private_spec w [] L start Hok Hstart) as Hget.
  destruct (state_at L.*2 start) as [e|] eqn:Hat; [|done].
  destruct Hset as (w' & A & p & B & -> & Hr & Hok'). exists w'. split; [done|].
  rewrite (get_state_private_spec w' [] _ start Hok' Hstart).
  assert (state_at (A ++ (p, es_with_private e v) :: B).*2 start = Some (es_with_private e v)) as ->; [|done].
  by apply (state_at_private w w').
Qed.
End Props.

(** ** A concrete tree *)

(** The bytes 0 to 9 are dirty; the state is the node 1. *)
Definition dirty_state : extent_state := ExtentState (CacheExtent 0 0 10) 0 9 1 EXTENT_DIRTY 0.
Definition dirty_world : io_world rb_mem :=
  IoWorld (RbMem (Some 1%positive) {[1%positive := RbNode None RB_BLACK None None]})
    {[1%positive := dirty_state]} 2%positive 100.
Definition dirty_list : list seg := [(1%positive, dirty_state)].

Lemma dirty_world_ok : io_ok dirty_world [] dirty_list.
Proof.
  split.
  - exists (Node RB_BLACK Leaf 1%positive Leaf), 1%nat.
    split_and!; [|done| |done].
    + split_and!; [by repeat split|done|]. apply (bool_decide_unpack _). by vm_compute.
    + by exists O.
  - split; [|done]. apply (bool_decide_unpack _). by vm_compute.
  - simpl. unfold seg_ok, U64_MAX. simpl. split_and!; (done || lia).
  - intros p Hp. apply list_elem_of_singleton in Hp as ->. simpl. lia.
Qed.

Lemma clear_extent_bits_correct_witness :
  exists r w' L', clear_extent_bits 20 2 5 EXTENT_DIRTY dirty_world = Some (r, w') /\ io_ok w' [] L' /\
    ((forall x, flag_of L'.*2 x =
        if (2 <=? x) && (x <=? 5) then Z.ldiff (flag_of dirty_list.*2 x) EXTENT_DIRTY
        else flag_of dirty_list.*2 x) /\
     hit dirty_list.*2 EXTENT_DIRTY 2 (5 + 1) r
     \/ r = - ENOMEM /\ (iw_mallocs dirty_world < 20)%nat /\
        exists m, 2 <= m <= 5 /\ cleared_to 2 m EXTENT_DIRTY dirty_list.*2 L'.*2).
Proof.
  apply (clear_extent_bits_correct 20 dirty_world dirty_list 2 5 EXTENT_DIRTY dirty_world_ok);
    (done || (unfold EXTENT_DIRTY, U64_MAX; lia) || (simpl; lia)).
Defined.

Lemma set_extent_bits_correct_witness :
  exists w' L', set_extent_bits 20 8 12 EXTENT_UPTODATE dirty_world = Some (0, w') /\ io_ok w' [] L' /\
    forall x, flag_of L'.*2 x =
      if (8 <=? x) && (x <=? 12) then Z.lor (flag_of dirty_list.*2 x) EXTENT_UPTODATE
      else flag_of dirty_list.*2 x.
Proof.
  apply (set_extent_bits_correct 20 dirty_world dirty_list 8 12 EXTENT_UPTODATE dirty_world_ok);
    (done || (unfold EXTENT_UPTODATE, U64_MAX; simpl; lia)).
Defined.

(** Setting a bit on the bytes 0 to 4 of the dirty range sets it on the bytes
    5 to 9. *)
Lemma set_extent_bits_wrong_half_witness :
  exists w' L', set_extent_bits 20 0 4 EXTENT_UPTODATE dirty_world = Some (0, w') /\ io_ok w' [] L' /\
    (forall x, 0 <= x < 0 -> flag_of L'.*2 x = Z.lor (flag_of dirty_list.*2 x) EXTENT_UPTODATE) /\
    (forall x, Z.max 0 0 <= x <= 4 -> flag_of L'.*2 x = flag_of dirty_list.*2 x) /\
    (forall x, 4 < x <= 9 -> flag_of L'.*2 x = Z.lor (flag_of dirty_list.*2 x) EXTENT_UPTODATE) /\
    (forall x, x < 0 \/ 9 < x -> flag_of L'.*2 x = flag_of dirty_list.*2 x).
Proof.
  apply (set_extent_bits_wrong_half 20 dirty_world dirty_list 0 4 EXTENT_UPTODATE dirty_state dirty_world_ok);
    (done || (unfold EXTENT_UPTODATE, U64_MAX; simpl; lia)).
Defined.

Lemma find_first_extent_bit_correct_witness :
  exists r, find_first_extent_bit 5 3 EXTENT_DIRTY dirty_world = Some (r, dirty_world) /\
    match r with
    | None => forall x, 3 <= x -> Z.land (flag_of dirty_list.*2 x) EXTENT_DIRTY = 0
    | Some (s, e) => s <= e /\ 3 <= e /\
        (forall x, s <= x <= e -> Z.land (flag_of dirty_list.*2 x) EXTENT_DIRTY <> 0) /\
        forall x, 3 <= x < s -> Z.land (flag_of dirty_list.*2 x) EXTENT_DIRTY = 0
    end.
Proof.
  apply (find_first_extent_bit_correct 5 dirty_world dirty_list 3 EXTENT_DIRTY dirty_world_ok);
    (done || (unfold EXTENT_DIRTY, U64_MAX; lia) || (simpl; lia)).
Defined.

Lemma test_range_bit_correct_witness :
  exists r, test_range_bit 5 3 7 EXTENT_DIRTY true dirty_world = Some (r, dirty_world) /\ (r = 0 \/ r = 1) /\
    (r = 1 <-> forall x, 3 <= x <= 7 -> Z.land (flag_of dirty_list.*2 x) EXTENT_DIRTY <> 0).
Proof.
  apply (test_range_bit_correct 5 dirty_world dirty_list 3 7 EXTENT_DIRTY true dirty_world_ok);
    (done || (unfold EXTENT_DIRTY, U64_MAX; lia) || (simpl; lia)).
Defined.

Lemma state_private_roundtrip_witness :
  exists w', set_state_private 0 77 dirty_world = Some (0, w') /\
    get_state_private 0 w' = Some ((0, Some 77), w').
Proof.
  apply (state_private_roundtrip dirty_world dirty_list 0 77 dirty_world_ok). unfold U64_MAX. lia.
Defined.
