(* ===== verification/Buf.v ===== *)
(** Extent buffers as bytes: little-endian fields and block copies.

    The data of a [struct extent_buffer] is a function from offsets to bytes.
    Reading a field of [n] bytes is [get_le n], writing one [put_le n]; the
    copies of [extent_io.c] are functions on the bytes. *)

From S2P Require Import Prelude.

Definition buf : Type := Z -> Z.

(** [get_unaligned_le8/16/32/64] and [put_unaligned_le8/16/32/64], by size. *)
Fixpoint get_le (n : nat) (b : buf) (off : Z) : Z :=
  match n with
  | O => 0
  | S n => u8 (b off) + 256 * get_le n b (off + 1)
  end.

Definition put_le (n : nat) (off v : Z) (b : buf) : buf := fun x =>
  if (off <=? x) && (x <? off + Z.of_nat n) then u8 (v / 256 ^ (x - off)) else b x.

(** [copy_extent_buffer(dst, src, dst_offset, src_offset, len)] *)
Definition copy_extent_buffer (dst src : buf) (dst_offset src_offset len : Z) : buf := fun x =>
  if (dst_offset <=? x) && (x <? dst_offset + len) then src (src_offset + (x - dst_offset)) else dst x.

(** [memmove_extent_buffer]: the source is read before it is overwritten. *)
Definition memmove_extent_buffer (dst : buf) (dst_offset src_offset len : Z) : buf :=
  copy_extent_buffer dst dst dst_offset src_offset len.

Definition memset_extent_buffer (b : buf) (c start len : Z) : buf := fun x =>
  if (start <=? x) && (x <? start + len) then u8 c else b x.

Fixpoint read_extent_buffer (b : buf) (start : Z) (len : nat) : list Z :=
  match len with O => [] | S n => b start :: read_extent_buffer b (start + 1) n end.

Fixpoint write_extent_buffer (b : buf) (src : list Z) (start : Z) : buf :=
  match src with
  | [] => b
  | v :: src => fun x => if x =? start then v else write_extent_buffer b src (start + 1) x
  end.

(** [memcmp_extent_buffer(eb, ptrv, start, len) == 0] *)
Definition memcmp_extent_buffer (b : buf) (ptrv : list Z) (start : Z) : bool :=
  bool_decide (read_extent_buffer b start (length ptrv) = ptrv).

(** ** Agreement on a range *)

Definition agree (b b' : buf) (lo hi : Z) : Prop := forall x, lo <= x < hi -> b' x = b x.

Implicit Types (b : buf).

(** Decide the comparisons of byte positions that the goal branches on. *)
Ltac zbool :=
  repeat match goal with
  | |- context [?a <=? ?b] => destruct (Z.leb_spec a b)
  | |- context [?a <? ?b] => destruct (Z.ltb_spec a b)
  | |- context [?a =? ?b] => destruct (Z.eqb_spec a b)
  end; simpl.

(** A byte the writes leave alone. *)
Ltac untouched :=
  unfold agree, memmove_extent_buffer, copy_extent_buffer, put_le, memset_extent_buffer;
  intros; zbool; first [ lia | done | reflexivity ].

Lemma agree_refl b lo hi : agree b b lo hi.
Proof. by intros x Hx. Qed.
Lemma agree_trans b1 b2 b3 lo hi : agree b1 b2 lo hi -> agree b2 b3 lo hi -> agree b1 b3 lo hi.
Proof. intros H1 H2 x Hx. by rewrite H2, H1. Qed.
Lemma agree_sub b b' lo hi lo' hi' : agree b b' lo hi -> lo <= lo' -> hi' <= hi -> agree b b' lo' hi'.
Proof. intros H H1 H2 x Hx. apply H. lia. Qed.

Lemma get_le_agree n b b' off off' :
  (forall x, 0 <= x < Z.of_nat n -> b' (off' + x) = b (off + x)) -> get_le n b' off' = get_le n b off.
Proof.
  revert off off'. induction n as [|n IH]; intros off off' Hag; [done|]. cbn [get_le].
  rewrite <- (Z.add_0_r off) at 1. rewrite <- (Z.add_0_r off') at 1. rewrite Hag by lia.
  f_equal. f_equal. apply IH. intros x Hx.
  replace (off' + 1 + x) with (off' + (x + 1)) by lia. rewrite Hag by lia. f_equal. lia.
Qed.

Lemma get_le_same n b b' off : agree b b' off (off + Z.of_nat n) -> get_le n b' off = get_le n b off.
Proof. intros Hag. apply get_le_agree. intros x Hx. apply Hag. lia. Qed.

Lemma get_le_range n b off : 0 <= get_le n b off < 256 ^ Z.of_nat n.
Proof.
  revert off. induction n as [|n IH]; intros off; [cbn; lia|]. cbn [get_le].
  specialize (IH (off + 1)). rewrite Nat2Z.inj_succ, Z.pow_succ_r by lia.
  pose proof (Z.mod_pos_bound (b off) (2 ^ 8) ltac:(lia)). unfold u8 in *.
  change (2 ^ 8) with 256 in *. lia.
Qed.

Lemma u8_u8 x : u8 (u8 x) = u8 x.
Proof. apply u8_id, Z.mod_pos_bound. lia. Qed.

Lemma get_put_le n b off v : get_le n (put_le n off v b) off = v mod 256 ^ Z.of_nat n.
Proof.
  enough (forall k, 0 <= k -> forall n', Z.of_nat n' + k = Z.of_nat n ->
    get_le n' (put_le n off v b) (off + k) = (v / 256 ^ k) mod 256 ^ Z.of_nat n') as H.
  { rewrite <- (Z.add_0_r off) at 2. rewrite (H 0) by lia. by rewrite Z.pow_0_r, Z.div_1_r. }
  intros k Hk n'. revert k Hk. induction n' as [|n' IH]; intros k Hk Hn; [by rewrite Z.mod_1_r|].
  cbn [get_le]. rewrite <- (Z.add_assoc off k 1), IH by lia. unfold put_le at 1.
  rewrite (proj2 (Z.leb_le _ _)), (proj2 (Z.ltb_lt _ _)) by lia. simpl.
  rewrite u8_u8, Z.add_simpl_l, Z.pow_add_r, <- Z.div_div by lia. unfold u8.
  rewrite Nat2Z.inj_succ, Z.pow_succ_r by lia. change (256 ^ 1) with 256. change (2 ^ 8) with 256.
  rewrite Z.rem_mul_r by lia. done.
Qed.

Lemma get_put_le_id n b off v :
  0 <= v < 256 ^ Z.of_nat n -> get_le n (put_le n off v b) off = v.
Proof. intros Hv. rewrite get_put_le. by apply Z.mod_small. Qed.

Lemma get_put_le_other n m b off off' v :
  off + Z.of_nat n <= off' \/ off' + Z.of_nat m <= off ->
  get_le n (put_le m off' v b) off = get_le n b off.
Proof. intros Hd. apply get_le_same. intros x Hx. unfold put_le. zbool; lia || done. Qed.

(** ** Strings of bytes *)

Lemma read_length b off n : length (read_extent_buffer b off n) = n.
Proof. revert off. induction n; intros; simpl; auto. Qed.

Lemma read_agree b b' off off' n :
  (forall x, 0 <= x < Z.of_nat n -> b' (off' + x) = b (off + x)) ->
  read_extent_buffer b' off' n = read_extent_buffer b off n.
Proof.
  revert off off'. induction n as [|n IH]; intros off off' Hag; [done|]. simpl. f_equal.
  - specialize (Hag 0). rewrite !Z.add_0_r in Hag. apply Hag. lia.
  - apply IH. intros x Hx. replace (off' + 1 + x) with (off' + (x + 1)) by lia.
    rewrite Hag by lia. f_equal. lia.
Qed.

Lemma read_same b b' off n :
  agree b b' off (off + Z.of_nat n) -> read_extent_buffer b' off n = read_extent_buffer b off n.
Proof. intros Hag. apply read_agree. intros x Hx. apply Hag. lia. Qed.

Lemma read_app b off n m :
  read_extent_buffer b off (n + m) = read_extent_buffer b off n ++ read_extent_buffer b (off + Z.of_nat n) m.
Proof.
  revert off. induction n as [|n IH]; intros off; cbn [read_extent_buffer Nat.add app].
  - by rewrite Z.add_0_r.
  - f_equal. rewrite IH. do 2 f_equal. lia.
Qed.

Lemma read_nth b off n i : (i < n)%nat -> nth i (read_extent_buffer b off n) 0 = b (off + Z.of_nat i).
Proof.
  revert off i. induction n as [|n IH]; intros off i Hi; [lia|]. cbn [read_extent_buffer].
  destruct i as [|i]; simpl nth; [by rewrite Z.add_0_r|]. rewrite IH by lia. f_equal. lia.
Qed.

Lemma read_take b off n m :
  (m <= n)%nat -> take m (read_extent_buffer b off n) = read_extent_buffer b off m.
Proof.
  intros Hm. replace n with (m + (n - m))%nat by lia. rewrite read_app.
  apply take_app_length'. by rewrite read_length.
Qed.

Lemma read_drop b off n m :
  (m <= n)%nat ->
  drop m (read_extent_buffer b off n) = read_extent_buffer b (off + Z.of_nat m) (n - m).
Proof.
  intros Hm. replace n with (m + (n - m))%nat at 1 by lia. rewrite read_app.
  apply drop_app_length'. by rewrite read_length.
Qed.

Lemma get_le_1 b off : get_le 1 b off = u8 (b off).
Proof. cbn [get_le]. lia. Qed.

Lemma write_outside b l start x :
  x < start \/ start + Z.of_nat (length l) <= x -> write_extent_buffer b l start x = b x.
Proof.
  revert start. induction l as [|v l IH]; intros start Hx; [done|]. cbn [length write_extent_buffer] in *.
  destruct (Z.eqb_spec x start); [lia|]. apply IH. lia.
Qed.

Lemma read_write b l start : read_extent_buffer (write_extent_buffer b l start) start (length l) = l.
Proof.
  revert start. induction l as [|v l IH]; intros start; [done|].
  cbn [length read_extent_buffer write_extent_buffer].
  rewrite Z.eqb_refl. f_equal. rewrite <- (IH (start + 1)) at 2. apply read_agree.
  intros x Hx. by rewrite (proj2 (Z.eqb_neq _ _)) by lia.
Qed.

#[global] Arguments get_le : simpl never.
#[global] Arguments put_le : simpl never.
#[global] Arguments read_extent_buffer : simpl never.
