(* ===== verification/CtreeFmt.v ===== *)
(** The on-disk format of tree blocks: the accessors of [src/ctree.h]. *)

From S2P Require Import Prelude Buf.

(** [struct btrfs_key]; a [struct btrfs_disk_key] is the same three fields,
    little-endian and packed in 17 bytes. *)
Record btrfs_key := BtrfsKey { objectid : Z; type : Z; offset : Z }.

#[export] Instance btrfs_key_eq_dec : EqDecision btrfs_key.
Proof. solve_decision. Defined.

Definition key_ok (k : btrfs_key) : Prop :=
  0 <= objectid k < 2 ^ 64 /\ 0 <= type k < 2 ^ 8 /\ 0 <= offset k < 2 ^ 64.

Definition read_disk_key (b : buf) (off : Z) : btrfs_key :=
  BtrfsKey (get_le 8 b off) (get_le 1 b (off + 8)) (get_le 8 b (off + 9)).
Definition write_disk_key (b : buf) (off : Z) (k : btrfs_key) : buf :=
  put_le 8 (off + 9) (offset k) (put_le 1 (off + 8) (type k) (put_le 8 off (objectid k) b)).

(** The sizes of the packed structures. *)
Definition sizeof_header : Z := 101.
Definition sizeof_item : Z := 25.
Definition sizeof_key_ptr : Z := 33.
Definition BTRFS_SUPER_INFO_OFFSET : Z := 64 * 1024.
Definition BTRFS_SUPER_INFO_SIZE : Z := 4096.
Definition BTRFS_SUPER_MIRROR_MAX : Z := 3.
Definition BTRFS_SUPER_MIRROR_SHIFT : Z := 12.

Definition btrfs_sb_offset (mirror : Z) : Z :=
  let start := 16 * 1024 in
  if negb (mirror =? 0) then u64 (Z.shiftl start (BTRFS_SUPER_MIRROR_SHIFT * mirror)) else BTRFS_SUPER_INFO_OFFSET.

Definition BTRFS_UUID_SIZE : Z := 16.

(** [struct btrfs_root]: what the tree functions read of it. *)
Record btrfs_root := BtrfsRoot { leafsize : Z; nodesize : Z }.

Definition BTRFS_NODEPTRS_PER_BLOCK (root : btrfs_root) : Z := (nodesize root - sizeof_header) / sizeof_key_ptr.
Definition BTRFS_LEAF_DATA_SIZE (root : btrfs_root) : Z := leafsize root - sizeof_header.
Definition btrfs_level_size (root : btrfs_root) (level : Z) : Z :=
  if level =? 0 then leafsize root else nodesize root.

(** The sizes [mkfs] accepts. *)
Definition root_ok (root : btrfs_root) : Prop :=
  4096 <= leafsize root <= 65536 /\ 4096 <= nodesize root <= 65536.

(** ** The header *)

Definition btrfs_header_bytenr (b : buf) : Z := get_le 8 b 48.
Definition btrfs_set_header_bytenr (b : buf) (v : Z) : buf := put_le 8 48 v b.
Definition btrfs_header_flags (b : buf) : Z := get_le 8 b 56.
Definition btrfs_set_header_flags (b : buf) (v : Z) : buf := put_le 8 56 v b.
Definition btrfs_header_generation (b : buf) : Z := get_le 8 b 80.
Definition btrfs_set_header_generation (b : buf) (v : Z) : buf := put_le 8 80 v b.
Definition btrfs_header_owner (b : buf) : Z := get_le 8 b 88.
Definition btrfs_set_header_owner (b : buf) (v : Z) : buf := put_le 8 88 v b.
Definition btrfs_header_nritems (b : buf) : Z := get_le 4 b 96.
Definition btrfs_set_header_nritems (b : buf) (v : Z) : buf := put_le 4 96 v b.
Definition btrfs_header_level (b : buf) : Z := get_le 1 b 100.
Definition btrfs_set_header_level (b : buf) (v : Z) : buf := put_le 1 100 v b.

Definition btrfs_header_flag (b : buf) (flag : Z) : bool := Z.land (btrfs_header_flags b) flag =? flag.
Definition btrfs_set_header_flag (b : buf) (flag : Z) : buf :=
  btrfs_set_header_flags b (Z.lor (btrfs_header_flags b) flag).
Definition btrfs_clear_header_flag (b : buf) (flag : Z) : buf :=
  btrfs_set_header_flags b (Z.ldiff (btrfs_header_flags b) flag).

Definition BTRFS_BACKREF_REV_SHIFT : Z := 56.
Definition BTRFS_BACKREF_REV_MASK : Z := Z.shiftl (2 ^ 8 - 1) BTRFS_BACKREF_REV_SHIFT.
Definition btrfs_header_backref_rev (b : buf) : Z :=
  Z.shiftr (btrfs_header_flags b) BTRFS_BACKREF_REV_SHIFT.
Definition btrfs_set_header_backref_rev (b : buf) (rev : Z) : buf :=
  let flags := Z.ldiff (btrfs_header_flags b) BTRFS_BACKREF_REV_MASK in
  btrfs_set_header_flags b (Z.lor flags (u64 (Z.shiftl rev BTRFS_BACKREF_REV_SHIFT))).

Definition btrfs_header_fsid : Z := 32.
Definition btrfs_header_chunk_tree_uuid : Z := 64.

(** ** Items of a leaf *)

Definition btrfs_item_nr_offset (nr : Z) : Z := sizeof_header + sizeof_item * nr.
(** A [struct btrfs_item *] is the offset of the item in its buffer. *)
Definition btrfs_item_nr (nr : Z) : Z := btrfs_item_nr_offset nr.
Definition btrfs_item_offset (b : buf) (item : Z) : Z := get_le 4 b (item + 17).
Definition btrfs_set_item_offset (b : buf) (item v : Z) : buf := put_le 4 (item + 17) v b.
Definition btrfs_item_size (b : buf) (item : Z) : Z := get_le 4 b (item + 21).
Definition btrfs_set_item_size (b : buf) (item v : Z) : buf := put_le 4 (item + 21) v b.
Definition btrfs_item_end (b : buf) (item : Z) : Z := u32 (btrfs_item_offset b item + btrfs_item_size b item).
Definition btrfs_item_end_nr (b : buf) (nr : Z) : Z := btrfs_item_end b (btrfs_item_nr nr).
Definition btrfs_item_offset_nr (b : buf) (nr : Z) : Z := btrfs_item_offset b (btrfs_item_nr nr).
Definition btrfs_item_size_nr (b : buf) (nr : Z) : Z := btrfs_item_size b (btrfs_item_nr nr).
Definition btrfs_item_key (b : buf) (nr : Z) : btrfs_key := read_disk_key b (btrfs_item_nr nr).
Definition btrfs_set_item_key (b : buf) (k : btrfs_key) (nr : Z) : buf :=
  write_disk_key b (btrfs_item_nr nr) k.
Definition btrfs_leaf_data : Z := sizeof_header.
Definition btrfs_item_ptr_offset (b : buf) (slot : Z) : Z := btrfs_leaf_data + btrfs_item_offset_nr b slot.

(** ** Pointers of a node *)

Definition btrfs_node_key_ptr_offset (nr : Z) : Z := sizeof_header + sizeof_key_ptr * nr.
Definition btrfs_node_key (b : buf) (nr : Z) : btrfs_key := read_disk_key b (btrfs_node_key_ptr_offset nr).
Definition btrfs_set_node_key (b : buf) (k : btrfs_key) (nr : Z) : buf :=
  write_disk_key b (btrfs_node_key_ptr_offset nr) k.
Definition btrfs_node_blockptr (b : buf) (nr : Z) : Z := get_le 8 b (btrfs_node_key_ptr_offset nr + 17).
Definition btrfs_set_node_blockptr (b : buf) (nr v : Z) : buf :=
  put_le 8 (btrfs_node_key_ptr_offset nr + 17) v b.
Definition btrfs_node_ptr_generation (b : buf) (nr : Z) : Z := get_le 8 b (btrfs_node_key_ptr_offset nr + 25).
Definition btrfs_set_node_ptr_generation (b : buf) (nr v : Z) : buf :=
  put_le 8 (btrfs_node_key_ptr_offset nr + 25) v b.

(** ** Comparing keys *)

Definition btrfs_comp_keys (k1 k2 : btrfs_key) : Z :=
  if objectid k2 <? objectid k1 then 1
  else if objectid k1 <? objectid k2 then -1
  else if type k2 <? type k1 then 1
  else if type k1 <? type k2 then -1
  else if offset k2 <? offset k1 then 1
  else if offset k1 <? offset k2 then -1
  else 0.

Definition key_lt (k1 k2 : btrfs_key) : Prop := btrfs_comp_keys k1 k2 < 0.

Ltac key_cases := unfold key_lt, btrfs_comp_keys in *; zbool; try lia.

Lemma comp_keys_refl k : btrfs_comp_keys k k = 0.
Proof. key_cases. Qed.

Lemma comp_keys_eq k1 k2 : btrfs_comp_keys k1 k2 = 0 <-> k1 = k2.
Proof.
  split; [|intros ->; apply comp_keys_refl].
  destruct k1, k2. unfold btrfs_comp_keys. simpl. zbool; try lia. intros _. f_equal; lia.
Qed.

Lemma comp_keys_antisym k1 k2 : btrfs_comp_keys k2 k1 = - btrfs_comp_keys k1 k2.
Proof. key_cases. Qed.

Lemma key_lt_trans k1 k2 k3 : key_lt k1 k2 -> key_lt k2 k3 -> key_lt k1 k3.
Proof.
  unfold key_lt, btrfs_comp_keys.
  repeat match goal with
  | |- context [if ?a <? ?b then _ else _] => destruct (Z.ltb_spec a b)
  end; lia.
Qed.

Lemma key_lt_irrefl k : ~ key_lt k k.
Proof. unfold key_lt. rewrite comp_keys_refl. lia. Qed.

Lemma key_trichotomy k1 k2 : key_lt k1 k2 \/ k1 = k2 \/ key_lt k2 k1.
Proof.
  unfold key_lt. rewrite (comp_keys_antisym k1 k2).
  destruct (Z.lt_trichotomy (btrfs_comp_keys k1 k2) 0) as [H|[H|H]]; [auto| |right; right; lia].
  apply comp_keys_eq in H. auto.
Qed.

(** ** Reading and writing fields *)

Lemma read_write_disk_key b off k : key_ok k -> read_disk_key (write_disk_key b off k) off = k.
Proof.
  intros (H1 & H2 & H3). unfold read_disk_key, write_disk_key. destruct k as [o t f]. simpl in *. f_equal.
  - do 2 rewrite get_put_le_other by lia. by apply get_put_le_id.
  - rewrite get_put_le_other by lia. by apply get_put_le_id.
  - by apply get_put_le_id.
Qed.

Lemma read_disk_key_same b b' off : agree b b' off (off + 17) -> read_disk_key b' off = read_disk_key b off.
Proof.
  intros Hag. unfold read_disk_key.
  f_equal; apply get_le_same; (eapply agree_sub; [exact Hag|lia|lia]).
Qed.

Lemma read_disk_key_at b b' off off' :
  (forall x, 0 <= x < 17 -> b' (off' + x) = b (off + x)) -> read_disk_key b' off' = read_disk_key b off.
Proof.
  intros Hag. unfold read_disk_key. f_equal; apply get_le_agree; intros x Hx.
  - apply Hag. lia.
  - rewrite <- !Z.add_assoc. apply Hag. lia.
  - rewrite <- !Z.add_assoc. apply Hag. lia.
Qed.

Lemma write_disk_key_outside b off k x : x < off \/ off + 17 <= x -> write_disk_key b off k x = b x.
Proof. intros Hx. unfold write_disk_key, put_le. zbool; lia || done. Qed.

#[global] Arguments read_disk_key : simpl never.
#[global] Arguments write_disk_key : simpl never.
#[global] Arguments btrfs_item_key : simpl never.
#[global] Arguments btrfs_node_key : simpl never.
