(* ===== verification/ItemFmt.v ===== *)
(** The items of directories, inodes, roots and files: the accessors of
    [src/ctree.h] for them.  A [struct ... *] into a leaf is an offset in the
    leaf; a structure on the stack is the list of its bytes. *)

From S2P Require Import Prelude Buf CtreeFmt.

Implicit Types (b : buf) (l d : list Z).

(** ** Key types and objects *)

Definition BTRFS_INODE_ITEM_KEY : Z := 1.
Definition BTRFS_INODE_REF_KEY : Z := 12.
Definition BTRFS_XATTR_ITEM_KEY : Z := 24.
Definition BTRFS_DIR_ITEM_KEY : Z := 84.
Definition BTRFS_DIR_INDEX_KEY : Z := 96.
Definition BTRFS_EXTENT_CSUM_KEY : Z := 128.
Definition BTRFS_ROOT_ITEM_KEY : Z := 132.
Definition BTRFS_FT_XATTR : Z := 8.
Definition BTRFS_FILE_EXTENT_REG : Z := 1.
Definition BTRFS_FIRST_FREE_OBJECTID : Z := 256.
Definition BTRFS_EXTENT_CSUM_OBJECTID : Z := 2 ^ 64 - 10.

(** ** [struct btrfs_dir_item] *)

Definition sizeof_dir_item : Z := 30.
Definition btrfs_dir_item_key b (di : Z) : btrfs_key := read_disk_key b di.
Definition btrfs_set_dir_item_key b (di : Z) (key : btrfs_key) : buf := write_disk_key b di key.
Definition btrfs_dir_transid b (di : Z) : Z := get_le 8 b (di + 17).
Definition btrfs_dir_data_len b (di : Z) : Z := get_le 2 b (di + 25).
Definition btrfs_set_dir_data_len b (di v : Z) : buf := put_le 2 (di + 25) v b.
Definition btrfs_dir_name_len b (di : Z) : Z := get_le 2 b (di + 27).
Definition btrfs_set_dir_name_len b (di v : Z) : buf := put_le 2 (di + 27) v b.
Definition btrfs_dir_type b (di : Z) : Z := get_le 1 b (di + 29).
Definition btrfs_set_dir_type b (di v : Z) : buf := put_le 1 (di + 29) v b.

(** ** [struct btrfs_inode_ref] and [struct btrfs_root_ref] *)

Definition sizeof_inode_ref : Z := 10.
Definition btrfs_inode_ref_index b (ref : Z) : Z := get_le 8 b ref.
Definition btrfs_set_inode_ref_index b (ref v : Z) : buf := put_le 8 ref v b.
Definition btrfs_inode_ref_name_len b (ref : Z) : Z := get_le 2 b (ref + 8).
Definition btrfs_set_inode_ref_name_len b (ref v : Z) : buf := put_le 2 (ref + 8) v b.

Definition sizeof_root_ref : Z := 18.
Definition btrfs_set_root_ref_dirid b (ref v : Z) : buf := put_le 8 ref v b.
Definition btrfs_set_root_ref_sequence b (ref v : Z) : buf := put_le 8 (ref + 8) v b.
Definition btrfs_set_root_ref_name_len b (ref v : Z) : buf := put_le 2 (ref + 16) v b.

(** ** [struct btrfs_file_extent_item] *)

Definition sizeof_file_extent_item : Z := 53.
Definition btrfs_set_file_extent_generation b (fi v : Z) : buf := put_le 8 fi v b.
Definition btrfs_set_file_extent_ram_bytes b (fi v : Z) : buf := put_le 8 (fi + 8) v b.
Definition btrfs_set_file_extent_compression b (fi v : Z) : buf := put_le 1 (fi + 16) v b.
Definition btrfs_set_file_extent_encryption b (fi v : Z) : buf := put_le 1 (fi + 17) v b.
Definition btrfs_set_file_extent_other_encoding b (fi v : Z) : buf := put_le 2 (fi + 18) v b.
Definition btrfs_set_file_extent_type b (fi v : Z) : buf := put_le 1 (fi + 20) v b.
Definition btrfs_set_file_extent_disk_bytenr b (fi v : Z) : buf := put_le 8 (fi + 21) v b.
Definition btrfs_set_file_extent_disk_num_bytes b (fi v : Z) : buf := put_le 8 (fi + 29) v b.
Definition btrfs_set_file_extent_offset b (fi v : Z) : buf := put_le 8 (fi + 37) v b.
Definition btrfs_set_file_extent_num_bytes b (fi v : Z) : buf := put_le 8 (fi + 45) v b.

Definition btrfs_file_extent_inline_start (fi : Z) : Z := fi + 21.
Definition btrfs_file_extent_calc_inline_size (datasize : Z) : Z := u32 (21 + datasize).

(** ** Fields of a list of bytes *)

Fixpoint le_val l : Z := match l with [] => 0 | x :: l => u8 x + 256 * le_val l end.
Fixpoint le_bytes (n : nat) (v : Z) : list Z :=
  match n with O => [] | S n => u8 v :: le_bytes n (v / 256) end.

(** [struct btrfs_root_item] *)
Definition sizeof_root_item : Z := 439.
Definition btrfs_root_generation (item : list Z) : Z := le_val (take 8 (drop 160 item)).
Definition btrfs_set_root_generation_v2 (item : list Z) (v : Z) : list Z :=
  take 239 item ++ le_bytes 8 v ++ drop 247 item.

Definition sizeof_inode_item : Z := 160.

(** ** Bytes in a buffer and bytes in a list *)

Lemma le_bytes_length n v : length (le_bytes n v) = n.
Proof. revert v. induction n; intros; simpl; auto. Qed.

Lemma le_val_bytes n v : le_val (le_bytes n v) = v mod 256 ^ Z.of_nat n.
Proof.
  revert v. induction n as [|n IH]; intros v; [by rewrite Z.mod_1_r|]. cbn [le_bytes le_val].
  rewrite IH, u8_u8, Nat2Z.inj_succ, Z.pow_succ_r, Z.rem_mul_r by lia. done.
Qed.

Lemma le_val_id n v : 0 <= v < 256 ^ Z.of_nat n -> le_val (le_bytes n v) = v.
Proof. intros Hv. rewrite le_val_bytes. by apply Z.mod_small. Qed.

Lemma get_le_read n b off : get_le n b off = le_val (read_extent_buffer b off n).
Proof. revert off. induction n as [|n IH]; intros off; [done|].
  change (u8 (b off) + 256 * get_le n b (off + 1) = u8 (b off) + 256 * le_val (read_extent_buffer b (off + 1) n)). by rewrite IH.
Qed.

Lemma read_put_le n off v b : read_extent_buffer (put_le n off v b) off n = le_bytes n v.
Proof.
  assert (H : forall k m u, (Z.of_nat k + Z.of_nat m = Z.of_nat n)%Z -> v / 256 ^ Z.of_nat k = u ->
    read_extent_buffer (put_le n off v b) (off + Z.of_nat k) m = le_bytes m u).
  { intros k m. revert k. induction m as [|m IH]; intros k u Hk Hu; [done|].
    change (put_le n off v b (off + Z.of_nat k) :: read_extent_buffer (put_le n off v b) (off + Z.of_nat k + 1) m =
      u8 u :: le_bytes m (u / 256)). f_equal.
    - unfold put_le. rewrite (proj2 (Z.leb_le _ _)), (proj2 (Z.ltb_lt _ _)) by lia. simpl. rewrite <- Hu. do 3 f_equal. lia.
    - replace (off + Z.of_nat k + 1) with (off + Z.of_nat (S k)) by lia. apply IH; [lia|].
      rewrite <- Hu, Nat2Z.inj_succ, Z.pow_succ_r, (Z.mul_comm 256), Z.div_div by lia. done. }
  pose proof (H 0%nat n v ltac:(lia) (Z.div_1_r v)) as H0. by rewrite Z.add_0_r in H0.
Qed.

(** The bytes of a key on disk. *)
Definition key_bytes (k : btrfs_key) : list Z :=
  le_bytes 8 (objectid k) ++ le_bytes 1 (type k) ++ le_bytes 8 (offset k).
Definition key_of l : btrfs_key :=
  BtrfsKey (le_val (take 8 l)) (le_val (take 1 (drop 8 l))) (le_val (take 8 (drop 9 l))).

Lemma key_bytes_length k : length (key_bytes k) = 17%nat.
Proof. unfold key_bytes. by rewrite !length_app, !le_bytes_length. Qed.

Lemma read_disk_key_bytes b off : read_disk_key b off = key_of (read_extent_buffer b off 17).
Proof.
  unfold read_disk_key, key_of. rewrite !read_drop, !read_take by lia. rewrite !get_le_read. done.
Qed.

Lemma key_of_bytes k : key_ok k -> key_of (key_bytes k) = k.
Proof.
  intros (H1 & H2 & H3). unfold key_of, key_bytes.
  rewrite take_app_length' by (by rewrite le_bytes_length).
  rewrite drop_app_length' by (by rewrite le_bytes_length). rewrite (take_app_length' (le_bytes 1 _)) by (by rewrite le_bytes_length).
  rewrite (assoc_L (++)), drop_app_length' by (by rewrite length_app, !le_bytes_length).
  rewrite take_ge by (by rewrite le_bytes_length). rewrite !le_val_id by lia. by destruct k.
Qed.

(** Reading what follows a range. *)
Lemma read_split b off n l1 l2 :
  read_extent_buffer b off n = l1 ++ l2 ->
  read_extent_buffer b off (length l1) = l1 /\ read_extent_buffer b (off + Z.of_nat (length l1)) (length l2) = l2.
Proof.
  intros Hr. assert (n = length l1 + length l2)%nat as ->.
  { by rewrite <- length_app, <- Hr, read_length. }
  rewrite read_app in Hr. apply app_inj_1 in Hr; [done|]. by rewrite read_length.
Qed.

#[global] Arguments key_bytes : simpl never.
#[global] Arguments le_bytes : simpl never.

(** ** Reading a range after writing another, or the same *)

Lemma read_put_le_other b off n off' m v :
  off + Z.of_nat n <= off' \/ off' + Z.of_nat m <= off ->
  read_extent_buffer (put_le m off' v b) off n = read_extent_buffer b off n.
Proof. intros Hd. apply read_same. intros z Hz. unfold put_le. zbool; lia || done. Qed.

Lemma read_write_other b off n (l : list Z) off' :
  off + Z.of_nat n <= off' \/ off' + Z.of_nat (length l) <= off ->
  read_extent_buffer (write_extent_buffer b l off') off n = read_extent_buffer b off n.
Proof. intros Hd. apply read_same. intros z Hz. apply write_outside. lia. Qed.

Lemma read_write_key_other b off n off' k :
  off + Z.of_nat n <= off' \/ off' + 17 <= off ->
  read_extent_buffer (write_disk_key b off' k) off n = read_extent_buffer b off n.
Proof. intros Hd. apply read_same. intros z Hz. apply write_disk_key_outside. lia. Qed.

Lemma read_write_key b off k : read_extent_buffer (write_disk_key b off k) off 17 = key_bytes k.
Proof.
  unfold write_disk_key, key_bytes. change 17%nat with (8 + (1 + 8))%nat. rewrite !read_app. f_equal; [|f_equal].
  - do 2 rewrite read_put_le_other by lia. apply read_put_le.
  - rewrite read_put_le_other by lia. apply read_put_le.
  - change (Z.of_nat 8) with 8. change (Z.of_nat 1) with 1. replace (off + 8 + 1) with (off + 9) by lia. apply read_put_le.
Qed.

(** The bytes of a field after a sequence of writes to others and to it. *)
Ltac read_field :=
  repeat first [ rewrite read_put_le_other by lia | rewrite read_write_other by lia | rewrite read_write_key_other by lia ];
  first [ apply read_put_le | apply read_write | apply read_write_key | done ].

(** A byte that a sequence of writes leaves alone. *)
Ltac field_outside :=
  repeat (rewrite write_outside by lia); unfold put_le; zbool; try lia;
  first [ done | by rewrite write_disk_key_outside by lia ].
