(* ===== verification/LeafOps.v ===== *)
(** The functions of [src/ctree.c] on one leaf.

    A function of [ctree.c] reads and writes the leaf of its path; here is the
    part of it that works on the leaf's bytes, statement by statement.  [None]
    is a failed [BUG_ON] or [WARN_ON], which [kerncompat.h] both define as an
    assertion.  [unsigned int] arithmetic wraps, [int]s that are
    assigned an unsigned value are [s32] of it. *)

From S2P Require Import Prelude Buf CtreeFmt.

Definition leaf_data_end (root : btrfs_root) (leaf : buf) : Z :=
  let nr := btrfs_header_nritems leaf in
  if nr =? 0 then BTRFS_LEAF_DATA_SIZE root else btrfs_item_offset_nr leaf (nr - 1).

Definition leaf_space_used (l : buf) (start nr : Z) : option Z :=
  let nritems := s32 (btrfs_header_nritems l) in
  let last := Z.min nritems (start + nr) - 1 in
  if nr =? 0 then Some 0 else
  let data_len := s32 (btrfs_item_end_nr l start) in
  let data_len := s32 (data_len - btrfs_item_offset_nr l last) in
  let data_len := s32 (data_len + sizeof_item * nr) in
  if data_len <? 0 then None else Some data_len.

Definition btrfs_leaf_free_space (root : btrfs_root) (leaf : buf) : option Z :=
  let nritems := s32 (btrfs_header_nritems leaf) in
  used ← leaf_space_used leaf 0 nritems;
  Some (s32 (BTRFS_LEAF_DATA_SIZE root - used)).

(** ** Checks *)

(** The loop of [btrfs_check_node] from [i] on: no two neighbours out of order. *)
Fixpoint check_node_loop (n : nat) (i : Z) (b : buf) : bool :=
  match n with
  | O => true
  | S n =>
      if 0 <=? btrfs_comp_keys (btrfs_node_key b i) (btrfs_node_key b (i + 1)) then false
      else check_node_loop n (i + 1) b
  end.

(** The parent's key, when there is a parent with a typed key, is the first. *)
Definition parent_key_ok (parent_key : option btrfs_key) (first : btrfs_key) : bool :=
  match parent_key with
  | Some k => (type k =? 0) || bool_decide (k = first)
  | None => true
  end.

(** The number of iterations of [for (i = 0; nritems > 1 && i < nritems - 2; i++)]. *)
Definition check_count (nritems : Z) : nat := if 1 <? nritems then Z.to_nat (nritems - 2) else O.

Definition BTRFS_EXTENT_TREE_OBJECTID : Z := 2.

(** The label [fail] of the two checks: [-EIO], and the key and level that
    [btrfs_add_corrupt_extent_record] is called with for a block of the extent
    tree. *)
Definition check_fail (parent_key : option btrfs_key) (first : btrfs_key) (level : Z) (b : buf)
    : Z * option (btrfs_key * Z) :=
  (- EIO, if btrfs_header_owner b =? BTRFS_EXTENT_TREE_OBJECTID
          then Some (default first parent_key, level) else None).

Definition btrfs_check_node (root : btrfs_root) (parent_key : option btrfs_key) (b : buf)
    : Z * option (btrfs_key * Z) :=
  let nritems := btrfs_header_nritems b in
  let fail := check_fail parent_key (btrfs_node_key b 0) (btrfs_header_level b) b in
  if (nritems =? 0) || (BTRFS_NODEPTRS_PER_BLOCK root <? nritems) then fail
  else if negb (parent_key_ok parent_key (btrfs_node_key b 0)) then fail
  else if check_node_loop (check_count nritems) 0 b then (0, None) else fail.

Fixpoint check_leaf_loop (root : btrfs_root) (n : nat) (i : Z) (b : buf) : bool :=
  match n with
  | O => true
  | S n =>
      if 0 <=? btrfs_comp_keys (btrfs_item_key b i) (btrfs_item_key b (i + 1)) then false
      else if negb (btrfs_item_offset_nr b i =? btrfs_item_end_nr b (i + 1)) then false
      else if (i =? 0) && negb (btrfs_item_end_nr b i =? BTRFS_LEAF_DATA_SIZE root) then false
      else check_leaf_loop root n (i + 1) b
  end.

(** [len] is the length of the buffer. *)
Definition btrfs_check_leaf (root : btrfs_root) (parent_key : option btrfs_key) (b : buf) (len : Z)
    : option (Z * option (btrfs_key * Z)) :=
  let nritems := btrfs_header_nritems b in
  let fail := check_fail parent_key (btrfs_item_key b 0) 0 b in
  if len <? nritems * sizeof_item then Some fail
  else if negb (btrfs_header_level b =? 0) then Some fail
  else
    free_space ← btrfs_leaf_free_space root b;
    if free_space <? 0 then Some fail
    else if nritems =? 0 then Some (0, None)
    else if negb (parent_key_ok parent_key (btrfs_item_key b 0)) then Some fail
    else if check_leaf_loop root (check_count nritems) 0 b then Some (0, None) else Some fail.

(** ** Binary search *)

(** The loop of [generic_bin_search]: the return value and [*slot]. *)
Fixpoint bin_search_loop (fuel : nat) (b : buf) (p item_size : Z) (key : btrfs_key) (low high : Z)
    : option (Z * Z) :=
  if low <? high then
    match fuel with
    | O => None
    | S fuel =>
        let mid := (low + high) / 2 in
        let r := btrfs_comp_keys (read_disk_key b (p + mid * item_size)) key in
        if r <? 0 then bin_search_loop fuel b p item_size key (mid + 1) high
        else if 0 <? r then bin_search_loop fuel b p item_size key low mid
        else Some (0, mid)
    end
  else Some (1, low).

(** 32 rounds halve any [int] range to nothing. *)
Definition generic_bin_search (b : buf) (p item_size : Z) (key : btrfs_key) (max : Z) : option (Z * Z) :=
  bin_search_loop 32 b p item_size key 0 max.

Definition bin_search (b : buf) (key : btrfs_key) (level : Z) : option (Z * Z) :=
  let max := s32 (btrfs_header_nritems b) in
  if level =? 0 then generic_bin_search b sizeof_header sizeof_item key max
  else generic_bin_search b sizeof_header sizeof_key_ptr key max.

(** ** Loops over the item headers *)

(** [for (i = ...; n times; i++) ioff = btrfs_item_offset(...); set ioff + delta] *)
Fixpoint shift_offsets (n : nat) (i delta : Z) (b : buf) : buf :=
  match n with
  | O => b
  | S n =>
      let item := btrfs_item_nr i in
      shift_offsets n (i + 1) delta
        (btrfs_set_item_offset b item (u32 (btrfs_item_offset b item + delta)))
  end.

(** [push_space -= size; set the offset to push_space] for each item. *)
Fixpoint renumber_offsets (n : nat) (i push_space : Z) (b : buf) : buf :=
  match n with
  | O => b
  | S n =>
      let item := btrfs_item_nr i in
      let push_space := u32 (push_space - btrfs_item_size b item) in
      renumber_offsets n (i + 1) push_space (btrfs_set_item_offset b item push_space)
  end.

(** ** Inserting and deleting items *)

(** The loop that sets up the headers of the new items. *)
Fixpoint setup_items (slot data_end : Z) (l : list (btrfs_key * Z)) (b : buf) : buf :=
  match l with
  | [] => b
  | (k, size) :: l =>
      let b := btrfs_set_item_key b k slot in
      let item := btrfs_item_nr slot in
      let b := btrfs_set_item_offset b item (u32 (data_end - size)) in
      let data_end := u32 (data_end - size) in
      let b := btrfs_set_item_size b item size in
      setup_items (slot + 1) data_end l b
  end.

Definition sum_sizes (l : list (btrfs_key * Z)) : Z := foldr (fun p acc => u32 (snd p + acc)) 0 l.

(** [btrfs_insert_empty_items] on the leaf and slot the search found. *)
Definition insert_empty_items_leaf (root : btrfs_root) (leaf : buf) (slot : Z)
    (l : list (btrfs_key * Z)) : option buf :=
  let nr := Z.of_nat (length l) in
  let total_data := sum_sizes l in
  let total_size := u32 (total_data + nr * sizeof_item) in
  let nritems := btrfs_header_nritems leaf in
  let data_end := leaf_data_end root leaf in
  (* the comparison of the int with the unsigned total is unsigned *)
  free_space ← btrfs_leaf_free_space root leaf;
  if u32 free_space <? total_size then None
  else if slot <? 0 then None
  else
    '(leaf, data_end) ←
      if negb (slot =? nritems) then
        let old_data := btrfs_item_end_nr leaf slot in
        if old_data <? data_end then None else
        let leaf := shift_offsets (Z.to_nat (nritems - slot)) slot (- total_data) leaf in
        let leaf := memmove_extent_buffer leaf (btrfs_item_nr_offset (slot + nr))
                      (btrfs_item_nr_offset slot) ((nritems - slot) * sizeof_item) in
        let leaf := memmove_extent_buffer leaf (btrfs_leaf_data + data_end - total_data)
                      (btrfs_leaf_data + data_end) (u32 (old_data - data_end)) in
        Some (leaf, old_data)
      else Some (leaf, data_end);
    let leaf := setup_items slot data_end l leaf in
    let leaf := btrfs_set_header_nritems leaf (nritems + nr) in
    free_space ← btrfs_leaf_free_space root leaf;
    if free_space <? 0 then None else Some leaf.

(** The sum of the sizes of [n] items from [i] on. *)
Fixpoint sum_item_sizes (n : nat) (i : Z) (b : buf) : Z :=
  match n with
  | O => 0
  | S n => btrfs_item_size_nr b i + sum_item_sizes n (i + 1) b
  end.

(** [btrfs_del_items] on the bytes of its leaf. *)
Definition del_items_leaf (root : btrfs_root) (leaf : buf) (slot nr : Z) : buf :=
  let last_off := s32 (btrfs_item_offset_nr leaf (slot + nr - 1)) in
  let dsize := s32 (sum_item_sizes (Z.to_nat nr) slot leaf) in
  let nritems := btrfs_header_nritems leaf in
  let leaf' :=
    if negb (slot + nr =? nritems) then
      let data_end := s32 (leaf_data_end root leaf) in
      let leaf := memmove_extent_buffer leaf (btrfs_leaf_data + data_end + dsize)
                    (btrfs_leaf_data + data_end) (last_off - data_end) in
      let leaf := shift_offsets (Z.to_nat (nritems - (slot + nr))) (slot + nr) dsize leaf in
      memmove_extent_buffer leaf (btrfs_item_nr_offset slot) (btrfs_item_nr_offset (slot + nr))
        (sizeof_item * (nritems - slot - nr))
    else leaf in
  btrfs_set_header_nritems leaf' (nritems - nr).

(** ** Resizing and splitting an item *)

Definition BTRFS_EXTENT_DATA_KEY : Z := 108.
Definition BTRFS_FILE_EXTENT_INLINE : Z := 0.
Definition btrfs_file_extent_type (b : buf) (fi : Z) : Z := get_le 1 b (fi + 20).
Definition offsetof_disk_bytenr : Z := 21.

(** [btrfs_truncate_item]: the leaf, and the key for [fixup_low_keys] when the
    first item's key changed. *)
Definition truncate_item_leaf (root : btrfs_root) (leaf : buf) (slot new_size : Z) (from_end : bool)
    : option (buf * option btrfs_key) :=
  let old_size := btrfs_item_size_nr leaf slot in
  if old_size =? new_size then Some (leaf, None) else
  let nritems := btrfs_header_nritems leaf in
  let data_end := leaf_data_end root leaf in
  let old_data_start := btrfs_item_offset_nr leaf slot in
  let size_diff := u32 (old_size - new_size) in
  if slot <? 0 then None else if nritems <=? slot then None else
  let leaf := shift_offsets (Z.to_nat (nritems - slot)) slot size_diff leaf in
  let '(leaf, low) :=
    if from_end then
      (memmove_extent_buffer leaf (btrfs_leaf_data + data_end + size_diff)
         (btrfs_leaf_data + data_end) (u32 (old_data_start + new_size - data_end)), None)
    else
      let disk_key := btrfs_item_key leaf slot in
      let leaf :=
        if type disk_key =? BTRFS_EXTENT_DATA_KEY then
          let fi := btrfs_item_ptr_offset leaf slot - size_diff in
          if btrfs_file_extent_type leaf fi =? BTRFS_FILE_EXTENT_INLINE then
            let ptr := btrfs_item_ptr_offset leaf slot in
            memmove_extent_buffer leaf ptr fi offsetof_disk_bytenr
          else leaf
        else leaf in
      let leaf := memmove_extent_buffer leaf (btrfs_leaf_data + data_end + size_diff)
                    (btrfs_leaf_data + data_end) (u32 (old_data_start - data_end)) in
      let disk_key := BtrfsKey (objectid disk_key) (type disk_key) (u64 (offset disk_key + size_diff)) in
      (btrfs_set_item_key leaf disk_key slot, if slot =? 0 then Some disk_key else None) in
  let leaf := btrfs_set_item_size leaf (btrfs_item_nr slot) new_size in
  free_space ← btrfs_leaf_free_space root leaf;
  if free_space <? 0 then None else Some (leaf, low).

Definition extend_item_leaf (root : btrfs_root) (leaf : buf) (slot data_size : Z) : option buf :=
  let nritems := btrfs_header_nritems leaf in
  let data_end := leaf_data_end root leaf in
  free_space ← btrfs_leaf_free_space root leaf;
  if u32 free_space <? data_size then None else
  let old_data := btrfs_item_end_nr leaf slot in
  if slot <? 0 then None else if nritems <=? slot then None else
  let leaf := shift_offsets (Z.to_nat (nritems - slot)) slot (- data_size) leaf in
  let leaf := memmove_extent_buffer leaf (btrfs_leaf_data + data_end - data_size)
                (btrfs_leaf_data + data_end) (u32 (old_data - data_end)) in
  let old_size := btrfs_item_size_nr leaf slot in
  let leaf := btrfs_set_item_size leaf (btrfs_item_nr slot) (u32 (old_size + data_size)) in
  free_space ← btrfs_leaf_free_space root leaf;
  if free_space <? 0 then None else Some leaf.

(** The label [split] of [btrfs_split_item]: the item at [slot - 1] is cut at
    [split_offset], and its second part gets [new_key] at [slot]. *)
Definition split_item_leaf (root : btrfs_root) (leaf : buf) (path_slot : Z) (new_key : btrfs_key)
    (split_offset : Z) : option buf :=
  let item := btrfs_item_nr path_slot in
  let orig_offset := btrfs_item_offset leaf item in
  let item_size := btrfs_item_size leaf item in
  let data := read_extent_buffer leaf (btrfs_item_ptr_offset leaf path_slot) (Z.to_nat item_size) in
  let slot := path_slot + 1 in
  let nritems := btrfs_header_nritems leaf in
  let leaf := if negb (slot =? nritems) then
                memmove_extent_buffer leaf (btrfs_item_nr_offset (slot + 1)) (btrfs_item_nr_offset slot)
                  ((nritems - slot) * sizeof_item)
              else leaf in
  let leaf := btrfs_set_item_key leaf new_key slot in
  let new_item := btrfs_item_nr slot in
  let leaf := btrfs_set_item_offset leaf new_item orig_offset in
  let leaf := btrfs_set_item_size leaf new_item (item_size - split_offset) in
  let leaf := btrfs_set_item_offset leaf item (orig_offset + item_size - split_offset) in
  let leaf := btrfs_set_item_size leaf item split_offset in
  let leaf := btrfs_set_header_nritems leaf (nritems + 1) in
  let leaf := write_extent_buffer leaf (take (Z.to_nat split_offset) data)
                (btrfs_item_ptr_offset leaf path_slot) in
  let leaf := write_extent_buffer leaf (drop (Z.to_nat split_offset) data)
                (btrfs_item_ptr_offset leaf slot) in
  free_space ← btrfs_leaf_free_space root leaf;
  if free_space <? 0 then None else Some leaf.
