(* ===== verification/LeafSpec.v ===== *)
(** Leaves as lists of items.

    [leaf_repr root b l]: the bytes [b] are a leaf that holds the items [l].
    The item headers at the front are the [layout] of [l], the data at the end
    of the block is the [stack] of its contents, the last item first. *)

From stdpp Require Import sorting.
From S2P Require Import Prelude Buf CtreeFmt LeafOps.

Abbreviation item := (btrfs_key * list Z)%type (only parsing).

Record ihdr := Ihdr { ih_key : btrfs_key; ih_offset : Z; ih_size : Z }.

Definition item_hdr (b : buf) (i : Z) : ihdr :=
  Ihdr (btrfs_item_key b i) (btrfs_item_offset_nr b i) (btrfs_item_size_nr b i).

(** The headers of [n] items from [i] on. *)
Fixpoint hdrs (b : buf) (i : Z) (n : nat) : list ihdr :=
  match n with O => [] | S n => item_hdr b i :: hdrs b (i + 1) n end.

(** The number of data bytes of some items. *)
Fixpoint dsize (l : list item) : Z :=
  match l with [] => 0 | (_, d) :: l => Z.of_nat (length d) + dsize l end.

(** The data area that holds them: it grows downwards. *)
Fixpoint stack (l : list item) : list Z :=
  match l with [] => [] | (_, d) :: l => stack l ++ d end.

(** The headers of items whose data is stacked below [top]. *)
Fixpoint layout (top : Z) (l : list item) : list ihdr :=
  match l with
  | [] => []
  | (k, d) :: l =>
      let top := top - Z.of_nat (length d) in
      Ihdr k top (Z.of_nat (length d)) :: layout top l
  end.

Record leaf_repr (root : btrfs_root) (b : buf) (l : list item) : Prop := {
  lr_nritems : btrfs_header_nritems b = Z.of_nat (length l);
  lr_hdrs : hdrs b 0 (length l) = layout (BTRFS_LEAF_DATA_SIZE root) l;
  lr_data : read_extent_buffer b (leafsize root - dsize l) (Z.to_nat (dsize l)) = stack l;
  lr_fits : sizeof_item * Z.of_nat (length l) + dsize l <= BTRFS_LEAF_DATA_SIZE root;
}.

Implicit Types (b : buf) (l A B : list item) (root : btrfs_root).

(** ** Lists *)

Lemma dsize_nonneg l : 0 <= dsize l.
Proof. induction l as [|[k d] l IH]; simpl; lia. Qed.
Lemma dsize_app A B : dsize (A ++ B) = dsize A + dsize B.
Proof. induction A as [|[k d] A IH]; simpl; lia. Qed.
Lemma stack_length l : Z.of_nat (length (stack l)) = dsize l.
Proof. induction l as [|[k d] l IH]; simpl; [done|]. rewrite length_app. lia. Qed.
Lemma stack_app A B : stack (A ++ B) = stack B ++ stack A.
Proof.
  induction A as [|[k d] A IH]; simpl; [by rewrite app_nil_r|]. by rewrite IH, (assoc_L (++)).
Qed.
Lemma layout_length top l : length (layout top l) = length l.
Proof. revert top. induction l as [|[k d] l IH]; intros; simpl; auto. Qed.
Lemma layout_app top A B : layout top (A ++ B) = layout top A ++ layout (top - dsize A) B.
Proof.
  revert top. induction A as [|[k d] A IH]; intros top; simpl; [by rewrite Z.sub_0_r|].
  rewrite IH. do 3 f_equal. lia.
Qed.

Definition shift_hdr (delta : Z) (h : ihdr) : ihdr :=
  Ihdr (ih_key h) (u32 (ih_offset h + delta)) (ih_size h).

Lemma shift_layout delta top l :
  0 <= top + delta - dsize l -> top + delta < 2 ^ 32 ->
  shift_hdr delta <$> layout top l = layout (top + delta) l.
Proof.
  revert top. induction l as [|[k d] l IH]; intros top H1 H2; simpl in *; [done|].
  pose proof (dsize_nonneg l). unfold shift_hdr at 1. simpl. rewrite u32_id by lia.
  change (list_fmap ihdr ihdr (shift_hdr delta)) with (fmap (M := list) (shift_hdr delta)).
  rewrite IH by lia. by replace (top - Z.of_nat (length d) + delta) with (top + delta - Z.of_nat (length d)) by lia.
Qed.

(** ** Headers and the bytes they are in *)

Lemma hdrs_length b i n : length (hdrs b i n) = n.
Proof. revert i. induction n; intros; simpl; auto. Qed.

Lemma hdrs_app b i n m : hdrs b i (n + m) = hdrs b i n ++ hdrs b (i + Z.of_nat n) m.
Proof.
  revert i. induction n as [|n IH]; intros i; cbn [hdrs Nat.add app]; [by rewrite Z.add_0_r|].
  rewrite IH. do 3 f_equal. lia.
Qed.

Lemma item_hdr_at b b' i i' :
  (forall x, 0 <= x < sizeof_item -> b' (btrfs_item_nr_offset i' + x) = b (btrfs_item_nr_offset i + x)) ->
  item_hdr b' i' = item_hdr b i.
Proof.
  unfold sizeof_item. intros Hag. unfold item_hdr. f_equal.
  - apply read_disk_key_at. intros x Hx. apply Hag. lia.
  - apply get_le_agree. intros x Hx. unfold btrfs_item_nr. rewrite <- !Z.add_assoc. apply Hag. lia.
  - apply get_le_agree. intros x Hx. unfold btrfs_item_nr. rewrite <- !Z.add_assoc. apply Hag. lia.
Qed.

Lemma hdrs_at b b' i i' n :
  (forall x, 0 <= x < sizeof_item * Z.of_nat n ->
     b' (btrfs_item_nr_offset i' + x) = b (btrfs_item_nr_offset i + x)) ->
  hdrs b' i' n = hdrs b i n.
Proof.
  revert i i'. induction n as [|n IH]; intros i i' Hag; [done|]. unfold sizeof_item in *.
  cbn [hdrs]. f_equal.
  - apply item_hdr_at. intros x Hx. apply Hag. unfold sizeof_item in *. lia.
  - apply IH. intros x Hx. unfold btrfs_item_nr_offset, sizeof_item in *.
    replace (sizeof_header + 25 * (i' + 1) + x) with (sizeof_header + 25 * i' + (25 + x)) by lia.
    rewrite Hag by lia. f_equal. lia.
Qed.

Lemma hdrs_same b b' i n :
  agree b b' (btrfs_item_nr_offset i) (btrfs_item_nr_offset (i + Z.of_nat n)) -> hdrs b' i n = hdrs b i n.
Proof.
  intros Hag. apply hdrs_at. intros x Hx. apply Hag. unfold btrfs_item_nr_offset, sizeof_item in *. lia.
Qed.

(** ** The loops over the headers *)

Lemma set_offset_hdr b i v :
  item_hdr (btrfs_set_item_offset b (btrfs_item_nr i) v) i =
  Ihdr (btrfs_item_key b i) (u32 v) (btrfs_item_size_nr b i).
Proof.
  unfold item_hdr, btrfs_set_item_offset. f_equal.
  - apply read_disk_key_same. untouched.
  - unfold btrfs_item_offset_nr, btrfs_item_offset. by rewrite get_put_le.
  - unfold btrfs_item_size_nr, btrfs_item_size. apply get_put_le_other. lia.
Qed.

Lemma set_offset_outside b i v x :
  x < btrfs_item_nr_offset i \/ btrfs_item_nr_offset (i + 1) <= x ->
  btrfs_set_item_offset b (btrfs_item_nr i) v x = b x.
Proof.
  unfold btrfs_set_item_offset, btrfs_item_nr, btrfs_item_nr_offset, sizeof_item. untouched.
Qed.

Lemma shift_offsets_outside n i delta b x :
  x < btrfs_item_nr_offset i \/ btrfs_item_nr_offset (i + Z.of_nat n) <= x ->
  shift_offsets n i delta b x = b x.
Proof.
  revert i b. induction n as [|n IH]; intros i b Hx; [done|]. cbn [shift_offsets].
  unfold btrfs_item_nr_offset, sizeof_item in *. rewrite IH by lia.
  apply set_offset_outside. unfold btrfs_item_nr_offset, sizeof_item. lia.
Qed.

Lemma shift_offsets_hdrs n i delta b :
  hdrs (shift_offsets n i delta b) i n = shift_hdr delta <$> hdrs b i n.
Proof.
  revert i b. induction n as [|n IH]; intros i b; [done|]. cbn [hdrs shift_offsets fmap list_fmap].
  set (b1 := btrfs_set_item_offset b _ _). f_equal.
  - rewrite (item_hdr_at b1 _ i i); [|intros x Hx; apply shift_offsets_outside; left;
      unfold btrfs_item_nr_offset, sizeof_item in *; lia].
    unfold b1. rewrite set_offset_hdr. unfold shift_hdr. simpl. unfold u32. by rewrite Z.mod_mod by lia.
  - rewrite IH. f_equal. apply hdrs_same. intros x Hx. unfold b1. apply set_offset_outside. lia.
Qed.

(** Renumbering gives back the layout when the sizes are those of the items. *)
Lemma renumber_outside n i top b x :
  x < btrfs_item_nr_offset i \/ btrfs_item_nr_offset (i + Z.of_nat n) <= x ->
  renumber_offsets n i top b x = b x.
Proof.
  revert i top b. induction n as [|n IH]; intros i top b Hx; [done|]. cbn [renumber_offsets].
  unfold btrfs_item_nr_offset, sizeof_item in *. rewrite IH by lia.
  apply set_offset_outside. unfold btrfs_item_nr_offset, sizeof_item. lia.
Qed.

Definition same_item (h : ihdr) (p : item) : Prop :=
  ih_key h = fst p /\ ih_size h = Z.of_nat (length (snd p)).

Lemma renumber_hdrs i top b l :
  Forall2 same_item (hdrs b i (length l)) l -> dsize l <= top < 2 ^ 32 ->
  hdrs (renumber_offsets (length l) i top b) i (length l) = layout top l.
Proof.
  revert i top b. induction l as [|[k d] l IH]; intros i top b Hs Ht; [done|].
  cbn [length hdrs renumber_offsets layout dsize] in *. inversion_clear Hs as [|? ? ? ? [Hk Hsz] Hs'].
  simpl in Hk, Hsz. pose proof (dsize_nonneg l).
  change (btrfs_item_size b (btrfs_item_nr i)) with (btrfs_item_size_nr b i). rewrite Hsz.
  rewrite u32_id by lia. set (top' := top - Z.of_nat (length d)).
  set (b1 := btrfs_set_item_offset b _ _). f_equal.
  - rewrite (item_hdr_at b1 _ i i); [|intros z Hz; apply renumber_outside; left;
      unfold btrfs_item_nr_offset, sizeof_item in *; lia].
    unfold b1. rewrite set_offset_hdr, u32_id by lia. by rewrite Hk, Hsz.
  - apply IH; [|lia]. replace (hdrs b1 (i + 1) (length l)) with (hdrs b (i + 1) (length l)); [done|].
    symmetry. apply hdrs_same. intros z Hz. unfold b1. apply set_offset_outside. lia.
Qed.

Lemma layout_same top l : Forall2 same_item (layout top l) l.
Proof. revert top. induction l as [|[k d] l IH]; intros top; simpl; constructor; [done|apply IH]. Qed.

(** ** What the leaf functions read from a leaf that holds a list of items. *)



(** Linear arithmetic on positions in a block. *)
Ltac leaf_lia :=
  unfold root_ok, BTRFS_LEAF_DATA_SIZE, btrfs_item_nr, btrfs_item_nr_offset, btrfs_leaf_data,
    sizeof_item, sizeof_header in *; lia.

(** A byte the writes of the goal leave alone, positions unfolded. *)
Ltac leaf_untouched :=
  unfold agree, memmove_extent_buffer, copy_extent_buffer, btrfs_set_header_nritems, put_le,
    btrfs_item_nr, btrfs_item_nr_offset, btrfs_leaf_data, BTRFS_LEAF_DATA_SIZE, sizeof_item,
    sizeof_header in *;
  intros; zbool; first [ lia | done | reflexivity ].

Ltac unwrap := unwrap_by ltac:(leaf_lia).

Section Repr.
Context (root : btrfs_root) (Hroot : root_ok root).

Section Split.
Context (b : buf) (A B : list item) (Hr : leaf_repr root b (A ++ B)).

Lemma repr_hdrs_left : hdrs b 0 (length A) = layout (BTRFS_LEAF_DATA_SIZE root) A.
Proof using Hr.
  pose proof (lr_hdrs _ _ _ Hr) as Hh. rewrite length_app, hdrs_app, layout_app in Hh.
  apply app_inj_1 in Hh; [by destruct Hh|]. by rewrite hdrs_length, layout_length.
Qed.

Lemma repr_hdrs_right :
  hdrs b (Z.of_nat (length A)) (length B) = layout (BTRFS_LEAF_DATA_SIZE root - dsize A) B.
Proof using Hr.
  pose proof (lr_hdrs _ _ _ Hr) as Hh. rewrite length_app, hdrs_app, layout_app in Hh.
  apply app_inj_1 in Hh; [by destruct Hh|]. by rewrite hdrs_length, layout_length.
Qed.

Lemma repr_data :
  read_extent_buffer b (leafsize root - dsize (A ++ B)) (Z.to_nat (dsize B)) = stack B /\
  read_extent_buffer b (leafsize root - dsize A) (Z.to_nat (dsize A)) = stack A.
Proof using Hr.
  pose proof (lr_data _ _ _ Hr) as Hd. rewrite dsize_app, stack_app in *.
  pose proof (dsize_nonneg A). pose proof (dsize_nonneg B).
  rewrite (Z.add_comm (dsize A)), Z2Nat.inj_add, read_app, Z2Nat.id in Hd by lia.
  apply app_inj_1 in Hd.
  - destruct Hd as [H1 H2]. split.
    + by rewrite (Z.add_comm (dsize A)).
    + by replace (leafsize root - (dsize B + dsize A) + dsize B) with (leafsize root - dsize A) in H2 by lia.
  - rewrite read_length. pose proof (stack_length B). lia.
Qed.
End Split.

(** The bounds everything else rests on. *)
Lemma repr_bounds b l :
  leaf_repr root b l ->
  0 <= dsize l /\ sizeof_item * Z.of_nat (length l) + dsize l <= BTRFS_LEAF_DATA_SIZE root /\
  BTRFS_LEAF_DATA_SIZE root < 65536.
Proof using Hroot.
  intros Hr. pose proof (dsize_nonneg l). pose proof (lr_fits _ _ _ Hr). split_and!; leaf_lia.
Qed.

Lemma repr_item b A k d B :
  leaf_repr root b (A ++ (k, d) :: B) ->
  item_hdr b (Z.of_nat (length A)) =
    Ihdr k (BTRFS_LEAF_DATA_SIZE root - dsize A - Z.of_nat (length d)) (Z.of_nat (length d)).
Proof using Type. intros Hr. pose proof (repr_hdrs_right b A ((k, d) :: B) Hr) as Hh.
  apply (f_equal head) in Hh. injection Hh as Hk Ho Hs. unfold item_hdr. by rewrite Hk, Ho, Hs.
Qed.

Lemma repr_item_fields b A k d B :
  leaf_repr root b (A ++ (k, d) :: B) ->
  let i := Z.of_nat (length A) in
  btrfs_item_key b i = k /\
  btrfs_item_offset_nr b i = BTRFS_LEAF_DATA_SIZE root - dsize A - Z.of_nat (length d) /\
  btrfs_item_size_nr b i = Z.of_nat (length d) /\
  btrfs_item_end_nr b i = BTRFS_LEAF_DATA_SIZE root - dsize A.
Proof using Hroot.
  intros Hr i. pose proof (repr_item b A k d B Hr) as Hi. unfold item_hdr in Hi. injection Hi as Hk Ho Hs.
  split_and!; [done..|]. unfold btrfs_item_end_nr, btrfs_item_end.
  change (btrfs_item_offset b (btrfs_item_nr i)) with (btrfs_item_offset_nr b i).
  change (btrfs_item_size b (btrfs_item_nr i)) with (btrfs_item_size_nr b i). unfold i. rewrite Ho, Hs.
  pose proof (repr_bounds _ _ Hr) as Hb. rewrite dsize_app, length_app in Hb. simpl in Hb.
  pose proof (dsize_nonneg A). pose proof (dsize_nonneg B). rewrite u32_id by leaf_lia. lia.
Qed.

Lemma repr_item_data b A k d B :
  leaf_repr root b (A ++ (k, d) :: B) ->
  read_extent_buffer b (btrfs_item_ptr_offset b (Z.of_nat (length A))) (length d) = d.
Proof using Hroot.
  intros Hr. destruct (repr_item_fields b A k d B Hr) as (_ & Ho & _ & _).
  unfold btrfs_item_ptr_offset. rewrite Ho.
  rewrite cons_middle, (assoc_L (++)) in Hr. destruct (repr_data b _ _ Hr) as [_ Hd].
  rewrite stack_app, dsize_app in Hd. simpl in Hd. pose proof (dsize_nonneg A).
  rewrite (Z2Nat.inj_add _ (_ + 0)) in Hd by lia.
  rewrite (Nat.add_comm (Z.to_nat (dsize A))), read_app in Hd. rewrite Z.add_0_r, Nat2Z.id in Hd.
  apply app_inj_1 in Hd; [|by rewrite read_length]. destruct Hd as [Hd _].
  rewrite <- Hd at 3. f_equal. leaf_lia.
Qed.

Lemma repr_data_end b l : leaf_repr root b l -> leaf_data_end root b = BTRFS_LEAF_DATA_SIZE root - dsize l.
Proof using Hroot.
  intros Hr. unfold leaf_data_end. rewrite (lr_nritems _ _ _ Hr).
  destruct l as [|x l _] using rev_ind; simpl; [lia|]. rewrite length_app. simpl.
  rewrite (proj2 (Z.eqb_neq _ _)) by lia. destruct x as [k d].
  replace (Z.of_nat (length l + 1) - 1) with (Z.of_nat (length l)) by lia.
  destruct (repr_item_fields b l k d [] Hr) as (_ & -> & _). rewrite dsize_app. simpl. lia.
Qed.

(** [n] items from the middle of the leaf. *)
Lemma repr_space_used b A X B :
  leaf_repr root b (A ++ X ++ B) ->
  leaf_space_used b (Z.of_nat (length A)) (Z.of_nat (length X)) = Some (dsize X + sizeof_item * Z.of_nat (length X)).
Proof using Hroot.
  intros Hr. pose proof (repr_bounds _ _ Hr) as Hb. rewrite !dsize_app, !length_app in Hb.
  pose proof (dsize_nonneg A). pose proof (dsize_nonneg B). pose proof (dsize_nonneg X).
  unfold leaf_space_used.
  rewrite (lr_nritems _ _ _ Hr), (s32_id (Z.of_nat _)) by (rewrite !length_app; leaf_lia).
  destruct X as [|x X _] using rev_ind; [done|].
  rewrite (proj2 (Z.eqb_neq _ _)) by (rewrite length_app; simpl; lia).
  destruct x as [k d]. rewrite dsize_app in *. simpl in *.
  assert (Hend : btrfs_item_end_nr b (Z.of_nat (length A)) = BTRFS_LEAF_DATA_SIZE root - dsize A).
  { destruct X as [|[k' d'] X]; simpl in Hr; by apply repr_item_fields in Hr as (_ & _ & _ & ?). }
  rewrite Hend, (s32_id (BTRFS_LEAF_DATA_SIZE root - dsize A)) by leaf_lia.
  replace (Z.min _ _ - 1) with (Z.of_nat (length (A ++ X))) by (rewrite !length_app; simpl; lia).
  rewrite <- (assoc_L (++)), (assoc_L (++) A) in Hr. apply repr_item_fields in Hr as (_ & -> & _ & _).
  rewrite dsize_app, !length_app. simpl. rewrite !length_app in Hb. simpl in Hb. pose proof (dsize_nonneg X).
  unwrap. rewrite (proj2 (Z.ltb_ge _ 0)) by leaf_lia. f_equal. leaf_lia.
Qed.

Lemma repr_free_space b l :
  leaf_repr root b l ->
  btrfs_leaf_free_space root b = Some (BTRFS_LEAF_DATA_SIZE root - sizeof_item * Z.of_nat (length l) - dsize l).
Proof using Hroot.
  intros Hr. unfold btrfs_leaf_free_space. pose proof (repr_bounds _ _ Hr).
  rewrite (lr_nritems _ _ _ Hr), (s32_id (Z.of_nat _)) by leaf_lia.
  pose proof (repr_space_used b [] l []) as Hu. rewrite app_nil_r in Hu. simpl in Hu.
  change 0 with (Z.of_nat 0). rewrite Hu by done. cbn [mbind option_bind]. unwrap. f_equal. lia.
Qed.

(** ** Building a leaf from its parts *)

Lemma repr_intro b A X B :
  btrfs_header_nritems b = Z.of_nat (length (A ++ X ++ B)) ->
  hdrs b 0 (length A) = layout (BTRFS_LEAF_DATA_SIZE root) A ->
  hdrs b (Z.of_nat (length A)) (length X) = layout (BTRFS_LEAF_DATA_SIZE root - dsize A) X ->
  hdrs b (Z.of_nat (length A) + Z.of_nat (length X)) (length B) =
    layout (BTRFS_LEAF_DATA_SIZE root - dsize A - dsize X) B ->
  read_extent_buffer b (leafsize root - dsize A) (Z.to_nat (dsize A)) = stack A ->
  read_extent_buffer b (leafsize root - dsize A - dsize X) (Z.to_nat (dsize X)) = stack X ->
  read_extent_buffer b (leafsize root - dsize A - dsize X - dsize B) (Z.to_nat (dsize B)) = stack B ->
  sizeof_item * Z.of_nat (length (A ++ X ++ B)) + dsize (A ++ X ++ B) <= BTRFS_LEAF_DATA_SIZE root ->
  leaf_repr root b (A ++ X ++ B).
Proof using Type.
  intros Hn HA HX HB DA DX DB Hf. split; [done| | |done].
  - rewrite !length_app, !hdrs_app, !layout_app, HA. by rewrite Z.add_0_l, HX, HB.
  - pose proof (dsize_nonneg A). pose proof (dsize_nonneg B). pose proof (dsize_nonneg X).
    rewrite !stack_app, !dsize_app.
    replace (Z.to_nat (dsize A + (dsize X + dsize B)))
      with (Z.to_nat (dsize B) + (Z.to_nat (dsize X) + Z.to_nat (dsize A)))%nat by lia.
    rewrite !read_app, !Z2Nat.id by lia. rewrite <- (assoc_L (++)). f_equal; [|f_equal].
    + rewrite <- DB. f_equal. lia.
    + rewrite <- DX. f_equal. lia.
    + rewrite <- DA. f_equal. lia.
Qed.
End Repr.

(** ** [btrfs_insert_empty_items] and [btrfs_del_items] as list operations. *)

Implicit Types (X : list item).

(** ** Setting up new headers *)

Definition keys_ok (ks : list (btrfs_key * Z)) : Prop :=
  Forall (fun p => key_ok (fst p) /\ 0 <= snd p) ks.

(** Items with the given keys and sizes. *)
Definition shape_of (X : list item) (ks : list (btrfs_key * Z)) : Prop :=
  Forall2 (fun (x : item) p => fst x = fst p /\ Z.of_nat (length (snd x)) = snd p) X ks.

Fixpoint total (ks : list (btrfs_key * Z)) : Z :=
  match ks with [] => 0 | (_, s) :: ks => s + total ks end.

Lemma total_nonneg ks : keys_ok ks -> 0 <= total ks.
Proof. induction 1 as [|[k s] ks [_ ?] _ IH]; simpl in *; lia. Qed.

Lemma shape_dsize X ks : shape_of X ks -> dsize X = total ks.
Proof. induction 1 as [|[k d] [k' s] X ks [_ ?] _ IH]; simpl in *; lia. Qed.

Lemma sum_sizes_total ks : keys_ok ks -> total ks < 2 ^ 32 -> sum_sizes ks = total ks.
Proof.
  induction 1 as [|[k s] ks [_ Hs] Hok IH]; simpl in *; [done|]. intros Ht.
  pose proof (total_nonneg ks Hok). unfold sum_sizes in *. simpl. rewrite IH by lia. apply u32_id. lia.
Qed.

Lemma set_item_hdr b i k o s :
  key_ok k -> 0 <= o < 2 ^ 32 -> 0 <= s < 2 ^ 32 ->
  item_hdr (btrfs_set_item_size (btrfs_set_item_offset (btrfs_set_item_key b k i)
    (btrfs_item_nr i) o) (btrfs_item_nr i) s) i = Ihdr k o s.
Proof.
  intros Hk Ho Hs. unfold item_hdr. f_equal.
  - transitivity (read_disk_key (write_disk_key b (btrfs_item_nr i) k) (btrfs_item_nr i));
      [|by apply read_write_disk_key].
    apply read_disk_key_same. unfold btrfs_set_item_size, btrfs_set_item_offset, btrfs_set_item_key. untouched.
  - unfold btrfs_item_offset_nr, btrfs_item_offset, btrfs_set_item_size.
    rewrite get_put_le_other by lia. by apply get_put_le_id.
  - by apply get_put_le_id.
Qed.

Lemma set_item_hdr_outside b i k o s x :
  x < btrfs_item_nr_offset i \/ btrfs_item_nr_offset (i + 1) <= x ->
  btrfs_set_item_size (btrfs_set_item_offset (btrfs_set_item_key b k i)
    (btrfs_item_nr i) o) (btrfs_item_nr i) s x = b x.
Proof.
  intros Hx. transitivity (btrfs_set_item_key b k i x).
  - unfold btrfs_set_item_size, btrfs_set_item_offset. leaf_untouched.
  - apply write_disk_key_outside. leaf_lia.
Qed.

Lemma setup_items_outside slot top ks b x :
  x < btrfs_item_nr_offset slot \/ btrfs_item_nr_offset (slot + Z.of_nat (length ks)) <= x ->
  setup_items slot top ks b x = b x.
Proof.
  revert slot top b. induction ks as [|[k s] ks IH]; intros slot top b Hx; [done|].
  cbn [setup_items length] in *. unfold btrfs_item_nr_offset, sizeof_item in *. rewrite IH by lia.
  apply set_item_hdr_outside. unfold btrfs_item_nr_offset, sizeof_item. lia.
Qed.

Lemma setup_items_hdrs slot top ks X b :
  keys_ok ks -> shape_of X ks -> total ks <= top < 2 ^ 32 ->
  hdrs (setup_items slot top ks b) slot (length ks) = layout top X.
Proof.
  intros Hok HX. revert slot top b Hok. induction HX as [|[k' d] [k s] X ks [Hk Hd] HX IH];
    intros slot top b Hok Ht; [done|].
  simpl in Hk, Hd. subst k'. apply Forall_cons in Hok as [[Hkok Hs] Hok]. simpl in Hkok, Hs.
  cbn [total] in Ht. pose proof (total_nonneg _ Hok).
  cbn [setup_items length hdrs layout]. rewrite Hd. f_equal.
  - set (b1 := btrfs_set_item_size _ _ _).
    rewrite (item_hdr_at b1 _ slot slot); [|intros z Hz; apply setup_items_outside; left;
      unfold btrfs_item_nr_offset, sizeof_item in *; lia].
    unfold b1. rewrite set_item_hdr by (done || (unwrap; lia)). by unwrap.
  - unwrap. apply IH; [done|lia].
Qed.

(** The items the bytes at [top] hold for given keys and sizes. *)
Fixpoint items_at (b : buf) (top : Z) (ks : list (btrfs_key * Z)) : list item :=
  match ks with
  | [] => []
  | (k, s) :: ks => (k, read_extent_buffer b (top - s) (Z.to_nat s)) :: items_at b (top - s) ks
  end.

Lemma items_at_shape b top ks : keys_ok ks -> shape_of (items_at b top ks) ks.
Proof.
  intros Hok. revert top. induction Hok as [|[k s] ks [_ Hs] _ IH]; intros top; simpl; constructor; [|apply IH].
  simpl in *. split; [done|]. rewrite read_length. lia.
Qed.

Lemma items_at_stack b top ks :
  keys_ok ks -> read_extent_buffer b (top - total ks) (Z.to_nat (total ks)) = stack (items_at b top ks).
Proof.
  intros Hok. revert top. induction Hok as [|[k s] ks [_ Hs] Hok IH]; intros top; [done|].
  simpl in *. pose proof (total_nonneg _ Hok).
  rewrite (Z.add_comm s), Z2Nat.inj_add, read_app, Z2Nat.id, <- IH by lia. f_equal; f_equal; lia.
Qed.

Lemma set_nritems_get b v : 0 <= v < 2 ^ 32 -> btrfs_header_nritems (btrfs_set_header_nritems b v) = v.
Proof. apply (get_put_le_id 4 b 96 v). Qed.

Lemma set_nritems_same b v x : sizeof_header <= x -> btrfs_set_header_nritems b v x = b x.
Proof. leaf_untouched. Qed.

Section Ops.
Context (root : btrfs_root) (Hroot : root_ok root).

(** The bytes after the data and the headers behind the slot have moved. *)
Record made_room (b b' : buf) (A B : list item) (nr td : Z) : Prop := {
  mr_nritems : btrfs_header_nritems b' = btrfs_header_nritems b;
  mr_left : agree b b' sizeof_header (btrfs_item_nr_offset (Z.of_nat (length A)));
  mr_hdrs : hdrs b' (Z.of_nat (length A) + nr) (length B) = layout (BTRFS_LEAF_DATA_SIZE root - dsize A - td) B;
  mr_data_left : agree b b' (leafsize root - dsize A) (leafsize root);
  mr_data : read_extent_buffer b' (leafsize root - dsize A - td - dsize B) (Z.to_nat (dsize B)) = stack B;
}.

Lemma shift_and_move b A B nr td :
  leaf_repr root b (A ++ B) -> 0 <= nr -> 0 <= td ->
  sizeof_item * (Z.of_nat (length (A ++ B)) + nr) + dsize (A ++ B) + td <= BTRFS_LEAF_DATA_SIZE root ->
  let slot := Z.of_nat (length A) in
  let data_end := BTRFS_LEAF_DATA_SIZE root - dsize (A ++ B) in
  made_room b
    (memmove_extent_buffer
      (memmove_extent_buffer (shift_offsets (length B) slot (- td) b)
        (btrfs_item_nr_offset (slot + nr)) (btrfs_item_nr_offset slot) (Z.of_nat (length B) * sizeof_item))
      (btrfs_leaf_data + data_end - td) (btrfs_leaf_data + data_end) (dsize B)) A B nr td.
Proof using Hroot.
  intros Hr Hnr Htd Hfit. cbv zeta.
  pose proof (repr_bounds root Hroot _ _ Hr) as Hb. rewrite dsize_app, length_app in *.
  pose proof (dsize_nonneg A). pose proof (dsize_nonneg B).
  set (b1 := shift_offsets _ _ _ _). set (b2 := memmove_extent_buffer b1 _ _ _).
  assert (H1 : forall x, x < btrfs_item_nr_offset (Z.of_nat (length A)) \/
      btrfs_item_nr_offset ((Z.of_nat (length A)) + Z.of_nat (length B)) <= x -> b1 x = b x)
    by (intros x Hx; by apply shift_offsets_outside).
  split.
  - apply get_le_same. intros x Hx. unfold b2.
    transitivity (b1 x); [leaf_untouched|apply H1; leaf_lia].
  - intros x Hx. transitivity (b1 x); [unfold b2; leaf_untouched|apply H1; leaf_lia].
  - replace (BTRFS_LEAF_DATA_SIZE root - dsize A - td) with (BTRFS_LEAF_DATA_SIZE root - dsize A + - td) by lia.
    rewrite <- shift_layout, <- (repr_hdrs_right root b A B Hr), <- shift_offsets_hdrs by leaf_lia.
    fold b1. apply hdrs_at. intros x Hx. unfold b2.
    leaf_untouched || (unfold memmove_extent_buffer, copy_extent_buffer; zbool; leaf_lia || (f_equal; leaf_lia)).
  - intros x Hx. transitivity (b1 x); [unfold b2; leaf_untouched|apply H1; leaf_lia].
  - destruct (repr_data root b A B Hr) as [<- _]. rewrite dsize_app. apply read_agree. intros x Hx.
    transitivity (b1 (leafsize root - (dsize A + dsize B) + x)); [|apply H1; leaf_lia].
    transitivity (b2 (leafsize root - (dsize A + dsize B) + x)).
    + unfold memmove_extent_buffer, copy_extent_buffer. zbool; try leaf_lia. f_equal. leaf_lia.
    + unfold b2. leaf_untouched.
Qed.

(** The header count and the new headers, once there is room. *)
Lemma finish_insert b b' A B ks :
  leaf_repr root b (A ++ B) -> keys_ok ks ->
  sizeof_item * (Z.of_nat (length (A ++ B)) + Z.of_nat (length ks)) + dsize (A ++ B) + total ks
    <= BTRFS_LEAF_DATA_SIZE root ->
  made_room b b' A B (Z.of_nat (length ks)) (total ks) ->
  let b2 := btrfs_set_header_nritems
    (setup_items (Z.of_nat (length A)) (BTRFS_LEAF_DATA_SIZE root - dsize A) ks b')
    (Z.of_nat (length (A ++ B)) + Z.of_nat (length ks)) in
  exists X, shape_of X ks /\ leaf_repr root b2 (A ++ X ++ B).
Proof using Hroot.
  intros Hr Hok Hfit Hroom. cbv zeta.
  pose proof (repr_bounds root Hroot _ _ Hr) as Hb. rewrite dsize_app, length_app in *.
  pose proof (dsize_nonneg A). pose proof (dsize_nonneg B). pose proof (total_nonneg ks Hok).
  set (b1 := setup_items _ _ _ _). set (b2 := btrfs_set_header_nritems _ _).
  set (X := items_at b2 (leafsize root - dsize A) ks).
  pose proof (items_at_shape b2 (leafsize root - dsize A) ks Hok) as HX. fold X in HX.
  pose proof (shape_dsize _ _ HX) as HdX. pose proof (Forall2_length _ _ _ HX) as HlX.
  assert (Hout : forall x, sizeof_header <= x ->
      x < btrfs_item_nr_offset (Z.of_nat (length A)) \/
      btrfs_item_nr_offset (Z.of_nat (length A) + Z.of_nat (length ks)) <= x -> b2 x = b' x).
  { intros x Hx Ho. unfold b2. rewrite set_nritems_same by done. by apply setup_items_outside. }
  exists X. split; [done|]. apply repr_intro.
  - unfold b2. rewrite set_nritems_get by leaf_lia. rewrite !length_app, HlX. lia.
  - rewrite <- (repr_hdrs_left root b A B Hr). apply hdrs_same. intros x Hx.
    rewrite Hout by leaf_lia. apply (mr_left _ _ _ _ _ _ Hroom). leaf_lia.
  - rewrite <- (setup_items_hdrs (Z.of_nat (length A)) _ ks X b') by (done || leaf_lia).
    rewrite HlX. apply hdrs_same. intros x Hx. unfold b2. rewrite set_nritems_same; [done|leaf_lia].
  - rewrite HlX, HdX, <- (mr_hdrs _ _ _ _ _ _ Hroom). apply hdrs_same. intros x Hx. apply Hout; leaf_lia.
  - destruct (repr_data root b A B Hr) as [_ <-]. apply read_same. intros x Hx.
    rewrite Hout by leaf_lia. apply (mr_data_left _ _ _ _ _ _ Hroom). lia.
  - rewrite HdX. by apply items_at_stack.
  - rewrite HdX, <- (mr_data _ _ _ _ _ _ Hroom). apply read_same. intros x Hx. apply Hout; leaf_lia.
  - rewrite !dsize_app, !length_app, HdX, HlX. leaf_lia.
Qed.

Lemma insert_leaf_spec b A B ks :
  leaf_repr root b (A ++ B) -> keys_ok ks ->
  sizeof_item * (Z.of_nat (length (A ++ B)) + Z.of_nat (length ks)) + dsize (A ++ B) + total ks
    <= BTRFS_LEAF_DATA_SIZE root ->
  exists b' X, insert_empty_items_leaf root b (Z.of_nat (length A)) ks = Some b' /\
    shape_of X ks /\ leaf_repr root b' (A ++ X ++ B).
Proof using Hroot.
  intros Hr Hok Hfit.
  pose proof (repr_bounds root Hroot _ _ Hr) as Hb.
  pose proof (dsize_nonneg A). pose proof (dsize_nonneg B). pose proof (total_nonneg ks Hok).
  unfold insert_empty_items_leaf.
  rewrite (lr_nritems _ _ _ Hr), (repr_data_end root Hroot _ _ Hr), (repr_free_space root Hroot _ _ Hr).
  cbn [mbind option_bind].
  rewrite sum_sizes_total by (done || leaf_lia). unwrap.
  rewrite (proj2 (Z.ltb_ge _ _)) by leaf_lia. rewrite (proj2 (Z.ltb_ge _ 0)) by lia.
  set (step := if negb _ then _ else _).
  assert (Hstep : exists b1, step = Some (b1, BTRFS_LEAF_DATA_SIZE root - dsize A) /\
    made_room b b1 A B (Z.of_nat (length ks)) (total ks)).
  { unfold step. destruct B as [|[k d] B'].
    - rewrite app_nil_r, Z.eqb_refl. simpl. exists b. split; [done|].
      split; simpl; [done|apply agree_refl|done|apply agree_refl|done].
    - rewrite (proj2 (Z.eqb_neq _ _)) by (rewrite length_app; simpl; lia). cbn [negb].
      destruct (repr_item_fields root Hroot b A k d B' Hr) as (_ & _ & _ & ->).
      rewrite (proj2 (Z.ltb_ge _ _)) by (rewrite dsize_app; simpl; pose proof (dsize_nonneg B'); lia).
      eexists. split; [reflexivity|].
      replace (Z.of_nat (length (A ++ (k, d) :: B')) - Z.of_nat (length A))
        with (Z.of_nat (length ((k, d) :: B'))) by (rewrite length_app; simpl; lia).
      replace (u32 _) with (dsize ((k, d) :: B')) by (rewrite dsize_app in *; unwrap; lia).
      rewrite Nat2Z.id. apply shift_and_move; try done; lia. }
  destruct Hstep as (b1 & -> & Hroom). cbn [mbind option_bind].
  destruct (finish_insert b b1 A B ks) as (X & HX & Hr'); [done..|].
  rewrite (repr_free_space root Hroot _ _ Hr'). cbn [mbind option_bind].
  rewrite (proj2 (Z.ltb_ge _ _)) by (pose proof (lr_fits _ _ _ Hr'); leaf_lia). eauto.
Qed.
End Ops.

(** ** Binary search in a block, and the checks of [btrfs_check_leaf]. *)

Implicit Types (k : btrfs_key) (ks : list btrfs_key).

(** ** Ordered keys *)

Abbreviation sorted_keys := (StronglySorted key_lt) (only parsing).

#[export] Instance key_lt_transitive : Transitive key_lt.
Proof. intros k1 k2 k3. apply key_lt_trans. Qed.

Lemma sorted_lookup ks i j k k' :
  sorted_keys ks -> (i < j)%nat -> ks !! i = Some k -> ks !! j = Some k' -> key_lt k k'.
Proof.
  intros Hs Hij Hi Hj. rewrite <- (take_drop j ks) in Hs. apply (StronglySorted_app_1_elem_of _ _ _ _ _ Hs).
  - apply list_elem_of_lookup. exists i. by rewrite lookup_take_lt.
  - apply list_elem_of_lookup. exists O. by rewrite lookup_drop, Nat.add_0_r.
Qed.

(** ** Binary search *)

(** What a search for [key] returns: 0 and where it is, or 1 and where it
    would be. *)
Definition found (ks : list btrfs_key) (key : btrfs_key) (r slot : Z) : Prop :=
  exists (A B : list btrfs_key), slot = Z.of_nat (length A) /\ Forall (fun k => key_lt k key) A /\
    Forall (fun k => key_lt key k) B /\
    (r = 0 /\ ks = A ++ key :: B \/ r = 1 /\ ks = A ++ B).

Section Search.
Context (b : buf) (p item_size : Z) (ks : list btrfs_key) (key : btrfs_key).
Context (Hks : forall i k, ks !! i = Some k -> read_disk_key b (p + Z.of_nat i * item_size) = k).
Context (Hsort : sorted_keys ks).

Lemma bin_search_loop_spec fuel low high :
  Z.of_nat high - Z.of_nat low < 2 ^ Z.of_nat fuel ->
  (low <= high <= length ks)%nat ->
  Forall (fun k => key_lt k key) (take low ks) -> Forall (fun k => key_lt key k) (drop high ks) ->
  exists r slot, bin_search_loop fuel b p item_size key (Z.of_nat low) (Z.of_nat high) = Some (r, slot) /\
    found ks key r slot.
Proof using Hks Hsort.
  revert low high. induction fuel as [|fuel IH]; intros low high Hf Hle HA HB.
  - simpl in *. rewrite (proj2 (Z.ltb_ge _ _)) by lia. eexists _, _. split; [done|].
    exists (take low ks), (drop low ks). rewrite length_take, take_drop. split_and!; [lia|done| |by right].
    by replace low with high by lia.
  - cbn [bin_search_loop]. destruct (Z.ltb_spec (Z.of_nat low) (Z.of_nat high)) as [Hlt|Hge].
    2: { eexists _, _. split; [done|].
         exists (take low ks), (drop low ks). rewrite length_take, take_drop. split_and!; [lia|done| |by right].
         by replace low with high by lia. }
    set (m := Nat.div (low + high) 2).
    assert (Hm : (Z.of_nat low + Z.of_nat high) / 2 = Z.of_nat m)
      by (unfold m; rewrite Nat2Z.inj_div; f_equal; lia).
    rewrite Nat2Z.inj_succ, Z.pow_succ_r in Hf by lia.
    assert (Hb : Z.of_nat low <= Z.of_nat m < Z.of_nat high /\
      Z.of_nat high - Z.of_nat m - 1 < 2 ^ Z.of_nat fuel /\ Z.of_nat m - Z.of_nat low < 2 ^ Z.of_nat fuel) by zlia.
    rewrite Hm. destruct (lookup_lt_is_Some_2 ks m) as [k Hk]; [lia|]. rewrite (Hks _ _ Hk).
    assert (Hsplit : ks = take m ks ++ k :: drop (S m) ks) by (symmetry; by apply take_drop_middle).
    assert (Hlow : Forall (fun k' => key_lt k' k) (take m ks)).
    { apply Forall_forall. intros k' Hk'. rewrite Hsplit in Hsort.
      apply (StronglySorted_app_1_elem_of _ _ _ _ _ Hsort); [done|by left]. }
    assert (Hhigh : Forall (fun k' => key_lt k k') (drop (S m) ks)).
    { rewrite Hsplit in Hsort. apply StronglySorted_app_1_r, StronglySorted_cons in Hsort. by destruct Hsort. }
    destruct (key_trichotomy k key) as [Hlt'|[->|Hgt]].
    + unfold key_lt in Hlt'. rewrite (proj2 (Z.ltb_lt _ 0)) by lia.
      replace (Z.of_nat m + 1) with (Z.of_nat (S m)) by lia. apply IH; [lia|lia| |done].
      rewrite (take_S_r _ _ _ Hk). apply Forall_app. split; [|by constructor].
      eapply Forall_impl; [exact Hlow|]. intros k' Hk'. by apply (key_lt_trans _ k).
    + rewrite comp_keys_refl. simpl. eexists _, _. split; [done|].
      exists (take m ks), (drop (S m) ks). split_and!; [rewrite length_take; lia|done|done|by left].
    + unfold key_lt in Hgt. rewrite comp_keys_antisym in Hgt.
      rewrite (proj2 (Z.ltb_ge _ 0)), (proj2 (Z.ltb_lt 0 _)) by lia. apply IH; [lia|lia|done|].
      rewrite (drop_S _ _ _ Hk). constructor; [unfold key_lt; rewrite comp_keys_antisym; lia|].
      eapply Forall_impl; [exact Hhigh|]. intros k' Hk'. apply (key_lt_trans _ k); [|done].
      unfold key_lt. rewrite comp_keys_antisym. lia.
Qed.

Lemma generic_bin_search_spec :
  Z.of_nat (length ks) < 2 ^ 31 ->
  exists r slot, generic_bin_search b p item_size key (Z.of_nat (length ks)) = Some (r, slot) /\
    found ks key r slot.
Proof using Hks Hsort.
  intros Hl. apply (bin_search_loop_spec 32 0 (length ks)); [simpl Z.of_nat at 3; lia|lia|constructor|].
  rewrite drop_all. constructor.
Qed.
End Search.

(** ** Checking a leaf *)

Section Leaf.
Context (root : btrfs_root) (Hroot : root_ok root).

Lemma repr_key b l i k : leaf_repr root b l -> l.*1 !! i = Some k -> btrfs_item_key b (Z.of_nat i) = k.
Proof using Hroot.
  intros Hr Hi. apply list_lookup_fmap_Some in Hi as ([k' d] & -> & Hi).
  apply list_elem_of_split_length in Hi as (A & B & -> & ->).
  by destruct (repr_item_fields root Hroot _ _ _ _ _ Hr) as (? & _).
Qed.

Lemma bin_search_leaf b l key :
  leaf_repr root b l -> sorted_keys (l.*1) ->
  exists r slot, bin_search b key 0 = Some (r, slot) /\ found (l.*1) key r slot.
Proof using Hroot.
  intros Hr Hs. pose proof (repr_bounds root Hroot _ _ Hr). unfold bin_search.
  rewrite (lr_nritems _ _ _ Hr), s32_id by leaf_lia. simpl.
  rewrite <- (length_fmap fst l). apply generic_bin_search_spec; [|done|rewrite length_fmap; leaf_lia].
  intros i k Hi. rewrite <- (repr_key b l i k Hr Hi). unfold btrfs_item_key. f_equal. leaf_lia.
Qed.
(** Neighbours from slot [i] on are in order, [n] pairs of them. *)
Definition pairs_sorted ks (i n : nat) : Prop :=
  forall j k k', (i <= j < i + n)%nat -> ks !! j = Some k -> ks !! S j = Some k' -> key_lt k k'.

Lemma pairs_sorted_S ks i n k k' :
  ks !! i = Some k -> ks !! S i = Some k' ->
  pairs_sorted ks i (S n) <-> key_lt k k' /\ pairs_sorted ks (S i) n.
Proof using Type.
  intros Hi Hi'. split.
  - intros Hp. split; [by apply (Hp i); [lia|..]|]. intros j x x' Hj. apply Hp. lia.
  - intros [Hlt Hp] j x x' Hj Hx Hx'. destruct (decide (j = i)) as [->|]; [by simplify_eq|].
    apply (Hp j); [lia|done..].
Qed.

Lemma sorted_pairs ks i n : sorted_keys ks -> pairs_sorted ks i n.
Proof using Type. intros Hs j k k' _ Hk Hk'. apply (sorted_lookup ks j (S j)); [done|lia|done..]. Qed.

Lemma repr_chain b l i :
  leaf_repr root b l -> (S i < length l)%nat ->
  btrfs_item_offset_nr b (Z.of_nat i) = btrfs_item_end_nr b (Z.of_nat i + 1).
Proof using Hroot.
  intros Hr Hi. destruct (lookup_lt_is_Some_2 l i) as [[k d] Hk]; [lia|].
  destruct (lookup_lt_is_Some_2 l (S i)) as [[k' d'] Hk']; [lia|].
  pose proof (take_drop_middle l i _ Hk) as Hl. rewrite (drop_S _ _ _ Hk') in Hl.
  set (A := take i l) in *. assert (HA : length A = i) by (unfold A; rewrite length_take; lia).
  rewrite <- Hl in Hr. destruct (repr_item_fields root Hroot _ _ _ _ _ Hr) as (_ & Ho & _ & _).
  rewrite cons_middle, (assoc_L (++)) in Hr.
  destruct (repr_item_fields root Hroot _ _ _ _ _ Hr) as (_ & _ & _ & He).
  rewrite HA in Ho. rewrite length_app, HA in He. simpl in He.
  replace (Z.of_nat (i + 1)) with (Z.of_nat i + 1) in He by lia.
  rewrite Ho, He, dsize_app. simpl. lia.
Qed.

Lemma repr_first_end b l :
  leaf_repr root b l -> l <> [] -> btrfs_item_end_nr b 0 = BTRFS_LEAF_DATA_SIZE root.
Proof using Hroot.
  intros Hr Hl. destruct l as [|[k d] l]; [done|].
  destruct (repr_item_fields root Hroot b [] k d l Hr) as (_ & _ & _ & He). change (btrfs_item_end_nr b 0 = BTRFS_LEAF_DATA_SIZE root - 0) in He. rewrite He. lia.
Qed.

Lemma check_leaf_loop_spec b l n i :
  leaf_repr root b l -> (i + n < length l)%nat ->
  check_leaf_loop root n (Z.of_nat i) b = true <-> pairs_sorted (l.*1) i n.
Proof using Hroot.
  intros Hr. revert i. induction n as [|n IH]; intros i Hi; cbn [check_leaf_loop].
  { split; [|done]. intros _ j k k' Hj. lia. }
  destruct (lookup_lt_is_Some_2 (l.*1) i) as [k Hk]; [rewrite length_fmap; lia|].
  destruct (lookup_lt_is_Some_2 (l.*1) (S i)) as [k' Hk']; [rewrite length_fmap; lia|].
  rewrite (pairs_sorted_S _ _ _ _ _ Hk Hk'), <- IH by lia.
  replace (Z.of_nat i + 1) with (Z.of_nat (S i)) by lia.
  rewrite (repr_key _ _ _ _ Hr Hk), (repr_key _ _ _ _ Hr Hk').
  unfold key_lt. destruct (Z.leb_spec 0 (btrfs_comp_keys k k')); [split; [done|intros [? _]; lia]|].
  replace (Z.of_nat (S i)) with (Z.of_nat i + 1) at 1 by lia.
  rewrite (repr_chain b l i Hr), Z.eqb_refl by lia. simpl.
  destruct (Z.eqb_spec (Z.of_nat i) 0) as [Hz|]; simpl.
  - assert (i = O) as -> by lia. change (Z.of_nat 0) with 0. rewrite (repr_first_end b l Hr), Z.eqb_refl by (destruct l; [simpl in Hi; lia|done]).
    simpl. split; [done|by intros [_ ?]].
  - split; [done|by intros [_ ?]].
Qed.

Lemma check_leaf_spec b l pk first :
  leaf_repr root b l -> btrfs_header_level b = 0 -> head (l.*1) = Some first ->
  fst <$> btrfs_check_leaf root pk b (leafsize root) = Some 0 <->
  parent_key_ok pk first = true /\ pairs_sorted (l.*1) 0 (length l - 2).
Proof using Hroot.
  intros Hr Hlev Hfirst. pose proof (repr_bounds root Hroot _ _ Hr) as Hb. unfold btrfs_check_leaf.
  assert (Hl : (0 < length l)%nat) by (destruct l; simpl in *; [done|lia]).
  rewrite (lr_nritems _ _ _ Hr), Hlev, (repr_free_space root Hroot _ _ Hr).
  cbn [mbind option_bind].
  rewrite (proj2 (Z.ltb_ge (leafsize root) _)) by leaf_lia. cbn [negb Z.eqb].
  rewrite (proj2 (Z.ltb_ge _ 0)), (proj2 (Z.eqb_neq _ 0)) by leaf_lia.
  pose proof (repr_key b l 0 first Hr) as Hk0. rewrite <- head_lookup in Hk0. specialize (Hk0 Hfirst).
  change (Z.of_nat 0) with 0 in Hk0. rewrite Hk0.
  destruct (parent_key_ok pk first); simpl; [|split; [done|by intros [? _]]].
  assert (Hc : check_count (Z.of_nat (length l)) = (length l - 2)%nat).
  { unfold check_count. destruct (Z.ltb_spec 1 (Z.of_nat (length l))); lia. }
  rewrite Hc, <- (check_leaf_loop_spec b l (length l - 2) 0 Hr) by lia.
  change (Z.of_nat 0) with 0. destruct (check_leaf_loop _ _ _ _); simpl; split; try done. by intros [_ ?].
Qed.
End Leaf.

(** ** Keys around a place *)

Lemma found_1 ks key r slot : found ks key r slot -> key ∉ ks -> r = 1.
Proof.
  intros (A & B & _ & _ & _ & [[_ ->]|[-> _]]) Hk; [|done]. exfalso. apply Hk. set_solver.
Qed.

Lemma sorted_insert ks1 ks2 key :
  sorted_keys (ks1 ++ ks2) -> Forall (fun k => key_lt k key) ks1 -> Forall (fun k => key_lt key k) ks2 ->
  sorted_keys (ks1 ++ key :: ks2).
Proof.
  intros Hs H1 H2. induction H1 as [|k ks1 Hk H1 IH]; simpl in *.
  - by constructor.
  - apply StronglySorted_cons in Hs as [Hall Hs]. constructor; [by apply IH|].
    apply Forall_app in Hall as [Ha Hb]. apply Forall_app. split; [done|]. by constructor.
Qed.

Lemma sorted_delete ks1 ks2 key : sorted_keys (ks1 ++ key :: ks2) -> sorted_keys (ks1 ++ ks2).
Proof.
  induction ks1 as [|k ks1 IH]; simpl; intros Hs; apply StronglySorted_cons in Hs as [Hall Hs]; [done|].
  constructor; [by apply IH|]. apply Forall_app in Hall as [Ha Hb]. apply Forall_app.
  split; [done|]. by apply Forall_cons in Hb as [_ Hb].
Qed.

Lemma not_around (ks1 ks2 : list btrfs_key) key :
  Forall (fun k => key_lt k key) ks1 -> Forall (fun k => key_lt key k) ks2 -> key ∉ ks1 ++ ks2.
Proof.
  rewrite !Forall_forall. intros H1 H2 Hin. apply (key_lt_irrefl key).
  apply elem_of_app in Hin as [Hin|Hin]; [by apply H1|by apply H2].
Qed.

Lemma sorted_drop_middle (ks1 ks2 ks3 ks4 ks5 : list btrfs_key) :
  sorted_keys (ks1 ++ (ks2 ++ ks3 ++ ks4) ++ ks5) -> sorted_keys (ks1 ++ (ks2 ++ ks4) ++ ks5).
Proof.
  intros Hs. replace (ks1 ++ (ks2 ++ ks4) ++ ks5) with ((ks1 ++ ks2) ++ ks4 ++ ks5) by (by rewrite <- !(assoc_L (++))).
  replace (ks1 ++ (ks2 ++ ks3 ++ ks4) ++ ks5) with ((ks1 ++ ks2) ++ ks3 ++ ks4 ++ ks5) in Hs
    by (by rewrite <- !(assoc_L (++))).
  revert Hs. generalize (ks1 ++ ks2) (ks4 ++ ks5). clear. intros A B. induction ks3 as [|k ks IH]; [done|].
  intros Hs. apply IH. by apply (sorted_delete A (ks ++ B) k).
Qed.

(** Two ways to split a list of keys around [key] are one. *)
Lemma split_unique (A1 B1 A2 B2 : list btrfs_key) key :
  A1 ++ B1 = A2 ++ B2 -> Forall (fun k => key_lt k key) A1 -> Forall (fun k => key_lt key k) B1 ->
  Forall (fun k => key_lt k key) A2 -> Forall (fun k => key_lt key k) B2 -> length A2 = length A1.
Proof.
  intros Heq H1 H2 H3 H4. destruct (app_eq_inv _ _ _ _ Heq) as [(C & -> & ->)|(C & -> & ->)];
    destruct C as [|x C]; rewrite ?app_nil_r; try done; exfalso; decompose_Forall;
    eapply key_lt_irrefl, key_lt_trans; eassumption.
Qed.

Lemma read_disk_key_ok b off : key_ok (read_disk_key b off).
Proof.
  unfold key_ok, read_disk_key. simpl.
  split; [apply (get_le_range 8)|]. split; [apply (get_le_range 1)|apply (get_le_range 8)].
Qed.

Lemma repr_key_ok root (Hroot : root_ok root) b l k i : leaf_repr root b l -> l.*1 !! i = Some k -> key_ok k.
Proof. intros Hr Hk. rewrite <- (repr_key root Hroot b l i k Hr Hk). apply read_disk_key_ok. Qed.
