(* ===== verification/LeafResize.v ===== *)
(** [btrfs_del_items], [btrfs_truncate_item], [btrfs_extend_item] and
    [btrfs_split_item] as list operations. *)

From S2P Require Import Prelude Buf CtreeFmt LeafOps LeafSpec.

Implicit Types (b : buf) (l A B X : list item) (root : btrfs_root).

Section Ops.
Context (root : btrfs_root) (Hroot : root_ok root).

Lemma sum_sizes_hdrs b i n : sum_item_sizes n i b = foldr (fun h acc => ih_size h + acc) 0 (hdrs b i n).
Proof. revert i. induction n as [|n IH]; intros i; simpl; [done|]. by rewrite IH. Qed.

Lemma layout_sizes top l : foldr (fun h acc => ih_size h + acc) 0 (layout top l) = dsize l.
Proof. revert top. induction l as [|[k d] l IH]; intros; simpl; [done|]. by rewrite IH. Qed.

Lemma repr_sum_sizes b A X B :
  leaf_repr root b (A ++ X ++ B) -> sum_item_sizes (length X) (Z.of_nat (length A)) b = dsize X.
Proof using Type.
  intros Hr. pose proof (repr_hdrs_right root b A (X ++ B) Hr) as Hh.
  rewrite length_app, hdrs_app, layout_app in Hh.
  apply app_inj_1 in Hh as [Hh _]; [|by rewrite hdrs_length, layout_length].
  by rewrite sum_sizes_hdrs, Hh, layout_sizes.
Qed.

Lemma repr_last_offset b A X B :
  leaf_repr root b (A ++ X ++ B) -> X <> [] ->
  btrfs_item_offset_nr b (Z.of_nat (length A) + Z.of_nat (length X) - 1) =
    BTRFS_LEAF_DATA_SIZE root - dsize A - dsize X.
Proof using Hroot.
  intros Hr HX. destruct X as [|[k d] X _] using rev_ind; [done|].
  rewrite <- (assoc_L (++)), (assoc_L (++) A) in Hr. simpl in Hr.
  destruct (repr_item_fields root Hroot _ _ _ _ _ Hr) as (_ & Ho & _).
  rewrite dsize_app. simpl. rewrite length_app, dsize_app in *. simpl.
  replace (Z.of_nat (length A) + Z.of_nat (length X + 1) - 1) with (Z.of_nat (length A + length X)) by lia.
  rewrite Ho. lia.
Qed.

(** The items and the data behind the deleted ones have moved over them. *)
Record closed_gap (b b' : buf) (A B : list item) : Prop := {
  cg_left : agree b b' sizeof_header (btrfs_item_nr_offset (Z.of_nat (length A)));
  cg_hdrs : hdrs b' (Z.of_nat (length A)) (length B) = layout (BTRFS_LEAF_DATA_SIZE root - dsize A) B;
  cg_data_left : agree b b' (leafsize root - dsize A) (leafsize root);
  cg_data : read_extent_buffer b' (leafsize root - dsize A - dsize B) (Z.to_nat (dsize B)) = stack B;
}.

Lemma move_and_shift b A X B :
  leaf_repr root b (A ++ X ++ B) ->
  let slot := Z.of_nat (length A) in
  let next := Z.of_nat (length A) + Z.of_nat (length X) in
  let data_end := BTRFS_LEAF_DATA_SIZE root - (dsize A + (dsize X + dsize B)) in
  closed_gap b
    (memmove_extent_buffer
      (shift_offsets (length B) next (dsize X)
        (memmove_extent_buffer b (btrfs_leaf_data + data_end + dsize X) (btrfs_leaf_data + data_end)
          (dsize B)))
      (btrfs_item_nr_offset slot) (btrfs_item_nr_offset next) (sizeof_item * Z.of_nat (length B))) A B.
Proof using Hroot.
  intros Hr. pose proof (repr_bounds root Hroot _ _ Hr) as Hb. rewrite !dsize_app, !length_app in Hb.
  pose proof (dsize_nonneg A). pose proof (dsize_nonneg B). pose proof (dsize_nonneg X). cbv zeta.
  rewrite (assoc_L (++)) in Hr.
  set (c1 := memmove_extent_buffer b _ _ _). set (c2 := shift_offsets _ _ _ _).
  assert (H2 : forall x, x < btrfs_item_nr_offset (Z.of_nat (length A) + Z.of_nat (length X)) \/
      btrfs_item_nr_offset (Z.of_nat (length A) + Z.of_nat (length X) + Z.of_nat (length B)) <= x ->
      c2 x = c1 x) by (intros z Hz; by apply shift_offsets_outside).
  split.
  - intros z Hz. transitivity (c2 z); [leaf_untouched|]. rewrite H2 by leaf_lia. unfold c1. leaf_untouched.
  - transitivity (hdrs c2 (Z.of_nat (length A) + Z.of_nat (length X)) (length B)).
    { apply hdrs_at. intros z Hz. unfold memmove_extent_buffer, copy_extent_buffer.
      zbool; try leaf_lia. f_equal. leaf_lia. }
    unfold c2. rewrite shift_offsets_hdrs.
    replace (hdrs c1 _ _) with (hdrs b (Z.of_nat (length (A ++ X))) (length B)).
    + rewrite (repr_hdrs_right root b (A ++ X) B Hr), shift_layout by (rewrite dsize_app; leaf_lia).
      rewrite dsize_app. f_equal. lia.
    + rewrite length_app, Nat2Z.inj_add. symmetry. apply hdrs_same. intros z Hz. unfold c1. leaf_untouched.
  - intros z Hz. transitivity (c2 z); [leaf_untouched|]. rewrite H2 by leaf_lia. unfold c1. leaf_untouched.
  - destruct (repr_data root b (A ++ X) B Hr) as [<- _]. rewrite !dsize_app. apply read_agree.
    intros z Hz. transitivity (c2 (leafsize root - dsize A - dsize B + z)); [leaf_untouched|].
    rewrite H2 by leaf_lia. unfold c1, memmove_extent_buffer, copy_extent_buffer.
    zbool; try leaf_lia. f_equal. leaf_lia.
Qed.

(** The three pieces of a leaf of which the middle one goes. *)
Lemma del_items_spec b A X B :
  leaf_repr root b (A ++ X ++ B) -> X <> [] ->
  leaf_repr root (del_items_leaf root b (Z.of_nat (length A)) (Z.of_nat (length X))) (A ++ B).
Proof using Hroot.
  intros Hr HX. pose proof (repr_bounds root Hroot _ _ Hr) as Hb.
  rewrite !dsize_app, !length_app in Hb.
  pose proof (dsize_nonneg A). pose proof (dsize_nonneg B). pose proof (dsize_nonneg X).
  unfold del_items_leaf.
  rewrite Nat2Z.id, (repr_sum_sizes _ _ _ _ Hr), (repr_last_offset _ _ _ _ Hr HX).
  rewrite (lr_nritems _ _ _ Hr), (repr_data_end root Hroot _ _ Hr). rewrite !dsize_app, !length_app.
  unwrap. set (b1 := if negb _ then _ else _).
  assert (Hgap : closed_gap b b1 A B).
  { unfold b1. destruct B as [|x B'].
    - rewrite (proj2 (Z.eqb_eq _ _)) by (simpl; lia). simpl. by split.
    - rewrite (proj2 (Z.eqb_neq _ _)) by (simpl; lia). cbn [negb].
      replace (Z.to_nat _) with (length (x :: B')) by lia.
      replace (_ - _ - _) with (dsize (x :: B')) by lia.
      replace (Z.of_nat (length A + (length X + length (x :: B'))) - Z.of_nat (length A) - Z.of_nat (length X))
        with (Z.of_nat (length (x :: B'))) by lia.
      apply (move_and_shift b A X (x :: B') Hr). }
  destruct Hgap as [F1 F2 F3 F4].
  assert (Hs : forall z, sizeof_header <= z -> btrfs_set_header_nritems b1
    (Z.of_nat (length A + (length X + length B)) - Z.of_nat (length X)) z = b1 z)
    by (intros; by apply set_nritems_same).
  apply (repr_intro root _ A [] B); simpl.
  - rewrite set_nritems_get by leaf_lia. rewrite length_app. lia.
  - rewrite <- (repr_hdrs_left root b A (X ++ B) Hr). apply hdrs_same. intros z Hz.
    rewrite Hs by leaf_lia. apply F1. leaf_lia.
  - done.
  - rewrite Z.sub_0_r, Z.add_0_r, <- F2. apply hdrs_same. intros z Hz. apply Hs. leaf_lia.
  - destruct (repr_data root b A (X ++ B) Hr) as [_ <-]. apply read_same. intros z Hz.
    rewrite Hs by leaf_lia. apply F3. leaf_lia.
  - done.
  - rewrite Z.sub_0_r, <- F4. apply read_same. intros z Hz. apply Hs. leaf_lia.
  - rewrite dsize_app, length_app. leaf_lia.
Qed.

(** ** One item replaced *)

Lemma replace_intro b b' A k d B k' d' :
  leaf_repr root b (A ++ (k, d) :: B) ->
  btrfs_header_nritems b' = btrfs_header_nritems b ->
  agree b b' sizeof_header (btrfs_item_nr_offset (Z.of_nat (length A))) ->
  agree b b' (leafsize root - dsize A) (leafsize root) ->
  item_hdr b' (Z.of_nat (length A)) =
    Ihdr k' (BTRFS_LEAF_DATA_SIZE root - dsize A - Z.of_nat (length d')) (Z.of_nat (length d')) ->
  hdrs b' (Z.of_nat (length A) + 1) (length B) =
    layout (BTRFS_LEAF_DATA_SIZE root - dsize A - Z.of_nat (length d')) B ->
  read_extent_buffer b' (leafsize root - dsize A - Z.of_nat (length d')) (length d') = d' ->
  read_extent_buffer b' (leafsize root - dsize A - Z.of_nat (length d') - dsize B) (Z.to_nat (dsize B)) = stack B ->
  sizeof_item * Z.of_nat (length (A ++ (k, d) :: B)) + dsize A + Z.of_nat (length d') + dsize B
    <= BTRFS_LEAF_DATA_SIZE root ->
  leaf_repr root b' (A ++ (k', d') :: B).
Proof using Hroot.
  intros Hr Hn HA HdA Hi HB Hd HdB Hfit.
  pose proof (repr_bounds root Hroot _ _ Hr) as Hb. rewrite !dsize_app, !length_app in *. simpl in Hb.
  pose proof (dsize_nonneg A). pose proof (dsize_nonneg B).
  apply (repr_intro root b' A [(k', d')] B); simpl; rewrite ?Z.add_0_r.
  - rewrite Hn, (lr_nritems _ _ _ Hr). by rewrite !length_app.
  - rewrite <- (repr_hdrs_left root b A _ Hr). apply hdrs_same. intros z Hz. apply HA. leaf_lia.
  - by rewrite Hi.
  - done.
  - destruct (repr_data root b A _ Hr) as [_ <-]. apply read_same. intros z Hz. apply HdA. lia.
  - by rewrite Nat2Z.id.
  - done.
  - rewrite !dsize_app, !length_app. simpl in *. lia.
Qed.

(** The headers from the slot on after their offsets have been shifted. *)
Lemma shifted_hdrs b A k d B delta :
  leaf_repr root b (A ++ (k, d) :: B) ->
  0 <= BTRFS_LEAF_DATA_SIZE root - dsize (A ++ (k, d) :: B) + delta ->
  BTRFS_LEAF_DATA_SIZE root - dsize A + delta < 2 ^ 32 ->
  let c := shift_offsets (S (length B)) (Z.of_nat (length A)) delta b in
  let top := BTRFS_LEAF_DATA_SIZE root - dsize A + delta - Z.of_nat (length d) in
  btrfs_item_key c (Z.of_nat (length A)) = k /\
  btrfs_item_offset_nr c (Z.of_nat (length A)) = top /\
  btrfs_item_size_nr c (Z.of_nat (length A)) = Z.of_nat (length d) /\
  hdrs c (Z.of_nat (length A) + 1) (length B) = layout top B /\
  (forall x, x < btrfs_item_nr_offset (Z.of_nat (length A)) \/
     btrfs_item_nr_offset (Z.of_nat (length A) + Z.of_nat (S (length B))) <= x -> c x = b x).
Proof using Hroot.
  intros Hr H1 H2 c top. rewrite dsize_app in H1. simpl in H1.
  pose proof (dsize_nonneg A). pose proof (dsize_nonneg B).
  pose proof (shift_offsets_hdrs (S (length B)) (Z.of_nat (length A)) delta b) as Hh.
  change (S (length B)) with (length ((k, d) :: B)) in Hh at 2 3.
  rewrite (repr_hdrs_right root b A ((k, d) :: B) Hr), shift_layout in Hh by (simpl; lia).
  fold c in Hh. cbn [hdrs layout] in Hh. injection Hh as Hk Ho Hs Hl.
  fold top in Ho, Hl. split_and!; [done|done|done|done|].
  intros x Hx. by apply shift_offsets_outside.
Qed.

Lemma set_size_hdr b i v :
  0 <= v < 2 ^ 32 -> item_hdr (btrfs_set_item_size b (btrfs_item_nr i) v) i =
  Ihdr (btrfs_item_key b i) (btrfs_item_offset_nr b i) v.
Proof using Type.
  intros Hv. unfold item_hdr, btrfs_set_item_size. f_equal.
  - apply read_disk_key_same. untouched.
  - unfold btrfs_item_offset_nr, btrfs_item_offset. apply get_put_le_other. lia.
  - by apply (get_put_le_id 4).
Qed.

Lemma set_size_outside b i v x :
  x < btrfs_item_nr_offset i \/ btrfs_item_nr_offset (i + 1) <= x ->
  btrfs_set_item_size b (btrfs_item_nr i) v x = b x.
Proof using Type. unfold btrfs_set_item_size. leaf_untouched. Qed.

(** The headers have been shifted, the item's own header rewritten, and the
    data behind it moved. *)
Lemma resize_intro b b' A k d B k' d' :
  let delta := Z.of_nat (length d) - Z.of_nat (length d') in
  let c := shift_offsets (S (length B)) (Z.of_nat (length A)) delta b in
  let bottom := leafsize root - dsize A in
  leaf_repr root b (A ++ (k, d) :: B) ->
  sizeof_item * Z.of_nat (length (A ++ (k, d) :: B)) + dsize A + Z.of_nat (length d') + dsize B
    <= BTRFS_LEAF_DATA_SIZE root ->
  item_hdr b' (Z.of_nat (length A)) =
    Ihdr k' (BTRFS_LEAF_DATA_SIZE root - dsize A - Z.of_nat (length d')) (Z.of_nat (length d')) ->
  agree c b' 0 (btrfs_item_nr_offset (Z.of_nat (length A))) ->
  agree c b' (btrfs_item_nr_offset (Z.of_nat (length A) + 1))
    (btrfs_item_nr_offset (Z.of_nat (length A) + 1 + Z.of_nat (length B))) ->
  agree b b' bottom (leafsize root) ->
  (forall z, bottom - Z.of_nat (length d) - dsize B <= z < bottom - Z.of_nat (length d) ->
     b' (z + delta) = b z) ->
  read_extent_buffer b' (bottom - Z.of_nat (length d')) (length d') = d' ->
  leaf_repr root b' (A ++ (k', d') :: B).
Proof using Hroot.
  intros delta c bottom Hr Hfit Hi Hlow Hhdrs Htop Hmove Hd.
  pose proof (repr_bounds root Hroot _ _ Hr) as Hb.
  pose proof (dsize_nonneg A). pose proof (dsize_nonneg B).
  destruct (shifted_hdrs b A k d B delta Hr) as (_ & _ & _ & Fl & Fout);
    [rewrite dsize_app, length_app in *; simpl in *; leaf_lia..|].
  fold c in Fl, Fout. rewrite dsize_app, length_app in *. simpl in Hb, Hfit.
  apply (replace_intro b b' A k d B k' d' Hr).
  - apply get_le_same. intros z Hz. rewrite Hlow by leaf_lia. apply Fout. leaf_lia.
  - intros z Hz. rewrite Hlow by leaf_lia. apply Fout. lia.
  - done.
  - done.
  - replace (_ - _ - Z.of_nat (length d')) with
      (BTRFS_LEAF_DATA_SIZE root - dsize A + delta - Z.of_nat (length d)) by lia.
    rewrite <- Fl. by apply hdrs_same.
  - done.
  - destruct (repr_data root b (A ++ [(k, d)]) B) as [HB _]; [by rewrite <- (assoc_L (++))|].
    rewrite <- HB, !dsize_app. simpl. apply read_agree. intros z Hz.
    rewrite <- (Hmove (leafsize root - (dsize A + (Z.of_nat (length d) + 0) + dsize B) + z)) by lia.
    f_equal. lia.
  - rewrite length_app. simpl. lia.
Qed.

(** [btrfs_extend_item]: the data grows at its end. *)
Lemma extend_item_spec b A k d B n :
  leaf_repr root b (A ++ (k, d) :: B) -> 0 <= n ->
  sizeof_item * Z.of_nat (length (A ++ (k, d) :: B)) + dsize (A ++ (k, d) :: B) + n <= BTRFS_LEAF_DATA_SIZE root ->
  exists b' d2, extend_item_leaf root b (Z.of_nat (length A)) n = Some b' /\
    Z.of_nat (length d2) = n /\ leaf_repr root b' (A ++ (k, d ++ d2) :: B).
Proof using Hroot.
  intros Hr Hn Hfit. pose proof (repr_bounds root Hroot _ _ Hr) as Hb.
  pose proof (dsize_nonneg A). pose proof (dsize_nonneg B).
  destruct (shifted_hdrs b A k d B (- n) Hr) as (Fk & Fo & Fs & Fl & Fout); [leaf_lia..|].
  pose proof (repr_item_data root Hroot _ _ _ _ _ Hr) as Hdd. unfold btrfs_item_ptr_offset in Hdd.
  destruct (repr_item_fields root Hroot _ _ _ _ _ Hr) as (_ & Hof & _ & He). rewrite Hof in Hdd.
  unfold extend_item_leaf.
  rewrite He, (lr_nritems _ _ _ Hr), (repr_data_end root Hroot _ _ Hr), (repr_free_space root Hroot _ _ Hr).
  cbn [mbind option_bind].
  rewrite dsize_app, length_app in *. simpl in Hb, Hfit |- *.
  unwrap. rewrite (proj2 (Z.ltb_ge _ n)) by leaf_lia. rewrite (proj2 (Z.ltb_ge _ 0)) by lia.
  rewrite (proj2 (Z.leb_gt _ _)) by lia.
  replace (Z.to_nat (_ - _)) with (S (length B)) by lia.
  set (c1 := shift_offsets _ _ _ _) in *. set (c2 := memmove_extent_buffer c1 _ _ _).
  assert (Hsz : btrfs_item_size_nr c2 (Z.of_nat (length A)) = Z.of_nat (length d)).
  { rewrite <- Fs. apply get_le_same. unfold c2. leaf_untouched. }
  rewrite Hsz. unwrap. set (b' := btrfs_set_item_size _ _ _).
  set (d2 := read_extent_buffer b' (leafsize root - dsize A - n) (Z.to_nat n)).
  assert (Hd2 : length d2 = Z.to_nat n) by apply read_length.
  assert (Hmove : forall z, leafsize root - dsize A - Z.of_nat (length d) - dsize B <= z < leafsize root - dsize A ->
    b' (z - n) = b z).
  { intros z Hz. unfold b'. rewrite set_size_outside by leaf_lia. rewrite <- (Fout z) by leaf_lia.
    unfold c2, memmove_extent_buffer, copy_extent_buffer. zbool; try leaf_lia. f_equal. leaf_lia. }
  assert (Hrep : leaf_repr root b' (A ++ (k, d ++ d2) :: B)).
  { assert (Hlen : Z.of_nat (length (d ++ d2)) = Z.of_nat (length d) + n) by (rewrite length_app; lia).
    eapply (resize_intro b b' A k d B k (d ++ d2) Hr); rewrite ?Hlen.
    - rewrite length_app. simpl. leaf_lia.
    - unfold b'. rewrite set_size_hdr by leaf_lia. f_equal; [|].
      + rewrite <- Fk. apply read_disk_key_same. unfold c2. leaf_untouched.
      + transitivity (btrfs_item_offset_nr c1 (Z.of_nat (length A))); [|rewrite Fo; lia].
        apply get_le_same. unfold c2. leaf_untouched.
    - intros z Hz. unfold b'. rewrite set_size_outside by leaf_lia. unfold c2.
      replace (Z.of_nat (length d) - _) with (- n) by lia. fold c1. leaf_untouched.
    - intros z Hz. unfold b'. rewrite set_size_outside by leaf_lia. unfold c2.
      replace (Z.of_nat (length d) - _) with (- n) by lia. fold c1. leaf_untouched.
    - intros z Hz. unfold b'. rewrite set_size_outside by leaf_lia.
      transitivity (c1 z); [unfold c2; leaf_untouched|apply Fout; leaf_lia].
    - intros z Hz. rewrite <- (Hmove z) by lia. f_equal. lia.
    - rewrite length_app, read_app. f_equal.
      + etransitivity; [|exact Hdd]. apply read_agree. intros z Hz.
        rewrite <- Hmove by leaf_lia. f_equal. leaf_lia.
      + rewrite Hd2. unfold d2. f_equal. lia. }
  rewrite (repr_free_space root Hroot _ _ Hrep). cbn [mbind option_bind].
  rewrite (proj2 (Z.ltb_ge _ 0)) by (pose proof (lr_fits _ _ _ Hrep); leaf_lia).
  exists b', d2. split_and!; [done|lia|done].
Qed.

(** [btrfs_truncate_item] with [from_end]: the first bytes stay. *)
Lemma truncate_end_spec b A k d B n :
  leaf_repr root b (A ++ (k, d) :: B) -> 0 <= n < Z.of_nat (length d) ->
  exists b', truncate_item_leaf root b (Z.of_nat (length A)) n true = Some (b', None) /\
    leaf_repr root b' (A ++ (k, take (Z.to_nat n) d) :: B).
Proof using Hroot.
  intros Hr Hn. pose proof (repr_bounds root Hroot _ _ Hr) as Hb. pose proof (lr_fits _ _ _ Hr) as Hfit.
  pose proof (dsize_nonneg A). pose proof (dsize_nonneg B).
  set (diff := Z.of_nat (length d) - n).
  destruct (shifted_hdrs b A k d B diff Hr) as (Fk & Fo & Fs & Fl & Fout);
    [rewrite dsize_app, length_app in *; simpl in *; leaf_lia..|].
  pose proof (repr_item_data root Hroot _ _ _ _ _ Hr) as Hdd. unfold btrfs_item_ptr_offset in Hdd.
  destruct (repr_item_fields root Hroot _ _ _ _ _ Hr) as (_ & Hof & Hsz & _). rewrite Hof in Hdd.
  unfold truncate_item_leaf.
  rewrite Hsz, Hof, (lr_nritems _ _ _ Hr), (repr_data_end root Hroot _ _ Hr).
  rewrite dsize_app, length_app in *. simpl in Hb, Hfit |- *.
  rewrite (proj2 (Z.eqb_neq _ _)), (proj2 (Z.ltb_ge _ 0)), (proj2 (Z.leb_gt _ _)) by lia.
  unwrap. fold diff. unwrap. replace (Z.to_nat (_ - _)) with (S (length B)) by lia.
  set (c1 := shift_offsets _ _ _ _) in *. set (c2 := memmove_extent_buffer c1 _ _ _).
  set (b' := btrfs_set_item_size _ _ _).
  assert (Hmove : forall z, leafsize root - dsize A - Z.of_nat (length d) - dsize B <= z <
      leafsize root - dsize A - diff -> b' (z + diff) = b z).
  { intros z Hz. unfold b'. rewrite set_size_outside by leaf_lia. rewrite <- (Fout z) by leaf_lia.
    unfold c2, memmove_extent_buffer, copy_extent_buffer. zbool; try leaf_lia. f_equal. leaf_lia. }
  assert (Hrep : leaf_repr root b' (A ++ (k, take (Z.to_nat n) d) :: B)).
  { assert (Hlen : Z.of_nat (length (take (Z.to_nat n) d)) = n) by (rewrite length_take; lia).
    eapply (resize_intro b b' A k d B k (take (Z.to_nat n) d) Hr); rewrite ?Hlen; fold diff; fold c1.
    - rewrite length_app. simpl. leaf_lia.
    - unfold b'. rewrite set_size_hdr by leaf_lia. f_equal.
      + rewrite <- Fk. apply read_disk_key_same. unfold c2. leaf_untouched.
      + transitivity (btrfs_item_offset_nr c1 (Z.of_nat (length A))); [|rewrite Fo; lia].
        apply get_le_same. unfold c2. leaf_untouched.
    - intros z Hz. unfold b'. rewrite set_size_outside by leaf_lia. unfold c2. leaf_untouched.
    - intros z Hz. unfold b'. rewrite set_size_outside by leaf_lia. unfold c2. leaf_untouched.
    - intros z Hz. unfold b'. rewrite set_size_outside by leaf_lia.
      transitivity (c1 z); [unfold c2; leaf_untouched|apply Fout; leaf_lia].
    - intros z Hz. apply Hmove. lia.
    - rewrite <- Hdd, read_take, read_length by lia.
      apply read_agree. intros z Hz. rewrite <- Hmove by leaf_lia. f_equal. leaf_lia. }
  rewrite (repr_free_space root Hroot _ _ Hrep). cbn [mbind option_bind].
  rewrite (proj2 (Z.ltb_ge _ 0)) by (pose proof (lr_fits _ _ _ Hrep); leaf_lia). eauto.
Qed.

(** The key of an item whose front is cut off. *)
Definition advanced_key (k : btrfs_key) (diff : Z) : btrfs_key :=
  BtrfsKey (objectid k) (type k) (u64 (offset k + diff)).

(** What stays of the data when the front is cut off: the header of an inline
    file extent is kept. *)
Definition cut_front (k : btrfs_key) (d : list Z) (n : Z) : list Z :=
  let tail := drop (length d - Z.to_nat n) d in
  if (type k =? BTRFS_EXTENT_DATA_KEY) && (u8 (nth 20 d 0) =? BTRFS_FILE_EXTENT_INLINE)
  then take 21 d ++ drop 21 tail else tail.

(** The bytes that hold it after the header of an inline extent was moved: the
    data was at [top - length d] and ends at [top]. *)
Lemma read_cut_front b c top k d n :
  0 <= n < Z.of_nat (length d) -> (type k = BTRFS_EXTENT_DATA_KEY -> 21 <= n) ->
  read_extent_buffer b (top - Z.of_nat (length d)) (length d) = d ->
  agree b c (top - Z.of_nat (length d)) top ->
  let fi := top - Z.of_nat (length d) in
  read_extent_buffer
    (if (type k =? BTRFS_EXTENT_DATA_KEY) && (btrfs_file_extent_type c fi =? BTRFS_FILE_EXTENT_INLINE)
     then memmove_extent_buffer c (top - n) fi offsetof_disk_bytenr else c)
    (top - n) (Z.to_nat n) = cut_front k d n.
Proof using Type.
  intros Hn H21 Hd Hag fi.
  assert (Hdc : read_extent_buffer c fi (length d) = d).
  { etransitivity; [|exact Hd]. apply read_same. intros z Hz. apply Hag. lia. }
  unfold cut_front.
  assert (Htail : read_extent_buffer c (top - n) (Z.to_nat n) = drop (length d - Z.to_nat n) d).
  { rewrite <- Hdc at 2. rewrite read_drop by lia. unfold fi. f_equal; lia. }
  destruct (Z.eqb_spec (type k) BTRFS_EXTENT_DATA_KEY) as [Hk|]; [|done]. specialize (H21 Hk). cbn [andb].
  unfold btrfs_file_extent_type. rewrite get_le_1, <- Hdc at 1. rewrite read_nth by lia.
  replace (fi + Z.of_nat 20) with (fi + 20) by lia. destruct (_ =? _); [|done].
  replace (Z.to_nat n) with (21 + (Z.to_nat n - 21))%nat at 1 by lia. rewrite read_app. f_equal.
  - rewrite <- Hdc, read_take by lia. apply read_agree. intros z Hz.
    unfold offsetof_disk_bytenr. unfold memmove_extent_buffer, copy_extent_buffer. zbool; try lia. f_equal. lia.
  - rewrite <- Htail, read_drop by lia. apply read_same. unfold offsetof_disk_bytenr. leaf_untouched.
Qed.

Lemma cut_front_length k d n :
  0 <= n < Z.of_nat (length d) -> (type k = BTRFS_EXTENT_DATA_KEY -> 21 <= n) ->
  Z.of_nat (length (cut_front k d n)) = n.
Proof using Type.
  intros Hn H21. unfold cut_front.
  destruct (Z.eqb_spec (type k) BTRFS_EXTENT_DATA_KEY) as [Hk|Hk]; simpl; [specialize (H21 Hk)|].
  - destruct (_ =? _); rewrite ?length_app, ?length_take, ?length_drop; lia.
  - rewrite length_drop. lia.
Qed.

(** [btrfs_truncate_item] without [from_end]: the last bytes stay. *)
Lemma truncate_front_spec b A k d B n :
  leaf_repr root b (A ++ (k, d) :: B) -> 0 <= n < Z.of_nat (length d) ->
  (type k = BTRFS_EXTENT_DATA_KEY -> 21 <= n) -> key_ok k ->
  let k' := advanced_key k (Z.of_nat (length d) - n) in
  exists b', truncate_item_leaf root b (Z.of_nat (length A)) n false =
      Some (b', if Z.of_nat (length A) =? 0 then Some k' else None) /\
    leaf_repr root b' (A ++ (k', cut_front k d n) :: B).
Proof using Hroot.
  intros Hr Hn H21 Hkok. pose proof (repr_bounds root Hroot _ _ Hr) as Hb. pose proof (lr_fits _ _ _ Hr) as Hfit.
  pose proof (dsize_nonneg A). pose proof (dsize_nonneg B).
  set (diff := Z.of_nat (length d) - n). intros k'.
  assert (Hk' : key_ok k') by (destruct Hkok as (? & ? & _); split; [done|split; [done|apply u64_range]]).
  destruct (shifted_hdrs b A k d B diff Hr) as (Fk & Fo & Fs & Fl & Fout);
    [rewrite dsize_app, length_app in *; simpl in *; leaf_lia..|].
  pose proof (repr_item_data root Hroot _ _ _ _ _ Hr) as Hdd. unfold btrfs_item_ptr_offset in Hdd.
  destruct (repr_item_fields root Hroot _ _ _ _ _ Hr) as (_ & Hof & Hsz & _). rewrite Hof in Hdd.
  pose proof (cut_front_length k d n Hn H21) as Hlen.
  unfold truncate_item_leaf.
  rewrite Hsz, Hof, (lr_nritems _ _ _ Hr), (repr_data_end root Hroot _ _ Hr).
  rewrite dsize_app, length_app in *. cbn [dsize length] in Hb, Hfit |- *; cbv beta iota zeta.
  rewrite (proj2 (Z.eqb_neq _ _)), (proj2 (Z.ltb_ge _ 0)), (proj2 (Z.leb_gt _ _)) by lia.
  unwrap. fold diff. unwrap. replace (Z.to_nat (_ - _)) with (S (length B)) by lia.
  set (c1 := shift_offsets _ _ _ _) in *. unfold btrfs_item_ptr_offset.
  rewrite Fk, Fo.
  replace (BTRFS_LEAF_DATA_SIZE root - dsize A + diff - Z.of_nat (length d))
    with (BTRFS_LEAF_DATA_SIZE root - dsize A - n) by lia.
  change (BtrfsKey (objectid k) (type k) (u64 (offset k + diff))) with k'.
  set (c2 := if type k =? _ then _ else c1).
  replace (btrfs_leaf_data + _) with (leafsize root - dsize A - Z.of_nat (length d)) in Hdd by leaf_lia.
  assert (Hc2 : c2 = if (type k =? BTRFS_EXTENT_DATA_KEY) &&
      (btrfs_file_extent_type c1 (leafsize root - dsize A - Z.of_nat (length d)) =? BTRFS_FILE_EXTENT_INLINE)
    then memmove_extent_buffer c1 (leafsize root - dsize A - n) (leafsize root - dsize A - Z.of_nat (length d))
           offsetof_disk_bytenr else c1).
  { unfold c2. destruct (_ =? BTRFS_EXTENT_DATA_KEY); [|done]. cbn [andb].
    replace (btrfs_leaf_data + _) with (leafsize root - dsize A - n) by leaf_lia.
    by replace (leafsize root - dsize A - n - diff) with (leafsize root - dsize A - Z.of_nat (length d)) by lia. }
  clearbody c2.
  assert (Hout : forall z, z < leafsize root - dsize A - n \/ leafsize root - dsize A <= z -> c2 z = c1 z).
  { intros z Hz. rewrite Hc2. destruct (Z.eqb_spec (type k) BTRFS_EXTENT_DATA_KEY) as [Hk|]; [|done].
    specialize (H21 Hk). destruct (_ =? _); [|done]. cbn [andb]. unfold offsetof_disk_bytenr. leaf_untouched. }
  assert (Hd2 : read_extent_buffer c2 (leafsize root - dsize A - n) (Z.to_nat n) = cut_front k d n).
  { rewrite Hc2. apply (read_cut_front b); [done..|]. intros z Hz. apply Fout. leaf_lia. }
  set (c3 := memmove_extent_buffer c2 _ _ _). set (c4 := btrfs_set_item_key c3 k' (Z.of_nat (length A))).
  set (b' := btrfs_set_item_size _ _ _).
  assert (Hb' : forall z, z < btrfs_item_nr_offset (Z.of_nat (length A)) \/
      btrfs_item_nr_offset (Z.of_nat (length A) + 1) <= z -> b' z = c3 z).
  { intros z Hz. unfold b'. rewrite set_size_outside by leaf_lia. unfold c4. apply write_disk_key_outside.
    leaf_lia. }
  assert (Hc3 : forall z, z < leafsize root - dsize A - Z.of_nat (length d) - dsize B + diff \/
      leafsize root - dsize A - n <= z -> c3 z = c2 z).
  { intros z Hz. unfold c3. leaf_untouched. }
  assert (Hrep : leaf_repr root b' (A ++ (k', cut_front k d n) :: B)).
  { eapply (resize_intro b b' A k d B k' (cut_front k d n) Hr); rewrite ?Hlen; fold diff; fold c1.
    - rewrite length_app. simpl. leaf_lia.
    - unfold b'. rewrite set_size_hdr by leaf_lia. f_equal.
      + by apply read_write_disk_key.
      + transitivity (btrfs_item_offset_nr c1 (Z.of_nat (length A))); [|rewrite Fo; lia].
        apply get_le_same. intros z Hz. unfold c4. etransitivity; [apply write_disk_key_outside; leaf_lia|].
        rewrite Hc3, Hout by leaf_lia. done.
    - intros z Hz. rewrite Hb', Hc3, Hout by leaf_lia. done.
    - intros z Hz. rewrite Hb', Hc3, Hout by leaf_lia. done.
    - intros z Hz. rewrite Hb', Hc3, Hout by leaf_lia. apply Fout. leaf_lia.
    - intros z Hz. rewrite Hb' by leaf_lia. rewrite <- (Fout z), <- (Hout z) by leaf_lia.
      unfold c3, memmove_extent_buffer, copy_extent_buffer. zbool; try leaf_lia. f_equal. leaf_lia.
    - replace (length (cut_front k d n)) with (Z.to_nat n) by lia.
      etransitivity; [|exact Hd2]. apply read_same. intros z Hz. rewrite Hb', Hc3 by leaf_lia. done. }
  rewrite (repr_free_space root Hroot _ _ Hrep). cbn [mbind option_bind].
  rewrite (proj2 (Z.ltb_ge _ 0)) by (pose proof (lr_fits _ _ _ Hrep); leaf_lia). eauto.
Qed.

(** [btrfs_split_item]: the data is cut in two, the second part under its own
    key. *)
Lemma split_item_spec b A k d B nk n :
  leaf_repr root b (A ++ (k, d) :: B) -> key_ok nk -> 0 <= n <= Z.of_nat (length d) ->
  sizeof_item * Z.of_nat (length (A ++ (k, d) :: B)) + sizeof_item + dsize (A ++ (k, d) :: B)
    <= BTRFS_LEAF_DATA_SIZE root ->
  exists b', split_item_leaf root b (Z.of_nat (length A)) nk n = Some b' /\
    leaf_repr root b' (A ++ [(k, take (Z.to_nat n) d); (nk, drop (Z.to_nat n) d)] ++ B).
Proof using Hroot.
  intros Hr Hnk Hn Hfit. pose proof (repr_bounds root Hroot _ _ Hr) as Hb.
  pose proof (dsize_nonneg A). pose proof (dsize_nonneg B).
  pose proof (repr_item_data root Hroot _ _ _ _ _ Hr) as Hdd.
  destruct (repr_item_fields root Hroot _ _ _ _ _ Hr) as (Hk & Hof & Hsz & _).
  assert (Hl1 : Z.of_nat (length (take (Z.to_nat n) d)) = n) by (rewrite length_take; lia).
  assert (Hl2 : Z.of_nat (length (drop (Z.to_nat n) d)) = Z.of_nat (length d) - n) by (rewrite length_drop; lia).
  unfold split_item_leaf. fold (btrfs_item_offset_nr b (Z.of_nat (length A))) (btrfs_item_size_nr b (Z.of_nat (length A))).
  rewrite Hsz, Hof, (lr_nritems _ _ _ Hr), Nat2Z.id, Hdd.
  set (d1 := take _ d) in *. set (d2 := drop _ d) in *.
  rewrite dsize_app, length_app in *. cbn [dsize length] in Hb, Hfit |- *; cbv beta iota zeta.
  set (c1 := if negb _ then _ else b).
  assert (Hc1 : forall z, z < btrfs_item_nr_offset (Z.of_nat (length A) + 2) \/
      btrfs_item_nr_offset (Z.of_nat (length A) + 2 + Z.of_nat (length B)) <= z -> c1 z = b z).
  { intros z Hz. unfold c1. destruct (Z.eqb_spec (Z.of_nat (length A) + 1) (Z.of_nat (length A + S (length B)))); [done|].
    simpl. leaf_untouched. }
  assert (HcB : hdrs c1 (Z.of_nat (length A) + 2) (length B) = hdrs b (Z.of_nat (length A) + 1) (length B)).
  { apply hdrs_at. intros z Hz. unfold c1.
    rewrite (proj2 (Z.eqb_neq _ _)) by leaf_lia. simpl.
    unfold memmove_extent_buffer, copy_extent_buffer. zbool; try leaf_lia. f_equal. leaf_lia. }
  set (c2 := btrfs_set_item_size (btrfs_set_item_offset (btrfs_set_item_key c1 nk _) _ _) _ _).
  set (c3 := btrfs_set_item_size (btrfs_set_item_offset c2 _ _) _ _).
  set (c4 := btrfs_set_header_nritems c3 _).
  assert (Hi2 : item_hdr c4 (Z.of_nat (length A) + 1) =
      Ihdr nk (BTRFS_LEAF_DATA_SIZE root - dsize A - Z.of_nat (length d)) (Z.of_nat (length d) - n)).
  { rewrite <- (set_item_hdr c1 (Z.of_nat (length A) + 1)) by (done || leaf_lia). fold c2.
    apply item_hdr_at. intros z Hz. unfold c4. rewrite set_nritems_same by leaf_lia.
    unfold c3, btrfs_set_item_size, btrfs_set_item_offset. leaf_untouched. }
  assert (Hi1 : item_hdr c4 (Z.of_nat (length A)) = Ihdr k (BTRFS_LEAF_DATA_SIZE root - dsize A - n) n).
  { transitivity (item_hdr c3 (Z.of_nat (length A))).
    { apply item_hdr_at. intros z Hz. unfold c4. apply set_nritems_same. leaf_lia. }
    unfold c3. rewrite set_size_hdr by leaf_lia. f_equal.
    - rewrite <- Hk. apply read_disk_key_same. intros z Hz. unfold btrfs_set_item_offset.
      transitivity (c2 z); [leaf_untouched|]. unfold c2. rewrite set_item_hdr_outside by leaf_lia.
      apply Hc1. leaf_lia.
    - unfold btrfs_item_offset_nr, btrfs_set_item_offset, btrfs_item_offset.
      rewrite (get_put_le 4), Z.mod_small by leaf_lia. lia. }
  assert (Hout : forall z, sizeof_header <= z -> z < btrfs_item_nr_offset (Z.of_nat (length A)) \/
      btrfs_item_nr_offset (Z.of_nat (length A) + 2) <= z -> c4 z = c1 z).
  { intros z Hz1 Hz2. unfold c4. rewrite set_nritems_same by done. unfold c3.
    transitivity (c2 z); [unfold btrfs_set_item_size, btrfs_set_item_offset; leaf_untouched|].
    unfold c2. apply set_item_hdr_outside. leaf_lia. }
  assert (Hn4 : btrfs_header_nritems c4 = Z.of_nat (length A + S (length B)) + 1)
    by (apply set_nritems_get; leaf_lia).
  clearbody c4. clear c3 c2.
  injection Hi1 as Hk1 Ho1 Hs1.
  replace (btrfs_item_ptr_offset c4 (Z.of_nat (length A))) with (leafsize root - dsize A - n)
    by (unfold btrfs_item_ptr_offset; rewrite Ho1; leaf_lia).
  set (c5 := write_extent_buffer c4 d1 _).
  assert (H5 : forall z, z < leafsize root - dsize A - n \/ leafsize root - dsize A <= z -> c5 z = c4 z).
  { intros z Hz. unfold c5. apply write_outside. rewrite Hl1. leaf_lia. }
  assert (Ho2 : btrfs_item_ptr_offset c5 (Z.of_nat (length A) + 1) = leafsize root - dsize A - Z.of_nat (length d)).
  { injection Hi2 as _ Ho2 _. transitivity (btrfs_leaf_data + btrfs_item_offset_nr c4 (Z.of_nat (length A) + 1));
      [|rewrite Ho2; leaf_lia]. unfold btrfs_item_ptr_offset. f_equal. apply get_le_same.
    intros z Hz. apply H5. leaf_lia. }
  rewrite Ho2. set (b' := write_extent_buffer c5 d2 _).
  assert (H6 : forall z, z < leafsize root - dsize A - Z.of_nat (length d) \/ leafsize root - dsize A - n <= z ->
      b' z = c5 z).
  { intros z Hz. unfold b'. apply write_outside. rewrite Hl2. lia. }
  assert (Hrep : leaf_repr root b' (A ++ [(k, d1); (nk, d2)] ++ B)).
  { apply repr_intro; cbn [dsize length stack layout app]; rewrite ?Hl1, ?Hl2, ?Z.add_0_r.
    - transitivity (btrfs_header_nritems c4).
      { apply get_le_same. intros z Hz. rewrite H6, H5 by leaf_lia. done. }
      rewrite Hn4, length_app. simpl. lia.
    - rewrite <- (repr_hdrs_left root b A _ Hr). apply hdrs_same. intros z Hz.
      rewrite H6, H5, Hout, Hc1 by leaf_lia. done.
    - transitivity (hdrs c4 (Z.of_nat (length A)) 2).
      { apply hdrs_same. intros z Hz. rewrite H6, H5 by leaf_lia. done. }
      cbn [hdrs]. rewrite Hi2. unfold item_hdr. rewrite Hk1, Ho1, Hs1. do 3 f_equal. lia.
    - replace (BTRFS_LEAF_DATA_SIZE root - dsize A - (n + _)) with
        (BTRFS_LEAF_DATA_SIZE root - dsize A - Z.of_nat (length d)) by lia.
      transitivity (hdrs c1 (Z.of_nat (length A) + 2) (length B)).
      { apply hdrs_same. intros z Hz. rewrite H6, H5, Hout by leaf_lia. done. }
      rewrite HcB. pose proof (repr_hdrs_right root b A ((k, d) :: B) Hr) as Hh.
      by apply (f_equal tail) in Hh.
    - destruct (repr_data root b A _ Hr) as [_ <-]. apply read_same. intros z Hz.
      rewrite H6, H5, Hout, Hc1 by leaf_lia. done.
    - replace (n + (Z.of_nat (length d) - n)) with (Z.of_nat (length d)) by lia.
      replace (Z.to_nat (Z.of_nat (length d))) with (length d2 + length d1)%nat by lia.
      rewrite read_app. f_equal; [apply read_write|].
      transitivity (read_extent_buffer c5 (leafsize root - dsize A - n) (length d1)); [|apply read_write].
      apply read_agree. intros z Hz. rewrite H6 by lia. f_equal. lia.
    - destruct (repr_data root b (A ++ [(k, d)]) B) as [HB _]; [by rewrite <- (assoc_L (++))|].
      rewrite <- HB, !dsize_app. cbn [dsize]. apply read_agree. intros z Hz.
      rewrite H6, H5, Hout, Hc1 by leaf_lia. f_equal. lia.
    - rewrite !length_app, dsize_app. cbn [dsize length]. rewrite Hl1, Hl2. leaf_lia. }
  rewrite (repr_free_space root Hroot _ _ Hrep). cbn [mbind option_bind].
  rewrite (proj2 (Z.ltb_ge _ 0)) by (pose proof (lr_fits _ _ _ Hrep); leaf_lia). eauto.
Qed.
End Ops.
