(* ===== verification/LeafPush.v ===== *)
(** Moving items between two leaves: the bytes of [push_leaf_right],
    [push_leaf_left] and [copy_for_split] of [src/ctree.c], and what they do to
    the lists of items. *)

From S2P Require Import Prelude Buf CtreeFmt LeafOps LeafSpec.

(** The loop of [push_leaf_right] from item [n] of the left leaf downwards:
    [push_items] and [push_space]. *)
Fixpoint push_right_loop (n : nat) (left : buf) (slot0 data_size free_space nr push_items push_space : Z)
    : Z * Z :=
  let i := Z.of_nat n in
  if nr <=? i then
    let item := btrfs_item_nr i in
    let push_space := if slot0 =? i then s32 (push_space + data_size + sizeof_item) else push_space in
    let this_item_size := btrfs_item_size left item in
    if u64 free_space <? u64 (this_item_size + sizeof_item + push_space) then (push_items, push_space)
    else
      let push_items := push_items + 1 in
      let push_space := s32 (push_space + this_item_size + sizeof_item) in
      match n with
      | O => (push_items, push_space)
      | S n => push_right_loop n left slot0 data_size free_space nr push_items push_space
      end
  else (push_items, push_space).

(** The loop of [push_leaf_left] from item [i] of the right leaf upwards, [n]
    items. *)
Fixpoint push_left_loop (n : nat) (i : Z) (right : buf) (slot0 data_size free_space push_items push_space : Z)
    : Z * Z :=
  match n with
  | O => (push_items, push_space)
  | S n =>
      let item := btrfs_item_nr i in
      let push_space := if slot0 =? i then s32 (push_space + data_size + sizeof_item) else push_space in
      let this_item_size := btrfs_item_size right item in
      if u64 free_space <? u64 (this_item_size + sizeof_item + push_space) then (push_items, push_space)
      else push_left_loop n (i + 1) right slot0 data_size free_space (push_items + 1)
             (s32 (push_space + this_item_size + sizeof_item))
  end.

(** [push_leaf_right] from "push left to right" on: both leaves. *)
Definition push_right_copy (root : btrfs_root) (left right : buf) (push_items : Z) : buf * buf :=
  let left_nritems := btrfs_header_nritems left in
  let right_nritems := btrfs_header_nritems right in
  let push_space := s32 (btrfs_item_end_nr left (left_nritems - push_items)) in
  let push_space := s32 (push_space - leaf_data_end root left) in
  let data_end := leaf_data_end root right in
  let right := memmove_extent_buffer right (btrfs_leaf_data + data_end - push_space)
                 (btrfs_leaf_data + data_end) (BTRFS_LEAF_DATA_SIZE root - data_end) in
  let right := copy_extent_buffer right left (btrfs_leaf_data + BTRFS_LEAF_DATA_SIZE root - push_space)
                 (btrfs_leaf_data + leaf_data_end root left) push_space in
  let right := memmove_extent_buffer right (btrfs_item_nr_offset push_items) (btrfs_item_nr_offset 0)
                 (right_nritems * sizeof_item) in
  let right := copy_extent_buffer right left (btrfs_item_nr_offset 0)
                 (btrfs_item_nr_offset (left_nritems - push_items)) (push_items * sizeof_item) in
  let right_nritems := u32 (right_nritems + push_items) in
  let right := btrfs_set_header_nritems right right_nritems in
  let right := renumber_offsets (Z.to_nat right_nritems) 0 (BTRFS_LEAF_DATA_SIZE root) right in
  let left_nritems := u32 (left_nritems - push_items) in
  let left := btrfs_set_header_nritems left left_nritems in
  (left, right).

(** [push_leaf_left] from "push data from right to left" on; [None] is the
    failed [BUG_ON] of an empty left leaf, or the [WARN_ON] of too many items. *)
Definition push_left_copy (root : btrfs_root) (left right : buf) (push_items : Z) : option (buf * buf) :=
  let right_nritems := btrfs_header_nritems right in
  let left := copy_extent_buffer left right (btrfs_item_nr_offset (btrfs_header_nritems left))
                (btrfs_item_nr_offset 0) (push_items * sizeof_item) in
  let push_space := s32 (BTRFS_LEAF_DATA_SIZE root - btrfs_item_offset_nr right (push_items - 1)) in
  let left := copy_extent_buffer left right (btrfs_leaf_data + leaf_data_end root left - push_space)
                (btrfs_leaf_data + btrfs_item_offset_nr right (push_items - 1)) push_space in
  let old_left_nritems := btrfs_header_nritems left in
  if old_left_nritems =? 0 then None else
  let old_left_item_size := btrfs_item_offset_nr left (old_left_nritems - 1) in
  let left := shift_offsets (Z.to_nat push_items) old_left_nritems
                (- (BTRFS_LEAF_DATA_SIZE root - old_left_item_size)) left in
  let left := btrfs_set_header_nritems left (old_left_nritems + push_items) in
  if right_nritems <? push_items then None else
  let right :=
    if push_items <? right_nritems then
      let push_space := s32 (btrfs_item_offset_nr right (push_items - 1) - leaf_data_end root right) in
      let right := memmove_extent_buffer right (btrfs_leaf_data + BTRFS_LEAF_DATA_SIZE root - push_space)
                     (btrfs_leaf_data + leaf_data_end root right) push_space in
      memmove_extent_buffer right (btrfs_item_nr_offset 0) (btrfs_item_nr_offset push_items)
        ((btrfs_header_nritems right - push_items) * sizeof_item)
    else right in
  let right_nritems := u32 (right_nritems - push_items) in
  let right := btrfs_set_header_nritems right right_nritems in
  let right := renumber_offsets (Z.to_nat right_nritems) 0 (BTRFS_LEAF_DATA_SIZE root) right in
  Some (left, right).

(** [copy_for_split] on the bytes of the two leaves: the items from [mid] on
    go to [right]. *)
Definition copy_for_split_leaves (root : btrfs_root) (l right : buf) (mid nritems : Z) : buf * buf :=
  let nritems := s32 (nritems - mid) in
  let right := btrfs_set_header_nritems right nritems in
  let data_copy_size := s32 (btrfs_item_end_nr l mid - leaf_data_end root l) in
  let right := copy_extent_buffer right l (btrfs_item_nr_offset 0) (btrfs_item_nr_offset mid)
                 (nritems * sizeof_item) in
  let right := copy_extent_buffer right l
                 (btrfs_leaf_data + BTRFS_LEAF_DATA_SIZE root - data_copy_size)
                 (btrfs_leaf_data + leaf_data_end root l) data_copy_size in
  let rt_data_off := s32 (BTRFS_LEAF_DATA_SIZE root - btrfs_item_end_nr l mid) in
  let right := shift_offsets (Z.to_nat nritems) 0 rt_data_off right in
  (btrfs_set_header_nritems l mid, right).

Implicit Types (b left right : buf) (l A B X R L : list item) (root : btrfs_root).

Section Push.
Context (root : btrfs_root) (Hroot : root_ok root).

(** A leaf whose offsets have been renumbered. *)
Lemma renumbered_intro b l :
  btrfs_header_nritems b = Z.of_nat (length l) ->
  Forall2 same_item (hdrs b 0 (length l)) l ->
  read_extent_buffer b (leafsize root - dsize l) (Z.to_nat (dsize l)) = stack l ->
  sizeof_item * Z.of_nat (length l) + dsize l <= BTRFS_LEAF_DATA_SIZE root ->
  leaf_repr root (renumber_offsets (length l) 0 (BTRFS_LEAF_DATA_SIZE root) b) l.
Proof using Hroot.
  intros Hn Hh Hd Hf. pose proof (dsize_nonneg l). split; [| | |done].
  - rewrite <- Hn. apply get_le_same. intros x Hx. apply renumber_outside. leaf_lia.
  - apply renumber_hdrs; [done|leaf_lia].
  - rewrite <- Hd. apply read_same. intros x Hx. apply renumber_outside. leaf_lia.
Qed.

(** Fewer items in the same bytes. *)
Lemma shrink_leaf b A B :
  leaf_repr root b (A ++ B) -> leaf_repr root (btrfs_set_header_nritems b (Z.of_nat (length A))) A.
Proof using Hroot.
  intros Hr. pose proof (repr_bounds root Hroot _ _ Hr) as Hb. rewrite dsize_app, length_app in Hb.
  pose proof (dsize_nonneg A). pose proof (dsize_nonneg B). split.
  - apply set_nritems_get. leaf_lia.
  - rewrite <- (repr_hdrs_left root b A B Hr). apply hdrs_same. intros x Hx. apply set_nritems_same. leaf_lia.
  - destruct (repr_data root b A B Hr) as [_ <-]. apply read_same. intros x Hx. apply set_nritems_same. leaf_lia.
  - leaf_lia.
Qed.

Lemma repr_end_nr b A k d B :
  leaf_repr root b (A ++ (k, d) :: B) ->
  btrfs_item_end_nr b (Z.of_nat (length A)) = BTRFS_LEAF_DATA_SIZE root - dsize A.
Proof using Hroot. intros Hr. by destruct (repr_item_fields root Hroot _ _ _ _ _ Hr) as (_ & _ & _ & ?). Qed.

Lemma push_right_copy_spec left right A X R :
  leaf_repr root left (A ++ X) -> leaf_repr root right R -> X <> [] ->
  sizeof_item * Z.of_nat (length (X ++ R)) + dsize (X ++ R) <= BTRFS_LEAF_DATA_SIZE root ->
  exists left' right', push_right_copy root left right (Z.of_nat (length X)) = (left', right') /\
    leaf_repr root left' A /\ leaf_repr root right' (X ++ R).
Proof using Hroot.
  intros HL HR HX Hfit. pose proof (repr_bounds root Hroot _ _ HL) as HbL. pose proof (repr_bounds root Hroot _ _ HR) as HbR.
  rewrite dsize_app, length_app in HbL, Hfit.
  pose proof (dsize_nonneg A). pose proof (dsize_nonneg X). pose proof (dsize_nonneg R).
  unfold push_right_copy.
  rewrite (lr_nritems _ _ _ HL), (lr_nritems _ _ _ HR), (repr_data_end root Hroot _ _ HL), (repr_data_end root Hroot _ _ HR).
  rewrite length_app, dsize_app.
  replace (Z.of_nat (length A + length X) - Z.of_nat (length X)) with (Z.of_nat (length A)) by lia.
  destruct X as [|[k d] X']; [done|]. rewrite (repr_end_nr _ _ _ _ _ HL). set (X := (k, d) :: X') in *.
  rewrite (s32_id (BTRFS_LEAF_DATA_SIZE root - dsize A)) by leaf_lia.
  replace (BTRFS_LEAF_DATA_SIZE root - dsize A - (BTRFS_LEAF_DATA_SIZE root - (dsize A + dsize X))) with (dsize X) by lia.
  rewrite (s32_id (dsize X)) by leaf_lia.
  set (c1 := memmove_extent_buffer right _ _ _). set (c2 := copy_extent_buffer c1 left _ _ _).
  set (c3 := memmove_extent_buffer c2 _ _ _). set (c4 := copy_extent_buffer c3 left _ _ _).
  rewrite (u32_id (_ + _)), (u32_id (Z.of_nat (length A))) by leaf_lia.
  eexists _, _. split; [reflexivity|]. split; [by apply (shrink_leaf left A X)|].
  replace (Z.to_nat _) with (length (X ++ R)) by (rewrite length_app; lia).
  assert (H4 : forall x, leafsize root - dsize X - dsize R <= x -> c4 x = c2 x).
  { intros x Hx. transitivity (c3 x); [unfold c4; leaf_untouched|unfold c3; leaf_untouched]. }
  apply renumbered_intro.
  - rewrite set_nritems_get by leaf_lia. rewrite length_app. lia.
  - rewrite length_app, hdrs_app, Z.add_0_l. apply Forall2_app.
    + replace (hdrs _ 0 (length X)) with (hdrs left (Z.of_nat (length A)) (length X)).
      * rewrite (repr_hdrs_right root left A X HL). apply layout_same.
      * symmetry. apply hdrs_at. intros x Hx. rewrite set_nritems_same by leaf_lia.
        unfold c4, copy_extent_buffer. zbool; try leaf_lia. f_equal. leaf_lia.
    + replace (hdrs _ _ (length R)) with (hdrs right 0 (length R)).
      * rewrite (lr_hdrs _ _ _ HR). apply layout_same.
      * symmetry. apply hdrs_at. intros x Hx. rewrite set_nritems_same by leaf_lia.
        transitivity (c3 (btrfs_item_nr_offset (Z.of_nat (length X)) + x)); [unfold c4; leaf_untouched|].
        transitivity (c2 (btrfs_item_nr_offset 0 + x)).
        { unfold c3, memmove_extent_buffer, copy_extent_buffer. zbool; try leaf_lia. f_equal. leaf_lia. }
        transitivity (c1 (btrfs_item_nr_offset 0 + x)); [unfold c2; leaf_untouched|unfold c1; leaf_untouched].
  - rewrite stack_app, dsize_app, (Z.add_comm (dsize X)), Z2Nat.inj_add, read_app, Z2Nat.id by lia. f_equal.
    + rewrite <- (lr_data _ _ _ HR). apply read_agree. intros x Hx. rewrite set_nritems_same, H4 by leaf_lia.
      transitivity (c1 (leafsize root - (dsize R + dsize X) + x)); [unfold c2; leaf_untouched|].
      unfold c1, memmove_extent_buffer, copy_extent_buffer. zbool; try leaf_lia. f_equal. leaf_lia.
    + destruct (repr_data root left A X HL) as [<- _]. apply read_agree. intros x Hx.
      rewrite set_nritems_same, H4 by leaf_lia. rewrite dsize_app.
      unfold c2, copy_extent_buffer. zbool; try leaf_lia. f_equal. leaf_lia.
  - rewrite dsize_app, length_app. lia.
Qed.

Lemma copy_for_split_spec b right A B :
  leaf_repr root b (A ++ B) -> B <> [] ->
  exists left' right', copy_for_split_leaves root b right (Z.of_nat (length A)) (Z.of_nat (length (A ++ B))) = (left', right') /\
    leaf_repr root left' A /\ leaf_repr root right' B /\ (forall x, x < 96 -> right' x = right x).
Proof using Hroot.
  intros Hr HB. pose proof (repr_bounds root Hroot _ _ Hr) as Hb. rewrite dsize_app, length_app in *.
  pose proof (dsize_nonneg A). pose proof (dsize_nonneg B).
  unfold copy_for_split_leaves. rewrite (repr_data_end root Hroot _ _ Hr), dsize_app.
  destruct B as [|[k d] B']; [done|]. rewrite (repr_end_nr _ _ _ _ _ Hr). set (B := (k, d) :: B') in *.
  replace (Z.of_nat (length A + length B) - Z.of_nat (length A)) with (Z.of_nat (length B)) by lia.
  replace (BTRFS_LEAF_DATA_SIZE root - dsize A - (BTRFS_LEAF_DATA_SIZE root - (dsize A + dsize B))) with (dsize B) by lia.
  replace (BTRFS_LEAF_DATA_SIZE root - (BTRFS_LEAF_DATA_SIZE root - dsize A)) with (dsize A) by lia.
  rewrite !s32_id by leaf_lia. rewrite Nat2Z.id.
  set (c1 := btrfs_set_header_nritems right _). set (c2 := copy_extent_buffer c1 b _ _ _).
  set (c3 := copy_extent_buffer c2 b _ _ _).
  eexists _, _. split; [reflexivity|]. split; [by apply (shrink_leaf b A B)|]. split.
  - split.
    + transitivity (btrfs_header_nritems c1); [|apply set_nritems_get; leaf_lia].
      apply get_le_same. intros x Hx. rewrite shift_offsets_outside by leaf_lia.
      transitivity (c2 x); [unfold c3; leaf_untouched|unfold c2; leaf_untouched].
    + rewrite shift_offsets_hdrs.
      transitivity (layout (BTRFS_LEAF_DATA_SIZE root - dsize A + dsize A) B); [|f_equal; lia].
      rewrite <- shift_layout by leaf_lia. f_equal. rewrite <- (repr_hdrs_right root b A B Hr).
      apply hdrs_at. intros x Hx. transitivity (c2 (btrfs_item_nr_offset 0 + x)); [unfold c3; leaf_untouched|].
      unfold c2, copy_extent_buffer. zbool; try leaf_lia. f_equal. leaf_lia.
    + destruct (repr_data root b A B Hr) as [<- _]. apply read_agree. intros x Hx.
      rewrite shift_offsets_outside by leaf_lia. rewrite dsize_app.
      unfold c3, copy_extent_buffer. zbool; try leaf_lia. f_equal. leaf_lia.
    + leaf_lia.
  - intros x Hx. rewrite shift_offsets_outside by leaf_lia.
    transitivity (c2 x); [unfold c3; leaf_untouched|].
    transitivity (c1 x); [unfold c2; leaf_untouched|unfold c1; leaf_untouched].
Qed.

(** The left half of [push_leaf_left]. *)
Lemma push_left_receive left right L X B :
  leaf_repr root left L -> leaf_repr root right (X ++ B) ->
  sizeof_item * Z.of_nat (length (L ++ X)) + dsize (L ++ X) <= BTRFS_LEAF_DATA_SIZE root ->
  let c1 := copy_extent_buffer left right (btrfs_item_nr_offset (Z.of_nat (length L)))
              (btrfs_item_nr_offset 0) (Z.of_nat (length X) * sizeof_item) in
  let c2 := copy_extent_buffer c1 right
              (btrfs_leaf_data + (BTRFS_LEAF_DATA_SIZE root - dsize L) - dsize X)
              (btrfs_leaf_data + (BTRFS_LEAF_DATA_SIZE root - dsize X)) (dsize X) in
  let c3 := shift_offsets (length X) (Z.of_nat (length L)) (- dsize L) c2 in
  leaf_repr root (btrfs_set_header_nritems c3 (Z.of_nat (length L) + Z.of_nat (length X))) (L ++ X).
Proof using Hroot.
  intros HL HR Hfit c1 c2 c3. pose proof (repr_bounds root Hroot _ _ HL) as HbL.
  pose proof (repr_bounds root Hroot _ _ HR) as HbR. rewrite dsize_app, length_app in HbR, Hfit.
  pose proof (dsize_nonneg L). pose proof (dsize_nonneg X). pose proof (dsize_nonneg B).
  assert (H3 : forall x, x < btrfs_item_nr_offset (Z.of_nat (length L)) \/
      btrfs_item_nr_offset (Z.of_nat (length L) + Z.of_nat (length X)) <= x -> c3 x = c2 x)
    by (intros x Hx; by apply shift_offsets_outside).
  rewrite <- (app_nil_r X) at 2. apply repr_intro; rewrite ?app_nil_r.
  - rewrite set_nritems_get by leaf_lia. rewrite length_app. lia.
  - rewrite <- (lr_hdrs _ _ _ HL). apply hdrs_same. intros x Hx. rewrite set_nritems_same, H3 by leaf_lia.
    transitivity (c1 x); [unfold c2; leaf_untouched|unfold c1; leaf_untouched].
  - replace (BTRFS_LEAF_DATA_SIZE root - dsize L) with (BTRFS_LEAF_DATA_SIZE root + - dsize L) by lia.
    rewrite <- shift_layout, <- (repr_hdrs_left root right X B HR) by leaf_lia.
    transitivity (hdrs c3 (Z.of_nat (length L)) (length X)).
    { apply hdrs_same. intros x Hx. apply set_nritems_same. leaf_lia. }
    unfold c3. rewrite shift_offsets_hdrs. f_equal. apply hdrs_at. intros x Hx.
    transitivity (c1 (btrfs_item_nr_offset (Z.of_nat (length L)) + x)); [unfold c2; leaf_untouched|].
    unfold c1, copy_extent_buffer. zbool; try leaf_lia. f_equal. leaf_lia.
  - done.
  - rewrite <- (lr_data _ _ _ HL). apply read_same. intros x Hx. rewrite set_nritems_same, H3 by leaf_lia.
    transitivity (c1 x); [unfold c2; leaf_untouched|unfold c1; leaf_untouched].
  - destruct (repr_data root right X B HR) as [_ <-]. apply read_agree. intros x Hx.
    rewrite set_nritems_same, H3 by leaf_lia. unfold c2, copy_extent_buffer. zbool; try leaf_lia. f_equal. leaf_lia.
  - done.
  - rewrite length_app, dsize_app. lia.
Qed.

(** The right half. *)
Lemma push_left_close right X B c :
  leaf_repr root right (X ++ B) ->
  (B = [] -> c = right) ->
  (B <> [] -> c = memmove_extent_buffer
     (memmove_extent_buffer right (btrfs_leaf_data + BTRFS_LEAF_DATA_SIZE root - dsize B)
        (btrfs_leaf_data + (BTRFS_LEAF_DATA_SIZE root - dsize (X ++ B))) (dsize B))
     (btrfs_item_nr_offset 0) (btrfs_item_nr_offset (Z.of_nat (length X))) (Z.of_nat (length B) * sizeof_item)) ->
  leaf_repr root (renumber_offsets (length B) 0 (BTRFS_LEAF_DATA_SIZE root)
    (btrfs_set_header_nritems c (Z.of_nat (length B)))) B.
Proof using Hroot.
  intros HR Hnil Hmove. pose proof (repr_bounds root Hroot _ _ HR) as HbR. rewrite dsize_app, length_app in HbR.
  pose proof (dsize_nonneg X). pose proof (dsize_nonneg B).
  assert (Hparts : hdrs c 0 (length B) = layout (BTRFS_LEAF_DATA_SIZE root - dsize X) B /\
    read_extent_buffer c (leafsize root - dsize B) (Z.to_nat (dsize B)) = stack B).
  { destruct B as [|y B']; [done|]. rewrite Hmove by done. set (B := y :: B') in *. split.
    - rewrite <- (repr_hdrs_right root right X B HR). apply hdrs_at. intros x Hx. rewrite dsize_app.
      unfold memmove_extent_buffer at 1, copy_extent_buffer at 1.
      rewrite (proj2 (Z.leb_le _ _)), (proj2 (Z.ltb_lt _ _)) by leaf_lia. cbn [andb].
      replace (btrfs_item_nr_offset (Z.of_nat (length X)) + _) with (btrfs_item_nr_offset (Z.of_nat (length X)) + x) by lia.
      leaf_untouched.
    - destruct (repr_data root right X B HR) as [<- _]. apply read_agree. intros x Hx. rewrite dsize_app.
      transitivity (memmove_extent_buffer right (btrfs_leaf_data + BTRFS_LEAF_DATA_SIZE root - dsize B)
        (btrfs_leaf_data + (BTRFS_LEAF_DATA_SIZE root - (dsize X + dsize B))) (dsize B) (leafsize root - dsize B + x));
        [leaf_untouched|].
      unfold memmove_extent_buffer, copy_extent_buffer. zbool; try leaf_lia. f_equal. leaf_lia. }
  destruct Hparts as [Hh Hd]. apply renumbered_intro.
  - apply set_nritems_get. leaf_lia.
  - replace (hdrs _ 0 (length B)) with (hdrs c 0 (length B)); [rewrite Hh; apply layout_same|].
    symmetry. apply hdrs_same. intros x Hx. apply set_nritems_same. leaf_lia.
  - rewrite <- Hd. apply read_same. intros x Hx. apply set_nritems_same. leaf_lia.
  - leaf_lia.
Qed.

Lemma push_left_copy_spec left right L X B :
  leaf_repr root left L -> leaf_repr root right (X ++ B) -> X <> [] -> L <> [] ->
  sizeof_item * Z.of_nat (length (L ++ X)) + dsize (L ++ X) <= BTRFS_LEAF_DATA_SIZE root ->
  exists left' right', push_left_copy root left right (Z.of_nat (length X)) = Some (left', right') /\
    leaf_repr root left' (L ++ X) /\ leaf_repr root right' B.
Proof using Hroot.
  intros HL HR HX HLn Hfit. pose proof (repr_bounds root Hroot _ _ HL) as HbL.
  pose proof (repr_bounds root Hroot _ _ HR) as HbR. rewrite dsize_app, length_app in HbR.
  pose proof (dsize_nonneg L). pose proof (dsize_nonneg X). pose proof (dsize_nonneg B).
  pose proof Hfit as Hfit'. rewrite dsize_app, length_app in Hfit'.
  assert (HnL : 0 < Z.of_nat (length L)) by (destruct L; simpl; [done|lia]).
  assert (Hlast : btrfs_item_offset_nr right (Z.of_nat (length X) - 1) = BTRFS_LEAF_DATA_SIZE root - dsize X).
  { destruct X as [|[k d] X' _] using rev_ind; [done|]. rewrite <- (assoc_L (++)) in HR. simpl in HR.
    destruct (repr_item_fields root Hroot _ _ _ _ _ HR) as (_ & Ho & _ & _).
    rewrite length_app, dsize_app. simpl.
    replace (Z.of_nat (length X' + 1) - 1) with (Z.of_nat (length X')) by lia. rewrite Ho. lia. }
  unfold push_left_copy. rewrite Hlast, (lr_nritems _ _ _ HL), (lr_nritems _ _ _ HR), (repr_data_end root Hroot _ _ HR).
  replace (BTRFS_LEAF_DATA_SIZE root - (BTRFS_LEAF_DATA_SIZE root - dsize X)) with (dsize X) by lia.
  rewrite (s32_id (dsize X)) by leaf_lia.
  set (c1 := copy_extent_buffer left right _ _ _).
  assert (Hc1 : forall x, btrfs_item_nr_offset (Z.of_nat (length L) + Z.of_nat (length X)) <= x \/
      x < btrfs_item_nr_offset (Z.of_nat (length L)) -> c1 x = left x).
  { intros x Hx. unfold c1. leaf_untouched. }
  assert (Hn1 : btrfs_header_nritems c1 = Z.of_nat (length L)).
  { rewrite <- (lr_nritems _ _ _ HL). apply get_le_same. intros x Hx. apply Hc1. leaf_lia. }
  assert (Hoff : forall c, agree c1 c 0 (btrfs_item_nr_offset (Z.of_nat (length L))) ->
    btrfs_item_offset_nr c (Z.of_nat (length L) - 1) = BTRFS_LEAF_DATA_SIZE root - dsize L).
  { intros c Hag. rewrite <- (repr_data_end root Hroot _ _ HL). unfold leaf_data_end.
    rewrite (lr_nritems _ _ _ HL), (proj2 (Z.eqb_neq _ 0)) by lia. apply get_le_same. intros x Hx.
    rewrite Hag by leaf_lia. apply Hc1. leaf_lia. }
  assert (Hend : leaf_data_end root c1 = BTRFS_LEAF_DATA_SIZE root - dsize L).
  { unfold leaf_data_end. rewrite Hn1, (proj2 (Z.eqb_neq _ 0)) by lia. apply Hoff, agree_refl. }
  rewrite Hend.
  set (c2 := copy_extent_buffer c1 right _ _ _).
  assert (Hn2 : btrfs_header_nritems c2 = Z.of_nat (length L)).
  { rewrite <- Hn1. apply get_le_same. unfold c2. leaf_untouched. }
  rewrite Hn2, (proj2 (Z.eqb_neq _ 0)), (Hoff c2) by (lia || (unfold c2; leaf_untouched)).
  replace (BTRFS_LEAF_DATA_SIZE root - (BTRFS_LEAF_DATA_SIZE root - dsize L)) with (dsize L) by lia.
  rewrite Nat2Z.id, dsize_app, length_app.
  replace (BTRFS_LEAF_DATA_SIZE root - dsize X - (BTRFS_LEAF_DATA_SIZE root - (dsize X + dsize B))) with (dsize B) by lia.
  rewrite (s32_id (dsize B)) by leaf_lia.
  replace (Z.of_nat (length X + length B) - Z.of_nat (length X)) with (Z.of_nat (length B)) by lia.
  rewrite (u32_id (Z.of_nat (length B))), Nat2Z.id by leaf_lia.
  rewrite (proj2 (Z.ltb_ge (Z.of_nat (length X + length B)) _)) by lia.
  eexists _, _. split; [reflexivity|]. split.
  - by apply (push_left_receive left right L X B).
  - apply (push_left_close right X B); [done| |].
    + intros ->. by rewrite (proj2 (Z.ltb_ge _ _)) by (simpl; lia).
    + intros HB. rewrite (proj2 (Z.ltb_lt _ _)) by (destruct B; simpl; [done|lia]). cbv zeta.
      rewrite dsize_app. f_equal. f_equal.
      transitivity (btrfs_header_nritems right - Z.of_nat (length X)).
      * f_equal. apply get_le_same. leaf_untouched.
      * rewrite (lr_nritems _ _ _ HR), length_app. lia.
Qed.

(** ** Counting what fits *)

(** The space some items need in a leaf. *)
Definition weight (l : list item) : Z := sizeof_item * Z.of_nat (length l) + dsize l.

Lemma weight_app A B : weight (A ++ B) = weight A + weight B.
Proof using Type. unfold weight. rewrite length_app, dsize_app. lia. Qed.

Lemma weight_nonneg l : 0 <= weight l.
Proof using Type. unfold weight, sizeof_item. pose proof (dsize_nonneg l). lia. Qed.

Lemma weight_one k (d : list Z) : weight [(k, d)] = Z.of_nat (length d) + sizeof_item.
Proof using Type. unfold weight, sizeof_item. simpl. lia. Qed.

Lemma item_size_at b A k d B :
  leaf_repr root b (A ++ (k, d) :: B) ->
  btrfs_item_size b (btrfs_item_nr (Z.of_nat (length A))) = Z.of_nat (length d) /\ Z.of_nat (length d) < 65536.
Proof using Hroot.
  intros Hr. destruct (repr_item_fields root Hroot _ _ _ _ _ Hr) as (_ & _ & Hs & _). split; [exact Hs|].
  pose proof (repr_bounds root Hroot _ _ Hr) as Hb. rewrite dsize_app in Hb. simpl in Hb.
  pose proof (dsize_nonneg A). pose proof (dsize_nonneg B). leaf_lia.
Qed.

(** One round of the loop of [push_leaf_right]. *)
Lemma push_right_step left slot0 data_size free_space nr A k d X pi ps :
  leaf_repr root left (A ++ (k, d) :: X) -> 0 <= data_size < 2 ^ 30 -> 0 <= ps <= free_space -> free_space < 65536 ->
  let ps1 := if slot0 =? Z.of_nat (length A) then ps + data_size + sizeof_item else ps in
  let ps2 := ps1 + weight [(k, d)] in
  push_right_loop (length A) left slot0 data_size free_space nr pi ps =
    if nr <=? Z.of_nat (length A) then
      if free_space <? ps2 then (pi, ps1)
      else match length A with
           | O => (pi + 1, ps2)
           | S n => push_right_loop n left slot0 data_size free_space nr (pi + 1) ps2
           end
    else (pi, ps).
Proof using Hroot.
  intros Hr Hds Hps Hf ps1 ps2. destruct (item_size_at _ _ _ _ _ Hr) as [Hsz Hlt].
  assert (H1 : (if slot0 =? Z.of_nat (length A) then s32 (ps + data_size + sizeof_item) else ps) = ps1)
    by (unfold ps1, sizeof_item in *; destruct (_ =? _); [by rewrite s32_id by lia|done]).
  assert (H2 : 0 <= ps1 < 2 ^ 30 + 70000) by (unfold ps1, sizeof_item; destruct (_ =? _); lia).
  assert (H3 : ps2 = Z.of_nat (length d) + sizeof_item + ps1) by (unfold ps2; rewrite weight_one; lia).
  destruct (length A) as [|n] eqn:Hn; cbn [push_right_loop]; rewrite Hsz, H1;
    (destruct (nr <=? _); [|done]); rewrite !u64_id, <- H3 by (unfold sizeof_item in *; lia);
    (destruct (Z.ltb_spec free_space ps2); [done|]).
  - rewrite s32_id by (unfold sizeof_item in *; lia). f_equal. lia.
  - rewrite s32_id by (unfold sizeof_item in *; lia). f_equal. lia.
Qed.

(** [push_leaf_right] counts items from the end that fit into the free space. *)
Lemma push_right_loop_spec left slot0 data_size free_space nr A X ps :
  leaf_repr root left (A ++ X) -> A <> [] -> nr <= Z.of_nat (length A) ->
  0 <= data_size < 2 ^ 30 -> free_space < 65536 -> weight X <= ps <= free_space ->
  exists A' X' ps', push_right_loop (length A - 1) left slot0 data_size free_space nr (Z.of_nat (length X)) ps =
      (Z.of_nat (length X'), ps') /\
    A ++ X = A' ++ X' /\ weight X' <= free_space /\ nr <= Z.of_nat (length A').
Proof using Hroot.
  intros Hr HA Hnr Hd Hf. revert X ps Hr Hnr.
  induction A as [|[k d] A IH] using rev_ind; [done|]. intros X ps Hr Hnr Hp. pose proof (weight_nonneg X).
  rewrite <- (assoc_L (++)) in Hr |- *. simpl in Hr |- *.
  rewrite length_app in *. simpl in *. replace (length A + 1 - 1)%nat with (length A) by lia.
  rewrite (push_right_step left slot0 data_size free_space nr A k d X) by (done || lia).
  set (ps1 := if slot0 =? _ then _ else ps). cbv zeta.
  assert (H1 : ps <= ps1) by (unfold ps1, sizeof_item; destruct (_ =? _); lia).
  pose proof (weight_app [(k, d)] X) as HwX. simpl in HwX.
  destruct (Z.leb_spec nr (Z.of_nat (length A))) as [Hle|].
  2: { exists (A ++ [(k, d)]), X, ps. rewrite <- (assoc_L (++)), length_app. simpl. split_and!; [done|done|lia|lia]. }
  destruct (Z.ltb_spec free_space (ps1 + weight [(k, d)])).
  { exists (A ++ [(k, d)]), X, ps1. rewrite <- (assoc_L (++)), length_app. simpl. split_and!; [done|done|lia|lia]. }
  destruct (length A) as [|n] eqn:Hn.
  - exists A, ((k, d) :: X), (ps1 + weight [(k, d)]). cbn [length]. split_and!; [f_equal; lia|done|lia|lia].
  - replace (Z.of_nat (length X) + 1) with (Z.of_nat (length ((k, d) :: X))) by (cbn [length]; lia).
    replace n with (S n - 1)%nat by lia. apply IH; [by intros ->|done|lia|lia].
Qed.

(** The same upwards, for [push_leaf_left]. *)
Lemma push_left_loop_spec right slot0 data_size free_space n X B C ps :
  leaf_repr root right (X ++ B ++ C) -> length B = n ->
  0 <= data_size < 2 ^ 30 -> free_space < 65536 -> weight X <= ps <= free_space ->
  exists X' B' ps', push_left_loop n (Z.of_nat (length X)) right slot0 data_size free_space (Z.of_nat (length X)) ps =
      (Z.of_nat (length X'), ps') /\
    X ++ B = X' ++ B' /\ weight X' <= free_space.
Proof using Hroot.
  revert X B ps. induction n as [|n IH]; intros X B ps Hr HB Hd Hf Hp; cbn [push_left_loop].
  { exists X, B, ps. split_and!; [done|done|lia]. }
  destruct B as [|[k d] B]; [done|]. injection HB as HB. pose proof (weight_nonneg X).
  simpl in Hr. destruct (item_size_at _ _ _ _ _ Hr) as [Hsz Hlt]. rewrite Hsz.
  set (ps1 := if slot0 =? _ then _ else ps).
  assert (H1 : ps <= ps1 < 2 ^ 30 + 70000).
  { unfold ps1, sizeof_item. destruct (_ =? _); [rewrite s32_id by lia|]; lia. }
  pose proof (weight_app X [(k, d)]) as HwX. rewrite weight_one in HwX. unfold sizeof_item in *.
  rewrite !u64_id by lia. destruct (Z.ltb_spec free_space (Z.of_nat (length d) + 25 + ps1)).
  { exists X, ((k, d) :: B), ps1. split_and!; [done|done|lia]. }
  rewrite s32_id by lia.
  replace (Z.of_nat (length X) + 1) with (Z.of_nat (length (X ++ [(k, d)]))) by (rewrite length_app; simpl; lia).
  destruct (IH (X ++ [(k, d)]) B (ps1 + Z.of_nat (length d) + 25)) as (X' & B' & ps' & He & HX & Hw);
    [by rewrite <- (assoc_L (++))|done|done|done|lia|].
  exists X', B', ps'. split_and!; [done| |done]. by rewrite <- HX, <- (assoc_L (++)).
Qed.
End Push.
