(* ===== verification/NodeOps.v ===== *)
(** The functions of [src/ctree.c] on the bytes of one or two inner nodes.

    [push_node_left] and [balance_node_right] work on two buffers; the others
    are the part of a path function that writes its node. *)

From S2P Require Import Prelude Buf CtreeFmt.

(** The [WARN_ON]s on the generations of two nodes; they are assertions. *)
Definition both_current (transid : Z) (dst src : buf) : bool :=
  (btrfs_header_generation src =? transid) && (btrfs_header_generation dst =? transid).

(** [push_node_left(dst, src, empty)]: the result and both buffers. *)
Definition push_node_left (root : btrfs_root) (transid : Z) (dst src : buf) (empty : bool)
    : option (Z * buf * buf) :=
  let src_nritems := s32 (btrfs_header_nritems src) in
  let dst_nritems := s32 (btrfs_header_nritems dst) in
  let push_items := s32 (BTRFS_NODEPTRS_PER_BLOCK root - dst_nritems) in
  if negb (both_current transid dst src) then None
  else if negb empty && (src_nritems <=? 8) then Some (1, dst, src)
  else if push_items <=? 0 then Some (1, dst, src)
  else
    let push :=
      if empty then
        let push_items := Z.min src_nritems push_items in
        if push_items <? src_nritems then
          if src_nritems - push_items <? 8 then
            if push_items <=? 8 then None else Some (push_items - 8)
          else Some push_items
        else Some push_items
      else Some (Z.min (src_nritems - 8) push_items) in
    match push with
    | None => Some (1, dst, src)
    | Some push_items =>
        let dst := copy_extent_buffer dst src (btrfs_node_key_ptr_offset dst_nritems)
                     (btrfs_node_key_ptr_offset 0) (push_items * sizeof_key_ptr) in
        let src := if push_items <? src_nritems then
                     memmove_extent_buffer src (btrfs_node_key_ptr_offset 0)
                       (btrfs_node_key_ptr_offset push_items) ((src_nritems - push_items) * sizeof_key_ptr)
                   else src in
        let src := btrfs_set_header_nritems src (src_nritems - push_items) in
        let dst := btrfs_set_header_nritems dst (dst_nritems + push_items) in
        Some (0, dst, src)
    end.

Definition balance_node_right (root : btrfs_root) (transid : Z) (dst src : buf) : option (Z * buf * buf) :=
  if negb (both_current transid dst src) then None else
  let src_nritems := s32 (btrfs_header_nritems src) in
  let dst_nritems := s32 (btrfs_header_nritems dst) in
  let push_items := s32 (BTRFS_NODEPTRS_PER_BLOCK root - dst_nritems) in
  if push_items <=? 0 then Some (1, dst, src)
  else if src_nritems <? 4 then Some (1, dst, src)
  else
    let max_push := src_nritems / 2 + 1 in
    if src_nritems <=? max_push then Some (1, dst, src)
    else
      let push_items := if max_push <? push_items then max_push else push_items in
      let dst := memmove_extent_buffer dst (btrfs_node_key_ptr_offset push_items)
                   (btrfs_node_key_ptr_offset 0) (dst_nritems * sizeof_key_ptr) in
      let dst := copy_extent_buffer dst src (btrfs_node_key_ptr_offset 0)
                   (btrfs_node_key_ptr_offset (src_nritems - push_items)) (push_items * sizeof_key_ptr) in
      let src := btrfs_set_header_nritems src (src_nritems - push_items) in
      let dst := btrfs_set_header_nritems dst (dst_nritems + push_items) in
      Some (0, dst, src).

(** [insert_ptr] on the bytes of [path->nodes[level]]. *)
Definition insert_ptr_node (root : btrfs_root) (transid : Z) (lower : buf) (key : btrfs_key) (bytenr slot : Z)
    : option buf :=
  let nritems := s32 (btrfs_header_nritems lower) in
  if nritems <? slot then None
  else if nritems =? BTRFS_NODEPTRS_PER_BLOCK root then None
  else
    let lower := if negb (slot =? nritems) then
                   memmove_extent_buffer lower (btrfs_node_key_ptr_offset (slot + 1))
                     (btrfs_node_key_ptr_offset slot) ((nritems - slot) * sizeof_key_ptr)
                 else lower in
    let lower := btrfs_set_node_key lower key slot in
    let lower := btrfs_set_node_blockptr lower slot bytenr in
    if transid =? 0 then None else
    let lower := btrfs_set_node_ptr_generation lower slot transid in
    Some (btrfs_set_header_nritems lower (nritems + 1)).

(** [btrfs_del_ptr] on the bytes of the parent, up to the new item count. *)
Definition del_ptr_node (parent : buf) (slot : Z) : buf :=
  let nritems := btrfs_header_nritems parent in
  let parent := if negb (slot =? u32 (nritems - 1)) then
                  memmove_extent_buffer parent (btrfs_node_key_ptr_offset slot)
                    (btrfs_node_key_ptr_offset (slot + 1)) (sizeof_key_ptr * u32 (nritems - slot - 1))
                else parent in
  btrfs_set_header_nritems parent (u32 (nritems - 1)).

(** The copy of [split_node]: the pointers from the middle on go to [split]. *)
Definition split_node_copy (c split : buf) : Z * buf * buf :=
  let c_nritems := btrfs_header_nritems c in
  let mid := u32 (c_nritems + 1) / 2 in
  let split := copy_extent_buffer split c (btrfs_node_key_ptr_offset 0) (btrfs_node_key_ptr_offset mid)
                 ((c_nritems - mid) * sizeof_key_ptr) in
  let split := btrfs_set_header_nritems split (c_nritems - mid) in
  let c := btrfs_set_header_nritems c mid in
  (mid, c, split).

(** ** A node as the list of its pointers *)

Record key_ptr := KeyPtr { kp_key : btrfs_key; kp_blockptr : Z; kp_generation : Z }.

#[export] Instance key_ptr_eq_dec : EqDecision key_ptr.
Proof. solve_decision. Defined.

Definition node_ptr (b : buf) (i : Z) : key_ptr :=
  KeyPtr (btrfs_node_key b i) (btrfs_node_blockptr b i) (btrfs_node_ptr_generation b i).

Fixpoint ptrs (b : buf) (i : Z) (n : nat) : list key_ptr :=
  match n with O => [] | S n => node_ptr b i :: ptrs b (i + 1) n end.

Record node_repr (root : btrfs_root) (b : buf) (l : list key_ptr) : Prop := {
  nr_nritems : btrfs_header_nritems b = Z.of_nat (length l);
  nr_ptrs : ptrs b 0 (length l) = l;
  nr_fits : Z.of_nat (length l) <= BTRFS_NODEPTRS_PER_BLOCK root;
}.

Implicit Types (b dst src : buf) (l A B D S : list key_ptr) (root : btrfs_root).

Lemma ptrs_length b i n : length (ptrs b i n) = n.
Proof. revert i. induction n; intros; simpl; auto. Qed.

Lemma ptrs_app b i n m : ptrs b i (n + m) = ptrs b i n ++ ptrs b (i + Z.of_nat n) m.
Proof.
  revert i. induction n as [|n IH]; intros i; cbn [ptrs Nat.add app]; [by rewrite Z.add_0_r|].
  rewrite IH. do 3 f_equal. lia.
Qed.

(** The same bytes are the same pointers. *)
Lemma node_ptr_at b b' i i' :
  (forall x, 0 <= x < sizeof_key_ptr ->
     b' (btrfs_node_key_ptr_offset i' + x) = b (btrfs_node_key_ptr_offset i + x)) ->
  node_ptr b' i' = node_ptr b i.
Proof.
  unfold sizeof_key_ptr. intros Hag. unfold node_ptr, btrfs_node_key, btrfs_node_blockptr, btrfs_node_ptr_generation.
  f_equal.
  - apply read_disk_key_at. intros x Hx. apply Hag. lia.
  - apply get_le_agree. intros x Hx. rewrite <- !Z.add_assoc. apply Hag. lia.
  - apply get_le_agree. intros x Hx. rewrite <- !Z.add_assoc. apply Hag. lia.
Qed.

Lemma ptrs_at b b' i i' n :
  (forall x, 0 <= x < sizeof_key_ptr * Z.of_nat n ->
     b' (btrfs_node_key_ptr_offset i' + x) = b (btrfs_node_key_ptr_offset i + x)) ->
  ptrs b' i' n = ptrs b i n.
Proof.
  revert i i'. induction n as [|n IH]; intros i i' Hag; [done|]. unfold sizeof_key_ptr in *.
  cbn [ptrs]. f_equal.
  - apply node_ptr_at. intros x Hx. apply Hag. unfold sizeof_key_ptr in *. lia.
  - apply IH. intros x Hx. unfold btrfs_node_key_ptr_offset, sizeof_key_ptr in *.
    replace (sizeof_header + 33 * (i' + 1) + x) with (sizeof_header + 33 * i' + (33 + x)) by lia.
    rewrite Hag by lia. f_equal. lia.
Qed.

(** Reading some of the pointers of a node. *)
Lemma repr_ptrs root b A M B :
  node_repr root b (A ++ M ++ B) -> ptrs b (Z.of_nat (length A)) (length M) = M.
Proof.
  intros Hr. pose proof (nr_ptrs _ _ _ Hr) as Hp. rewrite !length_app, !ptrs_app in Hp.
  apply app_inj_1 in Hp as [_ Hp]; [|by rewrite ptrs_length].
  apply app_inj_1 in Hp as [Hp _]; [|by rewrite ptrs_length]. by rewrite Z.add_0_l in Hp.
Qed.

(** ** The node operations as list operations on the pointers. *)



(** Linear arithmetic on positions in a node. *)
Ltac node_lia :=
  unfold btrfs_node_key_ptr_offset, sizeof_key_ptr, sizeof_header in *; lia.

Ltac node_untouched :=
  unfold agree, memmove_extent_buffer, copy_extent_buffer, btrfs_set_header_nritems, put_le,
    btrfs_node_key_ptr_offset, sizeof_key_ptr, sizeof_header in *;
  intros; zbool; first [ lia | done | reflexivity ].

(** A byte that a copy brings from somewhere else. *)
Ltac node_moved :=
  unfold memmove_extent_buffer, copy_extent_buffer, btrfs_set_header_nritems, put_le,
    btrfs_node_key_ptr_offset, sizeof_key_ptr, sizeof_header in *;
  zbool; first [ lia | (f_equal; lia) | done ].

Ltac node_unwrap := unwrap_by ltac:(lia).

Section Node.
Context (root : btrfs_root) (Hroot : root_ok root).

Lemma capacity_bounds : 121 <= BTRFS_NODEPTRS_PER_BLOCK root < 2000.
Proof using Hroot.
  unfold BTRFS_NODEPTRS_PER_BLOCK, root_ok, sizeof_header, sizeof_key_ptr in *. destruct Hroot as [_ H]. zlia.
Qed.

Lemma set_nritems_get_node b v : 0 <= v < 2 ^ 32 -> btrfs_header_nritems (btrfs_set_header_nritems b v) = v.
Proof using Type. apply (get_put_le_id 4 b 96 v). Qed.

(** The pointers [l] are the bytes from pointer [i] on. *)
Definition holds_ptrs b (i : Z) l : Prop := ptrs b i (length l) = l.

Lemma holds_ptrs_move b b' i i' l :
  holds_ptrs b i l ->
  (forall x, 0 <= x < sizeof_key_ptr * Z.of_nat (length l) ->
     b' (btrfs_node_key_ptr_offset i' + x) = b (btrfs_node_key_ptr_offset i + x)) ->
  holds_ptrs b' i' l.
Proof using Type. intros Hl Hag. unfold holds_ptrs in *. rewrite <- Hl at 2. by apply ptrs_at. Qed.

Lemma holds_ptrs_app b i A B :
  holds_ptrs b i A -> holds_ptrs b (i + Z.of_nat (length A)) B -> holds_ptrs b i (A ++ B).
Proof using Type. intros HA HB. unfold holds_ptrs in *. by rewrite length_app, ptrs_app, HA, HB. Qed.

Lemma repr_holds b A M B : node_repr root b (A ++ M ++ B) -> holds_ptrs b (Z.of_nat (length A)) M.
Proof using Type. apply repr_ptrs. Qed.

Lemma node_intro b l n :
  btrfs_header_nritems b = n -> n = Z.of_nat (length l) -> holds_ptrs b 0 l ->
  Z.of_nat (length l) <= BTRFS_NODEPTRS_PER_BLOCK root -> node_repr root b l.
Proof using Type. intros <- Hn Hp Hf. by split. Qed.

(** ** Moving pointers between two nodes *)

(** The number of pointers [push_node_left] moves, if it moves any. *)
Definition left_push (empty : bool) (d s cap : Z) : option Z :=
  if negb empty && (s <=? 8) then None
  else if cap - d <=? 0 then None
  else if empty then
    if s <=? cap - d then Some s
    else if 8 <=? s - (cap - d) then Some (cap - d)
    else if cap - d <=? 8 then None
    else Some (cap - d - 8)
  else Some (Z.min (s - 8) (cap - d)).

Lemma push_node_left_spec transid dst src D S empty :
  both_current transid dst src = true -> node_repr root dst D -> node_repr root src S ->
  match left_push empty (Z.of_nat (length D)) (Z.of_nat (length S)) (BTRFS_NODEPTRS_PER_BLOCK root) with
  | None => push_node_left root transid dst src empty = Some (1, dst, src)
  | Some n => exists dst' src', push_node_left root transid dst src empty = Some (0, dst', src') /\
      0 <= n <= Z.of_nat (length S) /\
      node_repr root dst' (D ++ take (Z.to_nat n) S) /\ node_repr root src' (drop (Z.to_nat n) S)
  end.
Proof using Hroot.
  intros Hcur HD HS. pose proof capacity_bounds as Hcap.
  pose proof (nr_fits _ _ _ HD) as HfD. pose proof (nr_fits _ _ _ HS) as HfS.
  assert (Hmove : forall n, 0 <= n <= Z.of_nat (length S) -> Z.of_nat (length D) + n <= BTRFS_NODEPTRS_PER_BLOCK root ->
    let dst' := btrfs_set_header_nritems (copy_extent_buffer dst src
        (btrfs_node_key_ptr_offset (Z.of_nat (length D))) (btrfs_node_key_ptr_offset 0) (n * sizeof_key_ptr))
        (Z.of_nat (length D) + n) in
    let src' := btrfs_set_header_nritems (if n <? Z.of_nat (length S) then
         memmove_extent_buffer src (btrfs_node_key_ptr_offset 0)
           (btrfs_node_key_ptr_offset n) ((Z.of_nat (length S) - n) * sizeof_key_ptr)
         else src) (Z.of_nat (length S) - n) in
    node_repr root dst' (D ++ take (Z.to_nat n) S) /\ node_repr root src' (drop (Z.to_nat n) S)).
  { intros n Hn Hfit dst' src'.
    pose proof (take_drop (Z.to_nat n) S) as Hs.
    assert (Hlt : Z.of_nat (length (take (Z.to_nat n) S)) = n) by (rewrite length_take; lia).
    split.
    - apply (node_intro _ _ (Z.of_nat (length D) + n)).
      + apply set_nritems_get_node. lia.
      + rewrite length_app. lia.
      + apply holds_ptrs_app.
        * apply (holds_ptrs_move dst _ 0); [apply (nr_ptrs _ _ _ HD)|]. intros x Hx. unfold dst'. node_untouched.
        * rewrite Z.add_0_l. apply (holds_ptrs_move src _ 0).
          -- apply (repr_holds src [] _ (drop (Z.to_nat n) S)). simpl. by rewrite Hs.
          -- intros x Hx. rewrite Hlt in Hx. unfold dst'. node_moved.
      + rewrite length_app. lia.
    - apply (node_intro _ _ (Z.of_nat (length S) - n)).
      + apply set_nritems_get_node. lia.
      + rewrite length_drop. lia.
      + apply (holds_ptrs_move src _ n).
        * rewrite <- Hlt at 1. apply (repr_holds src (take (Z.to_nat n) S) _ []). by rewrite app_nil_r, Hs.
        * intros x Hx. rewrite length_drop in Hx. unfold src'.
          destruct (Z.ltb_spec n (Z.of_nat (length S))); [node_moved|node_lia].
      + rewrite length_drop. lia. }
  unfold push_node_left, left_push. rewrite Hcur, (nr_nritems _ _ _ HD), (nr_nritems _ _ _ HS). cbn [negb]. node_unwrap.
  destruct (negb empty && _) eqn:E1; [done|].
  destruct (Z.leb_spec (BTRFS_NODEPTRS_PER_BLOCK root - Z.of_nat (length D)) 0); [done|].
  destruct empty; simpl in E1.
  - destruct (Z.leb_spec (Z.of_nat (length S)) (BTRFS_NODEPTRS_PER_BLOCK root - Z.of_nat (length D))).
    + rewrite Z.min_l, Z.ltb_irrefl by lia.
      eexists _, _. split; [reflexivity|]. rewrite Z.ltb_irrefl. split; [lia|].
      pose proof (Hmove (Z.of_nat (length S))) as Hm. rewrite Z.ltb_irrefl in Hm. apply Hm; lia.
    + rewrite Z.min_r by lia. rewrite (proj2 (Z.ltb_lt _ _)) by lia.
      destruct (Z.leb_spec 8 (Z.of_nat (length S) - (BTRFS_NODEPTRS_PER_BLOCK root - Z.of_nat (length D)))).
      * rewrite (proj2 (Z.ltb_ge _ _)) by lia. eexists _, _. split; [reflexivity|]. split; [lia|]. apply Hmove; lia.
      * rewrite (proj2 (Z.ltb_lt _ _)) by lia.
        destruct (Z.leb_spec (BTRFS_NODEPTRS_PER_BLOCK root - Z.of_nat (length D)) 8); [done|].
        eexists _, _. split; [reflexivity|]. split; [lia|]. apply Hmove; lia.
  - apply Z.leb_gt in E1. eexists _, _. split; [reflexivity|]. split; [lia|]. apply Hmove; lia.
Qed.

(** The number of pointers [balance_node_right] moves. *)
Definition right_push (d s cap : Z) : option Z :=
  if (cap - d <=? 0) || (s <? 4) then None else Some (Z.min (s / 2 + 1) (cap - d)).

Lemma balance_node_right_spec transid dst src D S :
  both_current transid dst src = true -> node_repr root dst D -> node_repr root src S ->
  match right_push (Z.of_nat (length D)) (Z.of_nat (length S)) (BTRFS_NODEPTRS_PER_BLOCK root) with
  | None => balance_node_right root transid dst src = Some (1, dst, src)
  | Some n => exists dst' src' S1 S2, balance_node_right root transid dst src = Some (0, dst', src') /\
      S = S1 ++ S2 /\ Z.of_nat (length S2) = n /\ S1 <> [] /\ S2 <> [] /\
      node_repr root dst' (S2 ++ D) /\ node_repr root src' S1
  end.
Proof using Hroot.
  intros Hcur HD HS. pose proof capacity_bounds as Hcap.
  pose proof (nr_fits _ _ _ HD) as HfD. pose proof (nr_fits _ _ _ HS) as HfS.
  unfold balance_node_right, right_push. rewrite Hcur, (nr_nritems _ _ _ HD), (nr_nritems _ _ _ HS). cbn [negb]. node_unwrap.
  destruct (Z.leb_spec (BTRFS_NODEPTRS_PER_BLOCK root - Z.of_nat (length D)) 0); [done|]. cbn [orb].
  destruct (Z.ltb_spec (Z.of_nat (length S)) 4) as [|H4]; [done|].
  assert (Hhalf : Z.of_nat (length S) / 2 + 1 < Z.of_nat (length S)) by zlia.
  assert (Hpos : 0 < Z.of_nat (length S) / 2 + 1) by zlia.
  rewrite (proj2 (Z.leb_gt _ _)) by lia.
  assert (Hif : (if Z.of_nat (length S) / 2 + 1 <? BTRFS_NODEPTRS_PER_BLOCK root - Z.of_nat (length D)
    then Z.of_nat (length S) / 2 + 1 else BTRFS_NODEPTRS_PER_BLOCK root - Z.of_nat (length D)) =
    Z.min (Z.of_nat (length S) / 2 + 1) (BTRFS_NODEPTRS_PER_BLOCK root - Z.of_nat (length D))).
  { destruct (Z.ltb_spec (Z.of_nat (length S) / 2 + 1) (BTRFS_NODEPTRS_PER_BLOCK root - Z.of_nat (length D))); lia. }
  rewrite Hif. set (n := Z.min _ _).
  assert (Hn : 0 < n < Z.of_nat (length S) /\ n <= BTRFS_NODEPTRS_PER_BLOCK root - Z.of_nat (length D)) by (unfold n; lia).
  clearbody n. set (k := (length S - Z.to_nat n)%nat).
  assert (H1 : Z.of_nat (length (take k S)) = Z.of_nat (length S) - n) by (unfold k; rewrite length_take; lia).
  assert (H2 : Z.of_nat (length (drop k S)) = n) by (unfold k; rewrite length_drop; lia).
  pose proof (take_drop k S) as Hs.
  eexists _, _, (take k S), (drop k S). split; [reflexivity|].
  split; [done|]. split; [done|].
  split; [intros E; rewrite E in H1; simpl in H1; lia|].
  split; [intros E; rewrite E in H2; simpl in H2; lia|].
  set (c1 := memmove_extent_buffer dst _ _ _). split.
  - apply (node_intro _ _ (Z.of_nat (length D) + n)).
    + apply set_nritems_get_node. lia.
    + rewrite length_app. lia.
    + apply holds_ptrs_app.
      * apply (holds_ptrs_move src _ (Z.of_nat (length S) - n)).
        -- rewrite <- H1. apply (repr_holds src (take k S) _ []). by rewrite app_nil_r, Hs.
        -- intros x Hx. rewrite H2 in Hx. node_moved.
      * rewrite Z.add_0_l, H2. apply (holds_ptrs_move dst _ 0); [apply (nr_ptrs _ _ _ HD)|].
        intros x Hx. transitivity (c1 (btrfs_node_key_ptr_offset n + x)); [node_untouched|unfold c1; node_moved].
    + rewrite length_app. lia.
  - apply (node_intro _ _ (Z.of_nat (length S) - n)).
    + apply set_nritems_get_node. lia.
    + lia.
    + apply (holds_ptrs_move src _ 0).
      * apply (repr_holds src [] _ (drop k S)). simpl. by rewrite Hs.
      * intros x Hx. node_untouched.
    + lia.
Qed.

(** ** One pointer *)

Lemma insert_ptr_node_spec b A B transid key bytenr :
  node_repr root b (A ++ B) -> key_ok key -> 0 <= bytenr < 2 ^ 64 -> 0 < transid < 2 ^ 64 ->
  Z.of_nat (length (A ++ B)) < BTRFS_NODEPTRS_PER_BLOCK root ->
  exists b', insert_ptr_node root transid b key bytenr (Z.of_nat (length A)) = Some b' /\
    node_repr root b' (A ++ KeyPtr key bytenr transid :: B).
Proof using Hroot.
  intros Hr Hk Hby Htr Hfit. pose proof capacity_bounds as Hcap. unfold insert_ptr_node.
  rewrite (nr_nritems _ _ _ Hr). rewrite length_app in *. node_unwrap.
  rewrite (proj2 (Z.ltb_ge _ _)), (proj2 (Z.eqb_neq _ (BTRFS_NODEPTRS_PER_BLOCK root))), (proj2 (Z.eqb_neq transid 0)) by lia.
  eexists. split; [reflexivity|]. set (c1 := if negb _ then _ else b).
  set (c2 := btrfs_set_node_ptr_generation _ _ _).
  assert (Hc2 : forall x, x < btrfs_node_key_ptr_offset (Z.of_nat (length A)) \/
      btrfs_node_key_ptr_offset (Z.of_nat (length A) + 1) <= x -> c2 x = c1 x).
  { intros x Hx. unfold c2, btrfs_set_node_ptr_generation, btrfs_set_node_blockptr.
    transitivity (btrfs_set_node_key c1 key (Z.of_nat (length A)) x); [node_untouched|].
    unfold btrfs_set_node_key. apply write_disk_key_outside. node_lia. }
  assert (Hnew : node_ptr c2 (Z.of_nat (length A)) = KeyPtr key bytenr transid).
  { unfold node_ptr, c2, btrfs_node_key, btrfs_node_blockptr, btrfs_node_ptr_generation,
      btrfs_set_node_ptr_generation, btrfs_set_node_blockptr. f_equal.
    - transitivity (read_disk_key (btrfs_set_node_key c1 key (Z.of_nat (length A)))
        (btrfs_node_key_ptr_offset (Z.of_nat (length A)))); [|by apply read_write_disk_key].
      apply read_disk_key_same. node_untouched.
    - rewrite get_put_le_other by lia. by apply (get_put_le_id 8).
    - apply (get_put_le_id 8). lia. }
  apply (node_intro _ _ (Z.of_nat (length A + length B) + 1)).
  - apply set_nritems_get_node. lia.
  - rewrite length_app. simpl. lia.
  - apply holds_ptrs_app.
    + apply (holds_ptrs_move b _ 0); [apply (repr_holds b [] A B Hr)|]. intros x Hx.
      transitivity (c2 (btrfs_node_key_ptr_offset 0 + x)); [node_untouched|]. rewrite Hc2 by node_lia.
      unfold c1. destruct (negb _); [node_untouched|done].
    + rewrite Z.add_0_l. apply (holds_ptrs_app _ _ [KeyPtr key bytenr transid] B).
      * unfold holds_ptrs. simpl. rewrite <- Hnew. f_equal. apply node_ptr_at. intros x Hx. node_untouched.
      * apply (holds_ptrs_move b _ (Z.of_nat (length A))).
        { apply (repr_holds b A B []). by rewrite app_nil_r. }
        intros x Hx. simpl length. transitivity (c2 (btrfs_node_key_ptr_offset (Z.of_nat (length A) + Z.of_nat 1) + x));
          [node_untouched|].
        rewrite Hc2 by node_lia. unfold c1. rewrite (proj2 (Z.eqb_neq _ _)) by (destruct B; simpl in *; node_lia).
        simpl. node_moved.
  - rewrite length_app. simpl. lia.
Qed.

Lemma del_ptr_node_spec b A x B :
  node_repr root b (A ++ x :: B) -> node_repr root (del_ptr_node b (Z.of_nat (length A))) (A ++ B).
Proof using Hroot.
  intros Hr. pose proof capacity_bounds as Hcap. pose proof (nr_fits _ _ _ Hr) as Hf. unfold del_ptr_node.
  rewrite (nr_nritems _ _ _ Hr). rewrite length_app in *. simpl in *. node_unwrap.
  set (c1 := if negb _ then _ else b).
  apply (node_intro _ _ (Z.of_nat (length A + S (length B)) - 1)).
  - apply set_nritems_get_node. lia.
  - rewrite length_app. lia.
  - apply holds_ptrs_app.
    + apply (holds_ptrs_move b _ 0); [apply (repr_holds b [] A (x :: B) Hr)|]. intros z Hz.
      transitivity (c1 (btrfs_node_key_ptr_offset 0 + z)); [node_untouched|].
      unfold c1. destruct (negb _); [node_untouched|done].
    + rewrite Z.add_0_l. apply (holds_ptrs_move b _ (Z.of_nat (length A) + 1)).
      { replace (Z.of_nat (length A) + 1) with (Z.of_nat (length (A ++ [x]))) by (rewrite length_app; simpl; lia).
        apply (repr_holds b (A ++ [x]) B []). by rewrite app_nil_r, <- (assoc_L (++)). }
      intros z Hz. transitivity (c1 (btrfs_node_key_ptr_offset (Z.of_nat (length A)) + z)); [node_untouched|].
      unfold c1. rewrite (proj2 (Z.eqb_neq _ _)) by (destruct B; simpl in *; node_lia). simpl. node_moved.
  - rewrite length_app. lia.
Qed.

Lemma split_node_copy_spec c split l :
  node_repr root c l ->
  let mid := ((length l + 1) / 2)%nat in
  exists c' split', split_node_copy c split = (Z.of_nat mid, c', split') /\
    node_repr root c' (take mid l) /\ node_repr root split' (drop mid l) /\
    (forall x, x < 96 -> split' x = split x).
Proof using Hroot.
  intros Hr mid. pose proof capacity_bounds as Hcap. pose proof (nr_fits _ _ _ Hr) as Hf. unfold split_node_copy.
  rewrite (nr_nritems _ _ _ Hr). node_unwrap.
  assert (Hmid : (Z.of_nat (length l) + 1) / 2 = Z.of_nat mid)
    by (unfold mid; rewrite Nat2Z.inj_div; f_equal; lia).
  rewrite Hmid. assert (Hle : (mid <= length l)%nat) by zlia. clearbody mid. clear Hmid.
  assert (H1 : length (take mid l) = mid) by (rewrite length_take; lia).
  assert (H2 : Z.of_nat (length (drop mid l)) = Z.of_nat (length l) - Z.of_nat mid) by (rewrite length_drop; lia).
  pose proof (take_drop mid l) as Hs.
  eexists _, _. split; [reflexivity|]. split; [|split].
  - apply (node_intro _ _ (Z.of_nat mid)).
    + apply set_nritems_get_node. lia.
    + lia.
    + apply (holds_ptrs_move c _ 0); [apply (repr_holds c [] _ (drop mid l)); simpl; by rewrite Hs|].
      intros x Hx. node_untouched.
    + lia.
  - apply (node_intro _ _ (Z.of_nat (length l) - Z.of_nat mid)).
    + apply set_nritems_get_node. lia.
    + lia.
    + apply (holds_ptrs_move c _ (Z.of_nat mid)).
      * rewrite <- H1 at 1. apply (repr_holds c (take mid l) _ []). by rewrite app_nil_r, Hs.
      * intros x Hx. rewrite H2 in Hx. node_moved.
    + lia.
  - intros x Hx. node_untouched.
Qed.
End Node.
