(* ===== verification/LeafProps.v ===== *)
(** What [ctree.c] guarantees of one leaf: searching, inserting, deleting,
    resizing and splitting are the list operations they stand for. *)

From stdpp Require Import sorting.
From S2P Require Import Prelude Buf CtreeFmt LeafOps LeafSpec LeafResize.

Implicit Types (b : buf) (l A B X : list item) (root : btrfs_root) (k key : btrfs_key).

(** The room that is left for item headers and data. *)
Definition room (root : btrfs_root) (l : list item) : Z :=
  BTRFS_LEAF_DATA_SIZE root - sizeof_item * Z.of_nat (length l) - dsize l.

(** ** A leaf to apply the theorems to *)

Definition small_root : btrfs_root := BtrfsRoot 4096 4096.
Definition key1 : btrfs_key := BtrfsKey 256 1 0.
Definition key2 : btrfs_key := BtrfsKey 256 12 256.
Definition key3 : btrfs_key := BtrfsKey 256 108 0.
Definition item1 : item := (key1, [1; 2; 3]).
Definition item2 : item := (key2, [4; 5; 6; 7]).

Definition put_item (root : btrfs_root) (b : buf) (x : item) : buf :=
  match insert_empty_items_leaf root b (btrfs_header_nritems b) [(fst x, Z.of_nat (length (snd x)))] with
  | Some b' => write_extent_buffer b' (snd x) (btrfs_item_ptr_offset b' (btrfs_header_nritems b))
  | None => b
  end.

Definition small_leaf : buf := put_item small_root (put_item small_root (fun _ => 0) item1) item2.

Lemma small_root_ok : root_ok small_root.
Proof. unfold root_ok. simpl. lia. Qed.

Lemma small_leaf_repr : leaf_repr small_root small_leaf [item1; item2].
Proof. split; vm_compute; congruence. Qed.

Lemma small_leaf_sorted : sorted_keys ([item1; item2].*1).
Proof. repeat constructor. Qed.

(** ** Search and insertion *)

(** C26: [bin_search] for a key a sorted leaf does not hold, then
    [btrfs_insert_empty_items] of that key at the slot: the search answers 1,
    the insertion adds one item of the size asked for, at the place that keeps
    the leaf sorted, and takes exactly its header and its size from the free
    space; without that much room the insertion is a [BUG]. *)
Theorem leaf_search_insert root b l key size
  (Hroot : root_ok root) (Hr : leaf_repr root b l) (Hs : sorted_keys (l.*1))
  (Hkey : key_ok key /\ key ∉ l.*1) (Hsize : 0 <= size < 65536) :
  exists slot, bin_search b key 0 = Some (1, slot) /\
    if decide (sizeof_item + size <= room root l)
    then exists b' A B d, l = A ++ B /\ insert_empty_items_leaf root b slot [(key, size)] = Some b' /\
      Z.of_nat (length d) = size /\ leaf_repr root b' (A ++ (key, d) :: B) /\
      sorted_keys ((A ++ (key, d) :: B).*1) /\
      btrfs_leaf_free_space root b' = Some (room root l - sizeof_item - size)
    else insert_empty_items_leaf root b slot [(key, size)] = None.
Proof.
  destruct Hkey as [Hok Hnin]. destruct (bin_search_leaf root Hroot b l key) as (r & slot & Hb & Hf); [done..|].
  pose proof (found_1 _ _ _ _ Hf Hnin) as ->.
  destruct Hf as (k1 & k2 & -> & H1 & H2 & [[? _]|[_ Hl]]); [done|].
  apply fmap_app_inv in Hl as (A & B & -> & -> & ->).
  rewrite length_fmap in *. exists (Z.of_nat (length A)). split; [done|].
  assert (Hks : keys_ok [(key, size)]) by (unfold keys_ok; rewrite Forall_singleton; simpl; split; [done|lia]).
  pose proof (repr_bounds root Hroot _ _ Hr) as Hbd.
  unfold room. case_decide as Hroom.
  - destruct (insert_leaf_spec root Hroot b A B [(key, size)] Hr Hks) as (b' & X & Hi & HX & Hr').
    { simpl. leaf_lia. }
    apply Forall2_cons_inv_r in HX as ([k d] & X' & [Hk Hd] & HX & ->). apply Forall2_nil_inv_r in HX as ->.
    simpl in Hk, Hd. subst k. simpl in Hr'. exists b', A, B, d. split_and!; [done|done|done|done| |].
    + rewrite fmap_app in *. by apply sorted_insert.
    + rewrite (repr_free_space root Hroot _ _ Hr'), !dsize_app, !length_app. simpl. f_equal. lia.
  - unfold insert_empty_items_leaf. rewrite sum_sizes_total, (repr_free_space root Hroot _ _ Hr) by (simpl; done || lia).
    cbn [mbind option_bind]. simpl total. simpl length. unwrap. rewrite (proj2 (Z.ltb_lt _ _)) by leaf_lia. done.
Qed.

Lemma leaf_search_insert_witness :
  exists b' A B d, [item1; item2] = A ++ B /\
    insert_empty_items_leaf small_root small_leaf 2 [(key3, 10)] = Some b' /\
    leaf_repr small_root b' (A ++ (key3, d) :: B).
Proof.
  destruct (leaf_search_insert small_root small_leaf [item1; item2] key3 10) as (slot & Hb & Hi).
  - apply small_root_ok.
  - apply small_leaf_repr.
  - apply small_leaf_sorted.
  - split; [unfold key_ok; simpl; lia|]. apply (bool_decide_unpack _). vm_compute. exact I.
  - lia.
  - rewrite decide_True in Hi by (vm_compute; congruence).
    destruct Hi as (b' & A & B & d & Hl & Hins & _ & Hr' & _). vm_compute in Hb. injection Hb as <-.
    exists b', A, B, d. auto.
Defined.

(** ** Deletion *)

(** [bin_search] for a key of a sorted leaf, then [btrfs_del_items] of one item
    at the slot: the search answers 0, exactly that item is gone, every other
    item keeps its key and data, and the key is no longer found. *)
Theorem leaf_search_delete root b l key
  (Hroot : root_ok root) (Hr : leaf_repr root b l) (Hs : sorted_keys (l.*1)) (Hkey : key ∈ l.*1) :
  exists A d B, l = A ++ (key, d) :: B /\ bin_search b key 0 = Some (0, Z.of_nat (length A)) /\
    let b' := del_items_leaf root b (Z.of_nat (length A)) 1 in
    leaf_repr root b' (A ++ B) /\ sorted_keys ((A ++ B).*1) /\
    bin_search b' key 0 = Some (1, Z.of_nat (length A)).
Proof.
  destruct (bin_search_leaf root Hroot b l key) as (r & slot & Hb & k1 & k2 & -> & H1 & H2 & Hl); [done..|].
  destruct Hl as [[-> Hl]|[_ Hl]].
  2: { exfalso. rewrite Hl in Hkey. by apply (not_around k1 k2 key). }
  apply fmap_app_inv in Hl as (A & B' & -> & HB & ->). symmetry in HB.
  apply fmap_cons_inv in HB as ([k d] & B & Hk & -> & ->). simpl in Hk. subst k.
  rewrite length_fmap in *. exists A, d, B. split; [done|]. split; [done|]. cbv zeta.
  pose proof (del_items_spec root Hroot b A [(key, d)] B Hr ltac:(done)) as Hr'. simpl in Hr'.
  change (Z.of_nat 1) with 1 in Hr'.
  assert (Hs' : sorted_keys ((A ++ B).*1)) by (rewrite !fmap_app in *; by eapply sorted_delete).
  split; [done|]. split; [done|].
  destruct (bin_search_leaf root Hroot _ _ key Hr' Hs') as (r & slot & Hb' & Hf).
  assert (Hnin : key ∉ (A ++ B).*1).
  { rewrite fmap_app. by apply not_around. }
  pose proof (found_1 _ _ _ _ Hf Hnin) as ->. rewrite Hb'. f_equal. f_equal.
  destruct Hf as (k1 & k2 & -> & G1 & G2 & [[? _]|[_ Hl]]); [done|]. f_equal.
  rewrite <- (length_fmap fst A). rewrite fmap_app in Hl. by eapply split_unique.
Qed.

Lemma leaf_search_delete_witness :
  key1 ∈ [item1; item2].*1 /\
  exists A d B, [item1; item2] = A ++ (key1, d) :: B /\
    leaf_repr small_root (del_items_leaf small_root small_leaf (Z.of_nat (length A)) 1) (A ++ B).
Proof.
  assert (Hin : key1 ∈ [item1; item2].*1) by left. split; [done|].
  destruct (leaf_search_delete small_root small_leaf [item1; item2] key1) as (A & d & B & Hl & _ & Hr & _).
  - apply small_root_ok.
  - apply small_leaf_repr.
  - apply small_leaf_sorted.
  - done.
  - exists A, d, B. auto.
Defined.

(** Inserting any number of items at any slot and deleting them again with
    [btrfs_del_items] gives back the items of the leaf. *)
Theorem leaf_insert_delete_roundtrip root b A B ks
  (Hroot : root_ok root) (Hr : leaf_repr root b (A ++ B)) (Hks : keys_ok ks) (Hne : ks <> [])
  (Hfit : sizeof_item * Z.of_nat (length ks) + total ks <= room root (A ++ B)) :
  exists b', insert_empty_items_leaf root b (Z.of_nat (length A)) ks = Some b' /\
    leaf_repr root (del_items_leaf root b' (Z.of_nat (length A)) (Z.of_nat (length ks))) (A ++ B).
Proof.
  unfold room in Hfit.
  destruct (insert_leaf_spec root Hroot b A B ks) as (b' & X & Hi & HX & Hr'); [done|done|leaf_lia|].
  exists b'. split; [done|]. pose proof (Forall2_length _ _ _ HX) as <-.
  apply (del_items_spec root Hroot b' A X B Hr'). intros ->. by apply Forall2_nil_inv_l in HX.
Qed.

Lemma leaf_insert_delete_roundtrip_witness :
  exists b', insert_empty_items_leaf small_root small_leaf 1 [(key3, 10); (key3, 0)] = Some b' /\
    leaf_repr small_root (del_items_leaf small_root b' 1 2) [item1; item2].
Proof.
  apply (leaf_insert_delete_roundtrip small_root small_leaf [item1] [item2] [(key3, 10); (key3, 0)]).
  - apply small_root_ok.
  - apply small_leaf_repr.
  - repeat constructor; simpl; lia.
  - done.
  - vm_compute. congruence.
Defined.

(** ** Resizing *)

(** [btrfs_truncate_item]: from the end it keeps the first bytes of the data;
    from the front it keeps the last ones, the header of an inline file extent
    excepted, advances the offset of the key by what was cut, and reports the
    new key when the item is the first of the leaf. No other item changes. *)
Theorem leaf_truncate_correct root b A k d B n
  (Hroot : root_ok root) (Hr : leaf_repr root b (A ++ (k, d) :: B)) (Hn : 0 <= n < Z.of_nat (length d)) :
  (exists b', truncate_item_leaf root b (Z.of_nat (length A)) n true = Some (b', None) /\
     leaf_repr root b' (A ++ (k, take (Z.to_nat n) d) :: B)) /\
  ((type k = BTRFS_EXTENT_DATA_KEY -> 21 <= n) -> key_ok k ->
   exists b', truncate_item_leaf root b (Z.of_nat (length A)) n false =
       Some (b', if Z.of_nat (length A) =? 0 then Some (advanced_key k (Z.of_nat (length d) - n)) else None) /\
     leaf_repr root b' (A ++ (advanced_key k (Z.of_nat (length d) - n), cut_front k d n) :: B)).
Proof. split; intros; [by apply truncate_end_spec|by apply truncate_front_spec]. Qed.

Lemma leaf_truncate_correct_witness :
  (exists b', truncate_item_leaf small_root small_leaf 1 1 true = Some (b', None) /\
     leaf_repr small_root b' [item1; (key2, [4])]) /\
  (exists b', truncate_item_leaf small_root small_leaf 1 1 false = Some (b', None) /\
     leaf_repr small_root b' [item1; (BtrfsKey 256 12 259, [7])]).
Proof.
  destruct (leaf_truncate_correct small_root small_leaf [item1] key2 [4; 5; 6; 7] [] 1) as [H1 H2].
  - apply small_root_ok.
  - apply small_leaf_repr.
  - simpl. lia.
  - split; [exact H1|]. apply H2; [done|unfold key_ok; simpl; lia].
Defined.

(** [btrfs_extend_item] keeps the data and appends the bytes asked for;
    [btrfs_truncate_item] back to the old size undoes it. *)
Theorem leaf_extend_truncate root b A k d B n
  (Hroot : root_ok root) (Hr : leaf_repr root b (A ++ (k, d) :: B))
  (Hn : 0 < n <= room root (A ++ (k, d) :: B)) :
  exists b' d' b'', extend_item_leaf root b (Z.of_nat (length A)) n = Some b' /\
    Z.of_nat (length d') = n /\ leaf_repr root b' (A ++ (k, d ++ d') :: B) /\
    truncate_item_leaf root b' (Z.of_nat (length A)) (Z.of_nat (length d)) true = Some (b'', None) /\
    leaf_repr root b'' (A ++ (k, d) :: B).
Proof.
  unfold room in Hn.
  destruct (extend_item_spec root Hroot b A k d B n Hr) as (b' & d' & He & Hd' & Hr'); [lia..|].
  destruct (truncate_end_spec root Hroot b' A k (d ++ d') B (Z.of_nat (length d)) Hr') as (b'' & Ht & Hr'').
  { rewrite length_app. lia. }
  rewrite Nat2Z.id, take_app_length in Hr''. eauto 10.
Qed.

Lemma leaf_extend_truncate_witness :
  exists b' d' b'', extend_item_leaf small_root small_leaf 0 5 = Some b' /\
    Z.of_nat (length d') = 5 /\ leaf_repr small_root b' [(key1, [1; 2; 3] ++ d'); item2] /\
    truncate_item_leaf small_root b' 0 3 true = Some (b'', None) /\
    leaf_repr small_root b'' [item1; item2].
Proof.
  apply (leaf_extend_truncate small_root small_leaf [] key1 [1; 2; 3] [item2] 5).
  - apply small_root_ok.
  - apply small_leaf_repr.
  - split; [lia|]. vm_compute. congruence.
Defined.

(** [btrfs_split_item] on a leaf with room for one more header cuts the data
    in two; a new key between the old one and the next keeps the leaf sorted. *)
Theorem leaf_split_item_correct root b A k d B nk n
  (Hroot : root_ok root) (Hr : leaf_repr root b (A ++ (k, d) :: B)) (Hnk : key_ok nk)
  (Hn : 0 <= n <= Z.of_nat (length d)) (Hfit : sizeof_item <= room root (A ++ (k, d) :: B)) :
  exists b', split_item_leaf root b (Z.of_nat (length A)) nk n = Some b' /\
    let l' := A ++ (k, take (Z.to_nat n) d) :: (nk, drop (Z.to_nat n) d) :: B in
    leaf_repr root b' l' /\
    (sorted_keys ((A ++ (k, d) :: B).*1) -> key_lt k nk -> Forall (fun x => key_lt nk (fst x)) B ->
     sorted_keys (l'.*1)).
Proof.
  unfold room in Hfit. destruct (split_item_spec root Hroot b A k d B nk n Hr Hnk Hn) as (b' & Hb & Hr'); [lia|].
  exists b'. split; [done|]. cbv zeta. split; [exact Hr'|]. intros Hs H1 H2.
  assert (HA : Forall (fun k' => key_lt k' nk) (A.*1)).
  { apply Forall_forall. intros k' Hk'. apply (key_lt_trans _ k); [|done].
    rewrite fmap_app in Hs. apply (StronglySorted_app_1_elem_of _ _ _ _ _ Hs); [done|by left]. }
  rewrite fmap_app in *. simpl in *. rewrite cons_middle, (assoc_L (++)) in *. apply sorted_insert; [done| |].
  - apply Forall_app. split; [done|]. by constructor.
  - by apply Forall_fmap.
Qed.

Lemma leaf_split_item_correct_witness :
  exists b', split_item_leaf small_root small_leaf 0 (BtrfsKey 256 1 2) 2 = Some b' /\
    leaf_repr small_root b' [(key1, [1; 2]); (BtrfsKey 256 1 2, [3]); item2] /\
    sorted_keys ([(key1, [1; 2]); (BtrfsKey 256 1 2, [3]); item2].*1).
Proof.
  destruct (leaf_split_item_correct small_root small_leaf [] key1 [1; 2; 3] [item2] (BtrfsKey 256 1 2) 2)
    as (b' & Hb & Hr & Hs).
  - apply small_root_ok.
  - apply small_leaf_repr.
  - unfold key_ok. simpl. lia.
  - simpl. lia.
  - vm_compute. congruence.
  - exists b'. split; [exact Hb|]. split; [exact Hr|]. apply Hs; repeat constructor.
Defined.

(** ** Checking *)

(** [btrfs_check_leaf] on a leaf whose items are laid out right: it answers 0
    exactly when the first key is the parent's and all neighbours but the last
    pair are in order. *)
Theorem check_leaf_misses_last_pair root b l pk first
  (Hroot : root_ok root) (Hr : leaf_repr root b l) (Hlevel : btrfs_header_level b = 0)
  (Hfirst : head (l.*1) = Some first) :
  fst <$> btrfs_check_leaf root pk b (leafsize root) = Some 0 <->
  parent_key_ok pk first = true /\
  forall j k k', (S (S j) < length l)%nat -> l.*1 !! j = Some k -> l.*1 !! S j = Some k' -> key_lt k k'.
Proof.
  rewrite (check_leaf_spec root Hroot b l pk first) by done.
  split; intros [H1 H2]; (split; [done|]).
  - intros j k k' Hj. apply H2. lia.
  - intros j k k' Hj. apply H2. lia.
Qed.

Definition unsorted_leaf : buf := put_item small_root (put_item small_root (fun _ => 0) item2) item1.

Lemma check_leaf_misses_last_pair_witness :
  key_lt key1 key2 /\ fst <$> btrfs_check_leaf small_root None unsorted_leaf 4096 = Some 0.
Proof.
  split; [done|].
  apply (check_leaf_misses_last_pair small_root unsorted_leaf [item2; item1] None key2).
  - apply small_root_ok.
  - split; vm_compute; congruence.
  - reflexivity.
  - reflexivity.
  - split; [done|]. intros j k k' Hj. simpl in Hj. lia.
Defined.
