(* ===== verification/TreeWorld.v ===== *)
(** Trees of blocks: the state that the path functions of [src/ctree.c] work
    on, copy-on-write, and the functions that fix up a path.

    A world holds the extent buffers by the address of their block, the root
    pointer of one tree, one path, and the state of the extent allocator behind
    an interface.  A [struct extent_buffer *] is the address of its block.
    Reference counts of buffers, dirty flags and read-ahead have no effect on
    the contents and are left out. *)

From S2P Require Import Prelude Buf CtreeFmt LeafOps NodeOps.

Record extent_buffer := ExtentBuffer {
  eb_len : Z;
  eb_bad_transid : bool;
  eb_data : buf;
}.

(** What the extent tree can see of the tree that calls it: its blocks and its
    root. *)
Record tree_view := TreeView {
  tv_blocks : gmap Z extent_buffer;
  tv_node : option Z;
}.

(** What [ctree.c] calls in [extent-tree.c].  Every function returns the C
    return value and the new state, or [None] when it ends abnormally;
    [alloc_free_block] returns an error or the address of the block and what its
    buffer held before. *)
Class ExtentTree (X : Type) := {
  alloc_free_block : Z -> btrfs_key -> Z -> Z -> tree_view -> X -> option ((Z + Z * buf) * X);
  free_extent : Z -> Z -> Z -> Z -> tree_view -> X -> option (Z * X);
  lookup_extent_info : Z -> Z -> tree_view -> X -> option ((Z * Z * Z) * X);
  inc_ref : buf -> bool -> tree_view -> X -> option (Z * X);
  dec_ref : buf -> bool -> tree_view -> X -> option (Z * X);
  set_block_flags : Z -> Z -> Z -> tree_view -> X -> option (Z * X);
}.

Definition BTRFS_MAX_LEVEL : Z := 8.
Definition BTRFS_TREE_RELOC_OBJECTID : Z := 2 ^ 64 - 8.
Definition BTRFS_HEADER_FLAG_WRITTEN : Z := 1.
Definition BTRFS_HEADER_FLAG_RELOC : Z := 2.
Definition BTRFS_MIXED_BACKREF_REV : Z := 1.
Definition BTRFS_BLOCK_FLAG_FULL_BACKREF : Z := 2 ^ 8.

(** [struct btrfs_path]: the arrays are functions of the level. *)
Record btrfs_path := BtrfsPath {
  p_nodes : Z -> option Z;
  p_slots : Z -> Z;
  p_lowest_level : Z;
  p_search_for_split : bool;
}.

Definition btrfs_init_path : btrfs_path := BtrfsPath (fun _ => None) (fun _ => 0) 0 false.

(** What the functions read of the transaction, the root and the file system. *)
Record tree_env := TreeEnv {
  te_root : btrfs_root;
  te_objectid : Z;
  te_transid : Z;
  te_generation : Z;
  te_running_transid : Z;
  te_last_trans : Z;
  te_ref_cows : bool;
  te_last_snapshot : Z;
  te_commit_root : option Z;
  te_fsid : list Z;
  te_chunk_tree_uuid : list Z;
}.

Section World.
Context {X : Type} `{ExtentTree X} (env : tree_env).

Record tree_world := TreeWorld {
  tw_blocks : gmap Z extent_buffer;
  tw_node : option Z;
  tw_path : btrfs_path;
  tw_ext : X;
}.

Open Scope act_scope.

(** ** Access *)

Definition with_blocks (w : tree_world) (m : gmap Z extent_buffer) : tree_world :=
  TreeWorld m (tw_node w) (tw_path w) (tw_ext w).
Definition with_path (w : tree_world) (p : btrfs_path) : tree_world :=
  TreeWorld (tw_blocks w) (tw_node w) p (tw_ext w).

Definition eb_get (b : Z) : act tree_world extent_buffer := deref (fun w => tw_blocks w !! b).
Definition eb_read (b : Z) : act tree_world buf := e <- eb_get b ;; ret (eb_data e).
Definition eb_write (b : Z) (d : buf) : act tree_world unit :=
  e <- eb_get b ;;
  modify (fun w => with_blocks w (<[b := ExtentBuffer (eb_len e) (eb_bad_transid e) d]> (tw_blocks w))).
Definition eb_update (b : Z) (f : buf -> buf) : act tree_world unit :=
  d <- eb_read b ;; eb_write b (f d).

Definition root_node : act tree_world (option Z) := gets tw_node.
Definition set_root_node (b : option Z) : act tree_world unit :=
  modify (fun w => TreeWorld (tw_blocks w) b (tw_path w) (tw_ext w)).

(** The arrays of a path have 8 elements. *)
Definition in_path (level : Z) : bool := (0 <=? level) && (level <? BTRFS_MAX_LEVEL).
Definition path_node (level : Z) : act tree_world (option Z) :=
  bug_on (negb (in_path level)) ;;; gets (fun w => p_nodes (tw_path w) level).
Definition path_slot (level : Z) : act tree_world Z :=
  bug_on (negb (in_path level)) ;;; gets (fun w => p_slots (tw_path w) level).

Definition upd {A} (f : Z -> A) (i : Z) (v : A) : Z -> A := fun j => if j =? i then v else f j.

Definition set_path_node (level : Z) (b : option Z) : act tree_world unit :=
  bug_on (negb (in_path level)) ;;;
  modify (fun w => let p := tw_path w in
    with_path w (BtrfsPath (upd (p_nodes p) level b) (p_slots p) (p_lowest_level p) (p_search_for_split p))).
Definition set_path_slot (level : Z) (s : Z) : act tree_world unit :=
  bug_on (negb (in_path level)) ;;;
  modify (fun w => let p := tw_path w in
    with_path w (BtrfsPath (p_nodes p) (upd (p_slots p) level s) (p_lowest_level p) (p_search_for_split p))).

Definition btrfs_release_path : act tree_world unit := modify (fun w => with_path w btrfs_init_path).

(** A call into the extent tree. *)
Definition view (w : tree_world) : tree_view := TreeView (tw_blocks w) (tw_node w).
Definition ext {A} (f : tree_view -> X -> option (A * X)) : act tree_world A := fun w =>
  match f (view w) (tw_ext w) with
  | Some (a, x) => Some (a, TreeWorld (tw_blocks w) (tw_node w) (tw_path w) x)
  | None => None
  end.

(** [btrfs_alloc_free_block]: the new buffer is in the world. *)
Definition btrfs_alloc_free_block (blocksize : Z) (key : btrfs_key) (level hint : Z)
    : act tree_world (Z + Z) :=
  r <- ext (alloc_free_block blocksize key level hint) ;;
  match r with
  | inl err => ret (inl err)
  | inr (b, d) =>
      modify (fun w => with_blocks w (<[b := ExtentBuffer blocksize false d]> (tw_blocks w))) ;;;
      ret (inr b)
  end.

Definition btrfs_free_extent (bytenr num_bytes owner offset : Z) : act tree_world Z :=
  ext (free_extent bytenr num_bytes owner offset).

(** [read_node_slot]; a block that cannot be read is one the world does not
    hold. *)
Definition read_node_slot (parent slot : Z) : act tree_world (option Z) :=
  d <- eb_read parent ;;
  if slot <? 0 then ret None
  else if btrfs_header_nritems d <=? slot then ret None
  else if btrfs_header_level d =? 0 then ret None
  else
    let b := btrfs_node_blockptr d slot in
    gets (fun w => match tw_blocks w !! b with Some _ => Some b | None => None end).

Definition free_space_of (leaf : Z) : act tree_world Z :=
  d <- eb_read leaf ;; assume_some (btrfs_leaf_free_space (te_root env) d).

(** The first key of a block, for the back reference of a new one. *)
Definition first_key (d : buf) : btrfs_key :=
  if btrfs_header_level d =? 0 then btrfs_item_key d 0 else btrfs_node_key d 0.

(** ** Copy on write *)

(** The two [WARN_ON]s on a tree with shared blocks. *)
Definition cow_trans_ok : bool :=
  negb (te_ref_cows env) ||
  ((te_transid env =? te_running_transid env) && (te_transid env =? te_last_trans env)).

Definition btrfs_block_can_be_shared (b : Z) : act tree_world bool :=
  d <- eb_read b ;; root <- root_node ;;
  ret (te_ref_cows env &&
    ((bool_decide (root <> Some b) && bool_decide (te_commit_root env <> Some b) &&
      ((btrfs_header_generation d <=? te_last_snapshot env) ||
       btrfs_header_flag d BTRFS_HEADER_FLAG_RELOC)) ||
     (btrfs_header_backref_rev d <? BTRFS_MIXED_BACKREF_REV))).

(** A reference update that must not fail. *)
Definition must (f : tree_view -> X -> option (Z * X)) : act tree_world unit :=
  r <- ext f ;; bug_on (negb (r =? 0)).

Definition update_ref_for_cow (b cow : Z) : act tree_world Z :=
  shared <- btrfs_block_can_be_shared b ;;
  d <- eb_read b ;;
  cd <- eb_read cow ;;
  let reloc := te_objectid env =? BTRFS_TREE_RELOC_OBJECTID in
  rf <- (if shared : bool then
           i <- ext (lookup_extent_info b (btrfs_header_level d)) ;;
           let '(r, refs, flags) := i in
           bug_on (negb (r =? 0)) ;;; bug_on (refs =? 0) ;;; ret (refs, flags)
         else
           ret (1, if reloc || (btrfs_header_backref_rev d <? BTRFS_MIXED_BACKREF_REV)
                   then BTRFS_BLOCK_FLAG_FULL_BACKREF else 0)) ;;
  let '(refs, flags) := rf in
  let full := negb (Z.land flags BTRFS_BLOCK_FLAG_FULL_BACKREF =? 0) in
  let owner := btrfs_header_owner d in
  bug_on (negb full && (owner =? BTRFS_TREE_RELOC_OBJECTID)) ;;;
  (if 1 <? refs then
     new_flags <- (if ((owner =? te_objectid env) || reloc) && negb full then
                     must (inc_ref d true) ;;;
                     (if reloc : bool then must (dec_ref d false) ;;; must (inc_ref cd true) else ret tt) ;;;
                     ret BTRFS_BLOCK_FLAG_FULL_BACKREF
                   else must (inc_ref cd reloc) ;;; ret 0) ;;
     if negb (new_flags =? 0) then must (set_block_flags b (btrfs_header_level d) new_flags) else ret tt
   else if full then must (inc_ref cd reloc) ;;; must (dec_ref d true)
   else ret tt) ;;;
  ret 0.

(** The header of the copy in [__btrfs_cow_block]. *)
Definition cow_header (cow : Z) (d : buf) : buf :=
  let d := btrfs_set_header_bytenr d cow in
  let d := btrfs_set_header_generation d (te_transid env) in
  let d := btrfs_set_header_backref_rev d BTRFS_MIXED_BACKREF_REV in
  let d := btrfs_clear_header_flag d (Z.lor BTRFS_HEADER_FLAG_WRITTEN BTRFS_HEADER_FLAG_RELOC) in
  let d := if te_objectid env =? BTRFS_TREE_RELOC_OBJECTID
           then btrfs_set_header_flag d BTRFS_HEADER_FLAG_RELOC
           else btrfs_set_header_owner d (te_objectid env) in
  write_extent_buffer d (te_fsid env) btrfs_header_fsid.

(** [__btrfs_cow_block]: the error, or the copy. *)
Definition __btrfs_cow_block (b : Z) (parent : option Z) (parent_slot search_start : Z)
    : act tree_world (Z + Z) :=
  bug_on (negb cow_trans_ok) ;;;
  e <- eb_get b ;;
  let d := eb_data e in
  let level := btrfs_header_level d in
  a <- btrfs_alloc_free_block (eb_len e) (first_key d) level search_start ;;
  match a with
  | inl err => ret (inl err)
  | inr cow =>
      eb_update cow (fun c => cow_header cow (copy_extent_buffer c d 0 0 (eb_len e))) ;;;
      bug_on (negb (eb_bad_transid e) && (te_transid env <? btrfs_header_generation d)) ;;;
      update_ref_for_cow b cow ;;;
      root <- root_node ;;
      (if bool_decide (root = Some b) then
         set_root_node (Some cow) ;;;
         btrfs_free_extent b (eb_len e) level 0
       else
         parent <- assume_some parent ;;
         eb_update parent (fun pd => btrfs_set_node_blockptr pd parent_slot cow) ;;;
         bug_on (te_transid env =? 0) ;;;
         eb_update parent (fun pd => btrfs_set_node_ptr_generation pd parent_slot (te_transid env)) ;;;
         pd <- eb_read parent ;;
         bug_on (negb (btrfs_header_generation pd =? te_transid env)) ;;;
         btrfs_free_extent b (eb_len e) level 1) ;;;
      ret (inr cow)
  end.

Definition should_cow_block (b : Z) : act tree_world bool :=
  d <- eb_read b ;;
  ret (negb ((btrfs_header_generation d =? te_transid env) &&
    negb (btrfs_header_flag d BTRFS_HEADER_FLAG_WRITTEN) &&
    negb (negb (te_objectid env =? BTRFS_TREE_RELOC_OBJECTID) &&
          btrfs_header_flag d BTRFS_HEADER_FLAG_RELOC))).

Definition btrfs_cow_block (b : Z) (parent : option Z) (parent_slot : Z) : act tree_world (Z + Z) :=
  bug_on (negb (te_transid env =? te_generation env)) ;;;
  should <- should_cow_block b ;;
  if negb should then ret (inr b)
  else
    let search_start := Z.land b (u64 (Z.lnot (2 ^ 30 - 1))) in
    __btrfs_cow_block b parent parent_slot search_start.

(** ** Keys along a path *)

(** [check_block] of [path->nodes[level]]. *)
Definition check_block (level : Z) : act tree_world Z :=
  parent <- path_node (level + 1) ;;
  key_ptr <- match parent with
             | Some p =>
                 pd <- eb_read p ;; s <- path_slot (level + 1) ;; ret (Some (btrfs_node_key pd s))
             | None => ret None
             end ;;
  n <- path_node level ;;
  b <- assume_some n ;;
  e <- eb_get b ;;
  if level =? 0 then
    r <- assume_some (btrfs_check_leaf (te_root env) key_ptr (eb_data e) (eb_len e)) ;; ret (fst r)
  else ret (fst (btrfs_check_node (te_root env) key_ptr (eb_data e))).

(** [fixup_low_keys] from level [i] up, [n] levels. *)
Fixpoint fixup_low_keys_loop (n : nat) (key : btrfs_key) (i : Z) : act tree_world Z :=
  match n with
  | O => ret 0
  | S n =>
      tslot <- path_slot i ;;
      t <- path_node i ;;
      match t with
      | None => ret 0
      | Some t =>
          eb_update t (fun d => btrfs_set_node_key d key tslot) ;;;
          if negb (tslot =? 0) then ret 0 else fixup_low_keys_loop n key (i + 1)
      end
  end.

Definition fixup_low_keys (key : btrfs_key) (level : Z) : act tree_world Z :=
  fixup_low_keys_loop (Z.to_nat (BTRFS_MAX_LEVEL - level)) key level.

Definition btrfs_set_item_key_safe (new_key : btrfs_key) : act tree_world Z :=
  n <- path_node 0 ;;
  eb <- assume_some n ;;
  slot <- path_slot 0 ;;
  d <- eb_read eb ;;
  if (0 <? slot) && (0 <=? btrfs_comp_keys (btrfs_item_key d (slot - 1)) new_key) then ret (-1)
  else if (u32 slot <? u32 (btrfs_header_nritems d - 1)) &&
          (btrfs_comp_keys (btrfs_item_key d (slot + 1)) new_key <=? 0) then ret (-1)
  else
    eb_write eb (btrfs_set_item_key d new_key slot) ;;;
    (if slot =? 0 then fixup_low_keys new_key 1 else ret 0) ;;;
    ret 0.

(** [insert_ptr] *)
Definition insert_ptr (key : btrfs_key) (bytenr slot level : Z) : act tree_world Z :=
  n <- path_node level ;;
  lower <- assume_some n ;;
  d <- eb_read lower ;;
  d <- assume_some (insert_ptr_node (te_root env) (te_transid env) d key bytenr slot) ;;
  eb_write lower d ;;;
  ret 0.

Definition btrfs_del_ptr (level slot : Z) : act tree_world Z :=
  n <- path_node level ;;
  parent <- assume_some n ;;
  eb_update parent (fun d => del_ptr_node d slot) ;;;
  d <- eb_read parent ;;
  root <- root_node ;;
  if (btrfs_header_nritems d =? 0) && bool_decide (root = Some parent) then
    bug_on (negb (btrfs_header_level d =? 1)) ;;;
    eb_update parent (fun d => btrfs_set_header_level d 0) ;;;
    ret 0
  else if slot =? 0 then fixup_low_keys (btrfs_node_key d 0) (level + 1)
  else ret 0.
End World.

#[global] Arguments tree_world : clear implicits.
