(* ===== verification/TreeBalance.v ===== *)
(** Making room in a tree: the functions of [src/ctree.c] that move items
    and pointers between the block of a path and its neighbours, and that split
    blocks. *)

From S2P Require Import Prelude Buf CtreeFmt ItemFmt LeafOps LeafPush NodeOps TreeWorld.

Section Balance.
Context {X : Type} `{ExtentTree X} (env : tree_env).
Open Scope act_scope.

Abbreviation world := (tree_world X).
Abbreviation root := (te_root env).
Abbreviation transid := (te_transid env).

(** A block of the path that has to be there. *)
Definition path_block (level : Z) : act world Z := n <- path_node level ;; assume_some n.

(** [int] difference of a slot. *)
Definition add_path_slot (level delta : Z) : act world unit :=
  s <- path_slot level ;; set_path_slot level (s + delta).

(** ** New blocks *)

(** The header [insert_new_root] gives the new root [c]. *)
Definition new_root_block (c level : Z) (lower : Z) (lower_key : btrfs_key) (lower_gen : Z) (d : buf) : buf :=
  let d := memset_extent_buffer d 0 0 sizeof_header in
  let d := btrfs_set_header_nritems d 1 in
  let d := btrfs_set_header_level d level in
  let d := btrfs_set_header_bytenr d c in
  let d := btrfs_set_header_generation d transid in
  let d := btrfs_set_header_backref_rev d BTRFS_MIXED_BACKREF_REV in
  let d := btrfs_set_header_owner d (te_objectid env) in
  let d := write_extent_buffer d (te_fsid env) btrfs_header_fsid in
  let d := write_extent_buffer d (te_chunk_tree_uuid env) btrfs_header_chunk_tree_uuid in
  let d := btrfs_set_node_key d lower_key 0 in
  let d := btrfs_set_node_blockptr d 0 lower in
  btrfs_set_node_ptr_generation d 0 lower_gen.

Definition insert_new_root (level : Z) : act world Z :=
  n <- path_node level ;;
  bug_on (bool_decide (n <> None)) ;;;
  lower <- path_node (level - 1) ;;
  old <- root_node ;;
  bug_on (bool_decide (lower <> old)) ;;;
  lower <- assume_some lower ;;
  ld <- eb_read lower ;;
  let lower_key := if level =? 1 then btrfs_item_key ld 0 else btrfs_node_key ld 0 in
  a <- btrfs_alloc_free_block (nodesize root) lower_key level lower ;;
  match a with
  | inl err => ret err
  | inr c =>
      ld <- eb_read lower ;;
      let lower_gen := btrfs_header_generation ld in
      bug_on (negb (lower_gen =? transid)) ;;;
      eb_update c (new_root_block c level lower lower_key lower_gen) ;;;
      set_root_node (Some c) ;;;
      set_path_node level (Some c) ;;;
      set_path_slot level 0 ;;;
      ret 0
  end.

(** The header [split_node] gives the new node. *)
Definition split_node_header (split level : Z) (d : buf) : buf :=
  let d := memset_extent_buffer d 0 0 sizeof_header in
  let d := btrfs_set_header_level d level in
  let d := btrfs_set_header_bytenr d split in
  let d := btrfs_set_header_generation d transid in
  let d := btrfs_set_header_backref_rev d BTRFS_MIXED_BACKREF_REV in
  let d := btrfs_set_header_owner d (te_objectid env) in
  let d := write_extent_buffer d (te_fsid env) btrfs_header_fsid in
  write_extent_buffer d (te_chunk_tree_uuid env) btrfs_header_chunk_tree_uuid.

(** The header [split_leaf] gives the new leaf. *)
Definition split_leaf_header (rb : Z) (d : buf) : buf :=
  let d := memset_extent_buffer d 0 0 sizeof_header in
  let d := btrfs_set_header_bytenr d rb in
  let d := btrfs_set_header_generation d transid in
  let d := btrfs_set_header_backref_rev d BTRFS_MIXED_BACKREF_REV in
  let d := btrfs_set_header_owner d (te_objectid env) in
  let d := btrfs_set_header_level d 0 in
  let d := write_extent_buffer d (te_fsid env) btrfs_header_fsid in
  write_extent_buffer d (te_chunk_tree_uuid env) btrfs_header_chunk_tree_uuid.

(** ** Between nodes *)

(** Run a push between two nodes of the world. *)
Definition push_nodes (f : buf -> buf -> option (Z * buf * buf)) (dst src : Z) : act world Z :=
  dd <- eb_read dst ;; sd <- eb_read src ;;
  r <- assume_some (f dd sd) ;;
  let '(r, dd, sd) := r in
  eb_write dst dd ;;; eb_write src sd ;;; ret r.

Definition tree_push_node_left (dst src : Z) (empty : bool) : act world Z :=
  push_nodes (fun d s => push_node_left root transid d s empty) dst src.
Definition tree_balance_node_right (dst src : Z) : act world Z :=
  push_nodes (balance_node_right root transid) dst src.

Definition nritems_of (b : Z) : act world Z := d <- eb_read b ;; ret (btrfs_header_nritems d).

(** The parent's key of a child becomes the child's first key. *)
Definition copy_low_key (parent child pslot : Z) : act world unit :=
  d <- eb_read child ;;
  eb_update parent (fun pd => btrfs_set_node_key pd (btrfs_node_key d 0) pslot).

(** The left half of [push_nodes_for_insert]: [true] when it made room. *)
Definition push_for_insert_left (level mid parent pslot orig_slot : Z) : act world bool :=
  lb <- read_node_slot parent (pslot - 1) ;;
  match lb with
  | None => ret false
  | Some lb =>
      left_nr <- nritems_of lb ;;
      wl <- (if BTRFS_NODEPTRS_PER_BLOCK root - 1 <=? left_nr then ret (1, lb)
             else
               c <- btrfs_cow_block env lb (Some parent) (pslot - 1) ;;
               match c with
               | inl _ => ret (1, lb)
               | inr lb => w <- tree_push_node_left lb mid false ;; ret (w, lb)
               end) ;;
      let '(wret, lb) := wl in
      if negb (wret =? 0) then ret false
      else
        let orig_slot := orig_slot + left_nr in
        copy_low_key parent mid pslot ;;;
        n <- nritems_of lb ;;
        (if orig_slot <? n then
           set_path_node level (Some lb) ;;;
           add_path_slot (level + 1) (-1) ;;;
           set_path_slot level orig_slot
         else set_path_slot level (orig_slot - n)) ;;;
        ret true
  end.

(** The right half. *)
Definition push_for_insert_right (level mid parent pslot orig_slot : Z) : act world bool :=
  rb <- read_node_slot parent (pslot + 1) ;;
  match rb with
  | None => ret false
  | Some rb =>
      right_nr <- nritems_of rb ;;
      wr <- (if BTRFS_NODEPTRS_PER_BLOCK root - 1 <=? right_nr then ret (1, rb)
             else
               c <- btrfs_cow_block env rb (Some parent) (pslot + 1) ;;
               match c with
               | inl _ => ret (1, rb)
               | inr rb => w <- tree_balance_node_right rb mid ;; ret (w, rb)
               end) ;;
      let '(wret, rb) := wr in
      if negb (wret =? 0) then ret false
      else
        copy_low_key parent rb (pslot + 1) ;;;
        n <- nritems_of mid ;;
        (if n <=? orig_slot then
           set_path_node level (Some rb) ;;;
           add_path_slot (level + 1) 1 ;;;
           set_path_slot level (orig_slot - n)
         else ret tt) ;;;
        ret true
  end.

Definition push_nodes_for_insert (level : Z) : act world Z :=
  orig_slot <- path_slot level ;;
  if level =? 0 then ret 1
  else
    mid <- path_block level ;;
    md <- eb_read mid ;;
    bug_on (negb (btrfs_header_generation md =? transid)) ;;;
    parent <- (if level <? BTRFS_MAX_LEVEL - 1 then path_node (level + 1) else ret None) ;;
    match parent with
    | None => ret 1
    | Some parent =>
        pslot <- path_slot (level + 1) ;;
        ok <- push_for_insert_left level mid parent pslot orig_slot ;;
        if ok : bool then ret 0
        else
          ok <- push_for_insert_right level mid parent pslot orig_slot ;;
          if ok : bool then ret 0 else ret 1
    end.

(** [split_node] from the split on. *)
Definition split_node_now (level c : Z) : act world Z :=
  cd <- eb_read c ;;
  let mid := u32 (btrfs_header_nritems cd + 1) / 2 in
  let disk_key := btrfs_node_key cd mid in
  a <- btrfs_alloc_free_block (nodesize root) disk_key level c ;;
  match a with
  | inl err => ret err
  | inr split =>
      eb_update split (split_node_header split (btrfs_header_level cd)) ;;;
      sd <- eb_read split ;; cd <- eb_read c ;;
      let '(mid, cd, sd) := split_node_copy cd sd in
      eb_write split sd ;;; eb_write c cd ;;;
      pslot <- path_slot (level + 1) ;;
      r <- insert_ptr env disk_key split (pslot + 1) (level + 1) ;;
      slot <- path_slot level ;;
      (if mid <=? slot then
         set_path_slot level (slot - mid) ;;;
         set_path_node level (Some split) ;;;
         add_path_slot (level + 1) 1
       else ret tt) ;;;
      ret r
  end.

Definition split_node (level : Z) : act world Z :=
  c <- path_block level ;;
  cd <- eb_read c ;;
  bug_on (negb (btrfs_header_generation cd =? transid)) ;;;
  r <- root_node ;;
  if bool_decide (r = Some c) then
    ret1 <- insert_new_root (level + 1) ;;
    if negb (ret1 =? 0) then ret ret1 else split_node_now level c
  else
    r <- push_nodes_for_insert level ;;
    c <- path_block level ;;
    n <- nritems_of c ;;
    if (r =? 0) && (n <? BTRFS_NODEPTRS_PER_BLOCK root - 3) then ret 0
    else if r <? 0 then ret r
    else split_node_now level c.

(** ** Merging nodes on the way down *)

(** A root with one pointer: its child becomes the root. *)
Definition balance_root (level mid : Z) : act world Z :=
  n <- nritems_of mid ;;
  if negb (n =? 1) then ret 0
  else
    child <- read_node_slot mid 0 ;;
    child <- assume_some child ;;
    c <- btrfs_cow_block env child (Some mid) 0 ;;
    match c with
    | inl _ => bug
    | inr child =>
        set_root_node (Some child) ;;;
        set_path_node level None ;;;
        e <- eb_get mid ;;
        btrfs_free_extent mid (eb_len e) level 1
    end.

(** A neighbour, copied on write: none, an error, or the block. *)
Definition cow_neighbour (parent slot : Z) : act world (option (Z + Z)) :=
  b <- read_node_slot parent slot ;;
  match b with
  | None => ret None
  | Some b => c <- btrfs_cow_block env b (Some parent) slot ;; ret (Some c)
  end.

(** Drop an emptied node from its parent. *)
Definition drop_node (level b slot : Z) (r : Z) : act world Z :=
  e <- eb_get b ;;
  w <- btrfs_del_ptr (level + 1) slot ;;
  let r := if negb (w =? 0) then w else r in
  w <- btrfs_free_extent b (eb_len e) level 0 ;;
  ret (if negb (w =? 0) then w else r).

(** "empty the right most buffer into the middle" *)
Definition balance_right (level mid rb parent pslot r : Z) : act world Z :=
  w <- tree_push_node_left mid rb true ;;
  let r := if (w <? 0) && negb (w =? - ENOSPC) then w else r in
  n <- nritems_of rb ;;
  if n =? 0 then drop_node level rb (pslot + 1) r
  else copy_low_key parent rb (pslot + 1) ;;; ret r.

(** No node may be left with one pointer: [inl] is the exit through the label
    [enospc]. *)
Definition balance_single (mid : Z) (lb : option Z) (r : Z) : act world (Z + Z) :=
  n <- nritems_of mid ;;
  if n =? 1 then
    lb <- assume_some lb ;;
    w <- tree_balance_node_right mid lb ;;
    if w <? 0 then ret (inl w)
    else
      wr <- (if w =? 1 then
               w <- tree_push_node_left lb mid true ;; ret (w, if w <? 0 then w else r)
             else ret (w, r)) ;;
      bug_on (fst wr =? 1) ;;;
      ret (inr (snd wr))
  else ret (inr r).

Definition balance_level (level : Z) : act world Z :=
  orig_slot <- path_slot level ;;
  if level =? 0 then ret 0
  else
    mid <- path_block level ;;
    md <- eb_read mid ;;
    bug_on (negb (btrfs_header_generation md =? transid)) ;;;
    let orig_ptr := btrfs_node_blockptr md orig_slot in
    parent <- (if level <? BTRFS_MAX_LEVEL - 1 then path_node (level + 1) else ret None) ;;
    match parent with
    | None => balance_root level mid
    | Some parent =>
      pslot <- path_slot (level + 1) ;;
      if BTRFS_NODEPTRS_PER_BLOCK root / 4 <? btrfs_header_nritems md then ret 0
      else
        l <- cow_neighbour parent (pslot - 1) ;;
        match l with
        | Some (inl err) => ret err
        | _ =>
          let lb := match l with Some (inr b) => Some b | _ => None end in
          rr <- cow_neighbour parent (pslot + 1) ;;
          match rr with
          | Some (inl err) => ret err
          | _ =>
            let rb := match rr with Some (inr b) => Some b | _ => None end in
            or <- match lb with
                  | None => ret (orig_slot, 0)
                  | Some lb =>
                      n <- nritems_of lb ;;
                      w <- tree_push_node_left lb mid true ;;
                      ret (orig_slot + n, if w <? 0 then w else 0)
                  end ;;
            let '(orig_slot, r) := or in
            r <- match rb with
                 | None => ret r
                 | Some rb => balance_right level mid rb parent pslot r
                 end ;;
            s <- balance_single mid lb r ;;
            match s with
            | inl err => ret err
            | inr r =>
              n <- nritems_of mid ;;
              r <- (if n =? 0 then drop_node level mid pslot r
                    else copy_low_key parent mid pslot ;;; ret r) ;;
              match lb with
              | None => ret tt
              | Some lb =>
                  n <- nritems_of lb ;;
                  if orig_slot <? n then
                    set_path_node level (Some lb) ;;;
                    add_path_slot (level + 1) (-1) ;;;
                    set_path_slot level orig_slot
                  else set_path_slot level (orig_slot - n)
              end ;;;
              check_block env level ;;;
              b <- path_block level ;; d <- eb_read b ;; s <- path_slot level ;;
              bug_on (negb (orig_ptr =? btrfs_node_blockptr d s)) ;;;
              ret r
            end
          end
        end
    end.

(** ** Between leaves *)

(** [push_leaf_right] once the right leaf is its own copy with enough room. *)
Definition push_leaf_right_now (lb rb upper slot data_size free_space : Z) (empty : bool) : act world Z :=
  ld <- eb_read lb ;;
  let left_nritems := btrfs_header_nritems ld in
  if left_nritems =? 0 then ret 1
  else
    slot0 <- path_slot 0 ;;
    let nr := if empty then 0 else 1 in
    let '(push_items, _) := push_right_loop (Z.to_nat (left_nritems - 1)) ld slot0 data_size free_space nr 0 0 in
    if push_items =? 0 then ret 1
    else
      bug_on (negb empty && (push_items =? left_nritems)) ;;;
      rd <- eb_read rb ;;
      let '(ld, rd) := push_right_copy root ld rd push_items in
      eb_write rb rd ;;; eb_write lb ld ;;;
      eb_update upper (fun ud => btrfs_set_node_key ud (btrfs_item_key rd 0) (slot + 1)) ;;;
      let left_nritems := u32 (left_nritems - push_items) in
      (if left_nritems <=? slot0 then
         set_path_slot 0 (slot0 - left_nritems) ;;;
         set_path_node 0 (Some rb) ;;;
         add_path_slot 1 1
       else ret tt) ;;;
      ret 0.

Definition push_leaf_right (data_size : Z) (empty : bool) : act world Z :=
  lb <- path_block 0 ;;
  slot <- path_slot 1 ;;
  n <- path_node 1 ;;
  match n with
  | None => ret 1
  | Some upper =>
    un <- nritems_of upper ;;
    if u32 (un - 1) <=? u32 slot then ret 1
    else
      rb <- read_node_slot upper (slot + 1) ;;
      rb <- assume_some rb ;;
      free_space <- free_space_of env rb ;;
      if free_space <? data_size then ret 1
      else
        c <- btrfs_cow_block env rb (Some upper) (slot + 1) ;;
        match c with
        | inl _ => ret 1
        | inr rb =>
            free_space <- free_space_of env rb ;;
            if free_space <? data_size then ret 1
            else push_leaf_right_now lb rb upper slot data_size free_space empty
        end
  end.

(** [push_leaf_left] once the left leaf is its own copy with enough room. *)
Definition push_leaf_left_now (lb rb data_size free_space : Z) (empty : bool) : act world Z :=
  rd <- eb_read rb ;;
  let right_nritems := btrfs_header_nritems rd in
  slot0 <- path_slot 0 ;;
  let nr := if empty then right_nritems else u32 (right_nritems - 1) in
  let '(push_items, _) := push_left_loop (Z.to_nat nr) 0 rd slot0 data_size free_space 0 0 in
  if push_items =? 0 then ret 1
  else
    bug_on (negb empty && (push_items =? right_nritems)) ;;;
    ld <- eb_read lb ;;
    let old_left_nritems := btrfs_header_nritems ld in
    p <- assume_some (push_left_copy root ld rd push_items) ;;
    let '(ld, rd) := p in
    eb_write lb ld ;;; eb_write rb rd ;;;
    r <- fixup_low_keys (btrfs_item_key rd 0) 1 ;;
    (if slot0 <? push_items then
       set_path_slot 0 (slot0 + old_left_nritems) ;;;
       set_path_node 0 (Some lb) ;;;
       add_path_slot 1 (-1)
     else set_path_slot 0 (slot0 - push_items)) ;;;
    s <- path_slot 0 ;;
    bug_on (s <? 0) ;;;
    ret r.

Definition push_leaf_left (data_size : Z) (empty : bool) : act world Z :=
  rb <- path_block 0 ;;
  slot <- path_slot 1 ;;
  if slot =? 0 then ret 1
  else
    n <- path_node 1 ;;
    match n with
    | None => ret 1
    | Some upper =>
      rn <- nritems_of rb ;;
      if rn =? 0 then ret 1
      else
        lb <- read_node_slot upper (slot - 1) ;;
        lb <- assume_some lb ;;
        free_space <- free_space_of env lb ;;
        if free_space <? data_size then ret 1
        else
          c <- btrfs_cow_block env lb (Some upper) (slot - 1) ;;
          match c with
          | inl _ => ret 1
          | inr lb =>
              free_space <- free_space_of env lb ;;
              if free_space <? data_size then ret 1
              else push_leaf_left_now lb rb data_size free_space empty
          end
    end.

Definition copy_for_split (l rb slot mid nritems : Z) : act world Z :=
  ld <- eb_read l ;; rd <- eb_read rb ;;
  let '(ld, rd) := copy_for_split_leaves root ld rd mid nritems in
  eb_write rb rd ;;; eb_write l ld ;;;
  pslot <- path_slot 1 ;;
  r <- insert_ptr env (btrfs_item_key rd 0) rb (pslot + 1) 1 ;;
  s0 <- path_slot 0 ;;
  bug_on (negb (s0 =? slot)) ;;;
  (if mid <=? slot then
     set_path_node 0 (Some rb) ;;;
     set_path_slot 0 (s0 - mid) ;;;
     add_path_slot 1 1
   else ret tt) ;;;
  s0 <- path_slot 0 ;;
  bug_on (s0 <? 0) ;;;
  ret r.

(** Where [split_leaf] splits: [split] and [mid]. *)
Definition split_point (d : buf) (slot data_size : Z) (extend : bool) : option (Z * Z) :=
  let nritems := btrfs_header_nritems d in
  let mid := u32 (nritems + 1) / 2 in
  let size := BTRFS_LEAF_DATA_SIZE root in
  let at_slot :=
    if negb (slot =? nritems) then
      used ← leaf_space_used d slot (nritems - slot);
      Some (if size <? used + data_size then 2 else 1, slot)
    else Some (1, slot) in
  if mid <=? slot then
    tight ← (if nritems =? 1 then Some true
             else used ← leaf_space_used d mid (nritems - mid); Some (size <? used + data_size));
    if tight : bool then if nritems <=? slot then Some (0, mid) else at_slot else Some (1, mid)
  else
    used ← leaf_space_used d 0 mid;
    if size <? used + data_size then
      if negb extend && negb (data_size =? 0) && (slot =? 0) then Some (0, mid)
      else if (extend || (data_size =? 0)) && (slot =? 0) then Some (1, 1)
      else at_slot
    else Some (1, mid).

(** The case [split == 0]: the new leaf is empty. *)
Definition split_leaf_empty (rb slot mid : Z) (disk_key : btrfs_key) : act world Z :=
  eb_update rb (fun d => btrfs_set_header_nritems d 0) ;;;
  pslot <- path_slot 1 ;;
  if mid <=? slot then
    r <- insert_ptr env disk_key rb (pslot + 1) 1 ;;
    set_path_node 0 (Some rb) ;;;
    set_path_slot 0 0 ;;;
    add_path_slot 1 1 ;;;
    ret r
  else
    r <- insert_ptr env disk_key rb pslot 1 ;;
    set_path_node 0 (Some rb) ;;;
    set_path_slot 0 0 ;;;
    s1 <- path_slot 1 ;;
    if s1 =? 0 then
      w <- fixup_low_keys disk_key 1 ;; ret (if negb (w =? 0) then w else r)
    else ret r.

(** The label [again] of [split_leaf]; a second double split is a [BUG]. *)
Fixpoint split_leaf_again (rounds : nat) (ins_key : btrfs_key) (data_size : Z) (extend : bool)
    : act world Z :=
  l <- path_block 0 ;;
  slot <- path_slot 0 ;;
  d <- eb_read l ;;
  sm <- assume_some (split_point d slot data_size extend) ;;
  let '(split, mid) := sm in
  let disk_key := if split =? 0 then ins_key else btrfs_item_key d mid in
  a <- btrfs_alloc_free_block (leafsize root) disk_key 0 l ;;
  match a with
  | inl _ => bug
  | inr rb =>
      eb_update rb (split_leaf_header rb) ;;;
      if split =? 0 then split_leaf_empty rb slot mid disk_key
      else
        r <- copy_for_split l rb slot mid (btrfs_header_nritems d) ;;
        bug_on (negb (r =? 0)) ;;;
        if split =? 2 then
          match rounds with
          | O => bug
          | S rounds => split_leaf_again rounds ins_key data_size extend
          end
        else ret r
  end.


Definition split_leaf (ins_key : btrfs_key) (data_size : Z) (extend : bool) : act world Z :=
  let split_now :=
    n <- path_node 1 ;;
    r <- match n with None => insert_new_root 1 | Some _ => ret 0 end ;;
    if negb (r =? 0) then ret r else split_leaf_again 1 ins_key data_size extend in
  if negb (data_size =? 0) && negb (type ins_key =? BTRFS_DIR_ITEM_KEY) then
    w <- push_leaf_right data_size false ;;
    if w <? 0 then ret w
    else
      w <- (if negb (w =? 0) then push_leaf_left data_size false else ret w) ;;
      if w <? 0 then ret w
      else
        l <- path_block 0 ;;
        free_space <- free_space_of env l ;;
        if data_size <=? free_space then ret 0 else split_now
  else split_now.
End Balance.
