(* ===== verification/TreeOps.v ===== *)
(** The tree operations of [src/ctree.c]: search, insertion, deletion,
    resizing, and the walks from leaf to leaf.

    The loops that follow block pointers run on fuel: nothing in the blocks
    bounds them. *)

From S2P Require Import Prelude Buf CtreeFmt LeafOps NodeOps TreeWorld TreeBalance.

Section Ops.
Context {X : Type} `{ExtentTree X} (env : tree_env).
Open Scope act_scope.

Abbreviation world := (tree_world X).
Abbreviation root := (te_root env).

Definition lift {A} (o : option A) : act world A := assume_some o.

(** What a round of the loop of [btrfs_search_slot] leads to. *)
Inductive search_step :=
| Done (r : Z)
| Descend (b : Z)
| Again.

(** One round of the loop on the block [b]. *)
Definition search_block (key : btrfs_key) (ins_len : Z) (cow : bool) (lowest_level b : Z)
    : act world search_step :=
  d <- eb_read b ;;
  let level := btrfs_header_level d in
  c <- (if cow then
          parent <- path_node (level + 1) ;;
          pslot <- path_slot (level + 1) ;;
          btrfs_cow_block env b parent pslot
        else ret (inr b)) ;;
  match c with
  | inl err => ret (Done err)
  | inr b =>
    bug_on (negb cow && negb (ins_len =? 0)) ;;;
    d <- eb_read b ;;
    bug_on (negb (level =? btrfs_header_level d)) ;;;
    set_path_node level (Some b) ;;;
    r <- check_block env level ;;
    if negb (r =? 0) then ret (Done (-1))
    else
      rs <- lift (bin_search d key level) ;;
      let '(r, slot) := rs in
      if negb (level =? 0) then
        let slot := if negb (r =? 0) && (0 <? slot) then slot - 1 else slot in
        set_path_slot level slot ;;;
        split <- gets (fun w => p_search_for_split (tw_path w)) ;;
        next <- (if (split || (0 <? ins_len)) &&
                    (BTRFS_NODEPTRS_PER_BLOCK root - 3 <=? btrfs_header_nritems d) then
                   sret <- split_node env level ;;
                   bug_on (0 <? sret) ;;;
                   if negb (sret =? 0) then ret (inl (Done sret))
                   else b <- path_block level ;; slot <- path_slot level ;; ret (inr (b, slot))
                 else if ins_len <? 0 then
                   sret <- balance_level env level ;;
                   if negb (sret =? 0) then ret (inl (Done sret))
                   else
                     n <- path_node level ;;
                     match n with
                     | None => btrfs_release_path ;;; ret (inl Again)
                     | Some b =>
                         slot <- path_slot level ;;
                         n <- nritems_of b ;;
                         bug_on (n =? 1) ;;;
                         ret (inr (b, slot))
                     end
                 else ret (inr (b, slot))) ;;
        match next with
        | inl step => ret step
        | inr (b, slot) =>
            if level =? lowest_level then ret (Done 1)
            else
              child <- read_node_slot b slot ;;
              match child with
              | None => ret (Done (- EIO))
              | Some child => ret (Descend child)
              end
        end
      else
        set_path_slot level slot ;;;
        if 0 <? ins_len then
          free_space <- free_space_of env b ;;
          if free_space <? ins_len then
            sret <- split_leaf env key ins_len (r =? 0) ;;
            bug_on (0 <? sret) ;;;
            if negb (sret =? 0) then ret (Done sret) else ret (Done r)
          else ret (Done r)
        else ret (Done r)
  end.

Fixpoint search_loop (fuel : nat) (key : btrfs_key) (ins_len : Z) (cow : bool) (lowest_level b : Z)
    : act world Z :=
  match fuel with
  | O => bug
  | S fuel =>
      step <- search_block key ins_len cow lowest_level b ;;
      match step with
      | Done r => ret r
      | Descend b => search_loop fuel key ins_len cow lowest_level b
      | Again =>
          b <- root_node ;; b <- assume_some b ;;
          search_loop fuel key ins_len cow lowest_level b
      end
  end.

Definition btrfs_search_slot (fuel : nat) (key : btrfs_key) (ins_len : Z) (cow : bool) : act world Z :=
  ll <- gets (fun w => p_lowest_level (tw_path w)) ;;
  let lowest_level := u8 ll in
  bug_on (negb (lowest_level =? 0) && (0 <? ins_len)) ;;;
  n0 <- path_node 0 ;;
  bug_on (bool_decide (n0 <> None)) ;;;
  b <- root_node ;; b <- assume_some b ;;
  search_loop fuel key ins_len cow lowest_level b.

(** ** Items *)

(** [btrfs_insert_empty_items]; [l] are the keys and sizes. *)
Definition btrfs_insert_empty_items (fuel : nat) (l : list (btrfs_key * Z)) : act world Z :=
  k <- lift (head l) ;;
  let cpu_key := fst k in
  let total_data := sum_sizes l in
  r <- root_node ;;
  bug_on (bool_decide (r = None)) ;;;
  let total_size := u32 (total_data + Z.of_nat (length l) * sizeof_item) in
  r <- btrfs_search_slot fuel cpu_key (s32 total_size) true ;;
  if r =? 0 then ret (- EEXIST)
  else if r <? 0 then ret r
  else
    leaf <- path_block 0 ;;
    slot <- path_slot 0 ;;
    d <- eb_read leaf ;;
    d <- lift (insert_empty_items_leaf root d slot l) ;;
    eb_write leaf d ;;;
    (if slot =? 0 then fixup_low_keys cpu_key 1 else ret 0).

(** [btrfs_insert_item]; its path is fresh. *)
Definition btrfs_insert_item (fuel : nat) (cpu_key : btrfs_key) (data : list Z) : act world Z :=
  saved <- gets (fun w => tw_path w) ;;
  btrfs_release_path ;;;
  r <- btrfs_insert_empty_items fuel [(cpu_key, Z.of_nat (length data))] ;;
  (if r =? 0 then
     leaf <- path_block 0 ;;
     slot <- path_slot 0 ;;
     eb_update leaf (fun d => write_extent_buffer d data (btrfs_item_ptr_offset d slot))
   else ret tt) ;;;
  modify (fun w => with_path w saved) ;;;
  ret r.

Definition btrfs_truncate_item (new_size : Z) (from_end : bool) : act world Z :=
  leaf <- path_block 0 ;;
  slot <- path_slot 0 ;;
  d <- eb_read leaf ;;
  dl <- lift (truncate_item_leaf root d slot new_size from_end) ;;
  match snd dl with Some key => fixup_low_keys key 1 | None => ret 0 end ;;;
  eb_write leaf (fst dl) ;;;
  ret 0.

Definition btrfs_extend_item (data_size : Z) : act world Z :=
  leaf <- path_block 0 ;;
  slot <- path_slot 0 ;;
  d <- eb_read leaf ;;
  d <- lift (extend_item_leaf root d slot data_size) ;;
  eb_write leaf d ;;;
  ret 0.

Definition set_search_for_split (b : bool) : act world unit :=
  modify (fun w => let p := tw_path w in
    with_path w (BtrfsPath (p_nodes p) (p_slots p) (p_lowest_level p) b)).

Definition btrfs_split_item (fuel : nat) (new_key : btrfs_key) (split_offset : Z) : act world Z :=
  leaf <- path_block 0 ;;
  slot <- path_slot 0 ;;
  d <- eb_read leaf ;;
  let orig_key := btrfs_item_key d slot in
  free_space <- free_space_of env leaf ;;
  let split_now :=
    leaf <- path_block 0 ;;
    slot <- path_slot 0 ;;
    d <- eb_read leaf ;;
    d <- lift (split_item_leaf root d slot new_key split_offset) ;;
    eb_write leaf d ;;;
    ret 0 in
  if sizeof_item <=? u64 free_space then split_now
  else
    let item_size := btrfs_item_size_nr d slot in
    btrfs_release_path ;;;
    set_search_for_split true ;;;
    r <- btrfs_search_slot fuel orig_key 0 true ;;
    set_search_for_split false ;;;
    if negb (r =? 0) then ret (- EAGAIN)
    else
      leaf' <- path_block 0 ;;
      slot <- path_slot 0 ;;
      d <- eb_read leaf' ;;
      if negb (item_size =? btrfs_item_size_nr d slot) then ret (- EAGAIN)
      else
        r <- split_leaf env orig_key 0 false ;;
        bug_on (negb (r =? 0)) ;;;
        (* the check looks at the leaf the path had before *)
        free_space <- free_space_of env leaf ;;
        bug_on (u64 free_space <? sizeof_item) ;;;
        split_now.

(** ** Deletion *)

Definition btrfs_del_leaf (leaf : Z) : act world Z :=
  e <- eb_get leaf ;;
  bug_on (negb (btrfs_header_generation (eb_data e) =? te_transid env)) ;;;
  slot <- path_slot 1 ;;
  r <- btrfs_del_ptr 1 slot ;;
  if negb (r =? 0) then ret r else btrfs_free_extent leaf (eb_len e) 0 0.

(** A mostly empty leaf is pushed into its neighbours, and deleted when it is
    empty after that. *)
Definition merge_leaf (leaf : Z) (r : Z) : act world Z :=
  slot1 <- path_slot 1 ;;
  w <- push_leaf_left env 1 true ;;
  let r := if (w <? 0) && negb (w =? - ENOSPC) then w else r in
  n0 <- path_node 0 ;;
  n <- nritems_of leaf ;;
  r <- (if bool_decide (n0 = Some leaf) && negb (n =? 0) then
          w <- push_leaf_right env 1 true ;;
          ret (if (w <? 0) && negb (w =? - ENOSPC) then w else r)
        else ret r) ;;
  n <- nritems_of leaf ;;
  if n =? 0 then
    set_path_slot 1 slot1 ;;;
    r <- btrfs_del_leaf leaf ;;
    bug_on (negb (r =? 0)) ;;;
    ret r
  else ret r.

Definition btrfs_del_items (slot nr : Z) : act world Z :=
  leaf <- path_block 0 ;;
  eb_update leaf (fun d => del_items_leaf root d slot nr) ;;;
  d <- eb_read leaf ;;
  let nritems := btrfs_header_nritems d in
  if nritems =? 0 then
    r <- root_node ;;
    if bool_decide (r = Some leaf) then
      eb_update leaf (fun d => btrfs_set_header_level d 0) ;;; ret 0
    else btrfs_del_leaf leaf
  else
    used <- lift (leaf_space_used d 0 nritems) ;;
    r <- (if slot =? 0 then fixup_low_keys (btrfs_item_key d 0) 1 else ret 0) ;;
    if used <? BTRFS_LEAF_DATA_SIZE root / 4 then merge_leaf leaf r else ret r.

(** ** Leaf to leaf *)

(** The loop up of [btrfs_next_leaf], [n] levels from [level]: where the next
    slot is; [None] when there is none. *)
Fixpoint next_leaf_up (n : nat) (level : Z) : act world (option (Z * Z * Z)) :=
  match n with
  | O => ret None
  | S n =>
      c <- path_node level ;;
      match c with
      | None => ret None
      | Some c =>
          s <- path_slot level ;;
          let slot := s + 1 in
          nr <- nritems_of c ;;
          if u32 nr <=? u32 slot then next_leaf_up n (level + 1) else ret (Some (level, c, slot))
      end
  end.

(** The loop down: the blocks from [level - 1] to 0 under [next]. *)
Fixpoint next_leaf_down (n : nat) (next : Z) : act world Z :=
  match n with
  | O => ret 0
  | S n =>
      set_path_node (Z.of_nat n) (Some next) ;;;
      set_path_slot (Z.of_nat n) 0 ;;;
      match n with
      | O => ret 0
      | S _ =>
          c <- read_node_slot next 0 ;;
          match c with None => ret (- EIO) | Some c => next_leaf_down n c end
      end
  end.

Definition btrfs_next_leaf : act world Z :=
  up <- next_leaf_up (Z.to_nat (BTRFS_MAX_LEVEL - 1)) 1 ;;
  match up with
  | None => ret 1
  | Some (level, c, slot) =>
      next <- read_node_slot c slot ;;
      match next with
      | None => ret (- EIO)
      | Some next =>
          set_path_slot level slot ;;;
          next_leaf_down (Z.to_nat level) next
      end
  end.

Fixpoint prev_leaf_up (n : nat) (level : Z) : act world (option (Z * Z * Z)) :=
  match n with
  | O => ret None
  | S n =>
      c <- path_node level ;;
      match c with
      | None => ret None
      | Some c =>
          s <- path_slot level ;;
          if s =? 0 then prev_leaf_up n (level + 1) else ret (Some (level, c, s - 1))
      end
  end.

(** A block that cannot be read is a null pointer here. *)
Fixpoint prev_leaf_down (n : nat) (next : option Z) : act world Z :=
  match n with
  | O => ret 0
  | S n =>
      next <- lift next ;;
      nr <- nritems_of next ;;
      let slot := if negb (nr =? 0) then nr - 1 else nr in
      set_path_node (Z.of_nat n) (Some next) ;;;
      set_path_slot (Z.of_nat n) slot ;;;
      match n with
      | O => ret 0
      | S _ => c <- read_node_slot next slot ;; prev_leaf_down n c
      end
  end.

Definition btrfs_prev_leaf : act world Z :=
  up <- prev_leaf_up (Z.to_nat (BTRFS_MAX_LEVEL - 1)) 1 ;;
  match up with
  | None => ret 1
  | Some (level, c, slot) =>
      next <- read_node_slot c slot ;;
      set_path_slot level slot ;;;
      prev_leaf_down (Z.to_nat level) next
  end.

(** [btrfs_previous_item]; its [min_objectid] is never read. *)
Fixpoint btrfs_previous_item (fuel : nat) (ty : Z) : act world Z :=
  match fuel with
  | O => bug
  | S fuel =>
      s <- path_slot 0 ;;
      r <- (if s =? 0 then btrfs_prev_leaf else set_path_slot 0 (s - 1) ;;; ret 0) ;;
      if negb (r =? 0) then ret r
      else
        leaf <- path_block 0 ;;
        slot <- path_slot 0 ;;
        d <- eb_read leaf ;;
        if type (btrfs_item_key d slot) =? ty then ret 0 else btrfs_previous_item fuel ty
  end.
End Ops.
