(* ===== verification/Crc.v ===== *)
(** Checksums: [src/crc32c.c], [src/hash.h] and the checksum functions of
    [src/disk-io.c].

    The code's CRC steps through a table, a byte at a time; [crc_byte] is what
    the table stands for, division by the polynomial one bit at a time.  The
    processor's CRC instruction, which [crc32c_optimization_init] may put in
    its place, computes the same function and is not modelled. *)

From S2P Require Import Prelude Buf CtreeFmt LeafProps.

(** ** The code *)

Definition crc32c_table : list Z :=
  [
   0x00000000; 0xF26B8303; 0xE13B70F7; 0x1350F3F4; 0xC79A971F; 0x35F1141C; 0x26A1E7E8; 0xD4CA64EB;
   0x8AD958CF; 0x78B2DBCC; 0x6BE22838; 0x9989AB3B; 0x4D43CFD0; 0xBF284CD3; 0xAC78BF27; 0x5E133C24;
   0x105EC76F; 0xE235446C; 0xF165B798; 0x030E349B; 0xD7C45070; 0x25AFD373; 0x36FF2087; 0xC494A384;
   0x9A879FA0; 0x68EC1CA3; 0x7BBCEF57; 0x89D76C54; 0x5D1D08BF; 0xAF768BBC; 0xBC267848; 0x4E4DFB4B;
   0x20BD8EDE; 0xD2D60DDD; 0xC186FE29; 0x33ED7D2A; 0xE72719C1; 0x154C9AC2; 0x061C6936; 0xF477EA35;
   0xAA64D611; 0x580F5512; 0x4B5FA6E6; 0xB93425E5; 0x6DFE410E; 0x9F95C20D; 0x8CC531F9; 0x7EAEB2FA;
   0x30E349B1; 0xC288CAB2; 0xD1D83946; 0x23B3BA45; 0xF779DEAE; 0x05125DAD; 0x1642AE59; 0xE4292D5A;
   0xBA3A117E; 0x4851927D; 0x5B016189; 0xA96AE28A; 0x7DA08661; 0x8FCB0562; 0x9C9BF696; 0x6EF07595;
   0x417B1DBC; 0xB3109EBF; 0xA0406D4B; 0x522BEE48; 0x86E18AA3; 0x748A09A0; 0x67DAFA54; 0x95B17957;
   0xCBA24573; 0x39C9C670; 0x2A993584; 0xD8F2B687; 0x0C38D26C; 0xFE53516F; 0xED03A29B; 0x1F682198;
   0x5125DAD3; 0xA34E59D0; 0xB01EAA24; 0x42752927; 0x96BF4DCC; 0x64D4CECF; 0x77843D3B; 0x85EFBE38;
   0xDBFC821C; 0x2997011F; 0x3AC7F2EB; 0xC8AC71E8; 0x1C661503; 0xEE0D9600; 0xFD5D65F4; 0x0F36E6F7;
   0x61C69362; 0x93AD1061; 0x80FDE395; 0x72966096; 0xA65C047D; 0x5437877E; 0x4767748A; 0xB50CF789;
   0xEB1FCBAD; 0x197448AE; 0x0A24BB5A; 0xF84F3859; 0x2C855CB2; 0xDEEEDFB1; 0xCDBE2C45; 0x3FD5AF46;
   0x7198540D; 0x83F3D70E; 0x90A324FA; 0x62C8A7F9; 0xB602C312; 0x44694011; 0x5739B3E5; 0xA55230E6;
   0xFB410CC2; 0x092A8FC1; 0x1A7A7C35; 0xE811FF36; 0x3CDB9BDD; 0xCEB018DE; 0xDDE0EB2A; 0x2F8B6829;
   0x82F63B78; 0x709DB87B; 0x63CD4B8F; 0x91A6C88C; 0x456CAC67; 0xB7072F64; 0xA457DC90; 0x563C5F93;
   0x082F63B7; 0xFA44E0B4; 0xE9141340; 0x1B7F9043; 0xCFB5F4A8; 0x3DDE77AB; 0x2E8E845F; 0xDCE5075C;
   0x92A8FC17; 0x60C37F14; 0x73938CE0; 0x81F80FE3; 0x55326B08; 0xA759E80B; 0xB4091BFF; 0x466298FC;
   0x1871A4D8; 0xEA1A27DB; 0xF94AD42F; 0x0B21572C; 0xDFEB33C7; 0x2D80B0C4; 0x3ED04330; 0xCCBBC033;
   0xA24BB5A6; 0x502036A5; 0x4370C551; 0xB11B4652; 0x65D122B9; 0x97BAA1BA; 0x84EA524E; 0x7681D14D;
   0x2892ED69; 0xDAF96E6A; 0xC9A99D9E; 0x3BC21E9D; 0xEF087A76; 0x1D63F975; 0x0E330A81; 0xFC588982;
   0xB21572C9; 0x407EF1CA; 0x532E023E; 0xA145813D; 0x758FE5D6; 0x87E466D5; 0x94B49521; 0x66DF1622;
   0x38CC2A06; 0xCAA7A905; 0xD9F75AF1; 0x2B9CD9F2; 0xFF56BD19; 0x0D3D3E1A; 0x1E6DCDEE; 0xEC064EED;
   0xC38D26C4; 0x31E6A5C7; 0x22B65633; 0xD0DDD530; 0x0417B1DB; 0xF67C32D8; 0xE52CC12C; 0x1747422F;
   0x49547E0B; 0xBB3FFD08; 0xA86F0EFC; 0x5A048DFF; 0x8ECEE914; 0x7CA56A17; 0x6FF599E3; 0x9D9E1AE0;
   0xD3D3E1AB; 0x21B862A8; 0x32E8915C; 0xC083125F; 0x144976B4; 0xE622F5B7; 0xF5720643; 0x07198540;
   0x590AB964; 0xAB613A67; 0xB831C993; 0x4A5A4A90; 0x9E902E7B; 0x6CFBAD78; 0x7FAB5E8C; 0x8DC0DD8F;
   0xE330A81A; 0x115B2B19; 0x020BD8ED; 0xF0605BEE; 0x24AA3F05; 0xD6C1BC06; 0xC5914FF2; 0x37FACCF1;
   0x69E9F0D5; 0x9B8273D6; 0x88D28022; 0x7AB90321; 0xAE7367CA; 0x5C18E4C9; 0x4F48173D; 0xBD23943E;
   0xF36E6F75; 0x0105EC76; 0x12551F82; 0xE03E9C81; 0x34F4F86A; 0xC69F7B69; 0xD5CF889D; 0x27A40B9E;
   0x79B737BA; 0x8BDCB4B9; 0x988C474D; 0x6AE7C44E; 0xBE2DA0A5; 0x4C4623A6; 0x5F16D052; 0xAD7D5351
  ].

Definition table_at (i : Z) : Z := nth (Z.to_nat i) crc32c_table 0.

Fixpoint __crc32c_le (crc : Z) (data : list Z) : Z :=
  match data with
  | [] => crc
  | b :: data => __crc32c_le (Z.lxor (table_at (Z.land (Z.lxor crc b) 0xFF)) (Z.shiftr crc 8)) data
  end.

(** [btrfs_name_hash]; the seed is [(u32)~1]. *)
Definition btrfs_name_hash (name : list Z) : Z := __crc32c_le (u32 (Z.lnot 1)) name.

Definition BTRFS_CSUM_SIZE : Z := 32.

(** [btrfs_csum_final]: the bytes of the inverted sum. *)
Definition btrfs_csum_final (crc : Z) : list Z :=
  let v := u32 (Z.lnot crc) in [u8 v; u8 (v / 256); u8 (v / 65536); u8 (v / 16777216)].

(** [csum_tree_block_size]: the return value and the block.  The result buffer
    has [csum_size] bytes, and four are written to it. *)
Definition csum_tree_block_size (b : buf) (len csum_size : Z) (verify : bool) : option (Z * buf) :=
  if negb (csum_size =? 4) then None
  else
    let crc := u32 (Z.lnot 0) in
    let crc := __crc32c_le crc (read_extent_buffer b BTRFS_CSUM_SIZE (Z.to_nat (len - BTRFS_CSUM_SIZE))) in
    let result := btrfs_csum_final crc in
    if verify then
      if negb (memcmp_extent_buffer b result 0) then Some (1, b) else Some (0, b)
    else Some (0, write_extent_buffer b result 0).

(** ** What the table stands for *)

Definition POLY : Z := 0x82F63B78.

Definition crc_bit (c : Z) : Z := Z.lxor (Z.shiftr c 1) (if Z.odd c then POLY else 0).

Definition crc_byte (c b : Z) : Z := Nat.iter 8 crc_bit (Z.lxor c b).

Definition crc_ref (c : Z) (data : list Z) : Z := foldl crc_byte c data.

(** ** Linearity *)

Lemma odd_lxor a b : Z.odd (Z.lxor a b) = xorb (Z.odd a) (Z.odd b).
Proof. by rewrite <- !Z.bit0_odd, Z.lxor_spec. Qed.

Lemma crc_bit_lxor a b : crc_bit (Z.lxor a b) = Z.lxor (crc_bit a) (crc_bit b).
Proof.
  unfold crc_bit. rewrite Z.shiftr_lxor, odd_lxor.
  apply Z.bits_inj'. intros n Hn. rewrite !Z.lxor_spec.
  destruct (Z.odd a), (Z.odd b); simpl xorb; cbv iota; rewrite ?Z.bits_0;
    repeat match goal with |- context [Z.testbit ?x n] => destruct (Z.testbit x n) end; done.
Qed.

Lemma crc_bits_lxor k a b : Nat.iter k crc_bit (Z.lxor a b) = Z.lxor (Nat.iter k crc_bit a) (Nat.iter k crc_bit b).
Proof. induction k as [|k IH]; [done|]. simpl. by rewrite IH, crc_bit_lxor. Qed.

Lemma crc_bit_double a : crc_bit (2 * a) = a.
Proof.
  unfold crc_bit. rewrite Z.odd_mul. simpl. rewrite Z.lxor_0_r, Z.shiftr_div_pow2 by lia.
  change (2 ^ 1) with 2. rewrite Z.mul_comm. by rewrite Z.div_mul.
Qed.

Lemma crc_byte_shift a : Nat.iter 8 crc_bit (Z.shiftl a 8) = a.
Proof.
  rewrite Z.shiftl_mul_pow2 by lia.
  replace (a * 2 ^ 8) with (2 * (2 * (2 * (2 * (2 * (2 * (2 * (2 * a)))))))) by lia.
  simpl. by rewrite !crc_bit_double.
Qed.

(** The low byte and the rest. *)
Lemma split_byte x : x = Z.lxor (Z.land x 0xFF) (Z.shiftl (Z.shiftr x 8) 8).
Proof.
  apply Z.bits_inj'. intros n Hn. rewrite Z.lxor_spec, Z.land_spec, Z.shiftl_spec by done.
  change 0xFF with (Z.ones 8). destruct (Z.lt_ge_cases n 8).
  - rewrite Z.ones_spec_low by lia. rewrite (Z.testbit_neg_r _ (n - 8)) by lia. by destruct (Z.testbit x n).
  - rewrite Z.ones_spec_high by lia. rewrite Z.shiftr_spec by lia.
    replace (n - 8 + 8) with n by lia. by destruct (Z.testbit x n).
Qed.

Lemma land_byte x : 0 <= Z.land x 0xFF < 256.
Proof. change 0xFF with (Z.ones 8). rewrite Z.land_ones by lia. apply Z.mod_pos_bound. lia. Qed.

(** Checked entry by entry. *)
Lemma table_entries :
  forallb (fun n => table_at (Z.of_nat n) =? Nat.iter 8 crc_bit (Z.of_nat n)) (seq 0 256) = true.
Proof. vm_compute. reflexivity. Qed.

Lemma table_entry i : 0 <= i < 256 -> table_at i = Nat.iter 8 crc_bit i.
Proof.
  intros Hi. pose proof table_entries as Ht. rewrite forallb_forall in Ht.
  specialize (Ht (Z.to_nat i)). rewrite Z2Nat.id in Ht by lia. apply Z.eqb_eq, Ht. apply in_seq. lia.
Qed.

Lemma crc_step c b : 0 <= b < 256 ->
  Z.lxor (table_at (Z.land (Z.lxor c b) 0xFF)) (Z.shiftr c 8) = crc_byte c b.
Proof.
  intros Hb. unfold crc_byte. rewrite (split_byte (Z.lxor c b)) at 2.
  rewrite crc_bits_lxor, crc_byte_shift, table_entry by apply land_byte. f_equal.
  rewrite Z.shiftr_lxor. replace (Z.shiftr b 8) with 0; [by rewrite Z.lxor_0_r|].
  rewrite Z.shiftr_div_pow2 by lia. symmetry. apply Z.div_small. lia.
Qed.

(** ** One byte wrong *)

Definition is_byte (b : Z) : Prop := 0 <= b < 256.

(** Which entry has a high byte. *)
Definition entry_of : list Z :=
  Eval vm_compute in
    map (fun h => match find (fun n => Z.shiftr (table_at (Z.of_nat n)) 24 =? Z.of_nat h) (seq 0 256) with
                  | Some n => Z.of_nat n | None => 0 end) (seq 0 256).

Lemma table_high :
  forallb (fun n => nth (Z.to_nat (Z.shiftr (table_at (Z.of_nat n)) 24)) entry_of 0 =? Z.of_nat n) (seq 0 256) = true.
Proof. vm_compute. reflexivity. Qed.

(** So no two entries have the same. *)
Lemma table_high_inj i j :
  0 <= i < 256 -> 0 <= j < 256 -> Z.shiftr (table_at i) 24 = Z.shiftr (table_at j) 24 -> i = j.
Proof.
  intros Hi Hj Heq. pose proof table_high as Ht. rewrite forallb_forall in Ht.
  pose proof (Ht (Z.to_nat i) ltac:(apply in_seq; lia)) as H1. pose proof (Ht (Z.to_nat j) ltac:(apply in_seq; lia)) as H2.
  rewrite Z2Nat.id in H1, H2 by lia. apply Z.eqb_eq in H1, H2. rewrite Heq in H1. congruence.
Qed.

Lemma table_range i : 0 <= i < 256 -> 0 <= table_at i < 2 ^ 32.
Proof.
  intros Hi. assert (Ht : forallb (fun n => (0 <=? table_at (Z.of_nat n)) && (table_at (Z.of_nat n) <? 2 ^ 32)) (seq 0 256) = true)
    by (vm_compute; reflexivity).
  rewrite forallb_forall in Ht. specialize (Ht (Z.to_nat i) ltac:(apply in_seq; lia)). rewrite Z2Nat.id in Ht by lia.
  apply andb_true_iff in Ht as [H1%Z.leb_le H2%Z.ltb_lt]. done.
Qed.

Definition crc_ok (c : Z) : Prop := 0 <= c < 2 ^ 32.

Lemma shiftr8_range c : crc_ok c -> 0 <= Z.shiftr c 8 < 2 ^ 24.
Proof. unfold crc_ok. intros Hc. rewrite Z.shiftr_div_pow2 by lia. zlia. Qed.

Lemma crc_byte_ok c b : crc_ok c -> is_byte b -> crc_ok (crc_byte c b).
Proof.
  intros Hc Hb. rewrite <- crc_step by done. pose proof (shiftr8_range c Hc).
  pose proof (table_range _ (land_byte (Z.lxor c b))). unfold crc_ok.
  assert (Hnn : 0 <= Z.lxor (table_at (Z.land (Z.lxor c b) 255)) (Z.shiftr c 8)) by (apply Z.lxor_nonneg; lia).
  split; [done|]. destruct (Z.eq_dec (Z.lxor (table_at (Z.land (Z.lxor c b) 255)) (Z.shiftr c 8)) 0) as [->|Hne]; [lia|].
  apply Z.log2_lt_pow2; [lia|].
  eapply Z.le_lt_trans; [apply Z.log2_lxor; lia|]. apply Z.max_lub_lt; apply log2_lt_bits; lia.
Qed.

(** A step loses nothing of the state, nor of the byte. *)
Lemma crc_byte_inj c c' b b' :
  crc_ok c -> crc_ok c' -> is_byte b -> is_byte b' -> crc_byte c b = crc_byte c' b' ->
  Z.land (Z.lxor c b) 0xFF = Z.land (Z.lxor c' b') 0xFF /\ Z.shiftr c 8 = Z.shiftr c' 8.
Proof.
  intros Hc Hc' Hb Hb'. rewrite <- !crc_step by done. intros Heq.
  pose proof (shiftr8_range c Hc). pose proof (shiftr8_range c' Hc').
  assert (Hi : Z.land (Z.lxor c b) 0xFF = Z.land (Z.lxor c' b') 0xFF).
  { apply table_high_inj; [apply land_byte..|]. apply (f_equal (fun x => Z.shiftr x 24)) in Heq.
    rewrite !Z.shiftr_lxor, !Z.shiftr_shiftr in Heq by lia. change (8 + 24) with 32 in Heq.
    assert (Hz : forall x, crc_ok x -> Z.shiftr x 32 = 0)
      by (intros x Hx; rewrite Z.shiftr_div_pow2 by lia; apply Z.div_small; exact Hx).
    rewrite (Hz c Hc), (Hz c' Hc'), !Z.lxor_0_r in Heq. done. }
  split; [done|]. rewrite Hi in Heq. apply (f_equal (Z.lxor (table_at (Z.land (Z.lxor c' b') 255)))) in Heq.
  by rewrite <- !Z.lxor_assoc, !Z.lxor_nilpotent, !Z.lxor_0_l in Heq.
Qed.

Lemma crc_byte_state c c' b : crc_ok c -> crc_ok c' -> is_byte b -> crc_byte c b = crc_byte c' b -> c = c'.
Proof.
  intros Hc Hc' Hb Heq. destruct (crc_byte_inj c c' b b Hc Hc' Hb Hb Heq) as [Hl Hh].
  rewrite (split_byte c), (split_byte c'), Hh. f_equal.
  apply (f_equal (fun x => Z.land (Z.lxor x b) 0xFF)) in Hl. revert Hl. clear.
  assert (Hk : forall x, Z.land (Z.lxor (Z.land (Z.lxor x b) 255) b) 255 = Z.land x 255).
  { intros x. apply Z.bits_inj'. intros n Hn. repeat (rewrite ?Z.land_spec, ?Z.lxor_spec).
    destruct (Z.testbit x n), (Z.testbit b n), (Z.testbit 255 n); done. }
  by rewrite !Hk.
Qed.

Lemma crc_byte_data c b b' : crc_ok c -> is_byte b -> is_byte b' -> crc_byte c b = crc_byte c b' -> b = b'.
Proof.
  intros Hc Hb Hb' Heq. destruct (crc_byte_inj c c b b' Hc Hc Hb Hb' Heq) as [Hl _].
  apply (f_equal (fun x => Z.land (Z.lxor x c) 0xFF)) in Hl.
  assert (Hk : forall x, is_byte x -> Z.land (Z.lxor (Z.land (Z.lxor c x) 255) c) 255 = x).
  { intros x Hx. transitivity (Z.land x 255).
    - apply Z.bits_inj'. intros n Hn. repeat (rewrite ?Z.land_spec, ?Z.lxor_spec).
      destruct (Z.testbit x n), (Z.testbit c n), (Z.testbit 255 n); done.
    - change 255 with (Z.ones 8). rewrite Z.land_ones by lia. by apply Z.mod_small. }
  by rewrite !Hk in Hl.
Qed.

Lemma crc_ref_state c c' data :
  crc_ok c -> crc_ok c' -> Forall is_byte data -> crc_ref c data = crc_ref c' data -> c = c'.
Proof.
  revert c c'. induction data as [|b data IH]; intros c c' Hc Hc' Hd; [done|].
  apply Forall_cons in Hd as [Hb Hd]. unfold crc_ref. cbn [foldl]. intros Heq.
  apply (crc_byte_state c c' b Hc Hc' Hb). apply IH; [by apply crc_byte_ok..|done|done].
Qed.

Lemma crc_ref_ok c data : crc_ok c -> Forall is_byte data -> crc_ok (crc_ref c data).
Proof.
  revert c. induction data as [|b data IH]; intros c Hc Hd; [done|]. apply Forall_cons in Hd as [Hb Hd].
  apply IH; [by apply crc_byte_ok|done].
Qed.

Lemma crc_table_ref c data : Forall is_byte data -> __crc32c_le c data = crc_ref c data.
Proof.
  revert c. induction data as [|b data IH]; intros c Hd; [done|]. apply Forall_cons in Hd as [Hb Hd].
  unfold crc_ref. cbn [__crc32c_le foldl]. rewrite crc_step by done. by apply IH.
Qed.

(** Sums of data that differ in one byte differ. *)
Lemma crc_one_byte c A b b' B :
  crc_ok c -> Forall is_byte (A ++ b :: B) -> is_byte b' -> b <> b' ->
  crc_ref c (A ++ b :: B) <> crc_ref c (A ++ b' :: B).
Proof.
  intros Hc [HA [Hb HB]%Forall_cons]%Forall_app Hb' Hne Heq. apply Hne.
  unfold crc_ref in Heq. rewrite !foldl_app in Heq. cbn [foldl] in Heq.
  pose proof (crc_ref_ok c A Hc HA) as Hc1. unfold crc_ref in Hc1.
  apply (crc_byte_data _ b b' Hc1 Hb Hb'). revert Heq. apply crc_ref_state; [by apply crc_byte_ok..|done].
Qed.

(** ** The checksum of a block *)

Lemma csum_final_inj c c' : crc_ok c -> crc_ok c' -> btrfs_csum_final c = btrfs_csum_final c' -> c = c'.
Proof.
  unfold crc_ok, btrfs_csum_final, u8, u32. intros Hc Hc' [= H0 H1 H2 H3].
  pose proof (Z.mod_pos_bound (Z.lnot c) (2 ^ 32)) as B. pose proof (Z.mod_pos_bound (Z.lnot c') (2 ^ 32)) as B'.
  assert (Hv : Z.lnot c mod 2 ^ 32 = Z.lnot c' mod 2 ^ 32) by zlia.
  unfold Z.lnot in *. zlia.
Qed.

Lemma read_bytes b off n : (forall x, is_byte (b x)) -> Forall is_byte (read_extent_buffer b off n).
Proof. intros Hb. revert off. induction n as [|n IH]; intros off; constructor; auto. Qed.

(** What follows the place of the checksum. *)
Definition csummed (b : buf) (len : Z) : list Z := read_extent_buffer b BTRFS_CSUM_SIZE (Z.to_nat (len - BTRFS_CSUM_SIZE)).

Lemma csum_size_run b len verify :
  (forall x, is_byte (b x)) ->
  let result := btrfs_csum_final (crc_ref (u32 (Z.lnot 0)) (csummed b len)) in
  csum_tree_block_size b len 4 verify =
    Some (if verify then (if bool_decide (read_extent_buffer b 0 4 = result) then (0, b) else (1, b))
          else (0, write_extent_buffer b result 0)).
Proof.
  intros Hb. unfold csum_tree_block_size. change (4 =? 4) with true. cbn [negb].
  rewrite crc_table_ref by (by apply read_bytes). fold (csummed b len). cbv zeta.
  destruct verify; [|done]. unfold memcmp_extent_buffer. change (length (btrfs_csum_final _)) with 4%nat.
  by destruct (bool_decide _).
Qed.

Lemma seed_ok : crc_ok (u32 (Z.lnot 0)).
Proof. unfold crc_ok. vm_compute. split; congruence. Qed.

(** ** What the checksums guarantee. *)

(** C36: the table-driven CRC of [crc32c.c] is the remainder of the division by
    the Castagnoli polynomial, taken bit by bit, for any seed and any bytes. *)
Theorem crc32c_correct c data (Hd : Forall is_byte data) : __crc32c_le c data = crc_ref c data.
Proof. by apply crc_table_ref. Qed.

Lemma crc32c_correct_witness :
  __crc32c_le 0xFFFFFFFF [49; 50; 51; 52; 53; 54; 55; 56; 57] = crc_ref 0xFFFFFFFF [49; 50; 51; 52; 53; 54; 55; 56; 57] /\
  Z.lxor (crc_ref 0xFFFFFFFF [49; 50; 51; 52; 53; 54; 55; 56; 57]) 0xFFFFFFFF = 0xE3069283.
Proof.
  split; [apply (crc32c_correct 0xFFFFFFFF [49; 50; 51; 52; 53; 54; 55; 56; 57]); repeat constructor; lia|].
  vm_compute. reflexivity.
Defined.

(** C35: a block that [csum_tree_block_size] has summed is verified, with any
    contents; if afterwards one byte is wrong, of the sum or of what it covers,
    the verification fails. *)
Theorem csum_detects_one_byte b len off v
  (Hb : forall x, is_byte (b x)) (Hlen : 32 <= len) (Hoff : 0 <= off < 4 \/ 32 <= off < len) (Hv : is_byte v) :
  exists b', csum_tree_block_size b len 4 false = Some (0, b') /\
    csum_tree_block_size b' len 4 true = Some (0, b') /\
    (b' off <> v -> let bad := fun x => if x =? off then v else b' x in
       csum_tree_block_size bad len 4 true = Some (1, bad)).
Proof.
  rewrite (csum_size_run b len false Hb). cbv zeta. set (sum := btrfs_csum_final _).
  set (b' := write_extent_buffer b sum 0). exists b'. split; [done|].
  assert (Hout : forall x, 4 <= x -> b' x = b x) by (intros x Hx; apply write_outside; right; exact Hx).
  assert (Hb' : forall x, is_byte (b' x)).
  { intros x. destruct (Z.lt_ge_cases x 4) as [Hx|Hx]; [|by rewrite Hout].
    unfold b', sum, btrfs_csum_final, write_extent_buffer.
    repeat (destruct (_ =? _); [apply Z.mod_pos_bound; lia|]). apply Hb. }
  assert (Hcov : csummed b' len = csummed b len).
  { apply read_same. intros x Hx. apply Hout. unfold BTRFS_CSUM_SIZE in Hx. lia. }
  assert (Hsum : read_extent_buffer b' 0 4 = sum) by exact (read_write b sum 0).
  split.
  - rewrite (csum_size_run b' len true Hb'), Hcov. cbv zeta. by rewrite bool_decide_eq_true_2.
  - intros Hne. set (bad := fun x => if x =? off then v else b' x). assert (Hbad : forall x, is_byte (bad x)) by (intros x; unfold bad; by destruct (x =? off)).
    rewrite (csum_size_run bad len true Hbad). cbv zeta. rewrite bool_decide_eq_false_2; [done|]. intros Heq.
    assert (Hother : forall x, x <> off -> bad x = b' x) by (intros x Hx; unfold bad; by rewrite (proj2 (Z.eqb_neq _ _))).
    destruct Hoff as [Hoff|Hoff].
    + (* the stored sum *)
      assert (Hc : csummed bad len = csummed b len).
      { rewrite <- Hcov. apply read_same. intros x Hx. apply Hother. unfold BTRFS_CSUM_SIZE in Hx. lia. }
      rewrite Hc in Heq. fold sum in Heq. rewrite <- Hsum in Heq. apply Hne.
      apply (f_equal (fun l => nth (Z.to_nat off) l 0)) in Heq. rewrite !read_nth in Heq by lia.
      replace (0 + Z.of_nat (Z.to_nat off)) with off in Heq by lia. rewrite <- Heq. unfold bad. by rewrite Z.eqb_refl.
    + (* the data *)
      assert (Hs : read_extent_buffer bad 0 4 = sum).
      { rewrite <- Hsum. apply read_same. intros x Hx. apply Hother. lia. }
      rewrite Hs in Heq. unfold sum in Heq.
      assert (Hsplit : forall c : buf, csummed c len = read_extent_buffer c 32 (Z.to_nat (off - 32)) ++ c off ::
        read_extent_buffer c (off + 1) (Z.to_nat (len - off - 1))).
      { intros c. unfold csummed, BTRFS_CSUM_SIZE.
        replace (Z.to_nat (len - 32)) with (Z.to_nat (off - 32) + S (Z.to_nat (len - off - 1)))%nat by lia.
        rewrite read_app. cbn [read_extent_buffer]. by replace (32 + Z.of_nat (Z.to_nat (off - 32))) with off by lia. }
      rewrite <- Hcov in Heq. pose proof (read_bytes b' 32 (Z.to_nat (off - 32)) Hb') as F1.
      pose proof (read_bytes b' (off + 1) (Z.to_nat (len - off - 1)) Hb') as F2.
      assert (Hok : Forall is_byte (csummed b' len)) by (by apply read_bytes).
      assert (Hokb : Forall is_byte (csummed bad len)) by (by apply read_bytes).
      apply csum_final_inj in Heq; [|by apply crc_ref_ok; [apply seed_ok|]..].
      rewrite (Hsplit bad), (Hsplit b') in Heq. rewrite (Hsplit b') in Hok.
      rewrite (read_same b' bad 32), (read_same b' bad (off + 1)) in Heq
        by (intros x Hx; apply Hother; lia).
      assert (Hv' : bad off = v) by (unfold bad; by rewrite Z.eqb_refl). rewrite Hv' in Heq.
      by apply (crc_one_byte _ _ _ v _ seed_ok Hok Hv) in Heq.
Qed.

Lemma csum_detects_one_byte_witness :
  exists b', csum_tree_block_size (fun _ => 7) 64 4 false = Some (0, b') /\
    let bad := fun x => if x =? 40 then 8 else b' x in csum_tree_block_size bad 64 4 true = Some (1, bad).
Proof.
  destruct (csum_detects_one_byte (fun _ => 7) 64 40 8) as (b' & H1 & _ & H3).
  - intros x. unfold is_byte. lia.
  - lia.
  - lia.
  - unfold is_byte. lia.
  - exists b'. split; [exact H1|]. apply H3.
    rewrite csum_size_run in H1 by (intros x; unfold is_byte; lia). cbv zeta in H1.
    set (sum := btrfs_csum_final _) in H1. assert (Hb' : b' = write_extent_buffer (fun _ => 7) sum 0) by congruence.
    rewrite Hb', write_outside; [lia|]. right. change (length sum) with 4%nat. lia.
Defined.
