(* ===== verification/DirItem.v ===== *)
(** Directory entries and extended attributes: [src/dir-item.c].

    A [struct btrfs_dir_item *] is an offset in the leaf of the path.  The
    functions allocate a path of their own; [mem] says whether that works. *)

From S2P Require Import Prelude Buf CtreeFmt ItemFmt LeafOps TreeWorld TreeBalance TreeOps Crc.

(** The loop of [btrfs_match_dir_item_name]; [None] when the fuel is used up.
    Every entry has at least its header. *)
Fixpoint match_dir_item_loop (fuel : nat) (leaf : buf) (name : list Z) (dir_item cur total_len : Z)
    : option (option Z) :=
  if cur <? total_len then
    match fuel with
    | O => None
    | S fuel =>
        let this_len := u32 (sizeof_dir_item + btrfs_dir_name_len leaf dir_item + btrfs_dir_data_len leaf dir_item) in
        let name_ptr := dir_item + sizeof_dir_item in
        if (btrfs_dir_name_len leaf dir_item =? Z.of_nat (length name)) && memcmp_extent_buffer leaf name name_ptr
        then Some (Some dir_item)
        else match_dir_item_loop fuel leaf name (dir_item + this_len) (u32 (cur + this_len)) total_len
    end
  else Some None.

(** The fields [btrfs_insert_dir_item] fills in; the transaction id is not
    among them. *)
Definition fill_dir_item (leaf : buf) (dir_item : Z) (location : btrfs_key) (ty : Z) (name : list Z) : buf :=
  let leaf := btrfs_set_dir_item_key leaf dir_item location in
  let leaf := btrfs_set_dir_type leaf dir_item ty in
  let leaf := btrfs_set_dir_data_len leaf dir_item 0 in
  let leaf := btrfs_set_dir_name_len leaf dir_item (Z.of_nat (length name)) in
  write_extent_buffer leaf name (dir_item + sizeof_dir_item).

Definition fill_xattr_item (leaf : buf) (dir_item : Z) (name data : list Z) : buf :=
  let leaf := btrfs_set_dir_item_key leaf dir_item (BtrfsKey 0 0 0) in
  let leaf := btrfs_set_dir_type leaf dir_item BTRFS_FT_XATTR in
  let leaf := btrfs_set_dir_name_len leaf dir_item (Z.of_nat (length name)) in
  let leaf := btrfs_set_dir_data_len leaf dir_item (Z.of_nat (length data)) in
  let name_ptr := dir_item + sizeof_dir_item in
  let data_ptr := name_ptr + Z.of_nat (length name) in
  let leaf := write_extent_buffer leaf name name_ptr in
  write_extent_buffer leaf data data_ptr.

Section DirItem.
Context {X : Type} `{ExtentTree X} (env : tree_env).
Open Scope act_scope.

Abbreviation world := (tree_world X).

(** [btrfs_alloc_path], what is done with the path, [btrfs_free_path]; [nomem]
    is what the caller does without memory. *)
Definition with_new_path {A} (mem : bool) (nomem body : act world A) : act world A :=
  if negb mem then nomem
  else
    saved <- gets (fun w => tw_path w) ;;
    btrfs_release_path ;;;
    r <- body ;;
    modify (fun w => with_path w saved) ;;;
    ret r.

Definition btrfs_match_dir_item_name (name : list Z) : act world (option Z) :=
  leaf <- path_block 0 ;;
  slot <- path_slot 0 ;;
  d <- eb_read leaf ;;
  let dir_item := btrfs_item_ptr_offset d slot in
  let total_len := btrfs_item_size_nr d slot in
  lift (match_dir_item_loop (S (Z.to_nat (total_len / sizeof_dir_item))) d name dir_item 0 total_len).

(** An error, or the place of the entry: behind the ones that are there. *)
Definition insert_with_overflow (fuel : nat) (cpu_key : btrfs_key) (data_size : Z) (name : list Z)
    : act world (Z + Z) :=
  r <- btrfs_insert_empty_items env fuel [(cpu_key, data_size)] ;;
  r <- (if r =? - EEXIST then
          di <- btrfs_match_dir_item_name name ;;
          match di with
          | Some _ => ret (- EEXIST)
          | None => r <- btrfs_extend_item env data_size ;; bug_on (0 <? r) ;;; ret r
          end
        else ret r) ;;
  if r <? 0 then ret (inl r)
  else
    bug_on (0 <? r) ;;;
    leaf <- path_block 0 ;;
    slot <- path_slot 0 ;;
    d <- eb_read leaf ;;
    let item := btrfs_item_nr slot in
    let ptr := btrfs_item_ptr_offset d slot in
    bug_on (btrfs_item_size d item <? data_size) ;;;
    ret (inr (ptr + (btrfs_item_size d item - data_size))).

Definition btrfs_insert_xattr_item (mem : bool) (fuel : nat) (name data : list Z) (dir : Z) : act world Z :=
  let key := BtrfsKey dir BTRFS_XATTR_ITEM_KEY (btrfs_name_hash name) in
  with_new_path mem (ret (- ENOMEM))
    (let data_size := u32 (sizeof_dir_item + Z.of_nat (length name) + Z.of_nat (length data)) in
     dir_item <- insert_with_overflow fuel key data_size name ;;
     match dir_item with
     | inl _ => bug
     | inr dir_item =>
         leaf <- path_block 0 ;;
         eb_update leaf (fun d => fill_xattr_item d dir_item name data) ;;;
         ret 0
     end).

(** [tree_root] says whether the root is the tree of tree roots. *)
Definition btrfs_insert_dir_item (mem : bool) (fuel : nat) (tree_root : bool) (name : list Z) (dir : Z)
    (location : btrfs_key) (ty index : Z) : act world Z :=
  let key := BtrfsKey dir BTRFS_DIR_ITEM_KEY (btrfs_name_hash name) in
  with_new_path mem (ret (- ENOMEM))
    (let data_size := u32 (sizeof_dir_item + Z.of_nat (length name)) in
     dir_item <- insert_with_overflow fuel key data_size name ;;
     match dir_item with
     | inl err => ret err
     | inr dir_item =>
         leaf <- path_block 0 ;;
         eb_update leaf (fun d => fill_dir_item d dir_item location ty name) ;;;
         if tree_root then ret 0
         else
           btrfs_release_path ;;;
           let key := BtrfsKey (objectid key) BTRFS_DIR_INDEX_KEY index in
           dir_item <- insert_with_overflow fuel key data_size name ;;
           match dir_item with
           | inl err => ret err
           | inr dir_item =>
               leaf <- path_block 0 ;;
               eb_update leaf (fun d => fill_dir_item d dir_item location ty name) ;;;
               ret 0
           end
     end).

(** The error, or the entry if there is one; the path is the caller's. *)
Definition btrfs_lookup_dir_item (fuel : nat) (dir : Z) (name : list Z) (mod_ : Z) : act world (Z + option Z) :=
  let ins_len := if mod_ <? 0 then -1 else 0 in
  let cow := negb (mod_ =? 0) in
  let key := BtrfsKey dir BTRFS_DIR_ITEM_KEY (btrfs_name_hash name) in
  r <- btrfs_search_slot env fuel key ins_len cow ;;
  if r <? 0 then ret (inl r)
  else
    slot <- path_slot 0 ;;
    if (0 <? r) && (slot =? 0) then ret (inr None)
    else
      (if 0 <? r then set_path_slot 0 (slot - 1) else ret tt) ;;;
      leaf <- path_block 0 ;;
      slot <- path_slot 0 ;;
      d <- eb_read leaf ;;
      let found_key := btrfs_item_key d slot in
      if negb (objectid found_key =? dir) || negb (type found_key =? BTRFS_DIR_ITEM_KEY) ||
         negb (offset found_key =? offset key)
      then ret (inr None)
      else
        di <- btrfs_match_dir_item_name name ;;
        ret (inr di).
End DirItem.
