(* ===== verification/InodeItem.v ===== *)
(** Inodes, references to them, roots and references to those:
    [src/inode-item.c], [src/root-tree.c] and [src/inode-map.c]. *)

From S2P Require Import Prelude Buf CtreeFmt ItemFmt LeafOps TreeWorld TreeBalance TreeOps DirItem.

(** The loop of [find_name_in_backref] on the item at [ptr]. *)
Fixpoint find_name_loop (fuel : nat) (leaf : buf) (name : list Z) (ptr cur_offset item_size : Z)
    : option (option Z) :=
  if cur_offset <? item_size then
    match fuel with
    | O => None
    | S fuel =>
        let ref := ptr + cur_offset in
        let len := btrfs_inode_ref_name_len leaf ref in
        let name_ptr := ref + sizeof_inode_ref in
        let cur_offset := u32 (cur_offset + (len + sizeof_inode_ref)) in
        if negb (len =? Z.of_nat (length name)) then find_name_loop fuel leaf name ptr cur_offset item_size
        else if memcmp_extent_buffer leaf name name_ptr then Some (Some ref)
        else find_name_loop fuel leaf name ptr cur_offset item_size
    end
  else Some None.

Definition fill_inode_ref (leaf : buf) (ref index : Z) (name : list Z) : buf :=
  let leaf := btrfs_set_inode_ref_name_len leaf ref (Z.of_nat (length name)) in
  let leaf := btrfs_set_inode_ref_index leaf ref index in
  write_extent_buffer leaf name (ref + sizeof_inode_ref).

Definition fill_root_ref (leaf : buf) (ref dirid sequence : Z) (name : list Z) : buf :=
  let leaf := btrfs_set_root_ref_dirid leaf ref dirid in
  let leaf := btrfs_set_root_ref_sequence leaf ref sequence in
  let leaf := btrfs_set_root_ref_name_len leaf ref (Z.of_nat (length name)) in
  write_extent_buffer leaf name (ref + sizeof_root_ref).

Section InodeItem.
Context {X : Type} `{ExtentTree X} (env : tree_env).
Open Scope act_scope.

Abbreviation world := (tree_world X).

(** ** Inodes *)

Definition find_name_in_backref (name : list Z) : act world (option Z) :=
  leaf <- path_block 0 ;;
  slot <- path_slot 0 ;;
  d <- eb_read leaf ;;
  let item_size := btrfs_item_size_nr d slot in
  let ptr := btrfs_item_ptr_offset d slot in
  lift (find_name_loop (S (Z.to_nat (item_size / sizeof_inode_ref))) d name ptr 0 item_size).

Definition btrfs_insert_inode_ref (mem : bool) (fuel : nat) (name : list Z) (inode_objectid ref_objectid index : Z)
    : act world Z :=
  let ins_len := s32 (Z.of_nat (length name) + sizeof_inode_ref) in
  let key := BtrfsKey inode_objectid BTRFS_INODE_REF_KEY ref_objectid in
  with_new_path mem (ret (- ENOMEM))
    (r <- btrfs_insert_empty_items env fuel [(key, u32 ins_len)] ;;
     if r =? - EEXIST then
       found <- find_name_in_backref name ;;
       match found with
       | Some _ => ret r
       | None =>
           leaf <- path_block 0 ;;
           slot <- path_slot 0 ;;
           d <- eb_read leaf ;;
           let old_size := btrfs_item_size_nr d slot in
           r <- btrfs_extend_item env (u32 ins_len) ;;
           bug_on (negb (r =? 0)) ;;;
           eb_update leaf (fun d => fill_inode_ref d (btrfs_item_ptr_offset d slot + old_size) index name) ;;;
           ret 0
       end
     else if r <? 0 then ret r
     else
       leaf <- path_block 0 ;;
       slot <- path_slot 0 ;;
       eb_update leaf (fun d => fill_inode_ref d (btrfs_item_ptr_offset d slot) index name) ;;;
       ret r).

(** [btrfs_lookup_inode]; a root is also found by its last version. *)
Definition btrfs_lookup_inode (fuel : nat) (location : btrfs_key) (mod_ : Z) : act world Z :=
  let ins_len := if mod_ <? 0 then -1 else 0 in
  let cow := negb (mod_ =? 0) in
  r <- btrfs_search_slot env fuel location ins_len cow ;;
  slot <- path_slot 0 ;;
  if (0 <? r) && (type location =? BTRFS_ROOT_ITEM_KEY) && (offset location =? U64_MAX) && negb (slot =? 0) then
    leaf <- path_block 0 ;;
    d <- eb_read leaf ;;
    let found_key := btrfs_item_key d (slot - 1) in
    if (objectid found_key =? objectid location) && (type found_key =? type location)
    then set_path_slot 0 (slot - 1) ;;; ret 0
    else ret r
  else ret r.

Definition btrfs_insert_inode (fuel : nat) (objectid : Z) (inode_item : list Z) : act world Z :=
  btrfs_insert_item env fuel (BtrfsKey objectid BTRFS_INODE_ITEM_KEY 0) inode_item.

(** ** Roots *)

(** The return value, and with 0 the key and the item. *)
Definition btrfs_find_last_root (mem : bool) (fuel : nat) (id : Z) : act world (Z * option (btrfs_key * list Z)) :=
  let search_key := BtrfsKey id BTRFS_ROOT_ITEM_KEY U64_MAX in
  with_new_path mem bug
    (r <- btrfs_search_slot env fuel search_key 0 false ;;
     if r <? 0 then ret (r, None)
     else
       slot <- path_slot 0 ;;
       if slot =? 0 then ret (- ENOENT, None)
       else
         bug_on (r =? 0) ;;;
         leaf <- path_block 0 ;;
         d <- eb_read leaf ;;
         let slot := slot - 1 in
         let found_key := btrfs_item_key d slot in
         if negb (objectid found_key =? id) then ret (- ENOENT, None)
         else
           let item := read_extent_buffer d (btrfs_item_ptr_offset d slot) (Z.to_nat sizeof_root_item) in
           ret (0, Some (found_key, item))).

Definition btrfs_update_root (mem : bool) (fuel : nat) (key : btrfs_key) (item : list Z) : act world Z :=
  with_new_path mem bug
    (r <- btrfs_search_slot env fuel key 0 true ;;
     if r <? 0 then ret r
     else
       bug_on (negb (r =? 0)) ;;;
       leaf <- path_block 0 ;;
       slot <- path_slot 0 ;;
       d <- eb_read leaf ;;
       let old_len := btrfs_item_size_nr d slot in
       r <- (if old_len <? sizeof_root_item then
               btrfs_release_path ;;;
               r <- btrfs_search_slot env fuel key (-1) true ;;
               if r <? 0 then ret r
               else
                 slot <- path_slot 0 ;;
                 r <- btrfs_del_items env slot 1 ;;
                 if r <? 0 then ret r
                 else
                   btrfs_release_path ;;;
                   btrfs_insert_empty_items env fuel [(key, sizeof_root_item)]
             else ret r) ;;
       if r <? 0 then ret r
       else
         leaf <- path_block 0 ;;
         slot <- path_slot 0 ;;
         let item := btrfs_set_root_generation_v2 item (btrfs_root_generation item) in
         eb_update leaf (fun d => write_extent_buffer d item (btrfs_item_ptr_offset d slot)) ;;;
         ret r).

Definition btrfs_insert_root (fuel : nat) (key : btrfs_key) (item : list Z) : act world Z :=
  let item := btrfs_set_root_generation_v2 item (btrfs_root_generation item) in
  btrfs_insert_item env fuel key item.

Definition btrfs_add_root_ref (mem : bool) (fuel : nat) (root_id ty ref_id dirid sequence : Z) (name : list Z)
    : act world Z :=
  let key := BtrfsKey root_id ty ref_id in
  with_new_path mem (ret (- ENOMEM))
    (r <- btrfs_insert_empty_items env fuel [(key, u32 (sizeof_root_ref + Z.of_nat (length name)))] ;;
     bug_on (negb (r =? 0)) ;;;
     leaf <- path_block 0 ;;
     slot <- path_slot 0 ;;
     eb_update leaf (fun d => fill_root_ref d (btrfs_item_ptr_offset d slot) dirid sequence name) ;;;
     ret r).

(** ** Free inode numbers *)

(** The loop of [btrfs_find_free_objectid]: an error, or the number.
    [start_found] and [last_ino] as in the code. *)
Fixpoint find_free_loop (fuel : nat) (search_start : Z) (start_found : bool) (last_ino : Z) : act world (Z + Z) :=
  match fuel with
  | O => bug
  | S fuel =>
      l <- path_block 0 ;;
      slot <- path_slot 0 ;;
      d <- eb_read l ;;
      if btrfs_header_nritems d <=? slot then
        r <- btrfs_next_leaf ;;
        if r =? 0 then find_free_loop fuel search_start start_found last_ino
        else if r <? 0 then ret (inl r)
        else if negb start_found then ret (inr search_start)
        else ret (inr (if search_start <? last_ino then last_ino else search_start))
      else
        let id := objectid (btrfs_item_key d slot) in
        let last_ino := if (search_start <=? id) && start_found && (last_ino <? search_start)
                        then search_start else last_ino in
        if (search_start <=? id) && start_found && (last_ino <? id) then ret (inr last_ino)
        else
          set_path_slot 0 (slot + 1) ;;;
          find_free_loop fuel search_start true (u64 (id + 1))
  end.

(** [btrfs_find_free_objectid]: the return value and the number, which is also
    the new [last_inode_alloc] of the root.  The type of the search key is
    whatever the stack held, [ty]. *)
Definition btrfs_find_free_objectid (mem : bool) (fuel loop_fuel : nat) (last_inode_alloc ty : Z)
    : act world (Z * option Z) :=
  let search_start := Z.max last_inode_alloc BTRFS_FIRST_FREE_OBJECTID in
  let search_key := BtrfsKey search_start ty 0 in
  with_new_path mem bug
    (r <- btrfs_search_slot env fuel search_key 0 false ;;
     if r <? 0 then ret (r, None)
     else
       slot <- path_slot 0 ;;
       (if 0 <? slot then set_path_slot 0 (slot - 1) else ret tt) ;;;
       found <- find_free_loop loop_fuel search_start false 0 ;;
       match found with
       | inl err => ret (err, None)
       | inr id => bug_on (id <? search_start) ;;; ret (0, Some id)
       end).
End InodeItem.
