(* ===== verification/FileItem.v ===== *)
(** Extents of files and checksums of data: [src/file-item.c].

    [sectorsize] and [csum_size] are what the root and the super block say; the
    world of the checksum functions is that of the checksum tree. *)

From S2P Require Import Prelude Buf CtreeFmt ItemFmt LeafOps TreeWorld TreeBalance TreeOps Crc DirItem.

Definition EFBIG : Z := 27.

Definition fill_file_extent (leaf : buf) (item transid off disk_num_bytes num_bytes : Z) : buf :=
  let leaf := btrfs_set_file_extent_disk_bytenr leaf item off in
  let leaf := btrfs_set_file_extent_disk_num_bytes leaf item disk_num_bytes in
  let leaf := btrfs_set_file_extent_offset leaf item 0 in
  let leaf := btrfs_set_file_extent_num_bytes leaf item num_bytes in
  let leaf := btrfs_set_file_extent_ram_bytes leaf item num_bytes in
  let leaf := btrfs_set_file_extent_generation leaf item transid in
  let leaf := btrfs_set_file_extent_type leaf item BTRFS_FILE_EXTENT_REG in
  let leaf := btrfs_set_file_extent_compression leaf item 0 in
  let leaf := btrfs_set_file_extent_encryption leaf item 0 in
  btrfs_set_file_extent_other_encoding leaf item 0.

Definition fill_inline_extent (leaf : buf) (ei transid : Z) (buffer : list Z) : buf :=
  let leaf := btrfs_set_file_extent_generation leaf ei transid in
  let leaf := btrfs_set_file_extent_type leaf ei BTRFS_FILE_EXTENT_INLINE in
  let leaf := btrfs_set_file_extent_ram_bytes leaf ei (Z.of_nat (length buffer)) in
  let leaf := btrfs_set_file_extent_compression leaf ei 0 in
  let leaf := btrfs_set_file_extent_encryption leaf ei 0 in
  let leaf := btrfs_set_file_extent_other_encoding leaf ei 0 in
  write_extent_buffer leaf buffer (btrfs_file_extent_inline_start ei).

Definition MAX_CSUM_ITEMS (root : btrfs_root) (size : Z) : Z :=
  (BTRFS_LEAF_DATA_SIZE root - sizeof_item * 2) / size - 1.

Section FileItem.
Context {X : Type} `{ExtentTree X} (env : tree_env).
Open Scope act_scope.

Abbreviation world := (tree_world X).
Abbreviation root := (te_root env).

(** ** Extents *)

Definition btrfs_insert_file_extent (mem : bool) (fuel : nat) (objectid pos off disk_num_bytes num_bytes : Z)
    : act world Z :=
  let file_key := BtrfsKey objectid BTRFS_EXTENT_DATA_KEY pos in
  with_new_path mem bug
    (r <- btrfs_insert_empty_items env fuel [(file_key, sizeof_file_extent_item)] ;;
     if r <? 0 then ret r
     else
       bug_on (negb (r =? 0)) ;;;
       leaf <- path_block 0 ;;
       slot <- path_slot 0 ;;
       eb_update leaf (fun d =>
         fill_file_extent d (btrfs_item_ptr_offset d slot) (te_transid env) off disk_num_bytes num_bytes) ;;;
       ret r).

Definition btrfs_insert_inline_extent (mem : bool) (fuel : nat) (objectid off : Z) (buffer : list Z) : act world Z :=
  let key := BtrfsKey objectid BTRFS_EXTENT_DATA_KEY off in
  with_new_path mem (ret (- ENOMEM))
    (let datasize := btrfs_file_extent_calc_inline_size (Z.of_nat (length buffer)) in
     r <- btrfs_insert_empty_items env fuel [(key, datasize)] ;;
     if negb (r =? 0) then ret r
     else
       leaf <- path_block 0 ;;
       slot <- path_slot 0 ;;
       eb_update leaf (fun d => fill_inline_extent d (btrfs_item_ptr_offset d slot) (te_transid env) buffer) ;;;
       ret 0).

(** ** Checksums *)

Context (sectorsize csum_size : Z).

(** The error, or the place of the checksum of [bytenr]. *)
Definition btrfs_lookup_csum (fuel : nat) (bytenr : Z) (cow : bool) : act world (Z + Z) :=
  let file_key := BtrfsKey BTRFS_EXTENT_CSUM_OBJECTID BTRFS_EXTENT_CSUM_KEY bytenr in
  r <- btrfs_search_slot env fuel file_key 0 cow ;;
  if r <? 0 then ret (inl r)
  else
    leaf <- path_block 0 ;;
    found <- (if 0 <? r then
                slot <- path_slot 0 ;;
                if slot =? 0 then ret (inl (- ENOENT))
                else
                  set_path_slot 0 (slot - 1) ;;;
                  d <- eb_read leaf ;;
                  let found_key := btrfs_item_key d (slot - 1) in
                  if negb (type found_key =? BTRFS_EXTENT_CSUM_KEY) then ret (inl (- ENOENT))
                  else
                    let csum_offset := u64 (bytenr - offset found_key) / sectorsize in
                    let csums_in_item := Z.quot (s32 (btrfs_item_size_nr d (slot - 1))) csum_size in
                    if u64 csums_in_item <=? csum_offset then ret (inl (- EFBIG)) else ret (inr csum_offset)
              else ret (inr 0)) ;;
    match found with
    | inl err => ret (inl err)
    | inr csum_offset =>
        slot <- path_slot 0 ;;
        d <- eb_read leaf ;;
        ret (inr (btrfs_item_ptr_offset d slot + csum_offset * csum_size))
    end.

(** The labels of [btrfs_csum_file_block]: [found], *)
Definition csum_found (leaf item : Z) (data : list Z) : act world Z :=
  let csum_result := btrfs_csum_final (__crc32c_le (u32 (Z.lnot 0)) data) in
  eb_update leaf (fun d => write_extent_buffer d (take (Z.to_nat csum_size) csum_result) item) ;;;
  ret 0.

(** [csum], *)
Definition csum_csum (csum_offset : Z) (data : list Z) : act world Z :=
  leaf <- path_block 0 ;;
  slot <- path_slot 0 ;;
  d <- eb_read leaf ;;
  csum_found leaf (btrfs_item_ptr_offset d slot + csum_offset * csum_size) data.

(** and [insert]; [next] is the start of the next item, when one was found or
    there is none. *)
Definition csum_insert (fuel : nat) (file_key : btrfs_key) (alloc_end : Z) (next : option Z) (data : list Z)
    : act world Z :=
  btrfs_release_path ;;;
  let ins_size :=
    match next with
    | Some next_offset =>
        let tmp := u64 (Z.min alloc_end next_offset - offset file_key) / sectorsize in
        let tmp := Z.min (Z.max 1 tmp) (MAX_CSUM_ITEMS root csum_size) in
        u32 (csum_size * tmp)
    | None => csum_size
    end in
  r <- btrfs_insert_empty_items env fuel [(file_key, ins_size)] ;;
  if r <? 0 then ret r
  else
    bug_on (negb (r =? 0)) ;;;
    csum_csum 0 data.

Definition is_csum_key (k : btrfs_key) : bool :=
  (objectid k =? BTRFS_EXTENT_CSUM_OBJECTID) && (type k =? BTRFS_EXTENT_CSUM_KEY).

(** No item has the checksum: look where the next item starts. *)
Definition csum_next (file_key : btrfs_key) : act world (option Z) :=
  leaf <- path_block 0 ;;
  slot <- path_slot 0 ;;
  nritems <- nritems_of leaf ;;
  at_ <- (if u32 (nritems - 1) <=? u32 slot then
            r <- btrfs_next_leaf ;;
            if r =? 1 then ret (inl (Some U64_MAX))
            else if negb (r =? 0) then ret (inl None)
            else ret (inr 0)
          else ret (inr (slot + 1))) ;;
  match at_ with
  | inl next => ret next
  | inr slot =>
      leaf <- path_block 0 ;;
      d <- eb_read leaf ;;
      let found_key := btrfs_item_key d slot in
      ret (Some (if is_csum_key found_key then offset found_key else U64_MAX))
  end.

(** The item before ends too early: grow it by one checksum, if that is enough. *)
Definition csum_grow (fuel : nat) (file_key : btrfs_key) (alloc_end : Z) (data : list Z) : act world Z :=
  btrfs_release_path ;;;
  r <- btrfs_search_slot env fuel file_key csum_size true ;;
  if r <? 0 then ret r
  else
    bug_on (r =? 0) ;;;
    slot <- path_slot 0 ;;
    if slot =? 0 then csum_insert fuel file_key alloc_end None data
    else
      set_path_slot 0 (slot - 1) ;;;
      leaf <- path_block 0 ;;
      d <- eb_read leaf ;;
      let found_key := btrfs_item_key d (slot - 1) in
      let csum_offset := u64 (offset file_key - offset found_key) / sectorsize in
      let size := btrfs_item_size_nr d (slot - 1) in
      if negb (is_csum_key found_key) || (MAX_CSUM_ITEMS root csum_size <=? csum_offset)
      then csum_insert fuel file_key alloc_end None data
      else if size / csum_size <=? csum_offset then
        let diff := u32 (u32 ((csum_offset + 1) * csum_size) - size) in
        if negb (diff =? csum_size) then csum_insert fuel file_key alloc_end None data
        else
          r <- btrfs_extend_item env diff ;;
          bug_on (negb (r =? 0)) ;;;
          csum_csum csum_offset data
      else csum_insert fuel file_key alloc_end None data.

Definition btrfs_csum_file_block (mem : bool) (fuel : nat) (alloc_end bytenr : Z) (data : list Z) : act world Z :=
  let file_key := BtrfsKey BTRFS_EXTENT_CSUM_OBJECTID BTRFS_EXTENT_CSUM_KEY bytenr in
  with_new_path mem bug
    (item <- btrfs_lookup_csum fuel bytenr true ;;
     match item with
     | inr item => leaf <- path_block 0 ;; csum_found leaf item data
     | inl err =>
         if err =? - EFBIG then
           leaf <- path_block 0 ;;
           slot <- path_slot 0 ;;
           d <- eb_read leaf ;;
           if MAX_CSUM_ITEMS root csum_size <=? btrfs_item_size_nr d slot / csum_size
           then csum_insert fuel file_key alloc_end None data
           else csum_grow fuel file_key alloc_end data
         else
           next <- csum_next file_key ;;
           csum_insert fuel file_key alloc_end next data
     end).

(** [truncate_one_csum] on the item of the path, which overlaps one end of the
    range. *)
Definition truncate_one_csum (key : btrfs_key) (bytenr len : Z) : act world Z :=
  let end_byte := u64 (bytenr + len) in
  leaf <- path_block 0 ;;
  slot <- path_slot 0 ;;
  d <- eb_read leaf ;;
  let csum_end := u64 (u64 (btrfs_item_size_nr d slot / csum_size * sectorsize) + offset key) in
  if (offset key <? bytenr) && (csum_end <=? end_byte) then
    let new_size := u32 (u32 ((bytenr - offset key) / sectorsize) * csum_size) in
    r <- btrfs_truncate_item env new_size true ;;
    bug_on (negb (r =? 0)) ;;;
    ret 0
  else if (bytenr <=? offset key) && (end_byte <? csum_end) && (offset key <? end_byte) then
    let new_size := u32 (u32 ((csum_end - end_byte) / sectorsize) * csum_size) in
    r <- btrfs_truncate_item env new_size false ;;
    bug_on (negb (r =? 0)) ;;;
    r <- btrfs_set_item_key_safe (BtrfsKey (objectid key) (type key) end_byte) ;;
    bug_on (negb (r =? 0)) ;;;
    ret 0
  else bug.

(** The loop of [btrfs_del_csums]. *)
Fixpoint del_csums_loop (fuel search_fuel : nat) (bytenr len : Z) : act world Z :=
  match fuel with
  | O => bug
  | S fuel =>
      let end_byte := u64 (bytenr + len) in
      let key := BtrfsKey BTRFS_EXTENT_CSUM_OBJECTID BTRFS_EXTENT_CSUM_KEY (u64 (end_byte - 1)) in
      r <- btrfs_search_slot env search_fuel key (-1) true ;;
      slot <- path_slot 0 ;;
      if (0 <? r) && (slot =? 0) then ret 0
      else
        (if 0 <? r then set_path_slot 0 (slot - 1) else ret tt) ;;;
        leaf <- path_block 0 ;;
        slot <- path_slot 0 ;;
        d <- eb_read leaf ;;
        let key := btrfs_item_key d slot in
        let csum_end := u64 (u64 (btrfs_item_size_nr d slot / csum_size * sectorsize) + offset key) in
        if negb (is_csum_key key) || (end_byte <=? offset key) || (csum_end <=? bytenr) then ret 0
        else
          (if (bytenr <=? offset key) && (csum_end <=? end_byte) then
             r <- btrfs_del_items env slot 1 ;;
             bug_on (negb (r =? 0))
           else if (offset key <? bytenr) && (end_byte <? csum_end) then
             let off := (bytenr - offset key) / sectorsize * csum_size in
             let shift_len := len / sectorsize * csum_size in
             let item_offset := btrfs_item_ptr_offset d slot in
             eb_update leaf (fun d => memset_extent_buffer d 0 (item_offset + off) shift_len) ;;;
             r <- btrfs_split_item env search_fuel (BtrfsKey (objectid key) (type key) bytenr) off ;;
             bug_on (negb (r =? 0) && negb (r =? - EAGAIN))
           else
             r <- truncate_one_csum key bytenr len ;;
             bug_on (negb (r =? 0))) ;;;
          btrfs_release_path ;;;
          del_csums_loop fuel search_fuel bytenr len
  end.

Definition btrfs_del_csums (mem : bool) (fuel search_fuel : nat) (bytenr len : Z) : act world Z :=
  with_new_path mem (ret (- ENOMEM)) (del_csums_loop fuel search_fuel bytenr len).
End FileItem.
