(* ===== verification/TreeSpec.v ===== *)
(** Trees as sequences of items, and paths as positions in them.

    [subtree m n b L]: the block [b] is the root of a tree of [n] levels above
    the leaves that holds the items [L], in the blocks [m].  [on_path] says
    where a path leads in such a tree. *)

From stdpp Require Import sorting.
From S2P Require Import Prelude Buf CtreeFmt LeafOps LeafSpec NodeOps TreeWorld TreeBalance TreeOps.

Implicit Types (L l pre post : list item) (ps : list key_ptr) (key : btrfs_key).

Section Spec.
Context (root : btrfs_root) (Hroot : root_ok root).

Definition leaf_block (m : gmap Z extent_buffer) (b : Z) l : Prop :=
  exists e, m !! b = Some e /\ eb_len e = leafsize root /\
    btrfs_header_level (eb_data e) = 0 /\ leaf_repr root (eb_data e) l.

Definition node_block (m : gmap Z extent_buffer) (b : Z) (n : nat) ps : Prop :=
  exists e, m !! b = Some e /\ btrfs_header_level (eb_data e) = Z.of_nat n /\
    node_repr root (eb_data e) ps /\ ps <> [].

(** The key of a pointer is the first key under it. *)
Definition heads_ok (x : key_ptr) L : Prop := head (L.*1) = Some (kp_key x).

Fixpoint subtree (m : gmap Z extent_buffer) (n : nat) (b : Z) L : Prop :=
  match n with
  | O => leaf_block m b L
  | S n => exists ps Ls, node_block m b (S n) ps /\
      Forall2 (fun x L => subtree m n (kp_blockptr x) L /\ heads_ok x L) ps Ls /\ L = concat Ls
  end.

(** The blocks of the tree under [b], each as often as it is pointed to. *)
Fixpoint tree_blocks (m : gmap Z extent_buffer) (n : nat) (b : Z) : list Z :=
  b :: match n, m !! b with
       | S n, Some e =>
           concat ((fun x => tree_blocks m n (kp_blockptr x)) <$>
                   ptrs (eb_data e) 0 (Z.to_nat (btrfs_header_nritems (eb_data e))))
       | _, _ => []
       end.

Lemma tree_blocks_node m n b ps :
  node_block m b (S n) ps -> tree_blocks m (S n) b = b :: concat ((fun x => tree_blocks m n (kp_blockptr x)) <$> ps).
Proof using Type.
  intros (e & He & _ & Hr & _). cbn [tree_blocks]. by rewrite He, (nr_nritems _ _ _ Hr), Nat2Z.id, (nr_ptrs _ _ _ Hr).
Qed.

Lemma tree_blocks_self m n b : b ∈ tree_blocks m n b.
Proof using Type. clear Hroot. destruct n; left. Qed.

Lemma tree_blocks_child m n b P1 x P2 a :
  node_block m b (S n) (P1 ++ x :: P2) -> a ∈ tree_blocks m n (kp_blockptr x) -> a ∈ tree_blocks m (S n) b.
Proof using Type.
  clear Hroot. intros Hb Ha. rewrite (tree_blocks_node _ _ _ _ Hb). right. rewrite fmap_app, concat_app. simpl. set_solver.
Qed.

(** The path goes from [b] at level [n] to a leaf with the items [l]; [pre]
    are the items before that leaf and [post] those behind it. *)
Fixpoint on_path (m : gmap Z extent_buffer) (p : btrfs_path) (n : nat) (b : Z) (pre l post : list item) : Prop :=
  p_nodes p (Z.of_nat n) = Some b /\
  match n with
  | O => leaf_block m b l /\ pre = [] /\ post = []
  | S n => exists P1 x P2 C1 C2 pre' post', node_block m b (S n) (P1 ++ x :: P2) /\
      p_slots p (Z.of_nat (S n)) = Z.of_nat (length P1) /\
      Forall2 (fun x L => subtree m n (kp_blockptr x) L /\ heads_ok x L) P1 C1 /\
      Forall2 (fun x L => subtree m n (kp_blockptr x) L /\ heads_ok x L) P2 C2 /\
      on_path m p n (kp_blockptr x) pre' l post' /\ heads_ok x (pre' ++ l ++ post') /\
      pre = concat C1 ++ pre' /\ post = post' ++ concat C2
  end.

Lemma on_path_subtree m p n b pre l post :
  on_path m p n b pre l post -> subtree m n b (pre ++ l ++ post).
Proof using Type.
  revert b pre l post. induction n as [|n IH]; intros b pre l post; cbn [on_path subtree].
  - intros (_ & Hl & -> & ->). simpl. by rewrite app_nil_r.
  - intros (_ & P1 & x & P2 & C1 & C2 & pre' & post' & Hb & _ & H1 & H2 & Hp & Hh & -> & ->).
    exists (P1 ++ x :: P2), (C1 ++ (pre' ++ l ++ post') :: C2). split; [done|]. split.
    + apply Forall2_app; [done|]. constructor; [|done]. split; [by apply IH|done].
    + rewrite concat_app. simpl. by rewrite <- !(assoc_L (++)).
Qed.

(** ** Order *)

Lemma heads_nonempty x L : heads_ok x L -> L <> [].
Proof using Type. by intros Hh ->. Qed.

(** The keys of the pointers are sorted when the items are. *)
Lemma sorted_heads ps (Ls : list (list item)) :
  Forall2 heads_ok ps Ls -> sorted_keys ((concat Ls).*1) -> sorted_keys (kp_key <$> ps).
Proof using Type.
  induction 1 as [|x L ps Ls Hx Hall IH]; simpl; [constructor|]. intros Hs.
  rewrite fmap_app in Hs. constructor; [by apply IH, (StronglySorted_app_1_r _ _ _ Hs)|].
  apply Forall_fmap, Forall_forall. intros y Hy.
  apply list_elem_of_lookup in Hy as [i Hi]. destruct (Forall2_lookup_l _ _ _ _ _ Hall Hi) as (Ly & HLy & Hh).
  apply (StronglySorted_app_1_elem_of _ _ _ _ _ Hs).
  - unfold heads_ok in Hx. destruct L as [|z L]; [done|]. simpl in Hx. injection Hx as <-. left.
  - unfold heads_ok in Hh. destruct Ly as [|z Ly]; [done|]. simpl in Hh. injection Hh as <-.
    apply list_elem_of_fmap. exists z. split; [done|]. apply list_elem_of_In, in_concat.
    exists (z :: Ly). split; [|by left]. apply list_elem_of_In. by apply list_elem_of_lookup_2 in HLy.
Qed.

Lemma Forall2_heads (P : key_ptr -> list item -> Prop) ps (Ls : list (list item)) :
  Forall2 (fun x L => P x L /\ heads_ok x L) ps Ls -> Forall2 heads_ok ps Ls.
Proof using Type. intros Hf. eapply Forall2_impl; [exact Hf|]. by intros x L [_ Hh]. Qed.

Lemma subtree_head m n b L : subtree m (S n) b L -> L <> [].
Proof using Type.
  intros (ps & Ls & (e & _ & _ & _ & Hne) & Hf & ->). destruct Hf as [|x L ps Ls [_ Hh]]; [done|].
  apply heads_nonempty in Hh. destruct L; [done|]. by simpl.
Qed.

(** ** Searching a node *)

Lemma node_key_at d ps i k :
  node_repr root d ps -> (kp_key <$> ps) !! i = Some k -> btrfs_node_key d (Z.of_nat i) = k.
Proof using Type.
  intros Hr Hi. apply list_lookup_fmap_Some in Hi as (x & -> & Hi).
  apply list_elem_of_split_length in Hi as (A & B & -> & ->).
  pose proof (repr_ptrs root d A [x] B Hr) as Hp. cbn [length ptrs] in Hp.
  apply (f_equal head) in Hp. injection Hp as Hp. by rewrite <- Hp.
Qed.

Lemma bin_search_node d ps key (level : Z) :
  node_repr root d ps -> sorted_keys (kp_key <$> ps) -> level <> 0 ->
  exists r slot, bin_search d key level = Some (r, slot) /\ found (kp_key <$> ps) key r slot.
Proof using Hroot.
  intros Hr Hs Hl. pose proof (nr_fits _ _ _ Hr) as Hf. pose proof (capacity_bounds root Hroot). unfold bin_search.
  rewrite (nr_nritems _ _ _ Hr), s32_id by lia. rewrite (proj2 (Z.eqb_neq _ _)) by done.
  rewrite <- (length_fmap kp_key ps). apply generic_bin_search_spec; [|done|rewrite length_fmap; lia].
  intros i k Hi. rewrite <- (node_key_at d ps i k Hr Hi). unfold btrfs_node_key. f_equal. node_lia.
Qed.

(** The child a search goes down to. *)
Lemma choose_child ps key r slot :
  ps <> [] -> found (kp_key <$> ps) key r slot ->
  let slot' := if negb (r =? 0) && (0 <? slot) then slot - 1 else slot in
  exists P1 x P2, ps = P1 ++ x :: P2 /\ slot' = Z.of_nat (length P1) /\
    (P1 = [] \/ ~ key_lt key (kp_key x)) /\ Forall (fun y => key_lt key (kp_key y)) P2.
Proof using Type.
  intros Hne (A & B & -> & HA & HB & [[-> Heq]|[-> Heq]]) slot'; subst slot'; simpl.
  - apply fmap_app_inv in Heq as (P1 & P2 & -> & H2 & ->). symmetry in H2.
    apply fmap_cons_inv in H2 as (x & P2' & -> & -> & ->). exists P1, x, P2'.
    rewrite length_fmap. split_and!; [done|done|right; by apply key_lt_irrefl|exact (proj1 (Forall_fmap _ _ _) HB)].
  - apply fmap_app_inv in Heq as (P1 & P2 & -> & -> & ->). rewrite length_fmap.
    destruct P1 as [|x P1 _] using rev_ind.
    + destruct P2 as [|x P2]; [done|]. exists [], x, P2. simpl. split_and!; [done|done|by left|].
      rewrite fmap_cons, Forall_cons, Forall_fmap in HB. by destruct HB.
    + exists P1, x, P2. rewrite <- (assoc_L (++)), length_app. simpl.
      rewrite (proj2 (Z.ltb_lt _ _)) by lia. split_and!; [done|lia| |exact (proj1 (Forall_fmap _ _ _) HB)].
      right. apply Forall_fmap, Forall_app in HA as [_ HA]. inversion_clear HA as [|? ? Hx _].
      intros Hlt. by apply (key_lt_irrefl key), (key_lt_trans _ _ _ Hlt).
Qed.

(** ** Checking a node *)

Lemma check_node_loop_sorted d ps n i :
  node_repr root d ps -> sorted_keys (kp_key <$> ps) -> (i + n < length ps)%nat ->
  check_node_loop n (Z.of_nat i) d = true.
Proof using Type.
  intros Hr Hs. revert i. induction n as [|n IH]; intros i Hi; [done|]. cbn [check_node_loop].
  destruct (lookup_lt_is_Some_2 (kp_key <$> ps) i) as [k Hk]; [rewrite length_fmap; lia|].
  destruct (lookup_lt_is_Some_2 (kp_key <$> ps) (S i)) as [k' Hk']; [rewrite length_fmap; lia|].
  replace (Z.of_nat i + 1) with (Z.of_nat (S i)) by lia.
  rewrite (node_key_at _ _ _ _ Hr Hk), (node_key_at _ _ _ _ Hr Hk').
  pose proof (sorted_lookup _ i (S i) k k' Hs ltac:(lia) Hk Hk') as Hlt. unfold key_lt in Hlt.
  rewrite (proj2 (Z.leb_gt _ _)) by lia. apply IH. lia.
Qed.

Lemma check_node_ok d ps x pk :
  node_repr root d ps -> sorted_keys (kp_key <$> ps) -> head ps = Some x ->
  parent_key_ok pk (kp_key x) = true -> btrfs_check_node root pk d = (0, None).
Proof using Type.
  intros Hr Hs Hx Hpk. pose proof (nr_fits _ _ _ Hr). unfold btrfs_check_node.
  destruct ps as [|y ps]; [done|]. injection Hx as ->.
  rewrite (nr_nritems _ _ _ Hr), (proj2 (Z.eqb_neq _ 0)), (proj2 (Z.ltb_ge _ _)) by (simpl in *; lia). simpl orb.
  pose proof (node_key_at d (x :: ps) 0 (kp_key x) Hr eq_refl) as H0. change (Z.of_nat 0) with 0 in H0.
  rewrite H0, Hpk. cbn [negb].
  assert (Hc : check_count (Z.of_nat (length (x :: ps))) = (length (x :: ps) - 2)%nat).
  { unfold check_count. destruct (Z.ltb_spec 1 (Z.of_nat (length (x :: ps)))); lia. }
  rewrite Hc. pose proof (check_node_loop_sorted d (x :: ps) (length (x :: ps) - 2) 0 Hr Hs) as Hl.
  change (Z.of_nat 0) with 0 in Hl. rewrite Hl by (simpl; lia). done.
Qed.

Lemma check_leaf_ok d l pk :
  leaf_repr root d l -> btrfs_header_level d = 0 -> sorted_keys (l.*1) ->
  (forall k, head (l.*1) = Some k -> parent_key_ok pk k = true) ->
  fst <$> btrfs_check_leaf root pk d (leafsize root) = Some 0.
Proof using Hroot.
  intros Hr Hl Hs Hpk. destruct l as [|[k x] l].
  - pose proof (repr_bounds root Hroot _ _ Hr). unfold btrfs_check_leaf.
    rewrite (lr_nritems _ _ _ Hr), Hl, (repr_free_space root Hroot _ _ Hr). cbn [mbind option_bind length dsize].
    rewrite (proj2 (Z.ltb_ge (leafsize root) _)) by leaf_lia. cbn [negb Z.eqb].
    rewrite (proj2 (Z.ltb_ge _ 0)) by leaf_lia. done.
  - apply (check_leaf_spec root Hroot d ((k, x) :: l) pk k Hr Hl eq_refl). split; [by apply Hpk|].
    by apply sorted_pairs.
Qed.
End Spec.
