(* ===== verification/TreeSearch.v ===== *)
(** [btrfs_search_slot] finds its way: in a tree whose blocks need neither
    copying nor splitting it ends at the leaf and slot of the key. *)

From stdpp Require Import sorting.
From S2P Require Import Prelude Buf CtreeFmt LeafOps LeafSpec NodeOps TreeWorld TreeBalance TreeOps TreeSpec.

Implicit Types (L l pre post : list item) (ps : list key_ptr) (key k : btrfs_key).

Section Search.
Context {X : Type} `{ExtentTree X} (env : tree_env).
Context (Hroot : root_ok (te_root env)).

Abbreviation world := (tree_world X).
Abbreviation root := (te_root env).
Implicit Types (w : world) (m : gmap Z extent_buffer) (p : btrfs_path).

(** ** Running the accessors *)

Lemma eb_get_run w b e : tw_blocks w !! b = Some e -> eb_get b w = Some (e, w).
Proof using Type. intros Hb. unfold eb_get, deref. by rewrite Hb. Qed.

Lemma eb_read_run w b e : tw_blocks w !! b = Some e -> eb_read b w = Some (eb_data e, w).
Proof using Type. intros Hb. unfold eb_read. by rewrite (bind_some _ _ _ _ _ (eb_get_run w b e Hb)). Qed.

Lemma eb_write_run w b e d :
  tw_blocks w !! b = Some e ->
  eb_write b d w = Some (tt, with_blocks w (<[b := ExtentBuffer (eb_len e) (eb_bad_transid e) d]> (tw_blocks w))).
Proof using Type. intros Hb. unfold eb_write. by rewrite (bind_some _ _ _ _ _ (eb_get_run w b e Hb)). Qed.

Lemma eb_update_run w b e f :
  tw_blocks w !! b = Some e ->
  eb_update b f w =
    Some (tt, with_blocks w (<[b := ExtentBuffer (eb_len e) (eb_bad_transid e) (f (eb_data e))]> (tw_blocks w))).
Proof using Type.
  intros Hb. unfold eb_update. rewrite (bind_some _ _ _ _ _ (eb_read_run w b e Hb)). by apply eb_write_run.
Qed.

Lemma path_node_run w i : in_path i = true -> path_node i w = Some (p_nodes (tw_path w) i, w).
Proof using Type. intros Hi. unfold path_node. by rewrite Hi. Qed.

Lemma path_slot_run w i : in_path i = true -> path_slot i w = Some (p_slots (tw_path w) i, w).
Proof using Type. intros Hi. unfold path_slot. by rewrite Hi. Qed.

Definition node_upd p (i : Z) (b : option Z) : btrfs_path :=
  BtrfsPath (upd (p_nodes p) i b) (p_slots p) (p_lowest_level p) (p_search_for_split p).
Definition slot_upd p (i s : Z) : btrfs_path :=
  BtrfsPath (p_nodes p) (upd (p_slots p) i s) (p_lowest_level p) (p_search_for_split p).

Lemma set_path_node_run w i b : in_path i = true -> set_path_node i b w = Some (tt, with_path w (node_upd (tw_path w) i b)).
Proof using Type. intros Hi. unfold set_path_node. by rewrite Hi. Qed.

Lemma set_path_slot_run w i s : in_path i = true -> set_path_slot i s w = Some (tt, with_path w (slot_upd (tw_path w) i s)).
Proof using Type. intros Hi. unfold set_path_slot. by rewrite Hi. Qed.

Lemma path_block_run w i b :
  in_path i = true -> p_nodes (tw_path w) i = Some b -> path_block i w = Some (b, w).
Proof using Type.
  intros Hi Hb. unfold path_block. rewrite (bind_some _ _ _ _ _ (path_node_run w i Hi)). by rewrite Hb.
Qed.

Lemma upd_same {A} (f : Z -> A) i v : upd f i v i = v.
Proof using Type. unfold upd. by rewrite Z.eqb_refl. Qed.
Lemma upd_other {A} (f : Z -> A) i j v : j <> i -> upd f i v j = f j.
Proof using Type. intros Hj. unfold upd. by rewrite (proj2 (Z.eqb_neq _ _)). Qed.

Lemma in_path_lt i : 0 <= i < 8 -> in_path i = true.
Proof using Type. intros Hi. unfold in_path, BTRFS_MAX_LEVEL. rewrite (proj2 (Z.leb_le _ _)), (proj2 (Z.ltb_lt _ _)); lia. Qed.

(** ** No copying *)

Definition block_current (e : extent_buffer) : bool :=
  (btrfs_header_generation (eb_data e) =? te_transid env) &&
  negb (btrfs_header_flag (eb_data e) BTRFS_HEADER_FLAG_WRITTEN) &&
  negb (negb (te_objectid env =? BTRFS_TREE_RELOC_OBJECTID) &&
        btrfs_header_flag (eb_data e) BTRFS_HEADER_FLAG_RELOC).

(** The blocks [T] were allocated in the running transaction, or nothing is to
    be copied. *)
Definition no_copy m (T : list Z) (cow : bool) : Prop :=
  cow = true -> te_transid env = te_generation env /\
    forall b e, b ∈ T -> m !! b = Some e -> block_current e = true.

Lemma cow_block_current w T b e parent slot :
  no_copy (tw_blocks w) T true -> b ∈ T -> tw_blocks w !! b = Some e ->
  btrfs_cow_block env b parent slot w = Some (inr b, w).
Proof using Type.
  intros Hq HT Hb. destruct (Hq eq_refl) as [Ht Hc]. unfold btrfs_cow_block.
  rewrite Ht, Z.eqb_refl. simpl negb. unfold bug_on.
  rewrite (bind_some _ _ w tt w) by done.
  unfold should_cow_block. rewrite (bind_some _ _ w (negb (block_current e)) w).
  - by rewrite (Hc b e HT Hb).
  - rewrite (bind_some _ _ w (eb_data e) w) by (by apply eb_read_run). done.
Qed.

(** ** The check of a block *)

(** The parent of level [n] in the path names the key [k]. *)
Definition parent_names w (n : nat) (ko : option btrfs_key) : Prop :=
  p_nodes (tw_path w) (Z.of_nat n + 1) = None \/
  exists pb pe, p_nodes (tw_path w) (Z.of_nat n + 1) = Some pb /\ tw_blocks w !! pb = Some pe /\
    Some (btrfs_node_key (eb_data pe) (p_slots (tw_path w) (Z.of_nat n + 1))) = ko.

Lemma check_block_run w n b e ko :
  (n < 7)%nat -> p_nodes (tw_path w) (Z.of_nat n) = Some b -> tw_blocks w !! b = Some e ->
  parent_names w n ko ->
  (forall pk, (pk = None \/ pk = ko) ->
     (if Z.of_nat n =? 0 then fst <$> btrfs_check_leaf root pk (eb_data e) (eb_len e)
      else Some (fst (btrfs_check_node root pk (eb_data e)))) = Some 0) ->
  check_block env (Z.of_nat n) w = Some (0, w).
Proof using Type.
  intros Hn Hb He Hp Hck. unfold check_block.
  rewrite (bind_some _ _ _ _ _ (path_node_run w (Z.of_nat n + 1) ltac:(apply in_path_lt; lia))).
  assert (Hkp : exists pk, (pk = None \/ pk = ko) /\
    (match p_nodes (tw_path w) (Z.of_nat n + 1) with
     | Some p => bind (eb_read p) (fun pd => bind (path_slot (Z.of_nat n + 1)) (fun s => ret (Some (btrfs_node_key pd s))))
     | None => ret None
     end) w = Some (pk, w)).
  { destruct Hp as [->|(pb & pe & -> & Hpe & <-)]; [by exists None; auto|].
    eexists. split; [by right|]. rewrite (bind_some _ _ _ _ _ (eb_read_run w pb pe Hpe)).
    by rewrite (bind_some _ _ _ _ _ (path_slot_run w (Z.of_nat n + 1) ltac:(apply in_path_lt; lia))). }
  destruct Hkp as (pk & Hpk & Hrun). rewrite (bind_some _ _ _ _ _ Hrun). specialize (Hck pk Hpk).
  rewrite (bind_some _ _ _ _ _ (path_node_run w (Z.of_nat n) ltac:(apply in_path_lt; lia))), Hb.
  rewrite (bind_some _ _ w b w) by done. rewrite (bind_some _ _ _ _ _ (eb_get_run w b e He)).
  destruct (Z.of_nat n =? 0).
  - destruct (btrfs_check_leaf root pk (eb_data e) (eb_len e)) as [[r o]|]; [|done].
    simpl in Hck. injection Hck as ->. done.
  - injection Hck as Hck. unfold ret. by rewrite Hck.
Qed.

Lemma parent_key_ok_self k pk : pk = None \/ pk = Some k -> parent_key_ok pk k = true.
Proof using Type. intros [->| ->]; simpl; [done|]. rewrite bool_decide_eq_true_2 by done. by rewrite orb_true_r. Qed.

(** ** One round of the search *)

(** The ground every round on a block of [T] stands on. *)
Record calm w (T : list Z) (ins_len : Z) (cow : bool) : Prop := {
  calm_copy : no_copy (tw_blocks w) T cow;
  calm_len : cow = false -> ins_len = 0;
  calm_split : p_search_for_split (tw_path w) = false;
  calm_nodes : 0 < ins_len -> forall b n ps, b ∈ T -> node_block root (tw_blocks w) b (S n) ps ->
    Z.of_nat (length ps) < BTRFS_NODEPTRS_PER_BLOCK root - 3;
  calm_full : ins_len < 0 -> forall b n ps, b ∈ T -> node_block root (tw_blocks w) b (S n) ps ->
    BTRFS_NODEPTRS_PER_BLOCK root / 4 < Z.of_nat (length ps);
}.

Lemma search_enter w T ins_len cow n b e d :
  calm w T ins_len cow -> b ∈ T -> (n < 7)%nat -> tw_blocks w !! b = Some e -> eb_data e = d ->
  btrfs_header_level d = Z.of_nat n ->
  (if cow : bool then
     bind (path_node (btrfs_header_level d + 1)) (fun parent =>
     bind (path_slot (btrfs_header_level d + 1)) (fun pslot => btrfs_cow_block env b parent pslot))
   else ret (inr b)) w = Some (inr b, w).
Proof using Type.
  intros Hc HT Hn He <- Hl. destruct cow; [|done]. rewrite Hl.
  rewrite (bind_some _ _ _ _ _ (path_node_run w (Z.of_nat n + 1) ltac:(apply in_path_lt; lia))).
  rewrite (bind_some _ _ _ _ _ (path_slot_run w (Z.of_nat n + 1) ltac:(apply in_path_lt; lia))).
  by apply (cow_block_current w T b e); [apply Hc|..].
Qed.

Lemma parent_names_node_upd w n b ko :
  parent_names w n ko -> parent_names (with_path w (node_upd (tw_path w) (Z.of_nat n) b)) n ko.
Proof using Type.
  unfold parent_names. simpl. by rewrite (upd_other _ (Z.of_nat n) (Z.of_nat n + 1)) by lia.
Qed.

Lemma node_key_of_ptr d A x B :
  node_repr root d (A ++ x :: B) -> btrfs_node_key d (Z.of_nat (length A)) = kp_key x.
Proof using Type.
  intros Hr. apply (node_key_at root d (A ++ x :: B)); [done|].
  rewrite fmap_app. rewrite lookup_app_r by (by rewrite length_fmap). by rewrite length_fmap, Nat.sub_diag.
Qed.

Lemma blockptr_of_ptr d A x B :
  node_repr root d (A ++ x :: B) -> btrfs_node_blockptr d (Z.of_nat (length A)) = kp_blockptr x.
Proof using Type.
  intros Hr. pose proof (repr_ptrs root d A [x] B Hr) as Hp. cbn [length ptrs] in Hp.
  apply (f_equal head) in Hp. injection Hp as Hp. by rewrite <- Hp.
Qed.

Lemma read_node_slot_run w b n A x B e :
  node_block root (tw_blocks w) b (S n) (A ++ x :: B) -> tw_blocks w !! kp_blockptr x = Some e ->
  read_node_slot b (Z.of_nat (length A)) w = Some (Some (kp_blockptr x), w).
Proof using Type.
  intros (eb & He & Hl & Hr & _) Hx. unfold read_node_slot.
  rewrite (bind_some _ _ _ _ _ (eb_read_run w b eb He)).
  rewrite (proj2 (Z.ltb_ge _ 0)) by lia. rewrite (nr_nritems _ _ _ Hr), (proj2 (Z.leb_gt _ _)) by (rewrite length_app; simpl; lia).
  rewrite Hl, (proj2 (Z.eqb_neq _ 0)) by lia. rewrite (blockptr_of_ptr _ _ _ _ Hr). unfold gets. by rewrite Hx.
Qed.

Lemma node_upd_same w i b : p_nodes (tw_path (with_path w (node_upd (tw_path w) i b))) i = b.
Proof using Type. simpl. apply upd_same. Qed.

Lemma no_copy_generation m T (b : Z) e :
  no_copy m T true -> b ∈ T -> m !! b = Some e -> btrfs_header_generation (eb_data e) = te_transid env.
Proof using Type.
  intros Hc HT He. destruct (Hc eq_refl) as [_ Hcur]. specialize (Hcur b e HT He).
  unfold block_current in Hcur. apply andb_true_iff in Hcur as [Hcur _]. apply andb_true_iff in Hcur as [Hcur _].
  by apply Z.eqb_eq in Hcur.
Qed.

(** A node that is more than a quarter full is not balanced. *)
Lemma balance_level_full w (b : Z) n e :
  (0 < n < 8)%nat -> path_block (Z.of_nat n) w = Some (b, w) -> tw_blocks w !! b = Some e ->
  BTRFS_NODEPTRS_PER_BLOCK root / 4 < btrfs_header_nritems (eb_data e) ->
  btrfs_header_generation (eb_data e) = te_transid env ->
  balance_level env (Z.of_nat n) w = Some (0, w).
Proof using Hroot.
  intros Hn Hpb He Hfull Hgen. pose proof (capacity_bounds root Hroot).
  assert (Hin : in_path (Z.of_nat n) = true) by (apply in_path_lt; lia). unfold balance_level.
  rewrite (bind_some _ _ _ _ _ (path_slot_run w _ Hin)), (proj2 (Z.eqb_neq _ 0)) by lia.
  rewrite (bind_some _ _ _ _ _ Hpb), (bind_some _ _ _ _ _ (eb_read_run w b e He)), Hgen, Z.eqb_refl.
  rewrite (bind_some _ _ w tt w) by done. unfold BTRFS_MAX_LEVEL.
  assert (Hpar : exists o : option Z, (if Z.of_nat n <? 8 - 1 then path_node (Z.of_nat n + 1) else ret None) w = Some (o, w) /\ (o <> None -> Z.of_nat n < 7)).
  { destruct (Z.ltb_spec (Z.of_nat n) (8 - 1)); [|by exists None].
    exists (p_nodes (tw_path w) (Z.of_nat n + 1)). split; [|lia]. apply path_node_run, in_path_lt. lia. }
  destruct Hpar as ([o|] & Hpar & Ho); rewrite (bind_some _ _ _ _ _ Hpar).
  - specialize (Ho ltac:(done)).
    rewrite (bind_some _ _ _ _ _ (path_slot_run w (Z.of_nat n + 1) ltac:(apply in_path_lt; lia))).
    by rewrite (proj2 (Z.ltb_lt _ _)).
  - unfold balance_root, nritems_of.
    rewrite (bind_some _ _ w (btrfs_header_nritems (eb_data e)) w) by (by rewrite (bind_some _ _ _ _ _ (eb_read_run w b e He))).
    rewrite (proj2 (Z.eqb_neq _ 1)); [done|]. assert (30 <= BTRFS_NODEPTRS_PER_BLOCK root / 4) by (apply Z.div_le_lower_bound; lia). lia.
Qed.

Lemma search_node_round w T key ins_len cow n b ps :
  calm w T ins_len cow -> b ∈ T -> (S n < 7)%nat -> node_block root (tw_blocks w) b (S n) ps ->
  sorted_keys (kp_key <$> ps) -> Forall (fun x => is_Some (tw_blocks w !! kp_blockptr x)) ps ->
  parent_names w (S n) (kp_key <$> head ps) ->
  exists P1 x P2, ps = P1 ++ x :: P2 /\ (P1 = [] \/ ~ key_lt key (kp_key x)) /\
    Forall (fun y => key_lt key (kp_key y)) P2 /\
    search_block env key ins_len cow 0 b w = Some (Descend (kp_blockptr x),
      with_path w (slot_upd (node_upd (tw_path w) (Z.of_nat (S n)) (Some b)) (Z.of_nat (S n)) (Z.of_nat (length P1)))).
Proof using Hroot.
  intros Hc HT Hn Hb Hs Hchild Hpar. pose proof Hb as (e & He & Hl & Hr & Hne).
  assert (Hin : in_path (Z.of_nat (S n)) = true) by (apply in_path_lt; lia).
  destruct (bin_search_node root Hroot (eb_data e) ps key (Z.of_nat (S n)) Hr Hs ltac:(lia)) as (r & slot & Hbs & Hf).
  destruct (choose_child ps key r slot Hne Hf) as (P1 & x & P2 & -> & Hslot & H1 & H2).
  exists P1, x, P2. split_and!; [done|done|done|].
  unfold search_block. rewrite (bind_some _ _ _ _ _ (eb_read_run w b e He)).
  rewrite (bind_some _ _ _ _ _ (search_enter w T ins_len cow (S n) b e _ Hc HT Hn He eq_refl Hl)).
  rewrite (bind_some _ _ w tt w).
  2: { destruct cow; [done|]. by rewrite (calm_len _ _ _ _ Hc). }
  rewrite (bind_some _ _ _ _ _ (eb_read_run w b e He)). rewrite Z.eqb_refl. simpl negb.
  rewrite (bind_some _ _ w tt w) by done. rewrite Hl.
  rewrite (bind_some _ _ _ _ _ (set_path_node_run w (Z.of_nat (S n)) (Some b) Hin)).
  set (w1 := with_path w _).
  assert (Hck : check_block env (Z.of_nat (S n)) w1 = Some (0, w1)).
  { apply (check_block_run w1 (S n) b e (kp_key <$> head (P1 ++ x :: P2))); [done|apply node_upd_same|done| |].
    - by apply parent_names_node_upd.
    - intros pk Hpk. rewrite (proj2 (Z.eqb_neq _ 0)) by lia. f_equal.
      destruct (P1 ++ x :: P2) as [|y ps] eqn:Eps; [done|].
      by rewrite (check_node_ok root (eb_data e) (y :: ps) y pk Hr Hs eq_refl (parent_key_ok_self _ _ Hpk)). }
  rewrite (bind_some _ _ _ _ _ Hck). change (negb (0 =? 0)) with false. cbv iota. unfold lift. rewrite Hbs.
  rewrite (bind_some _ _ w1 (r, slot) w1) by done.
  rewrite (proj2 (Z.eqb_neq (Z.of_nat (S n)) 0)) by lia. cbn [negb]. cbv iota. rewrite Hslot.
  rewrite (bind_some _ _ _ _ _ (set_path_slot_run w1 _ _ Hin)).
  set (w2 := with_path w1 _). rewrite (bind_some _ _ w2 false w2) by (unfold gets; simpl; by rewrite (calm_split _ _ _ _ Hc)).
  rewrite (bind_some _ _ w2 (inr (b, Z.of_nat (length P1))) w2).
  2: { simpl orb. destruct (Z.ltb_spec 0 ins_len) as [Hpos|]; simpl andb.
       - pose proof (calm_nodes _ _ _ _ Hc Hpos b n _ HT Hb) as Hlen.
         rewrite (nr_nritems _ _ _ Hr), (proj2 (Z.leb_gt _ _)) by lia.
         rewrite (proj2 (Z.ltb_ge ins_len 0)) by lia. done.
       - destruct (Z.ltb_spec ins_len 0) as [Hneg|]; [|done].
         pose proof (calm_full _ _ _ _ Hc Hneg b n _ HT Hb) as Hlen. pose proof (capacity_bounds root Hroot).
         assert (Hpb : path_block (Z.of_nat (S n)) w2 = Some (b, w2)) by (apply path_block_run; [done|apply node_upd_same]).
         assert (Hbal : balance_level env (Z.of_nat (S n)) w2 = Some (0, w2)).
         { destruct cow; [|exfalso; rewrite (calm_len _ _ _ _ Hc) in Hneg by done; lia].
           apply (balance_level_full w2 b (S n) e); [lia|done|done|rewrite (nr_nritems _ _ _ Hr); lia|].
           apply (no_copy_generation _ _ _ _ (calm_copy _ _ _ _ Hc) HT He). }
         cbn [orb andb]. rewrite (bind_some _ _ _ _ _ Hbal). cbn [Z.eqb negb].
         rewrite (bind_some _ _ _ _ _ (path_node_run w2 _ Hin)).  replace (p_nodes (tw_path w2) (Z.of_nat (S n))) with (Some b) by (symmetry; apply node_upd_same).
         rewrite (bind_some _ _ _ _ _ (path_slot_run w2 _ Hin)). unfold nritems_of.
         rewrite (bind_some _ _ w2 (btrfs_header_nritems (eb_data e)) w2) by (by rewrite (bind_some _ _ _ _ _ (eb_read_run w2 b e He))).
         assert (30 <= BTRFS_NODEPTRS_PER_BLOCK root / 4) by (apply Z.div_le_lower_bound; lia).
         rewrite (nr_nritems _ _ _ Hr), (proj2 (Z.eqb_neq _ 1)) by lia. simpl. by rewrite upd_same. }
  apply Forall_app in Hchild as [_ Hchild]. apply Forall_cons in Hchild as [[ex Hex] _].
  rewrite (bind_some _ _ w2 (Some (kp_blockptr x)) w2) by (by apply (read_node_slot_run w2 b n P1 x P2 ex)).
  reflexivity.
Qed.

(** The space left in a leaf with the items [l]. *)
Definition leaf_room l : Z := BTRFS_LEAF_DATA_SIZE root - sizeof_item * Z.of_nat (length l) - dsize l.

Lemma search_leaf_round w T key ins_len cow b l :
  calm w T ins_len cow -> b ∈ T -> leaf_block root (tw_blocks w) b l -> sorted_keys (l.*1) ->
  parent_names w 0 (head (l.*1)) -> (0 < ins_len -> ins_len <= leaf_room l) ->
  exists r slot, found (l.*1) key r slot /\
    search_block env key ins_len cow 0 b w = Some (Done r,
      with_path w (slot_upd (node_upd (tw_path w) 0 (Some b)) 0 slot)).
Proof using Hroot.
  intros Hc HT (e & He & Hlen & Hl & Hr) Hs Hpar Hroom.
  assert (Hin : in_path 0 = true) by (by apply in_path_lt).
  destruct (bin_search_leaf root Hroot (eb_data e) l key Hr Hs) as (r & slot & Hbs & Hf).
  exists r, slot. split; [done|]. unfold search_block. rewrite (bind_some _ _ _ _ _ (eb_read_run w b e He)).
  rewrite (bind_some _ _ _ _ _ (search_enter w T ins_len cow 0 b e _ Hc HT ltac:(lia) He eq_refl Hl)).
  rewrite (bind_some _ _ w tt w).
  2: { destruct cow; [done|]. by rewrite (calm_len _ _ _ _ Hc). }
  rewrite (bind_some _ _ _ _ _ (eb_read_run w b e He)). rewrite Z.eqb_refl. cbn [negb].
  rewrite (bind_some _ _ w tt w) by done. rewrite Hl.
  rewrite (bind_some _ _ _ _ _ (set_path_node_run w 0 (Some b) Hin)). set (w1 := with_path w _).
  assert (Hck : check_block env 0 w1 = Some (0, w1)).
  { apply (check_block_run w1 0 b e (head (l.*1))); [lia|apply node_upd_same|done| |].
    - by apply (parent_names_node_upd w 0).
    - intros pk Hpk. rewrite Hlen. change (Z.of_nat 0 =? 0) with true; cbv iota.
      apply (check_leaf_ok root Hroot (eb_data e) l pk); [done|done|done|]. intros k Hk. apply parent_key_ok_self.
      destruct Hpk as [->| ->]; auto. }
  rewrite (bind_some _ _ _ _ _ Hck). change (negb (0 =? 0)) with false. cbv iota. unfold lift. rewrite Hbs.
  rewrite (bind_some _ _ w1 (r, slot) w1) by done. change (negb (0 =? 0)) with false. cbv iota beta.
  rewrite (bind_some _ _ _ _ _ (set_path_slot_run w1 _ _ Hin)). set (w2 := with_path w1 _).
  destruct (Z.ltb_spec 0 ins_len) as [Hpos|]; [|done].
  assert (Hfree : free_space_of env b w2 = Some (leaf_room l, w2)).
  { unfold free_space_of. rewrite (bind_some _ _ _ _ _ (eb_read_run w2 b e He)).
    by rewrite (repr_free_space root Hroot _ _ Hr). }
  rewrite (bind_some _ _ _ _ _ Hfree), (proj2 (Z.ltb_ge _ _)) by auto. done.
Qed.

(** ** All the way down *)

(** Two paths that agree above level [n]. *)
Definition same_above (n : Z) p p' : Prop :=
  forall i, n < i -> p_nodes p' i = p_nodes p i /\ p_slots p' i = p_slots p i.

Lemma on_path_below m p p' n b pre l post :
  on_path root m p n b pre l post ->
  (forall i, 0 <= i <= Z.of_nat n -> p_nodes p' i = p_nodes p i /\ (i <> 0 -> p_slots p' i = p_slots p i)) ->
  on_path root m p' n b pre l post.
Proof using Type.
  revert b pre l post. induction n as [|n IH]; intros b pre l post; cbn [on_path].
  - intros (Hn & Hrest) Hsame. split; [|done]. rewrite <- Hn. by apply Hsame.
  - intros (Hn & P1 & x & P2 & C1 & C2 & pre' & post' & Hb & Hs & H1 & H2 & Hp & Hrest) Hsame.
    split; [rewrite <- Hn; apply Hsame; lia|].
    exists P1, x, P2, C1, C2, pre', post'. split; [done|]. split; [rewrite <- Hs; apply Hsame; lia|].
    split; [done|]. split; [done|]. split; [|done]. apply IH; [done|]. intros i Hi. apply Hsame. lia.
Qed.

Lemma subtree_block m n b L : subtree root m n b L -> is_Some (m !! b).
Proof using Type. destruct n; [intros (e & He & _)|intros (ps & Ls & (e & He & _) & _)]; eauto. Qed.

Lemma keys_before (Ps : list key_ptr) (Cs : list (list item)) x L post :
  Forall2 heads_ok Ps Cs -> heads_ok x L -> sorted_keys ((concat Cs ++ L ++ post).*1) ->
  Forall (fun k => key_lt k (kp_key x)) ((concat Cs).*1).
Proof using Type.
  intros _ Hx Hs. rewrite !fmap_app in Hs. apply Forall_forall. intros k Hk.
  apply (StronglySorted_app_1_elem_of _ _ _ _ _ Hs); [done|]. apply elem_of_app. left.
  unfold heads_ok in Hx. destruct L as [|z L]; [done|]. simpl in Hx. injection Hx as <-. left.
Qed.

Lemma keys_behind (Ps : list key_ptr) (Cs : list (list item)) key :
  Forall2 heads_ok Ps Cs -> sorted_keys ((concat Cs).*1) -> Forall (fun y => key_lt key (kp_key y)) Ps ->
  Forall (fun k => key_lt key k) ((concat Cs).*1).
Proof using Type.
  induction 1 as [|y C Ps Cs Hy Hall IH]; [constructor|]. simpl. intros Hs Hlt.
  apply Forall_cons in Hlt as [Hlt Hrest]. rewrite fmap_app in *. apply Forall_app. split.
  - unfold heads_ok in Hy. destruct C as [|z C]; [done|]. simpl in Hy. injection Hy as Hy.
    simpl in Hs. apply StronglySorted_cons in Hs as [Hall' _]. simpl. rewrite Hy in *.
    constructor; [done|]. apply Forall_app in Hall' as [Hall' _].
    eapply Forall_impl; [exact Hall'|]. intros k Hk. by apply (key_lt_trans _ (kp_key y)).
  - apply IH; [|done]. by apply StronglySorted_app_1_r in Hs.
Qed.

Lemma on_path_nonempty m p n b pre l post : on_path root m p (S n) b pre l post -> l <> [].
Proof using Type.
  clear Hroot. revert b pre post. induction n as [|n IH]; intros b pre post;
    intros (_ & P1 & x & P2 & C1 & C2 & pre' & post' & _ & _ & _ & _ & Hp & Hh & _); [|by eapply IH].
  destruct Hp as (_ & _ & -> & ->). by intros ->.
Qed.

Lemma on_path_leaf_head m p n b pre l post x :
  on_path root m p n b pre l post -> heads_ok x (pre ++ l ++ post) -> l <> [].
Proof using Type.
  destruct n as [|n]; [|intros Hp _; by eapply on_path_nonempty]. intros (_ & _ & -> & ->) Hh ->. done.
Qed.

(** What the search has established when it reaches the leaf [lb]. *)
Record reached w0 w1 (n : nat) (b lb : Z) key L pre l post : Prop := {
  re_world : with_path w1 (tw_path w0) = w0;
  re_flags : p_search_for_split (tw_path w1) = p_search_for_split (tw_path w0);
  re_above : same_above (Z.of_nat n) (tw_path w0) (tw_path w1);
  re_path : on_path root (tw_blocks w0) (node_upd (tw_path w1) 0 (Some lb)) n b pre l post;
  re_leaf : leaf_block root (tw_blocks w0) lb l;
  re_items : L = pre ++ l ++ post;
  re_before : Forall (fun k => key_lt k key) (pre.*1);
  re_behind : Forall (fun k => key_lt key k) (post.*1);
  re_parent : parent_names w1 0 (head (l.*1));
  re_member : lb ∈ tree_blocks (tw_blocks w0) n b;
  re_low : pre = [] \/ exists k, head (l.*1) = Some k /\ ~ key_lt key k;
}.

Lemma with_path_same w : with_path w (tw_path w) = w.
Proof using Type. by destruct w. Qed.
Lemma with_path_twice w p p' : with_path (with_path w p) p' = with_path w p'.
Proof using Type. done. Qed.

Lemma calm_with_path w T p ins_len cow :
  p_search_for_split p = p_search_for_split (tw_path w) -> calm w T ins_len cow -> calm (with_path w p) T ins_len cow.
Proof using Type. intros Hp [H1 H2 H3 H4 H5]. split; [done|done|by rewrite <- H3|done|done]. Qed.

Lemma calm_sub w T T' ins_len cow : calm w T ins_len cow -> (forall a, a ∈ T' -> a ∈ T) -> calm w T' ins_len cow.
Proof using Type.
  intros [H1 H2 H3 H4 H5] HT. split; [|done|done|by eauto|by eauto]. intros Hcow. destruct (H1 Hcow). eauto.
Qed.

Lemma search_down key ins_len cow n b L w :
  calm w (tree_blocks (tw_blocks w) n b) ins_len cow -> subtree root (tw_blocks w) n b L -> sorted_keys (L.*1) -> (n < 7)%nat ->
  parent_names w n (head (L.*1)) ->
  forall fuel, exists w1 lb pre l post,
    search_loop env (n + fuel) key ins_len cow 0 b w = search_loop env fuel key ins_len cow 0 lb w1 /\
    reached w w1 n b lb key L pre l post.
Proof using Hroot.
  revert b L w. induction n as [|n IH]; intros b L w Hc Ht Hs Hn Hpar fuel.
  { exists w, b, [], L, []. split; [done|]. split; [apply with_path_same|done|by split| |done| |constructor|constructor|done|apply tree_blocks_self|by left].
    - split; [|done]. simpl. apply upd_same.
    - by rewrite app_nil_r. }
  destruct Ht as (ps & Ls & Hb & Hf & ->).
  assert (Hheads : Forall2 heads_ok ps Ls) by (by apply Forall2_heads in Hf).
  assert (Hchild : Forall (fun x => is_Some (tw_blocks w !! kp_blockptr x)) ps).
  { apply Forall_forall. intros x Hx. apply list_elem_of_lookup in Hx as [i Hi].
    destruct (Forall2_lookup_l _ _ _ _ _ Hf Hi) as (Li & _ & Hsub & _). by eapply subtree_block. }
  assert (Hhd : head ((concat Ls).*1) = kp_key <$> head ps).
  { destruct Hheads as [|y C ps' Ls' Hy _]; [done|]. simpl. rewrite fmap_app.
    unfold heads_ok in Hy. destruct (C.*1); [done|]. simpl in *. congruence. }
  rewrite Hhd in Hpar.
  destruct (search_node_round w _ key ins_len cow n b ps Hc (tree_blocks_self _ _ _) Hn Hb (sorted_heads _ _ Hheads Hs) Hchild Hpar)
    as (P1 & x & P2 & -> & H1 & H2 & Hround).
  apply Forall2_app_inv_l in Hf as (C1 & Cr & Hf1 & Hfr & ->).
  apply Forall2_cons_inv_l in Hfr as (Lx & C2 & [Hsub Hx] & Hf2 & ->).
  rewrite concat_app in Hs |- *. cbn [concat] in Hs |- *.
  set (w2 := with_path w _) in Hround.
  assert (Hsx : sorted_keys (Lx.*1)).
  { rewrite !fmap_app in Hs. apply StronglySorted_app_1_r, StronglySorted_app_1_l in Hs. done. }
  assert (Hcx : calm w2 (tree_blocks (tw_blocks w2) n (kp_blockptr x)) ins_len cow).
  { apply (calm_with_path w); [done|]. apply (calm_sub w _ _ _ _ Hc). intros a. by apply (tree_blocks_child root _ _ _ P1 x P2). }
  assert (Hpar2 : parent_names w2 n (head (Lx.*1))).
  { right. destruct Hb as (e & He & _ & Hr & _). exists b, e.
    replace (Z.of_nat n + 1) with (Z.of_nat (S n)) by lia. split; [simpl; apply upd_same|]. split; [done|].
    unfold heads_ok in Hx. rewrite Hx. simpl p_slots. rewrite upd_same. by rewrite (node_key_of_ptr _ _ _ _ Hr). }
  destruct (IH (kp_blockptr x) Lx w2 Hcx Hsub Hsx ltac:(lia) Hpar2 fuel)
    as (w1 & lb & pre & l & post & Hrun & Hre).
  exists w1, lb, (concat C1 ++ pre), l, (post ++ concat C2). split.
  { cbn [Nat.add search_loop]. by rewrite (bind_some _ _ _ _ _ Hround). }
  destruct Hre as [Rw Rf Ra Rp Rl Ri Rb Rh Rpar Rmem Rlow]. split.
  - rewrite <- (with_path_twice w1 (tw_path w2)). rewrite Rw. subst w2. rewrite with_path_twice. apply with_path_same.
  - done.
  - intros i Hi. destruct (Ra i ltac:(lia)) as [-> ->]. simpl. by rewrite !upd_other by lia.
  - cbn [on_path]. destruct (Ra (Z.of_nat (S n)) ltac:(lia)) as [Rn Rs]. split.
    { simpl p_nodes in Rn |- *. rewrite upd_other by lia. rewrite Rn. apply upd_same. }
    exists P1, x, P2, C1, C2, pre, post. split; [done|]. split.
    { simpl p_slots in Rs |- *. rewrite Rs. apply upd_same. }
    split; [done|]. split; [done|]. split; [done|]. split; [by rewrite <- Ri|done].
  - done.
  - by rewrite Ri, <- !(assoc_L (++)).
  - rewrite fmap_app. apply Forall_app. split; [|done]. destruct H1 as [->|H1].
    + apply Forall2_nil_inv_l in Hf1 as ->. constructor.
    + pose proof (keys_before P1 C1 x Lx (concat C2) (Forall2_heads _ _ _ Hf1) Hx Hs) as Hbef.
      eapply Forall_impl; [exact Hbef|]. intros k Hk. simpl in Hk.
      destruct (key_trichotomy key (kp_key x)) as [?|[->|Hlt]]; [done|done|]. by apply (key_lt_trans _ (kp_key x)).
  - rewrite fmap_app. apply Forall_app. split; [done|].
    apply (keys_behind P2 C2 key (Forall2_heads _ _ _ Hf2)); [|done].
    rewrite !fmap_app in Hs. by apply StronglySorted_app_1_r, StronglySorted_app_1_r in Hs.
  - done.
  - by apply (tree_blocks_child root _ _ _ P1 x P2).
  - destruct Rlow as [->|Hlow]; [|by right]. destruct H1 as [->|H1].
    + left. by apply Forall2_nil_inv_l in Hf1 as ->.
    + right. exists (kp_key x). split; [|done]. rewrite Ri in Hx. destruct l as [|y l]; [|exact Hx].
      exfalso. by apply (on_path_leaf_head _ _ _ _ _ _ _ x Rp).
Qed.

(** The search as a whole. *)
Lemma search_slot_run key ins_len cow n b L w fuel :
  calm w (tree_blocks (tw_blocks w) n b) ins_len cow -> tw_path w = btrfs_init_path -> tw_node w = Some b ->
  subtree root (tw_blocks w) n b L -> sorted_keys (L.*1) -> (n < 7)%nat -> (n < fuel)%nat ->
  exists w1 lb pre l post, reached w w1 n b lb key L pre l post /\
    ((0 < ins_len -> ins_len <= leaf_room l) ->
     exists r slot, found (l.*1) key r slot /\
       btrfs_search_slot env fuel key ins_len cow w =
         Some (r, with_path w1 (slot_upd (node_upd (tw_path w1) 0 (Some lb)) 0 slot))).
Proof using Hroot.
  intros Hc Hp Hroot' Ht Hs Hn Hfuel.
  destruct (search_down key ins_len cow n b L w Hc Ht Hs Hn) with (fuel := (fuel - n)%nat)
    as (w1 & lb & pre & l & post & Hrun & Hre).
  { left. by rewrite Hp. }
  exists w1, lb, pre, l, post. split; [done|]. intros Hroom.
  pose proof Hre as [Rw Rf Ra Rp Rl Ri Rb Rh Rpar Rmem _].
  assert (Hblocks : tw_blocks w1 = tw_blocks w) by (by rewrite <- Rw).
  assert (Hc1 : calm w1 (tree_blocks (tw_blocks w) n b) ins_len cow).
  { pose proof (calm_with_path w _ (tw_path w1) ins_len cow Rf Hc) as Hc1. rewrite <- Rw in Hc1 at 1.
    rewrite with_path_twice in Hc1. by rewrite with_path_same in Hc1. }
  assert (Hsl : sorted_keys (l.*1)).
  { rewrite Ri, !fmap_app in Hs. apply StronglySorted_app_1_r, StronglySorted_app_1_l in Hs. done. }
  rewrite <- Hblocks in Rl.
  destruct (search_leaf_round w1 _ key ins_len cow lb l Hc1 Rmem Rl Hsl Rpar Hroom) as (r & slot & Hf & Hround).
  exists r, slot. split; [done|]. unfold btrfs_search_slot.
  rewrite (bind_some _ _ w 0 w) by (unfold gets; by rewrite Hp).
  change (u8 0) with 0. cbn [Z.eqb negb andb]. rewrite (bind_some _ _ w tt w) by done.
  rewrite (bind_some _ _ _ _ _ (path_node_run w 0 ltac:(by apply in_path_lt))). rewrite Hp. cbn [btrfs_init_path p_nodes].
  rewrite bool_decide_eq_false_2 by (intros Hx; by apply Hx). rewrite (bind_some _ _ w tt w) by done.
  rewrite (bind_some _ _ w (Some b) w) by (unfold root_node, gets; by rewrite Hroot').
  rewrite (bind_some _ _ w b w) by done.
  replace fuel with (n + (fuel - n))%nat by lia. rewrite Hrun.
  destruct (fuel - n)%nat as [|f] eqn:Ef; [lia|]. cbn [search_loop]. by rewrite (bind_some _ _ _ _ _ Hround).
Qed.
End Search.
