(* ===== verification/TreeWalk.v ===== *)
(** [btrfs_next_leaf] and [btrfs_prev_leaf] move a path to the neighbouring
    leaf. *)

From stdpp Require Import sorting.
From S2P Require Import Prelude Buf CtreeFmt LeafOps LeafSpec NodeOps TreeWorld TreeBalance TreeOps TreeSpec.
From S2P Require Import TreeSearch.

Implicit Types (L l pre post rest : list item) (ps P : list key_ptr).

Section Walk.
Context {X : Type} `{ExtentTree X} (env : tree_env).
Context (Hroot : root_ok (te_root env)).

Abbreviation world := (tree_world X).
Abbreviation root := (te_root env).
Implicit Types (w : world) (m : gmap Z extent_buffer) (p : btrfs_path).

(** The subtrees under the pointers [ps], with their items. *)
Abbreviation children m n := (Forall2 (fun x L => subtree root m n (kp_blockptr x) L /\ heads_ok x L)).

Lemma same_above_trans n n' p p' p'' :
  n <= n' -> same_above n p p' -> same_above n' p' p'' -> same_above n' p p''.
Proof using Type.
  intros Hn H1 H2 i Hi. destruct (H2 i Hi) as [-> ->]. apply H1. lia.
Qed.

Lemma children_nonempty m n ps (Ls : list (list item)) : children m n ps Ls -> concat Ls = [] -> ps = [].
Proof using Type.
  intros [|x L ps' Ls' [_ Hx] _]; [done|]. simpl. intros HL. apply app_eq_nil in HL as [-> _].
  by apply heads_nonempty in Hx.
Qed.

Lemma nritems_of_run w b n ps :
  node_block root (tw_blocks w) b n ps -> nritems_of b w = Some (Z.of_nat (length ps), w).
Proof using Type.
  intros (e & He & _ & Hr & _). unfold nritems_of. rewrite (bind_some _ _ _ _ _ (eb_read_run w b e He)).
  by rewrite (nr_nritems _ _ _ Hr).
Qed.

Lemma subtree_child w b n A x B L :
  node_block root (tw_blocks w) b (S n) (A ++ x :: B) -> subtree root (tw_blocks w) n (kp_blockptr x) L ->
  read_node_slot b (Z.of_nat (length A)) w = Some (Some (kp_blockptr x), w).
Proof using Type.
  intros Hb Hx. destruct (subtree_block env _ _ _ _ Hx) as [e He]. by apply (read_node_slot_run env w b n A x B e).
Qed.

(** ** Forward *)

Lemma next_down_step w n b :
  next_leaf_down (S (S n)) b w =
    bind (set_path_node (Z.of_nat (S n)) (Some b)) (fun _ => bind (set_path_slot (Z.of_nat (S n)) 0) (fun _ =>
      bind (read_node_slot b 0) (fun c =>
        match c with None => ret (- EIO) | Some c => next_leaf_down (S n) c end))) w.
Proof using Type. done. Qed.

(** Down to the first leaf. *)
Lemma down_first w n b L :
  (n < 8)%nat -> subtree root (tw_blocks w) n b L -> L <> [] ->
  exists l rest p', L = l ++ rest /\ l <> [] /\ next_leaf_down (S n) b w = Some (0, with_path w p') /\
    same_above (Z.of_nat n) (tw_path w) p' /\ p_slots p' 0 = 0 /\
    on_path root (tw_blocks w) p' n b [] l rest.
Proof using Type.
  revert w b L. induction n as [|n IH]; intros w b L Hn Ht HL.
  - assert (Hin : in_path (Z.of_nat 0) = true) by done.
    eexists L, [], _. split; [by rewrite app_nil_r|]. split; [done|]. split; [|split; [|split]].
    + cbn [next_leaf_down]. rewrite (bind_some _ _ _ _ _ (set_path_node_run w _ (Some b) Hin)).
      rewrite (bind_some _ _ _ _ _ (set_path_slot_run _ _ 0 Hin)). reflexivity.
    + intros i Hi. simpl. rewrite !upd_other by lia. done.
    + simpl. apply upd_same.
    + cbn [on_path]. split; [simpl; apply upd_same|]. done.
  - destruct Ht as (ps & Ls & Hb & Hf & ->).
    destruct Hf as [|x L ps Ls [Hx Hhx] Hf]; [done|]. cbn [concat].
    assert (Hin : in_path (Z.of_nat (S n)) = true) by (apply in_path_lt; lia).
    set (w1 := with_path w (slot_upd (node_upd (tw_path w) (Z.of_nat (S n)) (Some b)) (Z.of_nat (S n)) 0)).
    destruct (IH w1 (kp_blockptr x) L ltac:(lia) Hx (heads_nonempty _ _ Hhx))
      as (l & rest & p' & -> & Hl & Hrun & Hsame & Hs0 & Hp).
    exists l, (rest ++ concat Ls), p'. split; [by rewrite (assoc_L (++))|]. split; [done|].
    split; [|split; [|split]].
    + rewrite next_down_step.
      rewrite (bind_some _ _ _ _ _ (set_path_node_run w _ (Some b) Hin)).
      rewrite (bind_some _ _ _ _ _ (set_path_slot_run _ _ 0 Hin)).
      change (with_path (with_path _ _) _) with w1.
      rewrite (bind_some _ _ _ _ _ (subtree_child w1 b n [] x ps _ Hb Hx)). exact Hrun.
    + intros i Hi. destruct (Hsame i ltac:(lia)) as [-> ->]. simpl. by rewrite !upd_other by lia.
    + done.
    + destruct (Hsame (Z.of_nat (S n)) ltac:(lia)) as [Hnode Hslot]. simpl in Hnode, Hslot.
      rewrite upd_same in Hnode; rewrite upd_same in Hslot. cbn [on_path]. split; [done|].
      exists [], x, ps, [], Ls, [], rest. done.
Qed.

(** The loop up from a leaf: either there is nothing behind on these levels, or
    it stops at a pointer whose first leaf is the next one. *)
Definition next_found w n b pre l post : Prop :=
  exists lev P1 x P2 c L, (1 <= lev <= n)%nat /\ (forall k, next_leaf_up (n + k) 1 w =
      Some (Some (Z.of_nat lev, c, Z.of_nat (length P1)), w)) /\
    node_block root (tw_blocks w) c lev (P1 ++ x :: P2) /\
    subtree root (tw_blocks w) (pred lev) (kp_blockptr x) L /\ L <> [] /\
    forall p' l2 rest, same_above (Z.of_nat lev) (tw_path w) p' ->
      p_nodes p' (Z.of_nat lev) = p_nodes (tw_path w) (Z.of_nat lev) ->
      p_slots p' (Z.of_nat lev) = Z.of_nat (length P1) ->
      L = l2 ++ rest -> on_path root (tw_blocks w) p' (pred lev) (kp_blockptr x) [] l2 rest ->
      exists post2, post = l2 ++ post2 /\ on_path root (tw_blocks w) p' n b (pre ++ l) l2 post2.

Lemma next_climb w n b pre l post :
  (n < 8)%nat -> on_path root (tw_blocks w) (tw_path w) n b pre l post ->
  (post = [] /\ forall k, next_leaf_up (n + k) 1 w = next_leaf_up k (Z.of_nat n + 1) w) \/
  (post <> [] /\ next_found w n b pre l post).
Proof using Hroot.
  revert b pre l post. induction n as [|n IH]; intros b pre l post Hn; cbn [on_path].
  - intros (_ & _ & _ & ->). by left.
  - intros (Hnode & P1 & x & P2 & C1 & C2 & pre' & post' & Hb & Hslot & H1 & H2 & Hp & Hh & -> & ->).
    destruct (IH (kp_blockptr x) pre' l post' ltac:(lia) Hp) as [[-> Hup]|[Hne Hfound]].
    + assert (Hin : in_path (Z.of_nat (S n)) = true) by (apply in_path_lt; lia).
      assert (Hr : forall k, next_leaf_up (S n + k) 1 w =
        if u32 (Z.of_nat (length (P1 ++ x :: P2))) <=? u32 (Z.of_nat (length P1) + 1)
        then next_leaf_up k (Z.of_nat (S n) + 1) w
        else Some (Some (Z.of_nat (S n), b, Z.of_nat (length P1) + 1), w)).
      { intros k. replace (S n + k)%nat with (n + S k)%nat by lia. rewrite Hup. cbn [next_leaf_up].
        replace (Z.of_nat n + 1) with (Z.of_nat (S n)) by lia.
        rewrite (bind_some _ _ _ _ _ (path_node_run w _ Hin)), Hnode.
        rewrite (bind_some _ _ _ _ _ (path_slot_run w _ Hin)), Hslot.
        rewrite (bind_some _ _ _ _ _ (nritems_of_run w b _ _ Hb)). by destruct (_ <=? _). }
      pose proof Hb as (e & _ & _ & Hrep & _). pose proof (capacity_bounds root Hroot) as Hcap.
      pose proof (nr_fits _ _ _ Hrep) as Hfits. rewrite length_app in Hfits. simpl in Hfits.
      rewrite length_app in Hr. cbn [length] in Hr. rewrite !u32_id in Hr by lia.
      destruct P2 as [|y P2].
      * apply Forall2_nil_inv_l in H2 as ->. left. split; [done|]. intros k. rewrite Hr.
        rewrite (proj2 (Z.leb_le _ _)) by (simpl; lia). done.
      * apply Forall2_cons_inv_l in H2 as (Ly & C2' & [Hy Hhy] & H2 & ->). right.
        pose proof (heads_nonempty _ _ Hhy) as HLy. split; [simpl; by destruct Ly|].
        exists (S n), (P1 ++ [x]), y, P2, b, Ly. split; [lia|]. split; [|split; [|split; [done|split; [done|]]]].
        { intros k. rewrite Hr, (proj2 (Z.leb_gt _ _)) by (simpl; lia).
          rewrite length_app. simpl. do 5 f_equal. lia. }
        { by rewrite <- (assoc_L (++)). }
        intros p' l2 rest Hsame Hn' Hs' -> Hp'. exists (rest ++ concat C2'). split; [simpl; by rewrite (assoc_L (++))|].
        cbn [on_path]. split; [by rewrite Hn'|].
        exists (P1 ++ [x]), y, P2, (C1 ++ [pre' ++ l ++ []]), C2', [], rest.
        rewrite <- (assoc_L (++) P1). split; [done|]. split; [done|]. split.
        { apply Forall2_app; [done|]. constructor; [|constructor]. split; [by eapply on_path_subtree|done]. }
        split; [done|]. split; [done|]. split; [done|]. split; [|done].
        rewrite concat_app. simpl. by rewrite !app_nil_r, <- !(assoc_L (++)).
    + right. split; [by intros [-> _]%app_eq_nil|].
      destruct Hfound as (lev & Q1 & y & Q2 & c & L & Hlev & Hup & Hc & Hy & HL & Hrel).
      exists lev, Q1, y, Q2, c, L. split; [lia|]. split; [|split; [done|split; [done|split; [done|]]]].
      { intros k. replace (S n + k)%nat with (n + S k)%nat by lia. apply Hup. }
      intros p' l2 rest Hsame Hn' Hs' HL2 Hp'. destruct (Hrel p' l2 rest Hsame Hn' Hs' HL2 Hp') as (post2 & -> & Hon).
      exists (post2 ++ concat C2). split; [by rewrite (assoc_L (++))|]. cbn [on_path].
      destruct (Hsame (Z.of_nat (S n)) ltac:(lia)) as [-> ->]. split; [done|].
      exists P1, x, P2, C1, C2, (pre' ++ l), post2. do 4 (split; [done|]). split; [done|]. split.
      { by rewrite <- (assoc_L (++)). }
      split; [by rewrite (assoc_L (++))|done].
Qed.

Lemma next_up_end k w i : p_nodes (tw_path w) i = None -> 0 <= i -> i + Z.of_nat k <= 8 -> next_leaf_up k i w = Some (None, w).
Proof using Type.
  intros Hi H0 Hk. destruct k as [|k]; [done|]. cbn [next_leaf_up].
  rewrite (bind_some _ _ _ _ _ (path_node_run w i ltac:(apply in_path_lt; lia))). by rewrite Hi.
Qed.

Lemma next_leaf_run w n b pre l post :
  (n < 8)%nat -> on_path root (tw_blocks w) (tw_path w) n b pre l post ->
  p_nodes (tw_path w) (Z.of_nat n + 1) = None ->
  (post = [] -> btrfs_next_leaf w = Some (1, w)) /\
  (post <> [] -> exists p' l2 post2, post = l2 ++ post2 /\ l2 <> [] /\
     btrfs_next_leaf w = Some (0, with_path w p') /\
     on_path root (tw_blocks w) p' n b (pre ++ l) l2 post2 /\ p_slots p' 0 = 0 /\
     same_above (Z.of_nat n) (tw_path w) p').
Proof using Hroot.
  intros Hn Hp Htop. unfold btrfs_next_leaf. change (Z.to_nat (BTRFS_MAX_LEVEL - 1)) with 7%nat.
  destruct (next_climb w n b pre l post Hn Hp) as [[-> Hup]|[Hne (lev & P1 & x & P2 & c & L & Hlev & Hup & Hc & Hx & HL & Hrel)]].
  - split; [intros _|done]. specialize (Hup (7 - n)%nat). rewrite (next_up_end (7 - n) w (Z.of_nat n + 1)) in Hup by (done || lia).
    replace (n + (7 - n))%nat with 7%nat in Hup by lia.
    by rewrite (bind_some _ _ _ _ _ Hup).
  - split; [done|intros _]. destruct lev as [|lev]; [lia|]. cbn [pred] in Hx, Hrel.
    specialize (Hup (7 - n)%nat). replace (n + (7 - n))%nat with 7%nat in Hup by lia.
    rewrite (bind_some _ _ _ _ _ Hup).
    rewrite (bind_some _ _ _ _ _ (subtree_child w c lev P1 x P2 _ Hc Hx)).
    rewrite (bind_some _ _ _ _ _ (set_path_slot_run w (Z.of_nat (S lev)) _ ltac:(apply in_path_lt; lia))).
    set (w1 := with_path w _). rewrite Nat2Z.id.
    destruct (down_first w1 lev (kp_blockptr x) L ltac:(lia) Hx HL) as (l2 & rest & p' & HL2 & Hl2 & Hrun & Hsame & Hs0 & Hon).
    assert (Hsame' : same_above (Z.of_nat (S lev)) (tw_path w) p').
    { intros i Hi. destruct (Hsame i ltac:(lia)) as [-> ->]. simpl. by rewrite upd_other by lia. }
    destruct (Hsame (Z.of_nat (S lev)) ltac:(lia)) as [Hnode Hslot]. simpl p_slots in Hslot. rewrite upd_same in Hslot.
    destruct (Hrel p' l2 rest Hsame' Hnode Hslot HL2 Hon) as (post2 & Hpost & Hpath).
    exists p', l2, post2. split; [done|]. split; [done|]. split; [exact Hrun|]. split; [done|]. split; [done|].
    intros i Hi. apply Hsame'. lia.
Qed.

(** ** Backward *)

Lemma prev_down_step w n b :
  prev_leaf_down (S (S n)) (Some b) w =
    bind (nritems_of b) (fun nr => let slot := if negb (nr =? 0) then nr - 1 else nr in
      bind (set_path_node (Z.of_nat (S n)) (Some b)) (fun _ => bind (set_path_slot (Z.of_nat (S n)) slot) (fun _ =>
        bind (read_node_slot b slot) (fun c => prev_leaf_down (S n) c)))) w.
Proof using Type. done. Qed.

Lemma leaf_nritems_run w b l : leaf_block root (tw_blocks w) b l -> nritems_of b w = Some (Z.of_nat (length l), w).
Proof using Type.
  intros (e & He & _ & _ & Hr). unfold nritems_of. rewrite (bind_some _ _ _ _ _ (eb_read_run w b e He)).
  by rewrite (lr_nritems _ _ _ Hr).
Qed.

Lemma last_slot {A} (l : list A) :
  l <> [] -> (if negb (Z.of_nat (length l) =? 0) then Z.of_nat (length l) - 1 else Z.of_nat (length l)) =
    Z.of_nat (pred (length l)).
Proof using Type. destruct l; [done|]. intros _. rewrite (proj2 (Z.eqb_neq _ 0)) by (simpl; lia). simpl. lia. Qed.

(** Down to the last leaf. *)
Lemma down_last w n b L :
  (n < 8)%nat -> subtree root (tw_blocks w) n b L -> L <> [] ->
  exists pre l p', L = pre ++ l /\ l <> [] /\ prev_leaf_down (S n) (Some b) w = Some (0, with_path w p') /\
    same_above (Z.of_nat n) (tw_path w) p' /\ p_slots p' 0 = Z.of_nat (pred (length l)) /\
    on_path root (tw_blocks w) p' n b pre l [].
Proof using Hroot.
  revert w b L. induction n as [|n IH]; intros w b L Hn Ht HL.
  - assert (Hin : in_path (Z.of_nat 0) = true) by done.
    eexists [], L, _. split; [done|]. split; [done|]. split; [|split; [|split]].
    + cbn [prev_leaf_down]. unfold lift. rewrite (bind_some _ _ w b w) by done.
      rewrite (bind_some _ _ _ _ _ (leaf_nritems_run w b L Ht)). cbv zeta. rewrite last_slot by done.
      rewrite (bind_some _ _ _ _ _ (set_path_node_run w _ (Some b) Hin)).
      rewrite (bind_some _ _ _ _ _ (set_path_slot_run _ _ _ Hin)). reflexivity.
    + intros i Hi. simpl. rewrite !upd_other by lia. done.
    + simpl. apply upd_same.
    + cbn [on_path]. split; [simpl; apply upd_same|]. done.
  - destruct Ht as (ps & Ls & Hb & Hf & ->).
    destruct ps as [|x ps _] using rev_ind; [by apply Forall2_nil_inv_l in Hf as ->|].
    apply Forall2_app_inv_l in Hf as (C1 & C2 & H1 & H2 & ->).
    apply Forall2_cons_inv_l in H2 as (L & C3 & [Hx Hhx] & H2 & ->). apply Forall2_nil_inv_l in H2 as ->.
    assert (Hin : in_path (Z.of_nat (S n)) = true) by (apply in_path_lt; lia).
    set (w1 := with_path w (slot_upd (node_upd (tw_path w) (Z.of_nat (S n)) (Some b)) (Z.of_nat (S n)) (Z.of_nat (length ps)))).
    destruct (IH w1 (kp_blockptr x) L ltac:(lia) Hx (heads_nonempty _ _ Hhx))
      as (pre & l & p' & -> & Hl & Hrun & Hsame & Hs0 & Hp).
    exists (concat C1 ++ pre), l, p'. rewrite concat_app. simpl concat. rewrite app_nil_r.
    split; [by rewrite (assoc_L (++))|]. split; [done|]. split; [|split; [|split]].
    + rewrite prev_down_step, (bind_some _ _ _ _ _ (nritems_of_run w b _ _ Hb)). cbv zeta.
      rewrite last_slot by (by destruct ps). rewrite length_app, Nat.add_1_r. cbn [pred].
      rewrite (bind_some _ _ _ _ _ (set_path_node_run w _ (Some b) Hin)).
      rewrite (bind_some _ _ _ _ _ (set_path_slot_run _ _ _ Hin)).
      change (with_path (with_path _ _) _) with w1.
      rewrite (bind_some _ _ _ _ _ (subtree_child w1 b n ps x [] _ Hb Hx)). exact Hrun.
    + intros i Hi. destruct (Hsame i ltac:(lia)) as [-> ->]. simpl. by rewrite !upd_other by lia.
    + done.
    + destruct (Hsame (Z.of_nat (S n)) ltac:(lia)) as [Hnode Hslot]. simpl in Hnode, Hslot.
      rewrite upd_same in Hnode; rewrite upd_same in Hslot. cbn [on_path]. split; [done|].
      exists ps, x, [], C1, [], pre, []. rewrite app_nil_r. done.
Qed.

Definition prev_found w n b pre l post : Prop :=
  exists lev P1 x P2 c L, (1 <= lev <= n)%nat /\ (forall k, prev_leaf_up (n + k) 1 w =
      Some (Some (Z.of_nat lev, c, Z.of_nat (length P1)), w)) /\
    node_block root (tw_blocks w) c lev (P1 ++ x :: P2) /\
    subtree root (tw_blocks w) (pred lev) (kp_blockptr x) L /\ L <> [] /\
    forall p' pre2 l2, same_above (Z.of_nat lev) (tw_path w) p' ->
      p_nodes p' (Z.of_nat lev) = p_nodes (tw_path w) (Z.of_nat lev) ->
      p_slots p' (Z.of_nat lev) = Z.of_nat (length P1) ->
      L = pre2 ++ l2 -> on_path root (tw_blocks w) p' (pred lev) (kp_blockptr x) pre2 l2 [] ->
      exists pre3, pre = pre3 ++ l2 /\ on_path root (tw_blocks w) p' n b pre3 l2 (l ++ post).

Lemma prev_climb w n b pre l post :
  (n < 8)%nat -> on_path root (tw_blocks w) (tw_path w) n b pre l post ->
  (pre = [] /\ forall k, prev_leaf_up (n + k) 1 w = prev_leaf_up k (Z.of_nat n + 1) w) \/
  (pre <> [] /\ prev_found w n b pre l post).
Proof using Hroot.
  revert b pre l post. induction n as [|n IH]; intros b pre l post Hn; cbn [on_path].
  - intros (_ & _ & -> & _). by left.
  - intros (Hnode & P1 & x & P2 & C1 & C2 & pre' & post' & Hb & Hslot & H1 & H2 & Hp & Hh & -> & ->).
    destruct (IH (kp_blockptr x) pre' l post' ltac:(lia) Hp) as [[-> Hup]|[Hne Hfound]].
    + assert (Hin : in_path (Z.of_nat (S n)) = true) by (apply in_path_lt; lia).
      assert (Hr : forall k, prev_leaf_up (S n + k) 1 w =
        if Z.of_nat (length P1) =? 0 then prev_leaf_up k (Z.of_nat (S n) + 1) w
        else Some (Some (Z.of_nat (S n), b, Z.of_nat (length P1) - 1), w)).
      { intros k. replace (S n + k)%nat with (n + S k)%nat by lia. rewrite Hup. cbn [prev_leaf_up].
        replace (Z.of_nat n + 1) with (Z.of_nat (S n)) by lia.
        rewrite (bind_some _ _ _ _ _ (path_node_run w _ Hin)), Hnode.
        rewrite (bind_some _ _ _ _ _ (path_slot_run w _ Hin)), Hslot. by destruct (_ =? _). }
      destruct P1 as [|y P1 _] using rev_ind.
      * apply Forall2_nil_inv_l in H1 as ->. left. done.
      * apply Forall2_app_inv_l in H1 as (C1' & C3 & H1 & Hy & ->).
        apply Forall2_cons_inv_l in Hy as (Ly & C4 & [Hy Hhy] & Hnil & ->). apply Forall2_nil_inv_l in Hnil as ->.
        right. pose proof (heads_nonempty _ _ Hhy) as HLy. rewrite concat_app. simpl concat. rewrite !app_nil_r.
        split; [by intros [_ ?]%app_eq_nil|].
        exists (S n), P1, y, (x :: P2), b, Ly. rewrite <- (assoc_L (++)) in Hb. simpl in Hb.
        split; [lia|]. split; [|split; [done|split; [done|split; [done|]]]].
        { intros k. rewrite Hr, length_app. simpl length. rewrite (proj2 (Z.eqb_neq _ 0)) by lia. do 5 f_equal. lia. }
        intros p' pre2 l2 Hsame Hn' Hs' -> Hp'. exists (concat C1' ++ pre2). split; [by rewrite (assoc_L (++))|].
        cbn [on_path]. split; [by rewrite Hn'|].
        exists P1, y, (x :: P2), C1', ((l ++ post') :: C2), pre2, [].
        split; [done|]. split; [done|]. split; [done|]. split.
        { constructor; [|done]. split; [by apply (on_path_subtree _ _ (tw_path w) _ _ [] l post')|done]. }
        split; [done|]. split; [by rewrite app_nil_r|]. split; [done|]. simpl. by rewrite (assoc_L (++)).
    + right. split; [by intros [_ ?]%app_eq_nil|].
      destruct Hfound as (lev & Q1 & y & Q2 & c & L & Hlev & Hup & Hc & Hy & HL & Hrel).
      exists lev, Q1, y, Q2, c, L. split; [lia|]. split; [|split; [done|split; [done|split; [done|]]]].
      { intros k. replace (S n + k)%nat with (n + S k)%nat by lia. apply Hup. }
      intros p' pre2 l2 Hsame Hn' Hs' HL2 Hp'. destruct (Hrel p' pre2 l2 Hsame Hn' Hs' HL2 Hp') as (pre3 & -> & Hon).
      exists (concat C1 ++ pre3). split; [by rewrite (assoc_L (++))|]. cbn [on_path].
      destruct (Hsame (Z.of_nat (S n)) ltac:(lia)) as [-> ->]. split; [done|].
      exists P1, x, P2, C1, C2, pre3, (l ++ post'). do 4 (split; [done|]). split; [done|]. split.
      { by rewrite <- (assoc_L (++)) in Hh. }
      split; [done|by rewrite (assoc_L (++))].
Qed.

Lemma prev_up_end k w i : p_nodes (tw_path w) i = None -> 0 <= i -> i + Z.of_nat k <= 8 -> prev_leaf_up k i w = Some (None, w).
Proof using Type.
  intros Hi H0 Hk. destruct k as [|k]; [done|]. cbn [prev_leaf_up].
  rewrite (bind_some _ _ _ _ _ (path_node_run w i ltac:(apply in_path_lt; lia))). by rewrite Hi.
Qed.

Lemma prev_leaf_run w n b pre l post :
  (n < 8)%nat -> on_path root (tw_blocks w) (tw_path w) n b pre l post ->
  p_nodes (tw_path w) (Z.of_nat n + 1) = None ->
  (pre = [] -> btrfs_prev_leaf w = Some (1, w)) /\
  (pre <> [] -> exists p' pre2 l2, pre = pre2 ++ l2 /\ l2 <> [] /\
     btrfs_prev_leaf w = Some (0, with_path w p') /\
     on_path root (tw_blocks w) p' n b pre2 l2 (l ++ post) /\ p_slots p' 0 = Z.of_nat (pred (length l2)) /\
     same_above (Z.of_nat n) (tw_path w) p').
Proof using Hroot.
  intros Hn Hp Htop. unfold btrfs_prev_leaf. change (Z.to_nat (BTRFS_MAX_LEVEL - 1)) with 7%nat.
  destruct (prev_climb w n b pre l post Hn Hp) as [[-> Hup]|[Hne (lev & P1 & x & P2 & c & L & Hlev & Hup & Hc & Hx & HL & Hrel)]].
  - split; [intros _|done]. specialize (Hup (7 - n)%nat). rewrite (prev_up_end (7 - n) w (Z.of_nat n + 1)) in Hup by (done || lia).
    replace (n + (7 - n))%nat with 7%nat in Hup by lia.
    by rewrite (bind_some _ _ _ _ _ Hup).
  - split; [done|intros _]. destruct lev as [|lev]; [lia|]. cbn [pred] in Hx, Hrel.
    specialize (Hup (7 - n)%nat). replace (n + (7 - n))%nat with 7%nat in Hup by lia.
    rewrite (bind_some _ _ _ _ _ Hup).
    rewrite (bind_some _ _ _ _ _ (subtree_child w c lev P1 x P2 _ Hc Hx)).
    rewrite (bind_some _ _ _ _ _ (set_path_slot_run w (Z.of_nat (S lev)) _ ltac:(apply in_path_lt; lia))).
    set (w1 := with_path w _). rewrite Nat2Z.id.
    destruct (down_last w1 lev (kp_blockptr x) L ltac:(lia) Hx HL) as (pre2 & l2 & p' & HL2 & Hl2 & Hrun & Hsame & Hs0 & Hon).
    assert (Hsame' : same_above (Z.of_nat (S lev)) (tw_path w) p').
    { intros i Hi. destruct (Hsame i ltac:(lia)) as [-> ->]. simpl. by rewrite upd_other by lia. }
    destruct (Hsame (Z.of_nat (S lev)) ltac:(lia)) as [Hnode Hslot]. simpl p_slots in Hslot. rewrite upd_same in Hslot.
    destruct (Hrel p' pre2 l2 Hsame' Hnode Hslot HL2 Hon) as (pre3 & Hpre & Hpath).
    exists p', pre3, l2. split; [done|]. split; [done|]. split; [exact Hrun|]. split; [done|]. split; [done|].
    intros i Hi. apply Hsame'. lia.
Qed.
End Walk.
