(* ===== verification/TreeFrame.v ===== *)
(** What a change to one block of a tree leaves alone, and what replacing the
    leaf of a path makes of the tree. *)

From stdpp Require Import sorting.
From S2P Require Import Prelude Buf CtreeFmt LeafOps LeafSpec NodeOps TreeWorld TreeBalance TreeOps TreeSpec.
From S2P Require Import TreeSearch TreeWalk.

Implicit Types (L l pre post : list item) (ps P : list key_ptr) (key k : btrfs_key).

Section Frame.
Context {X : Type} `{ExtentTree X} (env : tree_env).

Abbreviation world := (tree_world X).
Abbreviation root := (te_root env).
Implicit Types (w : world) (m : gmap Z extent_buffer) (p : btrfs_path).

Abbreviation children m n := (Forall2 (fun x L => subtree root m n (kp_blockptr x) L /\ heads_ok x L)).

(** ** Frames *)

Lemma node_block_frame m m' b n ps : m' !! b = m !! b -> node_block root m b n ps -> node_block root m' b n ps.
Proof using Type. intros Heq (e & He & Hrest). exists e. by rewrite Heq. Qed.

Lemma leaf_block_frame m m' b l : m' !! b = m !! b -> leaf_block root m b l -> leaf_block root m' b l.
Proof using Type. intros Heq (e & He & Hrest). exists e. by rewrite Heq. Qed.

Lemma below_node m n b ps x a :
  node_block root m b (S n) ps -> x ∈ ps -> a ∈ tree_blocks m n (kp_blockptr x) -> a ∈ tree_blocks m (S n) b.
Proof using Type.
  intros Hb Hx Ha. apply list_elem_of_split in Hx as (P1 & P2 & ->). by apply (tree_blocks_child root _ _ _ P1 x P2).
Qed.

Lemma tree_blocks_frame m m' n b :
  (forall a, a ∈ tree_blocks m n b -> m' !! a = m !! a) -> tree_blocks m' n b = tree_blocks m n b.
Proof using Type.
  revert b. induction n as [|n IH]; intros b Hag; [done|]. cbn [tree_blocks] in *.
  rewrite (Hag b) by left. destruct (m !! b) as [e|]; [|done]. f_equal. f_equal.
  apply list_fmap_ext. intros i x Hx. apply IH. intros a Ha. apply Hag. right.
  apply list_elem_of_In, in_concat. eexists. split; [|by apply list_elem_of_In].
  apply list_elem_of_In, list_elem_of_fmap. exists x. split; [done|]. by eapply list_elem_of_lookup_2.
Qed.

Lemma tree_blocks_split m n b P1 x P2 :
  node_block root m b (S n) (P1 ++ x :: P2) ->
  tree_blocks m (S n) b = b :: concat ((fun y => tree_blocks m n (kp_blockptr y)) <$> P1) ++
    tree_blocks m n (kp_blockptr x) ++ concat ((fun y => tree_blocks m n (kp_blockptr y)) <$> P2).
Proof using Type. intros Hb. rewrite (tree_blocks_node _ _ _ _ _ Hb), fmap_app, concat_app. done. Qed.

Lemma in_children m n ps x a :
  x ∈ ps -> a ∈ tree_blocks m n (kp_blockptr x) -> a ∈ concat ((fun y => tree_blocks m n (kp_blockptr y)) <$> ps).
Proof using Type.
  intros Hx Ha. apply list_elem_of_In, in_concat. eexists. split; [|by apply list_elem_of_In].
  apply list_elem_of_In, list_elem_of_fmap. by exists x.
Qed.

Lemma subtree_frame m m' n b L :
  subtree root m n b L -> (forall a, a ∈ tree_blocks m n b -> m' !! a = m !! a) -> subtree root m' n b L.
Proof using Type.
  revert b L. induction n as [|n IH]; intros b L; cbn [subtree].
  - intros Hb Hag. apply (leaf_block_frame m); [apply Hag; left|done].
  - intros (ps & Ls & Hb & Hf & ->) Hag. exists ps, Ls. split; [|split; [|done]].
    + apply (node_block_frame m); [apply Hag; left|done].
    + assert (Hch : forall x a, x ∈ ps -> a ∈ tree_blocks m n (kp_blockptr x) -> m' !! a = m !! a)
        by (intros x a Hx Ha; apply Hag; by eapply below_node).
      clear Hb Hag. induction Hf as [|x L ps Ls [Hx Hh] Hf IHf]; constructor.
      * split; [|done]. apply IH; [done|]. intros a Ha. apply (Hch x); [left|done].
      * apply IHf. intros y a Hy Ha. apply (Hch y); [by right|done].
Qed.

Lemma children_frame m m' n ps (Ls : list (list item)) :
  children m n ps Ls ->
  (forall a, a ∈ concat ((fun y => tree_blocks m n (kp_blockptr y)) <$> ps) -> m' !! a = m !! a) ->
  children m' n ps Ls /\
  concat ((fun y => tree_blocks m' n (kp_blockptr y)) <$> ps) = concat ((fun y => tree_blocks m n (kp_blockptr y)) <$> ps).
Proof using Type.
  induction 1 as [|x L ps Ls [Hx Hh] Hf IH]; intros Hag; [by split|]. simpl in Hag.
  destruct IH as [IH1 IH2]; [intros a Ha; apply Hag; set_solver|]. split.
  - constructor; [|done]. split; [|done]. apply (subtree_frame m); [done|]. intros a Ha. apply Hag. set_solver.
  - cbn [fmap list_fmap concat]. f_equal; [|done]. apply tree_blocks_frame. intros a Ha. apply Hag. set_solver.
Qed.

(** The leaf at the end of a path. *)
Lemma on_path_leaf m p n b pre l post :
  on_path root m p n b pre l post ->
  exists lb, p_nodes p 0 = Some lb /\ leaf_block root m lb l /\ lb ∈ tree_blocks m n b.
Proof using Type.
  revert b pre post. induction n as [|n IH]; intros b pre post; cbn [on_path].
  - intros (Hn & Hl & _). exists b. split; [done|]. split; [done|]. left.
  - intros (_ & P1 & x & P2 & C1 & C2 & pre' & post' & Hb & _ & _ & _ & Hp & _).
    destruct (IH _ _ _ Hp) as (lb & H1 & H2 & H3). exists lb. split; [done|]. split; [done|].
    by apply (tree_blocks_child root _ _ _ P1 x P2).
Qed.

Lemma on_path_frame m m' p n b pre l post :
  on_path root m p n b pre l post -> (forall a, a ∈ tree_blocks m n b -> m' !! a = m !! a) ->
  on_path root m' p n b pre l post.
Proof using Type.
  revert b pre post. induction n as [|n IH]; intros b pre post; cbn [on_path].
  - intros (Hn & Hl & ? & ?) Hag. split; [done|]. split; [|done]. apply (leaf_block_frame m); [apply Hag; left|done].
  - intros (Hn & P1 & x & P2 & C1 & C2 & pre' & post' & Hb & Hs & H1 & H2 & Hp & Hrest) Hag.
    split; [done|]. rewrite (tree_blocks_split _ _ _ _ _ _ Hb) in Hag.
    exists P1, x, P2, C1, C2, pre', post'. split; [apply (node_block_frame m); [apply Hag; left|done]|]. split; [done|].
    split; [apply (children_frame m m' n P1 C1 H1); intros a Ha; apply Hag; set_solver|].
    split; [apply (children_frame m m' n P2 C2 H2); intros a Ha; apply Hag; set_solver|].
    split; [|done]. apply IH; [done|]. intros a Ha. apply Hag. set_solver.
Qed.

(** Put a path together again after the tree below a pointer, and the pointer's
    key, have changed. *)
Lemma on_path_rebuild m m' p n b P1 x x' P2 C1 C2 pre' l' post' :
  node_block root m b (S n) (P1 ++ x :: P2) -> NoDup (tree_blocks m (S n) b) ->
  p_nodes p (Z.of_nat (S n)) = Some b -> p_slots p (Z.of_nat (S n)) = Z.of_nat (length P1) ->
  children m n P1 C1 -> children m n P2 C2 ->
  node_block root m' b (S n) (P1 ++ x' :: P2) -> kp_blockptr x' = kp_blockptr x ->
  (forall a, a <> b -> a ∉ tree_blocks m n (kp_blockptr x) -> m' !! a = m !! a) ->
  on_path root m' p n (kp_blockptr x) pre' l' post' ->
  tree_blocks m' n (kp_blockptr x) = tree_blocks m n (kp_blockptr x) -> heads_ok x' (pre' ++ l' ++ post') ->
  on_path root m' p (S n) b (concat C1 ++ pre') l' (post' ++ concat C2) /\
  tree_blocks m' (S n) b = tree_blocks m (S n) b.
Proof using Type.
  intros Hb Hnd Hnode Hslot H1 H2 Hb' Hx' Hag Hp Htb Hh.
  rewrite (tree_blocks_split _ _ _ _ _ _ Hb) in Hnd |- *. rewrite (tree_blocks_split _ _ _ _ _ _ Hb'), Hx', Htb.
  apply NoDup_cons in Hnd as [Hbnot Hnd]. apply NoDup_app in Hnd as (_ & Hd1 & Hnd).
  apply NoDup_app in Hnd as (_ & Hd2 & _).
  destruct (children_frame m m' n P1 C1 H1) as [H1' Ht1]; [intros a Ha; apply Hag; set_solver|].
  destruct (children_frame m m' n P2 C2 H2) as [H2' Ht2]; [intros a Ha; apply Hag; set_solver|].
  split; [|by rewrite Ht1, Ht2]. cbn [on_path]. split; [done|].
  exists P1, x', P2, C1, C2, pre', post'. by rewrite Hx'.
Qed.

Lemma head_swap {A} (A1 l l' B1 : list A) : head l' = head l -> (l = [] -> l' = []) -> head (A1 ++ l' ++ B1) = head (A1 ++ l ++ B1).
Proof using Type.
  intros Hl Hn. destruct A1; [|done]. simpl. destruct l as [|y l]; [by rewrite Hn|]. by destruct l'; simpl in *.
Qed.

(** ** Another leaf with the same first key *)

Lemma on_path_set_leaf m p n b pre l l' post lb e' :
  on_path root m p n b pre l post -> NoDup (tree_blocks m n b) -> p_nodes p 0 = Some lb ->
  leaf_block root (<[lb := e']> m) lb l' -> head (l'.*1) = head (l.*1) ->
  on_path root (<[lb := e']> m) p n b pre l' post /\ tree_blocks (<[lb := e']> m) n b = tree_blocks m n b.
Proof using Type.
  intros Hp Hnd Hlb Hl' Hhd. revert b pre post Hp Hnd. induction n as [|n IH]; intros b pre post Hp Hnd.
  - destruct Hp as (Hn & Hl & -> & ->). split; [|done]. cbn [on_path]. split; [done|].
    change (Z.of_nat 0) with 0 in Hn. rewrite Hlb in Hn. by injection Hn as <-.
  - destruct Hp as (Hnode & P1 & x & P2 & C1 & C2 & pre' & post' & Hb & Hslot & H1 & H2 & Hp & Hh & -> & ->).
    pose proof Hnd as Hnd'. rewrite (tree_blocks_split _ _ _ _ _ _ Hb) in Hnd'.
    apply NoDup_cons in Hnd' as [Hbnot Hnd']. apply NoDup_app in Hnd' as (_ & _ & Hnd').
    apply NoDup_app in Hnd' as (Hndx & _ & _).
    destruct (on_path_leaf _ _ _ _ _ _ _ Hp) as (lb' & Hlb' & _ & Hin). rewrite Hlb in Hlb'. injection Hlb' as <-.
    assert (Hne : lb <> b) by (intros ->; apply Hbnot; set_solver).
    destruct (IH _ _ _ Hp Hndx) as [IHp IHt].
    apply (on_path_rebuild m _ p n b P1 x x P2 C1 C2 pre' l' post'); try done.
    + apply (node_block_frame m); [by rewrite lookup_insert_ne|done].
    + intros a Ha1 Ha2. rewrite lookup_insert_ne; [done|]. intros ->. done.
    + unfold heads_ok in *. rewrite <- Hh, !fmap_app. apply head_swap; [done|].
      destruct l; [|done]. by destruct l'.
Qed.

(** ** A new first key, carried up *)

Lemma set_node_key_outside d k i x :
  x < btrfs_node_key_ptr_offset i \/ btrfs_node_key_ptr_offset i + 17 <= x -> btrfs_set_node_key d k i x = d x.
Proof using Type. apply write_disk_key_outside. Qed.

Lemma set_node_key_repr d A x B k :
  key_ok k -> node_repr root d (A ++ x :: B) ->
  node_repr root (btrfs_set_node_key d k (Z.of_nat (length A)))
    (A ++ KeyPtr k (kp_blockptr x) (kp_generation x) :: B).
Proof using Type.
  intros Hk Hr. set (d' := btrfs_set_node_key d k (Z.of_nat (length A))).
  assert (Hout : forall z, z < btrfs_node_key_ptr_offset (Z.of_nat (length A)) \/
    btrfs_node_key_ptr_offset (Z.of_nat (length A)) + 17 <= z -> d' z = d z) by (intros z; apply set_node_key_outside).
  assert (Hnew : node_ptr d' (Z.of_nat (length A)) = KeyPtr k (kp_blockptr x) (kp_generation x)).
  { pose proof (repr_ptrs root d A [x] B Hr) as Hp. cbn [length ptrs] in Hp. injection Hp as <-.
    unfold node_ptr, btrfs_node_key, btrfs_node_blockptr, btrfs_node_ptr_generation. simpl. f_equal.
    - by apply read_write_disk_key.
    - apply get_le_same. intros z Hz. apply Hout. right. node_lia.
    - apply get_le_same. intros z Hz. apply Hout. right. node_lia. }
  apply (node_intro root _ _ (Z.of_nat (length (A ++ x :: B)))).
  - rewrite <- (nr_nritems _ _ _ Hr). apply get_le_same. intros z Hz. apply Hout. node_lia.
  - by rewrite !length_app.
  - apply holds_ptrs_app.
    + apply (holds_ptrs_move d _ 0); [apply (repr_holds root d [] A (x :: B) Hr)|]. intros z Hz. apply Hout. node_lia.
    + rewrite Z.add_0_l. apply (holds_ptrs_app _ _ [KeyPtr k (kp_blockptr x) (kp_generation x)] B).
      * unfold holds_ptrs. cbn [length ptrs]. by rewrite Hnew.
      * apply (holds_ptrs_move d _ (Z.of_nat (length A) + 1)); [|intros z Hz; apply Hout; simpl length; node_lia].
        replace (Z.of_nat (length A) + 1) with (Z.of_nat (length (A ++ [x]))) by (rewrite length_app; simpl; lia).
        apply (repr_holds root d (A ++ [x]) B []). by rewrite app_nil_r, <- (assoc_L (++)).
  - pose proof (nr_fits _ _ _ Hr). rewrite !length_app in *. done.
Qed.

(** The header is not written. *)
Lemma set_node_key_header d k i z : 0 <= i -> z < sizeof_header -> btrfs_set_node_key d k i z = d z.
Proof using Type. intros Hi Hz. apply set_node_key_outside. node_lia. Qed.

(** Every block of a map has a buffer with the same header as in another. *)
Definition same_headers m m' : Prop :=
  forall a e', m' !! a = Some e' -> exists e, m !! a = Some e /\ eb_len e' = eb_len e /\
    eb_bad_transid e' = eb_bad_transid e /\ forall z, z < 96 -> eb_data e' z = eb_data e z.

Lemma same_headers_refl m : same_headers m m.
Proof using Type. intros a e He. by exists e. Qed.

Lemma same_headers_trans m1 m2 m3 : same_headers m1 m2 -> same_headers m2 m3 -> same_headers m1 m3.
Proof using Type.
  intros H12 H23 a e3 He3. destruct (H23 a e3 He3) as (e2 & He2 & -> & -> & Hd23).
  destruct (H12 a e2 He2) as (e1 & He1 & -> & -> & Hd12). exists e1. split; [done|]. split; [done|]. split; [done|].
  intros z Hz. by rewrite Hd23, Hd12.
Qed.

Lemma same_headers_insert m b e d' :
  m !! b = Some e -> (forall z, z < 96 -> d' z = eb_data e z) ->
  same_headers m (<[b := ExtentBuffer (eb_len e) (eb_bad_transid e) d']> m).
Proof using Type.
  intros He Hd a e'. destruct (decide (a = b)) as [->|Hne].
  - rewrite lookup_insert_eq. intros [= <-]. by exists e.
  - rewrite lookup_insert_ne by done. intros He'. by exists e'.
Qed.

(** Only blocks above the leaves differ, and not in their headers. *)
Definition nodes_rewritten m m' : Prop :=
  forall a e', m' !! a = Some e' -> exists e, m !! a = Some e /\ eb_len e' = eb_len e /\
    eb_bad_transid e' = eb_bad_transid e /\ (forall z, z < sizeof_header -> eb_data e' z = eb_data e z) /\
    (btrfs_header_level (eb_data e) = 0 -> e' = e).

Lemma nodes_rewritten_refl m : nodes_rewritten m m.
Proof using Type. intros a e He. by exists e. Qed.

Lemma header_level_same (d d' : buf) :
  (forall z, z < sizeof_header -> d' z = d z) -> btrfs_header_level d' = btrfs_header_level d.
Proof using Type. intros Hd. apply get_le_same. intros z Hz. apply Hd. unfold sizeof_header. lia. Qed.

Lemma nodes_rewritten_trans m1 m2 m3 : nodes_rewritten m1 m2 -> nodes_rewritten m2 m3 -> nodes_rewritten m1 m3.
Proof using Type.
  intros H12 H23 a e3 He3. destruct (H23 a e3 He3) as (e2 & He2 & -> & -> & Hd23 & Hl23).
  destruct (H12 a e2 He2) as (e1 & He1 & -> & -> & Hd12 & Hl12). exists e1. do 3 (split; [done|]). split.
  - intros z Hz. by rewrite Hd23, Hd12.
  - intros Hl. assert (e2 = e1) as -> by auto. auto.
Qed.

Lemma nodes_rewritten_insert m b e d' :
  m !! b = Some e -> btrfs_header_level (eb_data e) <> 0 -> (forall z, z < sizeof_header -> d' z = eb_data e z) ->
  nodes_rewritten m (<[b := ExtentBuffer (eb_len e) (eb_bad_transid e) d']> m).
Proof using Type.
  intros He Hl Hd a e'. destruct (decide (a = b)) as [->|Hne].
  - rewrite lookup_insert_eq. intros [= <-]. by exists e.
  - rewrite lookup_insert_ne by done. intros He'. by exists e'.
Qed.

Lemma nodes_same_headers m m' : nodes_rewritten m m' -> same_headers m m'.
Proof using Type.
  intros Hn a e' He'. destruct (Hn a e' He') as (e & ? & ? & ? & Hd & _). exists e. do 3 (split; [done|]).
  intros z Hz. apply Hd. unfold sizeof_header. lia.
Qed.

Lemma block_current_header e e' :
  (forall z, z < 96 -> eb_data e' z = eb_data e z) -> block_current env e' = block_current env e.
Proof using Type.
  intros Hd. unfold block_current, btrfs_header_flag, btrfs_header_generation, btrfs_header_flags.
  rewrite !(get_le_same 8 (eb_data e) (eb_data e')) by (intros z Hz; apply Hd; lia). done.
Qed.

(** What changing the first key of the leaf does, level by level: the blocks
    [m'] hold the path again, and the loop has stopped, or goes on above. *)
Lemma fixup_climb m w n b pre l l' post lb e' k :
  (n < 8)%nat -> on_path root m (tw_path w) n b pre l post -> NoDup (tree_blocks m n b) ->
  p_nodes (tw_path w) 0 = Some lb -> tw_blocks w = <[lb := e']> m -> leaf_block root (tw_blocks w) lb l' ->
  head (l'.*1) = Some k -> key_ok k -> l <> [] ->
  exists m', on_path root m' (tw_path w) n b pre l' post /\ tree_blocks m' n b = tree_blocks m n b /\
    (forall a, a ∉ tree_blocks m n b -> m' !! a = m !! a) /\ nodes_rewritten (tw_blocks w) m' /\
    if decide (pre = [])
    then forall c, fixup_low_keys_loop (n + c) k 1 w = fixup_low_keys_loop c k (Z.of_nat n + 1) (with_blocks w m')
    else forall c, fixup_low_keys_loop (n + c) k 1 w = Some (0, with_blocks w m').
Proof using Type.
  intros Hn8 Hp Hnd Hlb Hw Hl' Hhd Hk Hl. revert b pre post Hp Hnd. induction n as [|n IH]; intros b pre post Hp Hnd.
  - destruct Hp as (Hn & Hlf & -> & ->). change (Z.of_nat 0) with 0 in *. rewrite Hlb in Hn. injection Hn as <-.
    exists (tw_blocks w). split; [by split|]. split; [done|]. split.
    { intros a Ha. rewrite Hw, lookup_insert_ne; [done|]. intros ->. apply Ha. left. }
    split; [apply nodes_rewritten_refl|]. rewrite decide_True by done. intros c.
    replace (with_blocks w (tw_blocks w)) with w by (by destruct w). done.
  - destruct Hp as (Hnode & P1 & x & P2 & C1 & C2 & pre' & post' & Hb & Hslot & H1 & H2 & Hp & Hh & -> & ->).
    pose proof Hnd as Hnd'. rewrite (tree_blocks_split _ _ _ _ _ _ Hb) in Hnd'.
    apply NoDup_cons in Hnd' as [Hbnot Hnd']. apply NoDup_app in Hnd' as (_ & _ & Hnd').
    apply NoDup_app in Hnd' as (Hndx & _ & _).
    assert (Hbx : b ∉ tree_blocks m n (kp_blockptr x)) by set_solver.
    destruct (IH ltac:(lia) _ _ _ Hp Hndx) as (m1 & Hp1 & Ht1 & Hag1 & Hsh1 & Hrun). clear IH.
    pose proof Hb as (e & He & Hlev & Hrep & Hne).
    assert (Hout : forall a, a ∉ tree_blocks m (S n) b -> a <> b /\ a ∉ tree_blocks m n (kp_blockptr x)).
    { intros a Ha. split; [intros ->; apply Ha; left|]. intros Hin. apply Ha. by apply (tree_blocks_child root _ _ _ P1 x P2). }
    case_decide as Hpre'.
    + (* the loop goes on at this level *)
      subst pre'. set (x' := KeyPtr k (kp_blockptr x) (kp_generation x)).
      set (e1 := ExtentBuffer (eb_len e) (eb_bad_transid e) (btrfs_set_node_key (eb_data e) k (Z.of_nat (length P1)))).
      assert (Hin : in_path (Z.of_nat (S n)) = true) by (apply in_path_lt; lia).
      assert (He1 : m1 !! b = Some e) by (by rewrite Hag1).
      destruct (on_path_rebuild m (<[b := e1]> m1) (tw_path w) n b P1 x x' P2 C1 C2 [] l' post') as [Hp2 Ht2]; try done.
      { exists e1. rewrite lookup_insert_eq. split; [done|]. split; [|split; [by apply set_node_key_repr|by destruct P1]].
        rewrite <- Hlev. apply get_le_same. intros z Hz. apply set_node_key_header; [lia|]. unfold sizeof_header. lia. }
      { intros a Ha1 Ha2. rewrite lookup_insert_ne by done. by apply Hag1. }
      { apply (on_path_frame m1); [done|]. rewrite Ht1. intros a Ha. rewrite lookup_insert_ne; [done|]. by intros ->. }
      { rewrite <- Ht1. apply tree_blocks_frame. intros a Ha. rewrite lookup_insert_ne; [done|].
        intros ->. by rewrite Ht1 in Ha. }
      { unfold heads_ok. simpl. by destruct l'. }
      exists (<[b := e1]> m1). split; [done|]. split; [done|]. split.
      { intros a Ha. destruct (Hout a Ha) as [Ha1 Ha2]. rewrite lookup_insert_ne by done. by apply Hag1. }
      split.
      { eapply nodes_rewritten_trans; [exact Hsh1|]. apply nodes_rewritten_insert; [done|lia|].
        intros z Hz. by apply set_node_key_header; [lia|]. }
      assert (Hstep : forall c, fixup_low_keys_loop (S n + c) k 1 w =
        if negb (Z.of_nat (length P1) =? 0) then Some (0, with_blocks w (<[b := e1]> m1))
        else fixup_low_keys_loop c k (Z.of_nat (S n) + 1) (with_blocks w (<[b := e1]> m1))).
      { intros c. replace (S n + c)%nat with (n + S c)%nat by lia. rewrite Hrun. cbn [fixup_low_keys_loop].
        replace (Z.of_nat n + 1) with (Z.of_nat (S n)) by lia.
        rewrite (bind_some _ _ _ _ _ (path_slot_run (with_blocks w m1) _ Hin)).
        rewrite (bind_some _ _ _ _ _ (path_node_run (with_blocks w m1) _ Hin)). change (tw_path (with_blocks w m1)) with (tw_path w). rewrite Hnode, Hslot.
        rewrite (bind_some _ _ _ _ _ (eb_update_run (with_blocks w m1) b e _ He1)).
        by destruct (negb _). }
      destruct P1 as [|y P1].
      * apply Forall2_nil_inv_l in H1 as ->. simpl. exact Hstep.
      * rewrite decide_False; [exact Hstep|]. intros [Hc _]%app_eq_nil. by apply (children_nonempty env _ _ _ _ H1) in Hc.
    + (* it has stopped below *)
      destruct (on_path_rebuild m m1 (tw_path w) n b P1 x x P2 C1 C2 pre' l' post') as [Hp2 Ht2]; try done.
      { apply (node_block_frame m); [by apply Hag1|done]. }
      { intros a Ha1 Ha2. by apply Hag1. }
      { unfold heads_ok in *. rewrite <- Hh. by destruct pre'. }
      exists m1. split; [done|]. split; [done|]. split; [intros a Ha; by apply Hag1, Hout|]. split; [done|].
      rewrite decide_False by (by intros [_ ?]%app_eq_nil). intros c.
      replace (S n + c)%nat with (n + S c)%nat by lia. apply Hrun.
Qed.
End Frame.
