(* ===== verification/TreeInsert.v ===== *)
(** Insertion into a tree whose leaf has room: search, shift and the keys on
    the way up. *)

From stdpp Require Import sorting.
From S2P Require Import Prelude Buf CtreeFmt LeafOps LeafSpec LeafResize LeafPush NodeOps TreeWorld TreeBalance.
From S2P Require Import TreeOps TreeSpec TreeSearch TreeWalk TreeFrame.

Implicit Types (L l pre post A B : list item) (ps P : list key_ptr) (key k : btrfs_key) (b : buf).

(** ** The header of a leaf *)

(** All of the header but the number of items. *)
Definition header_kept b b' : Prop := forall z, z < sizeof_header -> z < 96 \/ 100 <= z -> b' z = b z.

Lemma header_kept_level b b' : header_kept b b' -> btrfs_header_level b' = btrfs_header_level b.
Proof. intros Hk. apply get_le_same. intros z Hz. apply Hk; unfold sizeof_header; lia. Qed.

Lemma header_kept_low b b' : header_kept b b' -> forall z, z < 96 -> b' z = b z.
Proof. intros Hk z Hz. apply Hk; unfold sizeof_header; lia. Qed.

Section Header.
Context (root : btrfs_root) (Hroot : root_ok root).

Lemma insert_leaf_header b b' A B ks :
  leaf_repr root b (A ++ B) -> keys_ok ks ->
  sizeof_item * (Z.of_nat (length (A ++ B)) + Z.of_nat (length ks)) + dsize (A ++ B) + total ks
    <= BTRFS_LEAF_DATA_SIZE root ->
  insert_empty_items_leaf root b (Z.of_nat (length A)) ks = Some b' -> header_kept b b'.
Proof using Hroot.
  intros Hr Hok Hfit Hins z Hz1 Hz2.
  pose proof (repr_bounds root Hroot _ _ Hr) as Hb. pose proof (total_nonneg ks Hok).
  unfold insert_empty_items_leaf in Hins.
  rewrite (repr_free_space root Hroot _ _ Hr), (repr_data_end root Hroot _ _ Hr), sum_sizes_total in Hins
    by (done || leaf_lia).
  cbn [mbind option_bind] in Hins. destruct (_ <? _); [done|]. rewrite (proj2 (Z.ltb_ge _ 0)) in Hins by lia.
  destruct (if negb _ then _ else _) as [[b1 de]|] eqn:Hstep; [|done]. cbn [mbind option_bind] in Hins.
  destruct (btrfs_leaf_free_space root _) as [fs|]; [|done]. cbn [mbind option_bind] in Hins.
  destruct (fs <? 0); [done|]. injection Hins as <-.
  transitivity (setup_items (Z.of_nat (length A)) de ks b1 z).
  { unfold btrfs_set_header_nritems, put_le. zbool; first [done | lia]. }
  rewrite setup_items_outside by leaf_lia. revert Hstep. destruct (negb _).
  - destruct (_ <? _); [done|]. intros [= <- <-]. unfold sizeof_header in *.
    set (b2 := shift_offsets _ _ _ _). assert (H2 : b2 z = b z) by (apply shift_offsets_outside; leaf_lia).
    clearbody b2. set (b3 := memmove_extent_buffer b2 _ _ _). assert (H3 : b3 z = b2 z) by (unfold b3; leaf_untouched).
    clearbody b3. transitivity (b3 z); [leaf_untouched|congruence].
  - by intros [= <- <-].
Qed.

Lemma del_items_header b A X B :
  leaf_repr root b (A ++ X ++ B) -> X <> [] ->
  header_kept b (del_items_leaf root b (Z.of_nat (length A)) (Z.of_nat (length X))).
Proof using Hroot.
  intros Hr HX z Hz1 Hz2. pose proof (repr_bounds root Hroot _ _ Hr) as Hb.
  rewrite !dsize_app, !length_app in Hb.
  pose proof (dsize_nonneg A). pose proof (dsize_nonneg B). pose proof (dsize_nonneg X).
  unfold del_items_leaf.
  rewrite Nat2Z.id, (repr_sum_sizes root _ _ _ _ Hr), (repr_data_end root Hroot _ _ Hr), !dsize_app. unwrap.
  set (b0 := if negb _ then _ else _). enough (Hb0 : b0 z = b z).
  { clearbody b0. unfold btrfs_set_header_nritems, put_le. zbool; first [done | lia]. }
  unfold b0. destruct (negb _); [|done]. clear b0. unfold sizeof_header in *.
  set (b1 := memmove_extent_buffer b _ _ _). assert (H2 : b1 z = b z) by (unfold b1; leaf_untouched).
  clearbody b1. set (b2 := shift_offsets _ _ _ _). assert (H3 : b2 z = b1 z) by (apply shift_offsets_outside; leaf_lia).
  clearbody b2. transitivity (b2 z); [leaf_untouched|congruence].
Qed.
End Header.

Section Insert.
Context {X : Type} `{ExtentTree X} (env : tree_env).
Context (Hroot : root_ok (te_root env)).

Abbreviation world := (tree_world X).
Abbreviation root := (te_root env).
Implicit Types (w : world) (m : gmap Z extent_buffer) (p : btrfs_path).

(** A tree of [n] levels above the leaves, rooted at [b], with the items [L]:
    well formed, sorted, no block pointed to twice, and all of it in blocks of
    the running transaction. *)
Record tree_ok w n (b : Z) L : Prop := {
  to_root : tw_node w = Some b;
  to_tree : subtree root (tw_blocks w) n b L;
  to_sorted : sorted_keys (L.*1);
  to_depth : (n < 7)%nat;
  to_unshared : NoDup (tree_blocks (tw_blocks w) n b);
  to_current : no_copy env (tw_blocks w) (tree_blocks (tw_blocks w) n b) true;
}.

Lemma no_copy_headers m m' T :
  no_copy env m T true -> (forall a e', a ∈ T -> m' !! a = Some e' -> exists e, m !! a = Some e /\
    forall z, z < 96 -> eb_data e' z = eb_data e z) -> no_copy env m' T true.
Proof using Type.
  intros Hc Hh _. destruct (Hc eq_refl) as [Ht Hcur]. split; [done|]. intros a e' HT He'.
  destruct (Hh a e' HT He') as (e & He & Hd). rewrite (block_current_header env e e' Hd). by eapply Hcur.
Qed.

(** The path of a world leads to the leaf with the items [l]. *)
Record at_leaf w n (b lb : Z) pre l post : Prop := {
  al_path : on_path root (tw_blocks w) (tw_path w) n b pre l post;
  al_leaf : p_nodes (tw_path w) 0 = Some lb;
  al_top : p_nodes (tw_path w) (Z.of_nat n + 1) = None;
}.

Lemma leaf_block_write m lb e d' l' :
  m !! lb = Some e -> eb_len e = leafsize root -> btrfs_header_level (eb_data e) = 0 ->
  header_kept (eb_data e) d' -> leaf_repr root d' l' ->
  leaf_block root (<[lb := ExtentBuffer (eb_len e) (eb_bad_transid e) d']> m) lb l'.
Proof using Type.
  intros He Hlen Hlev Hk Hr. exists (ExtentBuffer (eb_len e) (eb_bad_transid e) d').
  rewrite lookup_insert_eq. split; [done|]. split; [done|]. split; [|done]. simpl. by rewrite (header_kept_level _ _ Hk).
Qed.

(** There is room for [ins_len] bytes in every block of the tree. *)
Definition has_room m n (b : Z) (ins_len : Z) : Prop :=
  (forall a i ps, a ∈ tree_blocks m n b -> node_block root m a (S i) ps ->
     Z.of_nat (length ps) < BTRFS_NODEPTRS_PER_BLOCK root - 3) /\
  (forall a l, a ∈ tree_blocks m n b -> leaf_block root m a l -> ins_len <= leaf_room env l).

(** The same blocks are in the tree, and of the leaves only [lb] differs. *)
Record leaf_written m m' n (b lb : Z) : Prop := {
  lw_tree : tree_blocks m' n b = tree_blocks m n b;
  lw_blocks : forall a e', m' !! a = Some e' -> exists e, m !! a = Some e /\
    btrfs_header_level (eb_data e') = btrfs_header_level (eb_data e) /\
    (btrfs_header_level (eb_data e) = 0 -> a = lb \/ e' = e) /\
    (btrfs_header_level (eb_data e) <> 0 -> btrfs_header_nritems (eb_data e') = btrfs_header_nritems (eb_data e));
}.

Lemma leaf_written_nodes m e d' m' n (b lb : Z) :
  m !! lb = Some e -> btrfs_header_level (eb_data e) = 0 -> header_kept (eb_data e) d' ->
  nodes_rewritten (<[lb := ExtentBuffer (eb_len e) (eb_bad_transid e) d']> m) m' ->
  tree_blocks m' n b = tree_blocks m n b -> leaf_written m m' n b lb.
Proof using Type.
  intros He Hl0 Hk Hn Ht. split; [done|]. intros a e' He'. destruct (Hn a e' He') as (e1 & He1 & _ & _ & Hd & Hl).
  pose proof (header_level_same _ _ Hd) as Hlev. destruct (decide (a = lb)) as [->|Hne].
  - rewrite lookup_insert_eq in He1. injection He1 as <-. exists e. split; [done|]. rewrite Hlev. simpl.
    split; [by apply header_kept_level|]. split; [by left|done].
  - rewrite lookup_insert_ne in He1 by done. exists e1. do 2 (split; [done|]). split; [auto|]. intros _.
    apply get_le_same. intros z Hz. apply Hd. unfold sizeof_header. lia.
Qed.

Lemma leaf_room_same m (a : Z) l l' :
  leaf_block root m a l -> leaf_block root m a l' -> leaf_room env l = leaf_room env l'.
Proof using Hroot.
  intros (e & He & _ & _ & Hr) (e' & He' & _ & _ & Hr'). rewrite He in He'. injection He' as <-.
  pose proof (repr_free_space root Hroot _ _ Hr) as H1. pose proof (repr_free_space root Hroot _ _ Hr') as H2.
  rewrite H1 in H2. injection H2 as H2. unfold leaf_room. lia.
Qed.

Lemma room_kept m m' n (b lb x x' : Z) l' :
  has_room m n b x -> leaf_written m m' n b lb -> leaf_block root m' lb l' -> x' <= x ->
  x' <= leaf_room env l' -> has_room m' n b x'.
Proof using Hroot.
  intros [Hn Hl] [Ht Hb] Hlb Hx Hroom. unfold has_room. rewrite Ht. split.
  - intros a i ps Ha (e' & He' & Hi & Hr & Hne). destruct (Hb a e' He') as (e & He & Hlev & _ & Hnr).
    rewrite Hi in Hlev. rewrite <- Hlev in Hnr. specialize (Hnr ltac:(lia)).
    rewrite (nr_nritems _ _ _ Hr) in Hnr. pose proof (nr_fits _ _ _ Hr) as Hf.
    set (ps0 := ptrs (eb_data e) 0 (length ps)). assert (Hlen : length ps0 = length ps) by apply ptrs_length.
    rewrite <- Hlen. apply (Hn a i ps0 Ha). exists e. do 2 (split; [done|]). split.
    + split; [by rewrite Hlen|by rewrite Hlen|by rewrite Hlen].
    + intros Hz. rewrite Hz in Hlen. by destruct ps.
  - intros a l Ha Hlf. pose proof Hlf as (e' & He' & Hlen & Hl0 & Hr). destruct (decide (a = lb)) as [->|Hne].
    + by rewrite (leaf_room_same m' lb l l' Hlf Hlb).
    + destruct (Hb a e' He') as (e & He & Hlev & Hsame & _). rewrite Hl0 in Hlev.
      destruct (Hsame (eq_sym Hlev)) as [?| ->]; [done|]. etransitivity; [exact Hx|]. apply (Hl a); [done|].
      by exists e.
Qed.

Lemma leaf_written_refl m n (b lb : Z) : leaf_written m m n b lb.
Proof using Type. split; [done|]. intros a e He. exists e. split; [done|]. split; [done|]. split; [by right|done]. Qed.

(** The leaf of the path is rewritten, and if its first key changes the keys
    above are fixed up: the tree holds the new items in the place of the old. *)
Lemma leaf_rewritten w n (b lb : Z) pre l post e d' l' k :
  tree_ok w n b (pre ++ l ++ post) -> at_leaf w n b lb pre l post -> tw_blocks w !! lb = Some e ->
  eb_len e = leafsize root -> btrfs_header_level (eb_data e) = 0 ->
  header_kept (eb_data e) d' -> leaf_repr root d' l' ->
  sorted_keys ((pre ++ l' ++ post).*1) -> head (l'.*1) = Some k -> key_ok k ->
  exists w', eb_write lb d' w = Some (tt, w') /\ tw_path w' = tw_path w /\
    (head (l'.*1) = head (l.*1) -> tree_ok w' n b (pre ++ l' ++ post) /\ at_leaf w' n b lb pre l' post /\
      leaf_written (tw_blocks w) (tw_blocks w') n b lb) /\
    exists w2, fixup_low_keys k 1 w' = Some (0, w2) /\ tw_path w2 = tw_path w /\
      tree_ok w2 n b (pre ++ l' ++ post) /\ at_leaf w2 n b lb pre l' post /\
      leaf_written (tw_blocks w) (tw_blocks w2) n b lb.
Proof using Type.
  intros [Tr Tt Ts Td Tu Tc] [Ap Al At] He Hlen Hlev Hk Hr Hs Hhd Hkk.
  set (m := tw_blocks w) in *. set (e' := ExtentBuffer (eb_len e) (eb_bad_transid e) d').
  pose proof (leaf_block_write m lb e d' l' He Hlen Hlev Hk Hr) as Hlf. change (ExtentBuffer _ _ d') with e' in Hlf.
  assert (Hsh : same_headers m (<[lb := e']> m)) by (apply same_headers_insert; [done|by apply header_kept_low]).
  exists (with_blocks w (<[lb := e']> m)). split; [by apply eb_write_run|]. split; [done|]. split.
  - intros Hhd'. destruct (on_path_set_leaf env m (tw_path w) n b pre l l' post lb e' Ap Tu Al Hlf Hhd') as [Hp Ht].
    split; [|split; [by split|by apply (leaf_written_nodes m e d'); [..|apply nodes_rewritten_refl|]]].
    split; simpl; [done| |done|done|by rewrite Ht|rewrite Ht].
    + by apply (on_path_subtree root _ _ _ _ _ _ _ Hp).
    + apply (no_copy_headers m); [done|]. intros a e1 _ He1. destruct (Hsh a e1 He1) as (e0 & ? & _ & _ & ?). eauto.
  - set (w' := with_blocks w (<[lb := e']> m)).
    destruct (decide (l = [])) as [->|Hne].
    + (* an empty leaf is the root *)
      destruct n as [|n]; [|by apply (on_path_nonempty env) in Ap].
      destruct Ap as (Hn & _ & -> & ->). change (Z.of_nat 0) with 0 in Hn. rewrite Al in Hn. injection Hn as ->.
      change (Z.of_nat 0 + 1) with 1 in At. exists w'. split.
      { unfold fixup_low_keys. change (Z.to_nat (BTRFS_MAX_LEVEL - 1)) with 7%nat. cbn [fixup_low_keys_loop].
        rewrite (bind_some _ _ w' (p_slots (tw_path w') 1) w') by done.
        rewrite (bind_some _ _ w' None w') by (unfold path_node; by rewrite <- At). done. }
      split; [done|]. assert (Hp : on_path root (tw_blocks w') (tw_path w') 0 b [] l' []) by (by split).
      split; [|split; [by split|by apply (leaf_written_nodes m e d'); [..|apply nodes_rewritten_refl|]]].
      split; simpl; [done| |done|done|done|].
      * by apply (on_path_subtree root _ _ _ _ _ _ _ Hp).
      * apply (no_copy_headers m); [done|]. intros a e1 _ He1. destruct (Hsh a e1 He1) as (e0 & ? & _ & _ & ?). eauto.
    + destruct (fixup_climb env m w' n b pre l l' post lb e' k) as (m' & Hp & Ht & Hag & Hsh' & Hrun); try done; [lia|].
      exists (with_blocks w' m'). split.
      { unfold fixup_low_keys. change (Z.to_nat (BTRFS_MAX_LEVEL - 1)) with 7%nat.
        replace 7%nat with (n + (7 - n))%nat by lia. case_decide; rewrite Hrun; [|done].
        destruct (7 - n)%nat as [|c] eqn:Ec; [lia|]. cbn [fixup_low_keys_loop].
        assert (Hin : in_path (Z.of_nat n + 1) = true) by (apply in_path_lt; lia).
        rewrite (bind_some _ _ _ _ _ (path_slot_run (with_blocks w' m') _ Hin)).
        rewrite (bind_some _ _ _ _ _ (path_node_run (with_blocks w' m') _ Hin)).
        change (tw_path (with_blocks w' m')) with (tw_path w). by rewrite At. }
      split; [done|]. split; [|split; [by split|by apply (leaf_written_nodes m e d')]].
      split; simpl; [done| |done|done|by rewrite Ht|rewrite Ht].
      * by apply (on_path_subtree root _ _ _ _ _ _ _ Hp).
      * apply (no_copy_headers m); [done|]. intros a e1 _ He1.
        destruct (same_headers_trans _ _ _ Hsh (nodes_same_headers _ _ Hsh') a e1 He1) as (e0 & ? & _ & _ & ?). eauto.
Qed.

(** ** Search, on a tree that is [tree_ok] *)

(** Blocks that a search for [ins_len] bytes neither splits nor joins. *)
Record searchable m n (b : Z) (ins_len : Z) : Prop := {
  sr_room : 0 < ins_len -> has_room m n b ins_len;
  sr_full : ins_len < 0 -> forall a i ps, a ∈ tree_blocks m n b -> node_block root m a (S i) ps ->
    BTRFS_NODEPTRS_PER_BLOCK root / 4 < Z.of_nat (length ps);
}.

Lemma search_tree_ok w n (b : Z) L key ins_len (cow : bool) fuel :
  tree_ok w n b L -> tw_path w = btrfs_init_path -> searchable (tw_blocks w) n b ins_len ->
  (cow = false -> ins_len = 0) -> (n < fuel)%nat ->
  exists r slot p lb pre l post, L = pre ++ l ++ post /\ found (l.*1) key r slot /\
    Forall (fun k => key_lt k key) (pre.*1) /\ Forall (fun k => key_lt key k) (post.*1) /\
    btrfs_search_slot env fuel key ins_len cow w = Some (r, with_path w p) /\
    at_leaf (with_path w p) n b lb pre l post /\ p_slots p 0 = slot /\ lb ∈ tree_blocks (tw_blocks w) n b /\
    (pre = [] \/ exists k, head (l.*1) = Some k /\ ~ key_lt key k).
Proof using Hroot.
  intros [Tr Tt Ts Td Tu Tc] Hp [Hroom Hfull] Hcow Hfuel.
  assert (Hc : calm env w (tree_blocks (tw_blocks w) n b) ins_len cow).
  { split; [by destruct cow|done|by rewrite Hp| |].
    - intros Hpos a i ps Ha. by apply (proj1 (Hroom Hpos)).
    - intros Hneg a i ps Ha. by apply Hfull. }
  destruct (search_slot_run env Hroot key ins_len cow n b L w fuel Hc Hp Tr Tt Ts Td Hfuel)
    as (w1 & lb & pre & l & post & [Rw Rf Ra Rp Rl Ri Rb Rh Rpar Rm Rlow] & Hrun).
  destruct Hrun as (r & slot & Hf & Hrun); [intros Hpos; by eapply (proj2 (Hroom Hpos))|].
  exists r, slot, (slot_upd (node_upd (tw_path w1) 0 (Some lb)) 0 slot), lb, pre, l, post.
  split; [done|]. split; [done|]. split; [done|]. split; [done|]. split.
  { rewrite Hrun. f_equal. f_equal. rewrite <- Rw. done. }
  split; [|split; [simpl; apply upd_same|by split]]. split; simpl.
  - apply (on_path_below env _ _ _ _ _ _ _ _ Rp). intros i Hi. split; [done|]. intros Hi0. simpl. by rewrite upd_other.
  - apply upd_same.
  - rewrite upd_other by lia. destruct (Ra (Z.of_nat n + 1) ltac:(lia)) as [-> _]. by rewrite Hp.
Qed.

(** ** Insertion *)

Lemma key_elem_split key pre l post :
  Forall (fun k => key_lt k key) (pre.*1) -> Forall (fun k => key_lt key k) (post.*1) ->
  key ∈ (pre ++ l ++ post).*1 <-> key ∈ l.*1.
Proof using Type.
  intros H1 H2. rewrite !fmap_app, !elem_of_app. split; [|auto]. intros [Hk|[Hk|Hk]]; [|done|]; exfalso.
  - eapply key_lt_irrefl. by apply (proj1 (Forall_forall _ _) H1).
  - eapply key_lt_irrefl. by apply (proj1 (Forall_forall _ _) H2).
Qed.

(** The path of a world leads to the item [(key, d)] of its tree. *)
Record at_item w n (b lb : Z) pre A key (d : list Z) B post : Prop := {
  ai_ok : tree_ok w n b (pre ++ (A ++ (key, d) :: B) ++ post);
  ai_leaf : at_leaf w n b lb pre (A ++ (key, d) :: B) post;
  ai_slot : p_slots (tw_path w) 0 = Z.of_nat (length A);
}.

Lemma insert_run w n (b : Z) L key size fuel :
  tree_ok w n b L -> tw_path w = btrfs_init_path -> key_ok key -> 0 <= size < 65536 ->
  has_room (tw_blocks w) n b (size + sizeof_item) -> (n < fuel)%nat ->
  exists r w', btrfs_insert_empty_items env fuel [(key, size)] w = Some (r, w') /\
    if decide (key ∈ L.*1) then r = - EEXIST /\ tw_blocks w' = tw_blocks w /\
      exists lb pre A d B post, L = pre ++ (A ++ (key, d) :: B) ++ post /\ at_item w' n b lb pre A key d B post
    else r = 0 /\ exists lb pre A B post d, L = pre ++ (A ++ B) ++ post /\ Z.of_nat (length d) = size /\
      at_item w' n b lb pre A key d B post /\ leaf_written (tw_blocks w) (tw_blocks w') n b lb /\
      leaf_block root (tw_blocks w) lb (A ++ B).
Proof using Hroot.
  intros Hok Hp Hkey Hsize Hroom Hfuel. pose proof Hroom as [_ Hlroom].
  unfold sizeof_item in Hroom.
  assert (Hsr : searchable (tw_blocks w) n b (size + 25)) by (split; [done|lia]).
  destruct (search_tree_ok w n b L key (size + 25) true fuel Hok Hp Hsr ltac:(done) Hfuel)
    as (r & slot & p & lb & pre & l & post & -> & Hf & Hpre & Hpost & Hrun & Hat & Hs & Hlb & _).
  unfold btrfs_insert_empty_items. simpl head. unfold lift. rewrite (bind_some _ _ w (key, size) w) by done. cbn [fst].
  rewrite (bind_some _ _ w (Some b) w) by (unfold root_node, gets; by rewrite (to_root _ _ _ _ Hok)).
  rewrite bool_decide_eq_false_2 by done. rewrite (bind_some _ _ w tt w) by done.
  assert (Hts : s32 (u32 (sum_sizes [(key, size)] + Z.of_nat 1 * sizeof_item)) = size + 25).
  { simpl. unfold sizeof_item. unwrap. lia. }
  cbn [length]. rewrite Hts, (bind_some _ _ _ _ _ Hrun).
  pose proof (key_elem_split key pre l post Hpre Hpost) as Helem.
  destruct Hf as (k1 & k2 & Hslot & Hk1 & Hk2 & [[-> Hl]|[-> Hl]]).
  - (* the key is there *)
    eexists _, _. split; [reflexivity|]. rewrite decide_True by (apply Helem; rewrite Hl; set_solver).
    do 2 (split; [done|]). apply fmap_app_inv in Hl as (A & B' & -> & HB & ->). symmetry in HB.
    apply fmap_cons_inv in HB as ([k d] & B & -> & -> & ->). cbn [fst] in *. rewrite length_fmap in Hslot.
    exists lb, pre, A, d, B, post. split; [done|]. split; [by destruct Hok|done|]. simpl. by rewrite <- Hslot.
  - destruct (decide _) as [Hin|_]; [exfalso; apply (not_around k1 k2 key); [done..|by rewrite <- Hl, <- Helem]|].
    apply fmap_app_inv in Hl as (A & B & -> & -> & ->). rewrite length_fmap in Hslot.
    change (1 =? 0) with false. change (1 <? 0) with false. cbv iota.
    set (w1 := with_path w p) in *. pose proof Hat as [Ap Al At].
    rewrite (bind_some _ _ _ _ _ (path_block_run w1 0 lb eq_refl Al)).
    rewrite (bind_some _ _ _ _ _ (path_slot_run w1 0 eq_refl)). change (tw_path w1) with p. rewrite Hslot in Hs. rewrite Hs.
    destruct (on_path_leaf env _ _ _ _ _ _ _ Ap) as (lb' & Hlb' & (e & He & Hlen & Hlev & Hr) & _).
    rewrite Al in Hlb'. injection Hlb' as <-.
    rewrite (bind_some _ _ _ _ _ (eb_read_run w1 lb e He)).
    assert (Hks : keys_ok [(key, size)]) by (unfold keys_ok; rewrite Forall_singleton; simpl; split; [done|lia]).
    assert (Hfit : sizeof_item * (Z.of_nat (length (A ++ B)) + Z.of_nat (length [(key, size)])) + dsize (A ++ B) +
      total [(key, size)] <= BTRFS_LEAF_DATA_SIZE root).
    { specialize (Hlroom lb (A ++ B) Hlb ltac:(by exists e)). unfold leaf_room in Hlroom. simpl. lia. }
    destruct (insert_leaf_spec root Hroot (eb_data e) A B [(key, size)] Hr Hks Hfit) as (d' & XX & Hi & HX & Hr').
    pose proof (insert_leaf_header root Hroot _ _ _ _ _ Hr Hks Hfit Hi) as Hk'.
    apply Forall2_cons_inv_r in HX as ([k d] & X' & [Hk Hd] & HX & ->). apply Forall2_nil_inv_r in HX as ->.
    simpl in Hk, Hd. subst k. simpl in Hr'. rewrite Hi, (bind_some _ _ w1 d' w1) by done.
    assert (Hok1 : tree_ok w1 n b (pre ++ (A ++ B) ++ post)) by (destruct Hok; by split).
    assert (Hs' : sorted_keys ((pre ++ (A ++ (key, d) :: B) ++ post).*1)).
    { pose proof (to_sorted _ _ _ _ Hok) as Hs0.
      replace (pre ++ (A ++ (key, d) :: B) ++ post) with ((pre ++ A) ++ (key, d) :: B ++ post)
        by (by rewrite <- !(assoc_L (++))).
      replace (pre ++ (A ++ B) ++ post) with ((pre ++ A) ++ B ++ post) in Hs0 by (by rewrite <- !(assoc_L (++))).
      rewrite fmap_app, fmap_cons. apply sorted_insert; [by rewrite <- fmap_app|rewrite fmap_app; by apply Forall_app..]. }
    destruct (leaf_rewritten w1 n b lb pre (A ++ B) post e d' (A ++ (key, d) :: B)
      (match A with [] => key | x :: _ => fst x end) Hok1 Hat He Hlen Hlev Hk' Hr' Hs') as (w2 & Hw & Hpath & Hsame & w3 & Hfix & Hpath3 & Hok3 & Hat3 & Hlw3).
    { by destruct A. }
    { destruct A as [|x A]; [done|]. by apply (repr_key_ok root Hroot _ _ _ O Hr). }
    rewrite (bind_some _ _ _ _ _ Hw). destruct A as [|x A].
    + simpl Z.of_nat. change (0 =? 0) with true. cbv iota. exists 0, w3. split; [done|]. split; [done|].
      exists lb, pre, [], B, post, d. do 2 (split; [done|]). split; [|by split; [|exists e]]. split; [done|done|]. rewrite Hpath3. exact Hs.
    + rewrite (proj2 (Z.eqb_neq _ 0)) by (simpl; lia). exists 0, w2. split; [done|]. split; [done|].
      exists lb, pre, (x :: A), B, post, d. destruct (Hsame eq_refl) as (? & ? & ?). do 2 (split; [done|]).
      split; [|by split; [|exists e]]. split; [done|done|]. rewrite Hpath. exact Hs.
Qed.
End Insert.

(** ** Deleting items from a leaf of a tree, and changing the key of one. *)



(** ** A new key in the header of an item *)

Section Key.
Context (root : btrfs_root) (Hroot : root_ok root).

Lemma set_item_key_outside b k i x :
  x < btrfs_item_nr_offset i \/ btrfs_item_nr_offset i + 17 <= x -> btrfs_set_item_key b k i x = b x.
Proof using Type. apply write_disk_key_outside. Qed.

Lemma set_item_key_header b k i : 0 <= i -> header_kept b (btrfs_set_item_key b k i).
Proof using Type. intros Hi z Hz _. apply set_item_key_outside. leaf_lia. Qed.

Lemma set_item_key_spec b A k d B k' :
  leaf_repr root b (A ++ (k, d) :: B) -> key_ok k' ->
  leaf_repr root (btrfs_set_item_key b k' (Z.of_nat (length A))) (A ++ (k', d) :: B).
Proof using Hroot.
  intros Hr Hk. pose proof (repr_bounds root Hroot _ _ Hr) as Hb. rewrite !dsize_app, !length_app in Hb. simpl in Hb.
  pose proof (dsize_nonneg A). pose proof (dsize_nonneg B).
  set (b' := btrfs_set_item_key b k' _).
  assert (Hout : forall x, x < btrfs_item_nr_offset (Z.of_nat (length A)) \/
    btrfs_item_nr_offset (Z.of_nat (length A)) + 17 <= x -> b' x = b x) by (intros x; apply set_item_key_outside).
  destruct (repr_item_fields root Hroot b A k d B Hr) as (_ & Hoff & Hsz & _).
  apply (replace_intro root Hroot b b' A k d B k' d Hr).
  - apply get_le_same. intros z Hz. apply Hout. leaf_lia.
  - intros z Hz. apply Hout. leaf_lia.
  - intros z Hz. apply Hout. leaf_lia.
  - unfold item_hdr. f_equal.
    + by apply read_write_disk_key.
    + rewrite <- Hoff. apply get_le_same. intros z Hz. apply Hout. leaf_lia.
    + rewrite <- Hsz. apply get_le_same. intros z Hz. apply Hout. leaf_lia.
  - replace (BTRFS_LEAF_DATA_SIZE root - dsize A - Z.of_nat (length d)) with
      (BTRFS_LEAF_DATA_SIZE root - dsize (A ++ [(k, d)])) by (rewrite dsize_app; simpl; lia).
    replace (A ++ (k, d) :: B) with ((A ++ [(k, d)]) ++ B) in Hr by (by rewrite <- (assoc_L (++))).
    rewrite <- (repr_hdrs_right root b (A ++ [(k, d)]) B Hr), length_app. simpl length.
    replace (Z.of_nat (length A + 1)) with (Z.of_nat (length A) + 1) by lia.
    apply hdrs_same. intros z Hz. apply Hout. leaf_lia.
  - pose proof (repr_item_data root Hroot b A k d B Hr) as Hd. unfold btrfs_item_ptr_offset in Hd. rewrite Hoff in Hd.
    rewrite <- Hd at 3. replace (btrfs_leaf_data + _) with (leafsize root - dsize A - Z.of_nat (length d)) by leaf_lia.
    apply read_same. intros z Hz. apply Hout. leaf_lia.
  - replace (A ++ (k, d) :: B) with ((A ++ [(k, d)]) ++ B) in Hr by (by rewrite <- (assoc_L (++))).
    destruct (repr_data root b (A ++ [(k, d)]) B Hr) as [<- _]. rewrite !dsize_app. simpl.
    replace (leafsize root - (_ + dsize B)) with (leafsize root - dsize A - Z.of_nat (length d) - dsize B) by lia.
    apply read_same. intros z Hz. apply Hout. leaf_lia.
  - rewrite length_app. simpl. lia.
Qed.
End Key.

Section Update.
Context {X : Type} `{ExtentTree X} (env : tree_env).
Context (Hroot : root_ok (te_root env)).

Abbreviation world := (tree_world X).
Abbreviation root := (te_root env).
Implicit Types (w : world) (m : gmap Z extent_buffer) (p : btrfs_path).

(** The leaf of a path. *)
Lemma at_leaf_block w n (b lb : Z) pre l post :
  at_leaf env w n b lb pre l post ->
  exists e, tw_blocks w !! lb = Some e /\ eb_len e = leafsize root /\ btrfs_header_level (eb_data e) = 0 /\
    leaf_repr root (eb_data e) l.
Proof using Type.
  intros [Ap Al At]. destruct (on_path_leaf env _ _ _ _ _ _ _ Ap) as (lb' & Hlb' & Hl & _).
  rewrite Al in Hlb'. by injection Hlb' as <-.
Qed.

(** ** Deletion *)

Lemma del_run w n (b lb : Z) pre A XX B post :
  tree_ok env w n b (pre ++ (A ++ XX ++ B) ++ post) -> at_leaf env w n b lb pre (A ++ XX ++ B) post ->
  XX <> [] -> A ++ B <> [] -> BTRFS_LEAF_DATA_SIZE root / 4 <= weight (A ++ B) ->
  exists w', btrfs_del_items env (Z.of_nat (length A)) (Z.of_nat (length XX)) w = Some (0, w') /\
    tree_ok env w' n b (pre ++ (A ++ B) ++ post) /\ at_leaf env w' n b lb pre (A ++ B) post /\
    tw_path w' = tw_path w.
Proof using Hroot.
  intros Hok Hat HX Hne Hwt. destruct (at_leaf_block _ _ _ _ _ _ _ Hat) as (e & He & Hlen & Hlev & Hr).
  assert (Hlen0 : (0 < length (A ++ B))%nat) by (destruct (A ++ B); [done|simpl; lia]).
  set (d' := del_items_leaf root (eb_data e) (Z.of_nat (length A)) (Z.of_nat (length XX))).
  pose proof (del_items_spec root Hroot _ _ _ _ Hr HX) as Hr'. fold d' in Hr'.
  pose proof (del_items_header root Hroot _ _ _ _ Hr HX) as Hk. fold d' in Hk.
  destruct ((A ++ B).*1) as [|k ks] eqn:Eks; [by apply fmap_nil_inv in Eks|].
  assert (Hhd : head ((A ++ B).*1) = Some k) by (by rewrite Eks).
  assert (Hkk : key_ok k) by (apply (repr_key_ok root Hroot d' (A ++ B) k O Hr'); by rewrite Eks).
  assert (Hs : sorted_keys ((pre ++ (A ++ B) ++ post).*1)).
  { pose proof (to_sorted _ _ _ _ _ Hok) as Hs. rewrite !fmap_app in Hs.
    rewrite !fmap_app. by apply sorted_drop_middle in Hs. }
  destruct (leaf_rewritten env w n b lb pre (A ++ XX ++ B) post e d' (A ++ B) k Hok Hat He Hlen Hlev Hk Hr' Hs Hhd Hkk)
    as (w1 & Hw & Hp1 & Hsame & w2 & Hfix & Hp2 & Hok2 & Hat2 & _).
  pose proof Hat as [_ Al _]. unfold btrfs_del_items.
  rewrite (bind_some _ _ _ _ _ (path_block_run w 0 lb eq_refl Al)).
  assert (Hw' : eb_update lb (fun d => del_items_leaf root d (Z.of_nat (length A)) (Z.of_nat (length XX))) w = Some (tt, w1)).
  { unfold eb_update. by rewrite (bind_some _ _ _ _ _ (eb_read_run w lb e He)). }
  rewrite (bind_some _ _ _ _ _ Hw').
  assert (Hrd : eb_read lb w1 = Some (d', w1)).
  { rewrite (eb_write_run w lb e d' He) in Hw. injection Hw as <-. unfold eb_read, eb_get, deref, bind. simpl.
    by rewrite lookup_insert_eq. }
  rewrite (bind_some _ _ _ _ _ Hrd), (lr_nritems _ _ _ Hr'), (proj2 (Z.eqb_neq _ 0)) by lia.
  pose proof (repr_space_used root Hroot d' [] (A ++ B) []) as Hu. rewrite app_nil_r in Hu.
  unfold lift. change 0 with (Z.of_nat (length (@nil item))) at 1. rewrite Hu by done.
  rewrite (bind_some _ _ w1 (dsize (A ++ B) + sizeof_item * Z.of_nat (length (A ++ B))) w1) by done.
  unfold weight in Hwt. rewrite (proj2 (Z.ltb_ge _ _)) by lia.
  assert (Hkey : btrfs_item_key d' 0 = k) by (apply (repr_key root Hroot d' (A ++ B) O k Hr'); by rewrite Eks).
  destruct A as [|x A].
  - change (Z.of_nat (length []) =? 0) with true. cbv iota. rewrite Hkey, (bind_some _ _ _ _ _ Hfix). by exists w2.
  - rewrite (proj2 (Z.eqb_neq _ 0)) by (simpl; lia). rewrite (bind_some _ _ w1 0 w1) by done.
    exists w1. destruct (Hsame eq_refl) as (? & ? & _). done.
Qed.

(** ** A new key *)

Lemma set_key_run w n (b lb : Z) pre A k d B post key :
  tree_ok env w n b (pre ++ (A ++ (k, d) :: B) ++ post) -> at_leaf env w n b lb pre (A ++ (k, d) :: B) post ->
  p_slots (tw_path w) 0 = Z.of_nat (length A) -> key_ok key ->
  (forall x, last (A.*1) = Some x -> key_lt x key) -> (forall x, head (B.*1) = Some x -> key_lt key x) ->
  sorted_keys ((pre ++ (A ++ (key, d) :: B) ++ post).*1) ->
  exists w', btrfs_set_item_key_safe key w = Some (0, w') /\
    tree_ok env w' n b (pre ++ (A ++ (key, d) :: B) ++ post) /\ at_leaf env w' n b lb pre (A ++ (key, d) :: B) post /\
    tw_path w' = tw_path w.
Proof using Hroot.
  intros Hok Hat Hslot Hkey HA HB Hs. destruct (at_leaf_block _ _ _ _ _ _ _ Hat) as (e & He & Hlen & Hlev & Hr).
  set (d' := btrfs_set_item_key (eb_data e) key (Z.of_nat (length A))).
  pose proof (set_item_key_spec root Hroot _ _ _ _ _ key Hr Hkey) as Hr'. fold d' in Hr'.
  pose proof (set_item_key_header (eb_data e) key (Z.of_nat (length A)) ltac:(lia)) as Hk. fold d' in Hk.
  set (k0 := match A with [] => key | x :: _ => fst x end).
  destruct (leaf_rewritten env w n b lb pre (A ++ (k, d) :: B) post e d' (A ++ (key, d) :: B) k0 Hok Hat He Hlen Hlev Hk Hr' Hs)
    as (w1 & Hw & Hp1 & Hsame & w2 & Hfix & Hp2 & Hok2 & Hat2 & _).
  { unfold k0. by destruct A. }
  { unfold k0. destruct A as [|x A]; [done|]. by apply (repr_key_ok root Hroot _ _ _ O Hr). }
  pose proof Hat as [_ Al _]. unfold btrfs_set_item_key_safe.
  rewrite (bind_some _ _ _ _ _ (path_node_run w 0 eq_refl)), Al.
  rewrite (bind_some _ _ w lb w) by done.
  rewrite (bind_some _ _ _ _ _ (path_slot_run w 0 eq_refl)), Hslot.
  rewrite (bind_some _ _ _ _ _ (eb_read_run w lb e He)).
  assert (Hprev : (0 <? Z.of_nat (length A)) &&
    (0 <=? btrfs_comp_keys (btrfs_item_key (eb_data e) (Z.of_nat (length A) - 1)) key) = false).
  { destruct A as [|x A _] using rev_ind; [done|]. apply andb_false_iff. right. apply Z.leb_gt.
    rewrite length_app. simpl length. replace (Z.of_nat (length A + 1) - 1) with (Z.of_nat (length A)) by lia.
    rewrite (repr_key root Hroot _ _ (length A) (fst x) Hr).
    - apply HA. rewrite fmap_app. apply last_snoc.
    - rewrite !fmap_app, <- (assoc_L (++)), lookup_app_r by (by rewrite length_fmap). by rewrite length_fmap, Nat.sub_diag. }
  rewrite Hprev.
  assert (Hnext : (u32 (Z.of_nat (length A)) <? u32 (btrfs_header_nritems (eb_data e) - 1)) &&
    (btrfs_comp_keys (btrfs_item_key (eb_data e) (Z.of_nat (length A) + 1)) key <=? 0) = false).
  { pose proof (repr_bounds root Hroot _ _ Hr) as Hbd. rewrite length_app in Hbd. simpl in Hbd.
    rewrite (lr_nritems _ _ _ Hr), length_app. simpl length. rewrite !u32_id by leaf_lia.
    destruct B as [|[k1 d1] B]; [apply andb_false_iff; left; apply Z.ltb_ge; simpl; lia|].
    apply andb_false_iff. right. apply Z.leb_gt. replace (Z.of_nat (length A) + 1) with (Z.of_nat (S (length A))) by lia.
    rewrite (repr_key root Hroot _ _ (S (length A)) k1 Hr).
    - pose proof (HB k1 eq_refl) as Hlt. unfold key_lt in Hlt. rewrite (comp_keys_antisym key k1). lia.
    - rewrite fmap_app, lookup_app_r by (rewrite length_fmap; lia). rewrite length_fmap.
      replace (S (length A) - length A)%nat with 1%nat by lia. done. }
  rewrite Hnext, (bind_some _ _ _ _ _ Hw).
  destruct A as [|x A].
  - change (Z.of_nat (length []) =? 0) with true. cbv iota. rewrite (bind_some _ _ _ _ _ Hfix). by exists w2.
  - rewrite (proj2 (Z.eqb_neq _ 0)) by (simpl; lia). rewrite (bind_some _ _ w1 0 w1) by done.
    exists w1. destruct (Hsame eq_refl) as (? & ? & _). done.
Qed.
End Update.
