(* ===== verification/TreeItem.v ===== *)
(** What the functions that fill in items do to a tree: growing the item of the
    path, writing to its data, and inserting an item or finding it. *)

From stdpp Require Import sorting.
From S2P Require Import Prelude Buf CtreeFmt ItemFmt LeafOps LeafSpec LeafResize NodeOps TreeWorld TreeBalance.
From S2P Require Import TreeOps TreeSpec TreeSearch TreeWalk TreeFrame TreeInsert.

Implicit Types (L l pre post A B : list item) (key k : btrfs_key) (b : buf) (d : list Z).

(** ** The leaf *)

Section Leaf.
Context (root : btrfs_root) (Hroot : root_ok root).

(** Other bytes in the data of one item. *)
Lemma write_data_spec b b' A k d d' B :
  leaf_repr root b (A ++ (k, d) :: B) ->
  let p := btrfs_item_ptr_offset b (Z.of_nat (length A)) in
  (forall z, z < p \/ p + Z.of_nat (length d) <= z -> b' z = b z) ->
  read_extent_buffer b' p (length d) = d' ->
  leaf_repr root b' (A ++ (k, d') :: B) /\ header_kept b b' /\
  btrfs_item_ptr_offset b' (Z.of_nat (length A)) = p.
Proof using Hroot.
  intros Hr p Hout Hd'. pose proof (repr_bounds root Hroot _ _ Hr) as Hb. rewrite !dsize_app, !length_app in Hb. simpl in Hb.
  pose proof (dsize_nonneg A). pose proof (dsize_nonneg B).
  destruct (repr_item_fields root Hroot b A k d B Hr) as (Hk & Hoff & Hsz & _).
  assert (Hp : p = leafsize root - dsize A - Z.of_nat (length d)).
  { unfold p, btrfs_item_ptr_offset. rewrite Hoff. leaf_lia. }
  assert (Hlen : length d' = length d) by (by rewrite <- Hd', read_length).
  assert (Hoff' : btrfs_item_offset_nr b' (Z.of_nat (length A)) = btrfs_item_offset_nr b (Z.of_nat (length A)))
    by (apply get_le_same; intros z Hz; apply Hout; leaf_lia).
  split; [|split].
  - apply (replace_intro root Hroot b b' A k d B k d' Hr); rewrite ?Hlen.
    + apply get_le_same. intros z Hz. apply Hout. leaf_lia.
    + intros z Hz. apply Hout. leaf_lia.
    + intros z Hz. apply Hout. leaf_lia.
    + rewrite <- (repr_item root b A k d B Hr). apply item_hdr_at. intros z Hz. apply Hout. leaf_lia.
    + replace (BTRFS_LEAF_DATA_SIZE root - dsize A - Z.of_nat (length d)) with
        (BTRFS_LEAF_DATA_SIZE root - dsize (A ++ [(k, d)])) by (rewrite dsize_app; simpl; lia).
      replace (A ++ (k, d) :: B) with ((A ++ [(k, d)]) ++ B) in Hr by (by rewrite <- (assoc_L (++))).
      rewrite <- (repr_hdrs_right root b (A ++ [(k, d)]) B Hr), length_app. simpl length.
      replace (Z.of_nat (length A + 1)) with (Z.of_nat (length A) + 1) by lia.
      apply hdrs_same. intros z Hz. apply Hout. leaf_lia.
    + by rewrite <- Hp.
    + replace (A ++ (k, d) :: B) with ((A ++ [(k, d)]) ++ B) in Hr by (by rewrite <- (assoc_L (++))).
      destruct (repr_data root b (A ++ [(k, d)]) B Hr) as [<- _]. rewrite !dsize_app. simpl.
      replace (leafsize root - (_ + dsize B)) with (leafsize root - dsize A - Z.of_nat (length d) - dsize B) by lia.
      apply read_same. intros z Hz. apply Hout. leaf_lia.
    + rewrite length_app. simpl. lia.
  - intros z Hz _. apply Hout. leaf_lia.
  - unfold btrfs_item_ptr_offset. rewrite Hoff'. done.
Qed.

Lemma extend_item_header b b' A k d B n :
  leaf_repr root b (A ++ (k, d) :: B) -> 0 <= n ->
  sizeof_item * Z.of_nat (length (A ++ (k, d) :: B)) + dsize (A ++ (k, d) :: B) + n <= BTRFS_LEAF_DATA_SIZE root ->
  extend_item_leaf root b (Z.of_nat (length A)) n = Some b' -> header_kept b b'.
Proof using Hroot.
  intros Hr Hn Hfit Hrun z Hz _. pose proof (repr_bounds root Hroot _ _ Hr) as Hb.
  pose proof (dsize_nonneg A). pose proof (dsize_nonneg B).
  destruct (shifted_hdrs root Hroot b A k d B (- n) Hr) as (_ & _ & _ & _ & Fout); [leaf_lia..|].
  destruct (repr_item_fields root Hroot _ _ _ _ _ Hr) as (_ & Hof & _ & He). unfold extend_item_leaf in Hrun.
  rewrite He, (lr_nritems _ _ _ Hr), (repr_data_end root Hroot _ _ Hr), (repr_free_space root Hroot _ _ Hr) in Hrun.
  cbn [mbind option_bind] in Hrun. rewrite dsize_app, length_app in *. simpl in Hb, Hfit, Hrun.
  destruct (_ <? n); [done|]. rewrite (proj2 (Z.ltb_ge _ 0)) in Hrun by lia.
  rewrite (proj2 (Z.leb_gt _ _)) in Hrun by lia.
  replace (Z.to_nat (_ - _)) with (S (length B)) in Hrun by lia.
  set (c1 := shift_offsets _ _ _ _) in *. set (c2 := memmove_extent_buffer c1 _ _ _) in *.
  set (c3 := btrfs_set_item_size _ _ _) in *. destruct (btrfs_leaf_free_space root c3) as [fs|]; [|done].
  cbn [mbind option_bind] in Hrun. destruct (fs <? 0); [done|]. injection Hrun as <-.
  unfold c3. rewrite set_size_outside by leaf_lia. rewrite <- Fout by leaf_lia. unfold c2. leaf_untouched.
Qed.

Lemma truncate_end_header b b' A k d B n :
  leaf_repr root b (A ++ (k, d) :: B) -> 0 <= n < Z.of_nat (length d) ->
  truncate_item_leaf root b (Z.of_nat (length A)) n true = Some (b', None) -> header_kept b b'.
Proof using Hroot.
  intros Hr Hn Hrun z Hz _. pose proof (repr_bounds root Hroot _ _ Hr) as Hb. pose proof (lr_fits _ _ _ Hr) as Hfit.
  pose proof (dsize_nonneg A). pose proof (dsize_nonneg B).
  rewrite dsize_app, length_app in Hb, Hfit. simpl in Hb, Hfit.
  destruct (shifted_hdrs root Hroot b A k d B (Z.of_nat (length d) - n) Hr) as (_ & _ & _ & _ & Fout);
    [rewrite dsize_app; simpl; leaf_lia|leaf_lia|].
  destruct (repr_item_fields root Hroot _ _ _ _ _ Hr) as (_ & Hof & Hsz & _). unfold truncate_item_leaf in Hrun.
  rewrite Hsz, Hof, (lr_nritems _ _ _ Hr), (repr_data_end root Hroot _ _ Hr) in Hrun.
  rewrite dsize_app, length_app in Hrun. simpl in Hrun.
  rewrite (proj2 (Z.eqb_neq _ _)), (proj2 (Z.ltb_ge _ 0)), (proj2 (Z.leb_gt _ _)) in Hrun by lia.
  rewrite (u32_id (Z.of_nat (length d) - n)) in Hrun by leaf_lia.
  replace (Z.to_nat (_ - _)) with (S (length B)) in Hrun by lia.
  rewrite u32_id in Hrun by leaf_lia.
  set (c1 := shift_offsets _ _ _ _) in *. set (c2 := memmove_extent_buffer c1 _ _ _) in *.
  set (c3 := btrfs_set_item_size _ _ _) in *. destruct (btrfs_leaf_free_space root c3) as [fs|]; [|done].
  cbn [mbind option_bind] in Hrun. destruct (fs <? 0); [done|]. injection Hrun as <-.
  unfold c3. rewrite set_size_outside by leaf_lia. rewrite <- Fout by leaf_lia. unfold c2. leaf_untouched.
Qed.
End Leaf.

Section Item.
Context {X : Type} `{ExtentTree X} (env : tree_env).
Context (Hroot : root_ok (te_root env)).

Abbreviation world := (tree_world X).
Abbreviation root := (te_root env).
Implicit Types (w : world) (m : gmap Z extent_buffer) (p : btrfs_path).

(** What reading the item of the path finds. *)
Record item_view w (lb : Z) A k d B (e : extent_buffer) : Prop := {
  iv_leaf : path_block 0 w = Some (lb, w);
  iv_slot : path_slot 0 w = Some (Z.of_nat (length A), w);
  iv_get : tw_blocks w !! lb = Some e;
  iv_read : eb_read lb w = Some (eb_data e, w);
  iv_len : eb_len e = leafsize root;
  iv_level : btrfs_header_level (eb_data e) = 0;
  iv_repr : leaf_repr root (eb_data e) (A ++ (k, d) :: B);
  iv_key : btrfs_item_key (eb_data e) (Z.of_nat (length A)) = k;
  iv_size : btrfs_item_size_nr (eb_data e) (Z.of_nat (length A)) = Z.of_nat (length d);
  iv_data : read_extent_buffer (eb_data e) (btrfs_item_ptr_offset (eb_data e) (Z.of_nat (length A))) (length d) = d;
}.

Lemma at_leaf_view w n (b lb : Z) pre A k d B post :
  at_leaf env w n b lb pre (A ++ (k, d) :: B) post -> p_slots (tw_path w) 0 = Z.of_nat (length A) ->
  exists e, item_view w lb A k d B e.
Proof using Hroot.
  intros Hat Hs. destruct (at_leaf_block env _ _ _ _ _ _ _ Hat) as (e & He & Hlen & Hlev & Hr).
  exists e. destruct (repr_item_fields root Hroot _ _ _ _ _ Hr) as (Hk & _ & Hsz & _). destruct Hat as [_ Al _]. split; try done.
  - by apply path_block_run.
  - rewrite path_slot_run by done. by rewrite Hs.
  - by apply eb_read_run.
  - by apply (repr_item_data root Hroot _ _ k d B).
Qed.

Lemma at_item_view w n (b lb : Z) pre A k d B post :
  at_item env w n b lb pre A k d B post -> exists e, item_view w lb A k d B e.
Proof using Hroot. intros [_ Hat Hs]. by eapply at_leaf_view. Qed.

Lemma data_len_bounds w (lb : Z) A k d B e :
  item_view w lb A k d B e -> Z.of_nat (length d) < 65536.
Proof using Hroot.
  intros Hv. pose proof (repr_bounds root Hroot _ _ (iv_repr _ _ _ _ _ _ _ Hv)) as Hb.
  rewrite dsize_app, length_app in Hb. simpl in Hb. pose proof (dsize_nonneg A). pose proof (dsize_nonneg B). leaf_lia.
Qed.

(** The leaf of the path is replaced by one with other data in its item. *)
Lemma data_rewritten w n (b lb : Z) pre A k d B post e b' d' :
  at_item env w n b lb pre A k d B post -> item_view w lb A k d B e ->
  header_kept (eb_data e) b' -> leaf_repr root b' (A ++ (k, d') :: B) ->
  exists w', eb_write lb b' w = Some (tt, w') /\ at_item env w' n b lb pre A k d' B post /\
    tw_path w' = tw_path w /\ leaf_written (tw_blocks w) (tw_blocks w') n b lb.
Proof using Hroot.
  intros [Hok Hat Hs] [_ _ He _ Hlen Hlev Hr _ _ _] Hk Hr'.
  assert (Hkeys : (pre ++ (A ++ (k, d') :: B) ++ post).*1 = (pre ++ (A ++ (k, d) :: B) ++ post).*1)
    by (by rewrite !fmap_app).
  assert (Hhd : (A ++ (k, d') :: B).*1 = (A ++ (k, d) :: B).*1) by (by rewrite !fmap_app).
  set (k0 := match A with [] => k | x :: _ => fst x end).
  destruct (leaf_rewritten env w n b lb pre (A ++ (k, d) :: B) post e b' (A ++ (k, d') :: B) k0 Hok Hat He Hlen Hlev Hk Hr')
    as (w1 & Hw & Hp1 & Hsame & _).
  - rewrite Hkeys. by destruct Hok.
  - unfold k0. by destruct A.
  - unfold k0. by destruct A as [|x A]; apply (repr_key_ok root Hroot _ _ _ O Hr).
  - destruct Hsame as (Hok' & Hat' & Hlw); [by rewrite Hhd|]. exists w1. split; [done|].
    split; [|by split]. split; [done|done|]. by rewrite Hp1.
Qed.

Lemma write_run w n (b lb : Z) pre A k d B post e f d' :
  at_item env w n b lb pre A k d B post -> item_view w lb A k d B e ->
  let p := btrfs_item_ptr_offset (eb_data e) (Z.of_nat (length A)) in
  (forall z, z < p \/ p + Z.of_nat (length d) <= z -> f (eb_data e) z = eb_data e z) ->
  read_extent_buffer (f (eb_data e)) p (length d) = d' ->
  exists w', eb_update lb f w = Some (tt, w') /\ at_item env w' n b lb pre A k d' B post /\
    tw_path w' = tw_path w /\ leaf_written (tw_blocks w) (tw_blocks w') n b lb.
Proof using Hroot.
  intros Hat Hv p Hout Hd'. pose proof (iv_repr _ _ _ _ _ _ _ Hv) as Hr.
  destruct (write_data_spec root Hroot _ _ A k d d' B Hr Hout Hd') as (Hr' & Hk & _).
  destruct (data_rewritten w n b lb pre A k d B post e _ d' Hat Hv Hk Hr') as (w' & Hw & Hrest).
  exists w'. split; [|done]. unfold eb_update. by rewrite (bind_some _ _ _ _ _ (iv_read _ _ _ _ _ _ _ Hv)).
Qed.

Lemma extend_run w n (b lb : Z) pre A k d B post (sz : Z) :
  at_item env w n b lb pre A k d B post -> 0 <= sz <= leaf_room env (A ++ (k, d) :: B) ->
  exists w' d2, btrfs_extend_item env sz w = Some (0, w') /\ Z.of_nat (length d2) = sz /\
    at_item env w' n b lb pre A k (d ++ d2) B post /\ tw_path w' = tw_path w /\
    leaf_written (tw_blocks w) (tw_blocks w') n b lb.
Proof using Hroot.
  intros Hat Hsz. destruct (at_item_view _ _ _ _ _ _ _ _ _ _ Hat) as (e & Hv).
  pose proof (iv_repr _ _ _ _ _ _ _ Hv) as Hr. unfold leaf_room in Hsz.
  destruct (extend_item_spec root Hroot (eb_data e) A k d B sz Hr) as (bb & d2 & Hrun & Hd2 & Hr2); [lia..|].
  pose proof (extend_item_header root Hroot (eb_data e) bb A k d B sz Hr ltac:(lia) ltac:(lia) Hrun) as Hk.
  destruct (data_rewritten w n b lb pre A k d B post e bb (d ++ d2) Hat Hv Hk Hr2) as (w' & Hw & Hrest).
  exists w', d2. split; [|done]. unfold btrfs_extend_item.
  rewrite (bind_some _ _ _ _ _ (iv_leaf _ _ _ _ _ _ _ Hv)), (bind_some _ _ _ _ _ (iv_slot _ _ _ _ _ _ _ Hv)).
  rewrite (bind_some _ _ _ _ _ (iv_read _ _ _ _ _ _ _ Hv)). unfold lift. rewrite Hrun.
  rewrite (bind_some _ _ w bb w) by done. by rewrite (bind_some _ _ _ _ _ Hw).
Qed.

Lemma truncate_run w n (b lb : Z) pre A k d B post (sz : Z) :
  at_item env w n b lb pre A k d B post -> 0 <= sz < Z.of_nat (length d) ->
  exists w', btrfs_truncate_item env sz true w = Some (0, w') /\
    at_item env w' n b lb pre A k (take (Z.to_nat sz) d) B post /\ tw_path w' = tw_path w /\
    leaf_written (tw_blocks w) (tw_blocks w') n b lb.
Proof using Hroot.
  intros Hat Hsz. destruct (at_item_view _ _ _ _ _ _ _ _ _ _ Hat) as (e & Hv).
  pose proof (iv_repr _ _ _ _ _ _ _ Hv) as Hr.
  destruct (truncate_end_spec root Hroot (eb_data e) A k d B sz Hr Hsz) as (bb & Hrun & Hr2).
  pose proof (truncate_end_header root Hroot (eb_data e) bb A k d B sz Hr Hsz Hrun) as Hk.
  destruct (data_rewritten w n b lb pre A k d B post e bb (take (Z.to_nat sz) d) Hat Hv Hk Hr2) as (w' & Hw & Hrest).
  exists w'. split; [|done]. unfold btrfs_truncate_item.
  rewrite (bind_some _ _ _ _ _ (iv_leaf _ _ _ _ _ _ _ Hv)), (bind_some _ _ _ _ _ (iv_slot _ _ _ _ _ _ _ Hv)).
  rewrite (bind_some _ _ _ _ _ (iv_read _ _ _ _ _ _ _ Hv)). unfold lift. rewrite Hrun.
  rewrite (bind_some _ _ w (bb, None) w) by done. cbn [fst snd]. rewrite (bind_some _ _ w 0 w) by done.
  by rewrite (bind_some _ _ _ _ _ Hw).
Qed.

(** ** Looking up a key without inserting *)

(** Where a search ends that changes nothing but the path. *)
Record looked_up w n (b : Z) L key (r : Z) p (lb : Z) e pre l post : Prop := {
  lu_items : L = pre ++ l ++ post;
  lu_path : on_path root (tw_blocks w) p n b pre l post;
  lu_leaf : p_nodes p 0 = Some lb;
  lu_top : p_nodes p (Z.of_nat n + 1) = None;
  lu_get : tw_blocks w !! lb = Some e;
  lu_repr : leaf_repr root (eb_data e) l;
  lu_found : found (l.*1) key r (p_slots p 0);
  lu_before : Forall (fun k => key_lt k key) (pre.*1);
  lu_behind : Forall (fun k => key_lt key k) (post.*1);
  lu_low : pre = [] \/ exists k, head (l.*1) = Some k /\ ~ key_lt key k;
}.

Lemma lookup_run w n (b : Z) L key cow fuel :
  tw_node w = Some b -> subtree root (tw_blocks w) n b L -> sorted_keys (L.*1) -> (n < 7)%nat -> (n < fuel)%nat ->
  tw_path w = btrfs_init_path -> no_copy env (tw_blocks w) (tree_blocks (tw_blocks w) n b) cow ->
  exists r p lb e pre l post, btrfs_search_slot env fuel key 0 cow w = Some (r, with_path w p) /\
    looked_up w n b L key r p lb e pre l post.
Proof using Hroot.
  intros Hb Ht Hs Hn Hfuel Hp Hc.
  assert (Hcalm : calm env w (tree_blocks (tw_blocks w) n b) 0 cow) by (by split; [| |rewrite Hp| |]).
  destruct (search_slot_run env Hroot key 0 cow n b L w fuel Hcalm Hp Hb Ht Hs Hn Hfuel)
    as (w1 & lb & pre & l & post & [Rw Rf Ra Rp Rl Ri Rb Rh Rpar Rm Rlow] & Hrun).
  destruct Hrun as (r & slot & Hf & Hrun); [lia|]. pose proof Rl as (e & He & _ & _ & Hr).
  exists r, (slot_upd (node_upd (tw_path w1) 0 (Some lb)) 0 slot), lb, e, pre, l, post. split.
  { rewrite Hrun. do 2 f_equal. rewrite <- Rw. done. }
  split; [done| |simpl; apply upd_same| |done|done|simpl; by rewrite upd_same|done|done|done].
  - apply (on_path_below env _ _ _ _ _ _ _ _ Rp). intros i Hi. split; [done|]. intros Hi0. simpl. by rewrite upd_other.
  - simpl. rewrite upd_other by lia. destruct (Ra (Z.of_nat n + 1) ltac:(lia)) as [-> _]. by rewrite Hp.
Qed.

(** ** The item with a key *)

Fixpoint item_at L key : option (list Z) :=
  match L with [] => None | (k, d) :: L => if decide (k = key) then Some d else item_at L key end.

Lemma item_at_app l1 l2 key : item_at (l1 ++ l2) key = match item_at l1 key with Some d => Some d | None => item_at l2 key end.
Proof using Type. induction l1 as [|[k d] l1 IH]; [done|]. simpl. by case_decide. Qed.

Lemma item_at_None L key : key ∉ L.*1 -> item_at L key = None.
Proof using Type.
  induction L as [|[k d] L IH]; [done|]. rewrite fmap_cons. intros [Hk Hn]%not_elem_of_cons. simpl in *.
  rewrite decide_False by done. auto.
Qed.

Lemma item_at_Some L key d : item_at L key = Some d -> (key, d) ∈ L.
Proof using Type.
  induction L as [|[k d'] L IH]; [done|]. simpl. case_decide as Hk; [|intros; right; auto].
  intros [= ->]. subst k. left.
Qed.

Lemma sorted_keys_NoDup L : sorted_keys (L.*1) -> NoDup L.*1.
Proof using Type.
  induction 1 as [|k ks Hs IH Hall]; constructor; [|done]. intros Hin.
  by apply (key_lt_irrefl k), (proj1 (Forall_forall _ _) Hall).
Qed.

Lemma item_at_middle L1 k d L2 : NoDup (L1 ++ (k, d) :: L2).*1 -> item_at (L1 ++ (k, d) :: L2) k = Some d.
Proof using Type.
  rewrite fmap_app, fmap_cons. intros (_ & Hd & _)%NoDup_app. rewrite item_at_app, item_at_None.
  - simpl. by rewrite decide_True.
  - intros Hin. apply (Hd k Hin). left.
Qed.

(** Another item does not matter. *)
Lemma item_at_other L1 k d L2 key : key <> k -> item_at (L1 ++ (k, d) :: L2) key = item_at (L1 ++ L2) key.
Proof using Type. intros Hk. rewrite !item_at_app. simpl. by rewrite decide_False. Qed.

(** A search ends at the item with the key, or between the items around it. *)
Lemma looked_up_cases w n (b : Z) L key r p (lb : Z) e pre l post :
  looked_up w n b L key r p lb e pre l post -> sorted_keys (L.*1) ->
  (r = 0 /\ exists A d B, l = A ++ (key, d) :: B /\ p_slots p 0 = Z.of_nat (length A) /\ item_at L key = Some d) \/
  (r = 1 /\ item_at L key = None /\ exists A B, l = A ++ B /\ p_slots p 0 = Z.of_nat (length A) /\
     Forall (fun k => key_lt k key) (A.*1) /\ Forall (fun k => key_lt key k) (B.*1)).
Proof using Type.
  intros [HL Hp Hlf Htop He Hr Hf H1 H2 Hlow] Hs. destruct Hf as (k1 & k2 & Hslot & Hk1 & Hk2 & [[-> Hl]|[-> Hl]]).
  - left. split; [done|]. apply fmap_app_inv in Hl as (A & B' & -> & HB & ->). symmetry in HB.
    apply fmap_cons_inv in HB as ([k d] & B & -> & -> & ->). cbn [fst] in *. rewrite length_fmap in Hslot.
    exists A, d, B. split; [done|]. split; [done|]. rewrite HL, <- (assoc_L (++)). simpl. rewrite (assoc_L (++)).
    apply item_at_middle. pose proof (sorted_keys_NoDup _ Hs) as Hnd. rewrite HL, <- (assoc_L (++)) in Hnd. simpl in Hnd.
    by rewrite (assoc_L (++)) in Hnd.
  - right. split; [done|]. split.
    { apply item_at_None. rewrite HL, (key_elem_split key pre l post H1 H2), Hl. by apply not_around. }
    apply fmap_app_inv in Hl as (A & B & -> & -> & ->). rewrite length_fmap in Hslot. by exists A, B.
Qed.

(** ** Insert an item, or find it *)

Lemma insert_or_find w n (b : Z) L key size fuel :
  tree_ok env w n b L -> tw_path w = btrfs_init_path -> key_ok key -> 0 <= size < 65536 ->
  has_room env (tw_blocks w) n b (size + sizeof_item) -> (n < fuel)%nat ->
  exists r w' lb pre A d B post, btrfs_insert_empty_items env fuel [(key, size)] w = Some (r, w') /\
    at_item env w' n b lb pre A key d B post /\ lb ∈ tree_blocks (tw_blocks w) n b /\
    match item_at L key with
    | Some d0 => r = - EEXIST /\ tw_blocks w' = tw_blocks w /\ d = d0 /\ L = pre ++ (A ++ (key, d) :: B) ++ post
    | None => r = 0 /\ Z.of_nat (length d) = size /\ L = pre ++ (A ++ B) ++ post /\
        leaf_written (tw_blocks w) (tw_blocks w') n b lb /\ leaf_block root (tw_blocks w) lb (A ++ B)
    end.
Proof using Hroot.
  intros Hok Hp Hkey Hsize Hroom Hfuel.
  destruct (insert_run env Hroot w n b L key size fuel Hok Hp Hkey Hsize Hroom Hfuel) as (r & w' & Hrun & Hres).
  case_decide as Hin.
  - destruct Hres as (-> & Hbl & lb & pre & A & d & B & post & HL & Hat).
    exists (- EEXIST), w', lb, pre, A, d, B, post. split; [done|]. split; [done|]. split.
    { destruct (on_path_leaf env _ _ _ _ _ _ _ (al_path _ _ _ _ _ _ _ _ (ai_leaf _ _ _ _ _ _ _ _ _ _ _ Hat)))
        as (lb' & Hlb & _ & Hmem). rewrite (al_leaf _ _ _ _ _ _ _ _ (ai_leaf _ _ _ _ _ _ _ _ _ _ _ Hat)) in Hlb.
      injection Hlb as <-. by rewrite <- Hbl. }
    assert (Hd : item_at L key = Some d).
    { rewrite HL, <- (assoc_L (++)). simpl. rewrite (assoc_L (++)). apply item_at_middle.
      pose proof (sorted_keys_NoDup _ (to_sorted _ _ _ _ _ Hok)) as Hnd. rewrite HL in Hnd.
      by rewrite <- (assoc_L (++)) in Hnd; simpl in Hnd; rewrite (assoc_L (++)) in Hnd. }
    by rewrite Hd.
  - destruct Hres as (-> & lb & pre & A & B & post & d & HL & Hd & Hat & Hlw & Hlf).
    exists 0, w', lb, pre, A, d, B, post. split; [done|]. split; [done|]. split.
    { destruct (on_path_leaf env _ _ _ _ _ _ _ (al_path _ _ _ _ _ _ _ _ (ai_leaf _ _ _ _ _ _ _ _ _ _ _ Hat)))
        as (lb' & Hlb & _ & Hmem). rewrite (al_leaf _ _ _ _ _ _ _ _ (ai_leaf _ _ _ _ _ _ _ _ _ _ _ Hat)) in Hlb.
      injection Hlb as <-. by rewrite <- (lw_tree _ _ _ _ _ Hlw). }
    by rewrite item_at_None.
Qed.
End Item.
