(* ===== verification/PackSpec.v ===== *)
(** Items that pack entries with names one behind the other: the interface of
    such an entry, and what adding one to an item of a tree means. *)

From S2P Require Import Prelude Buf CtreeFmt ItemFmt LeafSpec TreeItem.

Implicit Types (d name : list Z) (key : btrfs_key).

(** ** Parsing bytes *)

Definition eat (n : nat) d : option (list Z * list Z) :=
  if decide (n <= length d)%nat then Some (take n d, drop n d) else None.

Lemma eat_app (a r : list Z) n : n = length a -> eat n (a ++ r) = Some (a, r).
Proof.
  intros ->. unfold eat. rewrite decide_True by (rewrite length_app; lia). by rewrite take_app_length, drop_app_length.
Qed.

(** An entry: its bytes, its name, and how it is read back. *)
Class Packed (E : Type) := {
  pk_bytes : E -> list Z;
  pk_name : E -> list Z;
  pk_ok : E -> Prop;
  pk_parse : list Z -> option (E * list Z);
  pk_parse_bytes e r : pk_ok e -> pk_parse (pk_bytes e ++ r) = Some (e, r);
  pk_parse_nil : pk_parse [] = None;
  pk_bytes_length e : (0 < length (pk_bytes e))%nat;
}.

Section Packed.
Context {E : Type} `{Packed E}.
Implicit Types (e : E) (es : list E) (L : list item).

Definition packed es : list Z := concat (pk_bytes <$> es).

Fixpoint unpack (fuel : nat) d : list E :=
  match fuel with
  | O => []
  | S fuel => match pk_parse d with Some (e, r) => e :: unpack fuel r | None => [] end
  end.
(** The entries of an item; every one has at least a byte. *)
Definition entries d : list E := unpack (length d) d.

Lemma packed_cons e es : packed (e :: es) = pk_bytes e ++ packed es.
Proof using Type. done. Qed.

Lemma packed_app es es' : packed (es ++ es') = packed es ++ packed es'.
Proof using Type. unfold packed. by rewrite fmap_app, concat_app. Qed.

Lemma packed_snoc es e : packed (es ++ [e]) = packed es ++ pk_bytes e.
Proof using Type. rewrite packed_app. unfold packed at 2. simpl. by rewrite app_nil_r. Qed.

Lemma unpack_packed fuel es : Forall pk_ok es -> (length es <= fuel)%nat -> unpack fuel (packed es) = es.
Proof using Type.
  revert fuel. induction es as [|e es IH]; intros fuel Hok Hf.
  - destruct fuel; [done|]. cbn [unpack]. change (packed []) with (@nil Z). by rewrite pk_parse_nil.
  - apply Forall_cons in Hok as [He Hok]. destruct fuel as [|fuel]; simpl in Hf; [lia|]. cbn [unpack].
    rewrite packed_cons, pk_parse_bytes by done. rewrite IH; [done|done|lia].
Qed.

Lemma packed_length es : (length es <= length (packed es))%nat.
Proof using Type.
  induction es as [|e es IH]; [done|]. rewrite packed_cons, length_app. pose proof (pk_bytes_length e). simpl. lia.
Qed.

Lemma entries_packed es : Forall pk_ok es -> entries (packed es) = es.
Proof using Type. intros Hok. apply unpack_packed; [done|]. apply packed_length. Qed.

(** ** Names *)

Fixpoint find_name name es : option E :=
  match es with [] => None | e :: es => if decide (pk_name e = name) then Some e else find_name name es end.

(** Where the entry of a name starts when the first entry is at [p]. *)
Fixpoint place_of name es (p : Z) : option Z :=
  match es with
  | [] => None
  | e :: es => if decide (pk_name e = name) then Some p else place_of name es (p + Z.of_nat (length (pk_bytes e)))
  end.

Lemma find_name_None name es : find_name name es = None <-> name ∉ pk_name <$> es.
Proof using Type.
  induction es as [|e es IH]; simpl; [split; [set_solver|done]|].
  case_decide as He; [split; [done|]; intros Hn; destruct Hn; rewrite <- He; left|].
  rewrite IH, not_elem_of_cons. naive_solver.
Qed.

Lemma place_of_None name es p : place_of name es p = None <-> find_name name es = None.
Proof using Type. revert p. induction es as [|e es IH]; intros p; simpl; [by split|]. case_decide; [by split|apply IH]. Qed.

Lemma find_name_snoc name es e :
  find_name name (es ++ [e]) = match find_name name es with Some e' => Some e'
    | None => if decide (pk_name e = name) then Some e else None end.
Proof using Type. induction es as [|e' es IH]; [done|]. simpl. by destruct (decide (pk_name e' = name)). Qed.

Lemma place_of_split name es p q :
  place_of name es p = Some q -> exists es1 e es2, es = es1 ++ e :: es2 /\ pk_name e = name /\
    find_name name es = Some e /\ q = p + Z.of_nat (length (packed es1)).
Proof using Type.
  revert p. induction es as [|e es IH]; intros p; [done|]. simpl. case_decide as He.
  - intros [= <-]. exists [], e, es. simpl. do 3 (split; [done|]). lia.
  - intros Hq. destruct (IH _ Hq) as (es1 & e' & es2 & -> & ? & ? & ->). exists (e :: es1), e', es2.
    do 3 (split; [done|]). rewrite packed_cons, length_app. lia.
Qed.

(** ** Items that hold entries *)

Record packs d es : Prop := {
  pks_bytes : d = packed es;
  pks_ok : Forall pk_ok es;
  pks_names : NoDup (pk_name <$> es);
}.

(** The entry with a name in the item with a key. *)
Definition find_entry L key name : option E :=
  match item_at L key with Some d => find_name name (entries d) | None => None end.

(** The entries in the item with a key, none when there is no item. *)
Definition entries_at L key : list E := match item_at L key with Some d => entries d | None => [] end.

Lemma find_entry_at L key name : find_entry L key name = find_name name (entries_at L key).
Proof using Type. unfold find_entry, entries_at. by destruct (item_at L key). Qed.

(** The item with the key [key], if there is one, holds entries. *)
Definition packs_at L key : Prop := forall d, item_at L key = Some d -> packs d (entries d).

Lemma packs_entries d es : packs d es -> packs d (entries d).
Proof using Type. intros [-> Hok Hn]. by rewrite entries_packed. Qed.

(** [L'] is [L] with the entry [e] behind those of the item with the key. *)
Record entry_added L key e L' : Prop := {
  ea_item : item_at L' key = Some (packed (entries_at L key ++ [e]));
  ea_other : forall k, k <> key -> item_at L' k = item_at L k;
}.

Lemma packs_at_entries L key : packs_at L key -> packs (packed (entries_at L key)) (entries_at L key).
Proof using Type.
  unfold packs_at, entries_at. destruct (item_at L key) as [d|].
  - intros Hp. destruct (Hp d eq_refl) as [Hd Hok Hn]. by split.
  - intros _. split; constructor.
Qed.

Lemma added_packs L key e L' :
  packs_at L key -> pk_ok e -> find_entry L key (pk_name e) = None -> entry_added L key e L' ->
  packs_at L' key /\ entries_at L' key = entries_at L key ++ [e].
Proof using Type.
  intros Hp He Hf [Hi Ho]. rewrite find_entry_at in Hf. apply find_name_None in Hf.
  destruct (packs_at_entries L key Hp) as [_ Hok Hn].
  assert (Hok' : Forall pk_ok (entries_at L key ++ [e])) by (apply Forall_app; split; [done|by constructor]).
  split; [|unfold entries_at at 1; by rewrite Hi, entries_packed].
  intros d Hd. rewrite Hi in Hd. injection Hd as <-. rewrite entries_packed by done. split; [done|done|].
  rewrite fmap_app. apply NoDup_app. split; [done|]. split; [|apply NoDup_singleton].
  intros x Hx Hx'. apply list_elem_of_singleton in Hx' as ->. done.
Qed.

(** Adding an entry is an update of the map from keys and names to entries. *)
Lemma added_find L key e L' k name :
  packs_at L key -> pk_ok e -> find_entry L key (pk_name e) = None -> entry_added L key e L' ->
  find_entry L' k name = if decide (k = key /\ name = pk_name e) then Some e else find_entry L k name.
Proof using Type.
  intros Hp He Hf Ha. destruct (added_packs L key e L' Hp He Hf Ha) as [_ Hes]. destruct Ha as [Hi Ho].
  destruct (decide (k = key)) as [->|Hk].
  - rewrite (find_entry_at L'), Hes, find_name_snoc. rewrite find_entry_at in Hf |- *.
    destruct (decide (name = pk_name e)) as [->|Hn].
    + rewrite Hf, !decide_True by done. done.
    + rewrite (decide_False (P := pk_name e = name)) by done. rewrite decide_False by naive_solver.
      by destruct (find_name name (entries_at L key)).
  - rewrite decide_False by naive_solver. unfold find_entry. by rewrite Ho.
Qed.
End Packed.

#[global] Arguments packed : simpl never.
