(* ===== verification/TreeSafe.v ===== *)
(** Copy on write keeps the committed tree: no operation that changes a tree
    writes a block that the running transaction has not made its own.

    [keeps a P] is a triple on an action: from a state in which the committed
    blocks [C] are intact, pinned, and not on the path, [a] ends in such a
    state with a result that satisfies [P]. *)

From S2P Require Import Prelude Buf CtreeFmt LeafOps LeafPush NodeOps TreeWorld TreeBalance TreeOps TreeSearch.

(** What the extent tree promises of pinned extents: they stay pinned until
    the transaction ends, and are not handed out. *)
Definition keeps_pinned {X A} (pinned : X -> Z -> Prop) (f : X -> option (A * X)) : Prop :=
  forall x a y x', f x = Some (y, x') -> pinned x a -> pinned x' a.

Class PinnedExtents (X : Type) `{ExtentTree X} := {
  pinned : X -> Z -> Prop;
  alloc_not_pinned size key level hint v x b d x' :
    alloc_free_block size key level hint v x = Some (inr (b, d), x') -> ~ pinned x b;
  alloc_keeps_pinned size key level hint v : keeps_pinned pinned (alloc_free_block size key level hint v);
  free_keeps_pinned b n o f v : keeps_pinned pinned (free_extent b n o f v);
  lookup_keeps_pinned b l v : keeps_pinned pinned (lookup_extent_info b l v);
  inc_keeps_pinned d f v : keeps_pinned pinned (inc_ref d f v);
  dec_keeps_pinned d f v : keeps_pinned pinned (dec_ref d f v);
  flags_keeps_pinned b l f v : keeps_pinned pinned (set_block_flags b l f v);
}.

Section Safe.
Context {X : Type} `{ExtentTree X, !PinnedExtents X} (env : tree_env).
Context (C : gmap Z extent_buffer).

Abbreviation world := (tree_world X).
Implicit Types (w : world).

(** A block that may be written. *)
Definition writable (b : Z) : Prop := C !! b = None.
Definition writable_opt (o : option Z) : Prop := forall b, o = Some b -> writable b.
Definition writable_sum (r : Z + Z) : Prop := forall b, r = inr b -> writable b.

(** The committed blocks are in place and pinned; none is on the path. *)
Record intact w : Prop := {
  in_blocks : C ⊆ tw_blocks w;
  in_old : forall b e, C !! b = Some e -> block_current env e = false;
  in_pinned : forall b, is_Some (C !! b) -> pinned (tw_ext w) b;
  in_path_own : forall i, writable_opt (p_nodes (tw_path w) i);
}.

Definition keeps {A} (a : act world A) (P : A -> Prop) : Prop :=
  forall w x w', intact w -> a w = Some (x, w') -> intact w' /\ P x.

Abbreviation any := (fun _ => True).

(** ** The rules *)

Lemma keeps_ret {A} (a : A) (P : A -> Prop) : P a -> keeps (ret a) P.
Proof using Type. intros HP w x w' Hw [= -> ->]. done. Qed.

Lemma keeps_bug {A} (P : A -> Prop) : keeps bug P.
Proof using Type. done. Qed.

Lemma keeps_conseq {A} (a : act world A) (P Q : A -> Prop) : keeps a P -> (forall x, P x -> Q x) -> keeps a Q.
Proof using Type. intros Ha HPQ w x w' Hw Hr. destruct (Ha w x w' Hw Hr). auto. Qed.

Lemma keeps_any {A} (a : act world A) (P : A -> Prop) : keeps a P -> keeps a any.
Proof using Type. intros Ha. by eapply keeps_conseq. Qed.

Lemma keeps_bind {A B} (a : act world A) (k : A -> act world B) P Q :
  keeps a P -> (forall x, P x -> keeps (k x) Q) -> keeps (bind a k) Q.
Proof using Type.
  intros Ha Hk w y w' Hw. unfold bind. destruct (a w) as [[x w1]|] eqn:Hr; [|done].
  intros Hy. destruct (Ha w x w1 Hw Hr) as [Hw1 HP]. by apply (Hk x HP w1).
Qed.

Lemma keeps_gets {A} (f : world -> A) : keeps (gets f) any.
Proof using Type. intros w x w' Hw [= <- <-]. done. Qed.

Lemma keeps_assume {A} (o : option A) (P : A -> Prop) :
  (forall a, o = Some a -> P a) -> keeps (assume_some o) P.
Proof using Type. destruct o; intros HP; [by apply keeps_ret, HP|apply keeps_bug]. Qed.

Lemma keeps_bug_on b : keeps (bug_on b) any.
Proof using Type. destruct b; [apply keeps_bug|by apply keeps_ret]. Qed.

(** ** The accessors *)

Lemma keeps_eb_get b : keeps (eb_get b) any.
Proof using Type.
  intros w x w' Hw. unfold eb_get, deref. destruct (tw_blocks w !! b); [|done]. by intros [= <- <-].
Qed.

Lemma keeps_eb_read b : keeps (eb_read b) any.
Proof using Type. eapply keeps_bind; [apply keeps_eb_get|]. intros e _. by apply keeps_ret. Qed.

Lemma keeps_insert_block b e : writable b -> keeps (modify (fun w => with_blocks w (<[b := e]> (tw_blocks w)))) any.
Proof using Type.
  intros Hb w x w' [Hm Ho Hpin Hpath] [= <- <-]. split; [|done]. split; [|done..]. by apply insert_subseteq_r.
Qed.

Lemma keeps_eb_write b d : writable b -> keeps (eb_write b d) any.
Proof using Type.
  intros Hb. eapply keeps_bind; [apply keeps_eb_get|]. intros e _. by apply (keeps_insert_block b _ Hb).
Qed.

Lemma keeps_eb_update b f : writable b -> keeps (eb_update b f) any.
Proof using Type.
  intros Hb. eapply keeps_bind; [apply keeps_eb_read|]. intros d _. by apply keeps_eb_write.
Qed.

Lemma keeps_root_node : keeps root_node any.
Proof using Type. apply keeps_gets. Qed.

Lemma keeps_set_root_node b : keeps (set_root_node b) any.
Proof using Type. intros w x w' [Hm Ho Hpin Hpath] [= <- <-]. by split. Qed.

Lemma keeps_path_node i : keeps (path_node i) writable_opt.
Proof using Type.
  eapply keeps_bind; [apply keeps_bug_on|]. intros _ _ w x w' Hw [= <- <-]. split; [done|apply Hw].
Qed.

Lemma keeps_path_slot i : keeps (path_slot i) any.
Proof using Type. eapply keeps_bind; [apply keeps_bug_on|]. intros _ _. apply keeps_gets. Qed.

Lemma keeps_with_path (f : btrfs_path -> btrfs_path) :
  (forall p, (forall i, writable_opt (p_nodes p i)) -> forall i, writable_opt (p_nodes (f p) i)) ->
  keeps (modify (fun w => with_path w (f (tw_path w)))) any.
Proof using Type. intros Hf w x w' [Hm Ho Hpin Hpath] [= <- <-]. split; [|done]. split; [done..|by apply Hf]. Qed.

Lemma keeps_set_path_node i b : writable_opt b -> keeps (set_path_node i b) any.
Proof using Type.
  intros Hb. eapply keeps_bind; [apply keeps_bug_on|]. intros _ _.
  apply (keeps_with_path (fun p => node_upd p i b)). intros p Hp j. simpl. unfold upd. by destruct (j =? i).
Qed.

Lemma keeps_set_path_slot i s : keeps (set_path_slot i s) any.
Proof using Type.
  eapply keeps_bind; [apply keeps_bug_on|]. intros _ _. by apply (keeps_with_path (fun p => slot_upd p i s)).
Qed.

Lemma keeps_release_path : keeps btrfs_release_path any.
Proof using Type. by apply (keeps_with_path (fun _ => btrfs_init_path)). Qed.

Lemma keeps_ext {A} (f : tree_view -> X -> option (A * X)) : (forall v, keeps_pinned pinned (f v)) -> keeps (ext f) any.
Proof using Type.
  intros Hf w x w' [Hm Ho Hpin Hpath]. unfold ext.
  destruct (f (view w) (tw_ext w)) as [[a x']|] eqn:Ef; [|done]. intros [= <- <-]. split; [|done]. split; [done|done| |done].
  intros b Hb. simpl. apply (Hf _ _ _ _ _ Ef). by apply Hpin.
Qed.

Lemma keeps_alloc size key level hint : keeps (btrfs_alloc_free_block size key level hint) writable_sum.
Proof using Type.
  intros w x w' Hw. unfold btrfs_alloc_free_block, bind.
  destruct (ext (alloc_free_block size key level hint) w) as [[r w1]|] eqn:Hr; [|done].
  destruct (keeps_ext _ (alloc_keeps_pinned size key level hint) w r w1 Hw Hr) as [Hw1 _].
  destruct r as [err|[b d]]; [by intros [= <- <-]|].
  assert (Hb : writable b).
  { unfold ext in Hr. destruct (alloc_free_block size key level hint _ (tw_ext w)) as [[r' x1]|] eqn:Ha; [|done].
    injection Hr as -> _. apply alloc_not_pinned in Ha. unfold writable.
    destruct (C !! b) eqn:HCb; [|done]. exfalso. apply Ha. apply Hw. by rewrite HCb. }
  pose proof (keeps_insert_block b (ExtentBuffer size false d) Hb w1 tt _ Hw1 eq_refl) as [Hw2 _].
  intros [= <- <-]. split; [exact Hw2|]. by intros b' [= <-].
Qed.

Lemma keeps_free_extent b n o f : keeps (btrfs_free_extent b n o f) any.
Proof using Type. apply keeps_ext. intros. by apply free_keeps_pinned. Qed.

Lemma keeps_read_node_slot b s : keeps (read_node_slot b s) any.
Proof using Type.
  eapply keeps_bind; [apply keeps_eb_read|]. intros d _.
  do 3 (case_match; [by apply keeps_ret|]). apply keeps_gets.
Qed.

Lemma keeps_free_space_of b : keeps (free_space_of env b) any.
Proof using Type. eapply keeps_bind; [apply keeps_eb_read|]. intros d _. by apply keeps_assume. Qed.
End Safe.

(** ** The automation

    [keeps_auto] walks through an action and applies the triple of each call;
    it leaves what it cannot decide. *)

Create HintDb keeps discriminated.
#[export] Hint Resolve keeps_bug_on keeps_gets keeps_eb_get keeps_eb_read keeps_eb_write keeps_eb_update
  keeps_root_node keeps_set_root_node keeps_path_node keeps_path_slot keeps_set_path_node keeps_set_path_slot
  keeps_release_path keeps_alloc keeps_free_extent keeps_read_node_slot keeps_free_space_of : keeps.

Lemma writable_some {C : gmap Z extent_buffer} b : writable C b -> writable_opt C (Some b).
Proof. by intros Hb b' [= <-]. Qed.
Lemma writable_none {C : gmap Z extent_buffer} : writable_opt C None.
Proof. done. Qed.
Lemma writable_of_some {C : gmap Z extent_buffer} b : writable_opt C (Some b) -> writable C b.
Proof. intros Hb. by apply Hb. Qed.
Lemma writable_of_inr {C : gmap Z extent_buffer} b : writable_sum C (inr b) -> writable C b.
Proof. intros Hb. by apply Hb. Qed.
Lemma writable_of_some_inr {C : gmap Z extent_buffer} b :
  (forall b', Some (inr (A := Z) b) = Some (inr b') -> writable C b') -> writable C b.
Proof. intros Hb. by apply Hb. Qed.
#[export] Hint Resolve writable_of_some_inr writable_some writable_none writable_of_some writable_of_inr : keeps.

Ltac keeps_side := solve [exact I | assumption | discriminate | auto with keeps | intros; subst; auto with keeps].

Ltac keeps_step :=
  match goal with
  | |- keeps _ _ (ret _) _ => apply keeps_ret; try keeps_side
  | |- keeps _ _ bug _ => apply keeps_bug
  | |- keeps _ _ (assume_some _) _ => apply keeps_assume; try keeps_side
  | |- keeps _ _ (bind _ _) _ => eapply keeps_bind; [solve [eauto with keeps]|intros ? ?]
  | |- keeps _ _ (if true then ?a else _) ?P => change (keeps _ _ a P)
  | |- keeps _ _ (if false then _ else ?a) ?P => change (keeps _ _ a P)
  | |- keeps _ _ (bind (assume_some ?o) _) _ =>
      lazymatch goal with
      | H : writable_opt ?C o |- _ => apply (keeps_bind _ _ _ _ (writable C)); [apply keeps_assume; keeps_side|intros ? ?]
      | _ => apply (keeps_bind _ _ _ _ (fun _ => True)); [apply keeps_assume; keeps_side|intros ? ?]
      end
  | |- keeps _ _ (bind (if ?b then _ else _) _) _ => apply (keeps_bind _ _ _ _ (fun _ => True)); [destruct b|intros ? ?]
  | |- keeps _ _ (bind (match ?o with _ => _ end) _) _ => apply (keeps_bind _ _ _ _ (fun _ => True)); [destruct o|intros ? ?]
  | |- keeps _ _ (bind (bind _ _) _) _ => apply (keeps_bind _ _ _ _ (fun _ => True)); [|intros ? ?]
  | |- keeps _ _ (if ?b then _ else _) _ => destruct b
  | |- keeps _ _ (let '_ := ?x in _) _ => destruct x
  | |- keeps _ _ (match ?o with _ => _ end) _ => destruct o
  | |- keeps _ _ _ _ => first [solve [eauto with keeps] | eapply keeps_any; solve [eauto with keeps]
                               | eapply keeps_conseq; [solve [eauto with keeps]|try keeps_side]]
  end.
Ltac keeps_auto := repeat (keeps_step; cbv beta zeta in *; try keeps_side).

(** ** Copy on write *)

Section SafeOps.
Context {X : Type} `{ExtentTree X, !PinnedExtents X} (env : tree_env).
Context (C : gmap Z extent_buffer).

Abbreviation keeps := (keeps env C).
Abbreviation any := (fun _ => True).

Lemma keeps_must f : (forall v, keeps_pinned pinned (f v)) -> keeps (must f) any.
Proof using Type. intros Hf. eapply keeps_bind; [by apply keeps_ext|]. intros r _. apply keeps_bug_on. Qed.

Lemma keeps_inc d f : keeps (must (inc_ref d f)) any.
Proof using Type. apply keeps_must. intros. by apply inc_keeps_pinned. Qed.
Lemma keeps_dec d f : keeps (must (dec_ref d f)) any.
Proof using Type. apply keeps_must. intros. by apply dec_keeps_pinned. Qed.
Lemma keeps_flags b l f : keeps (must (set_block_flags b l f)) any.
Proof using Type. apply keeps_must. intros. by apply flags_keeps_pinned. Qed.
Lemma keeps_lookup b l : keeps (ext (lookup_extent_info b l)) any.
Proof using Type. apply keeps_ext. intros. by apply lookup_keeps_pinned. Qed.
Hint Resolve keeps_inc keeps_dec keeps_flags keeps_lookup : keeps.

Lemma keeps_can_be_shared b : keeps (btrfs_block_can_be_shared env b) any.
Proof using Type. unfold btrfs_block_can_be_shared. keeps_auto. Qed.
Hint Resolve keeps_can_be_shared : keeps.

Lemma keeps_update_ref b cow : keeps (update_ref_for_cow env b cow) any.
Proof using Type. unfold update_ref_for_cow. keeps_auto. Qed.
Hint Resolve keeps_update_ref : keeps.

Lemma keeps_cow_now b parent slot start :
  writable_opt C parent -> keeps (__btrfs_cow_block env b parent slot start) (writable_sum C).
Proof using Type.
  intros Hp. unfold __btrfs_cow_block. keeps_auto.
Qed.
Hint Resolve keeps_cow_now : keeps.

(** A committed block is not current, so it is copied. *)
Lemma keeps_should_cow b :
  keeps (should_cow_block env b) (fun should => should = false -> writable C b).
Proof using Type.
  intros w x w' Hw Hr.
  unfold should_cow_block, eb_read, eb_get, deref, bind in Hr.
  destruct (tw_blocks w !! b) as [e|] eqn:He; [|done]. injection Hr as <- <-. split; [done|]. intros Hx.
  unfold writable. destruct (C !! b) as [e'|] eqn:HC; [|done]. exfalso.
  pose proof (in_old _ _ _ Hw b e' HC) as Hold. pose proof (lookup_weaken _ _ _ _ HC (in_blocks _ _ _ Hw)) as He'.
  rewrite He in He'. injection He' as ->. apply negb_false_iff in Hx. unfold block_current in Hold. congruence.
Qed.
Hint Resolve keeps_should_cow : keeps.

Lemma keeps_cow_block b parent slot :
  writable_opt C parent -> keeps (btrfs_cow_block env b parent slot) (writable_sum C).
Proof using Type.
  intros Hp. unfold btrfs_cow_block. keeps_step.
  eapply keeps_bind; [apply keeps_should_cow|]. intros should Hs. destruct should; simpl negb; cbv iota.
  - keeps_auto.
  - apply keeps_ret. intros b' [= <-]. by apply Hs.
Qed.
Hint Resolve keeps_cow_block : keeps.

Lemma keeps_check_block level : keeps (check_block env level) any.
Proof using Type. unfold check_block. keeps_auto. Qed.

Lemma keeps_fixup n key i : keeps (fixup_low_keys_loop n key i) any.
Proof using Type. revert i. induction n as [|n IH]; intros i; cbn [fixup_low_keys_loop]; keeps_auto. Qed.
Hint Resolve keeps_check_block keeps_fixup : keeps.

Lemma keeps_fixup_low_keys key level : keeps (fixup_low_keys key level) any.
Proof using Type. apply keeps_fixup. Qed.
Hint Resolve keeps_fixup_low_keys : keeps.

Lemma keeps_set_item_key_safe key : keeps (btrfs_set_item_key_safe key) any.
Proof using Type. unfold btrfs_set_item_key_safe. keeps_auto. Qed.

Lemma keeps_insert_ptr key bytenr slot level : keeps (insert_ptr env key bytenr slot level) any.
Proof using Type. unfold insert_ptr. keeps_auto. Qed.

Lemma keeps_del_ptr level slot : keeps (btrfs_del_ptr level slot) any.
Proof using Type. unfold btrfs_del_ptr. keeps_auto. Qed.
Hint Resolve keeps_insert_ptr keeps_del_ptr : keeps.
End SafeOps.

(** ** The rest of the tree functions keep the committed blocks. *)

Section Balancing.
Context {X : Type} `{ExtentTree X, !PinnedExtents X} (env : tree_env).
Context (C : gmap Z extent_buffer).

Abbreviation keeps := (keeps env C).
Abbreviation any := (fun _ => True).

#[local] Hint Resolve keeps_cow_block keeps_check_block keeps_fixup_low_keys keeps_insert_ptr keeps_del_ptr
  keeps_set_item_key_safe : keeps.

Lemma keeps_path_block level : keeps (path_block level) (writable C).
Proof using Type. unfold path_block. eapply keeps_bind; [apply keeps_path_node|]. intros o Ho. apply keeps_assume. keeps_side. Qed.
#[local] Hint Resolve keeps_path_block : keeps.

Lemma keeps_add_slot level d : keeps (add_path_slot level d) any.
Proof using Type. unfold add_path_slot. keeps_auto. Qed.

Lemma keeps_nritems b : keeps (nritems_of b) any.
Proof using Type. unfold nritems_of. keeps_auto. Qed.
#[local] Hint Resolve keeps_add_slot keeps_nritems : keeps.

Lemma keeps_new_root level : keeps (insert_new_root env level) any.
Proof using Type. unfold insert_new_root. keeps_auto. Qed.

Lemma keeps_push_nodes f dst src : writable C dst -> writable C src -> keeps (push_nodes f dst src) any.
Proof using Type. intros Hd Hs. unfold push_nodes. keeps_auto. Qed.

Lemma keeps_push_left dst src empty :
  writable C dst -> writable C src -> keeps (tree_push_node_left env dst src empty) any.
Proof using Type. apply keeps_push_nodes. Qed.
Lemma keeps_balance_right dst src :
  writable C dst -> writable C src -> keeps (tree_balance_node_right env dst src) any.
Proof using Type. apply keeps_push_nodes. Qed.

Lemma keeps_copy_low_key parent child pslot : writable C parent -> keeps (copy_low_key parent child pslot) any.
Proof using Type. intros Hp. unfold copy_low_key. keeps_auto. Qed.
#[local] Hint Resolve keeps_new_root keeps_push_left keeps_balance_right keeps_copy_low_key : keeps.

(** The answer of a push comes with the neighbour it wrote. *)
Lemma keeps_pushed {B} (a : act (tree_world X) (Z * Z)) (k : Z * Z -> act (tree_world X) B) P :
  keeps a (fun p => fst p = 0 -> writable C (snd p)) ->
  (forall wret b, (wret = 0 -> writable C b) -> keeps (k (wret, b)) P) -> keeps (bind a k) P.
Proof using Type. intros Ha Hk. eapply keeps_bind; [exact Ha|]. intros [w b]. apply Hk. Qed.

Lemma keeps_for_insert_left level mid parent pslot orig :
  writable C mid -> writable C parent -> keeps (push_for_insert_left env level mid parent pslot orig) any.
Proof using Type.
  intros Hm Hp. unfold push_for_insert_left. do 2 keeps_step; [|keeps_auto]. keeps_step.
  apply keeps_pushed; [keeps_auto|]. intros wret b Hb.
  destruct (Z.eqb_spec wret 0) as [->|]; simpl negb; cbv iota; [specialize (Hb eq_refl)|]; keeps_auto.
Qed.

Lemma keeps_for_insert_right level mid parent pslot orig :
  writable C mid -> writable C parent -> keeps (push_for_insert_right env level mid parent pslot orig) any.
Proof using Type.
  intros Hm Hp. unfold push_for_insert_right. do 2 keeps_step; [|keeps_auto]. keeps_step.
  apply keeps_pushed; [keeps_auto|]. intros wret b Hb.
  destruct (Z.eqb_spec wret 0) as [->|]; simpl negb; cbv iota; [specialize (Hb eq_refl)|]; keeps_auto.
Qed.
#[local] Hint Resolve keeps_for_insert_left keeps_for_insert_right : keeps.

Lemma keeps_parent level :
  keeps (if level <? BTRFS_MAX_LEVEL - 1 then path_node (level + 1) else ret None) (writable_opt C).
Proof using Type. keeps_auto. Qed.
#[local] Hint Resolve keeps_parent : keeps.

Lemma keeps_for_insert level : keeps (push_nodes_for_insert env level) any.
Proof using Type. unfold push_nodes_for_insert. keeps_auto. Qed.

Lemma keeps_split_node_now level c : writable C c -> keeps (split_node_now env level c) any.
Proof using Type. intros Hc. unfold split_node_now. keeps_auto. Qed.
#[local] Hint Resolve keeps_for_insert keeps_split_node_now : keeps.

Lemma keeps_split_node level : keeps (split_node env level) any.
Proof using Type. unfold split_node. keeps_auto. Qed.

Lemma keeps_balance_root level mid : writable C mid -> keeps (balance_root env level mid) any.
Proof using Type. intros Hm. unfold balance_root. keeps_auto. Qed.

Lemma keeps_neighbour parent slot :
  writable C parent -> keeps (cow_neighbour env parent slot) (fun r => forall b, r = Some (inr b) -> writable C b).
Proof using Type.
  intros Hp. unfold cow_neighbour. keeps_step. destruct x as [b|]; [|by apply keeps_ret].
  eapply keeps_bind; [apply keeps_cow_block; auto with keeps|]. intros c Hc. apply keeps_ret.
  intros b' [= ->]. auto with keeps.
Qed.

Lemma keeps_drop_node level b slot r : keeps (drop_node level b slot r) any.
Proof using Type. unfold drop_node. keeps_auto. Qed.
#[local] Hint Resolve keeps_drop_node : keeps.

Lemma keeps_balance_to_right level mid rb parent pslot r :
  writable C mid -> writable C rb -> writable C parent -> keeps (balance_right env level mid rb parent pslot r) any.
Proof using Type. intros Hm Hr Hp. unfold balance_right. keeps_auto. Qed.

Lemma keeps_balance_single mid lb r :
  writable C mid -> writable_opt C lb -> keeps (balance_single env mid lb r) any.
Proof using Type. intros Hm Hl. unfold balance_single. keeps_auto. Qed.
#[local] Hint Resolve keeps_neighbour keeps_balance_root keeps_balance_to_right keeps_balance_single : keeps.

Lemma keeps_balance_level level : keeps (balance_level env level) any.
Proof using Type. unfold balance_level. keeps_auto. Qed.

(** ** Leaves *)

Lemma keeps_right_now lb rb upper slot size fs empty :
  writable C lb -> writable C rb -> writable C upper -> keeps (push_leaf_right_now env lb rb upper slot size fs empty) any.
Proof using Type. intros Hl Hr Hu. unfold push_leaf_right_now. keeps_auto. Qed.

Lemma keeps_left_now lb rb size fs empty :
  writable C lb -> writable C rb -> keeps (push_leaf_left_now env lb rb size fs empty) any.
Proof using Type. intros Hl Hr. unfold push_leaf_left_now. keeps_auto. Qed.
#[local] Hint Resolve keeps_right_now keeps_left_now keeps_balance_level keeps_split_node : keeps.

Lemma keeps_leaf_right size empty : keeps (push_leaf_right env size empty) any.
Proof using Type. unfold push_leaf_right. keeps_auto. Qed.

Lemma keeps_leaf_left size empty : keeps (push_leaf_left env size empty) any.
Proof using Type. unfold push_leaf_left. keeps_auto. Qed.

Lemma keeps_copy_for_split l rb slot mid n :
  writable C l -> writable C rb -> keeps (copy_for_split env l rb slot mid n) any.
Proof using Type. intros Hl Hr. unfold copy_for_split. keeps_auto. Qed.

Lemma keeps_split_empty rb slot mid key : writable C rb -> keeps (split_leaf_empty env rb slot mid key) any.
Proof using Type. intros Hr. unfold split_leaf_empty. keeps_auto. Qed.
#[local] Hint Resolve keeps_leaf_right keeps_leaf_left keeps_copy_for_split keeps_split_empty : keeps.

Lemma keeps_split_again rounds key size extend : keeps (split_leaf_again env rounds key size extend) any.
Proof using Type. induction rounds as [|n IH]; cbn [split_leaf_again]; keeps_auto. Qed.
#[local] Hint Resolve keeps_split_again : keeps.

Lemma keeps_split_leaf key size extend : keeps (split_leaf env key size extend) any.
Proof using Type. unfold split_leaf. keeps_auto. Qed.
#[local] Hint Resolve keeps_split_leaf : keeps.

(** ** The operations *)

(** A round of a search that copies. *)
Lemma keeps_search_block key ins_len lowest b : keeps (search_block env key ins_len true lowest b) any.
Proof using Type.
  unfold search_block, lift. keeps_step. apply (keeps_bind _ _ _ _ (writable_sum C)); [keeps_auto|].
  intros [err|b'] Hb; keeps_auto.
Qed.
#[local] Hint Resolve keeps_search_block : keeps.

Lemma keeps_search_loop fuel key ins_len lowest b : keeps (search_loop env fuel key ins_len true lowest b) any.
Proof using Type. revert b. induction fuel as [|n IH]; intros b; cbn [search_loop]; keeps_auto. Qed.
#[local] Hint Resolve keeps_search_loop : keeps.

Lemma keeps_search_slot fuel key ins_len : keeps (btrfs_search_slot env fuel key ins_len true) any.
Proof using Type. unfold btrfs_search_slot. keeps_auto. Qed.
#[local] Hint Resolve keeps_search_slot : keeps.

Lemma keeps_insert_items fuel l : keeps (btrfs_insert_empty_items env fuel l) any.
Proof using Type. unfold btrfs_insert_empty_items, lift. keeps_auto. Qed.

(** The path of the caller is put back as it was. *)
Lemma keeps_insert_item fuel key data : keeps (btrfs_insert_item env fuel key data) any.
Proof using Type.
  unfold btrfs_insert_item. apply (keeps_bind _ _ _ _ (fun p => forall i, writable_opt C (p_nodes p i))).
  { intros w p w' Hw [= <- <-]. split; [done|apply Hw]. }
  intros saved Hsaved. keeps_step. apply (keeps_bind _ _ _ _ any); [apply keeps_insert_items|]. intros r _.
  apply (keeps_bind _ _ _ _ any); [keeps_auto|]. intros _ _.
  apply (keeps_bind _ _ _ _ any); [|intros _ _; by apply keeps_ret].
  by apply (keeps_with_path env C (fun _ => saved)).
Qed.

Lemma keeps_truncate size from_end : keeps (btrfs_truncate_item env size from_end) any.
Proof using Type. unfold btrfs_truncate_item, lift. keeps_auto. Qed.

Lemma keeps_extend size : keeps (btrfs_extend_item env size) any.
Proof using Type. unfold btrfs_extend_item, lift. keeps_auto. Qed.

Lemma keeps_set_split b : keeps (set_search_for_split b) any.
Proof using Type.
  by apply (keeps_with_path env C (fun p => BtrfsPath (p_nodes p) (p_slots p) (p_lowest_level p) b)).
Qed.
#[local] Hint Resolve keeps_set_split : keeps.

Lemma keeps_split_item fuel key off : keeps (btrfs_split_item env fuel key off) any.
Proof using Type. unfold btrfs_split_item, lift. keeps_auto. Qed.

Lemma keeps_del_leaf leaf : keeps (btrfs_del_leaf env leaf) any.
Proof using Type. unfold btrfs_del_leaf. keeps_auto. Qed.
#[local] Hint Resolve keeps_del_leaf : keeps.

Lemma keeps_merge_leaf leaf r : keeps (merge_leaf env leaf r) any.
Proof using Type. unfold merge_leaf. keeps_auto. Qed.
#[local] Hint Resolve keeps_merge_leaf : keeps.

Lemma keeps_del_items slot nr : keeps (btrfs_del_items env slot nr) any.
Proof using Type. unfold btrfs_del_items, lift. keeps_auto. Qed.
End Balancing.
