(* ===== verification/DirSpec.v ===== *)
(** Directory entries as bytes: the codec, the search for a name in an item,
    and what filling in an entry writes. *)

From stdpp Require Import sorting.
From S2P Require Import Prelude Buf CtreeFmt ItemFmt LeafOps LeafSpec NodeOps TreeWorld TreeBalance TreeOps Crc.
From S2P Require Import DirItem TreeSpec TreeSearch TreeWalk TreeFrame TreeInsert TreeItem PackSpec.

Implicit Types (b : buf) (name : list Z).

(** ** Entries *)

(** The transaction id is the eight bytes there are: nothing sets them. *)
Record dentry := Dentry {
  de_location : btrfs_key;
  de_transid : list Z;
  de_type : Z;
  de_name : list Z;
  de_data : list Z;
}.

Definition dentry_bytes (e : dentry) : list Z :=
  key_bytes (de_location e) ++ de_transid e ++ le_bytes 2 (Z.of_nat (length (de_data e))) ++
  le_bytes 2 (Z.of_nat (length (de_name e))) ++ le_bytes 1 (de_type e) ++ de_name e ++ de_data e.

Definition dentry_ok (e : dentry) : Prop :=
  key_ok (de_location e) /\ length (de_transid e) = 8%nat /\ 0 <= de_type e < 2 ^ 8 /\
  Z.of_nat (length (de_name e)) < 2 ^ 16 /\ Z.of_nat (length (de_data e)) < 2 ^ 16.

Definition dentry_parse (d : list Z) : option (dentry * list Z) :=
  '(k, d) ← eat 17 d;
  '(t, d) ← eat 8 d;
  '(dl, d) ← eat 2 d;
  '(nl, d) ← eat 2 d;
  '(ty, d) ← eat 1 d;
  '(name, d) ← eat (Z.to_nat (le_val nl)) d;
  '(data, d) ← eat (Z.to_nat (le_val dl)) d;
  Some (Dentry (key_of k) t (le_val ty) name data, d).

Lemma dentry_bytes_length e :
  length (de_transid e) = 8%nat -> Z.of_nat (length (dentry_bytes e)) =
    sizeof_dir_item + Z.of_nat (length (de_name e)) + Z.of_nat (length (de_data e)).
Proof.
  intros Ht. unfold dentry_bytes, sizeof_dir_item. rewrite !length_app, key_bytes_length, !le_bytes_length, Ht. lia.
Qed.

Lemma dentry_parse_bytes e r : dentry_ok e -> dentry_parse (dentry_bytes e ++ r) = Some (e, r).
Proof.
  intros (Hk & Ht & Hty & Hn & Hd). unfold dentry_bytes, dentry_parse. rewrite <- !(assoc_L (++)).
  rewrite eat_app by (by rewrite key_bytes_length). cbn [mbind option_bind]. rewrite eat_app by done. cbn [mbind option_bind].
  do 3 (rewrite eat_app by (by rewrite le_bytes_length); cbn [mbind option_bind]).
  rewrite !le_val_id by (simpl; lia). rewrite eat_app by lia. cbn [mbind option_bind]. rewrite eat_app by lia.
  cbn [mbind option_bind]. rewrite key_of_bytes by done. by destruct e.
Qed.

#[export] Program Instance dentry_packed : Packed dentry := {|
  pk_bytes := dentry_bytes;
  pk_name := de_name;
  pk_ok := dentry_ok;
  pk_parse := dentry_parse;
|}.
Next Obligation. intros. by apply dentry_parse_bytes. Qed.
Next Obligation. done. Qed.
Next Obligation. intros e. unfold dentry_bytes. rewrite length_app, key_bytes_length. lia. Qed.

(** What the accessors read of an entry in a buffer. *)
Record dentry_at b (p : Z) (e : dentry) : Prop := {
  da_location : btrfs_dir_item_key b p = de_location e;
  da_data_len : btrfs_dir_data_len b p = Z.of_nat (length (de_data e));
  da_name_len : btrfs_dir_name_len b p = Z.of_nat (length (de_name e));
  da_type : btrfs_dir_type b p = de_type e;
  da_name : read_extent_buffer b (p + sizeof_dir_item) (length (de_name e)) = de_name e;
  da_data : read_extent_buffer b (p + sizeof_dir_item + Z.of_nat (length (de_name e))) (length (de_data e)) = de_data e;
}.

Lemma dentry_at_bytes b p e n :
  dentry_ok e -> read_extent_buffer b p n = dentry_bytes e -> dentry_at b p e.
Proof.
  intros (Hk & Ht & Hty & Hn & Hd) Hr. unfold dentry_bytes in Hr.
  apply read_split in Hr as [H1 Hr]. apply read_split in Hr as [H2 Hr]. apply read_split in Hr as [H3 Hr].
  apply read_split in Hr as [H4 Hr]. apply read_split in Hr as [H5 Hr]. apply read_split in Hr as [H6 H7].
  rewrite key_bytes_length, Ht, !le_bytes_length in *.
  replace (p + Z.of_nat 17 + Z.of_nat 8) with (p + 25) in * by lia.
  replace (p + 25 + Z.of_nat 2) with (p + 27) in * by lia.
  replace (p + 27 + Z.of_nat 2) with (p + 29) in * by lia.
  replace (p + 29 + Z.of_nat 1) with (p + 30) in * by lia.
  unfold sizeof_dir_item. split; [| | | |done|done].
  - unfold btrfs_dir_item_key. by rewrite read_disk_key_bytes, H1, key_of_bytes.
  - unfold btrfs_dir_data_len. rewrite get_le_read, H3. apply le_val_id. simpl. lia.
  - unfold btrfs_dir_name_len. rewrite get_le_read, H4. apply le_val_id. simpl. lia.
  - unfold btrfs_dir_type. rewrite get_le_read, H5. apply le_val_id. simpl. lia.
Qed.

(** ** Searching an item for a name *)

Lemma match_loop_run b p cur total name (es : list dentry) fuel :
  Forall dentry_ok es -> read_extent_buffer b p (length (packed es)) = packed es ->
  0 <= cur -> cur + Z.of_nat (length (packed es)) = total -> total < 65536 -> (length es <= fuel)%nat ->
  match_dir_item_loop fuel b name p cur total = Some (place_of name es p).
Proof.
  revert p cur fuel. induction es as [|e es IH]; intros p cur fuel Hok Hr Hcur Htot Hlt Hf.
  - change (length (packed [])) with 0%nat in Htot. destruct fuel; cbn [match_dir_item_loop];
      by rewrite (proj2 (Z.ltb_ge _ _)) by lia.
  - apply Forall_cons in Hok as [He Hok]. rewrite packed_cons in Hr, Htot.
    apply read_split in Hr as [Hr1 Hr2]. rewrite length_app in Htot.
    pose proof (dentry_bytes_length e (proj1 (proj2 He))) as Hlen. change (pk_bytes e) with (dentry_bytes e) in *.
    destruct (dentry_at_bytes b p e _ He Hr1) as [_ Hd Hn _ Hname _].
    destruct fuel as [|fuel]; simpl in Hf; [lia|]. cbn [match_dir_item_loop place_of].
    unfold sizeof_dir_item in Hlen. rewrite (proj2 (Z.ltb_lt _ _)) by lia. rewrite Hd, Hn.
    destruct (decide (pk_name e = name)) as [Hx|Hx].
    + simpl in Hx. subst name. rewrite Z.eqb_refl. unfold memcmp_extent_buffer. by rewrite Hname, bool_decide_eq_true_2.
    + simpl in Hx. replace (_ && _) with false.
      * replace (u32 (sizeof_dir_item + _ + _)) with (Z.of_nat (length (dentry_bytes e)))
          by (unfold sizeof_dir_item in *; rewrite u32_id by lia; lia).
        rewrite u32_id by lia. apply IH; [done|done|lia|lia|lia|lia].
      * symmetry. apply andb_false_iff. destruct (Z.eqb_spec (Z.of_nat (length (de_name e))) (Z.of_nat (length name)));
          [right|by left]. unfold memcmp_extent_buffer. replace (length name) with (length (de_name e)) by lia.
        by rewrite Hname, bool_decide_eq_false_2.
Qed.

Lemma packed_dentries_fuel (es : list dentry) :
  Forall dentry_ok es -> (length es <= S (Z.to_nat (Z.of_nat (length (packed es)) / sizeof_dir_item)))%nat.
Proof.
  intros Hok. enough (sizeof_dir_item * Z.of_nat (length es) <= Z.of_nat (length (packed es))) as Hle.
  { unfold sizeof_dir_item in *. zlia. }
  induction Hok as [|e es He Hok IH]; [done|]. rewrite packed_cons, length_app.
  pose proof (dentry_bytes_length e (proj1 (proj2 He))) as Hlen. change (pk_bytes e) with (dentry_bytes e).
  cbn [length]. lia.
Qed.

(** ** Filling in an entry *)

Lemma fill_dir_item_spec b q location ty name :
  exists t, length t = 8%nat /\
  let e := Dentry location t ty name [] in
  read_extent_buffer (fill_dir_item b q location ty name) q (length (dentry_bytes e)) = dentry_bytes e /\
  forall z, z < q \/ q + Z.of_nat (length (dentry_bytes e)) <= z -> fill_dir_item b q location ty name z = b z.
Proof.
  set (b' := fill_dir_item b q location ty name). exists (read_extent_buffer b (q + 17) 8).
  split; [apply read_length|]. intros e.
  pose proof (dentry_bytes_length e (read_length _ _ _)) as Hlen.
  change (de_name e) with name in Hlen. change (de_data e) with (@nil Z) in Hlen. cbn [length] in Hlen. unfold sizeof_dir_item in *. split.
  - replace (length (dentry_bytes e)) with (17 + (8 + (2 + (2 + (1 + length name)))))%nat by lia.
    rewrite !read_app. unfold dentry_bytes. simpl de_data. rewrite app_nil_r.
    change (Z.of_nat 17) with 17. change (Z.of_nat 8) with 8. change (Z.of_nat 2) with 2. change (Z.of_nat 1) with 1.
    replace (q + 17 + 8) with (q + 25) by lia. replace (q + 25 + 2) with (q + 27) by lia.
    replace (q + 27 + 2) with (q + 29) by lia. replace (q + 29 + 1) with (q + 30) by lia.
    unfold b', e, fill_dir_item, btrfs_set_dir_item_key, btrfs_set_dir_type, btrfs_set_dir_data_len, btrfs_set_dir_name_len,
      sizeof_dir_item. repeat apply (f_equal2 app); cbn [de_location de_transid de_type de_name length]; read_field.
  - intros z Hz. rewrite Hlen in Hz. clear Hlen. clearbody e. unfold b', fill_dir_item, btrfs_set_dir_item_key, btrfs_set_dir_type, btrfs_set_dir_data_len,
      btrfs_set_dir_name_len, sizeof_dir_item. field_outside.
Qed.

Lemma fill_xattr_item_spec b q name data :
  exists t, length t = 8%nat /\
  let e := Dentry (BtrfsKey 0 0 0) t BTRFS_FT_XATTR name data in
  read_extent_buffer (fill_xattr_item b q name data) q (length (dentry_bytes e)) = dentry_bytes e /\
  forall z, z < q \/ q + Z.of_nat (length (dentry_bytes e)) <= z -> fill_xattr_item b q name data z = b z.
Proof.
  set (b' := fill_xattr_item b q name data). exists (read_extent_buffer b (q + 17) 8).
  split; [apply read_length|]. intros e.
  pose proof (dentry_bytes_length e (read_length _ _ _)) as Hlen.
  change (de_name e) with name in Hlen. change (de_data e) with data in Hlen. unfold sizeof_dir_item in *. split.
  - replace (length (dentry_bytes e)) with (17 + (8 + (2 + (2 + (1 + (length name + length data))))))%nat by lia.
    rewrite !read_app. unfold dentry_bytes.
    change (Z.of_nat 17) with 17. change (Z.of_nat 8) with 8. change (Z.of_nat 2) with 2. change (Z.of_nat 1) with 1.
    replace (q + 17 + 8) with (q + 25) by lia. replace (q + 25 + 2) with (q + 27) by lia.
    replace (q + 27 + 2) with (q + 29) by lia. replace (q + 29 + 1) with (q + 30) by lia.
    unfold b', e, fill_xattr_item, btrfs_set_dir_item_key, btrfs_set_dir_type, btrfs_set_dir_data_len, btrfs_set_dir_name_len,
      sizeof_dir_item. repeat apply (f_equal2 app); cbn [de_location de_transid de_type de_name de_data length]; read_field.
  - intros z Hz. rewrite Hlen in Hz. clear Hlen. clearbody e. unfold b', fill_xattr_item, btrfs_set_dir_item_key, btrfs_set_dir_type, btrfs_set_dir_data_len,
      btrfs_set_dir_name_len, sizeof_dir_item. field_outside.
Qed.

(** ** Running the functions of [dir-item.c]: an entry goes behind those of its
    item, or the name is there already. *)

Implicit Types (L l pre post A B : list item) (key k : btrfs_key).

Lemma name_hash_range name : Forall is_byte name -> 0 <= btrfs_name_hash name < 2 ^ 32.
Proof.
  intros Hn. assert (Hs : crc_ok (u32 (Z.lnot 1))) by (vm_compute; split; congruence).
  unfold btrfs_name_hash. rewrite crc_table_ref by done. by apply crc_ref_ok.
Qed.

(** The key of the item that holds the entry of a name, and the key of the item
    that holds the entry of an index. *)
Definition dir_key (dir : Z) name : btrfs_key := BtrfsKey dir BTRFS_DIR_ITEM_KEY (btrfs_name_hash name).
Definition index_key (dir index : Z) : btrfs_key := BtrfsKey dir BTRFS_DIR_INDEX_KEY index.
Definition xattr_key (dir : Z) name : btrfs_key := BtrfsKey dir BTRFS_XATTR_ITEM_KEY (btrfs_name_hash name).

(** The entries the code writes, whatever their transaction id is. *)
Definition dir_entry (location : btrfs_key) (ty : Z) name (e : dentry) : Prop :=
  exists t, length t = 8%nat /\ e = Dentry location t ty name [].
Definition xattr_entry name (data : list Z) (e : dentry) : Prop :=
  exists t, length t = 8%nat /\ e = Dentry (BtrfsKey 0 0 0) t BTRFS_FT_XATTR name data.

Section Run.
Context {X : Type} `{ExtentTree X} (env : tree_env).
Context (Hroot : root_ok (te_root env)).

Abbreviation world := (tree_world X).
Abbreviation root := (te_root env).
Implicit Types (w : world) (m : gmap Z extent_buffer).

Lemma tree_ok_blocks w w' n (b : Z) L :
  tree_ok env w n b L -> tw_blocks w' = tw_blocks w -> tw_node w' = tw_node w -> tree_ok env w' n b L.
Proof using Type. intros [H1 H2 H3 H4 H5 H6] Hb Hn. split; rewrite ?Hb, ?Hn; done. Qed.

Lemma tree_ok_path w p n (b : Z) L : tree_ok env w n b L -> tree_ok env (with_path w p) n b L.
Proof using Type. intros Hok. by apply (tree_ok_blocks w). Qed.

Lemma room_less m n (b : Z) x y : has_room env m n b x -> y <= x -> has_room env m n b y.
Proof using Type.
  intros [Hn Hl] Hy. split; [done|]. intros a l Ha Hlf. specialize (Hl a l Ha Hlf). lia.
Qed.

Lemma view_leaf_block w (lb : Z) A k d B e : item_view env w lb A k d B e -> leaf_block root (tw_blocks w) lb (A ++ (k, d) :: B).
Proof using Type. intros Hv. exists e. destruct Hv. by split. Qed.

Lemma leaf_room_data A k d B d' :
  leaf_room env (A ++ (k, d') :: B) = leaf_room env (A ++ (k, d) :: B) + Z.of_nat (length d) - Z.of_nat (length d').
Proof using Type. unfold leaf_room. rewrite !dsize_app, !length_app. simpl. lia. Qed.

Lemma leaf_room_item A k d B :
  leaf_room env (A ++ (k, d) :: B) = leaf_room env (A ++ B) - sizeof_item - Z.of_nat (length d).
Proof using Type. unfold leaf_room. rewrite !dsize_app, !length_app. simpl. unfold sizeof_item. lia. Qed.

(** All items but the one in the middle. *)
Lemma others_middle pre A key d B post k : k <> key ->
  item_at (pre ++ (A ++ (key, d) :: B) ++ post) k = item_at (pre ++ (A ++ B) ++ post) k.
Proof using Type.
  intros Hk. rewrite <- (assoc_L (++)). simpl. rewrite (assoc_L (++) pre A), item_at_other by done.
  by rewrite <- !(assoc_L (++)).
Qed.

Lemma match_item_run w (lb : Z) A k d B e (es : list dentry) name :
  item_view env w lb A k d B e -> d = packed es -> Forall dentry_ok es ->
  btrfs_match_dir_item_name name w =
    Some (place_of name es (btrfs_item_ptr_offset (eb_data e) (Z.of_nat (length A))), w).
Proof using Hroot.
  intros Hv Hd Hok. pose proof (data_len_bounds env Hroot _ _ _ _ _ _ _ Hv) as Hlen. destruct Hv. unfold btrfs_match_dir_item_name.
  rewrite (bind_some _ _ _ _ _ iv_leaf), (bind_some _ _ _ _ _ iv_slot), (bind_some _ _ _ _ _ iv_read), iv_size.
  subst d. unfold lift. rewrite (match_loop_run _ _ 0 _ name es) by (done || lia || by apply packed_dentries_fuel). done.
Qed.

Lemma entry_lookup L key d (es : list dentry) name :
  item_at L key = Some d -> packs d es -> find_entry L key name = find_name name es /\ entries_at L key = es.
Proof using Type.
  intros Hi [-> Hok _]. unfold find_entry, entries_at. rewrite Hi, entries_packed by done. done.
Qed.

(** [insert_with_overflow] leaves room for the entry behind the others. *)
Lemma overflow_run w n (b : Z) L key name (sz : Z) fuel :
  tree_ok env w n b L -> tw_path w = btrfs_init_path -> key_ok key -> 0 <= sz < 65536 ->
  packs_at (E := dentry) L key -> has_room env (tw_blocks w) n b (sz + sizeof_item) -> (n < fuel)%nat ->
  exists r w', insert_with_overflow env fuel key sz name w = Some (r, w') /\
    match find_entry (E := dentry) L key name with
    | Some _ => r = inl (- EEXIST) /\ tw_blocks w' = tw_blocks w /\ tw_node w' = tw_node w
    | None => exists lb pre A B post x e,
        let es := entries_at (E := dentry) L key in
        item_view env w' lb A key (packed es ++ x) B e /\
        r = inr (btrfs_item_ptr_offset (eb_data e) (Z.of_nat (length A)) + Z.of_nat (length (packed es))) /\
        at_item env w' n b lb pre A key (packed es ++ x) B post /\ Z.of_nat (length x) = sz /\
        (forall d k, k <> key -> item_at (pre ++ (A ++ (key, d) :: B) ++ post) k = item_at L k) /\
        (forall y, 0 <= y -> has_room env (tw_blocks w) n b (sz + sizeof_item + y) -> has_room env (tw_blocks w') n b y)
    end.
Proof using Hroot.
  intros Hok Hp Hkey Hsz Hpk Hroom Hfuel.
  destruct (insert_or_find env Hroot w n b L key sz fuel Hok Hp Hkey Hsz Hroom Hfuel)
    as (r & w1 & lb & pre & A & d & B & post & Hrun & Hat & Hlb & Hres).
  unfold insert_with_overflow. rewrite (bind_some _ _ _ _ _ Hrun).
  destruct (at_item_view env Hroot _ _ _ _ _ _ _ _ _ _ Hat) as (e1 & Hv1).
  destruct (item_at L key) as [d0|] eqn:Hd0.
  - (* the item is there *)
    destruct Hres as (-> & Hbl & -> & HL). rewrite Z.eqb_refl.
    pose proof (Hpk d0 Hd0) as Hpks. destruct (entry_lookup L key d0 _ name Hd0 Hpks) as [Hfe Hea].
    pose proof Hpks as [Hbytes Hes _]. set (es := entries (E := dentry) d0) in *. rewrite Hfe, Hea.
    rewrite bind_assoc.
    rewrite (bind_some _ _ _ _ _ (match_item_run w1 lb A key d0 B e1 es name Hv1 Hbytes Hes)).
    destruct (find_name name es) as [e|] eqn:Hn.
    { destruct (place_of name es _) as [q|] eqn:Hq; [|by rewrite place_of_None, Hn in Hq].
      eexists _, w1. split; [reflexivity|]. do 2 (split; [done|]).
      by rewrite (to_root _ _ _ _ _ (ai_ok _ _ _ _ _ _ _ _ _ _ _ Hat)), (to_root _ _ _ _ _ Hok). }
    rewrite (proj2 (place_of_None name es _) Hn).
    assert (Hlf : leaf_block root (tw_blocks w) lb (A ++ (key, d0) :: B)) by (rewrite <- Hbl; by eapply view_leaf_block).
    pose proof (proj2 Hroom lb _ Hlb Hlf) as Hlroom.
    destruct (extend_run env Hroot w1 n b lb pre A key d0 B post sz Hat) as (w2 & x & Hext & Hx & Hat2 & Hp2 & Hlw);
      [unfold sizeof_item in Hlroom; lia|].
    rewrite bind_assoc, (bind_some _ _ _ _ _ Hext). change (0 <? 0) with false.
    rewrite bind_assoc, (bind_some _ _ w2 tt w2) by done. rewrite (bind_some _ _ w2 0 w2) by done.
    change (0 <? 0) with false. cbv iota. rewrite (bind_some _ _ w2 tt w2) by done.
    destruct (at_item_view env Hroot _ _ _ _ _ _ _ _ _ _ Hat2) as (e2 & Hv2). pose proof Hv2 as [V1 V2 _ V3 _ _ _ _ V4 _].
    rewrite (bind_some _ _ _ _ _ V1), (bind_some _ _ _ _ _ V2), (bind_some _ _ _ _ _ V3).
    change (btrfs_item_size (eb_data e2) _) with (btrfs_item_size_nr (eb_data e2) (Z.of_nat (length A))).
    rewrite V4, length_app, (proj2 (Z.ltb_ge _ sz)) by lia. rewrite (bind_some _ _ w2 tt w2) by done.
    eexists _, w2. split; [reflexivity|]. exists lb, pre, A, B, post, x, e2. cbv zeta. rewrite <- Hbytes.
    split; [done|]. split; [do 2 f_equal; lia|]. do 2 (split; [done|]). split.
    + intros d k Hk. rewrite HL, !others_middle by done. done.
    + intros y Hy Hr. rewrite Hbl in Hlw. apply (room_kept env Hroot _ _ n b lb _ y (A ++ (key, d0 ++ x) :: B) Hr Hlw).
      * by eapply view_leaf_block.
      * unfold sizeof_item. lia.
      * pose proof (proj2 Hr lb _ Hlb Hlf) as Hy2. rewrite (leaf_room_data A key d0), length_app. unfold sizeof_item in Hy2. lia.
  - (* a new item *)
    destruct Hres as (-> & Hd & HL & Hlw & Hlf). change (0 =? - EEXIST) with false. cbv iota.
    rewrite (bind_some _ _ w1 0 w1) by done. change (0 <? 0) with false. cbv iota.
    rewrite (bind_some _ _ w1 tt w1) by done. pose proof Hv1 as [V1 V2 _ V3 _ _ _ _ V4 _].
    rewrite (bind_some _ _ _ _ _ V1), (bind_some _ _ _ _ _ V2), (bind_some _ _ _ _ _ V3).
    change (btrfs_item_size (eb_data e1) _) with (btrfs_item_size_nr (eb_data e1) (Z.of_nat (length A))).
    rewrite V4, (proj2 (Z.ltb_ge _ sz)) by lia. rewrite (bind_some _ _ w1 tt w1) by done.
    eexists _, w1. split; [reflexivity|]. unfold find_entry, entries_at. rewrite Hd0. exists lb, pre, A, B, post, d, e1.
    cbv zeta. change (packed []) with (@nil Z). cbn [app length].
    split; [done|]. split; [do 2 f_equal; lia|]. do 2 (split; [done|]). split.
    + intros d' k Hk. by rewrite HL, others_middle.
    + intros y Hy Hr. apply (room_kept env Hroot _ _ n b lb _ y (A ++ (key, d) :: B) Hr Hlw).
      * by eapply view_leaf_block.
      * unfold sizeof_item. lia.
      * pose proof (proj2 Hr lb _ Hlb Hlf) as Hy2. rewrite leaf_room_item. lia.
Qed.

(** Writing the entry into that room. *)
Lemma entry_fill_run {E} `{Packed E} w n (b lb : Z) pre A key (es : list E) x B post e f enew :
  at_item env w n b lb pre A key (packed es ++ x) B post -> item_view env w lb A key (packed es ++ x) B e ->
  length x = length (pk_bytes enew) ->
  let q := btrfs_item_ptr_offset (eb_data e) (Z.of_nat (length A)) + Z.of_nat (length (packed es)) in
  read_extent_buffer (f (eb_data e)) q (length (pk_bytes enew)) = pk_bytes enew ->
  (forall z, z < q \/ q + Z.of_nat (length (pk_bytes enew)) <= z -> f (eb_data e) z = eb_data e z) ->
  exists w', eb_update lb f w = Some (tt, w') /\ at_item env w' n b lb pre A key (packed (es ++ [enew])) B post /\
    tw_path w' = tw_path w /\
    (forall y, has_room env (tw_blocks w) n b y -> has_room env (tw_blocks w') n b y).
Proof using Hroot.
  intros Hat Hv Hx q Hrd Hout. set (p := btrfs_item_ptr_offset (eb_data e) (Z.of_nat (length A))) in *.
  destruct (write_run env Hroot w n b lb pre A key _ B post e f (packed (es ++ [enew])) Hat Hv)
    as (w' & Hw & Hat' & Hpath & Hlw).
  - intros z Hz. fold p in Hz. rewrite length_app in Hz. apply Hout. unfold q. lia.
  - fold p. rewrite packed_snoc, length_app, read_app. f_equal; [|by rewrite Hx].
    pose proof (iv_data _ _ _ _ _ _ _ _ Hv) as Hd. fold p in Hd. rewrite length_app, read_app in Hd.
    apply app_inj_1 in Hd as [Hd _]; [|by rewrite read_length]. etransitivity; [|exact Hd].
    apply read_same. intros z Hz. apply Hout. unfold q. lia.
  - exists w'. do 3 (split; [done|]). intros y Hr.
    destruct (at_item_view env Hroot _ _ _ _ _ _ _ _ _ _ Hat') as (e' & Hv').
    apply (room_kept env Hroot _ _ n b lb _ y (A ++ (key, packed (es ++ [enew])) :: B) Hr Hlw); [by eapply view_leaf_block|done|].
    assert (Hlb : lb ∈ tree_blocks (tw_blocks w) n b).
    { destruct (on_path_leaf env _ _ _ _ _ _ _ (al_path _ _ _ _ _ _ _ _ (ai_leaf _ _ _ _ _ _ _ _ _ _ _ Hat)))
        as (lb' & Hlb & _ & Hmem). rewrite (al_leaf _ _ _ _ _ _ _ _ (ai_leaf _ _ _ _ _ _ _ _ _ _ _ Hat)) in Hlb.
      by injection Hlb as <-. }
    pose proof (proj2 Hr lb _ Hlb (view_leaf_block _ _ _ _ _ _ _ Hv)) as Hy.
    rewrite (leaf_room_data A key (packed es ++ x)), packed_snoc, !length_app, Hx. lia.
Qed.

(** The item then holds one entry more. *)
Lemma entry_added_middle {E} `{Packed E} w n (b lb : Z) L pre A key (es : list E) enew B post :
  at_item env w n b lb pre A key (packed (es ++ [enew])) B post -> es = entries_at L key ->
  (forall d k, k <> key -> item_at (pre ++ (A ++ (key, d) :: B) ++ post) k = item_at L k) ->
  entry_added L key enew (pre ++ (A ++ (key, packed (es ++ [enew])) :: B) ++ post).
Proof using Type.
  intros Hat -> Hoth. split; [|by intros k Hk; apply Hoth].
  pose proof (sorted_keys_NoDup _ (to_sorted _ _ _ _ _ (ai_ok _ _ _ _ _ _ _ _ _ _ _ Hat))) as Hnd.
  rewrite <- (assoc_L (++)) in Hnd |- *. simpl in Hnd |- *. rewrite (assoc_L (++)) in Hnd |- *. by apply item_at_middle.
Qed.
(** An entry with a new name, as [fill] writes it, goes into the tree; then the
    caller goes on with [K]. *)
Lemma add_entry_run w n (b : Z) L key name (sz : Z) fuel (fill : buf -> Z -> buf) (P : dentry -> Prop)
    (err : Z -> act world Z) (K : act world Z) :
  tree_ok env w n b L -> tw_path w = btrfs_init_path -> key_ok key -> 0 <= sz < 65536 ->
  packs_at (E := dentry) L key -> has_room env (tw_blocks w) n b (sz + sizeof_item) -> (n < fuel)%nat ->
  (forall d q, exists e, P e /\ de_name e = name /\ dentry_ok e /\ Z.of_nat (length (dentry_bytes e)) = sz /\
     read_extent_buffer (fill d q) q (length (dentry_bytes e)) = dentry_bytes e /\
     forall z, z < q \/ q + Z.of_nat (length (dentry_bytes e)) <= z -> fill d q z = d z) ->
  exists w', bind (insert_with_overflow env fuel key sz name) (fun r => match r with
      | inl e => err e
      | inr q => bind (path_block 0) (fun leaf => bind (eb_update leaf (fun d => fill d q)) (fun _ => K))
      end) w = match find_entry (E := dentry) L key name with Some _ => err (- EEXIST) w' | None => K w' end /\
    match find_entry (E := dentry) L key name with
    | Some _ => tw_blocks w' = tw_blocks w /\ tw_node w' = tw_node w
    | None => exists e L', P e /\ de_name e = name /\ dentry_ok e /\ entry_added L key e L' /\ tree_ok env w' n b L' /\
        (forall y, 0 <= y -> has_room env (tw_blocks w) n b (sz + sizeof_item + y) -> has_room env (tw_blocks w') n b y)
    end.
Proof using Hroot.
  intros Hok Hp Hkey Hsz Hpk Hroom Hfuel Hfill.
  destruct (overflow_run w n b L key name sz fuel Hok Hp Hkey Hsz Hpk Hroom Hfuel) as (r & w1 & Hrun & Hres).
  rewrite (bind_some _ _ _ _ _ Hrun). destruct (find_entry (E := dentry) L key name) as [e0|].
  - destruct Hres as (-> & Hbl & Hnd). by exists w1.
  - destruct Hres as (lb & pre & A & B & post & x & eb & Hv & -> & Hat & Hx & Hoth & Hrm).
    set (es := entries_at L key) in *.
    set (q := btrfs_item_ptr_offset (eb_data eb) (Z.of_nat (length A)) + Z.of_nat (length (packed es))) in *.
    destruct (Hfill (eb_data eb) q) as (e & HP & Hname & Hoke & Hlen & Hrd & Hout).
    destruct (entry_fill_run w1 n b lb pre A key es x B post eb (fun d => fill d q) e Hat Hv)
      as (w2 & Hw & Hat2 & Hpath & Hrm2); [change (pk_bytes e) with (dentry_bytes e); lia|exact Hrd|exact Hout|].
    exists w2. split.
    { by rewrite (bind_some _ _ _ _ _ (iv_leaf _ _ _ _ _ _ _ _ Hv)), (bind_some _ _ _ _ _ Hw). }
    exists e, (pre ++ (A ++ (key, packed (es ++ [e])) :: B) ++ post). do 3 (split; [done|]).
    split; [by apply (entry_added_middle w2 n b lb)|]. split; [by destruct Hat2|]. intros y Hy Hr. by apply Hrm2, Hrm.
Qed.

(** ** The fills *)

Lemma dir_fill location ty name :
  key_ok location -> 0 <= ty < 2 ^ 8 -> sizeof_dir_item + Z.of_nat (length name) < 65536 ->
  forall d q, exists e, dir_entry location ty name e /\ de_name e = name /\ dentry_ok e /\
    Z.of_nat (length (dentry_bytes e)) = sizeof_dir_item + Z.of_nat (length name) /\
    read_extent_buffer (fill_dir_item d q location ty name) q (length (dentry_bytes e)) = dentry_bytes e /\
    forall z, z < q \/ q + Z.of_nat (length (dentry_bytes e)) <= z -> fill_dir_item d q location ty name z = d z.
Proof using Type.
  intros Hloc Hty Hname d q. destruct (fill_dir_item_spec d q location ty name) as (t & Ht & Hrd & Hout).
  exists (Dentry location t ty name []). split; [by exists t|]. split; [done|]. split.
  { unfold dentry_ok, sizeof_dir_item in *. simpl. split_and!; done || lia. }
  split; [|by split]. rewrite dentry_bytes_length by done. simpl. lia.
Qed.

Lemma xattr_fill name data :
  sizeof_dir_item + Z.of_nat (length name) + Z.of_nat (length data) < 65536 ->
  forall d q, exists e, xattr_entry name data e /\ de_name e = name /\
    dentry_ok e /\ Z.of_nat (length (dentry_bytes e)) = sizeof_dir_item + Z.of_nat (length name) + Z.of_nat (length data) /\
    read_extent_buffer (fill_xattr_item d q name data) q (length (dentry_bytes e)) = dentry_bytes e /\
    forall z, z < q \/ q + Z.of_nat (length (dentry_bytes e)) <= z -> fill_xattr_item d q name data z = d z.
Proof using Type.
  intros Hname d q. destruct (fill_xattr_item_spec d q name data) as (t & Ht & Hrd & Hout).
  exists (Dentry (BtrfsKey 0 0 0) t BTRFS_FT_XATTR name data). split; [by exists t|]. split; [done|]. split.
  { unfold dentry_ok, sizeof_dir_item, BTRFS_FT_XATTR, key_ok in *. simpl. split_and!; done || lia. }
  split; [|by split]. by rewrite dentry_bytes_length.
Qed.

Lemma new_path_run {T} w nomem (body : act world T) a w' :
  body (with_path w btrfs_init_path) = Some (a, w') ->
  with_new_path true nomem body w = Some (a, with_path w' (tw_path w)).
Proof using Type.
  intros Hb. unfold with_new_path. cbn [negb]. rewrite (bind_some _ _ w (tw_path w) w) by done.
  rewrite (bind_some _ _ w tt (with_path w btrfs_init_path)) by done. rewrite (bind_some _ _ _ _ _ Hb).
  by rewrite (bind_some _ _ w' tt (with_path w' (tw_path w))).
Qed.

Lemma dir_key_ok dir name : 0 <= dir < 2 ^ 64 -> Forall is_byte name -> key_ok (dir_key dir name).
Proof using Type.
  clear Hroot. intros Hd Hn. pose proof (name_hash_range name Hn). unfold key_ok, dir_key, BTRFS_DIR_ITEM_KEY. simpl. lia.
Qed.
Lemma xattr_key_ok dir name : 0 <= dir < 2 ^ 64 -> Forall is_byte name -> key_ok (xattr_key dir name).
Proof using Type.
  clear Hroot. intros Hd Hn. pose proof (name_hash_range name Hn). unfold key_ok, xattr_key, BTRFS_XATTR_ITEM_KEY. simpl. lia.
Qed.
Lemma index_find L dir name (e : dentry) index L' nm :
  entry_added L (dir_key dir name) e L' ->
  find_entry (E := dentry) L' (index_key dir index) nm = find_entry L (index_key dir index) nm.
Proof using Type. intros [_ Ho]. unfold find_entry. by rewrite Ho. Qed.

Lemma insert_dir_run w n (b : Z) L (tree_root : bool) name dir location ty index fuel :
  tree_ok env w n b L -> (n < fuel)%nat ->
  0 <= dir < 2 ^ 64 -> 0 <= index < 2 ^ 64 -> key_ok location -> 0 <= ty < 2 ^ 8 ->
  Forall is_byte name -> sizeof_dir_item + Z.of_nat (length name) < 65536 ->
  packs_at (E := dentry) L (dir_key dir name) -> packs_at (E := dentry) L (index_key dir index) ->
  has_room env (tw_blocks w) n b
     ((if tree_root then 1 else 2) * (sizeof_dir_item + Z.of_nat (length name) + sizeof_item)) ->
  exists r w', btrfs_insert_dir_item env true fuel tree_root name dir location ty index w = Some (r, w') /\
    tw_path w' = tw_path w /\
    match find_entry (E := dentry) L (dir_key dir name) name with
    | Some _ => r = - EEXIST /\ tw_blocks w' = tw_blocks w
    | None => exists e L1, dir_entry location ty name e /\ entry_added L (dir_key dir name) e L1 /\
        if tree_root then r = 0 /\ tree_ok env w' n b L1
        else match find_entry (E := dentry) L (index_key dir index) name with
        | Some _ => r = - EEXIST /\ tree_ok env w' n b L1
        | None => r = 0 /\ exists e2 L2, dir_entry location ty name e2 /\ tree_ok env w' n b L2 /\
            entry_added L1 (index_key dir index) e2 L2
        end
    end.
Proof using Hroot.
  intros Hok Hfuel Hdir Hindex Hloc Hty Hname Hlen Hpk Hpk2 Hroom.
  pose proof (dir_fill location ty name Hloc Hty Hlen) as Hfill.
  assert (Hpos : 0 <= sizeof_dir_item + Z.of_nat (length name) < 65536) by (unfold sizeof_dir_item in *; lia).
  remember (sizeof_dir_item + Z.of_nat (length name)) as sz eqn:Esz.
  assert (Hsz : u32 sz = sz) by (apply u32_id; lia).
  set (w0 := with_path w btrfs_init_path).
  pose proof (tree_ok_path w btrfs_init_path n b L Hok) as Hok0. fold w0 in Hok0.
  pose proof (dir_key_ok dir name Hdir Hname) as Hk1.
  set (fill := fun d q => fill_dir_item d q location ty name) in *.
  set (K := bind btrfs_release_path (fun _ => bind (insert_with_overflow env fuel (index_key dir index) sz name)
    (fun r => match r with
       | inl e => ret e
       | inr q => bind (path_block 0) (fun leaf => bind (eb_update leaf (fun d => fill d q)) (fun _ => ret 0))
       end)) : act (tree_world X) Z).
  destruct (add_entry_run w0 n b L (dir_key dir name) name sz fuel fill (dir_entry location ty name) ret
    (if tree_root then ret 0 else K) Hok0 eq_refl Hk1 Hpos Hpk) as (w1 & Hrun1 & Hres1); [|done|exact Hfill|].
  { apply (room_less _ n b _ _ Hroom). unfold sizeof_item. destruct tree_root; lia. }
  assert (Hbody : forall r w', (match find_entry (E := dentry) L (dir_key dir name) name with
      | Some _ => ret (- EEXIST) w1 | None => (if tree_root then ret 0 else K) w1 end) = Some (r, w') ->
    btrfs_insert_dir_item env true fuel tree_root name dir location ty index w = Some (r, with_path w' (tw_path w))).
  { intros r w' Hr. apply new_path_run. fold w0. rewrite <- Esz, Hsz. etransitivity; [|exact Hr].
    etransitivity; [|exact Hrun1]. by destruct tree_root. }
  destruct (find_entry (E := dentry) L (dir_key dir name) name) as [e0|] eqn:Hf1.
  { destruct Hres1 as [Hbl _]. exists (- EEXIST), (with_path w1 (tw_path w)). split; [by apply Hbody|by split]. }
  destruct Hres1 as (e & L1 & He & _ & _ & Hadd & Hok1 & Hrm).
  destruct tree_root.
  { exists 0, (with_path w1 (tw_path w)). split; [by apply Hbody|]. split; [done|]. exists e, L1. split; [done|]. split; [done|].
    split; [done|]. by apply tree_ok_path. }
  set (w2 := with_path w1 btrfs_init_path).
  assert (Hk2 : key_ok (index_key dir index)) by (unfold key_ok, index_key, BTRFS_DIR_INDEX_KEY; simpl; lia).
  destruct (add_entry_run w2 n b L1 (index_key dir index) name sz fuel fill (dir_entry location ty name) ret (ret 0)
    (tree_ok_path w1 btrfs_init_path n b L1 Hok1) eq_refl Hk2 Hpos) as (w3 & Hrun2 & Hres2); [| |done|exact Hfill|].
  { intros d Hd. apply Hpk2. rewrite <- Hd. symmetry. by apply (ea_other _ _ _ _ Hadd). }
  { apply Hrm; [unfold sizeof_item; lia|]. apply (room_less _ n b _ _ Hroom). unfold sizeof_item. lia. }
  rewrite (index_find L dir name e index L1 name Hadd) in Hrun2, Hres2.
  assert (HK : K w1 = match find_entry (E := dentry) L (index_key dir index) name with
      | Some _ => ret (- EEXIST) w3 | None => ret 0 w3 end).
  { unfold K. by rewrite (bind_some _ _ w1 tt w2) by done. }
  destruct (find_entry (E := dentry) L (index_key dir index) name) as [e0|] eqn:Hf2.
  - exists (- EEXIST), (with_path w3 (tw_path w)). split; [by apply Hbody|]. split; [done|]. exists e, L1.
    split; [done|]. split; [done|]. split; [done|]. destruct Hres2 as [Hbl Hnd]. apply tree_ok_path. by apply (tree_ok_blocks w1).
  - destruct Hres2 as (e2 & L2 & He2 & _ & _ & Hadd2 & Hok2 & _).
    exists 0, (with_path w3 (tw_path w)). split; [by apply Hbody|]. split; [done|]. exists e, L1.
    split; [done|]. split; [done|]. split; [done|]. exists e2, L2. split; [done|]. split; [by apply tree_ok_path|done].
Qed.

Lemma dir_entry_ok location ty name e :
  key_ok location -> 0 <= ty < 2 ^ 8 -> sizeof_dir_item + Z.of_nat (length name) < 65536 ->
  dir_entry location ty name e -> dentry_ok e /\ de_name e = name.
Proof using Type.
  intros Hk Hty Hl (t & Ht & ->). split; [|done]. unfold dentry_ok, sizeof_dir_item in *. simpl. split_and!; done || lia.
Qed.

(** The directory as a map, after the insertion of a name. *)
Lemma dir_map_update L dir name (e : dentry) index (e2 : dentry) L1 L2 dir' nm :
  packs_at (E := dentry) L (dir_key dir name) -> dentry_ok e -> de_name e = name ->
  find_entry (E := dentry) L (dir_key dir name) name = None -> entry_added L (dir_key dir name) e L1 ->
  (L2 = L1 \/ entry_added L1 (index_key dir index) e2 L2) -> packs_at (E := dentry) L (dir_key dir' nm) ->
  packs_at (E := dentry) L2 (dir_key dir' nm) /\
  find_entry (E := dentry) L2 (dir_key dir' nm) nm =
    if decide (dir' = dir /\ nm = name) then Some e else find_entry L (dir_key dir' nm) nm.
Proof using Type.
  clear Hroot. intros Hpk Hoke Hname Hf Hadd HL2 Hpk'.
  assert (Hitem : item_at L2 (dir_key dir' nm) = item_at L1 (dir_key dir' nm)).
  { destruct HL2 as [->|[_ Ho]]; [done|by apply Ho]. }
  assert (Hp1 : packs_at (E := dentry) L1 (dir_key dir' nm)).
  { destruct (decide (dir_key dir' nm = dir_key dir name)) as [->|Hne].
    - apply (added_packs L _ e L1); [done|done|change (pk_name e) with (de_name e); by rewrite Hname|done].
    - intros d Hd. apply Hpk'. rewrite <- Hd. symmetry. by apply (ea_other _ _ _ _ Hadd). }
  split; [intros d Hd; apply Hp1; by rewrite <- Hitem|].
  transitivity (find_entry (E := dentry) L1 (dir_key dir' nm) nm); [unfold find_entry; by rewrite Hitem|].
  rewrite (added_find L (dir_key dir name) e L1); [|done|done|change (pk_name e) with (de_name e); by rewrite Hname|done].
  change (pk_name e) with (de_name e). rewrite Hname. destruct (decide (dir' = dir /\ nm = name)) as [[-> ->]|Hne].
  - by rewrite decide_True.
  - rewrite decide_False; [done|]. intros [Hk ->]. apply Hne. split; [exact (f_equal objectid Hk)|done].
Qed.

(** ** Looking up *)

Lemma looked_up_view w n (b : Z) L key r p (lb : Z) e pre A k d B post :
  looked_up env w n b L key r p lb e pre (A ++ (k, d) :: B) post -> p_slots p 0 = Z.of_nat (length A) ->
  item_view env (with_path w p) lb A k d B e.
Proof using Hroot.
  intros [HL Hp Hlf Htop He Hr _ _ _ _] Hs.
  destruct (on_path_leaf env _ _ _ _ _ _ _ Hp) as (lb' & Hlb' & (e' & He' & Hlen & Hlev & _) & _).
  rewrite Hlf in Hlb'. injection Hlb' as <-. rewrite He in He'. injection He' as <-.
  destruct (repr_item_fields root Hroot _ _ _ _ _ Hr) as (Hk & _ & Hsz & _). split; try done.
  - by apply path_block_run.
  - rewrite path_slot_run by done. simpl. by rewrite Hs.
  - by apply eb_read_run.
  - by apply (repr_item_data root Hroot _ _ k d B).
Qed.

Lemma entry_at_place b (es : list dentry) name p q e :
  read_extent_buffer b p (length (packed es)) = packed es -> Forall dentry_ok es ->
  place_of name es p = Some q -> find_name name es = Some e -> dentry_at b q e.
Proof using Type.
  clear Hroot. intros Hr Hok Hq He. destruct (place_of_split name es p q Hq) as (es1 & e' & es2 & -> & _ & He' & ->).
  rewrite He in He'. injection He' as <-. rewrite packed_app, packed_cons in Hr.
  apply read_split in Hr as [_ Hr]. apply read_split in Hr as [Hr _].
  apply (dentry_at_bytes _ _ _ (length (dentry_bytes e))); [|exact Hr]. by apply Forall_app in Hok as [_ [? _]%Forall_cons].
Qed.

Lemma lookup_dir_run w n (b : Z) L dir name mod_ fuel :
  tw_node w = Some b -> subtree root (tw_blocks w) n b L -> sorted_keys (L.*1) -> (n < 7)%nat -> (n < fuel)%nat ->
  tw_path w = btrfs_init_path -> 0 <= mod_ ->
  no_copy env (tw_blocks w) (tree_blocks (tw_blocks w) n b) (negb (mod_ =? 0)) ->
  packs_at (E := dentry) L (dir_key dir name) ->
  exists res w', btrfs_lookup_dir_item env fuel dir name mod_ w = Some (inr res, w') /\ tw_blocks w' = tw_blocks w /\
    match find_entry (E := dentry) L (dir_key dir name) name with
    | None => res = None
    | Some e => exists p (lb : Z) eb, res = Some p /\ p_nodes (tw_path w') 0 = Some lb /\
        tw_blocks w' !! lb = Some eb /\ dentry_at (eb_data eb) p e
    end.
Proof using Hroot.
  intros Hb Ht Hs Hn Hfuel Hp Hm Hc Hpk. set (key := dir_key dir name).
  destruct (lookup_run env Hroot w n b L key (negb (mod_ =? 0)) fuel Hb Ht Hs Hn Hfuel Hp Hc)
    as (r & p & lb & e & pre & l & post & Hrun & Hlu).
  unfold btrfs_lookup_dir_item. rewrite (proj2 (Z.ltb_ge mod_ 0)) by lia.
  change (BtrfsKey dir BTRFS_DIR_ITEM_KEY (btrfs_name_hash name)) with key. rewrite (bind_some _ _ _ _ _ Hrun).
  set (w1 := with_path w p) in *.
  destruct (looked_up_cases env w n b L key r p lb e pre l post Hlu Hs)
    as [(-> & A & d & B & -> & Hslot & Hd)|(-> & Hnone & A & B & -> & Hslot & HA & HB)].
  - pose proof (looked_up_view _ _ _ _ _ _ _ _ _ _ _ _ _ _ _ Hlu Hslot) as Hv. fold w1 in Hv.
    pose proof (Hpk d Hd) as Hpks. destruct (entry_lookup L key d _ name Hd Hpks) as [Hfe _]. destruct Hpks as [Hbytes Hes _].
    pose proof Hv as [V1 V2 V0 V3 _ _ _ V5 _ V6].
    change (0 <? 0) with false. cbn [andb]. cbv iota. rewrite (bind_some _ _ _ _ _ V2).
    rewrite (bind_some _ _ w1 tt w1) by done.
    rewrite (bind_some _ _ _ _ _ V1), (bind_some _ _ _ _ _ V2), (bind_some _ _ _ _ _ V3), V5, !Z.eqb_refl. cbn [negb orb].
    rewrite (bind_some _ _ _ _ _ (match_item_run w1 lb A key d B e _ name Hv Hbytes Hes)).
    eexists _, w1. split; [reflexivity|]. split; [done|]. rewrite Hfe.
    set (q := btrfs_item_ptr_offset (eb_data e) (Z.of_nat (length A))) in *.
    destruct (find_name name (entries d)) as [en|] eqn:Hen.
    + destruct (place_of name (entries d) q) as [pl|] eqn:Hpl; [|by rewrite place_of_None, Hen in Hpl].
      exists pl, lb, e. split; [done|]. split; [apply (lu_leaf _ _ _ _ _ _ _ _ _ _ _ _ _ Hlu)|]. split; [done|].
      rewrite Hbytes in V6. by apply (entry_at_place (eb_data e) (entries d) name q pl).
    + apply (place_of_None name (entries d) q) in Hen. by rewrite Hen.
  - assert (Hfe : find_entry (E := dentry) L key name = None) by (unfold find_entry; by rewrite Hnone). rewrite Hfe.
    change (1 <? 0) with false. change (0 <? 1) with true. cbv iota. cbn [andb].
    assert (Vs : path_slot 0 w1 = Some (Z.of_nat (length A), w1)) by (rewrite path_slot_run by done; by rewrite <- Hslot).
    rewrite (bind_some _ _ _ _ _ Vs). destruct A as [|[k d] A _] using rev_ind; [by eexists _, w1|].
    rewrite length_app. cbn [length]. rewrite (proj2 (Z.eqb_neq _ 0)) by lia.
    replace (Z.of_nat (length A + 1) - 1) with (Z.of_nat (length A)) by lia.
    rewrite (bind_some _ _ _ _ _ (set_path_slot_run w1 0 (Z.of_nat (length A)) eq_refl)).
    set (p2 := slot_upd p 0 (Z.of_nat (length A))). change (with_path w1 _) with (with_path w p2).
    rewrite <- (assoc_L (++)) in Hlu. simpl in Hlu. destruct Hlu as [_ Hpath Hlf Htop He Hr _ _ _ _].
    assert (V1 : path_block 0 (with_path w p2) = Some (lb, with_path w p2)) by (by apply path_block_run).
    assert (V2 : path_slot 0 (with_path w p2) = Some (Z.of_nat (length A), with_path w p2))
      by (rewrite path_slot_run by done; simpl; by rewrite upd_same).
    rewrite (bind_some _ _ _ _ _ V1), (bind_some _ _ _ _ _ V2), (bind_some _ _ _ _ _ (eb_read_run (with_path w p2) lb e He)).
    destruct (repr_item_fields root Hroot _ _ _ _ _ Hr) as (-> & _).
    assert (Hk : k <> key).
    { intros ->. rewrite fmap_app in HA. apply Forall_app in HA as [_ HA]. apply Forall_cons in HA as [HA _].
      by apply key_lt_irrefl in HA. }
    replace (_ || _) with true; [by eexists _, (with_path w p2)|]. symmetry.
    destruct k as [o t f]. unfold key, dir_key in *. cbn [objectid type offset].
    destruct (Z.eqb_spec o dir) as [->|]; [|done]. destruct (Z.eqb_spec t BTRFS_DIR_ITEM_KEY) as [->|]; [|done].
    destruct (Z.eqb_spec f (btrfs_name_hash name)) as [->|]; done.
Qed.
End Run.
