(* ===== verification/TreeDemo.v ===== *)
(** A small tree to apply the theorems to: a root with two leaves, an extent
    allocator that counts up, and a transaction to work in. *)

From stdpp Require Import sorting.
From S2P Require Import Prelude Buf CtreeFmt ItemFmt LeafOps LeafSpec NodeOps LeafProps TreeWorld TreeBalance.
From S2P Require Import TreeOps Crc DirItem TreeSpec TreeSearch TreeWalk TreeFrame TreeInsert TreeItem PackSpec.
From S2P Require Import DirSpec.

(** Addresses are handed out upwards from the state; nothing fails. *)
#[export] Instance bump_allocator : ExtentTree Z := {|
  alloc_free_block size key level hint v x := Some (inr (x, fun _ => 0), x + Z.abs size);
  free_extent b n owner offset v x := Some (0, x);
  lookup_extent_info b level v x := Some ((0, 1, 0), x);
  inc_ref d full v x := Some (0, x);
  dec_ref d full v x := Some (0, x);
  set_block_flags b level flags v x := Some (0, x);
|}.

Definition demo_env : tree_env :=
  TreeEnv small_root 5 7 7 7 7 false 0 None [] [].

(** A block of the running transaction at a level, and one of an older one. *)
Definition blank (generation level : Z) : buf :=
  btrfs_set_header_generation (btrfs_set_header_level (fun _ => 0) level) generation.

Definition demo_leaf1 : buf := put_item small_root (blank 7 0) item1.
Definition demo_leaf2 : buf := put_item small_root (put_item small_root (blank 7 0) item2) (key3, [8]).

Definition ptr1 : key_ptr := KeyPtr key1 8192 7.
Definition ptr2 : key_ptr := KeyPtr key2 12288 7.

Definition put_ptr (b : buf) (x : key_ptr) : buf :=
  match insert_ptr_node small_root (kp_generation x) b (kp_key x) (kp_blockptr x) (btrfs_header_nritems b) with
  | Some b => b
  | None => b
  end.

Definition demo_node : buf := put_ptr (put_ptr (blank 7 1) ptr1) ptr2.

Definition demo_blocks : gmap Z extent_buffer :=
  list_to_map [(4096, ExtentBuffer 4096 false demo_node); (8192, ExtentBuffer 4096 false demo_leaf1);
               (12288, ExtentBuffer 4096 false demo_leaf2)].

Definition demo_world : tree_world Z := TreeWorld demo_blocks (Some 4096) btrfs_init_path 65536.
Definition demo_items : list item := [item1] ++ [item2; (key3, [8])].

Lemma demo_leaf1_block : leaf_block small_root demo_blocks 8192 [item1].
Proof.
  eexists. split; [reflexivity|]. split; [reflexivity|]. split; [vm_compute; reflexivity|].
  split; vm_compute; congruence.
Qed.

Lemma demo_leaf2_block : leaf_block small_root demo_blocks 12288 [item2; (key3, [8])].
Proof.
  eexists. split; [reflexivity|]. split; [reflexivity|]. split; [vm_compute; reflexivity|].
  split; vm_compute; congruence.
Qed.

Lemma demo_root_block : node_block small_root demo_blocks 4096 1 [ptr1; ptr2].
Proof.
  eexists. split; [reflexivity|]. split; [vm_compute; reflexivity|].
  split; [|done]. split; vm_compute; congruence.
Qed.

Lemma demo_tree : subtree small_root demo_blocks 1 4096 demo_items.
Proof.
  exists [ptr1; ptr2], [[item1]; [item2; (key3, [8])]]. split; [apply demo_root_block|].
  split; [|done]. repeat constructor; [apply demo_leaf1_block|apply demo_leaf2_block].
Qed.

Lemma demo_sorted : sorted_keys (demo_items.*1).
Proof. repeat constructor. Qed.

Lemma demo_tree_blocks : tree_blocks demo_blocks 1 4096 = [4096; 8192; 12288].
Proof. vm_compute. reflexivity. Qed.

Lemma demo_current : no_copy demo_env demo_blocks (tree_blocks demo_blocks 1 4096) true.
Proof.
  intros _. split; [done|]. rewrite demo_tree_blocks. intros b e Hb.
  repeat (apply elem_of_cons in Hb as [->|Hb]; [intros [= <-]; vm_compute; reflexivity|]).
  by apply elem_of_nil in Hb.
Qed.

Lemma demo_tree_ok : tree_ok demo_env demo_world 1 4096 demo_items.
Proof.
  split; [done|apply demo_tree|apply demo_sorted|lia| |apply demo_current].
  change (tw_blocks demo_world) with demo_blocks. rewrite demo_tree_blocks.
  apply (bool_decide_unpack _). vm_compute. exact I.
Qed.

(** A path to the first leaf. *)
Definition demo_path : btrfs_path :=
  BtrfsPath (fun i => if i =? 0 then Some 8192 else if i =? 1 then Some 4096 else None) (fun _ => 0) 0 false.

Lemma demo_on_path : on_path small_root demo_blocks demo_path 1 4096 [] [item1] [item2; (key3, [8])].
Proof.
  split; [done|]. exists [], ptr1, [ptr2], [], [[item2; (key3, [8])]], [], [].
  split; [apply demo_root_block|]. split; [done|]. split; [constructor|].
  split; [repeat constructor; apply demo_leaf2_block|]. split; [split; [done|]; split; [apply demo_leaf1_block|done]|].
  done.
Qed.

Lemma demo_room : has_room demo_env demo_blocks 1 4096 (1 + sizeof_item).
Proof.
  unfold has_room. rewrite demo_tree_blocks. split.
  - intros a i ps Ha (e & He & _ & Hr & _). apply nr_nritems in Hr. revert Hr. generalize (Z.of_nat (length ps)).
    repeat (apply elem_of_cons in Ha as [->|Ha]; [revert He; intros [= <-] z; vm_compute; intros <-; reflexivity|]).
    by apply elem_of_nil in Ha.
  - intros a l Ha (e & He & _ & Hlev & Hr).
    assert (Hf : btrfs_leaf_free_space small_root (eb_data e) = Some (leaf_room demo_env l))
      by (by apply (repr_free_space small_root small_root_ok)).
    clear Hr. revert Hf. generalize (leaf_room demo_env l).
    apply elem_of_cons in Ha as [->|Ha]; [revert He Hlev; intros [= <-]; vm_compute; discriminate|].
    clear Hlev.
    repeat (apply elem_of_cons in Ha as [->|Ha]; [revert He; intros [= <-] z; vm_compute; intros [= <-]; discriminate|]).
    by apply elem_of_nil in Ha.
Qed.

(** The same tree with a big item in the first leaf. *)
Definition full_item : item := (BtrfsKey 256 1 1, replicate 1100 0).
Definition full_leaf : buf := put_item small_root demo_leaf1 full_item.
Definition full_world : tree_world Z :=
  with_path (with_blocks demo_world (<[8192 := ExtentBuffer 4096 false full_leaf]> demo_blocks)) demo_path.
Definition full_items : list item := ([] ++ ([] ++ [item1] ++ [full_item]) ++ [item2; (key3, [8])]).

Lemma full_on_path :
  on_path small_root (tw_blocks full_world) demo_path 1 4096 [] [item1; full_item] [item2; (key3, [8])].
Proof.
  split; [done|]. exists [], ptr1, [ptr2], [], [[item2; (key3, [8])]], [], [].
  split; [apply (node_block_frame demo_env demo_blocks); [done|apply demo_root_block]|]. split; [done|]. split; [constructor|].
  split; [repeat constructor; apply (leaf_block_frame demo_env demo_blocks); [done|apply demo_leaf2_block]|].
  split; [split; [done|]; split; [|done]|done].
  eexists. split; [reflexivity|]. split; [reflexivity|]. split; [vm_compute; reflexivity|].
  split; vm_compute; congruence.
Qed.

Lemma full_tree_blocks : tree_blocks (tw_blocks full_world) 1 4096 = [4096; 8192; 12288].
Proof. vm_compute. reflexivity. Qed.

Lemma full_tree_ok : tree_ok demo_env full_world 1 4096 full_items.
Proof.
  split; [done|apply (on_path_subtree _ _ _ _ _ _ _ _ full_on_path)|repeat constructor|lia| |].
  - rewrite full_tree_blocks. apply (bool_decide_unpack _). vm_compute. exact I.
  - intros _. split; [done|]. rewrite full_tree_blocks. intros b e Hb.
    repeat (apply elem_of_cons in Hb as [->|Hb]; [intros [= <-]; vm_compute; reflexivity|]).
    by apply elem_of_nil in Hb.
Qed.

Lemma full_at_leaf : at_leaf demo_env full_world 1 4096 8192 [] ([] ++ [item1] ++ [full_item]) [item2; (key3, [8])].
Proof. split; [apply full_on_path|done|done]. Qed.

(** ** A tree of one leaf with the entries of a directory, for the witnesses. *)

(** The directory 256 with the file "a" and an index for it. *)
Definition name_a : list Z := [97].
Definition name_b : list Z := [98].
Definition entry_a : dentry := Dentry (BtrfsKey 257 1 0) [0; 0; 0; 0; 0; 0; 0; 0] 1 name_a [].
Definition dir_items : list (btrfs_key * list Z) :=
  [(dir_key 256 name_a, packed [entry_a]); (index_key 256 2, packed [entry_a])].

Definition dir_leaf : buf :=
  put_item small_root (put_item small_root (blank 7 0) (dir_key 256 name_a, packed [entry_a]))
    (index_key 256 2, packed [entry_a]).
Definition dir_world : tree_world Z :=
  TreeWorld {[4096 := ExtentBuffer 4096 false dir_leaf]} (Some 4096) btrfs_init_path 65536.

Lemma dir_leaf_block : leaf_block small_root (tw_blocks dir_world) 4096 dir_items.
Proof.
  eexists. split; [reflexivity|]. split; [reflexivity|]. split; [vm_compute; reflexivity|].
  split; vm_compute; congruence.
Qed.

Lemma dir_tree_blocks : tree_blocks (tw_blocks dir_world) 0 4096 = [4096].
Proof. reflexivity. Qed.

Lemma dir_sorted : sorted_keys (dir_items.*1).
Proof. repeat constructor. Qed.

Lemma dir_current : no_copy demo_env (tw_blocks dir_world) (tree_blocks (tw_blocks dir_world) 0 4096) true.
Proof.
  intros _. split; [done|]. rewrite dir_tree_blocks. intros b e ->%list_elem_of_singleton.
  intros [= <-]. vm_compute. reflexivity.
Qed.

Lemma dir_tree_ok : tree_ok demo_env dir_world 0 4096 dir_items.
Proof.
  split; [done|exact dir_leaf_block|exact dir_sorted|lia| |exact dir_current].
  rewrite dir_tree_blocks. apply NoDup_singleton.
Qed.

Lemma dir_room : has_room demo_env (tw_blocks dir_world) 0 4096 1000.
Proof.
  unfold has_room. rewrite dir_tree_blocks. split.
  - intros a i ps ->%list_elem_of_singleton (e & He & Hlev & _). revert He Hlev. intros [= <-]. vm_compute. discriminate.
  - intros a l ->%list_elem_of_singleton Hl.
    rewrite (leaf_room_same demo_env small_root_ok _ 4096 l dir_items Hl dir_leaf_block). vm_compute. discriminate.
Qed.

Lemma entry_a_ok : dentry_ok entry_a.
Proof. unfold dentry_ok, key_ok. simpl. lia. Qed.

Lemma dir_packs : packs_at (E := dentry) dir_items (dir_key 256 name_a).
Proof.
  intros d Hd. apply (packs_entries d [entry_a]). split.
  - revert Hd. vm_compute. by intros [= <-].
  - constructor; [exact entry_a_ok|constructor].
  - apply NoDup_singleton.
Qed.
