(* ===== verification/InodeSpec.v ===== *)
(** Inode references as bytes, the search for a free inode number as a scan of
    the items, and the runs of the functions of [inode-item.c], [root-tree.c]
    and [inode-map.c]. *)

From stdpp Require Import sorting.
From S2P Require Import Prelude Buf CtreeFmt ItemFmt LeafOps LeafSpec NodeOps TreeWorld TreeBalance TreeOps.
From S2P Require Import DirItem InodeItem TreeSpec TreeSearch TreeWalk TreeFrame TreeInsert TreeItem PackSpec.
From S2P Require Import DirSpec.

Implicit Types (L l pre post A B : list item) (key k : btrfs_key) (b : buf) (name : list Z).

(** ** References *)

Record inode_ref := InodeRef { ir_index : Z; ir_name : list Z }.

Definition inode_ref_bytes (e : inode_ref) : list Z :=
  le_bytes 8 (ir_index e) ++ le_bytes 2 (Z.of_nat (length (ir_name e))) ++ ir_name e.
Definition inode_ref_ok (e : inode_ref) : Prop :=
  0 <= ir_index e < 2 ^ 64 /\ Z.of_nat (length (ir_name e)) < 2 ^ 16.
Definition inode_ref_parse (d : list Z) : option (inode_ref * list Z) :=
  '(i, d) ← eat 8 d;
  '(nl, d) ← eat 2 d;
  '(name, d) ← eat (Z.to_nat (le_val nl)) d;
  Some (InodeRef (le_val i) name, d).

Lemma inode_ref_bytes_length e : Z.of_nat (length (inode_ref_bytes e)) = sizeof_inode_ref + Z.of_nat (length (ir_name e)).
Proof. unfold inode_ref_bytes, sizeof_inode_ref. rewrite !length_app, !le_bytes_length. lia. Qed.

#[export] Program Instance inode_ref_packed : Packed inode_ref := {|
  pk_bytes := inode_ref_bytes;
  pk_name := ir_name;
  pk_ok := inode_ref_ok;
  pk_parse := inode_ref_parse;
|}.
Next Obligation.
  intros e r [Hi Hn]. unfold inode_ref_bytes, inode_ref_parse. rewrite <- !(assoc_L (++)).
  do 2 (rewrite eat_app by (by rewrite le_bytes_length); cbn [mbind option_bind]).
  rewrite !le_val_id by (simpl; lia). rewrite eat_app by lia. cbn [mbind option_bind]. by destruct e.
Qed.
Next Obligation. done. Qed.
Next Obligation. intros e. unfold inode_ref_bytes. rewrite length_app, le_bytes_length. lia. Qed.

Lemma inode_ref_fields b p e n :
  inode_ref_ok e -> read_extent_buffer b p n = inode_ref_bytes e ->
  btrfs_inode_ref_index b p = ir_index e /\ btrfs_inode_ref_name_len b p = Z.of_nat (length (ir_name e)) /\
  read_extent_buffer b (p + sizeof_inode_ref) (length (ir_name e)) = ir_name e.
Proof.
  intros [Hi Hn] Hr. unfold inode_ref_bytes in Hr.
  apply read_split in Hr as [H1 Hr]. apply read_split in Hr as [H2 H3]. rewrite !le_bytes_length in *.
  replace (p + Z.of_nat 8 + Z.of_nat 2) with (p + 10) in * by lia. change (Z.of_nat 8) with 8 in *.
  unfold btrfs_inode_ref_index, btrfs_inode_ref_name_len, sizeof_inode_ref. rewrite !get_le_read, H1, H2.
  split; [apply le_val_id; simpl; lia|]. split; [apply le_val_id; simpl; lia|done].
Qed.

Lemma find_name_run b p cur total name (es : list inode_ref) fuel :
  Forall inode_ref_ok es -> read_extent_buffer b (p + cur) (length (packed es)) = packed es ->
  0 <= cur -> cur + Z.of_nat (length (packed es)) = total -> total < 65536 -> (length es <= fuel)%nat ->
  find_name_loop fuel b name p cur total = Some (place_of name es (p + cur)).
Proof.
  revert cur fuel. induction es as [|e es IH]; intros cur fuel Hok Hr Hcur Htot Hlt Hf.
  - change (length (packed [])) with 0%nat in Htot. destruct fuel; cbn [find_name_loop];
      by rewrite (proj2 (Z.ltb_ge _ _)) by lia.
  - apply Forall_cons in Hok as [He Hok]. rewrite packed_cons in Hr, Htot.
    apply read_split in Hr as [Hr1 Hr2]. rewrite length_app in Htot.
    pose proof (inode_ref_bytes_length e) as Hlen. change (pk_bytes e) with (inode_ref_bytes e) in *.
    destruct (inode_ref_fields b (p + cur) e _ He Hr1) as (_ & Hn & Hname).
    destruct fuel as [|fuel]; simpl in Hf; [lia|]. cbn [find_name_loop place_of].
    unfold sizeof_inode_ref in Hlen. rewrite (proj2 (Z.ltb_lt _ _)) by lia. rewrite Hn.
    assert (Hnext : p + cur + Z.of_nat (length (pk_bytes e)) = p + u32 (cur + (Z.of_nat (length (ir_name e)) + sizeof_inode_ref))).
    { change (pk_bytes e) with (inode_ref_bytes e). unfold sizeof_inode_ref. rewrite u32_id by lia. lia. }
    assert (IHn : find_name_loop fuel b name p (u32 (cur + (Z.of_nat (length (ir_name e)) + sizeof_inode_ref))) total =
      Some (place_of name es (p + cur + Z.of_nat (length (pk_bytes e))))).
    { rewrite Hnext. apply IH; [done| | |(unfold sizeof_inode_ref; rewrite u32_id by lia; lia)|lia|lia].
      - by rewrite <- Hnext.
      - apply Z.mod_pos_bound. lia. }
    destruct (decide (pk_name e = name)) as [Hx|Hx]; simpl in Hx.
    + subst name. rewrite Z.eqb_refl. cbn [negb]. unfold memcmp_extent_buffer. by rewrite Hname, bool_decide_eq_true_2.
    + destruct (Z.eqb_spec (Z.of_nat (length (ir_name e))) (Z.of_nat (length name))) as [Hl|]; cbn [negb]; [|exact IHn].
      unfold memcmp_extent_buffer. replace (length name) with (length (ir_name e)) by lia.
      rewrite Hname, bool_decide_eq_false_2 by done. exact IHn.
Qed.

Lemma packed_refs_fuel (es : list inode_ref) :
  (length es <= S (Z.to_nat (Z.of_nat (length (packed es)) / sizeof_inode_ref)))%nat.
Proof.
  enough (sizeof_inode_ref * Z.of_nat (length es) <= Z.of_nat (length (packed es))) as Hle.
  { unfold sizeof_inode_ref in *. zlia. }
  induction es as [|e es IH]; [done|]. rewrite packed_cons, length_app.
  pose proof (inode_ref_bytes_length e) as Hlen. change (pk_bytes e) with (inode_ref_bytes e). cbn [length]. lia.
Qed.

Lemma fill_inode_ref_spec b q index name :
  let e := InodeRef index name in
  read_extent_buffer (fill_inode_ref b q index name) q (length (inode_ref_bytes e)) = inode_ref_bytes e /\
  forall z, z < q \/ q + Z.of_nat (length (inode_ref_bytes e)) <= z -> fill_inode_ref b q index name z = b z.
Proof.
  intros e. pose proof (inode_ref_bytes_length e) as Hlen. change (ir_name e) with name in Hlen.
  unfold sizeof_inode_ref in Hlen. split.
  - replace (length (inode_ref_bytes e)) with (8 + (2 + length name))%nat by lia. rewrite !read_app.
    change (Z.of_nat 8) with 8. change (Z.of_nat 2) with 2. replace (q + 8 + 2) with (q + 10) by lia.
    unfold inode_ref_bytes, e, fill_inode_ref, btrfs_set_inode_ref_index, btrfs_set_inode_ref_name_len, sizeof_inode_ref.
    repeat apply (f_equal2 app); cbn [ir_index ir_name]; read_field.
  - intros z Hz. rewrite Hlen in Hz. clear Hlen. clearbody e.
    unfold fill_inode_ref, btrfs_set_inode_ref_index, btrfs_set_inode_ref_name_len, sizeof_inode_ref. field_outside.
Qed.

(** ** The item before a key *)

#[export] Instance key_lt_dec k1 k2 : Decision (key_lt k1 k2).
Proof. unfold key_lt. apply _. Defined.

Definition item_before L key : option item := last (filter (fun x => key_lt (fst x) key) L).

Lemma filter_all_lt L key : Forall (fun k => key_lt k key) (L.*1) -> filter (fun x => key_lt (fst x) key) L = L.
Proof.
  induction L as [|[k d] L IH]; [done|]. rewrite fmap_cons. intros [Hk Hall]%Forall_cons.
  rewrite filter_cons_True by done. by rewrite IH.
Qed.

Lemma filter_none_lt L key : Forall (fun k => key_lt key k) (L.*1) -> filter (fun x => key_lt (fst x) key) L = [].
Proof.
  induction L as [|[k d] L IH]; [done|]. rewrite fmap_cons. intros [Hk Hall]%Forall_cons.
  rewrite filter_cons_False; [by apply IH|]. simpl in *. intros Hlt. by apply (key_lt_irrefl k), (key_lt_trans _ key).
Qed.

(** ** Scanning for a free number *)

(** What the loop of [btrfs_find_free_objectid] makes of the items it walks
    over. *)
Fixpoint free_scan (start : Z) (start_found : bool) (last_ino : Z) L : Z :=
  match L with
  | [] => if negb start_found then start else if start <? last_ino then last_ino else start
  | (k, _) :: L =>
      let id := objectid k in
      let last_ino := if (start <=? id) && start_found && (last_ino <? start) then start else last_ino in
      if (start <=? id) && start_found && (last_ino <? id) then last_ino
      else free_scan start true (u64 (id + 1)) L
  end.

Lemma sorted_objectids k d L : sorted_keys (((k, d) :: L).*1) -> Forall (fun k' => objectid k <= objectid k') (L.*1).
Proof.
  intros Hs. apply StronglySorted_cons in Hs as [Hall _]. eapply Forall_impl; [exact Hall|].
  intros k' Hlt. simpl in Hlt. unfold key_lt, btrfs_comp_keys in Hlt. revert Hlt. zbool; lia.
Qed.

(** Nothing before the walk is [last_ino] or more; the result is free. *)
Lemma free_scan_free start last L :
  sorted_keys (L.*1) -> Forall (fun k => last - 1 <= objectid k < 2 ^ 64 - 1) (L.*1) ->
  0 <= last -> let r := free_scan start true last L in
  Z.max last start <= r /\ r ∉ objectid <$> L.*1.
Proof.
  revert last. induction L as [|[k d] L IH]; intros last Hs Hall Hlast; cbn [free_scan].
  - cbn [negb]. split; [destruct (Z.ltb_spec start last); lia|apply not_elem_of_nil].
  - pose proof (sorted_objectids k d L Hs) as Hle. rewrite fmap_cons in Hs, Hall |- *. cbn [fst] in *.
    apply StronglySorted_cons in Hs as [_ Hs]. apply Forall_cons in Hall as [Hk Hall].
    set (id := objectid k) in *.
    set (last' := if (start <=? id) && true && (last <? start) then start else last).
    assert (Hl' : last' = if (start <=? id) && (last <? start) then start else last).
    { unfold last'. by destruct (start <=? id). }
    rewrite andb_true_r. clearbody last'.
    assert (Hnext : Z.max (id + 1) start <= free_scan start true (u64 (id + 1)) L /\
      free_scan start true (u64 (id + 1)) L ∉ objectid <$> L.*1).
    { rewrite u64_id by lia. apply IH; [done| |lia]. apply Forall_forall. intros x Hx.
      pose proof (proj1 (Forall_forall _ _) Hle x Hx) as H1. pose proof (proj1 (Forall_forall _ _) Hall x Hx) as H2.
      simpl in H1, H2. lia. }
    rewrite fmap_cons, not_elem_of_cons. fold id. cbv zeta.
    destruct (Z.leb_spec start id) as [H1|H1]; cbn [andb] in Hl' |- *.
    + destruct (Z.ltb_spec last' id) as [H2|H2].
      * split; [revert Hl'; destruct (Z.ltb_spec last start); lia|]. split; [lia|].
        rewrite list_elem_of_fmap. intros (x & Hx & Hin). pose proof (proj1 (Forall_forall _ _) Hle x Hin) as H3.
        simpl in H3. subst last'. fold id in H3. lia.
      * split; [|split; [lia|tauto]]. lia.
    + split; [lia|]. split; [lia|tauto].
Qed.

Section Run.
Context {X : Type} `{ExtentTree X} (env : tree_env).
Context (Hroot : root_ok (te_root env)).

Abbreviation world := (tree_world X).
Abbreviation root := (te_root env).
Implicit Types (w : world) (m : gmap Z extent_buffer).

(** The loop walks over the items from the slot of the path on. *)
Lemma find_free_run start n (b : Z) L : (n < 8)%nat ->
  forall fuel w pre A B post sf last, L = pre ++ (A ++ B) ++ post ->
  on_path root (tw_blocks w) (tw_path w) n b pre (A ++ B) post -> p_nodes (tw_path w) (Z.of_nat n + 1) = None ->
  p_slots (tw_path w) 0 = Z.of_nat (length A) -> (2 * length (B ++ post) + match B with [] => 2 | _ => 1 end <= fuel)%nat ->
  exists p, find_free_loop fuel start sf last w = Some (inr (free_scan start sf last (B ++ post)), with_path w p).
Proof using Hroot.
  intros Hn. induction fuel as [|fuel IH]; intros w pre A B post sf last HL Hp Htop Hslot Hfuel; [destruct B; lia|].
  cbn [find_free_loop]. destruct (on_path_leaf env _ _ _ _ _ _ _ Hp) as (lb & Hlb & (e & He & _ & _ & Hr) & _).
  rewrite (bind_some _ _ _ _ _ (path_block_run w 0 lb eq_refl Hlb)).
  rewrite (bind_some _ _ _ _ _ (path_slot_run w 0 eq_refl)), Hslot.
  rewrite (bind_some _ _ _ _ _ (eb_read_run w lb e He)), (lr_nritems _ _ _ Hr), length_app.
  destruct B as [|[k d] B].
  - rewrite (proj2 (Z.leb_le _ _)) by (simpl; lia). rewrite app_nil_r in *. cbn [app].
    destruct (next_leaf_run env Hroot w n b pre A post Hn Hp Htop) as [H1 H2].
    destruct (decide (post = [])) as [->|Hne].
    + rewrite (bind_some _ _ _ _ _ (H1 eq_refl)). change (1 =? 0) with false. change (1 <? 0) with false. cbv iota.
      exists (tw_path w). cbn [free_scan]. replace (with_path w (tw_path w)) with w by (by destruct w).
      by destruct sf.
    + destruct (H2 Hne) as (p' & l2 & post2 & -> & Hl2 & Hrun & Hp2 & Hs2 & Hsame).
      rewrite (bind_some _ _ _ _ _ Hrun). change (0 =? 0) with true. cbv iota.
      destruct (IH (with_path w p') (pre ++ A) [] l2 post2 sf last) as (p2 & Hrest).
      * rewrite HL. cbn [app]. by rewrite <- !(assoc_L (++)).
      * done.
      * destruct (Hsame (Z.of_nat n + 1) ltac:(lia)) as [Heq _]. simpl. by rewrite Heq.
      * done.
      * cbn [app] in Hfuel. destruct l2; [done|]. simpl in Hfuel |- *. lia.
      * exists p2. by rewrite Hrest.
  - rewrite (proj2 (Z.leb_gt _ _)) by (simpl; lia).
    destruct (repr_item_fields root Hroot _ _ _ _ _ Hr) as (-> & _). cbn [app free_scan].
    set (last' := if (start <=? objectid k) && sf && (last <? start) then start else last).
    destruct ((start <=? objectid k) && sf && (last' <? objectid k)).
    { exists (tw_path w). replace (with_path w (tw_path w)) with w by (by destruct w). done. }
    rewrite (bind_some _ _ _ _ _ (set_path_slot_run w 0 _ eq_refl)).
    set (p1 := slot_upd (tw_path w) 0 (Z.of_nat (length A) + 1)).
    destruct (IH (with_path w p1) pre (A ++ [(k, d)]) B post true (u64 (objectid k + 1))) as (p2 & Hrest).
    + rewrite HL. by rewrite <- !(assoc_L (++)).
    + rewrite <- (assoc_L (++)). apply (on_path_below env _ (tw_path w)); [done|]. intros i Hi. split; [done|].
      intros Hi0. simpl. by rewrite upd_other.
    + done.
    + simpl. rewrite upd_same, length_app. simpl. lia.
    + simpl in Hfuel |- *. destruct B; simpl in *; lia.
    + exists p2. by rewrite Hrest.
Qed.
(** ** References *)

Lemma backref_run w (lb : Z) A k d B e (es : list inode_ref) name :
  item_view env w lb A k d B e -> d = packed es -> Forall inode_ref_ok es ->
  find_name_in_backref name w =
    Some (place_of name es (btrfs_item_ptr_offset (eb_data e) (Z.of_nat (length A))), w).
Proof using Hroot.
  intros Hv Hd Hok. pose proof (data_len_bounds env Hroot _ _ _ _ _ _ _ Hv) as Hlen. destruct Hv. unfold find_name_in_backref.
  rewrite (bind_some _ _ _ _ _ iv_leaf), (bind_some _ _ _ _ _ iv_slot), (bind_some _ _ _ _ _ iv_read), iv_size.
  subst d. set (p := btrfs_item_ptr_offset _ _) in *. rewrite <- (Z.add_0_r p) in iv_data.
  unfold lift. rewrite (find_name_run _ _ 0 _ name es) by (done || lia || apply packed_refs_fuel). by rewrite Z.add_0_r.
Qed.

(** Filling in a reference behind the others. *)
Lemma ref_fill_run w n (b lb : Z) L pre A key (es : list inode_ref) x B post index name e f :
  at_item env w n b lb pre A key (packed es ++ x) B post -> item_view env w lb A key (packed es ++ x) B e ->
  Z.of_nat (length x) = sizeof_inode_ref + Z.of_nat (length name) -> es = entries_at L key ->
  (forall d k, k <> key -> item_at (pre ++ (A ++ (key, d) :: B) ++ post) k = item_at L k) ->
  f (eb_data e) = fill_inode_ref (eb_data e)
    (btrfs_item_ptr_offset (eb_data e) (Z.of_nat (length A)) + Z.of_nat (length (packed es))) index name ->
  exists w' L', eb_update lb f w = Some (tt, w') /\ tree_ok env w' n b L' /\ entry_added L key (InodeRef index name) L'.
Proof using Hroot.
  intros Hat Hv Hx Hes Hoth Hf. set (q := _ + Z.of_nat (length (packed es))) in Hf.
  destruct (fill_inode_ref_spec (eb_data e) q index name) as [Hrd Hout]. rewrite <- Hf in Hrd, Hout.
  destruct (entry_fill_run env Hroot w n b lb pre A key es x B post e f (InodeRef index name) Hat Hv) as (w' & Hw & Hat' & _ & _).
  - change (pk_bytes (InodeRef index name)) with (inode_ref_bytes (InodeRef index name)).
    pose proof (inode_ref_bytes_length (InodeRef index name)) as Hl. change (ir_name (InodeRef index name)) with name in Hl. lia.
  - exact Hrd.
  - exact Hout.
  - exists w', (pre ++ (A ++ (key, packed (es ++ [InodeRef index name])) :: B) ++ post). split; [done|].
    split; [by destruct Hat'|]. by apply (entry_added_middle env w' n b lb).
Qed.

Lemma insert_ref_run w n (b : Z) L name ino parent index fuel :
  tree_ok env w n b L -> tw_path w = btrfs_init_path -> (n < fuel)%nat -> 0 <= ino < 2 ^ 64 -> 0 <= parent < 2 ^ 64 ->
  sizeof_inode_ref + Z.of_nat (length name) < 65536 ->
  let key := BtrfsKey ino BTRFS_INODE_REF_KEY parent in
  packs_at (E := inode_ref) L key ->
  has_room env (tw_blocks w) n b (sizeof_inode_ref + Z.of_nat (length name) + sizeof_item) ->
  exists r w', btrfs_insert_inode_ref env true fuel name ino parent index w = Some (r, w') /\ tw_path w' = tw_path w /\
    match find_entry (E := inode_ref) L key name with
    | Some _ => r = - EEXIST /\ tw_blocks w' = tw_blocks w
    | None => r = 0 /\ exists L', tree_ok env w' n b L' /\ entry_added L key (InodeRef index name) L'
    end.
Proof using Hroot.
  intros Hok Hp Hfuel Hino Hpar Hlen key Hpk Hroom.
  remember (sizeof_inode_ref + Z.of_nat (length name)) as sz eqn:Esz.
  assert (Hsz : 0 <= sz < 65536) by (unfold sizeof_inode_ref in *; lia).
  assert (Hins : u32 (s32 (Z.of_nat (length name) + sizeof_inode_ref)) = sz).
  { replace (Z.of_nat (length name) + sizeof_inode_ref) with sz by lia. by rewrite s32_id, u32_id by lia. }
  assert (Hkey : key_ok key) by (unfold key_ok, key, BTRFS_INODE_REF_KEY; simpl; lia).
  assert (Hbody : forall r w', bind (btrfs_insert_empty_items env fuel [(key, sz)]) (fun r =>
      if r =? - EEXIST then bind (find_name_in_backref name) (fun found => match found with
          | Some _ => ret r
          | None => bind (path_block 0) (fun leaf => bind (path_slot 0) (fun slot => bind (eb_read leaf) (fun d =>
              bind (btrfs_extend_item env sz) (fun r => bind (bug_on (negb (r =? 0))) (fun _ =>
              bind (eb_update leaf (fun d' => fill_inode_ref d' (btrfs_item_ptr_offset d' slot + btrfs_item_size_nr d slot) index name))
                (fun _ => ret 0))))))
          end)
      else if r <? 0 then ret r
      else bind (path_block 0) (fun leaf => bind (path_slot 0) (fun slot =>
        bind (eb_update leaf (fun d => fill_inode_ref d (btrfs_item_ptr_offset d slot) index name)) (fun _ => ret r))))
      (with_path w btrfs_init_path) = Some (r, w') ->
    btrfs_insert_inode_ref env true fuel name ino parent index w = Some (r, with_path w' (tw_path w))).
  { intros r w' Hr. apply new_path_run. rewrite Hins. exact Hr. }
  destruct (insert_or_find env Hroot _ n b L key sz fuel (tree_ok_path env w btrfs_init_path n b L Hok) eq_refl Hkey Hsz Hroom Hfuel)
    as (r & w1 & lb & pre & A & d & B & post & Hrun & Hat & Hlb & Hres).
  destruct (at_item_view env Hroot _ _ _ _ _ _ _ _ _ _ Hat) as (e1 & Hv1). pose proof Hv1 as [V1 V2 _ V3 _ _ _ _ V4 _].
  destruct (item_at L key) as [d0|] eqn:Hd0.
  - destruct Hres as (-> & Hbl & -> & HL). pose proof (Hpk d0 Hd0) as Hpks.
    assert (Hfe : find_entry (E := inode_ref) L key name = find_name name (entries d0)) by (unfold find_entry; by rewrite Hd0).
    assert (Hea : entries (E := inode_ref) d0 = entries_at L key) by (unfold entries_at; by rewrite Hd0).
    destruct Hpks as [Hbytes Hes _]. rewrite Hfe. set (es := entries (E := inode_ref) d0) in *.
    pose proof (backref_run w1 lb A key d0 B e1 es name Hv1 Hbytes Hes) as Hfind.
    set (q := btrfs_item_ptr_offset (eb_data e1) _) in Hfind.
    destruct (find_name name es) as [en|] eqn:Hn.
    { destruct (place_of name es q) as [p|] eqn:Hpl; [|by rewrite place_of_None, Hn in Hpl].
      exists (- EEXIST), (with_path w1 (tw_path w)). split; [|by split]. apply Hbody.
      by rewrite (bind_some _ _ _ _ _ Hrun), Z.eqb_refl, (bind_some _ _ _ _ _ Hfind). }
    rewrite (proj2 (place_of_None name es q) Hn) in Hfind.
    assert (Hlf : leaf_block root (tw_blocks w) lb (A ++ (key, d0) :: B))
      by (change (tw_blocks w) with (tw_blocks (with_path w btrfs_init_path)); rewrite <- Hbl; by eapply view_leaf_block).
    pose proof (proj2 Hroom lb _ Hlb Hlf) as Hlroom.
    destruct (extend_run env Hroot w1 n b lb pre A key d0 B post sz Hat) as (w2 & x & Hext & Hx & Hat2 & Hp2 & Hlw);
      [unfold sizeof_item in Hlroom; lia|]. rewrite Esz in Hx.
    destruct (at_item_view env Hroot _ _ _ _ _ _ _ _ _ _ Hat2) as (e2 & Hv2). rewrite Hbytes in Hat2, Hv2.
    destruct (ref_fill_run w2 n b lb L pre A key es x B post index name e2
      (fun d' => fill_inode_ref d' (btrfs_item_ptr_offset d' (Z.of_nat (length A)) + btrfs_item_size_nr (eb_data e1) (Z.of_nat (length A)))
         index name) Hat2 Hv2 Hx Hea) as (w3 & L' & Hw & Hok3 & Hadd).
    + intros d k Hk. rewrite HL, !others_middle by done. done.
    + by rewrite V4, <- Hbytes.
    + exists 0, (with_path w3 (tw_path w)). split; [|split; [done|split; [done|exists L'; split; [by apply tree_ok_path|done]]]].
      apply Hbody. rewrite (bind_some _ _ _ _ _ Hrun), Z.eqb_refl, (bind_some _ _ _ _ _ Hfind).
      rewrite (bind_some _ _ _ _ _ V1), (bind_some _ _ _ _ _ V2), (bind_some _ _ _ _ _ V3), (bind_some _ _ _ _ _ Hext).
      rewrite (bind_some _ _ w2 tt w2) by done. by rewrite (bind_some _ _ _ _ _ Hw).
  - destruct Hres as (-> & Hd & HL & Hlw & Hlf). rewrite Esz in Hd.
    assert (Hfe : find_entry (E := inode_ref) L key name = None) by (unfold find_entry; by rewrite Hd0). rewrite Hfe.
    destruct (ref_fill_run w1 n b lb L pre A key [] d B post index name e1
      (fun d' => fill_inode_ref d' (btrfs_item_ptr_offset d' (Z.of_nat (length A))) index name) Hat Hv1 Hd) as (w2 & L' & Hw & Hok2 & Hadd).
    + unfold entries_at. by rewrite Hd0.
    + intros d' k Hk. by rewrite HL, others_middle.
    + change (Z.of_nat (length (packed []))) with 0. by rewrite Z.add_0_r.
    + exists 0, (with_path w2 (tw_path w)). split; [|split; [done|split; [done|exists L'; split; [by apply tree_ok_path|done]]]].
      apply Hbody. rewrite (bind_some _ _ _ _ _ Hrun). change (0 =? - EEXIST) with false. change (0 <? 0) with false. cbv iota.
      rewrite (bind_some _ _ _ _ _ V1), (bind_some _ _ _ _ _ V2). by rewrite (bind_some _ _ _ _ _ Hw).
Qed.
(** ** Roots and inodes *)

(** A search that does not find its key ends behind the item before it. *)
Lemma looked_up_before w n (b : Z) L key p (lb : Z) e pre A B post :
  looked_up env w n b L key 1 p lb e pre (A ++ B) post ->
  Forall (fun k => key_lt k key) (A.*1) -> Forall (fun k => key_lt key k) (B.*1) ->
  item_before L key = last A /\ (A = [] -> pre = []).
Proof using Type.
  intros [HL _ _ _ _ _ _ H1 H2 Hlow] HA HB.
  assert (Hpre : A = [] -> pre = []).
  { intros ->. destruct Hlow as [?|(k & Hk & Hn)]; [done|]. exfalso. destruct B as [|[k' d] B]; [done|].
    cbn [app fmap list_fmap head fst] in Hk. injection Hk as ->. rewrite fmap_cons in HB. apply Forall_cons in HB as [HB _].
    by apply Hn. }
  split; [|done]. unfold item_before. rewrite HL, !filter_app, (filter_all_lt pre), (filter_all_lt A), (filter_none_lt B),
    (filter_none_lt post), !app_nil_r by done.
  destruct A as [|x A _] using rev_ind; [by rewrite Hpre|]. by rewrite (assoc_L (++)), !last_snoc.
Qed.

Lemma find_last_root_run w n (b : Z) L id fuel :
  tree_ok env w n b L -> (n < fuel)%nat -> BtrfsKey id BTRFS_ROOT_ITEM_KEY U64_MAX ∉ L.*1 ->
  exists res w', btrfs_find_last_root env true fuel id w = Some (res, w') /\ w' = w /\
    match item_before L (BtrfsKey id BTRFS_ROOT_ITEM_KEY U64_MAX) with
    | Some (k, d) =>
        if decide (objectid k = id)
        then exists item, res = (0, Some (k, item)) /\ Z.of_nat (length item) = sizeof_root_item /\
          take (length d) item = take (length item) d
        else res = (- ENOENT, None)
    | None => res = (- ENOENT, None)
    end.
Proof using Hroot.
  intros [Hb Ht Hs Hn _ _] Hfuel Hnot. set (key := BtrfsKey id BTRFS_ROOT_ITEM_KEY U64_MAX) in *.
  destruct (lookup_run env Hroot (with_path w btrfs_init_path) n b L key false fuel Hb Ht Hs Hn Hfuel eq_refl) as
    (r & p & lb & e & pre & l & post & Hrun & Hlu); [done|]. rewrite with_path_twice in Hrun.
  set (w1 := with_path w p) in *.
  enough (Hbody : exists res,
    bind (btrfs_search_slot env fuel key 0 false) (fun r =>
      if r <? 0 then ret (r, None)
      else bind (path_slot 0) (fun slot =>
        if slot =? 0 then ret (- ENOENT, None)
        else bind (bug_on (r =? 0)) (fun _ => bind (path_block 0) (fun leaf => bind (eb_read leaf) (fun d =>
          if negb (objectid (btrfs_item_key d (slot - 1)) =? id) then ret (- ENOENT, None)
          else ret (0, Some (btrfs_item_key d (slot - 1),
            read_extent_buffer d (btrfs_item_ptr_offset d (slot - 1)) (Z.to_nat sizeof_root_item)))))))) (with_path w btrfs_init_path) =
      Some (res, w1) /\
    match item_before L key with
    | Some (k, d) =>
        if decide (objectid k = id)
        then exists item, res = (0, Some (k, item)) /\ Z.of_nat (length item) = sizeof_root_item /\
          take (length d) item = take (length item) d
        else res = (- ENOENT, None)
    | None => res = (- ENOENT, None)
    end).
  { destruct Hbody as (res & Hbody & Hres). exists res, w. split; [|by split].
    pose proof (new_path_run w bug _ _ _ Hbody) as Hnp. unfold w1 in Hnp.
    rewrite with_path_twice, with_path_same in Hnp. exact Hnp. }
  rewrite (bind_some _ _ _ _ _ Hrun).
  destruct (looked_up_cases env _ n b L key r p lb e pre l post Hlu Hs)
    as [(-> & A & d & B & -> & Hslot & Hd)|(-> & Hnone & A & B & -> & Hslot & HA & HB)].
  { exfalso. apply Hnot. apply item_at_Some in Hd. apply list_elem_of_fmap. by exists (key, d). }
  destruct (looked_up_before _ n b L key p lb e pre A B post Hlu HA HB) as [-> _].
  change (1 <? 0) with false. cbv iota.
  assert (Vs : path_slot 0 w1 = Some (Z.of_nat (length A), w1)) by (rewrite path_slot_run by done; by rewrite <- Hslot).
  rewrite (bind_some _ _ _ _ _ Vs). destruct A as [|[k d] A _] using rev_ind; [by eexists|].
  rewrite length_app, last_snoc. cbn [length]. rewrite (proj2 (Z.eqb_neq _ 0)) by lia.
  replace (Z.of_nat (length A + 1) - 1) with (Z.of_nat (length A)) by lia. change (1 =? 0) with false.
  rewrite (bind_some _ _ w1 tt w1) by done. destruct Hlu as [_ _ Hlf _ He Hr _ _ _ _].
  rewrite (bind_some _ _ _ _ _ (path_block_run w1 0 lb eq_refl Hlf)).
  rewrite (bind_some _ _ _ _ _ (eb_read_run w1 lb e He)). rewrite <- (assoc_L (++)) in Hr. simpl in Hr.
  destruct (repr_item_fields root Hroot _ _ _ _ _ Hr) as (-> & _). pose proof (repr_item_data root Hroot _ _ _ _ _ Hr) as Hdata.
  case_decide as Hid.
  - rewrite (proj2 (Z.eqb_eq _ _) Hid). cbn [negb]. eexists. split; [reflexivity|]. eexists. split; [reflexivity|].
    rewrite read_length. split; [done|]. set (q := btrfs_item_ptr_offset _ _) in *.
    destruct (decide (length d <= Z.to_nat sizeof_root_item)%nat) as [Hle|Hgt].
    + rewrite read_take, Hdata by done. by rewrite take_ge.
    + rewrite take_ge by (rewrite read_length; lia). rewrite <- Hdata, read_take by lia. done.
  - rewrite (proj2 (Z.eqb_neq _ _) Hid). cbn [negb]. by eexists.
Qed.

(** The path of [w'] leads to the item [(k, d)] of some leaf. *)
Definition leads_to w' k d : Prop := exists lb A B e, item_view env w' lb A k d B e.

Lemma lookup_inode_run w n (b : Z) L loc mod_ fuel :
  tree_ok env w n b L -> tw_path w = btrfs_init_path -> (n < fuel)%nat -> 0 <= mod_ ->
  exists r w', btrfs_lookup_inode env fuel loc mod_ w = Some (r, w') /\ tw_blocks w' = tw_blocks w /\
    match item_at L loc with
    | Some d => r = 0 /\ leads_to w' loc d
    | None =>
        if decide (type loc = BTRFS_ROOT_ITEM_KEY /\ offset loc = U64_MAX) then
          match item_before L loc with
          | Some (k, d) => if decide (objectid k = objectid loc /\ type k = type loc) then r = 0 /\ leads_to w' k d else r = 1
          | None => r = 1
          end
        else r = 1
    end.
Proof using Hroot.
  intros [Hb Ht Hs Hn _ Hc] Hp Hfuel Hm.
  destruct (lookup_run env Hroot w n b L loc (negb (mod_ =? 0)) fuel Hb Ht Hs Hn Hfuel Hp) as
    (r & p & lb & e & pre & l & post & Hrun & Hlu); [intros _; by apply Hc|].
  unfold btrfs_lookup_inode. rewrite (proj2 (Z.ltb_ge mod_ 0)) by lia. rewrite (bind_some _ _ _ _ _ Hrun).
  set (w1 := with_path w p) in *.
  destruct (looked_up_cases env w n b L loc r p lb e pre l post Hlu Hs)
    as [(-> & A & d & B & -> & Hslot & Hd)|(-> & Hnone & A & B & -> & Hslot & HA & HB)].
  - pose proof (looked_up_view env Hroot _ _ _ _ _ _ _ _ _ _ _ _ _ _ _ Hlu Hslot) as Hv. fold w1 in Hv.
    rewrite (bind_some _ _ _ _ _ (iv_slot _ _ _ _ _ _ _ _ Hv)), Hd. change (0 <? 0) with false. cbn [andb].
    exists 0, w1. do 2 (split; [done|]). split; [done|]. by exists lb, A, B, e.
  - destruct (looked_up_before _ n b L loc p lb e pre A B post Hlu HA HB) as [-> _]. rewrite Hnone.
    assert (Vs : path_slot 0 w1 = Some (Z.of_nat (length A), w1)) by (rewrite path_slot_run by done; by rewrite <- Hslot).
    rewrite (bind_some _ _ _ _ _ Vs). change (0 <? 1) with true. cbn [andb].
    destruct (Z.eqb_spec (type loc) BTRFS_ROOT_ITEM_KEY) as [H1|H1]; cbn [andb].
    2:{ exists 1, w1. do 2 (split; [done|]). by rewrite decide_False by (by intros [? _]). }
    destruct (Z.eqb_spec (offset loc) U64_MAX) as [H2|H2]; cbn [andb].
    2:{ exists 1, w1. do 2 (split; [done|]). by rewrite decide_False by (by intros [_ ?]). }
    destruct (decide (type loc = _ /\ _)) as [_|Hn1]; [|by destruct Hn1].
    destruct A as [|[k d] A _] using rev_ind; [by exists 1, w1|].
    rewrite length_app, last_snoc. cbn [length]. rewrite (proj2 (Z.eqb_neq _ 0)) by lia. cbn [negb].
    replace (Z.of_nat (length A + 1) - 1) with (Z.of_nat (length A)) by lia.
    pose proof Hlu as [HL Hpath Hlf Htop He Hr _ _ _ _].
    rewrite (bind_some _ _ _ _ _ (path_block_run w1 0 lb eq_refl Hlf)).
    rewrite (bind_some _ _ _ _ _ (eb_read_run w1 lb e He)). rewrite <- (assoc_L (++)) in Hr. simpl in Hr.
    destruct (repr_item_fields root Hroot _ _ _ _ _ Hr) as (-> & _). case_decide as Hk.
    + destruct Hk as [-> ->]. rewrite !Z.eqb_refl. cbn [andb].
      rewrite (bind_some _ _ _ _ _ (set_path_slot_run w1 0 (Z.of_nat (length A)) eq_refl)).
      set (p2 := slot_upd p 0 (Z.of_nat (length A))). change (with_path w1 _) with (with_path w p2).
      exists 0, (with_path w p2). do 2 (split; [done|]). split; [done|]. exists lb, A, B, e.
      destruct (on_path_leaf env _ _ _ _ _ _ _ Hpath) as (lb' & Hlb' & (e' & He' & Hlen & Hlev & _) & _).
      rewrite Hlf in Hlb'. injection Hlb' as <-. rewrite He in He'. injection He' as <-.
      destruct (repr_item_fields root Hroot _ _ _ _ _ Hr) as (Hkk & _ & Hsz & _). split; try done.
      * by apply path_block_run.
      * by apply eb_read_run.
      * by apply (repr_item_data root Hroot _ _ k d B).
    + replace (_ && _) with false; [by exists 1, w1|]. symmetry. apply andb_false_iff.
      destruct (Z.eqb_spec (objectid k) (objectid loc)); [right|by left]. apply Z.eqb_neq. naive_solver.
Qed.
(** ** Free numbers *)

Lemma scan_all start L A B :
  sorted_keys (L.*1) -> Forall (fun k => 0 <= objectid k < 2 ^ 64 - 1) (L.*1) -> 0 <= start -> L = A ++ B ->
  Forall (fun k => objectid k <= start) (A.*1) ->
  (A <> [] -> exists x B', B = x :: B' /\ objectid (fst x) <= start) ->
  let r := free_scan start false 0 B in start <= r /\ r ∉ objectid <$> L.*1.
Proof using Type.
  intros Hs Hall Hst -> HA Hx. destruct B as [|[k d] B].
  - assert (A = []) as ->.
    { destruct A as [|a A]; [done|]. destruct Hx as (x & B' & Hxx & _); [done|]. discriminate. }
    cbn [free_scan negb]. split; [lia|apply not_elem_of_nil].
  - cbn [free_scan]. rewrite andb_false_r. cbn [andb]. set (id := objectid k).
    rewrite !fmap_app, fmap_cons in Hs, Hall |- *. cbn [fst] in *. apply Forall_app in Hall as [HallA HallB].
    apply StronglySorted_app_1_r in Hs as HsB. apply Forall_cons in HallB as [Hk HallB].
    pose proof (sorted_objectids k d B HsB) as Hle. apply StronglySorted_cons in HsB as [_ HsB].
    fold id in Hk. rewrite u64_id by lia.
    destruct (free_scan_free start (id + 1) B HsB) as [Hr Hfree]; [|lia|].
    { apply Forall_forall. intros x Hxin. pose proof (proj1 (Forall_forall _ _) Hle x Hxin) as H1.
      pose proof (proj1 (Forall_forall _ _) HallB x Hxin) as H2. simpl in H1, H2. fold id in H1. lia. }
    split; [lia|]. rewrite fmap_app, fmap_cons, elem_of_app, elem_of_cons. intros [Hin|[Hin|Hin]]; [|fold id in Hin; lia|done].
    apply list_elem_of_fmap in Hin as (a & Ha & Hin).
    assert (Hid : objectid a <= id).
    { pose proof (StronglySorted_app_1_elem_of _ _ _ _ _ Hs Hin (list_elem_of_here _ _)) as Hlt. fold id.
      unfold key_lt, btrfs_comp_keys in Hlt. revert Hlt. zbool; unfold id; lia. }
    lia.
Qed.

Lemma find_free_objectid_run w n (b : Z) L last_inode_alloc ty fuel loop_fuel :
  tree_ok env w n b L -> (n < fuel)%nat -> (2 * length L + 2 <= loop_fuel)%nat ->
  Forall (fun k => 0 <= objectid k < 2 ^ 64 - 1) (L.*1) ->
  exists id, btrfs_find_free_objectid env true fuel loop_fuel last_inode_alloc ty w = Some ((0, Some id), w) /\
    Z.max last_inode_alloc BTRFS_FIRST_FREE_OBJECTID <= id /\ id ∉ objectid <$> L.*1.
Proof using Hroot.
  intros [Hb Ht Hs Hn _ _] Hfuel Hloop Hids. set (start := Z.max last_inode_alloc BTRFS_FIRST_FREE_OBJECTID).
  set (key := BtrfsKey start ty 0).
  destruct (lookup_run env Hroot (with_path w btrfs_init_path) n b L key false fuel Hb Ht Hs Hn Hfuel eq_refl) as
    (r & p & lb & e & pre & l & post & Hrun & Hlu); [done|]. rewrite with_path_twice in Hrun.
  assert (Hst : 0 <= start) by (unfold start, BTRFS_FIRST_FREE_OBJECTID; lia).
  (* the walk starts with the item before the key, if there is one *)
  assert (Hsplit : exists A B, l = A ++ B /\ r >= 0 /\
    (if 0 <? p_slots p 0 then p_slots p 0 - 1 else p_slots p 0) = Z.of_nat (length A) /\
    Forall (fun k => objectid k <= start) ((pre ++ A).*1) /\
    (pre ++ A <> [] -> exists x B', B ++ post = x :: B' /\ objectid (fst x) <= start)).
  { destruct Hlu as [HL _ _ _ _ _ (k1 & k2 & Hslot & Hk1 & Hk2 & Hrl) Hpre _ Hlow].
    assert (Hlt : forall k, key_lt k key -> objectid k <= start).
    { intros k Hk. unfold key_lt, btrfs_comp_keys in Hk. revert Hk. simpl. zbool; lia. }
    assert (Hkeys : exists l1 l2, l = l1 ++ l2 /\ l1.*1 = k1 /\
      (k1 = [] -> pre = [] \/ exists x l3, l2 = x :: l3 /\ objectid (fst x) <= start)).
    { destruct Hrl as [[_ Hl]|[_ Hl]]; apply fmap_app_inv in Hl as (l1 & l2 & -> & Hl2 & ->); exists l1, l2.
      - split; [done|]. split; [done|]. intros _. right. destruct l2 as [|x l3]; [done|]. exists x, l3. split; [done|].
        rewrite fmap_cons in Hl2. injection Hl2 as Hx _. rewrite <- Hx. simpl. lia.
      - split; [done|]. split; [done|]. intros Hl1%fmap_nil_inv. left. subst l1. destruct Hlow as [?|(k & Hk & Hn0)]; [done|]. exfalso.
        destruct l2 as [|x l2]; [done|]. cbn [app fmap list_fmap head fst] in Hk. injection Hk as Hk.
        apply Hn0. rewrite Hl2, fmap_cons in Hk2. apply Forall_cons in Hk2 as [Hk2 _]. by rewrite <- Hk. }
    destruct Hkeys as (l1 & l2 & -> & <- & Hemp). rewrite length_fmap in Hslot. rewrite Hslot.
    destruct l1 as [|x l1 _] using rev_ind.
    - exists [], l2. simpl. split; [done|]. split; [destruct Hrl as [[-> _]|[-> _]]; lia|]. split; [done|].
      rewrite app_nil_r. split; [eapply Forall_impl; [exact Hpre|]; exact Hlt|].
      intros Hne. destruct Hemp as [?|(x & l3 & -> & Hx)]; [done|done|]. by exists x, (l3 ++ post).
    - exists l1, (x :: l2). rewrite <- (assoc_L (++)). split; [done|]. split; [destruct Hrl as [[-> _]|[-> _]]; lia|].
      rewrite length_app. simpl. rewrite (proj2 (Z.ltb_lt _ _)) by lia. split; [lia|].
      rewrite fmap_app in Hk1. apply Forall_app in Hk1 as [Hk1 Hx]. apply Forall_cons in Hx as [Hx _]. split.
      + rewrite fmap_app. apply Forall_app. split; (eapply Forall_impl; [eassumption|]; exact Hlt).
      + intros _. exists x, (l2 ++ post). split; [done|]. by apply Hlt. }
  destruct Hsplit as (A & B & -> & Hr0 & Hslot & Hbef & Hfirst).
  destruct Hlu as [HL Hpath Hlf Htop He Hr _ _ _ _].
  set (p1 := if 0 <? p_slots p 0 then slot_upd p 0 (p_slots p 0 - 1) else p).
  assert (Hp1 : p_slots p1 0 = Z.of_nat (length A)).
  { unfold p1. rewrite <- Hslot. destruct (0 <? p_slots p 0); [simpl; apply upd_same|done]. }
  assert (Hpath1 : on_path root (tw_blocks (with_path w p1)) p1 n b pre (A ++ B) post).
  { apply (on_path_below env _ p); [done|]. intros i Hi. unfold p1. destruct (0 <? p_slots p 0); [|done].
    split; [done|]. intros Hi0. simpl. by rewrite upd_other. }
  destruct (find_free_run start n b L ltac:(lia) loop_fuel (with_path w p1) pre A B post false 0 HL Hpath1) as (p2 & Hloop').
  { unfold p1. by destruct (0 <? p_slots p 0). }
  { done. }
  { rewrite HL, !length_app in Hloop. rewrite !length_app. destruct B; simpl in *; lia. }
  destruct (scan_all start L (pre ++ A) (B ++ post) Hs Hids Hst) as [Hge Hfree]; [|done|done|].
  { by rewrite HL, <- !(assoc_L (++)). }
  set (id := free_scan start false 0 (B ++ post)) in *. exists id. split; [|done].
  replace w with (with_path (with_path w p2) (tw_path w)) at 2 by (rewrite with_path_twice; apply with_path_same).
  apply new_path_run. fold start. fold key. rewrite (bind_some _ _ _ _ _ Hrun).
  rewrite (proj2 (Z.ltb_ge r 0)) by lia.
  rewrite (bind_some _ _ _ _ _ (path_slot_run (with_path w p) 0 eq_refl)). simpl p_slots.
  rewrite (bind_some _ _ (with_path w p) tt (with_path w p1)).
  2:{ unfold p1. destruct (0 <? p_slots p 0); [|done]. by rewrite set_path_slot_run. }
  rewrite (bind_some _ _ _ _ _ Hloop'). rewrite (proj2 (Z.ltb_ge _ _)) by lia. done.
Qed.
End Run.
