(* ===== verification/DirProps.v ===== *)
(** What the functions of [dir-item.c] guarantee: a directory is a map from
    names to entries, kept in the items of a tree. *)

From stdpp Require Import sorting.
From S2P Require Import Prelude Buf CtreeFmt ItemFmt LeafOps LeafSpec NodeOps LeafProps TreeWorld TreeBalance.
From S2P Require Import TreeOps Crc DirItem TreeSpec TreeSearch TreeWalk TreeFrame TreeInsert TreeItem PackSpec.
From S2P Require Import DirSpec TreeDemo.

Implicit Types (L l pre post A B : list item) (key k : btrfs_key) (b : buf) (name : list Z).

(** C14: [btrfs_insert_dir_item] on a tree whose items for this name and index
    hold entries, with room for both in every leaf and node ([has_room]), so
    that no block is split: a name that the directory has gives [-EEXIST] and
    changes nothing, also when other names share its hash.  Otherwise the entry
    goes behind the others of its item and, except in the tree of tree roots, an
    entry goes to the item of the index; when that has the name already the call
    fails with [-EEXIST] and the first entry is left behind.  The tree stays
    well formed, no other item changes, and the caller's path is as before. *)
Theorem insert_dir_item_correct {X : Type} `{ExtentTree X} (env : tree_env) (w : tree_world X) n (b : Z) L
  (tree_root : bool) name dir location ty index fuel
  (Hroot : root_ok (te_root env)) (Hok : tree_ok env w n b L) (Hfuel : (n < fuel)%nat)
  (Hdir : 0 <= dir < 2 ^ 64) (Hindex : 0 <= index < 2 ^ 64) (Hloc : key_ok location) (Hty : 0 <= ty < 2 ^ 8)
  (Hname : Forall is_byte name) (Hlen : sizeof_dir_item + Z.of_nat (length name) < 65536)
  (Hpk : packs_at (E := dentry) L (dir_key dir name)) (Hpk2 : packs_at (E := dentry) L (index_key dir index))
  (Hroom : has_room env (tw_blocks w) n b
     ((if tree_root then 1 else 2) * (sizeof_dir_item + Z.of_nat (length name) + sizeof_item))) :
  exists r w', btrfs_insert_dir_item env true fuel tree_root name dir location ty index w = Some (r, w') /\
    tw_path w' = tw_path w /\
    match find_entry (E := dentry) L (dir_key dir name) name with
    | Some _ => r = - EEXIST /\ tw_blocks w' = tw_blocks w
    | None => exists e L1, dir_entry location ty name e /\ entry_added L (dir_key dir name) e L1 /\
        if tree_root then r = 0 /\ tree_ok env w' n b L1
        else match find_entry (E := dentry) L (index_key dir index) name with
        | Some _ => r = - EEXIST /\ tree_ok env w' n b L1
        | None => r = 0 /\ exists e2 L2, dir_entry location ty name e2 /\ tree_ok env w' n b L2 /\
            entry_added L1 (index_key dir index) e2 L2
        end
    end.
Proof. by apply (insert_dir_run env Hroot w n b L tree_root name dir location ty index fuel). Qed.

Lemma insert_dir_item_correct_witness :
  (exists w', btrfs_insert_dir_item demo_env true 1 false name_a 256 (BtrfsKey 258 1 0) 1 3 dir_world = Some (- EEXIST, w') /\
     tw_blocks w' = tw_blocks dir_world) /\
  exists w' e e2 L1 L2, btrfs_insert_dir_item demo_env true 1 false name_b 256 (BtrfsKey 258 1 0) 1 2 dir_world = Some (0, w') /\
     tree_ok demo_env w' 0 4096 L2 /\ entry_added dir_items (dir_key 256 name_b) e L1 /\
     entry_added L1 (index_key 256 2) e2 L2.
Proof.
  assert (Ha : Forall is_byte name_a) by (repeat constructor; unfold is_byte; lia).
  assert (Hb : Forall is_byte name_b) by (repeat constructor; unfold is_byte; lia).
  assert (Hr : has_room demo_env (tw_blocks dir_world) 0 4096 (2 * (sizeof_dir_item + 1 + sizeof_item)))
    by (apply (room_less demo_env _ 0 4096 1000 _ dir_room); vm_compute; discriminate).
  assert (Hnone : forall k, item_at dir_items k = None -> packs_at (E := dentry) dir_items k)
    by (intros k Hk d Hd; rewrite Hk in Hd; discriminate).
  assert (Hidx : packs_at (E := dentry) dir_items (index_key 256 2)).
  { intros d Hd. apply (packs_entries d [entry_a]). split.
    - revert Hd. vm_compute. by intros [= <-].
    - constructor; [exact entry_a_ok|constructor].
    - apply NoDup_singleton. }
  assert (Hk : key_ok (BtrfsKey 258 1 0)) by (unfold key_ok; simpl; lia).
  split.
  - destruct (insert_dir_item_correct demo_env dir_world 0 4096 dir_items false name_a 256 (BtrfsKey 258 1 0) 1 3 1 small_root_ok
      dir_tree_ok ltac:(lia) ltac:(lia) ltac:(lia) Hk ltac:(lia) Ha ltac:(vm_compute; reflexivity) dir_packs
      ltac:(apply Hnone; vm_compute; reflexivity) Hr) as (r & w' & Hrun & _ & Hres).
    assert (Hf : find_entry (E := dentry) dir_items (dir_key 256 name_a) name_a = Some entry_a) by (vm_compute; reflexivity).
    rewrite Hf in Hres. destruct Hres as [-> Hbl]. exists w'. split; [exact Hrun|exact Hbl].
  - destruct (insert_dir_item_correct demo_env dir_world 0 4096 dir_items false name_b 256 (BtrfsKey 258 1 0) 1 2 1 small_root_ok
      dir_tree_ok ltac:(lia) ltac:(lia) ltac:(lia) Hk ltac:(lia) Hb ltac:(vm_compute; reflexivity)
      ltac:(apply Hnone; vm_compute; reflexivity) Hidx Hr) as (r & w' & Hrun & _ & Hres).
    assert (Hf : find_entry (E := dentry) dir_items (dir_key 256 name_b) name_b = None) by (vm_compute; reflexivity).
    assert (Hf2 : find_entry (E := dentry) dir_items (index_key 256 2) name_b = None) by (vm_compute; reflexivity).
    rewrite Hf, Hf2 in Hres. destruct Hres as (e & L1 & _ & Ha1 & -> & e2 & L2 & _ & Hok & Ha2).
    exists w', e, e2, L1, L2. split; [exact Hrun|]. split; [exact Hok|]. split; [exact Ha1|exact Ha2].
Defined.

(** [btrfs_lookup_dir_item] with a fresh path, to read or to modify: the
    answer is the entry of that name, a pointer into the leaf of the path where
    the accessors find its fields, or no entry when the directory has no such
    name, whether the item is missing or holds other names only.  No block
    changes. *)
Theorem lookup_dir_item_correct {X : Type} `{ExtentTree X} (env : tree_env) (w : tree_world X) n (b : Z) L
  dir name mod_ fuel
  (Hroot : root_ok (te_root env)) (Hok : tree_ok env w n b L) (Hp : tw_path w = btrfs_init_path)
  (Hfuel : (n < fuel)%nat) (Hm : 0 <= mod_) (Hpk : packs_at (E := dentry) L (dir_key dir name)) :
  exists res w', btrfs_lookup_dir_item env fuel dir name mod_ w = Some (inr res, w') /\ tw_blocks w' = tw_blocks w /\
    match find_entry (E := dentry) L (dir_key dir name) name with
    | None => res = None
    | Some e => exists p (lb : Z) eb, res = Some p /\ p_nodes (tw_path w') 0 = Some lb /\
        tw_blocks w' !! lb = Some eb /\ dentry_at (eb_data eb) p e
    end.
Proof.
  destruct Hok as [Hb Ht Hs Hn _ Hc]. apply (lookup_dir_run env Hroot w n b L); try done.
  intros _. by apply Hc.
Qed.

Lemma lookup_dir_item_correct_witness :
  exists w' p lb eb, btrfs_lookup_dir_item demo_env 1 256 name_a 1 dir_world = Some (inr (Some p), w') /\
    tw_blocks w' !! lb = Some eb /\ dentry_at (eb_data eb) p entry_a.
Proof.
  destruct (lookup_dir_item_correct demo_env dir_world 0 4096 dir_items 256 name_a 1 1 small_root_ok dir_tree_ok eq_refl
    ltac:(lia) ltac:(lia) dir_packs) as (res & w' & Hrun & _ & Hres).
  assert (Hf : find_entry (E := dentry) dir_items (dir_key 256 name_a) name_a = Some entry_a) by (vm_compute; reflexivity).
  rewrite Hf in Hres. destruct Hres as (p & lb & eb & -> & _ & Heb & Hat).
  exists w', p, lb, eb. split; [exact Hrun|]. split; [exact Heb|exact Hat].
Defined.

(** C12: the directory is a map: after [btrfs_insert_dir_item] of a new name, in
    a tree where every leaf and node has room for both entries ([has_room]), so
    that no block is split, [btrfs_lookup_dir_item] of any name in any directory
    finds the new entry for that name in that directory and otherwise what was
    there before, the names with the same hash included. *)
Theorem dir_insert_then_lookup {X : Type} `{ExtentTree X} (env : tree_env) (w : tree_world X) n (b : Z) L
  (tree_root : bool) name dir location ty index fuel dir' nm mod_
  (Hroot : root_ok (te_root env)) (Hok : tree_ok env w n b L) (Hp : tw_path w = btrfs_init_path) (Hfuel : (n < fuel)%nat)
  (Hdir : 0 <= dir < 2 ^ 64) (Hindex : 0 <= index < 2 ^ 64) (Hloc : key_ok location) (Hty : 0 <= ty < 2 ^ 8)
  (Hname : Forall is_byte name) (Hlen : sizeof_dir_item + Z.of_nat (length name) < 65536)
  (Hpk : packs_at (E := dentry) L (dir_key dir name)) (Hpk2 : packs_at (E := dentry) L (index_key dir index))
  (Hroom : has_room env (tw_blocks w) n b
     ((if tree_root then 1 else 2) * (sizeof_dir_item + Z.of_nat (length name) + sizeof_item)))
  (Hnew : find_entry (E := dentry) L (dir_key dir name) name = None)
  (Hnewi : tree_root = true \/ find_entry (E := dentry) L (index_key dir index) name = None)
  (Hpk3 : packs_at (E := dentry) L (dir_key dir' nm)) (Hm : 0 <= mod_) :
  exists w1 res w2, btrfs_insert_dir_item env true fuel tree_root name dir location ty index w = Some (0, w1) /\
    btrfs_lookup_dir_item env fuel dir' nm mod_ w1 = Some (inr res, w2) /\
    exists e, dir_entry location ty name e /\
    match if decide (dir' = dir /\ nm = name) then Some e else find_entry L (dir_key dir' nm) nm with
    | None => res = None
    | Some e => exists p (lb : Z) eb, res = Some p /\ p_nodes (tw_path w2) 0 = Some lb /\
        tw_blocks w2 !! lb = Some eb /\ dentry_at (eb_data eb) p e
    end.
Proof.
  destruct (insert_dir_run env Hroot w n b L tree_root name dir location ty index fuel Hok Hfuel Hdir Hindex Hloc Hty Hname
    Hlen Hpk Hpk2 Hroom) as (r & w1 & Hrun & Hpath & Hres).
  rewrite Hnew in Hres. destruct Hres as (e & L1 & He & Hadd & Hres).
  destruct (dir_entry_ok location ty name e Hloc Hty Hlen He) as [Hoke Hnm].
  assert (HL2 : exists L2 e2, r = 0 /\ tree_ok env w1 n b L2 /\
    (L2 = L1 \/ entry_added (E := dentry) L1 (index_key dir index) e2 L2)).
  { destruct tree_root.
    - destruct Hres as [-> Hok1]. exists L1, e. by auto.
    - destruct Hnewi as [?|Hi]; [done|]. rewrite Hi in Hres. destruct Hres as (-> & e2 & L2 & _ & Hok2 & Hadd2).
      exists L2, e2. by auto. }
  destruct HL2 as (L2 & e2 & -> & Hok2 & HL2).
  destruct (dir_map_update L dir name e index e2 L1 L2 dir' nm Hpk Hoke Hnm Hnew Hadd HL2 Hpk3) as [Hpk' Hfind].
  pose proof Hok2 as [T1 T2 T3 T4 _ T6].
  destruct (lookup_dir_run env Hroot w1 n b L2 dir' nm mod_ fuel T1 T2 T3 T4 Hfuel (eq_trans Hpath Hp) Hm) as (res & w2 & Hl & Hbl & Hans).
  - intros _. by apply T6.
  - done.
  - exists w1, res, w2. do 2 (split; [done|]). exists e. split; [done|]. by rewrite Hfind in Hans.
Qed.

Lemma dir_insert_then_lookup_witness :
  exists w1 p w2 lb eb e, btrfs_insert_dir_item demo_env true 1 false name_b 256 (BtrfsKey 258 1 0) 1 3 dir_world = Some (0, w1) /\
    btrfs_lookup_dir_item demo_env 1 256 name_b 0 w1 = Some (inr (Some p), w2) /\
    tw_blocks w2 !! lb = Some eb /\ dentry_at (eb_data eb) p e /\ dir_entry (BtrfsKey 258 1 0) 1 name_b e.
Proof.
  assert (Hb : Forall is_byte name_b) by (repeat constructor; unfold is_byte; lia).
  assert (Hr : has_room demo_env (tw_blocks dir_world) 0 4096 (2 * (sizeof_dir_item + 1 + sizeof_item)))
    by (apply (room_less demo_env _ 0 4096 1000 _ dir_room); vm_compute; discriminate).
  assert (Hnone : forall k, item_at dir_items k = None -> packs_at (E := dentry) dir_items k)
    by (intros k Hk d Hd; rewrite Hk in Hd; discriminate).
  assert (Hpb : packs_at (E := dentry) dir_items (dir_key 256 name_b)) by (apply Hnone; vm_compute; reflexivity).
  assert (Hpi : packs_at (E := dentry) dir_items (index_key 256 3)) by (apply Hnone; vm_compute; reflexivity).
  assert (Hk : key_ok (BtrfsKey 258 1 0)) by (unfold key_ok; simpl; lia).
  assert (Hf : find_entry (E := dentry) dir_items (dir_key 256 name_b) name_b = None) by (vm_compute; reflexivity).
  assert (Hf2 : find_entry (E := dentry) dir_items (index_key 256 3) name_b = None) by (vm_compute; reflexivity).
  destruct (dir_insert_then_lookup demo_env dir_world 0 4096 dir_items false name_b 256 (BtrfsKey 258 1 0) 1 3 1 256 name_b 0
    small_root_ok dir_tree_ok eq_refl ltac:(lia) ltac:(lia) ltac:(lia) Hk ltac:(lia) Hb ltac:(vm_compute; reflexivity)
    Hpb Hpi Hr Hf (or_intror Hf2) Hpb ltac:(lia)) as (w1 & res & w2 & Hi & Hl & e & He & Hres).
  rewrite decide_True in Hres by (split; reflexivity). destruct Hres as (p & lb & eb & -> & _ & Heb & Hat).
  exists w1, p, w2, lb, eb, e. split; [exact Hi|]. split; [exact Hl|]. split; [exact Heb|]. split; [exact Hat|exact He].
Defined.

(** [btrfs_insert_xattr_item] of a new name: the entry with the value goes
    behind the others of its item, the tree stays well formed and no other item
    changes.  A name that is there is a failed assertion, whatever the value:
    the caller must look first. *)
Theorem insert_xattr_item_correct {X : Type} `{ExtentTree X} (env : tree_env) (w : tree_world X) n (b : Z) L
  name data dir fuel
  (Hroot : root_ok (te_root env)) (Hok : tree_ok env w n b L) (Hfuel : (n < fuel)%nat)
  (Hdir : 0 <= dir < 2 ^ 64) (Hname : Forall is_byte name)
  (Hlen : sizeof_dir_item + Z.of_nat (length name) + Z.of_nat (length data) < 65536)
  (Hpk : packs_at (E := dentry) L (xattr_key dir name))
  (Hroom : has_room env (tw_blocks w) n b
     (sizeof_dir_item + Z.of_nat (length name) + Z.of_nat (length data) + sizeof_item)) :
  match find_entry (E := dentry) L (xattr_key dir name) name with
  | Some _ => btrfs_insert_xattr_item env true fuel name data dir w = None
  | None => exists w' e L', btrfs_insert_xattr_item env true fuel name data dir w = Some (0, w') /\
      tw_path w' = tw_path w /\ xattr_entry name data e /\ tree_ok env w' n b L' /\
      entry_added L (xattr_key dir name) e L'
  end.
Proof.
  pose proof (xattr_fill name data Hlen) as Hfill. pose proof (xattr_key_ok dir name Hdir Hname) as Hk.
  assert (Hpos : 0 <= sizeof_dir_item + Z.of_nat (length name) + Z.of_nat (length data) < 65536)
    by (unfold sizeof_dir_item in *; lia).
  remember (sizeof_dir_item + Z.of_nat (length name) + Z.of_nat (length data)) as sz eqn:Esz.
  destruct (add_entry_run env Hroot (with_path w btrfs_init_path) n b L (xattr_key dir name) name sz fuel
    (fun d q => fill_xattr_item d q name data) (xattr_entry name data) (fun _ => bug) (ret 0)
    (tree_ok_path env w btrfs_init_path n b L Hok) eq_refl Hk Hpos Hpk Hroom Hfuel Hfill) as (w1 & Hrun & Hres).
  unfold btrfs_insert_xattr_item. rewrite <- Esz, u32_id by lia. destruct (find_entry (E := dentry) L (xattr_key dir name) name).
  - unfold with_new_path. cbn [negb]. rewrite (bind_some _ _ w (tw_path w) w) by done.
    rewrite (bind_some _ _ w tt (with_path w btrfs_init_path)) by done. unfold bind at 1. cbv zeta.
    unfold xattr_key in Hrun. by rewrite Hrun.
  - destruct Hres as (e & L' & He & _ & _ & Hadd & Hok' & _). exists (with_path w1 (tw_path w)), e, L'.
    split; [by apply new_path_run|]. split; [done|]. split; [done|]. split; [by apply tree_ok_path|done].
Qed.

Lemma insert_xattr_item_correct_witness :
  exists w' e L', btrfs_insert_xattr_item demo_env true 1 name_a [1; 2; 3] 256 dir_world = Some (0, w') /\
    tree_ok demo_env w' 0 4096 L' /\ entry_added dir_items (xattr_key 256 name_a) e L'.
Proof.
  assert (Hn : Forall is_byte name_a) by (repeat constructor; unfold is_byte; lia).
  assert (Hnone : item_at dir_items (xattr_key 256 name_a) = None) by (vm_compute; reflexivity).
  assert (Hr : has_room demo_env (tw_blocks dir_world) 0 4096 (sizeof_dir_item + 1 + 3 + sizeof_item))
    by (apply (room_less demo_env _ 0 4096 1000 _ dir_room); vm_compute; discriminate).
  pose proof (insert_xattr_item_correct demo_env dir_world 0 4096 dir_items name_a [1; 2; 3] 256 1 small_root_ok dir_tree_ok
    ltac:(lia) ltac:(lia) Hn ltac:(vm_compute; reflexivity)
    ltac:(intros d Hd; rewrite Hnone in Hd; discriminate) Hr) as Hres.
  assert (Hf : find_entry (E := dentry) dir_items (xattr_key 256 name_a) name_a = None) by (vm_compute; reflexivity).
  rewrite Hf in Hres. destruct Hres as (w' & e & L' & Hrun & _ & _ & Hok & Hadd).
  exists w', e, L'. split; [exact Hrun|]. split; [exact Hok|exact Hadd].
Defined.
