(* ===== verification/InodeProps.v ===== *)
(** What the functions of [inode-item.c], [root-tree.c] and [inode-map.c]
    guarantee. *)

From stdpp Require Import sorting.
From S2P Require Import Prelude Buf CtreeFmt ItemFmt LeafOps LeafSpec NodeOps LeafProps TreeWorld TreeBalance.
From S2P Require Import TreeOps DirItem InodeItem TreeSpec TreeSearch TreeWalk TreeFrame TreeInsert TreeItem.
From S2P Require Import PackSpec DirSpec TreeDemo InodeSpec.

Implicit Types (L l pre post A B : list item) (key k : btrfs_key) (b : buf) (name : list Z).

(** C15: [btrfs_find_free_objectid] always returns a number that no item of the
    tree has, not below the first free one nor below the last one handed out.
    It does so whatever the type of the search key is, which the code does not
    set, in any tree whose numbers are below [2^64 - 1]; two rounds of the loop
    an item and two more are enough. *)
Theorem find_free_objectid_correct {X : Type} `{ExtentTree X} (env : tree_env) (w : tree_world X) n (b : Z) L
  last_inode_alloc ty fuel loop_fuel
  (Hroot : root_ok (te_root env)) (Hok : tree_ok env w n b L) (Hfuel : (n < fuel)%nat)
  (Hloop : (2 * length L + 2 <= loop_fuel)%nat) (Hids : Forall (fun k => 0 <= objectid k < 2 ^ 64 - 1) (L.*1)) :
  exists id, btrfs_find_free_objectid env true fuel loop_fuel last_inode_alloc ty w = Some ((0, Some id), w) /\
    Z.max last_inode_alloc BTRFS_FIRST_FREE_OBJECTID <= id /\ id ∉ objectid <$> L.*1.
Proof. by apply (find_free_objectid_run env Hroot w n b). Qed.

Lemma find_free_objectid_correct_witness :
  exists id, btrfs_find_free_objectid demo_env true 2 8 0 77 demo_world = Some ((0, Some id), demo_world) /\
    256 <= id /\ id ∉ objectid <$> demo_items.*1.
Proof.
  apply (find_free_objectid_correct demo_env demo_world 1 4096 demo_items 0 77 2 8 small_root_ok demo_tree_ok ltac:(lia)
    ltac:(simpl; lia)).
  repeat (constructor; [cbn; lia|]). constructor.
Defined.

(** [btrfs_insert_inode_ref]: a name that the inode has in that directory
    gives [-EEXIST] and changes nothing; otherwise the reference goes behind the
    others of its item, whether there is one or not, the tree stays well formed
    and no other item changes. *)
Theorem insert_inode_ref_correct {X : Type} `{ExtentTree X} (env : tree_env) (w : tree_world X) n (b : Z) L
  name ino parent index fuel
  (Hroot : root_ok (te_root env)) (Hok : tree_ok env w n b L) (Hp : tw_path w = btrfs_init_path) (Hfuel : (n < fuel)%nat)
  (Hino : 0 <= ino < 2 ^ 64) (Hpar : 0 <= parent < 2 ^ 64) (Hlen : sizeof_inode_ref + Z.of_nat (length name) < 65536)
  (Hpk : packs_at (E := inode_ref) L (BtrfsKey ino BTRFS_INODE_REF_KEY parent))
  (Hroom : has_room env (tw_blocks w) n b (sizeof_inode_ref + Z.of_nat (length name) + sizeof_item)) :
  exists r w', btrfs_insert_inode_ref env true fuel name ino parent index w = Some (r, w') /\ tw_path w' = tw_path w /\
    match find_entry (E := inode_ref) L (BtrfsKey ino BTRFS_INODE_REF_KEY parent) name with
    | Some _ => r = - EEXIST /\ tw_blocks w' = tw_blocks w
    | None => r = 0 /\ exists L', tree_ok env w' n b L' /\
        entry_added L (BtrfsKey ino BTRFS_INODE_REF_KEY parent) (InodeRef index name) L'
    end.
Proof. by apply (insert_ref_run env Hroot). Qed.

Lemma insert_inode_ref_correct_witness :
  exists w' L', btrfs_insert_inode_ref demo_env true 1 name_a 257 256 2 dir_world = Some (0, w') /\
    tree_ok demo_env w' 0 4096 L' /\ entry_added dir_items (BtrfsKey 257 BTRFS_INODE_REF_KEY 256) (InodeRef 2 name_a) L'.
Proof.
  assert (Hnone : item_at dir_items (BtrfsKey 257 BTRFS_INODE_REF_KEY 256) = None) by (vm_compute; reflexivity).
  assert (Hr : has_room demo_env (tw_blocks dir_world) 0 4096 (sizeof_inode_ref + 1 + sizeof_item))
    by (apply (room_less demo_env _ 0 4096 1000 _ dir_room); vm_compute; discriminate).
  destruct (insert_inode_ref_correct demo_env dir_world 0 4096 dir_items name_a 257 256 2 1 small_root_ok dir_tree_ok eq_refl
    ltac:(lia) ltac:(lia) ltac:(lia) ltac:(vm_compute; reflexivity)
    ltac:(intros d Hd; rewrite Hnone in Hd; discriminate) Hr) as (r & w' & Hrun & _ & Hres).
  assert (Hf : find_entry (E := inode_ref) dir_items (BtrfsKey 257 BTRFS_INODE_REF_KEY 256) name_a = None)
    by (vm_compute; reflexivity).
  rewrite Hf in Hres. destruct Hres as [-> (L' & Hok & Hadd)]. exists w', L'. split; [exact Hrun|]. split; [exact Hok|exact Hadd].
Defined.

(** [btrfs_lookup_inode] returns 0 exactly when the tree holds the location
    or, for a root asked for by the highest offset, a root item of that tree
    comes right before it; the path then leads to the item.  No block
    changes. *)
Theorem lookup_inode_correct {X : Type} `{ExtentTree X} (env : tree_env) (w : tree_world X) n (b : Z) L loc mod_ fuel
  (Hroot : root_ok (te_root env)) (Hok : tree_ok env w n b L) (Hp : tw_path w = btrfs_init_path) (Hfuel : (n < fuel)%nat)
  (Hm : 0 <= mod_) :
  exists r w', btrfs_lookup_inode env fuel loc mod_ w = Some (r, w') /\ tw_blocks w' = tw_blocks w /\
    match item_at L loc with
    | Some d => r = 0 /\ leads_to env w' loc d
    | None =>
        if decide (type loc = BTRFS_ROOT_ITEM_KEY /\ offset loc = U64_MAX) then
          match item_before L loc with
          | Some (k, d) => if decide (objectid k = objectid loc /\ type k = type loc) then r = 0 /\ leads_to env w' k d else r = 1
          | None => r = 1
          end
        else r = 1
    end.
Proof. by apply (lookup_inode_run env Hroot w n b L). Qed.

Lemma lookup_inode_correct_witness :
  exists w', btrfs_lookup_inode demo_env 2 key1 0 demo_world = Some (0, w') /\ leads_to demo_env w' key1 [1; 2; 3].
Proof.
  destruct (lookup_inode_correct demo_env demo_world 1 4096 demo_items key1 0 2 small_root_ok demo_tree_ok eq_refl ltac:(lia)
    ltac:(lia)) as (r & w' & Hrun & _ & Hres).
  assert (Hi : item_at demo_items key1 = Some [1; 2; 3]) by (vm_compute; reflexivity).
  rewrite Hi in Hres. destruct Hres as [-> Hl]. exists w'. split; [exact Hrun|exact Hl].
Defined.

(** [btrfs_find_last_root] answers with the item before the highest key a
    root of this number could have, if it has that number: its key and the bytes
    from its start on.  It does not look at the type: any item of that number
    will do.  Without one it is [-ENOENT]; the world is as before. *)
Theorem find_last_root_correct {X : Type} `{ExtentTree X} (env : tree_env) (w : tree_world X) n (b : Z) L id fuel
  (Hroot : root_ok (te_root env)) (Hok : tree_ok env w n b L) (Hfuel : (n < fuel)%nat)
  (Hnot : BtrfsKey id BTRFS_ROOT_ITEM_KEY U64_MAX ∉ L.*1) :
  exists res w', btrfs_find_last_root env true fuel id w = Some (res, w') /\ w' = w /\
    match item_before L (BtrfsKey id BTRFS_ROOT_ITEM_KEY U64_MAX) with
    | Some (k, d) =>
        if decide (objectid k = id)
        then exists item, res = (0, Some (k, item)) /\ Z.of_nat (length item) = sizeof_root_item /\
          take (length d) item = take (length item) d
        else res = (- ENOENT, None)
    | None => res = (- ENOENT, None)
    end.
Proof. by apply (find_last_root_run env Hroot w n b). Qed.

(** The number 256 has no root item here, but an inode item and a file extent. *)
Lemma find_last_root_correct_witness :
  exists item, btrfs_find_last_root demo_env true 2 256 demo_world = Some ((0, Some (key3, item)), demo_world).
Proof.
  assert (Hn : BtrfsKey 256 BTRFS_ROOT_ITEM_KEY U64_MAX ∉ demo_items.*1)
    by (unfold demo_items; simpl; rewrite !not_elem_of_cons; repeat split; [discriminate..|apply not_elem_of_nil]).
  destruct (find_last_root_correct demo_env demo_world 1 4096 demo_items 256 2 small_root_ok demo_tree_ok ltac:(lia) Hn)
    as (res & w' & Hrun & -> & Hres).
  assert (Hb : item_before demo_items (BtrfsKey 256 BTRFS_ROOT_ITEM_KEY U64_MAX) = Some (key3, [8])) by (vm_compute; reflexivity).
  rewrite Hb in Hres. rewrite decide_True in Hres by reflexivity. destruct Hres as (item & -> & _).
  exists item. exact Hrun.
Defined.
