(* ===== verification/TreeProps.v ===== *)
(** What the operations of [ctree.c] guarantee: search, insertion and deletion,
    the walks from leaf to leaf, committed blocks, and pushes between two blocks. *)

From stdpp Require Import sorting.
From stdpp Require Import relations.
From S2P Require Import Prelude Buf CtreeFmt LeafOps LeafSpec LeafPush NodeOps LeafProps TreeWorld TreeBalance.
From S2P Require Import TreeOps TreeSpec TreeSearch TreeWalk TreeFrame TreeInsert TreeSafe TreeDemo.

Implicit Types (L l pre post A B : list item) (key k : btrfs_key).

(** ** Search *)

(** C10: [btrfs_search_slot] on a sorted tree of at most seven levels, in which
    nothing is to be copied or split: it returns 0 exactly when the tree holds
    the key, the path ends at the leaf and slot of the key or of its place, the
    items of the leaves before are all smaller and those behind all bigger, and
    no block has changed. *)
Theorem tree_search_correct {X : Type} `{ExtentTree X} (env : tree_env) (w : tree_world X) n (b : Z) L key cow fuel
  (Hroot : root_ok (te_root env)) (Hb : tw_node w = Some b) (Ht : subtree (te_root env) (tw_blocks w) n b L)
  (Hs : sorted_keys (L.*1)) (Hn : (n < 7)%nat /\ (n < fuel)%nat) (Hp : tw_path w = btrfs_init_path)
  (Hc : no_copy env (tw_blocks w) (tree_blocks (tw_blocks w) n b) cow) :
  exists r p pre l post, btrfs_search_slot env fuel key 0 cow w = Some (r, with_path w p) /\
    L = pre ++ l ++ post /\ on_path (te_root env) (tw_blocks w) p n b pre l post /\
    found (l.*1) key r (p_slots p 0) /\ (r = 0 <-> key ∈ L.*1) /\
    Forall (fun k => key_lt k key) (pre.*1) /\ Forall (fun k => key_lt key k) (post.*1).
Proof.
  assert (Hcalm : calm env w (tree_blocks (tw_blocks w) n b) 0 cow) by (by split; [| |rewrite Hp| |]).
  destruct (search_slot_run env Hroot key 0 cow n b L w fuel Hcalm Hp Hb Ht Hs (proj1 Hn) (proj2 Hn))
    as (w1 & lb & pre & l & post & [Rw Rf Ra Rp Rl Ri Rb Rh Rpar Rm _] & Hrun).
  destruct Hrun as (r & slot & Hf & Hrun); [lia|].
  exists r, (slot_upd (node_upd (tw_path w1) 0 (Some lb)) 0 slot), pre, l, post. split.
  { rewrite Hrun. do 2 f_equal. rewrite <- Rw. done. }
  split; [done|]. split; [|split; [simpl; by rewrite upd_same|split; [|by split]]].
  - apply (on_path_below env _ _ _ _ _ _ _ _ Rp). intros i Hi. split; [done|]. intros Hi0. simpl. by rewrite upd_other.
  - rewrite Ri, (key_elem_split key pre l post Rb Rh).
    destruct Hf as (k1 & k2 & _ & H1 & H2 & [[-> ->]|[-> ->]]); [set_solver|].
    split; [done|]. intros Hin. by apply not_around in Hin.
Qed.

Lemma tree_search_correct_witness :
  exists p pre l post, btrfs_search_slot demo_env 2 key3 0 true demo_world = Some (0, with_path demo_world p) /\
    demo_items = pre ++ l ++ post /\ on_path small_root demo_blocks p 1 4096 pre l post.
Proof.
  destruct (tree_search_correct demo_env demo_world 1 4096 demo_items key3 true 2 small_root_ok eq_refl demo_tree
    demo_sorted ltac:(lia) eq_refl demo_current) as (r & p & pre & l & post & Hrun & HL & Hp & _ & [_ Hr] & _).
  rewrite Hr in Hrun by (apply (bool_decide_unpack _); vm_compute; exact I).
  exists p, pre, l, post. split; [exact Hrun|]. split; [exact HL|exact Hp].
Defined.

(** ** Insertion and deletion *)

(** C1: [btrfs_insert_empty_items] of one item where no block has to be split:
    all blocks of the tree belong to the running transaction, every leaf has the
    bytes for the item and its header free, and every node is more than three
    pointers below its capacity ([has_room]), so that the search neither splits
    nor pushes nor balances.  Then a key that is there gives [-EEXIST] and no
    block changes; otherwise the tree afterwards is again well formed, sorted,
    unshared and current, its items are those before with one of the size asked
    for at the place of the key, the keys of the nodes above are right, and the
    path leads to the new item. *)
Theorem tree_insert_correct {X : Type} `{ExtentTree X} (env : tree_env) (w : tree_world X) n (b : Z) L key size fuel
  (Hroot : root_ok (te_root env)) (Hok : tree_ok env w n b L) (Hp : tw_path w = btrfs_init_path)
  (Hkey : key_ok key) (Hsize : 0 <= size < 65536)
  (Hroom : has_room env (tw_blocks w) n b (size + sizeof_item)) (Hfuel : (n < fuel)%nat) :
  exists r w', btrfs_insert_empty_items env fuel [(key, size)] w = Some (r, w') /\
    if decide (key ∈ L.*1) then r = - EEXIST /\ tw_blocks w' = tw_blocks w
    else r = 0 /\ exists pre A B post d, L = pre ++ (A ++ B) ++ post /\ Z.of_nat (length d) = size /\
      tree_ok env w' n b (pre ++ (A ++ (key, d) :: B) ++ post) /\
      on_path (te_root env) (tw_blocks w') (tw_path w') n b pre (A ++ (key, d) :: B) post /\
      p_slots (tw_path w') 0 = Z.of_nat (length A).
Proof.
  destruct (insert_run env Hroot w n b L key size fuel Hok Hp Hkey Hsize Hroom Hfuel) as (r & w' & Hrun & Hres).
  exists r, w'. split; [done|]. case_decide; [by destruct Hres as (? & ? & _)|].
  destruct Hres as [-> (lb & pre & A & B & post & d & HL & Hd & [Hok' [Hat _ _] Hs] & _)].
  split; [done|]. by exists pre, A, B, post, d.
Qed.

Lemma tree_insert_correct_witness :
  exists w' pre A B post d, btrfs_insert_empty_items demo_env 2 [(BtrfsKey 257 1 0, 1)] demo_world = Some (0, w') /\
    tree_ok demo_env w' 1 4096 (pre ++ (A ++ (BtrfsKey 257 1 0, d) :: B) ++ post).
Proof.
  destruct (tree_insert_correct demo_env demo_world 1 4096 demo_items (BtrfsKey 257 1 0) 1 2 small_root_ok demo_tree_ok
    eq_refl ltac:(unfold key_ok; simpl; lia) ltac:(lia) demo_room ltac:(lia)) as (r & w' & Hrun & Hres).
  assert (Hn : BtrfsKey 257 1 0 ∉ demo_items.*1)
    by (unfold demo_items; simpl; rewrite !not_elem_of_cons; repeat split; [discriminate..|apply not_elem_of_nil]).
  destruct (decide _) as [Hin|_]; [by destruct Hn|].
  destruct Hres as [-> (pre & A & B & post & d & _ & _ & Hok & _)].
  exists w', pre, A, B, post, d. split; [exact Hrun|exact Hok].
Defined.

(** C38: [btrfs_del_items] of some items of the leaf a path leads to, when a
    quarter of the leaf stays in use: exactly those items are gone from the
    tree, which is again well formed, sorted, unshared and current with the
    keys of the nodes above it right, and the path still leads to the leaf. *)
Theorem tree_delete_correct {X : Type} `{ExtentTree X} (env : tree_env) (w : tree_world X) n (b lb : Z) pre A D B post
  (Hroot : root_ok (te_root env)) (Hok : tree_ok env w n b (pre ++ (A ++ D ++ B) ++ post))
  (Hat : at_leaf env w n b lb pre (A ++ D ++ B) post) (HD : D <> []) (Hne : A ++ B <> [])
  (Hused : BTRFS_LEAF_DATA_SIZE (te_root env) / 4 <= weight (A ++ B)) :
  exists w', btrfs_del_items env (Z.of_nat (length A)) (Z.of_nat (length D)) w = Some (0, w') /\
    tree_ok env w' n b (pre ++ (A ++ B) ++ post) /\ at_leaf env w' n b lb pre (A ++ B) post /\
    tw_path w' = tw_path w.
Proof. by apply (del_run env Hroot). Qed.

Lemma tree_delete_correct_witness :
  exists w', btrfs_del_items demo_env 0 1 full_world = Some (0, w') /\
    tree_ok demo_env w' 1 4096 ([] ++ ([] ++ [full_item]) ++ [item2; (key3, [8])]).
Proof.
  destruct (tree_delete_correct demo_env full_world 1 4096 8192 [] [] [item1] [full_item] [item2; (key3, [8])]
    small_root_ok full_tree_ok full_at_leaf) as (w' & Hrun & Hok & _); [done|done|vm_compute; congruence|].
  exists w'. split; [exact Hrun|exact Hok].
Defined.

(** [btrfs_set_item_key_safe] with a key between those of the neighbours:
    it returns 0, the item has the new key and its data, the keys of the nodes
    above follow when the item is the first, and the tree is again well
    formed and sorted. *)
Theorem set_item_key_correct {X : Type} `{ExtentTree X} (env : tree_env) (w : tree_world X) n (b lb : Z) pre A k d B post key
  (Hroot : root_ok (te_root env)) (Hok : tree_ok env w n b (pre ++ (A ++ (k, d) :: B) ++ post))
  (Hat : at_leaf env w n b lb pre (A ++ (k, d) :: B) post) (Hslot : p_slots (tw_path w) 0 = Z.of_nat (length A))
  (Hkey : key_ok key) (Hs : sorted_keys ((pre ++ (A ++ (key, d) :: B) ++ post).*1)) :
  exists w', btrfs_set_item_key_safe key w = Some (0, w') /\
    tree_ok env w' n b (pre ++ (A ++ (key, d) :: B) ++ post) /\ at_leaf env w' n b lb pre (A ++ (key, d) :: B) post /\
    tw_path w' = tw_path w.
Proof.
  pose proof Hs as HsA. rewrite !fmap_app in HsA. apply StronglySorted_app_1_r, StronglySorted_app_1_l in HsA.
  apply (set_key_run env Hroot w n b lb pre A k d B post key); try done.
  - intros x Hx. apply (StronglySorted_app_1_elem_of _ _ _ _ _ HsA); [by apply last_Some_elem_of|left].
  - intros x Hx. apply StronglySorted_app_1_r in HsA. rewrite fmap_cons in HsA.
    apply StronglySorted_cons in HsA as [Hall _]. apply (proj1 (Forall_forall _ _) Hall). by apply head_Some_elem_of.
Qed.

Lemma set_item_key_correct_witness :
  exists w', btrfs_set_item_key_safe (BtrfsKey 2 2 2) (with_path demo_world demo_path) = Some (0, w') /\
    subtree small_root (tw_blocks w') 1 4096 ((BtrfsKey 2 2 2, [1; 2; 3]) :: [item2; (key3, [8])]).
Proof.
  destruct (set_item_key_correct demo_env (with_path demo_world demo_path) 1 4096 8192 [] [] key1 [1; 2; 3] []
    [item2; (key3, [8])] (BtrfsKey 2 2 2) small_root_ok) as (w' & Hrun & Hok & _).
  - destruct demo_tree_ok. by split.
  - split; [apply demo_on_path|done|done].
  - done.
  - unfold key_ok; simpl; lia.
  - repeat constructor.
  - exists w'. split; [exact Hrun|exact (to_tree _ _ _ _ _ Hok)].
Defined.

(** ** What the walks from leaf to leaf guarantee. *)



(** [btrfs_next_leaf] from a leaf with items behind it returns 0 and moves
    the path to the first slot of the leaf that follows in key order; from the
    last leaf it returns 1 and the path stays.  The blocks never change. *)
Theorem next_leaf_correct {X : Type} `{ExtentTree X} (env : tree_env) (w : tree_world X) n (b : Z) pre l post
  (Hroot : root_ok (te_root env)) (Hn : (n < 8)%nat)
  (Hp : on_path (te_root env) (tw_blocks w) (tw_path w) n b pre l post)
  (Htop : p_nodes (tw_path w) (Z.of_nat n + 1) = None) :
  (post = [] -> btrfs_next_leaf w = Some (1, w)) /\
  (post <> [] -> exists p' l2 post2, btrfs_next_leaf w = Some (0, with_path w p') /\
     post = l2 ++ post2 /\ l2 <> [] /\ p_slots p' 0 = 0 /\
     on_path (te_root env) (tw_blocks w) p' n b (pre ++ l) l2 post2).
Proof.
  destruct (next_leaf_run env Hroot w n b pre l post Hn Hp Htop) as [H1 H2]. split; [done|].
  intros Hne. destruct (H2 Hne) as (p' & l2 & post2 & ? & ? & ? & ? & ? & _). by exists p', l2, post2.
Qed.

Lemma next_leaf_correct_witness :
  exists p' l2 post2, btrfs_next_leaf (with_path demo_world demo_path) = Some (0, with_path demo_world p') /\
    on_path small_root demo_blocks p' 1 4096 [item1] l2 post2.
Proof.
  destruct (next_leaf_correct demo_env (with_path demo_world demo_path) 1 4096 [] [item1] [item2; (key3, [8])]
    small_root_ok ltac:(lia) demo_on_path eq_refl) as [_ H2].
  destruct (H2 ltac:(discriminate)) as (p' & l2 & post2 & Hrun & _ & _ & _ & Hp). exists p', l2, post2.
  split; [exact Hrun|exact Hp].
Defined.

(** [btrfs_prev_leaf], the same in the other direction: the path moves to
    the last slot of the leaf before. *)
Theorem prev_leaf_correct {X : Type} `{ExtentTree X} (env : tree_env) (w : tree_world X) n (b : Z) pre l post
  (Hroot : root_ok (te_root env)) (Hn : (n < 8)%nat)
  (Hp : on_path (te_root env) (tw_blocks w) (tw_path w) n b pre l post)
  (Htop : p_nodes (tw_path w) (Z.of_nat n + 1) = None) :
  (pre = [] -> btrfs_prev_leaf w = Some (1, w)) /\
  (pre <> [] -> exists p' pre2 l2, btrfs_prev_leaf w = Some (0, with_path w p') /\
     pre = pre2 ++ l2 /\ l2 <> [] /\ p_slots p' 0 = Z.of_nat (length l2) - 1 /\
     on_path (te_root env) (tw_blocks w) p' n b pre2 l2 (l ++ post)).
Proof.
  destruct (prev_leaf_run env Hroot w n b pre l post Hn Hp Htop) as [H1 H2]. split; [done|].
  intros Hne. destruct (H2 Hne) as (p' & pre2 & l2 & ? & Hl2 & ? & ? & Hs & _). exists p', pre2, l2.
  do 3 (split; [done|]). split; [|done]. rewrite Hs. destruct l2; [done|]. simpl. lia.
Qed.

Lemma prev_leaf_correct_witness :
  exists p1 p2 pre l post, btrfs_next_leaf (with_path demo_world demo_path) = Some (0, with_path demo_world p1) /\
    btrfs_prev_leaf (with_path demo_world p1) = Some (0, with_path demo_world p2) /\
    on_path small_root demo_blocks p2 1 4096 pre l post.
Proof.
  destruct (next_leaf_run demo_env small_root_ok (with_path demo_world demo_path) 1 4096 [] [item1] [item2; (key3, [8])]
    ltac:(lia) demo_on_path eq_refl) as [_ H2].
  destruct (H2 ltac:(discriminate)) as (p1 & l2 & post2 & _ & _ & Hrun & Hp & _ & Hsame).
  assert (Htop : p_nodes p1 2 = None) by (destruct (Hsame 2 ltac:(lia)) as [-> _]; reflexivity).
  destruct (prev_leaf_correct demo_env (with_path demo_world p1) 1 4096 [item1] l2 post2 small_root_ok ltac:(lia) Hp Htop)
    as [_ H3].
  destruct (H3 ltac:(discriminate)) as (p2 & pre2 & l3 & Hrun2 & _ & _ & _ & Hp2).
  exists p1, p2, pre2, l3, (l2 ++ post2). split; [exact Hrun|]. split; [exact Hrun2|exact Hp2].
Defined.

(** ** The whole walk *)

(** Calling [btrfs_next_leaf] from [w] visits leaves with the items [ls], one
    by one, and then answers 1. *)
Fixpoint visits {X : Type} (root : btrfs_root) n (b : Z) (w : tree_world X) pre l (ls : list (list item)) : Prop :=
  match ls with
  | [] => btrfs_next_leaf w = Some (1, w)
  | l2 :: ls => exists p, btrfs_next_leaf w = Some (0, with_path w p) /\ l2 <> [] /\
      on_path root (tw_blocks w) p n b (pre ++ l) l2 (concat ls) /\
      visits root n b (with_path w p) (pre ++ l) l2 ls
  end.

Lemma walk_on {X : Type} `{ExtentTree X} (env : tree_env) (Hroot : root_ok (te_root env)) m n (b : Z) post :
  (n < 8)%nat -> forall (w : tree_world X) pre l, (length post <= m)%nat ->
  on_path (te_root env) (tw_blocks w) (tw_path w) n b pre l post -> p_nodes (tw_path w) (Z.of_nat n + 1) = None ->
  exists ls, post = concat ls /\ visits (te_root env) n b w pre l ls.
Proof.
  intros Hn. revert post. induction m as [|m IH]; intros post w pre l Hm Hp Htop;
    destruct (next_leaf_run env Hroot w n b pre l post Hn Hp Htop) as [H1 H2].
  - destruct post; [|simpl in Hm; lia]. exists []. split; [done|]. by apply H1.
  - destruct (decide (post = [])) as [->|Hne]; [exists []; split; [done|]; by apply H1|].
    destruct (H2 Hne) as (p' & l2 & post2 & -> & Hl2 & Hrun & Hp2 & _ & Hsame).
    destruct (IH post2 (with_path w p') (pre ++ l) l2) as (ls & -> & Hv).
    + rewrite length_app in Hm. destruct l2; [done|]. simpl in Hm. lia.
    + done.
    + destruct (Hsame (Z.of_nat n + 1) ltac:(lia)) as [Htop' _]. simpl. by rewrite Htop'.
    + exists (l2 :: ls). split; [done|]. by exists p'.
Qed.

(** C40: repeated [btrfs_next_leaf] always gets to the end: from any leaf, every
    leaf behind it is reached, in order, each once, and after the last one the
    answer is 1. *)
Theorem next_leaf_reaches_all {X : Type} `{ExtentTree X} (env : tree_env) (w : tree_world X) n (b : Z) pre l post
  (Hroot : root_ok (te_root env)) (Hn : (n < 8)%nat)
  (Hp : on_path (te_root env) (tw_blocks w) (tw_path w) n b pre l post)
  (Htop : p_nodes (tw_path w) (Z.of_nat n + 1) = None) :
  exists ls, post = concat ls /\ visits (te_root env) n b w pre l ls.
Proof. by apply (walk_on env Hroot (length post)). Qed.

Lemma next_leaf_reaches_all_witness :
  exists ls, [item2; (key3, [8])] = concat ls /\ visits small_root 1 4096 (with_path demo_world demo_path) [] [item1] ls.
Proof.
  apply (next_leaf_reaches_all demo_env (with_path demo_world demo_path) 1 4096 [] [item1] [item2; (key3, [8])]
    small_root_ok ltac:(lia) demo_on_path eq_refl).
Defined.

(** ** Blocks that cannot be read *)

(** when the neighbouring block of the parent cannot be read,
    [btrfs_next_leaf] returns [-EIO] and leaves the world as it was, while
    [btrfs_prev_leaf] goes on with the null pointer and crashes. *)
Theorem unreadable_neighbour {X : Type} `{ExtentTree X} (env : tree_env) (w : tree_world X) (c : Z) (e : extent_buffer) (s : Z)
  (Hc : p_nodes (tw_path w) 1 = Some c) (Hs : p_slots (tw_path w) 1 = s) (He : tw_blocks w !! c = Some e)
  (Hlev : btrfs_header_level (eb_data e) = 1) (Hs0 : 0 < s /\ s + 1 < btrfs_header_nritems (eb_data e)) :
  (tw_blocks w !! btrfs_node_blockptr (eb_data e) (s + 1) = None -> btrfs_next_leaf w = Some (- EIO, w)) /\
  (tw_blocks w !! btrfs_node_blockptr (eb_data e) (s - 1) = None -> btrfs_prev_leaf w = None).
Proof.
  pose proof (get_le_range 4 (eb_data e) 96) as Hnr. fold (btrfs_header_nritems (eb_data e)) in Hnr.
  change (256 ^ Z.of_nat 4) with (2 ^ 32) in Hnr.
  assert (Hread : forall i, 0 <= i < btrfs_header_nritems (eb_data e) ->
    tw_blocks w !! btrfs_node_blockptr (eb_data e) i = None -> read_node_slot c i w = Some (None, w)).
  { intros i Hi Hnone. unfold read_node_slot. rewrite (bind_some _ _ _ _ _ (eb_read_run w c e He)).
    rewrite (proj2 (Z.ltb_ge _ 0)), (proj2 (Z.leb_gt _ _)), Hlev by lia. unfold gets. simpl. by rewrite Hnone. }
  split; intros Hnone.
  - assert (Hup : next_leaf_up 7 1 w = Some (Some (1, c, s + 1), w)).
    { cbn [next_leaf_up]. rewrite (bind_some _ _ _ _ _ (path_node_run w 1 eq_refl)), Hc.
      rewrite (bind_some _ _ _ _ _ (path_slot_run w 1 eq_refl)), Hs. unfold nritems_of.
      rewrite bind_assoc, (bind_some _ _ _ _ _ (eb_read_run w c e He)).
      rewrite (bind_some _ _ w (btrfs_header_nritems (eb_data e)) w) by done.
      by rewrite !u32_id, (proj2 (Z.leb_gt _ _)) by lia. }
    unfold btrfs_next_leaf. change (Z.to_nat (BTRFS_MAX_LEVEL - 1)) with 7%nat.
    rewrite (bind_some _ _ _ _ _ Hup). by rewrite (bind_some _ _ _ _ _ (Hread (s + 1) ltac:(lia) Hnone)).
  - assert (Hup : prev_leaf_up 7 1 w = Some (Some (1, c, s - 1), w)).
    { cbn [prev_leaf_up]. rewrite (bind_some _ _ _ _ _ (path_node_run w 1 eq_refl)), Hc.
      rewrite (bind_some _ _ _ _ _ (path_slot_run w 1 eq_refl)), Hs.
      by rewrite (proj2 (Z.eqb_neq _ 0)) by lia. }
    unfold btrfs_prev_leaf. change (Z.to_nat (BTRFS_MAX_LEVEL - 1)) with 7%nat.
    rewrite (bind_some _ _ _ _ _ Hup). rewrite (bind_some _ _ _ _ _ (Hread (s - 1) ltac:(lia) Hnone)).
    by rewrite (bind_some _ _ _ _ _ (set_path_slot_run w 1 _ eq_refl)).
Qed.

(** The demo tree with three pointers of which the outer two lead nowhere. *)
Definition broken_node : buf :=
  put_ptr (put_ptr (put_ptr (blank 7 1) (KeyPtr key1 999 7)) (KeyPtr key2 12288 7)) (KeyPtr key3 998 7).
Definition broken_world : tree_world Z :=
  with_path (with_blocks demo_world (<[4096 := ExtentBuffer 4096 false broken_node]> demo_blocks))
    (BtrfsPath (fun i => if i =? 0 then Some 12288 else if i =? 1 then Some 4096 else None)
       (fun i => if i =? 1 then 1 else 0) 0 false).

Lemma unreadable_neighbour_witness :
  btrfs_next_leaf broken_world = Some (- EIO, broken_world) /\ btrfs_prev_leaf broken_world = None.
Proof.
  destruct (unreadable_neighbour demo_env broken_world 4096 (ExtentBuffer 4096 false broken_node) 1 eq_refl eq_refl eq_refl
    ltac:(vm_compute; reflexivity) ltac:(vm_compute; auto)) as [H1 H2].
  split; [apply H1; vm_compute; reflexivity|apply H2; vm_compute; reflexivity].
Defined.

(** ** No committed block is ever written. *)

Section Steps.
Context {X : Type} `{ExtentTree X} (env : tree_env).

(** One operation of a transaction on a tree.  The path carries over from one
    to the next: what a search that copies has found is what the changes work
    on. *)
Inductive tree_step (w : tree_world X) : tree_world X -> Prop :=
| step_search fuel key ins_len r w' :
    btrfs_search_slot env fuel key ins_len true w = Some (r, w') -> tree_step w w'
| step_insert fuel (l : list (btrfs_key * Z)) r w' :
    btrfs_insert_empty_items env fuel l w = Some (r, w') -> tree_step w w'
| step_insert_item fuel key data r w' :
    btrfs_insert_item env fuel key data w = Some (r, w') -> tree_step w w'
| step_del slot nr r w' :
    btrfs_del_items env slot nr w = Some (r, w') -> tree_step w w'
| step_truncate size from_end r w' :
    btrfs_truncate_item env size from_end w = Some (r, w') -> tree_step w w'
| step_extend size r w' :
    btrfs_extend_item env size w = Some (r, w') -> tree_step w w'
| step_split fuel key off r w' :
    btrfs_split_item env fuel key off w = Some (r, w') -> tree_step w w'
| step_set_key key r w' :
    btrfs_set_item_key_safe key w = Some (r, w') -> tree_step w w'
| step_release r w' :
    btrfs_release_path w = Some (r, w') -> tree_step w w'.

Context `{!PinnedExtents X}.

Lemma step_intact C w w' : tree_step w w' -> intact env C w -> intact env C w'.
Proof using Type.
  intros Hstep Hw.
  assert (Hk : forall V (a : act (tree_world X) V) P x, keeps env C a P -> a w = Some (x, w') -> intact env C w')
    by (intros V a P x Ha Hr; by destruct (Ha w x w' Hw Hr)).
  destruct Hstep as [f k i r u Hr|f l r u Hr|f k d r u Hr|s n r u Hr|s fe r u Hr|s r u Hr|f k o r u Hr|k r u Hr|r u Hr];
    eapply Hk; try exact Hr;
    [apply keeps_search_slot|apply keeps_insert_items|apply keeps_insert_item|apply keeps_del_items|apply keeps_truncate
    |apply keeps_extend|apply keeps_split_item|apply keeps_set_item_key_safe|apply keeps_release_path].
Qed.

Lemma steps_intact C w w' : rtc (tree_step) w w' -> intact env C w -> intact env C w'.
Proof using Type. induction 1 as [|w w1 w' Hstep Hrun IH]; eauto using step_intact. Qed.
End Steps.

(** C2: copy on write.  In any sequence of searches that copy, insertions,
    deletions, resizings, splits and key changes, started from a released path,
    no block that an earlier transaction wrote, or that this one has already
    written out, changes in any byte, whatever the blocks hold; the extent
    tree only has to keep pinned extents from being handed out. *)
Theorem committed_blocks_survive {X : Type} `{ExtentTree X} `{!PinnedExtents X} (env : tree_env) (w w' : tree_world X)
  (C : gmap Z extent_buffer) (Hpath : tw_path w = btrfs_init_path) (Hin : C ⊆ tw_blocks w)
  (Hold : forall b e, C !! b = Some e -> block_current env e = false)
  (Hpin : forall b, is_Some (C !! b) -> pinned (tw_ext w) b) (Hrun : rtc (tree_step env) w w') :
  C ⊆ tw_blocks w'.
Proof.
  assert (Hw : intact env C w) by (split; [done|done|done|by intros i b; rewrite Hpath]).
  apply (steps_intact env C w w' Hrun Hw).
Qed.

(** ** A committed leaf *)

#[export] Instance bump_pinned : PinnedExtents Z.
Proof.
  apply (Build_PinnedExtents Z bump_allocator (fun x a => a < x)); unfold keeps_pinned; simpl; intros;
    match goal with Heq : Some _ = Some _ |- _ => injection Heq; intros; subst end; lia.
Defined.

Definition old_leaf : extent_buffer := ExtentBuffer 4096 false (put_item small_root (blank 6 0) item1).
Definition old_world : tree_world Z := TreeWorld {[ 8192 := old_leaf ]} (Some 8192) btrfs_init_path 65536.
Definition new_world : tree_world Z :=
  match btrfs_insert_item demo_env 1 key2 [9] old_world with Some (_, w) => w | None => old_world end.

Lemma committed_blocks_survive_witness :
  tree_step demo_env old_world new_world /\ tw_node new_world <> Some 8192 /\ {[ 8192 := old_leaf ]} ⊆ tw_blocks new_world.
Proof.
  assert (Hstep : tree_step demo_env old_world new_world).
  { assert (Hrun : fst <$> btrfs_insert_item demo_env 1 key2 [9] old_world = Some 0) by (vm_compute; reflexivity).
    unfold new_world. destruct (btrfs_insert_item demo_env 1 key2 [9] old_world) as [[r u]|] eqn:E; [|discriminate].
    by apply (step_insert_item _ _ 1 key2 [9] r). }
  split; [exact Hstep|]. split; [vm_compute; discriminate|].
  apply (committed_blocks_survive demo_env old_world new_world {[ 8192 := old_leaf ]} eq_refl).
  - reflexivity.
  - intros b e [<- <-]%lookup_singleton_Some. vm_compute. reflexivity.
  - intros b [e [<- <-]%lookup_singleton_Some]. vm_compute. reflexivity.
  - by apply rtc_once.
Defined.

(** ** What the functions that move items and pointers between two blocks
    guarantee: nothing is lost, nothing changes place, nothing overflows. *)

Implicit Types (R : list item) (D S : list key_ptr) (root : btrfs_root).

(** ** Nodes *)

(** [push_node_left] moves the first pointers of [src] behind those of
    [dst]: the sequence of pointers stays the same, [dst] does not overflow,
    without [empty] at least eight pointers stay in [src]; when nothing may
    move it returns 1 and leaves both nodes alone. *)
Theorem push_node_left_correct root transid dst src D S empty
  (Hroot : root_ok root) (Hcur : both_current transid dst src = true)
  (HD : node_repr root dst D) (HS : node_repr root src S) :
  exists r dst' src' D' S', push_node_left root transid dst src empty = Some (r, dst', src') /\
    node_repr root dst' D' /\ node_repr root src' S' /\ D ++ S = D' ++ S' /\
    (r = 1 /\ D' = D /\ dst' = dst /\ src' = src \/
     r = 0 /\ (length D <= length D')%nat /\ (empty = false -> 8 <= Z.of_nat (length S'))).
Proof.
  pose proof (push_node_left_spec root Hroot transid dst src D S empty Hcur HD HS) as Hspec.
  destruct (left_push empty _ _ _) as [n|] eqn:Hn.
  - destruct Hspec as (dst' & src' & Hrun & Hb & H1 & H2).
    exists 0, dst', src', (D ++ take (Z.to_nat n) S), (drop (Z.to_nat n) S).
    split; [done|]. split; [done|]. split; [done|]. split; [by rewrite <- (assoc_L (++)), take_drop|].
    right. split; [done|]. split; [rewrite length_app; lia|]. intros ->.
    unfold left_push in Hn. cbn [negb andb] in Hn. revert Hn. zcase; [done..|]. intros [= <-]. rewrite length_drop. lia.
  - exists 1, dst, src, D, S. do 4 (split; [done|]). by left.
Qed.

Lemma push_node_left_correct_witness :
  exists r dst' src' D' S', push_node_left small_root 7 (put_ptr (blank 7 1) ptr1) (put_ptr (blank 7 1) ptr2) true =
    Some (r, dst', src') /\ node_repr small_root dst' D' /\ node_repr small_root src' S' /\ [ptr1] ++ [ptr2] = D' ++ S'.
Proof.
  destruct (push_node_left_correct small_root 7 (put_ptr (blank 7 1) ptr1) (put_ptr (blank 7 1) ptr2) [ptr1] [ptr2] true
    small_root_ok ltac:(vm_compute; reflexivity)) as (r & dst' & src' & D' & S' & Hrun & H1 & H2 & H3 & _).
  - split; vm_compute; congruence.
  - split; vm_compute; congruence.
  - exists r, dst', src', D', S'. split; [exact Hrun|]. split; [exact H1|]. split; [exact H2|exact H3].
Defined.

(** [balance_node_right] moves the last pointers of [src] before those of
    [dst]: as many as fit, but at most half of [src] and one more; the
    sequence of pointers stays the same and [src] is not emptied. *)
Theorem balance_node_right_correct root transid dst src D S
  (Hroot : root_ok root) (Hcur : both_current transid dst src = true)
  (HD : node_repr root dst D) (HS : node_repr root src S) :
  exists r dst' src' D' S', balance_node_right root transid dst src = Some (r, dst', src') /\
    node_repr root dst' D' /\ node_repr root src' S' /\ S ++ D = S' ++ D' /\
    let room := BTRFS_NODEPTRS_PER_BLOCK root - Z.of_nat (length D) in
    if (4 <=? Z.of_nat (length S)) && (0 <? room)
    then r = 0 /\ Z.of_nat (length D') = Z.of_nat (length D) + Z.min (Z.of_nat (length S) / 2 + 1) room /\ S' <> []
    else r = 1 /\ dst' = dst /\ src' = src.
Proof.
  pose proof (balance_node_right_spec root Hroot transid dst src D S Hcur HD HS) as Hspec. revert Hspec.
  unfold right_push. cbv zeta.
  destruct (Z.leb_spec (BTRFS_NODEPTRS_PER_BLOCK root - Z.of_nat (length D)) 0),
    (Z.ltb_spec (Z.of_nat (length S)) 4), (Z.leb_spec 4 (Z.of_nat (length S))),
    (Z.ltb_spec 0 (BTRFS_NODEPTRS_PER_BLOCK root - Z.of_nat (length D))); try lia; simpl;
    try (intros Hrun; exists 1, dst, src, D, S; done).
  intros (dst' & src' & S1 & S2 & Hrun & -> & Hlen & HS1 & HS2 & H3 & H4).
  exists 0, dst', src', (S2 ++ D), S1. split; [done|]. split; [done|]. split; [done|]. split; [by rewrite (assoc_L (++))|].
  split; [done|]. split; [|done]. rewrite (length_app S2), Nat2Z.inj_add. lia.
Qed.

Lemma balance_node_right_correct_witness :
  exists r dst' src' D' S', balance_node_right small_root 7 (put_ptr (blank 7 1) ptr2) (put_ptr (blank 7 1) ptr1) =
    Some (r, dst', src') /\ node_repr small_root dst' D' /\ node_repr small_root src' S' /\ [ptr1] ++ [ptr2] = S' ++ D'.
Proof.
  destruct (balance_node_right_correct small_root 7 (put_ptr (blank 7 1) ptr2) (put_ptr (blank 7 1) ptr1) [ptr2] [ptr1]
    small_root_ok ltac:(vm_compute; reflexivity)) as (r & dst' & src' & D' & S' & Hrun & H1 & H2 & H3 & _).
  - split; vm_compute; congruence.
  - split; vm_compute; congruence.
  - exists r, dst', src', D', S'. split; [exact Hrun|]. split; [exact H1|]. split; [exact H2|exact H3].
Defined.

(** A pointer that [insert_ptr] puts in a node is taken out again by
    [btrfs_del_ptr] of the same slot, at any slot of a node that is not full:
    in between the node holds exactly one more pointer, at that slot. *)
Theorem insert_ptr_del_ptr root transid b (A B : list key_ptr) key bytenr
  (Hroot : root_ok root) (Hr : node_repr root b (A ++ B)) (Hk : key_ok key) (Hb : 0 <= bytenr < 2 ^ 64)
  (Ht : 0 < transid < 2 ^ 64) (Hfit : Z.of_nat (length (A ++ B)) < BTRFS_NODEPTRS_PER_BLOCK root) :
  exists b', insert_ptr_node root transid b key bytenr (Z.of_nat (length A)) = Some b' /\
    node_repr root b' (A ++ KeyPtr key bytenr transid :: B) /\
    node_repr root (del_ptr_node b' (Z.of_nat (length A))) (A ++ B).
Proof.
  destruct (insert_ptr_node_spec root Hroot b A B transid key bytenr Hr Hk Hb Ht Hfit) as (b' & Hins & Hr').
  exists b'. split; [done|]. split; [done|]. by apply (del_ptr_node_spec root Hroot _ _ _ _ Hr').
Qed.

Lemma insert_ptr_del_ptr_witness :
  exists b', insert_ptr_node small_root 7 demo_node key2 777 1 = Some b' /\
    node_repr small_root (del_ptr_node b' 1) [ptr1; ptr2].
Proof.
  destruct (insert_ptr_del_ptr small_root 7 demo_node [ptr1] [ptr2] key2 777 small_root_ok) as (b' & Hrun & _ & Hr).
  - split; vm_compute; congruence.
  - unfold key_ok; simpl; lia.
  - lia.
  - lia.
  - vm_compute. reflexivity.
  - exists b'. split; [exact Hrun|exact Hr].
Defined.

(** ** Leaves *)

(** [push_leaf_right]: the number of items its loop counts, moved by its
    copy: the sequence of items of the two leaves stays the same, in the
    right leaf they fit, and without [empty] the left leaf keeps an item. *)
Theorem push_leaf_right_correct root left right slot0 data_size (empty : bool) A R
  (Hroot : root_ok root) (HL : leaf_repr root left A) (HR : leaf_repr root right R) (HA : A <> [])
  (Hd : 0 <= data_size < 2 ^ 30) :
  let n := fst (push_right_loop (length A - 1) left slot0 data_size (room root R) (if empty then 0 else 1) 0 0) in
  n = 0 \/
  exists left' right' A' R', push_right_copy root left right n = (left', right') /\
    leaf_repr root left' A' /\ leaf_repr root right' R' /\ A ++ R = A' ++ R' /\
    Z.of_nat (length R') = Z.of_nat (length R) + n /\ (empty = false -> A' <> []).
Proof.
  pose proof (repr_bounds root Hroot _ _ HR) as HbR. pose proof (dsize_nonneg R).
  assert (Hroom : room root R < 65536) by (unfold room; leaf_lia).
  assert (Hroom0 : 0 <= room root R) by (unfold room; leaf_lia).
  destruct (push_right_loop_spec root Hroot left slot0 data_size (room root R) (if empty then 0 else 1) A [] 0)
    as (A' & X & ps & Hloop & HAX & HX & Hnr); try done.
  { by rewrite app_nil_r. }
  { destruct A, empty; simpl; (done || lia). }
  simpl length in Hloop. change (Z.of_nat 0) with 0 in Hloop. rewrite Hloop. cbn [fst].
  rewrite app_nil_r in HAX. subst A. destruct (decide (X = [])) as [->|Hne]; [by left|]. right.
  destruct (push_right_copy_spec root Hroot left right A' X R HL HR Hne) as (left' & right' & Hc & H1 & H2).
  { rewrite dsize_app, length_app. unfold weight, room in HX. leaf_lia. }
  exists left', right', A', (X ++ R). split; [done|]. split; [done|]. split; [done|]. split; [by rewrite (assoc_L (++))|].
  split; [rewrite length_app; lia|]. intros ->. destruct A'; [simpl in Hnr; lia|done].
Qed.

Lemma push_leaf_right_correct_witness :
  exists left' right' A' R', push_right_copy small_root demo_leaf1 demo_leaf2 1 = (left', right') /\
    leaf_repr small_root left' A' /\ leaf_repr small_root right' R' /\ demo_items = A' ++ R'.
Proof.
  destruct (push_leaf_right_correct small_root demo_leaf1 demo_leaf2 0 1 true [item1] [item2; (key3, [8])] small_root_ok)
    as [Hn|(left' & right' & A' & R' & Hrun & H1 & H2 & H3 & _)].
  - split; vm_compute; congruence.
  - split; vm_compute; congruence.
  - done.
  - lia.
  - exfalso. revert Hn. vm_compute. discriminate.
  - exists left', right', A', R'. split; [|split; [exact H1|split; [exact H2|exact H3]]].
    rewrite <- Hrun. f_equal.
Defined.

(** [push_leaf_left], the same to the other side: the first items of the
    right leaf go behind those of the left one, which do not overflow. *)
Theorem push_leaf_left_correct root left right slot0 data_size n L B
  (Hroot : root_ok root) (HL : leaf_repr root left L) (HR : leaf_repr root right B) (HLn : L <> [])
  (Hd : 0 <= data_size < 2 ^ 30) (Hn : (n <= length B)%nat) :
  let k := fst (push_left_loop n 0 right slot0 data_size (room root L) 0 0) in
  0 <= k <= Z.of_nat n /\
  (k = 0 \/
   exists left' right' L' B', push_left_copy root left right k = Some (left', right') /\
     leaf_repr root left' L' /\ leaf_repr root right' B' /\ L ++ B = L' ++ B' /\
     Z.of_nat (length L') = Z.of_nat (length L) + k).
Proof.
  pose proof (repr_bounds root Hroot _ _ HL) as HbL. pose proof (dsize_nonneg L).
  assert (Hroom : room root L < 65536) by (unfold room; leaf_lia).
  assert (Hroom0 : 0 <= room root L) by (unfold room; leaf_lia).
  destruct (push_left_loop_spec root Hroot right slot0 data_size (room root L) n [] (take n B) (drop n B) 0)
    as (X & B' & ps & Hloop & HXB & HX); try done.
  { simpl. by rewrite take_drop. }
  { rewrite length_take. lia. }
  simpl length in Hloop. change (Z.of_nat 0) with 0 in Hloop. simpl in HXB. rewrite Hloop. cbn [fst]. split.
  { apply (f_equal length) in HXB. rewrite length_take, length_app in HXB. lia. }
  destruct (decide (X = [])) as [->|Hne]; [by left|]. right.
  rewrite <- (take_drop n B), HXB in HR. rewrite <- (assoc_L (++)) in HR.
  destruct (push_left_copy_spec root Hroot left right L X (B' ++ drop n B) HL HR Hne HLn) as (left' & right' & Hc & H1 & H2).
  { rewrite dsize_app, length_app. unfold weight, room in HX. leaf_lia. }
  exists left', right', (L ++ X), (B' ++ drop n B). split; [done|]. split; [done|]. split; [done|]. split.
  - rewrite <- (take_drop n B) at 1. by rewrite HXB, <- !(assoc_L (++)).
  - rewrite length_app. lia.
Qed.

Lemma push_leaf_left_correct_witness :
  exists left' right' L' B', push_left_copy small_root demo_leaf1 demo_leaf2 2 = Some (left', right') /\
    leaf_repr small_root left' L' /\ leaf_repr small_root right' B' /\ demo_items = L' ++ B'.
Proof.
  destruct (push_leaf_left_correct small_root demo_leaf1 demo_leaf2 0 1 2 [item1] [item2; (key3, [8])] small_root_ok)
    as [_ [Hn|(left' & right' & L' & B' & Hrun & H1 & H2 & H3 & _)]].
  - split; vm_compute; congruence.
  - split; vm_compute; congruence.
  - done.
  - lia.
  - simpl. lia.
  - exfalso. revert Hn. vm_compute. discriminate.
  - exists left', right', L', B'. split; [|split; [exact H1|split; [exact H2|exact H3]]].
    rewrite <- Hrun. f_equal.
Defined.
