(* ===== verification/ListSort.v ===== *)
(** The merge sort of [src/list_sort.c].

    The chains of [struct list_head]s that the code builds with their [next]
    pointers are lists; a null pointer is the empty list.  What [list_sort] leaves
    behind is a [ring], with the [prev] pointers too.  The comparison gets its
    private data from the closure and has no effects, so the calls that only let
    the client run are left out.  [list_sort] is [None] where the code would leave
    the array of partial lists or follow a null pointer. *)

From stdpp Require Import sorting.
From S2P Require Import Prelude.

Section Sort.
Context {A : Type} (cmp : A -> A -> Z).

Definition MAX_LIST_LENGTH_BITS : nat := 20.

Fixpoint merge (a : list A) : list A -> list A :=
  fix merge_b (b : list A) : list A :=
    match a, b with
    | [], _ => b
    | _, [] => a
    | x :: a', y :: b' => if cmp x y <=? 0 then x :: merge a' b else y :: merge_b b'
    end.

(** A closed list: the nodes in the order of [next], each with the node its [prev]
    points to, and the [prev] of the head; [None] is the head. *)
Record ring := Ring { rg_nodes : list (option A * A); rg_last : option A }.

Definition ring_cons (x : option A * A) (r : ring) : ring := Ring (x :: rg_nodes r) (rg_last r).

(** The second loop of the final merge, over what is left of one list. *)
Fixpoint restore_links (tail : option A) (l : list A) : ring :=
  match l with
  | [] => Ring [] tail
  | x :: l => ring_cons (tail, x) (restore_links (Some x) l)
  end.

(** The final merge; its second loop follows a pointer before it tests it. *)
Fixpoint merge_and_restore_back_links (a : list A) : option A -> list A -> option ring :=
  fix merge_b (tail : option A) (b : list A) : option ring :=
    match a, b with
    | [], [] => None
    | [], _ => Some (restore_links tail b)
    | _, [] => Some (restore_links tail a)
    | x :: a', y :: b' =>
        if cmp x y <=? 0 then ring_cons (tail, x) <$> merge_and_restore_back_links a' (Some x) b
        else ring_cons (tail, y) <$> merge_b (Some y) b'
    end.

(** The inner loop: merge upwards to the first level that is free. *)
Fixpoint carry (part : list (list A)) (cur : list A) : option (nat * list (list A) * list A) :=
  match part with
  | [] => None
  | [] :: ps => Some (O, [] :: ps, cur)
  | p :: ps =>
      '(lev, ps, cur) ← carry ps (merge p cur);
      Some (S lev, [] :: ps, cur)
  end.

(** One element: the partial lists and [max_lev]. *)
Definition sort_one (s : list (list A) * nat) (x : A) : option (list (list A) * nat) :=
  let '(part, max_lev) := s in
  '(lev, part, cur) ← carry part [x];
  let '(lev, max_lev) :=
    if (max_lev <? lev)%nat then
      let lev := if (MAX_LIST_LENGTH_BITS <=? lev)%nat then pred lev else lev in (lev, lev)
    else (lev, max_lev) in
  Some (<[lev := cur]> part, max_lev).

Fixpoint sort_all (s : list (list A) * nat) (l : list A) : option (list (list A) * nat) :=
  match l with
  | [] => Some s
  | x :: l => s ← sort_one s x; sort_all s l
  end.

(** Merge the levels below [max_lev] into one list. *)
Definition collect (part : list (list A)) : list A :=
  foldl (fun acc p => match p with [] => acc | _ => merge p acc end) [] part.

Definition list_sort (l : list A) : option ring :=
  match l with
  | [] => Some (Ring [] None)
  | _ =>
      '(part, max_lev) ← sort_all (replicate (S MAX_LIST_LENGTH_BITS) [], O) l;
      top ← part !! max_lev;
      merge_and_restore_back_links top None (collect (take max_lev part))
  end.

(** ** Stable insertion, the reference *)

Fixpoint ins (x : A) (l : list A) : list A :=
  match l with
  | [] => [x]
  | y :: l' => if cmp x y <=? 0 then x :: l else y :: ins x l'
  end.

Definition isort (l : list A) : list A := foldr ins [] l.

Context (cmp_total : forall x y, cmp x y <= 0 \/ cmp y x <= 0).
Context (cmp_trans : forall x y z, cmp x y <= 0 -> cmp y z <= 0 -> cmp x z <= 0).

Lemma merge_nil_r a : merge a [] = a.
Proof using Type. by destruct a. Qed.
Lemma merge_nil_l b : merge [] b = b.
Proof using Type. by destruct b. Qed.

Lemma merge_cons x a y b :
  merge (x :: a) (y :: b) = if cmp x y <=? 0 then x :: merge a (y :: b) else y :: merge (x :: a) b.
Proof using Type. done. Qed.

(** The links the final merge sets are those of the merged list. *)
Lemma final_merge_links a b tail :
  a <> [] \/ b <> [] -> merge_and_restore_back_links a tail b = Some (restore_links tail (merge a b)).
Proof using Type.
  revert tail b. induction a as [|x a IHa]; intros tail b.
  - rewrite merge_nil_l. destruct b; [by intros [?|?]|done].
  - intros _. revert tail. induction b as [|y b IHb]; intros tail; [done|]. rewrite merge_cons. cbn [merge_and_restore_back_links].
    destruct (cmp x y <=? 0); [rewrite IHa by (right; done); done|]. cbn [merge_and_restore_back_links] in IHb. by rewrite IHb.
Qed.

(** A list with its back links, each to the node before. *)
Definition linked (l : list A) : ring := Ring (zip (None :: (Some <$> l)) l) (last l).

Lemma restore_links_linked l : restore_links None l = linked l.
Proof using Type.
  enough (forall tail, restore_links tail l = Ring (zip (tail :: (Some <$> l)) l) (match l with [] => tail | _ => last l end)) as Hl.
  { rewrite Hl. by destruct l. }
  induction l as [|x l IH]; intros tail; [done|]. cbn [restore_links fmap list_fmap zip zip_with]. rewrite IH. unfold ring_cons. cbn.
  done.
Qed.

(** Merging after an insertion is inserting after the merge. *)
Lemma merge_ins x a b : merge (ins x a) b = ins x (merge a b).
Proof using cmp_total cmp_trans.
  revert b. induction a as [|z a IHa]; intros b.
  - cbn [ins]. rewrite merge_nil_l. induction b as [|y b IH]; [done|].
    rewrite merge_cons, merge_nil_l. cbn [ins]. destruct (_ <=? _); [done|]. by rewrite IH.
  - cbn [ins]. destruct (Z.leb_spec (cmp x z) 0) as [Hxz|Hxz].
    + induction b as [|y b IHb]; [cbn [merge ins]; by rewrite (proj2 (Z.leb_le _ _))|].
      rewrite (merge_cons x), (merge_cons z a).
      destruct (Z.leb_spec (cmp x y) 0) as [Hxy|Hxy].
      * destruct (Z.leb_spec (cmp z y) 0); cbn [ins]; by rewrite (proj2 (Z.leb_le _ _)).
      * destruct (Z.leb_spec (cmp z y) 0); [pose proof (cmp_trans x z y); lia|].
        cbn [ins]. rewrite (proj2 (Z.leb_gt _ _)) by lia. by rewrite IHb.
    + assert (Hzx : cmp z x <= 0) by (destruct (cmp_total x z); lia).
      induction b as [|y b IHb].
      { rewrite !merge_nil_r. cbn [ins]. by rewrite (proj2 (Z.leb_gt _ _)). }
      rewrite !merge_cons. destruct (Z.leb_spec (cmp z y) 0).
      * rewrite IHa. cbn [ins]. by rewrite (proj2 (Z.leb_gt _ _)).
      * rewrite IHb. cbn [ins]. rewrite (proj2 (Z.leb_gt (cmp x y) 0)); [done|].
        destruct (Z.lt_ge_cases 0 (cmp x y)); [done|]. pose proof (cmp_trans z x y). lia.
Qed.

Lemma isort_cons x l : isort (x :: l) = ins x (isort l).
Proof using Type. done. Qed.

Lemma merge_isort l m : merge (isort l) (isort m) = isort (l ++ m).
Proof using cmp_total cmp_trans.
  induction l as [|x l IH]; [apply merge_nil_l|]. cbn [app]. by rewrite !isort_cons, merge_ins, IH.
Qed.

Lemma ins_not_nil x l : ins x l <> [].
Proof using Type. destruct l; simpl; [done|]. by destruct (_ <=? _). Qed.

Lemma isort_nil l : isort l = [] -> l = [].
Proof using Type. destruct l; [done|]. intros Hn. by apply ins_not_nil in Hn. Qed.

(** ** The partial lists *)

(** Level by level the list is sorted pieces of the input, the later ones at
    the lower levels. *)
Definition taken (segs : list (list A)) : list A := concat (reverse segs).

Lemma taken_cons s segs : taken (s :: segs) = taken segs ++ s.
Proof using Type. unfold taken. rewrite reverse_cons, concat_app. simpl. by rewrite app_nil_r. Qed.

Lemma taken_empty n : taken (replicate n []) = [].
Proof using Type. induction n as [|n IH]; [done|]. simpl. by rewrite taken_cons, IH. Qed.

Lemma carry_spec segs c :
  Exists (fun s => s = []) segs ->
  exists lev rest, carry (isort <$> segs) (isort c) = Some (lev, isort <$> (replicate lev [] ++ [] :: rest), isort (taken (take lev segs) ++ c)) /\
    segs = take lev segs ++ [] :: rest /\ (lev < length segs)%nat /\ Forall (fun s => s <> []) (take lev segs).
Proof using cmp_total cmp_trans.
  revert c. induction segs as [|s segs IH]; intros c Hex; [by apply Exists_nil in Hex|].
  destruct s as [|x s].
  - exists O, segs. simpl. split; [done|]. split; [done|]. split; [lia|constructor].
  - apply Exists_cons in Hex as [|Hex]; [done|]. destruct (IH ((x :: s) ++ c) Hex) as (lev & rest & Hrun & Hsegs & Hlev & Hne).
    exists (S lev), rest. cbn [fmap list_fmap carry take replicate app length].
    destruct (isort (x :: s)) as [|y ys] eqn:Es; [by apply isort_nil in Es|]. rewrite <- Es, merge_isort.
    rewrite Hrun. cbn [mbind option_bind]. rewrite taken_cons, <- (assoc_L (++)).
    split; [done|]. split; [by f_equal|]. split; [lia|]. by constructor.
Qed.


Lemma taken_app s t : taken (s ++ t) = taken t ++ taken s.
Proof using Type. unfold taken. by rewrite reverse_app, concat_app. Qed.

Lemma taken_all_empty segs : (forall i s, segs !! i = Some s -> s = []) -> taken segs = [].
Proof using Type.
  induction segs as [|s segs IH]; intros He; [done|]. rewrite taken_cons, (He O s eq_refl), app_nil_r.
  apply IH. intros i t Ht. by apply (He (S i)).
Qed.

Lemma taken_nil segs s : taken segs = [] -> s ∈ segs -> s = [].
Proof using Type.
  induction segs as [|t segs IH]; intros Ht Hs; [by apply not_elem_of_nil in Hs|].
  rewrite taken_cons in Ht. apply app_eq_nil in Ht as [H1 H2]. apply elem_of_cons in Hs as [->|Hs]; auto.
Qed.

(** What the loop keeps. *)
Record parts_ok (segs : list (list A)) (max_lev : nat) (l : list A) : Prop := {
  po_length : length segs = S MAX_LIST_LENGTH_BITS;
  po_taken : taken segs = l;
  po_max : (max_lev < MAX_LIST_LENGTH_BITS)%nat;
  po_above : forall i s, (max_lev < i)%nat -> segs !! i = Some s -> s = [];
  po_top : l = [] /\ max_lev = O \/ exists s, segs !! max_lev = Some s /\ s <> [];
}.

Lemma parts_start : parts_ok (replicate (S MAX_LIST_LENGTH_BITS) []) O [].
Proof using Type.
  split; [done|apply taken_empty|unfold MAX_LIST_LENGTH_BITS; lia| |by left].
  intros i s _ Hs. by apply lookup_replicate in Hs as [-> _].
Qed.

Lemma insert_replicate lev (s : list A) rest :
  <[lev := s]> (replicate lev [] ++ [] :: rest) = replicate lev [] ++ s :: rest.
Proof using Type. rewrite insert_app_r_alt by (by rewrite length_replicate). by rewrite length_replicate, Nat.sub_diag. Qed.

Lemma sort_one_spec segs max_lev l x :
  parts_ok segs max_lev l ->
  exists segs' max_lev', sort_one (isort <$> segs, max_lev) x = Some (isort <$> segs', max_lev') /\
    parts_ok segs' max_lev' (l ++ [x]).
Proof using cmp_total cmp_trans.
  intros [Hlen Htk Hmax Habove Htop].
  assert (Hex : Exists (fun s => s = []) segs).
  { apply Exists_exists. destruct (lookup_lt_is_Some_2 segs MAX_LIST_LENGTH_BITS) as [s Hs]; [lia|].
    exists s. split; [by eapply list_elem_of_lookup_2|by eapply Habove]. }
  destruct (carry_spec segs [x] Hex) as (lev & rest & Hrun & Hsegs & Hlev & Hne).
  set (pre := take lev segs) in *. set (c := taken pre ++ [x]) in *.
  assert (Hpre : length pre = lev) by (unfold pre; rewrite length_take; lia).
  assert (Hl : l ++ [x] = taken rest ++ c).
  { rewrite <- Htk, Hsegs, taken_app, taken_cons, app_nil_r. unfold c. by rewrite <- (assoc_L (++)). }
  assert (Hrest : forall i, rest !! i = segs !! (lev + S i)%nat)
    by (intros i; rewrite Hsegs, lookup_app_r by lia; by rewrite Hpre, Nat.add_comm, Nat.add_sub).
  assert (Hcne : c <> []) by (unfold c; by destruct (taken pre)).
  assert (Hlr : length rest = (MAX_LIST_LENGTH_BITS - lev)%nat)
    by (apply (f_equal length) in Hsegs; rewrite length_app in Hsegs; simpl in Hsegs; lia).
  unfold sort_one. change (carry (isort <$> segs) [x]) with (carry (isort <$> segs) (isort [x])). rewrite Hrun. cbn [mbind option_bind].
  destruct (Nat.ltb_spec max_lev lev) as [Hgt|Hle].
  - destruct (Nat.leb_spec MAX_LIST_LENGTH_BITS lev) as [Hfull|Hfit].
    + (* the sentinel was reached *)
      assert (Heq : lev = S 19) by (unfold MAX_LIST_LENGTH_BITS in *; lia). clearbody pre c. subst lev. rewrite Heq in *.
      destruct rest; [|simpl in Hlr; unfold MAX_LIST_LENGTH_BITS in *; lia].
      exists (replicate 19 [] ++ [c; []]), 19%nat. split.
      * by rewrite <- list_fmap_insert.
      * rewrite Hl. split; [done|by rewrite taken_app, taken_empty, app_nil_r, taken_cons|unfold MAX_LIST_LENGTH_BITS; lia| |].
        -- intros i s Hi Hs. do 20 (destruct i as [|i]; [lia|]). destruct i; by inversion Hs.
        -- right. by exists c.
    + exists (replicate lev [] ++ c :: rest), lev. rewrite <- list_fmap_insert, insert_replicate. split; [done|].
      rewrite Hl. split; [rewrite length_app, length_replicate; simpl; lia|by rewrite taken_app, taken_cons, taken_empty, app_nil_r|done| |].
      * intros i s Hi Hs. rewrite lookup_app_r, length_replicate in Hs by (rewrite length_replicate; lia).
        destruct (i - lev)%nat as [|k] eqn:Ek; [lia|]. cbn in Hs. rewrite Hrest in Hs. apply (Habove (lev + S k)%nat s); [lia|done].
      * right. exists c. split; [|done]. rewrite lookup_app_r by (by rewrite length_replicate). by rewrite length_replicate, Nat.sub_diag.
  - exists (replicate lev [] ++ c :: rest), max_lev. rewrite <- list_fmap_insert, insert_replicate. split; [done|].
    rewrite Hl. split; [rewrite length_app, length_replicate; simpl; lia|by rewrite taken_app, taken_cons, taken_empty, app_nil_r|done| |].
    + intros i s Hi Hs. rewrite lookup_app_r, length_replicate in Hs by (rewrite length_replicate; lia).
      destruct (i - lev)%nat as [|k] eqn:Ek; [lia|]. cbn in Hs. rewrite Hrest in Hs. apply (Habove (lev + S k)%nat s); [lia|done].
    + right. rewrite lookup_app_r, length_replicate by (rewrite length_replicate; lia).
      destruct (max_lev - lev)%nat as [|k] eqn:Ek; [by exists c|]. cbn. rewrite Hrest.
      destruct Htop as [[Hnil Hz]|(s & Hs & Hsn)]; [lia|]. exists s. by replace (lev + S k)%nat with max_lev by lia.
Qed.

Lemma sort_all_spec l segs max_lev done :
  parts_ok segs max_lev done ->
  exists segs' max_lev', sort_all (isort <$> segs, max_lev) l = Some (isort <$> segs', max_lev') /\
    parts_ok segs' max_lev' (done ++ l).
Proof using cmp_total cmp_trans.
  revert segs max_lev done. induction l as [|x l IH]; intros segs max_lev done Hok.
  - exists segs, max_lev. by rewrite app_nil_r.
  - destruct (sort_one_spec segs max_lev done x Hok) as (segs1 & m1 & Hrun & Hok1).
    destruct (IH _ _ _ Hok1) as (segs2 & m2 & Hrun2 & Hok2). exists segs2, m2.
    cbn [sort_all]. rewrite Hrun. cbn [mbind option_bind]. rewrite Hrun2. split; [reflexivity|]. by rewrite <- (assoc_L (++)) in Hok2.
Qed.

Lemma collect_spec segs : collect (isort <$> segs) = isort (taken segs).
Proof using cmp_total cmp_trans.
  unfold collect. induction segs as [|s segs IH] using rev_ind; [done|].
  rewrite fmap_app, foldl_app, IH, taken_app. cbn [fmap list_fmap foldl].
  assert (Ht : taken [s] = s) by (unfold taken; simpl; apply app_nil_r). rewrite Ht.
  destruct (isort s) as [|y ys] eqn:Es; [|by rewrite <- Es, merge_isort]. by apply isort_nil in Es as ->.
Qed.

Lemma list_sort_isort l : list_sort l = Some (linked (isort l)).
Proof using cmp_total cmp_trans.
  destruct l as [|x l]; [done|]. unfold list_sort.
  destruct (sort_all_spec (x :: l) _ _ _ parts_start) as (segs & m & Hrun & [Hlen Htk Hmax Habove Htop]).
  rewrite fmap_replicate in Hrun. change (isort []) with (@nil A) in Hrun. rewrite Hrun. cbn [mbind option_bind].
  destruct Htop as [[Hnil _]|(s & Hs & Hsn)]; [done|]. rewrite list_lookup_fmap, Hs. cbn [fmap option_fmap option_map mbind option_bind].
  rewrite <- fmap_take, collect_spec.
  assert (Hdrop : taken (drop (S m) segs) = []).
  { apply taken_all_empty. intros i t Ht. rewrite lookup_drop in Ht. apply (Habove (S m + i)%nat t); [lia|done]. }
  assert (Hall : [] ++ x :: l = s ++ taken (take m segs)).
  { rewrite <- Htk, <- (take_drop_middle segs m s Hs) at 1. by rewrite taken_app, taken_cons, Hdrop. }
  cbn [app] in Hall. rewrite Hall, <- merge_isort, final_merge_links; [by rewrite restore_links_linked|].
  left. intros Es. by apply isort_nil in Es.
Qed.

(** ** What stable insertion gives *)

Lemma ins_perm x l : ins x l ≡ₚ x :: l.
Proof using Type.
  induction l as [|y l IH]; [done|]. cbn [ins]. destruct (_ <=? _); [done|]. rewrite IH. apply perm_swap.
Qed.

Lemma isort_perm l : isort l ≡ₚ l.
Proof using Type. induction l as [|x l IH]; [done|]. by rewrite isort_cons, ins_perm, IH. Qed.

Definition le (x y : A) : Prop := cmp x y <= 0.

Lemma ins_sorted x l : StronglySorted le l -> StronglySorted le (ins x l).
Proof using cmp_total cmp_trans.
  induction 1 as [|y l Hl IH Hy]; [by repeat constructor|]. cbn [ins]. destruct (Z.leb_spec (cmp x y) 0) as [Hxy|Hxy].
  - constructor; [by constructor|]. constructor; [done|]. eapply Forall_impl; [done|]. intros z Hz. by apply (cmp_trans x y z).
  - constructor; [done|]. apply Forall_forall. intros z Hz. rewrite ins_perm in Hz. apply elem_of_cons in Hz as [->|Hz].
    + unfold le. destruct (cmp_total x y); [lia|done].
    + by rewrite Forall_forall in Hy; apply Hy.
Qed.

Lemma isort_sorted l : StronglySorted le (isort l).
Proof using cmp_total cmp_trans. induction l as [|x l IH]; [constructor|]. by apply ins_sorted. Qed.

(** Elements that compare equal to [k]. *)
Definition same (k y : A) : bool := (cmp k y <=? 0) && (cmp y k <=? 0).

Lemma ins_same k x l : List.filter (same k) (ins x l) = List.filter (same k) (x :: l).
Proof using cmp_trans.
  induction l as [|y l IH]; [done|]. cbn [ins]. destruct (Z.leb_spec (cmp x y) 0) as [Hxy|Hxy]; [done|].
  cbn [List.filter] in *. rewrite IH. destruct (same k x) eqn:Ex, (same k y) eqn:Ey; try done.
  unfold same in Ex, Ey. apply andb_true_iff in Ex as [E1%Z.leb_le E2%Z.leb_le]. apply andb_true_iff in Ey as [E3%Z.leb_le E4%Z.leb_le].
  pose proof (cmp_trans x k y). lia.
Qed.

Lemma isort_same k l : List.filter (same k) (isort l) = List.filter (same k) l.
Proof using cmp_trans.
  induction l as [|x l IH]; [done|]. rewrite isort_cons, ins_same. cbn [List.filter]. by rewrite IH.
Qed.

End Sort.

(** ** What [list_sort] promises. *)

(** C37: for a comparison that is total and transitive, [list_sort] terminates
    within its array of partial lists, whatever the length of the list, never
    follows a null pointer, and gives a ring through the head, with all its back
    links, of a permutation of the list that is sorted and in which elements that
    compare equal keep their order. *)
Theorem list_sort_correct {A : Type} (cmp : A -> A -> Z) (l : list A)
  (cmp_total : forall x y, cmp x y <= 0 \/ cmp y x <= 0)
  (cmp_trans : forall x y z, cmp x y <= 0 -> cmp y z <= 0 -> cmp x z <= 0) :
  exists l', list_sort cmp l = Some (linked l') /\ l' ≡ₚ l /\
    StronglySorted (fun x y => cmp x y <= 0) l' /\
    forall k, List.filter (fun y => (cmp k y <=? 0) && (cmp y k <=? 0)) l' =
              List.filter (fun y => (cmp k y <=? 0) && (cmp y k <=? 0)) l.
Proof.
  exists (isort cmp l). split; [by apply list_sort_isort|]. split; [by apply isort_perm|].
  split; [by apply (isort_sorted cmp)|]. intros k. by apply (isort_same cmp).
Qed.

(** Pairs, compared by the first component. *)
Definition cmp_fst (x y : Z * Z) : Z := Z.sgn (x.1 - y.1).

Lemma list_sort_correct_witness :
  list_sort cmp_fst [(3, 0); (1, 1); (3, 2); (2, 3); (1, 4)] = Some (linked [(1, 1); (1, 4); (2, 3); (3, 0); (3, 2)]) /\
  exists l', list_sort cmp_fst [(3, 0); (1, 1); (3, 2); (2, 3); (1, 4)] = Some (linked l') /\
    StronglySorted (fun x y => cmp_fst x y <= 0) l'.
Proof.
  split; [vm_compute; reflexivity|].
  destruct (list_sort_correct cmp_fst [(3, 0); (1, 1); (3, 2); (2, 3); (1, 4)]) as (l' & H1 & _ & H2 & _).
  - intros x y. unfold cmp_fst. lia.
  - intros x y z. unfold cmp_fst. lia.
  - exists l'. split; [exact H1|exact H2].
Defined.
