(* ===== verification/Volumes.v ===== *)
(** The chunk maps of [src/volumes.c]: where a logical address lies on the
    devices.

    A failed [kmalloc] is not modelled.  [None] is a failed [BUG_ON], a division
    by zero or an access outside an array. *)

From S2P Require Import Prelude RbSpec ExtentCache.

Definition READ : Z := 0.
Definition WRITE : Z := 1.

Definition BTRFS_BLOCK_GROUP_DATA : Z := 1.
Definition BTRFS_BLOCK_GROUP_SYSTEM : Z := 2.
Definition BTRFS_BLOCK_GROUP_METADATA : Z := 4.
Definition BTRFS_BLOCK_GROUP_RAID0 : Z := 8.
Definition BTRFS_BLOCK_GROUP_RAID1 : Z := 16.
Definition BTRFS_BLOCK_GROUP_DUP : Z := 32.
Definition BTRFS_BLOCK_GROUP_RAID10 : Z := 64.
Definition BTRFS_BLOCK_GROUP_RAID5 : Z := 128.
Definition BTRFS_BLOCK_GROUP_RAID6 : Z := 256.

Definition BTRFS_RAID5_P_STRIPE : Z := 2 ^ 64 - 2.
Definition BTRFS_RAID6_Q_STRIPE : Z := 2 ^ 64 - 1.

(** The fields of [struct btrfs_device] that the mapping and the block I/O read. *)
Record btrfs_device := BtrfsDevice {
  dev_devid : Z;
  dev_fd : Z;
  dev_writeable : bool;
}.

Record btrfs_bio_stripe := BioStripe {
  bs_dev : btrfs_device;
  bs_physical : Z;
}.

(** [struct map_lookup], less the alignments. *)
Record map_lookup := MapLookup {
  map_ce : cache_extent;
  map_type : Z;
  map_stripe_len : Z;
  map_num_stripes : Z;
  map_sub_stripes : Z;
  map_stripes : list btrfs_bio_stripe;
}.

(** [type & flags] as a condition. *)
Definition has_type (type flags : Z) : bool := negb (Z.land type flags =? 0).

Definition cdiv (a b : Z) : option Z := if b =? 0 then None else Some (a / b).
Definition crem (a b : Z) : option Z := if b =? 0 then None else Some (a mod b).

(** [map->stripes[i]], and all of them. *)
Definition stripe_at (m : map_lookup) (i : Z) : option btrfs_bio_stripe :=
  if i <? 0 then None else map_stripes m !! Z.to_nat i.

Definition all_stripes (m : map_lookup) : option (list btrfs_bio_stripe) :=
  if Z.of_nat (List.length (map_stripes m)) <? map_num_stripes m then None
  else Some (take (Z.to_nat (map_num_stripes m)) (map_stripes m)).

Definition nr_parity_stripes (m : map_lookup) : Z :=
  if has_type (map_type m) BTRFS_BLOCK_GROUP_RAID5 then 1
  else if has_type (map_type m) BTRFS_BLOCK_GROUP_RAID6 then 2
  else 0.

Definition nr_data_stripes (m : map_lookup) : Z := map_num_stripes m - nr_parity_stripes m.

Definition chunk_bytes_by_type (type calc_size num_stripes sub_stripes : Z) : option Z :=
  if has_type type (Z.lor BTRFS_BLOCK_GROUP_RAID1 BTRFS_BLOCK_GROUP_DUP) then Some calc_size
  else if has_type type BTRFS_BLOCK_GROUP_RAID10 then
    q ← cdiv num_stripes sub_stripes; Some (u64 (calc_size * q))
  else if has_type type BTRFS_BLOCK_GROUP_RAID5 then Some (u64 (calc_size * (num_stripes - 1)))
  else if has_type type BTRFS_BLOCK_GROUP_RAID6 then Some (u64 (calc_size * (num_stripes - 2)))
  else Some (u64 (calc_size * num_stripes)).

(** ** Sorting the parity to the end *)

(** An entry of [raid_map] with the stripe at the same index: the code swaps
    the two arrays together. *)
Abbreviation mapped := (Z * btrfs_bio_stripe)%type.

Definition parity_smaller (a b : Z) : bool := b <? a.

(** One round of the inner loop, [x] being the entry at [i]; and [again]. *)
Fixpoint bubble_pass (x : mapped) (l : list mapped) : list mapped * bool :=
  match l with
  | [] => ([x], false)
  | y :: l =>
      if parity_smaller x.1 y.1 then let '(r, _) := bubble_pass x l in (y :: r, true)
      else let '(r, again) := bubble_pass y l in (x :: r, again)
  end.

Fixpoint sort_parity_stripes (fuel : nat) (l : list mapped) : option (list mapped) :=
  match fuel with
  | O => None
  | S fuel =>
      match l with
      | [] => Some []
      | x :: l => let '(r, again) := bubble_pass x l in if again then sort_parity_stripes fuel r else Some r
      end
  end.

(** ** From logical to physical *)

Record map_result := MapResult {
  mr_ret : Z;
  mr_length : Z;
  mr_type : option Z;
  mr_multi : option (list btrfs_bio_stripe);
  mr_raid_map : option (list Z);
}.

(** The logical address of each stripe of a full stripe, the parity marked.
    Every entry of the new array is assigned. *)
Fixpoint fill_raid_map (m : map_lookup) (rot tmp : Z) (i : Z) (n : nat) (a : list Z) : option (list Z) :=
  match n with
  | O => Some a
  | S n =>
      at_i ← crem (i + rot) (map_num_stripes m);
      fill_raid_map m rot tmp (i + 1) n
        (<[Z.to_nat at_i := u64 (ce_start (map_ce m) + u64 (u64 (tmp + i) * map_stripe_len m))]> a)
  end.

Definition build_raid_map (m : map_lookup) (rot tmp : Z) : option (list Z) :=
  let n := nr_data_stripes m in
  a ← fill_raid_map m rot tmp 0 (Z.to_nat n) (replicate (Z.to_nat (map_num_stripes m)) 0);
  at_p ← crem (n + rot) (map_num_stripes m);
  let a := <[Z.to_nat at_p := BTRFS_RAID5_P_STRIPE]> a in
  if has_type (map_type m) BTRFS_BLOCK_GROUP_RAID6 then
    at_q ← crem (n + rot + 1) (map_num_stripes m);
    Some (<[Z.to_nat at_q := BTRFS_RAID6_Q_STRIPE]> a)
  else Some a.

(** The profile's choice of stripes. *)
Record stripe_choice := StripeChoice {
  sc_num : Z;
  sc_index : Z;
  sc_nr : Z;
  sc_offset : Z;
  sc_length : Z;
  sc_raid_map : option (list Z);
}.

Definition choose_raid1 (m : map_lookup) (rw mirror_num stripe_nr stripe_offset length : Z) : option stripe_choice :=
  if rw =? WRITE then Some (StripeChoice (map_num_stripes m) 0 stripe_nr stripe_offset length None)
  else if negb (mirror_num =? 0) then Some (StripeChoice 1 (mirror_num - 1) stripe_nr stripe_offset length None)
  else i ← crem stripe_nr (u64 (map_num_stripes m)); Some (StripeChoice 1 (s32 i) stripe_nr stripe_offset length None).

Definition choose_raid10 (m : map_lookup) (rw mirror_num stripe_nr stripe_offset length : Z) : option stripe_choice :=
  factor ← cdiv (map_num_stripes m) (map_sub_stripes m);
  i ← crem stripe_nr (u64 factor);
  nr ← cdiv stripe_nr (u64 factor);
  let i := s32 i * map_sub_stripes m in
  if rw =? WRITE then Some (StripeChoice (map_sub_stripes m) i nr stripe_offset length None)
  else if negb (mirror_num =? 0) then Some (StripeChoice 1 (i + mirror_num - 1) nr stripe_offset length None)
  else Some (StripeChoice 1 i nr stripe_offset length None).

Definition choose_dup (m : map_lookup) (rw mirror_num stripe_nr stripe_offset length : Z) : option stripe_choice :=
  if rw =? WRITE then Some (StripeChoice (map_num_stripes m) 0 stripe_nr stripe_offset length None)
  else if negb (mirror_num =? 0) then Some (StripeChoice 1 (mirror_num - 1) stripe_nr stripe_offset length None)
  else Some (StripeChoice 1 0 stripe_nr stripe_offset length None).

(** All stripes of the full stripe that [offset] is in. *)
Definition choose_full_stripe (m : map_lookup) (offset : Z) : option stripe_choice :=
  let full_stripe_len := u64 (nr_data_stripes m * map_stripe_len m) in
  q ← cdiv offset full_stripe_len;
  let raid56_full_stripe_start := u64 (q * full_stripe_len) in
  nr ← cdiv raid56_full_stripe_start (u64 (map_stripe_len m));
  nr ← cdiv nr (u64 (nr_data_stripes m));
  rot ← crem nr (u64 (map_num_stripes m));
  raid_map ← build_raid_map m (s32 rot) (u64 (nr * nr_data_stripes m));
  Some (StripeChoice (map_num_stripes m) 0 nr 0 (u64 (map_stripe_len m)) (Some raid_map)).

Definition choose_raid56 (m : map_lookup) (mirror_num offset stripe_nr stripe_offset length : Z) (raid_map : bool) :
  option stripe_choice :=
  if raid_map then choose_full_stripe m offset
  else
    i ← crem stripe_nr (u64 (nr_data_stripes m));
    nr ← cdiv stripe_nr (u64 (nr_data_stripes m));
    let i := if 1 <? mirror_num then nr_data_stripes m + mirror_num - 2 else s32 i in
    i ← crem (u64 (nr + i)) (u64 (map_num_stripes m));
    Some (StripeChoice 1 (s32 i) nr stripe_offset length None).

Definition choose_stripe (m : map_lookup) (stripe_nr stripe_offset length : Z) : option stripe_choice :=
  i ← crem stripe_nr (u64 (map_num_stripes m));
  nr ← cdiv stripe_nr (u64 (map_num_stripes m));
  Some (StripeChoice 1 (s32 i) nr stripe_offset length None).

Definition choose (m : map_lookup) (rw mirror_num offset stripe_nr stripe_offset length : Z) (raid_map : bool) :
  option stripe_choice :=
  if has_type (map_type m) BTRFS_BLOCK_GROUP_RAID1 then choose_raid1 m rw mirror_num stripe_nr stripe_offset length
  else if has_type (map_type m) BTRFS_BLOCK_GROUP_RAID10 then choose_raid10 m rw mirror_num stripe_nr stripe_offset length
  else if has_type (map_type m) BTRFS_BLOCK_GROUP_DUP then choose_dup m rw mirror_num stripe_nr stripe_offset length
  else if has_type (map_type m) (Z.lor BTRFS_BLOCK_GROUP_RAID5 BTRFS_BLOCK_GROUP_RAID6) then
    choose_raid56 m mirror_num offset stripe_nr stripe_offset length raid_map
  else choose_stripe m stripe_nr stripe_offset length.

(** [multi->stripes], from [stripe_index] on. *)
Fixpoint fill_stripes (m : map_lookup) (stripe_index stripe_offset stripe_nr : Z) (n : nat) :
  option (list btrfs_bio_stripe) :=
  match n with
  | O => Some []
  | S n =>
      s ← stripe_at m stripe_index;
      l ← fill_stripes m (stripe_index + 1) stripe_offset stripe_nr n;
      Some (BioStripe (bs_dev s) (u64 (bs_physical s + stripe_offset + u64 (stripe_nr * map_stripe_len m))) :: l)
  end.

(** From the label [again] to the end, once the chunk is found; [inl n] goes back
    with room for [n] stripes. *)
Definition map_block_pass (m : map_lookup) (rw logical length mirror_num : Z) (multi_ret raid_map_ret : bool)
  (stripes_allocated : Z) : option (Z + map_result) :=
  let type := map_type m in
  let offset := u64 (logical - ce_start (map_ce m)) in
  let stripes_required :=
    if rw =? WRITE then
      if has_type type (Z.lor BTRFS_BLOCK_GROUP_RAID1 BTRFS_BLOCK_GROUP_DUP) then map_num_stripes m
      else if has_type type BTRFS_BLOCK_GROUP_RAID10 then map_sub_stripes m else 1
    else 1 in
  let all := has_type type (Z.lor BTRFS_BLOCK_GROUP_RAID5 BTRFS_BLOCK_GROUP_RAID6) && multi_ret &&
    (has_type rw WRITE || (1 <? mirror_num)) && raid_map_ret in
  let stripes_required := if all then map_num_stripes m else stripes_required in
  let raid_map := all && (stripes_required <=? stripes_allocated) in
  if multi_ret && (stripes_allocated <? stripes_required) then Some (inl stripes_required)
  else
    stripe_nr ← cdiv offset (u64 (map_stripe_len m));
    let stripe_offset := u64 (stripe_nr * map_stripe_len m) in
    if offset <? stripe_offset then None
    else
      let stripe_offset := u64 (offset - stripe_offset) in
      let length :=
        if has_type type 0x1F8 then
          Z.min (u64 (ce_size (map_ce m) - offset)) (u64 (map_stripe_len m - stripe_offset))
        else u64 (ce_size (map_ce m) - offset) in
      if negb multi_ret then Some (inr (MapResult 0 length None None None))
      else
        c ← choose m rw mirror_num offset stripe_nr stripe_offset length raid_map;
        if map_num_stripes m <=? sc_index c then None
        else if stripes_allocated <? sc_num c then None
        else
          multi ← fill_stripes m (sc_index c) (sc_offset c) (sc_nr c) (Z.to_nat (sc_num c));
          match sc_raid_map c with
          | None => Some (inr (MapResult 0 (sc_length c) (Some type) (Some multi) None))
          | Some raid_map =>
              sorted ← sort_parity_stripes (S (List.length multi)) (zip raid_map multi);
              Some (inr (MapResult 0 (sc_length c) (Some type) (Some sorted.*2) (Some sorted.*1)))
          end.

(** ** The mapping tree *)

Section Mapping.
Context {T : Type} `{RbTree T}.

(** [struct btrfs_mapping_tree], and the [map_lookup] around a cache entry. *)
Record btrfs_mapping_tree := MappingTree {
  mt_cache : T;
  mt_maps : ptr -> option map_lookup;
}.

Definition mt_entries (t : btrfs_mapping_tree) : entries := fun p => map_ce <$> mt_maps t p.

Definition search_map (t : btrfs_mapping_tree) (logical : Z) : option (option ptr) :=
  search_cache_extent (mt_cache t) (mt_entries t) logical.

Definition __btrfs_map_block (t : btrfs_mapping_tree) (rw logical length : Z) (multi_ret : bool)
  (mirror_num : Z) (raid_map_ret : bool) : option map_result :=
  let missing := MapResult (- ENOENT) length None None None in
  ce ← search_map t logical;
  match ce with
  | None => Some missing
  | Some p =>
      m ← mt_maps t p;
      if (logical <? ce_start (map_ce m)) || (u64 (ce_start (map_ce m) + ce_size (map_ce m)) <? logical)
      then Some missing
      else
        let pass := map_block_pass m rw logical length mirror_num multi_ret raid_map_ret in
        first ← pass (if multi_ret && (rw =? READ) then 1 else 8);
        match first with
        | inr r => Some r
        | inl n => again ← pass n; match again with inr r => Some r | inl _ => None end
        end
  end.

Definition btrfs_map_block (t : btrfs_mapping_tree) (rw logical length mirror_num : Z) (raid_map_ret : bool) :
  option map_result :=
  __btrfs_map_block t rw logical length true mirror_num raid_map_ret.

Definition num_copies (m : map_lookup) : Z :=
  if has_type (map_type m) (Z.lor BTRFS_BLOCK_GROUP_DUP BTRFS_BLOCK_GROUP_RAID1) then map_num_stripes m
  else if has_type (map_type m) BTRFS_BLOCK_GROUP_RAID10 then map_sub_stripes m
  else if has_type (map_type m) BTRFS_BLOCK_GROUP_RAID5 then 2
  else if has_type (map_type m) BTRFS_BLOCK_GROUP_RAID6 then 3
  else 1.

Definition btrfs_num_copies (t : btrfs_mapping_tree) (logical : Z) : option Z :=
  ce ← search_map t logical;
  p ← ce;
  m ← mt_maps t p;
  if (logical <? ce_start (map_ce m)) || (u64 (ce_start (map_ce m) + ce_size (map_ce m)) <? logical) then None
  else Some (num_copies m).

(** The loop of [btrfs_next_metadata]: the start and size of the next chunk of
    metadata, or nothing ([-ENOENT]). *)
Fixpoint next_metadata_loop (fuel : nat) (t : btrfs_mapping_tree) (p : ptr) : option (option (Z * Z)) :=
  match fuel with
  | O => None
  | S fuel =>
      ce ← next_cache_extent (mt_cache t) p;
      match ce with
      | None => Some None
      | Some p =>
          m ← mt_maps t p;
          if has_type (map_type m) BTRFS_BLOCK_GROUP_METADATA
          then Some (Some (ce_start (map_ce m), ce_size (map_ce m)))
          else next_metadata_loop fuel t p
      end
  end.

Definition btrfs_next_metadata (fuel : nat) (t : btrfs_mapping_tree) (logical : Z) : option (option (Z * Z)) :=
  ce ← search_map t logical;
  match ce with None => Some None | Some p => next_metadata_loop fuel t p end.

(** ** From physical to logical *)

(** The length of the chunk on one device, and the step between its addresses. *)
Definition rmap_lengths (m : map_lookup) : option (Z * Z) :=
  let size := ce_size (map_ce m) in
  if has_type (map_type m) BTRFS_BLOCK_GROUP_RAID10 then
    f ← cdiv (map_num_stripes m) (map_sub_stripes m); length ← cdiv size (u64 f); Some (length, map_stripe_len m)
  else if has_type (map_type m) BTRFS_BLOCK_GROUP_RAID0 then
    length ← cdiv size (u64 (map_num_stripes m)); Some (length, map_stripe_len m)
  else if has_type (map_type m) (Z.lor BTRFS_BLOCK_GROUP_RAID5 BTRFS_BLOCK_GROUP_RAID6) then
    length ← cdiv size (u64 (nr_data_stripes m)); Some (length, u64 (map_stripe_len m * nr_data_stripes m))
  else Some (size, map_stripe_len m).

Definition rmap_stripe_nr (m : map_lookup) (i nr : Z) : option Z :=
  if has_type (map_type m) BTRFS_BLOCK_GROUP_RAID10 then
    cdiv (u64 (u64 (nr * map_num_stripes m) + i)) (u64 (map_sub_stripes m))
  else if has_type (map_type m) BTRFS_BLOCK_GROUP_RAID0 then Some (u64 (u64 (nr * map_num_stripes m) + i))
  else Some nr.

(** The stripes from index [i] on; [acc] is the list of addresses so far. *)
Fixpoint rmap_loop (m : map_lookup) (physical devid length rmap_len i : Z) (stripes : list btrfs_bio_stripe)
  (acc : list Z) : option (list Z) :=
  match stripes with
  | [] => Some acc
  | s :: stripes =>
      if (negb (devid =? 0) && negb (dev_devid (bs_dev s) =? devid)) ||
         ((physical <? bs_physical s) || (u64 (bs_physical s + length) <=? physical))
      then rmap_loop m physical devid length rmap_len (i + 1) stripes acc
      else
        nr ← cdiv (u64 (physical - bs_physical s)) (u64 (map_stripe_len m));
        nr ← rmap_stripe_nr m i nr;
        let bytenr := u64 (ce_start (map_ce m) + u64 (nr * rmap_len)) in
        rmap_loop m physical devid length rmap_len (i + 1) stripes
          (if decide (bytenr ∈ acc) then acc else acc ++ [bytenr])
  end.

(** The addresses, and their step. *)
Definition btrfs_rmap_block (t : btrfs_mapping_tree) (chunk_start physical devid : Z) : option (list Z * Z) :=
  ce ← search_map t chunk_start;
  p ← ce;
  m ← mt_maps t p;
  '(length, rmap_len) ← rmap_lengths m;
  stripes ← all_stripes m;
  l ← rmap_loop m physical devid length rmap_len 0 stripes [];
  Some (l, rmap_len).

Definition btrfs_chunk_readonly (t : btrfs_mapping_tree) (chunk_offset : Z) : option bool :=
  ce ← search_map t chunk_offset;
  p ← ce;
  m ← mt_maps t p;
  stripes ← all_stripes m;
  Some (existsb (fun s => negb (dev_writeable (bs_dev s))) stripes).
End Mapping.

Arguments btrfs_mapping_tree T : clear implicits.
