(* ===== verification/VolumesSpec.v ===== *)
(** Where the bytes of a chunk lie, and that [__btrfs_map_block] finds them.

    A chunk is a table of rows and columns of stripes: the byte at offset [o]
    is in row [row_of], column [col_of].  [index_of] is the device its copy
    [copy] is on, [row_off] the offset in the extent of the chunk on that device. *)

From stdpp Require Import sorting.
From S2P Require Import Prelude RbSpec ExtentCache Volumes.

Variant profile := Single | Raid0 | Raid1 | Dup | Raid10 | Raid5 | Raid6.

#[export] Instance profile_eq_dec : EqDecision profile.
Proof. solve_decision. Defined.
#[export] Instance cache_extent_eq_dec : EqDecision cache_extent.
Proof. solve_decision. Defined.
#[export] Instance btrfs_device_eq_dec : EqDecision btrfs_device.
Proof. solve_decision. Defined.
#[export] Instance btrfs_bio_stripe_eq_dec : EqDecision btrfs_bio_stripe.
Proof. solve_decision. Defined.
#[export] Instance map_lookup_eq_dec : EqDecision map_lookup.
Proof. solve_decision. Defined.

Definition profile_bits (p : profile) : Z :=
  match p with
  | Single => 0
  | Raid0 => BTRFS_BLOCK_GROUP_RAID0
  | Raid1 => BTRFS_BLOCK_GROUP_RAID1
  | Dup => BTRFS_BLOCK_GROUP_DUP
  | Raid10 => BTRFS_BLOCK_GROUP_RAID10
  | Raid5 => BTRFS_BLOCK_GROUP_RAID5
  | Raid6 => BTRFS_BLOCK_GROUP_RAID6
  end.

Definition parity_count (p : profile) : Z := match p with Raid5 => 1 | Raid6 => 2 | _ => 0 end.

Section Layout.
Context (m : map_lookup) (p : profile).

Definition data_count : Z :=
  match p with
  | Single | Raid1 | Dup => 1
  | Raid0 => map_num_stripes m
  | Raid10 => map_num_stripes m / map_sub_stripes m
  | Raid5 | Raid6 => map_num_stripes m - parity_count p
  end.

(** How often the data is stored, parity aside. *)
Definition data_copies : Z :=
  match p with
  | Single | Raid0 | Raid5 | Raid6 => 1
  | Raid1 | Dup => map_num_stripes m
  | Raid10 => map_sub_stripes m
  end.

Definition rows : Z := ce_size (map_ce m) / map_stripe_len m / data_count.

(** The length of the chunk's extent on each device. *)
Definition dev_len : Z := rows * map_stripe_len m.

Definition row_of (o : Z) : Z := o / map_stripe_len m / data_count.
Definition col_of (o : Z) : Z := (o / map_stripe_len m) mod data_count.

Definition row_off (o : Z) : Z := row_of o * map_stripe_len m + o mod map_stripe_len m.

Definition index_of (o copy : Z) : Z :=
  match p with
  | Single | Raid1 | Dup => copy
  | Raid0 => col_of o
  | Raid10 => col_of o * map_sub_stripes m + copy
  | Raid5 | Raid6 => (row_of o + col_of o) mod map_num_stripes m
  end.

(** The device of the parity [k] of a row. *)
Definition parity_index (row k : Z) : Z := (row + data_count + k) mod map_num_stripes m.

(** The device a read goes to. *)
Definition read_index (o mirror : Z) : Z :=
  match p with
  | Single | Raid0 => index_of o 0
  | Raid1 => if mirror =? 0 then (o / map_stripe_len m) mod map_num_stripes m else mirror - 1
  | Dup | Raid10 => index_of o (if mirror =? 0 then 0 else mirror - 1)
  | Raid5 | Raid6 => if 1 <? mirror then parity_index (row_of o) (mirror - 2) else index_of o 0
  end.

(** How many bytes from [o] on are in one piece on the device. *)
Definition piece (o : Z) : Z :=
  match p with
  | Single => ce_size (map_ce m) - o
  | _ => map_stripe_len m - o mod map_stripe_len m
  end.

Definition stripes_fit : Prop :=
  match p with
  | Single => map_num_stripes m = 1
  | Raid0 | Raid1 | Dup => 0 < map_num_stripes m
  | Raid10 => 0 < map_sub_stripes m /\ 0 < map_num_stripes m /\ (map_sub_stripes m | map_num_stripes m)
  | Raid5 => 2 <= map_num_stripes m
  | Raid6 => 3 <= map_num_stripes m
  end.

(** A chunk as [btrfs_alloc_chunk] makes them. *)
Record map_ok : Prop := {
  mo_type : Z.land (map_type m) 0x1F8 = profile_bits p;
  mo_len : 0 < map_stripe_len m;
  mo_align : (8 | map_stripe_len m);
  mo_int : map_num_stripes m * map_stripe_len m < 2 ^ 31;
  mo_stripes : Z.of_nat (length (map_stripes m)) = map_num_stripes m;
  mo_num : stripes_fit;
  mo_size : ce_size (map_ce m) = rows * data_count * map_stripe_len m;
  mo_rows : 0 < rows;
  mo_start : 0 <= ce_start (map_ce m);
  mo_end : ce_start (map_ce m) + ce_size (map_ce m) < 2 ^ 64;
  mo_raw : map_num_stripes m * dev_len < 2 ^ 64;
  mo_physical : Forall (fun s => 0 <= bs_physical s /\ bs_physical s + dev_len < 2 ^ 64) (map_stripes m);
}.
End Layout.

(** The stripe at an index that is in range. *)
Definition the_stripe (m : map_lookup) (i : Z) : btrfs_bio_stripe :=
  default (BioStripe (BtrfsDevice 0 0 false) 0) (stripe_at m i).

Definition located (m : map_lookup) (i off : Z) : btrfs_bio_stripe :=
  BioStripe (bs_dev (the_stripe m i)) (bs_physical (the_stripe m i) + off).

Lemma located_fd m i off : dev_fd (bs_dev (located m i off)) = dev_fd (bs_dev (the_stripe m i)).
Proof. done. Qed.
Lemma located_physical m i off : bs_physical (located m i off) = bs_physical (the_stripe m i) + off.
Proof. done. Qed.

(** ** Rows and columns *)

Lemma has_type_sub t f : Z.land f 0x1F8 = f -> has_type t f = has_type (Z.land t 0x1F8) f.
Proof.
  intros Hf. unfold has_type. do 2 f_equal. rewrite <- Hf at 1. by rewrite (Z.land_comm f), Z.land_assoc.
Qed.

Lemma div_range o n k : 0 < n -> 0 <= o < k * n -> 0 <= o / n < k.
Proof. intros Hn Ho. split; [apply Z.div_pos; lia|]. apply Z.div_lt_upper_bound; lia. Qed.

(** Two digits of a number. *)
Lemma digits_inj n a b a' b' : 0 <= b < n -> 0 <= b' < n -> a * n + b = a' * n + b' -> a = a' /\ b = b'.
Proof. intros Hb Hb' Heq. assert (a = a') by nia. lia. Qed.

Lemma mod_shift_inj n r a b : 0 <= a < n -> 0 <= b < n -> (r + a) mod n = (r + b) mod n -> a = b.
Proof.
  intros Ha Hb Heq. pose proof (Z.div_mod (r + a) n ltac:(lia)). pose proof (Z.div_mod (r + b) n ltac:(lia)).
  assert ((r + a) / n = (r + b) / n \/ (r + a) / n <> (r + b) / n) as [E|E] by lia; nia.
Qed.

Section Spec.
Context (m : map_lookup) (p : profile) (Hm : map_ok m p).
Abbreviation L := (map_stripe_len m).
Abbreviation n := (map_num_stripes m).
Abbreviation d := (data_count m p).
Abbreviation size := (ce_size (map_ce m)).
Abbreviation start := (ce_start (map_ce m)).

Lemma num_pos : 0 < n.
Proof using Hm. pose proof (mo_num _ _ Hm) as H. unfold stripes_fit in H. destruct p; lia. Qed.

Lemma sub_num : p = Raid10 -> n = n / map_sub_stripes m * map_sub_stripes m /\ 0 < map_sub_stripes m /\ 0 < n / map_sub_stripes m.
Proof using Hm.
  intros ->. pose proof (mo_num _ _ Hm) as (Hs & Hn & [k Hk]). rewrite Hk, Z.div_mul by lia. nia.
Qed.

Lemma data_pos : 0 < d.
Proof using Hm.
  pose proof (mo_num _ _ Hm) as H. pose proof num_pos as Hn. pose proof sub_num as Hs.
  unfold stripes_fit, data_count, parity_count in *. destruct p; try lia. by destruct (Hs eq_refl) as (_ & _ & ?).
Qed.

Lemma data_le : d <= n.
Proof using Hm.
  pose proof (mo_num _ _ Hm) as H. pose proof num_pos as Hn. pose proof sub_num as Hs.
  unfold stripes_fit, data_count, parity_count in *. destruct p; try lia. destruct (Hs eq_refl) as (? & ? & ?). nia.
Qed.

Lemma len_small : L < 2 ^ 31 /\ n < 2 ^ 31.
Proof using Hm. pose proof (mo_len _ _ Hm). pose proof (mo_int _ _ Hm). pose proof num_pos. nia. Qed.

Lemma size_small : 0 < size < 2 ^ 64.
Proof using Hm.
  rewrite (mo_size _ _ Hm). pose proof (mo_end _ _ Hm). pose proof (mo_start _ _ Hm). pose proof (mo_size _ _ Hm).
  pose proof (mo_rows _ _ Hm). pose proof data_pos. pose proof (mo_len _ _ Hm). split; [|lia].
  apply Z.mul_pos_pos; [apply Z.mul_pos_pos|]; done.
Qed.

Lemma dev_len_pos : 0 < dev_len m p.
Proof using Hm. pose proof (mo_rows _ _ Hm). pose proof (mo_len _ _ Hm). unfold dev_len. nia. Qed.

(** The byte in a row, a column and a place in the stripe. *)
Lemma compose_offset row col so :
  0 <= row < rows m p -> 0 <= col < d -> 0 <= so < L ->
  let o := (row * d + col) * L + so in
  0 <= o < size /\ row_of m p o = row /\ col_of m p o = col /\ o mod L = so /\ row_off m p o = row * L + so.
Proof using Hm.
  intros Hrow Hcol Hso o. pose proof (mo_len _ _ Hm). pose proof data_pos.
  assert (Hnr : o / L = row * d + col) by (unfold o; rewrite Z.div_add_l by lia; rewrite Z.div_small by lia; lia).
  assert (Hmod : o mod L = so) by (unfold o; rewrite Z.add_comm, Z.mod_add, Z.mod_small by lia; done).
  assert (Hr : row_of m p o = row) by (unfold row_of; rewrite Hnr, Z.div_add_l, Z.div_small by lia; lia).
  assert (Hc : col_of m p o = col) by (unfold col_of; rewrite Hnr, Z.add_comm, Z.mod_add, Z.mod_small by lia; done).
  split_and!; [| |done|done|done|].
  - unfold o. assert (0 <= (row * d + col) * L) by (apply Z.mul_nonneg_nonneg; [|lia]; apply Z.add_nonneg_nonneg; [apply Z.mul_nonneg_nonneg|]; lia). lia.
  - rewrite (mo_size _ _ Hm). unfold o. assert ((row * d + col + 1) * L <= rows m p * d * L); [|lia].
    apply Z.mul_le_mono_nonneg_r; [lia|]. assert ((row + 1) * d <= rows m p * d) by (apply Z.mul_le_mono_nonneg_r; lia). lia.
  - unfold row_off. by rewrite Hr, Hmod.
Qed.

Section At.
Context (o : Z) (Ho : 0 <= o < size).

Lemma nr_range : 0 <= o / L < rows m p * d.
Proof using Hm Ho. apply div_range; [apply (mo_len _ _ Hm)|]. rewrite <- (mo_size _ _ Hm). done. Qed.

Lemma row_range : 0 <= row_of m p o < rows m p.
Proof using Hm Ho. apply div_range; [apply data_pos|]. apply nr_range. Qed.

Lemma col_range : 0 <= col_of m p o < d.
Proof using Hm Ho. apply Z.mod_pos_bound, data_pos. Qed.

Lemma so_range : 0 <= o mod L < L.
Proof using Hm. apply Z.mod_pos_bound, (mo_len _ _ Hm). Qed.

Lemma nr_split : o / L = row_of m p o * d + col_of m p o.
Proof using Hm. unfold row_of, col_of. rewrite Z.mul_comm. apply Z.div_mod. pose proof data_pos. lia. Qed.

Lemma o_split : o = (row_of m p o * d + col_of m p o) * L + o mod L.
Proof using Hm. rewrite <- nr_split, Z.mul_comm. apply Z.div_mod. pose proof (mo_len _ _ Hm). lia. Qed.

Lemma row_off_range : 0 <= row_off m p o < dev_len m p.
Proof using Hm Ho.
  unfold row_off, dev_len. pose proof row_range. pose proof so_range. pose proof (mo_len _ _ Hm). nia.
Qed.

Lemma index_range copy : 0 <= copy < data_copies m p -> 0 <= index_of m p o copy < n.
Proof using Hm Ho.
  intros Hc. pose proof col_range as Hcol. pose proof num_pos. pose proof (mo_num _ _ Hm) as Hn. pose proof sub_num as Hs.
  unfold index_of, data_copies, data_count, stripes_fit in *.
  destruct p; try lia; try (by apply Z.mod_pos_bound). destruct (Hs eq_refl) as (? & ? & ?). nia.
Qed.
End At.

Lemma parity_range row k : 0 <= parity_index m p row k < n.
Proof using Hm. apply Z.mod_pos_bound, num_pos. Qed.

(** No two bytes share a place. *)
Lemma place_inj o copy o' copy' :
  0 <= o < size -> 0 <= o' < size -> 0 <= copy < data_copies m p -> 0 <= copy' < data_copies m p ->
  index_of m p o copy = index_of m p o' copy' -> row_off m p o = row_off m p o' -> o = o' /\ copy = copy'.
Proof using Hm.
  intros Ho Ho' Hc Hc' Hi Hr. pose proof (so_range o). pose proof (so_range o').
  unfold row_off in Hr. destruct (digits_inj L (row_of m p o) (o mod L) (row_of m p o') (o' mod L)) as [Hrow Hso]; [done..|].
  enough (Hcc : col_of m p o = col_of m p o' /\ copy = copy').
  { destruct Hcc as [Hcol ->]. split; [|done]. rewrite (o_split o), (o_split o'). by rewrite Hrow, Hcol, Hso. }
  pose proof (col_range o Ho) as C1. pose proof (col_range o' Ho') as C2. pose proof data_le as Hdn.
  unfold index_of, data_copies, data_count in *.
  destruct p; try lia.
  - by apply (digits_inj (map_sub_stripes m)).
  - split; [|lia]. rewrite Hrow in Hi. apply (mod_shift_inj n (row_of m Raid5 o')); lia.
  - split; [|lia]. rewrite Hrow in Hi. apply (mod_shift_inj n (row_of m Raid6 o')); lia.
Qed.

(** Nor does a byte share a place with parity. *)
Lemma place_not_parity o row k :
  0 <= o < size -> 0 <= k < parity_count p -> row_of m p o = row -> index_of m p o 0 <> parity_index m p row k.
Proof using Hm.
  intros Ho Hk <- Heq. pose proof (col_range o Ho) as Hc. unfold index_of, parity_index in Heq.
  assert (Hd : d + k < n) by (unfold data_count, parity_count in *; destruct p; lia). pose proof data_pos.
  rewrite <- Z.add_assoc in Heq.
  destruct p; simpl in Hk; try lia; apply mod_shift_inj in Heq; lia.
Qed.

(** ** Types *)

Lemma has_profile f : Z.land f 0x1F8 = f -> has_type (map_type m) f = has_type (profile_bits p) f.
Proof using Hm. intros Hf. by rewrite has_type_sub, (mo_type _ _ Hm). Qed.

Lemma nr_data_ok : p = Raid5 \/ p = Raid6 -> nr_data_stripes m = d.
Proof using Hm.
  intros Hp. unfold nr_data_stripes, nr_parity_stripes. rewrite !has_profile by done. by destruct Hp as [-> | ->].
Qed.

Lemma num_copies_ok :
  num_copies m = match p with Raid5 => 2 | Raid6 => 3 | _ => data_copies m p end.
Proof using Hm. unfold num_copies. rewrite !has_profile by done. by destruct p. Qed.

Lemma stripe_there i : 0 <= i < n -> stripe_at m i = Some (the_stripe m i) /\ the_stripe m i ∈ map_stripes m.
Proof using Hm.
  intros Hi. unfold the_stripe, stripe_at. rewrite (proj2 (Z.ltb_ge _ _)) by lia.
  destruct (lookup_lt_is_Some_2 (map_stripes m) (Z.to_nat i)) as [s Hs]; [pose proof (mo_stripes _ _ Hm); lia|].
  rewrite Hs. split; [done|]. by eapply list_elem_of_lookup_2.
Qed.

Lemma physical_range i : 0 <= i < n -> 0 <= bs_physical (the_stripe m i) /\ bs_physical (the_stripe m i) + dev_len m p < 2 ^ 64.
Proof using Hm.
  intros Hi. destruct (stripe_there i Hi) as [_ Hin]. pose proof (mo_physical _ _ Hm) as Hf. rewrite Forall_forall in Hf. auto.
Qed.
End Spec.
