(* ===== verification/VolumesMap.v ===== *)
(** What [__btrfs_map_block] answers: [sort_parity_stripes] sorts, and each
    profile gives the rows and columns of the table. *)

From stdpp Require Import sorting.
From S2P Require Import Prelude RbSpec ExtentCache Volumes VolumesSpec.

(** ** Sorting the stripes, in at most as many rounds as there are and one more *)

Definition le_key (x y : mapped) : Prop := x.1 <= y.1.
Definition lt_key (x y : mapped) : Prop := x.1 < y.1.

Lemma bubble_perm x l : (bubble_pass x l).1 ≡ₚ x :: l.
Proof.
  revert x. induction l as [|y l IH]; intros x; [done|]. cbn [bubble_pass].
  destruct (parity_smaller x.1 y.1).
  - specialize (IH x). destruct (bubble_pass x l). simpl in *. rewrite IH. apply perm_swap.
  - specialize (IH y). destruct (bubble_pass y l). simpl in *. by rewrite IH.
Qed.

(** No swap: nothing to do. *)
Lemma bubble_done x l r : bubble_pass x l = (r, false) -> r = x :: l /\ StronglySorted le_key (x :: l).
Proof.
  revert x r. induction l as [|y l IH]; intros x r; cbn [bubble_pass].
  { intros [= <-]. split; [done|]. by repeat constructor. }
  unfold parity_smaller. destruct (Z.ltb_spec y.1 x.1) as [Hxy|Hxy].
  - by destruct (bubble_pass x l).
  - destruct (bubble_pass y l) as [r' again] eqn:Er. intros [= <- ->].
    destruct (IH y r' Er) as [-> Hs]. split; [done|]. constructor; [done|].
    apply StronglySorted_inv in Hs as [_ Hf]. constructor; [done|].
    eapply Forall_impl; [done|]. intros z Hz. unfold le_key in *. lia.
Qed.

(** The last one is the greatest. *)
Lemma bubble_last x l : exists r t, (bubble_pass x l).1 = r ++ [t] /\ Forall (fun y => le_key y t) (x :: l).
Proof.
  revert x. induction l as [|y l IH]; intros x; cbn [bubble_pass].
  { exists [], x. split; [done|]. constructor; [unfold le_key; lia|constructor]. }
  unfold parity_smaller. destruct (Z.ltb_spec y.1 x.1) as [Hxy|Hxy].
  - destruct (IH x) as (r & t & Hr & Ht). destruct (bubble_pass x l) as [r' ?]. simpl in *. exists (y :: r), t.
    rewrite Hr. split; [done|]. apply Forall_cons in Ht as [Hx Ht].
    constructor; [done|]. constructor; [unfold le_key in *; lia|done].
  - destruct (IH y) as (r & t & Hr & Ht). destruct (bubble_pass y l) as [r' ?]. simpl in *. exists (x :: r), t.
    rewrite Hr. split; [done|]. apply Forall_cons in Ht as [Hy Ht].
    constructor; [unfold le_key in *; lia|]. by constructor.
Qed.

(** What is sorted at the end stays. *)
Lemma bubble_tail x l b :
  Forall (fun y => Forall (le_key y) b) (x :: l) -> StronglySorted le_key b ->
  bubble_pass x (l ++ b) = ((bubble_pass x l).1 ++ b, (bubble_pass x l).2).
Proof.
  revert x. induction l as [|y l IH]; intros x Hb Hs.
  - apply Forall_cons in Hb as [Hx _]. cbn [app bubble_pass fst snd]. revert x Hx. induction Hs as [|z b Hs IH Hz]; intros x Hx; [done|].
    apply Forall_cons in Hx as [Hxz Hx]. cbn [bubble_pass]. unfold parity_smaller, le_key in *. rewrite (proj2 (Z.ltb_ge _ _)) by lia.
    rewrite IH by done. done.
  - cbn [app bubble_pass]. apply Forall_cons in Hb as [Hx Hb]. pose proof Hb as [Hy Hl]%Forall_cons.
    destruct (parity_smaller x.1 y.1).
    + rewrite IH; [|by constructor|done]. by destruct (bubble_pass x l).
    + rewrite IH by done. by destruct (bubble_pass y l).
Qed.

Lemma sort_rounds fuel a b :
  (length a < fuel)%nat -> Forall (fun y => Forall (le_key y) b) a -> StronglySorted le_key b ->
  exists r, sort_parity_stripes fuel (a ++ b) = Some r /\ r ≡ₚ a ++ b /\ StronglySorted le_key r.
Proof.
  revert a b. induction fuel as [|fuel IH]; intros a b Hf Hab Hb; [lia|]. cbn [sort_parity_stripes].
  destruct a as [|x a].
  - cbn [app]. destruct b as [|x b]; [by exists []|]. pose proof Hb as [Hb' Hx]%StronglySorted_inv.
    pose proof (bubble_tail x [] b) as Ht. cbn [app] in Ht. rewrite Ht; [|by constructor|done].
    cbn [bubble_pass fst snd]. by exists (x :: b).
  - cbn [app]. rewrite bubble_tail by done.
    destruct (bubble_last x a) as (r & t & Hr & Ht). pose proof (bubble_perm x a) as Hp.
    destruct (bubble_pass x a) as [r' again] eqn:Er. cbn [fst snd] in *. subst r'. destruct again.
    + rewrite <- (assoc_L (++)). cbn [app].
      assert (Hall : forall y, y ∈ r ++ [t] -> y ∈ x :: a) by (intros y Hy; by rewrite <- Hp).
      rewrite Forall_forall in Hab, Ht.
      destruct (IH r (t :: b)) as (s & Hs & Hsp & Hss).
      * apply Permutation_length in Hp. rewrite length_app in Hp. cbn in *. lia.
      * apply Forall_forall. intros y Hy. constructor; [apply Ht, Hall; set_solver|]. apply Hab, Hall. set_solver.
      * constructor; [done|]. apply Hab, Hall. set_solver.
      * exists s. split; [done|]. split; [|done]. rewrite Hsp. change (x :: a ++ b) with ((x :: a) ++ b). rewrite <- Hp.
        by rewrite <- (assoc_L (++)).
    + destruct (bubble_done x a _ Er) as [Heq Hsx]. rewrite Heq. exists ((x :: a) ++ b). split; [done|]. split; [done|].
      apply StronglySorted_app. split; [|done]. intros y z Hy Hz. rewrite Forall_forall in Hab. specialize (Hab y Hy).
      rewrite Forall_forall in Hab. by apply Hab.
Qed.

(** With distinct keys the result is known. *)
Lemma sort_is l s :
  l ≡ₚ s -> StronglySorted lt_key s -> sort_parity_stripes (S (length l)) l = Some s.
Proof.
  intros Hl Hs. destruct (sort_rounds (S (length l)) l []) as (r & Hr & Hp & Hsr).
  - lia.
  - apply Forall_forall. intros; constructor.
  - constructor.
  - rewrite app_nil_r in *. rewrite Hr. f_equal.
    assert (Hrs : r ≡ₚ s) by (by rewrite Hp). clear Hr Hp Hl.
    revert r Hrs Hsr. induction Hs as [|x s Hs IH Hx]; intros r Hrs Hsr; [by apply Permutation_nil_r in Hrs|].
    destruct r as [|y r]; [by apply Permutation_nil_cons in Hrs|].
    assert (y = x) as ->.
    { assert (Hy : y ∈ x :: s) by (rewrite <- Hrs; left). apply elem_of_cons in Hy as [|Hy]; [done|].
      rewrite Forall_forall in Hx. specialize (Hx y Hy). assert (Hxr : x ∈ y :: r) by (rewrite Hrs; left).
      apply elem_of_cons in Hxr as [|Hxr]; [done|]. apply StronglySorted_inv in Hsr as [_ Hf]. rewrite Forall_forall in Hf.
      specialize (Hf x Hxr). unfold le_key, lt_key in *. lia. }
    apply Permutation_cons_inv in Hrs. f_equal. apply IH; [done|]. by apply StronglySorted_inv in Hsr as [? _].
Qed.

(** ** [__btrfs_map_block] computes the places of [VolumesSpec]. *)

Lemma cdiv_pos a b : 0 < b -> cdiv a b = Some (a / b).
Proof. intros Hb. unfold cdiv. by rewrite (proj2 (Z.eqb_neq _ _)) by lia. Qed.
Lemma crem_pos a b : 0 < b -> crem a b = Some (a mod b).
Proof. intros Hb. unfold crem. by rewrite (proj2 (Z.eqb_neq _ _)) by lia. Qed.

(** Which profile a branch of the code asks for. *)
Ltac profile Hm := rewrite ?(has_profile _ _ Hm) by done.

(** And which of them a known profile takes. *)
Ltac profile_is :=
  repeat match goal with
  | |- context [has_type (profile_bits ?q) ?f] =>
      let b := eval vm_compute in (has_type (profile_bits q) f) in change (has_type (profile_bits q) f) with b
  end; cbv iota.

Lemma row_bound row k so l : 0 <= row < k -> 0 <= so < l -> 0 <= row * l <= row * l + so /\ row * l + so < k * l.
Proof. intros H1 H2. assert (row * l + l <= k * l) by (rewrite <- Z.mul_succ_l; apply Z.mul_le_mono_nonneg_r; lia). nia. Qed.

Section Map.
Context (m : map_lookup) (p : profile) (Hm : map_ok m p).
Abbreviation L := (map_stripe_len m).
Abbreviation n := (map_num_stripes m).
Abbreviation d := (data_count m p).
Abbreviation size := (ce_size (map_ce m)).
Abbreviation start := (ce_start (map_ce m)).

Lemma fill_stripes_run i so row k :
  0 <= i -> i + Z.of_nat k <= n -> 0 <= row < rows m p -> 0 <= so < L ->
  fill_stripes m i so row k = Some ((fun j => located m j (row * L + so)) <$> seqZ i (Z.of_nat k)).
Proof using Hm.
  intros Hi Hk Hrow Hso. revert i Hi Hk. induction k as [|k IH]; intros i Hi Hk; [done|]. cbn [fill_stripes].
  destruct (stripe_there m p Hm i) as [Hs _]; [lia|]. rewrite Hs. cbn [mbind option_bind].
  rewrite IH by lia. cbn [mbind option_bind]. rewrite (seqZ_cons i) by lia. cbn [fmap list_fmap].
  replace (Z.pred (Z.of_nat (S k))) with (Z.of_nat k) by lia. replace (Z.succ i) with (i + 1) by lia.
  do 2 f_equal. unfold located. f_equal.
  destruct (physical_range m p Hm i) as [P1 P2]; [lia|].
  pose proof (row_bound row (rows m p) so L Hrow Hso) as Hin. change (rows m p * L) with (dev_len m p) in Hin. rewrite (u64_id (row * L)) by lia. rewrite u64_id by lia. lia.
Qed.

Section At.
Context (o : Z) (Ho : 0 <= o < size).

Lemma small_facts : 0 < L < 2 ^ 31 /\ 0 < n < 2 ^ 31 /\ 0 < d <= n /\ 0 <= o / L < 2 ^ 64 /\ 0 <= o mod L < L.
Proof using Hm Ho.
  pose proof (len_small m p Hm) as [H1 H2]. pose proof (mo_len m p Hm). pose proof (num_pos m p Hm).
  pose proof (data_pos m p Hm). pose proof (data_le m p Hm). pose proof (so_range m p Hm o). pose proof (size_small m p Hm).
  assert (0 <= o / L <= o) by (split; [apply Z.div_pos; lia|apply Z.div_le_upper_bound; nia]). lia.
Qed.

Lemma row_col_u64 : u64 (row_of m p o + col_of m p o) = row_of m p o + col_of m p o.
Proof using Hm Ho.
  apply u64_id. destruct small_facts as (? & ? & ? & ? & ?).
  pose proof (row_range m p Hm o Ho). pose proof (col_range m p Hm o Ho). pose proof (nr_split m p Hm o). nia.
Qed.

Lemma parity_sum mirror : p = Raid5 \/ p = Raid6 -> 1 < mirror <= num_copies m ->
  u64 (row_of m p o + (d + mirror - 2)) = row_of m p o + d + (mirror - 2).
Proof using Hm Ho.
  intros Hp Hmir. rewrite (num_copies_ok m p Hm) in Hmir. destruct small_facts as (? & ? & ? & Hnr & ?).
  pose proof (row_range m p Hm o Ho). assert (row_of m p o <= o / L) by (apply Z.div_le_upper_bound; nia).
  assert (o / L <= o / 8).
  { apply Z.div_le_compat_l; [lia|]. pose proof (mo_align m p Hm) as [k Hk]. lia. }
  pose proof (size_small m p Hm). rewrite u64_id; [lia|]. destruct Hp as [-> | ->]; zlia.
Qed.

Lemma choose_raid56_read mirror length : p = Raid5 \/ p = Raid6 -> 0 <= mirror <= num_copies m ->
  choose_raid56 m mirror o (o / L) (o mod L) length false =
    Some (StripeChoice 1 (if 1 <? mirror then parity_index m p (row_of m p o) (mirror - 2)
                          else (row_of m p o + col_of m p o) mod n) (row_of m p o) (o mod L) length None).
Proof using Hm Ho.
  intros Hp Hmir. destruct small_facts as ((? & ?) & (? & ?) & (? & ?) & (? & ?) & ?).
  pose proof (parity_sum mirror Hp) as Hps. pose proof row_col_u64 as Hrc.
  pose proof (Z.mod_pos_bound (row_of m p o + col_of m p o) n).
  pose proof (Z.mod_pos_bound (row_of m p o + d + (mirror - 2)) n). pose proof (col_range m p Hm o Ho).
  unfold choose_raid56. rewrite (nr_data_ok m p Hm Hp). rewrite (u64_id d), (u64_id n) by lia. rewrite crem_pos, cdiv_pos by lia.
  cbn [mbind option_bind]. fold (row_of m p o) (col_of m p o). unfold parity_index. destruct (Z.ltb_spec 1 mirror).
  - rewrite Hps by lia. rewrite crem_pos by lia. cbn [mbind option_bind]. rewrite s32_id; [done|lia].
  - rewrite (s32_id (col_of m p o)) by lia. rewrite Hrc, crem_pos by lia. cbn [mbind option_bind]. rewrite s32_id; [done|lia].
Qed.

Lemma choose_read mirror length :
  0 <= mirror <= num_copies m ->
  choose m READ mirror o (o / L) (o mod L) length false =
    Some (StripeChoice 1 (read_index m p o mirror) (row_of m p o) (o mod L) length None).
Proof using Hm Ho.
  intros Hmir. pose proof (fun Hp => choose_raid56_read mirror length Hp Hmir) as H56.
  destruct small_facts as ((? & ?) & (? & ?) & (? & ?) & (? & ?) & ?).
  pose proof (row_range m p Hm o Ho) as Hrow. pose proof (col_range m p Hm o Ho) as Hcol. pose proof (nr_data_ok m p Hm) as Hnd.
  pose proof row_col_u64 as Hrc. pose proof (num_copies_ok m p Hm) as Hnc. rewrite Hnc in Hmir. clear Hnc.
  pose proof (sub_num m p Hm) as Hsub. pose proof (nr_split m p Hm o) as Hsplit.
  unfold choose. profile Hm. unfold read_index, index_of, row_of, col_of, data_copies, parity_index in *.
  pose proof (mo_num m p Hm) as Hfit. unfold stripes_fit in Hfit.
  destruct p; profile_is.
  - unfold choose_stripe, data_count. rewrite Hfit. rewrite crem_pos, cdiv_pos by done. cbn [mbind option_bind].
    change (u64 1) with 1. by rewrite Z.mod_1_r, Z.div_1_r.
  - unfold choose_stripe, data_count in *. rewrite u64_id by lia. rewrite crem_pos, cdiv_pos by lia. cbn [mbind option_bind].
    rewrite s32_id by lia. done.
  - unfold choose_raid1, data_count in *. rewrite Z.div_1_r. change (READ =? WRITE) with false. cbv iota.
    destruct (Z.eqb_spec mirror 0); cbn [negb]; [|done]. rewrite u64_id, crem_pos by lia. cbn [mbind option_bind].
    pose proof (Z.mod_pos_bound (o / L) n). rewrite s32_id by lia. done.
  - unfold choose_dup, data_count in *. rewrite Z.div_1_r. change (READ =? WRITE) with false. cbv iota.
    by destruct (Z.eqb_spec mirror 0).
  - unfold choose_raid10, data_count in *. destruct (Hsub eq_refl) as (Hs1 & Hs2 & Hs3). rewrite cdiv_pos by lia. cbn [mbind option_bind].
    rewrite u64_id by nia. rewrite crem_pos, cdiv_pos by lia. cbn [mbind option_bind]. rewrite s32_id by nia.
    change (READ =? WRITE) with false. cbv iota. destruct (Z.eqb_spec mirror 0); cbn [negb]; repeat f_equal; lia.
  - apply H56. by left.
  - apply H56. by right.
Qed.
Lemma choose_write mirror length : parity_count p = 0 ->
  choose m WRITE mirror o (o / L) (o mod L) length false =
    Some (StripeChoice (data_copies m p) (index_of m p o 0) (row_of m p o) (o mod L) length None).
Proof using Hm Ho.
  intros Hpar. destruct small_facts as ((? & ?) & (? & ?) & (? & ?) & (? & ?) & ?).
  pose proof (col_range m p Hm o Ho) as Hcol. pose proof (sub_num m p Hm) as Hsub.
  unfold choose. profile Hm. unfold index_of, row_of, col_of, data_copies in *.
  pose proof (mo_num m p Hm) as Hfit. unfold stripes_fit in Hfit.
  destruct p; try done; profile_is; unfold choose_stripe, choose_raid1, choose_dup, choose_raid10, data_count in *;
    change (WRITE =? WRITE) with true; cbv iota.
  - rewrite Hfit. rewrite crem_pos, cdiv_pos by done. cbn [mbind option_bind].
    change (u64 1) with 1. by rewrite Z.mod_1_r, Z.div_1_r.
  - rewrite u64_id by lia. rewrite crem_pos, cdiv_pos by lia. cbn [mbind option_bind]. rewrite s32_id by lia. done.
  - by rewrite Z.div_1_r.
  - by rewrite Z.div_1_r.
  - destruct (Hsub eq_refl) as (Hs1 & Hs2 & Hs3). rewrite cdiv_pos by lia. cbn [mbind option_bind].
    rewrite u64_id by nia. rewrite crem_pos, cdiv_pos by lia. cbn [mbind option_bind]. rewrite s32_id by nia. by rewrite Z.add_0_r.
Qed.

(** ** One round, without a full stripe *)

Lemma offset_run : u64 (start + o - start) = o.
Proof using Hm Ho. replace (start + o - start) with o by lia. pose proof (size_small m p Hm). apply u64_id. lia. Qed.

Lemma stripe_offset_run :
  u64 (o / L * L) = o / L * L /\ (o <? o / L * L) = false /\ u64 (o - o / L * L) = o mod L.
Proof using Hm Ho.
  destruct small_facts as ((? & ?) & _ & _ & ? & ?). pose proof (size_small m p Hm).
  pose proof (Z.div_mod o L ltac:(lia)). assert (o / L * L + o mod L = o) by lia.
  assert (0 <= o / L * L) by (apply Z.mul_nonneg_nonneg; lia).
  rewrite u64_id by lia. split; [done|]. split; [apply Z.ltb_ge; lia|]. rewrite u64_id by lia. lia.
Qed.

Lemma length_run :
  (if has_type (map_type m) 0x1F8 then Z.min (u64 (size - o)) (u64 (L - o mod L)) else u64 (size - o)) = piece m p o.
Proof using Hm Ho.
  destruct small_facts as ((? & ?) & _ & _ & ? & ?). pose proof (size_small m p Hm).
  rewrite !u64_id by lia. rewrite (has_profile m p Hm) by done.
  assert (Hin : L - o mod L <= size - o).
  { pose proof (nr_range m p Hm o Ho) as Hnr. pose proof (mo_size m p Hm) as Hs. pose proof (Z.div_mod o L ltac:(lia)).
    assert ((o / L + 1) * L <= rows m p * d * L) by (apply Z.mul_le_mono_nonneg_r; lia). lia. }
  unfold piece. destruct p; profile_is; lia.
Qed.

Lemma piece_range : 0 < piece m p o <= size - o.
Proof using Hm Ho.
  pose proof length_run as Hl. destruct small_facts as ((? & ?) & _ & _ & ? & ?). pose proof (size_small m p Hm).
  rewrite !u64_id in Hl by lia. destruct (has_type _ _); lia.
Qed.

Lemma map_pass_one rw mirror rmr alloc len i num :
  choose m rw mirror o (o / L) (o mod L) (piece m p o) false = Some (StripeChoice num i (row_of m p o) (o mod L) (piece m p o) None) ->
  has_type (map_type m) (Z.lor BTRFS_BLOCK_GROUP_RAID5 BTRFS_BLOCK_GROUP_RAID6) && true &&
    (has_type rw WRITE || (1 <? mirror)) && rmr = false ->
  (if rw =? WRITE then if has_type (map_type m) (Z.lor BTRFS_BLOCK_GROUP_RAID1 BTRFS_BLOCK_GROUP_DUP) then n
     else if has_type (map_type m) BTRFS_BLOCK_GROUP_RAID10 then map_sub_stripes m else 1 else 1) = num ->
  0 <= i -> 0 < num <= alloc -> i + num <= n ->
  map_block_pass m rw (start + o) len mirror true rmr alloc =
    Some (inr (MapResult 0 (piece m p o) (Some (map_type m))
      (Some ((fun j => located m j (row_off m p o)) <$> seqZ i num)) None)).
Proof using Hm Ho.
  intros Hch Hall Hreq Hi Hnum Hin. destruct small_facts as ((? & ?) & _ & _ & ? & ?).
  destruct stripe_offset_run as (Hso & Hlt & Hmod). unfold map_block_pass. cbv zeta.
  rewrite offset_run, Hall, Hreq. cbn [andb]. rewrite (proj2 (Z.ltb_ge alloc num)) by lia.
  rewrite (u64_id L) by lia. rewrite cdiv_pos by lia. cbn [mbind option_bind]. rewrite Hso, Hlt, Hmod, length_run.
  cbn [negb]. rewrite Hch. cbn [mbind option_bind sc_index sc_num sc_offset sc_nr sc_raid_map sc_length].
  rewrite (proj2 (Z.leb_gt n i)) by lia. rewrite (proj2 (Z.ltb_ge alloc num)) by lia.
  pose proof (row_range m p Hm o Ho) as Hrow. rewrite fill_stripes_run by lia. cbn [mbind option_bind].
  by rewrite Z2Nat.id by lia.
Qed.

Lemma read_index_range mirror : 0 <= mirror <= num_copies m -> 0 <= read_index m p o mirror < n.
Proof using Hm Ho.
  rewrite (num_copies_ok m p Hm). intros Hmir. pose proof (index_range m p Hm o Ho) as Hidx. pose proof (num_pos m p Hm).
  pose proof (parity_range m p Hm (row_of m p o) (mirror - 2)) as Hp. pose proof (Z.mod_pos_bound (o / L) n).
  pose proof (Hidx 0) as Hidx0. pose proof (Hidx (mirror - 1)) as Hidx1.
  assert (0 < data_copies m p).
  { pose proof (mo_num m p Hm) as Hfit. unfold stripes_fit, data_copies in *. destruct p; lia. }
  unfold read_index. destruct (Z.eqb_spec mirror 0), (Z.ltb_spec 1 mirror); unfold data_copies in *; destruct p; lia.
Qed.

Lemma index_copy c : 0 <= c < data_copies m p -> index_of m p o c = index_of m p o 0 + c.
Proof using Hm. intros Hc. unfold index_of, data_copies in *. destruct p; lia. Qed.

(** A read, of any mirror. *)
Lemma map_read_run mirror len : 0 <= mirror <= num_copies m ->
  map_block_pass m READ (start + o) len mirror true false 1 =
    Some (inr (MapResult 0 (piece m p o) (Some (map_type m)) (Some [located m (read_index m p o mirror) (row_off m p o)]) None)).
Proof using Hm Ho.
  intros Hmir. rewrite (map_pass_one READ mirror false 1 len (read_index m p o mirror) 1).
  - done.
  - by apply choose_read.
  - by rewrite andb_false_r.
  - done.
  - by apply read_index_range.
  - lia.
  - pose proof (read_index_range mirror Hmir). lia.
Qed.

(** A write of a profile without parity: all copies. *)
Lemma map_write_run mirror len rmr alloc : parity_count p = 0 -> data_copies m p <= alloc ->
  map_block_pass m WRITE (start + o) len mirror true rmr alloc =
    Some (inr (MapResult 0 (piece m p o) (Some (map_type m))
      (Some ((fun c => located m (index_of m p o c) (row_off m p o)) <$> seqZ 0 (data_copies m p))) None)).
Proof using Hm Ho.
  intros Hpar Halloc. pose proof (choose_write mirror (piece m p o) Hpar) as Hch.
  assert (Hc : 0 < data_copies m p).
  { pose proof (mo_num m p Hm) as Hfit. unfold stripes_fit, data_copies in *. destruct p; lia. }
  pose proof (index_range m p Hm o Ho) as Hidx. pose proof (Hidx 0 ltac:(lia)) as H0.
  pose proof (Hidx (data_copies m p - 1) ltac:(lia)) as H1. rewrite index_copy in H1 by lia.
  assert (Hlist : (fun j => located m j (row_off m p o)) <$> seqZ (index_of m p o 0) (data_copies m p) =
    (fun c => located m (index_of m p o c) (row_off m p o)) <$> seqZ 0 (data_copies m p)).
  { rewrite <- (Z.add_0_r (index_of m p o 0)) at 1. rewrite <- fmap_add_seqZ, <- list_fmap_compose.
    apply list_fmap_ext. intros k c Hk%lookup_seqZ. simpl. by rewrite (index_copy c) by lia. }
  rewrite (map_pass_one WRITE mirror rmr alloc len (index_of m p o 0) (data_copies m p)); [|done| | |lia..].
  - by rewrite Hlist.
  - rewrite (has_profile m p Hm) by done. destruct p; try done.
  - unfold data_copies. profile Hm. pose proof (mo_num m p Hm) as Hfit. by destruct p.
Qed.
(** ** Copies and mirrors *)

Lemma copies_pos : 0 < data_copies m p.
Proof using Hm. pose proof (mo_num m p Hm) as Hfit. unfold stripes_fit, data_copies in *. destruct p; lia. Qed.

Lemma num_copies_data : parity_count p = 0 -> num_copies m = data_copies m p.
Proof using Hm. intros Hpar. rewrite (num_copies_ok m p Hm). by destruct p. Qed.

Lemma read_index_copy c : parity_count p = 0 -> 0 <= c < data_copies m p -> read_index m p o (c + 1) = index_of m p o c.
Proof using Hm.
  intros Hpar Hc. unfold read_index. rewrite (proj2 (Z.eqb_neq (c + 1) 0)) by lia.
  replace (c + 1 - 1) with c by lia. unfold index_of, data_copies in *. destruct p; done || lia.
Qed.

Lemma read_index_any : parity_count p = 0 -> exists c, 0 <= c < data_copies m p /\ read_index m p o 0 = index_of m p o c.
Proof using Hm.
  intros Hpar. pose proof copies_pos. pose proof (num_pos m p Hm). unfold read_index, index_of, data_copies in *.
  destruct p; try done; try (by exists 0). exists ((o / L) mod n). split; [|done]. apply Z.mod_pos_bound. lia.
Qed.

Lemma piece_fits : row_off m p o + piece m p o <= dev_len m p.
Proof using Hm Ho.
  destruct small_facts as ((? & ?) & _ & _ & ? & ?). pose proof (row_range m p Hm o Ho) as Hrow. pose proof (mo_size m p Hm) as Hs.
  assert (Hp : row_off m p o + (L - o mod L) <= dev_len m p).
  { unfold row_off, dev_len. assert ((row_of m p o + 1) * L <= rows m p * L) by (apply Z.mul_le_mono_nonneg_r; lia). lia. }
  unfold piece. pose proof (o_split m p Hm o) as Hos. destruct p; try done.
  unfold row_off, dev_len. unfold data_count in *. rewrite Z.mul_1_r in *.
  assert (col_of m Single o = 0) by (unfold col_of, data_count; apply Z.mod_1_r). lia.
Qed.

Lemma row_of_off : row_off m p o / L = row_of m p o.
Proof using Hm. unfold row_off. pose proof (so_range m p Hm o). rewrite Z.div_add_l, Z.div_small by lia. lia. Qed.
End At.

(** Inside a piece nothing but the offset moves. *)
Lemma piece_shift o x : 0 <= o < size -> 0 <= x < piece m p o ->
  0 <= o + x < size /\ row_off m p (o + x) = row_off m p o + x /\
  (forall c, index_of m p (o + x) c = index_of m p o c) /\ (forall mirror, read_index m p (o + x) mirror = read_index m p o mirror).
Proof using Hm.
  intros Ho Hx. pose proof (piece_range o Ho) as Hpc. pose proof (mo_len m p Hm) as HL.
  assert (Hcase : p = Single \/ piece m p o = L - o mod L) by (unfold piece; destruct p; auto).
  destruct Hcase as [Hsingle|Hpiece].
  - assert (Hro : forall y, row_off m p y = y).
    { intros y. unfold row_off, row_of, data_count. rewrite Hsingle, Z.div_1_r, Z.mul_comm. symmetry. apply Z.div_mod. lia. }
    rewrite !Hro. unfold read_index, index_of. rewrite Hsingle. split_and!; [lia..|done|done].
  - pose proof (so_range m p Hm o) as Hso. pose proof (Z.div_mod o L ltac:(lia)) as Hdm.
    assert (Hdiv : (o + x) / L = o / L).
    { symmetry. apply (Z.div_unique _ _ _ (o mod L + x)); lia. }
    assert (Hmod : (o + x) mod L = o mod L + x) by (symmetry; apply (Z.mod_unique _ _ (o / L)); lia).
    unfold read_index, index_of, row_off, row_of, col_of. rewrite Hdiv, Hmod. split_and!; [lia..|done|done].
Qed.

(** The mirrors that are copies of the data. *)
Definition data_mirror (mirror : Z) : Prop := 0 <= mirror <= num_copies m /\ (parity_count p = 0 \/ mirror <= 1).

Lemma data_read o mirror : data_mirror mirror -> exists c, 0 <= c < data_copies m p /\ read_index m p o mirror = index_of m p o c.
Proof using Hm.
  intros [Hmir Hdata]. destruct (decide (parity_count p = 0)) as [Hpar|Hpar].
  - rewrite num_copies_data in Hmir by done. destruct (Z.eq_dec mirror 0) as [->|Hne]; [by apply read_index_any|].
    exists (mirror - 1). split; [lia|]. rewrite <- read_index_copy by (done || lia). f_equal. lia.
  - destruct Hdata as [|Hdata]; [done|]. exists 0. unfold read_index, data_copies. rewrite (proj2 (Z.ltb_ge 1 mirror)) by lia.
    destruct p; done.
Qed.

(** Which reads are of data. *)
Lemma read_place_inj o mirror o' mirror' :
  0 <= o < size -> 0 <= o' < size -> 0 <= mirror <= num_copies m -> 0 <= mirror' <= num_copies m ->
  parity_count p = 0 \/ mirror <= 1 ->
  read_index m p o mirror = read_index m p o' mirror' -> row_off m p o = row_off m p o' ->
  start + o = start + o' /\ (parity_count p = 0 \/ mirror' <= 1).
Proof using Hm.
  intros Ho Ho' Hmir Hmir' Hdata Hi Hoff. destruct (decide (parity_count p = 0)) as [Hpar|Hpar].
  - split; [|by left]. rewrite num_copies_data in * by done. pose proof copies_pos.
    assert (Hc : forall o mirror, 0 <= o < size -> 0 <= mirror <= data_copies m p ->
      exists c, 0 <= c < data_copies m p /\ read_index m p o mirror = index_of m p o c).
    { intros x k Hx Hk. destruct (Z.eq_dec k 0) as [->|Hk0]; [by apply read_index_any|].
      exists (k - 1). split; [lia|]. rewrite <- read_index_copy by (done || lia). by replace (k - 1 + 1) with k by lia. }
    destruct (Hc o mirror Ho Hmir) as (c & Hc1 & E1). destruct (Hc o' mirror' Ho' Hmir') as (c' & Hc2 & E2).
    destruct (place_inj m p Hm o c o' c' Ho Ho' Hc1 Hc2); [congruence|done|]. lia.
  - destruct Hdata as [|Hdata]; [done|]. assert (Hone : data_copies m p = 1) by (unfold data_copies; destruct p; done).
    rewrite (num_copies_ok m p Hm) in *. unfold row_off in Hoff.
    destruct (digits_inj L (row_of m p o) (o mod L) (row_of m p o') (o' mod L)) as [Hrow _]; [apply (so_range m p Hm)..|done|].
    assert (Hr : read_index m p o mirror = index_of m p o 0)
      by (unfold read_index; rewrite (proj2 (Z.ltb_ge 1 mirror)) by lia; by destruct p).
    rewrite Hr in Hi. destruct (Z.le_gt_cases mirror' 1) as [Hle|Hgt].
    + split; [|by right]. assert (Hr' : read_index m p o' mirror' = index_of m p o' 0)
        by (unfold read_index; rewrite (proj2 (Z.ltb_ge 1 mirror')) by lia; by destruct p).
      destruct (place_inj m p Hm o 0 o' 0 Ho Ho'); [lia|lia|congruence|done|]. lia.
    + exfalso. assert (Hr' : read_index m p o' mirror' = parity_index m p (row_of m p o') (mirror' - 2))
        by (unfold read_index; rewrite (proj2 (Z.ltb_lt 1 mirror')) by lia; by destruct p).
      rewrite Hr' in Hi. apply (place_not_parity m p Hm o (row_of m p o') (mirror' - 2)) in Hi; [done|done| |done].
      destruct p; simpl in *; lia.
Qed.
End Map.

(** ** The full stripe that a write to RAID 5 or 6 gets: the data in the order of
    its logical addresses, then the parity. *)

Section Full.
Context (m : map_lookup) (p : profile) (Hm : map_ok m p) (Hp : p = Raid5 \/ p = Raid6).
Abbreviation L := (map_stripe_len m).
Abbreviation n := (map_num_stripes m).
Abbreviation d := (data_count m p).
Abbreviation size := (ce_size (map_ce m)).
Abbreviation start := (ce_start (map_ce m)).

(** What [raid_map] says of the stripe [j] of a row. *)
Definition full_entry (row j : Z) : Z :=
  if j <? d then start + (row * d + j) * L else if j =? d then BTRFS_RAID5_P_STRIPE else BTRFS_RAID6_Q_STRIPE.

Definition full_stripe (row : Z) : list mapped :=
  (fun j => (full_entry row j, located m ((row + j) mod n) (row * L))) <$> seqZ 0 n.

Definition pos (row j : Z) : nat := Z.to_nat ((row + j) mod n).

Lemma pos_lt row j : (pos row j < Z.to_nat n)%nat.
Proof using Hm. unfold pos. pose proof (num_pos m p Hm). pose proof (Z.mod_pos_bound (row + j) n). lia. Qed.

Lemma pos_inj row j j' : 0 <= j < n -> 0 <= j' < n -> pos row j = pos row j' -> j = j'.
Proof using Hm.
  unfold pos. intros Hj Hj' Heq. pose proof (Z.mod_pos_bound (row + j) n). pose proof (Z.mod_pos_bound (row + j') n).
  apply (mod_shift_inj n row); lia.
Qed.

Lemma data_num : n = d + parity_count p.
Proof using Hm Hp. unfold data_count. destruct Hp as [-> | ->]; lia. Qed.

Lemma parity_pos : 1 <= parity_count p <= 2.
Proof using Hm Hp. destruct Hp as [-> | ->]; simpl; lia. Qed.

Section Row.
Context (row : Z) (Hrow : 0 <= row < rows m p).

Lemma row_facts : 0 < L < 2 ^ 31 /\ 0 < n < 2 ^ 31 /\ 0 < d < n /\ 0 <= start /\ row * d * L + d * L <= size /\ start + size < 2 ^ 64 /\ 0 <= row * d /\
  (8 | L).
Proof using Hm Hrow Hp.
  pose proof (len_small m p Hm) as [H1 H2]. pose proof (mo_len m p Hm). pose proof (num_pos m p Hm).
  pose proof (data_pos m p Hm). pose proof data_num. pose proof parity_pos. pose proof (mo_start m p Hm). pose proof (mo_end m p Hm).
  pose proof (mo_align m p Hm). pose proof (mo_size m p Hm) as Hs.
  assert ((row + 1) * (d * L) <= rows m p * (d * L)) by (apply Z.mul_le_mono_nonneg_r; [apply Z.mul_nonneg_nonneg|]; lia).
  split_and!; try lia; done.
Qed.

Lemma data_addr_bounds j : 0 <= j < d -> start <= start + (row * d + j) * L /\ start + (row * d + j) * L + L <= start + size.
Proof using Hm Hrow Hp.
  intros Hj. destruct row_facts as (? & ? & ? & ? & Hsz & ? & ? & ?).
  assert ((j + 1) * L <= d * L) by (apply Z.mul_le_mono_nonneg_r; lia).
  assert (0 <= j * L) by (apply Z.mul_nonneg_nonneg; lia). assert (0 <= row * d * L) by (apply Z.mul_nonneg_nonneg; lia). lia.
Qed.

Lemma fill_run k i a :
  0 <= i -> i + Z.of_nat k <= d -> length a = Z.to_nat n ->
  exists a', fill_raid_map m (row mod n) (row * d) i k a = Some a' /\ length a' = Z.to_nat n /\
    forall j, 0 <= j < n -> a' !! pos row j = if (i <=? j) && (j <? i + Z.of_nat k) then Some (full_entry row j) else a !! pos row j.
Proof using Hm Hrow Hp.
  destruct row_facts as (? & ? & ? & ? & Hsz & ? & ? & ?).
  revert i a. induction k as [|k IH]; intros i a Hi Hk Ha.
  - exists a. split; [done|]. split; [done|]. intros j Hj. destruct (_ <=? _) eqn:E1, (_ <? _) eqn:E2; try done.
    apply Z.leb_le in E1. apply Z.ltb_lt in E2. lia.
  - cbn [fill_raid_map]. rewrite crem_pos by lia. cbn [mbind option_bind].
    rewrite Z.add_mod_idemp_r by lia. rewrite (Z.add_comm i row). fold (pos row i).
    pose proof (data_addr_bounds i ltac:(lia)) as [B1 B2].
    assert (row * d * L + i * L = (row * d + i) * L) by lia. assert (Hle : row * d + i <= (row * d + i) * L) 
      by (assert (0 <= row * d) by (apply Z.mul_nonneg_nonneg; lia);
        rewrite <- (Z.mul_1_r (row * d + i)) at 1; apply Z.mul_le_mono_nonneg_l; lia).
    rewrite (u64_id (row * d + i)) by lia. rewrite (u64_id ((row * d + i) * L)) by lia. rewrite u64_id by lia.
    replace (start + (row * d + i) * L) with (full_entry row i) by (unfold full_entry; by rewrite (proj2 (Z.ltb_lt _ _)) by lia).
    destruct (IH (i + 1) (<[pos row i := full_entry row i]> a)) as (a' & Hrun & Hlen & Hall);
      [lia|lia|by rewrite length_insert|]. exists a'. split; [done|]. split; [done|]. intros j Hj. rewrite (Hall j Hj).
    pose proof (pos_lt row i). destruct (Z.eq_dec j i) as [->|Hne].
    + rewrite (proj2 (Z.leb_gt (i + 1) i)) by lia. cbn [andb]. rewrite list_lookup_insert_eq by lia.
      by rewrite (proj2 (Z.leb_le i i)), (proj2 (Z.ltb_lt _ _)) by lia.
    + rewrite list_lookup_insert_ne by (intros Heq; apply pos_inj in Heq; lia).
      replace (i + 1 + Z.of_nat k) with (i + Z.of_nat (S k)) by lia.
      destruct (Z.leb_spec i j), (Z.leb_spec (i + 1) j); try lia; done.
Qed.

Lemma build_run :
  exists a, build_raid_map m (row mod n) (row * d) = Some a /\ length a = Z.to_nat n /\
    forall j, 0 <= j < n -> a !! pos row j = Some (full_entry row j).
Proof using Hm Hrow Hp.
  destruct row_facts as (? & ? & ? & ? & Hsz & ? & ? & ?). pose proof data_num as Hdn. pose proof parity_pos.
  unfold build_raid_map. rewrite (nr_data_ok m p Hm Hp). cbv zeta.
  destruct (fill_run (Z.to_nat d) 0 (replicate (Z.to_nat n) 0)) as (a & Hrun & Hlen & Hall); [lia|lia|by rewrite length_replicate|].
  rewrite Hrun. cbn [mbind option_bind]. rewrite (crem_pos (d + row mod n)) by lia. cbn [mbind option_bind].
  rewrite Z.add_mod_idemp_r by lia. rewrite (Z.add_comm d row). fold (pos row d).
  assert (Hdata : forall j, 0 <= j < d -> a !! pos row j = Some (full_entry row j)).
  { intros j Hj. rewrite Hall by lia. by rewrite (proj2 (Z.leb_le _ _)), (proj2 (Z.ltb_lt _ _)) by lia. }
  pose proof (pos_lt row d) as Hpd. pose proof (pos_lt row (d + 1)) as Hpq.
  assert (Hpe : full_entry row d = BTRFS_RAID5_P_STRIPE)
    by (unfold full_entry; by rewrite Z.ltb_irrefl, Z.eqb_refl).
  assert (Hqe : full_entry row (d + 1) = BTRFS_RAID6_Q_STRIPE)
    by (unfold full_entry; by rewrite (proj2 (Z.ltb_ge _ _)), (proj2 (Z.eqb_neq _ _)) by lia).
  rewrite (has_profile m p Hm) by done. destruct Hp as [Hp5|Hp6].
  - assert (parity_count p = 1) as Hpc by (by rewrite Hp5). replace (has_type (profile_bits p) _) with false by (by rewrite Hp5).
    eexists. split; [done|]. split; [by rewrite length_insert|]. intros j Hj.
    destruct (Z.eq_dec j d) as [->|Hne]; [rewrite list_lookup_insert_eq by lia; by rewrite Hpe|].
    rewrite list_lookup_insert_ne by (intros Heq; apply pos_inj in Heq; lia). apply Hdata. lia.
  - assert (parity_count p = 2) as Hpc by (by rewrite Hp6). replace (has_type (profile_bits p) _) with true by (by rewrite Hp6).
    rewrite crem_pos by lia. cbn [mbind option_bind].
    replace ((d + row mod n + 1) mod n) with ((row + (d + 1)) mod n)
      by (replace (d + row mod n + 1) with (d + 1 + row mod n) by lia; rewrite Z.add_mod_idemp_r by lia; f_equal; lia).
    fold (pos row (d + 1)). eexists. split; [done|]. split; [by rewrite !length_insert|]. intros j Hj.
    destruct (Z.eq_dec j (d + 1)) as [->|Hnq]; [rewrite list_lookup_insert_eq by (rewrite length_insert; lia); by rewrite Hqe|].
    rewrite list_lookup_insert_ne by (intros Heq; apply pos_inj in Heq; lia).
    destruct (Z.eq_dec j d) as [->|Hne]; [rewrite list_lookup_insert_eq by lia; by rewrite Hpe|].
    rewrite list_lookup_insert_ne by (intros Heq; apply pos_inj in Heq; lia). apply Hdata. lia.
Qed.

(** ** Sorted *)

Lemma full_sorted : StronglySorted lt_key (full_stripe row).
Proof using Hm Hrow Hp.
  destruct row_facts as (? & ? & ? & ? & Hsz & ? & ? & [k Hk]).
  assert (Hlt : forall i j, 0 <= i -> i < j -> j < n -> full_entry row i < full_entry row j).
  { intros i j Hi Hij Hj. pose proof data_num. pose proof parity_pos. unfold full_entry.
    destruct (Z.ltb_spec j d).
    - rewrite (proj2 (Z.ltb_lt i d)) by lia. assert (i * L < j * L) by (apply Z.mul_lt_mono_pos_r; lia). lia.
    - unfold BTRFS_RAID5_P_STRIPE, BTRFS_RAID6_Q_STRIPE. destruct (Z.ltb_spec i d) as [Hid|Hid].
      + pose proof (data_addr_bounds i ltac:(lia)). destruct (j =? d); lia.
      + rewrite (proj2 (Z.eqb_neq j d)), (proj2 (Z.eqb_eq i d)) by lia. lia. }
  assert (Hgen : forall k i, 0 <= i -> i + Z.of_nat k = n ->
    StronglySorted lt_key ((fun j => (full_entry row j, located m ((row + j) mod n) (row * L))) <$> seqZ i (Z.of_nat k))).
  { intros c. induction c as [|c IH]; intros i Hi Hc; [constructor|]. rewrite seqZ_cons by lia. cbn [fmap list_fmap].
    replace (Z.pred (Z.of_nat (S c))) with (Z.of_nat c) by lia. constructor; [apply IH; lia|].
    apply Forall_fmap, Forall_forall. intros j Hj%elem_of_seqZ. unfold lt_key. simpl. apply Hlt; lia. }
  unfold full_stripe. specialize (Hgen (Z.to_nat n) 0). rewrite Z2Nat.id in Hgen by lia. apply Hgen; lia.
Qed.

(** Its two halves. *)
Lemma full_split :
  (full_stripe row).*1 = ((fun j => start + (row * d + j) * L) <$> seqZ 0 d) ++
    match p with Raid5 => [BTRFS_RAID5_P_STRIPE] | _ => [BTRFS_RAID5_P_STRIPE; BTRFS_RAID6_Q_STRIPE] end /\
  (full_stripe row).*2 = ((fun j => located m ((row + j) mod n) (row * L)) <$> seqZ 0 d) ++
    ((fun k => located m (parity_index m p row k) (row * L)) <$> seqZ 0 (parity_count p)).
Proof using Hm Hrow Hp.
  destruct row_facts as (? & ? & ? & ? & Hsz & ? & ? & ?). pose proof data_num as Hdn. pose proof parity_pos.
  assert (Hseq : seqZ 0 n = seqZ 0 d ++ ((fun k => d + k) <$> seqZ 0 (parity_count p))).
  { rewrite Hdn at 1. rewrite seqZ_app by lia. f_equal. rewrite fmap_add_seqZ. f_equal. lia. }
  unfold full_stripe. rewrite Hseq, fmap_app, !fmap_app, <- !list_fmap_compose. split; f_equal.
  - apply list_fmap_ext. intros i j [-> Hj]%lookup_seqZ. simpl. unfold full_entry. by rewrite (proj2 (Z.ltb_lt _ _)) by lia.
  - unfold full_entry. destruct Hp as [Hp5|Hp6].
    + replace (match p with Raid5 => _ | _ => _ end) with [BTRFS_RAID5_P_STRIPE] by (by rewrite Hp5).
      replace (parity_count p) with 1 by (by rewrite Hp5). change (seqZ 0 1) with [0]. cbn [fmap list_fmap compose fst].
      by rewrite Z.add_0_r, Z.ltb_irrefl, Z.eqb_refl.
    + replace (match p with Raid5 => _ | _ => _ end) with [BTRFS_RAID5_P_STRIPE; BTRFS_RAID6_Q_STRIPE] by (by rewrite Hp6).
      replace (parity_count p) with 2 by (by rewrite Hp6). change (seqZ 0 2) with [0; 1]. cbn [fmap list_fmap compose fst].
      rewrite Z.add_0_r, Z.ltb_irrefl, Z.eqb_refl.
      by rewrite (proj2 (Z.ltb_ge (d + 1) d)), (proj2 (Z.eqb_neq (d + 1) d)) by lia.
  - apply list_fmap_ext. intros i k [-> Hk]%lookup_seqZ. simpl. unfold parity_index. do 2 f_equal. lia.
Qed.

(** Where the bytes of a row are read. *)
Lemma data_place j : 0 <= j < d ->
  let o := (row * d + j) * L in
  0 <= o < size /\ located m (read_index m p o 0) (row_off m p o) = located m ((row + j) mod n) (row * L) /\
  (forall k, 0 <= k -> located m (read_index m p o (k + 2)) (row_off m p o) = located m (parity_index m p row k) (row * L)) /\
  piece m p o = L.
Proof using Hm Hrow Hp.
  intros Hj o. destruct row_facts as ((? & ?) & _).
  destruct (compose_offset m p Hm row j 0 Hrow Hj ltac:(lia)) as (H1 & H2 & H3 & H4 & H5). cbv zeta in *.
  rewrite Z.add_0_r in H1; rewrite Z.add_0_r in H2; rewrite Z.add_0_r in H3; rewrite Z.add_0_r in H4; rewrite !Z.add_0_r in H5. fold o in H1, H2, H3, H4, H5. split; [done|]. rewrite H5. unfold read_index, index_of, piece.
  rewrite H2, H3, H4, Z.sub_0_r. split_and!.
  - by destruct Hp as [-> | ->].
  - intros k Hk. rewrite (proj2 (Z.ltb_lt 1 (k + 2))) by lia.
    replace (k + 2 - 2) with k by lia. by destruct Hp as [-> | ->].
  - by destruct Hp as [-> | ->].
Qed.

(** The rotation is a permutation of the stripes. *)
Lemma rotation_perm : (fun j => (row + j) mod n) <$> seqZ 0 n ≡ₚ seqZ 0 n.
Proof using Hm.
  pose proof (num_pos m p Hm). apply NoDup_Permutation_bis.
  - apply NoDup_ListNoDup, NoDup_fmap_2_strong; [|apply NoDup_seqZ]. intros x y Hx%elem_of_seqZ Hy%elem_of_seqZ Heq.
    apply (mod_shift_inj n row); lia || done.
  - by rewrite length_fmap.
  - intros x Hx%list_elem_of_In. apply list_elem_of_In. apply list_elem_of_fmap in Hx as (j & -> & Hj).
    apply elem_of_seqZ. pose proof (Z.mod_pos_bound (row + j) n). lia.
Qed.

Lemma full_perm a :
  length a = Z.to_nat n -> (forall j, 0 <= j < n -> a !! pos row j = Some (full_entry row j)) ->
  zip a ((fun i => located m i (row * L)) <$> seqZ 0 n) ≡ₚ full_stripe row.
Proof using Hm.
  intros Hlen Hall. pose proof (num_pos m p Hm).
  assert (Hz : zip a ((fun i => located m i (row * L)) <$> seqZ 0 n) =
    (fun i => (default 0 (a !! Z.to_nat i), located m i (row * L))) <$> seqZ 0 n).
  { apply list_eq_same_length with (n := Z.to_nat n).
    - by rewrite length_fmap, length_seqZ.
    - rewrite length_zip_with, length_fmap, length_seqZ. lia.
    - intros i x y Hi Hx Hy. apply list_lookup_fmap_Some in Hy as (k & -> & [-> Hk]%lookup_seqZ).
      apply lookup_zip_with_Some in Hx as (u & v & -> & Hu & Hv). apply list_lookup_fmap_Some in Hv as (k' & -> & [-> _]%lookup_seqZ).
      rewrite Z.add_0_l, Nat2Z.id, Hu. done. }
  rewrite Hz. unfold full_stripe. rewrite <- rotation_perm at 1. rewrite <- list_fmap_compose.
  apply Permutation_refl'. apply list_fmap_ext. intros i j [-> Hj]%lookup_seqZ. simpl. fold (pos row (0 + Z.of_nat i)).
  rewrite Hall by lia. done.
Qed.
End Row.

(** ** One round for a full stripe *)

Section At.
Context (o : Z) (Ho : 0 <= o < size).

Lemma choose_full mirror length : exists a,
  choose m WRITE mirror o (o / L) (o mod L) length true = Some (StripeChoice n 0 (row_of m p o) 0 L (Some a)) /\
  List.length a = Z.to_nat n /\ forall j, 0 <= j < n -> a !! pos (row_of m p o) j = Some (full_entry (row_of m p o) j).
Proof using Hm Hp Ho.
  pose proof (row_range m p Hm o Ho) as Hrow. destruct (row_facts _ Hrow) as (? & ? & ? & ? & Hsz & ? & ? & ?).
  destruct (build_run _ Hrow) as (a & Ha & Hlen & Hall). exists a. split; [|done].
  pose proof (mo_int m p Hm). pose proof (size_small m p Hm).
  assert (0 < d * L < 2 ^ 31) by nia.
  assert (Hq : o / (d * L) = row_of m p o) by (unfold row_of; rewrite Z.div_div by lia; f_equal; lia).
  assert (Hrd : row_of m p o * (d * L) <= o) by (rewrite <- Hq, Z.mul_comm; apply Z.mul_div_le; lia).
  assert (0 <= row_of m p o * (d * L)) by (apply Z.mul_nonneg_nonneg; lia).
  unfold choose. profile Hm. unfold choose_raid56.
  enough (choose_full_stripe m o = Some (StripeChoice n 0 (row_of m p o) 0 L (Some a))) by (by destruct Hp as [-> | ->]).
  unfold choose_full_stripe. rewrite (nr_data_ok m p Hm Hp). rewrite (u64_id (d * L)) by lia.
  rewrite cdiv_pos by lia. cbn [mbind option_bind]. rewrite Hq. rewrite (u64_id (row_of m p o * (d * L))), (u64_id L), (u64_id d), (u64_id n) by lia.
  rewrite cdiv_pos by lia. cbn [mbind option_bind]. rewrite Z.mul_assoc, Z.div_mul by lia.
  rewrite cdiv_pos by lia. cbn [mbind option_bind]. rewrite Z.div_mul by lia.
  rewrite crem_pos by lia. cbn [mbind option_bind]. pose proof (Z.mod_pos_bound (row_of m p o) n).
  rewrite s32_id by lia. rewrite u64_id by nia. by rewrite Ha.
Qed.

Lemma map_full_run mirror len alloc : n <= alloc ->
  map_block_pass m WRITE (start + o) len mirror true true alloc =
    Some (inr (MapResult 0 L (Some (map_type m)) (Some (full_stripe (row_of m p o)).*2) (Some (full_stripe (row_of m p o)).*1))).
Proof using Hm Hp Ho.
  intros Halloc. destruct (small_facts m p Hm o Ho) as ((? & ?) & ? & _ & ? & ?).
  destruct (stripe_offset_run m p Hm o Ho) as (Hso & Hlt & Hmod). unfold map_block_pass. cbv zeta.
  rewrite (offset_run m p Hm o Ho). change (has_type WRITE WRITE) with true. cbn [orb].
  replace (has_type (map_type m) (Z.lor BTRFS_BLOCK_GROUP_RAID5 BTRFS_BLOCK_GROUP_RAID6)) with true
    by (rewrite (has_profile m p Hm) by done; by destruct Hp as [-> | ->]).
  cbn [andb]. rewrite (proj2 (Z.leb_le n alloc)), (proj2 (Z.ltb_ge alloc n)) by lia.
  rewrite (u64_id L) by lia. rewrite cdiv_pos by lia. cbn [mbind option_bind negb]. rewrite Hso, Hlt, Hmod.
  destruct (choose_full mirror (if has_type (map_type m) 0x1F8 then Z.min (u64 (size - o)) (u64 (L - o mod L)) else u64 (size - o)))
    as (a & -> & Hlen & Hall). cbn [mbind option_bind sc_index sc_num sc_offset sc_nr sc_raid_map sc_length].
  rewrite (proj2 (Z.leb_gt n 0)) by lia. rewrite (proj2 (Z.ltb_ge alloc n)) by lia.
  pose proof (row_range m p Hm o Ho) as Hrow. rewrite (fill_stripes_run m p Hm) by lia. cbn [mbind option_bind].
  rewrite Z2Nat.id by lia. rewrite Z.add_0_r. pose proof (full_perm _ a Hlen Hall) as Hperm.
  pose proof (sort_is _ _ Hperm (full_sorted _ Hrow)) as Hsort. rewrite length_zip_with, Hlen in Hsort.
  rewrite length_fmap, length_seqZ in *. rewrite Nat.min_id in Hsort. rewrite Hsort. done.
Qed.

(** With less room it starts again. *)
Lemma map_full_retry mirror len alloc : alloc < n ->
  map_block_pass m WRITE (start + o) len mirror true true alloc = Some (inl n).
Proof using Hm Hp Ho.
  intros Halloc. unfold map_block_pass. cbv zeta. change (has_type WRITE WRITE) with true. cbn [orb].
  replace (has_type (map_type m) (Z.lor BTRFS_BLOCK_GROUP_RAID5 BTRFS_BLOCK_GROUP_RAID6)) with true
    by (rewrite (has_profile m p Hm) by done; by destruct Hp as [-> | ->]).
  cbn [andb]. by rewrite (proj2 (Z.ltb_lt alloc n)) by lia.
Qed.
End At.
End Full.
