(* ===== verification/VolumesMapping.v ===== *)
(** The tree of chunk maps: every address of a chunk is found in it. *)

From S2P Require Import Prelude RbSpec ExtentCache Volumes VolumesSpec VolumesMap.

Section Mapping.
Context {T : Type} `{RbTreeLaws T}.
Implicit Types (t : btrfs_mapping_tree T) (ms : list (map_lookup * profile)).

(** The tree [t] holds the chunks [ms], in the order of their addresses. *)
Record mapping_ok t ms : Prop := {
  mk_cache : exists ps, cache_seq (mt_cache t) (mt_entries t) ps ((fun c => map_ce c.1) <$> ms) /\
    Forall2 (fun p c => mt_maps t p = Some c.1) ps ms;
  mk_chunks : Forall (fun c => map_ok c.1 c.2) ms;
}.

Lemma search_map_found t ms m p o :
  mapping_ok t ms -> (m, p) ∈ ms -> 0 <= o < ce_size (map_ce m) ->
  map_ok m p /\ exists x, search_map t (ce_start (map_ce m) + o) = Some (Some x) /\ mt_maps t x = Some m.
Proof using Type.
  intros [(ps & Hc & Hmaps) Hms] Hin Ho. rewrite Forall_forall in Hms. pose proof (Hms _ Hin) as Hm. split; [done|].
  apply list_elem_of_split in Hin as (m1 & m2 & ->). rewrite fmap_app in Hc. cbn [fmap list_fmap] in Hc.
  apply Forall2_app_inv_r in Hmaps as (p1 & p2 & Hm1 & Hm2 & ->).
  apply Forall2_cons_inv_r in Hm2 as (x & p2' & Hx & Hm2 & ->). exists x. split; [|done].
  pose proof (cs_ranges _ _ _ _ Hc) as Hok. apply ranges_ok_app in Hok as [Hok1 (Hlo & Hsz & He & Hok2)].
  pose proof (ranges_end_ge _ _ Hok1). unfold ce_end in He. cbn [fst] in *.
  unfold search_map. rewrite (search_cache_extent_split _ _ p1 (x :: p2') _ (map_ce m :: _) _ Hc); [done| |lia|lia|unfold ce_end; lia].
  rewrite length_fmap. by eapply Forall2_length.
Qed.

(** What a pass over the chunk returns is what the search over the tree returns. *)
Lemma map_block_run t ms m p o rw len mirror rmr r :
  mapping_ok t ms -> (m, p) ∈ ms -> 0 <= o < ce_size (map_ce m) ->
  (let pass := map_block_pass m rw (ce_start (map_ce m) + o) len mirror true rmr in
   let alloc := if rw =? READ then 1 else 8 in
   pass alloc = Some (inr r) \/ exists n, pass alloc = Some (inl n) /\ pass n = Some (inr r)) ->
  btrfs_map_block t rw (ce_start (map_ce m) + o) len mirror rmr = Some r.
Proof using Type.
  intros Hok Hin Ho Hpass. destruct (search_map_found t ms m p o Hok Hin Ho) as (Hm & x & Hs & Hx).
  pose proof (mo_start m p Hm). pose proof (mo_end m p Hm).
  unfold btrfs_map_block, __btrfs_map_block. rewrite Hs. cbn [mbind option_bind]. rewrite Hx. cbn [mbind option_bind].
  rewrite u64_id by lia. rewrite (proj2 (Z.ltb_ge _ _)), (proj2 (Z.ltb_ge _ _)) by lia. cbn [orb andb].
  cbv zeta in Hpass. destruct Hpass as [-> | (n & -> & Hp)]; [done|]. cbn [mbind option_bind]. by rewrite Hp.
Qed.

Section Chunk.
Context t ms m p (Hok : mapping_ok t ms) (Hin : (m, p) ∈ ms).
Abbreviation start := (ce_start (map_ce m)).
Abbreviation size := (ce_size (map_ce m)).

Lemma chunk_ok : map_ok m p.
Proof using Hok Hin. destruct Hok as [_ Hms]. rewrite Forall_forall in Hms. apply (Hms _ Hin). Qed.

Lemma map_block_read o len mirror :
  0 <= o < size -> 0 <= mirror <= num_copies m ->
  btrfs_map_block t READ (start + o) len mirror false =
    Some (MapResult 0 (piece m p o) (Some (map_type m)) (Some [located m (read_index m p o mirror) (row_off m p o)]) None).
Proof using Hok Hin.
  intros Ho Hmir. eapply map_block_run; [done..|]. left. apply map_read_run; [apply chunk_ok|done..].
Qed.

Lemma map_block_write o len mirror rmr :
  0 <= o < size -> parity_count p = 0 ->
  btrfs_map_block t WRITE (start + o) len mirror rmr =
    Some (MapResult 0 (piece m p o) (Some (map_type m))
      (Some ((fun c => located m (index_of m p o c) (row_off m p o)) <$> seqZ 0 (data_copies m p))) None).
Proof using Hok Hin.
  intros Ho Hpar. eapply map_block_run; [done..|]. cbv zeta. change (WRITE =? READ) with false. cbv iota.
  destruct (Z.le_gt_cases (data_copies m p) 8) as [Hle|Hgt].
  - left. by apply map_write_run; [apply chunk_ok|..].
  - right. exists (data_copies m p). split; [|by apply map_write_run; [apply chunk_ok|..]].
    unfold map_block_pass. cbv zeta. change (WRITE =? WRITE) with true. cbv iota.
    pose proof chunk_ok as Hm. rewrite !(has_profile m p Hm) by done. unfold data_copies in *.
    destruct p; try done; profile_is; try lia; cbn [andb]; by rewrite (proj2 (Z.ltb_lt _ _)) by lia.
Qed.

Lemma map_block_full o len mirror :
  0 <= o < size -> p = Raid5 \/ p = Raid6 ->
  btrfs_map_block t WRITE (start + o) len mirror true =
    Some (MapResult 0 (map_stripe_len m) (Some (map_type m)) (Some (full_stripe m p (row_of m p o)).*2)
      (Some (full_stripe m p (row_of m p o)).*1)).
Proof using Hok Hin.
  intros Ho Hp. pose proof chunk_ok as Hm. eapply map_block_run; [done..|]. cbv zeta. change (WRITE =? READ) with false. cbv iota.
  destruct (Z.le_gt_cases (map_num_stripes m) 8) as [Hle|Hgt].
  - left. by apply map_full_run.
  - right. exists (map_num_stripes m). split; [by apply (map_full_retry m p)|by apply map_full_run].
Qed.

Lemma num_copies_run o : 0 <= o < size -> btrfs_num_copies t (start + o) = Some (num_copies m).
Proof using Hok Hin.
  intros Ho. destruct (search_map_found t ms m p o Hok Hin Ho) as (Hm & x & Hs & Hx).
  pose proof (mo_start m p Hm). pose proof (mo_end m p Hm).
  unfold btrfs_num_copies. rewrite Hs. cbn [mbind option_bind]. rewrite Hx. cbn [mbind option_bind].
  rewrite u64_id by lia. by rewrite (proj2 (Z.ltb_ge _ _)), (proj2 (Z.ltb_ge _ _)) by lia.
Qed.
End Chunk.

(** An address outside all chunks. *)
Lemma map_block_absent t ms rw logical len mirror rmr :
  mapping_ok t ms -> 0 <= logical < 2 ^ 64 - 1 ->
  Forall (fun c => logical < ce_start (map_ce c.1) \/ ce_start (map_ce c.1) + ce_size (map_ce c.1) <= logical) ms ->
  btrfs_map_block t rw logical len mirror rmr = Some (MapResult (- ENOENT) len None None None).
Proof using Type.
  intros [(ps & Hc & Hmaps) Hms] Hl Hout.
  destruct (ranges_split _ _ logical 1 (cs_ranges _ _ _ _ Hc)) as (A & M & C & Hsplit & HAe & HA & HM & HC); [lia|].
  rewrite Forall_forall in Hout. assert (HMnil : M = []).
  { destruct M as [|e M]; [done|]. exfalso. assert (He : e ∈ (fun c => map_ce c.1) <$> ms) by (rewrite Hsplit; set_solver).
    apply list_elem_of_fmap in He as (c & -> & Hcin). destruct (HM (map_ce c.1) ltac:(left)). unfold ce_end in *.
    specialize (Hout c Hcin). lia. }
  subst M. cbn [app] in Hsplit. apply fmap_app_inv in Hsplit as (m1 & m2 & HeA & HeC & ->). subst A C.
  apply Forall2_app_inv_r in Hmaps as (p1 & p2 & Hm1 & Hm2 & ->). rewrite fmap_app in Hc.
  assert (Hrun : search_map t logical = Some (head p2)).
  { apply (search_cache_extent_split _ _ p1 p2 ((fun c => map_ce c.1) <$> m1) ((fun c => map_ce c.1) <$> m2)); [done| |lia|lia|].
    - rewrite length_fmap. by eapply Forall2_length.
    - destruct m2 as [|c m2]; [done|]. cbn [fmap list_fmap] in *. specialize (HC (map_ce c.1) ltac:(left)).
      pose proof (cs_ranges _ _ _ _ Hc) as Hr. apply ranges_ok_app in Hr as [_ (_ & ? & _)]. unfold ce_end. lia. }
  unfold btrfs_map_block, __btrfs_map_block. rewrite Hrun. cbn [mbind option_bind].
  destruct p2 as [|x p2]; [done|]. cbn [head]. apply Forall2_cons_inv_l in Hm2 as (c & m2' & Hx & _ & ->).
  rewrite Hx. cbn [mbind option_bind]. specialize (HC (map_ce c.1) ltac:(left)).
  by rewrite (proj2 (Z.ltb_lt logical (ce_start (map_ce c.1)))) by lia.
Qed.
End Mapping.

(** ** Chunks do not share space on a device *)

Definition extents_apart (s s' : btrfs_bio_stripe) (len len' : Z) : Prop :=
  dev_fd (bs_dev s) <> dev_fd (bs_dev s') \/
  bs_physical s + len <= bs_physical s' \/ bs_physical s' + len' <= bs_physical s.

Definition extents_disjoint (ms : list (map_lookup * profile)) : Prop :=
  forall c c' i i', c ∈ ms -> c' ∈ ms -> 0 <= i < map_num_stripes c.1 -> 0 <= i' < map_num_stripes c'.1 ->
    c <> c' \/ i <> i' ->
    extents_apart (the_stripe c.1 i) (the_stripe c'.1 i') (dev_len c.1 c.2) (dev_len c'.1 c'.2).

(** A place on a device belongs to one stripe of one chunk. *)
Lemma place_unique ms m p m' p' i i' off off' :
  extents_disjoint ms -> (m, p) ∈ ms -> (m', p') ∈ ms ->
  0 <= i < map_num_stripes m -> 0 <= i' < map_num_stripes m' -> 0 <= off < dev_len m p -> 0 <= off' < dev_len m' p' ->
  dev_fd (bs_dev (located m i off)) = dev_fd (bs_dev (located m' i' off')) ->
  bs_physical (located m i off) = bs_physical (located m' i' off') ->
  (m, p) = (m', p') /\ i = i' /\ off = off'.
Proof.
  intros Hd Hin Hin' Hi Hi' Hoff Hoff' Hfd Hph. cbn [located bs_dev bs_physical] in Hfd, Hph.
  assert (Hnot : ~ extents_apart (the_stripe m i) (the_stripe m' i') (dev_len m p) (dev_len m' p')).
  { intros [Hf|Hr]; [done|lia]. }
  destruct (decide ((m, p) = (m', p') /\ i = i')) as [[Heq ->]|Hne].
  - split; [done|]. split; [done|]. injection Heq as -> ->. lia.
  - exfalso. apply Hnot, (Hd (m, p) (m', p') i i' Hin Hin' Hi Hi').
    destruct (decide ((m, p) = (m', p'))); [right|by left]. intros ->. by apply Hne.
Qed.

(** ** [btrfs_rmap_block] is the inverse of [__btrfs_map_block]. *)

Section Rmap.
Context (m : map_lookup) (p : profile) (Hm : map_ok m p).
Abbreviation L := (map_stripe_len m).
Abbreviation n := (map_num_stripes m).
Abbreviation d := (data_count m p).
Abbreviation size := (ce_size (map_ce m)).
Abbreviation start := (ce_start (map_ce m)).

(** The step between the addresses: a full stripe where there is parity. *)
Definition rmap_step : Z := match p with Raid5 | Raid6 => L * d | _ => L end.

(** The number of the step that a row of the device [i] is in. *)
Definition rmap_nr (row i : Z) : Z :=
  match p with
  | Raid10 => row * d + i / map_sub_stripes m
  | Raid0 => row * d + i
  | _ => row
  end.

Definition rmap_addr (row i : Z) : Z := start + rmap_nr row i * rmap_step.

Definition matches (physical devid i : Z) : Prop :=
  (devid = 0 \/ dev_devid (bs_dev (the_stripe m i)) = devid) /\
  bs_physical (the_stripe m i) <= physical < bs_physical (the_stripe m i) + dev_len m p.

Lemma step_pos : 0 < rmap_step.
Proof using Hm. pose proof (mo_len m p Hm). pose proof (data_pos m p Hm). unfold rmap_step. destruct p; nia. Qed.

Lemma rmap_lengths_run : rmap_lengths m = Some (dev_len m p, rmap_step).
Proof using Hm.
  pose proof (len_small m p Hm) as [H1 H2]. pose proof (mo_len m p Hm). pose proof (num_pos m p Hm). pose proof (mo_int m p Hm).
  pose proof (data_pos m p Hm). pose proof (data_le m p Hm). pose proof (mo_size m p Hm) as Hs. pose proof (nr_data_ok m p Hm) as Hnd.
  pose proof (sub_num m p Hm) as Hsub. assert (0 < L * d < 2 ^ 31) by nia.
  assert (Hdiv : size / d = dev_len m p) by (rewrite Hs; unfold dev_len; rewrite <- Z.mul_assoc, (Z.mul_comm d), Z.mul_assoc; by apply Z.div_mul; lia).
  unfold rmap_lengths. cbv zeta. rewrite !(has_profile m p Hm) by done. unfold rmap_step.
  assert (Hone : d = 1 -> size = dev_len m p) by (intros E; by rewrite E, Z.div_1_r in Hdiv).
  destruct p; profile_is; try (by rewrite Hone).
  - unfold data_count in *. rewrite u64_id by lia. rewrite cdiv_pos by lia. cbn [mbind option_bind]. by rewrite Hdiv.
  - unfold data_count in *. destruct (Hsub eq_refl) as (? & ? & ?). rewrite cdiv_pos by lia. cbn [mbind option_bind].
    rewrite u64_id by lia. rewrite cdiv_pos by lia. cbn [mbind option_bind]. by rewrite Hdiv.
  - rewrite Hnd by auto. rewrite !u64_id, cdiv_pos by lia. cbn [mbind option_bind]. by rewrite Hdiv.
  - rewrite Hnd by auto. rewrite !u64_id, cdiv_pos by lia. cbn [mbind option_bind]. by rewrite Hdiv.
Qed.

Lemma rmap_nr_bounds row i : 0 <= row < rows m p -> 0 <= i < n -> 0 <= rmap_nr row i /\ rmap_addr row i + rmap_step <= start + size.
Proof using Hm.
  intros Hrow Hi. pose proof (mo_len m p Hm). pose proof (data_pos m p Hm). pose proof (mo_size m p Hm) as Hs. pose proof step_pos.
  pose proof (sub_num m p Hm) as Hsub.
  assert (Hcol : exists c, 0 <= c < d /\ match p with Raid5 | Raid6 => True | _ => rmap_nr row i = row * d + c end).
  { unfold rmap_nr, data_count in *. destruct p; try (exists 0; lia).
    - exists i. lia.
    - exists (i / map_sub_stripes m). destruct (Hsub eq_refl) as (Hn & Hs2 & Hs3). split; [|done].
      split; [apply Z.div_pos; lia|]. apply Z.div_lt_upper_bound; lia. }
  destruct Hcol as (c & Hc & Hnr).
  assert (Hd : match p with Raid5 | Raid6 => rmap_step = L * d /\ rmap_nr row i = row | _ => rmap_step = L end)
    by (unfold rmap_step, rmap_nr; by destruct p).
  assert (Hcase : (rmap_step = L /\ rmap_nr row i = row * d + c) \/ (rmap_step = L * d /\ rmap_nr row i = row))
    by (destruct p; auto).
  unfold rmap_addr. destruct Hcase as [[-> ->]|[-> ->]].
  - assert ((row * d + c + 1) * L <= rows m p * d * L) by (apply Z.mul_le_mono_nonneg_r; [lia|]; nia). split; nia.
  - assert ((row + 1) * (L * d) <= rows m p * (L * d)) by (apply Z.mul_le_mono_nonneg_r; nia). split; nia.
Qed.

Lemma rmap_stripe_nr_run row i : 0 <= row < rows m p -> 0 <= i < n -> rmap_stripe_nr m i row = Some (rmap_nr row i).
Proof using Hm.
  intros Hrow Hi. pose proof (sub_num m p Hm) as Hsub. pose proof (num_pos m p Hm). pose proof (mo_raw m p Hm) as Hraw.
  pose proof (mo_len m p Hm). pose proof (len_small m p Hm).
  assert (Hb : 0 <= row * n /\ row * n + i < 2 ^ 64).
  { unfold dev_len in Hraw. assert ((row + 1) * n <= rows m p * n) by (apply Z.mul_le_mono_nonneg_r; lia).
    assert (0 <= rows m p * n) by (apply Z.mul_nonneg_nonneg; lia). assert (0 <= row * n) by (apply Z.mul_nonneg_nonneg; lia). nia. }
  unfold rmap_stripe_nr, rmap_nr. rewrite !(has_profile m p Hm) by done. unfold data_count in *.
  destruct p; profile_is; try done; rewrite (u64_id (row * n)), u64_id by lia; [done|].
  destruct (Hsub eq_refl) as (Hn & Hs1 & Hs2). rewrite u64_id, cdiv_pos by nia. f_equal.
  rewrite Hn at 1. rewrite Z.mul_assoc, Z.div_add_l by lia. done.
Qed.

(** ** The loop *)

Lemma rmap_loop_run physical devid stripes pre acc :
  0 <= physical -> map_stripes m = pre ++ stripes ->
  exists l, rmap_loop m physical devid (dev_len m p) rmap_step (Z.of_nat (length pre)) stripes acc = Some l /\
    forall x, x ∈ l <-> x ∈ acc \/ exists i, Z.of_nat (length pre) <= i < n /\ matches physical devid i /\
      x = rmap_addr ((physical - bs_physical (the_stripe m i)) / L) i.
Proof using Hm.
  intros Hphy. pose proof (mo_stripes m p Hm) as Hlen.
  revert pre acc. induction stripes as [|s stripes IH]; intros pre acc Hst.
  { exists acc. split; [done|]. intros x. split; [by left|]. intros [?|(i & Hi & _)]; [done|].
    rewrite Hst, app_nil_r in Hlen. lia. }
  pose proof Hlen as Hlen2. rewrite Hst, length_app in Hlen2. cbn [length] in Hlen2. set (i := Z.of_nat (length pre)) in *.
  assert (Hi : 0 <= i < n) by lia.
  assert (Hs : the_stripe m i = s).
  { unfold the_stripe, stripe_at, i. rewrite (proj2 (Z.ltb_ge _ _)) by lia. rewrite Nat2Z.id, Hst, lookup_app_r by lia. by rewrite Nat.sub_diag. }
  assert (Hnext : i + 1 = Z.of_nat (length (pre ++ [s]))) by (rewrite length_app; simpl; lia).
  assert (Hst2 : map_stripes m = (pre ++ [s]) ++ stripes) by (by rewrite <- (assoc_L (++))).
  destruct (physical_range m p Hm i Hi) as [P1 P2]. rewrite Hs in P1, P2.
  assert (Hgo : forall acc', (forall x, x ∈ acc' <-> x ∈ acc \/ (matches physical devid i /\ x = rmap_addr ((physical - bs_physical s) / L) i)) ->
    exists l, rmap_loop m physical devid (dev_len m p) rmap_step (i + 1) stripes acc' = Some l /\
    forall x, x ∈ l <-> x ∈ acc \/ exists j, i <= j < n /\ matches physical devid j /\
      x = rmap_addr ((physical - bs_physical (the_stripe m j)) / L) j).
  { intros acc' Hacc. destruct (IH (pre ++ [s]) acc' Hst2) as (l & Hl & Hin). rewrite <- Hnext in Hl, Hin. exists l. split; [done|].
    intros x. rewrite Hin, Hacc. split.
    - intros [[?|[? ->]]|(j & ? & ? & ->)]; [by left|right; exists i; rewrite Hs; split_and!; [lia..|done|done]|].
      right. exists j. split_and!; [lia..|done|done].
    - intros [?|(j & Hj & Hm' & ->)]; [by left; left|]. destruct (Z.eq_dec j i) as [->|Hne].
      + left. right. by rewrite Hs.
      + right. exists j. split_and!; [lia..|done|done]. }
  cbn [rmap_loop]. pose proof (dev_len_pos m p Hm). rewrite (u64_id (bs_physical s + dev_len m p)) by lia. pose proof (mo_len m p Hm). pose proof (len_small m p Hm) as [Hls _].
  destruct (_ || _) eqn:Eskip.
  - apply Hgo. intros x. split; [by left|]. intros [?|[[Hd Hr] _]]; [done|]. rewrite Hs in *. exfalso.
    apply orb_true_iff in Eskip as [E|E].
    + apply andb_true_iff in E as [E1%negb_true_iff%Z.eqb_neq E2%negb_true_iff%Z.eqb_neq]. tauto.
    + apply orb_true_iff in E as [E%Z.ltb_lt|E%Z.leb_le]; lia.
  - apply orb_false_iff in Eskip as [Ed [E1%Z.ltb_ge E2%Z.leb_gt]%orb_false_iff].
    assert (Hmt : matches physical devid i).
    { unfold matches. rewrite Hs. split; [|lia]. apply andb_false_iff in Ed as [E%negb_false_iff%Z.eqb_eq|E%negb_false_iff%Z.eqb_eq]; auto. }
    rewrite (u64_id (physical - _)) by lia. rewrite (u64_id L) by lia. rewrite cdiv_pos by lia. cbn [mbind option_bind].
    set (row := (physical - bs_physical s) / L).
    assert (Hrow : 0 <= row < rows m p) by (apply div_range; [lia|]; unfold dev_len in E2; lia).
    rewrite rmap_stripe_nr_run by done. cbn [mbind option_bind].
    destruct (rmap_nr_bounds row i Hrow Hi) as [B1 B2]. unfold rmap_addr in B2. pose proof step_pos. pose proof (mo_start m p Hm). pose proof (mo_end m p Hm).
    assert (0 <= rmap_nr row i * rmap_step) by (apply Z.mul_nonneg_nonneg; lia).
    rewrite (u64_id (rmap_nr row i * rmap_step)), u64_id by lia. fold (rmap_addr row i).
    apply Hgo. intros x. destruct (decide (rmap_addr row i ∈ acc)) as [Hin|Hin].
    + split; [by left|]. intros [?|[_ ->]]; done.
    + rewrite elem_of_app, list_elem_of_singleton. tauto.
Qed.

(** ** Every place of a device is read by some mirror of some byte *)

Lemma rmap_addr_of o mirror : 0 <= o < size -> 0 <= mirror <= num_copies m ->
  rmap_addr (row_of m p o) (read_index m p o mirror) = start + o / rmap_step * rmap_step.
Proof using Hm.
  intros Ho Hmir. rewrite (num_copies_ok m p Hm) in Hmir. pose proof (mo_len m p Hm). pose proof (data_pos m p Hm) as Hd.
  pose proof (nr_split m p Hm o) as Hsplit. unfold rmap_addr. do 2 f_equal.
  assert (Hfull : o / (L * d) = row_of m p o) by (unfold row_of; by rewrite Z.div_div by lia).
  pose proof (sub_num m p Hm) as Hsub. pose proof (col_range m p Hm o Ho) as Hcol.
  unfold rmap_nr, rmap_step, read_index, index_of, data_copies, data_count in *. destruct p; try lia.
  destruct (Hsub eq_refl) as (_ & Hs & _). rewrite Z.div_add_l by lia.
  rewrite (Z.div_small (if mirror =? 0 then 0 else mirror - 1)); [lia|]. destruct (Z.eqb_spec mirror 0); lia.
Qed.

Lemma place_is_read i off : 0 <= i < n -> 0 <= off < dev_len m p ->
  exists o mirror, 0 <= o < size /\ 0 <= mirror <= num_copies m /\ read_index m p o mirror = i /\ row_off m p o = off.
Proof using Hm.
  intros Hi Hoff. rewrite (num_copies_ok m p Hm). pose proof (mo_len m p Hm) as HL. pose proof (data_pos m p Hm) as Hd.
  assert (Hrow : 0 <= off / L < rows m p) by (by apply div_range).
  pose proof (Z.mod_pos_bound off L HL) as Hso. assert (Hoe : off / L * L + off mod L = off) by (pose proof (Z.div_mod off L); lia).
  pose proof (compose_offset m p Hm (off / L)) as Hcomp. pose proof (sub_num m p Hm) as Hsub.
  assert (Hgo : forall col mirror, 0 <= col < d -> 0 <= mirror <= num_copies m ->
    (forall o, row_of m p o = off / L -> col_of m p o = col -> read_index m p o mirror = i) ->
    exists o mirror, 0 <= o < size /\ 0 <= mirror <= num_copies m /\ read_index m p o mirror = i /\ row_off m p o = off).
  { intros col mirror Hc Hmir Hidx. destruct (Hcomp col (off mod L) Hrow Hc Hso) as (H1 & H2 & H3 & H4 & H5).
    eexists _, mirror. split; [exact H1|]. split; [done|]. split; [by apply Hidx|]. by rewrite H5. }
  set (k := (i - off / L) mod n). assert (Hk : 0 <= k < n) by (apply Z.mod_pos_bound; lia).
  assert (Hrot : (off / L + k) mod n = i)
    by (unfold k; rewrite Z.add_mod_idemp_r by lia; replace (off / L + (i - off / L)) with i by lia; by apply Z.mod_small).
  rewrite (num_copies_ok m p Hm) in Hgo. unfold read_index, index_of, data_copies, data_count, parity_index in *.
  pose proof (mo_num m p Hm) as Hfit. unfold stripes_fit in Hfit. destruct p.
  - apply (Hgo 0 0); [lia..|]. intros o _ _. lia.
  - apply (Hgo i 0); [lia..|]. by intros o _ ->.
  - apply (Hgo 0 (i + 1)); [lia..|]. intros o _ _. rewrite (proj2 (Z.eqb_neq _ _)) by lia. lia.
  - apply (Hgo 0 (i + 1)); [lia..|]. intros o _ _. rewrite (proj2 (Z.eqb_neq _ _)) by lia. lia.
  - destruct (Hsub eq_refl) as (Hn & Hs & Hf). set (sub := map_sub_stripes m) in *.
    pose proof (Z.mod_pos_bound i sub Hs). pose proof (Z.div_mod i sub).
    apply (Hgo (i / sub) (i mod sub + 1)); [|lia|].
    + apply div_range; [done|]. rewrite <- Hn. done.
    + intros o _ ->. rewrite (proj2 (Z.eqb_neq _ _)) by lia. lia.
  - destruct (Z.lt_ge_cases k (n - parity_count Raid5)) as [Hk1|Hk1].
    + apply (Hgo k 0); [lia..|]. intros o -> ->. rewrite (proj2 (Z.ltb_ge _ _)) by lia. done.
    + apply (Hgo 0 2); [cbn in *; lia..|]. intros o -> _. rewrite (proj2 (Z.ltb_lt _ _)) by lia.
      rewrite <- Hrot. f_equal. cbn in *. lia.
  - destruct (Z.lt_ge_cases k (n - parity_count Raid6)) as [Hk1|Hk1].
    + apply (Hgo k 0); [lia..|]. intros o -> ->. rewrite (proj2 (Z.ltb_ge _ _)) by lia. done.
    + apply (Hgo 0 (k - (n - 2) + 2)); [cbn in *; lia..|]. intros o -> _. rewrite (proj2 (Z.ltb_lt _ _)) by (cbn in *; lia).
      rewrite <- Hrot. f_equal. cbn in *. lia.
Qed.
End Rmap.
