(* ===== verification/VolumesProps.v ===== *)
(** Chunk maps for the witnesses, and what the chunk maps guarantee. *)

From S2P Require Import Prelude RbSpec RbTree RbShape RbInsert RbErase RbInstance ExtentCache ExtentCacheProps.
From S2P Require Import Volumes VolumesSpec VolumesMap VolumesMapping.

(** A mapping tree with one chunk. *)
Definition one_chunk (m : map_lookup) : btrfs_mapping_tree rb_mem :=
  MappingTree (cw_tree one_range) (fun x => if decide (x = 1%positive) then Some m else None).

Lemma one_chunk_ok m p : map_ok m p -> mapping_ok (one_chunk m) [(m, p)].
Proof.
  intros Hm. split; [|constructor; [done|constructor]]. exists [1%positive]. split; [|constructor; [done|constructor]].
  split; [exact one_node_balanced|constructor; [done|constructor]|].
  pose proof (size_small m p Hm). pose proof (mo_start m p Hm). pose proof (mo_end m p Hm). cbn [fmap list_fmap ranges_ok fst]. unfold ce_end. split_and!; done || lia.
Qed.

Definition demo_device (i : Z) : btrfs_device := BtrfsDevice (i + 1) (i + 3) true.

(** [rows] rows of stripes of 64 KiB, on [num] devices from 1 MiB on. *)
Definition demo_chunk (type num sub size : Z) : map_lookup :=
  MapLookup (CacheExtent 0 0x500000 size) type 0x10000 num sub
    ((fun i => BioStripe (demo_device i) (0x100000 + i * 0x1000000)) <$> seqZ 0 num).

Definition demo_raid6 : map_lookup := demo_chunk 0x101 4 1 0x60000.
Definition demo_raid10 : map_lookup := demo_chunk 0x44 4 2 0x40000.

Lemma demo_raid6_ok : map_ok demo_raid6 Raid6.
Proof.
  split.
  - vm_compute. reflexivity.
  - vm_compute. reflexivity.
  - exists 0x2000. vm_compute. reflexivity.
  - vm_compute. reflexivity.
  - vm_compute. reflexivity.
  - vm_compute. intros [=].
  - vm_compute. reflexivity.
  - vm_compute. reflexivity.
  - vm_compute. intros [=].
  - vm_compute. reflexivity.
  - vm_compute. reflexivity.
  - apply (bool_decide_unpack _). vm_compute. exact I.
Qed.

Lemma demo_raid10_ok : map_ok demo_raid10 Raid10.
Proof.
  split.
  - vm_compute. reflexivity.
  - vm_compute. reflexivity.
  - exists 0x2000. vm_compute. reflexivity.
  - vm_compute. reflexivity.
  - vm_compute. reflexivity.
  - split; [vm_compute; reflexivity|]. split; [vm_compute; reflexivity|]. exists 2. vm_compute. reflexivity.
  - vm_compute. reflexivity.
  - vm_compute. reflexivity.
  - vm_compute. intros [=].
  - vm_compute. reflexivity.
  - vm_compute. reflexivity.
  - apply (bool_decide_unpack _). vm_compute. exact I.
Qed.

(** Different devices have different descriptors. *)
Lemma demo_disjoint type num sub size p :
  0 <= num -> extents_disjoint [(demo_chunk type num sub size, p)].
Proof.
  intros Hnum c c' i i' ->%list_elem_of_singleton ->%list_elem_of_singleton Hi Hi' Hne.
  assert (Hst : forall j, 0 <= j < num -> the_stripe (demo_chunk type num sub size) j = BioStripe (demo_device j) (0x100000 + j * 0x1000000)).
  { intros j Hj. unfold the_stripe, stripe_at. rewrite (proj2 (Z.ltb_ge _ _)) by lia. cbn [map_stripes demo_chunk].
    rewrite list_lookup_fmap, lookup_seqZ_lt by lia. simpl. by replace (0 + Z.of_nat (Z.to_nat j)) with j by lia. }
  cbn [fst snd map_num_stripes demo_chunk] in *. rewrite !Hst by done. left. cbn. destruct Hne as [|Hne]; [done|]. lia.
Qed.

(** ** What the chunk maps guarantee. *)

Section Props.
Context {T : Type} `{RbTreeLaws T}.
Implicit Types (t : btrfs_mapping_tree T) (ms : list (map_lookup * profile)).

(** reading any byte of a chunk through any mirror, [btrfs_map_block] answers
    with one place, inside the extent that the chunk has on that device, and a
    length that stays inside the extent and inside the chunk. *)
Theorem map_block_read_correct t ms m p o len mirror
  (Hok : mapping_ok t ms) (Hin : (m, p) ∈ ms) (Ho : 0 <= o < ce_size (map_ce m)) (Hmir : 0 <= mirror <= num_copies m) :
  btrfs_num_copies t (ce_start (map_ce m) + o) = Some (num_copies m) /\
  exists i off n, btrfs_map_block t READ (ce_start (map_ce m) + o) len mirror false =
      Some (MapResult 0 n (Some (map_type m)) (Some [located m i off]) None) /\
    0 <= i < map_num_stripes m /\ 0 <= off /\ 0 < n /\ off + n <= dev_len m p /\ n <= ce_size (map_ce m) - o.
Proof.
  pose proof (chunk_ok t ms m p Hok Hin) as Hm. split; [by apply (num_copies_run t ms m p)|].
  exists (read_index m p o mirror), (row_off m p o), (piece m p o).
  split; [by apply (map_block_read t ms m p)|]. split; [by apply read_index_range|].
  pose proof (row_off_range m p Hm o Ho). pose proof (piece_range m p Hm o Ho). pose proof (piece_fits m p Hm o Ho). lia.
Qed.

(** C28: two reads of data whose places coincide are reads of the same address,
    and a read of data never goes to a place of parity, in the same chunk or in
    another, whichever profiles and mirrors. *)
Theorem map_block_injective t ms m p o mirror m' p' o' mirror' len len' r r' s s'
  (Hok : mapping_ok t ms) (Hd : extents_disjoint ms)
  (Hin : (m, p) ∈ ms) (Ho : 0 <= o < ce_size (map_ce m)) (Hmir : 0 <= mirror <= num_copies m)
  (Hin' : (m', p') ∈ ms) (Ho' : 0 <= o' < ce_size (map_ce m')) (Hmir' : 0 <= mirror' <= num_copies m')
  (Hdata : parity_count p = 0 \/ mirror <= 1)
  (Hr : btrfs_map_block t READ (ce_start (map_ce m) + o) len mirror false = Some r) (Hs : mr_multi r = Some [s])
  (Hr' : btrfs_map_block t READ (ce_start (map_ce m') + o') len' mirror' false = Some r') (Hs' : mr_multi r' = Some [s'])
  (Hfd : dev_fd (bs_dev s) = dev_fd (bs_dev s')) (Hph : bs_physical s = bs_physical s') :
  ce_start (map_ce m) + o = ce_start (map_ce m') + o' /\ (parity_count p' = 0 \/ mirror' <= 1).
Proof.
  pose proof (chunk_ok t ms m p Hok Hin) as Hm. pose proof (chunk_ok t ms m' p' Hok Hin') as Hm'.
  rewrite (map_block_read t ms m p Hok Hin) in Hr by done. rewrite (map_block_read t ms m' p' Hok Hin') in Hr' by done.
  injection Hr as <-. injection Hr' as <-. cbn [mr_multi] in Hs, Hs'. injection Hs as <-. injection Hs' as <-.
  destruct (place_unique ms m p m' p' _ _ _ _ Hd Hin Hin' (read_index_range m p Hm o Ho mirror Hmir) (read_index_range m' p' Hm' o' Ho' mirror' Hmir')
    (row_off_range m p Hm o Ho) (row_off_range m' p' Hm' o' Ho') Hfd Hph) as (Heq & Hi & Hoff).
  injection Heq as <- <-. by apply (read_place_inj m p Hm o mirror o' mirror').
Qed.

(** C31: [btrfs_rmap_block] inverts [btrfs_map_block]: for a place on a device it
    returns exactly the steps (stripes, or full stripes with parity) of the
    chunk that have a byte some mirror of which is read from that place. *)
Theorem rmap_block_correct t ms m p o0 physical devid
  (Hok : mapping_ok t ms) (Hin : (m, p) ∈ ms) (Ho0 : 0 <= o0 < ce_size (map_ce m)) (Hphy : 0 <= physical) :
  exists l step, btrfs_rmap_block t (ce_start (map_ce m) + o0) physical devid = Some (l, step) /\
    forall x, x ∈ l <-> exists o mirror r s, 0 <= o < ce_size (map_ce m) /\ 0 <= mirror <= num_copies m /\
      btrfs_map_block t READ (ce_start (map_ce m) + o) 1 mirror false = Some r /\ mr_multi r = Some [s] /\
      bs_physical s = physical /\ (devid = 0 \/ dev_devid (bs_dev s) = devid) /\
      x = ce_start (map_ce m) + o / step * step.
Proof.
  destruct (search_map_found t ms m p o0 Hok Hin Ho0) as (Hm & q & Hq & Hmq).
  destruct (rmap_loop_run m p Hm physical devid (map_stripes m) [] [] Hphy eq_refl) as (l & Hl & Hiff).
  exists l, (rmap_step m p). split.
  { unfold btrfs_rmap_block. rewrite Hq. cbn [mbind option_bind]. rewrite Hmq. cbn [mbind option_bind].
    rewrite (rmap_lengths_run m p Hm). cbn [mbind option_bind]. unfold all_stripes.
    pose proof (mo_stripes m p Hm) as Hlen. rewrite (proj2 (Z.ltb_ge _ _)) by lia. cbn [mbind option_bind].
    rewrite firstn_all2 by lia. change (Z.of_nat (length [])) with 0 in Hl. by rewrite Hl. }
  intros x. rewrite Hiff. change (Z.of_nat (length [])) with 0. split.
  - intros [Hx|(i & Hi & [Hdev Hr] & ->)]; [by apply not_elem_of_nil in Hx|].
    destruct (place_is_read m p Hm i (physical - bs_physical (the_stripe m i)) Hi) as (o & mirror & Ho & Hmir & Hidx & Hoff); [lia|].
    eexists o, mirror, _, _. split; [done|]. split; [done|]. split; [by apply (map_block_read t ms m p)|]. split; [done|].
    rewrite Hidx, Hoff. cbn [located bs_physical bs_dev]. split; [lia|]. split; [done|].
    rewrite <- Hoff, (row_of_off m p Hm o), <- Hidx. by apply rmap_addr_of.
  - intros (o & mirror & r & s & Ho & Hmir & Hr & Hs & Hp & Hdev & ->).
    rewrite (map_block_read t ms m p Hok Hin) in Hr by done. injection Hr as <-. cbn [mr_multi] in Hs. injection Hs as <-.
    cbn [located bs_physical bs_dev] in *. right. exists (read_index m p o mirror).
    split; [by apply read_index_range|]. pose proof (row_off_range m p Hm o Ho). split; [split; [done|lia]|].
    rewrite <- Hp, Z.add_simpl_l, (row_of_off m p Hm o). symmetry. by apply rmap_addr_of.
Qed.

(** writing to a chunk without parity, [btrfs_map_block] answers with one
    place for each copy, and these are the places the mirrors 1, 2, ... are read
    from; a read that leaves the mirror open goes to one of them. *)
Theorem map_block_write_mirrors t ms m p o len mirror rmr
  (Hok : mapping_ok t ms) (Hin : (m, p) ∈ ms) (Ho : 0 <= o < ce_size (map_ce m)) (Hpar : parity_count p = 0) :
  exists n l, btrfs_map_block t WRITE (ce_start (map_ce m) + o) len mirror rmr =
      Some (MapResult 0 n (Some (map_type m)) (Some l) None) /\
    Z.of_nat (length l) = num_copies m /\
    (forall c s, l !! c = Some s -> btrfs_map_block t READ (ce_start (map_ce m) + o) len (Z.of_nat c + 1) false =
      Some (MapResult 0 n (Some (map_type m)) (Some [s]) None)) /\
    exists s, s ∈ l /\ btrfs_map_block t READ (ce_start (map_ce m) + o) len 0 false =
      Some (MapResult 0 n (Some (map_type m)) (Some [s]) None).
Proof.
  pose proof (chunk_ok t ms m p Hok Hin) as Hm. pose proof (num_copies_data m p Hm Hpar) as Hnc.
  exists (piece m p o), ((fun c => located m (index_of m p o c) (row_off m p o)) <$> seqZ 0 (data_copies m p)).
  split; [by apply (map_block_write t ms m p)|]. pose proof (copies_pos m p Hm).
  split; [rewrite length_fmap, length_seqZ; lia|]. split.
  - intros c s Hc. apply list_lookup_fmap_Some in Hc as (k & -> & [-> Hk]%lookup_seqZ).
    rewrite (map_block_read t ms m p Hok Hin) by lia. by rewrite (read_index_copy m p Hm o _ Hpar) by lia.
  - destruct (read_index_any m p Hm o Hpar) as (c & Hc & Hidx).
    exists (located m (index_of m p o c) (row_off m p o)). split.
    + apply list_elem_of_fmap. exists c. split; [done|]. by apply elem_of_seqZ.
    + rewrite (map_block_read t ms m p Hok Hin) by lia. by rewrite Hidx.
Qed.

(** writing to RAID 5 or 6, [btrfs_map_block] answers with the whole full
    stripe, sorted: the data stripes in the order of their addresses, each at
    the place its bytes are read from, then the parity at the place mirror 2 is
    read from and for RAID 6 the syndrome, at that of mirror 3. *)
Theorem map_block_full_stripe t ms m p o len mirror
  (Hok : mapping_ok t ms) (Hin : (m, p) ∈ ms) (Ho : 0 <= o < ce_size (map_ce m)) (Hp : p = Raid5 \/ p = Raid6) :
  let L := map_stripe_len m in let d := data_count m p in
  exists addrs stripes par, btrfs_map_block t WRITE (ce_start (map_ce m) + o) len mirror true =
      Some (MapResult 0 L (Some (map_type m)) (Some (stripes ++ par))
        (Some (addrs ++ match p with Raid5 => [BTRFS_RAID5_P_STRIPE] | _ => [BTRFS_RAID5_P_STRIPE; BTRFS_RAID6_Q_STRIPE] end))) /\
    addrs = (fun j => ce_start (map_ce m) + o / (L * d) * (L * d) + j * L) <$> seqZ 0 d /\
    Forall2 (fun a s => btrfs_map_block t READ a len 0 false = Some (MapResult 0 L (Some (map_type m)) (Some [s]) None)) addrs stripes /\
    forall k s, par !! k = Some s -> btrfs_map_block t READ (ce_start (map_ce m) + o / (L * d) * (L * d)) len (Z.of_nat k + 2) false =
      Some (MapResult 0 L (Some (map_type m)) (Some [s]) None).
Proof.
  cbv zeta. pose proof (chunk_ok t ms m p Hok Hin) as Hm. pose proof (row_range m p Hm o Ho) as Hrow.
  destruct (full_split m p Hm Hp _ Hrow) as [H1 H2]. pose proof (data_pos m p Hm). pose proof (mo_len m p Hm).
  assert (Hq : o / (map_stripe_len m * data_count m p) = row_of m p o) by (unfold row_of; by rewrite Z.div_div by lia).
  rewrite Hq. set (row := row_of m p o) in *.
  assert (Haddr : forall j, ce_start (map_ce m) + row * (map_stripe_len m * data_count m p) + j * map_stripe_len m =
    ce_start (map_ce m) + (row * data_count m p + j) * map_stripe_len m) by (intros; lia).
  eexists _, _, _. split; [rewrite (map_block_full t ms m p Hok Hin o len mirror Ho Hp); fold row; rewrite H1, H2; reflexivity|].
  split; [apply list_fmap_ext; intros; by rewrite Haddr|]. split.
  - apply Forall2_fmap, Forall_Forall2_diag, Forall_forall. intros j Hj%elem_of_seqZ.
    destruct (data_place m p Hm Hp row Hrow j) as (Ho' & Hpl & _ & Hpc); [lia|].
    rewrite (map_block_read t ms m p Hok Hin) by (done || (pose proof (num_copies_ok m p Hm); destruct Hp as [-> | ->]; lia)).
    by rewrite Hpl, Hpc.
  - intros k s Hs. apply list_lookup_fmap_Some in Hs as (x & -> & [-> Hk]%lookup_seqZ).
    destruct (data_place m p Hm Hp row Hrow 0) as (Ho' & _ & Hpl & Hpc); [lia|].
    pose proof (Haddr 0) as Ha. rewrite Z.mul_0_l, Z.add_0_r in Ha. rewrite Ha.
    rewrite (map_block_read t ms m p Hok Hin) by (done || (pose proof (num_copies_ok m p Hm); destruct Hp as [-> | ->]; simpl in *; lia)).
    by rewrite (Hpl (Z.of_nat k)), Hpc, Z.add_0_l by lia.
Qed.
End Props.

(** ** Examples *)

Lemma map_block_read_correct_witness :
  option_map mr_multi (btrfs_map_block (one_chunk demo_raid6) READ (0x500000 + 70000) 512 0 false) =
    Some (Some [BioStripe (demo_device 1) (0x1100000 + 4464)]) /\
  exists i off n, btrfs_map_block (one_chunk demo_raid6) READ (0x500000 + 70000) 512 3 false =
    Some (MapResult 0 n (Some 0x101) (Some [located demo_raid6 i off]) None) /\
    0 <= i < 4 /\ 0 <= off /\ 0 < n /\ off + n <= 0x30000 /\ n <= 0x60000 - 70000.
Proof.
  split; [vm_compute; reflexivity|].
  exact (proj2 (map_block_read_correct (one_chunk demo_raid6) [(demo_raid6, Raid6)] demo_raid6 Raid6 70000 512 3
    (one_chunk_ok _ _ demo_raid6_ok) (list_elem_of_here _ _) ltac:(simpl; lia) ltac:(vm_compute; split; intros [=]))).
Defined.

Lemma map_block_injective_witness :
  ~ (exists r r' s, btrfs_map_block (one_chunk demo_raid6) READ (0x500000 + 70000) 512 0 false = Some r /\ mr_multi r = Some [s] /\
    btrfs_map_block (one_chunk demo_raid6) READ (0x500000 + 70001) 512 1 false = Some r' /\ mr_multi r' = Some [s]).
Proof.
  intros (r & r' & s & Hr & Hs & Hr' & Hs'). assert (Hdata : parity_count Raid6 = 0 \/ 0 <= 1) by (right; lia).
  destruct (map_block_injective (one_chunk demo_raid6) [(demo_raid6, Raid6)] demo_raid6 Raid6 70000 0 demo_raid6 Raid6 70001 1
    512 512 r r' s s (one_chunk_ok _ _ demo_raid6_ok) (demo_disjoint 0x101 4 1 0x60000 Raid6 ltac:(lia)) (list_elem_of_here _ _)
    ltac:(simpl; lia) ltac:(vm_compute; split; intros [=]) (list_elem_of_here _ _) ltac:(simpl; lia)
    ltac:(vm_compute; split; intros [=]) Hdata Hr Hs Hr' Hs' eq_refl eq_refl) as [Heq _].
  cbn in Heq. lia.
Defined.

Lemma rmap_block_correct_witness :
  btrfs_rmap_block (one_chunk demo_raid6) (0x500000 + 5) (0x1100000 + 70000) 0 = Some ([0x520000], 0x20000) /\
  exists l step, btrfs_rmap_block (one_chunk demo_raid6) (0x500000 + 5) (0x1100000 + 70000) 0 = Some (l, step).
Proof.
  split; [vm_compute; reflexivity|].
  destruct (rmap_block_correct (one_chunk demo_raid6) [(demo_raid6, Raid6)] demo_raid6 Raid6 5 (0x1100000 + 70000) 0
    (one_chunk_ok _ _ demo_raid6_ok) (list_elem_of_here _ _) ltac:(simpl; lia) ltac:(lia)) as (l & step & Hl & _).
  exists l, step. exact Hl.
Defined.

Lemma map_block_write_mirrors_witness :
  exists n l, btrfs_map_block (one_chunk demo_raid10) WRITE (0x500000 + 70000) 512 0 true =
    Some (MapResult 0 n (Some 0x44) (Some l) None) /\ Z.of_nat (length l) = 2.
Proof.
  destruct (map_block_write_mirrors (one_chunk demo_raid10) [(demo_raid10, Raid10)] demo_raid10 Raid10 70000 512 0 true
    (one_chunk_ok _ _ demo_raid10_ok) (list_elem_of_here _ _) ltac:(simpl; lia) eq_refl) as (n & l & H1 & H2 & _).
  exists n, l. split; [exact H1|exact H2].
Defined.

Lemma map_block_full_stripe_witness :
  option_map mr_raid_map (btrfs_map_block (one_chunk demo_raid6) WRITE (0x500000 + 140000) 512 0 true) =
    Some (Some [0x520000; 0x530000; BTRFS_RAID5_P_STRIPE; BTRFS_RAID6_Q_STRIPE]) /\
  exists addrs stripes par, btrfs_map_block (one_chunk demo_raid6) WRITE (0x500000 + 140000) 512 0 true =
    Some (MapResult 0 0x10000 (Some 0x101) (Some (stripes ++ par)) (Some (addrs ++ [BTRFS_RAID5_P_STRIPE; BTRFS_RAID6_Q_STRIPE]))).
Proof.
  split; [vm_compute; reflexivity|].
  destruct (map_block_full_stripe (one_chunk demo_raid6) [(demo_raid6, Raid6)] demo_raid6 Raid6 140000 512 0
    (one_chunk_ok _ _ demo_raid6_ok) (list_elem_of_here _ _) ltac:(simpl; lia) (or_intror eq_refl)) as (a & s & q & H1 & _).
  exists a, s, q. exact H1.
Defined.
