(* ===== verification/ExtentAlloc.v ===== *)
(** Block groups and the allocator of extents: the parts of
    [src/extent-tree.c] that work on the caches of [struct btrfs_fs_info] and
    not, or only to read it, on the extent tree.

    The five [extent_io_tree]s are worlds of [ExtentIo].  The private value of a
    state is the address of a block group or of a pending operation; both are
    kept in maps.  A [struct btrfs_space_info *] is its position in the order of
    creation.  The hooks [extent_ops], which only [btrfs-convert] installs, are
    not set. *)

From S2P Require Import Prelude Buf CtreeFmt RbSpec ExtentCache ExtentIo LeafOps NodeOps TreeWorld TreeBalance TreeOps Volumes.

Implicit Types (flags bits : Z).

Definition EXTENT_NEW : Z := Z.shiftl 1 4.
Definition BLOCK_GROUP_DATA : Z := EXTENT_WRITEBACK.
Definition BLOCK_GROUP_METADATA : Z := EXTENT_UPTODATE.
Definition BLOCK_GROUP_SYSTEM : Z := EXTENT_NEW.
Definition BLOCK_GROUP_DIRTY : Z := EXTENT_DIRTY.
Definition BLOCK_GROUP_ANY : Z := Z.lor (Z.lor BLOCK_GROUP_DATA BLOCK_GROUP_METADATA) BLOCK_GROUP_SYSTEM.

Definition BTRFS_EXTENT_ITEM_KEY : Z := 168.
Definition BTRFS_METADATA_ITEM_KEY : Z := 169.
Definition BTRFS_BLOCK_GROUP_ITEM_KEY : Z := 192.

Definition div_factor (num factor : Z) : Z := if factor =? 10 then num else u64 (num * factor) / 10.

(** [struct btrfs_space_info]; [struct btrfs_block_group_cache], with the fields
    of its key and of its item; [struct pending_extent_op]. *)
Record btrfs_space_info := SpaceInfo {
  si_flags : Z;
  si_total_bytes : Z;
  si_bytes_used : Z;
  si_bytes_pinned : Z;
  si_full : bool;
}.

Record block_group := BlockGroup {
  bg_objectid : Z;
  bg_offset : Z;
  bg_used : Z;
  bg_chunk_objectid : Z;
  bg_item_flags : Z;
  bg_space_info : nat;
  bg_flags : Z;
  bg_pinned : Z;
  bg_cached : bool;
  bg_ro : bool;
}.

Inductive pending_type := PENDING_EXTENT_INSERT | PENDING_EXTENT_DELETE | PENDING_BACKREF_UPDATE.

Record pending_extent_op := PendingOp {
  po_type : pending_type;
  po_bytenr : Z;
  po_num_bytes : Z;
  po_flags : Z;
  po_key : btrfs_key;
  po_level : Z;
}.

Definition bg_with_used (g : block_group) (v : Z) : block_group :=
  BlockGroup (bg_objectid g) (bg_offset g) v (bg_chunk_objectid g) (bg_item_flags g) (bg_space_info g) (bg_flags g)
    (bg_pinned g) (bg_cached g) (bg_ro g).
Definition bg_with_pinned (g : block_group) (v : Z) : block_group :=
  BlockGroup (bg_objectid g) (bg_offset g) (bg_used g) (bg_chunk_objectid g) (bg_item_flags g) (bg_space_info g) (bg_flags g)
    v (bg_cached g) (bg_ro g).
Definition bg_with_cached (g : block_group) : block_group :=
  BlockGroup (bg_objectid g) (bg_offset g) (bg_used g) (bg_chunk_objectid g) (bg_item_flags g) (bg_space_info g) (bg_flags g)
    (bg_pinned g) true (bg_ro g).

Definition si_add (s : btrfs_space_info) (total used pinned : Z) : btrfs_space_info :=
  SpaceInfo (si_flags s) (u64 (si_total_bytes s + total)) (u64 (si_bytes_used s + used)) (u64 (si_bytes_pinned s + pinned))
    (si_full s).

Definition bg_end (g : block_group) : Z := u64 (bg_objectid g + bg_offset g).

(** ** Predicates on flags *)

Definition block_group_bits (cache : block_group) bits : bool := Z.land (bg_flags cache) bits =? bits.

Definition has_flag flags bit : bool := negb (Z.land flags bit =? 0).

Definition block_group_state_bits flags : Z :=
  let bits := 0 in
  let bits := if has_flag flags BTRFS_BLOCK_GROUP_DATA then Z.lor bits BLOCK_GROUP_DATA else bits in
  let bits := if has_flag flags BTRFS_BLOCK_GROUP_METADATA then Z.lor bits BLOCK_GROUP_METADATA else bits in
  if has_flag flags BTRFS_BLOCK_GROUP_SYSTEM then Z.lor bits BLOCK_GROUP_SYSTEM else bits.

(** What does not change while extents are allocated: the extent tree, the sizes
    of its root, the features and profiles of the file system. [ae_mem]: whether
    a path can be allocated; [ae_fuel] bounds the searches in the extent tree. *)
Record alloc_env := AllocEnv {
  ae_tree : tree_env;
  ae_sectorsize : Z;
  ae_stripesize : Z;
  ae_skinny_metadata : bool;
  ae_data_alloc_profile : Z;
  ae_metadata_alloc_profile : Z;
  ae_system_alloc_profile : Z;
  ae_system_allocs : Z;
  ae_mem : bool;
  ae_fuel : nat;
}.

Definition stripe_align (env : alloc_env) (val : Z) : Z :=
  let mask := u64 (ae_stripesize env - 1) in
  Z.land (u64 (val + mask)) (u64 (Z.lnot mask)).

Section Alloc.
Context {T : Type} `{RbTree T} (env : alloc_env).
Open Scope act_scope.

Record alloc_info := AllocInfo {
  ai_free_space_cache : io_world T;
  ai_pinned_extents : io_world T;
  ai_extent_ins : io_world T;
  ai_pending_del : io_world T;
  ai_block_group_cache : io_world T;
  ai_groups : gmap Z block_group;
  ai_ops : gmap Z pending_extent_op;
  ai_next : Z;
  ai_space_info : list btrfs_space_info;
  ai_total_pinned : Z;
  ai_bytes_used : Z;
  ai_root_used : gmap Z Z;
  ai_avail_data_alloc_bits : Z;
  ai_avail_metadata_alloc_bits : Z;
  ai_avail_system_alloc_bits : Z;
  ai_trans_block_group : option Z;
  ai_exclude_start : Z;
  ai_exclude_nr : Z;
  ai_mapping : btrfs_mapping_tree T;
}.

Implicit Types (x : alloc_info).

Definition put_free w x := AllocInfo w (ai_pinned_extents x) (ai_extent_ins x) (ai_pending_del x) (ai_block_group_cache x)
  (ai_groups x) (ai_ops x) (ai_next x) (ai_space_info x) (ai_total_pinned x) (ai_bytes_used x) (ai_root_used x)
  (ai_avail_data_alloc_bits x) (ai_avail_metadata_alloc_bits x) (ai_avail_system_alloc_bits x) (ai_trans_block_group x)
  (ai_exclude_start x) (ai_exclude_nr x) (ai_mapping x).
Definition put_pinned w x := AllocInfo (ai_free_space_cache x) w (ai_extent_ins x) (ai_pending_del x) (ai_block_group_cache x)
  (ai_groups x) (ai_ops x) (ai_next x) (ai_space_info x) (ai_total_pinned x) (ai_bytes_used x) (ai_root_used x)
  (ai_avail_data_alloc_bits x) (ai_avail_metadata_alloc_bits x) (ai_avail_system_alloc_bits x) (ai_trans_block_group x)
  (ai_exclude_start x) (ai_exclude_nr x) (ai_mapping x).
Definition put_ins w x := AllocInfo (ai_free_space_cache x) (ai_pinned_extents x) w (ai_pending_del x) (ai_block_group_cache x)
  (ai_groups x) (ai_ops x) (ai_next x) (ai_space_info x) (ai_total_pinned x) (ai_bytes_used x) (ai_root_used x)
  (ai_avail_data_alloc_bits x) (ai_avail_metadata_alloc_bits x) (ai_avail_system_alloc_bits x) (ai_trans_block_group x)
  (ai_exclude_start x) (ai_exclude_nr x) (ai_mapping x).
Definition put_del w x := AllocInfo (ai_free_space_cache x) (ai_pinned_extents x) (ai_extent_ins x) w (ai_block_group_cache x)
  (ai_groups x) (ai_ops x) (ai_next x) (ai_space_info x) (ai_total_pinned x) (ai_bytes_used x) (ai_root_used x)
  (ai_avail_data_alloc_bits x) (ai_avail_metadata_alloc_bits x) (ai_avail_system_alloc_bits x) (ai_trans_block_group x)
  (ai_exclude_start x) (ai_exclude_nr x) (ai_mapping x).
Definition put_bgc w x := AllocInfo (ai_free_space_cache x) (ai_pinned_extents x) (ai_extent_ins x) (ai_pending_del x) w
  (ai_groups x) (ai_ops x) (ai_next x) (ai_space_info x) (ai_total_pinned x) (ai_bytes_used x) (ai_root_used x)
  (ai_avail_data_alloc_bits x) (ai_avail_metadata_alloc_bits x) (ai_avail_system_alloc_bits x) (ai_trans_block_group x)
  (ai_exclude_start x) (ai_exclude_nr x) (ai_mapping x).
Definition put_groups m x := AllocInfo (ai_free_space_cache x) (ai_pinned_extents x) (ai_extent_ins x) (ai_pending_del x)
  (ai_block_group_cache x) m (ai_ops x) (ai_next x) (ai_space_info x) (ai_total_pinned x) (ai_bytes_used x) (ai_root_used x)
  (ai_avail_data_alloc_bits x) (ai_avail_metadata_alloc_bits x) (ai_avail_system_alloc_bits x) (ai_trans_block_group x)
  (ai_exclude_start x) (ai_exclude_nr x) (ai_mapping x).
Definition put_ops m n x := AllocInfo (ai_free_space_cache x) (ai_pinned_extents x) (ai_extent_ins x) (ai_pending_del x)
  (ai_block_group_cache x) (ai_groups x) m n (ai_space_info x) (ai_total_pinned x) (ai_bytes_used x) (ai_root_used x)
  (ai_avail_data_alloc_bits x) (ai_avail_metadata_alloc_bits x) (ai_avail_system_alloc_bits x) (ai_trans_block_group x)
  (ai_exclude_start x) (ai_exclude_nr x) (ai_mapping x).
Definition put_space l x := AllocInfo (ai_free_space_cache x) (ai_pinned_extents x) (ai_extent_ins x) (ai_pending_del x)
  (ai_block_group_cache x) (ai_groups x) (ai_ops x) (ai_next x) l (ai_total_pinned x) (ai_bytes_used x) (ai_root_used x)
  (ai_avail_data_alloc_bits x) (ai_avail_metadata_alloc_bits x) (ai_avail_system_alloc_bits x) (ai_trans_block_group x)
  (ai_exclude_start x) (ai_exclude_nr x) (ai_mapping x).
Definition put_used t u m x := AllocInfo (ai_free_space_cache x) (ai_pinned_extents x) (ai_extent_ins x) (ai_pending_del x)
  (ai_block_group_cache x) (ai_groups x) (ai_ops x) (ai_next x) (ai_space_info x) t u m
  (ai_avail_data_alloc_bits x) (ai_avail_metadata_alloc_bits x) (ai_avail_system_alloc_bits x) (ai_trans_block_group x)
  (ai_exclude_start x) (ai_exclude_nr x) (ai_mapping x).
Definition put_avail d m s x := AllocInfo (ai_free_space_cache x) (ai_pinned_extents x) (ai_extent_ins x) (ai_pending_del x)
  (ai_block_group_cache x) (ai_groups x) (ai_ops x) (ai_next x) (ai_space_info x) (ai_total_pinned x) (ai_bytes_used x)
  (ai_root_used x) d m s (ai_trans_block_group x) (ai_exclude_start x) (ai_exclude_nr x) (ai_mapping x).
Definition put_hint h x := AllocInfo (ai_free_space_cache x) (ai_pinned_extents x) (ai_extent_ins x) (ai_pending_del x)
  (ai_block_group_cache x) (ai_groups x) (ai_ops x) (ai_next x) (ai_space_info x) (ai_total_pinned x) (ai_bytes_used x)
  (ai_root_used x) (ai_avail_data_alloc_bits x) (ai_avail_metadata_alloc_bits x) (ai_avail_system_alloc_bits x) h
  (ai_exclude_start x) (ai_exclude_nr x) (ai_mapping x).

(** ** The trees of flags

    The loops of [ExtentIo] get enough fuel for the states there are. *)

Definition io_fuel (w : io_world T) : nat := 3 * size (iw_heap w) + 3.
Definition io_find (start bits : Z) : act (io_world T) (option (Z * Z)) :=
  fun w => find_first_extent_bit (io_fuel w) start bits w.
Definition io_set (start last bits : Z) : act (io_world T) Z := fun w => set_extent_bits (io_fuel w) start last bits w.
Definition io_clear (start last bits : Z) : act (io_world T) Z := fun w => clear_extent_bits (io_fuel w) start last bits w.
Definition io_test (start last bits : Z) : act (io_world T) Z := fun w => test_range_bit (io_fuel w) start last bits false w.

Definition on_free {A} : act (io_world T) A -> act alloc_info A := zoom ai_free_space_cache put_free.
Definition on_pinned {A} : act (io_world T) A -> act alloc_info A := zoom ai_pinned_extents put_pinned.
Definition on_ins {A} : act (io_world T) A -> act alloc_info A := zoom ai_extent_ins put_ins.
Definition on_del {A} : act (io_world T) A -> act alloc_info A := zoom ai_pending_del put_del.
Definition on_bgc {A} : act (io_world T) A -> act alloc_info A := zoom ai_block_group_cache put_bgc.

Definition bg_get (p : Z) : act alloc_info block_group := deref (fun x => ai_groups x !! p).
Definition bg_put (p : Z) (g : block_group) : act alloc_info unit := modify (fun x => put_groups (<[p := g]> (ai_groups x)) x).
Definition si_get (i : nat) : act alloc_info btrfs_space_info := deref (fun x => ai_space_info x !! i).
Definition si_put (i : nat) (s : btrfs_space_info) : act alloc_info unit :=
  modify (fun x => put_space (<[i := s]> (ai_space_info x)) x).

(** ** Looking up block groups *)

(** The group whose state begins at the first byte with one of [bits]; the
    address is in the private value of the state. *)
Definition group_from (start bits : Z) : act alloc_info (option Z) :=
  r <- on_bgc (io_find start bits) ;;
  match r with
  | None => ret None
  | Some (start, _) =>
      p <- on_bgc (get_state_private start) ;;
      ret (if p.1 =? 0 then p.2 else None)
  end.

Definition btrfs_lookup_first_block_group (bytenr : Z) : act alloc_info (option Z) :=
  group_from (Z.max bytenr (BTRFS_SUPER_INFO_OFFSET + BTRFS_SUPER_INFO_SIZE)) BLOCK_GROUP_ANY.

Definition btrfs_lookup_block_group (bytenr : Z) : act alloc_info (option Z) :=
  p <- group_from bytenr BLOCK_GROUP_ANY ;;
  match p with
  | None => ret None
  | Some p =>
      block_group <- bg_get p ;;
      ret (if (bg_objectid block_group <=? bytenr) && (bytenr <? bg_end block_group) then Some p else None)
  end.
(** ** Free space

    [cache_block_group] reads the extent tree, without changing it: the path is
    its own, and a search that does not copy calls nothing of the extent tree. *)

Definition no_extent_tree : ExtentTree unit := {|
  alloc_free_block _ _ _ _ _ _ := None;
  free_extent _ _ _ _ _ _ := None;
  lookup_extent_info _ _ _ _ := None;
  inc_ref _ _ _ _ := None;
  dec_ref _ _ _ _ := None;
  set_block_flags _ _ _ _ _ := None;
|}.

Definition cache_world : Type := (tree_world unit * alloc_info)%type.
Definition reading {A} : act (tree_world unit) A -> act cache_world A := zoom fst (fun w s => (w, snd s)).
Definition caching {A} : act alloc_info A -> act cache_world A := zoom snd (fun x s => (fst s, x)).

(** The loop of [cache_block_group]: the end of the last extent, or nothing when
    a leaf cannot be read. *)
Fixpoint cache_loop (fuel : nat) (block_group : block_group) (last : Z) : act cache_world (option Z) :=
  match fuel with
  | O => bug
  | S fuel =>
      leaf <- reading (path_block 0) ;;
      slot <- reading (path_slot 0) ;;
      d <- reading (eb_read leaf) ;;
      if btrfs_header_nritems d <=? slot then
        r <- reading btrfs_next_leaf ;;
        if r <? 0 then ret None
        else if r =? 0 then cache_loop fuel block_group last
        else ret (Some last)
      else
        let key := btrfs_item_key d slot in
        if objectid key <? bg_objectid block_group then
          reading (set_path_slot 0 (slot + 1)) ;;; cache_loop fuel block_group last
        else if bg_end block_group <=? objectid key then ret (Some last)
        else
          last <- (if (type key =? BTRFS_EXTENT_ITEM_KEY) || (type key =? BTRFS_METADATA_ITEM_KEY) then
                     (if last <? objectid key then
                        caching (on_free (io_set last (u64 (last + (objectid key - last) - 1) ) EXTENT_DIRTY)) ;;; ret tt
                      else ret tt) ;;;
                     ret (if type key =? BTRFS_METADATA_ITEM_KEY
                          then u64 (objectid key + leafsize (te_root (ae_tree env)))
                          else u64 (objectid key + offset key))
                   else ret last) ;;
          reading (set_path_slot 0 (slot + 1)) ;;;
          cache_loop fuel block_group last
  end.

(** The inner loop of [remove_sb_from_cache], from the last address on. *)
Fixpoint clear_stripes (logical : list Z) (stripe_len : Z) : act alloc_info unit :=
  match logical with
  | [] => ret tt
  | a :: logical => on_free (io_clear a (u64 (a + stripe_len - 1)) EXTENT_DIRTY) ;;; clear_stripes logical stripe_len
  end.

Fixpoint remove_sb_loop (n : nat) (cache : block_group) (i : Z) : act alloc_info unit :=
  match n with
  | O => ret tt
  | S n =>
      let bytenr := btrfs_sb_offset i in
      r <- deref (fun x => btrfs_rmap_block (ai_mapping x) (bg_objectid cache) bytenr 0) ;;
      clear_stripes (rev r.1) r.2 ;;;
      remove_sb_loop n cache (i + 1)
  end.

Definition remove_sb_from_cache (cache : block_group) : act alloc_info Z :=
  remove_sb_loop (Z.to_nat BTRFS_SUPER_MIRROR_MAX) cache 0 ;;; ret 0.

Definition cache_block_group (v : tree_view) (p : Z) : act alloc_info Z :=
  block_group <- bg_get p ;;
  if bg_cached block_group then ret 0
  else if negb (ae_mem env) then ret (- ENOMEM)
  else
    let last := Z.max (bg_objectid block_group) BTRFS_SUPER_INFO_OFFSET in
    let key := BtrfsKey last 0 0 in
    let w := TreeWorld (tv_blocks v) (tv_node v) btrfs_init_path tt in
    sw <- assume_some (@btrfs_search_slot unit no_extent_tree (ae_tree env) (ae_fuel env) key 0 false w) ;;
    if sw.1 <? 0 then ret 0
    else
      last <- zoom (fun x => (sw.2, x)) (fun s _ => s.2) (cache_loop (ae_fuel env) block_group last) ;;
      match last with
      | None => ret 0
      | Some last =>
          (if last <? bg_end block_group then
             on_free (io_set last (u64 (last + u64 (bg_end block_group - last) - 1)) EXTENT_DIRTY) ;;; ret tt
           else ret tt) ;;;
          remove_sb_from_cache block_group ;;;
          block_group <- bg_get p ;;
          bg_put p (bg_with_cached block_group) ;;;
          ret 0
      end.

(** The loop of [find_search_start] over the free ranges, up to the end [last] of
    the group: the start of a range of [num] bytes. *)
Fixpoint free_run_loop (fuel : nat) (cache : block_group) (last num : Z) : act alloc_info (option Z) :=
  match fuel with
  | O => bug
  | S fuel =>
      r <- on_free (io_find last EXTENT_DIRTY) ;;
      match r with
      | None => ret None
      | Some (start, last_free) =>
          let start := Z.max last start in
          let last := u64 (last_free + 1) in
          if u64 (last - start) <? u64 num then free_run_loop fuel cache last num
          else if bg_end cache <? u64 (start + num) then ret None
          else ret (Some start)
      end
  end.

(** The rounds of [find_search_start] from the label [again]: the return value,
    [*cache_ret] and [*start_ret]. *)
Fixpoint search_groups (fuel : nat) (v : tree_view) (p : Z) (last search_start num data : Z) (wrapped : bool)
    : act alloc_info (Z * option Z * Z) :=
  match fuel with
  | O => bug
  | S fuel =>
      let out last :=
        cache <- btrfs_lookup_block_group search_start ;;
        bug_on (bool_decide (cache = None)) ;;;
        ret (- ENOSPC, Some p, last) in
      r <- cache_block_group v p ;;
      if negb (r =? 0) then out last
      else
        cache <- bg_get p ;;
        found <- (if bg_ro cache || negb (block_group_bits cache data) then ret None
                  else
                    n <- gets (fun x => io_fuel (ai_free_space_cache x)) ;;
                    free_run_loop n cache (Z.max search_start (bg_objectid cache)) num) ;;
        match found with
        | Some start => ret (0, Some p, start)
        | None =>
            let last := bg_end cache in
            next <- btrfs_lookup_first_block_group last ;;
            match next with
            | Some q => search_groups fuel v q last search_start num data wrapped
            | None =>
                if wrapped then out last
                else
                  next <- btrfs_lookup_first_block_group search_start ;;
                  match next with
                  | Some q => search_groups fuel v q search_start search_start num data true
                  | None => out search_start
                  end
            end
        end
  end.

Definition find_search_start (v : tree_view) (cache : option Z) (start num data : Z) : act alloc_info (Z * option Z * Z) :=
  match cache with
  | None =>
      c <- btrfs_lookup_block_group start ;;
      bug_on (bool_decide (c = None)) ;;;
      ret (- ENOSPC, None, start)
  | Some p =>
      n <- gets (fun x => 2 * size (ai_groups x) + 3)%nat ;;
      search_groups n v p start start num data false
  end.

(** Is there room in the group by its accounts? *)
Definition group_has_room (g : block_group) (data limit : Z) : bool :=
  negb (bg_ro g) && block_group_bits g data && (u64 (bg_used g + bg_pinned g) <? limit).

(** The loop of [btrfs_find_block_group]. *)
Fixpoint find_group_loop (fuel : nat) (last bit data factor : Z) (full_search : bool) : act alloc_info (option Z) :=
  match fuel with
  | O => bug
  | S fuel =>
      p <- group_from last bit ;;
      match p with
      | None => ret None
      | Some p =>
          cache <- bg_get p ;;
          let free_check := if full_search then bg_offset cache else div_factor (bg_offset cache) factor in
          if group_has_room cache data free_check then ret (Some p)
          else find_group_loop fuel (bg_end cache) bit data factor full_search
      end
  end.

(** Both searches of [btrfs_find_block_group], from the label [again]. *)
Definition find_group_from (last search_start bit data factor : Z) : act alloc_info (option Z) :=
  n <- gets (fun x => size (ai_groups x) + 1)%nat ;;
  r <- find_group_loop n last bit data factor false ;;
  match r with
  | Some p => ret (Some p)
  | None => find_group_loop n search_start bit data factor true
  end.

Definition btrfs_find_block_group (hint : option Z) (search_start data : Z) : act alloc_info (option Z) :=
  let factor := 10 in
  let bit := block_group_state_bits data in
  shint <- (if negb (search_start =? 0) then
              s <- btrfs_lookup_block_group search_start ;;
              match s with
              | None => ret None
              | Some p => g <- bg_get p ;;
                  ret (if group_has_room g data (div_factor (bg_offset g) factor) then Some p else None)
              end
            else ret None) ;;
  match shint with
  | Some p => ret (Some p)
  | None =>
      h <- match hint with None => ret None | Some p => g <- bg_get p ;; ret (Some (p, g)) end ;;
      match h with
      | Some (p, g) =>
          if group_has_room g data (div_factor (bg_offset g) factor) then ret (Some p)
          else
            let hint_ok := negb (bg_ro g) && block_group_bits g data in
            find_group_from (if hint_ok then bg_end g else Z.max (bg_objectid g) search_start) search_start bit data factor
      | None => find_group_from search_start search_start bit data factor
      end
  end.
(** ** Finding an extent *)

(** The tests of [find_free_extent] on the range that [find_search_start] found:
    nothing when it can be used, otherwise where to search on. *)
Definition check_range (cache : block_group) (start num_bytes exclude_start exclude_nr : Z)
    : act alloc_info (option Z) :=
  let last := u64 (start + num_bytes) in
  if bg_end cache <? last then ret (Some (bg_end cache))
  else
    pending <- on_ins (io_test start (u64 (last - 1)) EXTENT_LOCKED) ;;
    if negb (pending =? 0) then ret (Some last)
    else
      pinned <- on_pinned (io_test start (u64 (last - 1)) EXTENT_DIRTY) ;;
      if negb (pinned =? 0) then ret (Some last)
      else if (0 <? exclude_nr) && (exclude_start <? last) && (start <? u64 (exclude_start + exclude_nr))
      then ret (Some (u64 (exclude_start + exclude_nr)))
      else ret None.

(** [find_free_extent] from the label [check_failed]: the return value and the
    start of the extent. *)
Fixpoint free_extent_loop (fuel : nat) (v : tree_view) (num_bytes empty_size orig_search_start exclude_start exclude_nr data : Z)
    (block_group : option Z) (search_start total_needed : Z) (wrapped full_scan : bool) : act alloc_info (Z * Z) :=
  match fuel with
  | O => bug
  | S fuel =>
      let search_start := stripe_align env search_start in
      block_group <- match block_group with
                     | Some p => ret (Some p)
                     | None =>
                         b <- btrfs_lookup_first_block_group search_start ;;
                         match b with
                         | Some p => ret (Some p)
                         | None => btrfs_lookup_first_block_group orig_search_start
                         end
                     end ;;
      f <- find_search_start v block_group search_start (s32 total_needed) data ;;
      let '(r, block_group, search_start) := f in
      next <- (if negb (r =? 0) then ret (Some search_start)
               else
                 p <- assume_some block_group ;;
                 cache <- bg_get p ;;
                 check_range cache search_start num_bytes exclude_start exclude_nr) ;;
      match next with
      | None =>
          (if negb (has_flag data BTRFS_BLOCK_GROUP_DATA) then
             b <- btrfs_lookup_block_group search_start ;;
             match b with Some p => modify (put_hint (Some p)) | None => ret tt end
           else ret tt) ;;;
          ret (0, search_start)
      | Some search_start =>
          block_group <- btrfs_lookup_first_block_group search_start ;;
          let again block_group search_start total_needed wrapped full_scan :=
            block_group <- btrfs_find_block_group block_group search_start data ;;
            free_extent_loop fuel v num_bytes empty_size orig_search_start exclude_start exclude_nr data
              block_group search_start total_needed wrapped full_scan in
          match block_group with
          | Some p => again (Some p) search_start total_needed wrapped full_scan
          | None =>
              if full_scan then ret (- ENOSPC, 0)
              else if wrapped then again None orig_search_start (u64 (total_needed - empty_size)) wrapped true
              else again None orig_search_start total_needed true full_scan
          end
      end
  end.

Definition find_free_extent (fuel : nat) (v : tree_view) (num_bytes empty_size search_start hint_byte exclude_start exclude_nr data : Z)
    : act alloc_info (Z * Z) :=
  let orig_search_start := search_start in
  bug_on (num_bytes <? ae_sectorsize env) ;;;
  let search_start := stripe_align env search_start in
  block_group <- (if negb (hint_byte =? 0) then
                    b <- btrfs_lookup_first_block_group hint_byte ;;
                    let hint_byte := match b with Some _ => hint_byte | None => search_start end in
                    btrfs_find_block_group b hint_byte data
                  else
                    h <- gets ai_trans_block_group ;;
                    btrfs_find_block_group h search_start data) ;;
  free_extent_loop fuel v num_bytes empty_size orig_search_start exclude_start exclude_nr data
    block_group search_start (u64 (num_bytes + empty_size)) false false.

(** The type of block group [btrfs_reserve_extent] asks for. *)
Definition alloc_data_bits (x : alloc_info) (is_chunk_root data : bool) : Z :=
  if data then Z.lor BTRFS_BLOCK_GROUP_DATA (Z.land (ai_avail_data_alloc_bits x) (ae_data_alloc_profile env))
  else if ((0 <? ae_system_allocs env) || is_chunk_root) && (0 <=? ae_system_allocs env)
  then Z.lor BTRFS_BLOCK_GROUP_SYSTEM (Z.land (ai_avail_system_alloc_bits x) (ae_system_alloc_profile env))
  else Z.lor BTRFS_BLOCK_GROUP_METADATA (Z.land (ai_avail_metadata_alloc_bits x) (ae_metadata_alloc_profile env)).

(** The end of [btrfs_reserve_extent], after new chunks are made for trees that
    share blocks: the start of the extent. *)
Definition reserve_found (fuel : nat) (v : tree_view) (num_bytes empty_size hint_byte data : Z) : act alloc_info Z :=
  bug_on (num_bytes <? ae_sectorsize env) ;;;
  exclude_start <- gets ai_exclude_start ;;
  exclude_nr <- gets ai_exclude_nr ;;
  ins <- find_free_extent fuel v num_bytes empty_size 0 hint_byte exclude_start exclude_nr data ;;
  bug_on (negb (ins.1 =? 0)) ;;;
  on_free (io_clear ins.2 (u64 (ins.2 + num_bytes - 1)) EXTENT_DIRTY) ;;;
  ret ins.2.

(** ** Accounts *)

(** [__find_space_info] goes through the list from the newest one. *)
Fixpoint find_space_info (l : list btrfs_space_info) flags : option nat :=
  match l with
  | [] => None
  | s :: l =>
      match find_space_info l flags with
      | Some i => Some (S i)
      | None => if has_flag (si_flags s) flags then Some O else None
      end
  end.

Definition __find_space_info flags : act alloc_info (option nat) := gets (fun x => find_space_info (ai_space_info x) flags).

(** The space info that is updated or made; allocating it works. *)
Definition update_space_info flags (total_bytes bytes_used : Z) : act alloc_info nat :=
  found <- __find_space_info flags ;;
  match found with
  | Some i => s <- si_get i ;; si_put i (si_add s total_bytes bytes_used 0) ;;; ret i
  | None =>
      n <- gets (fun x => length (ai_space_info x)) ;;
      modify (fun x => put_space (ai_space_info x ++ [SpaceInfo flags total_bytes bytes_used 0 false]) x) ;;;
      ret n
  end.

Definition set_avail_alloc_bits flags : act alloc_info unit :=
  let extra_flags := Z.land flags (Z.lor (Z.lor (Z.lor (Z.lor (Z.lor BTRFS_BLOCK_GROUP_RAID0 BTRFS_BLOCK_GROUP_RAID1)
    BTRFS_BLOCK_GROUP_RAID10) BTRFS_BLOCK_GROUP_RAID5) BTRFS_BLOCK_GROUP_RAID6) BTRFS_BLOCK_GROUP_DUP) in
  if negb (extra_flags =? 0) then
    modify (fun x =>
      let add bit v := if has_flag flags bit then Z.lor v extra_flags else v in
      put_avail (add BTRFS_BLOCK_GROUP_DATA (ai_avail_data_alloc_bits x))
        (add BTRFS_BLOCK_GROUP_METADATA (ai_avail_metadata_alloc_bits x))
        (add BTRFS_BLOCK_GROUP_SYSTEM (ai_avail_system_alloc_bits x)) x)
  else ret tt.

(** The loop of [update_block_group] over the groups of the range. *)
Fixpoint update_groups_loop (fuel : nat) (bytenr total : Z) (alloc mark_free : bool) : act alloc_info Z :=
  if total =? 0 then ret 0
  else
    match fuel with
    | O => bug
    | S fuel =>
        p <- btrfs_lookup_block_group bytenr ;;
        match p with
        | None => ret (-1)
        | Some p =>
            cache <- bg_get p ;;
            let byte_in_group := u64 (bytenr - bg_objectid cache) in
            bug_on (bg_offset cache <? byte_in_group) ;;;
            on_bgc (io_set (bg_objectid cache) (u64 (bg_end cache - 1)) BLOCK_GROUP_DIRTY) ;;;
            let num_bytes := Z.min total (u64 (bg_offset cache - byte_in_group)) in
            let old_val := bg_used cache in
            s <- si_get (bg_space_info cache) ;;
            (if alloc : bool then si_put (bg_space_info cache) (si_add s 0 num_bytes 0)
             else
               si_put (bg_space_info cache) (si_add s 0 (- num_bytes) 0) ;;;
               (if mark_free : bool
                then on_free (io_set bytenr (u64 (bytenr + num_bytes - 1)) EXTENT_DIRTY) ;;; ret tt
                else ret tt)) ;;;
            bg_put p (bg_with_used cache (u64 (if alloc then old_val + num_bytes else old_val - num_bytes))) ;;;
            update_groups_loop fuel (u64 (bytenr + num_bytes)) (u64 (total - num_bytes)) alloc mark_free
        end
    end.

(** [root] is the tree the extent is charged to. *)
Definition update_block_group (root bytenr num_bytes : Z) (alloc mark_free : bool) : act alloc_info Z :=
  let new old := u64 (if alloc then old + num_bytes else old - num_bytes) in
  modify (fun x => put_used (ai_total_pinned x) (new (ai_bytes_used x))
    (<[root := new (default 0 (ai_root_used x !! root))]> (ai_root_used x)) x) ;;;
  n <- gets (fun x => S (size (ai_groups x))) ;;
  update_groups_loop n bytenr num_bytes alloc mark_free.

Definition btrfs_update_block_group := update_block_group.

(** The loop of [update_pinned_extents]; [fuel] bounds the number of groups and
    of sectors outside of them. *)
Fixpoint update_pinned_loop (fuel : nat) (bytenr num : Z) (pin : bool) : act alloc_info Z :=
  if num <=? 0 then ret 0
  else
    match fuel with
    | O => bug
    | S fuel =>
        p <- btrfs_lookup_block_group bytenr ;;
        len <- match p with
               | None => ret (Z.min (ae_sectorsize env) num)
               | Some p =>
                   cache <- bg_get p ;;
                   let len := Z.min num (u64 (bg_offset cache - u64 (bytenr - bg_objectid cache))) in
                   let d := if pin then len else - len in
                   bg_put p (bg_with_pinned cache (u64 (bg_pinned cache + d))) ;;;
                   s <- si_get (bg_space_info cache) ;;
                   si_put (bg_space_info cache) (si_add s 0 0 d) ;;;
                   modify (fun x => put_used (u64 (ai_total_pinned x + d)) (ai_bytes_used x) (ai_root_used x) x) ;;;
                   ret len
               end ;;
        update_pinned_loop fuel (u64 (bytenr + len)) (u64 (num - len)) pin
    end.

Definition update_pinned_extents (fuel : nat) (bytenr num : Z) (pin : bool) : act alloc_info Z :=
  (if pin then on_pinned (io_set bytenr (u64 (bytenr + num - 1)) EXTENT_DIRTY)
   else on_pinned (io_clear bytenr (u64 (bytenr + num - 1)) EXTENT_DIRTY)) ;;;
  update_pinned_loop fuel bytenr num pin.

Definition btrfs_pin_extent (fuel : nat) (bytenr num_bytes : Z) : act alloc_info Z :=
  update_pinned_extents fuel bytenr num_bytes true.
Definition btrfs_unpin_extent (fuel : nat) (bytenr num_bytes : Z) : act alloc_info Z :=
  update_pinned_extents fuel bytenr num_bytes false.

(** [btrfs_finish_extent_commit] on the pinned extents: they become free. *)
Fixpoint btrfs_finish_extent_commit (fuel pin_fuel : nat) : act alloc_info Z :=
  match fuel with
  | O => bug
  | S fuel =>
      r <- on_pinned (io_find 0 EXTENT_DIRTY) ;;
      match r with
      | None => ret 0
      | Some (start, last) =>
          update_pinned_extents pin_fuel start (u64 (last + 1 - start)) false ;;;
          on_pinned (io_clear start last EXTENT_DIRTY) ;;;
          on_free (io_set start last EXTENT_DIRTY) ;;;
          btrfs_finish_extent_commit fuel pin_fuel
      end
  end.

Definition extent_root_pending_ops : act alloc_info bool :=
  r <- on_ins (io_find 0 EXTENT_LOCKED) ;;
  match r with
  | None => ret false
  | Some _ =>
      r <- on_del (io_find 0 EXTENT_LOCKED) ;;
      ret (match r with Some _ => true | None => false end)
  end.

(** ** The extent tree's own blocks

    What is freed or allocated for the extent tree itself is only noted down. *)

Definition new_op (op : pending_extent_op) : act alloc_info Z :=
  p <- gets ai_next ;;
  modify (fun x => put_ops (<[p := op]> (ai_ops x)) (p + 1) x) ;;;
  ret p.

(** [btrfs_free_extent] with [root == extent_root]. *)
Definition free_extent_root (bytenr num_bytes owner : Z) : act alloc_info Z :=
  bug_on (num_bytes <? ae_sectorsize env) ;;;
  p <- new_op (PendingOp PENDING_EXTENT_DELETE bytenr num_bytes 0 (BtrfsKey 0 0 0) (s32 owner)) ;;
  on_del (io_set bytenr (u64 (bytenr + num_bytes - 1)) EXTENT_LOCKED) ;;;
  on_del (set_state_private bytenr p) ;;;
  ret 0.

(** [btrfs_alloc_free_block] for a block of the extent tree, with
    [alloc_tree_block] and [btrfs_reserve_extent]: no chunk is made for it.
    [held] is what the buffer holds that [btrfs_find_create_tree_block] finds or
    makes for a block. *)
Definition alloc_extent_root (fuel : nat) (held : Z -> buf) (blocksize : Z) (key : btrfs_key) (level hint : Z) (v : tree_view)
    : act alloc_info (Z + Z * buf) :=
  let blocksize := u32 blocksize in
  x <- gets (fun x => x) ;;
  start <- reserve_found fuel v blocksize 0 hint (alloc_data_bits x false false) ;;
  p <- new_op (PendingOp PENDING_EXTENT_INSERT start blocksize 0 key level) ;;
  on_ins (io_set start (u64 (start + blocksize - 1)) EXTENT_LOCKED) ;;;
  on_ins (set_state_private start p) ;;;
  ret (inr (start, held start)).

(** The extent tree seen from itself.  Its blocks are not shared, so the
    functions on references are not called by [update_ref_for_cow], with
    [ref_cows] unset and blocks of the present format of back references. *)
Definition extent_root_tree (fuel : nat) (held : Z -> buf) : ExtentTree alloc_info := {|
  alloc_free_block := alloc_extent_root fuel held;
  free_extent bytenr num_bytes owner _ _ := free_extent_root bytenr num_bytes owner;
  lookup_extent_info _ _ _ _ := None;
  inc_ref _ _ _ _ := None;
  dec_ref _ _ _ _ := None;
  set_block_flags _ _ _ _ _ := None;
|}.
End Alloc.

#[global] Arguments alloc_info : clear implicits.
