(* ===== verification/ExtentAllocSpec.v ===== *)
(** What the allocator finds: the range it reserves is free, of the right type,
    and neither pinned nor pending nor excluded. *)

From S2P Require Import Prelude RbSpec ExtentCache ExtentIo ExtentIoInv ExtentIoSpec Buf CtreeFmt TreeWorld.
From S2P Require Import TreeBalance TreeOps TreeSearch TreeSafe Volumes ExtentAlloc.

Lemma land_ldiff a d : Z.land (Z.ldiff a d) d = 0.
Proof.
  apply Z.bits_inj'. intros k Hk. rewrite Z.land_spec, Z.ldiff_spec, Z.bits_0. destruct (Z.testbit d k); by rewrite ?andb_false_r.
Qed.

Section Spec.
Context {T : Type} `{RbTreeLaws T} (env : alloc_env).
Implicit Types (w : io_world T) (x : alloc_info T) (F : Z -> Z).

(** ** The trees of flags *)

(** The tree [w] gives every byte [i] the flags [F i]. *)
Definition flags_are w F : Prop := exists L, io_ok w [] L /\ forall i, flag_of L.*2 i = F i.

Lemma heap_size w (L : list seg) : io_ok w [] L -> size (iw_heap w) = length L.
Proof using Type.
  intros Hok. destruct (io_heap _ _ _ Hok) as [Hnd Hh]. simpl in Hnd, Hh.
  rewrite Hh, map_size_list_to_map by done. done.
Qed.

Lemma io_find_run w F start bits :
  flags_are w F -> 0 <= start < U64_MAX -> 0 <= bits < 2 ^ 31 ->
  exists r, io_find start bits w = Some (r, w) /\
    match r with
    | None => forall i, start <= i -> Z.land (F i) bits = 0
    | Some (s, e) => s <= e /\ start <= e /\ 0 <= s /\ e < U64_MAX /\ (forall i, s <= i <= e -> Z.land (F i) bits <> 0) /\
        forall i, start <= i < s -> Z.land (F i) bits = 0
    end.
Proof using H H0.
  intros (L & Hok & HF) Hs Hb.
  destruct (find_first_extent_bit_spec (io_fuel w) w [] L start bits Hok Hs Hb) as (r & Hr & Hres).
  { unfold io_fuel. rewrite (heap_size _ _ Hok). lia. }
  exists r. split; [done|]. destruct r as [[s e]|]; simpl in Hres.
  - destruct Hres as (Hse & Hste & Hin & Hout). unfold has_bits in *.
    assert (Hseg : forall i, s <= i <= e -> 0 <= i < U64_MAX).
    { intros i Hi. pose proof (Hin i Hi) as Hbit. unfold flag_of in Hbit.
      destruct (seg_at L.*2 i) as [q|] eqn:Hq; [|by rewrite Z.land_0_l in Hbit].
      pose proof (seg_at_range 0 _ _ _ (io_segs _ _ _ Hok) Hq).
      destruct (segs_ok_elem 0 _ q (io_segs _ _ _ Hok) (seg_at_elem _ _ _ Hq)) as [(_ & _ & _ & ? & ?) _]. lia. }
    pose proof (Hseg s ltac:(lia)). pose proof (Hseg e ltac:(lia)).
    split_and!; [done|done|lia|lia| |].
    + intros i Hi. rewrite <- HF. by apply Hin.
    + intros i Hi. rewrite <- HF. destruct (Z.eq_dec (Z.land (flag_of L.*2 i) bits) 0); [done|]. by destruct (Hout i Hi).
  - intros i Hi. rewrite <- HF. destruct (Z.eq_dec (Z.land (flag_of L.*2 i) bits) 0); [done|]. by destruct (Hres i Hi).
Qed.

Lemma io_test_run w F start last bits :
  flags_are w F -> 0 <= start <= last -> last < U64_MAX -> 0 <= bits < 2 ^ 31 ->
  exists r, io_test start last bits w = Some (r, w) /\
    (r = 0 <-> forall i, start <= i <= last -> Z.land (F i) bits = 0).
Proof using H H0.
  intros (L & Hok & HF) Hs Hl Hb.
  destruct (test_range_bit_spec (io_fuel w) w [] L start last bits false Hok Hs Hl Hb) as (r & Hr & H01 & Hiff).
  { unfold io_fuel. rewrite (heap_size _ _ Hok). lia. }
  exists r. split; [done|]. unfold has_bits in Hiff. split.
  - intros -> i Hi. rewrite <- HF. destruct (Z.eq_dec (Z.land (flag_of L.*2 i) bits) 0); [done|].
    exfalso. enough (0 = 1) by lia. apply Hiff. by exists i.
  - intros Hz. destruct H01 as [->| ->]; [done|]. destruct (proj1 Hiff eq_refl) as (i & Hi & Hbad).
    by rewrite HF, Hz in Hbad.
Qed.

(** Clearing removes the bits of the range, or of its first part when memory
    runs out. *)
Lemma io_clear_run w F start last bits :
  flags_are w F -> 0 <= start <= last -> last < U64_MAX -> 0 <= bits < 2 ^ 31 ->
  exists r w' m, io_clear start last bits w = Some (r, w') /\ m <= last + 1 /\
    ((io_fuel w <= iw_mallocs w)%nat -> m = last + 1) /\
    flags_are w' (fun i => if (start <=? i) && (i <? m) then Z.ldiff (F i) bits else F i).
Proof using H H0.
  intros (L & Hok & HF) Hs Hl Hb.
  destruct (clear_extent_bits_spec (io_fuel w) w L start last bits Hok Hs Hl Hb) as (r & w' & Hr & L' & Hok' & Hcase).
  { unfold io_fuel. rewrite (heap_size _ _ Hok). lia. }
  destruct Hcase as [(Hc & v & -> & _)|(-> & Hmem & m & Hm & Hc)].
  - exists (Z.lor 0 v), w', (last + 1). split; [exact Hr|]. split; [lia|]. split; [done|]. exists L'. split; [done|].
    intros i. rewrite Hc, HF. done.
  - exists (- ENOMEM), w', m. split; [exact Hr|]. split; [lia|]. split; [lia|]. exists L'. split; [done|].
    intros i. rewrite Hc, HF. done.
Qed.

Lemma io_set_run w F start last bits :
  flags_are w F -> 0 <= start <= last -> last < U64_MAX -> 0 <= bits < 2 ^ 31 ->
  exists r w' F', io_set start last bits w = Some (r, w') /\ flags_are w' F'.
Proof using H H0.
  intros (L & Hok & HF) Hs Hl Hb.
  destruct (set_extent_bits_spec (io_fuel w) w L start last bits Hok Hs Hl Hb) as (r & w' & Hr & L' & Hok' & _).
  { unfold io_fuel. rewrite (heap_size _ _ Hok). lia. }
  exists r, w', (flag_of L'.*2). split; [done|]. by exists L'.
Qed.

Lemma flag_of_private (A B : list seg) p e v i : flag_of (A ++ (p, es_with_private e v) :: B).*2 i = flag_of (A ++ (p, e) :: B).*2 i.
Proof using Type.
  unfold flag_of. induction A as [|[q f] A IH]; simpl; [|destruct (_ && _); [done|exact IH]].
  change (es_start (es_with_private e v)) with (es_start e). change (es_end (es_with_private e v)) with (es_end e).
  by destruct (_ && _).
Qed.

Lemma io_set_private_run w F start v :
  flags_are w F -> 0 <= start < U64_MAX -> exists r w', set_state_private start v w = Some (r, w') /\ flags_are w' F.
Proof using H H0.
  intros (L & Hok & HF) Hs. pose proof (set_state_private_spec w [] L start v Hok Hs) as Hset.
  destruct (state_at L.*2 start) as [e|].
  - destruct Hset as (w' & A & p & B & -> & Hr & Hok'). exists 0, w'. split; [done|]. eexists. split; [exact Hok'|].
    intros i. by rewrite flag_of_private.
  - exists (- ENOENT), w. split; [done|]. by exists L.
Qed.

Lemma io_private_run w F start : flags_are w F -> 0 <= start < U64_MAX -> exists r, get_state_private start w = Some (r, w).
Proof using H H0. intros (L & Hok & _) Hs. eexists. by apply (get_state_private_spec w [] L start). Qed.
Lemma find_loop_reads fuel n start bits w r w' :
  find_first_extent_bit_loop fuel n start bits w = Some (r, w') -> w' = w.
Proof using Type.
  revert n. induction fuel as [|fuel IH]; intros n; [done|]. cbn [find_first_extent_bit_loop].
  unfold bind, es_get, io_next, deref. destruct (iw_heap w !! n) as [e|]; [|done].
  destruct (_ && _); [by intros [= <- <-]|]. destruct (next_cache_extent _ _) as [[q|]|]; [apply IH| |done].
  by intros [= <- <-].
Qed.

Lemma io_find_reads start bits w r w' : io_find start bits w = Some (r, w') -> w' = w.
Proof using Type.
  unfold io_find, find_first_extent_bit, bind, io_search, deref.
  destruct (search_cache_extent _ _ _) as [[q|]|]; [apply find_loop_reads| |done]. by intros [= <- <-].
Qed.

Lemma io_private_reads start w r w' : get_state_private start w = Some (r, w') -> w' = w.
Proof using Type.
  unfold get_state_private, bind, io_search, es_get, deref.
  destruct (search_cache_extent _ _ _) as [[q|]|]; [| |done]; [|by intros [= <- <-]].
  destruct (iw_heap w !! q); [|done]. destruct (negb _); by intros [= <- <-].
Qed.

(** ** Reading the caches

    [reads x c P]: when the action [c] ends normally in [x], it has changed
    nothing and its result satisfies [P]. *)

Definition reads {A} x (c : act (alloc_info T) A) (P : A -> Prop) : Prop :=
  forall a x', c x = Some (a, x') -> x' = x /\ P a.

Lemma reads_ret {A} x (a : A) (P : A -> Prop) : P a -> reads x (ret a) P.
Proof using Type. intros HP b x' [= <- <-]. done. Qed.

Lemma reads_bind {A B} x (c : act (alloc_info T) A) (k : A -> act (alloc_info T) B) P Q :
  reads x c P -> (forall a, P a -> reads x (k a) Q) -> reads x (bind c k) Q.
Proof using Type.
  intros Hc Hk b x'. unfold bind. destruct (c x) as [[a x1]|] eqn:E; [|done].
  destruct (Hc a x1 E) as [-> HP]. by apply Hk.
Qed.

Lemma reads_then {A B} x (c : act (alloc_info T) A) (k : A -> act (alloc_info T) B) P b x' :
  reads x c P -> bind c k x = Some (b, x') -> exists a, P a /\ k a x = Some (b, x').
Proof using Type.
  intros Hc. unfold bind. destruct (c x) as [[a x1]|] eqn:E; [|done]. destruct (Hc a x1 E) as [-> HP]. by exists a.
Qed.

Lemma reads_weaken {A} x (c : act (alloc_info T) A) (P Q : A -> Prop) : reads x c P -> (forall a, P a -> Q a) -> reads x c Q.
Proof using Type. intros Hc HPQ a x' E. destruct (Hc a x' E). auto. Qed.

Lemma reads_bug {A} x (P : A -> Prop) : reads x bug P.
Proof using Type. intros a x' E. discriminate E. Qed.
Lemma reads_bug_on x (b : bool) : reads x (bug_on b) (fun _ => b = false).
Proof using Type. destruct b; [apply reads_bug|by apply reads_ret]. Qed.
Lemma reads_gets {A} x (f : alloc_info T -> A) : reads x (gets f) (fun a => a = f x).
Proof using Type. intros a x' [= <- <-]. done. Qed.
Lemma reads_assume {A} x (o : option A) : reads x (assume_some o) (fun a => o = Some a).
Proof using Type. destruct o; [by apply reads_ret|apply reads_bug]. Qed.
Lemma reads_bg_get x p : reads x (bg_get p) (fun g => ai_groups x !! p = Some g).
Proof using Type. intros g x'. unfold bg_get, deref. destruct (ai_groups x !! p) eqn:E; [|done]. by intros [= <- <-]. Qed.

(** A part of the state that is only read. *)
Lemma reads_zoom {A} x get put (c : act (io_world T) A) r :
  put (get x) x = x -> c (get x) = Some (r, get x) -> reads x (zoom get put c) (fun a => a = r).
Proof using Type. intros Hp Hc a x'. unfold zoom. rewrite Hc. intros [= <- <-]. done. Qed.

Lemma put_free_same x : put_free (ai_free_space_cache x) x = x.
Proof using Type. by destruct x. Qed.
Lemma put_hint_same x : put_hint (ai_trans_block_group x) x = x.
Proof using Type. by destruct x. Qed.
Lemma put_pinned_same x : put_pinned (ai_pinned_extents x) x = x.
Proof using Type. by destruct x. Qed.
Lemma put_ins_same x : put_ins (ai_extent_ins x) x = x.
Proof using Type. by destruct x. Qed.
Lemma put_bgc_same x : put_bgc (ai_block_group_cache x) x = x.
Proof using Type. by destruct x. Qed.

(** The flags of the caches: free bytes, pinned bytes, bytes of pending
    insertions.  No byte from [2 ^ 63] on is free; the free space of all groups
    is cached. *)
Record alloc_ok x (Ff Fp Fi Fg : Z -> Z) : Prop := {
  ao_free : flags_are (ai_free_space_cache x) Ff;
  ao_pinned : flags_are (ai_pinned_extents x) Fp;
  ao_ins : flags_are (ai_extent_ins x) Fi;
  ao_groups : flags_are (ai_block_group_cache x) Fg;
  ao_high : forall i, 2 ^ 63 <= i -> Z.land (Ff i) EXTENT_DIRTY = 0;
  ao_cached : map_Forall (fun _ g => bg_cached g = true /\ 0 <= bg_objectid g /\ 0 < bg_offset g /\
    bg_objectid g + bg_offset g <= 2 ^ 63) (ai_groups x);
}.

Definition free_byte (F : Z -> Z) (i : Z) : Prop := Z.land (F i) EXTENT_DIRTY <> 0.

Section State.
Context (x : alloc_info T) (Ff Fp Fi Fg : Z -> Z) (Hx : alloc_ok x Ff Fp Fi Fg).

Ltac bits := split; [vm_compute; discriminate|vm_compute; reflexivity].

(** The queries change nothing, whatever they are asked. *)
Lemma reads_only {A} get put (c : act (io_world T) A) :
  put (get x) x = x -> (forall a w', c (get x) = Some (a, w') -> w' = get x) -> reads x (zoom get put c) (fun _ => True).
Proof using Type.
  intros Hp Hc a x'. unfold zoom. destruct (c (get x)) as [[a' w']|] eqn:E; [|done].
  intros [= <- <-]. by rewrite (Hc _ _ eq_refl), Hp.
Qed.

Lemma reads_group_from start bits : reads x (group_from start bits) (fun _ => True).
Proof using Type.
  eapply reads_bind.
  { apply reads_only; [apply put_bgc_same|]. intros a w' Hr. by apply io_find_reads in Hr. }
  intros r _. destruct r as [[s e]|]; [|by apply reads_ret].
  eapply reads_bind; [|intros ? _; by apply reads_ret].
  apply reads_only; [apply put_bgc_same|]. intros a w' Hr. by apply io_private_reads in Hr.
Qed.

Lemma reads_lookup_first bytenr : reads x (btrfs_lookup_first_block_group bytenr) (fun _ => True).
Proof using Type. apply reads_group_from. Qed.

Lemma reads_lookup bytenr : reads x (btrfs_lookup_block_group bytenr) (fun _ => True).
Proof using Type.
  eapply reads_bind; [apply reads_group_from|]. intros [p|] _; [|by apply reads_ret].
  eapply reads_bind; [apply reads_bg_get|]. intros g _. by apply reads_ret.
Qed.

Lemma reads_find_group_loop fuel last bit data factor full :
  reads x (find_group_loop fuel last bit data factor full) (fun _ => True).
Proof using Type.
  revert last. induction fuel as [|fuel IH]; intros last; [apply reads_bug|].
  eapply reads_bind; [apply reads_group_from|]. intros [p|] _; [|by apply reads_ret].
  eapply reads_bind; [apply reads_bg_get|]. intros g _. cbn zeta. destruct (group_has_room _ _ _); [by apply reads_ret|apply IH].
Qed.

Lemma reads_find_group_from last search_start bit data factor :
  reads x (find_group_from last search_start bit data factor) (fun _ => True).
Proof using Type.
  eapply reads_bind; [apply reads_gets|]. intros n _.
  eapply reads_bind; [apply reads_find_group_loop|]. intros [p|] _; [by apply reads_ret|apply reads_find_group_loop].
Qed.

Lemma reads_find_block_group hint search_start data : reads x (btrfs_find_block_group hint search_start data) (fun _ => True).
Proof using Type.
  unfold btrfs_find_block_group. cbn zeta. eapply (reads_bind _ _ _ (fun _ => True)).
  { destruct (negb _); [|by apply reads_ret]. eapply reads_bind; [apply reads_lookup|]. intros [p|] _; [|by apply reads_ret].
    eapply reads_bind; [apply reads_bg_get|]. intros g _. by apply reads_ret. }
  intros [p|] _; [by apply reads_ret|]. eapply (reads_bind _ _ _ (fun _ => True)).
  { destruct hint; [|by apply reads_ret]. eapply reads_bind; [apply reads_bg_get|]. intros g _. by apply reads_ret. }
  intros [[p g]|] _; [|apply reads_find_group_from].
  destruct (group_has_room _ _ _); [by apply reads_ret|apply reads_find_group_from].
Qed.

Lemma reads_cache_block_group v p : reads x (cache_block_group env v p) (fun r => r = 0).
Proof using Hx.
  eapply reads_bind; [apply reads_bg_get|]. intros g Hg. simpl in Hg.
  destruct (ao_cached _ _ _ _ _ Hx p g Hg) as [-> _]. by apply reads_ret.
Qed.
(** A usable range: free bytes inside a group of the type [data] that may be
    written. *)
Definition free_range (num start : Z) : Prop :=
  0 <= start /\ (forall i, start <= i < start + num -> free_byte Ff i).
Definition in_group (data num start p : Z) : Prop :=
  exists g, ai_groups x !! p = Some g /\ bg_ro g = false /\ block_group_bits g data = true /\
    bg_objectid g <= start /\ start + num <= bg_objectid g + bg_offset g.

Lemma group_end p g : ai_groups x !! p = Some g -> bg_end g = bg_objectid g + bg_offset g.
Proof using Hx. intros Hg. destruct (ao_cached _ _ _ _ _ Hx p g Hg) as (_ & ? & ? & ?). unfold bg_end. apply u64_id. lia. Qed.

Lemma reads_free_run fuel p g last num :
  ai_groups x !! p = Some g -> 0 <= last < U64_MAX -> 0 < num < 2 ^ 31 ->
  reads x (free_run_loop fuel g last num)
    (fun r => match r with Some s => last <= s /\ free_range num s /\ s + num <= bg_objectid g + bg_offset g | None => True end).
Proof using H0 Hx.
  intros Hg. revert last. induction fuel as [|fuel IH]; intros last Hl Hn; [apply reads_bug|]. cbn [free_run_loop].
  destruct (io_find_run _ Ff last EXTENT_DIRTY (ao_free _ _ _ _ _ Hx) Hl ltac:(bits)) as (r & Hr & Hres).
  eapply reads_bind; [by apply (reads_zoom x ai_free_space_cache put_free _ r (put_free_same x))|]. intros ? ->.
  destruct r as [[s e]|]; [|by apply reads_ret]. destruct Hres as (Hse & Hle & Hs0 & He & Hin & _).
  assert (He63 : e < 2 ^ 63).
  { destruct (Z.lt_ge_cases e (2 ^ 63)); [done|]. exfalso. apply (Hin e); [lia|]. by apply (ao_high _ _ _ _ _ Hx). }
  rewrite (u64_id (e + 1)), (u64_id (e + 1 - _)), (u64_id num) by lia.
  destruct (Z.ltb_spec (e + 1 - Z.max last s) num) as [Hlt|Hge].
  { eapply reads_weaken; [apply IH; unfold U64_MAX; lia|]. intros [s'|]; [|done]. intros [? ?]. split; [lia|done]. }
  rewrite (u64_id (Z.max last s + num)), (group_end p g Hg) by lia.
  destruct (Z.ltb_spec (bg_objectid g + bg_offset g) (Z.max last s + num)); apply reads_ret; [done|].
  split; [lia|]. split; [|done]. split; [lia|]. intros i Hi. apply Hin. lia.
Qed.
(** What a successful search gives. *)
Definition search_found (search_start num data : Z) (r : Z * option Z * Z) : Prop :=
  r.1.1 = 0 -> exists p, r.1.2 = Some p /\ in_group data num r.2 p /\ search_start <= r.2 /\ free_range num r.2.

Lemma reads_search_groups fuel v p prev search_start num data wrapped :
  0 <= search_start < U64_MAX -> 0 < num < 2 ^ 31 ->
  reads x (search_groups env fuel v p prev search_start num data wrapped) (search_found search_start num data).
Proof using H0 Hx.
  intros Hs Hn. revert p prev wrapped. induction fuel as [|fuel IH]; intros p prev wrapped; [apply reads_bug|]. cbn [search_groups].
  assert (Hout : forall last, reads x (cache <- btrfs_lookup_block_group search_start ;;
    bug_on (bool_decide (cache = None)) ;;; ret (- ENOSPC, Some p, last))%act (search_found search_start num data)).
  { intros last. eapply reads_bind; [apply reads_lookup|]. intros c _. eapply reads_bind; [apply reads_bug_on|]. intros ? _.
    by apply reads_ret. }
  eapply reads_bind; [apply reads_cache_block_group|]. intros r ->. cbn [Z.eqb negb].
  eapply reads_bind; [apply reads_bg_get|]. intros g Hg. simpl in Hg.
  destruct (ao_cached _ _ _ _ _ Hx p g Hg) as (_ & Hg0 & Hgo & Hge).
  eapply (reads_bind _ _ _ (fun r => match r with
    | Some s => in_group data num s p /\ search_start <= s /\ free_range num s | None => True end)).
  { destruct (bg_ro g) eqn:Hro; [by apply reads_ret|]. destruct (block_group_bits g data) eqn:Hbits; [|by apply reads_ret].
    cbn [orb negb]. eapply reads_bind; [apply reads_gets|]. intros n _.
    eapply reads_weaken; [apply (reads_free_run n p g _ num Hg); [unfold U64_MAX in *; lia|lia]|].
    intros [s|]; [|done]. intros (Hls & Hf & Hend). split; [|split; [lia|done]]. exists g. split_and!; (done || lia). }
  intros [s|] Hfound; [apply reads_ret; intros _; by exists p|]. cbn zeta.
  eapply reads_bind; [apply reads_lookup_first|]. intros [q|] _; [apply IH|]. destruct wrapped; [apply Hout|].
  eapply reads_bind; [apply reads_lookup_first|]. intros [q|] _; [apply IH|apply Hout].
Qed.

Lemma reads_find_search_start v c search_start num data :
  0 <= search_start < U64_MAX -> 0 < num < 2 ^ 31 ->
  reads x (find_search_start env v c search_start num data) (search_found search_start num data).
Proof using H0 Hx.
  intros Hs Hn. unfold find_search_start. destruct c as [p|].
  - eapply reads_bind; [apply reads_gets|]. intros n _. by apply reads_search_groups.
  - eapply reads_bind; [apply reads_lookup|]. intros c _. eapply reads_bind; [apply reads_bug_on|]. intros ? _.
    by apply reads_ret.
Qed.

(** Bytes that may be handed out. *)
Definition usable (exclude_start exclude_nr num start : Z) : Prop :=
  (forall i, start <= i < start + num -> Z.land (Fi i) EXTENT_LOCKED = 0 /\ Z.land (Fp i) EXTENT_DIRTY = 0) /\
  (0 < exclude_nr -> start + num <= exclude_start \/ u64 (exclude_start + exclude_nr) <= start).

Lemma reads_check_range p g start num es en :
  ai_groups x !! p = Some g -> 0 <= start -> 0 < num < 2 ^ 31 -> start + num < U64_MAX ->
  reads x (check_range g start num es en) (fun r => match r with None => usable es en num start | Some _ => True end).
Proof using H0 Hx.
  intros Hg Hs Hn Hend. unfold check_range. cbn zeta. rewrite (u64_id (start + num)), (u64_id (start + num - 1)) by (unfold U64_MAX in *; lia).
  destruct (_ <? _); [by apply reads_ret|].
  destruct (io_test_run _ Fi start (start + num - 1) EXTENT_LOCKED (ao_ins _ _ _ _ _ Hx)) as (r & Hr & Hri);
    [lia|lia|bits|].
  eapply reads_bind; [by apply (reads_zoom x ai_extent_ins put_ins _ r (put_ins_same x))|]. intros ? ->.
  destruct (Z.eqb_spec r 0) as [->|]; cbn [negb]; [|by apply reads_ret].
  destruct (io_test_run _ Fp start (start + num - 1) EXTENT_DIRTY (ao_pinned _ _ _ _ _ Hx)) as (q & Hq & Hqi);
    [lia|lia|bits|].
  eapply reads_bind; [by apply (reads_zoom x ai_pinned_extents put_pinned _ q (put_pinned_same x))|]. intros ? ->.
  destruct (Z.eqb_spec q 0) as [->|]; cbn [negb]; [|by apply reads_ret].
  destruct (Z.ltb_spec 0 en), (Z.ltb_spec es (start + num)), (Z.ltb_spec start (u64 (es + en))); cbn [andb];
    apply reads_ret; try done;
    (split; [intros i Hi; split; [apply Hri; [done|lia]|apply Hqi; [done|lia]]|lia]).
Qed.
Lemma stripe_align_range val : Z.even (ae_stripesize env) = true -> 0 <= stripe_align env val < U64_MAX.
Proof using Type.
  intros Heven. unfold stripe_align. cbn zeta. set (m := u64 (ae_stripesize env - 1)).
  assert (Hodd : Z.testbit (u64 (Z.lnot m)) 0 = false).
  { unfold u64 at 1. rewrite Z.mod_pow2_bits_low by lia. rewrite Z.lnot_spec by lia. unfold m, u64.
    rewrite Z.mod_pow2_bits_low by lia. rewrite Z.bit0_odd, Z.odd_sub. rewrite <- (Z.negb_even (ae_stripesize env)), Heven. done. }
  pose proof (u64_range (val + m)). pose proof (u64_range (Z.lnot m)) as Hr.
  pose proof (land_bounds (u64 (val + m)) (u64 (Z.lnot m))).
  assert (u64 (Z.lnot m) <> U64_MAX) by (intros Heq; rewrite Heq in Hodd; vm_compute in Hodd; discriminate).
  unfold U64_MAX in *. lia.
Qed.

(** The range that was found, with all that was asked of it. *)
Definition found_extent (data num es en start : Z) : Prop :=
  (exists p, in_group data num start p) /\ free_range num start /\ usable es en num start.

Lemma free_extent_loop_spec fuel v num empty orig es en data : 0 < num -> 0 <= empty -> num + empty < 2 ^ 31 ->
  Z.even (ae_stripesize env) = true ->
  forall bg ss total wrapped full r s x',
  num <= total -> (full = false -> total = num + empty) -> (full = true -> total = num) ->
  free_extent_loop env fuel v num empty orig es en data bg ss total wrapped full x = Some ((r, s), x') -> r = 0 ->
  (exists h, x' = put_hint h x) /\ found_extent data num es en s.
Proof using H0 Hx.
  intros Hn Hem Hsum Heven. induction fuel as [|fuel IH]; intros bg ss total wrapped full r s x' Hnt Ht1 Ht2 Hrun Hr0; [done|].
  cbn [free_extent_loop] in Hrun. cbn zeta in Hrun.
  pose proof (stripe_align_range ss Heven) as Hal. set (ss' := stripe_align env ss) in *.
  assert (Htot : 0 < total < 2 ^ 31) by (destruct full; [rewrite Ht2 by done|rewrite Ht1 by done]; lia).
  rewrite (s32_id total) in Hrun by lia.
  apply (reads_then _ _ _ (fun _ => True)) in Hrun; cycle 1.
  { destruct bg; [by apply reads_ret|]. eapply reads_bind; [apply reads_lookup_first|]. intros [q|] _; [by apply reads_ret|].
    apply reads_lookup_first. }
  destruct Hrun as (bg' & _ & Hrun). apply (reads_then _ _ _ _ _ _ (reads_find_search_start v bg' ss' total data Hal Htot)) in Hrun.
  destruct Hrun as ([[r1 c] s1] & Hfound & Hrun). unfold search_found in Hfound. simpl in Hfound.
  apply (reads_then _ _ _ (fun o => match o with None => found_extent data num es en s1 | Some _ => True end)) in Hrun; cycle 1.
  { destruct (Z.eqb_spec r1 0) as [->|]; cbn [negb]; [|by apply reads_ret].
    destruct (Hfound eq_refl) as (p & -> & (g & Hg & Hro & Hb & Hlo & Hhi) & Hle & (Hs0 & Hfree)).
    eapply reads_bind; [apply reads_assume|]. intros p' [= <-]. eapply reads_bind; [apply reads_bg_get|]. intros g' Hg'.
    simpl in Hg'. rewrite Hg in Hg'. injection Hg' as <-. destruct (ao_cached _ _ _ _ _ Hx p g Hg) as (_ & ? & ? & ?).
    eapply reads_weaken; [apply (reads_check_range p g); [done|done|lia|unfold U64_MAX; lia]|].
    intros [n|]; [done|]. intros Hu. split; [exists p, g; split_and!; (done || lia)|]. split; [|done]. split; [done|].
    intros i Hi. apply Hfree. lia. }
  destruct Hrun as ([next|] & Hchk & Hrun).
  - apply (reads_then _ _ _ _ _ _ (reads_lookup_first next)) in Hrun. destruct Hrun as (b & _ & Hrun).
    destruct b as [p|]; [|destruct full; [injection Hrun as <- _; discriminate Hr0|destruct wrapped]].
    all: apply (reads_then _ _ _ _ _ _ (reads_find_block_group _ _ data)) in Hrun; destruct Hrun as (b' & _ & Hrun).
    + apply IH in Hrun; done.
    + apply IH in Hrun; try done; rewrite (Ht1 eq_refl); replace (num + empty - empty) with num by lia; rewrite u64_id by lia; lia.
    + apply IH in Hrun; done.
  - split; [|destruct (negb (has_flag data _)) in Hrun].
    + destruct (negb _) in Hrun; [|injection Hrun as _ _ <-; exists (ai_trans_block_group x); by rewrite put_hint_same].
      rewrite bind_assoc in Hrun. apply (reads_then _ _ _ _ _ _ (reads_lookup s1)) in Hrun. destruct Hrun as (b & _ & Hrun).
      destruct b as [p|]; injection Hrun as _ _ <-; [by exists (Some p)|exists (ai_trans_block_group x); by rewrite put_hint_same].
    + rewrite bind_assoc in Hrun. apply (reads_then _ _ _ _ _ _ (reads_lookup s1)) in Hrun. destruct Hrun as (b & _ & Hrun).
      by destruct b as [p|]; injection Hrun as _ <- _.
    + by injection Hrun as _ <- _.
Qed.
(** A size that is negative as an [int] fits nowhere. *)
Lemma reads_free_run_neg fuel g last num :
  0 <= last < U64_MAX -> - 2 ^ 31 <= num < 0 -> reads x (free_run_loop fuel g last num) (fun r => r = None).
Proof using H0 Hx.
  revert last. induction fuel as [|fuel IH]; intros last Hl Hn; [apply reads_bug|]. cbn [free_run_loop].
  destruct (io_find_run _ Ff last EXTENT_DIRTY (ao_free _ _ _ _ _ Hx) Hl ltac:(bits)) as (r & Hr & Hres).
  eapply reads_bind; [by apply (reads_zoom x ai_free_space_cache put_free _ r (put_free_same x))|]. intros ? ->.
  destruct r as [[s e]|]; [|by apply reads_ret]. destruct Hres as (Hse & Hle & Hs0 & He & Hin & _).
  assert (He63 : e < 2 ^ 63).
  { destruct (Z.lt_ge_cases e (2 ^ 63)); [done|]. exfalso. apply (Hin e); [lia|]. by apply (ao_high _ _ _ _ _ Hx). }
  rewrite (u64_id (e + 1)), (u64_id (e + 1 - _)) by lia.
  replace (u64 num) with (num + 2 ^ 64); cycle 1.
  { symmetry. unfold u64. rewrite <- (Z.mod_small (num + 2 ^ 64) (2 ^ 64)) by lia. by rewrite <- (Z.mod_add num 1 (2 ^ 64)) by lia. }
  rewrite (proj2 (Z.ltb_lt _ _)) by lia. apply IH; [unfold U64_MAX; lia|done].
Qed.

Lemma reads_search_neg fuel v p prev search_start num data wrapped :
  0 <= search_start < U64_MAX -> - 2 ^ 31 <= num < 0 ->
  reads x (search_groups env fuel v p prev search_start num data wrapped) (fun r : Z * option Z * Z => r.1.1 <> 0).
Proof using H0 Hx.
  intros Hs Hn. revert p prev wrapped. induction fuel as [|fuel IH]; intros p prev wrapped; [apply reads_bug|]. cbn [search_groups].
  assert (Hout : forall last, reads x (cache <- btrfs_lookup_block_group search_start ;;
    bug_on (bool_decide (cache = None)) ;;; ret (- ENOSPC, Some p, last))%act (fun r : Z * option Z * Z => r.1.1 <> 0)).
  { intros last. eapply reads_bind; [apply reads_lookup|]. intros c _. eapply reads_bind; [apply reads_bug_on|]. intros ? _.
    by apply reads_ret. }
  eapply reads_bind; [apply reads_cache_block_group|]. intros r ->. cbn [Z.eqb negb].
  eapply reads_bind; [apply reads_bg_get|]. intros g Hg. simpl in Hg.
  destruct (ao_cached _ _ _ _ _ Hx p g Hg) as (_ & Hg0 & Hgo & Hge).
  eapply (reads_bind _ _ _ (fun r => r = None)).
  { destruct (_ || _); [by apply reads_ret|]. eapply reads_bind; [apply reads_gets|]. intros n _.
    apply reads_free_run_neg; [unfold U64_MAX in *; lia|done]. }
  intros ? ->. cbn zeta.
  eapply reads_bind; [apply reads_lookup_first|]. intros [q|] _; [apply IH|]. destruct wrapped; [apply Hout|].
  eapply reads_bind; [apply reads_lookup_first|]. intros [q|] _; [apply IH|apply Hout].
Qed.

Lemma free_extent_loop_neg fuel v num orig es en data : 2 ^ 31 <= num < 2 ^ 32 -> Z.even (ae_stripesize env) = true ->
  forall bg ss wrapped full r s x',
  free_extent_loop env fuel v num 0 orig es en data bg ss num wrapped full x = Some ((r, s), x') -> r <> 0.
Proof using H0 Hx.
  intros Hn Heven. induction fuel as [|fuel IH]; intros bg ss wrapped full r s x' Hrun; [done|].
  cbn [free_extent_loop] in Hrun. cbn zeta in Hrun. pose proof (stripe_align_range ss Heven) as Hal.
  assert (Hneg : - 2 ^ 31 <= s32 num < 0).
  { unfold s32. rewrite <- (Z.mod_add _ (-1)) by lia. rewrite Z.mod_small by lia. lia. }
  apply (reads_then _ _ _ (fun _ => True)) in Hrun; cycle 1.
  { destruct bg; [by apply reads_ret|]. eapply reads_bind; [apply reads_lookup_first|]. intros [q|] _; [by apply reads_ret|].
    apply reads_lookup_first. }
  destruct Hrun as (bg' & _ & Hrun). apply (reads_then _ _ _ (fun r : Z * option Z * Z => r.1.1 <> 0)) in Hrun; cycle 1.
  { unfold find_search_start. destruct bg' as [p|].
    - eapply reads_bind; [apply reads_gets|]. intros n _. by apply reads_search_neg.
    - eapply reads_bind; [apply reads_lookup|]. intros c _. eapply reads_bind; [apply reads_bug_on|]. intros ? _.
      by apply reads_ret. }
  destruct Hrun as ([[r1 c] s1] & Hr1 & Hrun). simpl in Hr1.
  apply (reads_then _ _ _ (fun o => o <> None)) in Hrun; cycle 1.
  { destruct (Z.eqb_spec r1 0); [done|]. by apply reads_ret. }
  destruct Hrun as ([next|] & Hnx & Hrun); [|done].
  apply (reads_then _ _ _ _ _ _ (reads_lookup_first next)) in Hrun. destruct Hrun as (b & _ & Hrun).
  destruct b as [p|]; [|destruct full; [by injection Hrun as <- _|destruct wrapped]].
  all: apply (reads_then _ _ _ _ _ _ (reads_find_block_group _ _ data)) in Hrun; destruct Hrun as (b' & _ & Hrun).
  - by apply IH in Hrun.
  - rewrite Z.sub_0_r, u64_id in Hrun by lia. by apply IH in Hrun.
  - by apply IH in Hrun.
Qed.

(** ** Reserving an extent *)

Lemma found_extent_of fuel v num empty hint_byte data r s x' :
  0 <= empty -> num + empty < 2 ^ 32 -> (2 ^ 31 <= num + empty -> empty = 0) ->
  0 < ae_sectorsize env -> Z.even (ae_stripesize env) = true ->
  find_free_extent env fuel v num empty 0 hint_byte (ai_exclude_start x) (ai_exclude_nr x) data x = Some ((r, s), x') -> r = 0 ->
  (exists h, x' = put_hint h x) /\ num < 2 ^ 31 /\ found_extent data num (ai_exclude_start x) (ai_exclude_nr x) s.
Proof using H0 Hx.
  intros Hem Hsum Hbig Hsec Heven Hrun Hr. unfold find_free_extent in Hrun.
  apply (reads_then _ _ _ _ _ _ (reads_bug_on x _)) in Hrun. destruct Hrun as (? & Hns & Hrun). apply Z.ltb_ge in Hns.
  cbn zeta in Hrun. apply (reads_then _ _ _ (fun _ => True)) in Hrun; cycle 1.
  { destruct (negb _).
    - eapply reads_bind; [apply reads_lookup_first|]. intros b _. apply reads_find_block_group.
    - eapply reads_bind; [apply reads_gets|]. intros b _. apply reads_find_block_group. }
  destruct Hrun as (bg & _ & Hrun). rewrite u64_id in Hrun by lia.
  destruct (Z.lt_ge_cases (num + empty) (2 ^ 31)) as [Hlt|Hge].
  - destruct (fun A => free_extent_loop_spec fuel v num empty 0 _ _ data A Hem Hlt Heven _ _ (num + empty) false false _ _ _
      ltac:(lia) (fun _ => eq_refl) ltac:(done) Hrun Hr) as [Hh Hfe]; [lia|]. split; [done|]. split; [lia|done].
  - assert (empty = 0) as -> by auto. rewrite Z.add_0_r in *.
    by destruct (free_extent_loop_neg fuel v num 0 _ _ data ltac:(lia) Heven _ _ _ _ _ _ _ Hrun).
Qed.
Lemma reserve_found_spec fuel v num empty hint_byte data s x' :
  0 <= empty -> num + empty < 2 ^ 32 -> (2 ^ 31 <= num + empty -> empty = 0) ->
  0 < ae_sectorsize env -> Z.even (ae_stripesize env) = true ->
  reserve_found env fuel v num empty hint_byte data x = Some (s, x') ->
  0 < num < 2 ^ 31 /\ found_extent data num (ai_exclude_start x) (ai_exclude_nr x) s /\
  exists h w' m, x' = put_free w' (put_hint h x) /\ m <= s + num /\
    ((io_fuel (ai_free_space_cache x) <= iw_mallocs (ai_free_space_cache x))%nat -> m = s + num) /\
    alloc_ok x' (fun i => if (s <=? i) && (i <? m) then Z.ldiff (Ff i) EXTENT_DIRTY else Ff i) Fp Fi Fg.
Proof using H0 Hx.
  intros Hem Hsum Hbig Hsec Heven Hrun. unfold reserve_found in Hrun.
  apply (reads_then _ _ _ _ _ _ (reads_bug_on x _)) in Hrun. destruct Hrun as (? & Hns & Hrun). apply Z.ltb_ge in Hns.
  apply (reads_then _ _ _ _ _ _ (reads_gets x _)) in Hrun. destruct Hrun as (es & -> & Hrun).
  apply (reads_then _ _ _ _ _ _ (reads_gets x _)) in Hrun. destruct Hrun as (en & -> & Hrun). unfold bind at 1 in Hrun.
  destruct (find_free_extent env fuel v num empty 0 hint_byte _ _ data x) as [[[r s0] x1]|] eqn:E; [|done]. cbn [fst snd] in Hrun.
  destruct (Z.eqb_spec r 0) as [->|]; [|done].
  destruct (found_extent_of _ _ _ _ _ _ _ _ _ Hem Hsum Hbig Hsec Heven E eq_refl) as ([h ->] & Hn31 & Hfound).
  pose proof Hfound as ((p & g & Hg & _ & _ & Hlo & Hhi) & (Hs0 & Hfree) & _).
  destruct (ao_cached _ _ _ _ _ Hx p g Hg) as (_ & ? & ? & ?).
  destruct (io_clear_run (ai_free_space_cache x) Ff s0 (s0 + num - 1) EXTENT_DIRTY (ao_free _ _ _ _ _ Hx))
    as (rc & w' & m & Hclr & Hm & Hmem & Hflags); [lia|unfold U64_MAX; lia|bits|].
  cbn [negb bug_on] in Hrun. unfold bind, ret, on_free, zoom in Hrun. cbn [ai_free_space_cache put_hint] in Hrun.
  rewrite u64_id, Hclr in Hrun by lia. injection Hrun as <- <-.
  split; [lia|]. split; [exact Hfound|]. exists h, w', m. split; [reflexivity|]. split; [lia|].
  split; [intros Hmm; rewrite (Hmem Hmm); lia|].
  split; [exact Hflags|apply Hx|apply Hx|apply Hx| |apply Hx].
  intros i Hi. destruct (_ && _); [|by apply (ao_high _ _ _ _ _ Hx)].
  apply land_ldiff.
Qed.
End State.
(** ** The extent tree's own blocks

    What is pinned, or not free, is never handed out, and stays so: the
    allocator keeps its side of the contract that [PinnedExtents] states for any
    tree, for the extent tree itself. *)

Definition kept x (a : Z) : Prop :=
  exists Ff Fp Fi Fg, alloc_ok x Ff Fp Fi Fg /\ (Z.land (Fp a) EXTENT_DIRTY <> 0 \/ Z.land (Ff a) EXTENT_DIRTY = 0).

Section Root.
Context (fuel : nat) (held : Z -> buf) (Hsec : 0 < ae_sectorsize env) (Heven : Z.even (ae_stripesize env) = true).

Lemma alloc_extent_root_spec size key level hint v x Ff Fp Fi Fg r x' :
  alloc_ok x Ff Fp Fi Fg -> alloc_extent_root env fuel held size key level hint v x = Some (r, x') ->
  exists s Ff' Fi', r = inr (s, held s) /\ alloc_ok x' Ff' Fp Fi' Fg /\
    (forall i, Z.land (Ff' i) EXTENT_DIRTY <> 0 -> Z.land (Ff i) EXTENT_DIRTY <> 0) /\
    0 < u32 size < 2 ^ 31 /\
    found_extent x Ff Fp Fi (alloc_data_bits env x false false) (u32 size) (ai_exclude_start x) (ai_exclude_nr x) s.
Proof using H H0 Hsec Heven.
  intros Hx Hrun. unfold alloc_extent_root in Hrun. cbn zeta in Hrun.
  apply (reads_then _ _ _ _ _ _ (reads_gets x _)) in Hrun. destruct Hrun as (y & -> & Hrun). unfold bind at 1 in Hrun.
  pose proof (u32_range size) as Hsz.
  destruct (reserve_found env fuel v (u32 size) 0 hint _ x) as [[s x1]|] eqn:E; [|done].
  destruct (reserve_found_spec x Ff Fp Fi Fg Hx fuel v (u32 size) 0 hint _ _ _ ltac:(lia) ltac:(lia) ltac:(done) Hsec Heven E)
    as (Hn & Hfound & h & w' & m & -> & Hm & _ & Hx1).
  pose proof Hfound as ((p & g & Hg & _ & _ & Hlo & Hhi) & (Hs0 & Hfree) & _).
  destruct (ao_cached _ _ _ _ _ Hx p g Hg) as (_ & ? & ? & ?).
  unfold new_op, on_ins, zoom, bind, gets, modify, ret in Hrun. cbn [ai_extent_ins put_ops] in Hrun.
  rewrite (u64_id (s + u32 size - 1)) in Hrun by lia.
  destruct (io_set_run _ Fi s (s + u32 size - 1) EXTENT_LOCKED (ao_ins _ _ _ _ _ Hx1)) as (r1 & w1 & Fi1 & Hr1 & Hf1);
    [lia|unfold U64_MAX; lia|split; [vm_compute; discriminate|vm_compute; reflexivity]|]. rewrite Hr1 in Hrun.
  cbn [ai_extent_ins put_ins] in Hrun.
  destruct (io_set_private_run w1 Fi1 s (ai_next (put_free w' (put_hint h x))) Hf1) as (r2 & w2 & Hr2 & Hf2); [unfold U64_MAX; lia|].
  rewrite Hr2 in Hrun. injection Hrun as <- <-.
  eexists s, _, Fi1. split; [reflexivity|]. split; [split; try apply Hx1; exact Hf2|]. split; [|by split].
  intros i. simpl. destruct (_ && _); [|done]. intros Hne. by rewrite land_ldiff in Hne.
Qed.

Definition extent_root_pinned : @PinnedExtents (alloc_info T) (extent_root_tree env fuel held).
Proof using H H0 Hsec Heven.
  refine (@Build_PinnedExtents _ (extent_root_tree env fuel held) kept _ _ _ _ _ _ _).
  all: unfold keeps_pinned; cbn [alloc_free_block free_extent lookup_extent_info inc_ref dec_ref set_block_flags extent_root_tree].
  all: try discriminate.
  - intros size key level hint v x b d x' Hrun (Ff & Fp & Fi & Fg & Hx & Ha).
    destruct (alloc_extent_root_spec _ _ _ _ _ _ _ _ _ _ _ _ Hx Hrun) as (s & Ff' & Fi' & Hr & _ & _ & Hn & Hf).
    injection Hr as -> _.
    destruct Hf as (_ & (_ & Hfree) & Hus & _). destruct Ha as [Hp|Hnf]; [apply Hp, Hus; lia|].
    apply (Hfree s); [lia|done].
  - intros size key level hint v x a y x' Hrun (Ff & Fp & Fi & Fg & Hx & Ha).
    destruct (alloc_extent_root_spec _ _ _ _ _ _ _ _ _ _ _ _ Hx Hrun) as (s & Ff' & Fi' & -> & Hx' & Hsub & _ & _).
    exists Ff', Fp, Fi', Fg. split; [done|]. destruct Ha as [Hp|Hnf]; [by left|right].
    destruct (Z.eq_dec (Z.land (Ff' a) EXTENT_DIRTY) 0); [done|]. by destruct (Hsub a).
  - intros b n o f v x a y x' Hrun (Ff & Fp & Fi & Fg & Hx & Ha). exists Ff, Fp, Fi, Fg. split; [|done].
    unfold free_extent_root, new_op, on_del, zoom, bind, gets, modify, bug_on in Hrun. destruct (_ <? _); [done|].
    unfold ret in Hrun.
    cbn [ai_pending_del put_ops] in Hrun. destruct (io_set _ _ _ (ai_pending_del x)) as [[r1 w1]|]; [|done]. cbn [ai_pending_del put_del] in Hrun.
    destruct (set_state_private _ _ w1) as [[r2 w2]|]; [|done]. injection Hrun as <- <-. split; apply Hx.
Defined.
End Root.
End Spec.

(** ** The allocator finds room: the searches always end, and succeed when some
    group of the type has a free range that is long enough. *)

Section Run.
Context {T : Type} `{RbTreeLaws T} (env : alloc_env).
Implicit Types (w : io_world T) (x : alloc_info T) (F : Z -> Z) (L : list seg).

(** ** The states behind the flags *)

Lemma find_loop_state fuel n start bits w L s e w' :
  io_ok w [] L -> find_first_extent_bit_loop fuel n start bits w = Some (Some (s, e), w') ->
  exists q, q ∈ L.*2 /\ es_start q = s /\ es_end q = e.
Proof using H H0.
  intros Hok. revert n. induction fuel as [|fuel IH]; intros n; [done|]. cbn [find_first_extent_bit_loop].
  unfold bind, es_get, io_next, deref. destruct (iw_heap w !! n) as [q|] eqn:Hq; [|done].
  destruct (_ && _).
  - intros [= <- <- <-]. exists q. split; [|done]. destruct (io_heap _ _ _ Hok) as [Hnd Hh]. simpl in Hh.
    rewrite Hh in Hq. apply elem_of_list_to_map_2 in Hq. apply list_elem_of_fmap. by exists (n, q).
  - destruct (next_cache_extent _ _) as [[m|]|]; [apply IH|done|done].
Qed.

Lemma io_find_state start bits w L s e w' :
  io_ok w [] L -> io_find start bits w = Some (Some (s, e), w') -> exists q, q ∈ L.*2 /\ es_start q = s /\ es_end q = e.
Proof using H H0.
  intros Hok. unfold io_find, find_first_extent_bit, bind, io_search, deref.
  destruct (search_cache_extent _ _ _) as [[q|]|]; [by apply find_loop_state|done|done].
Qed.

(** The states of a sequence, by their place in it. *)
Lemma segs_before l1 e l2 e1 : segs_ok 0 (l1 ++ e :: l2) -> e1 ∈ l1 -> es_end e1 < es_start e.
Proof using Type.
  intros Hok Hin. apply segs_ok_app in Hok as [H1 (_ & Hlo & _)].
  apply list_elem_of_split in Hin as (l3 & l4 & ->). apply segs_ok_app in H1 as [_ (_ & _ & H4)].
  rewrite segs_end_app in Hlo. simpl in Hlo. pose proof (segs_end_ge _ _ H4). lia.
Qed.

Lemma segs_after l1 e l2 e2 : segs_ok 0 (l1 ++ e :: l2) -> e2 ∈ l2 -> es_end e < es_start e2.
Proof using Type.
  intros Hok Hin. apply segs_ok_app in Hok as [_ (_ & _ & H2)]. pose proof (segs_ok_elem _ _ _ H2 Hin). lia.
Qed.

Lemma flag_of_state l e i : segs_ok 0 l -> e ∈ l -> es_start e <= i <= es_end e -> flag_of l i = es_state e.
Proof using Type.
  intros Hok Hin Hi. apply list_elem_of_split in Hin as (l1 & l2 & ->). apply segs_ok_app in Hok as [H1 (He & Hlo & H2)].
  unfold flag_of. rewrite (seg_at_cons_app 0) by (apply segs_ok_app; done).
  rewrite (proj2 (Z.ltb_ge _ _)), (proj2 (Z.leb_le _ _)) by lia. done.
Qed.

(** What comes before [last] is not longer than what comes before a state that
    does not. *)
Lemma prefix_length_le {A} (l l1 l2 m1 : list A) q m2 (last : Z) (f : A -> Z) :
  l = l1 ++ l2 -> l = m1 ++ q :: m2 -> (forall e, e ∈ l1 -> f e < last) -> last <= f q -> (length l1 <= length m1)%nat.
Proof using Type.
  intros Hl Hm Hl1 Hq. destruct (le_lt_dec (length l1) (length m1)) as [|Hgt]; [done|exfalso].
  assert (Hin : q ∈ l1); [|specialize (Hl1 q Hin); lia].
  assert (Hlk : (l1 ++ l2) !! length m1 = Some q) by (rewrite <- Hl, Hm; by rewrite list_lookup_middle).
  rewrite lookup_app_l in Hlk by done. by apply list_elem_of_lookup_2 in Hlk.
Qed.

(** A query splits the sequence at the state it finds. *)
Lemma io_find_split w L start bits :
  io_ok w [] L -> 0 <= start < U64_MAX -> 0 <= bits < 2 ^ 31 ->
  (io_find start bits w = Some (None, w) /\ forall e, e ∈ L.*2 -> start <= es_end e -> Z.land (es_state e) bits = 0) \/
  exists l1 e l2, L.*2 = l1 ++ e :: l2 /\ io_find start bits w = Some (Some (es_start e, es_end e), w) /\
    start <= es_end e /\ Z.land (es_state e) bits <> 0 /\
    forall e1, e1 ∈ l1 -> start <= es_end e1 -> Z.land (es_state e1) bits = 0.
Proof using H H0.
  intros Hok Hs Hb. pose proof (io_segs _ _ _ Hok) as Hsegs.
  destruct (io_find_run w (flag_of L.*2) start bits) as (r & Hr & Hres); [by exists L|done|done|]. destruct r as [[s e]|].
  - right. destruct Hres as (Hse & Hle & _ & _ & Hin & Hout).
    destruct (io_find_state _ _ _ _ _ _ _ Hok Hr) as (q & Hq & <- & <-).
    pose proof Hq as Hq'. apply list_elem_of_split in Hq' as (l1 & l2 & Hl). exists l1, q, l2.
    split; [done|]. split; [done|]. split; [done|]. split.
    + rewrite <- (flag_of_state L.*2 q (es_start q)) by (done || lia). apply Hin. lia.
    + intros e1 He1 Hle1. rewrite Hl in Hsegs. pose proof (segs_before _ _ _ _ Hsegs He1).
      assert (He1' : e1 ∈ L.*2) by (rewrite Hl; set_solver).
      rewrite <- Hl in Hsegs. destruct (segs_ok_elem 0 _ e1 Hsegs He1') as [(_ & _ & _ & ? & _) _].
      rewrite <- (flag_of_state L.*2 e1 (es_end e1)) by (done || lia). apply Hout. lia.
  - left. split; [done|]. intros e He Hle. destruct (segs_ok_elem 0 _ e Hsegs He) as [(_ & _ & _ & ? & _) _].
    rewrite <- (flag_of_state L.*2 e (es_end e)) by (done || lia). by apply Hres.
Qed.
(** ** Free runs *)

Ltac bits := split; [vm_compute; discriminate|vm_compute; reflexivity].

(** From [last] on, the group has a free state with room for [num] bytes. *)
Definition fits (l : list extent_state) (g : block_group) (last num : Z) : Prop :=
  exists e, e ∈ l /\ Z.land (es_state e) EXTENT_DIRTY <> 0 /\
    Z.max last (es_start e) + num <= Z.min (es_end e + 1) (bg_objectid g + bg_offset g).

Lemma zoom_run {A} x get put (c : act (io_world T) A) r :
  put (get x) x = x -> c (get x) = Some (r, get x) -> zoom get put c x = Some (r, x).
Proof using Type. intros Hp Hc. unfold zoom. by rewrite Hc, Hp. Qed.

Lemma free_run_run x Lf g num fuel :
  io_ok (ai_free_space_cache x) [] Lf -> (forall e, e ∈ Lf.*2 -> Z.land (es_state e) EXTENT_DIRTY <> 0 -> es_end e < 2 ^ 63) ->
  bg_end g = bg_objectid g + bg_offset g -> 0 < num < 2 ^ 31 ->
  forall l1 l2 last, Lf.*2 = l1 ++ l2 -> (forall e, e ∈ l1 -> es_end e < last) -> 0 <= last < U64_MAX -> (length l2 < fuel)%nat ->
  exists r, free_run_loop fuel g last num x = Some (r, x) /\ (fits Lf.*2 g last num -> r <> None).
Proof using H H0.
  intros Hok Hhigh Hend Hn. pose proof (io_segs _ _ _ Hok) as Hsegs.
  induction fuel as [|fuel IH]; intros l1 l2 last Hl Hl1 Hlast Hf; [lia|]. cbn [free_run_loop].
  destruct (io_find_split _ Lf last EXTENT_DIRTY Hok Hlast ltac:(bits)) as [[Hr Hnone]|(m1 & q & m2 & Hm & Hr & Hle & Hbit & Hm1)].
  { rewrite (bind_some _ _ x None x) by (by apply zoom_run; [apply put_free_same|]). exists None. split; [done|].
    intros (e & He & Hd & Hfit) _. apply Hd, Hnone; [done|lia]. }
  rewrite (bind_some _ _ x (Some (es_start q, es_end q)) x) by (by apply zoom_run; [apply put_free_same|]). cbn zeta.
  assert (Hq : q ∈ Lf.*2) by (rewrite Hm; set_solver).
  destruct (segs_ok_elem 0 _ q Hsegs Hq) as [(_ & _ & _ & Hq0 & _) _]. pose proof (Hhigh q Hq Hbit) as Hq63.
  rewrite (u64_id (es_end q + 1)), (u64_id (es_end q + 1 - _)), (u64_id num), (u64_id (_ + num)), Hend by lia.
  assert (Hsplit : forall e, e ∈ Lf.*2 -> Z.land (es_state e) EXTENT_DIRTY <> 0 -> last <= es_end e -> e = q \/ es_end q < es_start e).
  { intros e He Hd Hle'. rewrite Hm in He. apply elem_of_app in He as [He|He]; [by destruct (Hd (Hm1 e He Hle'))|].
    apply elem_of_cons in He as [->|He]; [by left|]. right. rewrite Hm in Hsegs. by apply (segs_after m1 q m2). }
  destruct (Z.ltb_spec (es_end q + 1 - Z.max last (es_start q)) num) as [Hlt|Hge].
  - assert (Hm2 : (length m2 < length l2)%nat).
    { assert (Hlen : (length (m1 ++ q :: m2) = length (l1 ++ l2))%nat) by (by rewrite <- Hm, Hl).
      rewrite !length_app in Hlen. simpl in Hlen. enough (length l1 <= length m1)%nat by lia.
      by apply (prefix_length_le Lf.*2 l1 l2 m1 q m2 last es_end). }
    destruct (IH (m1 ++ [q]) m2 (es_end q + 1)) as (r & Hrun & Hfit).
    + by rewrite <- (assoc_L (++)).
    + intros e He. apply elem_of_app in He as [He|He%list_elem_of_singleton]; [|subst; lia].
      rewrite Hm in Hsegs. pose proof (segs_before m1 q m2 e Hsegs He). lia.
    + unfold U64_MAX. lia.
    + lia.
    + exists r. split; [exact Hrun|]. intros (e & He & Hd & Hfe). apply Hfit. exists e. split; [done|]. split; [done|].
      destruct (Hsplit e He Hd) as [->|Hlt']; lia.
  - destruct (Z.ltb_spec (bg_objectid g + bg_offset g) (Z.max last (es_start q) + num)); [|by eexists].
    exists None. split; [done|]. intros (e & He & Hd & Hfe) _. destruct (Hsplit e He Hd) as [->|Hlt']; lia.
Qed.
(** ** Block groups *)

(** The states of the cache of block groups, in order, and their groups. *)
Record groups_at x Lg : Prop := {
  ga_ok : io_ok (ai_block_group_cache x) [] Lg;
  ga_groups : forall e, e ∈ Lg.*2 -> Z.land (es_state e) BLOCK_GROUP_ANY <> 0 /\
    exists g, ai_groups x !! es_private e = Some g /\ bg_cached g = true /\
      bg_objectid g = es_start e /\ bg_offset g = es_end e + 1 - es_start e /\ es_end e < 2 ^ 63 - 1;
}.

Lemma private_distinct x l : 
  (forall e, e ∈ l -> exists g, ai_groups x !! es_private e = Some g /\ bg_objectid g = es_start e) -> segs_ok 0 l ->
  (length l <= size (ai_groups x))%nat.
Proof using Type.
  intros Hg Hok. assert (Hnd : NoDup (es_private <$> l)).
  { clear env. revert Hok Hg. generalize 0. induction l as [|e l IH]; intros lo Hok Hg; [constructor|]. destruct Hok as (He & _ & Hl).
    constructor; [|apply (IH _ Hl); intros e' He'; apply Hg; by right].
    intros Hin. apply list_elem_of_fmap in Hin as (e' & Heq & He').
    destruct (Hg e ltac:(by left)) as (g & Hg1 & Hs1). destruct (Hg e' ltac:(by right)) as (g' & Hg2 & Hs2).
    rewrite <- Heq, Hg1 in Hg2. injection Hg2 as <-. pose proof (segs_ok_elem _ _ _ Hl He'). destruct He as (_ & _ & _ & ? & _). lia. }
  rewrite <- (length_fmap es_private l), <- (size_list_to_set (C := gset Z)), <- (size_dom (D := gset Z)) by done.
  apply subseteq_size. intros p Hp. apply elem_of_list_to_set, list_elem_of_fmap in Hp as (e & -> & He).
  destruct (Hg e He) as (g & Hg1 & _). apply elem_of_dom. by exists g.
Qed.

Section Groups.
Context x Lg (Hg : groups_at x Lg).

Lemma groups_size : (length Lg <= size (ai_groups x))%nat.
Proof using Hg.
  rewrite <- (length_fmap snd Lg). apply private_distinct; [|apply (io_segs _ _ _ (ga_ok _ _ Hg))].
  intros e He. destruct (ga_groups _ _ Hg e He) as (_ & g & Hlk & _ & Hs & _). by exists g.
Qed.

(** The group that a query finds: the first state that ends at [start] or behind
    and has one of the bits. *)
Lemma group_from_run start bits :
  0 <= start < U64_MAX -> 0 <= bits < 2 ^ 31 ->
  (group_from start bits x = Some (None, x) /\ forall e, e ∈ Lg.*2 -> start <= es_end e -> Z.land (es_state e) bits = 0) \/
  exists l1 e l2, Lg.*2 = l1 ++ e :: l2 /\ group_from start bits x = Some (Some (es_private e), x) /\ start <= es_end e /\
    forall e1, e1 ∈ l1 -> start <= es_end e1 -> Z.land (es_state e1) bits = 0.
Proof using H0 Hg.
  intros Hs Hb. pose proof (ga_ok _ _ Hg) as Hok. pose proof (io_segs _ _ _ Hok) as Hsegs.
  destruct (io_find_split _ Lg start bits Hok Hs Hb) as [[Hr Hnone]|(m1 & q & m2 & Hm & Hr & Hle & _ & Hm1)]; [left|right].
  - split; [|done]. unfold group_from. by rewrite (bind_some _ _ x None x) by (by apply zoom_run; [apply put_bgc_same|]).
  - exists m1, q, m2. split; [done|]. split; [|done]. unfold group_from.
    rewrite (bind_some _ _ x (Some (es_start q, es_end q)) x) by (by apply zoom_run; [apply put_bgc_same|]).
    assert (Hq : q ∈ Lg.*2) by (rewrite Hm; set_solver).
    destruct (segs_ok_elem 0 _ q Hsegs Hq) as [(_ & _ & _ & Hq0 & Hqm) _].
    rewrite (bind_some _ _ x (0, Some (es_private q)) x); [done|]. apply zoom_run; [apply put_bgc_same|].
    rewrite (get_state_private_spec _ [] Lg (es_start q) Hok) by lia.
    assert (state_at Lg.*2 (es_start q) = Some q) as ->; [|done]. unfold state_at.
    rewrite Hm in Hsegs |- *. rewrite (seg_at_cons_app 0) by done. apply segs_ok_app in Hsegs as [_ (_ & Hlo & _)].
    rewrite (proj2 (Z.ltb_ge _ _)), (proj2 (Z.leb_le _ _)) by lia. by rewrite Z.eqb_refl.
Qed.

Lemma group_get e : e ∈ Lg.*2 -> exists g, ai_groups x !! es_private e = Some g /\ bg_cached g = true /\
  bg_objectid g = es_start e /\ bg_end g = es_end e + 1 /\ bg_objectid g + bg_offset g = es_end e + 1 /\ 0 <= es_start e <= es_end e /\ es_end e < 2 ^ 63 - 1.
Proof using H0 Hg.
  intros He. destruct (ga_groups _ _ Hg e He) as (_ & g & Hlk & Hc & Hs & Ho & Hh). exists g.
  destruct (segs_ok_elem 0 _ e (io_segs _ _ _ (ga_ok _ _ Hg)) He) as [(_ & _ & _ & ? & _) _].
  split_and!; try done; unfold bg_end; rewrite ?u64_id; lia.
Qed.

Lemma bg_get_run p g : ai_groups x !! p = Some g -> bg_get p x = Some (g, x).
Proof using Type. intros Hp. unfold bg_get, deref. by rewrite Hp. Qed.

(** The first group that ends behind an address. *)
Lemma lookup_first_run bytenr : 0 <= bytenr < U64_MAX ->
  let start := Z.max bytenr (BTRFS_SUPER_INFO_OFFSET + BTRFS_SUPER_INFO_SIZE) in
  (btrfs_lookup_first_block_group bytenr x = Some (None, x) /\ forall e, e ∈ Lg.*2 -> es_end e < start) \/
  exists l1 e l2, Lg.*2 = l1 ++ e :: l2 /\ btrfs_lookup_first_block_group bytenr x = Some (Some (es_private e), x) /\
    start <= es_end e /\ forall e1, e1 ∈ l1 -> es_end e1 < start.
Proof using H0 Hg.
  intros Hb start. unfold btrfs_lookup_first_block_group. fold start.
  assert (Hany : forall e, e ∈ Lg.*2 -> Z.land (es_state e) BLOCK_GROUP_ANY <> 0) by (intros e He; by apply (ga_groups _ _ Hg)).
  assert (Hst : 0 <= start < U64_MAX).
  { unfold start. assert (BTRFS_SUPER_INFO_OFFSET + BTRFS_SUPER_INFO_SIZE < U64_MAX) by reflexivity.
    assert (0 <= BTRFS_SUPER_INFO_OFFSET + BTRFS_SUPER_INFO_SIZE) by (by vm_compute). lia. }
  destruct (group_from_run start BLOCK_GROUP_ANY Hst ltac:(bits)) as [[Hr Hnone]|(l1 & e & l2 & Hl & Hr & Hle & Hl1)]; [left|right].
  - split; [done|]. intros e He. destruct (Z.lt_ge_cases (es_end e) start) as [|Hge]; [done|]. by destruct (Hany e He (Hnone e He Hge)).
  - exists l1, e, l2. split; [done|]. split; [done|]. split; [done|]. intros e1 He1.
    destruct (Z.lt_ge_cases (es_end e1) start) as [|Hge]; [done|]. destruct (Hany e1); [rewrite Hl; set_solver|by apply Hl1].
Qed.

Lemma group_lookup_run bytenr : 0 <= bytenr < U64_MAX -> exists r, btrfs_lookup_block_group bytenr x = Some (r, x) /\
  match r with Some p => exists e, e ∈ Lg.*2 /\ p = es_private e | None => True end.
Proof using H0 Hg.
  intros Hb. unfold btrfs_lookup_block_group.
  destruct (group_from_run bytenr BLOCK_GROUP_ANY Hb ltac:(bits)) as [[Hr _]|(l1 & e & l2 & Hl & Hr & _)].
  - rewrite (bind_some _ _ _ _ _ Hr). by exists None.
  - rewrite (bind_some _ _ _ _ _ Hr). destruct (group_get e) as (g & Hlk & _); [rewrite Hl; set_solver|].
    rewrite (bind_some _ _ _ _ _ (bg_get_run _ _ Hlk)). eexists. split; [reflexivity|]. destruct (_ && _); [|done].
    exists e. split; [rewrite Hl; set_solver|done].
Qed.

(** The loop of [btrfs_find_block_group] ends. *)
Lemma find_group_loop_run fuel bit data factor full : 0 <= bit < 2 ^ 31 ->
  forall l1 l2 last, Lg.*2 = l1 ++ l2 -> (forall e, e ∈ l1 -> es_end e < last) -> 0 <= last < U64_MAX -> (length l2 < fuel)%nat ->
  exists r, find_group_loop fuel last bit data factor full x = Some (r, x) /\
    match r with Some p => exists e, e ∈ Lg.*2 /\ p = es_private e | None => True end.
Proof using H0 Hg.
  intros Hb. induction fuel as [|fuel IH]; intros l1 l2 last Hl Hl1 Hlast Hf; [lia|]. cbn [find_group_loop].
  destruct (group_from_run last bit Hlast Hb) as [[Hr _]|(m1 & q & m2 & Hm & Hr & Hle & Hm1)]; rewrite (bind_some _ _ _ _ _ Hr);
    [by exists None|].
  assert (Hq : q ∈ Lg.*2) by (rewrite Hm; set_solver). destruct (group_get q Hq) as (g & Hlk & _ & Hgs & Hge & _ & Hgb).
  rewrite (bind_some _ _ _ _ _ (bg_get_run _ _ Hlk)). cbn zeta. destruct (group_has_room _ _ _).
  { exists (Some (es_private q)). split; [done|]. by exists q. }
  rewrite Hge. apply (IH (m1 ++ [q]) m2).
  - by rewrite <- (assoc_L (++)).
  - intros e He. apply elem_of_app in He as [He|He%list_elem_of_singleton]; [|subst; lia].
    pose proof (io_segs _ _ _ (ga_ok _ _ Hg)) as Hsegs. rewrite Hm in Hsegs. pose proof (segs_before m1 q m2 e Hsegs He). lia.
  - unfold U64_MAX. lia.
  - assert (Hlen : (length (m1 ++ q :: m2) = length (l1 ++ l2))%nat) by (by rewrite <- Hm, Hl).
    rewrite !length_app in Hlen. simpl in Hlen. enough (length l1 <= length m1)%nat by lia.
    by apply (prefix_length_le Lg.*2 l1 l2 m1 q m2 last es_end).
Qed.
(** A group of the cache. *)
Definition known (o : option Z) : Prop := match o with Some p => exists e, e ∈ Lg.*2 /\ p = es_private e | None => True end.

Lemma state_bits_range data : 0 <= block_group_state_bits data < 2 ^ 31.
Proof using Type. unfold block_group_state_bits. repeat destruct (has_flag _ _); bits. Qed.

Lemma find_group_from_run last search_start data factor :
  0 <= last < U64_MAX -> 0 <= search_start < U64_MAX ->
  exists r, find_group_from last search_start (block_group_state_bits data) data factor x = Some (r, x) /\ known r.
Proof using H0 Hg.
  intros Hl Hs. unfold find_group_from. rewrite (bind_some _ _ x _ x) by done.
  pose proof groups_size as Hsz. rewrite <- (length_fmap snd) in Hsz. cbv beta.
  destruct (find_group_loop_run (size (ai_groups x) + 1) (block_group_state_bits data) data factor false (state_bits_range data)
    [] Lg.*2 last eq_refl ltac:(set_solver) Hl ltac:(lia)) as (r & Hr & Hk). rewrite (bind_some _ _ _ _ _ Hr).
  destruct r as [p|]; [by exists (Some p)|].
  by apply (find_group_loop_run _ _ data factor true (state_bits_range data) [] Lg.*2 search_start eq_refl); [set_solver|done|lia].
Qed.

Lemma find_block_group_run hint search_start data :
  known hint -> 0 <= search_start < U64_MAX ->
  exists r, btrfs_find_block_group hint search_start data x = Some (r, x) /\ known r.
Proof using H0 Hg.
  intros Hh Hs. unfold btrfs_find_block_group. cbn zeta.
  assert (Hfirst : exists r, (if negb (search_start =? 0) then
      s <- btrfs_lookup_block_group search_start ;;
      match s with
      | None => ret None
      | Some p => g <- bg_get p ;; ret (if group_has_room g data (div_factor (bg_offset g) 10) then Some p else None)
      end else ret None)%act x = Some (r, x) /\ known r).
  { destruct (negb _); [|by exists None]. destruct (group_lookup_run search_start Hs) as (s & Hr & Hk). rewrite (bind_some _ _ _ _ _ Hr).
    destruct s as [p|]; [|by exists None]. pose proof Hk as (e & He & ->). destruct (group_get e He) as (g & Hlk & _).
    rewrite (bind_some _ _ _ _ _ (bg_get_run _ _ Hlk)). eexists. split; [reflexivity|]. by destruct (group_has_room _ _ _). }
  destruct Hfirst as (r & Hr & Hk). rewrite (bind_some _ _ _ _ _ Hr). destruct r as [p|]; [by exists (Some p)|].
  destruct hint as [p|]; [|by apply find_group_from_run].
  destruct Hh as (e & He & ->). destruct (group_get e He) as (g & Hlk & _ & Hgs & Hge & _ & Hb).
  rewrite (bind_some _ _ x (Some (es_private e, g)) x) by (by rewrite (bind_some _ _ _ _ _ (bg_get_run _ _ Hlk))).
  destruct (group_has_room _ _ _); [exists (Some (es_private e)); split; [done|by exists e]|].
  apply find_group_from_run; [|done]. destruct (_ && _); unfold U64_MAX in *; lia.
Qed.

(** ** Searching the groups *)

Section Search.
Context (Lf : list seg) (v : tree_view) (search_start num data : Z).
Context (Hfree : io_ok (ai_free_space_cache x) [] Lf).
Context (Hhigh : forall e, e ∈ Lf.*2 -> Z.land (es_state e) EXTENT_DIRTY <> 0 -> es_end e < 2 ^ 63).
Context (Hss : 0 <= search_start < U64_MAX) (Hnum : 0 < num < 2 ^ 31).

(** A group with room: of the type, writable, with a free range that fits, and
    not all in front of the bytes that [btrfs_lookup_first_block_group] skips. *)
Definition has_space (e : extent_state) : Prop :=
  e ∈ Lg.*2 /\ BTRFS_SUPER_INFO_OFFSET + BTRFS_SUPER_INFO_SIZE <= es_end e /\
  exists g, ai_groups x !! es_private e = Some g /\ bg_ro g = false /\ block_group_bits g data = true /\
    fits Lf.*2 g (Z.max search_start (bg_objectid g)) num.

Definition succeeds (r : option ((Z * option Z * Z) * alloc_info T)) : Prop := exists p s, r = Some ((0, Some p, s), x).

(** One round: it ends the search, or goes on to the next group, which it must
    when the group has no space. *)
Lemma search_step fuel e last wrapped : e ∈ Lg.*2 ->
  succeeds (search_groups env (S fuel) v (es_private e) last search_start num data wrapped x) \/
  ~ has_space e /\
  forall next, btrfs_lookup_first_block_group (es_end e + 1) x = Some (next, x) ->
    search_groups env (S fuel) v (es_private e) last search_start num data wrapped x =
    match next with
    | Some q => search_groups env fuel v q (es_end e + 1) search_start num data wrapped
    | None =>
        if wrapped then
          (cache <- btrfs_lookup_block_group search_start ;; bug_on (bool_decide (cache = None)) ;;;
           ret (- ENOSPC, Some (es_private e), es_end e + 1))%act
        else
          (next <- btrfs_lookup_first_block_group search_start ;;
           match next with
           | Some q => search_groups env fuel v q search_start search_start num data true
           | None => cache <- btrfs_lookup_block_group search_start ;; bug_on (bool_decide (cache = None)) ;;;
               ret (- ENOSPC, Some (es_private e), search_start)
           end)%act
    end x.
Proof using H0 Hg Hfree Hhigh Hss Hnum.
  intros He. destruct (group_get e He) as (g & Hlk & Hc & Hgs & Hge & Hgo & Hb). cbn [search_groups]. cbn zeta.
  assert (Hcb : cache_block_group env v (es_private e) x = Some (0, x)).
  { unfold cache_block_group. rewrite (bind_some _ _ _ _ _ (bg_get_run _ _ Hlk)). by rewrite Hc. }
  rewrite (bind_some _ _ _ _ _ Hcb). cbn [Z.eqb negb]. rewrite (bind_some _ _ _ _ _ (bg_get_run _ _ Hlk)).
  assert (Hsz : size (iw_heap (ai_free_space_cache x)) = length Lf) by by apply heap_size.
  destruct (free_run_run x Lf g num (io_fuel (ai_free_space_cache x)) Hfree Hhigh ltac:(lia) Hnum [] Lf.*2
    (Z.max search_start (bg_objectid g)) eq_refl ltac:(set_solver) ltac:(unfold U64_MAX in *; lia)
    ltac:(unfold io_fuel; rewrite Hsz, length_fmap; lia)) as (r & Hr & Hfit).
  destruct (bg_ro g || negb (block_group_bits g data)) eqn:Hu.
  - right. rewrite (bind_some _ _ x None x) by done. split.
    + intros (_ & _ & g' & Hlk' & Hro & Hbits & _). rewrite Hlk in Hlk'. injection Hlk' as <-. by rewrite Hro, Hbits in Hu.
    + intros next Hnext. rewrite Hge. rewrite (bind_some _ _ _ _ _ Hnext). by destruct next.
  - rewrite (bind_some _ _ x r x) by (rewrite (bind_some _ _ x _ x) by done; exact Hr). destruct r as [s|].
    + left. exists (es_private e), s. reflexivity.
    + right. split; [|intros next Hnext; rewrite Hge, (bind_some _ _ _ _ _ Hnext); by destruct next].
      intros (_ & _ & g' & Hlk' & _ & _ & Hfits). rewrite Hlk in Hlk'. injection Hlk' as <-. by apply Hfit.
Qed.

(** From a group that does not lie behind one with space, the search succeeds. *)
Lemma search_ahead fuel et : has_space et -> forall last wrapped l1 e l2, Lg.*2 = l1 ++ e :: l2 -> et ∈ e :: l2 -> (length l2 < fuel)%nat ->
  succeeds (search_groups env fuel v (es_private e) last search_start num data wrapped x).
Proof using H0 Hg Hfree Hhigh Hss Hnum.
  intros Het. pose proof (io_segs _ _ _ (ga_ok _ _ Hg)) as Hsegs.
  induction fuel as [|fuel IH]; intros last wrapped l1 e l2 Hl Hin Hf; [lia|].
  assert (He : e ∈ Lg.*2) by (rewrite Hl; set_solver). destruct (group_get e He) as (_ & _ & _ & _ & _ & _ & Hb).
  destruct (search_step fuel e last wrapped He) as [Hok|[Hno Hstep]]; [exact Hok|].
  apply elem_of_cons in Hin as [->|Hin]; [done|]. pose proof Hsegs as Hs'. rewrite Hl in Hs'.
  pose proof (segs_after l1 e l2 et Hs' Hin) as Hbehind. destruct Het as (Hetin & Hlow & _).
  destruct (segs_ok_elem 0 _ et Hsegs Hetin) as [(_ & _ & _ & Hetr & _) _].
  destruct (lookup_first_run (es_end e + 1) ltac:(unfold U64_MAX; lia)) as [[_ Hall]|(m1 & q & m2 & Hm & Hq & Hqe & Hm1)].
  { specialize (Hall et Hetin). lia. }
  rewrite (Hstep _ Hq). apply (IH _ wrapped m1 q m2 Hm).
  - rewrite Hm in Hetin. apply elem_of_app in Hetin as [Hetin|]; [|done]. specialize (Hm1 et Hetin). lia.
  - assert (Hlen : (length (m1 ++ q :: m2) = length (l1 ++ e :: l2))%nat) by (by rewrite <- Hm, Hl).
    rewrite !length_app in Hlen. simpl in Hlen.
    enough (length (l1 ++ [e]) <= length m1)%nat by (rewrite length_app in *; simpl in *; lia).
    apply (prefix_length_le Lg.*2 (l1 ++ [e]) l2 m1 q m2 (es_end e + 1) es_end); [by rewrite <- (assoc_L (++))|done| |lia].
    intros e1 He1. apply elem_of_app in He1 as [He1|He1%list_elem_of_singleton]; [|subst; lia].
    pose proof (segs_before l1 e l2 e1 Hs' He1). lia.
Qed.

Lemma search_around fuel et : has_space et -> forall last l1 e l2, Lg.*2 = l1 ++ e :: l2 -> (length l2 + length Lg + 1 < fuel)%nat ->
  succeeds (search_groups env fuel v (es_private e) last search_start num data false x).
Proof using H0 Hg Hfree Hhigh Hss Hnum.
  intros Het. pose proof (io_segs _ _ _ (ga_ok _ _ Hg)) as Hsegs.
  induction fuel as [|fuel IH]; intros last l1 e l2 Hl Hf; [lia|].
  assert (He : e ∈ Lg.*2) by (rewrite Hl; set_solver). destruct (group_get e He) as (_ & _ & _ & _ & _ & _ & Hb).
  pose proof Hsegs as Hs'. rewrite Hl in Hs'.
  destruct (search_step fuel e last false He) as [Hok|[_ Hstep]]; [exact Hok|].
  assert (Hlg : forall m1 q m2, Lg.*2 = m1 ++ q :: m2 -> (length m2 < length Lg)%nat).
  { intros m1 q m2 Hm. rewrite <- (length_fmap snd Lg), Hm, length_app. simpl. lia. }
  destruct (lookup_first_run (es_end e + 1) ltac:(unfold U64_MAX; lia)) as [[Hn _]|(m1 & q & m2 & Hm & Hq & Hqe & Hm1)].
  - rewrite (Hstep _ Hn). pose proof Het as (Hetin & Hlow & g & Hlk & _ & _ & ef & _ & _ & Hfit).
    destruct (group_get et Hetin) as (g' & Hlk' & _ & Hgs & _ & Hgo & Hbt). rewrite Hlk in Hlk'. injection Hlk' as <-.
    destruct (lookup_first_run search_start Hss) as [[_ Hall]|(m1 & q & m2 & Hm & Hq & Hqe & Hm1)].
    { specialize (Hall et Hetin). lia. }
    rewrite (bind_some _ _ _ _ _ Hq). apply (search_ahead fuel et Het search_start true m1 q m2 Hm); [|specialize (Hlg _ _ _ Hm); lia].
    rewrite Hm in Hetin. apply elem_of_app in Hetin as [Hetin|]; [|done]. specialize (Hm1 et Hetin). lia.
  - rewrite (Hstep _ Hq). apply (IH _ m1 q m2 Hm).
    assert (Hlen : (length (m1 ++ q :: m2) = length (l1 ++ e :: l2))%nat) by (by rewrite <- Hm, Hl).
    rewrite !length_app in Hlen. simpl in Hlen.
    enough (length (l1 ++ [e]) <= length m1)%nat by (rewrite length_app in *; simpl in *; lia).
    apply (prefix_length_le Lg.*2 (l1 ++ [e]) l2 m1 q m2 (es_end e + 1) es_end); [by rewrite <- (assoc_L (++))|done| |lia].
    intros e1 He1. apply elem_of_app in He1 as [He1|He1%list_elem_of_singleton]; [|subst; lia].
    pose proof (segs_before l1 e l2 e1 Hs' He1). lia.
Qed.
End Search.
Lemma stripe_align_0 : stripe_align env 0 = 0.
Proof using Type.
  unfold stripe_align. cbn zeta. rewrite Z.add_0_l. pose proof (u64_range (ae_stripesize env - 1)) as Hm.
  set (m := u64 (ae_stripesize env - 1)) in *. rewrite u64_id by done. apply Z.bits_inj'. intros k Hk.
  rewrite Z.land_spec, Z.bits_0. destruct (Z.lt_ge_cases k 64) as [Hlt|Hge].
  - unfold u64. rewrite Z.mod_pow2_bits_low, Z.lnot_spec by lia. by destruct (Z.testbit m k).
  - assert (Z.testbit m k = false) as ->; [|done]. destruct (Z.eq_dec m 0) as [->|]; [apply Z.bits_0|].
    apply Z.bits_above_log2; [lia|]. apply Z.lt_le_trans with 64; [apply Z.log2_lt_pow2; lia|done].
Qed.

(** ** Reserving an extent *)

Section Reserve.
Context (Lf : list seg) (Fp Fi Fg : Z -> Z) (Hx : alloc_ok x (flag_of Lf.*2) Fp Fi Fg).
Context (Hfree : io_ok (ai_free_space_cache x) [] Lf).

(** No free byte is pinned or belongs to a pending insertion. *)
Definition clean : Prop := forall i, free_byte (flag_of Lf.*2) i -> Z.land (Fp i) EXTENT_DIRTY = 0 /\ Z.land (Fi i) EXTENT_LOCKED = 0.

Lemma free_low e : e ∈ Lf.*2 -> Z.land (es_state e) EXTENT_DIRTY <> 0 -> es_end e < 2 ^ 63.
Proof using Hx Hfree.
  intros He Hd. pose proof (io_segs _ _ _ Hfree) as Hsegs. destruct (segs_ok_elem 0 _ e Hsegs He) as [(_ & _ & _ & ? & _) _].
  destruct (Z.lt_ge_cases (es_end e) (2 ^ 63)) as [|Hge]; [done|exfalso]. apply Hd.
  rewrite <- (flag_of_state Lf.*2 e (es_end e)) by (done || lia). by apply (ao_high _ _ _ _ _ Hx).
Qed.

Lemma find_free_extent_run fuel v num empty hint_byte data et :
  0 < num -> 0 <= empty -> num + empty < 2 ^ 31 -> ae_sectorsize env <= num -> Z.even (ae_stripesize env) = true ->
  0 <= hint_byte < U64_MAX -> known (ai_trans_block_group x) -> ai_exclude_nr x = 0 -> clean ->
  has_space Lf 0 (num + empty) data et -> (0 < fuel)%nat ->
  exists s h, find_free_extent env fuel v num empty 0 hint_byte (ai_exclude_start x) (ai_exclude_nr x) data x =
    Some ((0, s), put_hint h x).
Proof using H0 Hg Hx Hfree.
  intros Hn Hem Hsum Hsec Heven Hhint Hknown Hex Hclean Het Hfuel. unfold find_free_extent. rewrite stripe_align_0.
  rewrite (bind_some _ _ x tt x) by (by rewrite (proj2 (Z.ltb_ge _ _)) by lia). cbn zeta.
  assert (H0r : 0 <= 0 < U64_MAX) by (unfold U64_MAX; lia).
  pose proof Het as (Hetin & Hlow & _).
  assert (Hbg : exists b, (if negb (hint_byte =? 0) then
      b <- btrfs_lookup_first_block_group hint_byte ;;
      btrfs_find_block_group b (match b with Some _ => hint_byte | None => 0 end) data
    else h <- gets ai_trans_block_group ;; btrfs_find_block_group h 0 data)%act x = Some (b, x) /\ known b).
  { destruct (negb _).
    - destruct (lookup_first_run hint_byte Hhint) as [[Hr _]|(l1 & e & l2 & Hl & Hr & _)]; rewrite (bind_some _ _ _ _ _ Hr);
        apply find_block_group_run; try done. exists e. split; [rewrite Hl; set_solver|done].
    - rewrite (bind_some _ _ x _ x) by done. by apply find_block_group_run. }
  destruct Hbg as (b & Hb & Hkb). rewrite (bind_some _ _ x b x) by exact Hb. destruct fuel as [|fuel]; [lia|].
  cbn [free_extent_loop]. cbn zeta. rewrite stripe_align_0, u64_id, s32_id by lia.
  assert (Hbg : exists e, e ∈ Lg.*2 /\ match b with
     | Some p => ret (Some p)
     | None => b <- btrfs_lookup_first_block_group 0 ;;
         match b with Some p => ret (Some p) | None => btrfs_lookup_first_block_group 0 end
     end%act x = Some (Some (es_private e), x)).
  { destruct b as [p|]; [destruct Hkb as (e & He & ->); by exists e|].
    destruct (lookup_first_run 0 H0r) as [[_ Hall]|(l1 & e & l2 & Hl & Hr & _)].
    { specialize (Hall et Hetin). change (Z.max 0 _) with (BTRFS_SUPER_INFO_OFFSET + BTRFS_SUPER_INFO_SIZE) in Hall. lia. }
    exists e. split; [rewrite Hl; set_solver|]. by rewrite (bind_some _ _ _ _ _ Hr). }
  destruct Hbg as (e & He & Hbe). rewrite (bind_some _ _ _ _ _ Hbe). apply list_elem_of_split in He as (l1 & l2 & Hl).
  assert (Hsearch : exists p s, find_search_start env v (Some (es_private e)) 0 (num + empty) data x = Some ((0, Some p, s), x)).
  { unfold find_search_start. rewrite (bind_some _ _ x _ x) by done.
    apply (search_around Lf v 0 (num + empty) data Hfree free_low H0r ltac:(lia) _ et Het 0 l1 e l2 Hl).
    pose proof groups_size as Hsz. assert (length Lg = length (l1 ++ e :: l2)) as Hlen by (by rewrite <- Hl, length_fmap).
    rewrite length_app in Hlen. simpl in Hlen. lia. }
  destruct Hsearch as (p & s & Hs). rewrite (bind_some _ _ _ _ _ Hs). cbn iota.
  destruct (reads_find_search_start env x _ _ _ _ Hx v (Some (es_private e)) 0 (num + empty) data H0r ltac:(lia) _ _ Hs)
    as [_ Hfound]. destruct (Hfound eq_refl) as (p' & Hp & (g & Hlk & Hro & Hbits & Hlo & Hhi) & Hs0 & _ & Hbytes).
  simpl in Hp, Hlo, Hhi, Hs0, Hbytes. injection Hp as <-. destruct (ao_cached _ _ _ _ _ Hx p g Hlk) as (_ & ? & ? & ?).
  cbn [Z.eqb negb].
  rewrite (bind_some _ _ x None x); cycle 1.
  { rewrite (bind_some _ _ x p x) by done. rewrite (bind_some _ _ _ _ _ (bg_get_run _ _ Hlk)). unfold check_range. cbn zeta.
    rewrite (group_end x _ _ _ _ Hx p g Hlk), (u64_id (s + num)), (u64_id (s + num - 1)), (proj2 (Z.ltb_ge _ _)) by lia.
    destruct (io_test_run _ Fi s (s + num - 1) EXTENT_LOCKED (ao_ins _ _ _ _ _ Hx)) as (r & Hr & Hri);
      [lia|unfold U64_MAX; lia|bits|].
    assert (r = 0) as -> by (apply Hri; intros i Hi; apply Hclean, Hbytes; lia).
    rewrite (bind_some _ _ x 0 x) by (by apply zoom_run; [apply put_ins_same|]). cbn [Z.eqb negb].
    destruct (io_test_run _ Fp s (s + num - 1) EXTENT_DIRTY (ao_pinned _ _ _ _ _ Hx)) as (q & Hq & Hqi);
      [lia|unfold U64_MAX; lia|bits|].
    assert (q = 0) as -> by (apply Hqi; intros i Hi; apply Hclean, Hbytes; lia).
    rewrite (bind_some _ _ x 0 x) by (by apply zoom_run; [apply put_pinned_same|]). by rewrite Hex. }
  destruct (negb (has_flag _ _)); [|exists s, (ai_trans_block_group x); rewrite put_hint_same; reflexivity].
  destruct (group_lookup_run s ltac:(unfold U64_MAX; lia)) as (b' & Hb' & _). rewrite bind_assoc, (bind_some _ _ _ _ _ Hb').
  destruct b' as [q|]; [by exists s, (Some q)|]. exists s, (ai_trans_block_group x). by rewrite put_hint_same.
Qed.

Lemma reserve_found_run fuel v num empty hint_byte data et :
  0 < num -> 0 <= empty -> num + empty < 2 ^ 31 -> 0 < ae_sectorsize env <= num -> Z.even (ae_stripesize env) = true ->
  0 <= hint_byte < U64_MAX -> known (ai_trans_block_group x) -> ai_exclude_nr x = 0 -> clean ->
  has_space Lf 0 (num + empty) data et -> (0 < fuel)%nat ->
  exists s x', reserve_found env fuel v num empty hint_byte data x = Some (s, x').
Proof using H0 Hg Hx Hfree.
  intros Hn Hem Hsum Hsec Heven Hhint Hknown Hex Hclean Het Hfuel.
  destruct (find_free_extent_run fuel v num empty hint_byte data et Hn Hem Hsum ltac:(lia) Heven Hhint Hknown Hex Hclean Het Hfuel)
    as (s & h & Hrun). exists s. unfold reserve_found.
  rewrite (bind_some _ _ x tt x) by (by rewrite (proj2 (Z.ltb_ge _ _)) by lia).
  rewrite (bind_some _ _ x _ x) by done. rewrite (bind_some _ _ x _ x) by done. rewrite (bind_some _ _ _ _ _ Hrun).
  destruct (found_extent_of env x _ _ _ _ Hx fuel v num empty hint_byte data 0 s _ Hem ltac:(lia) ltac:(lia) ltac:(lia) Heven Hrun eq_refl)
    as (_ & _ & (p & g & Hlk & _ & _ & Hlo & Hhi) & (Hs0 & _) & _).
  destruct (ao_cached _ _ _ _ _ Hx p g Hlk) as (_ & ? & ? & ?).
  destruct (io_clear_run (ai_free_space_cache x) _ s (s + num - 1) EXTENT_DIRTY (ao_free _ _ _ _ _ Hx))
    as (rc & w' & m & Hclr & _); [lia|unfold U64_MAX; lia|bits|].
  exists (put_free w' (put_hint h x)). cbn [negb Z.eqb bug_on fst snd]. unfold bind, ret, on_free, zoom. cbn [ai_free_space_cache put_hint].
  by rewrite u64_id, Hclr by lia.
Qed.
End Reserve.
End Groups.
End Run.
