(* ===== verification/ExtentAllocProps.v ===== *)
(** What the allocator of [src/extent-tree.c] guarantees. *)

From stdpp Require Import relations.
From S2P Require Import Prelude RbSpec RbTree RbShape RbInsert RbErase RbInstance ExtentCache ExtentIo.
From S2P Require Import ExtentIoInv ExtentIoSpec Buf CtreeFmt LeafOps LeafSpec NodeOps LeafProps TreeWorld.
From S2P Require Import TreeBalance TreeOps TreeSearch TreeSafe TreeDemo TreeProps Volumes ExtentAlloc.
From S2P Require Import ExtentAllocSpec.

Section Props.
Context {T : Type} `{RbTreeLaws T} (env : alloc_env).

(** C7: when the free space of all block groups has been read before
    ([alloc_ok]), the extent that [btrfs_reserve_extent] hands out, past the
    allocation of a new chunk ([reserve_found]), lies in a block group of the
    type that was asked for and that may be written; all its bytes were free,
    none is pinned, none belongs to a pending insertion, and it stays clear of
    the range the transaction excludes.  Afterwards none of its bytes is free,
    if as many allocations of memory succeed as the tree of free space can need
    - otherwise a first part of them is not -, and nothing else has changed but
    the hint for the next search.  So it is for every search, with wrap-arounds
    and full scans. *)
Theorem reserve_extent_safe (x x' : alloc_info T) Ff Fp Fi Fg fuel v num empty hint_byte data s
  (Hx : alloc_ok x Ff Fp Fi Fg) (Hempty : 0 <= empty) (Hsum : num + empty < 2 ^ 31)
  (Hsec : 0 < ae_sectorsize env) (Heven : Z.even (ae_stripesize env) = true)
  (Hrun : reserve_found env fuel v num empty hint_byte data x = Some (s, x')) :
  0 < num /\ found_extent x Ff Fp Fi data num (ai_exclude_start x) (ai_exclude_nr x) s /\
  exists h w m, x' = put_free w (put_hint h x) /\ m <= s + num /\
    ((io_fuel (ai_free_space_cache x) <= iw_mallocs (ai_free_space_cache x))%nat -> m = s + num) /\
    alloc_ok x' (fun i => if (s <=? i) && (i <? m) then Z.ldiff (Ff i) EXTENT_DIRTY else Ff i) Fp Fi Fg.
Proof.
  destruct (reserve_found_spec env x Ff Fp Fi Fg Hx fuel v num empty hint_byte data s x' Hempty ltac:(lia) ltac:(lia) Hsec Heven Hrun)
    as (Hn & Hf & Hrest). split; [lia|]. by split.
Qed.

(** C20: [btrfs_reserve_extent], past the allocation of a new chunk
    ([reserve_found]), succeeds, in the first round, when a block group of the
    type that may be written has a free range that is long enough, wherever it
    is and wherever the search begins: the searches through the groups and the
    free ranges end, wrap around and reach it.  The free space of all groups
    must have been read before ([groups_at], [alloc_ok]), no range be excluded,
    and the free bytes be neither pinned nor pending, as the other functions
    keep them. *)
Theorem reserve_extent_finds (x : alloc_info T) Lg Lf Fp Fi Fg fuel v num empty hint_byte data e
  (Hgroups : groups_at x Lg) (Hx : alloc_ok x (flag_of Lf.*2) Fp Fi Fg) (Hfree : io_ok (ai_free_space_cache x) [] Lf)
  (Hnum : 0 < num) (Hempty : 0 <= empty) (Hsum : num + empty < 2 ^ 31) (Hsec : 0 < ae_sectorsize env <= num)
  (Heven : Z.even (ae_stripesize env) = true) (Hhint : 0 <= hint_byte < U64_MAX) (Hknown : known Lg (ai_trans_block_group x))
  (Hex : ai_exclude_nr x = 0) (Hclean : clean Lf Fp Fi) (Hspace : has_space x Lg Lf 0 (num + empty) data e)
  (Hfuel : (0 < fuel)%nat) :
  exists s x', reserve_found env fuel v num empty hint_byte data x = Some (s, x').
Proof. by apply (reserve_found_run env x Lg Hgroups Lf Fp Fi Fg Hx Hfree fuel v num empty hint_byte data e). Qed.

(** C6: copy on write on the extent tree itself, with the allocator of
    [src/extent-tree.c] below it, when the free space of all block groups has
    been read before ([alloc_ok]): in any sequence of operations no block that
    was committed changes in any byte, as long as its first byte is pinned or
    not free. *)
Theorem extent_tree_blocks_survive (fuel : nat) (held : Z -> buf) (w w' : tree_world (alloc_info T)) (C : gmap Z extent_buffer)
  Ff Fp Fi Fg (Hsec : 0 < ae_sectorsize env) (Heven : Z.even (ae_stripesize env) = true)
  (Hx : alloc_ok (tw_ext w) Ff Fp Fi Fg) (Hpath : tw_path w = btrfs_init_path) (Hin : C ⊆ tw_blocks w)
  (Hold : forall b e, C !! b = Some e -> block_current (ae_tree env) e = false)
  (Hkept : forall b, is_Some (C !! b) -> Z.land (Fp b) EXTENT_DIRTY <> 0 \/ Z.land (Ff b) EXTENT_DIRTY = 0)
  (Hrun : rtc (@tree_step (alloc_info T) (extent_root_tree env fuel held) (ae_tree env)) w w') :
  C ⊆ tw_blocks w'.
Proof.
  assert (Hw : @intact _ _ (extent_root_pinned env fuel held Hsec Heven) (ae_tree env) C w).
  { split; [done|done| |by intros i b; rewrite Hpath]. intros b Hb. exists Ff, Fp, Fi, Fg. split; [done|by apply Hkept]. }
  apply (@steps_intact _ _ _ (extent_root_pinned env fuel held Hsec Heven) C w w' Hrun Hw).
Qed.
End Props.

(** ** A block group with free space

    The group is 128 KiB of metadata from 128 KiB on; the first 8 KiB are in use,
    the 4 KiB behind 136 KiB are pinned. *)

(** A tree of one state; the empty tree. *)
Definition one_state (s e bits private : Z) : extent_state := ExtentState (CacheExtent 0 s (e + 1 - s)) s e 1 bits private.
Definition state_world (st : extent_state) : io_world rb_mem :=
  IoWorld (RbMem (Some 1%positive) {[1%positive := RbNode None RB_BLACK None None]}) {[1%positive := st]} 2%positive 100.
Definition no_states : io_world rb_mem := IoWorld (RbMem None ∅) ∅ 1%positive 100.

Lemma state_world_ok s e bits private : 0 <= s <= e -> e < U64_MAX -> 0 <= bits < 2 ^ 64 ->
  io_ok (state_world (one_state s e bits private)) [] [(1%positive, one_state s e bits private)].
Proof.
  intros Hs He Hb. split.
  - exists (Node RB_BLACK Leaf 1%positive Leaf), 1%nat.
    split_and!; [|done| |done].
    + split_and!; [by repeat split|done|]. apply (bool_decide_unpack _). by vm_compute.
    + by exists O.
  - split; [by apply NoDup_singleton|]. simpl. by rewrite insert_empty.
  - simpl. unfold seg_ok. simpl. split_and!; (done || lia).
  - intros p Hp. apply list_elem_of_singleton in Hp as ->. simpl. lia.
Qed.

Lemma no_states_ok : io_ok no_states [] [].
Proof.
  split; [|split; [constructor|done]|done|by intros p []%not_elem_of_nil].
  exists Leaf, O. split_and!; [|done|done|done]. split_and!; [done|constructor|]. apply (bool_decide_unpack _). by vm_compute.
Qed.

Definition demo_group : block_group :=
  BlockGroup 131072 131072 8192 256 BTRFS_BLOCK_GROUP_METADATA 0 BTRFS_BLOCK_GROUP_METADATA 4096 true false.
Definition demo_group_state : extent_state := one_state 131072 262143 (Z.lor BLOCK_GROUP_METADATA EXTENT_LOCKED) 1.
Definition demo_free_state : extent_state := one_state 143360 262143 EXTENT_DIRTY 0.
Definition demo_pinned_state : extent_state := one_state 139264 143359 EXTENT_DIRTY 0.

Definition demo_alloc : alloc_info rb_mem :=
  AllocInfo (state_world demo_free_state) (state_world demo_pinned_state) no_states no_states (state_world demo_group_state)
    {[1 := demo_group]} ∅ 2 [SpaceInfo BTRFS_BLOCK_GROUP_METADATA 131072 8192 4096 false] 4096 8192 ∅ 0 0 0 None 0 0
    (MappingTree (RbMem None ∅) (fun _ => None)).
Definition demo_alloc_env : alloc_env := AllocEnv demo_env 4096 4096 false 0 0 0 0 true 1.

Lemma demo_alloc_ok : alloc_ok demo_alloc (flag_of [demo_free_state]) (flag_of [demo_pinned_state]) (flag_of [])
  (flag_of [demo_group_state]).
Proof.
  split.
  - exists [(1%positive, demo_free_state)]. split; [apply state_world_ok; split || idtac; by vm_compute|done].
  - exists [(1%positive, demo_pinned_state)]. split; [apply state_world_ok; split || idtac; by vm_compute|done].
  - exists []. split; [apply no_states_ok|done].
  - exists [(1%positive, demo_group_state)]. split; [apply state_world_ok; split || idtac; by vm_compute|done].
  - intros i Hi. unfold flag_of. simpl. rewrite (proj2 (Z.leb_gt i 262143)) by lia. by rewrite andb_false_r.
  - apply map_Forall_singleton. simpl. lia.
Qed.

Lemma demo_groups_at : groups_at demo_alloc [(1%positive, demo_group_state)].
Proof.
  split; [apply state_world_ok; split || idtac; by vm_compute|].
  intros e He. apply list_elem_of_singleton in He as ->. split; [by vm_compute|]. exists demo_group.
  split; [reflexivity|]. simpl. lia.
Qed.

Lemma reserve_extent_safe_witness :
  exists x', reserve_found demo_alloc_env 1 (TreeView ∅ None) 4096 0 0 4 demo_alloc = Some (143360, x') /\ 0 < 4096 /\
    found_extent demo_alloc (flag_of [demo_free_state]) (flag_of [demo_pinned_state]) (flag_of []) 4 4096 0 0 143360.
Proof.
  destruct (reserve_found demo_alloc_env 1 (TreeView ∅ None) 4096 0 0 4 demo_alloc) as [[s x']|] eqn:E; [|exfalso; revert E; vm_compute; discriminate].
  assert (Hs : s = 143360) by (apply (f_equal (fmap fst)) in E; vm_compute in E; congruence).
  destruct (reserve_extent_safe demo_alloc_env demo_alloc x' _ _ _ _ 1 (TreeView ∅ None) 4096 0 0 4 s demo_alloc_ok
    ltac:(lia) ltac:(lia) ltac:(reflexivity) eq_refl E) as (H1 & H2 & _).
  subst s. exists x'. split; [reflexivity|]. split; [exact H1|exact H2].
Defined.

Lemma reserve_extent_finds_witness :
  exists s x', reserve_found demo_alloc_env 1 (TreeView ∅ None) 4096 0 200000 4 demo_alloc = Some (s, x').
Proof.
  apply (reserve_extent_finds demo_alloc_env demo_alloc [(1%positive, demo_group_state)] [(1%positive, demo_free_state)]
    (flag_of [demo_pinned_state]) (flag_of []) (flag_of [demo_group_state]) 1 (TreeView ∅ None) 4096 0 200000 4 demo_group_state
    demo_groups_at demo_alloc_ok).
  - apply state_world_ok; split || idtac; by vm_compute.
  - lia.
  - lia.
  - lia.
  - split; [reflexivity|vm_compute; discriminate].
  - reflexivity.
  - unfold U64_MAX. lia.
  - exact I.
  - reflexivity.
  - intros i Hi. unfold free_byte, flag_of in *. simpl in *. split; [|reflexivity].
    destruct (Z.leb_spec 143360 i); [|exfalso; by apply Hi]. by rewrite (proj2 (Z.leb_gt i 143359)), andb_false_r by lia.
  - split; [by left|]. split; [vm_compute; discriminate|]. exists demo_group.
    split; [reflexivity|]. split; [reflexivity|]. split; [reflexivity|]. exists demo_free_state.
    split; [by left|]. split; [vm_compute; discriminate|vm_compute; discriminate].
  - lia.
Defined.

(** A committed leaf of the extent tree in the used part of the group; an
    insertion copies it to the first free block. *)
Definition extent_leaf : extent_buffer :=
  ExtentBuffer 4096 false (btrfs_set_header_backref_rev (eb_data old_leaf) BTRFS_MIXED_BACKREF_REV).
Definition extent_leaf_world : tree_world (alloc_info rb_mem) :=
  TreeWorld {[ 131072 := extent_leaf ]} (Some 131072) btrfs_init_path demo_alloc.
#[local] Instance demo_extent_tree : ExtentTree (alloc_info rb_mem) := extent_root_tree demo_alloc_env 1 (fun _ _ => 0).
Definition copied_leaf_world : tree_world (alloc_info rb_mem) :=
  match btrfs_insert_item demo_env 1 key2 [9] extent_leaf_world with Some (_, w) => w | None => extent_leaf_world end.

Lemma extent_tree_blocks_survive_witness :
  tree_step demo_env extent_leaf_world copied_leaf_world /\ tw_node copied_leaf_world = Some 143360 /\
  {[ 131072 := extent_leaf ]} ⊆ tw_blocks copied_leaf_world.
Proof.
  assert (Hstep : tree_step demo_env extent_leaf_world copied_leaf_world).
  { assert (Hrun : fst <$> btrfs_insert_item demo_env 1 key2 [9] extent_leaf_world = Some 0) by (vm_compute; reflexivity).
    unfold copied_leaf_world. destruct (btrfs_insert_item demo_env 1 key2 [9] extent_leaf_world) as [[r u]|] eqn:E; [|discriminate].
    by apply (step_insert_item _ _ 1 key2 [9] r). }
  split; [exact Hstep|]. split; [vm_compute; reflexivity|].
  apply (extent_tree_blocks_survive demo_alloc_env 1 (fun _ _ => 0) extent_leaf_world copied_leaf_world {[ 131072 := extent_leaf ]}
    _ _ _ _ ltac:(reflexivity) eq_refl demo_alloc_ok eq_refl).
  - reflexivity.
  - intros b e [<- <-]%lookup_singleton_Some. vm_compute. reflexivity.
  - intros b [e [<- <-]%lookup_singleton_Some]. right. vm_compute. reflexivity.
  - by apply rtc_once.
Defined.
