(* ===== verification/GroupCache.v ===== *)
(** Reading the free space of a block group: [cache_block_group] of
    [src/extent-tree.c] walks over the extent items of the group and marks what
    lies between them, and takes the stripes with a super block out again. *)

From stdpp Require Import sorting.
From S2P Require Import Prelude RbSpec RbTree RbInstance ExtentCache ExtentIo ExtentIoInv ExtentIoSpec Buf CtreeFmt ItemFmt LeafOps LeafSpec NodeOps.
From S2P Require Import TreeWorld TreeBalance TreeOps TreeSpec TreeSearch TreeWalk TreeFrame TreeInsert TreeItem InodeSpec.
From S2P Require Import Volumes VolumesSpec VolumesMap VolumesMapping VolumesProps LeafProps TreeDemo ExtentAlloc ExtentAllocSpec ExtentAllocProps.

(** ** The allocations of the state tree *)

Section Io.
Context {T : Type} `{RbTreeLaws T}.
Implicit Types (w : io_world T) (A B L : list seg).

(** An action that gives no memory back to [malloc]. *)
Definition shrinks {X} (c : act (io_world T) X) : Prop := forall w r w', c w = Some (r, w') -> (iw_mallocs w' <= iw_mallocs w)%nat.

Lemma shrinks_ret {X} (a : X) : shrinks (ret a).
Proof. intros w r w' [= _ <-]. lia. Qed.
Lemma shrinks_bug {X} : shrinks (bug : act _ X).
Proof. by intros w r w'. Qed.
Lemma shrinks_deref {X} (f : io_world T -> option X) : shrinks (deref f).
Proof. intros w r w'. unfold deref. destruct (f w); [|done]. intros [= _ <-]. lia. Qed.
Lemma shrinks_modify (f : io_world T -> io_world T) : (forall w, iw_mallocs (f w) = iw_mallocs w) -> shrinks (modify f).
Proof. intros Hf w r w' [= _ <-]. rewrite Hf. lia. Qed.
Lemma shrinks_bind {X Y} (c : act (io_world T) X) (k : X -> act (io_world T) Y) : shrinks c -> (forall a, shrinks (k a)) -> shrinks (bind c k).
Proof.
  intros Hc Hk w r w'. unfold bind. destruct (c w) as [[a w1]|] eqn:E; [|done]. intros Hr.
  pose proof (Hc _ _ _ E). pose proof (Hk a _ _ _ Hr). lia.
Qed.
Lemma shrinks_alloc : shrinks alloc_extent_state.
Proof. intros w r w'. unfold alloc_extent_state. destruct (iw_mallocs w) eqn:E; intros [= _ <-]; simpl; lia. Qed.

Ltac shrink := repeat first
  [ apply shrinks_ret | apply shrinks_bug | apply shrinks_deref | apply shrinks_alloc | apply shrinks_modify; done
  | apply shrinks_bind; [|intros] | case_match
  | progress unfold es_get, es_put, io_search, io_prev, io_next, io_insert, io_remove, set_tree, bug_on, update_extent_state,
      btrfs_free_extent_state, merge_state, merge_prev, merge_next, insert_state, split_state, clear_state_bit, get_prealloc, free_prealloc ].

Lemma shrinks_set fuel start last bits : shrinks (set_extent_bits fuel start last bits).
Proof.
  unfold set_extent_bits. generalize (None : option ptr). revert start. induction fuel as [|fuel IH]; intros start pre; [apply shrinks_bug|].
  cbn [set_extent_bits_loop]. apply shrinks_bind; [unfold set_extent_bits_pass; shrink|]. intros j. destruct j; [shrink| |shrink].
  destruct (_ <? _); [shrink|apply IH].
Qed.

Lemma shrinks_clear fuel start last bits : shrinks (clear_extent_bits fuel start last bits).
Proof.
  unfold clear_extent_bits. generalize (None : option ptr), 0. revert start. induction fuel as [|fuel IH]; intros start pre set; [apply shrinks_bug|].
  cbn [clear_extent_bits_loop]. apply shrinks_bind; [unfold clear_extent_bits_pass; shrink|]. intros [j v]. cbn [fst snd]. destruct j; [shrink| |shrink].
  destruct (_ <? _); [shrink|apply IH].
Qed.

(** ** Setting bits where no state is *)

(** Every state has a flag. *)
Definition flagged L : Prop := Forall (fun e => es_state e <> 0) L.*2.

Lemma flagged_hole L x : flagged L -> flag_of L.*2 x = 0 -> seg_at L.*2 x = None.
Proof.
  intros Hf. unfold flag_of. destruct (seg_at L.*2 x) as [e|] eqn:E; [|done]. intros Hz. exfalso.
  apply seg_at_elem in E. unfold flagged in Hf. rewrite Forall_forall in Hf. by apply (Hf e).
Qed.

Lemma flagged_merge A p e B : flagged (A ++ (p, e) :: B) -> flagged (merge_list A p e B).
Proof.
  unfold flagged. rewrite fmap_app, fmap_cons. intros Hf. apply Forall_app in Hf as [HA [He HB]%Forall_cons]. cbn [snd] in *.
  unfold merge_list. destruct (negb _); [by rewrite fmap_app, fmap_cons, Forall_app, Forall_cons|].
  assert (Hleft : let '(A', e') := merge_left A e in Forall (fun e => es_state e <> 0) A'.*2 /\ es_state e' <> 0).
  { unfold merge_left. destruct (rev A) as [|[q o] R] eqn:HR; [done|]. destruct (mergeable o e); [|done]. split; [|done].
    assert (A = rev R ++ [(q, o)]) as -> by (rewrite <- (rev_involutive A), HR; done). rewrite fmap_app in HA. by apply Forall_app in HA as [HA _]. }
  destruct (merge_left A e) as [A' e']. destruct Hleft as [HA' He']. rewrite fmap_app. apply Forall_app. split; [done|].
  unfold merge_right. destruct B as [|[q o] B]; [by apply Forall_cons|]. rewrite fmap_cons in HB. apply Forall_cons in HB as [Ho HB]. cbn [snd] in *.
  destruct (mergeable e' o); rewrite !fmap_cons, !Forall_cons; done.
Qed.

(** One pass where the range is free of states: it is filled with a new one. *)
Lemma set_pass_free w q f A B start last bits :
  io_ok w [(q, f)] (A ++ B) -> fresh_state f -> 0 <= start <= last -> last < U64_MAX -> 0 <= bits < 2 ^ 31 ->
  segs_end 0 A.*2 <= start -> match B with [] => True | (_, e) :: _ => last < es_start e end ->
  exists j w', set_extent_bits_pass (Some q) start last bits w = Some (j, w') /\ (j = Out None \/ j = SearchAgain None (last + 1)) /\
    io_ok w' [] (merge_list A q (placed f start last bits) B).
Proof.
  intros Hok Hf Hr Hl Hb HA HB. pose proof (io_segs _ _ _ Hok) as Hg. rewrite fmap_app in Hg. apply segs_ok_app in Hg as [_ HgB].
  assert (HB' : segs_ok (last + 1) B.*2).
  { destruct B as [|[p e] B]; [done|]. cbn [fmap list_fmap snd segs_ok] in HgB |- *. destruct HgB as (He & _ & HgB). split_and!; [done|lia|done]. }
  assert (HB2 : match B with [] => True | (_, e) :: _ => start <= es_end e end).
  { destruct B as [|[p e] B]; [done|]. cbn [fmap list_fmap snd segs_ok] in HB'. destruct HB' as ((_ & _ & _ & ? & _) & _). lia. }
  unfold set_extent_bits_pass. unfold bind at 1. cbn [get_prealloc]. unfold ret at 1.
  erewrite (run_search w _ A B) by (done || unfold U64_MAX in *; lia). destruct B as [|[p e] B]; cbn [head fmap option_fmap option_map fst].
  - destruct (insert_state_spec w A [] q f start last bits (fun err => bug_on (err =? - EEXIST) ;;; ret (Out None))%act) as (w1 & Hw & Hok1 & _); [done..|].
    exists (Out None), w1. split; [by rewrite Hw|]. split; [by left|done].
  - pose proof (io_seg _ _ _ _ _ _ Hok) as [_ Hlk]. erewrite run_get by done. cbv zeta.
    rewrite (proj2 (Z.eqb_neq _ _)), (proj2 (Z.ltb_ge (es_start e) _)), (proj2 (Z.ltb_lt start _)), (proj2 (Z.ltb_lt last _)) by lia. cbn [andb].
    destruct (insert_state_spec w A ((p, e) :: B) q f start last bits (fun err => bug_on (err =? - EEXIST) ;;; (if negb (err =? 0) then ret (Out None)
       else ret (SearchAgain None (u64 (last + 1)))))%act) as (w1 & Hw & Hok1 & _); [done..|].
    exists (SearchAgain None (last + 1)), w1. split; [|split; [by right|done]]. rewrite Hw. unfold bind, U64_MAX in *. simpl. by rewrite u64_id by lia.
Qed.

(** The state of an allocation that has not failed, or the tree as it was. *)
Lemma set_hole fuel w L start last bits :
  io_ok w [] L -> flagged L -> 0 <= start <= last -> last < U64_MAX -> 0 < bits < 2 ^ 31 -> (0 < fuel)%nat ->
  (forall x, start <= x <= last -> flag_of L.*2 x = 0) ->
  exists r w' L', set_extent_bits fuel start last bits w = Some (r, w') /\ io_ok w' [] L' /\ flagged L' /\
    ((forall x, flag_of L'.*2 x = if (start <=? x) && (x <=? last) then bits else flag_of L.*2 x) \/
     iw_mallocs w' = O /\ forall x, flag_of L'.*2 x = flag_of L.*2 x).
Proof.
  intros Hok Hfl Hr Hl Hb Hfuel Hfree. destruct fuel as [|fuel]; [lia|]. unfold set_extent_bits. cbn [set_extent_bits_loop].
  destruct (seg_split L start (io_segs _ _ _ Hok) ltac:(lia)) as (A & B & -> & HA & HB).
  pose proof (io_segs _ _ _ Hok) as Hg. rewrite fmap_app in Hg.
  assert (Hnext : match B with [] => True | (_, e) :: _ => last < es_start e end).
  { destruct B as [|[p e] B]; [done|]. rewrite fmap_cons in Hg. cbn [snd] in Hg.
    destruct (Z.lt_ge_cases last (es_start e)) as [|Hle]; [done|exfalso]. set (x := Z.max start (es_start e)).
    pose proof (flagged_hole _ x Hfl (Hfree x ltac:(lia))) as Hnone. rewrite fmap_app, fmap_cons in Hnone. cbn [snd] in Hnone.
    rewrite (seg_at_cons_app 0 _ _ _ _ Hg) in Hnone. pose proof Hg as Hg2. apply segs_ok_app in Hg2 as [_ ((_ & _ & _ & Hse & _) & Hlo & _)].
    rewrite (proj2 (Z.ltb_ge x _)), (proj2 (Z.leb_le x _)) in Hnone by lia. done. }
  destruct (run_prealloc w [] (A ++ B) None (fun prealloc => match prealloc with
    | None => ret (Return (- ENOMEM))
    | Some pre => set_extent_bits_pass (Some pre) start last bits end) Hok I) as [(_ & Hm & Hrun)|(q & f & w1 & Hrun & Hok1 & Hf & _)].
  { exists (- ENOMEM), w, (A ++ B). split_and!; [|done|done|by right].
    erewrite (bind_some (set_extent_bits_pass None start last bits)); [|exact Hrun]. done. }
  destruct (set_pass_free w1 q f A B start last bits) as (j & w2 & Hj & Hcase & Hok2); [done..|lia|done|done|].
  set (g := placed f start last bits) in *. exists 0, w2, (merge_list A q g B).
  assert (HB' : segs_ok (last + 1) B.*2).
  { destruct B as [|[p e] B]; [done|]. rewrite fmap_cons in Hg |- *. cbn [snd] in *. apply segs_ok_app in Hg as [_ (He & _ & HgB)]. split_and!; [done|lia|done]. }
  assert (Hg1 : segs_ok 0 (A.*2 ++ g :: B.*2)).
  { apply segs_ok_app in Hg as [HgA _]. apply segs_ok_app. split; [done|]. split_and!; [apply seg_ok_placed; [done|lia..]|done|done]. }
  split_and!; [|done| |left].
  - erewrite (bind_some (set_extent_bits_pass None start last bits)); [|unfold set_extent_bits_pass at 1; etransitivity; [exact Hrun|exact Hj]].
    destruct Hcase as [->| ->]; [done|]. by rewrite (proj2 (Z.ltb_lt _ _)) by lia.
  - apply flagged_merge. unfold flagged in *. rewrite fmap_app in Hfl. apply Forall_app in Hfl as [FA FB].
    rewrite fmap_app, fmap_cons. apply Forall_app. split; [done|]. apply Forall_cons. split; [simpl; lia|done].
  - intros x. destruct (merge_list_ok A q g B Hg1) as [_ ->]. rewrite (flag_insert _ _ _ _ Hg1), fmap_app. simpl.
    destruct (Z.leb_spec start x), (Z.ltb_spec x (last + 1)), (Z.leb_spec x last); simpl; lia || done.
Qed.

(** What filling the bytes of [P] makes of the flags, as far as the memory goes. *)
Record filled (P : Z -> Prop) w L w' L' : Prop := {
  fl_ok : io_ok w' [] L';
  fl_flagged : flagged L';
  fl_mallocs : (iw_mallocs w' <= iw_mallocs w)%nat;
  fl_only : forall i, flag_of L'.*2 i = flag_of L.*2 i \/ P i /\ flag_of L'.*2 i = EXTENT_DIRTY;
  fl_all : (0 < iw_mallocs w')%nat -> forall i, P i -> flag_of L'.*2 i = EXTENT_DIRTY;
}.

Lemma filled_none w L (P : Z -> Prop) : io_ok w [] L -> flagged L -> (forall i, ~ P i) -> filled P w L w L.
Proof. intros Hok Hf Hn. split; [done|done|lia|by left|]. intros _ i Hi. by destruct (Hn i). Qed.

Lemma filled_trans (P Q R : Z -> Prop) w L w1 L1 w2 L2 :
  filled P w L w1 L1 -> filled Q w1 L1 w2 L2 -> (forall i, R i <-> P i \/ Q i) -> filled R w L w2 L2.
Proof.
  intros [H1 H2 H3 H4 H5] [H6 H7 H8 H9 H10] HR. split; [done|done|lia| |].
  - intros i. destruct (H9 i) as [->|[HQ ?]]; [|right; split; [apply HR; by right|done]]. destruct (H4 i) as [->|[HP ?]]; [by left|].
    right. split; [apply HR; by left|done].
  - intros Hm i [HP|HQ]%HR; [|by apply H10]. destruct (H9 i) as [->|[_ ?]]; [|done]. apply H5; [lia|done].
Qed.

Lemma filled_same (P Q : Z -> Prop) w L w' L' : (forall i, Q i <-> P i) -> filled P w L w' L' -> filled Q w L w' L'.
Proof.
  intros HQ [H1 H2 H3 H4 H5]. split; [done|done|done| |].
  - intros i. destruct (H4 i) as [?|[? ?]]; [by left|right; split; [by apply HQ|done]].
  - intros Hm i Hi. by apply H5, HQ.
Qed.

Lemma fill_hole_run w L start last : io_ok w [] L -> flagged L -> 0 <= start <= last -> last < U64_MAX ->
  (forall x, start <= x <= last -> flag_of L.*2 x = 0) ->
  exists r w' L', io_set start last EXTENT_DIRTY w = Some (r, w') /\ filled (fun i => start <= i <= last) w L w' L'.
Proof.
  intros Hok Hf Hr Hl Hz. destruct (set_hole (io_fuel w) w L start last EXTENT_DIRTY) as (r & w' & L' & Hrun & Hok' & Hf' & Hcase);
    [done|done|done|done|unfold EXTENT_DIRTY; lia|unfold io_fuel; lia|done|].
  exists r, w', L'. split; [done|]. split; [done|done|by eapply shrinks_set| |].
  - intros i. destruct Hcase as [->|[_ ->]]; [|by left]. destruct (Z.leb_spec start i), (Z.leb_spec i last); simpl; by auto.
  - intros Hm i Hi. destruct Hcase as [->|[Hm0 _]]; [|lia]. by rewrite (proj2 (Z.leb_le _ _)), (proj2 (Z.leb_le _ _)) by lia.
Qed.

(** Clearing a range, as far as the memory goes. *)
Lemma io_clear_out w F start last bits :
  flags_are w F -> 0 <= start <= last -> last < U64_MAX -> 0 <= bits < 2 ^ 31 ->
  exists r w' m, io_clear start last bits w = Some (r, w') /\ m <= last + 1 /\ (m = last + 1 \/ iw_mallocs w' = O) /\
    (iw_mallocs w' <= iw_mallocs w)%nat /\ flags_are w' (fun i => if (start <=? i) && (i <? m) then Z.ldiff (F i) bits else F i).
Proof.
  intros (L & Hok & HF) Hs Hl Hb.
  destruct (clear_extent_bits_spec (io_fuel w) w L start last bits Hok Hs Hl Hb) as (r & w' & Hr & L' & Hok' & Hcase).
  { unfold io_fuel. rewrite (heap_size _ _ Hok). lia. }
  pose proof (shrinks_clear _ _ _ _ _ _ _ Hr) as Hm.
  destruct Hcase as [(Hc & _)|(-> & [_ Hz] & m & Hmr & Hc)].
  - exists r, w', (last + 1). split; [exact Hr|]. split; [lia|]. split; [by left|]. split; [done|]. exists L'. split; [done|].
    intros i. by rewrite Hc, HF.
  - exists (- ENOMEM), w', m. split; [exact Hr|]. split; [lia|]. split; [by right|]. split; [done|]. exists L'. split; [done|].
    intros i. by rewrite Hc, HF.
Qed.
End Io.

(** ** The walk over the extent items *)

Definition is_extent (k : btrfs_key) : bool := (type k =? BTRFS_EXTENT_ITEM_KEY) || (type k =? BTRFS_METADATA_ITEM_KEY).
Definition extent_end (leafsize : Z) (k : btrfs_key) : Z :=
  if type k =? BTRFS_METADATA_ITEM_KEY then objectid k + leafsize else objectid k + offset k.

(** Some extent has the byte. *)
Definition covered (leafsize : Z) (L : list item) (i : Z) : Prop :=
  exists k, k ∈ L.*1 /\ is_extent k = true /\ objectid k <= i < extent_end leafsize k.

(** The extents have a length, do not reach the end of the address space, and do
    not overlap. *)
Record extents_ok (leafsize : Z) (L : list item) : Prop := {
  eo_sorted : sorted_keys (L.*1);
  eo_range : forall k, k ∈ L.*1 -> is_extent k = true -> 0 <= objectid k < extent_end leafsize k /\ extent_end leafsize k < 2 ^ 64;
  eo_apart : forall k1 k2, k1 ∈ L.*1 -> k2 ∈ L.*1 -> is_extent k1 = true -> is_extent k2 = true -> k1 <> k2 ->
    extent_end leafsize k1 <= objectid k2 \/ extent_end leafsize k2 <= objectid k1;
}.

Section Extents.
Context (leafsize : Z).
Implicit Types (L : list item) (k : btrfs_key).

Lemma extents_tail k d L : extents_ok leafsize ((k, d) :: L) -> extents_ok leafsize L.
Proof.
  intros [Hs Hr Ha]. rewrite fmap_cons in *. cbn [fst] in *. split.
  - by apply StronglySorted_cons in Hs as [_ Hs].
  - intros k' Hk'. apply Hr. by right.
  - intros k1 k2 H1 H2. apply Ha; by right.
Qed.

Lemma extents_after k d L k' : extents_ok leafsize ((k, d) :: L) -> is_extent k = true -> k' ∈ L.*1 -> is_extent k' = true -> extent_end leafsize k <= objectid k'.
Proof.
  intros [Hs Hr Ha] Hk Hin Hk'. pose proof (sorted_objectids k d L Hs) as Hle. rewrite fmap_cons in *. cbn [fst] in *.
  rewrite Forall_forall in Hle. pose proof (Hle k' Hin) as Hle'. cbn beta in Hle'. apply StronglySorted_cons in Hs as [Hs _]. rewrite Forall_forall in Hs.
  destruct (Hr k' ltac:(by right) Hk') as [? _].
  destruct (Ha k k') as [|]; [by left|by right|done|done| |done|lia]. intros <-. by apply (key_lt_irrefl k), Hs.
Qed.

Lemma covered_cons k d L i : covered leafsize ((k, d) :: L) i <-> (is_extent k = true /\ objectid k <= i < extent_end leafsize k) \/ covered leafsize L i.
Proof.
  unfold covered. rewrite fmap_cons. cbn [fst]. split.
  - intros (k' & [->|Hin]%elem_of_cons & H1 & H2); [by left|right; by exists k'].
  - intros [[H1 H2]|(k' & Hin & H1 & H2)]; [exists k; split; [by left|done]|exists k'; split; [by right|done]].
Qed.

Lemma covered_above L i lo : Forall (fun k => lo <= objectid k) (L.*1) -> covered leafsize L i -> lo <= i.
Proof. intros Hall (k & Hin & _ & Hi). rewrite Forall_forall in Hall. specialize (Hall k Hin). simpl in Hall. lia. Qed.
End Extents.

Section Walk.
Context {T : Type} `{RbTreeLaws T} (env : alloc_env).
Context (Hroot : root_ok (te_root (ae_tree env))).
Context (g : block_group).
Context (Hg : 0 <= bg_objectid g /\ bg_end g < U64_MAX).
#[local] Existing Instance no_extent_tree.

Abbreviation root := (te_root (ae_tree env)).
Abbreviation world := (tree_world unit).
Implicit Types (w : world) (x : alloc_info T) (fw : io_world T) (Lf : list seg) (A B pre post : list item).

(** What the loop does to the free space, when it has reached [last] and the items
    of [rest] are still to come, and ends at [r]. *)
Record walked fw Lf rest (last : Z) fw' Lf' (r : Z) : Prop := {
  wk_end : last <= r;
  wk_free : forall i, r <= i < bg_end g -> ~ covered (leafsize root) rest i;
  wk_filled : filled (fun i => last <= i < r /\ i < bg_end g /\ ~ covered (leafsize root) rest i) fw Lf fw' Lf';
}.

Lemma walked_stop fw Lf rest (last : Z) : io_ok fw [] Lf -> flagged Lf -> Forall (fun k => bg_end g <= objectid k) (rest.*1) ->
  walked fw Lf rest last fw Lf last.
Proof using Hg.
  intros Hok Hf Hall. split; [lia| |apply filled_none; [done|done|lia]]. intros i Hi Hc. pose proof (covered_above _ _ _ _ Hall Hc). lia.
Qed.

(** One extent that begins at or after [last]. *)
Lemma walked_extent fw Lf k d rest (last : Z) fw1 Lf1 fw' Lf' (r : Z) :
  extents_ok (leafsize root) ((k, d) :: rest) -> is_extent k = true -> last <= objectid k < bg_end g ->
  filled (fun i => last <= i < objectid k) fw Lf fw1 Lf1 -> walked fw1 Lf1 rest (extent_end (leafsize root) k) fw' Lf' r ->
  walked fw Lf ((k, d) :: rest) last fw' Lf' r.
Proof using Hg.
  intros Hok Hk Hlast Hfill [H1 H2 H3]. destruct (eo_range _ _ Hok k (list_elem_of_here _ _) Hk) as [Hlen _].
  pose proof (sorted_objectids k d rest (eo_sorted _ _ Hok)) as Hle.
  split; [lia| |].
  - intros i Hi Hc. apply covered_cons in Hc as [[_ Hc]|Hc]; [lia|by apply (H2 i)].
  - eapply filled_trans; [exact Hfill|exact H3|]. intros i. cbn beta. rewrite covered_cons. split.
    + intros (Hi & Hi2 & Hn). destruct (Z.lt_ge_cases i (objectid k)) as [|Hge]; [left; lia|]. right.
      destruct (Z.lt_ge_cases i (extent_end (leafsize root) k)); [exfalso; apply Hn; left; split; [done|lia]|]. split; [lia|]. tauto.
    + intros [Hi|(Hi & Hi2 & Hn)].
      * split; [lia|]. split; [lia|]. intros [[_ Hc]|Hc]; [lia|]. pose proof (covered_above _ _ _ _ Hle Hc). lia.
      * split; [lia|]. split; [lia|]. intros [[_ Hc]|Hc]; [lia|done].
Qed.

Lemma walked_skip fw Lf k d rest (last : Z) fw' Lf' (r : Z) : is_extent k = false -> walked fw Lf rest last fw' Lf' r -> walked fw Lf ((k, d) :: rest) last fw' Lf' r.
Proof using Hg.
  intros Hk [H1 H2 H3]. assert (Hc : forall i, covered (leafsize root) ((k, d) :: rest) i <-> covered (leafsize root) rest i).
  { intros i. rewrite covered_cons. split; [intros [[? _]|?]; [congruence|done]|by right]. }
  split; [done|intros i Hi; rewrite Hc; by apply H2|]. eapply filled_same; [|exact H3]. intros i. cbn beta. by rewrite Hc.
Qed.

(** The hole before an extent. *)
Lemma hole_run w x Lf (last obj : Z) : io_ok (ai_free_space_cache x) [] Lf -> flagged Lf -> 0 <= last <= obj -> obj < U64_MAX ->
  (forall i, last <= i < obj -> flag_of Lf.*2 i = 0) ->
  exists fw' Lf', (if last <? obj then bind (caching (on_free (io_set last (u64 (last + (obj - last) - 1)) EXTENT_DIRTY))) (fun _ => ret tt) else ret tt) (w, x) =
      Some (tt, (w, put_free fw' x)) /\ filled (fun i => last <= i < obj) (ai_free_space_cache x) Lf fw' Lf'.
Proof using Type*.
  intros Hok Hf Hr Hu Hz. destruct (Z.ltb_spec last obj) as [Hlt|Hge].
  - replace (last + (obj - last) - 1) with (obj - 1) by lia. rewrite u64_id by (unfold U64_MAX in *; lia).
    destruct (fill_hole_run (ai_free_space_cache x) Lf last (obj - 1) Hok Hf) as (r & fw' & Lf' & Hrun & Hfill); [lia|lia|intros i Hi; apply Hz; lia|].
    exists fw', Lf'. split; [|apply (filled_same (fun i => last <= i <= obj - 1)); [intros i; lia|done]].
    unfold caching, on_free, zoom, bind. cbn [snd fst]. by rewrite Hrun.
  - exists (ai_free_space_cache x), Lf. rewrite put_free_same. split; [done|]. apply filled_none; [done|done|lia].
Qed.

Lemma cache_loop_run n (b : Z) L : (n < 8)%nat ->
  forall fuel w x pre A B post (last : Z) Lf, L = pre ++ (A ++ B) ++ post ->
  on_path root (tw_blocks w) (tw_path w) n b pre (A ++ B) post -> p_nodes (tw_path w) (Z.of_nat n + 1) = None ->
  p_slots (tw_path w) 0 = Z.of_nat (length A) -> (2 * length (B ++ post) + match B with [] => 2 | _ => 1 end <= fuel)%nat ->
  extents_ok (leafsize root) (B ++ post) -> bg_objectid g <= last ->
  Forall (fun k => bg_objectid g <= objectid k) ((B ++ post).*1) ->
  (forall k, k ∈ (B ++ post).*1 -> is_extent k = true -> last <= objectid k) ->
  io_ok (ai_free_space_cache x) [] Lf -> flagged Lf -> (forall i, last <= i < bg_end g -> flag_of Lf.*2 i = 0) ->
  exists p fw' Lf' r, cache_loop env fuel g last (w, x) = Some (Some r, (with_path w p, put_free fw' x)) /\
    walked (ai_free_space_cache x) Lf (B ++ post) last fw' Lf' r.
Proof using All.
  intros Hn. induction fuel as [|fuel IH]; intros w x pre A B post last Lf HL Hp Htop Hslot Hfuel Hext Hlast Hlow Habove Hok Hf Hz; [destruct B; lia|].
  cbn [cache_loop]. destruct (on_path_leaf (ae_tree env) _ _ _ _ _ _ _ Hp) as (lb & Hlb & (e & He & _ & _ & Hr) & _).
  assert (Hrd : forall X (c : act world X) a w', c w = Some (a, w') -> reading (T := T) c (w, x) = Some (a, (w', x))).
  { intros X c a w' Hc. unfold reading, zoom. cbn [fst snd]. by rewrite Hc. }
  rewrite (bind_some _ _ _ _ _ (Hrd _ _ _ _ (path_block_run w 0 lb eq_refl Hlb))).
  rewrite (bind_some _ _ _ _ _ (Hrd _ _ _ _ (path_slot_run w 0 eq_refl))), Hslot.
  rewrite (bind_some _ _ _ _ _ (Hrd _ _ _ _ (eb_read_run w lb e He))), (lr_nritems _ _ _ Hr), length_app.
  destruct B as [|[k d] B].
  - rewrite (proj2 (Z.leb_le _ _)) by (simpl; lia). rewrite app_nil_r in *. cbn [app] in *.
    destruct (next_leaf_run (ae_tree env) Hroot w n b pre A post Hn Hp Htop) as [H1 H2].
    destruct (decide (post = [])) as [->|Hne].
    + rewrite (bind_some _ _ _ _ _ (Hrd _ _ _ _ (H1 eq_refl))). change (1 =? 0) with false. change (1 <? 0) with false. cbv iota.
      exists (tw_path w), (ai_free_space_cache x), Lf, last. rewrite put_free_same. split; [by destruct w|]. by apply walked_stop.
    + destruct (H2 Hne) as (p' & l2 & post2 & -> & Hl2 & Hrun & Hp2 & Hs2 & Hsame).
      rewrite (bind_some _ _ _ _ _ (Hrd _ _ _ _ Hrun)). change (0 =? 0) with true. change (0 <? 0) with false. cbv iota.
      destruct (IH (with_path w p') x (pre ++ A) [] l2 post2 last Lf) as (p2 & fw' & Lf' & r & Hrest & Hw); try done.
      * rewrite HL. cbn [app]. by rewrite <- !(assoc_L (++)).
      * destruct (Hsame (Z.of_nat n + 1) ltac:(lia)) as [Heq _]. simpl. by rewrite Heq.
      * destruct l2; [done|]. simpl in Hfuel |- *. lia.
      * exists p2, fw', Lf', r. by rewrite Hrest.
  - rewrite (proj2 (Z.leb_gt _ _)) by (simpl; lia).
    destruct (repr_item_fields root Hroot _ _ _ _ _ Hr) as (-> & _). cbn [app] in *. set (rest := B ++ post) in *.
    rewrite fmap_cons in Hlow. cbn [fst] in Hlow. apply Forall_cons in Hlow as [Hk Hlow]. rewrite (proj2 (Z.ltb_ge _ _)) by done.
    destruct (Z.leb_spec (bg_end g) (objectid k)) as [Hend|Hend].
    { exists (tw_path w), (ai_free_space_cache x), Lf, last. rewrite put_free_same. split; [by destruct w|]. apply walked_stop; [done|done|].
      rewrite fmap_cons. apply Forall_cons. split; [done|]. eapply Forall_impl; [exact (sorted_objectids k d rest (eo_sorted _ _ Hext))|].
      intros k' Hk'. simpl in Hk'. lia. }
    set (p1 := slot_upd (tw_path w) 0 (Z.of_nat (length A) + 1)).
    assert (Hnext : forall fw Lf1 last1, io_ok fw [] Lf1 -> flagged Lf1 -> bg_objectid g <= last1 ->
      (forall k', k' ∈ rest.*1 -> is_extent k' = true -> last1 <= objectid k') -> (forall i, last1 <= i < bg_end g -> flag_of Lf1.*2 i = 0) ->
      exists p fw' Lf' r, bind (reading (set_path_slot 0 (Z.of_nat (length A) + 1))) (fun _ => cache_loop env fuel g last1) (w, put_free fw x) =
          Some (Some r, (with_path w p, put_free fw' x)) /\ walked fw Lf1 rest last1 fw' Lf' r).
    { intros fw Lf1 last1 Hok1 Hf1 Hl1 Hab1 Hz1.
      destruct (IH (with_path w p1) (put_free fw x) pre (A ++ [(k, d)]) B post last1 Lf1) as (p2 & fw' & Lf' & r & Hrest & Hw); try done.
      - rewrite HL. by rewrite <- !(assoc_L (++)).
      - rewrite <- (assoc_L (++)). apply (on_path_below (ae_tree env) _ (tw_path w)); [done|]. intros i Hi. split; [done|].
        intros Hi0. simpl. by rewrite upd_other.
      - simpl. rewrite upd_same, length_app. simpl. lia.
      - fold rest. cbn [length] in Hfuel. enough (match B with [] => 2 | _ => 1 end <= 2)%nat by lia. destruct B; lia.
      - by apply (extents_tail _ k d).
      - exists p2, fw', Lf', r. split; [|exact Hw].
        rewrite (bind_some _ _ _ tt (with_path w p1, put_free fw x)); [exact Hrest|].
        unfold reading, zoom. cbn [fst snd]. by rewrite (set_path_slot_run w 0 _ eq_refl). }
    destruct (is_extent k) eqn:Hk2; unfold is_extent in Hk2; rewrite Hk2.
    + destruct (eo_range _ _ Hext k (list_elem_of_here _ _) Hk2) as [Hlen Hmax].
      pose proof (Habove k (list_elem_of_here _ _) Hk2) as Hge.
      destruct (hole_run w x Lf last (objectid k) Hok Hf) as (fw1 & Lf1 & Hrun & Hfill); [lia|unfold U64_MAX; lia|intros i Hi; apply Hz; lia|].
      assert (Hend2 : (if type k =? BTRFS_METADATA_ITEM_KEY then u64 (objectid k + leafsize root) else u64 (objectid k + offset k)) = extent_end (leafsize root) k).
      { revert Hlen Hmax. unfold extent_end. destruct (type k =? BTRFS_METADATA_ITEM_KEY); intros; rewrite u64_id by lia; done. }
      rewrite Hend2. rewrite !bind_assoc. rewrite (bind_some _ _ _ _ _ Hrun). rewrite (bind_some _ _ _ _ _ (eq_refl : ret (extent_end (leafsize root) k) _ = Some (_, _))).
      destruct (Hnext fw1 Lf1 (extent_end (leafsize root) k)) as (p & fw' & Lf' & r & Hrest & Hw); [by destruct Hfill|by destruct Hfill|lia| | |].
      * intros k' Hin Hk'. by apply (extents_after _ k d rest).
      * intros i Hi. destruct (fl_only _ _ _ _ _ Hfill i) as [->|[? _]]; [apply Hz; lia|lia].
      * exists p, fw', Lf', r. split; [exact Hrest|]. by apply (walked_extent _ _ _ _ _ _ fw1 Lf1).
    + rewrite (bind_some _ _ _ _ _ (eq_refl : ret last _ = Some (_, _))).
      destruct (Hnext (ai_free_space_cache x) Lf last) as (p & fw' & Lf' & r & Hrest & Hw); [done|done|done| |done|].
      * intros k' Hin. apply Habove. by right.
      * exists p, fw', Lf', r. rewrite put_free_same in Hrest. split; [exact Hrest|]. by apply walked_skip.
Qed.
End Walk.

(** ** The stripes with a super block *)

Lemma rmap_in_chunk {T} `{RbTreeLaws T} (t : btrfs_mapping_tree T) ms m pr (physical devid : Z) :
  mapping_ok t ms -> (m, pr) ∈ ms -> 0 <= physical ->
  exists l step, btrfs_rmap_block t (ce_start (map_ce m)) physical devid = Some (l, step) /\ 0 < step /\
    forall y, y ∈ l -> 0 <= y /\ y + step < 2 ^ 64.
Proof.
  intros Hok Hin Hphy. destruct (search_map_found t ms m pr 0 Hok Hin) as (Hm & q & Hq & Hmq).
  { pose proof (proj1 (Forall_forall _ _) (mk_chunks t ms Hok) _ Hin) as Hm. cbn [fst snd] in Hm.
    pose proof (mo_size _ _ Hm). pose proof (mo_rows _ _ Hm). pose proof (data_pos m pr Hm). pose proof (mo_len _ _ Hm). nia. }
  rewrite Z.add_0_r in Hq. destruct (rmap_loop_run m pr Hm physical devid (map_stripes m) [] [] Hphy eq_refl) as (l & Hl & Hiff).
  exists l, (rmap_step m pr). split; [|split; [by apply step_pos|]].
  { unfold btrfs_rmap_block. rewrite Hq. cbn [mbind option_bind]. rewrite Hmq. cbn [mbind option_bind].
    rewrite (rmap_lengths_run m pr Hm). cbn [mbind option_bind]. unfold all_stripes.
    pose proof (mo_stripes m pr Hm) as Hlen. rewrite (proj2 (Z.ltb_ge _ _)) by lia. cbn [mbind option_bind].
    rewrite firstn_all2 by lia. change (Z.of_nat (length [])) with 0 in Hl. by rewrite Hl. }
  intros y [Hy|(i & Hi & [_ Hr] & ->)]%Hiff; [by apply not_elem_of_nil in Hy|]. change (Z.of_nat (length [])) with 0 in Hi.
  pose proof (mo_len _ _ Hm). set (row := (physical - bs_physical (the_stripe m i)) / map_stripe_len m).
  assert (Hrow : 0 <= row < rows m pr).
  { split; [apply Z.div_pos; lia|]. apply Z.div_lt_upper_bound; [lia|]. unfold dev_len in Hr. lia. }
  destruct (rmap_nr_bounds m pr Hm row i Hrow Hi) as [Hnr Hend]. pose proof (mo_start _ _ Hm). pose proof (mo_end _ _ Hm). pose proof (step_pos m pr Hm).
  split; [|lia]. unfold rmap_addr. nia.
Qed.

Section Super.
Context {T : Type} `{RbTreeLaws T}.
Implicit Types (x : alloc_info T) (fw : io_world T) (F : Z -> Z) (P Q : Z -> Prop).

(** What taking the bytes of [P] out of the free space makes of it, as far as the
    memory goes. *)
Record taken P fw F fw' F' : Prop := {
  tk_flags : flags_are fw' F';
  tk_mallocs : (iw_mallocs fw' <= iw_mallocs fw)%nat;
  tk_only : forall i, free_byte F' i -> free_byte F i;
  tk_keep : forall i, free_byte F i -> ~ P i -> free_byte F' i;
  tk_all : (0 < iw_mallocs fw')%nat -> forall i, free_byte F' i -> ~ P i;
}.

Lemma taken_none P fw F : flags_are fw F -> (forall i, ~ P i) -> taken P fw F fw F.
Proof. intros Hf Hn. by split. Qed.

Lemma taken_trans P Q R fw F fw1 F1 fw2 F2 :
  taken P fw F fw1 F1 -> taken Q fw1 F1 fw2 F2 -> (forall i, R i <-> P i \/ Q i) -> taken R fw F fw2 F2.
Proof.
  intros [H1 H2 H3 H4 H5] [H6 H7 H8 H9 H10] HR. split; [done|lia|by auto| |].
  - intros i Hi Hn. apply H9; [apply H4; [done|]|]; intros ?; apply Hn, HR; tauto.
  - intros Hm i Hi [HP|HQ]%HR; [|by apply (H10 Hm i)]. apply (H5 ltac:(lia) i); by auto.
Qed.

Lemma clear_stripes_run l step x F : flags_are (ai_free_space_cache x) F -> 0 < step -> (forall y, y ∈ l -> 0 <= y /\ y + step < 2 ^ 64) ->
  exists fw' F', clear_stripes l step x = Some (tt, put_free fw' x) /\
    taken (fun i => exists y, y ∈ l /\ y <= i < y + step) (ai_free_space_cache x) F fw' F'.
Proof.
  intros Hf Hstep. revert x F Hf. induction l as [|a l IH]; intros x F Hf Hl; cbn [clear_stripes].
  { exists (ai_free_space_cache x), F. rewrite put_free_same. split; [done|]. apply taken_none; [done|]. intros i (y & Hy & _). by apply not_elem_of_nil in Hy. }
  destruct (Hl a (list_elem_of_here _ _)) as [Ha Hb]. rewrite u64_id by lia.
  destruct (io_clear_out (ai_free_space_cache x) F a (a + step - 1) EXTENT_DIRTY Hf) as (r & fw1 & m & Hrun & Hm & Hmem & Hmal & Hf1);
    [lia|unfold U64_MAX; lia|unfold EXTENT_DIRTY; lia|].
  set (F1 := fun i => if (a <=? i) && (i <? m) then Z.ldiff (F i) EXTENT_DIRTY else F i) in *.
  destruct (IH (put_free fw1 x) F1 Hf1) as (fw' & F' & Hrest & Htk); [intros y Hy; apply Hl; by right|].
  exists fw', F'. split.
  { rewrite (bind_some _ _ x r (put_free fw1 x)); [exact Hrest|]. unfold on_free, zoom. by rewrite Hrun. }
  eapply (taken_trans (fun i => a <= i < a + step)); [|exact Htk|].
  - split; [done|done| | |].
    + intros i. unfold free_byte, F1. destruct ((a <=? i) && (i <? m)); [|done]. intros Hi. by rewrite land_ldiff in Hi.
    + intros i Hi Hn. unfold free_byte, F1 in *. destruct (Z.leb_spec a i), (Z.ltb_spec i m); cbn [andb]; try done. exfalso. cbn beta in Hn. lia.
    + intros Hpos i Hi HP. cbn beta in HP. change (0 < iw_mallocs fw1)%nat in Hpos. destruct Hmem as [->|]; [|lia]. unfold free_byte, F1 in Hi.
      rewrite (proj2 (Z.leb_le _ _)), (proj2 (Z.ltb_lt _ _)) in Hi by lia. cbn [andb] in Hi. by rewrite land_ldiff in Hi.
  - intros i. cbn beta. split.
    + intros (y & [->|Hy]%elem_of_cons & Hi); [by left|right; by exists y].
    + intros [Hi|(y & Hy & Hi)]; [exists a; split; [by left|done]|exists y; split; [by right|done]].
Qed.

(** The byte is in a stripe of the group that has the first byte of one of the
    [n] copies from the [i]-th on, on some device. *)
Definition super_stripe (t : btrfs_mapping_tree T) (start : Z) (n : nat) (i a : Z) : Prop :=
  exists j l step y, i <= j < i + Z.of_nat n /\ btrfs_rmap_block t start (btrfs_sb_offset j) 0 = Some (l, step) /\ y ∈ l /\ y <= a < y + step.

Lemma remove_sb_run g ms m pr n (i : Z) x F : flags_are (ai_free_space_cache x) F -> 0 <= i -> 
  mapping_ok (ai_mapping x) ms -> (m, pr) ∈ ms -> ce_start (map_ce m) = bg_objectid g ->
  exists fw' F', remove_sb_loop n g i x = Some (tt, put_free fw' x) /\
    taken (super_stripe (ai_mapping x) (bg_objectid g) n i) (ai_free_space_cache x) F fw' F'.
Proof.
  intros Hf Hi Hmap Hin Hst. revert i x F Hf Hi Hmap. induction n as [|n IH]; intros i x F Hf Hi Hmap; cbn [remove_sb_loop].
  { exists (ai_free_space_cache x), F. rewrite put_free_same. split; [done|]. apply taken_none; [done|]. intros a (j & _ & _ & _ & Hj & _). lia. }
  destruct (rmap_in_chunk (ai_mapping x) ms m pr (btrfs_sb_offset i) 0 Hmap Hin) as (l & step & Hr & Hstep & Hl).
  { unfold btrfs_sb_offset. destruct (negb _); [apply Z.mod_pos_bound; lia|unfold BTRFS_SUPER_INFO_OFFSET; lia]. }
  rewrite Hst in Hr. rewrite (bind_some _ _ x (l, step) x) by (unfold deref; by rewrite Hr). cbn [fst snd].
  destruct (clear_stripes_run (rev l) step x F Hf Hstep) as (fw1 & F1 & Hrun & Htk).
  { intros y Hy. apply Hl. apply list_elem_of_In. apply in_rev. by apply list_elem_of_In. }
  rewrite (bind_some _ _ _ _ _ Hrun). destruct (IH (i + 1) (put_free fw1 x) F1) as (fw' & F' & Hrest & Htk2); [by destruct Htk|lia|done|].
  exists fw', F'. split; [exact Hrest|]. eapply taken_trans; [exact Htk|exact Htk2|]. intros a. cbn beta. change (ai_mapping (put_free fw1 x)) with (ai_mapping x). split.
  - intros (j & l' & step' & y & Hj & Hr' & Hy & Ha). destruct (decide (j = i)) as [->|Hne].
    + left. rewrite Hr in Hr'. injection Hr' as <- <-. exists y. split; [|done]. apply list_elem_of_In, in_rev. rewrite rev_involutive. by apply list_elem_of_In.
    + right. exists j, l', step', y. split; [lia|done].
  - intros [(y & Hy & Ha)|(j & l' & step' & y & Hj & Hr' & Hy & Ha)].
    + exists i, l, step, y. split; [lia|]. split; [done|]. split; [|done]. apply list_elem_of_In, in_rev. by apply list_elem_of_In.
    + exists j, l', step', y. split; [lia|done].
Qed.
End Super.

(** ** The whole *)

Section Group.
Context {T : Type} `{RbTreeLaws T} (env : alloc_env).
Context (Hroot : root_ok (te_root (ae_tree env))).
Abbreviation root := (te_root (ae_tree env)).
#[local] Existing Instance no_extent_tree.
Implicit Types (w : tree_world unit) (x : alloc_info T) (L A B pre post : list item) (key k : btrfs_key).

Lemma key_below k base : key_lt k (BtrfsKey base 0 0) <-> objectid k < base \/ objectid k = base /\ (type k < 0 \/ type k = 0 /\ offset k < 0).
Proof. unfold key_lt, btrfs_comp_keys. cbn [objectid type offset]. zbool; lia. Qed.

(** Where a search that has not failed leaves the path. *)
Lemma search_place w n (b : Z) L key r p (lb : Z) e pre l post :
  looked_up (ae_tree env) w n b L key r p lb e pre l post -> sorted_keys (L.*1) ->
  0 <= r /\ exists A B, L = pre ++ (A ++ B) ++ post /\ l = A ++ B /\ p_slots p 0 = Z.of_nat (length A) /\
    (forall k, k ∈ (pre ++ A).*1 -> key_lt k key) /\ (forall k, k ∈ (B ++ post).*1 -> ~ key_lt k key).
Proof.
  intros Hlu Hs. pose proof Hlu as [HL _ _ _ _ _ _ Hpre Hpost _]. rewrite Forall_forall in Hpre, Hpost.
  assert (Hnot : forall k, key_lt key k -> ~ key_lt k key) by (intros k H1 H2; by apply (key_lt_irrefl k), (key_lt_trans _ key)).
  destruct (looked_up_cases (ae_tree env) _ n b L key r p lb e pre l post Hlu Hs) as [(-> & A & d & B & -> & Hslot & _)|(-> & _ & A & B & -> & Hslot & HA & HB)].
  - split; [lia|]. exists A, ((key, d) :: B). split_and!; [done|done|done| |].
    + intros k Hk. rewrite fmap_app in Hk. apply elem_of_app in Hk as [Hk|Hk]; [by apply Hpre|].
      rewrite HL, !fmap_app, fmap_cons in Hs. apply StronglySorted_app in Hs as (_ & _ & Hs). apply StronglySorted_app in Hs as (_ & Hs & _).
      apply StronglySorted_app in Hs as (Hcross & _ & _). apply (Hcross k key Hk). by left.
    + intros k Hk. cbn [app] in Hk. rewrite fmap_cons, fmap_app in Hk. cbn [fst] in Hk.
      apply elem_of_cons in Hk as [->|Hk]; [apply key_lt_irrefl|]. apply elem_of_app in Hk as [Hk|Hk]; apply Hnot; [|by apply Hpost].
      rewrite HL, !fmap_app, fmap_cons in Hs. apply StronglySorted_app in Hs as (_ & _ & Hs). apply StronglySorted_app in Hs as (_ & Hs & _).
      apply StronglySorted_app in Hs as (_ & _ & Hs). apply StronglySorted_cons in Hs as [Hs _]. rewrite Forall_forall in Hs. by apply Hs.
  - rewrite Forall_forall in HA, HB. split; [lia|]. exists A, B. split_and!; [done|done|done| |]; intros k Hk; rewrite fmap_app in Hk; apply elem_of_app in Hk as [Hk|Hk].
    + by apply Hpre.
    + by apply HA.
    + by apply Hnot, HB.
    + by apply Hnot, Hpost.
Qed.

Context (v : tree_view) (n : nat) (b : Z) (L : list item) (g : block_group).

(** The first byte that can be free: the first super block is in the way. *)
Definition cache_base : Z := Z.max (bg_objectid g) BTRFS_SUPER_INFO_OFFSET.

(** The extent tree of [v] holds the items [L], which are extents apart from each
    other, none of them across the beginning of the group. *)
Record group_tree : Prop := {
  gt_node : tv_node v = Some b;
  gt_tree : subtree root (tv_blocks v) n b L;
  gt_depth : (n < 7)%nat;
  gt_fuel : (n < ae_fuel env)%nat /\ (2 * length L + 2 <= ae_fuel env)%nat;
  gt_extents : extents_ok (leafsize root) L;
  gt_start : 0 <= bg_objectid g /\ 0 <= bg_offset g /\ bg_objectid g + bg_offset g < U64_MAX;
  gt_before : forall k, k ∈ L.*1 -> is_extent k = true -> objectid k < cache_base -> extent_end (leafsize root) k <= cache_base;
}.
Context (Hgt : group_tree).

(** A byte of the group that no extent has. *)
Definition hole (i : Z) : Prop := cache_base <= i < bg_objectid g + bg_offset g /\ ~ covered (leafsize root) L i.

(** The search, the walk and the last hole. *)
Lemma cache_walk_run x Lf : io_ok (ai_free_space_cache x) [] Lf -> flagged Lf ->
  (forall i, cache_base <= i < bg_objectid g + bg_offset g -> flag_of Lf.*2 i = 0) ->
  exists r w1 w2 fw1 last fw2 Lf2,
    btrfs_search_slot (ae_tree env) (ae_fuel env) (BtrfsKey cache_base 0 0) 0 false (TreeWorld (tv_blocks v) (tv_node v) btrfs_init_path tt) = Some (r, w1) /\
    (r <? 0) = false /\ cache_loop env (ae_fuel env) g cache_base (w1, x) = Some (Some last, (w2, put_free fw1 x)) /\
    (if last <? bg_end g then bind (on_free (io_set last (u64 (last + u64 (bg_end g - last) - 1)) EXTENT_DIRTY)) (fun _ => ret tt) else ret tt) (put_free fw1 x) =
      Some (tt, put_free fw2 x) /\ filled hole (ai_free_space_cache x) Lf fw2 Lf2.
Proof using Hroot Hgt H0.
  intros Hok Hf Hz. destruct Hgt as [Hb Ht Hn [Hfn Hfl] Hext (Hs0 & Hs1 & Hs2) Hbef].
  assert (Hend : bg_end g = bg_objectid g + bg_offset g) by (unfold bg_end, U64_MAX in *; rewrite u64_id; lia).
  assert (Hbase : bg_objectid g <= cache_base /\ 0 <= cache_base) by (unfold cache_base, BTRFS_SUPER_INFO_OFFSET; lia).
  set (key := BtrfsKey cache_base 0 0). set (w := TreeWorld (tv_blocks v) (tv_node v) btrfs_init_path tt).
  destruct (lookup_run (ae_tree env) Hroot w n b L key false (ae_fuel env) Hb Ht (eo_sorted _ _ Hext) Hn Hfn eq_refl) as (r & p & lb & e & pre & l & post & Hrun & Hlu); [done|].
  destruct (search_place w n b L key r p lb e pre l post Hlu (eo_sorted _ _ Hext)) as (Hr & A & B & HL & -> & Hslot & Hlow & Hhigh).
  assert (Hob : forall k, k ∈ (B ++ post).*1 -> cache_base <= objectid k).
  { intros k Hk. specialize (Hhigh k Hk). destruct (Z.lt_ge_cases (objectid k) cache_base); [|done]. exfalso. apply Hhigh, key_below. by left. }
  assert (Hkeys : L.*1 = (pre ++ A).*1 ++ (B ++ post).*1) by (rewrite HL, !fmap_app; by rewrite <- !(assoc_L (++))).
  assert (Hcov : forall i, cache_base <= i -> covered (leafsize root) L i <-> covered (leafsize root) (B ++ post) i).
  { intros i Hi. unfold covered. rewrite Hkeys. split; intros (k & Hk & He & Hr').
    - apply elem_of_app in Hk as [Hk|Hk]; [exfalso|by exists k]. pose proof (Hlow k Hk) as Hlt.
      apply key_below in Hlt as [Hlt'|[_ Hty]].
      + specialize (Hbef k). rewrite Hkeys in Hbef. specialize (Hbef ltac:(apply elem_of_app; by left) He Hlt'). lia.
      + unfold is_extent, BTRFS_EXTENT_ITEM_KEY, BTRFS_METADATA_ITEM_KEY in He. apply orb_true_iff in He. lia.
    - exists k. split; [apply elem_of_app; by right|done]. }
  assert (Hrest : extents_ok (leafsize root) (B ++ post)).
  { destruct Hext as [E1 E2 E3]. rewrite Hkeys in E1, E2, E3. split.
    - by apply StronglySorted_app in E1 as (_ & _ & E1).
    - intros k Hk. apply E2. apply elem_of_app. by right.
    - intros k1 k2 H1 H2. apply E3; apply elem_of_app; by right. }
  destruct (cache_loop_run env Hroot g ltac:(rewrite Hend; lia) n b L ltac:(lia) (ae_fuel env) (with_path w p) x pre A B post cache_base Lf)
    as (p' & fw1 & Lf1 & last & Hloop & [W1 W2 W3]); [done|exact (lu_path _ _ _ _ _ _ _ _ _ _ _ _ _ Hlu)|exact (lu_top _ _ _ _ _ _ _ _ _ _ _ _ _ Hlu)|done| |done|lia| |by auto|done|done|by rewrite Hend|].
  { rewrite HL in Hfl. rewrite !length_app in *. destruct B; simpl in *; lia. }
  { apply Forall_forall. intros k Hk. specialize (Hob k Hk). lia. }
  exists r, (with_path w p), (with_path (with_path w p) p'), fw1, last.
  pose proof W3 as [O1 O2 O3 O4 O5]. destruct (Z.ltb_spec last (bg_end g)) as [Hlt|Hge].
  - assert (Ha : u64 (last + u64 (bg_end g - last) - 1) = bg_end g - 1) by (unfold U64_MAX in *; rewrite (u64_id (bg_end g - last)), u64_id by lia; lia).
    destruct (fill_hole_run fw1 Lf1 last (bg_end g - 1) O1 O2) as (r2 & fw2 & Lf2 & Hset & Hfill); [lia|lia| |].
    { intros i Hi. destruct (O4 i) as [->|[? _]]; [apply Hz; lia|lia]. }
    exists fw2, Lf2. split_and!; [exact Hrun|by apply Z.ltb_ge|exact Hloop| |].
    + rewrite Ha. rewrite (bind_some _ _ _ r2 (put_free fw2 x)); [done|]. unfold on_free, zoom. change (ai_free_space_cache (put_free fw1 x)) with fw1. by rewrite Hset.
    + eapply filled_trans; [exact W3|exact Hfill|]. intros i. cbn beta. unfold hole. rewrite <- Hend. split.
      * intros [Hi Hn']. rewrite Hcov in Hn' by lia. destruct (Z.lt_ge_cases i last); [left; split_and!; lia || done|right; lia].
      * intros [(Hi & Hi2 & Hn')|Hi]; (split; [lia|]); rewrite Hcov by lia; [done|]. apply W2. lia.
  - exists fw1, Lf1. split_and!; [exact Hrun|by apply Z.ltb_ge|exact Hloop|done|].
    eapply filled_same; [|exact W3]. intros i. cbn beta. unfold hole. rewrite <- Hend. split.
    + intros [Hi Hn']. rewrite Hcov in Hn' by lia. split; [lia|]. split; [lia|done].
    + intros (Hi & Hi2 & Hn'). split; [lia|]. by rewrite Hcov by lia.
Qed.

Lemma cache_group_run x p Lf ms m pr :
  ai_groups x !! p = Some g -> bg_cached g = false -> ae_mem env = true ->
  mapping_ok (ai_mapping x) ms -> (m, pr) ∈ ms -> ce_start (map_ce m) = bg_objectid g ->
  io_ok (ai_free_space_cache x) [] Lf -> flagged Lf -> (forall i, cache_base <= i < bg_objectid g + bg_offset g -> flag_of Lf.*2 i = 0) ->
  exists fw F, cache_block_group env v p x = Some (0, put_groups (<[p := bg_with_cached g]> (ai_groups x)) (put_free fw x)) /\ flags_are fw F /\
    (forall i, free_byte F i -> free_byte (flag_of Lf.*2) i \/ hole i) /\
    ((0 < iw_mallocs fw)%nat -> forall i, free_byte F i <->
       ~ super_stripe (ai_mapping x) (bg_objectid g) (Z.to_nat BTRFS_SUPER_MIRROR_MAX) 0 i /\ (free_byte (flag_of Lf.*2) i \/ hole i)).
Proof using Hroot Hgt H0.
  intros Hp Hc Hmem Hmap Hin Hst Hok Hf Hz.
  destruct (cache_walk_run x Lf Hok Hf Hz) as (r & w1 & w2 & fw1 & last & fw2 & Lf2 & Hsearch & Hr & Hloop & Hset & [F1 F2 F3 F4 F5]).
  destruct (remove_sb_run g ms m pr (Z.to_nat BTRFS_SUPER_MIRROR_MAX) 0 (put_free fw2 x) (flag_of Lf2.*2)) as (fw' & F' & Hrem & [T1 T2 T3 T4 T5]);
    [by exists Lf2|lia|done|done|done|]. change (ai_free_space_cache (put_free fw2 x)) with fw2 in T2. change (ai_mapping (put_free fw2 x)) with (ai_mapping x) in *.
  assert (Hdirty : forall i, flag_of Lf2.*2 i = EXTENT_DIRTY -> free_byte (flag_of Lf2.*2) i) by (intros i Hi; unfold free_byte; by rewrite Hi).
  assert (Honly : forall i, free_byte (flag_of Lf2.*2) i -> free_byte (flag_of Lf.*2) i \/ hole i).
  { intros i Hi. destruct (F4 i) as [Heq|[? _]]; [left|by right]. unfold free_byte in *. by rewrite <- Heq. }
  exists fw', F'. split_and!; [|done|by auto|].
  - unfold cache_block_group. assert (Hget : forall (x' : alloc_info T), ai_groups x' = ai_groups x -> bg_get p x' = Some (g, x')) by (intros x' Hx'; unfold bg_get, deref; by rewrite Hx', Hp).
    rewrite (bind_some _ _ _ _ _ (Hget x eq_refl)), Hc, Hmem. cbn [negb]. cbv zeta. fold cache_base.
    rewrite Hsearch. rewrite (bind_some _ _ x (r, w1) x) by done. cbn [fst snd]. rewrite Hr.
    rewrite (bind_some _ _ x (Some last) (put_free fw1 x)) by (unfold zoom; by rewrite Hloop).
    rewrite (bind_some _ _ _ _ _ Hset). unfold remove_sb_from_cache. rewrite bind_assoc, (bind_some _ _ _ _ _ Hrem).
    rewrite (bind_some _ _ (put_free fw' (put_free fw2 x)) 0 (put_free fw' (put_free fw2 x))) by done.
    rewrite (bind_some _ _ _ _ _ (Hget (put_free fw' (put_free fw2 x)) eq_refl)). done.
  - intros Hm i. split; [intros Hi; split; [by apply T5|by auto]|]. intros [Hs [Hi|Hi]]; (apply T4; [|done]).
    + destruct (F4 i) as [Heq|[_ ?]]; [|by apply Hdirty]. unfold free_byte. by rewrite Heq.
    + apply Hdirty, F5; [lia|done].
Qed.

(** C13: Reading the free space of a group whose bytes are not in the cache yet, when
    the extents in the tree do not overlap and none reaches across its beginning:
    [cache_block_group] ends with 0, marks the group as read, and changes nothing
    else than the cache of free space.  A byte that is free afterwards was so
    before, or is a byte of the group, behind the first 64 KiB of the address
    space, that no extent item of the tree has.  Unless an allocation has failed,
    the free bytes are exactly these but for the stripes that hold a copy of the
    super block. *)
Theorem cache_block_group_correct x p Lf ms m pr :
  ai_groups x !! p = Some g -> bg_cached g = false -> ae_mem env = true ->
  mapping_ok (ai_mapping x) ms -> (m, pr) ∈ ms -> ce_start (map_ce m) = bg_objectid g ->
  io_ok (ai_free_space_cache x) [] Lf -> flagged Lf -> (forall i, cache_base <= i < bg_objectid g + bg_offset g -> flag_of Lf.*2 i = 0) ->
  exists fw F, cache_block_group env v p x = Some (0, put_groups (<[p := bg_with_cached g]> (ai_groups x)) (put_free fw x)) /\ flags_are fw F /\
    (forall i, free_byte F i -> free_byte (flag_of Lf.*2) i \/ hole i) /\
    ((0 < iw_mallocs fw)%nat -> forall i, free_byte F i <->
       ~ super_stripe (ai_mapping x) (bg_objectid g) (Z.to_nat BTRFS_SUPER_MIRROR_MAX) 0 i /\ (free_byte (flag_of Lf.*2) i \/ hole i)).
Proof using Hroot Hgt H0. apply cache_group_run. Qed.
End Group.

(** ** A group with two extents

    The group is the chunk of [demo_raid10]; a data extent of 4 KiB begins 4 KiB
    behind its start, a tree block 16 KiB behind it. *)

Definition data_key : btrfs_key := BtrfsKey 0x501000 BTRFS_EXTENT_ITEM_KEY 4096.
Definition block_key : btrfs_key := BtrfsKey 0x504000 BTRFS_METADATA_ITEM_KEY 0.
Definition group_items : list item := [(data_key, [1]); (block_key, [2])].
Definition group_leaf : buf := put_item small_root (put_item small_root (blank 7 0) (data_key, [1])) (block_key, [2]).
Definition group_view : tree_view := TreeView {[ 4096 := ExtentBuffer 4096 false group_leaf ]} (Some 4096).
Definition uncached_group : block_group :=
  BlockGroup 0x500000 0x40000 8192 256 BTRFS_BLOCK_GROUP_METADATA 0 BTRFS_BLOCK_GROUP_METADATA 0 false false.
Definition uncached_alloc : alloc_info rb_mem :=
  AllocInfo no_states no_states no_states no_states no_states {[1 := uncached_group]} ∅ 2
    [SpaceInfo BTRFS_BLOCK_GROUP_METADATA 0x40000 8192 0 false] 0 8192 ∅ 0 0 0 None 0 0 (one_chunk demo_raid10).
Definition group_env : alloc_env := AllocEnv demo_env 4096 4096 false 0 0 0 0 true 8.

Lemma group_extents : extents_ok (leafsize small_root) group_items.
Proof.
  split.
  - repeat constructor.
  - intros k Hk. repeat (apply elem_of_cons in Hk as [->|Hk]; [intros _; vm_compute; split_and!; (done || discriminate)|]). by apply not_elem_of_nil in Hk.
  - intros k1 k2 H1 H2 _ _ Hne. apply list_elem_of_In in H1 as [<-|[<-|[]]], H2 as [<-|[<-|[]]]; try done; [left|right]; vm_compute; discriminate.
Qed.

Lemma group_tree_ok : group_tree group_env group_view 0 4096 group_items uncached_group.
Proof.
  split; [done| |lia|split; simpl; lia|apply group_extents|by vm_compute|].
  - eexists. split; [reflexivity|]. split; [reflexivity|]. split; [vm_compute; reflexivity|]. split; vm_compute; congruence.
  - intros k Hk _ Hlt. exfalso. apply list_elem_of_In in Hk as [<-|[<-|[]]]; vm_compute in Hlt; discriminate.
Qed.

Lemma group_no_super a : ~ super_stripe (one_chunk demo_raid10) 0x500000 3 0 a.
Proof.
  intros (j & l & step & y & Hj & Hr & Hy & _). assert (E : fst <$> btrfs_rmap_block (one_chunk demo_raid10) 0x500000 (btrfs_sb_offset j) 0 = Some []).
  { assert (j = 0 \/ j = 1 \/ j = 2) as [->|[->| ->]] by lia; vm_compute; reflexivity. }
  rewrite Hr in E. injection E as ->. by apply not_elem_of_nil in Hy.
Qed.

Lemma group_hole i : i = 0x500000 \/ i = 0x502000 -> hole group_env group_items uncached_group i.
Proof.
  intros Hi. split; [destruct Hi as [->| ->]; vm_compute; split; (reflexivity || discriminate)|].
  intros (k & Hk & _ & Hr). apply list_elem_of_In in Hk as [<-|[<-|[]]]; unfold extent_end in Hr; simpl in Hr; lia.
Qed.

Lemma cache_block_group_correct_witness :
  exists F x', cache_block_group group_env group_view 1 uncached_alloc = Some (0, x') /\ flags_are (ai_free_space_cache x') F /\
    free_byte F 0x500000 /\ ~ free_byte F 0x501000 /\ free_byte F 0x502000.
Proof.
  destruct (cache_block_group_correct group_env small_root_ok group_view 0 4096 group_items uncached_group group_tree_ok uncached_alloc 1 []
    [(demo_raid10, Raid10)] demo_raid10 Raid10) as (fw & F & Hrun & HF & Honly & Hall);
    [reflexivity|reflexivity|reflexivity|apply one_chunk_ok, demo_raid10_ok|by left|reflexivity|apply no_states_ok|by constructor|done|].
  assert (Hm : (0 < iw_mallocs fw)%nat).
  { assert (E : (fun r => iw_mallocs (ai_free_space_cache r.2)) <$> cache_block_group group_env group_view 1 uncached_alloc = Some 97%nat) by (vm_compute; reflexivity).
    rewrite Hrun in E. injection E as E. lia. }
  eexists F, _. split; [exact Hrun|]. split; [exact HF|]. split_and!.
  - apply (Hall Hm). split; [apply group_no_super|right; apply group_hole; by left].
  - intros Hf. destruct (Honly _ Hf) as [Hz|[_ Hn]]; [by apply Hz|]. apply Hn. exists data_key.
    split; [by left|]. split; [reflexivity|]. vm_compute. split; [discriminate|reflexivity].
  - apply (Hall Hm). split; [apply group_no_super|right; apply group_hole; by right].
Defined.
