(* ===== verification/ExtentItem.v ===== *)
(** The items of the extent tree: the structures of [src/ctree.h] for extents
    and their back references, and the parts of [src/extent-tree.c] that work on
    the bytes of one item.  A [struct ... *] into a leaf is an offset in the
    leaf. *)

From S2P Require Import Prelude Buf CtreeFmt ItemFmt LeafOps Crc.

Implicit Types (b leaf : buf).

Definition BTRFS_TREE_BLOCK_REF_KEY : Z := 176.
Definition BTRFS_EXTENT_DATA_REF_KEY : Z := 178.
Definition BTRFS_EXTENT_REF_V0_KEY : Z := 180.
Definition BTRFS_SHARED_BLOCK_REF_KEY : Z := 182.
Definition BTRFS_SHARED_DATA_REF_KEY : Z := 184.
Definition BTRFS_EXTENT_FLAG_DATA : Z := 1.
Definition BTRFS_EXTENT_FLAG_TREE_BLOCK : Z := 2.
Definition BTRFS_TREE_LOG_OBJECTID : Z := 2 ^ 64 - 6.

(** [struct btrfs_extent_item], [struct btrfs_extent_item_v0] *)
Definition sizeof_extent_item : Z := 24.
Definition btrfs_extent_refs b (ei : Z) : Z := get_le 8 b ei.
Definition btrfs_set_extent_refs b (ei v : Z) : buf := put_le 8 ei v b.
Definition btrfs_set_extent_generation b (ei v : Z) : buf := put_le 8 (ei + 8) v b.
Definition btrfs_extent_flags b (ei : Z) : Z := get_le 8 b (ei + 16).
Definition btrfs_set_extent_flags b (ei v : Z) : buf := put_le 8 (ei + 16) v b.
Definition sizeof_extent_item_v0 : Z := 4.
Definition btrfs_extent_refs_v0 b (ei : Z) : Z := get_le 4 b ei.

(** [struct btrfs_tree_block_info] *)
Definition sizeof_tree_block_info : Z := 18.
Definition btrfs_set_tree_block_key b (bi : Z) (key : btrfs_key) : buf := write_disk_key b bi key.
Definition btrfs_tree_block_level b (bi : Z) : Z := get_le 1 b (bi + 17).
Definition btrfs_set_tree_block_level b (bi v : Z) : buf := put_le 1 (bi + 17) v b.

(** [struct btrfs_extent_data_ref], [struct btrfs_shared_data_ref] *)
Definition sizeof_extent_data_ref : Z := 28.
Definition btrfs_extent_data_ref_root b (ref : Z) : Z := get_le 8 b ref.
Definition btrfs_set_extent_data_ref_root b (ref v : Z) : buf := put_le 8 ref v b.
Definition btrfs_extent_data_ref_objectid b (ref : Z) : Z := get_le 8 b (ref + 8).
Definition btrfs_set_extent_data_ref_objectid b (ref v : Z) : buf := put_le 8 (ref + 8) v b.
Definition btrfs_extent_data_ref_offset b (ref : Z) : Z := get_le 8 b (ref + 16).
Definition btrfs_set_extent_data_ref_offset b (ref v : Z) : buf := put_le 8 (ref + 16) v b.
Definition btrfs_extent_data_ref_count b (ref : Z) : Z := get_le 4 b (ref + 24).
Definition btrfs_set_extent_data_ref_count b (ref v : Z) : buf := put_le 4 (ref + 24) v b.
Definition sizeof_shared_data_ref : Z := 4.
Definition btrfs_shared_data_ref_count b (ref : Z) : Z := get_le 4 b ref.
Definition btrfs_set_shared_data_ref_count b (ref v : Z) : buf := put_le 4 ref v b.

(** [struct btrfs_extent_inline_ref]; its offset begins behind the type. *)
Definition sizeof_extent_inline_ref : Z := 9.
Definition offsetof_inline_offset : Z := 1.
Definition btrfs_extent_inline_ref_type b (iref : Z) : Z := get_le 1 b iref.
Definition btrfs_set_extent_inline_ref_type b (iref v : Z) : buf := put_le 1 iref v b.
Definition btrfs_extent_inline_ref_offset b (iref : Z) : Z := get_le 8 b (iref + offsetof_inline_offset).
Definition btrfs_set_extent_inline_ref_offset b (iref v : Z) : buf := put_le 8 (iref + offsetof_inline_offset) v b.

(** [None] is the [BUG()] on another type. *)
Definition btrfs_extent_inline_ref_size (type : Z) : option Z :=
  if (type =? BTRFS_TREE_BLOCK_REF_KEY) || (type =? BTRFS_SHARED_BLOCK_REF_KEY) then Some sizeof_extent_inline_ref
  else if type =? BTRFS_SHARED_DATA_REF_KEY then Some (sizeof_shared_data_ref + sizeof_extent_inline_ref)
  else if type =? BTRFS_EXTENT_DATA_REF_KEY then Some (sizeof_extent_data_ref + offsetof_inline_offset)
  else None.

(** [struct btrfs_extent_ref_v0] *)
Definition btrfs_ref_objectid_v0 b (ref : Z) : Z := get_le 8 b (ref + 16).
Definition btrfs_ref_count_v0 b (ref : Z) : Z := get_le 4 b (ref + 24).
Definition btrfs_set_ref_count_v0 b (ref v : Z) : buf := put_le 4 (ref + 24) v b.

(** [struct btrfs_file_extent_item]: what is read of it here. *)
Definition btrfs_file_extent_disk_bytenr b (fi : Z) : Z := get_le 8 b (fi + 21).
Definition btrfs_file_extent_disk_num_bytes b (fi : Z) : Z := get_le 8 b (fi + 29).
Definition btrfs_file_extent_offset b (fi : Z) : Z := get_le 8 b (fi + 37).

Definition BTRFS_MAX_EXTENT_ITEM_SIZE (r : btrfs_root) : Z := Z.shiftr (BTRFS_LEAF_DATA_SIZE r) 4 - sizeof_item.

(** ** References *)

Definition hash_extent_data_ref (root_objectid owner offset : Z) : Z :=
  let high_crc := __crc32c_le (u32 (Z.lnot 0)) (le_bytes 8 root_objectid) in
  let low_crc := __crc32c_le (u32 (Z.lnot 0)) (le_bytes 8 owner) in
  let low_crc := __crc32c_le low_crc (le_bytes 8 offset) in
  Z.lxor (u64 (Z.shiftl high_crc 31)) low_crc.

Definition hash_extent_data_ref_item leaf (ref : Z) : Z :=
  hash_extent_data_ref (btrfs_extent_data_ref_root leaf ref) (btrfs_extent_data_ref_objectid leaf ref)
    (btrfs_extent_data_ref_offset leaf ref).

Definition match_extent_data_ref leaf (ref root_objectid owner offset : Z) : bool :=
  negb (negb (btrfs_extent_data_ref_root leaf ref =? root_objectid) ||
        negb (btrfs_extent_data_ref_objectid leaf ref =? owner) ||
        negb (btrfs_extent_data_ref_offset leaf ref =? offset)).

Definition extent_ref_type (parent owner : Z) : Z :=
  if owner <? BTRFS_FIRST_FREE_OBJECTID then
    if 0 <? parent then BTRFS_SHARED_BLOCK_REF_KEY else BTRFS_TREE_BLOCK_REF_KEY
  else
    if 0 <? parent then BTRFS_SHARED_DATA_REF_KEY else BTRFS_EXTENT_DATA_REF_KEY.

(** The loop of [lookup_inline_extent_backref] from [ptr]: whether the reference
    was found, and where it is or belongs.  [None]: a type that is none, a
    reference that ends behind the item, or no fuel. *)
Fixpoint inline_ref_loop (fuel : nat) leaf (want parent root_objectid owner offset ptr last : Z) : option (bool * Z) :=
  match fuel with
  | O => None
  | S fuel =>
      if last <=? ptr then
        if last <? ptr then None else Some (false, ptr)
      else
        let type := btrfs_extent_inline_ref_type leaf ptr in
        let next :=
          size ← btrfs_extent_inline_ref_size type;
          inline_ref_loop fuel leaf want parent root_objectid owner offset (ptr + size) last in
        if want <? type then Some (false, ptr)
        else if type <? want then next
        else if type =? BTRFS_EXTENT_DATA_REF_KEY then
          let dref := ptr + offsetof_inline_offset in
          if match_extent_data_ref leaf dref root_objectid owner offset then Some (true, ptr)
          else if hash_extent_data_ref_item leaf dref <? hash_extent_data_ref root_objectid owner offset
          then Some (false, ptr)
          else next
        else
          let ref_offset := btrfs_extent_inline_ref_offset leaf ptr in
          let wanted := if 0 <? parent then parent else root_objectid in
          if wanted =? ref_offset then Some (true, ptr)
          else if ref_offset <? wanted then Some (false, ptr)
          else next
  end.

(** The inline reference [setup_inline_extent_backref] writes at [ptr]. *)
Definition fill_inline_ref leaf (ptr type parent root_objectid owner offset refs_to_add : Z) : buf :=
  let leaf := btrfs_set_extent_inline_ref_type leaf ptr type in
  if type =? BTRFS_EXTENT_DATA_REF_KEY then
    let dref := ptr + offsetof_inline_offset in
    let leaf := btrfs_set_extent_data_ref_root leaf dref root_objectid in
    let leaf := btrfs_set_extent_data_ref_objectid leaf dref owner in
    let leaf := btrfs_set_extent_data_ref_offset leaf dref offset in
    btrfs_set_extent_data_ref_count leaf dref refs_to_add
  else if type =? BTRFS_SHARED_DATA_REF_KEY then
    let sref := ptr + sizeof_extent_inline_ref in
    let leaf := btrfs_set_shared_data_ref_count leaf sref refs_to_add in
    btrfs_set_extent_inline_ref_offset leaf ptr parent
  else if type =? BTRFS_SHARED_BLOCK_REF_KEY then btrfs_set_extent_inline_ref_offset leaf ptr parent
  else btrfs_set_extent_inline_ref_offset leaf ptr root_objectid.

(** What [setup_inline_extent_backref] does to the leaf once the item of [slot]
    has grown by [size]: [item_offset] is the place in the item. *)
Definition setup_inline_leaf leaf (slot item_offset size type parent root_objectid owner offset refs_to_add : Z) : buf :=
  let ei := btrfs_item_ptr_offset leaf slot in
  let leaf := btrfs_set_extent_refs leaf ei (u64 (btrfs_extent_refs leaf ei + refs_to_add)) in
  let ptr := ei + item_offset in
  let last := ei + btrfs_item_size_nr leaf slot in
  let leaf := if ptr <? last - size then memmove_extent_buffer leaf (ptr + size) ptr (last - size - ptr) else leaf in
  fill_inline_ref leaf ptr type parent root_objectid owner offset refs_to_add.

(** The number of references an inline reference stands for. *)
Definition inline_ref_count leaf (iref type : Z) : option Z :=
  if type =? BTRFS_EXTENT_DATA_REF_KEY then Some (btrfs_extent_data_ref_count leaf (iref + offsetof_inline_offset))
  else if type =? BTRFS_SHARED_DATA_REF_KEY then Some (btrfs_shared_data_ref_count leaf (iref + sizeof_extent_inline_ref))
  else None.

Definition set_inline_ref_count leaf (iref type refs : Z) : buf :=
  if type =? BTRFS_EXTENT_DATA_REF_KEY then btrfs_set_extent_data_ref_count leaf (iref + offsetof_inline_offset) refs
  else btrfs_set_shared_data_ref_count leaf (iref + sizeof_extent_inline_ref) refs.

(** The fields of an extent item with one reference by a tree, as
    [alloc_reserved_tree_block] fills them in. *)
Definition fill_tree_block leaf (ei generation flags : Z) (key : btrfs_key) (level root_objectid : Z) (skinny : bool) : buf :=
  let leaf := btrfs_set_extent_refs leaf ei 1 in
  let leaf := btrfs_set_extent_generation leaf ei generation in
  let leaf := btrfs_set_extent_flags leaf ei (Z.lor flags BTRFS_EXTENT_FLAG_TREE_BLOCK) in
  let bi := ei + sizeof_extent_item in
  let leaf := if skinny then leaf else btrfs_set_tree_block_level (btrfs_set_tree_block_key leaf bi key) bi level in
  let iref := if skinny then bi else bi + sizeof_tree_block_info in
  let leaf := btrfs_set_extent_inline_ref_type leaf iref BTRFS_TREE_BLOCK_REF_KEY in
  btrfs_set_extent_inline_ref_offset leaf iref root_objectid.
