(* ===== verification/ExtentItemSpec.v ===== *)
(** Extent items as values: a count, and the references to the extent, each with
    its own count, in the order the code keeps them in. *)

From stdpp Require Import sorting.
From S2P Require Import Prelude Buf CtreeFmt ItemFmt LeafOps Crc ExtentAlloc ExtentItem.

Implicit Types (b : buf) (l : list Z).

(** ** Moving bytes inside a buffer *)

Lemma read_memmove b dst src len n :
  Z.of_nat n = len -> read_extent_buffer (memmove_extent_buffer b dst src len) dst n = read_extent_buffer b src n.
Proof.
  intros Hn. apply read_agree. intros x Hx. unfold memmove_extent_buffer, copy_extent_buffer. zbool; try lia. f_equal. lia.
Qed.

Lemma read_memmove_other b dst src len off n :
  off + Z.of_nat n <= dst \/ dst + len <= off ->
  read_extent_buffer (memmove_extent_buffer b dst src len) off n = read_extent_buffer b off n.
Proof.
  intros Hd. apply read_same. intros x Hx. unfold memmove_extent_buffer, copy_extent_buffer. zbool; lia || done.
Qed.

Lemma memmove_outside b dst src len x : x < dst \/ dst + len <= x -> memmove_extent_buffer b dst src len x = b x.
Proof. intros Hx. unfold memmove_extent_buffer, copy_extent_buffer. zbool; lia || done. Qed.

(** ** Who refers to an extent *)

Inductive extent_ref :=
| TreeRef (root : Z)
| SharedTreeRef (parent : Z)
| DataRef (root objectid off : Z)
| SharedDataRef (parent : Z).

#[export] Instance extent_ref_eq_dec : EqDecision extent_ref.
Proof. solve_decision. Defined.

Implicit Types (r want : extent_ref).

(** The reference that the arguments [parent], [root_objectid], [owner] and
    [offset] of the code stand for. *)
Definition wanted_ref (parent root_objectid owner off : Z) : extent_ref :=
  if owner <? BTRFS_FIRST_FREE_OBJECTID then
    if 0 <? parent then SharedTreeRef parent else TreeRef root_objectid
  else
    if 0 <? parent then SharedDataRef parent else DataRef root_objectid owner off.

Definition ref_type r : Z :=
  match r with
  | TreeRef _ => BTRFS_TREE_BLOCK_REF_KEY
  | SharedTreeRef _ => BTRFS_SHARED_BLOCK_REF_KEY
  | DataRef _ _ _ => BTRFS_EXTENT_DATA_REF_KEY
  | SharedDataRef _ => BTRFS_SHARED_DATA_REF_KEY
  end.

(** References of one type come in falling order of this number. *)
Definition ref_rank r : Z :=
  match r with
  | TreeRef v | SharedTreeRef v | SharedDataRef v => v
  | DataRef root objectid off => hash_extent_data_ref root objectid off
  end.

Definition ref_is_data r : bool :=
  match r with DataRef _ _ _ | SharedDataRef _ => true | _ => false end.

Definition u64_ok (v : Z) : Prop := 0 <= v < 2 ^ 64.

Definition ref_ok r : Prop :=
  match r with
  | TreeRef v => u64_ok v
  | SharedTreeRef v | SharedDataRef v => u64_ok v /\ 0 < v
  | DataRef root objectid off => u64_ok root /\ u64_ok objectid /\ u64_ok off
  end.

(** ** The references of one item, with their counts *)

Record inline_ref := InlineRef { ir_ref : extent_ref; ir_count : Z }.
Implicit Types (i : inline_ref) (irs A B : list inline_ref).

(** A reference by a tree block counts once and has no count of its own. *)
Definition iref_ok i : Prop :=
  ref_ok (ir_ref i) /\ if ref_is_data (ir_ref i) then 0 < ir_count i < 2 ^ 32 else ir_count i = 1.

Definition iref_bytes i : list Z :=
  le_bytes 1 (ref_type (ir_ref i)) ++
  match ir_ref i with
  | TreeRef v | SharedTreeRef v => le_bytes 8 v
  | DataRef root objectid off => le_bytes 8 root ++ le_bytes 8 objectid ++ le_bytes 8 off ++ le_bytes 4 (ir_count i)
  | SharedDataRef v => le_bytes 8 v ++ le_bytes 4 (ir_count i)
  end.

Definition irefs_bytes irs : list Z := concat (iref_bytes <$> irs).

Definition ref_size r : Z :=
  match r with TreeRef _ | SharedTreeRef _ => 9 | DataRef _ _ _ => 29 | SharedDataRef _ => 13 end.

Lemma iref_bytes_length i : Z.of_nat (length (iref_bytes i)) = ref_size (ir_ref i).
Proof. unfold iref_bytes. destruct (ir_ref i); by rewrite !length_app, !le_bytes_length. Qed.

Lemma ref_size_pos r : 9 <= ref_size r <= 29.
Proof. destruct r; simpl; lia. Qed.

Lemma inline_size r : btrfs_extent_inline_ref_size (ref_type r) = Some (ref_size r).
Proof. by destruct r. Qed.

Lemma irefs_bytes_cons i irs : irefs_bytes (i :: irs) = iref_bytes i ++ irefs_bytes irs.
Proof. done. Qed.

Lemma irefs_bytes_app irs1 irs2 : irefs_bytes (irs1 ++ irs2) = irefs_bytes irs1 ++ irefs_bytes irs2.
Proof. unfold irefs_bytes. by rewrite fmap_app, concat_app. Qed.

Lemma irefs_bytes_fuel irs : (length irs <= length (irefs_bytes irs))%nat.
Proof.
  induction irs as [|i irs IH]; [done|]. rewrite irefs_bytes_cons, length_app. simpl.
  pose proof (iref_bytes_length i). pose proof (ref_size_pos (ir_ref i)). lia.
Qed.

Lemma wanted_type parent root_objectid owner off :
  extent_ref_type parent owner = ref_type (wanted_ref parent root_objectid owner off).
Proof. unfold extent_ref_type, wanted_ref. do 2 (destruct (_ <? _)); done. Qed.

(** What the accessors read of a reference at [p]. *)
Record iref_at b (p : Z) i : Prop := {
  ia_type : btrfs_extent_inline_ref_type b p = ref_type (ir_ref i);
  ia_value : match ir_ref i with
             | DataRef root objectid off =>
                 btrfs_extent_data_ref_root b (p + 1) = root /\ btrfs_extent_data_ref_objectid b (p + 1) = objectid /\
                 btrfs_extent_data_ref_offset b (p + 1) = off
             | r => btrfs_extent_inline_ref_offset b p = ref_rank r
             end;
  ia_count : inline_ref_count b p (ref_type (ir_ref i)) = if ref_is_data (ir_ref i) then Some (ir_count i) else None;
}.

Lemma iref_at_bytes b p i n : iref_ok i -> read_extent_buffer b p n = iref_bytes i -> iref_at b p i.
Proof.
  intros [Hr Hc] Hb. unfold iref_bytes in Hb. apply read_split in Hb as [Ht Hb]. rewrite le_bytes_length in *.
  assert (Hty : btrfs_extent_inline_ref_type b p = ref_type (ir_ref i)).
  { unfold btrfs_extent_inline_ref_type. rewrite get_le_read, Ht. apply le_val_id. by destruct (ir_ref i). }
  change (Z.of_nat 1) with 1 in Hb. split; [done| |]; clear Ht Hty.
  - destruct (ir_ref i) as [v|v|root objectid off|v]; simpl in Hr.
    + unfold btrfs_extent_inline_ref_offset, offsetof_inline_offset. rewrite le_bytes_length in Hb.
      rewrite get_le_read, Hb. apply le_val_id. unfold u64_ok in *. simpl. lia.
    + unfold btrfs_extent_inline_ref_offset, offsetof_inline_offset. rewrite le_bytes_length in Hb.
      rewrite get_le_read, Hb. apply le_val_id. unfold u64_ok in *. simpl. lia.
    + apply read_split in Hb as [H1 Hb]. apply read_split in Hb as [H2 Hb]. apply read_split in Hb as [H3 _].
      rewrite !le_bytes_length in *. unfold btrfs_extent_data_ref_root, btrfs_extent_data_ref_objectid, btrfs_extent_data_ref_offset.
      replace (p + 1 + Z.of_nat 8 + Z.of_nat 8) with (p + 1 + 16) in H3 by lia.
      change (Z.of_nat 8) with 8 in *. rewrite !get_le_read, H1, H2, H3, !le_val_id by (unfold u64_ok in *; simpl; lia). done.
    + apply read_split in Hb as [H1 _]. rewrite le_bytes_length in H1.
      unfold btrfs_extent_inline_ref_offset, offsetof_inline_offset. rewrite get_le_read, H1. apply le_val_id.
      unfold u64_ok in *. simpl. lia.
  - destruct (ir_ref i) as [v|v|root objectid off|v]; [done|done| |]; unfold inline_ref_count; simpl in Hc |- *.
    + do 3 apply read_split in Hb as [_ Hb]. rewrite !le_bytes_length in *. f_equal.
      unfold btrfs_extent_data_ref_count, offsetof_inline_offset.
      replace (p + 1 + Z.of_nat 8 + Z.of_nat 8 + Z.of_nat 8) with (p + 1 + 24) in Hb by lia.
      rewrite get_le_read, Hb. apply le_val_id. simpl. lia.
    + apply read_split in Hb as [_ Hb]. rewrite !le_bytes_length in *. f_equal.
      unfold btrfs_shared_data_ref_count, sizeof_extent_inline_ref.
      replace (p + 1 + Z.of_nat 8) with (p + 9) in Hb by lia. rewrite get_le_read, Hb. apply le_val_id. simpl. lia.
Qed.

(** ** Searching the references *)

(** The search goes past [i]: it is of a smaller type, or not wanted and not
    behind the place of the wanted one. *)
Definition ref_passed want i : bool :=
  (ref_type (ir_ref i) <? ref_type want) ||
  (ref_type (ir_ref i) =? ref_type want) && negb (bool_decide (ir_ref i = want)) && (ref_rank want <=? ref_rank (ir_ref i)).

(** The references the search passes, and the rest. *)
Fixpoint find_ref want irs : list inline_ref * list inline_ref :=
  match irs with
  | [] => ([], [])
  | i :: rest => if ref_passed want i then let (A, B) := find_ref want rest in (i :: A, B) else ([], irs)
  end.

Definition ref_here want irs : bool := match irs with i :: _ => bool_decide (ir_ref i = want) | [] => false end.

Lemma find_ref_app want irs : irs = (find_ref want irs).1 ++ (find_ref want irs).2.
Proof.
  induction irs as [|i irs IH]; [done|]. simpl. destruct (ref_passed want i); [|done].
  destruct (find_ref want irs) as [A B]. simpl in *. by rewrite IH.
Qed.

Lemma match_data_ref b p root objectid off root' objectid' off' :
  btrfs_extent_data_ref_root b p = root -> btrfs_extent_data_ref_objectid b p = objectid ->
  btrfs_extent_data_ref_offset b p = off ->
  match_extent_data_ref b p root' objectid' off' = bool_decide (DataRef root objectid off = DataRef root' objectid' off').
Proof.
  intros H1 H2 H3. unfold match_extent_data_ref. rewrite H1, H2, H3.
  destruct (Z.eqb_spec root root') as [->|]; [|by rewrite bool_decide_eq_false_2 by congruence].
  destruct (Z.eqb_spec objectid objectid') as [->|]; [|by rewrite bool_decide_eq_false_2 by congruence].
  destruct (Z.eqb_spec off off') as [->|]; [|by rewrite bool_decide_eq_false_2 by congruence].
  by rewrite bool_decide_eq_true_2.
Qed.

(** A reference of the type that is wanted. *)
Lemma same_type_rank r1 r2 :
  ref_type r1 = ref_type r2 -> (forall a c d, r1 <> DataRef a c d) -> bool_decide (r1 = r2) = (ref_rank r1 =? ref_rank r2).
Proof.
  intros Ht Hd. destruct (Z.eqb_spec (ref_rank r1) (ref_rank r2)) as [He|He].
  - apply bool_decide_eq_true_2. destruct r1, r2; try discriminate Ht; simpl in He; try by subst. by destruct (Hd root objectid off).
  - apply bool_decide_eq_false_2. by intros ->.
Qed.

#[local] Opaque hash_extent_data_ref.

Section Loop.
Context (parent root_objectid owner off : Z).
Abbreviation want := (wanted_ref parent root_objectid owner off).

Lemma wanted_data :
  ref_type want = BTRFS_EXTENT_DATA_REF_KEY -> want = DataRef root_objectid owner off.
Proof using Type. unfold wanted_ref. do 2 (destruct (_ <? _)); done. Qed.

Lemma wanted_rank : ref_type want <> BTRFS_EXTENT_DATA_REF_KEY ->
  ref_rank want = if 0 <? parent then parent else root_objectid.
Proof using Type. unfold wanted_ref. do 2 (destruct (_ <? _)); done. Qed.

Lemma inline_loop_run b p irs n fuel :
  Forall iref_ok irs -> read_extent_buffer b p n = irefs_bytes irs -> (length irs < fuel)%nat ->
  inline_ref_loop fuel b (extent_ref_type parent owner) parent root_objectid owner off p (p + Z.of_nat (length (irefs_bytes irs))) =
    Some (ref_here want (find_ref want irs).2, p + Z.of_nat (length (irefs_bytes (find_ref want irs).1))).
Proof using Type.
  rewrite (wanted_type parent root_objectid owner off).
  revert p n fuel. induction irs as [|i irs IH]; intros p n fuel Hok Hb Hf; (destruct fuel as [|fuel]; [simpl in Hf; lia|]); cbn [inline_ref_loop].
  { rewrite (proj2 (Z.leb_le _ _)), (proj2 (Z.ltb_ge _ _)) by (simpl; lia). simpl. by rewrite Z.add_0_r. }
  apply Forall_cons in Hok as [Hi Hok]. rewrite irefs_bytes_cons in Hb |- *. apply read_split in Hb as [Hb1 Hb2].
  destruct (iref_at_bytes b p i _ Hi Hb1) as [Ht Hv _].
  pose proof (iref_bytes_length i) as Hl. pose proof (ref_size_pos (ir_ref i)). rewrite length_app, Nat2Z.inj_add.
  rewrite (proj2 (Z.leb_gt _ _)) by lia. rewrite Ht, inline_size. cbn [mbind option_bind find_ref]. unfold ref_passed.
  assert (Hnext : inline_ref_loop fuel b (ref_type want) parent root_objectid owner off (p + ref_size (ir_ref i))
     (p + (Z.of_nat (length (iref_bytes i)) + Z.of_nat (length (irefs_bytes irs)))) =
     Some (ref_here want (find_ref want irs).2, p + (ref_size (ir_ref i) + Z.of_nat (length (irefs_bytes (find_ref want irs).1))))).
  { rewrite <- Hl, !Z.add_assoc. eapply IH; [done|exact Hb2|simpl in Hf; lia]. }
  assert (Hgo : forall c : bool, (if c then let (A, B) := find_ref want irs in (i :: A, B) else ([], i :: irs)) =
     (if c then (i :: (find_ref want irs).1, (find_ref want irs).2) else ([], i :: irs))) by (intros []; [by destruct (find_ref want irs)|done]).
  rewrite Hgo. clear Hgo.
  destruct (Z.ltb_spec (ref_type want) (ref_type (ir_ref i))) as [Hlt|Hge].
  { rewrite (proj2 (Z.ltb_ge _ _)), (proj2 (Z.eqb_neq _ _)) by lia. cbn [orb andb fst snd ref_here]. rewrite bool_decide_eq_false_2 by (intros He; rewrite He in Hlt; lia).
    do 2 f_equal. simpl. lia. }
  destruct (Z.ltb_spec (ref_type (ir_ref i)) (ref_type want)) as [Hlt|Hge2].
  { cbn [orb fst snd]. rewrite Hnext, irefs_bytes_cons, length_app, Nat2Z.inj_add, Hl. done. }
  assert (Heq : ref_type (ir_ref i) = ref_type want) by lia. rewrite (proj2 (Z.eqb_eq _ _) Heq). cbn [orb andb].
  assert (Hres : forall (m : bool), bool_decide (ir_ref i = want) = m ->
    (if m then Some (true, p) else if ref_rank (ir_ref i) <? ref_rank want then Some (false, p)
       else inline_ref_loop fuel b (ref_type want) parent root_objectid owner off (p + ref_size (ir_ref i))
              (p + (Z.of_nat (length (iref_bytes i)) + Z.of_nat (length (irefs_bytes irs))))) =
    Some (ref_here want (if negb m && (ref_rank want <=? ref_rank (ir_ref i))
            then (i :: (find_ref want irs).1, (find_ref want irs).2) else ([], i :: irs)).2,
          p + Z.of_nat (length (irefs_bytes (if negb m && (ref_rank want <=? ref_rank (ir_ref i))
            then (i :: (find_ref want irs).1, (find_ref want irs).2) else ([], i :: irs)).1)))).
  { intros m Hm. destruct m; cbn [negb andb fst snd ref_here]; [rewrite Hm; do 2 f_equal; simpl; lia|].
    destruct (Z.ltb_spec (ref_rank (ir_ref i)) (ref_rank want)).
    - rewrite (proj2 (Z.leb_gt _ _)) by lia. cbn [fst snd ref_here]. rewrite Hm. do 2 f_equal. simpl. lia.
    - rewrite (proj2 (Z.leb_le _ _)) by lia. cbn [fst snd]. rewrite Hnext, irefs_bytes_cons, length_app, Nat2Z.inj_add, Hl. done. }
  rewrite <- (Hres _ eq_refl). clear Hres Hnext IH.
  destruct (Z.eqb_spec (ref_type (ir_ref i)) BTRFS_EXTENT_DATA_REF_KEY) as [Hd|Hd].
  - destruct (ir_ref i) as [v|v|root objectid o|v] eqn:Er; try discriminate Hd. destruct Hv as (H1 & H2 & H3).
    rewrite Heq in Hd. rewrite (wanted_data Hd). unfold offsetof_inline_offset.
    rewrite (match_data_ref b (p + 1) root objectid o) by done. destruct (bool_decide _); [done|].
    unfold hash_extent_data_ref_item. by rewrite H1, H2, H3.
  - assert (Hv' : btrfs_extent_inline_ref_offset b p = ref_rank (ir_ref i)) by (by destruct (ir_ref i)).
    rewrite Hv', <- wanted_rank by (by rewrite <- Heq). rewrite Z.eqb_sym, <- same_type_rank; [done|done|].
    intros a c d Hx. rewrite Hx in Hd. done.
Qed.
End Loop.

(** ** The references as a finite map *)

(** Types rise; within a type the numbers fall. *)
Definition ref_before r1 r2 : Prop :=
  ref_type r1 < ref_type r2 \/ ref_type r1 = ref_type r2 /\ ref_rank r2 <= ref_rank r1.

Record irefs_ok irs : Prop := {
  is_ok : Forall iref_ok irs;
  is_sorted : StronglySorted ref_before (ir_ref <$> irs);
  is_once : NoDup (ir_ref <$> irs);
}.

#[export] Instance extent_ref_countable : Countable extent_ref.
Proof.
  apply (inj_countable' (fun r => match r with
    | TreeRef v => (1, v, 0, 0) | SharedTreeRef v => (2, v, 0, 0)
    | DataRef a c d => (3, a, c, d) | SharedDataRef v => (4, v, 0, 0) end)
    (fun q : Z * Z * Z * Z => let '(t, a, c, d) := q in
      if t =? 1 then TreeRef a else if t =? 2 then SharedTreeRef a
      else if t =? 3 then DataRef a c d else SharedDataRef a)).
  by intros [].
Defined.

(** What the references of an item come to, whatever their order. *)
Definition refs_map irs : gmap extent_ref Z := list_to_map ((fun i => (ir_ref i, ir_count i)) <$> irs).

Definition refs_total irs : Z := foldr (fun i n => ir_count i + n) 0 irs.

Definition add_ref want (n : Z) irs : list inline_ref :=
  let (A, B) := find_ref want irs in
  match B with
  | i :: B' => if decide (ir_ref i = want) then A ++ InlineRef want (ir_count i + n) :: B' else A ++ InlineRef want n :: B
  | [] => A ++ [InlineRef want n]
  end.

Definition drop_ref want (n : Z) irs : list inline_ref :=
  let (A, B) := find_ref want irs in
  match B with
  | i :: B' =>
      if decide (ir_ref i = want) then
        if ir_count i =? n then A ++ B' else A ++ InlineRef want (ir_count i - n) :: B'
      else irs
  | [] => irs
  end.

Lemma ref_before_trans : Transitive ref_before.
Proof. unfold ref_before. intros r1 r2 r3. lia. Qed.

Lemma ref_passed_spec want i :
  if ref_passed want i then ref_before (ir_ref i) want /\ ir_ref i <> want
  else ir_ref i = want \/ ref_before want (ir_ref i) /\
    (ref_type want < ref_type (ir_ref i) \/ ref_type want = ref_type (ir_ref i) /\ ref_rank (ir_ref i) < ref_rank want).
Proof.
  unfold ref_passed, ref_before.
  destruct (Z.ltb_spec (ref_type (ir_ref i)) (ref_type want)); cbn [orb].
  { split; [lia|]. intros He. rewrite He in *. lia. }
  destruct (Z.eqb_spec (ref_type (ir_ref i)) (ref_type want)); cbn [andb]; [|right; lia].
  case_bool_decide; cbn [negb andb]; [by left|].
  destruct (Z.leb_spec (ref_rank want) (ref_rank (ir_ref i))); [split; [lia|done]|right; lia].
Qed.

(** Where a search of references in order ends. *)
Lemma find_ref_spec want irs A B :
  StronglySorted ref_before (ir_ref <$> irs) -> find_ref want irs = (A, B) ->
  irs = A ++ B /\ Forall (fun r => ref_before r want /\ r <> want) (ir_ref <$> A) /\
  match B with
  | [] => True
  | i :: _ => ir_ref i = want \/ Forall (fun r => ref_before want r /\ r <> want) (ir_ref <$> B)
  end.
Proof.
  revert A B. induction irs as [|i irs IH]; intros A B; cbn [find_ref fmap list_fmap].
  { intros _ [= <- <-]. by repeat constructor. }
  intros [Hs Hall]%StronglySorted_inv. pose proof (ref_passed_spec want i) as Hp. destruct (ref_passed want i).
  - destruct (find_ref want irs) as [A' B'] eqn:Hf. intros [= <- <-]. destruct (IH A' B' Hs eq_refl) as (-> & HA & HB).
    split; [done|]. split; [|done]. by constructor.
  - intros [= <- <-]. split; [done|]. split; [by constructor|]. destruct Hp as [Hp|[Hb Hlt]]; [by left|right].
    assert (Hw : forall r, ref_before (ir_ref i) r -> ref_before want r /\ r <> want).
    { unfold ref_before in *. intros r Hr. split; [lia|]. intros ->. lia. }
    constructor; [apply Hw; unfold ref_before; lia|]. eapply Forall_impl; [exact Hall|]. exact Hw.
Qed.

(** The two ways a search can end. *)
Lemma find_ref_cases want irs :
  irefs_ok irs ->
  (exists A c B, irs = A ++ InlineRef want c :: B /\ find_ref want irs = (A, InlineRef want c :: B) /\ refs_map irs !! want = Some c) \/
  (exists A B, irs = A ++ B /\ find_ref want irs = (A, B) /\ ref_here want B = false /\ want ∉ ir_ref <$> irs /\
     Forall (fun r => ref_before r want) (ir_ref <$> A) /\ Forall (fun r => ref_before want r) (ir_ref <$> B) /\
     refs_map irs !! want = None).
Proof.
  intros [_ Hs Hnd]. destruct (find_ref want irs) as [A B] eqn:Hf.
  destruct (find_ref_spec want irs A B Hs Hf) as (Hi & HA & HB).
  assert (HnA : want ∉ ir_ref <$> A).
  { intros Hin. by destruct (proj1 (Forall_forall _ _) HA _ Hin). }
  assert (Hkeys : ((fun i => (ir_ref i, ir_count i)) <$> irs).*1 = ir_ref <$> irs) by (by rewrite <- list_fmap_compose).
  assert (Hout : want ∉ ir_ref <$> irs -> refs_map irs !! want = None).
  { intros Hn. apply not_elem_of_list_to_map_1. by rewrite Hkeys. }
  assert (HAw : Forall (fun r => ref_before r want) (ir_ref <$> A)) by (eapply Forall_impl; [exact HA|by intros ? []]).
  destruct B as [|[r c] B].
  - right. exists A, []. assert (Hn : want ∉ ir_ref <$> irs) by (by rewrite Hi, app_nil_r).
    split_and!; [done..|constructor|auto].
  - destruct HB as [HB|HB]; [left|right].
    + simpl in HB. subst r. exists A, c, B. split_and!; [done|done|]. apply elem_of_list_to_map_1; [by rewrite Hkeys|].
      rewrite Hi, fmap_app. apply elem_of_app. right. left.
    + exists A, (InlineRef r c :: B).
      assert (Hnb : want ∉ ir_ref <$> InlineRef r c :: B).
      { intros Hin. by destruct (proj1 (Forall_forall _ _) HB _ Hin). }
      assert (Hn : want ∉ ir_ref <$> irs) by (rewrite Hi, fmap_app, elem_of_app; tauto).
      split_and!; try done; [|eapply Forall_impl; [exact HB|by intros ? []]|auto].
      simpl. apply bool_decide_eq_false_2. intros ->. apply Hnb. left.
Qed.

Lemma refs_total_app A B : refs_total (A ++ B) = refs_total A + refs_total B.
Proof. induction A; simpl; [done|]. unfold refs_total in *. simpl. lia. Qed.

Lemma refs_map_middle A i B :
  NoDup (ir_ref <$> A ++ i :: B) -> refs_map (A ++ i :: B) = <[ir_ref i := ir_count i]> (refs_map (A ++ B)).
Proof.
  intros Hnd. unfold refs_map. rewrite !fmap_app, fmap_cons, !list_to_map_app, list_to_map_cons.
  rewrite insert_union_r; [done|]. apply not_elem_of_list_to_map_1. rewrite <- list_fmap_compose. intros Hin.
  rewrite fmap_app in Hnd. apply NoDup_app in Hnd as (_ & Hd & _). apply (Hd (ir_ref i) Hin). left.
Qed.

Lemma refs_map_without A i B : NoDup (ir_ref <$> A ++ i :: B) -> refs_map (A ++ B) !! ir_ref i = None.
Proof.
  intros Hnd. apply not_elem_of_list_to_map_1. rewrite <- list_fmap_compose.
  rewrite fmap_app, fmap_cons in Hnd. apply NoDup_app in Hnd as (_ & Hd & [Hn _]%NoDup_cons).
  change (ir_ref i ∉ ir_ref <$> A ++ B). rewrite fmap_app, elem_of_app. intros [Hin|Hin]; [|done]. apply (Hd _ Hin). left.
Qed.

Lemma sorted_middle {T} (R : T -> T -> Prop) (l1 : list T) x (l2 : list T) :
  StronglySorted R (l1 ++ l2) -> Forall (fun y => R y x) l1 -> Forall (R x) l2 -> StronglySorted R (l1 ++ x :: l2).
Proof.
  induction l1 as [|y l1 IH]; simpl; intros Hs H1 H2; [by constructor|].
  apply StronglySorted_inv in Hs as [Hs Hy]. apply Forall_cons in H1 as [Hyx H1]. constructor; [by apply IH|].
  apply Forall_app in Hy as [Hy1 Hy2]. apply Forall_app. split; [done|]. by constructor.
Qed.

Lemma irefs_ok_without A i B : irefs_ok (A ++ i :: B) -> irefs_ok (A ++ B).
Proof.
  intros [Ho Hs Hn]. rewrite fmap_app, fmap_cons in Hs, Hn. split.
  - apply Forall_app in Ho as [? [? ?]%Forall_cons]. by apply Forall_app.
  - rewrite fmap_app. clear Ho Hn. revert Hs. generalize (ir_ref <$> A) (ir_ref <$> B). intros l1 l2. 
    induction l1 as [|y l1 IH]; simpl; intros [Hs Hy]%StronglySorted_inv; [done|]. constructor; [auto|].
    apply Forall_app in Hy as [? [? ?]%Forall_cons]. by apply Forall_app.
  - rewrite fmap_app. apply NoDup_app in Hn as (H1 & Hd & [_ H2]%NoDup_cons). apply NoDup_app. split_and!; [done| |done].
    intros x Hx Hin. apply (Hd x Hx). by right.
Qed.

Lemma irefs_ok_count A r c c' B : irefs_ok (A ++ InlineRef r c :: B) -> iref_ok (InlineRef r c') -> irefs_ok (A ++ InlineRef r c' :: B).
Proof.
  intros [Ho Hs Hn] Hi. rewrite fmap_app, fmap_cons in Hs, Hn. split; [|by rewrite fmap_app, fmap_cons..].
  apply Forall_app in Ho as [? [? ?]%Forall_cons]. apply Forall_app. split; [done|]. by constructor.
Qed.

Lemma irefs_ok_insert A i B :
  irefs_ok (A ++ B) -> iref_ok i -> ir_ref i ∉ ir_ref <$> A ++ B -> Forall (fun r => ref_before r (ir_ref i)) (ir_ref <$> A) ->
  Forall (fun r => ref_before (ir_ref i) r) (ir_ref <$> B) -> irefs_ok (A ++ i :: B).
Proof.
  intros [Ho Hs Hn] Hi Hni HA HB. rewrite fmap_app in Hs, Hn, Hni. split.
  - apply Forall_app in Ho as [? ?]. apply Forall_app. split; [done|]. by constructor.
  - rewrite fmap_app, fmap_cons. by apply sorted_middle.
  - rewrite fmap_app, fmap_cons. rewrite elem_of_app in Hni. apply NoDup_app in Hn as (H1 & Hd & H2). apply NoDup_app.
    split_and!; [done| |constructor; tauto]. intros x Hx [->|Hin]%elem_of_cons; [tauto|]. by apply (Hd x).
Qed.

(** ** Adding and dropping references *)

Definition count_ok want (c : Z) : Prop := if ref_is_data want then 0 < c < 2 ^ 32 else c = 1.

(** Counts other references have stay; the order is kept. *)
Lemma add_ref_spec want n irs :
  irefs_ok irs -> ref_ok want -> 0 < n -> count_ok want (default 0 (refs_map irs !! want) + n) ->
  irefs_ok (add_ref want n irs) /\ refs_total (add_ref want n irs) = refs_total irs + n /\
  refs_map (add_ref want n irs) = <[want := default 0 (refs_map irs !! want) + n]> (refs_map irs).
Proof.
  intros Hok Hw Hn Hc. unfold add_ref.
  destruct (find_ref_cases want irs Hok) as [(A & c & B & -> & -> & Hl)|(A & B & -> & -> & Hh & Hni & HA & HB & Hl)];
    rewrite Hl in Hc |- *; cbn [default] in Hc |- *.
  - cbn [ir_ref ir_count]. rewrite decide_True by done.
    assert (Hok' : irefs_ok (A ++ InlineRef want (c + n) :: B)) by (eapply irefs_ok_count; [done|by split]).
    split; [done|]. split; [rewrite !refs_total_app; simpl; lia|].
    rewrite !refs_map_middle by apply is_once, Hok || apply is_once, Hok'. by rewrite insert_insert_eq.
  - simpl in Hc.
    assert (Hok' : irefs_ok (A ++ InlineRef want n :: B)) by (apply irefs_ok_insert; [done|by split|done..]).
    replace (match B with [] => _ | _ => _ end) with (A ++ InlineRef want n :: B).
    2: { destruct B as [|i B]; [done|]. simpl in Hh. apply bool_decide_eq_false in Hh. by rewrite decide_False. }
    split; [done|]. split; [rewrite !refs_total_app; simpl; lia|].
    by rewrite refs_map_middle by apply is_once, Hok'.
Qed.

Lemma drop_ref_spec want n irs c :
  irefs_ok irs -> refs_map irs !! want = Some c -> 0 < n <= c -> (ref_is_data want = false -> n = 1) ->
  irefs_ok (drop_ref want n irs) /\ refs_total (drop_ref want n irs) = refs_total irs - n /\
  refs_map (drop_ref want n irs) = if decide (c = n) then delete want (refs_map irs) else <[want := c - n]> (refs_map irs).
Proof.
  intros Hok Hl Hn Hone. unfold drop_ref.
  destruct (find_ref_cases want irs Hok) as [(A & c' & B & -> & -> & Hl')|(A & B & -> & -> & _ & _ & _ & _ & Hl')];
    rewrite Hl in Hl'; [|done]. injection Hl' as <-. cbn [ir_ref ir_count]. rewrite decide_True by done.
  pose proof (refs_map_middle A _ B (is_once _ Hok)) as Hm. pose proof (refs_map_without A _ B (is_once _ Hok)) as Ho. simpl in Hm, Ho.
  destruct (Z.eqb_spec c n) as [->|Hne].
  - rewrite decide_True by done. split; [by eapply irefs_ok_without|]. split; [rewrite !refs_total_app; simpl; lia|].
    rewrite Hm, delete_insert_id; done.
  - rewrite decide_False by done.
    assert (Hok' : irefs_ok (A ++ InlineRef want (c - n) :: B)).
    { eapply irefs_ok_count; [done|]. destruct Hok as [Ho' _ _]. apply Forall_app in Ho' as [_ [[Hr Hc] _]%Forall_cons].
      split; [done|]. simpl in *. destruct (ref_is_data want); [lia|]. specialize (Hone eq_refl). lia. }
    split; [done|]. split; [rewrite !refs_total_app; simpl; lia|].
    rewrite refs_map_middle by apply is_once, Hok'. simpl. by rewrite Hm, insert_insert_eq.
Qed.

Lemma find_ref_middle want A c B :
  irefs_ok (A ++ InlineRef want c :: B) -> find_ref want (A ++ InlineRef want c :: B) = (A, InlineRef want c :: B).
Proof.
  intros Hok. destruct (find_ref_cases want _ Hok) as [(A' & c' & B' & He & -> & _)|(A' & B' & He & _ & _ & Hni & _)].
  - assert (Hnd := is_once _ Hok). clear Hok. revert A' He. induction A as [|i A IH]; intros [|i' A'] He; simpl in He.
    + by rewrite He.
    + injection He as <- He. exfalso. simpl in Hnd. apply NoDup_cons in Hnd as [Hni _]. apply Hni.
      rewrite He, fmap_app. apply elem_of_app. right. left.
    + injection He as -> He. exfalso. simpl in Hnd. apply NoDup_cons in Hnd as [Hni _]. apply Hni.
      rewrite fmap_app. apply elem_of_app. right. left.
    + injection He as <- He. simpl in Hnd. apply NoDup_cons in Hnd as [_ Hnd]. by injection (IH Hnd _ He) as -> -> ->.
  - exfalso. apply Hni. rewrite fmap_app. apply elem_of_app. right. left.
Qed.

(** Taking back what was added. *)
Lemma drop_add_ref want n irs :
  irefs_ok irs -> ref_ok want -> 0 < n -> count_ok want (default 0 (refs_map irs !! want) + n) ->
  drop_ref want n (add_ref want n irs) = irs.
Proof.
  intros Hok Hw Hn Hc. destruct (add_ref_spec want n irs Hok Hw Hn Hc) as (Hok' & _). revert Hok'. unfold add_ref.
  destruct (find_ref_cases want irs Hok) as [(A & c & B & -> & -> & Hl)|(A & B & -> & -> & Hh & Hni & HA & HB & Hl)].
  - cbn [ir_ref ir_count]. rewrite decide_True by done. intros Hok'. unfold drop_ref. rewrite find_ref_middle by done.
    cbn [ir_ref ir_count]. rewrite decide_True by done. 
    assert (0 < c).
    { destruct Hok as [Ho' _ _]. apply Forall_app in Ho' as [_ [[_ Hcc] _]%Forall_cons]. simpl in Hcc. destruct (ref_is_data want); lia. }
    rewrite (proj2 (Z.eqb_neq _ _)) by lia. do 3 f_equal. lia.
  - replace (match B with [] => _ | _ => _ end) with (A ++ InlineRef want n :: B).
    2: { destruct B as [|i B]; [done|]. simpl in Hh. apply bool_decide_eq_false in Hh. by rewrite decide_False. }
    intros Hok'. unfold drop_ref. rewrite find_ref_middle by done. cbn [ir_ref ir_count]. by rewrite decide_True, Z.eqb_refl.
Qed.

Lemma irefs_total_pos irs : Forall iref_ok irs -> 0 <= refs_total irs.
Proof.
  induction 1 as [|i irs [_ Hc] _ IH]; [done|]. unfold refs_total in *. simpl.
  destruct (ref_is_data _) in Hc; lia.
Qed.

(** ** Extent items *)

Record extent := Extent {
  ex_refs : Z; ex_generation : Z; ex_flags : Z;
  ex_info : list Z; (* the bytes of [btrfs_tree_block_info] *)
  ex_irefs : list inline_ref;
}.
Implicit Types (x y : extent).

Definition is_block x : bool := has_flag (ex_flags x) BTRFS_EXTENT_FLAG_TREE_BLOCK.

(** The head of an item and all of it; [sk]: the key is one of the new kind. *)
Definition extent_head x : list Z := le_bytes 8 (ex_refs x) ++ le_bytes 8 (ex_generation x) ++ le_bytes 8 (ex_flags x) ++ ex_info x.
Definition extent_bytes x : list Z := extent_head x ++ irefs_bytes (ex_irefs x).

Record extent_ok (sk : bool) x : Prop := {
  xo_refs : u64_ok (ex_refs x);
  xo_flags : u64_ok (ex_flags x);
  xo_kind : is_block x = true \/ has_flag (ex_flags x) BTRFS_EXTENT_FLAG_DATA = true;
  xo_info : Z.of_nat (length (ex_info x)) = if is_block x && negb sk then sizeof_tree_block_info else 0;
  xo_irefs : irefs_ok (ex_irefs x);
}.

(** The bytes before the references. *)
Definition head_size x : Z := 24 + Z.of_nat (length (ex_info x)).

Lemma extent_head_length x : Z.of_nat (length (extent_head x)) = head_size x.
Proof. unfold extent_head, head_size. rewrite !length_app, !le_bytes_length. lia. Qed.

Lemma extent_bytes_length x : Z.of_nat (length (extent_bytes x)) = head_size x + Z.of_nat (length (irefs_bytes (ex_irefs x))).
Proof. unfold extent_bytes. rewrite length_app. pose proof (extent_head_length x). lia. Qed.

Record extent_at b (p : Z) x : Prop := {
  xa_refs : btrfs_extent_refs b p = ex_refs x;
  xa_flags : btrfs_extent_flags b p = ex_flags x;
  xa_irefs : read_extent_buffer b (p + head_size x) (length (irefs_bytes (ex_irefs x))) = irefs_bytes (ex_irefs x);
}.

Lemma extent_at_bytes sk b p x n : extent_ok sk x -> read_extent_buffer b p n = extent_bytes x -> extent_at b p x.
Proof.
  intros [Hr Hf _ _ _] Hb. unfold extent_bytes in Hb. apply read_split in Hb as [H1 H2]. rewrite extent_head_length in H2.
  split.
  - unfold extent_head in H1. apply read_split in H1 as [H1 _]. rewrite le_bytes_length in H1.
    unfold btrfs_extent_refs. rewrite get_le_read, H1. apply le_val_id. exact Hr.
  - unfold extent_head in H1. do 2 apply read_split in H1 as [_ H1]. apply read_split in H1 as [H1 _].
    rewrite !le_bytes_length in H1. unfold btrfs_extent_flags.
    replace (p + Z.of_nat 8 + Z.of_nat 8) with (p + 16) in H1 by lia. rewrite get_le_read, H1. apply le_val_id. exact Hf.
  - by rewrite <- H2, read_length.
Qed.

(** Tests of one type of reference against another. *)
Ltac decide_types :=
  cbv [BTRFS_SHARED_BLOCK_REF_KEY BTRFS_TREE_BLOCK_REF_KEY BTRFS_EXTENT_DATA_REF_KEY BTRFS_SHARED_DATA_REF_KEY Z.eqb Pos.eqb].

(** A new reference written over [ref_size] bytes. *)
Lemma fill_inline_ref_spec b ptr parent root_objectid owner off n :
  let want := wanted_ref parent root_objectid owner off in
  let b' := fill_inline_ref b ptr (ref_type want) parent root_objectid owner off n in
  read_extent_buffer b' ptr (length (iref_bytes (InlineRef want n))) = iref_bytes (InlineRef want n) /\
  forall z, z < ptr \/ ptr + ref_size want <= z -> b' z = b z.
Proof.
  assert (Hlen : forall r, length (iref_bytes (InlineRef r n)) = Z.to_nat (ref_size r))
    by (intros r; pose proof (iref_bytes_length (InlineRef r n)) as Hl; cbn [ir_ref] in Hl; lia).
  cbv zeta. rewrite Hlen. unfold wanted_ref, iref_bytes.
  unfold fill_inline_ref, btrfs_set_extent_inline_ref_type, btrfs_set_extent_inline_ref_offset, btrfs_set_extent_data_ref_root,
    btrfs_set_extent_data_ref_objectid, btrfs_set_extent_data_ref_offset, btrfs_set_extent_data_ref_count,
    btrfs_set_shared_data_ref_count, offsetof_inline_offset, sizeof_extent_inline_ref.
  destruct (owner <? _), (0 <? parent); cbn [ref_type ref_size ir_ref ir_count];
    change (Z.to_nat 9) with (1 + 8)%nat; change (Z.to_nat 29) with (1 + (8 + (8 + (8 + 4))))%nat;
    change (Z.to_nat 13) with (1 + (8 + 4))%nat; rewrite !read_app;
    change (Z.of_nat 1) with 1; change (Z.of_nat 8) with 8.
  - split; [|intros z Hz; decide_types; field_outside]. apply (f_equal2 app); decide_types; read_field.
  - split; [|intros z Hz; decide_types; field_outside]. apply (f_equal2 app); decide_types; read_field.
  - split; [|intros z Hz; decide_types; field_outside].
    replace (ptr + 1 + 8) with (ptr + 9) by lia. repeat apply (f_equal2 app); decide_types; read_field.
  - split; [|intros z Hz; decide_types; field_outside].
    replace (ptr + 1 + 8 + 8 + 8) with (ptr + 1 + 24) by lia. replace (ptr + 1 + 8 + 8) with (ptr + 1 + 16) by lia.
    repeat apply (f_equal2 app); decide_types; read_field.
Qed.

Definition head_rest x : list Z := le_bytes 8 (ex_generation x) ++ le_bytes 8 (ex_flags x) ++ ex_info x.

Definition with_irefs x (refs : Z) irs : extent := Extent refs (ex_generation x) (ex_flags x) (ex_info x) irs.

Lemma extent_bytes_split x refs irs : extent_bytes (with_irefs x refs irs) = le_bytes 8 refs ++ head_rest x ++ irefs_bytes irs.
Proof.
  unfold extent_bytes, extent_head, head_rest, with_irefs. cbn [ex_refs ex_generation ex_flags ex_info ex_irefs].
  by rewrite <- !(assoc_L (++)).
Qed.

Lemma with_irefs_same x : with_irefs x (ex_refs x) (ex_irefs x) = x.
Proof. by destruct x. Qed.

Lemma head_rest_length x : Z.of_nat (length (head_rest x)) = head_size x - 8.
Proof. unfold head_rest, head_size. rewrite !length_app, !le_bytes_length. lia. Qed.

(** Reading the parts of an item and putting them together again. *)
Lemma read_extent_parts b p x refs irs :
  read_extent_buffer b p 8 = le_bytes 8 refs ->
  read_extent_buffer b (p + 8) (length (head_rest x)) = head_rest x ->
  read_extent_buffer b (p + head_size x) (length (irefs_bytes irs)) = irefs_bytes irs ->
  read_extent_buffer b p (length (extent_bytes (with_irefs x refs irs))) = extent_bytes (with_irefs x refs irs).
Proof.
  intros H1 H2 H3. rewrite extent_bytes_split, !length_app, le_bytes_length, !read_app. change (Z.of_nat 8) with 8.
  rewrite H1, H2. replace (p + 8 + Z.of_nat (length (head_rest x))) with (p + head_size x) by (rewrite head_rest_length; lia).
  by rewrite H3.
Qed.

Lemma extent_parts_read b p x d :
  read_extent_buffer b p (length (extent_bytes x ++ d)) = extent_bytes x ++ d ->
  read_extent_buffer b p 8 = le_bytes 8 (ex_refs x) /\
  read_extent_buffer b (p + 8) (length (head_rest x)) = head_rest x /\
  read_extent_buffer b (p + head_size x) (length (irefs_bytes (ex_irefs x))) = irefs_bytes (ex_irefs x).
Proof.
  pose proof (extent_bytes_split x (ex_refs x) (ex_irefs x)) as Hx. rewrite with_irefs_same in Hx.
  intros Hb. apply read_split in Hb as [Hb _]. rewrite Hx in Hb. clear Hx.
  apply read_split in Hb as [H1 Hb]. apply read_split in Hb as [H2 Hb]. rewrite le_bytes_length in *. change (Z.of_nat 8) with 8 in *.
  split; [done|]. split; [done|]. rewrite head_rest_length in Hb. replace (p + 8 + (head_size x - 8)) with (p + head_size x) in Hb by lia.
  by rewrite <- Hb, read_length.
Qed.

Section Update.
Context (parent root_objectid owner off : Z).
Abbreviation want := (wanted_ref parent root_objectid owner off).

Lemma setup_inline_spec b slot x A B n d2 :
  let p := btrfs_item_ptr_offset b slot in
  let sz := ref_size want in
  let x' := with_irefs x (ex_refs x + n) (A ++ InlineRef want n :: B) in
  let b' := setup_inline_leaf b slot (head_size x + Z.of_nat (length (irefs_bytes A))) sz (ref_type want)
              parent root_objectid owner off n in
  0 <= slot -> btrfs_item_nr slot + sizeof_item <= p -> ex_irefs x = A ++ B -> Z.of_nat (length d2) = sz ->
  u64_ok (ex_refs x) -> u64_ok (ex_refs x + n) ->
  btrfs_item_size_nr b slot = Z.of_nat (length (extent_bytes x ++ d2)) ->
  read_extent_buffer b p (length (extent_bytes x ++ d2)) = extent_bytes x ++ d2 ->
  length (extent_bytes x') = length (extent_bytes x ++ d2) /\
  read_extent_buffer b' p (length (extent_bytes x')) = extent_bytes x' /\
  forall z, z < p \/ p + Z.of_nat (length (extent_bytes x ++ d2)) <= z -> b' z = b z.
Proof using Type.
  intros p sz x' b' Hslot Hp HAB Hd2 Hr0 Hrn Hsize Hrd.
  destruct (extent_parts_read b p x d2 Hrd) as (R1 & R2 & R3). rewrite HAB in R3.
  pose proof (extent_bytes_length x) as Hlx. rewrite HAB in Hlx.
  rewrite irefs_bytes_app, length_app, Nat2Z.inj_add in Hlx. rewrite irefs_bytes_app in R3.
  rewrite length_app, read_app in R3. apply app_inj_1 in R3 as [RA RB]; [|apply read_length].
  rewrite length_app, Nat2Z.inj_add, Hlx, Hd2 in Hsize.
  set (a := Z.of_nat (length (irefs_bytes A))) in *. set (bb := Z.of_nat (length (irefs_bytes B))) in *.
  pose proof (ref_size_pos want) as Hsz. fold sz in Hsz. pose proof (head_rest_length x) as Hhr.
  set (q := p + (head_size x + a)).
  (* the three writes *)
  set (b1 := btrfs_set_extent_refs b p (u64 (btrfs_extent_refs b p + n))).
  assert (Hs1 : btrfs_item_size_nr b1 slot = btrfs_item_size_nr b slot).
  { apply get_le_same. intros z Hz. unfold b1, btrfs_set_extent_refs, put_le, btrfs_item_nr, sizeof_item in *. zbool; lia || done. }
  assert (Hrefs : u64 (btrfs_extent_refs b p + n) = ex_refs x + n).
  { unfold btrfs_extent_refs. rewrite get_le_read, R1, le_val_id by exact Hr0. apply u64_id. exact Hrn. }
  assert (Hb' : b' = fill_inline_ref (if q <? q + bb then memmove_extent_buffer b1 (q + sz) q bb else b1) q (ref_type want)
                       parent root_objectid owner off n).
  { unfold b', setup_inline_leaf. fold p. fold b1. rewrite Hs1, Hsize. fold q.
    replace (p + (head_size x + (a + bb) + sz) - sz) with (q + bb) by (unfold q; lia).
    by replace (q + bb - q) with bb by lia. }
  set (b2 := if q <? q + bb then _ else b1) in Hb'.
  destruct (fill_inline_ref_spec b2 q parent root_objectid owner off n) as [Hnew Hout]. rewrite <- Hb' in Hnew, Hout. fold sz in Hout.
  pose proof (iref_bytes_length (InlineRef want n)) as Hli. cbn [ir_ref] in Hli. fold sz in Hli.
  assert (H2out : forall z, z < q + sz \/ q + sz + bb <= z -> b2 z = b1 z).
  { intros z Hz. unfold b2. destruct (Z.ltb_spec q (q + bb)); [apply memmove_outside; lia|done]. }
  assert (H1out : forall z, z < p \/ p + 8 <= z -> b1 z = b z).
  { intros z Hz. unfold b1, btrfs_set_extent_refs, put_le. zbool; lia || done. }
  assert (Hlow : forall z, z < q -> b' z = b1 z) by (intros z Hz; rewrite Hout, H2out by lia; done).
  assert (Hlen : length (extent_bytes x') = length (extent_bytes x ++ d2)).
  { apply Nat2Z.inj. rewrite extent_bytes_length, length_app, Nat2Z.inj_add, Hlx, Hd2. unfold x'. simpl ex_irefs.
    rewrite irefs_bytes_app, irefs_bytes_cons, !length_app, !Nat2Z.inj_add. rewrite Hli. unfold head_size. simpl. fold a bb. lia. }
  split; [done|]. split.
  - unfold x'. apply read_extent_parts.
    + rewrite <- Hrefs. transitivity (read_extent_buffer b1 p 8); [apply read_same; intros z Hz; apply Hlow; unfold q; lia|apply read_put_le].
    + etransitivity; [|exact R2]. apply read_same. intros z Hz. rewrite Hlow, H1out by (unfold q; lia). done.
    + rewrite irefs_bytes_app, irefs_bytes_cons, !length_app, !read_app. fold a.
      replace (p + head_size x + a) with q by (unfold q; lia). rewrite Hnew. f_equal; [|f_equal].
      * transitivity (read_extent_buffer b (p + head_size x) (length (irefs_bytes A))); [|exact RA].
        apply read_same. intros z Hz. fold a in Hz. rewrite Hlow, H1out by (unfold q; lia). done.
      * rewrite Hli. transitivity (read_extent_buffer b2 (q + sz) (length (irefs_bytes B))).
        { apply read_same. intros z Hz. apply Hout. lia. }
        transitivity (read_extent_buffer b q (length (irefs_bytes B))).
        2: { fold a in RB. replace (p + head_size x + a) with q in RB by (unfold q; lia). exact RB. }
        transitivity (read_extent_buffer b1 q (length (irefs_bytes B))).
        2: { apply read_same. intros z Hz. apply H1out. unfold q. lia. }
        unfold b2. destruct (Z.ltb_spec q (q + bb)); [by apply read_memmove|].
        by replace (length (irefs_bytes B)) with 0%nat by (unfold bb in *; lia).
  - intros z Hz. rewrite length_app, Nat2Z.inj_add, Hlx, Hd2 in Hz. rewrite Hout, H2out, H1out by (unfold q; lia). done.
Qed.
End Update.

(** ** Changing a count, and taking a reference out *)

Lemma irefs_parts b q A i B :
  let a := Z.of_nat (length (irefs_bytes A)) in
  read_extent_buffer b q (length (irefs_bytes (A ++ i :: B))) = irefs_bytes (A ++ i :: B) <->
  read_extent_buffer b q (length (irefs_bytes A)) = irefs_bytes A /\
  read_extent_buffer b (q + a) (length (iref_bytes i)) = iref_bytes i /\
  read_extent_buffer b (q + a + ref_size (ir_ref i)) (length (irefs_bytes B)) = irefs_bytes B.
Proof.
  cbv zeta. rewrite <- (iref_bytes_length i), irefs_bytes_app, irefs_bytes_cons, !length_app, !read_app. split.
  - intros He. apply app_inj_1 in He as [-> He]; [|apply read_length]. by apply app_inj_1 in He as [-> ->]; [|apply read_length].
  - by intros (-> & -> & ->).
Qed.

Lemma set_count_spec b q r c c' :
  ref_is_data r = true -> read_extent_buffer b q (length (iref_bytes (InlineRef r c))) = iref_bytes (InlineRef r c) ->
  let b' := set_inline_ref_count b q (ref_type r) c' in
  read_extent_buffer b' q (length (iref_bytes (InlineRef r c'))) = iref_bytes (InlineRef r c') /\
  forall z, z < q \/ q + ref_size r <= z -> b' z = b z.
Proof.
  intros Hd Hb b'. 
  assert (Hlen : forall n, length (iref_bytes (InlineRef r n)) = Z.to_nat (ref_size r)).
  { intros n. pose proof (iref_bytes_length (InlineRef r n)) as Hl. cbn [ir_ref] in Hl. lia. }
  assert (Hsplit : exists l k, (length l + 4)%nat = Z.to_nat (ref_size r) /\ (forall n, iref_bytes (InlineRef r n) = l ++ le_bytes 4 n) /\
    k = Z.of_nat (length l) /\ b' = put_le 4 (q + k) c' b).
  { destruct r as [| |root objectid o|v]; try discriminate Hd.
    - exists (le_bytes 1 178 ++ le_bytes 8 root ++ le_bytes 8 objectid ++ le_bytes 8 o), 25.
      split; [by rewrite !length_app, !le_bytes_length|]. split; [|split].
      + intros n. unfold iref_bytes. cbn [ir_ref ir_count]. by rewrite <- !(assoc_L (++)).
      + by rewrite !length_app, !le_bytes_length.
      + unfold b', set_inline_ref_count. decide_types. unfold btrfs_set_extent_data_ref_count, offsetof_inline_offset. f_equal. lia.
    - exists (le_bytes 1 184 ++ le_bytes 8 v), 9. split; [by rewrite !length_app, !le_bytes_length|]. split; [|split].
      + intros n. unfold iref_bytes. cbn [ir_ref ir_count]. by rewrite <- !(assoc_L (++)).
      + by rewrite !length_app, !le_bytes_length.
      + unfold b', set_inline_ref_count. decide_types. done. }
  destruct Hsplit as (l & k & Hl & Hbytes & Hk & Hb'). clearbody b'. rewrite Hlen, Hbytes in *.
  rewrite <- Hl, read_app in *. apply app_inj_1 in Hb as [Hb _]; [|apply read_length]. split.
  - f_equal; [|rewrite <- Hk, Hb'; apply read_put_le]. rewrite <- Hb at 2. apply read_same. intros z Hz.
    rewrite Hb'. unfold put_le. zbool; lia || done.
  - intros z Hz. rewrite Hb'. unfold put_le. zbool; lia || done.
Qed.

(** An item with other numbers in front, and its reference [r] counted anew. *)
Lemma update_count_spec b p x A r c B c' refs' :
  let q := p + head_size x + Z.of_nat (length (irefs_bytes A)) in
  let x' := with_irefs x refs' (A ++ InlineRef r c' :: B) in
  let b' := set_inline_ref_count (btrfs_set_extent_refs b p refs') q (ref_type r) c' in
  ref_is_data r = true -> ex_irefs x = A ++ InlineRef r c :: B ->
  read_extent_buffer b p (length (extent_bytes x)) = extent_bytes x ->
  length (extent_bytes x') = length (extent_bytes x) /\
  read_extent_buffer b' p (length (extent_bytes x')) = extent_bytes x' /\
  forall z, z < p \/ p + Z.of_nat (length (extent_bytes x)) <= z -> b' z = b z.
Proof.
  intros q x' b' Hd HI Hrd. rewrite <- (app_nil_r (extent_bytes x)) in Hrd.
  destruct (extent_parts_read b p x [] Hrd) as (R1 & R2 & R3). clear Hrd R1.
  rewrite HI in R3. apply irefs_parts in R3 as (RA & RI & RB). fold q in RI, RB. cbn [ir_ref] in *.
  set (b1 := btrfs_set_extent_refs b p refs') in *. pose proof (head_rest_length x) as Hhr. pose proof (ref_size_pos r).
  pose proof (extent_bytes_length x) as Hlx. rewrite HI, irefs_bytes_app, irefs_bytes_cons, !length_app, !Nat2Z.inj_add in Hlx.
  pose proof (iref_bytes_length (InlineRef r c)) as Hli. pose proof (iref_bytes_length (InlineRef r c')) as Hli'. cbn [ir_ref] in *.
  assert (H1 : forall z, z < p \/ p + 8 <= z -> b1 z = b z).
  { intros z Hz. unfold b1, btrfs_set_extent_refs, put_le. zbool; lia || done. }
  destruct (set_count_spec b1 q r c c' Hd) as [Hnew Hout].
  { rewrite <- RI at 2. apply read_same. intros z Hz. apply H1. unfold q in Hz. lia. }
  fold b' in Hnew, Hout. split; [|split].
  - apply Nat2Z.inj. rewrite Hlx, extent_bytes_length. unfold x'. cbn [ex_irefs with_irefs].
    rewrite irefs_bytes_app, irefs_bytes_cons, !length_app, !Nat2Z.inj_add, Hli, Hli'. unfold head_size. done.
  - apply read_extent_parts.
    + transitivity (read_extent_buffer b1 p 8); [apply read_same; intros z Hz; apply Hout; unfold q; lia|apply read_put_le].
    + etransitivity; [|exact R2]. apply read_same. intros z Hz. rewrite Hout, H1 by (unfold q; lia). done.
    + apply irefs_parts. fold q. cbn [ir_ref]. split; [|split; [exact Hnew|]].
      * etransitivity; [|exact RA]. apply read_same. intros z Hz. rewrite Hout, H1 by (unfold q; lia). done.
      * etransitivity; [|exact RB]. apply read_same. intros z Hz. rewrite Hout, H1 by (unfold q in *; lia). done.
  - intros z Hz. rewrite Hlx, Hli in Hz. rewrite Hout, H1 by (unfold q; lia). done.
Qed.

(** The reference taken out: what is behind it moves up. *)
Lemma take_out_spec b p x A i B refs' :
  let q := p + head_size x + Z.of_nat (length (irefs_bytes A)) in
  let sz := ref_size (ir_ref i) in
  let x' := with_irefs x refs' (A ++ B) in
  let last := p + Z.of_nat (length (extent_bytes x)) in
  let b1 := btrfs_set_extent_refs b p refs' in
  let b' := if q + sz <? last then memmove_extent_buffer b1 q (q + sz) (last - q - sz) else b1 in
  ex_irefs x = A ++ i :: B ->
  read_extent_buffer b p (length (extent_bytes x)) = extent_bytes x ->
  Z.of_nat (length (extent_bytes x')) = Z.of_nat (length (extent_bytes x)) - sz /\
  read_extent_buffer b' p (length (extent_bytes x')) = extent_bytes x' /\
  forall z, z < p \/ last <= z -> b' z = b z.
Proof.
  intros q sz x' last b1 b' HI Hrd. rewrite <- (app_nil_r (extent_bytes x)) in Hrd.
  destruct (extent_parts_read b p x [] Hrd) as (R1 & R2 & R3). clear Hrd R1.
  rewrite HI in R3. apply irefs_parts in R3 as (RA & RI & RB). fold q sz in RI, RB.
  pose proof (head_rest_length x) as Hhr. pose proof (ref_size_pos (ir_ref i)) as Hsz. fold sz in Hsz.
  pose proof (extent_bytes_length x) as Hlx. rewrite HI, irefs_bytes_app, irefs_bytes_cons, !length_app, !Nat2Z.inj_add in Hlx.
  rewrite iref_bytes_length in Hlx. fold sz in Hlx.
  assert (H1 : forall z, z < p \/ p + 8 <= z -> b1 z = b z).
  { intros z Hz. unfold b1, btrfs_set_extent_refs, put_le. zbool; lia || done. }
  assert (Hlast : last - q - sz = Z.of_nat (length (irefs_bytes B))) by (unfold last, q; lia).
  assert (H2 : forall z, z < q \/ last <= z -> b' z = b1 z).
  { intros z Hz. unfold b'. destruct (_ <? _); [|done]. apply memmove_outside. unfold last, q in *. lia. }
  split; [|split].
  - rewrite Hlx, extent_bytes_length. unfold x'. cbn [ex_irefs with_irefs]. rewrite irefs_bytes_app, length_app, Nat2Z.inj_add.
    unfold head_size. cbn [ex_info with_irefs]. lia.
  - apply read_extent_parts.
    + transitivity (read_extent_buffer b1 p 8); [apply read_same; intros z Hz; apply H2; unfold q; lia|apply read_put_le].
    + etransitivity; [|exact R2]. apply read_same. intros z Hz. rewrite H2, H1 by (unfold q; lia). done.
    + rewrite irefs_bytes_app, length_app, read_app. fold q. f_equal.
      * etransitivity; [|exact RA]. apply read_same. intros z Hz. rewrite H2, H1 by (unfold q; lia). done.
      * etransitivity; [|exact RB]. transitivity (read_extent_buffer b1 (q + sz) (length (irefs_bytes B))).
        2: { apply read_same. intros z Hz. apply H1. unfold q in *. lia. }
        unfold b'. destruct (Z.ltb_spec (q + sz) last); [rewrite Hlast; by apply read_memmove|].
        by replace (length (irefs_bytes B)) with 0%nat by lia.
  - intros z Hz. rewrite H2, H1 by (unfold last, q in *; lia). done.
Qed.
