(* ===== verification/ExtentRef.v ===== *)
(** Back references: the part of [src/extent-tree.c] that works on the items of
    the extent tree, for any tree of blocks below.

    The path is the one of the world, as the callers hold it.  [skinny] says
    whether the file system has the feature [SKINNY_METADATA]. *)

From S2P Require Import Prelude Buf CtreeFmt ItemFmt LeafOps NodeOps TreeWorld TreeBalance TreeOps DirItem ExtentIo.
From S2P Require Import ExtentItem ExtentAlloc.

Section Ref.
Context {X : Type} `{ExtentTree X} (env : tree_env).
Open Scope act_scope.

Abbreviation world := (tree_world X).

(** The leaf, the slot and the bytes the path leads to. *)
Definition leaf_slot : act world (Z * Z * buf) :=
  leaf <- path_block 0 ;; slot <- path_slot 0 ;; d <- eb_read leaf ;; ret (leaf, slot, d).

(** ** Looking for an extent

    The search [lookup_inline_extent_backref], [btrfs_lookup_extent_info],
    [btrfs_set_block_flags] and [__free_extent] make, each with their own
    [ins_len]: for an item of the new kind, or the item of the old kind right
    before its place; else again for one of the old kind.  The result has the key
    of the last search and whether the item is still taken for one of the new
    kind.  The second search begins with the object of the item that was looked
    at, if one was. *)
Definition search_extent_item (fuel : nat) (key : btrfs_key) (ins_len : Z) (cow skinny : bool) (bytenr num_bytes : Z)
    : act world (Z * btrfs_key * bool) :=
  r <- btrfs_search_slot env fuel key ins_len cow ;;
  if (0 <? r) && skinny then
    slot <- path_slot 0 ;;
    rk <- (if negb (slot =? 0) then
             set_path_slot 0 (slot - 1) ;;;
             leaf <- path_block 0 ;;
             d <- eb_read leaf ;;
             let key := btrfs_item_key d (slot - 1) in
             ret (if (objectid key =? bytenr) && (type key =? BTRFS_EXTENT_ITEM_KEY) && (offset key =? num_bytes)
                  then 0 else r, key)
           else ret (r, key)) ;;
    if negb (rk.1 =? 0) then
      btrfs_release_path ;;;
      let key := BtrfsKey (objectid rk.2) BTRFS_EXTENT_ITEM_KEY num_bytes in
      r <- btrfs_search_slot env fuel key ins_len cow ;;
      ret (r, key, false)
    else ret (0, rk.2, false)
  else ret (r, key, skinny).

(** The next key behind the item the path leads to, if the blocks of the path
    have one: [n] levels from [level] up. *)
Fixpoint find_next_key_loop (n : nat) (level : Z) : act world (option btrfs_key) :=
  match n with
  | O => ret None
  | S n =>
      b <- path_node level ;;
      match b with
      | None => ret None
      | Some b =>
          slot <- path_slot level ;;
          d <- eb_read b ;;
          if btrfs_header_nritems d <=? slot + 1 then find_next_key_loop n (level + 1)
          else ret (Some (if level =? 0 then btrfs_item_key d (slot + 1) else btrfs_node_key d (slot + 1)))
      end
  end.

Definition find_next_key : act world (option btrfs_key) := find_next_key_loop (Z.to_nat BTRFS_MAX_LEVEL) 0.

(** ** Items of the first format *)

(** The loop that looks for a reference to learn the owner. *)
Fixpoint v0_owner_loop (fuel : nat) (id : Z) : act world (Z + Z) :=
  match fuel with
  | O => bug
  | S fuel =>
      ls <- leaf_slot ;;
      let '(leaf, slot, d) := ls in
      r <- (if btrfs_header_nritems d <=? slot then btrfs_next_leaf else ret 0) ;;
      if r <? 0 then ret (inl r)
      else
        bug_on (0 <? r) ;;;
        ls <- leaf_slot ;;
        let '(leaf, slot, d) := ls in
        let found_key := btrfs_item_key d slot in
        bug_on (negb (id =? objectid found_key)) ;;;
        if negb (type found_key =? BTRFS_EXTENT_REF_V0_KEY) then
          set_path_slot 0 (slot + 1) ;;; v0_owner_loop fuel id
        else ret (inr (btrfs_ref_objectid_v0 d (btrfs_item_ptr_offset d slot)))
  end.

Definition fill_converted (leaf : buf) (item refs owner : Z) : buf :=
  let leaf := btrfs_set_extent_refs leaf item refs in
  let leaf := btrfs_set_extent_generation leaf item 0 in
  if owner <? BTRFS_FIRST_FREE_OBJECTID then
    let leaf := btrfs_set_extent_flags leaf item (Z.lor BTRFS_EXTENT_FLAG_TREE_BLOCK BTRFS_BLOCK_FLAG_FULL_BACKREF) in
    let bi := item + sizeof_extent_item in
    let leaf := memset_extent_buffer leaf 0 bi sizeof_tree_block_info in
    btrfs_set_tree_block_level leaf bi owner
  else btrfs_set_extent_flags leaf item BTRFS_EXTENT_FLAG_DATA.

(** [convert_extent_item_v0]; its argument [extra_size] is not used. *)
Definition convert_extent_item_v0 (fuel loop_fuel : nat) (owner : Z) : act world Z :=
  ls <- leaf_slot ;;
  let '(leaf, slot, d) := ls in
  bug_on (negb (btrfs_item_size_nr d slot =? sizeof_extent_item_v0)) ;;;
  let key := btrfs_item_key d slot in
  let refs := btrfs_extent_refs_v0 d (btrfs_item_ptr_offset d slot) in
  o <- (if owner =? U64_MAX then v0_owner_loop loop_fuel (objectid key) else ret (inr owner)) ;;
  match o with
  | inl err => ret err
  | inr owner =>
      btrfs_release_path ;;;
      let new_size := sizeof_extent_item +
        (if owner <? BTRFS_FIRST_FREE_OBJECTID then sizeof_tree_block_info else 0) - sizeof_extent_item_v0 in
      r <- btrfs_search_slot env fuel key new_size true ;;
      if r <? 0 then ret r
      else
        bug_on (negb (r =? 0)) ;;;
        r <- btrfs_extend_item env new_size ;;
        bug_on (negb (r =? 0)) ;;;
        ls <- leaf_slot ;;
        let '(leaf, slot, d) := ls in
        eb_write leaf (fill_converted d (btrfs_item_ptr_offset d slot) refs owner) ;;;
        ret 0
  end.

(** ** References in items of their own *)

Definition data_ref_key (bytenr parent root_objectid owner off : Z) : btrfs_key :=
  if negb (parent =? 0) then BtrfsKey bytenr BTRFS_SHARED_DATA_REF_KEY parent
  else BtrfsKey bytenr BTRFS_EXTENT_DATA_REF_KEY (hash_extent_data_ref root_objectid owner off).

(** [lookup_extent_data_ref] without a parent, from the label [again]. *)
Fixpoint data_ref_loop (fuel sfuel : nat) (bytenr root_objectid owner off : Z) (recow : bool) : act world (option btrfs_key + Z) :=
  match fuel with
  | O => bug
  | S fuel =>
      ls <- leaf_slot ;;
      let '(leaf, slot, d) := ls in
      r <- (if btrfs_header_nritems d <=? slot then r <- btrfs_next_leaf ;; ret (r, true) else ret (0, recow)) ;;
      let '(r, recow) := (r : Z * bool) in
      if r <? 0 then ret (inr r)
      else if negb (r =? 0) then ret (inr (- ENOENT))
      else
        ls <- leaf_slot ;;
        let '(leaf, slot, d) := ls in
        let key := btrfs_item_key d slot in
        if negb (objectid key =? bytenr) || negb (type key =? BTRFS_EXTENT_DATA_REF_KEY) then ret (inr (- ENOENT))
        else if match_extent_data_ref d (btrfs_item_ptr_offset d slot) root_objectid owner off then
          ret (if recow : bool then inl (Some key) else inl None)
        else set_path_slot 0 (slot + 1) ;;; data_ref_loop fuel sfuel bytenr root_objectid owner off recow
  end.

(** [n] bounds how often the search begins again for a block that may be
    written: the leaf it found came from [btrfs_next_leaf]. *)
Fixpoint data_ref_again (n fuel sfuel : nat) (key : btrfs_key) (bytenr root_objectid owner off : Z) : act world Z :=
  match n with
  | O => bug
  | S n =>
      r <- btrfs_search_slot env sfuel key (-1) true ;;
      if r <? 0 then ret r
      else
        r <- data_ref_loop fuel sfuel bytenr root_objectid owner off false ;;
        match r with
        | inr err => ret err
        | inl None => ret 0
        | inl (Some key) => btrfs_release_path ;;; data_ref_again n fuel sfuel key bytenr root_objectid owner off
        end
  end.

Definition lookup_extent_data_ref (fuel loop_fuel : nat) (bytenr parent root_objectid owner off : Z) : act world Z :=
  let key := data_ref_key bytenr parent root_objectid owner off in
  if negb (parent =? 0) then
    r <- btrfs_search_slot env fuel key (-1) true ;;
    if r <? 0 then ret r
    else if r =? 0 then ret 0
    else
      btrfs_release_path ;;;
      r <- btrfs_search_slot env fuel (BtrfsKey bytenr BTRFS_EXTENT_REF_V0_KEY parent) (-1) true ;;
      if r <? 0 then ret r else if r =? 0 then ret 0 else ret (- ENOENT)
  else data_ref_again loop_fuel loop_fuel fuel key bytenr root_objectid owner off.

(** The collisions of [insert_extent_data_ref]: an item of the same hash for
    another reference.  The result is what the last insertion returned. *)
Fixpoint data_ref_insert_loop (n fuel : nat) (key : btrfs_key) (root_objectid owner off : Z) (r : Z) : act world Z :=
  match n with
  | O => bug
  | S n =>
      if negb (r =? - EEXIST) then ret r
      else
        ls <- leaf_slot ;;
        let '(leaf, slot, d) := ls in
        if match_extent_data_ref d (btrfs_item_ptr_offset d slot) root_objectid owner off then ret r
        else
          btrfs_release_path ;;;
          let key := BtrfsKey (objectid key) (type key) (u64 (offset key + 1)) in
          r <- btrfs_insert_empty_items env fuel [(key, sizeof_extent_data_ref)] ;;
          data_ref_insert_loop n fuel key root_objectid owner off r
  end.

(** [num_refs += refs_to_add] on 32 bits. *)
Definition insert_extent_data_ref (fuel loop_fuel : nat) (bytenr parent root_objectid owner off refs_to_add : Z) : act world Z :=
  let key := data_ref_key bytenr parent root_objectid owner off in
  let size := if negb (parent =? 0) then sizeof_shared_data_ref else sizeof_extent_data_ref in
  r <- btrfs_insert_empty_items env fuel [(key, size)] ;;
  r <- (if negb (r =? 0) && negb (r =? - EEXIST) then ret r
        else if negb (parent =? 0) then
          ls <- leaf_slot ;;
          let '(leaf, slot, d) := ls in
          let ref := btrfs_item_ptr_offset d slot in
          let num_refs := if r =? 0 then refs_to_add else u32 (btrfs_shared_data_ref_count d ref + refs_to_add) in
          eb_write leaf (btrfs_set_shared_data_ref_count d ref num_refs) ;;;
          ret 0
        else
          r <- data_ref_insert_loop loop_fuel fuel key root_objectid owner off r ;;
          if negb (r =? 0) && negb (r =? - EEXIST) then ret r
          else
            ls <- leaf_slot ;;
            let '(leaf, slot, d) := ls in
            let ref := btrfs_item_ptr_offset d slot in
            eb_write leaf
              (if r =? 0 then
                 let d := btrfs_set_extent_data_ref_root d ref root_objectid in
                 let d := btrfs_set_extent_data_ref_objectid d ref owner in
                 let d := btrfs_set_extent_data_ref_offset d ref off in
                 btrfs_set_extent_data_ref_count d ref refs_to_add
               else btrfs_set_extent_data_ref_count d ref (u32 (btrfs_extent_data_ref_count d ref + refs_to_add))) ;;;
            ret 0) ;;
  btrfs_release_path ;;;
  ret r.

(** The count of the item of its own the path leads to; [None] is [BUG()]. *)
Definition keyed_ref_count (d : buf) (key : btrfs_key) (ref : Z) : option Z :=
  if type key =? BTRFS_EXTENT_DATA_REF_KEY then Some (btrfs_extent_data_ref_count d ref)
  else if type key =? BTRFS_SHARED_DATA_REF_KEY then Some (btrfs_shared_data_ref_count d ref)
  else if type key =? BTRFS_EXTENT_REF_V0_KEY then Some (btrfs_ref_count_v0 d ref)
  else None.

Definition remove_extent_data_ref (refs_to_drop : Z) : act world Z :=
  ls <- leaf_slot ;;
  let '(leaf, slot, d) := ls in
  let key := btrfs_item_key d slot in
  let ref := btrfs_item_ptr_offset d slot in
  num_refs <- lift (keyed_ref_count d key ref) ;;
  bug_on (num_refs <? refs_to_drop) ;;;
  let num_refs := num_refs - refs_to_drop in
  if num_refs =? 0 then btrfs_del_items env slot 1
  else
    eb_write leaf
      (if type key =? BTRFS_EXTENT_DATA_REF_KEY then btrfs_set_extent_data_ref_count d ref num_refs
       else if type key =? BTRFS_SHARED_DATA_REF_KEY then btrfs_set_shared_data_ref_count d ref num_refs
       else btrfs_set_ref_count_v0 d ref num_refs) ;;;
    ret 0.

Definition extent_data_ref_count (iref : option Z) : act world Z :=
  ls <- leaf_slot ;;
  let '(leaf, slot, d) := ls in
  let key := btrfs_item_key d slot in
  match iref with
  | Some iref =>
      ret (if btrfs_extent_inline_ref_type d iref =? BTRFS_EXTENT_DATA_REF_KEY
           then btrfs_extent_data_ref_count d (iref + offsetof_inline_offset)
           else btrfs_shared_data_ref_count d (iref + sizeof_extent_inline_ref))
  | None => lift (keyed_ref_count d key (btrfs_item_ptr_offset d slot))
  end.

Definition block_ref_key (bytenr parent root_objectid : Z) : btrfs_key :=
  if negb (parent =? 0) then BtrfsKey bytenr BTRFS_SHARED_BLOCK_REF_KEY parent
  else BtrfsKey bytenr BTRFS_TREE_BLOCK_REF_KEY root_objectid.

Definition lookup_tree_block_ref (fuel : nat) (bytenr parent root_objectid : Z) : act world Z :=
  let key := block_ref_key bytenr parent root_objectid in
  r <- btrfs_search_slot env fuel key (-1) true ;;
  let r := if 0 <? r then - ENOENT else r in
  if (r =? - ENOENT) && negb (parent =? 0) then
    btrfs_release_path ;;;
    r <- btrfs_search_slot env fuel (BtrfsKey (objectid key) BTRFS_EXTENT_REF_V0_KEY (offset key)) (-1) true ;;
    ret (if 0 <? r then - ENOENT else r)
  else ret r.

Definition insert_tree_block_ref (fuel : nat) (bytenr parent root_objectid : Z) : act world Z :=
  r <- btrfs_insert_empty_items env fuel [(block_ref_key bytenr parent root_objectid, 0)] ;;
  btrfs_release_path ;;;
  ret r.

(** ** Inline references

    The result is the return value and the place [ref_ret]; [None] where the
    code leaves the caller's pointer as it was. *)
Definition lookup_inline_extent_backref (fuel loop_fuel : nat) (skinny : bool)
    (bytenr num_bytes parent root_objectid owner off : Z) (insert : bool) : act world (Z * option Z) :=
  let want := extent_ref_type parent owner in
  extra_size <- (if insert then lift (btrfs_extent_inline_ref_size want) else ret (-1)) ;;
  let skinny := (owner <? BTRFS_FIRST_FREE_OBJECTID) && skinny in
  let key := if skinny then BtrfsKey bytenr BTRFS_METADATA_ITEM_KEY owner
             else BtrfsKey bytenr BTRFS_EXTENT_ITEM_KEY num_bytes in
  s <- search_extent_item fuel key extra_size true skinny bytenr num_bytes ;;
  let '(r, key, skinny) := (s : Z * btrfs_key * bool) in
  if r <? 0 then ret (r, None)
  else if negb (r =? 0) then ret (- ENOENT, None)
  else
    ls <- leaf_slot ;;
    let '(leaf, slot, d) := ls in
    c <- (if btrfs_item_size_nr d slot <? sizeof_extent_item then
            if negb insert then ret (- ENOENT) else convert_extent_item_v0 fuel loop_fuel owner
          else ret 0) ;;
    if c <? 0 then ret (c, None)
    else
      ls <- leaf_slot ;;
      let '(leaf, slot, d) := ls in
      let item_size := btrfs_item_size_nr d slot in
      if item_size <? sizeof_extent_item then ret (- EINVAL, None)
      else
        let ei := btrfs_item_ptr_offset d slot in
        let flags := btrfs_extent_flags d ei in
        let block := has_flag flags BTRFS_EXTENT_FLAG_TREE_BLOCK in
        let ptr := ei + sizeof_extent_item + (if block && negb skinny then sizeof_tree_block_info else 0) in
        let last := ei + item_size in
        bug_on (block && negb skinny && (last <? ptr)) ;;;
        if negb block && negb (has_flag flags BTRFS_EXTENT_FLAG_DATA) then ret (- EIO, None)
        else
          f <- lift (inline_ref_loop (S (Z.to_nat item_size)) d want parent root_objectid owner off ptr last) ;;
          let '(found, ptr) := f in
          let err := if found : bool then 0 else - ENOENT in
          if (err =? - ENOENT) && insert then
            if BTRFS_MAX_EXTENT_ITEM_SIZE (te_root env) <=? item_size + extra_size then ret (- EAGAIN, None)
            else
              next <- find_next_key ;;
              if match next with
                 | Some key => (objectid key =? bytenr) && (type key <? BTRFS_BLOCK_GROUP_ITEM_KEY)
                 | None => false
                 end
              then ret (- EAGAIN, None)
              else ret (err, Some ptr)
          else ret (err, Some ptr).

Definition setup_inline_extent_backref (iref parent root_objectid owner off refs_to_add : Z) : act world Z :=
  ls <- leaf_slot ;;
  let '(leaf, slot, d) := ls in
  let item_offset := iref - btrfs_item_ptr_offset d slot in
  let type := extent_ref_type parent owner in
  size <- lift (btrfs_extent_inline_ref_size type) ;;
  r <- btrfs_extend_item env size ;;
  bug_on (negb (r =? 0)) ;;;
  eb_update leaf (fun d => setup_inline_leaf d slot item_offset size type parent root_objectid owner off refs_to_add) ;;;
  ret 0.

Definition lookup_extent_backref (fuel loop_fuel : nat) (skinny : bool)
    (bytenr num_bytes parent root_objectid owner off : Z) : act world (Z * option Z) :=
  f <- lookup_inline_extent_backref fuel loop_fuel skinny bytenr num_bytes parent root_objectid owner off false ;;
  if negb (f.1 =? - ENOENT) then ret f
  else
    btrfs_release_path ;;;
    r <- (if owner <? BTRFS_FIRST_FREE_OBJECTID then lookup_tree_block_ref fuel bytenr parent root_objectid
          else lookup_extent_data_ref fuel loop_fuel bytenr parent root_objectid owner off) ;;
    ret (r, None).

Definition update_inline_extent_backref (iref refs_to_mod : Z) : act world Z :=
  ls <- leaf_slot ;;
  let '(leaf, slot, d) := ls in
  let ei := btrfs_item_ptr_offset d slot in
  let refs := btrfs_extent_refs d ei in
  bug_on ((refs_to_mod <? 0) && (u64 (refs + refs_to_mod) <=? 0)) ;;;
  let d := btrfs_set_extent_refs d ei (u64 (refs + refs_to_mod)) in
  eb_write leaf d ;;;
  let type := btrfs_extent_inline_ref_type d iref in
  let count := inline_ref_count d iref type in
  bug_on (bool_decide (count = None) && negb (refs_to_mod =? -1)) ;;;
  let refs := default 1 count in
  bug_on ((refs_to_mod <? 0) && (refs <? - refs_to_mod)) ;;;
  let refs := u64 (refs + refs_to_mod) in
  if 0 <? refs then eb_write leaf (set_inline_ref_count d iref type refs) ;;; ret 0
  else
    size <- lift (btrfs_extent_inline_ref_size type) ;;
    let item_size := btrfs_item_size_nr d slot in
    let last := ei + item_size in
    (if iref + size <? last then eb_write leaf (memmove_extent_buffer d iref (iref + size) (last - iref - size))
     else ret tt) ;;;
    r <- btrfs_truncate_item env (u32 (item_size - size)) true ;;
    bug_on (negb (r =? 0)) ;;;
    ret 0.

(** The pointer the caller passes to [setup_inline_extent_backref] after
    [-ENOENT] is not set when the extent has no item. *)
Definition insert_inline_extent_backref (fuel loop_fuel : nat) (skinny : bool)
    (bytenr num_bytes parent root_objectid owner off refs_to_add : Z) : act world Z :=
  f <- lookup_inline_extent_backref fuel loop_fuel skinny bytenr num_bytes parent root_objectid owner off true ;;
  if f.1 =? 0 then
    bug_on (owner <? BTRFS_FIRST_FREE_OBJECTID) ;;;
    iref <- lift f.2 ;;
    update_inline_extent_backref iref refs_to_add
  else if f.1 =? - ENOENT then
    iref <- lift f.2 ;;
    setup_inline_extent_backref iref parent root_objectid owner off refs_to_add
  else ret f.1.

Definition insert_extent_backref (fuel loop_fuel : nat) (bytenr parent root_objectid owner off refs_to_add : Z) : act world Z :=
  if BTRFS_FIRST_FREE_OBJECTID <=? owner then
    insert_extent_data_ref fuel loop_fuel bytenr parent root_objectid owner off refs_to_add
  else
    bug_on (negb (refs_to_add =? 1)) ;;;
    insert_tree_block_ref fuel bytenr parent root_objectid.

Definition remove_extent_backref (iref : option Z) (refs_to_drop : Z) (is_data : bool) : act world Z :=
  bug_on (negb is_data && negb (refs_to_drop =? 1)) ;;;
  match iref with
  | Some iref => update_inline_extent_backref iref (- refs_to_drop)
  | None =>
      if is_data then remove_extent_data_ref refs_to_drop
      else slot <- path_slot 0 ;; btrfs_del_items env slot 1
  end.

(** The part of [btrfs_inc_extent_ref] between its path and the pending
    operations: the error. *)
Definition inc_extent_ref_items (fuel loop_fuel : nat) (skinny : bool)
    (bytenr num_bytes parent root_objectid owner off : Z) : act world Z :=
  r <- insert_inline_extent_backref fuel loop_fuel skinny bytenr num_bytes parent root_objectid owner off 1 ;;
  if r =? 0 then ret 0
  else if negb (r =? - EAGAIN) then ret r
  else
    ls <- leaf_slot ;;
    let '(leaf, slot, d) := ls in
    let item := btrfs_item_ptr_offset d slot in
    eb_write leaf (btrfs_set_extent_refs d item (u64 (btrfs_extent_refs d item + 1))) ;;;
    btrfs_release_path ;;;
    insert_extent_backref fuel loop_fuel bytenr parent root_objectid owner off 1.

(** ** The counts and flags of an extent *)

(** [btrfs_lookup_extent_info]: the return value, and the counts and flags when
    they were set.  [off] is the level or the size. *)
Definition btrfs_lookup_extent_info (mem : bool) (fuel : nat) (skinny : bool) (bytenr off : Z) (metadata : bool)
    : act world (Z * option (Z * Z)) :=
  let off := if metadata && negb skinny then leafsize (te_root env) else off in
  let metadata := metadata && skinny in
  with_new_path mem (ret (- ENOMEM, None))
    (let key := BtrfsKey bytenr (if metadata then BTRFS_METADATA_ITEM_KEY else BTRFS_EXTENT_ITEM_KEY) off in
     s <- search_extent_item fuel key 0 false metadata bytenr (leafsize (te_root env)) ;;
     let '(r, key, metadata) := (s : Z * btrfs_key * bool) in
     if negb (r =? 0) then ret (0, None)
     else
       ls <- leaf_slot ;;
       let '(leaf, slot, d) := ls in
       let item_size := btrfs_item_size_nr d slot in
       let item := btrfs_item_ptr_offset d slot in
       if sizeof_extent_item <=? item_size then ret (0, Some (btrfs_extent_refs d item, btrfs_extent_flags d item))
       else
         bug_on (negb (item_size =? sizeof_extent_item_v0)) ;;;
         ret (0, Some (btrfs_extent_refs_v0 d item, BTRFS_BLOCK_FLAG_FULL_BACKREF))).

(** [btrfs_set_block_flags] on the items; the pending operations follow. *)
Definition set_block_flags_items (mem : bool) (fuel loop_fuel : nat) (skinny : bool) (bytenr level flags : Z) : act world Z :=
  let key := if skinny then BtrfsKey bytenr BTRFS_METADATA_ITEM_KEY level
             else BtrfsKey bytenr BTRFS_EXTENT_ITEM_KEY (leafsize (te_root env)) in
  with_new_path mem (ret (- ENOMEM))
    (s <- search_extent_item fuel key 0 false skinny bytenr (leafsize (te_root env)) ;;
     let '(r, key, skinny) := (s : Z * btrfs_key * bool) in
     if r <? 0 then ret r
     else
       bug_on (negb (r =? 0)) ;;;
       ls <- leaf_slot ;;
       let '(leaf, slot, d) := ls in
       c <- (if btrfs_item_size_nr d slot <? sizeof_extent_item then convert_extent_item_v0 fuel loop_fuel U64_MAX
             else ret 0) ;;
       if c <? 0 then ret c
       else
         ls <- leaf_slot ;;
         let '(leaf, slot, d) := ls in
         bug_on (btrfs_item_size_nr d slot <? sizeof_extent_item) ;;;
         let item := btrfs_item_ptr_offset d slot in
         eb_write leaf (btrfs_set_extent_flags d item (Z.lor flags (btrfs_extent_flags d item))) ;;;
         ret c).
End Ref.
