(* ===== verification/ExtentRefSpec.v ===== *)
(** What the searches and changes of [ExtentRef] do to a tree that holds extent
    items: a search ends at the item of the extent, the next key is the next
    key of the tree, and the bytes of the item change as the references do. *)

From stdpp Require Import sorting.
From S2P Require Import Prelude ExtentIo Buf CtreeFmt ItemFmt LeafOps LeafSpec LeafResize NodeOps TreeWorld.
From S2P Require Import TreeBalance TreeOps DirItem TreeSpec TreeSearch TreeWalk TreeFrame TreeInsert TreeItem.
From S2P Require Import PackSpec DirSpec ExtentAlloc ExtentItem ExtentItemSpec ExtentRef.

Implicit Types (L l pre post A B : list item) (key k : btrfs_key) (b : buf) (d : list Z) (x : extent).

(** A list splits in one way only into a front with a property and a rest
    without it. *)
Lemma split_at_unique {T} (P : T -> Prop) (l1 l2 r1 r2 : list T) :
  l1 ++ l2 = r1 ++ r2 -> Forall P l1 -> Forall P r1 -> Forall (fun a => ~ P a) l2 -> Forall (fun a => ~ P a) r2 ->
  l1 = r1 /\ l2 = r2.
Proof.
  revert r1. induction l1 as [|a l1 IH]; intros [|c r1]; simpl; intros He H1 H2 H3 H4; [done|..].
  - subst l2. by apply Forall_cons in H2 as [? _], H3 as [? _].
  - subst r2. by apply Forall_cons in H1 as [? _], H4 as [? _].
  - injection He as <- He. apply Forall_cons in H1 as [_ H1], H2 as [_ H2]. by destruct (IH r1 He H1 H2 H3 H4) as [-> ->].
Qed.

Section RefRun.
Context {X : Type} `{ExtentTree X} (env : tree_env).
Context (Hroot : root_ok (te_root env)).

Abbreviation world := (tree_world X).
Abbreviation root := (te_root env).
Implicit Types (w : world) (m : gmap Z extent_buffer) (p : btrfs_path).

(** ** The path *)

Lemma leaf_slot_run w (lb : Z) A k d B e :
  item_view env w lb A k d B e -> leaf_slot w = Some ((lb, Z.of_nat (length A), eb_data e), w).
Proof using Type.
  intros [V1 V2 _ V3 _ _ _ _ _ _]. unfold leaf_slot.
  by rewrite (bind_some _ _ _ _ _ V1), (bind_some _ _ _ _ _ V2), (bind_some _ _ _ _ _ V3).
Qed.

(** The items of a tree are at one place only. *)
Lemma sorted_same_place (L1 L2 R1 R2 : list item) k d d' :
  sorted_keys ((L1 ++ (k, d) :: L2).*1) -> L1 ++ (k, d) :: L2 = R1 ++ (k, d') :: R2 -> L1 = R1 /\ d = d' /\ L2 = R2.
Proof using Type.
  intros Hs. apply sorted_keys_NoDup in Hs. revert R1. induction L1 as [|i L1 IH]; intros [|j R1]; simpl; intros He.
  - by injection He as -> ->.
  - exfalso. injection He as <- He. simpl in Hs. apply NoDup_cons in Hs as [Hn _]. apply Hn.
    rewrite He, fmap_app. apply elem_of_app. right. left.
  - exfalso. injection He as -> He. simpl in Hs. apply NoDup_cons in Hs as [Hn _]. apply Hn.
    rewrite fmap_app. apply elem_of_app. right. left.
  - injection He as <- He. simpl in Hs. apply NoDup_cons in Hs as [_ Hs]. by destruct (IH Hs _ He) as (-> & -> & ->).
Qed.

(** [k] is the key of the item a search for the extent ends at, and [sk'] whether
    it is taken for one of the new kind: the key that is searched, or else the
    old key if it is right before. *)
Definition found_as L (bytenr num_bytes : Z) key (sk : bool) k (sk' : bool) : Prop :=
  (k = key /\ sk' = sk /\ key ∈ L.*1) \/
  (sk = true /\ sk' = false /\ k = BtrfsKey bytenr BTRFS_EXTENT_ITEM_KEY num_bytes /\
   exists L1 d L2, L = L1 ++ (k, d) :: L2 /\ key_lt k key /\ Forall (fun k => key_lt key k) (L2.*1)).

(** The item of the old kind is right before the place of the new key. *)
Lemma old_key_before key k d L1 L2 (l1 l2 : list item) :
  sorted_keys ((L1 ++ (k, d) :: L2).*1) -> L1 ++ (k, d) :: L2 = l1 ++ l2 -> key_lt k key -> Forall (fun k => key_lt key k) (L2.*1) ->
  Forall (fun k => key_lt k key) (l1.*1) -> Forall (fun k => key_lt key k) (l2.*1) -> l1 = L1 ++ [(k, d)] /\ l2 = L2.
Proof using Type.
  intros Hs He Hlt HL2 H1 H2. rewrite fmap_app, fmap_cons in Hs.
  assert (Hno : forall l, Forall (fun k => key_lt key k) (l.*1) -> Forall (fun i : item => ~ key_lt (fst i) key) l).
  { intros l Hl. apply (Forall_fmap fst (fun k => key_lt key k)) in Hl. eapply Forall_impl; [exact Hl|]. simpl.
    intros i Hi1 Hi2. by apply (key_lt_irrefl key), (key_lt_trans _ (fst i)). }
  destruct (split_at_unique (fun i : item => key_lt (fst i) key) (L1 ++ [(k, d)]) L2 l1 l2) as [HA HB]; [| |by apply Forall_fmap in H1|by apply Hno..|by split].
  { by rewrite <- (assoc_L (++)). }
  apply Forall_app. split; [|by constructor]. apply Forall_forall. intros i Hi. apply (key_lt_trans _ k); [|done].
  apply (StronglySorted_app_1_elem_of _ _ _ _ _ Hs (list_elem_of_fmap_2 _ _ _ Hi) (list_elem_of_here _ _)).
Qed.

(** A key that is there is not between an item before it and those behind it. *)
Lemma found_not_old key k d L1 L2 :
  sorted_keys ((L1 ++ (k, d) :: L2).*1) -> key_lt k key -> Forall (fun k => key_lt key k) (L2.*1) -> key ∉ (L1 ++ (k, d) :: L2).*1.
Proof using Type.
  intros Hs Hlt HL2 Hin. rewrite fmap_app, fmap_cons in Hin, Hs. cbn [fst] in *.
  apply elem_of_app in Hin as [Hin|[->|Hin]%elem_of_cons].
  - pose proof (StronglySorted_app_1_elem_of _ _ _ _ _ Hs Hin (list_elem_of_here _ _)).
    by apply (key_lt_irrefl key), (key_lt_trans _ k).
  - by apply (key_lt_irrefl k).
  - apply (key_lt_irrefl key). by apply (proj1 (Forall_forall _ _) HL2).
Qed.

(** Where a search of the tree ended. *)
Record searched w n (b : Z) L key (r : Z) p (lb : Z) pre l post : Prop := {
  se_items : L = pre ++ l ++ post;
  se_found : found (l.*1) key r (p_slots p 0);
  se_before : Forall (fun k => key_lt k key) (pre.*1);
  se_behind : Forall (fun k => key_lt key k) (post.*1);
  se_leaf : at_leaf env (with_path w p) n b lb pre l post;
  se_low : pre = [] \/ exists k, head (l.*1) = Some k /\ ~ key_lt key k;
}.

Lemma search_extent_core w n (b : Z) L key ins_len (cow sk : bool) bytenr num_bytes fuel k sk' r p (lb : Z) pre l post :
  btrfs_search_slot env fuel key ins_len cow w = Some (r, with_path w p) -> searched w n b L key r p lb pre l post ->
  sorted_keys (L.*1) -> found_as L bytenr num_bytes key sk k sk' ->
  exists p' A d B, search_extent_item env fuel key ins_len cow sk bytenr num_bytes w = Some ((0, k, sk'), with_path w p') /\
    l = A ++ (k, d) :: B /\ at_leaf env (with_path w p') n b lb pre l post /\ p_slots p' 0 = Z.of_nat (length A).
Proof using Hroot.
  intros Hrun [HL (k1 & k2 & Hs & Hk1 & Hk2 & Hf) Hpre Hpost Hat Hlow] Hsd Hfound.
  pose proof (key_elem_split key pre l post Hpre Hpost) as Helem. rewrite <- HL in Helem.
  unfold search_extent_item. rewrite (bind_some _ _ _ _ _ Hrun). destruct Hf as [[-> Hl]|[-> Hl]].
  - (* the key itself *)
    destruct Hfound as [(-> & -> & _)|(_ & _ & _ & L1 & d & L2 & HL' & Hlt & HL2)].
    + change (0 <? 0) with false. cbn [andb]. cbv iota. apply fmap_app_inv in Hl as (A & B' & -> & HB & ->). symmetry in HB.
      apply fmap_cons_inv in HB as ([k d] & B & -> & -> & ->). cbn [fst] in *. rewrite length_fmap in Hs. by exists p, A, d, B.
    + exfalso. assert (Hin : key ∈ L.*1) by (apply Helem; rewrite Hl; set_solver). rewrite HL' in Hin, Hsd. by apply (found_not_old key k d L1 L2).
  - destruct Hfound as [(-> & -> & Hin)|(-> & -> & -> & L1 & d & L2 & HL' & Hlt & HL2)].
    { exfalso. apply (not_around k1 k2 key); [done..|by rewrite <- Hl, <- Helem]. }
    set (k := BtrfsKey bytenr BTRFS_EXTENT_ITEM_KEY num_bytes) in *. change (0 <? 1) with true. cbn [andb]. cbv iota.
    apply fmap_app_inv in Hl as (A & B & -> & -> & ->). rewrite length_fmap in Hs. rewrite HL' in Hsd, HL.
    destruct (old_key_before key k d L1 L2 (pre ++ A) (B ++ post) Hsd) as [HA _]; [by rewrite HL, <- !(assoc_L (++))|done|done|..].
    { rewrite fmap_app. by apply Forall_app. }
    { rewrite fmap_app. by apply Forall_app. }
    destruct A as [|i A _] using rev_ind.
    { exfalso. rewrite app_nil_r in HA. destruct Hlow as [->|(k' & Hk' & Hn)]; [by destruct L1|].
      destruct B as [|[k'' d''] B]; [done|]. injection Hk' as <-. apply Hn. by apply Forall_cons in Hk2 as [? _]. }
    rewrite (assoc_L (++)) in HA. apply app_inj_2 in HA as [HL1 [= ->]]; [|done].
    rewrite <- (assoc_L (++) A) in Hat |- *. cbn [app] in Hat |- *. rewrite length_app in Hs. simpl in Hs.
    set (w1 := with_path w p). assert (Vs : path_slot 0 w1 = Some (Z.of_nat (length A) + 1, w1)).
    { rewrite path_slot_run by done. simpl. do 2 f_equal. lia. }
    rewrite (bind_some _ _ _ _ _ Vs), (proj2 (Z.eqb_neq _ 0)) by lia. cbn [negb].
    replace (Z.of_nat (length A) + 1 - 1) with (Z.of_nat (length A)) by lia.
    set (p' := slot_upd p 0 (Z.of_nat (length A))).
    assert (Hat' : at_leaf env (with_path w p') n b lb pre (A ++ (k, d) :: B) post).
    { destruct Hat as [Ap Al At]. split; [|done|done]. apply (on_path_below env _ p _ _ _ _ _ _ Ap). intros i Hi. split; [done|].
      intros Hi0. simpl. by rewrite upd_other. }
    assert (Hs' : p_slots p' 0 = Z.of_nat (length A)) by (simpl; apply upd_same).
    destruct (at_leaf_view env Hroot _ _ _ _ _ _ _ _ _ _ Hat' Hs') as (e & [V1 _ _ V3 _ _ _ Vk _ _]).
    rewrite bind_assoc, (bind_some _ _ _ _ _ (set_path_slot_run w1 0 (Z.of_nat (length A)) eq_refl)).
    change (with_path w1 _) with (with_path w p').
    rewrite bind_assoc, (bind_some _ _ _ _ _ V1), bind_assoc, (bind_some _ _ _ _ _ V3). rewrite Vk. unfold k. cbn [objectid type offset].
    rewrite !Z.eqb_refl. cbn [andb]. by exists p', A, d, B.
Qed.

Lemma search_extent_run w n (b : Z) L key ins_len (cow sk : bool) bytenr num_bytes fuel k sk' :
  tree_ok env w n b L -> tw_path w = btrfs_init_path -> searchable env (tw_blocks w) n b ins_len ->
  (cow = false -> ins_len = 0) -> (n < fuel)%nat -> found_as L bytenr num_bytes key sk k sk' ->
  exists p lb pre A d B post,
    search_extent_item env fuel key ins_len cow sk bytenr num_bytes w = Some ((0, k, sk'), with_path w p) /\
    L = pre ++ (A ++ (k, d) :: B) ++ post /\ at_item env (with_path w p) n b lb pre A k d B post /\
    lb ∈ tree_blocks (tw_blocks w) n b.
Proof using Hroot.
  intros Hok Hp Hsr Hcow Hfuel Hfound.
  destruct (search_tree_ok env Hroot w n b L key ins_len cow fuel Hok Hp Hsr Hcow Hfuel)
    as (r & slot & p & lb & pre & l & post & HL & Hf & Hpre & Hpost & Hrun & Hat & <- & Hlb & Hlow).
  destruct (search_extent_core w n b L key ins_len cow sk bytenr num_bytes fuel k sk' r p lb pre l post Hrun)
    as (p' & A & d & B & Hrun' & -> & Hat' & Hs'); [by split|apply Hok|done|].
  exists p', lb, pre, A, d, B, post. split; [done|]. split; [done|]. split; [|done]. split; [rewrite <- HL; by apply tree_ok_path|done..].
Qed.

(** The same on any tree, without making room or copying. *)
Lemma lookup_extent_run w n (b : Z) L key (sk : bool) bytenr num_bytes fuel k sk' :
  tw_node w = Some b -> subtree root (tw_blocks w) n b L -> sorted_keys (L.*1) -> (n < 7)%nat -> (n < fuel)%nat ->
  tw_path w = btrfs_init_path -> found_as L bytenr num_bytes key sk k sk' ->
  exists p lb pre A d B post e,
    search_extent_item env fuel key 0 false sk bytenr num_bytes w = Some ((0, k, sk'), with_path w p) /\
    L = pre ++ (A ++ (k, d) :: B) ++ post /\ item_view env (with_path w p) lb A k d B e.
Proof using Hroot.
  intros Hb Ht Hs Hn Hfuel Hp Hfound.
  destruct (lookup_run env Hroot w n b L key false fuel Hb Ht Hs Hn Hfuel Hp) as (r & p & lb & e & pre & l & post & Hrun & Hlu); [done|].
  destruct Hlu as [HL Hon Hlf Htop He Hr Hf Hpre Hpost Hlow].
  destruct (search_extent_core w n b L key 0 false sk bytenr num_bytes fuel k sk' r p lb pre l post Hrun)
    as (p' & A & d & B & Hrun' & -> & Hat' & Hs'); [by split; [..|split|]|done|done|].
  destruct (at_leaf_view env Hroot _ _ _ _ _ _ _ _ _ _ Hat' Hs') as (e' & Hv).
  by exists p', lb, pre, A, d, B, post, e'.
Qed.

(** ** The key behind the item of the path *)

Lemma next_key_climb w n (b : Z) pre l post c :
  (n < 8)%nat -> on_path root (tw_blocks w) (tw_path w) n b pre l post ->
  find_next_key_loop (n + c) 1 w =
    match head (post.*1) with Some k => Some (Some k, w) | None => find_next_key_loop c (Z.of_nat n + 1) w end.
Proof using Hroot.
  revert b pre l post c. induction n as [|n IH]; intros b pre l post c Hn; cbn [on_path].
  - by intros (_ & _ & _ & ->).
  - intros (Hnode & P1 & y & P2 & C1 & C2 & pre' & post' & Hb & Hslot & H1 & H2 & Hp & Hh & -> & ->).
    replace (S n + c)%nat with (n + S c)%nat by lia. rewrite (IH _ _ _ _ (S c) ltac:(lia) Hp).
    destruct post' as [|i post']; [|done]. simpl app. cbn [fmap list_fmap head find_next_key_loop].
    replace (Z.of_nat n + 1) with (Z.of_nat (S n)) by lia.
    assert (Hin : in_path (Z.of_nat (S n)) = true) by (apply in_path_lt; lia).
    rewrite (bind_some _ _ _ _ _ (path_node_run w _ Hin)), Hnode.
    rewrite (bind_some _ _ _ _ _ (path_slot_run w _ Hin)), Hslot.
    destruct Hb as (e & He & _ & Hrep & _). rewrite (bind_some _ _ _ _ _ (eb_read_run w b e He)).
    rewrite (nr_nritems _ _ _ Hrep), length_app. cbn [length].
    destruct P2 as [|z P2].
    + apply Forall2_nil_inv_l in H2 as ->. rewrite (proj2 (Z.leb_le _ _)) by (simpl; lia).
      cbn [concat fmap list_fmap head]. by replace (Z.of_nat (S n) + 1) with (Z.of_nat (S n) + 1) by lia.
    + apply Forall2_cons_inv_l in H2 as (Lz & C2' & [Hz Hhz] & H2 & ->). rewrite (proj2 (Z.leb_gt _ _)) by (simpl; lia).
      rewrite (proj2 (Z.eqb_neq _ 0)) by lia. replace (Z.of_nat (length P1) + 1) with (Z.of_nat (length (P1 ++ [y])))
        by (rewrite length_app; simpl; lia).
      rewrite (node_key_of_ptr env _ (P1 ++ [y]) z P2) by (by rewrite <- (assoc_L (++))).
      pose proof Hhz as Hk. unfold heads_ok in Hk. cbn [concat]. rewrite fmap_app. destruct Lz as [|[k d] Lz]; [done|].
      simpl in Hk |- *. injection Hk as ->. done.
Qed.

Lemma find_next_key_run w n (b lb : Z) pre A k d B post :
  at_item env w n b lb pre A k d B post -> find_next_key w = Some (head ((B ++ post).*1), w).
Proof using Hroot.
  intros Hat. destruct (at_item_view env Hroot _ _ _ _ _ _ _ _ _ _ Hat) as (e & Hv). destruct Hat as [Hok [Ap Al At] Hs].
  pose proof (to_depth _ _ _ _ _ Hok) as Hn. pose proof (iv_repr _ _ _ _ _ _ _ _ Hv) as Hr.
  unfold find_next_key. replace (Z.to_nat BTRFS_MAX_LEVEL) with (S (n + (7 - n))) by (unfold BTRFS_MAX_LEVEL; lia). cbn [find_next_key_loop].
  rewrite (bind_some _ _ _ _ _ (path_node_run w 0 eq_refl)), Al.
  rewrite (bind_some _ _ _ _ _ (iv_slot _ _ _ _ _ _ _ _ Hv)), (bind_some _ _ _ _ _ (iv_read _ _ _ _ _ _ _ _ Hv)).
  rewrite (lr_nritems _ _ _ Hr), length_app. cbn [length]. destruct B as [|[k' d'] B].
  - rewrite (proj2 (Z.leb_le _ _)) by (simpl; lia). simpl app. change (0 + 1) with 1.
    rewrite (next_key_climb w n b _ _ _ (7 - n) ltac:(lia) Ap).
    destruct (head post.*1) as [k'|]; [done|]. destruct (7 - n)%nat as [|c] eqn:Ec; [done|]. cbn [find_next_key_loop].
    rewrite (bind_some _ _ _ _ _ (path_node_run w (Z.of_nat n + 1) ltac:(apply in_path_lt; lia))). by rewrite At.
  - rewrite (proj2 (Z.leb_gt _ _)) by (simpl; lia). cbn [app fmap list_fmap head fst].
    change (0 =? 0) with true. cbv iota. replace (Z.of_nat (length A) + 1) with (Z.of_nat (length (A ++ [(k, d)])))
      by (rewrite length_app; simpl; lia).
    rewrite (repr_key root Hroot (eb_data e) _ (length (A ++ [(k, d)])) k' Hr); [done|].
    replace (A ++ (k, d) :: (k', d') :: B) with ((A ++ [(k, d)]) ++ (k', d') :: B) by (by rewrite <- (assoc_L (++))).
    rewrite fmap_app, lookup_app_r by (by rewrite length_fmap). by rewrite length_fmap, Nat.sub_diag.
Qed.

(** ** Looking for a reference in the item *)

Lemma view_extent w (lb : Z) A k x B e sk :
  item_view env w lb A k (extent_bytes x) B e -> extent_ok sk x ->
  extent_at (eb_data e) (btrfs_item_ptr_offset (eb_data e) (Z.of_nat (length A))) x.
Proof using Type. intros Hv Hx. eapply extent_at_bytes; [done|]. exact (iv_data _ _ _ _ _ _ _ _ Hv). Qed.

Lemma view_place w (lb : Z) A k d B e :
  item_view env w lb A k d B e ->
  btrfs_item_nr (Z.of_nat (length A)) + sizeof_item <= btrfs_item_ptr_offset (eb_data e) (Z.of_nat (length A)).
Proof using Hroot.
  intros Hv. pose proof (iv_repr _ _ _ _ _ _ _ _ Hv) as Hr. pose proof (repr_bounds root Hroot _ _ Hr) as Hb.
  pose proof (lr_fits _ _ _ Hr) as Hf.
  rewrite dsize_app, length_app in *. simpl in Hb, Hf. pose proof (dsize_nonneg A). pose proof (dsize_nonneg B).
  destruct (repr_item_fields root Hroot _ _ _ _ _ Hr) as (_ & Ho & _). unfold btrfs_item_ptr_offset. rewrite Ho. leaf_lia.
Qed.

Definition is_keyed (bytenr : Z) (next : option btrfs_key) : bool :=
  match next with
  | Some key => (objectid key =? bytenr) && (type key <? BTRFS_BLOCK_GROUP_ITEM_KEY)
  | None => false
  end.

(** The key a search for an extent begins with. *)
Definition extent_search_key (sk : bool) (bytenr num_bytes owner : Z) : btrfs_key :=
  if sk then BtrfsKey bytenr BTRFS_METADATA_ITEM_KEY owner else BtrfsKey bytenr BTRFS_EXTENT_ITEM_KEY num_bytes.

(** What [lookup_inline_extent_backref] returns for the item [x] at [q], with
    the key [next] behind it. *)
Definition lookup_result (insert : bool) (want : extent_ref) (bytenr : Z) x (next : option btrfs_key) (q : Z) : Z * option Z :=
  let F := find_ref want (ex_irefs x) in
  let ptr := q + (head_size x + Z.of_nat (length (irefs_bytes F.1))) in
  if ref_here want F.2 then (0, Some ptr)
  else if insert && ((BTRFS_MAX_EXTENT_ITEM_SIZE root <=? Z.of_nat (length (extent_bytes x)) + ref_size want) || is_keyed bytenr next)
  then (- EAGAIN, None)
  else (- ENOENT, Some ptr).

Section Lookup.
Context (bytenr num_bytes parent root_objectid owner off : Z) (skinny : bool).
Abbreviation want := (wanted_ref parent root_objectid owner off).
Abbreviation sk := ((owner <? BTRFS_FIRST_FREE_OBJECTID) && skinny).

Lemma lookup_inline_run w n (b : Z) L (insert : bool) fuel lfuel k sk' x :
  tree_ok env w n b L -> tw_path w = btrfs_init_path ->
  searchable env (tw_blocks w) n b (if insert then ref_size want else -1) -> (n < fuel)%nat ->
  found_as L bytenr num_bytes (extent_search_key sk bytenr num_bytes owner) sk k sk' ->
  item_at L k = Some (extent_bytes x) -> extent_ok sk' x ->
  exists p (lb : Z) pre A B post e,
    L = pre ++ (A ++ (k, extent_bytes x) :: B) ++ post /\
    at_item env (with_path w p) n b lb pre A k (extent_bytes x) B post /\
    item_view env (with_path w p) lb A k (extent_bytes x) B e /\
    lb ∈ tree_blocks (tw_blocks w) n b /\
    lookup_inline_extent_backref env fuel lfuel skinny bytenr num_bytes parent root_objectid owner off insert w =
      Some (lookup_result insert want bytenr x (head ((B ++ post).*1)) (btrfs_item_ptr_offset (eb_data e) (Z.of_nat (length A))),
            with_path w p).
Proof using Hroot.
  intros Hok Hp Hsr Hfuel Hfound Hitem Hx. unfold lookup_inline_extent_backref.
  rewrite (wanted_type parent root_objectid owner off), inline_size.
  assert (Hes : (if insert then lift (Some (ref_size want)) else ret (-1)) w = Some (if insert then ref_size want else -1, w))
    by (by destruct insert).
  rewrite (bind_some _ _ _ _ _ Hes). clear Hes. unfold extent_search_key in Hfound.
  destruct (search_extent_run w n b L _ (if insert then ref_size want else -1) true sk bytenr num_bytes fuel k sk'
    Hok Hp Hsr ltac:(done) Hfuel Hfound) as (p & lb & pre & A & d & B & post & Hrun & HL & Hat & Hlb).
  assert (Hd : d = extent_bytes x).
  { pose proof (to_sorted _ _ _ _ _ (ai_ok _ _ _ _ _ _ _ _ _ _ _ Hat)) as Hs.
    rewrite HL in Hitem. rewrite <- (assoc_L (++)) in Hitem, Hs. simpl in Hitem, Hs. rewrite (assoc_L (++)) in Hitem, Hs.
    rewrite (item_at_middle (pre ++ A) k d (B ++ post)) in Hitem by (by apply sorted_keys_NoDup). by injection Hitem. }
  subst d. destruct (at_item_view env Hroot _ _ _ _ _ _ _ _ _ _ Hat) as (e & Hv).
  exists p, lb, pre, A, B, post, e. do 4 (split; [done|]).
  rewrite (bind_some _ _ _ _ _ Hrun). change (0 <? 0) with false. cbn [negb Z.eqb].
  set (w1 := with_path w p) in *. pose proof (leaf_slot_run _ _ _ _ _ _ _ Hv) as Hls.
  pose proof (iv_size _ _ _ _ _ _ _ _ Hv) as Hsize. pose proof (extent_bytes_length x) as Hlx.
  assert (Hge : 24 <= head_size x) by (unfold head_size; lia).
  rewrite (bind_some _ _ _ _ _ Hls), Hsize, (proj2 (Z.ltb_ge _ sizeof_extent_item)) by (unfold sizeof_extent_item; lia).
  rewrite (bind_some _ _ w1 0 w1) by done. change (0 <? 0) with false. cbv iota.
  rewrite (bind_some _ _ _ _ _ Hls), Hsize, (proj2 (Z.ltb_ge _ sizeof_extent_item)) by (unfold sizeof_extent_item; lia).
  pose proof (view_extent _ _ _ _ _ _ _ _ Hv Hx) as [_ Hflags Hirefs]. rewrite Hflags.
  set (q := btrfs_item_ptr_offset (eb_data e) (Z.of_nat (length A))) in *.
  fold (is_block x). pose proof Hx as [_ _ Hkind Hinfo Hio].
  replace (q + sizeof_extent_item + (if is_block x && negb sk' then sizeof_tree_block_info else 0)) with (q + head_size x)
    by (unfold head_size, sizeof_extent_item; lia).
  rewrite (proj2 (Z.ltb_ge _ (q + head_size x))) by lia. rewrite andb_false_r, (bind_some _ _ w1 tt w1) by done.
  replace (negb (is_block x) && negb (has_flag (ex_flags x) BTRFS_EXTENT_FLAG_DATA)) with false
    by (destruct Hkind as [-> | ->]; [done|by rewrite andb_false_r]).
  replace (q + Z.of_nat (length (extent_bytes x))) with (q + head_size x + Z.of_nat (length (irefs_bytes (ex_irefs x)))) by lia.
  rewrite <- (wanted_type parent root_objectid owner off).
  rewrite (inline_loop_run parent root_objectid owner off (eb_data e) (q + head_size x) (ex_irefs x) _ _ (is_ok _ Hio) Hirefs)
    by (pose proof (irefs_bytes_fuel (ex_irefs x)); lia).
  unfold lookup_result. set (F := find_ref want (ex_irefs x)). rewrite <- Z.add_assoc.
  unfold lift at 1. rewrite (bind_some _ _ w1 (ref_here want F.2, q + (head_size x + Z.of_nat (length (irefs_bytes F.1)))) w1) by done.
  destruct (ref_here want F.2); cbn [Z.eqb andb negb]; [done|]. rewrite Z.eqb_refl. destruct insert; cbn [andb]; [|done].
  destruct (BTRFS_MAX_EXTENT_ITEM_SIZE root <=? _); [done|]. cbn [orb].
  rewrite (bind_some _ _ _ _ _ (find_next_key_run _ _ _ _ _ _ _ _ _ _ Hat)). fold (is_keyed bytenr (head (B ++ post).*1)).
  by destruct (is_keyed bytenr (head (B ++ post).*1)).
Qed.
End Lookup.

(** ** Changing the item *)

Lemma leaf_written_trans m1 m2 m3 n (b lb : Z) :
  leaf_written m1 m2 n b lb -> leaf_written m2 m3 n b lb -> leaf_written m1 m3 n b lb.
Proof using Type.
  intros [T1 B1] [T2 B2]. split; [congruence|]. intros a e3 H3. destruct (B2 a e3 H3) as (e2 & H2 & L2 & S2 & N2).
  destruct (B1 a e2 H2) as (e1 & H1 & L1 & S1 & N1). exists e1. split; [done|]. split; [congruence|]. split.
  - intros Hl. destruct (S2 ltac:(congruence)) as [?| ->]; [by left|auto].
  - intros Hl. rewrite N2 by congruence. auto.
Qed.

(** The pointers of a block above the leaves, after a change of a leaf. *)
Lemma node_before m m' n (b lb a : Z) i ps :
  leaf_written m m' n b lb -> node_block root m' a (S i) ps -> exists ps0, node_block root m a (S i) ps0 /\ length ps0 = length ps.
Proof using Type.
  intros [_ Hb] (e' & He' & Hi & Hr & Hne). destruct (Hb a e' He') as (e & He & Hlev & _ & Hnr).
  rewrite Hi in Hlev. rewrite <- Hlev in Hnr. specialize (Hnr ltac:(lia)).
  rewrite (nr_nritems _ _ _ Hr) in Hnr. pose proof (nr_fits _ _ _ Hr) as Hf.
  exists (ptrs (eb_data e) 0 (length ps)). rewrite ptrs_length. split; [|done]. exists e. do 2 (split; [done|]). split.
  - split; by rewrite ?ptrs_length.
  - intros Hz. apply (f_equal length) in Hz. rewrite ptrs_length in Hz. by destruct ps.
Qed.

Lemma searchable_kept m m' n (b lb : Z) ins_len :
  ins_len < 0 -> searchable env m n b ins_len -> leaf_written m m' n b lb -> searchable env m' n b ins_len.
Proof using Type.
  intros Hneg [_ Hf] Hlw. split; [lia|]. intros _ a i ps Ha Hb. destruct (node_before _ _ _ _ _ _ _ _ Hlw Hb) as (ps0 & Hb0 & <-).
  apply (Hf Hneg a i ps0); [by rewrite <- (lw_tree _ _ _ _ _ Hlw)|done].
Qed.

Section Change.
Context (parent root_objectid owner off : Z).
Abbreviation want := (wanted_ref parent root_objectid owner off).

Lemma setup_run w n (b lb : Z) pre A k x B post e sk F R c :
  at_item env w n b lb pre A k (extent_bytes x) B post -> item_view env w lb A k (extent_bytes x) B e ->
  extent_ok sk x -> ex_irefs x = F ++ R -> u64_ok (ex_refs x + c) ->
  ref_size want <= leaf_room env (A ++ (k, extent_bytes x) :: B) ->
  exists w', setup_inline_extent_backref env
      (btrfs_item_ptr_offset (eb_data e) (Z.of_nat (length A)) + (head_size x + Z.of_nat (length (irefs_bytes F))))
      parent root_objectid owner off c w = Some (0, w') /\
    at_item env w' n b lb pre A k (extent_bytes (with_irefs x (ex_refs x + c) (F ++ InlineRef want c :: R))) B post /\
    leaf_written (tw_blocks w) (tw_blocks w') n b lb.
Proof using Hroot.
  intros Hat Hv Hx HF Hc Hroom. unfold setup_inline_extent_backref.
  rewrite (bind_some _ _ _ _ _ (leaf_slot_run _ _ _ _ _ _ _ Hv)).
  set (q := btrfs_item_ptr_offset (eb_data e) (Z.of_nat (length A))).
  replace (q + (head_size x + Z.of_nat (length (irefs_bytes F))) - q) with (head_size x + Z.of_nat (length (irefs_bytes F))) by lia.
  rewrite (wanted_type parent root_objectid owner off), inline_size. unfold lift at 1.
  rewrite (bind_some _ _ w (ref_size want) w) by done. pose proof (ref_size_pos want).
  destruct (extend_run env Hroot w n b lb pre A k (extent_bytes x) B post (ref_size want) Hat) as (w1 & d2 & Hext & Hd2 & Hat1 & Hp1 & Hlw1);
    [lia|].
  rewrite (bind_some _ _ _ _ _ Hext). change (negb (0 =? 0)) with false. rewrite (bind_some _ _ w1 tt w1) by done.
  destruct (at_item_view env Hroot _ _ _ _ _ _ _ _ _ _ Hat1) as (e1 & Hv1).
  destruct (setup_inline_spec parent root_objectid owner off (eb_data e1) (Z.of_nat (length A)) x F R c d2) as (Hlen & Hrd & Hout);
    [lia|by eapply view_place|done|done|apply Hx|done|by apply (iv_size _ _ _ _ _ _ _ _ Hv1)|by apply (iv_data _ _ _ _ _ _ _ _ Hv1)|].
  destruct (write_run env Hroot w1 n b lb pre A k (extent_bytes x ++ d2) B post e1
    (fun d : buf => setup_inline_leaf d (Z.of_nat (length A)) (head_size x + Z.of_nat (length (irefs_bytes F))) (ref_size want)
       (ref_type want) parent root_objectid owner off c) (extent_bytes (with_irefs x (ex_refs x + c) (F ++ InlineRef want c :: R))) Hat1 Hv1)
    as (w2 & Hw & Hat2 & _ & Hlw2); [exact Hout|by rewrite <- Hlen|].
  rewrite (bind_some _ _ _ _ _ Hw). exists w2. split; [done|]. split; [done|]. by eapply leaf_written_trans.
Qed.
End Change.

(** Writing a block twice. *)
Lemma eb_write_twice w (lb : Z) e (d1 d2 : buf) w1 :
  tw_blocks w !! lb = Some e -> eb_write lb d1 w = Some (tt, w1) ->
  eb_write lb d2 w1 = eb_write lb d2 w /\ eb_read lb w1 = Some (d1, w1).
Proof using Type.
  intros He. rewrite (eb_write_run w lb e d1 He). intros [= <-].
  rewrite (eb_write_run w lb e d2 He).
  rewrite (eb_write_run (with_blocks w (<[lb := ExtentBuffer (eb_len e) (eb_bad_transid e) d1]> (tw_blocks w))) lb
    (ExtentBuffer (eb_len e) (eb_bad_transid e) d1)) by (simpl; by rewrite lookup_insert_eq).
  split; [simpl; by rewrite insert_insert_eq|]. unfold eb_read, eb_get, deref, bind. simpl. by rewrite lookup_insert_eq.
Qed.

(** The first part of [update_inline_extent_backref]: the counts it reads. *)
Lemma update_reads w (lb : Z) A k x B e sk F i R refs' :
  item_view env w lb A k (extent_bytes x) B e -> extent_ok sk x -> ex_irefs x = F ++ i :: R ->
  let q := btrfs_item_ptr_offset (eb_data e) (Z.of_nat (length A)) in
  let d1 := btrfs_set_extent_refs (eb_data e) q refs' in
  iref_at d1 (q + (head_size x + Z.of_nat (length (irefs_bytes F)))) i /\
  btrfs_item_size_nr d1 (Z.of_nat (length A)) = Z.of_nat (length (extent_bytes x)) /\
  read_extent_buffer (eb_data e) q (length (extent_bytes x)) = extent_bytes x.
Proof using Hroot.
  intros Hv Hx HF q d1. pose proof (iv_data _ _ _ _ _ _ _ _ Hv) as Hrd. fold q in Hrd.
  assert (Hout : forall z, z < q \/ q + 8 <= z -> d1 z = eb_data e z).
  { intros z Hz. unfold d1, btrfs_set_extent_refs, put_le. zbool; lia || done. }
  split; [|split; [|done]].
  - destruct (view_extent _ _ _ _ _ _ _ _ Hv Hx) as [_ _ Hi]. fold q in Hi. rewrite HF in Hi.
    apply irefs_parts in Hi as (_ & Hi & _). rewrite <- Z.add_assoc in Hi.
    pose proof (is_ok _ (xo_irefs _ _ Hx)) as Ho. rewrite HF in Ho. apply Forall_app in Ho as [_ [Ho _]%Forall_cons].
    apply (iref_at_bytes _ _ _ (length (iref_bytes i)) Ho). etransitivity; [|exact Hi]. apply read_same. intros z Hz.
    apply Hout. unfold head_size in Hz. lia.
  - rewrite <- (iv_size _ _ _ _ _ _ _ _ Hv). apply get_le_same. intros z Hz. apply Hout.
    pose proof (view_place _ _ _ _ _ _ _ Hv) as Hpl. fold q in Hpl. unfold sizeof_item in *. lia.
Qed.

(** A reference whose count stays positive. *)
Lemma update_count_run w n (b lb : Z) pre A k x B post e sk F r c R (m : Z) :
  at_item env w n b lb pre A k (extent_bytes x) B post -> item_view env w lb A k (extent_bytes x) B e ->
  extent_ok sk x -> ex_irefs x = F ++ InlineRef r c :: R -> ref_is_data r = true -> 0 < c + m < 2 ^ 32 -> u64_ok (ex_refs x + m) ->
  0 < ex_refs x + m ->
  exists w', update_inline_extent_backref env
      (btrfs_item_ptr_offset (eb_data e) (Z.of_nat (length A)) + (head_size x + Z.of_nat (length (irefs_bytes F)))) m w = Some (0, w') /\
    at_item env w' n b lb pre A k (extent_bytes (with_irefs x (ex_refs x + m) (F ++ InlineRef r (c + m) :: R))) B post /\
    leaf_written (tw_blocks w) (tw_blocks w') n b lb.
Proof using Hroot.
  intros Hat Hv Hx HF Hd Hc Hm Hpos. unfold update_inline_extent_backref.
  rewrite (bind_some _ _ _ _ _ (leaf_slot_run _ _ _ _ _ _ _ Hv)).
  destruct (view_extent _ _ _ _ _ _ _ _ Hv Hx) as [-> _ _].
  destruct (update_reads w lb A k x B e sk F _ R (ex_refs x + m) Hv Hx HF) as ([Ht _ Hcnt] & _ & Hrd). cbn [ir_ref ir_count] in *.
  set (q := btrfs_item_ptr_offset (eb_data e) (Z.of_nat (length A))) in *. rewrite (u64_id (ex_refs x + m)) by exact Hm.
  rewrite (proj2 (Z.leb_gt _ 0)) by done. rewrite andb_false_r, (bind_some _ _ w tt w) by done.
  set (d1 := btrfs_set_extent_refs (eb_data e) q (ex_refs x + m)) in *.
  destruct (eb_write lb d1 w) as [[[] w1]|] eqn:Hw1;
    [|by rewrite (eb_write_run w lb e d1 (iv_get _ _ _ _ _ _ _ _ Hv)) in Hw1].
  rewrite (bind_some _ _ _ _ _ Hw1), Ht, Hcnt, Hd. cbn [default from_option id]. rewrite bool_decide_eq_false_2 by done.
  rewrite (bind_some _ _ w1 tt w1) by done. rewrite (proj2 (Z.ltb_ge c (- m))) by lia.
  rewrite andb_false_r, (bind_some _ _ w1 tt w1) by done. rewrite u64_id by lia. rewrite (proj2 (Z.ltb_lt 0 _)) by lia.
  destruct (eb_write_twice w lb e d1 (set_inline_ref_count d1 (q + (head_size x + Z.of_nat (length (irefs_bytes F)))) (ref_type r) (c + m))
    w1 (iv_get _ _ _ _ _ _ _ _ Hv) Hw1) as [Htw _].
  destruct (update_count_spec (eb_data e) q x F r c R (c + m) (ex_refs x + m) Hd HF Hrd) as (Hlen & Hnew & Hout).
  rewrite <- (Z.add_assoc q) in Hnew, Hout. fold d1 in Hnew, Hout.
  destruct (write_run env Hroot w n b lb pre A k (extent_bytes x) B post e
    (fun _ => set_inline_ref_count d1 (q + (head_size x + Z.of_nat (length (irefs_bytes F)))) (ref_type r) (c + m))
    (extent_bytes (with_irefs x (ex_refs x + m) (F ++ InlineRef r (c + m) :: R))) Hat Hv) as (w2 & Hw & Hat2 & _ & Hlw);
    [exact Hout|by rewrite <- Hlen|].
  unfold eb_update in Hw. rewrite (bind_some _ _ _ _ _ (iv_read _ _ _ _ _ _ _ _ Hv)), <- Htw in Hw.
  rewrite (bind_some _ _ _ _ _ Hw). by exists w2.
Qed.

(** The last of a reference: it is taken out of the item. *)
Lemma take_out_run w n (b lb : Z) pre A k x B post e sk F i R :
  at_item env w n b lb pre A k (extent_bytes x) B post -> item_view env w lb A k (extent_bytes x) B e ->
  extent_ok sk x -> ex_irefs x = F ++ i :: R -> ir_count i < ex_refs x ->
  exists w', update_inline_extent_backref env
      (btrfs_item_ptr_offset (eb_data e) (Z.of_nat (length A)) + (head_size x + Z.of_nat (length (irefs_bytes F)))) (- ir_count i) w =
      Some (0, w') /\
    at_item env w' n b lb pre A k (extent_bytes (with_irefs x (ex_refs x - ir_count i) (F ++ R))) B post /\
    leaf_written (tw_blocks w) (tw_blocks w') n b lb.
Proof using Hroot.
  intros Hat Hv Hx HF Hlt. unfold update_inline_extent_backref.
  rewrite (bind_some _ _ _ _ _ (leaf_slot_run _ _ _ _ _ _ _ Hv)).
  destruct (view_extent _ _ _ _ _ _ _ _ Hv Hx) as [-> _ _].
  destruct (update_reads w lb A k x B e sk F _ R (ex_refs x - ir_count i) Hv Hx HF) as ([Ht _ Hcnt] & Hsz & Hrd).
  set (q := btrfs_item_ptr_offset (eb_data e) (Z.of_nat (length A))) in *.
  pose proof (xo_refs _ _ Hx) as Hrefs.
  assert (Hci : 0 < ir_count i /\ (ref_is_data (ir_ref i) = false -> ir_count i = 1) /\ ir_count i < 2 ^ 32).
  { pose proof (is_ok _ (xo_irefs _ _ Hx)) as Ho. rewrite HF in Ho. apply Forall_app in Ho as [_ [[_ Hc] _]%Forall_cons].
    destruct (ref_is_data (ir_ref i)); lia. }
  destruct Hci as (Hpos & Hone & Hmax).
  change (ex_refs x + - ir_count i) with (ex_refs x - ir_count i).
  rewrite (u64_id (ex_refs x - ir_count i)) by (unfold u64_ok in Hrefs; lia).
  rewrite (proj2 (Z.leb_gt _ 0)) by lia. rewrite andb_false_r, (bind_some _ _ w tt w) by done.
  set (d1 := btrfs_set_extent_refs (eb_data e) q (ex_refs x - ir_count i)) in *.
  destruct (eb_write lb d1 w) as [[[] w1]|] eqn:Hw1;
    [|by rewrite (eb_write_run w lb e d1 (iv_get _ _ _ _ _ _ _ _ Hv)) in Hw1].
  rewrite (bind_some _ _ _ _ _ Hw1), Ht, Hcnt.
  replace (bool_decide _ && negb (- ir_count i =? -1)) with false.
  2: { destruct (ref_is_data (ir_ref i)); [done|]. by rewrite Hone by done. }
  rewrite (bind_some _ _ w1 tt w1) by done.
  replace (default 1 _) with (ir_count i) by (destruct (ref_is_data (ir_ref i)); [done|by rewrite Hone by done]).
  rewrite (proj2 (Z.ltb_ge (ir_count i) _)) by lia. rewrite andb_false_r, (bind_some _ _ w1 tt w1) by done.
  rewrite Z.add_opp_diag_r. change (0 <? u64 0) with false. cbv iota. rewrite inline_size. unfold lift at 1.
  rewrite (bind_some _ _ w1 (ref_size (ir_ref i)) w1) by done. rewrite Hsz.
  destruct (take_out_spec (eb_data e) q x F i R (ex_refs x - ir_count i) HF Hrd) as (Hlen & Hnew & Hout).
  rewrite <- (Z.add_assoc q) in Hnew, Hout. fold d1 in Hnew, Hout.
  set (qi := q + (head_size x + Z.of_nat (length (irefs_bytes F)))) in *.
  set (last := q + Z.of_nat (length (extent_bytes x))) in *. set (sz := ref_size (ir_ref i)) in *.
  set (d2 := if qi + sz <? last then memmove_extent_buffer d1 qi (qi + sz) (last - qi - sz) else d1) in *.
  destruct (eb_write_twice w lb e d1 d2 w1 (iv_get _ _ _ _ _ _ _ _ Hv) Hw1) as [Htw _].
  set (x' := with_irefs x (ex_refs x - ir_count i) (F ++ R)) in *.
  pose proof (ref_size_pos (ir_ref i)) as Hszp. fold sz in Hszp. pose proof (data_len_bounds env Hroot _ _ _ _ _ _ _ Hv) as Hbound.
  pose (d' := read_extent_buffer d2 q (length (extent_bytes x))).
  destruct (write_run env Hroot w n b lb pre A k (extent_bytes x) B post e (fun _ => d2) d' Hat Hv) as (w2 & Hw & Hat2 & _ & Hlw);
    [exact Hout|done|].
  unfold eb_update in Hw. rewrite (bind_some _ _ _ _ _ (iv_read _ _ _ _ _ _ _ _ Hv)), <- Htw in Hw.
  assert (Hstep : (if qi + sz <? last then eb_write lb (memmove_extent_buffer d1 qi (qi + sz) (last - qi - sz)) else ret tt) w1 = Some (tt, w2)).
  { unfold d2 in Hw, Htw. destruct (_ <? _); [done|]. rewrite Htw, Hw1 in Hw. by injection Hw as ->. }
  rewrite (bind_some _ _ _ _ _ Hstep).
  assert (Hl' : Z.of_nat (length d') = Z.of_nat (length (extent_bytes x))) by (unfold d'; by rewrite read_length).
  destruct (truncate_run env Hroot w2 n b lb pre A k d' B post (Z.of_nat (length (extent_bytes x'))) Hat2) as (w3 & Htr & Hat3 & _ & Hlw3); [lia|].
  rewrite u32_id by lia. rewrite <- Hlen, (bind_some _ _ _ _ _ Htr). change (negb (0 =? 0)) with false. rewrite (bind_some _ _ w3 tt w3) by done.
  exists w3. split; [done|]. split; [|by eapply leaf_written_trans].
  replace (take _ d') with (extent_bytes x') in Hat3; [done|]. rewrite <- Hnew at 1. unfold d'. rewrite Nat2Z.id, read_take by lia. done.
Qed.
End RefRun.
