(* ===== verification/ExtentOps.v ===== *)
(** Allocating, referencing and freeing extents: the part of
    [src/extent-tree.c] that joins the items of the extent tree with the
    allocator, the operations on the extent tree itself that are carried out
    later, and the extent tree as the other trees see it. *)

From S2P Require Import Prelude Buf CtreeFmt ItemFmt RbSpec ExtentCache ExtentIo LeafOps NodeOps TreeWorld TreeBalance TreeOps.
From S2P Require Import DirItem Volumes ExtentItem ExtentAlloc ExtentRef.

Section Ops.
Context {T : Type} `{RbTree T} (env : alloc_env) (fuel : nat) (held : Z -> buf).
Open Scope act_scope.

(** The tree of the world is the extent tree. *)
#[local] Instance own_tree : ExtentTree (alloc_info T) := extent_root_tree env fuel held.
Abbreviation world := (tree_world (alloc_info T)).
Abbreviation tenv := (ae_tree env).
Abbreviation skinny := (ae_skinny_metadata env).

Definition on_info {A} : act (alloc_info T) A -> act world A :=
  zoom tw_ext (fun x w => TreeWorld (tw_blocks w) (tw_node w) (tw_path w) x).

(** ** The item of a new tree block *)

(** [root] is the tree that is charged. *)
Definition alloc_reserved_tree_block (root root_objectid generation flags : Z) (key : btrfs_key) (level : Z) (ins : btrfs_key)
    : act world Z :=
  let size := sizeof_extent_item + sizeof_extent_inline_ref + (if skinny then 0 else sizeof_tree_block_info) in
  with_new_path (ae_mem env) bug
    (r <- btrfs_insert_empty_items tenv fuel [(ins, size)] ;;
     bug_on (negb (r =? 0)) ;;;
     ls <- leaf_slot ;;
     let '(leaf, slot, d) := ls in
     eb_write leaf (fill_tree_block d (btrfs_item_ptr_offset d slot) generation flags key level root_objectid skinny)) ;;;
  on_info (update_block_group root (objectid ins) (leafsize (te_root tenv)) true false).

(** ** Pending operations *)

(** The operation noted down for the range that begins at [start], and
    [kfree]. *)
Definition op_get (w : act (alloc_info T) (Z * option Z)) : act world (Z * pending_extent_op) :=
  p <- on_info w ;;
  bug_on (negb (p.1 =? 0)) ;;;
  a <- assume_some p.2 ;;
  op <- on_info (deref (fun x => ai_ops x !! a)) ;;
  ret (a, op).
Definition op_free (a : Z) : act world unit :=
  on_info (modify (fun x => put_ops (delete a (ai_ops x)) (ai_next x) x)).

Fixpoint finish_insert_loop (n : nat) : act world Z :=
  match n with
  | O => bug
  | S n =>
      r <- on_info (on_ins (io_find 0 EXTENT_LOCKED)) ;;
      match r with
      | None => ret 0
      | Some (start, last) =>
          o <- op_get (on_ins (get_state_private start)) ;;
          let '(a, op) := o in
          match po_type op with
          | PENDING_EXTENT_INSERT =>
              let key := if skinny then BtrfsKey start BTRFS_METADATA_ITEM_KEY (po_level op)
                         else BtrfsKey start BTRFS_EXTENT_ITEM_KEY (po_num_bytes op) in
              r <- alloc_reserved_tree_block (te_objectid tenv) (te_objectid tenv) (te_transid tenv) (po_flags op)
                     (po_key op) (po_level op) key ;;
              bug_on (negb (r =? 0))
          | _ => bug
          end ;;;
          on_info (on_ins (io_clear start last EXTENT_LOCKED)) ;;;
          op_free a ;;;
          finish_insert_loop n
      end
  end.

Definition finish_current_insert : act world Z := finish_insert_loop fuel.

(** ** Freeing *)

(** [callers] are the blocks of the tree the extent belongs to: a buffer is
    found among them or among the extent tree's own.  A buffer in memory is up
    to date. *)
Definition pin_down_bytes (callers : gmap Z extent_buffer) (bytenr num_bytes : Z) (is_data : bool) : act world Z :=
  e <- gets (fun w => match callers !! bytenr with Some e => Some e | None => tw_blocks w !! bytenr end) ;;
  let pinit := on_info (update_pinned_extents env fuel bytenr num_bytes true) ;;; ret 0 in
  if is_data then pinit
  else
    match e with
    | Some e =>
        if (eb_len e =? num_bytes) && negb (btrfs_header_owner (eb_data e) =? BTRFS_TREE_LOG_OBJECTID) &&
           (btrfs_header_generation (eb_data e) =? te_transid tenv) &&
           negb (btrfs_header_flag (eb_data e) BTRFS_HEADER_FLAG_WRITTEN)
        then ret 1 else pinit
    | None => pinit
    end.

(** The walk back from slot [n - 1] to the item of the extent: the slot, whether
    it is the item, and the last key that was read. *)
Fixpoint extent_slot_loop (n : nat) (d : buf) (top bytenr num_bytes owner : Z) (key : btrfs_key) : Z * bool * btrfs_key :=
  match n with
  | O => (-1, false, key)
  | S n =>
      let slot := Z.of_nat n in
      let key := btrfs_item_key d slot in
      if negb (objectid key =? bytenr) then (slot, false, key)
      else if (type key =? BTRFS_EXTENT_ITEM_KEY) && (offset key =? num_bytes) then (slot, true, key)
      else if (type key =? BTRFS_METADATA_ITEM_KEY) && (offset key =? owner) then (slot, true, key)
      else if 5 <? top - slot then (slot, false, key)
      else extent_slot_loop n d top bytenr num_bytes owner key
  end.

(** The slot of the item of the extent in the leaf of the path, whether the
    reference is in the same leaf, and the key: a reference that is not is
    removed before the item is searched. *)
Definition find_extent_slot (iref : option Z) (bytenr num_bytes owner refs_to_drop : Z) (is_data : bool)
    : act world (Z * bool * btrfs_key) :=
  ls <- leaf_slot ;;
  let '(leaf, slot, d) := ls in
  let '(extent_slot, found, key) := extent_slot_loop (Z.to_nat (slot + 1)) d slot bytenr num_bytes owner (BtrfsKey 0 0 0) in
  if found && negb (btrfs_item_size_nr d extent_slot <? sizeof_extent_item) then ret (extent_slot, true, key)
  else
    bug_on (bool_decide (iref <> None)) ;;;
    r <- remove_extent_backref tenv None refs_to_drop is_data ;;
    bug_on (negb (r =? 0)) ;;;
    btrfs_release_path ;;;
    let skinny := negb is_data && skinny in
    let key := if skinny then BtrfsKey bytenr BTRFS_METADATA_ITEM_KEY owner
               else BtrfsKey bytenr BTRFS_EXTENT_ITEM_KEY num_bytes in
    s <- search_extent_item tenv fuel key (-1) true skinny bytenr num_bytes ;;
    let '(r, key, _) := (s : Z * btrfs_key * bool) in
    bug_on (negb (r =? 0)) ;;;
    slot <- path_slot 0 ;;
    ret (slot, false, key).

(** An item of the first format is converted and searched again. *)
Definition convert_found (extent_slot : Z) (found : bool) (key : btrfs_key) (bytenr num_bytes owner : Z)
    : act world (Z * btrfs_key) :=
  ls <- leaf_slot ;;
  let '(leaf, slot, d) := ls in
  if btrfs_item_size_nr d extent_slot <? sizeof_extent_item then
    bug_on (found || negb (extent_slot =? slot)) ;;;
    r <- convert_extent_item_v0 tenv fuel fuel owner ;;
    bug_on (r <? 0) ;;;
    btrfs_release_path ;;;
    let key := BtrfsKey bytenr BTRFS_EXTENT_ITEM_KEY num_bytes in
    r <- btrfs_search_slot tenv fuel key (-1) true ;;
    bug_on (negb (r =? 0)) ;;;
    slot <- path_slot 0 ;;
    ret (slot, key)
  else ret (extent_slot, key).

(** The item is deleted with the last reference.  [del_csums] is
    [btrfs_del_csums], which works on another tree. *)
Definition free_last_ref (del_csums : Z -> Z -> act world Z) (callers : gmap Z extent_buffer) (root : Z) (iref : option Z)
    (extent_slot : Z) (found : bool) (bytenr num_bytes refs_to_drop : Z) (is_data : bool) : act world Z :=
  num_to_del <-
    (if found then
       (if is_data then c <- extent_data_ref_count iref ;; bug_on (negb (refs_to_drop =? c)) else ret tt) ;;;
       slot <- path_slot 0 ;;
       match iref with
       | Some _ => bug_on (negb (slot =? extent_slot)) ;;; ret 1
       | None => bug_on (negb (slot =? extent_slot + 1)) ;;; set_path_slot 0 extent_slot ;;; ret 2
       end
     else ret 1) ;;
  reused <- pin_down_bytes callers bytenr num_bytes is_data ;;
  slot <- path_slot 0 ;;
  r <- btrfs_del_items tenv slot num_to_del ;;
  bug_on (negb (r =? 0)) ;;;
  btrfs_release_path ;;;
  r <- (if is_data then r <- del_csums bytenr num_bytes ;; bug_on (negb (r =? 0)) ;;; ret r else ret r) ;;
  on_info (update_block_group root bytenr num_bytes false (0 <? reused)) ;;;
  ret r.

Definition __free_extent (del_csums : Z -> Z -> act world Z) (callers : gmap Z extent_buffer) (root : Z)
    (bytenr num_bytes parent root_objectid owner off refs_to_drop : Z) : act world Z :=
  let is_data := BTRFS_FIRST_FREE_OBJECTID <=? owner in
  if negb (ae_mem env) then ret (- ENOMEM)
  else
    r <- with_new_path true bug
      (bug_on (negb is_data && negb (refs_to_drop =? 1)) ;;;
       f <- lookup_extent_backref tenv fuel fuel skinny bytenr num_bytes parent root_objectid owner off ;;
       let '(r, iref) := (f : Z * option Z) in
       if negb (r =? 0) then ret (- EIO)
       else
         s <- find_extent_slot iref bytenr num_bytes owner refs_to_drop is_data ;;
         let '(extent_slot, found, key) := (s : Z * bool * btrfs_key) in
         s <- convert_found extent_slot found key bytenr num_bytes owner ;;
         let '(extent_slot, key) := (s : Z * btrfs_key) in
         ls <- leaf_slot ;;
         let '(leaf, slot, d) := ls in
         let item_size := btrfs_item_size_nr d extent_slot in
         bug_on (item_size <? sizeof_extent_item) ;;;
         let ei := btrfs_item_ptr_offset d extent_slot in
         (if (owner <? BTRFS_FIRST_FREE_OBJECTID) && (type key =? BTRFS_EXTENT_ITEM_KEY) then
            bug_on (item_size <? sizeof_extent_item + sizeof_tree_block_info) ;;;
            bug_on (negb (owner =? btrfs_tree_block_level d (ei + sizeof_extent_item)))
          else ret tt) ;;;
         bug_on (btrfs_extent_refs d ei <? refs_to_drop) ;;;
         let refs := btrfs_extent_refs d ei - refs_to_drop in
         if 0 <? refs then
           (match iref with
            | Some _ => bug_on (negb found)
            | None => eb_write leaf (btrfs_set_extent_refs d ei refs)
            end) ;;;
           (if found : bool then
              r <- remove_extent_backref tenv iref refs_to_drop is_data ;;
              bug_on (negb (r =? 0)) ;;;
              ret r
            else ret 0)
         else free_last_ref del_csums callers root iref extent_slot found bytenr num_bytes refs_to_drop is_data) ;;
    finish_current_insert ;;;
    ret r.

(** [del_pending_extents]: blocks of the extent tree that were freed, and not
    allocated in between. *)
Fixpoint del_pending_loop (n : nat) (err : Z) : act world Z :=
  match n with
  | O => bug
  | S n =>
      r <- on_info (on_del (io_find 0 EXTENT_LOCKED)) ;;
      match r with
      | None => ret err
      | Some (start, last) =>
          o <- op_get (on_del (get_state_private start)) ;;
          let '(a, op) := o in
          on_info (on_del (io_clear start last EXTENT_LOCKED)) ;;;
          t <- on_info (on_ins (io_test start last EXTENT_LOCKED)) ;;
          r <- (if t =? 0 then
                  r <- __free_extent (fun _ _ => bug) ∅ (te_objectid tenv) start (u64 (last + 1 - start)) 0 (te_objectid tenv)
                         (po_level op) 0 1 ;;
                  op_free a ;;; ret r
                else
                  op_free a ;;;
                  o <- op_get (on_ins (get_state_private start)) ;;
                  let '(a, op) := o in
                  on_info (on_ins (io_clear start last EXTENT_LOCKED)) ;;;
                  bug_on (match po_type op with PENDING_BACKREF_UPDATE => true | _ => false end) ;;;
                  op_free a ;;; ret 0) ;;
          del_pending_loop n (if negb (r =? 0) then r else err)
      end
  end.

Definition del_pending_extents : act world Z := del_pending_loop fuel 0.

(** ** The functions the other trees call *)

Definition btrfs_extent_post_op : act world Z := finish_current_insert ;;; del_pending_extents ;;; ret 0.

Definition btrfs_inc_extent_ref (bytenr num_bytes parent root_objectid owner off : Z) : act world Z :=
  if negb (ae_mem env) then ret (- ENOMEM)
  else
    err <- with_new_path true bug
             (inc_extent_ref_items tenv fuel fuel skinny bytenr num_bytes parent root_objectid owner off) ;;
    finish_current_insert ;;;
    del_pending_extents ;;;
    bug_on (negb (err =? 0)) ;;;
    ret err.

(** For any tree but the extent tree. *)
Definition free_extent_other (del_csums : Z -> Z -> act world Z) (callers : gmap Z extent_buffer) (root : Z)
    (bytenr num_bytes parent root_objectid owner off : Z) : act world Z :=
  bug_on (num_bytes <? ae_sectorsize env) ;;;
  r <- __free_extent del_csums callers root bytenr num_bytes parent root_objectid owner off 1 ;;
  pending_ret <- del_pending_extents ;;
  ret (if negb (r =? 0) then r else pending_ret).

Definition btrfs_set_block_flags (bytenr level flags : Z) : act world Z :=
  if negb (ae_mem env) then ret (- ENOMEM)
  else
    r <- set_block_flags_items tenv true fuel fuel skinny bytenr level flags ;;
    finish_current_insert ;;;
    del_pending_extents ;;;
    ret r.
End Ops.
