(* ===== verification/ExtentOpsSpec.v ===== *)
(** References come and go: what taking one more reference to an extent, and
    giving one up, do to the items of the extent tree. *)

From stdpp Require Import sorting.
From S2P Require Import Prelude RbSpec ExtentCache ExtentIo Buf CtreeFmt ItemFmt LeafOps LeafSpec LeafResize.
From S2P Require Import NodeOps TreeWorld TreeBalance TreeOps DirItem TreeSpec TreeSearch TreeWalk TreeFrame.
From S2P Require Import TreeInsert TreeItem PackSpec DirSpec ExtentAlloc ExtentAllocSpec ExtentItem.
From S2P Require Import ExtentItemSpec ExtentRef ExtentRefSpec ExtentOps.

Implicit Types (L l pre post A B : list item) (key k : btrfs_key) (b : buf) (d : list Z) (x : extent).

(** The tree [L'] is [L] with other data in the item [k]. *)
Record item_changed L k d L' : Prop := {
  ic_keys : L'.*1 = L.*1;
  ic_item : item_at L' k = Some d;
  ic_others : forall key, key <> k -> item_at L' key = item_at L key;
}.

Lemma item_changed_middle pre A k d d' B post :
  sorted_keys ((pre ++ (A ++ (k, d) :: B) ++ post).*1) ->
  item_changed (pre ++ (A ++ (k, d) :: B) ++ post) k d' (pre ++ (A ++ (k, d') :: B) ++ post).
Proof.
  intros Hs. assert (Hkeys : (pre ++ (A ++ (k, d') :: B) ++ post).*1 = (pre ++ (A ++ (k, d) :: B) ++ post).*1) by (by rewrite !fmap_app).
  split; [done| |].
  - rewrite <- Hkeys in Hs. apply sorted_keys_NoDup in Hs. rewrite <- (assoc_L (++)) in Hs |- *. simpl in *.
    rewrite (assoc_L (++)) in Hs |- *. by apply item_at_middle.
  - intros key Hk. by rewrite !others_middle.
Qed.

(** The key behind an item. *)
Fixpoint key_behind L k : option btrfs_key :=
  match L with [] => None | (k', _) :: L => if decide (k' = k) then head (L.*1) else key_behind L k end.

Lemma key_behind_middle pre A k d B post :
  sorted_keys ((pre ++ (A ++ (k, d) :: B) ++ post).*1) ->
  key_behind (pre ++ (A ++ (k, d) :: B) ++ post) k = head ((B ++ post).*1).
Proof.
  intros Hs. apply sorted_keys_NoDup in Hs. rewrite <- (assoc_L (++)) in Hs |- *. simpl in *. rewrite (assoc_L (++)) in Hs |- *.
  revert Hs. generalize (pre ++ A) (B ++ post). intros L1 L2. induction L1 as [|[k' d'] L1 IH]; simpl.
  - by rewrite decide_True.
  - intros [Hn Hs]%NoDup_cons. rewrite decide_False; [by apply IH|]. intros ->. apply Hn. rewrite fmap_app. apply elem_of_app. right. left.
Qed.

(** Where the reference [want] is found among the references, or belongs. *)
Lemma add_ref_found want n irs :
  let F := find_ref want irs in
  if ref_here want F.2 then exists c R, irs = F.1 ++ InlineRef want c :: R /\ F.2 = InlineRef want c :: R /\
    add_ref want n irs = F.1 ++ InlineRef want (c + n) :: R
  else irs = F.1 ++ F.2 /\ add_ref want n irs = F.1 ++ InlineRef want n :: F.2.
Proof.
  pose proof (find_ref_app want irs) as Happ. unfold add_ref. cbv zeta. destruct (find_ref want irs) as [F R]. cbn [fst snd] in *.
  destruct R as [|[r c] R]; cbn [ref_here ir_ref]; [by split|].
  case_bool_decide as Hr; [|by rewrite decide_False]. subst r. rewrite decide_True by done. by exists c, R.
Qed.

Lemma ref_here_lookup want irs :
  irefs_ok irs -> ref_here want (find_ref want irs).2 = bool_decide (is_Some (refs_map irs !! want)).
Proof.
  intros Hok. destruct (find_ref_cases want irs Hok) as [(A & c & B & _ & -> & ->)|(A & B & _ & -> & Hh & _ & _ & _ & ->)]; cbn [snd].
  - cbn [ref_here ir_ref]. rewrite !bool_decide_eq_true_2; done.
  - rewrite Hh, bool_decide_eq_false_2; [done|by intros []].
Qed.

(** ** What lies behind the tree *)

Section Keeps.
Context {X : Type} `{ExtentTree X} (env : tree_env).
Abbreviation world := (tree_world X).
Implicit Types (w : world).

(** An action that leaves the state behind the interface alone. *)
Definition keeps_ext {T} (c : act world T) : Prop := forall w (a : T) w', c w = Some (a, w') -> tw_ext w' = tw_ext w.

Lemma keeps_ext_ret {T} (a : T) : keeps_ext (ret a).
Proof using Type. by intros w a' w' [= _ <-]. Qed.
Lemma keeps_ext_bug {T} : keeps_ext (@bug world T).
Proof using Type. by intros w a w'. Qed.
Lemma keeps_ext_bind {T U} (c : act world T) (f : T -> act world U) :
  keeps_ext c -> (forall a, keeps_ext (f a)) -> keeps_ext (bind c f).
Proof using Type.
  intros Hc Hk w b w'. unfold bind. destruct (c w) as [[a w1]|] eqn:E; [|done].
  intros Hb. rewrite (Hk a w1 b w' Hb). by eapply Hc.
Qed.
Lemma keeps_ext_bug_on (c : bool) : keeps_ext (bug_on c).
Proof using Type. destruct c; [apply keeps_ext_bug|apply keeps_ext_ret]. Qed.
Lemma keeps_lift {T} (o : option T) : keeps_ext (lift o).
Proof using Type. intros w a w'. unfold lift. destruct o; [|done]. by intros [= _ <-]. Qed.
Lemma keeps_ext_path_node i : keeps_ext (path_node i).
Proof using Type. intros w a w'. unfold path_node. destruct (in_path i); [|done]. by intros [= _ <-]. Qed.
Lemma keeps_ext_path_slot i : keeps_ext (path_slot i).
Proof using Type. intros w a w'. unfold path_slot. destruct (in_path i); [|done]. by intros [= _ <-]. Qed.
Lemma keeps_ext_path_block i : keeps_ext (path_block i).
Proof using Type. apply keeps_ext_bind; [apply keeps_ext_path_node|]. intros [b|]; [apply keeps_ext_ret|apply keeps_ext_bug]. Qed.
Lemma keeps_ext_eb_get (b : Z) : keeps_ext (eb_get b).
Proof using Type. intros w a w'. unfold eb_get, deref. destruct (_ !! _); [|done]. by intros [= _ <-]. Qed.
Lemma keeps_ext_eb_read (b : Z) : keeps_ext (eb_read b).
Proof using Type. apply keeps_ext_bind; [apply keeps_ext_eb_get|]. intros e. apply keeps_ext_ret. Qed.
Lemma keeps_ext_eb_write (b : Z) (d : buf) : keeps_ext (eb_write b d).
Proof using Type. apply keeps_ext_bind; [apply keeps_ext_eb_get|]. intros e w a w' [= _ <-]. done. Qed.
Lemma keeps_ext_eb_update (b : Z) (f : buf -> buf) : keeps_ext (eb_update b f).
Proof using Type. apply keeps_ext_bind; [apply keeps_ext_eb_read|]. intros d. apply keeps_ext_eb_write. Qed.
End Keeps.

Create HintDb ext_frame.
#[export] Hint Resolve keeps_ext_ret keeps_ext_bug keeps_ext_bug_on keeps_lift keeps_ext_path_node keeps_ext_path_slot keeps_ext_path_block keeps_ext_eb_get
  keeps_ext_eb_read keeps_ext_eb_write keeps_ext_eb_update : ext_frame.

(** An action that is made of such actions. *)
Ltac keep_ext :=
  repeat (first [ progress auto with ext_frame | apply keeps_ext_bind; [|intros ?] | case_match ]).

Section KeepsRef.
Context {X : Type} `{ExtentTree X} (env : tree_env).

Lemma keeps_ext_fixup key (i : Z) : keeps_ext (fixup_low_keys (X := X) key i).
Proof using Type.
  unfold fixup_low_keys. generalize (Z.to_nat (BTRFS_MAX_LEVEL - i)). intros c. revert i.
  induction c as [|c IH]; intros i; cbn [fixup_low_keys_loop]; keep_ext.
Qed.
#[local] Hint Resolve keeps_ext_fixup : ext_frame.

Lemma keeps_update_inline iref (m : Z) : keeps_ext (update_inline_extent_backref (X := X) env iref m).
Proof using Type. unfold update_inline_extent_backref, leaf_slot, btrfs_truncate_item. keep_ext. Qed.

Lemma keeps_setup_inline iref parent root_objectid owner off (m : Z) :
  keeps_ext (setup_inline_extent_backref (X := X) env iref parent root_objectid owner off m).
Proof using Type. unfold setup_inline_extent_backref, leaf_slot, btrfs_extend_item. keep_ext. Qed.
End KeepsRef.
#[export] Hint Resolve keeps_ext_fixup : ext_frame.

(** ** One reference more *)

Section Tree.
Context {X : Type} `{ExtentTree X} (env : tree_env).
Context (Hroot : root_ok (te_root env)).
Context (bytenr num_bytes parent root_objectid owner off : Z) (skinny : bool).

Abbreviation world := (tree_world X).
Abbreviation root := (te_root env).
Abbreviation want := (wanted_ref parent root_objectid owner off).
Abbreviation sk := ((owner <? BTRFS_FIRST_FREE_OBJECTID) && skinny).
Implicit Types (w : world).

(** The reference goes into the item [k]: it is there already, or there is room
    and no other reference has an item of its own. *)
Definition goes_inline L k x : Prop :=
  is_Some (refs_map (ex_irefs x) !! want) \/
  Z.of_nat (length (extent_bytes x)) + ref_size want < BTRFS_MAX_EXTENT_ITEM_SIZE root /\ is_keyed bytenr (key_behind L k) = false.

Definition referenced x : extent := with_irefs x (ex_refs x + 1) (add_ref want 1 (ex_irefs x)).

Lemma inc_inline_run w n (b : Z) L fuel lfuel k sk' x :
  tree_ok env w n b L -> tw_path w = btrfs_init_path -> has_room env (tw_blocks w) n b (ref_size want) -> (n < fuel)%nat ->
  found_as L bytenr num_bytes (extent_search_key sk bytenr num_bytes owner) sk k sk' ->
  item_at L k = Some (extent_bytes x) -> extent_ok sk' x -> goes_inline L k x ->
  count_ok want (default 0 (refs_map (ex_irefs x) !! want) + 1) -> u64_ok (ex_refs x + 1) ->
  exists w' L' lb, inc_extent_ref_items env fuel lfuel skinny bytenr num_bytes parent root_objectid owner off w = Some (0, w') /\
    tree_ok env w' n b L' /\ item_changed L k (extent_bytes (referenced x)) L' /\
    leaf_written (tw_blocks w) (tw_blocks w') n b lb /\ tw_ext w' = tw_ext w.
Proof using Hroot.
  intros Hok Hp Hroom Hfuel Hfound Hitem Hx Hin Hcount Hrefs.
  assert (Hsr : searchable env (tw_blocks w) n b (ref_size want)) by (split; [done|pose proof (ref_size_pos want); lia]).
  destruct (lookup_inline_run env Hroot bytenr num_bytes parent root_objectid owner off skinny w n b L true fuel lfuel k sk' x
    Hok Hp Hsr Hfuel Hfound Hitem Hx) as (p & lb & pre & A & B & post & e & HL & Hat & Hv & Hlb & Hrun).
  unfold inc_extent_ref_items, insert_inline_extent_backref. rewrite bind_assoc, (bind_some _ _ _ _ _ Hrun).
  unfold lookup_result in *. pose proof (xo_irefs _ _ Hx) as Hio.
  pose proof (add_ref_found want 1 (ex_irefs x)) as Hadd. cbv zeta in Hadd.
  pose proof (ref_here_lookup want (ex_irefs x) Hio) as Hhere.
  assert (Hs : sorted_keys (L.*1)) by apply Hok.
  set (F := find_ref want (ex_irefs x)) in *.
  set (qi := btrfs_item_ptr_offset (eb_data e) (Z.of_nat (length A)) + (head_size x + Z.of_nat (length (irefs_bytes F.1)))) in *.
  destruct (ref_here want F.2).
  - destruct Hadd as (c & R & HF & _ & Hadd). cbn [fst snd]. change (0 =? 0) with true. cbv iota.
    assert (Hc : refs_map (ex_irefs x) !! want = Some c).
    { rewrite HF in Hio |- *. rewrite refs_map_middle by apply Hio. apply lookup_insert_eq. }
    rewrite Hc in Hcount. cbn [default from_option id] in Hcount. unfold count_ok in Hcount.
    assert (Hcpos : 0 < c).
    { pose proof (is_ok _ Hio) as Ho. rewrite HF in Ho. apply Forall_app in Ho as [_ [[_ Ho] _]%Forall_cons]. simpl in Ho.
      destruct (ref_is_data want); lia. }
    assert (Hd : ref_is_data want = true) by (destruct (ref_is_data want); [done|lia]). rewrite Hd in Hcount.
    assert (Howner : (owner <? BTRFS_FIRST_FREE_OBJECTID) = false).
    { unfold wanted_ref in Hd. destruct (owner <? _); [by destruct (0 <? parent)|done]. }
    rewrite Howner. rewrite bind_assoc, (bind_some _ _ (with_path w p) tt (with_path w p)) by done.
    rewrite bind_assoc, (bind_some _ _ (with_path w p) qi (with_path w p)) by done.
    pose proof (xo_refs _ _ Hx) as Hr0.
    destruct (update_count_run env Hroot (with_path w p) n b lb pre A k x B post e sk' F.1 want c R 1 Hat Hv Hx HF Hd)
      as (w' & Hu & Hat' & Hlw); [lia|done|unfold u64_ok in *; lia|].
    fold qi in Hu. rewrite (bind_some _ _ _ _ _ Hu). eexists w', _, lb. split; [done|]. split; [apply Hat'|]. split; [|split; [done|]].
    2: { first [apply keeps_update_inline in Hu | apply keeps_setup_inline in Hu]. exact Hu. }
    unfold referenced. rewrite Hadd. rewrite HL in Hs |- *. by apply item_changed_middle.
  - destruct Hadd as [HF Hadd]. assert (Hsmall : goes_inline L k x) by done.
    destruct Hin as [Hin|[Hsize Hnext]]; [by rewrite (bool_decide_eq_true_2 _ Hin) in Hhere|].
    rewrite HL, key_behind_middle in Hnext by (by rewrite <- HL).
    rewrite Hnext, (proj2 (Z.leb_gt _ _)) by done. cbn [andb orb fst snd].
    change (- ENOENT =? 0) with false. change (- ENOENT =? - ENOENT) with true. cbv iota.
    rewrite bind_assoc, (bind_some _ _ (with_path w p) qi (with_path w p)) by done.
    destruct (setup_run env Hroot parent root_objectid owner off (with_path w p) n b lb pre A k x B post e sk' F.1 F.2 1 Hat Hv Hx HF Hrefs)
      as (w' & Hu & Hat' & Hlw).
    { apply (proj2 Hroom lb); [done|]. apply (view_leaf_block env _ _ _ _ _ _ _ Hv). }
    fold qi in Hu. rewrite (bind_some _ _ _ _ _ Hu). eexists w', _, lb. split; [done|]. split; [apply Hat'|]. split; [|split; [done|]].
    2: { first [apply keeps_update_inline in Hu | apply keeps_setup_inline in Hu]. exact Hu. }
    unfold referenced. rewrite Hadd. rewrite HL in Hs |- *. by apply item_changed_middle.
Qed.

(** ** One reference less *)

Definition released x : extent := with_irefs x (ex_refs x - 1) (drop_ref want 1 (ex_irefs x)).

Lemma referenced_ok sk' x :
  extent_ok sk' x -> ref_ok want -> count_ok want (default 0 (refs_map (ex_irefs x) !! want) + 1) -> u64_ok (ex_refs x + 1) ->
  extent_ok sk' (referenced x).
Proof using Type.
  intros [H1 H2 H3 H4 H5] Hw Hc Hr. destruct (add_ref_spec want 1 _ H5 Hw ltac:(lia) Hc) as (Hok & _). by split.
Qed.

Lemma released_ok sk' x c :
  extent_ok sk' x -> refs_map (ex_irefs x) !! want = Some c -> 0 < c -> 1 <= ex_refs x -> extent_ok sk' (released x).
Proof using Type.
  intros [H1 H2 H3 H4 H5] Hl Hc Hr. destruct (drop_ref_spec want 1 _ c H5 Hl ltac:(lia) ltac:(lia)) as (Hok & _).
  split; try done. unfold released, u64_ok in *. simpl. lia.
Qed.

Lemma drop_ref_found n irs c :
  irefs_ok irs -> refs_map irs !! want = Some c ->
  exists F R, find_ref want irs = (F, InlineRef want c :: R) /\ irs = F ++ InlineRef want c :: R /\
    drop_ref want n irs = if c =? n then F ++ R else F ++ InlineRef want (c - n) :: R.
Proof using Type.
  intros Hok Hl. destruct (find_ref_cases want irs Hok) as [(A & c' & B & He & Hf & Hl')|(A & B & _ & _ & _ & _ & _ & _ & Hl')];
    rewrite Hl in Hl'; [|done]. injection Hl' as <-. exists A, B. split; [done|]. split; [done|].
  unfold drop_ref. rewrite Hf. cbn [ir_ref ir_count]. by rewrite decide_True.
Qed.

(** Dropping one of several references of an item on the path. *)
Lemma drop_run w n (b lb : Z) pre A k x B post e sk' c :
  at_item env w n b lb pre A k (extent_bytes x) B post -> item_view env w lb A k (extent_bytes x) B e ->
  extent_ok sk' x -> refs_map (ex_irefs x) !! want = Some c -> 1 < ex_refs x ->
  exists w', remove_extent_backref env
      (Some (btrfs_item_ptr_offset (eb_data e) (Z.of_nat (length A)) +
             (head_size x + Z.of_nat (length (irefs_bytes (find_ref want (ex_irefs x)).1))))) 1
      (BTRFS_FIRST_FREE_OBJECTID <=? owner) w = Some (0, w') /\
    at_item env w' n b lb pre A k (extent_bytes (released x)) B post /\
    leaf_written (tw_blocks w) (tw_blocks w') n b lb /\ tw_ext w' = tw_ext w.
Proof using Hroot.
  intros Hat Hv Hx Hl Hr. pose proof (xo_irefs _ _ Hx) as Hio.
  destruct (drop_ref_found 1 (ex_irefs x) c Hio Hl) as (F & R & Hf & HF & Hdrop). rewrite Hf. cbn [fst].
  unfold remove_extent_backref. rewrite andb_false_r, (bind_some _ _ w tt w) by done. change (- (1)) with (-1).
  assert (Hc : (ref_is_data want = true /\ 0 < c < 2 ^ 32) \/ c = 1).
  { pose proof (is_ok _ Hio) as Ho. rewrite HF in Ho. apply Forall_app in Ho as [_ [[_ Ho] _]%Forall_cons]. simpl in Ho.
    destruct (ref_is_data want); [by left|by right]. }
  unfold released. rewrite Hdrop. destruct (Z.eqb_spec c 1) as [->|Hne].
  - destruct (take_out_run env Hroot w n b lb pre A k x B post e sk' F (InlineRef want 1) R Hat Hv Hx HF Hr) as (w' & Hu & Hat' & Hlw).
    exists w'. split_and!; [done..|]. by apply keeps_update_inline in Hu.
  - destruct Hc as [[Hd Hc]|?]; [|lia]. pose proof (xo_refs _ _ Hx) as Hr0.
    destruct (update_count_run env Hroot w n b lb pre A k x B post e sk' F want c R (-1) Hat Hv Hx HF Hd) as (w' & Hu & Hat' & Hlw);
      [lia|unfold u64_ok in *; lia|lia|]. exists w'. split_and!; [done..|]. by apply keeps_update_inline in Hu.
Qed.
End Tree.

(** ** References in items of their own *)

(** The key and the bytes of the item of a reference with the count [c]. *)
Definition own_key (bytenr : Z) (r : extent_ref) : btrfs_key :=
  match r with
  | TreeRef root => BtrfsKey bytenr BTRFS_TREE_BLOCK_REF_KEY root
  | SharedTreeRef parent => BtrfsKey bytenr BTRFS_SHARED_BLOCK_REF_KEY parent
  | DataRef root objectid off => BtrfsKey bytenr BTRFS_EXTENT_DATA_REF_KEY (hash_extent_data_ref root objectid off)
  | SharedDataRef parent => BtrfsKey bytenr BTRFS_SHARED_DATA_REF_KEY parent
  end.

Definition own_bytes (r : extent_ref) (c : Z) : list Z :=
  match r with
  | TreeRef _ | SharedTreeRef _ => []
  | DataRef root objectid off => le_bytes 8 root ++ le_bytes 8 objectid ++ le_bytes 8 off ++ le_bytes 4 c
  | SharedDataRef _ => le_bytes 4 c
  end.

Section Keyed.
Context {X : Type} `{ExtentTree X} (env : tree_env).
Context (Hroot : root_ok (te_root env)).
Context (bytenr num_bytes parent root_objectid owner off : Z).

Abbreviation world := (tree_world X).
Abbreviation root := (te_root env).
Abbreviation want := (wanted_ref parent root_objectid owner off).
Implicit Types (w : world).

Lemma insert_ext w n (b : Z) L key size fuel r w' :
  tree_ok env w n b L -> tw_path w = btrfs_init_path -> 0 <= size < 65536 ->
  has_room env (tw_blocks w) n b (size + sizeof_item) -> (n < fuel)%nat ->
  btrfs_insert_empty_items env fuel [(key, size)] w = Some (r, w') -> tw_ext w' = tw_ext w.
Proof using Hroot.
  intros Hok Hp Hsize Hroom Hfuel. unfold sizeof_item in Hroom.
  assert (Hsr : searchable env (tw_blocks w) n b (size + 25)) by (split; [done|lia]).
  destruct (search_tree_ok env Hroot w n b L key (size + 25) true fuel Hok Hp Hsr ltac:(done) Hfuel)
    as (r0 & slot & p & lb & pre & l & post & _ & _ & _ & _ & Hrun & _).
  unfold btrfs_insert_empty_items. simpl head. unfold lift at 1. rewrite (bind_some _ _ w (key, size) w) by done. cbn [fst].
  rewrite (bind_some _ _ w (Some b) w) by (unfold root_node, gets; by rewrite (to_root _ _ _ _ _ Hok)).
  rewrite bool_decide_eq_false_2 by done. rewrite (bind_some _ _ w tt w) by done.
  assert (Hts : s32 (u32 (sum_sizes [(key, size)] + Z.of_nat 1 * sizeof_item)) = size + 25).
  { simpl. unfold sizeof_item. unwrap. lia. }
  cbn [length]. rewrite Hts, (bind_some _ _ _ _ _ Hrun). intros Hrest.
  change (tw_ext w) with (tw_ext (with_path w p)). revert Hrest. generalize (with_path w p). intros w1 Hrest.
  match type of Hrest with ?c w1 = _ => assert (Hk : keeps_ext c) end; [|by eapply Hk].
  keep_ext.
Qed.

(** Writing to the item of the path. *)
Lemma write_here w n (b lb : Z) pre A k d B post e (d2 : buf) d' :
  at_item env w n b lb pre A k d B post -> item_view env w lb A k d B e ->
  let p := btrfs_item_ptr_offset (eb_data e) (Z.of_nat (length A)) in
  (forall z, z < p \/ p + Z.of_nat (length d) <= z -> d2 z = eb_data e z) ->
  read_extent_buffer d2 p (length d) = d' ->
  exists w', eb_write lb d2 w = Some (tt, w') /\ at_item env w' n b lb pre A k d' B post /\
    tw_path w' = tw_path w /\ leaf_written (tw_blocks w) (tw_blocks w') n b lb /\ tw_ext w' = tw_ext w.
Proof using Hroot.
  intros Hat Hv p Hout Hrd. destruct (write_run env Hroot w n b lb pre A k d B post e (fun _ => d2) d' Hat Hv Hout Hrd) as (w' & Hw & H1 & H2 & H3).
  unfold eb_update in Hw. rewrite (bind_some _ _ _ _ _ (iv_read _ _ _ _ _ _ _ _ Hv)) in Hw.
  exists w'. split_and!; [done..|]. by apply keeps_ext_eb_write in Hw.
Qed.

Lemma others_same L pre A k d B post key :
  key <> k -> L = pre ++ (A ++ B) ++ post -> item_at (pre ++ (A ++ (k, d) :: B) ++ post) key = item_at L key.
Proof using Type. intros Hk ->. by rewrite others_middle. Qed.

Lemma item_here w n (b lb : Z) pre A k d B post :
  at_item env w n b lb pre A k d B post -> item_at (pre ++ (A ++ (k, d) :: B) ++ post) k = Some d.
Proof using Type.
  intros [Hok _ _]. pose proof (to_sorted _ _ _ _ _ Hok) as Hs. eapply ic_item, item_changed_middle. exact Hs.
Qed.

(** A count of four bytes behind [a] others. *)
Lemma count_bytes (d : buf) p a (l : list Z) c :
  Z.of_nat (length l) = a -> read_extent_buffer d p (length l) = l ->
  let d' := put_le 4 (p + a) c d in
  read_extent_buffer d' p (length l + 4) = l ++ le_bytes 4 c /\ forall z, z < p \/ p + a + 4 <= z -> d' z = d z.
Proof using Type.
  intros Hl Hr d'. split.
  - rewrite read_app, Hl. unfold d'. rewrite read_put_le. f_equal. etransitivity; [|exact Hr]. apply read_same.
    intros z Hz. unfold put_le. zbool; lia || done.
  - intros z Hz. unfold d', put_le. zbool; lia || done.
Qed.

(** The item of its own of a reference by data, filled in anew. *)
Definition own_fill (r : extent_ref) (d : buf) (p c : Z) : buf :=
  match r with
  | DataRef root objectid off =>
      btrfs_set_extent_data_ref_count (btrfs_set_extent_data_ref_offset (btrfs_set_extent_data_ref_objectid
        (btrfs_set_extent_data_ref_root d p root) p objectid) p off) p c
  | _ => btrfs_set_shared_data_ref_count d p c
  end.

Lemma own_fill_spec (r : extent_ref) (d : buf) p c :
  ref_is_data r = true ->
  read_extent_buffer (own_fill r d p c) p (length (own_bytes r c)) = own_bytes r c /\
  forall z, z < p \/ p + Z.of_nat (length (own_bytes r c)) <= z -> own_fill r d p c z = d z.
Proof using Type.
  destruct r as [| |rt objectid o|v]; intros Hd; try discriminate Hd; unfold own_fill, own_bytes;
    rewrite ?length_app, !le_bytes_length;
    unfold btrfs_set_extent_data_ref_count, btrfs_set_extent_data_ref_offset, btrfs_set_extent_data_ref_objectid,
      btrfs_set_extent_data_ref_root, btrfs_set_shared_data_ref_count.
  - split; [|intros z Hz; field_outside]. rewrite !read_app. change (Z.of_nat 8) with 8.
    replace (p + 8 + 8 + 8) with (p + 24) by lia. replace (p + 8 + 8) with (p + 16) by lia.
    repeat apply (f_equal2 app); read_field.
  - split; [read_field|intros z Hz; field_outside].
Qed.

(** The count of the item of its own, changed. *)
Definition own_count (r : extent_ref) (d : buf) (p c : Z) : buf :=
  match r with
  | DataRef _ _ _ => btrfs_set_extent_data_ref_count d p c
  | _ => btrfs_set_shared_data_ref_count d p c
  end.

Lemma own_count_spec (r : extent_ref) (d : buf) p c c' :
  ref_is_data r = true -> 0 <= c < 2 ^ 32 -> read_extent_buffer d p (length (own_bytes r c)) = own_bytes r c ->
  read_extent_buffer (own_count r d p c') p (length (own_bytes r c)) = own_bytes r c' /\
  (forall z, z < p \/ p + Z.of_nat (length (own_bytes r c)) <= z -> own_count r d p c' z = d z) /\
  match r with
  | DataRef rt objectid o =>
      (ref_ok r -> match_extent_data_ref d p rt objectid o = true) /\ btrfs_extent_data_ref_count d p = c
  | _ => btrfs_shared_data_ref_count d p = c
  end.
Proof using Type.
  destruct r as [| |rt objectid o|v]; intros Hd Hc; try discriminate Hd; unfold own_count, own_bytes;
    rewrite ?length_app, !le_bytes_length; intros Hr.
  - rewrite !(assoc_L (++)) in Hr. apply read_split in Hr as [Hr Hc']. rewrite <- !(assoc_L (++)) in Hr.
    destruct (count_bytes d p 24 (le_bytes 8 rt ++ le_bytes 8 objectid ++ le_bytes 8 o) c') as [H1 H2];
      [by rewrite !length_app, !le_bytes_length|by rewrite <- Hr, read_length|].
    rewrite !length_app, !le_bytes_length in *. split; [|split; [|split]].
    + etransitivity; [exact H1|]. by rewrite <- !(assoc_L (++)).
    + intros z Hz. apply H2. lia.
    + intros (Hrt & Hob & Ho). apply read_split in Hr as [R1 Hr]. apply read_split in Hr as [R2 R3]. rewrite !le_bytes_length in *.
      change (Z.of_nat 8) with 8 in *. unfold match_extent_data_ref, btrfs_extent_data_ref_root, btrfs_extent_data_ref_objectid, btrfs_extent_data_ref_offset.
      replace (p + 8 + 8) with (p + 16) in R3 by lia.
      rewrite !get_le_read, R1, R2, R3, !le_val_id by (unfold u64_ok in *; simpl; lia). by rewrite !Z.eqb_refl.
    + unfold btrfs_extent_data_ref_count. rewrite get_le_read. change (Z.of_nat (8 + 8 + 8)) with 24 in Hc'.
      rewrite Hc'. apply le_val_id. exact Hc.
  - destruct (count_bytes d p 0 [] c') as [H1 H2]; [done|done|]. rewrite Z.add_0_r in *. split; [exact H1|]. split; [intros z Hz; apply H2; lia|].
    unfold btrfs_shared_data_ref_count. rewrite get_le_read, Hr. apply le_val_id. exact Hc.
Qed.

Definition own_size (r : extent_ref) : Z := Z.of_nat (length (own_bytes r 0)).

Lemma own_bytes_length (r : extent_ref) c : Z.of_nat (length (own_bytes r c)) = own_size r.
Proof using Type. unfold own_size, own_bytes. by destruct r; rewrite ?length_app, ?le_bytes_length. Qed.

Abbreviation own := (own_key bytenr want).

(** The count of the reference in an item of its own. *)
Definition own_before L (c : Z) : Prop :=
  match item_at L own with
  | None => c = 0
  | Some d => ref_is_data want = true /\ d = own_bytes want c /\ 0 < c
  end.

Lemma insert_data_run w n (b : Z) L fuel lfuel c :
  BTRFS_FIRST_FREE_OBJECTID <= owner -> 0 <= parent -> ref_ok want -> key_ok own ->
  tree_ok env w n b L -> tw_path w = btrfs_init_path -> has_room env (tw_blocks w) n b (own_size want + sizeof_item) ->
  (n < fuel)%nat -> (0 < lfuel)%nat -> own_before L c -> c + 1 < 2 ^ 32 ->
  exists w' L', insert_extent_data_ref env fuel lfuel bytenr parent root_objectid owner off 1 w = Some (0, w') /\
    tree_ok env w' n b L' /\ item_at L' own = Some (own_bytes want (c + 1)) /\
    (forall key, key <> own -> item_at L' key = item_at L key) /\ tw_ext w' = tw_ext w.
Proof using Hroot.
  intros Howner Hpar Hrok Hkey Hok Hp Hroom Hfuel Hlf Hbefore Hc. unfold insert_extent_data_ref.
  assert (Hwant : ref_is_data want = true /\ data_ref_key bytenr parent root_objectid owner off = own /\
    (if negb (parent =? 0) then sizeof_shared_data_ref else sizeof_extent_data_ref) = own_size want /\
    want = if negb (parent =? 0) then SharedDataRef parent else DataRef root_objectid owner off).
  { unfold wanted_ref, data_ref_key. rewrite (proj2 (Z.ltb_ge _ _)) by lia. destruct (Z.ltb_spec 0 parent), (Z.eqb_spec parent 0); try lia; done. }
  destruct Hwant as (Hdata & -> & -> & Hwant).
  assert (Hsz : 0 <= own_size want < 65536) by (unfold own_size, own_bytes; destruct want; rewrite ?length_app, ?le_bytes_length; simpl; lia).
  destruct (insert_or_find env Hroot w n b L own (own_size want) fuel Hok Hp Hkey Hsz Hroom Hfuel)
    as (r & w1 & lb & pre & A & d & B & post & Hrun & Hat & Hlb & Hres).
  pose proof (insert_ext w n b L own (own_size want) fuel r w1 Hok Hp Hsz Hroom Hfuel Hrun) as Hext1.
  rewrite (bind_some _ _ _ _ _ Hrun). destruct (at_item_view env Hroot _ _ _ _ _ _ _ _ _ _ Hat) as (e & Hv).
  pose proof (leaf_slot_run env _ _ _ _ _ _ _ Hv) as Hls. unfold own_before in Hbefore.
  pose proof (iv_data _ _ _ _ _ _ _ _ Hv) as Hrd. set (p := btrfs_item_ptr_offset (eb_data e) (Z.of_nat (length A))) in *.
  (* the leaf that is written *)
  set (d2 := if r =? 0 then own_fill want (eb_data e) p 1 else own_count want (eb_data e) p (c + 1)).
  assert (Hd2 : (forall z, z < p \/ p + Z.of_nat (length d) <= z -> d2 z = eb_data e z) /\
    read_extent_buffer d2 p (length d) = own_bytes want (c + 1) /\ (r = 0 \/ r = - EEXIST) /\
    (forall key, key <> own -> item_at (pre ++ (A ++ (own, own_bytes want (c + 1)) :: B) ++ post) key = item_at L key) /\
    (r = - EEXIST -> match want with
      | DataRef rt objectid o => match_extent_data_ref (eb_data e) p rt objectid o = true /\ btrfs_extent_data_ref_count (eb_data e) p = c
      | _ => btrfs_shared_data_ref_count (eb_data e) p = c end) /\ (r = 0 -> c = 0)).
  { destruct (item_at L own) as [d0|].
    - destruct Hbefore as (_ & -> & Hcp). destruct Hres as (-> & _ & -> & HL). unfold d2. change (- EEXIST =? 0) with false. cbv iota.
      destruct (own_count_spec want (eb_data e) p c (c + 1) Hdata ltac:(lia) Hrd) as (H1 & H2 & H3).
      split; [exact H2|]. split; [exact H1|]. split; [by right|]. split; [|split; [|done]].
      + intros key Hk. rewrite HL, !others_middle by done. done.
      + intros _. destruct want; [done..| |done]. destruct H3 as [H3 H4]. auto.
    - subst c. destruct Hres as (-> & Hlen & HL & _). unfold d2. rewrite Z.eqb_refl.
      assert (Hl : length d = length (own_bytes want 1)) by (pose proof (own_bytes_length want 1); lia).
      destruct (own_fill_spec want (eb_data e) p 1 Hdata) as [H1 H2]. rewrite Hl.
      split; [exact H2|]. split; [exact H1|]. split; [by left|]. split; [|split; [done|done]].
      intros key Hk. by apply others_same. }
  destruct Hd2 as (Hout & Hnew & Hr & Hothers & Hexist & Hzero).
  destruct (write_here w1 n b lb pre A own d B post e d2 (own_bytes want (c + 1)) Hat Hv Hout Hnew) as (w2 & Hw & Hat2 & Hp2 & _ & Hext2).
  assert (Hbody : forall body : act world Z, body w1 = Some (0, w2) ->
    exists w' L', (bind body (fun r => bind btrfs_release_path (fun _ => ret r))) w1 = Some (0, w') /\
      tree_ok env w' n b L' /\ item_at L' own = Some (own_bytes want (c + 1)) /\
      (forall key, key <> own -> item_at L' key = item_at L key) /\ tw_ext w' = tw_ext w).
  { intros body Hb. rewrite (bind_some _ _ _ _ _ Hb), (bind_some _ _ w2 tt (with_path w2 btrfs_init_path)) by done.
    eexists _, _. split; [reflexivity|]. split; [apply tree_ok_path, Hat2|]. split; [by eapply item_here|]. split; [done|].
    simpl. by rewrite Hext2. }
  apply Hbody. clear Hbody. rewrite Hwant in Hexist. unfold d2 in Hw. rewrite Hwant in Hw. clear d2 Hout Hnew Hothers.
  replace (negb (r =? 0) && negb (r =? - EEXIST)) with false by (by destruct Hr as [-> | ->]).
  destruct (negb (parent =? 0)).
  - rewrite (bind_some _ _ _ _ _ Hls). destruct Hr as [-> | ->].
    + change (0 =? 0) with true in *. cbv iota in *. by rewrite (bind_some _ _ _ _ _ Hw).
    + change (- EEXIST =? 0) with false in *. cbv iota in *. fold p. rewrite Hexist, u32_id by (done || destruct (item_at L own); lia).
      by rewrite (bind_some _ _ _ _ _ Hw).
  - destruct lfuel as [|lf]; [lia|]. cbn [data_ref_insert_loop]. destruct Hr as [-> | ->].
    + change (negb (0 =? - EEXIST)) with true. cbv iota. rewrite (bind_some _ _ w1 0 w1) by done.
      change (negb (0 =? 0) && negb (0 =? - EEXIST)) with false. cbv iota. rewrite (bind_some _ _ _ _ _ Hls).
      change (0 =? 0) with true in *. cbv iota in *. fold p. cbv zeta. by rewrite (bind_some _ _ _ _ _ Hw).
    + rewrite Z.eqb_refl. cbn [negb]. rewrite bind_assoc, (bind_some _ _ _ _ _ Hls). fold p.
      destruct (Hexist eq_refl) as [-> Hcount]. rewrite (bind_some _ _ w1 (- EEXIST) w1) by done.
      change (negb (- EEXIST =? 0) && negb (- EEXIST =? - EEXIST)) with false. cbv iota. rewrite (bind_some _ _ _ _ _ Hls).
      change (- EEXIST =? 0) with false in *. cbv iota in *. fold p. rewrite Hcount, u32_id by (destruct (item_at L own); lia).
      by rewrite (bind_some _ _ _ _ _ Hw).
Qed.

Lemma insert_tree_run w n (b : Z) L fuel :
  owner < BTRFS_FIRST_FREE_OBJECTID -> 0 <= parent -> key_ok own ->
  tree_ok env w n b L -> tw_path w = btrfs_init_path -> has_room env (tw_blocks w) n b (own_size want + sizeof_item) ->
  (n < fuel)%nat -> own_before L 0 ->
  exists w' L', insert_tree_block_ref env fuel bytenr parent root_objectid w = Some (0, w') /\
    tree_ok env w' n b L' /\ item_at L' own = Some (own_bytes want 1) /\
    (forall key, key <> own -> item_at L' key = item_at L key) /\ tw_ext w' = tw_ext w.
Proof using Hroot.
  intros Howner Hpar Hkey Hok Hp Hroom Hfuel Hbefore. unfold insert_tree_block_ref.
  assert (Hwant : block_ref_key bytenr parent root_objectid = own /\ own_bytes want 1 = []).
  { unfold wanted_ref, block_ref_key. rewrite (proj2 (Z.ltb_lt _ _)) by lia. destruct (Z.ltb_spec 0 parent), (Z.eqb_spec parent 0); try lia; done. }
  destruct Hwant as (-> & Hnil). assert (Hsz : own_size want = 0) by (rewrite <- (own_bytes_length want 1), Hnil; done).
  rewrite Hsz in Hroom.
  destruct (insert_or_find env Hroot w n b L own 0 fuel Hok Hp Hkey ltac:(lia) Hroom Hfuel)
    as (r & w1 & lb & pre & A & d & B & post & Hrun & Hat & Hlb & Hres).
  pose proof (insert_ext w n b L own 0 fuel r w1 Hok Hp ltac:(lia) Hroom Hfuel Hrun) as Hext1.
  unfold own_before in Hbefore. destruct (item_at L own) as [d0|]; [destruct Hbefore as (_ & _ & ?); lia|].
  destruct Hres as (-> & Hlen & HL & _). rewrite (bind_some _ _ _ _ _ Hrun).
  rewrite (bind_some _ _ w1 tt (with_path w1 btrfs_init_path)) by done.
  eexists _, _. split; [reflexivity|]. split; [apply tree_ok_path, Hat|]. split.
  - rewrite (item_here _ _ _ _ _ _ _ _ _ _ Hat), Hnil. destruct d; [done|simpl in Hlen; lia].
  - split; [|done]. intros key Hk. by apply others_same.
Qed.

(** Only the number of references of the item changes. *)
Lemma set_refs_spec (d : buf) p x refs' :
  read_extent_buffer d p (length (extent_bytes x)) = extent_bytes x ->
  read_extent_buffer (btrfs_set_extent_refs d p refs') p (length (extent_bytes x)) = extent_bytes (with_irefs x refs' (ex_irefs x)) /\
  forall z, z < p \/ p + Z.of_nat (length (extent_bytes x)) <= z -> btrfs_set_extent_refs d p refs' z = d z.
Proof using Type.
  intros Hr. rewrite <- (app_nil_r (extent_bytes x)) in Hr at 1 2. destruct (extent_parts_read d p x [] Hr) as (_ & R2 & R3).
  pose proof (extent_bytes_length x) as Hlx. pose proof (head_rest_length x) as Hhr.
  assert (H1 : forall z, z < p \/ p + 8 <= z -> btrfs_set_extent_refs d p refs' z = d z).
  { intros z Hz. unfold btrfs_set_extent_refs, put_le. zbool; lia || done. }
  split; [|intros z Hz; apply H1; unfold head_size in Hlx; lia].
  assert (Hlen : length (extent_bytes (with_irefs x refs' (ex_irefs x))) = length (extent_bytes x)).
  { apply Nat2Z.inj. rewrite !extent_bytes_length. done. }
  rewrite <- Hlen. apply read_extent_parts.
  - apply read_put_le.
  - etransitivity; [|exact R2]. apply read_same. intros z Hz. apply H1. lia.
  - etransitivity; [|exact R3]. apply read_same. intros z Hz. apply H1. unfold head_size in Hz. lia.
Qed.

Lemma insert_backref_run w n (b : Z) L fuel lfuel c :
  0 <= parent -> ref_ok want -> key_ok own ->
  tree_ok env w n b L -> tw_path w = btrfs_init_path -> has_room env (tw_blocks w) n b (own_size want + sizeof_item) ->
  (n < fuel)%nat -> (0 < lfuel)%nat -> own_before L c -> c + 1 < 2 ^ 32 -> (owner < BTRFS_FIRST_FREE_OBJECTID -> c = 0) ->
  exists w' L', insert_extent_backref env fuel lfuel bytenr parent root_objectid owner off 1 w = Some (0, w') /\
    tree_ok env w' n b L' /\ item_at L' own = Some (own_bytes want (c + 1)) /\
    (forall key, key <> own -> item_at L' key = item_at L key) /\ tw_ext w' = tw_ext w.
Proof using Hroot.
  intros Hpar Hrok Hkey Hok Hp Hroom Hfuel Hlf Hbefore Hc Hzero. unfold insert_extent_backref.
  destruct (Z.leb_spec BTRFS_FIRST_FREE_OBJECTID owner) as [Ho|Ho]; [by apply insert_data_run|].
  rewrite (Hzero Ho) in Hbefore |- *. rewrite (bind_some _ _ w tt w) by done. by apply insert_tree_run.
Qed.

(** What the item [k] and the item of its own hold once the reference does not
    fit into [k]. *)
Record counted_apart L k x (c : Z) L' : Prop := {
  ca_item : item_at L' k = Some (extent_bytes (with_irefs x (ex_refs x + 1) (ex_irefs x)));
  ca_own : item_at L' own = Some (own_bytes want (c + 1));
  ca_others : forall key, key <> k -> key <> own -> item_at L' key = item_at L key;
}.

Lemma inc_own_run (skinny : bool) w n (b : Z) L fuel lfuel k sk' x c :
  let sk := (owner <? BTRFS_FIRST_FREE_OBJECTID) && skinny in
  0 <= parent -> ref_ok want -> key_ok own -> own <> k ->
  tree_ok env w n b L -> tw_path w = btrfs_init_path ->
  has_room env (tw_blocks w) n b (Z.max (ref_size want) (own_size want + sizeof_item)) -> (n < fuel)%nat -> (0 < lfuel)%nat ->
  found_as L bytenr num_bytes (extent_search_key sk bytenr num_bytes owner) sk k sk' ->
  item_at L k = Some (extent_bytes x) -> extent_ok sk' x -> refs_map (ex_irefs x) !! want = None ->
  ~ goes_inline env bytenr parent root_objectid owner off L k x -> u64_ok (ex_refs x + 1) ->
  own_before L c -> c + 1 < 2 ^ 32 -> (owner < BTRFS_FIRST_FREE_OBJECTID -> c = 0) ->
  exists w' L', inc_extent_ref_items env fuel lfuel skinny bytenr num_bytes parent root_objectid owner off w = Some (0, w') /\
    tree_ok env w' n b L' /\ counted_apart L k x c L' /\ tw_ext w' = tw_ext w.
Proof using Hroot.
  intros sk Hpar Hrok Hkey Hne Hok Hp Hroom Hfuel Hlf Hfound Hitem Hx Hnone Hnot Hrefs Hbefore Hc Hzero.
  assert (Hsr : searchable env (tw_blocks w) n b (ref_size want)).
  { split; [intros _; eapply room_less; [exact Hroom|lia]|pose proof (ref_size_pos want); lia]. }
  destruct (lookup_inline_run env Hroot bytenr num_bytes parent root_objectid owner off skinny w n b L true fuel lfuel k sk' x
    Hok Hp Hsr Hfuel Hfound Hitem Hx) as (p & lb & pre & A & B & post & e & HL & Hat & Hv & Hlb & Hrun).
  unfold inc_extent_ref_items, insert_inline_extent_backref. rewrite bind_assoc, (bind_some _ _ _ _ _ Hrun).
  unfold lookup_result. rewrite ref_here_lookup, Hnone by apply Hx. rewrite bool_decide_eq_false_2 by (by intros []).
  replace (_ || _) with true.
  2: { symmetry. apply orb_true_iff. unfold goes_inline in Hnot.
       destruct (Z.leb_spec (BTRFS_MAX_EXTENT_ITEM_SIZE root) (Z.of_nat (length (extent_bytes x)) + ref_size want)); [by left|right].
       apply not_false_iff_true. intros Hk. apply Hnot. right. split; [done|].
       rewrite HL, key_behind_middle; [done|]. rewrite <- HL. apply Hok. }
  cbn [andb fst snd]. change (- EAGAIN =? 0) with false. change (- EAGAIN =? - ENOENT) with false. cbv iota.
  set (w1 := with_path w p) in *. rewrite (bind_some _ _ w1 (- EAGAIN) w1) by done.
  change (- EAGAIN =? 0) with false. change (negb (- EAGAIN =? - EAGAIN)) with false. cbv iota.
  rewrite (bind_some _ _ _ _ _ (leaf_slot_run env _ _ _ _ _ _ _ Hv)).
  destruct (view_extent env _ _ _ _ _ _ _ _ Hv Hx) as [-> _ _]. rewrite u64_id by exact Hrefs.
  set (q := btrfs_item_ptr_offset (eb_data e) (Z.of_nat (length A))) in *. cbv zeta.
  set (x' := with_irefs x (ex_refs x + 1) (ex_irefs x)).
  destruct (set_refs_spec (eb_data e) q x (ex_refs x + 1) (iv_data _ _ _ _ _ _ _ _ Hv)) as [Hnew Hout]. fold x' in Hnew.
  destruct (write_here w1 n b lb pre A k (extent_bytes x) B post e _ _ Hat Hv Hout Hnew) as (w2 & Hw & Hat2 & Hp2 & Hlw & Hext2).
  rewrite (bind_some _ _ _ _ _ Hw), (bind_some _ _ w2 tt (with_path w2 btrfs_init_path)) by done.
  set (w3 := with_path w2 btrfs_init_path). set (L2 := pre ++ (A ++ (k, extent_bytes x') :: B) ++ post) in *.
  assert (Hch : item_changed L k (extent_bytes x') L2).
  { pose proof (to_sorted _ _ _ _ _ Hok) as Hs. rewrite HL in Hs |- *. by apply item_changed_middle. }
  assert (Hroom3 : has_room env (tw_blocks w3) n b (own_size want + sizeof_item)).
  { destruct (at_item_view env Hroot _ _ _ _ _ _ _ _ _ _ Hat2) as (e2 & Hv2).
    apply (room_kept env Hroot _ _ n b lb _ (own_size want + sizeof_item) (A ++ (k, extent_bytes x') :: B) Hroom Hlw).
    - by eapply view_leaf_block.
    - lia.
    - rewrite (leaf_room_data env A k (extent_bytes x)).
      assert (Hlen : length (extent_bytes x') = length (extent_bytes x)) by (apply Nat2Z.inj; rewrite !extent_bytes_length; done).
      rewrite Hlen. pose proof (proj2 Hroom lb _ Hlb (view_leaf_block env _ _ _ _ _ _ _ Hv)). lia. }
  assert (Hbefore3 : own_before L2 c) by (unfold own_before in *; by rewrite (ic_others _ _ _ _ Hch)).
  destruct (insert_backref_run w3 n b L2 fuel lfuel c Hpar Hrok Hkey (tree_ok_path env w2 _ n b L2 (ai_ok _ _ _ _ _ _ _ _ _ _ _ Hat2))
    eq_refl Hroom3 Hfuel Hlf Hbefore3 Hc Hzero) as (w4 & L' & Hins & Hok4 & Hown & Hoth & Hext4).
  exists w4, L'. split; [done|]. split; [done|]. split; [|by rewrite Hext4; simpl; rewrite Hext2].
  split; [|done|].
  - rewrite Hoth by done. apply Hch.
  - intros key Hk Ho. rewrite Hoth by done. by apply Hch.
Qed.
End Keyed.

(** ** With the allocator *)

Section Ops.
Context {T : Type} `{RbTreeLaws T} (env : alloc_env) (fuel : nat) (held : Z -> buf).
Context (Hroot : root_ok (te_root (ae_tree env))).
#[local] Instance own : ExtentTree (alloc_info T) := own_tree env fuel held.

Abbreviation world := (tree_world (alloc_info T)).
Abbreviation tenv := (ae_tree env).
Abbreviation root := (te_root (ae_tree env)).
Implicit Types (w : world).

(** No operation on the extent tree itself is waiting. *)
Definition no_pending (a : alloc_info T) : Prop :=
  exists Fi Fd, flags_are (ai_extent_ins a) Fi /\ flags_are (ai_pending_del a) Fd /\
    forall i, 0 <= i -> Z.land (Fi i) EXTENT_LOCKED = 0 /\ Z.land (Fd i) EXTENT_LOCKED = 0.

Lemma find_nothing (w : io_world T) F :
  flags_are w F -> (forall i, 0 <= i -> Z.land (F i) EXTENT_LOCKED = 0) -> io_find 0 EXTENT_LOCKED w = Some (None, w).
Proof using H H0.
  intros HF Hno. destruct (io_find_run w F 0 EXTENT_LOCKED HF) as (r & Hr & Hres);
    [by vm_compute|split; [vm_compute; discriminate|by vm_compute]|].
  rewrite Hr. destruct r as [[s e]|]; [|done]. destruct Hres as (Hse & _ & Hs & _ & Hin & _). exfalso.
  apply (Hin s); [lia|]. by apply Hno.
Qed.

Lemma on_info_none w (get : alloc_info T -> io_world T) put :
  io_find 0 EXTENT_LOCKED (get (tw_ext w)) = Some (None, get (tw_ext w)) -> put (get (tw_ext w)) (tw_ext w) = tw_ext w ->
  on_info (zoom get put (io_find 0 EXTENT_LOCKED)) w = Some (None, w).
Proof using Type.
  intros Hf Hp. unfold on_info, zoom. rewrite Hf, Hp. by destruct w.
Qed.

Lemma finish_idle w : no_pending (tw_ext w) -> (0 < fuel)%nat -> finish_current_insert env fuel held w = Some (0, w).
Proof using H0.
  intros (Fi & Fd & Hi & _ & Hno) Hf. unfold finish_current_insert. destruct fuel as [|c] eqn:Ef; [lia|]. cbn [finish_insert_loop].
  assert (Hq : on_info (on_ins (io_find 0 EXTENT_LOCKED)) w = Some (None, w)).
  { apply (on_info_none w ai_extent_ins put_ins); [|by destruct (tw_ext w)]. apply (find_nothing _ Fi Hi). intros i Hi0. by apply Hno. }
  by rewrite (bind_some _ _ _ _ _ Hq).
Qed.

Lemma del_idle w : no_pending (tw_ext w) -> (0 < fuel)%nat -> del_pending_extents env fuel held w = Some (0, w).
Proof using H0.
  intros (Fi & Fd & _ & Hd & Hno) Hf. unfold del_pending_extents. destruct fuel as [|c] eqn:Ef; [lia|]. cbn [del_pending_loop].
  assert (Hq : on_info (on_del (io_find 0 EXTENT_LOCKED)) w = Some (None, w)).
  { apply (on_info_none w ai_pending_del put_del); [|by destruct (tw_ext w)]. apply (find_nothing _ Fd Hd). intros i Hi0. by apply Hno. }
  by rewrite (bind_some _ _ _ _ _ Hq).
Qed.

Context (bytenr num_bytes parent root_objectid owner off : Z).
Abbreviation want := (wanted_ref parent root_objectid owner off).
Abbreviation sk := ((owner <? BTRFS_FIRST_FREE_OBJECTID) && ae_skinny_metadata env).

(** The item [k] is one of the new kind. *)
Definition skinny_key k : bool := type k =? BTRFS_METADATA_ITEM_KEY.

(** The extent has the item [k] with the contents [x] among the items [L]. *)
Record extent_item_in L k x : Prop := {
  ei_found : found_as L bytenr num_bytes (extent_search_key sk bytenr num_bytes owner) sk k (skinny_key k);
  ei_item : item_at L k = Some (extent_bytes x);
  ei_ok : extent_ok (skinny_key k) x;
}.

(** What an operation leaves alone: the path, the blocks of the tree and what is
    behind it. *)
Record same_frame w w' n (b : Z) : Prop := {
  sf_path : tw_path w' = tw_path w;
  sf_ext : tw_ext w' = tw_ext w;
  sf_blocks : exists lb, leaf_written (tw_blocks w) (tw_blocks w') n b lb;
}.

Lemma inc_ref_wrap w w1 :
  ae_mem env = true -> (0 < fuel)%nat -> no_pending (tw_ext w) -> tw_ext w1 = tw_ext w ->
  inc_extent_ref_items tenv fuel fuel (ae_skinny_metadata env) bytenr num_bytes parent root_objectid owner off
    (with_path w btrfs_init_path) = Some (0, w1) ->
  btrfs_inc_extent_ref env fuel held bytenr num_bytes parent root_objectid owner off w = Some (0, with_path w1 (tw_path w)).
Proof using H0.
  intros Hmem Hfuel Hidle Hext Hrun. unfold btrfs_inc_extent_ref. rewrite Hmem. cbn [negb].
  rewrite (bind_some _ _ _ _ _ (new_path_run w bug _ _ _ Hrun)). set (w' := with_path w1 (tw_path w)).
  assert (Hidle' : no_pending (tw_ext w')) by (simpl; by rewrite Hext).
  by rewrite (bind_some _ _ _ _ _ (finish_idle w' Hidle' Hfuel)), (bind_some _ _ _ _ _ (del_idle w' Hidle' Hfuel)).
Qed.

Lemma inc_ref_run w n (b : Z) L k x :
  tree_ok tenv w n b L -> no_pending (tw_ext w) -> ae_mem env = true -> (n < fuel)%nat ->
  has_room tenv (tw_blocks w) n b (ref_size want) -> extent_item_in L k x ->
  goes_inline tenv bytenr parent root_objectid owner off L k x ->
  count_ok want (default 0 (refs_map (ex_irefs x) !! want) + 1) -> u64_ok (ex_refs x + 1) ->
  exists w' L', btrfs_inc_extent_ref env fuel held bytenr num_bytes parent root_objectid owner off w = Some (0, w') /\
    tree_ok tenv w' n b L' /\ item_changed L k (extent_bytes (referenced parent root_objectid owner off x)) L' /\ same_frame w w' n b.
Proof using H0 Hroot.
  intros Hok Hidle Hmem Hfuel Hroom [Hf Hi Hx] Hin Hc Hr.
  destruct (inc_inline_run tenv Hroot bytenr num_bytes parent root_objectid owner off (ae_skinny_metadata env)
    (with_path w btrfs_init_path) n b L fuel fuel k (skinny_key k) x) as (w1 & L' & lb & Hrun & Hok1 & Hch & Hlw & Hext); try done;
    [by apply tree_ok_path|].
  exists (with_path w1 (tw_path w)), L'. split; [apply inc_ref_wrap; done || lia|]. split; [by apply tree_ok_path|]. split; [done|].
  split; [done|done|by exists lb].
Qed.

Lemma found_type L k : found_as L bytenr num_bytes (extent_search_key sk bytenr num_bytes owner) sk k (skinny_key k) ->
  own_key bytenr want <> k.
Proof using Type.
  intros [(-> & _ & _)|(_ & _ & -> & _)].
  - unfold extent_search_key. destruct sk; by destruct want.
  - by destruct want.
Qed.

Lemma inc_own_ref_run w n (b : Z) L k x c :
  tree_ok tenv w n b L -> no_pending (tw_ext w) -> ae_mem env = true -> (n < fuel)%nat ->
  has_room tenv (tw_blocks w) n b (Z.max (ref_size want) (own_size want + sizeof_item)) -> extent_item_in L k x ->
  ~ goes_inline tenv bytenr parent root_objectid owner off L k x -> 0 <= parent -> ref_ok want -> key_ok (own_key bytenr want) ->
  own_before bytenr parent root_objectid owner off L c -> c + 1 < 2 ^ 32 -> (owner < BTRFS_FIRST_FREE_OBJECTID -> c = 0) ->
  u64_ok (ex_refs x + 1) ->
  exists w' L', btrfs_inc_extent_ref env fuel held bytenr num_bytes parent root_objectid owner off w = Some (0, w') /\
    tree_ok tenv w' n b L' /\ counted_apart bytenr parent root_objectid owner off L k x c L' /\ tw_path w' = tw_path w /\ tw_ext w' = tw_ext w.
Proof using H0 Hroot.
  intros Hok Hidle Hmem Hfuel Hroom [Hf Hi Hx] Hfull Hpar Hrok Hkey Hbefore Hc Hzero Hr.
  assert (Hnone : refs_map (ex_irefs x) !! want = None).
  { destruct (refs_map (ex_irefs x) !! want) eqn:E; [|done]. exfalso. apply Hfull. left. by rewrite E. }
  destruct (inc_own_run tenv Hroot bytenr num_bytes parent root_objectid owner off (ae_skinny_metadata env)
    (with_path w btrfs_init_path) n b L fuel fuel k (skinny_key k) x c) as (w1 & L' & Hrun & Hok1 & Hch & Hext); try done;
    [by apply (found_type L)|by apply tree_ok_path|lia|].
  exists (with_path w1 (tw_path w)), L'. split; [apply inc_ref_wrap; done || lia|]. by split; [apply tree_ok_path|].
Qed.

(** What the item of a tree block of the old kind says of the block. *)
Definition block_info_ok k x : Prop :=
  owner < BTRFS_FIRST_FREE_OBJECTID -> skinny_key k = false -> is_block x = true /\ u8 (nth 17 (ex_info x) 0) = owner.

Lemma found_key L k : found_as L bytenr num_bytes (extent_search_key sk bytenr num_bytes owner) sk k (skinny_key k) ->
  objectid k = bytenr /\
  ((type k = BTRFS_EXTENT_ITEM_KEY /\ offset k = num_bytes /\ skinny_key k = false) \/
   (type k = BTRFS_METADATA_ITEM_KEY /\ offset k = owner /\ skinny_key k = true)).
Proof using Type.
  intros [(-> & Hk & _)|(_ & Hk & -> & _)].
  - unfold extent_search_key in *. destruct sk; (split; [done|]); [by right|by left].
  - split; [done|]. by left.
Qed.

Lemma slot_loop_here (d : buf) (slot : Z) L k k0 :
  found_as L bytenr num_bytes (extent_search_key sk bytenr num_bytes owner) sk k (skinny_key k) ->
  0 <= slot -> btrfs_item_key d slot = k ->
  extent_slot_loop (Z.to_nat (slot + 1)) d slot bytenr num_bytes owner k0 = (slot, true, k).
Proof using Type.
  intros Hf Hs Hk. replace (Z.to_nat (slot + 1)) with (S (Z.to_nat slot)) by lia. cbn [extent_slot_loop].
  rewrite Z2Nat.id, Hk by done. destruct (found_key L k Hf) as (-> & [(-> & -> & _)|(-> & -> & _)]).
  - by rewrite !Z.eqb_refl.
  - rewrite !Z.eqb_refl. cbn [negb andb]. by destruct (_ && _).
Qed.

(** Reading the level in the item of a block. *)
Lemma level_read (d : buf) p x :
  read_extent_buffer d p (length (extent_bytes x)) = extent_bytes x -> Z.of_nat (length (ex_info x)) = 18 ->
  btrfs_tree_block_level d (p + sizeof_extent_item) = u8 (nth 17 (ex_info x) 0).
Proof using Type.
  intros Hr Hl. unfold btrfs_tree_block_level, sizeof_extent_item. rewrite get_le_1. f_equal.
  replace (p + 24 + 17) with (p + Z.of_nat 41) by lia.
  assert (Hlen : (41 < length (extent_bytes x))%nat) by (pose proof (extent_bytes_length x); unfold head_size in *; lia).
  rewrite <- (read_nth d p (length (extent_bytes x)) 41) by done. rewrite Hr. unfold extent_bytes, extent_head.
  rewrite <- !(assoc_L (++)). rewrite !app_nth2 by (rewrite !le_bytes_length; lia). rewrite !le_bytes_length.
  by rewrite app_nth1 by lia.
Qed.

Lemma free_ref_run del_csums callers (tree : Z) w n (b : Z) L k x c :
  tree_ok tenv w n b L -> no_pending (tw_ext w) -> ae_mem env = true -> (n < fuel)%nat -> ae_sectorsize env <= num_bytes ->
  searchable tenv (tw_blocks w) n b (-1) -> extent_item_in L k x -> block_info_ok k x ->
  refs_map (ex_irefs x) !! want = Some c -> 1 < ex_refs x ->
  exists w' L', free_extent_other env fuel held del_csums callers tree bytenr num_bytes parent root_objectid owner off w = Some (0, w') /\
    tree_ok tenv w' n b L' /\ item_changed L k (extent_bytes (released parent root_objectid owner off x)) L' /\ same_frame w w' n b.
Proof using H0 Hroot.
  intros Hok Hidle Hmem Hfuel Hsec Hsr [Hf Hi Hx] Hinfo Hc Hr. unfold free_extent_other.
  rewrite (proj2 (Z.ltb_ge _ _)), (bind_some _ _ w tt w) by done. unfold __free_extent. rewrite Hmem. cbn [negb].
  set (w0 := with_path w btrfs_init_path).
  destruct (lookup_inline_run tenv Hroot bytenr num_bytes parent root_objectid owner off (ae_skinny_metadata env)
    w0 n b L false fuel fuel k (skinny_key k) x (tree_ok_path tenv w _ n b L Hok) eq_refl Hsr Hfuel Hf Hi Hx)
    as (p & lb & pre & A & B & post & e & HL & Hat & Hv & Hlb & Hlook).
  set (w1 := with_path w0 p) in *. pose proof (xo_irefs _ _ Hx) as Hio.
  assert (Hhere : ref_here want (find_ref want (ex_irefs x)).2 = true).
  { rewrite ref_here_lookup, Hc by done. apply bool_decide_eq_true_2. by eexists. }
  unfold lookup_result in Hlook. rewrite Hhere in Hlook.
  set (iref := btrfs_item_ptr_offset (eb_data e) _ + _) in Hlook.
  destruct (drop_run tenv Hroot parent root_objectid owner off w1 n b lb pre A k x B post e (skinny_key k) c Hat Hv Hx Hc Hr)
    as (w2 & Hdrop & Hat2 & Hlw & Hext). fold iref in Hdrop.
  pose proof (leaf_slot_run tenv _ _ _ _ _ _ _ Hv) as Hls. pose proof (iv_size _ _ _ _ _ _ _ _ Hv) as Hsize.
  pose proof (extent_bytes_length x) as Hlx.
  assert (Hge : 24 <= Z.of_nat (length (extent_bytes x))) by (unfold head_size in Hlx; lia).
  match goal with |- context [with_new_path true bug ?body] => assert (Hbody : body w0 = Some (0, w2)) end.
  { cbv zeta. rewrite andb_false_r, (bind_some _ _ w0 tt w0) by done. unfold lookup_extent_backref.
    rewrite bind_assoc, (bind_some _ _ _ _ _ Hlook). cbn [fst]. change (negb (0 =? - ENOENT)) with true. cbv iota.
    rewrite (bind_some _ _ w1 (0, Some iref) w1) by done. change (negb (0 =? 0)) with false. cbv iota.
    (* the slot of the item *)
    unfold find_extent_slot. rewrite bind_assoc, (bind_some _ _ _ _ _ Hls).
    rewrite (slot_loop_here (eb_data e) (Z.of_nat (length A)) L k _ Hf ltac:(lia) (iv_key _ _ _ _ _ _ _ _ Hv)). rewrite Hsize.
    rewrite (proj2 (Z.ltb_ge _ sizeof_extent_item)) by (unfold sizeof_extent_item; lia). cbn [negb andb].
    rewrite (bind_some _ _ w1 (Z.of_nat (length A), true, k) w1) by done.
    unfold convert_found. rewrite bind_assoc, (bind_some _ _ _ _ _ Hls), Hsize.
    rewrite (proj2 (Z.ltb_ge _ sizeof_extent_item)) by (unfold sizeof_extent_item; lia).
    rewrite (bind_some _ _ w1 (Z.of_nat (length A), k) w1) by done.
    rewrite (bind_some _ _ _ _ _ Hls), Hsize. rewrite (proj2 (Z.ltb_ge _ sizeof_extent_item)) by (unfold sizeof_extent_item; lia).
    rewrite (bind_some _ _ w1 tt w1) by done.
    (* what the item says *)
    set (q := btrfs_item_ptr_offset (eb_data e) (Z.of_nat (length A))) in *.
    match goal with |- bind ?c _ w1 = _ => assert (Hcheck : c w1 = Some (tt, w1)) end.
    { destruct (Z.ltb_spec owner BTRFS_FIRST_FREE_OBJECTID) as [Ho|]; [|done]. cbn [andb].
      destruct (Z.eqb_spec (type k) BTRFS_EXTENT_ITEM_KEY) as [Ht|]; [|done].
      assert (Hsk : skinny_key k = false) by (unfold skinny_key; by rewrite Ht).
      destruct (Hinfo Ho Hsk) as [Hb Hlev]. pose proof (xo_info _ _ Hx) as Hil. rewrite Hb, Hsk in Hil. simpl in Hil.
      unfold sizeof_tree_block_info in *. unfold head_size in Hlx.
      rewrite (proj2 (Z.ltb_ge _ _)) by (unfold sizeof_extent_item; lia). rewrite (bind_some _ _ w1 tt w1) by done.
      rewrite (level_read (eb_data e) q x (iv_data _ _ _ _ _ _ _ _ Hv) Hil), Hlev, Z.eqb_refl. done. }
    rewrite (bind_some _ _ _ _ _ Hcheck). clear Hcheck.
    destruct (view_extent tenv _ _ _ _ _ _ _ _ Hv Hx) as [Hrefs _ _]. fold q in Hrefs. rewrite Hrefs.
    rewrite (proj2 (Z.ltb_ge _ 1)) by lia. rewrite (bind_some _ _ w1 tt w1) by done.
    rewrite (proj2 (Z.ltb_lt 0 _)) by lia. cbn [negb]. rewrite (bind_some _ _ w1 tt w1) by done.
    rewrite (bind_some _ _ _ _ _ Hdrop). change (negb (0 =? 0)) with false. by rewrite (bind_some _ _ w2 tt w2). }
  rewrite bind_assoc, (bind_some _ _ _ _ _ (new_path_run w bug _ _ _ Hbody)). set (w' := with_path w2 (tw_path w)).
  assert (Hidle' : no_pending (tw_ext w')) by (simpl; by rewrite Hext).
  rewrite bind_assoc, (bind_some _ _ _ _ _ (finish_idle w' Hidle' ltac:(lia))).
  rewrite (bind_some _ _ w' 0 w') by done. rewrite (bind_some _ _ _ _ _ (del_idle w' Hidle' ltac:(lia))).
  eexists w', _. split; [done|]. split; [apply tree_ok_path, Hat2|]. split; [|split; [done|exact Hext|by exists lb]].
  pose proof (to_sorted _ _ _ _ _ Hok) as Hs. rewrite HL in Hs |- *. by apply item_changed_middle.
Qed.

(** The searches go by the keys alone. *)
Lemma found_as_keys L L' key (sk0 : bool) k sk' :
  L'.*1 = L.*1 -> found_as L bytenr num_bytes key sk0 k sk' -> found_as L' bytenr num_bytes key sk0 k sk'.
Proof using Type.
  intros Hk [(-> & -> & Hin)|(-> & -> & Hn & L1 & d & L2 & -> & Hlt & HL2)]; [left; by rewrite Hk|right].
  do 3 (split; [done|]). clear Hn. rewrite fmap_app, fmap_cons in Hk. cbn [fst] in Hk.
  apply fmap_app_inv in Hk as (M1 & M & HM1 & HM & ->). symmetry in HM. revert HM. generalize dependent k. intros k Hlt HM.
  apply fmap_cons_inv in HM as ([k' d'] & M2 & Hk' & HM2 & ->). simpl in Hk'. subst k'.
  exists M1, d', M2. split; [done|]. by rewrite <- HM2.
Qed.

Lemma item_changed_back L k d d1 L1 L2 :
  sorted_keys (L.*1) -> item_at L k = Some d -> item_changed L k d1 L1 -> item_changed L1 k d L2 -> L2 = L.
Proof using Type.
  intros Hs Hd [K1 _ O1] [K2 I2 O2]. rewrite K1 in K2. clear K1.
  assert (Hat : forall key, item_at L2 key = item_at L key).
  { intros key. destruct (decide (key = k)) as [->|Hk]; [congruence|]. by rewrite O2, O1. }
  clear I2 O1 O2 Hd d d1 L1. apply sorted_keys_NoDup in Hs. revert L2 K2 Hat. induction L as [|[k1 d1] L IH]; intros [|[k2 d2] L2] Hk Hat; try done.
  simpl in Hk, Hs. injection Hk as -> Hk. apply NoDup_cons in Hs as [Hn Hs].
  pose proof (Hat k1) as H1. simpl in H1. rewrite !decide_True in H1 by done. injection H1 as ->. f_equal. apply IH; [done|done|].
  intros key. destruct (decide (key = k1)) as [->|Hne].
  - change (L2.*1 = L.*1) in Hk. rewrite !item_at_None; first [done | exact Hn | by rewrite Hk].
  - pose proof (Hat key) as H1. simpl in H1. by rewrite !decide_False in H1 by done.
Qed.

Lemma ref_count_pos (r : extent_ref) irs c : irefs_ok irs -> refs_map irs !! r = Some c -> 1 <= c.
Proof using Type.
  intros Hok Hl. destruct (find_ref_cases r irs Hok) as [(A & c' & B & -> & _ & Hl')|(A & B & _ & _ & _ & _ & _ & _ & Hl')];
    rewrite Hl in Hl'; [|done]. injection Hl' as <-.
  destruct Hok as [Ho _ _]. apply Forall_app in Ho as [_ [[_ Ho] _]%Forall_cons]. simpl in Ho. destruct (ref_is_data r); lia.
Qed.

Lemma inc_free_run del_csums callers (tree : Z) w n (b : Z) L k x :
  tree_ok tenv w n b L -> no_pending (tw_ext w) -> ae_mem env = true -> (n < fuel)%nat -> ae_sectorsize env <= num_bytes ->
  has_room tenv (tw_blocks w) n b (ref_size want) -> searchable tenv (tw_blocks w) n b (-1) -> extent_item_in L k x ->
  block_info_ok k x -> goes_inline tenv bytenr parent root_objectid owner off L k x -> ref_ok want ->
  count_ok want (default 0 (refs_map (ex_irefs x) !! want) + 1) -> 0 < ex_refs x < 2 ^ 64 - 1 ->
  exists w1 w2, btrfs_inc_extent_ref env fuel held bytenr num_bytes parent root_objectid owner off w = Some (0, w1) /\
    free_extent_other env fuel held del_csums callers tree bytenr num_bytes parent root_objectid owner off w1 = Some (0, w2) /\
    tree_ok tenv w2 n b L.
Proof using H0 Hroot.
  intros Hok Hidle Hmem Hfuel Hsec Hroom Hfull Hit Hinfo Hfits Hrok Hc Hr.
  destruct (inc_ref_run w n b L k x) as (w1 & L1 & Hrun & Hok1 & Hch & [Hp Hext (lb & Hlw)]); try done; [unfold u64_ok; lia|].
  destruct Hit as [Hf Hi Hx]. set (x1 := referenced parent root_objectid owner off x) in *.
  assert (Hx1 : extent_ok (skinny_key k) x1) by (apply referenced_ok; [done..|unfold u64_ok; lia]).
  assert (Hit1 : extent_item_in L1 k x1).
  { split; [by apply (found_as_keys L); [apply Hch|]|apply Hch|done]. }
  destruct (add_ref_spec want 1 (ex_irefs x)) as (_ & _ & Hmap); [apply Hx|done|lia|done|].
  destruct (free_ref_run del_csums callers tree w1 n b L1 k x1 (default 0 (refs_map (ex_irefs x) !! want) + 1))
    as (w2 & L2 & Hrun2 & Hok2 & Hch2 & _); try done.
  - by rewrite Hext.
  - by apply (searchable_kept tenv (tw_blocks w) _ n b lb).
  - simpl. rewrite Hmap. apply lookup_insert_eq.
  - simpl. lia.
  - exists w1, w2. split; [done|]. split; [done|].
    assert (Hx2 : released parent root_objectid owner off x1 = x).
    { unfold released, x1, referenced, with_irefs. cbn [ex_refs ex_generation ex_flags ex_info ex_irefs].
      rewrite drop_add_ref by (done || apply Hx || lia). replace (ex_refs x + 1 - 1) with (ex_refs x) by lia. by destruct x. }
    rewrite Hx2 in Hch2. by rewrite (item_changed_back L k _ _ L1 L2 (to_sorted _ _ _ _ _ Hok) Hi Hch Hch2) in Hok2.
Qed.
End Ops.
