(* ===== verification/ExtentClient.v ===== *)
(** The extent tree as the other trees see it: allocating and freeing their
    blocks, counting the references a block holds, and the block groups with
    their items.  The rest of [src/extent-tree.c]. *)

From S2P Require Import Prelude Buf CtreeFmt ItemFmt RbSpec ExtentCache ExtentIo LeafOps NodeOps TreeWorld TreeBalance TreeOps.
From S2P Require Import DirItem FileItem Volumes ExtentItem ExtentAlloc ExtentRef ExtentOps.

Definition BTRFS_CHUNK_TREE_OBJECTID : Z := 3.
Definition BTRFS_FIRST_CHUNK_TREE_OBJECTID : Z := 256.

(** [struct btrfs_block_group_item] and its bytes. *)
Definition sizeof_block_group_item : Z := 24.
Definition block_group_item (g : block_group) : list Z :=
  le_bytes 8 (bg_used g) ++ le_bytes 8 (bg_chunk_objectid g) ++ le_bytes 8 (bg_item_flags g).
Definition bg_key (g : block_group) : btrfs_key := BtrfsKey (bg_objectid g) BTRFS_BLOCK_GROUP_ITEM_KEY (bg_offset g).

(** [btrfs_make_block_groups]: the start, the size and the type of the groups
    from [cur_start] on, with the sizes of the groups so far. *)
Definition next_group (total_bytes group_align cur_start total_data total_metadata : Z) : Z * Z :=
  let group_size := Z.min (total_bytes / 12) (u64 (total_bytes - cur_start)) in
  let mask := u64 (Z.lnot (group_align - 1)) in
  if cur_start =? 0 then
    let group_size := Z.land (group_size / 4) mask in
    (Z.min (Z.max group_size (8 * 1024 * 1024)) (32 * 1024 * 1024), BTRFS_BLOCK_GROUP_SYSTEM)
  else
    let group_size := Z.land group_size mask in
    let meta := u64 (total_metadata * 2) <=? total_data in
    let group_size := Z.min group_size (if meta then 1024 * 1024 * 1024 else 5 * 1024 * 1024 * 1024) in
    let rest := u64 (total_bytes - cur_start) in
    (if u64 (rest * 4) <? u64 (group_size * 5) then rest else group_size,
     if meta then BTRFS_BLOCK_GROUP_METADATA else BTRFS_BLOCK_GROUP_DATA).

(** What the totals become: the size is added before it may grow to the end. *)
Definition next_totals (total_bytes group_align cur_start total_data total_metadata : Z) : Z * Z :=
  if cur_start =? 0 then (total_data, total_metadata)
  else
    let group_size := Z.land (Z.min (total_bytes / 12) (u64 (total_bytes - cur_start))) (u64 (Z.lnot (group_align - 1))) in
    if u64 (total_metadata * 2) <=? total_data
    then (total_data, u64 (total_metadata + Z.min group_size (1024 * 1024 * 1024)))
    else (u64 (total_data + Z.min group_size (5 * 1024 * 1024 * 1024)), total_metadata).

Fixpoint group_layout (n : nat) (total_bytes group_align cur_start total_data total_metadata : Z) : option (list (Z * Z * Z)) :=
  if total_bytes <=? cur_start then Some []
  else
    match n with
    | O => None
    | S n =>
        let '(group_size, group_type) := next_group total_bytes group_align cur_start total_data total_metadata in
        let '(total_data, total_metadata) := next_totals total_bytes group_align cur_start total_data total_metadata in
        l ← group_layout n total_bytes group_align (u64 (cur_start + group_size)) total_data total_metadata;
        Some ((cur_start, group_size, group_type) :: l)
    end.

Section Groups.
Context {T : Type} `{RbTree T} (env : alloc_env) (fuel : nat) (held : Z -> buf).
Open Scope act_scope.

#[local] Existing Instance own_tree.
Abbreviation world := (tree_world (alloc_info T)).
Abbreviation tenv := (ae_tree env).
#[local] Instance own : ExtentTree (alloc_info T) := own_tree env fuel held.

(** ** Block groups in memory *)

(** A group gets an address and a state: its flags and [EXTENT_LOCKED], which
    keeps states apart.  The results are those of [set_extent_bits] and
    [set_state_private]. *)
Definition place_group (g : block_group) (bits : Z) : act (alloc_info T) (Z * Z) :=
  p <- gets ai_next ;;
  modify (fun x => put_groups (<[p := g]> (ai_groups x)) (put_ops (ai_ops x) (p + 1) x)) ;;;
  r <- on_bgc (io_set (bg_objectid g) (u64 (bg_end g - 1)) (Z.lor bits EXTENT_LOCKED)) ;;
  s <- on_bgc (set_state_private (bg_objectid g) p) ;;
  ret (r, s).

Definition btrfs_add_block_group (bytes_used type chunk_objectid chunk_offset size : Z) : act (alloc_info T) block_group :=
  space_info <- update_space_info type size bytes_used ;;
  let g := BlockGroup chunk_offset size bytes_used chunk_objectid type space_info type 0 false false in
  r <- place_group g (block_group_state_bits type) ;;
  bug_on (negb (r.1 =? 0)) ;;;
  bug_on (negb (r.2 =? 0)) ;;;
  set_avail_alloc_bits type ;;;
  ret g.

(** [btrfs_insert_item] of a group, and the operations it leaves pending. *)
Definition insert_group_item (g : block_group) : act world unit :=
  r <- btrfs_insert_item tenv fuel (bg_key g) (block_group_item g) ;;
  bug_on (negb (r =? 0)) ;;;
  r <- finish_current_insert env fuel held ;;
  bug_on (negb (r =? 0)) ;;;
  r <- del_pending_extents env fuel held ;;
  bug_on (negb (r =? 0)).

Definition btrfs_make_block_group (bytes_used type chunk_objectid chunk_offset size : Z) : act world Z :=
  cache <- on_info (btrfs_add_block_group bytes_used type chunk_objectid chunk_offset size) ;;
  insert_group_item cache ;;;
  ret 0.

(** The groups of a converted file system, all in memory before the first item is
    inserted.  The variable [bit] keeps what the first group, of the system, has
    set it to. *)
Fixpoint place_groups (l : list (Z * Z * Z)) : act (alloc_info T) unit :=
  match l with
  | [] => ret tt
  | (start, size, type) :: l =>
      space_info <- update_space_info type size 0 ;;
      set_avail_alloc_bits type ;;;
      let g := BlockGroup start size 0 BTRFS_FIRST_CHUNK_TREE_OBJECTID type space_info type 0 false false in
      place_group g BLOCK_GROUP_SYSTEM ;;;
      place_groups l
  end.

Fixpoint insert_groups (n : nat) (total_bytes cur_start : Z) : act world Z :=
  if total_bytes <=? cur_start then ret 0
  else
    match n with
    | O => bug
    | S n =>
        p <- on_info (btrfs_lookup_block_group cur_start) ;;
        p <- assume_some p ;;
        cache <- on_info (bg_get p) ;;
        insert_group_item cache ;;;
        insert_groups n total_bytes (bg_end cache)
    end.

Definition btrfs_make_block_groups (total_bytes : Z) : act world Z :=
  l <- assume_some (group_layout fuel total_bytes (64 * ae_sectorsize env) 0 0 0) ;;
  on_info (place_groups l) ;;;
  insert_groups fuel total_bytes 0.

Fixpoint first_group_loop (n : nat) (key : btrfs_key) : act world Z :=
  match n with
  | O => bug
  | S n =>
      ls <- leaf_slot ;;
      let '(leaf, slot, d) := ls in
      if btrfs_header_nritems d <=? slot then
        r <- btrfs_next_leaf ;;
        if r =? 0 then first_group_loop n key else if r <? 0 then ret r else ret (- ENOENT)
      else
        let found_key := btrfs_item_key d slot in
        if (objectid key <=? objectid found_key) && (type found_key =? BTRFS_BLOCK_GROUP_ITEM_KEY) then ret 0
        else set_path_slot 0 (slot + 1) ;;; first_group_loop n key
  end.

Definition find_first_block_group (key : btrfs_key) : act world Z :=
  r <- btrfs_search_slot tenv fuel key 0 false ;;
  if r <? 0 then ret r else first_group_loop fuel key.

(** One round of [btrfs_read_block_groups]: the group of an item. *)
Definition read_block_group (found_key : btrfs_key) (used chunk_objectid flags : Z) : act (alloc_info T) unit :=
  let bit := if has_flag flags BTRFS_BLOCK_GROUP_DATA then BLOCK_GROUP_DATA
             else if has_flag flags BTRFS_BLOCK_GROUP_SYSTEM then BLOCK_GROUP_SYSTEM
             else if has_flag flags BTRFS_BLOCK_GROUP_METADATA then BLOCK_GROUP_METADATA else 0 in
  set_avail_alloc_bits flags ;;;
  t <- gets ai_mapping ;;
  ro <- assume_some (btrfs_chunk_readonly t (objectid found_key)) ;;
  space_info <- update_space_info flags (offset found_key) used ;;
  place_group (BlockGroup (objectid found_key) (offset found_key) used chunk_objectid flags space_info flags 0 false ro) bit ;;;
  ret tt.

Fixpoint read_groups_loop (n : nat) (id : Z) : act world Z :=
  match n with
  | O => bug
  | S n =>
      r <- find_first_block_group (BtrfsKey id BTRFS_BLOCK_GROUP_ITEM_KEY 0) ;;
      if 0 <? r then ret 0
      else if negb (r =? 0) then ret r
      else
        ls <- leaf_slot ;;
        let '(leaf, slot, d) := ls in
        let found_key := btrfs_item_key d slot in
        let p := btrfs_item_ptr_offset d slot in
        btrfs_release_path ;;;
        on_info (read_block_group found_key (get_le 8 d p) (get_le 8 d (p + 8)) (get_le 8 d (p + 16))) ;;;
        read_groups_loop n (u64 (objectid found_key + offset found_key))
  end.

Definition btrfs_read_block_groups : act world Z :=
  with_new_path (ae_mem env) (ret (- ENOMEM)) (read_groups_loop fuel 0).

(** [btrfs_free_block_groups]: the groups, the free ranges and the space infos.
    The free space caches of the groups are not modelled. *)
Fixpoint free_groups_loop (n : nat) : act (alloc_info T) unit :=
  match n with
  | O => bug
  | S n =>
      r <- on_bgc (io_find 0 U64_MAX) ;;
      match r with
      | None => ret tt
      | Some (start, last) =>
          p <- on_bgc (get_state_private start) ;;
          (if p.1 =? 0 then a <- assume_some p.2 ;; modify (fun x => put_groups (delete a (ai_groups x)) x) else ret tt) ;;;
          on_bgc (io_clear start last U64_MAX) ;;;
          free_groups_loop n
      end
  end.

Fixpoint free_ranges_loop (n : nat) : act (alloc_info T) unit :=
  match n with
  | O => bug
  | S n =>
      r <- on_free (io_find 0 EXTENT_DIRTY) ;;
      match r with
      | None => ret tt
      | Some (start, last) => on_free (io_clear start last EXTENT_DIRTY) ;;; free_ranges_loop n
      end
  end.

Definition btrfs_free_block_groups : act (alloc_info T) Z :=
  free_groups_loop fuel ;;; free_ranges_loop fuel ;;; modify (put_space []) ;;; ret 0.

(** ** Writing block groups *)

(** After a failed search the path is not released. *)
Definition write_one_cache_group (p : Z) : act world Z :=
  cache <- on_info (bg_get p) ;;
  r <- btrfs_search_slot tenv fuel (bg_key cache) 0 true ;;
  (if r <? 0 then ret tt
   else
     bug_on (negb (r =? 0)) ;;;
     ls <- leaf_slot ;;
     let '(leaf, slot, d) := ls in
     eb_write leaf (write_extent_buffer d (block_group_item cache) (btrfs_item_ptr_offset d slot)) ;;;
     btrfs_release_path) ;;;
  finish_current_insert env fuel held ;;;
  pending_ret <- del_pending_extents env fuel held ;;
  ret (if negb (r =? 0) then r else if negb (pending_ret =? 0) then pending_ret else 0).

Fixpoint write_dirty_loop (n : nat) (last : Z) : act world Z :=
  match n with
  | O => bug
  | S n =>
      r <- on_info (on_bgc (io_find last BLOCK_GROUP_DIRTY)) ;;
      match r with
      | None => if last =? 0 then ret 0 else write_dirty_loop n 0
      | Some (start, last) =>
          p <- on_info (on_bgc (get_state_private start)) ;;
          bug_on (negb (p.1 =? 0)) ;;;
          on_info (on_bgc (io_clear start last BLOCK_GROUP_DIRTY)) ;;;
          p <- assume_some p.2 ;;
          write_one_cache_group p ;;;
          write_dirty_loop n (u64 (last + 1))
      end
  end.

Definition btrfs_write_dirty_block_groups : act world Z :=
  with_new_path (ae_mem env) (ret (- ENOMEM)) (write_dirty_loop fuel 0).

(** ** Accounts from the items of the extent tree *)

Fixpoint pending_loop (n : nat) : act world Z :=
  match n with
  | O => bug
  | S n =>
      p <- on_info extent_root_pending_ops ;;
      if negb p then ret 0
      else
        r <- finish_current_insert env fuel held ;;
        if negb (r =? 0) then ret r
        else
          r <- del_pending_extents env fuel held ;;
          if negb (r =? 0) then ret r else pending_loop n
  end.

Fixpoint reset_groups_loop (n : nat) (start : Z) : act (alloc_info T) unit :=
  match n with
  | O => bug
  | S n =>
      p <- btrfs_lookup_first_block_group start ;;
      match p with
      | None => ret tt
      | Some p =>
          cache <- bg_get p ;;
          bg_put p (bg_with_used cache 0) ;;;
          s <- si_get (bg_space_info cache) ;;
          si_put (bg_space_info cache) (SpaceInfo (si_flags s) (si_total_bytes s) 0 (si_bytes_pinned s) (si_full s)) ;;;
          on_bgc (io_set (bg_objectid cache) (u64 (bg_end cache - 1)) BLOCK_GROUP_DIRTY) ;;;
          reset_groups_loop n (bg_end cache)
      end
  end.

(** The sum of the extents, each charged to its group; or the error. *)
Fixpoint count_extents_loop (n : nat) (bytes_used : Z) : act world (Z + Z) :=
  match n with
  | O => bug
  | S n =>
      ls <- leaf_slot ;;
      let '(leaf, slot, d) := ls in
      r <- (if btrfs_header_nritems d <=? slot then btrfs_next_leaf else ret 0) ;;
      if r <? 0 then ret (inl r)
      else if 0 <? r then ret (inr bytes_used)
      else
        ls <- leaf_slot ;;
        let '(leaf, slot, d) := ls in
        let key := btrfs_item_key d slot in
        let charge num_bytes :=
          r <- on_info (update_block_group (te_objectid tenv) (objectid key) num_bytes true false) ;;
          bug_on (negb (r =? 0)) ;;;
          ret (u64 (bytes_used + num_bytes)) in
        bytes_used <- (if type key =? BTRFS_EXTENT_ITEM_KEY then charge (offset key)
                       else if type key =? BTRFS_METADATA_ITEM_KEY then charge (leafsize (te_root tenv))
                       else ret bytes_used) ;;
        set_path_slot 0 (slot + 1) ;;;
        count_extents_loop n bytes_used
  end.

Definition btrfs_fix_block_accounting : act world Z :=
  r <- pending_loop fuel ;;
  if negb (r =? 0) then ret r
  else
    on_info (reset_groups_loop fuel 0) ;;;
    with_new_path true bug
      (r <- btrfs_search_slot tenv fuel (BtrfsKey 0 BTRFS_EXTENT_ITEM_KEY 0) 0 false ;;
       if r <? 0 then ret r
       else
         b <- count_extents_loop fuel 0 ;;
         match b with
         | inl err => ret err
         | inr bytes_used =>
             on_info (modify (fun x => put_used (ai_total_pinned x) bytes_used (ai_root_used x) x)) ;;;
             ret 0
         end).
End Groups.

(** ** Extents for other trees *)

Section Client.
Context {T : Type} `{RbTree T} (env : alloc_env) (fuel : nat) (held : Z -> buf).
Open Scope act_scope.

#[local] Instance below : ExtentTree (alloc_info T) := own_tree env fuel held.
Abbreviation world := (tree_world (alloc_info T)).
Abbreviation tenv := (ae_tree env).

(** [fenv] is the tree that calls.  Two functions work on trees that are not in
    the world: [alloc_chunk] is [btrfs_alloc_chunk], with the flags as its
    argument and the return value, the start and the size as its result;
    [del_csums] is [btrfs_del_csums]. *)
Context (fenv : tree_env) (alloc_chunk : Z -> act world (Z * Z * Z)) (del_csums : Z -> Z -> act world Z).

Definition do_chunk_alloc (alloc_bytes flags : Z) : act world Z :=
  found <- on_info (__find_space_info flags) ;;
  i <- match found with Some i => ret i | None => on_info (update_space_info flags 0 0) end ;;
  space_info <- on_info (si_get i) ;;
  if si_full space_info then ret 0
  else
    let thresh := div_factor (si_total_bytes space_info) 7 in
    if u64 (si_bytes_used space_info + si_bytes_pinned space_info + alloc_bytes) <? thresh then ret 0
    else
      c <- alloc_chunk (si_flags space_info) ;;
      let '(r, start, num_bytes) := (c : Z * Z * Z) in
      if r =? - ENOSPC then
        s <- on_info (si_get i) ;;
        on_info (si_put i (SpaceInfo (si_flags s) (si_total_bytes s) (si_bytes_used s) (si_bytes_pinned s) true)) ;;;
        ret 0
      else
        bug_on (negb (r =? 0)) ;;;
        r <- btrfs_make_block_group env fuel held 0 (si_flags space_info) BTRFS_FIRST_CHUNK_TREE_OBJECTID start num_bytes ;;
        bug_on (negb (r =? 0)) ;;;
        ret 0.

(** [btrfs_reserve_extent]: the start of the extent. *)
Definition btrfs_reserve_extent (num_bytes empty_size hint_byte : Z) (is_data : bool) : act world Z :=
  x <- gets tw_ext ;;
  let data := alloc_data_bits env x (te_objectid fenv =? BTRFS_CHUNK_TREE_OBJECTID) is_data in
  (if te_ref_cows fenv then
     (if negb (has_flag data BTRFS_BLOCK_GROUP_METADATA) then
        r <- do_chunk_alloc num_bytes BTRFS_BLOCK_GROUP_METADATA ;; bug_on (negb (r =? 0))
      else ret tt) ;;;
     r <- do_chunk_alloc (u64 (num_bytes + 2 * 1024 * 1024)) data ;;
     bug_on (negb (r =? 0))
   else ret tt) ;;;
  v <- gets view ;;
  on_info (reserve_found env fuel v num_bytes empty_size hint_byte data).

(** [alloc_tree_block] for a tree that is not the extent tree: the return value
    and the start. *)
Definition alloc_tree_block (num_bytes flags : Z) (key : btrfs_key) (level hint_byte : Z) : act world (Z * Z) :=
  start <- btrfs_reserve_extent num_bytes 0 hint_byte false ;;
  let ins := if ae_skinny_metadata env then BtrfsKey start BTRFS_METADATA_ITEM_KEY level
             else BtrfsKey start BTRFS_EXTENT_ITEM_KEY num_bytes in
  r <- alloc_reserved_tree_block env fuel held (te_objectid fenv) (te_objectid fenv) (te_transid tenv) flags key level ins ;;
  finish_current_insert env fuel held ;;;
  del_pending_extents env fuel held ;;;
  ret (r, start).

(** [btrfs_alloc_free_block]: an error, or the block with what its buffer
    holds. *)
Definition alloc_free_block_other (blocksize : Z) (key : btrfs_key) (level hint : Z) : act world (Z + Z * buf) :=
  let blocksize := u32 blocksize in
  r <- alloc_tree_block blocksize 0 key level hint ;;
  if negb (r.1 =? 0) then bug_on (0 <? r.1) ;;; ret (inl r.1)
  else ret (inr (r.2, held r.2)).

(** ** The references a block holds

    [process_func] is [btrfs_inc_extent_ref] or [btrfs_free_extent]. *)
Fixpoint mod_ref_loop (n : nat) (i : Z) (d : buf) (level parent ref_root : Z)
    (process_func : Z -> Z -> Z -> Z -> Z -> Z -> act world Z) : act world Z :=
  match n with
  | O => ret 0
  | S n =>
      let next := mod_ref_loop n (i + 1) d level parent ref_root process_func in
      let process bytenr num_bytes owner off :=
        r <- process_func bytenr num_bytes parent ref_root owner off ;; bug_on (negb (r =? 0)) ;;; next in
      if level =? 0 then
        let key := btrfs_item_key d i in
        if negb (type key =? BTRFS_EXTENT_DATA_KEY) then next
        else
          let fi := btrfs_item_ptr_offset d i in
          if btrfs_file_extent_type d fi =? BTRFS_FILE_EXTENT_INLINE then next
          else
            let bytenr := btrfs_file_extent_disk_bytenr d fi in
            if bytenr =? 0 then next
            else process bytenr (btrfs_file_extent_disk_num_bytes d fi) (objectid key)
                   (u64 (offset key - btrfs_file_extent_offset d fi))
      else
        process (btrfs_node_blockptr d i) (btrfs_level_size (te_root fenv) (level - 1)) (level - 1) 0
  end.

(** The buffer [d] begins at the address in its header. *)
Definition __btrfs_mod_ref (callers : gmap Z extent_buffer) (d : buf) (record_parent inc : bool) : act world Z :=
  let level := btrfs_header_level d in
  if negb (te_ref_cows fenv) && (level =? 0) then ret 0
  else
    let parent := if record_parent then btrfs_header_bytenr d else 0 in
    let process_func :=
      if inc then btrfs_inc_extent_ref env fuel held
      else free_extent_other env fuel held del_csums callers (te_objectid fenv) in
    mod_ref_loop (Z.to_nat (btrfs_header_nritems d)) 0 d level parent (btrfs_header_owner d) process_func.

Definition btrfs_inc_ref (callers : gmap Z extent_buffer) (d : buf) (record_parent : bool) : act world Z :=
  __btrfs_mod_ref callers d record_parent true.
Definition btrfs_dec_ref (callers : gmap Z extent_buffer) (d : buf) (record_parent : bool) : act world Z :=
  __btrfs_mod_ref callers d record_parent false.

(** The extent tree for the tree [fenv]: its own tree, with the allocator below,
    is the state behind the interface.  A reference count that was not set is not
    read. *)
Definition other_tree : ExtentTree world := {|
  alloc_free_block blocksize key level hint _ := alloc_free_block_other blocksize key level hint;
  free_extent bytenr num_bytes owner off v :=
    free_extent_other env fuel held del_csums (tv_blocks v) (te_objectid fenv) bytenr num_bytes 0 (te_objectid fenv) owner off;
  lookup_extent_info bytenr level _ :=
    r <- btrfs_lookup_extent_info tenv (ae_mem env) fuel (ae_skinny_metadata env) bytenr level true ;;
    if negb (r.1 =? 0) then ret (r.1, 0, 0)
    else i <- assume_some r.2 ;; ret (0, i.1, i.2);
  inc_ref d full v := btrfs_inc_ref (tv_blocks v) d full;
  dec_ref d full v := btrfs_dec_ref (tv_blocks v) d full;
  set_block_flags bytenr level flags _ := btrfs_set_block_flags env fuel held bytenr level flags;
|}.

(** ** A file extent with its extent item

    The world of the tree [fenv], with the extent tree behind it. *)
#[local] Instance other : ExtentTree world := other_tree.

Definition on_extent_tree {A} : act world A -> act (tree_world world) A :=
  zoom tw_ext (fun x w => TreeWorld (tw_blocks w) (tw_node w) (tw_path w) x).

Definition record_extent_item (disk_bytenr num_bytes : Z) : act world Z :=
  with_new_path true bug
    (r <- btrfs_insert_empty_items tenv fuel [(BtrfsKey disk_bytenr BTRFS_EXTENT_ITEM_KEY num_bytes, sizeof_extent_item)] ;;
     if r =? 0 then
       ls <- leaf_slot ;;
       let '(leaf, slot, d) := ls in
       let ei := btrfs_item_ptr_offset d slot in
       let d := btrfs_set_extent_refs d ei 0 in
       let d := btrfs_set_extent_generation d ei 0 in
       eb_write leaf (btrfs_set_extent_flags d ei BTRFS_EXTENT_FLAG_DATA) ;;;
       on_info (btrfs_update_block_group (te_objectid fenv) disk_bytenr num_bytes true false)
     else if negb (r =? - EEXIST) then ret r
     else ret 0).

(** The return value, and the [nbytes] of the inode. *)
Definition btrfs_record_file_extent (objectid nbytes file_pos disk_bytenr num_bytes : Z) : act (tree_world world) (Z * Z) :=
  if disk_bytenr =? 0 then
    r <- btrfs_insert_file_extent fenv true fuel objectid file_pos disk_bytenr num_bytes num_bytes ;; ret (r, nbytes)
  else
    with_new_path true bug
      (r <- btrfs_insert_empty_items fenv fuel [(BtrfsKey objectid BTRFS_EXTENT_DATA_KEY file_pos, sizeof_file_extent_item)] ;;
       if negb (r =? 0) then ret (r, nbytes)
       else
         ls <- leaf_slot ;;
         let '(leaf, slot, d) := ls in
         eb_write leaf (fill_file_extent d (btrfs_item_ptr_offset d slot) (te_transid fenv) disk_bytenr num_bytes num_bytes) ;;;
         let nbytes := u64 (nbytes + num_bytes) in
         r <- on_extent_tree (record_extent_item disk_bytenr num_bytes) ;;
         if negb (r =? 0) then ret (r, nbytes)
         else
           on_extent_tree (btrfs_extent_post_op env fuel held) ;;;
           r <- on_extent_tree (btrfs_inc_extent_ref env fuel held disk_bytenr num_bytes 0 (te_objectid fenv) objectid file_pos) ;;
           ret (r, nbytes)).
End Client.
