(* ===== verification/ExtentRefProps.v ===== *)
(** What taking and giving up references to extents guarantees, and the layout of
    the block groups of a converted file system. *)

From stdpp Require Import sorting.
From S2P Require Import Prelude RbSpec RbTree RbShape RbInsert RbErase RbInstance ExtentCache ExtentIo.
From S2P Require Import ExtentIoInv ExtentIoSpec Buf CtreeFmt ItemFmt LeafOps LeafSpec NodeOps LeafProps.
From S2P Require Import TreeWorld TreeBalance TreeOps DirItem TreeSpec TreeSearch TreeWalk TreeFrame TreeInsert.
From S2P Require Import TreeItem PackSpec DirSpec TreeDemo Volumes ExtentAlloc ExtentAllocSpec ExtentAllocProps.
From S2P Require Import ExtentItem ExtentItemSpec ExtentRef ExtentRefSpec ExtentOps ExtentOpsSpec ExtentClient.

Lemma item_at_spot pre A k d B post :
  sorted_keys ((pre ++ (A ++ (k, d) :: B) ++ post).*1) -> item_at (pre ++ (A ++ (k, d) :: B) ++ post) k = Some d.
Proof.
  intros Hs%sorted_keys_NoDup. rewrite <- (assoc_L (++)) in Hs |- *. simpl in *. rewrite (assoc_L (++)) in Hs |- *.
  by apply item_at_middle.
Qed.

Section Props.
Context {T : Type} `{RbTreeLaws T} (env : alloc_env) (fuel : nat) (held : Z -> buf).
#[local] Instance own_ext : ExtentTree (alloc_info T) := own_tree env fuel held.

Abbreviation root := (te_root (ae_tree env)).
Abbreviation tenv := (ae_tree env).




(** taking a reference and giving it up again restores the items of the
    extent tree. *)
Theorem inc_free_roundtrip del_csums callers (tree : Z) (w : tree_world (alloc_info T)) n (b : Z) (L : list item) (k : btrfs_key)
  (x : extent) (bytenr num_bytes parent root_objectid owner off : Z) (Hroot : root_ok root) (Hok : tree_ok tenv w n b L)
  (Hidle : no_pending (tw_ext w)) (Hmem : ae_mem env = true) (Hfuel : (n < fuel)%nat) (Hsec : ae_sectorsize env <= num_bytes)
  (Hroom : has_room tenv (tw_blocks w) n b (ref_size (wanted_ref parent root_objectid owner off)))
  (Hfull : searchable tenv (tw_blocks w) n b (-1)) (Hitem : extent_item_in env bytenr num_bytes owner L k x)
  (Hinfo : block_info_ok owner k x) (Hfits : goes_inline tenv bytenr parent root_objectid owner off L k x)
  (Hwant : ref_ok (wanted_ref parent root_objectid owner off))
  (Hcount : count_ok (wanted_ref parent root_objectid owner off)
              (default 0 (refs_map (ex_irefs x) !! wanted_ref parent root_objectid owner off) + 1))
  (Hrefs : 0 < ex_refs x < 2 ^ 64 - 1) :
  exists w1 w2, btrfs_inc_extent_ref env fuel held bytenr num_bytes parent root_objectid owner off w = Some (0, w1) /\
    free_extent_other env fuel held del_csums callers tree bytenr num_bytes parent root_objectid owner off w1 = Some (0, w2) /\
    tree_ok tenv w2 n b L.
Proof. by apply (inc_free_run env fuel held Hroot bytenr num_bytes parent root_objectid owner off del_csums callers tree w n b L k x). Qed.
End Props.

(** [btrfs_lookup_extent_info] finds the counts and the flags of an extent in
    any readable tree, whoever wrote it, under a key of the new or of the old
    kind, and changes nothing. *)
Theorem lookup_extent_info_correct {X : Type} `{ExtentTree X} (tenv : tree_env) (w : tree_world X) n (b : Z) (L : list item)
  (bytenr off : Z) (skinny metadata : bool) (fuel : nat) (k : btrfs_key) (sk' : bool) (x : extent) (Hroot : root_ok (te_root tenv))
  (Hnode : tw_node w = Some b) (Htree : subtree (te_root tenv) (tw_blocks w) n b L) (Hsorted : sorted_keys (L.*1))
  (Hdepth : (n < 7)%nat) (Hfuel : (n < fuel)%nat)
  (Hfound : found_as L bytenr (leafsize (te_root tenv))
     (if metadata && skinny then BtrfsKey bytenr BTRFS_METADATA_ITEM_KEY off
      else BtrfsKey bytenr BTRFS_EXTENT_ITEM_KEY (if metadata then leafsize (te_root tenv) else off)) (metadata && skinny) k sk')
  (Hitem : item_at L k = Some (extent_bytes x)) (Hx : extent_ok sk' x) :
  btrfs_lookup_extent_info tenv true fuel skinny bytenr off metadata w = Some (0, Some (ex_refs x, ex_flags x), w).
Proof.
  unfold btrfs_lookup_extent_info.
  set (key := if metadata && skinny then _ else _) in Hfound.
  match goal with |- context [with_new_path true ?f ?body] => assert (Hkey : exists p, body (with_path w btrfs_init_path) =
    Some ((0, Some (ex_refs x, ex_flags x)), with_path w p)) end.
  { replace (BtrfsKey bytenr _ _) with key by (subst key; by destruct metadata, skinny). set (w0 := with_path w btrfs_init_path).
    destruct (lookup_extent_run tenv Hroot w0 n b L key (metadata && skinny) bytenr (leafsize (te_root tenv)) fuel k sk')
      as (p & lb & pre & A & d & B & post & e & Hrun & HL & Hv); [done..|].
    assert (d = extent_bytes x) as -> by (rewrite HL, (item_at_spot pre) in Hitem by (by rewrite <- HL); by injection Hitem).
    rewrite (bind_some _ _ _ _ _ Hrun). cbn [negb Z.eqb]. rewrite (bind_some _ _ _ _ _ (leaf_slot_run tenv _ _ _ _ _ _ _ Hv)).
    pose proof (extent_bytes_length x) as Hlx. unfold head_size in Hlx.
    rewrite (iv_size _ _ _ _ _ _ _ _ Hv), (proj2 (Z.leb_le sizeof_extent_item _)) by (unfold sizeof_extent_item; lia).
    destruct (view_extent tenv _ _ _ _ _ _ _ _ Hv Hx) as [-> -> _]. by exists p. }
  destruct Hkey as [p Hbody]. rewrite (new_path_run w _ _ _ _ Hbody). by destruct w.
Qed.

(** ** An extent tree of one leaf

    The leaf is in the used part of the group of [demo_alloc].  It says that the
    file 257 of tree 5 refers twice to the extent at 200704; the extent at 212992
    has one reference by the block 4096, which has an item of its own. *)

Definition twice_used : extent := Extent 2 7 BTRFS_EXTENT_FLAG_DATA [] [InlineRef (DataRef 5 257 0) 2].
Definition used_apart : extent := Extent 1 7 BTRFS_EXTENT_FLAG_DATA [] [].
Definition twice_key : btrfs_key := BtrfsKey 200704 BTRFS_EXTENT_ITEM_KEY 4096.
Definition apart_key : btrfs_key := BtrfsKey 212992 BTRFS_EXTENT_ITEM_KEY 4096.

Definition demo_extents : list item :=
  [(twice_key, extent_bytes twice_used); (apart_key, extent_bytes used_apart);
   (own_key 212992 (SharedDataRef 4096), own_bytes (SharedDataRef 4096) 1)].
Definition refs_leaf : buf := foldl (put_item small_root) (blank 7 0) demo_extents.
Definition refs_world : tree_world (alloc_info rb_mem) :=
  TreeWorld {[ 131072 := ExtentBuffer 4096 false refs_leaf ]} (Some 131072) btrfs_init_path demo_alloc.

Lemma refs_leaf_block : leaf_block small_root (tw_blocks refs_world) 131072 demo_extents.
Proof.
  eexists. split; [reflexivity|]. split; [reflexivity|]. split; [vm_compute; reflexivity|].
  split; vm_compute; congruence.
Qed.

Lemma refs_sorted : sorted_keys (demo_extents.*1).
Proof. repeat constructor. Qed.

Lemma refs_blocks : tree_blocks (tw_blocks refs_world) 0 131072 = [131072].
Proof. reflexivity. Qed.

Lemma refs_tree_ok : tree_ok demo_env refs_world 0 131072 demo_extents.
Proof.
  split; [done|exact refs_leaf_block|exact refs_sorted|lia|rewrite refs_blocks; apply NoDup_singleton|].
  intros _. split; [done|]. rewrite refs_blocks. intros b e ->%list_elem_of_singleton.
  intros [= <-]. vm_compute. reflexivity.
Qed.

Lemma refs_room : has_room demo_env (tw_blocks refs_world) 0 131072 100.
Proof.
  unfold has_room. rewrite refs_blocks. split.
  - intros a i ps ->%list_elem_of_singleton (e & He & Hlev & _). revert He Hlev. intros [= <-]. vm_compute. discriminate.
  - intros a l ->%list_elem_of_singleton Hl.
    rewrite (leaf_room_same demo_env small_root_ok _ 131072 l demo_extents Hl refs_leaf_block). vm_compute. discriminate.
Qed.

Lemma refs_searchable : searchable demo_env (tw_blocks refs_world) 0 131072 (-1).
Proof.
  split; [lia|]. rewrite refs_blocks. intros _ a i ps ->%list_elem_of_singleton (e & He & Hlev & _).
  revert He Hlev. intros [= <-]. vm_compute. discriminate.
Qed.

Lemma refs_idle : no_pending (tw_ext refs_world).
Proof.
  exists (flag_of []), (flag_of []). split; [exists []; split; [apply no_states_ok|done]|].
  split; [exists []; split; [apply no_states_ok|done]|]. by split.
Qed.

Lemma one_ref_ok (i : inline_ref) : iref_ok i -> irefs_ok [i].
Proof. intros Hi. by split; [constructor|repeat constructor|apply NoDup_singleton]. Qed.

Lemma twice_ok : extent_ok false twice_used.
Proof.
  split; [unfold u64_ok; simpl; lia|by split|by right|done|]. apply one_ref_ok. split; simpl; unfold u64_ok; lia.
Qed.


Lemma twice_in owner : extent_item_in demo_alloc_env 200704 4096 owner demo_extents twice_key twice_used.
Proof. split; [|by vm_compute|exact twice_ok]. left. cbn [ae_skinny_metadata demo_alloc_env]. rewrite andb_false_r. split; [done|]. split; [done|]. by left. Qed.


Abbreviation held0 := (fun _ _ => 0).




Lemma inc_free_roundtrip_witness :
  exists w1 w2, btrfs_inc_extent_ref demo_alloc_env 1 held0 200704 4096 0 6 300 8192 refs_world = Some (0, w1) /\
    free_extent_other demo_alloc_env 1 held0 (fun _ _ => ret 0) ∅ 6 200704 4096 0 6 300 8192 w1 = Some (0, w2) /\
    tree_ok demo_env w2 0 131072 demo_extents.
Proof.
  apply (inc_free_roundtrip demo_alloc_env 1 held0 (fun _ _ => ret 0) ∅ 6 refs_world 0 131072 demo_extents twice_key twice_used
    200704 4096 0 6 300 8192 small_root_ok refs_tree_ok refs_idle eq_refl ltac:(lia) ltac:(simpl; lia)).
  - apply (room_less demo_env _ 0 131072 100 _ refs_room). vm_compute. discriminate.
  - exact refs_searchable.
  - exact (twice_in _).
  - intros Hn. exfalso. revert Hn. vm_compute. discriminate.
  - right. by vm_compute.
  - unfold wanted_ref, ref_ok, u64_ok. simpl. lia.
  - vm_compute. by split.
  - simpl. lia.
Defined.

#[local] Instance refs_ext : ExtentTree (alloc_info rb_mem) := own_tree demo_alloc_env 1 held0.

Lemma lookup_extent_info_correct_witness :
  btrfs_lookup_extent_info demo_env true 1 true 200704 4096 false refs_world = Some (0, Some (2, 1), refs_world).
Proof.
  apply (lookup_extent_info_correct demo_env refs_world 0 131072 demo_extents 200704 4096 true false 1 twice_key false twice_used
    small_root_ok eq_refl refs_leaf_block refs_sorted ltac:(lia) ltac:(lia)).
  - left. split; [reflexivity|]. split; [reflexivity|]. left.
  - vm_compute. reflexivity.
  - exact twice_ok.
Defined.

(** ** The block groups of a converted file system *)

(** Consecutive ranges, none of them empty, from [a] to [c]. *)
Fixpoint tiles (a c : Z) (l : list (Z * Z * Z)) : Prop :=
  match l with
  | [] => a = c
  | (start, size, _) :: l => start = a /\ 0 < size /\ tiles (a + size) c l
  end.

Lemma align_down x k : 0 <= x < 2 ^ 64 -> 0 <= k -> Z.land x (u64 (Z.lnot (2 ^ k - 1))) = x / 2 ^ k * 2 ^ k.
Proof.
  intros Hx Hk. replace (2 ^ k - 1) with (Z.ones k) by (rewrite Z.ones_equiv; lia).
  transitivity (Z.ldiff x (Z.ones k)); [|by rewrite Z.ldiff_ones_r, Z.shiftl_mul_pow2, Z.shiftr_div_pow2].
  apply Z.bits_inj'. intros i Hi. rewrite Z.ldiff_spec, Z.land_spec.
  destruct (Z.lt_ge_cases i 64) as [Hlt|Hge].
  - unfold u64. by rewrite Z.mod_pow2_bits_low, Z.lnot_spec by lia.
  - assert (Z.testbit x i = false) as ->; [|done]. destruct (Z.eq_dec x 0) as [->|]; [apply Z.bits_0|].
    apply Z.bits_above_log2; [lia|]. apply Z.lt_le_trans with 64; [apply Z.log2_lt_pow2; lia|done].
Qed.

Lemma div_mul_bounds q a c : 0 < a -> c * a <= q -> c * a <= q / a * a /\ q / a * a <= q < q / a * a + a.
Proof.
  intros Ha Hq. pose proof (Z.div_mod q a ltac:(lia)) as Hd. pose proof (Z.mod_pos_bound q a Ha) as Hm.
  assert (c <= q / a) by (apply Z.div_le_lower_bound; lia). nia.
Qed.

Section Layout.
Context (total k : Z) (Hk : 0 <= k <= 26) (Hmin : 204 * 2 ^ k <= total) (Hfirst : 8 * 1024 * 1024 + 4 * 2 ^ k <= total)
  (Hmax : total < 2 ^ 61).
Abbreviation align := (2 ^ k).

Lemma align_pos : 0 < align <= 2 ^ 26.
Proof using Hk. clear -Hk. split; [apply Z.pow_pos_nonneg; lia|apply Z.pow_le_mono_r; lia]. Qed.

(** What is left is nothing, or enough for the next group. *)
Lemma next_group_fits cur (td tm : Z) : 0 < cur -> 4 * align <= total - cur ->
  let g := (next_group total align cur td tm).1 in
  0 < g /\ (cur + g = total \/ align <= g /\ 4 * align <= total - (cur + g)).
Proof using Hk Hmin Hmax.
  clear Hfirst. intros Hc Hr. pose proof align_pos as Ha. unfold next_group. rewrite (proj2 (Z.eqb_neq _ _)) by lia. cbn [fst].
  rewrite (u64_id (total - cur)) by lia. set (q := Z.min (total / 12) (total - cur)).
  assert (Hq : 4 * align <= q <= total - cur) by (subst q; zlia).
  assert (Hbig : q = total - cur \/ 16 * align + align <= q) by (subst q; zlia). clearbody q. rewrite align_down by lia.
  set (m := q / align * align).
  assert (Hm : 4 * align <= m /\ m <= q < m + align) by (apply (div_mul_bounds q align 4); lia). clearbody m.
  set (cap := if u64 (tm * 2) <=? td then _ else _).
  assert (Hcap : 16 * align <= cap <= 5 * 1024 * 1024 * 1024) by (subst cap; destruct (_ <=? _); lia). clearbody cap.
  rewrite (u64_id ((total - cur) * 4)) by lia. rewrite (u64_id (Z.min m cap * 5)) by lia.
  destruct (Z.ltb_spec ((total - cur) * 4) (Z.min m cap * 5)); lia.
Qed.

Lemma group_layout_from n cur (td tm : Z) :
  0 < cur -> cur = total \/ 4 * align <= total - cur -> total - cur < Z.of_nat n * align ->
  exists l, group_layout n total align cur td tm = Some l /\ tiles cur total l.
Proof using Hk Hmin Hmax.
  clear Hfirst. pose proof align_pos as Ha. revert cur td tm. induction n as [|n IH]; intros cur td tm Hc Hcur Hn.
  { assert (cur = total) as -> by lia. exists []. cbn [group_layout]. by rewrite Z.leb_refl. }
  cbn [group_layout]. destruct (Z.leb_spec total cur) as [|Hlt].
  { exists []. split; [done|]. simpl. lia. }
  pose proof (next_group_fits cur td tm Hc ltac:(lia)) as Hg. destruct (next_group total align cur td tm) as [g ty]. cbn [fst] in Hg.
  destruct (next_totals total align cur td tm) as [td' tm']. rewrite u64_id by lia.
  destruct (IH (cur + g) td' tm') as (l & Hl & Ht); [lia|lia|lia|].
  exists ((cur, g, ty) :: l). rewrite Hl. split; [done|]. split_and!; (done || lia).
Qed.

Lemma group_layout_run n : total < Z.of_nat n * align ->
  exists l, group_layout (S n) total align 0 0 0 = Some l /\ tiles 0 total l.
Proof using Hk Hmin Hfirst Hmax.
  intros Hn. pose proof align_pos as Ha. cbn [group_layout]. rewrite (proj2 (Z.leb_gt _ _)) by lia.
  unfold next_group, next_totals. cbn [Z.eqb]. rewrite Z.sub_0_r, (u64_id total) by lia.
  set (q := Z.min (total / 12) total). assert (Hq : 0 <= q / 4 <= total / 48) by (subst q; zlia). clearbody q.
  rewrite align_down by zlia. set (m := q / 4 / align * align). assert (Hm : 0 <= m <= total / 48) by (pose proof (div_mul_bounds (q / 4) align 0); lia). clearbody m.
  set (g := Z.min (Z.max m _) _). assert (Hg : 0 < g /\ 4 * align <= total - g) by (subst g; zlia). clearbody g.
  rewrite Z.add_0_l, u64_id by lia.
  destruct (group_layout_from n g 0 0) as (l & Hl & Ht); [lia|lia|lia|].
  exists ((0, g, BTRFS_BLOCK_GROUP_SYSTEM) :: l). rewrite Hl. split; [done|]. split_and!; (done || lia).
Qed.
End Layout.

(** C22: [btrfs_make_block_groups] lays out the whole device: the groups follow
    one another without a gap from 0 to [total_bytes], and the loop ends, when
    the device is at least 204 times the alignment of the groups (51 MiB for
    sectors of 4 KiB). *)
Theorem block_groups_tile (total k : Z) (n : nat) (Hk : 0 <= k <= 26) (Hmin : 204 * 2 ^ k <= total)
  (Hfirst : 8 * 1024 * 1024 + 4 * 2 ^ k <= total) (Hmax : total < 2 ^ 61) (Hn : total < Z.of_nat n * 2 ^ k) :
  exists l, group_layout (S n) total (2 ^ k) 0 0 0 = Some l /\ tiles 0 total l.
Proof. by apply group_layout_run. Qed.

Lemma block_groups_tile_witness :
  exists l, group_layout 260 (64 * 1024 * 1024) (2 ^ 18) 0 0 0 = Some l /\ tiles 0 (64 * 1024 * 1024) l /\ length l = 12%nat.
Proof.
  destruct (block_groups_tile (64 * 1024 * 1024) 18 259 ltac:(lia) ltac:(lia) ltac:(lia) ltac:(lia) ltac:(lia)) as (l & Hl & Ht).
  exists l. split; [exact Hl|]. split; [exact Ht|].
  assert (He : length <$> group_layout 260 (64 * 1024 * 1024) (2 ^ 18) 0 0 0 = Some 12%nat) by (vm_compute; reflexivity).
  rewrite Hl in He. simpl in He. congruence.
Defined.

Lemma layout_stuck n td tm : group_layout n 9043968 (2 ^ 18) 8912896 td tm = None.
Proof.
  revert td tm. induction n as [|n IH]; intros td tm; [done|]. cbn [group_layout].
  change (9043968 <=? 8912896) with false. cbv iota.
  assert (Hg : (next_group 9043968 (2 ^ 18) 8912896 td tm).1 = 0).
  { unfold next_group. change (8912896 =? 0) with false. cbv iota. cbn [fst].
    destruct (u64 (tm * 2) <=? td); by vm_compute. }
  destruct (next_group _ _ _ _ _) as [g ty]. cbn [fst] in Hg. subst g. destruct (next_totals _ _ _ _ _) as [td' tm'].
  by rewrite IH.
Qed.

(** the loop of [btrfs_make_block_groups] does not end on every device: on
    one of 8832 KiB, with sectors of 4 KiB, what is left behind the second group
    is less than the alignment, and empty groups follow for ever. *)
Theorem block_groups_stuck (n : nat) : group_layout n 9043968 (64 * 4096) 0 0 0 = None.
Proof.
  destruct n as [|[|n]]; [done..|].
  change (group_layout (S (S n)) 9043968 (64 * 4096) 0 0 0) with
    (l ← (l ← group_layout n 9043968 (2 ^ 18) 8912896 0 524288; Some ((8388608, 524288, BTRFS_BLOCK_GROUP_METADATA) :: l));
     Some ((0, 8388608, BTRFS_BLOCK_GROUP_SYSTEM) :: l)).
  by rewrite layout_stuck.
Qed.
