(* ===== verification/Raid6.v ===== *)
(** The RAID 6 syndrome of [src/raid6.c].

    The code computes on eight bytes at a time; a word is loaded from and stored
    to the buffers in little-endian order (no other order makes a difference).
    [gf_double] is what it does to each byte: doubling in the field of 256
    elements with the polynomial 0x11d. *)

From S2P Require Import Prelude Buf.

(** ** The code, for [BITS_PER_LONG == 64] *)

Definition NSIZE : Z := 8.
Definition NBYTES (x : Z) : Z := u64 (x * 0x0101010101010101).

Definition SHLBYTE (v : Z) : Z := Z.land (u64 (Z.shiftl v 1)) (NBYTES 0xfe).

Definition MASK (v : Z) : Z :=
  let vv := Z.land v (NBYTES 0x80) in u64 (u64 (Z.shiftl vv 1) - Z.shiftr vv 7).

(** One disk more, in a word of the syndrome. *)
Definition syndrome_step (wq0 wd0 : Z) : Z :=
  let w20 := MASK wq0 in
  let w10 := SHLBYTE wq0 in
  let w20 := Z.land w20 (NBYTES 0x1d) in
  let w10 := Z.lxor w10 w20 in
  Z.lxor w10 wd0.

(** The inner loop, over the disks from [z0 - 1] down. *)
Fixpoint syndrome_words (disks : list buf) (d wp0 wq0 : Z) : Z * Z :=
  match disks with
  | [] => (wp0, wq0)
  | z :: disks => let wd0 := get_le 8 z d in syndrome_words disks d (Z.lxor wp0 wd0) (syndrome_step wq0 wd0)
  end.

(** The outer loop: [n] words from [d] on. *)
Fixpoint syndrome_loop (top : buf) (disks : list buf) (n : nat) (d : Z) (p q : buf) : buf * buf :=
  match n with
  | O => (p, q)
  | S n =>
      let w := get_le 8 top d in
      let '(wp0, wq0) := syndrome_words disks d w w in
      syndrome_loop top disks n (d + NSIZE) (put_le 8 d wp0 p) (put_le 8 d wq0 q)
  end.

(** The buffers of the parity and of the syndrome are not among those of the
    data.  [None]: an index before the array. *)
Definition raid6_gen_syndrome (disks bytes : Z) (ptrs : list buf) : option (list buf) :=
  if disks <? 3 then None
  else
    let z0 := Z.to_nat (disks - 3) in
    top ← ptrs !! z0;
    p ← ptrs !! S z0;
    q ← ptrs !! S (S z0);
    let '(p, q) := syndrome_loop top (reverse (take z0 ptrs)) (Z.to_nat ((bytes + 7) / 8)) 0 p q in
    Some (<[S (S z0) := q]> (<[S z0 := p]> ptrs)).

(** ** The field *)

Definition gf_double (b : Z) : Z := if b <? 128 then 2 * b else Z.lxor (2 * b) 0x11d.

(** The parity and the syndrome of a list of bytes, one of each data disk:
    [d0 + d1 + ...] and [d0 + 2 d1 + 4 d2 + ...]. *)
Definition gf_parity (l : list Z) : Z := foldr Z.lxor 0 l.
Definition gf_syndrome (l : list Z) : Z := foldr (fun b q => Z.lxor (gf_double q) b) 0 l.

Definition in_byte (b : Z) : Prop := 0 <= b < 256.

(** A property of all bytes, by computing it. *)
Lemma all_bytes (P : Z -> bool) : forallb (fun k => P (Z.of_nat k)) (seq 0 256) = true -> forall b, in_byte b -> P b = true.
Proof.
  rewrite forallb_forall. intros Hall b Hb. rewrite <- (Z2Nat.id b) by apply Hb. apply Hall, in_seq. unfold in_byte in Hb. lia.
Qed.

(** ** Words of bytes *)

Fixpoint le (l : list Z) : Z := match l with [] => 0 | b :: l => b + 256 * le l end.

Lemma le_range l : Forall in_byte l -> 0 <= le l < 256 ^ Z.of_nat (length l).
Proof.
  induction 1 as [|b l Hb _ IH]; [cbn; lia|]. cbn [le length]. rewrite Nat2Z.inj_succ, Z.pow_succ_r by lia.
  unfold in_byte in Hb. lia.
Qed.

Lemma bits_cons b x i : in_byte b -> 0 <= i ->
  Z.testbit (b + 256 * x) i = if i <? 8 then Z.testbit b i else Z.testbit x (i - 8).
Proof.
  intros Hb Hi. replace (b + 256 * x) with (x * 2 ^ 8 + b) by lia. destruct (Z.ltb_spec i 8).
  - rewrite <- (Z.mod_pow2_bits_low (x * 2 ^ 8 + b) 8 i) by lia. f_equal. rewrite Z.add_comm, Z.mod_add by lia.
    by apply Z.mod_small.
  - replace i with (i - 8 + 8) at 1 by lia. rewrite <- Z.div_pow2_bits by lia. rewrite Z.div_add_l by lia.
    rewrite Z.div_small by exact Hb. by rewrite Z.add_0_r.
Qed.

Lemma byte_op f (op : Z -> Z -> Z) b x c y :
  (forall a e i, Z.testbit (op a e) i = f (Z.testbit a i) (Z.testbit e i)) -> f false false = false ->
  in_byte b -> in_byte c -> in_byte (op b c) /\ op (b + 256 * x) (c + 256 * y) = op b c + 256 * op x y.
Proof.
  intros Hop Hf Hb Hc. assert (Hhigh : forall e i, in_byte e -> 8 <= i -> Z.testbit e i = false).
  { intros e i He Hi. destruct (Z.eq_dec e 0) as [->|]; [apply Z.bits_0|]. apply Z.bits_above_log2; [apply He|].
    apply Z.lt_le_trans with 8; [|done]. apply log2_lt_bits; [lia|exact He]. }
  assert (Hin : in_byte (op b c)).
  { assert (Heq : op b c = op b c mod 2 ^ 8).
    { apply Z.bits_inj'. intros i Hi. destruct (Z.lt_ge_cases i 8).
      - by rewrite Z.mod_pow2_bits_low by lia.
      - rewrite Z.mod_pow2_bits_high by lia. by rewrite Hop, !Hhigh by done. }
    rewrite Heq. apply Z.mod_pos_bound. lia. }
  split; [done|]. apply Z.bits_inj'. intros i Hi. rewrite Hop, !bits_cons by done.
  destruct (i <? 8); by rewrite Hop.
Qed.

Lemma le_op f (op : Z -> Z -> Z) l k :
  (forall a e i, Z.testbit (op a e) i = f (Z.testbit a i) (Z.testbit e i)) -> f false false = false ->
  Forall in_byte l -> Forall in_byte k -> length l = length k ->
  Forall in_byte (zip_with op l k) /\ op (le l) (le k) = le (zip_with op l k).
Proof.
  intros Hop Hf Hl. revert k. induction Hl as [|b l Hb Hl IH]; intros k Hk Hlen.
  - destruct k; [|done]. simpl. split; [constructor|]. apply Z.bits_inj'. intros i Hi. by rewrite Hop, !Z.bits_0.
  - destruct Hk as [|c k Hc Hk]; [done|]. cbn [zip_with le]. destruct (byte_op f op b (le l) c (le k) Hop Hf Hb Hc) as [Hin ->].
    destruct (IH k Hk) as [Hall ->]; [by injection Hlen|]. split; [by constructor|done].
Qed.

Lemma le_xor l k : Forall in_byte l -> Forall in_byte k -> length l = length k ->
  Forall in_byte (zip_with Z.lxor l k) /\ Z.lxor (le l) (le k) = le (zip_with Z.lxor l k).
Proof. apply (le_op xorb); [intros; apply Z.lxor_spec|done]. Qed.

Lemma le_and l k : Forall in_byte l -> Forall in_byte k -> length l = length k ->
  Forall in_byte (zip_with Z.land l k) /\ Z.land (le l) (le k) = le (zip_with Z.land l k).
Proof. apply (le_op andb); [intros; apply Z.land_spec|done]. Qed.

(** The same byte everywhere. *)
Lemma NBYTES_le c (l : list Z) : in_byte c -> length l = 8%nat -> NBYTES c = le ((fun _ => c) <$> l).
Proof.
  intros Hc Hl. do 8 (destruct l as [|? l]; [done|]). destruct l; [|done]. simpl. unfold NBYTES, in_byte in *.
  rewrite u64_id; lia.
Qed.

Lemma le_and_const c l : in_byte c -> Forall in_byte l -> length l = 8%nat ->
  Forall in_byte ((fun b => Z.land b c) <$> l) /\ Z.land (le l) (NBYTES c) = le ((fun b => Z.land b c) <$> l).
Proof.
  intros Hc Hl Hlen. rewrite (NBYTES_le c l Hc Hlen).
  assert (Hz : zip_with Z.land l ((fun _ => c) <$> l) = (fun b => Z.land b c) <$> l) by (clear; induction l as [|? l IH]; [done|]; cbn [fmap list_fmap zip_with] in *; by rewrite <- IH).
  rewrite <- Hz. apply le_and; [done| |by rewrite length_fmap]. by apply Forall_fmap, Forall_true.
Qed.

Definition low_double (b : Z) : Z := (2 * b) mod 256.
Definition top_mask (b : Z) : Z := 255 * (b / 128).

Lemma land_mod64 x c : 0 <= c < 2 ^ 64 -> Z.land (u64 x) c = Z.land x c.
Proof.
  intros Hc. unfold u64. rewrite <- Z.land_ones by lia. rewrite <- Z.land_assoc, (Z.land_comm (Z.ones 64)), Z.land_ones by lia.
  by rewrite Z.mod_small.
Qed.

(** Shifting by one bit; the carry goes to a bit that is masked. *)
Lemma double_carry l c : Forall in_byte l -> 0 <= c <= 1 ->
  Z.land (2 * le l + c) (le ((fun _ => 0xfe) <$> l)) = le (low_double <$> l).
Proof.
  intros Hl. revert c. induction Hl as [|b l Hb Hl IH]; intros c Hc; [by rewrite Z.land_0_r|].
  cbn [le fmap list_fmap].
  assert (Hd : 2 * (b + 256 * le l) + c = (low_double b + c) + 256 * (2 * le l + b / 128)) by (unfold low_double, in_byte in *; zlia).
  assert (Hlow : in_byte (low_double b + c)) by (unfold low_double, in_byte in *; zlia).
  assert (H254 : in_byte 254) by (unfold in_byte; lia).
  rewrite Hd. destruct (byte_op andb Z.land (low_double b + c) (2 * le l + b / 128) 254 (le ((fun _ => 254) <$> l))
    ltac:(intros; apply Z.land_spec) eq_refl Hlow H254) as [_ ->].
  rewrite IH by (unfold in_byte in Hb; zlia). f_equal.
  assert (Hchk : forall b, in_byte b -> (Z.land (low_double b) 254 =? low_double b) && (Z.land (low_double b + 1) 254 =? low_double b) = true)
    by (apply all_bytes; vm_compute; reflexivity).
  specialize (Hchk b Hb). apply andb_true_iff in Hchk as [H1%Z.eqb_eq H2%Z.eqb_eq].
  destruct (Z.eq_dec c 0) as [->|]; [by rewrite Z.add_0_r|]. by replace c with 1 by lia.
Qed.

Lemma SHLBYTE_le l : Forall in_byte l -> length l = 8%nat -> SHLBYTE (le l) = le (low_double <$> l).
Proof.
  intros Hl Hlen. unfold SHLBYTE. rewrite land_mod64 by (vm_compute; split; congruence).
  rewrite Z.shiftl_mul_pow2 by lia. rewrite (NBYTES_le 0xfe l ltac:(unfold in_byte; lia) Hlen).
  rewrite <- (double_carry l 0) by (done || lia). f_equal. lia.
Qed.

Lemma le_scale k l : k * le l = le ((fun b => k * b) <$> l).
Proof. induction l as [|b l IH]; cbn [le fmap list_fmap] in *; lia. Qed.

Lemma MASK_le l : Forall in_byte l -> length l = 8%nat -> MASK (le l) = le (top_mask <$> l).
Proof.
  intros Hl Hlen. unfold MASK. cbv zeta. destruct (le_and_const 0x80 l) as [_ ->]; [unfold in_byte; lia|done|done|].
  set (t := le ((fun b => b / 128) <$> l)).
  assert (H1 : le ((fun b => Z.land b 128) <$> l) = 128 * t).
  { unfold t. rewrite le_scale, <- list_fmap_compose. f_equal. apply list_fmap_ext. intros i b Hi. simpl.
    assert (Hchk : forall b, in_byte b -> (Z.land b 128 =? 128 * (b / 128)) = true) by (apply all_bytes; vm_compute; reflexivity).
    apply Z.eqb_eq, Hchk. rewrite Forall_forall in Hl. apply Hl. by eapply list_elem_of_lookup_2. }
  assert (H2 : le (top_mask <$> l) = 255 * t) by (unfold t; rewrite le_scale, <- list_fmap_compose; done).
  assert (Hmask : Forall in_byte (top_mask <$> l)).
  { apply Forall_fmap. eapply Forall_impl; [done|]. intros b Hb. unfold top_mask, in_byte in *. simpl. zlia. }
  pose proof (le_range _ Hmask) as Hr. rewrite length_fmap, Hlen, H2 in Hr. change (256 ^ Z.of_nat 8) with (2 ^ 64) in Hr.
  rewrite H1, H2, Z.shiftl_mul_pow2, Z.shiftr_div_pow2 by lia.
  replace (128 * t) with (t * 2 ^ 7) by lia. rewrite Z.div_mul by lia.
  unfold u64. rewrite Zminus_mod_idemp_l. rewrite Z.mod_small by lia. lia.
Qed.

Lemma gf_double_bits b : in_byte b -> Z.lxor (low_double b) (Z.land (top_mask b) 0x1d) = gf_double b /\ in_byte (gf_double b).
Proof.
  intros Hb. assert (Hchk : forall b, in_byte b -> (Z.lxor (low_double b) (Z.land (top_mask b) 29) =? gf_double b) &&
    (0 <=? gf_double b) && (gf_double b <? 256) = true) by (apply all_bytes; vm_compute; reflexivity).
  specialize (Hchk b Hb). apply andb_true_iff in Hchk as [[H1%Z.eqb_eq H2%Z.leb_le]%andb_true_iff H3%Z.ltb_lt].
  unfold in_byte. auto.
Qed.

(** A step on a word is a step on each byte. *)
Lemma syndrome_step_le l k : Forall in_byte l -> Forall in_byte k -> length l = 8%nat -> length k = 8%nat ->
  Forall in_byte (zip_with (fun q b => Z.lxor (gf_double q) b) l k) /\
  syndrome_step (le l) (le k) = le (zip_with (fun q b => Z.lxor (gf_double q) b) l k).
Proof.
  intros Hl Hk Hll Hkl. unfold syndrome_step. cbv zeta. rewrite MASK_le, SHLBYTE_le by done.
  assert (Hmask : Forall in_byte (top_mask <$> l)).
  { apply Forall_fmap. eapply Forall_impl; [done|]. intros b Hb. unfold top_mask, in_byte in *. simpl. zlia. }
  assert (Hlow : Forall in_byte (low_double <$> l)).
  { apply Forall_fmap. eapply Forall_impl; [done|]. intros b Hb. unfold low_double, in_byte in *. simpl. zlia. }
  destruct (le_and_const 0x1d (top_mask <$> l)) as [Hm2 ->]; [unfold in_byte; lia|done|by rewrite length_fmap|].
  destruct (le_xor (low_double <$> l) ((fun b => Z.land b 29) <$> (top_mask <$> l))) as [_ ->]; [done|done|by rewrite !length_fmap|].
  assert (Hg : zip_with Z.lxor (low_double <$> l) ((fun b => Z.land b 29) <$> (top_mask <$> l)) = gf_double <$> l).
  { clear - Hl. induction Hl as [|b l Hb _ IH]; [done|]. cbn [fmap list_fmap zip_with]. f_equal; [by apply gf_double_bits|exact IH]. }
  rewrite Hg. assert (Hgf : Forall in_byte (gf_double <$> l)).
  { apply Forall_fmap. eapply Forall_impl; [done|]. intros b Hb. by apply gf_double_bits. }
  assert (Hz : zip_with (fun q b => Z.lxor (gf_double q) b) l k = zip_with Z.lxor (gf_double <$> l) k) by (by rewrite zip_with_fmap_l).
  rewrite Hz. apply le_xor; [done|done|rewrite length_fmap; lia].
Qed.

(** ** The loops *)

Lemma le_nth l k : Forall in_byte l -> u8 (le l / 256 ^ Z.of_nat k) = nth k l 0.
Proof.
  intros Hl. revert k. induction Hl as [|b l Hb Hl IH]; intros k; [cbn [le]; rewrite Z.div_0_l by lia; by destruct k|].
  cbn [le]. destruct k as [|k].
  - cbn [nth]. change (256 ^ Z.of_nat 0) with 1. rewrite Z.div_1_r. unfold u8, in_byte in *. zlia.
  - cbn [nth]. rewrite <- IH, Nat2Z.inj_succ, Z.pow_succ_r, <- Z.div_div by lia. do 2 f_equal. unfold in_byte in Hb. zlia.
Qed.

Definition bytes_ok (b : buf) : Prop := forall x, in_byte (b x).

Lemma read_bytes_ok b d n : bytes_ok b -> Forall in_byte (read_extent_buffer b d n).
Proof. intros Hb. revert d. induction n as [|n IH]; intros d; constructor; auto. Qed.

Lemma get_le_word b d n : bytes_ok b -> get_le n b d = le (read_extent_buffer b d n).
Proof.
  intros Hb. revert d. induction n as [|n IH]; intros d; [done|].
  change (u8 (b d) + 256 * get_le n b (d + 1) = b d + 256 * le (read_extent_buffer b (d + 1) n)).
  rewrite IH. f_equal. apply u8_id, Hb.
Qed.

Definition column (disks : list buf) (x : Z) : list Z := (fun b => b x) <$> disks.

Definition syndrome_fold : Z -> list Z -> Z := foldl (fun q b => Z.lxor (gf_double q) b).

Lemma nth_zip_with (f : Z -> Z -> Z) l k i : length l = length k -> (i < length l)%nat ->
  nth i (zip_with f l k) 0 = f (nth i l 0) (nth i k 0).
Proof.
  revert k i. induction l as [|a l IH]; intros k i Hlen Hi; [simpl in Hi; lia|]. destruct k as [|c k]; [done|].
  destruct i as [|i]; [done|]. simpl. apply IH; simpl in *; lia.
Qed.

Lemma syndrome_words_run disks d lp lq :
  Forall bytes_ok disks -> Forall in_byte lp -> Forall in_byte lq -> length lp = 8%nat -> length lq = 8%nat ->
  exists lp' lq', syndrome_words disks d (le lp) (le lq) = (le lp', le lq') /\
    Forall in_byte lp' /\ Forall in_byte lq' /\ length lp' = 8%nat /\ length lq' = 8%nat /\
    forall i, (i < 8)%nat -> nth i lp' 0 = foldl Z.lxor (nth i lp 0) (column disks (d + Z.of_nat i)) /\
      nth i lq' 0 = syndrome_fold (nth i lq 0) (column disks (d + Z.of_nat i)).
Proof.
  intros Hd. revert lp lq. induction Hd as [|z disks Hz Hd IH]; intros lp lq Hp Hq Hpl Hql.
  { exists lp, lq. split_and!; try done. }
  cbn [syndrome_words]. cbv zeta. rewrite get_le_word by done. set (lz := read_extent_buffer z d 8).
  assert (Hlz : length lz = 8%nat) by apply read_length. assert (Hbz : Forall in_byte lz) by (by apply read_bytes_ok).
  destruct (le_xor lp lz Hp Hbz) as [Hp1 ->]; [lia|]. destruct (syndrome_step_le lq lz Hq Hbz Hql Hlz) as [Hq1 ->].
  destruct (IH _ _ Hp1 Hq1) as (lp' & lq' & Hrun & H1 & H2 & H3 & H4 & H5); [by rewrite length_zip_with; lia..|].
  exists lp', lq'. split; [done|]. split_and!; [done..|]. intros i Hi. destruct (H5 i Hi) as [E1 E2]. rewrite E1, E2.
  rewrite !nth_zip_with by lia. unfold lz. rewrite read_nth by done. done.
Qed.

Lemma put_word q d l x : length l = 8%nat -> Forall in_byte l ->
  put_le 8 d (le l) q x = if decide (d <= x < d + 8) then nth (Z.to_nat (x - d)) l 0 else q x.
Proof.
  intros Hlen Hl. unfold put_le. change (Z.of_nat 8) with 8. destruct (decide (d <= x < d + 8)).
  - rewrite (proj2 (Z.leb_le _ _)), (proj2 (Z.ltb_lt _ _)) by lia. simpl. rewrite <- le_nth by done. do 3 f_equal. lia.
  - destruct (Z.leb_spec d x), (Z.ltb_spec x (d + 8)); try done. lia.
Qed.

Lemma syndrome_loop_run top disks n d p q :
  bytes_ok top -> Forall bytes_ok disks -> bytes_ok p -> bytes_ok q ->
  exists p' q', syndrome_loop top disks n d p q = (p', q') /\ bytes_ok p' /\ bytes_ok q' /\
    forall x, if decide (d <= x < d + 8 * Z.of_nat n)
      then p' x = foldl Z.lxor (top x) (column disks x) /\ q' x = syndrome_fold (top x) (column disks x)
      else p' x = p x /\ q' x = q x.
Proof.
  intros Ht Hd. revert d p q. induction n as [|n IH]; intros d p q Hp Hq.
  { exists p, q. split_and!; [done..|]. intros x. destruct (decide _); [lia|done]. }
  cbn [syndrome_loop]. cbv zeta. rewrite get_le_word by done. set (lt := read_extent_buffer top d 8).
  assert (Hlt : length lt = 8%nat) by apply read_length. assert (Hbt : Forall in_byte lt) by (by apply read_bytes_ok).
  destruct (syndrome_words_run disks d lt lt Hd Hbt Hbt Hlt Hlt) as (lp & lq & -> & H1 & H2 & H3 & H4 & H5).
  assert (Hnth : forall l i, Forall in_byte l -> in_byte (nth i l 0)).
  { intros l i Hl. revert i. induction Hl; intros [|i]; simpl; auto; unfold in_byte; lia. }
  assert (Hput : forall r l, bytes_ok r -> Forall in_byte l -> length l = 8%nat -> bytes_ok (put_le 8 d (le l) r)).
  { intros r l Hr Hl Hll x. rewrite put_word by done. destruct (decide _); [by apply Hnth|apply Hr]. }
  destruct (IH (d + NSIZE) _ _ (Hput p lp Hp H1 H3) (Hput q lq Hq H2 H4)) as (p' & q' & -> & Hp' & Hq' & Hall).
  exists p', q'. split_and!; [done..|]. intros x. specialize (Hall x). unfold NSIZE in Hall. rewrite !put_word in Hall by done.
  destruct (decide (d <= x < d + 8)) as [Hin|Hin].
  - rewrite decide_True by lia. rewrite decide_False in Hall by lia. destruct Hall as [-> ->].
    destruct (H5 (Z.to_nat (x - d)) ltac:(lia)) as [-> ->]. unfold lt. rewrite read_nth by lia.
    by replace (d + Z.of_nat (Z.to_nat (x - d))) with x by lia.
  - destruct (decide (d + 8 <= x < d + 8 + 8 * Z.of_nat n)); destruct (decide (d <= x < d + 8 * Z.of_nat (S n))); try lia; done.
Qed.

Lemma foldl_rev_foldr {A B} (f : A -> B -> A) a l : foldl f a (reverse l) = foldr (fun b a => f a b) a l.
Proof. induction l as [|b l IH]; [done|]. rewrite reverse_cons, foldl_app. simpl. by rewrite IH. Qed.

Lemma gf_parity_top l t : foldl Z.lxor t (reverse l) = gf_parity (l ++ [t]).
Proof.
  rewrite foldl_rev_foldr. unfold gf_parity. rewrite foldr_app. cbn [foldr]. rewrite Z.lxor_0_r.
  induction l as [|b l IH]; [done|]. cbn [foldr]. by rewrite IH, Z.lxor_comm.
Qed.

Lemma gf_syndrome_top l t : syndrome_fold t (reverse l) = gf_syndrome (l ++ [t]).
Proof. unfold syndrome_fold. rewrite foldl_rev_foldr. unfold gf_syndrome. by rewrite foldr_app. Qed.

(** The whole function. *)
Lemma gen_syndrome_run disks bytes data p q :
  3 <= disks -> Z.of_nat (length data) = disks - 2 -> 0 <= bytes -> (8 | bytes) ->
  Forall bytes_ok data -> bytes_ok p -> bytes_ok q ->
  exists p' q', raid6_gen_syndrome disks bytes (data ++ [p; q]) = Some (data ++ [p'; q']) /\ bytes_ok p' /\ bytes_ok q' /\
    forall x, if decide (0 <= x < bytes) then p' x = gf_parity (column data x) /\ q' x = gf_syndrome (column data x)
      else p' x = p x /\ q' x = q x.
Proof.
  intros Hdisks Hlen Hbytes [w Hw] Hdata Hp Hq. unfold raid6_gen_syndrome. rewrite (proj2 (Z.ltb_ge _ _)) by lia. cbv zeta.
  destruct (exists_last (l := data)) as (init & top & ->); [by intros ->; simpl in *; lia|].
  apply Forall_app in Hdata as [Hinit [Htop _]%Forall_cons]. rewrite length_app in Hlen. cbn [length] in Hlen.
  replace (Z.to_nat (disks - 3)) with (length init) by lia. rewrite <- !(assoc_L (++)). cbn [app].
  assert (Hlook : forall k (v : buf) rest, (init ++ rest) !! (length init + k)%nat = rest !! k)
    by (intros; by rewrite lookup_app_r, Nat.add_sub' by lia).
  pose proof (Hlook 0%nat top [top; p; q]) as L0. pose proof (Hlook 1%nat top [top; p; q]) as L1. pose proof (Hlook 2%nat top [top; p; q]) as L2.
  rewrite Nat.add_0_r in L0. rewrite Nat.add_1_r in L1. replace (length init + 2)%nat with (S (S (length init))) in L2 by lia.
  rewrite L0, L1, L2. cbn [lookup list_lookup mbind option_bind]. rewrite take_app_length.
  destruct (syndrome_loop_run top (reverse init) (Z.to_nat ((bytes + 7) / 8)) 0 p q Htop) as (p' & q' & -> & Hp' & Hq' & Hall);
    [by apply Forall_reverse|done|done|].
  exists p', q'. split.
  { f_equal. rewrite !insert_app_r_alt by lia. replace (S (length init) - length init)%nat with 1%nat by lia.
    replace (S (S (length init)) - length init)%nat with 2%nat by lia. by rewrite <- (assoc_L (++)). }
  split_and!; [done..|]. intros x. specialize (Hall x).
  replace (0 + 8 * Z.of_nat (Z.to_nat ((bytes + 7) / 8))) with bytes in Hall by zlia.
  destruct (decide _); [|done]. destruct Hall as [-> ->]. unfold column. rewrite fmap_app, fmap_reverse.
  cbn [fmap list_fmap]. by rewrite <- gf_parity_top, <- gf_syndrome_top.
Qed.

(** ** What the parity and the syndrome are good for. *)

(** ** The field *)

Lemma gf_double_lxor a b : in_byte a -> in_byte b -> gf_double (Z.lxor a b) = Z.lxor (gf_double a) (gf_double b).
Proof.
  intros Ha Hb. apply Z.eqb_eq.
  pose proof (all_bytes (fun a => forallb (fun k => gf_double (Z.lxor a (Z.of_nat k)) =? Z.lxor (gf_double a) (gf_double (Z.of_nat k))) (seq 0 256))
    ltac:(vm_compute; reflexivity) a Ha) as Hall. cbv beta in Hall.
  exact (all_bytes (fun b => gf_double (Z.lxor a b) =? Z.lxor (gf_double a) (gf_double b)) Hall b Hb).
Qed.

Lemma gf_double_zero b : in_byte b -> gf_double b = 0 -> b = 0.
Proof.
  intros Hb H0. pose proof (all_bytes (fun b => implb (gf_double b =? 0) (b =? 0)) ltac:(vm_compute; reflexivity) b Hb) as Hc.
  cbv beta in Hc. rewrite H0 in Hc. simpl in Hc. by apply Z.eqb_eq.
Qed.

Lemma iter_double_byte k b : in_byte b -> in_byte (Nat.iter k gf_double b).
Proof. intros Hb. induction k as [|k IH]; [done|]. by apply (gf_double_bits _ IH). Qed.

Lemma iter_double_zero k b : in_byte b -> Nat.iter k gf_double b = 0 -> b = 0.
Proof. intros Hb. induction k as [|k IH]; [done|]. intros H0. apply IH, gf_double_zero; [by apply iter_double_byte|done]. Qed.

(** The powers of two run through all bytes but zero, and repeat after 255. *)
Definition powers : list Z := map (fun k => Nat.iter k gf_double 1) (seq 0 255).

Definition logs : list nat :=
  Eval vm_compute in map (fun b => match find (fun k => nth k powers 0 =? Z.of_nat b) (seq 0 255) with Some k => k | None => 0%nat end) (seq 0 256).

Lemma logs_ok b : in_byte b -> b <> 0 -> Nat.iter (nth (Z.to_nat b) logs 0%nat) gf_double 1 = b /\ (nth (Z.to_nat b) logs 0 < 255)%nat.
Proof.
  intros Hb Hne. pose proof (all_bytes (fun b => (b =? 0) || ((Nat.iter (nth (Z.to_nat b) logs 0%nat) gf_double 1 =? b) && (nth (Z.to_nat b) logs 0 <? 255)%nat))
    ltac:(vm_compute; reflexivity) b Hb) as Hc. cbv beta in Hc. rewrite (proj2 (Z.eqb_neq b 0)) in Hc by done. simpl in Hc.
  apply andb_true_iff in Hc as [H1%Z.eqb_eq H2%Nat.ltb_lt]. done.
Qed.

Lemma logs_powers k : (k < 255)%nat -> nth (Z.to_nat (Nat.iter k gf_double 1)) logs 0%nat = k.
Proof.
  intros Hk. assert (Hc : forallb (fun k => Nat.eqb (nth (Z.to_nat (Nat.iter k gf_double 1)) logs O) k) (seq 0 255) = true) by (vm_compute; reflexivity).
  rewrite forallb_forall in Hc. apply Nat.eqb_eq, Hc, in_seq. lia.
Qed.

Lemma iter_add {A} (f : A -> A) j k x : Nat.iter (j + k) f x = Nat.iter j f (Nat.iter k f x).
Proof. induction j as [|j IH]; [done|]. simpl. by rewrite IH. Qed.

Lemma iter_period k : Nat.iter (255 + k) gf_double 1 = Nat.iter k gf_double 1.
Proof. rewrite Nat.add_comm, iter_add. f_equal. Qed.

Lemma double_moves k b : in_byte b -> (0 < k < 255)%nat -> Nat.iter k gf_double b = b -> b = 0.
Proof.
  intros Hb Hk Heq. destruct (Z.eq_dec b 0) as [|Hne]; [done|exfalso].
  destruct (logs_ok b Hb Hne) as [Hpow Ha]. set (a := nth (Z.to_nat b) logs 0%nat) in *.
  rewrite <- Hpow, <- iter_add in Heq. apply (f_equal (fun x => nth (Z.to_nat x) logs 0%nat)) in Heq.
  rewrite (logs_powers a Ha) in Heq. destruct (Nat.lt_ge_cases (k + a) 255) as [Hlt|Hge].
  - rewrite logs_powers in Heq by done. lia.
  - replace (k + a)%nat with (255 + (k + a - 255))%nat in Heq by lia. rewrite iter_period, logs_powers in Heq by lia. lia.
Qed.

(** ** Errors *)

Lemma lxor_byte a b : in_byte a -> in_byte b -> in_byte (Z.lxor a b).
Proof. intros Ha Hb. apply (byte_op xorb Z.lxor a 0 b 0 ltac:(intros; apply Z.lxor_spec) eq_refl Ha Hb). Qed.

Lemma gf_parity_byte l : Forall in_byte l -> in_byte (gf_parity l).
Proof. induction 1 as [|b l Hb _ IH]; [unfold in_byte; simpl; lia|]. by apply lxor_byte. Qed.

Lemma gf_syndrome_byte l : Forall in_byte l -> in_byte (gf_syndrome l).
Proof. induction 1 as [|b l Hb _ IH]; [unfold in_byte; simpl; lia|]. apply lxor_byte; [|done]. by apply gf_double_bits. Qed.

(** Both are linear. *)
Lemma gf_linear l k : Forall in_byte l -> Forall in_byte k -> length l = length k ->
  gf_parity (zip_with Z.lxor l k) = Z.lxor (gf_parity l) (gf_parity k) /\
  gf_syndrome (zip_with Z.lxor l k) = Z.lxor (gf_syndrome l) (gf_syndrome k).
Proof.
  assert (Hswap : forall a b c e, Z.lxor (Z.lxor a b) (Z.lxor c e) = Z.lxor (Z.lxor a c) (Z.lxor b e)).
  { intros. apply Z.bits_inj'. intros n _. rewrite !Z.lxor_spec.
    destruct (Z.testbit a n), (Z.testbit b n), (Z.testbit c n), (Z.testbit e n); done. }
  intros Hl. revert k. induction Hl as [|b l Hb Hl IH]; intros k Hk Hlen; destruct Hk as [|c k Hc Hk]; try done.
  destruct (IH k Hk) as [H1 H2]; [by injection Hlen|]. unfold gf_parity, gf_syndrome in *. cbn [zip_with foldr].
  fold (gf_parity l) (gf_syndrome l) (gf_parity k) (gf_syndrome k) in *. rewrite H1, H2.
  rewrite gf_double_lxor by (by apply gf_syndrome_byte). split; apply Hswap.
Qed.

Lemma zeros l : (forall k x, l !! k = Some x -> x = 0) -> l = replicate (length l) 0.
Proof.
  induction l as [|x l IH]; intros H0; [done|]. cbn [length replicate]. rewrite (H0 O x eq_refl). f_equal. apply IH.
  intros k y Hk. by apply (H0 (S k)).
Qed.

Lemma gf_zeros n l : gf_parity (replicate n 0 ++ l) = gf_parity l /\ gf_syndrome (replicate n 0 ++ l) = Nat.iter n gf_double (gf_syndrome l).
Proof.
  unfold gf_parity, gf_syndrome. induction n as [|n [IH1 IH2]]; [done|]. cbn [replicate app foldr]. rewrite IH1, IH2.
  split; [by rewrite Z.lxor_0_l|]. by rewrite Z.lxor_0_r.
Qed.

Lemma gf_all_zero n : gf_parity (replicate n 0) = 0 /\ gf_syndrome (replicate n 0) = 0.
Proof.
  pose proof (gf_zeros n []) as [H1 H2]. rewrite app_nil_r in *. split; [done|]. rewrite H2.
  clear. induction n as [|n IH]; [done|]. simpl. simpl in IH. by rewrite IH.
Qed.

(** A list that is zero but at one place. *)
Lemma split_one l i x : l !! i = Some x -> (forall k y, k <> i -> l !! k = Some y -> y = 0) ->
  l = replicate i 0 ++ x :: replicate (length l - S i) 0.
Proof.
  intros Hi H0. pose proof (lookup_lt_Some _ _ _ Hi). rewrite <- (take_drop_middle l i x Hi) at 1. f_equal; [|f_equal].
  - rewrite (zeros (take i l)); [by rewrite length_take, Nat.min_l by lia|]. intros k y Hk. apply lookup_take_Some in Hk as [Hk ?]. apply (H0 k); [lia|done].
  - rewrite (zeros (drop (S i) l)); [by rewrite length_drop|]. intros k y Hk. rewrite lookup_drop in Hk. apply (H0 (S i + k)%nat); [lia|done].
Qed.

Lemma one_error l i : Forall in_byte l -> (forall k y, k <> i -> l !! k = Some y -> y = 0) ->
  gf_parity l = 0 \/ gf_syndrome l = 0 -> l = replicate (length l) 0.
Proof.
  intros Hl H0 Hz. destruct (l !! i) as [x|] eqn:Hi; [|apply zeros; intros k y Hk; apply (H0 k); congruence].
  pose proof (split_one l i x Hi H0) as Heq. destruct (gf_zeros i (x :: replicate (length l - S i) 0)) as [Pe Se].
  destruct (gf_all_zero (length l - S i)) as [P0 S0].
  assert (Hx : in_byte x) by (rewrite Forall_forall in Hl; apply Hl; by eapply list_elem_of_lookup_2).
  assert (x = 0) as Hx0.
  { rewrite Heq in Hz. rewrite Pe, Se in Hz. unfold gf_parity, gf_syndrome in Hz, P0, S0. cbn [foldr] in Hz. rewrite P0, S0, Z.lxor_0_r in Hz.
    change (gf_double 0) with 0 in Hz. rewrite Z.lxor_0_l in Hz. destruct Hz as [|Hz]; [done|]. by apply iter_double_zero in Hz. }
  apply zeros. intros k y Hk. destruct (Nat.eq_dec k i) as [->|]; [congruence|by apply (H0 k)].
Qed.

Lemma two_errors l i j : Forall in_byte l -> (length l <= 255)%nat -> (i < j)%nat ->
  (forall k y, k <> i -> k <> j -> l !! k = Some y -> y = 0) ->
  gf_parity l = 0 -> gf_syndrome l = 0 -> l = replicate (length l) 0.
Proof.
  intros Hl Hlen Hij H0 HP HS. destruct (l !! i) as [x|] eqn:Hi.
  2:{ apply (one_error l j); [done| |by left]. intros k y Hk Hy. apply (H0 k); [congruence|done|done]. }
  assert (Hx : in_byte x) by (rewrite Forall_forall in Hl; apply Hl; by eapply list_elem_of_lookup_2).
  enough (x = 0) as ->.
  { apply (one_error l j); [done| |by left]. intros k y Hk Hy. destruct (Nat.eq_dec k i) as [->|]; [congruence|by apply (H0 k)]. }
  pose proof (take_drop_middle l i x Hi) as Heq. set (r := drop (S i) l) in *.
  assert (Htake : take i l = replicate i 0).
  { rewrite (zeros (take i l)); [rewrite length_take, Nat.min_l; [done|]; apply lookup_lt_Some in Hi; lia|].
    intros k y Hk. apply lookup_take_Some in Hk as [Hk ?]. apply (H0 k); [lia|lia|done]. }
  rewrite <- Heq, Htake in HP, HS. destruct (gf_zeros i (x :: r)) as [Pe Se]. rewrite Pe in HP. rewrite Se in HS. clear Pe Se.
  assert (Hr : Forall in_byte r) by (by apply Forall_drop).
  apply iter_double_zero in HS; [|apply gf_syndrome_byte; by constructor].
  unfold gf_parity, gf_syndrome in HP, HS. cbn [foldr] in HP, HS. fold (gf_parity r) in HP. fold (gf_syndrome r) in HS.
  apply Z.lxor_eq in HP, HS. assert (Hlr : (length r + S i = length l)%nat) by (unfold r; apply lookup_lt_Some in Hi; rewrite length_drop; lia).
  assert (Hr0 : forall k y, k <> (j - S i)%nat -> r !! k = Some y -> y = 0).
  { intros k y Hk Hy. unfold r in Hy. rewrite lookup_drop in Hy. apply (H0 (S i + k)%nat); [lia|lia|done]. }
  destruct (r !! (j - S i)%nat) as [y|] eqn:Hj.
  - pose proof (split_one r _ y Hj Hr0) as Hre. destruct (gf_zeros (j - S i) (y :: replicate (length r - S (j - S i)) 0)) as [Pe Se].
    rewrite <- Hre in Pe, Se. destruct (gf_all_zero (length r - S (j - S i))) as [P0 S0].
    unfold gf_parity at 2 in Pe. unfold gf_syndrome at 2 in Se. cbn [foldr] in Pe, Se. unfold gf_parity in P0. unfold gf_syndrome in S0.
    rewrite P0, Z.lxor_0_r in Pe. rewrite S0 in Se. change (gf_double 0) with 0 in Se. rewrite Z.lxor_0_l in Se.
    rewrite Pe in HP. subst y. rewrite Se in HS. apply (double_moves (S (j - S i)) x Hx); [|done].
    apply lookup_lt_Some in Hj. lia.
  - rewrite (zeros r), (proj1 (gf_all_zero _)) in HP; [done|]. intros k y Hk. apply (Hr0 k); [congruence|done].
Qed.

Lemma equal_of_zero l k : length l = length k -> zip_with Z.lxor l k = replicate (length (zip_with Z.lxor l k)) 0 -> l = k.
Proof.
  revert k. induction l as [|b l IH]; intros [|c k] Hlen Hz; try done. cbn [zip_with length replicate] in Hz.
  injection Hz as H1 H2. apply Z.lxor_eq in H1. f_equal; [done|]. apply IH; [by injection Hlen|done].
Qed.

(** ** The claims *)

(** C30: [raid6_gen_syndrome], which works on words of eight bytes with masks,
    puts into each byte of the second last buffer the sum, and of the last the
    weighted sum [d0 + 2 d1 + 4 d2 + ...] in the field of 256 elements, of the
    bytes of the data buffers; bytes from [bytes] on it does not change. *)
Theorem raid6_gen_syndrome_correct disks bytes data p q
  (Hdisks : 3 <= disks) (Hlen : Z.of_nat (length data) = disks - 2) (Hbytes : 0 <= bytes) (Hal : (8 | bytes))
  (Hdata : Forall bytes_ok data) (Hp : bytes_ok p) (Hq : bytes_ok q) :
  exists p' q', raid6_gen_syndrome disks bytes (data ++ [p; q]) = Some (data ++ [p'; q']) /\
    forall x, if decide (0 <= x < bytes) then p' x = gf_parity (column data x) /\ q' x = gf_syndrome (column data x)
      else p' x = p x /\ q' x = q x.
Proof.
  destruct (gen_syndrome_run disks bytes data p q) as (p' & q' & H1 & _ & _ & H2); [done..|]. by exists p', q'.
Qed.

Lemma column_byte data x : Forall bytes_ok data -> Forall in_byte (column data x).
Proof. intros Hd. apply Forall_fmap. eapply Forall_impl; [done|]. intros b Hb. apply Hb. Qed.

Lemma column_length data x : length (column data x) = length data.
Proof. apply length_fmap. Qed.

(** C29: with at most 255 data disks any two buffers may be lost, whichever they
    are: if what two runs of [raid6_gen_syndrome] leave in the buffers agrees at
    a byte in all but two of them, it agrees in those two. *)
Theorem raid6_two_losses disks bytes data p q r data' p' q' r' x i j
  (Hdisks : 3 <= disks <= 257) (Hlen : Z.of_nat (length data) = disks - 2) (Hlen' : Z.of_nat (length data') = disks - 2)
  (Hal : (8 | bytes)) (Hx : 0 <= x < bytes)
  (Hdata : Forall bytes_ok (data ++ [p; q])) (Hdata' : Forall bytes_ok (data' ++ [p'; q']))
  (Hr : raid6_gen_syndrome disks bytes (data ++ [p; q]) = Some r)
  (Hr' : raid6_gen_syndrome disks bytes (data' ++ [p'; q']) = Some r')
  (Hsame : forall k, k <> i -> k <> j -> column r x !! k = column r' x !! k) :
  column r x = column r' x.
Proof.
  apply Forall_app in Hdata as [Hd [Hp [Hq _]%Forall_cons]%Forall_cons]. apply Forall_app in Hdata' as [Hd' [Hp' [Hq' _]%Forall_cons]%Forall_cons].
  destruct (gen_syndrome_run disks bytes data p q) as (p1 & q1 & H1 & _ & _ & H2); [lia|done|lia|done..|].
  destruct (gen_syndrome_run disks bytes data' p' q') as (p2 & q2 & H1' & _ & _ & H2'); [lia|done|lia|done..|].
  specialize (H2 x). specialize (H2' x). rewrite decide_True in H2 by lia. rewrite decide_True in H2' by lia.
  rewrite Hr in H1. rewrite Hr' in H1'. injection H1 as ->. injection H1' as ->. clear Hr Hr'.
  pose proof (column_byte data x Hd) as Hc. pose proof (column_byte data' x Hd') as Hc'.
  unfold column in Hsame |- *. rewrite !fmap_app in Hsame |- *. fold (column data x) (column data' x) in *. cbn [fmap list_fmap] in *.
  destruct H2 as [E1 E2], H2' as [E3 E4]. rewrite E1, E2, E3, E4 in Hsame |- *.
  assert (Hlc : length (column data x) = length (column data' x)) by (rewrite !column_length; lia).
  assert (Hn : (length (column data x) <= 255)%nat) by (rewrite column_length; lia).
  set (c := column data x) in *. set (c' := column data' x) in *. clearbody c c'.
  enough (c = c') as -> by done.
  set (e := zip_with Z.lxor c c'). assert (He : Forall in_byte e) by (by apply le_xor).
  assert (Hel : length e = length c) by (unfold e; rewrite length_zip_with; lia).
  destruct (gf_linear c c' Hc Hc' Hlc) as [HP HS]. fold e in HP, HS.
  assert (He0 : forall k y, k <> i -> k <> j -> e !! k = Some y -> y = 0).
  { intros k y Hki Hkj Hy. unfold e in Hy. apply lookup_zip_with_Some in Hy as (u & v & -> & Hu & Hv).
    specialize (Hsame k Hki Hkj). rewrite !lookup_app_l in Hsame by (apply lookup_lt_Some in Hu; lia).
    rewrite Hu, Hv in Hsame. injection Hsame as ->. apply Z.lxor_nilpotent. }
  assert (Hpar : (length c) <> i -> (length c) <> j -> gf_parity e = 0).
  { intros Hi Hj. specialize (Hsame _ Hi Hj). rewrite lookup_app_r, Nat.sub_diag in Hsame by lia. rewrite lookup_app_r in Hsame by lia.
    rewrite Hlc, Nat.sub_diag in Hsame. injection Hsame as Heq. rewrite HP, Heq. apply Z.lxor_nilpotent. }
  assert (Hsyn : S (length c) <> i -> S (length c) <> j -> gf_syndrome e = 0).
  { intros Hi Hj. specialize (Hsame _ Hi Hj). rewrite !lookup_app_r in Hsame by lia.
    replace (S (length c) - length c)%nat with 1%nat in Hsame by lia. replace (S (length c) - length c')%nat with 1%nat in Hsame by lia.
    injection Hsame as Heq. rewrite HS, Heq. apply Z.lxor_nilpotent. }
  apply equal_of_zero; [done|]. fold e. clearbody e.
  assert (Hone : forall t, (forall k y, k <> t -> e !! k = Some y -> y = 0) -> gf_parity e = 0 \/ gf_syndrome e = 0 -> e = replicate (length e) 0)
    by (intros t Ht; by apply (one_error e t)).
  assert (Hout : forall t k y, (length c <= t)%nat -> e !! k = Some y -> k <> t) by (intros t k y Ht Hy ->; apply lookup_lt_Some in Hy; lia).
  destruct (Nat.lt_ge_cases i (length c)) as [Hi|Hi], (Nat.lt_ge_cases j (length c)) as [Hj|Hj].
  - destruct (Nat.lt_trichotomy i j) as [Hij|[->|Hij]].
    + apply (two_errors e i j); [done|lia|done|done|apply Hpar; lia|apply Hsyn; lia].
    + apply (Hone j); [intros k y Hk; by apply He0|left; apply Hpar; lia].
    + apply (two_errors e j i); [done|lia|done| |apply Hpar; lia|apply Hsyn; lia]. intros k y Hk1 Hk2. by apply He0.
  - apply (Hone i); [intros k y Hk Hy; apply (He0 k y); [done|by eapply Hout|done]|].
    destruct (Nat.eq_dec (length c) j); [right; apply Hsyn; lia|left; apply Hpar; lia].
  - apply (Hone j); [intros k y Hk Hy; apply (He0 k y); [by eapply Hout|done|done]|].
    destruct (Nat.eq_dec (length c) i); [right; apply Hsyn; lia|left; apply Hpar; lia].
  - apply zeros. intros k y Hy. apply (He0 k y); [by eapply Hout..|done].
Qed.

(** ** Examples *)

Definition demo_data : list buf := [fun _ => 5; fun _ => 0x80; fun x => if x =? 3 then 0xFF else 1].

Lemma demo_data_ok : Forall bytes_ok demo_data /\ bytes_ok (fun _ => 0).
Proof.
  split; [|intros x; unfold in_byte; lia].
  repeat constructor; try lia; destruct (x =? 3); lia.
Qed.

Lemma raid6_gen_syndrome_correct_witness :
  exists p' q', raid6_gen_syndrome 5 16 (demo_data ++ [fun _ => 0; fun _ => 0]) = Some (demo_data ++ [p'; q']) /\
    p' 3 = 122 /\ q' 3 = Z.lxor 5 (Z.lxor (gf_double 0x80) (gf_double (gf_double 0xFF))).
Proof.
  destruct demo_data_ok as [Hd H0].
  destruct (raid6_gen_syndrome_correct 5 16 demo_data (fun _ => 0) (fun _ => 0)) as (p' & q' & Hrun & Hall);
    [lia|reflexivity|lia|by exists 2|exact Hd|exact H0|exact H0|].
  exists p', q'. split; [exact Hrun|]. specialize (Hall 3). rewrite decide_True in Hall by lia. destruct Hall as [-> ->].
  split; vm_compute; reflexivity.
Defined.

(** The buffers of the parity hold different things before. *)
Lemma raid6_two_losses_witness :
  exists r r', raid6_gen_syndrome 5 16 (demo_data ++ [fun _ => 0; fun _ => 0]) = Some r /\
    raid6_gen_syndrome 5 16 (demo_data ++ [fun _ => 1; fun _ => 9]) = Some r' /\ column r 3 = column r' 3.
Proof.
  destruct demo_data_ok as [Hd H0]. assert (H1 : bytes_ok (fun _ => 1)) by (intros x; unfold in_byte; lia).
  assert (H9 : bytes_ok (fun _ => 9)) by (intros x; unfold in_byte; lia).
  destruct (gen_syndrome_run 5 16 demo_data (fun _ => 0) (fun _ => 0)) as (p' & q' & Hrun & _);
    [lia|reflexivity|lia|by exists 2|exact Hd|exact H0|exact H0|].
  destruct (gen_syndrome_run 5 16 demo_data (fun _ => 1) (fun _ => 9)) as (p2 & q2 & Hrun2 & _);
    [lia|reflexivity|lia|by exists 2|exact Hd|exact H1|exact H9|].
  exists (demo_data ++ [p'; q']), (demo_data ++ [p2; q2]). split; [exact Hrun|]. split; [exact Hrun2|].
  apply (raid6_two_losses 5 16 demo_data (fun _ => 0) (fun _ => 0) (demo_data ++ [p'; q']) demo_data (fun _ => 1) (fun _ => 9)
    (demo_data ++ [p2; q2]) 3 3 4); [lia|reflexivity|reflexivity|by exists 2|lia| | |exact Hrun|exact Hrun2|].
  - apply Forall_app. split; [exact Hd|]. constructor; [exact H0|]. constructor; [exact H0|constructor].
  - apply Forall_app. split; [exact Hd|]. constructor; [exact H1|]. constructor; [exact H9|constructor].
  - intros k H3 H4. do 3 (destruct k as [|k]; [reflexivity|]). do 2 (destruct k as [|k]; [congruence|]). reflexivity.
Defined.
