(* ===== verification/BlockIo.v ===== *)
(** Reading and writing blocks on the devices: the I/O functions of
    [src/disk-io.c] and [src/extent_io.c], and the full-stripe writes of
    [src/volumes.c].

    The devices are the disks behind the open file descriptors; [pread] and
    [pwrite] are POSIX's.  A [struct extent_buffer] that is read or written has
    its place on a device in [fd] and [dev_bytenr].  The count [total_ios] and the
    messages are left out; a failed [malloc] is not modelled. *)

From S2P Require Import Prelude RbSpec ExtentCache ExtentIo Buf CtreeFmt TreeWorld Crc Volumes Raid6.

(** ** Disks *)

Record disk := Disk {
  dk_size : Z;
  dk_bad : Z -> bool;
  dk_data : buf;
}.

Abbreviation disks := (gmap Z disk).

Definition EBADF : Z := 9.

(** At most this many bytes are transferred in one call, so that the count fits
    into the [int] that the callers keep it in. *)
Definition MAX_RW_COUNT : Z := 0x7ffff000.

Definition rw_count (d : disk) (len off : Z) : Z := Z.max 0 (Z.min (Z.min len MAX_RW_COUNT) (dk_size d - off)).

(** [pread] answers with the count and the bytes, or -1; reading a bad sector
    fails, past the end the count is short. *)
Definition pread (st : disks) (fd len off : Z) : Z * list Z :=
  match st !! fd with
  | None => (-1, [])
  | Some d =>
      let n := rw_count d len off in
      if existsb (fun k => dk_bad d (off + Z.of_nat k)) (seq 0 (Z.to_nat n)) then (-1, [])
      else (n, read_extent_buffer (dk_data d) off (Z.to_nat n))
  end.

(** [pwrite] with the count or -1, and [errno]. *)
Definition pwrite (st : disks) (fd : Z) (b : buf) (start len off : Z) : Z * Z * disks :=
  match st !! fd with
  | None => (-1, EBADF, st)
  | Some d =>
      let n := rw_count d len off in
      (n, 0, <[fd := Disk (dk_size d) (dk_bad d) (copy_extent_buffer (dk_data d) b off start n)]> st)
  end.

(** ** Buffers *)

Definition EXTENT_BAD_TRANSID : Z := Z.shiftl 1 10.

(** The fields of a [struct extent_buffer] that I/O uses. *)
Record io_buffer := IoBuffer {
  io_start : Z;
  io_len : Z;
  io_fd : Z;
  io_dev_bytenr : Z;
  io_flags : Z;
  io_data : buf;
}.

Definition io_at (eb : io_buffer) (fd dev_bytenr : Z) : io_buffer :=
  IoBuffer (io_start eb) (io_len eb) fd dev_bytenr (io_flags eb) (io_data eb).
Definition io_with_data (eb : io_buffer) (b : buf) : io_buffer :=
  IoBuffer (io_start eb) (io_len eb) (io_fd eb) (io_dev_bytenr eb) (io_flags eb) b.
Definition io_with_flags (eb : io_buffer) (f : Z) : io_buffer :=
  IoBuffer (io_start eb) (io_len eb) (io_fd eb) (io_dev_bytenr eb) f (io_data eb).

Definition read_extent_from_disk (st : disks) (eb : io_buffer) (offset len : Z) : Z * io_buffer :=
  let '(ret, bytes) := pread st (io_fd eb) len (io_dev_bytenr eb) in
  let eb := io_with_data eb (write_extent_buffer (io_data eb) bytes offset) in
  if ret <? 0 then (ret, eb) else if negb (ret =? len) then (- EIO, eb) else (0, eb).

Definition write_extent_to_disk (eb : io_buffer) : act disks Z := fun st =>
  let '(ret, _, st) := pwrite st (io_fd eb) (io_data eb) 0 (io_len eb) (io_dev_bytenr eb) in
  Some (if ret <? 0 then ret else if negb (ret =? io_len eb) then - EIO else 0, st).

Section Io.
Context {T : Type} `{RbTree T}.

(** What the I/O functions read of [struct btrfs_fs_info]. *)
Record io_info := IoInfo {
  fi_mapping : btrfs_mapping_tree T;
  fi_on_restoring : bool;
  fi_devices : list btrfs_device;
  fi_fsids : list (list Z);
  fi_csum_size : Z;
  fi_leafsize : Z;
}.

(** The loop of [read_whole_eb]; [None] also when the fuel runs out. *)
Fixpoint read_whole_eb_loop (fuel : nat) (info : io_info) (st : disks) (eb : io_buffer) (mirror offset bytes_left : Z) :
  option (Z * io_buffer) :=
  if bytes_left =? 0 then Some (0, eb)
  else
    match fuel with
    | O => None
    | S fuel =>
        let go (fd dev_bytenr read_len : Z) :=
          let read_len := if bytes_left <? read_len then bytes_left else read_len in
          let '(ret, eb) := read_extent_from_disk st (io_at eb fd dev_bytenr) offset read_len in
          if negb (ret =? 0) then Some (- EIO, eb)
          else read_whole_eb_loop fuel info st eb mirror (offset + read_len) (bytes_left - read_len) in
        if negb (fi_on_restoring info) then
          r ← btrfs_map_block (fi_mapping info) READ (u64 (io_start eb + offset)) bytes_left mirror false;
          if negb (mr_ret r =? 0) then Some (- EIO, eb)
          else
            multi ← mr_multi r;
            s ← head multi;
            if dev_fd (bs_dev s) =? 0 then Some (- EIO, eb)
            else go (dev_fd (bs_dev s)) (bs_physical s) (mr_length r)
        else
          d ← List.find (fun d => dev_devid d =? 1) (fi_devices info);
          go (dev_fd d) (io_start eb) bytes_left
    end.

Definition read_whole_eb (fuel : nat) (info : io_info) (st : disks) (eb : io_buffer) (mirror : Z) : option (Z * io_buffer) :=
  read_whole_eb_loop fuel info st eb mirror 0 (io_len eb).

(** ** Full stripes *)

(** [rmw_eb]: what is on disk, overlaid with the part of [orig_eb] inside. *)
Definition rmw_eb (fuel : nat) (info : io_info) (st : disks) (eb orig_eb : io_buffer) : option (Z * io_buffer) :=
  '(ret, eb) ← read_whole_eb fuel info st eb 0;
  if negb (ret =? 0) then Some (ret, eb)
  else if (u64 (io_start eb + io_len eb) <=? io_start orig_eb) || (u64 (io_start orig_eb + io_len orig_eb) <=? io_start eb)
  then Some (0, eb)
  else
    let orig_off := if io_start orig_eb <? io_start eb then io_start eb - io_start orig_eb else 0 in
    let dest_off := if io_start eb <? io_start orig_eb then io_start orig_eb - io_start eb else 0 in
    let copy_len := io_len eb in
    let copy_len := if u64 (io_len orig_eb - orig_off) <? copy_len then u64 (io_len orig_eb - orig_off) else copy_len in
    let copy_len := if u64 (io_len eb - dest_off) <? copy_len then u64 (io_len eb - dest_off) else copy_len in
    Some (0, io_with_data eb (copy_extent_buffer (io_data eb) (io_data orig_eb) dest_off orig_off copy_len)).

(** The buffers of the data stripes, up to the first parity. *)
Fixpoint split_eb_for_raid56 (fuel : nat) (info : io_info) (st : disks) (orig_eb : io_buffer) (stripe_len : Z)
  (raid_map : list Z) : option (list io_buffer) :=
  match raid_map with
  | [] => Some []
  | this_eb_start :: raid_map =>
      if BTRFS_RAID5_P_STRIPE <=? this_eb_start then Some []
      else
        let start := io_start orig_eb in
        let eb := IoBuffer this_eb_start stripe_len (-1) (2 ^ 64 - 1) 0 (fun _ => 0) in
        eb ←
          (if (this_eb_start <? start) || (u64 (start + io_len orig_eb) <? u64 (this_eb_start + stripe_len)) then
             '(ret, eb) ← rmw_eb fuel info st eb orig_eb;
             if negb (ret =? 0) then None else Some eb
           else Some (io_with_data eb (copy_extent_buffer (io_data eb) (io_data orig_eb) 0 (io_start eb - start) stripe_len)));
        ebs ← split_eb_for_raid56 fuel info st orig_eb stripe_len raid_map;
        Some (eb :: ebs)
  end.

(** The places of the stripes from index [i] on; [p_eb] and [q_eb] are new
    buffers (whose contents, before they are computed, are anything). *)
Fixpoint raid56_places (stripe_len : Z) (i : nat) (raid_map : list Z) (stripes : list btrfs_bio_stripe)
  (ebs : list io_buffer) (p_eb q_eb : option io_buffer) : option (list io_buffer * option io_buffer * option io_buffer) :=
  match raid_map, stripes with
  | a :: raid_map, s :: stripes =>
      let fd := dev_fd (bs_dev s) in
      if a <? BTRFS_RAID5_P_STRIPE then
        eb ← ebs !! i;
        if negb (io_start eb =? a) then None
        else raid56_places stripe_len (S i) raid_map stripes (<[i := io_at eb fd (bs_physical s)]> ebs) p_eb q_eb
      else
        let new_eb := IoBuffer 0 stripe_len fd (bs_physical s) 0 (fun _ => 0) in
        if a =? BTRFS_RAID5_P_STRIPE then raid56_places stripe_len (S i) raid_map stripes ebs (Some new_eb) q_eb
        else if a =? BTRFS_RAID6_Q_STRIPE then raid56_places stripe_len (S i) raid_map stripes ebs p_eb (Some new_eb)
        else raid56_places stripe_len (S i) raid_map stripes ebs p_eb q_eb
  | _, _ => Some (ebs, p_eb, q_eb)
  end.

(** [p ^= e], an [unsigned long] at a time. *)
Fixpoint xor_words (n : nat) (d : Z) (p e : buf) : buf :=
  match n with
  | O => p
  | S n => xor_words n (d + 8) (put_le 8 d (Z.lxor (get_le 8 p d) (get_le 8 e d)) p) e
  end.

(** All buffers with their contents.  An entry of [ebs] that is not assigned is
    [None]. *)
Definition raid56_parity (num_stripes : nat) (stripe_len : Z) (ebs : list io_buffer) (p_eb q_eb : option io_buffer) :
  option (list io_buffer) :=
  match q_eb with
  | Some q_eb =>
      p_eb ← p_eb;
      if negb (length ebs + 2 =? num_stripes)%nat then None
      else
        let ebs := ebs ++ [p_eb; q_eb] in
        pointers ← raid6_gen_syndrome (Z.of_nat num_stripes) stripe_len (io_data <$> ebs);
        Some (zip_with io_with_data ebs pointers)
  | None =>
      p_eb ← p_eb;
      if negb (length ebs + 1 =? num_stripes)%nat then None
      else
        match ebs with
        | [] => None
        | eb0 :: rest =>
            let p := copy_extent_buffer (io_data p_eb) (io_data eb0) 0 0 stripe_len in
            let p := foldl (fun p eb => xor_words (Z.to_nat ((stripe_len + 7) / 8)) 0 p (io_data eb)) p rest in
            Some (ebs ++ [io_with_data p_eb p])
        end
  end.

Fixpoint write_all (ebs : list io_buffer) : act disks unit :=
  match ebs with
  | [] => ret tt
  | eb :: ebs => (r <- write_extent_to_disk eb ;; bug_on (negb (r =? 0)) ;;; write_all ebs)%act
  end.

Definition write_raid56_with_parity (fuel : nat) (info : io_info) (eb : io_buffer) (stripes : list btrfs_bio_stripe)
  (stripe_len : Z) (raid_map : list Z) : act disks Z := fun st =>
  ebs ← split_eb_for_raid56 fuel info st eb stripe_len raid_map;
  '(ebs, p_eb, q_eb) ← raid56_places stripe_len 0 raid_map stripes ebs None None;
  ebs ← raid56_parity (length stripes) stripe_len ebs p_eb q_eb;
  '(_, st) ← write_all ebs st;
  Some (0, st).

(** ** Data *)

Fixpoint read_data_loop (fuel : nat) (info : io_info) (st : disks) (b : buf) (offset bytes_left total_read mirror : Z) :
  option (Z * buf) :=
  if bytes_left =? 0 then Some (0, b)
  else
    match fuel with
    | O => None
    | S fuel =>
        r ← btrfs_map_block (fi_mapping info) READ offset bytes_left mirror false;
        if negb (mr_ret r =? 0) then Some (- EIO, b)
        else
          multi ← mr_multi r;
          s ← head multi;
          let read_len := Z.min bytes_left (mr_length r) in
          if dev_fd (bs_dev s) =? 0 then Some (- EIO, b)
          else
            let '(ret, bytes) := pread st (dev_fd (bs_dev s)) read_len (bs_physical s) in
            let b := write_extent_buffer b bytes total_read in
            if ret <? 0 then Some (ret, b)
            else if negb (ret =? read_len) then Some (- EIO, b)
            else read_data_loop fuel info st b (u64 (offset + read_len)) (bytes_left - read_len) (total_read + read_len) mirror
    end.

Definition read_data_from_disk (fuel : nat) (info : io_info) (st : disks) (b : buf) (offset bytes mirror : Z) : option (Z * buf) :=
  read_data_loop fuel info st b offset bytes 0 mirror.

(** The loop over the copies; [inl] is an early return. *)
Fixpoint write_copies (b : buf) (total_write : Z) (this_len bytes_left : Z) (stripes : list btrfs_bio_stripe) :
  act disks (Z + Z) :=
  match stripes with
  | [] => ret (inr this_len)
  | s :: stripes =>
      if dev_fd (bs_dev s) =? 0 then ret (inl (- EIO))
      else
        let this_len := Z.min this_len bytes_left in
        (r <- (fun st => Some (pwrite st (dev_fd (bs_dev s)) b total_write this_len (bs_physical s))) ;;
        let '(r, errno) := (r : Z * Z) in
        if negb (r =? this_len) then ret (inl (if r <? 0 then errno else - EIO))
        else write_copies b total_write this_len bytes_left stripes)%act
  end.

Fixpoint write_data_loop (fuel : nat) (info : io_info) (b : buf) (offset bytes_left total_write mirror : Z) : act disks Z :=
  if bytes_left <=? 0 then ret 0
  else
    match fuel with
    | O => bug
    | S fuel =>
        (r <- assume_some (btrfs_map_block (fi_mapping info) WRITE offset bytes_left mirror true) ;;
        if negb (mr_ret r =? 0) then ret (- EIO)
        else
          multi <- assume_some (mr_multi r) ;;
          done <-
            match mr_raid_map r with
            | Some raid_map =>
                let stripe_len := mr_length r in
                let this_len := Z.min stripe_len bytes_left in
                let this_len := Z.min this_len (fi_leafsize info) in
                let eb := IoBuffer offset this_len 0 0 0 (fun x => b (total_write + x)) in
                ret' <- write_raid56_with_parity fuel info eb multi stripe_len raid_map ;;
                bug_on (negb (ret' =? 0)) ;;;
                ret (inr this_len)
            | None => write_copies b total_write (mr_length r) bytes_left multi
            end ;;
          match done with
          | inl err => ret err
          | inr this_len =>
              bug_on (bytes_left <? this_len) ;;;
              write_data_loop fuel info b (u64 (offset + this_len)) (bytes_left - this_len) (total_write + this_len) mirror
          end)%act
    end.

Definition write_data_to_disk (fuel : nat) (info : io_info) (b : buf) (offset bytes mirror : Z) : act disks Z :=
  write_data_loop fuel info b offset bytes 0 mirror.

(** ** Tree blocks *)

(** The loop over the copies in [write_and_map_eb]; [err] is the last return
    value. *)
Fixpoint write_eb_copies (eb : io_buffer) (err : Z) (stripes : list btrfs_bio_stripe) : act disks unit :=
  match stripes with
  | [] => ret tt
  | s :: stripes =>
      (bug_on (negb (err =? 0)) ;;;
      err <- write_extent_to_disk (io_at eb (dev_fd (bs_dev s)) (bs_physical s)) ;;
      bug_on (negb (err =? 0)) ;;;
      write_eb_copies eb err stripes)%act
  end.

Definition write_and_map_eb (fuel : nat) (info : io_info) (eb : io_buffer) : act disks Z :=
  (r <- assume_some (btrfs_map_block (fi_mapping info) WRITE (io_start eb) (io_len eb) 0 true) ;;
  match mr_raid_map r with
  | Some raid_map =>
      multi <- assume_some (mr_multi r) ;;
      err <- write_raid56_with_parity fuel info eb multi (mr_length r) raid_map ;;
      bug_on (negb (err =? 0))
  | None =>
      multi <- assume_some (mr_multi r) ;;
      write_eb_copies eb (mr_ret r) multi
  end ;;;
  ret 0)%act.

Definition check_tree_block (info : io_info) (eb : io_buffer) : Z :=
  if negb (io_start eb =? btrfs_header_bytenr (io_data eb)) then 1
  else if existsb (fun fsid => memcmp_extent_buffer (io_data eb) fsid btrfs_header_fsid) (fi_fsids info) then 0
  else 1.

Definition csum_tree_block (info : io_info) (eb : io_buffer) (verify : bool) : option (Z * io_buffer) :=
  '(ret, b) ← csum_tree_block_size (io_data eb) (io_len eb) (fi_csum_size info) verify;
  Some (ret, io_with_data eb b).

Definition extent_buffer_uptodate (eb : io_buffer) : bool := has_type (io_flags eb) EXTENT_UPTODATE.
Definition set_extent_buffer_uptodate (eb : io_buffer) : io_buffer := io_with_flags eb (Z.lor (io_flags eb) EXTENT_UPTODATE).
Definition clear_extent_buffer_uptodate (eb : io_buffer) : io_buffer :=
  io_with_flags eb (Z.land (io_flags eb) (Z.lnot EXTENT_UPTODATE)).

Definition verify_parent_transid (eb : io_buffer) (parent_transid : Z) (ignore : bool) : Z * io_buffer :=
  let gen := btrfs_header_generation (io_data eb) in
  if (parent_transid =? 0) || (gen =? parent_transid) then (0, eb)
  else if extent_buffer_uptodate eb && (gen =? parent_transid) then (0, clear_extent_buffer_uptodate eb)
  else if ignore then (0, io_with_flags eb (Z.lor (io_flags eb) EXTENT_BAD_TRANSID))
  else (1, clear_extent_buffer_uptodate eb).

Definition btrfs_buffer_uptodate (eb : io_buffer) (parent_transid : Z) : bool * io_buffer :=
  if negb (extent_buffer_uptodate eb) then (false, eb)
  else let '(ret, eb) := verify_parent_transid eb parent_transid true in (ret =? 0, eb).

(** The tests a block has to pass after it was read, in order; the first that
    fails ends them. *)
Definition tree_block_tests (info : io_info) (eb : io_buffer) (parent_transid : Z) (ignore : bool) : option (bool * io_buffer) :=
  if negb (check_tree_block info eb =? 0) then Some (false, eb)
  else
    '(csum, eb) ← csum_tree_block info eb true;
    if negb (csum =? 0) then Some (false, eb)
    else let '(ret, eb) := verify_parent_transid eb parent_transid ignore in Some (ret =? 0, eb).

(** The loop over the mirrors; [rounds] is the fuel for each read. *)
Fixpoint read_tree_block_loop (fuel rounds : nat) (info : io_info) (st : disks) (eb : io_buffer) (parent_transid : Z)
  (mirror_num good_mirror best_transid : Z) (ignore : bool) : option (option io_buffer) :=
  match fuel with
  | O => None
  | S fuel =>
      '(ret, eb) ← read_whole_eb rounds info st eb mirror_num;
      tested ← (if ret =? 0 then tree_block_tests info eb parent_transid ignore else Some (false, eb));
      let '(good, eb) := (tested : bool * io_buffer) in
      if good then Some (Some (set_extent_buffer_uptodate eb))
      else if ignore then Some None
      else
        num_copies ← btrfs_num_copies (fi_mapping info) (io_start eb);
        if num_copies =? 1 then read_tree_block_loop fuel rounds info st eb parent_transid mirror_num good_mirror best_transid true
        else
          let gen := btrfs_header_generation (io_data eb) in
          let '(best_transid, good_mirror) := if best_transid <? gen then (gen, mirror_num) else (best_transid, good_mirror) in
          let mirror_num := mirror_num + 1 in
          if num_copies <? mirror_num
          then read_tree_block_loop fuel rounds info st eb parent_transid good_mirror good_mirror best_transid true
          else read_tree_block_loop fuel rounds info st eb parent_transid mirror_num good_mirror best_transid false
  end.

(** [read_tree_block], given the buffer that [btrfs_find_create_tree_block]
    returns; the list of blocks to be copied again is left out. *)
Definition read_tree_block (fuel rounds : nat) (info : io_info) (st : disks) (eb : option io_buffer) (parent_transid : Z) :
  option (option io_buffer) :=
  match eb with
  | None => Some None
  | Some eb =>
      let '(uptodate, eb) := btrfs_buffer_uptodate eb parent_transid in
      if uptodate then Some (Some eb) else read_tree_block_loop fuel rounds info st eb parent_transid 0 0 0 false
  end.

Definition write_tree_block (fuel : nat) (info : io_info) (transid : Z) (eb : io_buffer) : act disks Z := fun st =>
  if negb (check_tree_block info eb =? 0) then None
  else
    let '(uptodate, eb) := btrfs_buffer_uptodate eb transid in
    if negb uptodate then None
    else
      let eb := io_with_data eb (btrfs_set_header_flag (io_data eb) BTRFS_HEADER_FLAG_WRITTEN) in
      '(_, eb) ← csum_tree_block info eb false;
      write_and_map_eb fuel info eb st.
End Io.

Arguments io_info T : clear implicits.
