(* ===== verification/BlockIoSpec.v ===== *)
(** The bytes on the disks, and what single reads and writes do to them.

    [volume_ok st ms vol]: the disks [st] hold the contents [vol] of the logical
    addresses of the chunks [ms], in all copies and with the right parity. *)

From S2P Require Import Prelude RbSpec ExtentCache Buf Volumes VolumesSpec VolumesMap VolumesMapping Raid6.
From S2P Require Import BlockIo.

Definition dev_byte (st : disks) (fd x : Z) : Z := match st !! fd with Some d => dk_data d x | None => 0 end.

(** The byte at an offset of the extent that the chunk has on its device [i]. *)
Definition place_byte (st : disks) (m : map_lookup) (i off : Z) : Z :=
  dev_byte st (dev_fd (bs_dev (the_stripe m i))) (bs_physical (the_stripe m i) + off).

(** The chunks lie on open files, inside the devices and on good sectors. *)
Record store_ok (st : disks) (ms : list (map_lookup * profile)) : Prop := {
  so_there : forall c i, c ∈ ms -> 0 <= i < map_num_stripes c.1 ->
    let s := the_stripe c.1 i in
    dev_fd (bs_dev s) <> 0 /\ exists d, st !! dev_fd (bs_dev s) = Some d /\
      bs_physical s + dev_len c.1 c.2 <= dk_size d /\
      forall off, 0 <= off < dev_len c.1 c.2 -> dk_bad d (bs_physical s + off) = false;
  so_bytes : forall fd x, in_byte (dev_byte st fd x);
}.

Lemma io_with_same eb : io_with_data eb (io_data eb) = eb.
Proof. by destruct eb. Qed.

(** The bytes of a row at [x] in each data stripe. *)
Definition row_bytes (vol : Z -> Z) (m : map_lookup) (p : profile) (row x : Z) : list Z :=
  (fun j => vol (ce_start (map_ce m) + ((row * data_count m p + j) * map_stripe_len m + x))) <$> seqZ 0 (data_count m p).

(** The parity [k] of a row. *)
Definition parity_of (k : Z) (l : list Z) : Z := if k =? 0 then gf_parity l else gf_syndrome l.

Record volume_ok (st : disks) (ms : list (map_lookup * profile)) (vol : Z -> Z) : Prop := {
  vo_store : store_ok st ms;
  vo_data : forall c o copy, c ∈ ms -> 0 <= o < ce_size (map_ce c.1) -> 0 <= copy < data_copies c.1 c.2 ->
    place_byte st c.1 (index_of c.1 c.2 o copy) (row_off c.1 c.2 o) = vol (ce_start (map_ce c.1) + o);
  vo_parity : forall c row k x, c ∈ ms -> 0 <= row < rows c.1 c.2 -> 0 <= k < parity_count c.2 -> 0 <= x < map_stripe_len c.1 ->
    place_byte st c.1 (parity_index c.1 c.2 row k) (row * map_stripe_len c.1 + x) = parity_of k (row_bytes vol c.1 c.2 row x);
}.

Section Places.
Context (ms : list (map_lookup * profile)) (Hd : extents_disjoint ms).

Section One.
Context (st : disks) (Hst : store_ok st ms) (m : map_lookup) (p : profile) (Hin : (m, p) ∈ ms).
Context (i off len : Z) (Hi : 0 <= i < map_num_stripes m) (Hoff : 0 <= off) (Hlen : 0 <= len <= MAX_RW_COUNT) (Hfit : off + len <= dev_len m p).

Lemma pread_run :
  exists l, pread st (dev_fd (bs_dev (located m i off))) len (bs_physical (located m i off)) = (len, l) /\
    l = read_extent_buffer (fun x => place_byte st m i (off + x)) 0 (Z.to_nat len).
Proof using Hst Hin Hi Hoff Hlen Hfit.
  destruct (so_there st ms Hst (m, p) i Hin Hi) as (_ & d & Hst' & Hsz & Hgood). cbn [fst snd] in *.
  unfold pread. cbn [located bs_dev bs_physical]. rewrite Hst'. set (phys := bs_physical (the_stripe m i)) in *.
  replace (rw_count d len (phys + off)) with len by (unfold rw_count; lia).
  destruct (existsb _ _) eqn:Eb.
  - apply existsb_exists in Eb as (k & Hk%in_seq & Hbad). rewrite <- Z.add_assoc, Hgood in Hbad by lia. done.
  - eexists. split; [done|]. apply read_agree. intros x Hx. unfold place_byte, dev_byte. rewrite Hst'. fold phys. f_equal. lia.
Qed.

(** A write changes the place it is for, and no other. *)
Lemma pwrite_run b start :
  bytes_ok b ->
  exists st', pwrite st (dev_fd (bs_dev (located m i off))) b start len (bs_physical (located m i off)) = (len, 0, st') /\
    store_ok st' ms /\
    forall m' p' i' off', (m', p') ∈ ms -> 0 <= i' < map_num_stripes m' -> 0 <= off' < dev_len m' p' ->
      place_byte st' m' i' off' =
        if decide ((m', p') = (m, p) /\ i' = i /\ off <= off' < off + len) then b (start + (off' - off)) else place_byte st m' i' off'.
Proof using Hd Hst Hin Hi Hoff Hlen Hfit.
  intros Hb. destruct (so_there st ms Hst (m, p) i Hin Hi) as (Hfd & d & Hst' & Hsz & Hgood). cbn [fst snd] in *.
  unfold pwrite. rewrite !located_fd, !located_physical. set (fd := dev_fd (bs_dev (the_stripe m i))) in *.
  set (phys := bs_physical (the_stripe m i)) in *. rewrite Hst'.
  replace (rw_count d len (phys + off)) with len by (unfold rw_count; lia). eexists. split; [reflexivity|].
  set (d' := Disk (dk_size d) (dk_bad d) (copy_extent_buffer (dk_data d) b (phys + off) start len)).
  assert (Hbyte : forall fd' x, dev_byte (<[fd := d']> st) fd' x =
    if decide (fd' = fd /\ phys + off <= x < phys + off + len) then b (start + (x - (phys + off))) else dev_byte st fd' x).
  { intros fd' x. unfold dev_byte. destruct (Z.eq_dec fd' fd) as [->|Hne].
    - rewrite lookup_insert_eq, Hst'. unfold d', copy_extent_buffer. cbn [dk_data].
      destruct (Z.leb_spec (phys + off) x), (Z.ltb_spec x (phys + off + len)); simpl; destruct (decide _); try done; lia.
    - rewrite lookup_insert_ne by done. by rewrite decide_False by tauto. }
  split.
  - split.
    + intros c j Hc Hj. destruct (so_there st ms Hst c j Hc Hj) as (H1 & d1 & H2 & H3 & H4). split; [done|].
      destruct (Z.eq_dec (dev_fd (bs_dev (the_stripe c.1 j))) fd) as [Heq|Hne].
      * exists d'. rewrite Heq, lookup_insert_eq. rewrite Heq, Hst' in H2. injection H2 as <-. done.
      * exists d1. by rewrite lookup_insert_ne.
    + intros fd' x. rewrite Hbyte. destruct (decide _); [apply Hb|apply (so_bytes st ms Hst)].
  - intros m' p' i' off' Hin' Hi' Hoff'. unfold place_byte. rewrite Hbyte.
    destruct (decide ((m', p') = (m, p) /\ i' = i /\ off <= off' < off + len)) as [(Heq & -> & Hr)|Hno].
    + injection Heq as -> ->. fold fd phys. rewrite decide_True by lia. f_equal. lia.
    + rewrite decide_False; [done|]. intros [Hf Hr]. apply Hno.
      destruct (place_unique ms m' p' m p i' i off' (bs_physical (the_stripe m' i') + off' - phys) Hd Hin' Hin Hi' Hi Hoff') as (H1 & H2 & H3);
        [lia|done|cbn [located bs_physical]; fold phys; lia|]. split; [done|]. split; [done|]. lia.
Qed.
End One.
End Places.

(** ** Reads return the contents of the volume. *)

Section Read.
Context {T : Type} `{RbTreeLaws T}.
Context (info : io_info T) (ms : list (map_lookup * profile)) (Hmap : mapping_ok (fi_mapping info) ms) (Hd : extents_disjoint ms).

(** The addresses [lo .. hi - 1] are in chunks. *)
Definition mapped (lo hi : Z) : Prop :=
  forall a, lo <= a < hi -> exists m p o, (m, p) ∈ ms /\ 0 <= o < ce_size (map_ce m) /\ a = ce_start (map_ce m) + o.

Definition mirror_ok (mirror : Z) : Prop := forall m p, (m, p) ∈ ms -> data_mirror m p mirror.

Lemma mirror_zero : mirror_ok 0.
Proof using Hmap.
  intros m p Hin. pose proof (chunk_ok _ _ m p Hmap Hin) as Hm. split; [|by right; lia].
  rewrite (num_copies_ok m p Hm). pose proof (copies_pos m p Hm). destruct p; lia.
Qed.

Section Store.
Context (st : disks) (vol : Z -> Z) (Hvol : volume_ok st ms vol).

(** The bytes of a piece. *)
Lemma piece_bytes m p o mirror x :
  (m, p) ∈ ms -> 0 <= o < ce_size (map_ce m) -> data_mirror m p mirror -> 0 <= x < piece m p o ->
  place_byte st m (read_index m p o mirror) (row_off m p o + x) = vol (ce_start (map_ce m) + o + x).
Proof using Hmap Hvol.
  intros Hin Ho Hmir Hx. pose proof (chunk_ok _ _ m p Hmap Hin) as Hm.
  destruct (piece_shift m p Hm o x Ho Hx) as (Ho' & Hro & _ & Hri). rewrite <- Hro, <- (Hri mirror).
  destruct (data_read m p Hm (o + x) mirror Hmir) as (c & Hc & ->).
  pose proof (vo_data st ms vol Hvol (m, p) (o + x) c Hin Ho' Hc) as Hv. cbn [fst snd] in Hv. rewrite Hv. f_equal. lia.
Qed.

(** One read of the loops: where [btrfs_map_block] sends it, and what it gets. *)
Lemma read_step a left mirror :
  mapped a (a + left) -> 0 < left -> mirror_ok mirror -> exists len s ty,
  btrfs_map_block (fi_mapping info) READ a left mirror false = Some (MapResult 0 len ty (Some [s]) None) /\
  0 <= a < 2 ^ 64 /\ 0 < len /\ a + len < 2 ^ 64 /\ dev_fd (bs_dev s) <> 0 /\
  forall n, 0 <= n <= len -> n <= MAX_RW_COUNT -> pread st (dev_fd (bs_dev s)) n (bs_physical s) = (n, read_extent_buffer (fun x => vol (a + x)) 0 (Z.to_nat n)).
Proof using Hmap Hvol.
  intros Hrange Hleft Hmir. destruct (Hrange a) as (m & p & o & Hin & Ho & ->); [lia|].
  pose proof (chunk_ok _ _ m p Hmap Hin) as Hm. pose proof (Hmir m p Hin) as Hdm. pose proof Hdm as [Hc _].
  pose proof (read_index_range m p Hm o Ho mirror Hc) as Hri. pose proof (row_off_range m p Hm o Ho) as Hro.
  pose proof (piece_range m p Hm o Ho). pose proof (piece_fits m p Hm o Ho). pose proof (mo_start m p Hm). pose proof (mo_end m p Hm).
  eexists _, _, _. split; [by apply (map_block_read _ _ m p Hmap Hin)|]. split; [lia|]. split; [lia|]. split; [lia|].
  pose proof (vo_store _ _ _ Hvol) as Hst.
  split; [rewrite located_fd; by apply (so_there st ms Hst (m, p) _ Hin Hri)|].
  intros n Hn Hmax. destruct (pread_run ms st Hst m p Hin (read_index m p o mirror) (row_off m p o) n Hri) as (l & -> & ->); [lia..|].
  f_equal. apply read_agree. intros x Hx. rewrite !Z.add_0_l. symmetry. rewrite piece_bytes by (done || lia). done.
Qed.

Lemma mapped_after lo n hi : mapped lo hi -> 0 <= n -> mapped (lo + n) hi.
Proof using Type. intros Hr Hn a Ha. apply Hr. lia. Qed.

Lemma write_read_bytes b n f start x : 0 <= n ->
  write_extent_buffer b (read_extent_buffer f 0 (Z.to_nat n)) start x =
    if decide (start <= x < start + n) then f (x - start) else b x.
Proof using Type.
  intros Hn. destruct (decide (start <= x < start + n)) as [Hx|Hx].
  - pose proof (read_write b (read_extent_buffer f 0 (Z.to_nat n)) start) as Hrw. rewrite read_length in Hrw.
    apply (f_equal (fun l => nth (Z.to_nat (x - start)) l 0)) in Hrw. rewrite !read_nth in Hrw by lia.
    replace (start + Z.of_nat (Z.to_nat (x - start))) with x in Hrw by lia. rewrite Hrw. f_equal. lia.
  - apply write_outside. rewrite read_length. lia.
Qed.

Lemma read_data_run fuel b a left total mirror :
  mapped a (a + left) -> 0 <= left <= Z.of_nat fuel -> left <= MAX_RW_COUNT -> mirror_ok mirror ->
  exists b', read_data_loop fuel info st b a left total mirror = Some (0, b') /\
    forall x, b' x = if decide (total <= x < total + left) then vol (a + (x - total)) else b x.
Proof using Hmap Hvol.
  intros Hr Hf Hmax Hmir. revert b a left total Hr Hf Hmax. induction fuel as [|fuel IH]; intros b a left total Hr Hf Hmax.
  { replace left with 0 by lia. exists b. split; [done|]. intros x. by rewrite decide_False by lia. }
  cbn [read_data_loop]. destruct (Z.eqb_spec left 0) as [->|Hne].
  { exists b. split; [done|]. intros x. by rewrite decide_False by lia. }
  destruct (read_step a left mirror Hr ltac:(lia) Hmir) as (len & s & ty & -> & Ha & Hlen & Hend & Hfd & Hpread).
  cbn [mbind option_bind mr_ret mr_multi mr_length head]. change (negb (0 =? 0)) with false. cbv iota.
  rewrite (proj2 (Z.eqb_neq _ _)) by done. rewrite Hpread by lia. rewrite (proj2 (Z.ltb_ge _ 0)) by lia. rewrite Z.eqb_refl. cbn [negb].
  set (n := Z.min left len) in *. assert (Hn : 0 < n) by lia. rewrite u64_id by lia.
  destruct (IH (write_extent_buffer b (read_extent_buffer (fun x => vol (a + x)) 0 (Z.to_nat n)) total) (a + n) (left - n) (total + n))
    as (b' & Hrun & Hb'); [replace (a + n + (left - n)) with (a + left) by lia; apply mapped_after; [done|lia]|lia|lia|].
  exists b'. split; [exact Hrun|]. intros x. rewrite Hb', write_read_bytes by lia.
  destruct (decide (total + n <= x < total + n + (left - n))), (decide (total <= x < total + n)), (decide (total <= x < total + left)); try lia.
  all: try done. all: f_equal; lia.
Qed.

(** [read_whole_eb]. *)
Lemma read_whole_run fuel eb offset left mirror :
  fi_on_restoring info = false -> 0 <= offset -> offset + left = io_len eb ->
  mapped (io_start eb + offset) (io_start eb + io_len eb) -> 0 <= left <= Z.of_nat fuel -> left <= MAX_RW_COUNT -> mirror_ok mirror ->
  exists eb', read_whole_eb_loop fuel info st eb mirror offset left = Some (0, eb') /\
    io_start eb' = io_start eb /\ io_len eb' = io_len eb /\ io_flags eb' = io_flags eb /\
    forall x, io_data eb' x = if decide (offset <= x < io_len eb) then vol (io_start eb + x) else io_data eb x.
Proof using Hmap Hvol.
  intros Hrest Hoff Hl Hr Hf Hmax Hmir. revert eb offset left Hoff Hl Hr Hf Hmax. induction fuel as [|fuel IH]; intros eb offset left Hoff Hl Hr Hf Hmax.
  { replace left with 0 by lia. exists eb. split; [done|]. split_and!; try done. intros x. by rewrite decide_False by lia. }
  cbn [read_whole_eb_loop]. destruct (Z.eqb_spec left 0) as [->|Hne].
  { exists eb. split; [done|]. split_and!; try done. intros x. by rewrite decide_False by lia. }
  rewrite Hrest. cbn [negb]. cbv zeta.
  assert (Hr' : mapped (io_start eb + offset) (io_start eb + offset + left)) by (replace (io_start eb + offset + left) with (io_start eb + io_len eb) by lia; done).
  destruct (read_step (io_start eb + offset) left mirror Hr' ltac:(lia) Hmir) as (len & s & ty & Hblk & Ha & Hlen & Hend & Hfd & Hpread).
  rewrite u64_id by lia. rewrite Hblk. cbn [mbind option_bind mr_ret mr_multi mr_length head]. change (negb (0 =? 0)) with false. cbv iota.
  rewrite (proj2 (Z.eqb_neq _ _)) by done. set (n := if left <? len then left else len) in *.
  assert (Hn : 0 < n <= left /\ n <= len) by (unfold n; destruct (Z.ltb_spec left len); lia). clearbody n.
  unfold read_extent_from_disk. cbn [io_at io_fd io_dev_bytenr]. rewrite Hpread by lia. rewrite (proj2 (Z.ltb_ge _ 0)) by lia. rewrite Z.eqb_refl. cbn [negb].
  change (negb (0 =? 0)) with false. cbv iota. set (eb1 := io_with_data _ _).
  destruct (IH eb1 (offset + n) (left - n)) as (eb' & Hrun & E1 & E2 & E3 & Hb'); [lia|cbn; lia| |lia|lia|].
  { cbn. rewrite Z.add_assoc. apply mapped_after; [done|lia]. }
  exists eb'. split; [exact Hrun|]. split_and!; [done..|]. intros x. rewrite Hb'. unfold eb1. cbn [io_with_data io_at io_data io_len io_start].
  rewrite write_read_bytes by lia.
  destruct (decide (offset + n <= x < io_len eb)), (decide (offset <= x < offset + n)), (decide (offset <= x < io_len eb)); try lia; try done.
  f_equal. lia.
Qed.
End Store.
End Read.

(** ** Writes change the volume where they should, keep the copies equal and the
    parity right. *)

(** [f] in place of [vol] on the [n] addresses from [a] on. *)
Definition overlay (vol : Z -> Z) (a n : Z) (f : Z -> Z) : Z -> Z := fun y =>
  if decide (a <= y < a + n) then f (y - a) else vol y.

Section Written.
Context (ms : list (map_lookup * profile)) (Hd : extents_disjoint ms).

(** From [st] to [st']: on the devices [l] of a chunk, [data] at an offset. *)
Definition written (st st' : disks) (m : map_lookup) (p : profile) (l : list Z) (off len : Z) (data : Z -> Z -> Z) : Prop :=
  store_ok st' ms /\
  forall m' p' i' off', (m', p') ∈ ms -> 0 <= i' < map_num_stripes m' -> 0 <= off' < dev_len m' p' ->
    place_byte st' m' i' off' =
      if decide ((m', p') = (m, p) /\ i' ∈ l /\ off <= off' < off + len) then data i' (off' - off) else place_byte st m' i' off'.

Context (m : map_lookup) (p : profile) (Hin : (m, p) ∈ ms).
Context (off len : Z) (Hoff : 0 <= off) (Hlen : 0 <= len <= MAX_RW_COUNT) (Hfit : off + len <= dev_len m p).

Lemma written_none st data : store_ok st ms -> written st st m p [] off len data.
Proof using Type. intros Hst. split; [done|]. intros. rewrite decide_False; [done|]. intros (_ & Hx & _). by apply not_elem_of_nil in Hx. Qed.

Lemma written_cons st st1 st' i l data :
  written st st1 m p [i] off len data -> written st1 st' m p l off len data -> written st st' m p (i :: l) off len data.
Proof using Type.
  clear Hd Hin Hoff Hlen Hfit. intros [_ H1] [Hst' H2]. split; [done|]. intros m' p' i' off' Hin' Hi' Hoff'. rewrite (H2 m' p'), (H1 m' p') by done.
  destruct (decide ((m', p') = (m, p) /\ i' ∈ l /\ _)) as [Ha|Ha]; [rewrite decide_True by set_solver; done|].
  destruct (decide ((m', p') = (m, p) /\ i' ∈ [i] /\ _)) as [Hb|Hb]; [rewrite decide_True by set_solver; done|].
  rewrite decide_False; [done|]. intros (Heq & Hc & Hr). apply elem_of_cons in Hc as [->|Hc]; [apply Hb; set_solver|by apply Ha].
Qed.

(** One write. *)
Lemma written_one st i b start data :
  store_ok st ms -> 0 <= i < map_num_stripes m -> bytes_ok b -> (forall x, 0 <= x < len -> b (start + x) = data i x) ->
  exists st', pwrite st (dev_fd (bs_dev (located m i off))) b start len (bs_physical (located m i off)) = (len, 0, st') /\
    written st st' m p [i] off len data.
Proof using Hd Hin Hoff Hlen Hfit.
  intros Hst Hi Hb Hdata. destruct (pwrite_run ms Hd st Hst m p Hin i off len Hi Hoff Hlen Hfit b start Hb) as (st' & -> & Hst' & Hall).
  exists st'. split; [done|]. split; [done|]. intros m' p' i' off' Hin' Hi' Hoff'. rewrite (Hall m' p') by done.
  destruct (decide (_ /\ i' = i /\ _)) as [(Heq & -> & Hr)|Ha].
  - rewrite decide_True by set_solver. apply Hdata. lia.
  - rewrite decide_False; [done|]. intros (Heq & Hx%list_elem_of_singleton & Hr). by apply Ha.
Qed.

(** The buffer [eb] is for device [i]. *)
Definition placed_at (data : Z -> Z -> Z) (i : Z) (eb : io_buffer) : Prop :=
  io_fd eb = dev_fd (bs_dev (located m i off)) /\ io_dev_bytenr eb = bs_physical (located m i off) /\ io_len eb = len /\
  bytes_ok (io_data eb) /\ forall x, 0 <= x < len -> io_data eb x = data i x.

Lemma write_extent_run st i eb data :
  store_ok st ms -> 0 <= i < map_num_stripes m -> placed_at data i eb ->
  exists st', write_extent_to_disk eb st = Some (0, st') /\ written st st' m p [i] off len data.
Proof using Hd Hin Hoff Hlen Hfit.
  intros Hst Hi (E1 & E2 & E3 & Hb & Hx). destruct (written_one st i (io_data eb) 0 data Hst Hi Hb) as (st' & Hrun & Hw);
    [intros x Hr; rewrite Z.add_0_l; by apply Hx|]. exists st'. split; [|done].
  unfold write_extent_to_disk. rewrite E1, E2, E3, Hrun. by rewrite (proj2 (Z.ltb_ge _ _)), Z.eqb_refl by lia.
Qed.

Lemma write_all_run st l ebs data :
  store_ok st ms -> Forall (fun i => 0 <= i < map_num_stripes m) l -> Forall2 (placed_at data) l ebs ->
  exists st', write_all ebs st = Some (tt, st') /\ written st st' m p l off len data.
Proof using Hd Hin Hoff Hlen Hfit.
  intros Hst Hl Hebs. revert st Hst. induction Hebs as [|i eb l ebs Hi Hebs IH]; intros st Hst.
  { exists st. split; [done|]. by apply written_none. }
  apply Forall_cons in Hl as [Hri Hl]. destruct (write_extent_run st i eb data Hst Hri Hi) as (st1 & Hrun & Hw1).
  destruct (IH Hl st1 (proj1 Hw1)) as (st' & Hrun' & Hw'). exists st'. split; [|by eapply written_cons].
  cbn [write_all]. rewrite (bind_some _ _ st 0 st1 Hrun). exact Hrun'.
Qed.

Lemma write_eb_copies_run st l eb data :
  store_ok st ms -> Forall (fun i => 0 <= i < map_num_stripes m) l -> io_len eb = len -> bytes_ok (io_data eb) ->
  (forall i x, 0 <= x < len -> io_data eb x = data i x) ->
  exists st', write_eb_copies eb 0 ((fun i => located m i off) <$> l) st = Some (tt, st') /\ written st st' m p l off len data.
Proof using Hd Hin Hoff Hlen Hfit.
  intros Hst Hl Hel Hb Hx. revert st Hst. induction l as [|i l IH]; intros st Hst.
  { exists st. split; [done|]. by apply written_none. }
  apply Forall_cons in Hl as [Hri Hl].
  destruct (write_extent_run st i (io_at eb (dev_fd (bs_dev (located m i off))) (bs_physical (located m i off))) data Hst Hri) as (st1 & Hrun & Hw1);
    [split_and!; try done; by apply Hx|].
  destruct (IH Hl st1 (proj1 Hw1)) as (st' & Hrun' & Hw'). exists st'. split; [|by eapply written_cons].
  cbn [fmap list_fmap write_eb_copies]. change (bug_on (negb (0 =? 0))) with (@ret disks unit tt).
  rewrite (bind_some _ _ st tt st) by done. rewrite (bind_some _ _ st 0 st1 Hrun). exact Hrun'.
Qed.

Lemma write_copies_run st l b total this left data :
  store_ok st ms -> Forall (fun i => 0 <= i < map_num_stripes m) l -> bytes_ok b -> l <> [] -> Z.min this left = len ->
  (forall i x, 0 <= x < len -> b (total + x) = data i x) ->
  exists st', write_copies b total this left ((fun i => located m i off) <$> l) st = Some (inr len, st') /\
    written st st' m p l off len data.
Proof using Hd Hin Hoff Hlen Hfit.
  intros Hst Hl Hb Hne Hmin Hx.
  assert (Hgo : forall l st this, store_ok st ms -> Forall (fun i => 0 <= i < map_num_stripes m) l -> Z.min this left = len -> (l = [] -> this = len) ->
    exists st', write_copies b total this left ((fun i => located m i off) <$> l) st = Some (inr len, st') /\ written st st' m p l off len data).
  { clear st Hst l Hl Hne this Hmin. intros l. induction l as [|i l IH]; intros st this Hst Hl Hmin Hthis.
    { exists st. cbn. rewrite (Hthis eq_refl). split; [done|]. by apply written_none. }
    apply Forall_cons in Hl as [Hri Hl].
    destruct (written_one st i b total data Hst Hri Hb) as (st1 & Hrun & Hw1); [intros x Hr; by apply Hx|].
    destruct (IH st1 len (proj1 Hw1) Hl) as (st' & Hrun' & Hw'); [lia|done|]. exists st'. split; [|by eapply written_cons].
    cbn [fmap list_fmap write_copies]. rewrite (proj2 (Z.eqb_neq _ 0)) by (by apply (so_there st ms Hst (m, p) i Hin Hri)).
    rewrite Hmin. rewrite (bind_some _ _ st (len, 0) st1) by (by rewrite Hrun). rewrite Z.eqb_refl. exact Hrun'. }
  apply Hgo; try done.
Qed.
End Written.

(** ** What it makes of the volume *)

Section Volume.
Context {T : Type} `{RbTreeLaws T}.
Context (t : btrfs_mapping_tree T) (ms : list (map_lookup * profile)) (Hmap : mapping_ok t ms) (Hd : extents_disjoint ms).

(** An address is in one chunk. *)
Lemma addr_unique m p o m' p' o' :
  (m, p) ∈ ms -> (m', p') ∈ ms -> 0 <= o < ce_size (map_ce m) -> 0 <= o' < ce_size (map_ce m') ->
  ce_start (map_ce m) + o = ce_start (map_ce m') + o' -> (m, p) = (m', p') /\ o = o'.
Proof using Hmap.
  intros Hin Hin' Ho Ho' Heq. destruct (search_map_found t ms m p o Hmap Hin Ho) as (Hm & x & Hs & Hx).
  destruct (search_map_found t ms m' p' o' Hmap Hin' Ho') as (Hm' & x' & Hs' & Hx').
  rewrite Heq, Hs' in Hs. injection Hs as ->. rewrite Hx' in Hx. injection Hx as ->.
  assert (p = p') as ->; [|split; [done|lia]].
  pose proof (mo_type m p Hm) as T1. rewrite (mo_type m p' Hm') in T1. by destruct p, p'.
Qed.

(** A write to all copies of a piece. *)
Lemma copies_written st st' vol m p o n f :
  volume_ok st ms vol -> (m, p) ∈ ms -> 0 <= o < ce_size (map_ce m) -> parity_count p = 0 -> 0 <= n <= piece m p o ->
  written ms st st' m p ((fun c => index_of m p o c) <$> seqZ 0 (data_copies m p)) (row_off m p o) n (fun _ => f) ->
  volume_ok st' ms (overlay vol (ce_start (map_ce m) + o) n f).
Proof using Hmap.
  intros Hvol Hin Ho Hpar Hn [Hst' Hw]. pose proof (chunk_ok t ms m p Hmap Hin) as Hm.
  pose proof (piece_range m p Hm o Ho) as Hpr. split; [done| |].
  - intros [m' p'] o' c' Hin' Ho' Hc'. cbn [fst snd] in *. pose proof (chunk_ok t ms m' p' Hmap Hin') as Hm'.
    pose proof (vo_data st ms vol Hvol (m', p') o' c' Hin' Ho' Hc') as Hv. cbn [fst snd] in Hv.
    pose proof (index_range m' p' Hm' o' Ho' c' Hc') as Hii. pose proof (row_off_range m' p' Hm' o' Ho') as Hro.
    rewrite (Hw m' p') by done. unfold overlay.
    destruct (decide ((m', p') = (m, p) /\ _)) as [(Heq & Hl & Hr)|Hno].
    + injection Heq as -> ->. apply list_elem_of_fmap in Hl as (c & Hic & Hc%elem_of_seqZ).
      remember (row_off m p o' - row_off m p o) as x eqn:Hx. destruct (piece_shift m p Hm o x Ho) as (Hox & Hrx & Hix & _); [lia|].
      destruct (place_inj m p Hm o' c' (o + x) c Ho' Hox Hc') as [-> _]; [lia|by rewrite Hix|lia|].
      rewrite decide_True by lia. f_equal. lia.
    + rewrite Hv. rewrite decide_False; [done|]. intros Ha. apply Hno.
      remember (ce_start (map_ce m') + o' - (ce_start (map_ce m) + o)) as x eqn:Hx.
      destruct (piece_shift m p Hm o x Ho) as (Hox & Hrx & Hix & _); [lia|].
      destruct (addr_unique m' p' o' m p (o + x) Hin' Hin Ho' Hox) as [Heq ->]; [lia|]. split; [done|].
      injection Heq as -> ->. rewrite Hrx, Hix. split; [|lia]. apply list_elem_of_fmap. exists c'. split; [done|]. apply elem_of_seqZ. lia.
  - intros [m' p'] row k x Hin' Hrow Hk Hx. cbn [fst snd] in *. pose proof (chunk_ok t ms m' p' Hmap Hin') as Hm'.
    pose proof (vo_parity st ms vol Hvol (m', p') row k x Hin' Hrow Hk Hx) as Hv. cbn [fst snd] in Hv.
    pose proof (parity_range m' p' Hm' row k) as Hpi. pose proof (row_bound row (rows m' p') x _ Hrow Hx) as Hrb. fold (dev_len m' p') in Hrb.
    rewrite (Hw m' p') by (done || lia).
    assert (Hne : (m', p') <> (m, p)) by (intros Heq; injection Heq as -> ->; lia).
    rewrite decide_False by tauto. rewrite Hv. f_equal. unfold row_bytes. apply list_fmap_ext. intros i j [-> Hj]%lookup_seqZ.
    unfold overlay. rewrite decide_False; [done|]. intros Ha. apply Hne.
    destruct (compose_offset m' p' Hm' row (0 + Z.of_nat i) x Hrow) as (Ho' & _); [lia|done|].
    set (y := ce_start (map_ce m') + ((row * data_count m' p' + (0 + Z.of_nat i)) * map_stripe_len m' + x) - (ce_start (map_ce m) + o)) in *.
    destruct (piece_shift m p Hm o y Ho) as (Hoy & _); [lia|]. eapply addr_unique; [done..|]. lia.
Qed.
End Volume.
