(* ===== verification/BlockIoStripe.v ===== *)
(** Full-stripe writes: reading what is missing, the parity, and what it makes
    of the volume. *)

From S2P Require Import Prelude RbSpec ExtentCache Buf Volumes VolumesSpec VolumesMap VolumesMapping Raid6.
From S2P Require Import BlockIo BlockIoSpec.

Lemma ltb_min a b : (if a <? b then a else b) = Z.min a b.
Proof. destruct (Z.ltb_spec a b); lia. Qed.

(** ** The parity in memory *)

Lemma put_le_ok n d v b : bytes_ok b -> bytes_ok (put_le n d v b).
Proof. intros Hb x. unfold put_le. destruct (_ && _); [|apply Hb]. unfold in_byte, u8. apply Z.mod_pos_bound. lia. Qed.

Lemma copy_ok dst src a b n : bytes_ok dst -> bytes_ok src -> bytes_ok (copy_extent_buffer dst src a b n).
Proof. intros Hd Hs x. unfold copy_extent_buffer. destruct (_ && _); [apply Hs|apply Hd]. Qed.

Lemma xor_words_run n d p e : bytes_ok p -> bytes_ok e ->
  bytes_ok (xor_words n d p e) /\
  forall x, xor_words n d p e x = if decide (d <= x < d + 8 * Z.of_nat n) then Z.lxor (p x) (e x) else p x.
Proof.
  intros Hp He. revert d p Hp. induction n as [|n IH]; intros d p Hp; cbn [xor_words].
  { split; [done|]. intros x. by rewrite decide_False by lia. }
  destruct (IH (d + 8) (put_le 8 d (Z.lxor (get_le 8 p d) (get_le 8 e d)) p)) as [Hok Hall]; [by apply put_le_ok|].
  split; [done|]. intros x. rewrite Hall. rewrite !get_le_word by done.
  destruct (le_xor (read_extent_buffer p d 8) (read_extent_buffer e d 8)) as [Hb ->]; [by apply read_bytes_ok..|by rewrite !read_length|].
  rewrite put_word; [|by rewrite length_zip_with, !read_length|done].
  destruct (decide (d <= x < d + 8)).
  - rewrite decide_False, decide_True by lia. rewrite nth_zip_with by (rewrite ?read_length; lia). rewrite !read_nth by lia.
    by replace (d + Z.of_nat (Z.to_nat (x - d))) with x by lia.
  - destruct (decide (d + 8 <= x < d + 8 + 8 * Z.of_nat n)), (decide (d <= x < d + 8 * Z.of_nat (S n))); try lia; done.
Qed.

Lemma lxor_fold l a : foldl Z.lxor a l = Z.lxor a (gf_parity l).
Proof.
  revert a. unfold gf_parity. induction l as [|b l IH]; intros a; [by rewrite Z.lxor_0_r|]. cbn [foldl foldr]. by rewrite IH, Z.lxor_assoc.
Qed.

(** The RAID 5 loop over the buffers. *)
Lemma xor_all n p (rest : list buf) : bytes_ok p -> Forall bytes_ok rest ->
  let r := foldl (fun p e => xor_words n 0 p e) p rest in
  bytes_ok r /\ forall x, 0 <= x < 8 * Z.of_nat n -> r x = foldl Z.lxor (p x) (column rest x).
Proof.
  intros Hp Hr. revert p Hp. induction Hr as [|e rest He Hr IH]; intros p Hp; [done|]. cbn [foldl].
  destruct (xor_words_run n 0 p e Hp He) as [Hok Hx]. destruct (IH _ Hok) as [H1 H2]. split; [done|]. intros x Hb.
  rewrite H2 by done. rewrite Hx, decide_True by lia. done.
Qed.

Lemma foldl_data {A} (g : A -> buf) n p (l : list A) :
  foldl (fun p e => xor_words n 0 p (g e)) p l = foldl (fun p e => xor_words n 0 p e) p (g <$> l).
Proof. revert p. induction l as [|e l IH]; intros p; [done|]. apply IH. Qed.

Lemma zip_with_same ebs : zip_with io_with_data ebs (io_data <$> ebs) = ebs.
Proof. induction ebs as [|eb ebs IH]; [done|]. cbn. by rewrite io_with_same, IH. Qed.

(** The parity buffers that [raid56_parity] adds. *)
Definition parity_bufs (p : profile) (pe qe : io_buffer) : list io_buffer :=
  match p with Raid5 => [pe] | _ => [pe; qe] end.

Lemma raid56_parity_run p num len (ebs : list io_buffer) pe qe :
  p = Raid5 \/ p = Raid6 -> ebs <> [] -> Z.of_nat num = Z.of_nat (length ebs) + parity_count p -> 0 <= len -> (8 | len) ->
  Forall (fun eb => bytes_ok (io_data eb)) ebs -> bytes_ok (io_data pe) -> bytes_ok (io_data qe) ->
  exists pb qb, raid56_parity num len ebs (Some pe) (match p with Raid5 => None | _ => Some qe end) =
      Some (ebs ++ parity_bufs p (io_with_data pe pb) (io_with_data qe qb)) /\
    bytes_ok pb /\ bytes_ok qb /\
    forall x, 0 <= x < len -> pb x = gf_parity (column (io_data <$> ebs) x) /\ (p = Raid6 -> qb x = gf_syndrome (column (io_data <$> ebs) x)).
Proof.
  intros Hp Hne Hnum Hlen Hal Hebs Hpe Hqe. assert (Hdata : Forall bytes_ok (io_data <$> ebs)) by (by apply Forall_fmap).
  assert (Hz : bytes_ok (fun _ => 0)) by (intros x; unfold in_byte; lia).
  unfold raid56_parity. destruct Hp as [-> | ->]; simpl parity_count in Hnum; cbv iota.
  - cbn [mbind option_bind]. replace (length ebs + 1 =? num)%nat with true by (symmetry; apply Nat.eqb_eq; lia). cbn [negb].
    destruct ebs as [|eb0 rest]; [done|]. cbv zeta. rewrite foldl_data. cbn [fmap list_fmap] in Hdata. apply Forall_cons in Hdata as [H0 Hrest].
    destruct (xor_all (Z.to_nat ((len + 7) / 8)) (copy_extent_buffer (io_data pe) (io_data eb0) 0 0 len) (io_data <$> rest)) as [Hok Hx];
      [by apply copy_ok|done|]. eexists _, (fun _ => 0). split; [done|]. split; [done|]. split; [done|]. intros x Hb. split; [|done].
    destruct Hal as [w Hw]. rewrite Hx by zlia. unfold copy_extent_buffer.
    rewrite (proj2 (Z.leb_le _ _)), (proj2 (Z.ltb_lt _ _)) by lia. cbn [andb]. replace (0 + (x - 0)) with x by lia.
    by rewrite lxor_fold.
  - cbn [mbind option_bind]. replace (length ebs + 2 =? num)%nat with true by (symmetry; apply Nat.eqb_eq; lia). cbn [negb]. cbv zeta.
    rewrite fmap_app. cbn [fmap list_fmap].
    destruct (gen_syndrome_run (Z.of_nat num) len (io_data <$> ebs) (io_data pe) (io_data qe)) as (pb & qb & Hrun & Hpb & Hqb & Hall);
      [destruct ebs; [done|]; cbn [length] in Hnum; lia|rewrite length_fmap; lia|done..|].
    cbn [fmap list_fmap] in Hrun. rewrite Hrun. cbn [mbind option_bind]. exists pb, qb. split.
    { f_equal. rewrite zip_with_app by (by rewrite length_fmap). by rewrite zip_with_same. }
    split; [done|]. split; [done|]. intros x Hb. specialize (Hall x). rewrite decide_True in Hall by lia. destruct Hall as [-> ->]. done.
Qed.

(** ** The buffers of the data stripes *)

Section Stripe.
Context {T : Type} `{RbTreeLaws T}.
Context (info : io_info T) (ms : list (map_lookup * profile)) (Hmap : mapping_ok (fi_mapping info) ms) (Hd : extents_disjoint ms).
Context (Hrest : fi_on_restoring info = false).
Context (st : disks) (vol : Z -> Z) (Hvol : volume_ok st ms vol).
Context (m : map_lookup) (p : profile) (Hin : (m, p) ∈ ms) (Hp : p = Raid5 \/ p = Raid6).
Context (row : Z) (Hrow : 0 <= row < rows m p).
Abbreviation L := (map_stripe_len m).
Abbreviation n := (map_num_stripes m).
Abbreviation d := (data_count m p).
Abbreviation start := (ce_start (map_ce m)).

Context (orig : io_buffer) (Horig : bytes_ok (io_data orig)).
Context (Hfrom : start + row * d * L <= io_start orig) (Hlen : 0 <= io_len orig) (Hto : io_start orig + io_len orig < 2 ^ 64).

(** The part of the buffer inside the full stripe goes over the volume. *)
Definition stripe_len_left : Z := Z.min (io_len orig) (start + row * d * L + d * L - io_start orig).
Definition new_vol : Z -> Z := overlay vol (io_start orig) stripe_len_left (io_data orig).

Definition data_addr (j : Z) : Z := start + (row * d + j) * L.

Definition is_data (j : Z) (eb : io_buffer) : Prop :=
  io_start eb = data_addr j /\ io_len eb = L /\ bytes_ok (io_data eb) /\ forall x, 0 <= x < L -> io_data eb x = new_vol (data_addr j + x).

Lemma chunk_m : map_ok m p.
Proof using Hmap Hin. exact (chunk_ok _ _ m p Hmap Hin). Qed.

Lemma stripe_mapped j : 0 <= j < d -> mapped ms (data_addr j) (data_addr j + L).
Proof using Hmap Hin Hrow.
  intros Hj a Ha. destruct (compose_offset m p chunk_m row j (a - data_addr j) Hrow Hj) as (Ho & _); [lia|].
  eexists m, p, _. split; [done|]. split; [exact Ho|]. unfold data_addr in *. lia.
Qed.

Lemma len_max : L <= MAX_RW_COUNT.
Proof using Hmap Hin Hp.
  pose proof (mo_int m p chunk_m). pose proof (data_num m p chunk_m Hp). pose proof (parity_pos m p chunk_m Hp).
  pose proof (data_pos m p chunk_m). pose proof (mo_len m p chunk_m). unfold MAX_RW_COUNT. assert (2 * L <= n * L) by (apply Z.mul_le_mono_nonneg_r; lia). lia.
Qed.

(** Reading the stripe from the disks. *)
Lemma read_stripe fuel j : 0 <= j < d -> L <= Z.of_nat fuel ->
  exists eb, read_whole_eb fuel info st (IoBuffer (data_addr j) L (-1) (2 ^ 64 - 1) 0 (fun _ => 0)) 0 = Some (0, eb) /\
    io_start eb = data_addr j /\ io_len eb = L /\ bytes_ok (io_data eb) /\ forall x, 0 <= x < L -> io_data eb x = vol (data_addr j + x).
Proof using Hmap Hin Hp Hrow Hrest Hvol.
  intros Hj Hf. pose proof (mo_len m p chunk_m).
  destruct (read_whole_run info ms Hmap st vol Hvol fuel (IoBuffer (data_addr j) L (-1) (2 ^ 64 - 1) 0 (fun _ => 0)) 0 L 0) as (eb & Hrun & E1 & E2 & _ & Hx);
    [done|lia|done|cbn; rewrite Z.add_0_r; by apply stripe_mapped|lia|exact len_max|by apply (mirror_zero info)|].
  cbn [io_start io_len io_data] in *. exists eb. split; [exact Hrun|]. split; [done|]. split; [done|]. split.
  - intros x. rewrite Hx. destruct (decide (0 <= x < L)) as [Hr|Hr]; [|unfold in_byte; lia].
    destruct (stripe_mapped j Hj (data_addr j + x)) as (m1 & p1 & o & Hin1 & Ho & ->); [lia|].
    pose proof (copies_pos m1 p1 (chunk_ok _ _ m1 p1 Hmap Hin1)) as Hc.
    pose proof (vo_data st ms vol Hvol (m1, p1) o 0 Hin1 Ho ltac:(simpl; lia)) as Hv. cbn [fst snd] in Hv. rewrite <- Hv.
    apply (so_bytes st ms (vo_store _ _ _ Hvol)).
  - intros x Hr. rewrite Hx. by rewrite decide_True by lia.
Qed.

Lemma split_one_run fuel j : 0 <= j < d -> L <= Z.of_nat fuel ->
  let eb := IoBuffer (data_addr j) L (-1) (2 ^ 64 - 1) 0 (fun _ => 0) in
  exists eb', (if (data_addr j <? io_start orig) || (u64 (io_start orig + io_len orig) <? u64 (data_addr j + L)) then
             '(ret, eb) ← rmw_eb fuel info st eb orig;
             if negb (ret =? 0) then None else Some eb
           else Some (io_with_data eb (copy_extent_buffer (io_data eb) (io_data orig) 0 (io_start eb - io_start orig) L))) = Some eb' /\
    is_data j eb'.
Proof using Hmap Hin Hp Hrow Hrest Hvol Horig Hfrom Hlen Hto.
  intros Hj Hf eb. destruct (row_facts m p chunk_m Hp row Hrow) as ((? & ?) & ? & ? & ? & Hsz & ? & ? & ?).
  destruct (data_addr_bounds m p chunk_m Hp row Hrow j Hj) as [B1 B2]. fold (data_addr j) in B1, B2.
  assert (Hge : start + row * d * L <= data_addr j).
  { unfold data_addr. assert (0 <= j * L) by (apply Z.mul_nonneg_nonneg; lia). lia. }
  assert (Hle : data_addr j + L <= start + row * d * L + d * L).
  { unfold data_addr. assert ((j + 1) * L <= d * L) by (apply Z.mul_le_mono_nonneg_r; lia). lia. }
  rewrite !u64_id by lia. destruct ((data_addr j <? io_start orig) || _) eqn:Ec.
  - unfold rmw_eb. destruct (read_stripe fuel j Hj Hf) as (eb1 & Hrun & E1 & E2 & Hb1 & Hx1). fold eb in Hrun. rewrite Hrun. cbn [mbind option_bind].
    change (negb (0 =? 0)) with false. cbv iota. rewrite E1, E2. rewrite !(u64_id (_ + _)) by lia.
    destruct ((data_addr j + L <=? io_start orig) || (io_start orig + io_len orig <=? data_addr j)) eqn:Eout.
    + cbn [mbind option_bind]. change (negb (0 =? 0)) with false. exists eb1. split; [done|]. split; [done|]. split; [done|]. split; [done|].
      intros x Hr. rewrite Hx1 by done. unfold new_vol, overlay, stripe_len_left. rewrite decide_False; [done|].
      apply orb_true_iff in Eout as [E%Z.leb_le|E%Z.leb_le]; lia.
    + apply orb_false_iff in Eout as [O1%Z.leb_gt O2%Z.leb_gt]. cbv zeta. cbn [mbind option_bind]. change (negb (0 =? 0)) with false.
      eexists. split; [reflexivity|]. split; [done|]. split; [done|]. split; [by apply copy_ok|]. intros x Hr. cbn [io_with_data io_data].
      unfold copy_extent_buffer. rewrite Hx1 by done. unfold new_vol, overlay, stripe_len_left.
      assert (Hs1 : io_len orig < 2 ^ 64) by (assert (0 <= row * d * L) by (apply Z.mul_nonneg_nonneg; lia); lia). assert (Hs2 : L < 2 ^ 64) by lia.
      clear - O1 O2 Hr Hle Hge Hlen Hs1 Hs2. set (lim := start + row * d * L + d * L) in *. clearbody lim. revert O1 O2 Hr Hle Hge Hlen Hs1 Hs2.
      generalize (data_addr j) as a, (io_start orig) as s, (io_len orig) as n', L as l. intros a s n' l O1 O2 Hr Hle Hge Hlen Hs1 Hs2.
      destruct (Z.ltb_spec s a), (Z.ltb_spec a s); try lia; rewrite !u64_id, !ltb_min by lia; zbool; destruct (decide _); try lia; f_equal; lia.
  - apply orb_false_iff in Ec as [C1%Z.ltb_ge C2%Z.ltb_ge]. eexists. split; [reflexivity|]. split; [done|]. split; [done|].
    assert (Hz : bytes_ok (fun _ => 0)) by (intros x; unfold in_byte; lia). split; [by apply copy_ok|].
    intros x Hr. unfold eb. cbn [io_with_data io_data io_start]. unfold copy_extent_buffer.
    rewrite (proj2 (Z.leb_le _ _)), (proj2 (Z.ltb_lt _ _)) by lia. cbn [andb]. unfold new_vol, overlay, stripe_len_left.
    rewrite decide_True by lia. f_equal. lia.
Qed.
Lemma split_run fuel k j tail : 0 <= j -> j + Z.of_nat k <= d -> L <= Z.of_nat fuel ->
  match tail with [] => True | a :: _ => BTRFS_RAID5_P_STRIPE <= a end ->
  exists ebs, split_eb_for_raid56 fuel info st orig L ((data_addr <$> seqZ j (Z.of_nat k)) ++ tail) = Some ebs /\
    Forall2 is_data (seqZ j (Z.of_nat k)) ebs.
Proof using Hmap Hin Hp Hrow Hrest Hvol Horig Hfrom Hlen Hto.
  intros Hj Hk Hf Htail. revert j Hj Hk. induction k as [|k IH]; intros j Hj Hk.
  { exists []. split; [|constructor]. change ((data_addr <$> seqZ j (Z.of_nat 0)) ++ tail) with tail.
    destruct tail as [|a tail]; [done|]. cbn [split_eb_for_raid56]. by rewrite (proj2 (Z.leb_le _ _)). }
  rewrite seqZ_cons by lia. replace (Z.pred (Z.of_nat (S k))) with (Z.of_nat k) by lia. replace (Z.succ j) with (j + 1) by lia.
  cbn [fmap list_fmap app split_eb_for_raid56]. destruct (row_facts m p chunk_m Hp row Hrow) as (? & ? & ? & ? & Hsz & ? & ? & [k8 Hk8]).
  destruct (data_addr_bounds m p chunk_m Hp row Hrow j) as [B1 B2]; [lia|]. fold (data_addr j) in B1, B2.
  rewrite (proj2 (Z.leb_gt BTRFS_RAID5_P_STRIPE (data_addr j))) by (unfold BTRFS_RAID5_P_STRIPE; lia). cbv zeta.
  destruct (split_one_run fuel j) as (eb & Hrun & Heb); [lia|done|]. cbv zeta in Hrun. rewrite Hrun. cbn [mbind option_bind].
  destruct (IH (j + 1)) as (ebs & -> & Hebs); [lia|lia|]. cbn [mbind option_bind]. exists (eb :: ebs). split; [done|]. by constructor.
Qed.

(** ** The places of the buffers *)

Definition rot (j : Z) : Z := (row + j) mod n.

Lemma rot_range j : 0 <= rot j < n.
Proof using Hmap Hin. apply Z.mod_pos_bound. apply (num_pos m p chunk_m). Qed.

(** The bytes the stripe [j] is to have. *)
Definition new_byte (j x : Z) : Z :=
  if j <? d then new_vol (data_addr j + x) else parity_of (j - d) (row_bytes new_vol m p row x).

Definition new_at (i : Z) : Z -> Z := new_byte ((i - row) mod n).

Lemma unrot j : 0 <= j < n -> (rot j - row) mod n = j.
Proof using Hmap Hin.
  intros Hj. pose proof (num_pos m p chunk_m). unfold rot. rewrite Zminus_mod_idemp_l. replace (row + j - row) with j by lia. by apply Z.mod_small.
Qed.

(** Placing the data buffers. *)
Lemma places_data js (ebs pre : list io_buffer) tail_map tail_stripes pe qe :
  Forall2 is_data js ebs -> Forall (fun j => 0 <= j < d) js ->
  raid56_places L (length pre) ((data_addr <$> js) ++ tail_map) (((fun j => located m (rot j) (row * L)) <$> js) ++ tail_stripes) (pre ++ ebs) pe qe =
  raid56_places L (length pre + length ebs) tail_map tail_stripes
    (pre ++ zip_with (fun j eb => io_at eb (dev_fd (bs_dev (located m (rot j) (row * L)))) (bs_physical (located m (rot j) (row * L)))) js ebs) pe qe.
Proof using Hmap Hin Hp Hrow.
  intros Hebs Hjs. revert pre Hjs. induction Hebs as [|j eb js ebs Heb Hebs IH]; intros pre Hjs.
  { cbn [zip_with fmap list_fmap app length]. by rewrite !app_nil_r, Nat.add_0_r. }
  apply Forall_cons in Hjs as [Hj Hjs]. cbn [fmap list_fmap app raid56_places].
  destruct (row_facts m p chunk_m Hp row Hrow) as (? & ? & ? & ? & Hsz & ? & ? & [k8 Hk8]).
  destruct (data_addr_bounds m p chunk_m Hp row Hrow j Hj) as [B1 B2]. fold (data_addr j) in B1, B2.
  rewrite (proj2 (Z.ltb_lt (data_addr j) BTRFS_RAID5_P_STRIPE)) by (unfold BTRFS_RAID5_P_STRIPE; lia).
  rewrite lookup_app_r, Nat.sub_diag by lia. cbn [lookup list_lookup mbind option_bind]. destruct Heb as (E1 & _). rewrite E1, Z.eqb_refl. cbn [negb].
  rewrite insert_app_r_alt, Nat.sub_diag by lia. cbn [insert list_insert].
  set (eb' := io_at eb _ _). change (eb' :: ebs) with ([eb'] ++ ebs). rewrite (assoc_L (++)).
  specialize (IH (pre ++ [eb']) Hjs). rewrite length_app in IH. cbn [length] in IH. rewrite Nat.add_1_r in IH. rewrite IH.
  cbn [length zip_with]. rewrite <- (assoc_L (++)). cbn [app]. f_equal. lia.
Qed.

Definition place (j : Z) (eb : io_buffer) : io_buffer :=
  io_at eb (dev_fd (bs_dev (located m (rot j) (row * L)))) (bs_physical (located m (rot j) (row * L))).
Definition fresh (j : Z) : io_buffer :=
  IoBuffer 0 L (dev_fd (bs_dev (located m (rot j) (row * L)))) (bs_physical (located m (rot j) (row * L))) 0 (fun _ => 0).

Abbreviation parity_marks := (match p with Raid5 => [BTRFS_RAID5_P_STRIPE] | _ => [BTRFS_RAID5_P_STRIPE; BTRFS_RAID6_Q_STRIPE] end).

Lemma places_run ebs : Forall2 is_data (seqZ 0 d) ebs ->
  raid56_places L 0 ((data_addr <$> seqZ 0 d) ++ parity_marks) (full_stripe m p row).*2 ebs None None =
    Some (zip_with place (seqZ 0 d) ebs, Some (fresh d), match p with Raid5 => None | _ => Some (fresh (d + 1)) end).
Proof using Hmap Hin Hp Hrow.
  intros Hebs. destruct (full_split m p chunk_m Hp row Hrow) as [_ ->].
  rewrite (places_data (seqZ 0 d) ebs [] _ _ None None Hebs); [|apply Forall_forall; intros j Hj%elem_of_seqZ; lia].
  cbn [length Nat.add app]. fold place. unfold parity_index, fresh, rot. destruct Hp as [Hp5|Hp6].
  - replace (parity_count p) with 1 by (by rewrite Hp5). rewrite Hp5. change (seqZ 0 1) with [0]. cbn [fmap list_fmap raid56_places].
    rewrite Z.ltb_irrefl, Z.eqb_refl. by rewrite Z.add_0_r.
  - replace (parity_count p) with 2 by (by rewrite Hp6). rewrite Hp6. change (seqZ 0 2) with [0; 1]. cbn [fmap list_fmap raid56_places].
    rewrite Z.ltb_irrefl, Z.eqb_refl. change (BTRFS_RAID6_Q_STRIPE <? BTRFS_RAID5_P_STRIPE) with false. change (BTRFS_RAID6_Q_STRIPE =? BTRFS_RAID5_P_STRIPE) with false.
    cbv iota. rewrite Z.eqb_refl, Z.add_0_r. by rewrite (Z.add_assoc row).
Qed.

Lemma data_column js ebs x : Forall2 is_data js ebs -> 0 <= x < L ->
  column (io_data <$> zip_with place js ebs) x = (fun j => new_vol (start + ((row * d + j) * L + x))) <$> js.
Proof using Type.
  intros Hebs Hx. induction Hebs as [|j eb js ebs Heb Hebs IH]; [done|]. cbn [zip_with fmap list_fmap column] in *. f_equal; [|exact IH].
  destruct Heb as (_ & _ & _ & Heb). cbn [place io_at io_data]. rewrite Heb by done. f_equal. unfold data_addr. lia.
Qed.

Lemma new_at_rot j x : 0 <= j < n -> new_at (rot j) x = new_byte j x.
Proof using Hmap Hin. intros Hj. unfold new_at. by rewrite unrot. Qed.

(** All buffers are at their places, with the bytes they are to have. *)
Lemma bufs_placed ebs pb qb : Forall2 is_data (seqZ 0 d) ebs -> bytes_ok pb -> bytes_ok qb ->
  (forall x, 0 <= x < L -> pb x = gf_parity (row_bytes new_vol m p row x) /\ (p = Raid6 -> qb x = gf_syndrome (row_bytes new_vol m p row x))) ->
  Forall2 (placed_at m (row * L) L new_at) (rot <$> seqZ 0 n)
    (zip_with place (seqZ 0 d) ebs ++ parity_bufs p (io_with_data (fresh d) pb) (io_with_data (fresh (d + 1)) qb)).
Proof using Hmap Hin Hp Hrow.
  intros Hebs Hpb Hqb Hpar. destruct (row_facts m p chunk_m Hp row Hrow) as ((? & ?) & ? & ? & _).
  pose proof (data_num m p chunk_m Hp) as Hdn. pose proof (parity_pos m p chunk_m Hp) as Hpp.
  replace (seqZ 0 n) with (seqZ 0 d ++ seqZ d (parity_count p)) by (rewrite Hdn, seqZ_app by lia; done).
  rewrite fmap_app. apply Forall2_app.
  - assert (Hjs : Forall (fun j => 0 <= j < d) (seqZ 0 d)) by (apply Forall_forall; intros j Hj%elem_of_seqZ; lia).
    revert Hjs. induction Hebs as [|j eb js ebs Heb Hebs IH]; intros Hjs; [constructor|]. apply Forall_cons in Hjs as [Hj Hjs].
    cbn [fmap list_fmap zip_with]. constructor; [|by apply IH]. destruct Heb as (_ & E2 & Hb & Hx). split_and!; try done.
    intros x Hr. rewrite new_at_rot by lia. unfold new_byte. rewrite (proj2 (Z.ltb_lt _ _)) by lia. by apply Hx.
  - assert (HP : placed_at m (row * L) L new_at (rot d) (io_with_data (fresh d) pb)).
    { split_and!; try done. intros x Hr. rewrite new_at_rot by lia. unfold new_byte. rewrite Z.ltb_irrefl, Z.sub_diag. by apply Hpar. }
    unfold parity_bufs. destruct Hp as [Hp5|Hp6].
    + replace (parity_count p) with 1 by (by rewrite Hp5). replace (match p with Raid5 => _ | _ => _ end) with [io_with_data (fresh d) pb] by (by rewrite Hp5).
      rewrite seqZ_cons by lia. constructor; [done|constructor].
    + assert (Hc2 : parity_count p = 2) by (by rewrite Hp6). rewrite Hc2.
      replace (match p with Raid5 => _ | _ => _ end) with [io_with_data (fresh d) pb; io_with_data (fresh (d + 1)) qb] by (by rewrite Hp6).
      do 2 rewrite seqZ_cons by lia. constructor; [done|]. constructor; [|constructor]. split_and!; try done.
      intros x Hr. rewrite new_at_rot by lia. unfold new_byte. rewrite (proj2 (Z.ltb_ge _ _)) by lia.
      replace (Z.succ d - d) with 1 by lia. by apply Hpar.
Qed.

Lemma write_stripe_run fuel : L <= Z.of_nat fuel ->
  exists st', write_raid56_with_parity fuel info orig (full_stripe m p row).*2 L (full_stripe m p row).*1 st = Some (0, st') /\
    written ms st st' m p (rot <$> seqZ 0 n) (row * L) L new_at.
Proof using Hmap Hd Hin Hp Hrow Hrest Hvol Horig Hfrom Hlen Hto.
  intros Hf. destruct (row_facts m p chunk_m Hp row Hrow) as ((? & ?) & ? & ? & ? & Hsz & ? & ? & Hal).
  destruct (full_split m p chunk_m Hp row Hrow) as [Hmap1 _]. pose proof (data_num m p chunk_m Hp) as Hdn. pose proof (parity_pos m p chunk_m Hp) as Hpp.
  unfold write_raid56_with_parity. rewrite Hmap1. change (fun j => start + (row * d + j) * L) with data_addr.
  destruct (split_run fuel (Z.to_nat d) 0 parity_marks) as (ebs & Hsplit & Hebs); [lia|lia|done|by destruct Hp as [-> | ->]|].
  rewrite Z2Nat.id in Hsplit, Hebs by lia. rewrite Hsplit. cbn [mbind option_bind].
  pose proof (Forall2_length _ _ _ Hebs) as Hlen1. rewrite length_seqZ in Hlen1.
  rewrite places_run by done. cbn [mbind option_bind]. set (pebs := zip_with place (seqZ 0 d) ebs).
  assert (Hplen : length pebs = Z.to_nat d) by (unfold pebs; rewrite length_zip_with, length_seqZ; lia).
  assert (Hz : bytes_ok (fun _ => 0)) by (intros x; unfold in_byte; lia).
  destruct (raid56_parity_run p (length (full_stripe m p row).*2) L pebs (fresh d) (fresh (d + 1)) Hp) as (pb & qb & Hrun & Hpb & Hqb & Hpar);
    [intros Hnil; rewrite Hnil in Hplen; simpl in Hplen; lia|unfold full_stripe; rewrite !length_fmap, length_seqZ; lia|lia|done| |done|done|].
  { unfold pebs. clear - Hebs. induction Hebs as [|j eb js ebs Heb Hebs IH]; [constructor|]. constructor; [apply Heb|done]. }
  rewrite Hrun. cbn [mbind option_bind].
  destruct (write_all_run ms Hd m p Hin (row * L) L) with (st := st) (l := rot <$> seqZ 0 n)
    (ebs := pebs ++ parity_bufs p (io_with_data (fresh d) pb) (io_with_data (fresh (d + 1)) qb)) (data := new_at) as (st' & Hw & Hwr).
  - apply Z.mul_nonneg_nonneg; lia.
  - pose proof len_max. lia.
  - unfold dev_len. assert ((row + 1) * L <= rows m p * L) by (apply Z.mul_le_mono_nonneg_r; lia). lia.
  - apply (vo_store _ _ _ Hvol).
  - apply Forall_fmap, Forall_forall. intros j _. apply rot_range.
  - apply bufs_placed; [done..|]. intros x Hr. destruct (Hpar x Hr) as [X1 X2]. unfold pebs in X1, X2.
    rewrite (data_column _ _ x Hebs Hr) in X1, X2. done.
  - exists st'. by rewrite Hw.
Qed.

(** ** What it makes of the volume *)

(** The bytes that change are in the row. *)
Lemma overlaid_row m' p' o' : (m', p') ∈ ms -> 0 <= o' < ce_size (map_ce m') ->
  io_start orig <= ce_start (map_ce m') + o' < io_start orig + stripe_len_left -> (m', p') = (m, p) /\ row_of m p o' = row.
Proof using Hmap Hin Hp Hrow Hfrom.
  intros Hin' Ho' Ha. destruct (row_facts m p chunk_m Hp row Hrow) as ((? & ?) & ? & ? & ? & Hsz & ? & ? & Hal).
  unfold stripe_len_left in Ha. remember (ce_start (map_ce m') + o' - start) as o eqn:Heq.
  assert (Ho : 0 <= o < ce_size (map_ce m)) by (assert (0 <= row * d * L) by (apply Z.mul_nonneg_nonneg; lia); lia).
  destruct (addr_unique (fi_mapping info) ms Hmap m' p' o' m p o Hin' Hin Ho' Ho) as [Hc ->]; [lia|]. split; [done|].
  unfold row_of. symmetry. rewrite Z.div_div by lia. apply (Z.div_unique _ _ _ (o - row * d * L)); [left; lia|lia].
Qed.

Lemma not_overlaid m' p' o' : (m', p') ∈ ms -> 0 <= o' < ce_size (map_ce m') ->
  ~ ((m', p') = (m, p) /\ row_of m p o' = row) -> new_vol (ce_start (map_ce m') + o') = vol (ce_start (map_ce m') + o').
Proof using Hmap Hin Hp Hrow Hfrom.
  intros Hin' Ho' Hno. unfold new_vol, overlay. destruct (decide _) as [Ha|]; [|done]. by destruct Hno; apply overlaid_row.
Qed.

Lemma rot_elem i : 0 <= i < n -> i ∈ rot <$> seqZ 0 n.
Proof using Hmap Hin Hrow.
  intros Hi. apply list_elem_of_fmap. pose proof (num_pos m p chunk_m). exists ((i - row) mod n). split.
  - unfold rot. rewrite Z.add_mod_idemp_r by lia. replace (row + (i - row)) with i by lia. by rewrite Z.mod_small.
  - apply elem_of_seqZ. pose proof (Z.mod_pos_bound (i - row) n). lia.
Qed.

Lemma stripe_written st' : written ms st st' m p (rot <$> seqZ 0 n) (row * L) L new_at -> volume_ok st' ms new_vol.
Proof using Hmap Hin Hp Hrow Hvol Hfrom.
  intros [Hst' Hw]. destruct (row_facts m p chunk_m Hp row Hrow) as ((? & ?) & ? & ? & ? & Hsz & ? & ? & Hal). split; [done| |].
  - intros [m' p'] o' c' Hin' Ho' Hc'. cbn [fst snd] in *. pose proof (chunk_ok _ ms m' p' Hmap Hin') as Hm'.
    pose proof (vo_data st ms vol Hvol (m', p') o' c' Hin' Ho' Hc') as Hv. cbn [fst snd] in Hv.
    rewrite (Hw m' p' _ _ Hin') by (done || by apply index_range || by apply row_off_range).
    destruct (decide ((m', p') = (m, p) /\ _)) as [(Heq & Hl & Hr)|Hno].
    + injection Heq as -> ->. pose proof (so_range m p chunk_m o') as Hso. pose proof (col_range m p chunk_m o' Ho') as Hcol.
      pose proof (o_split m p chunk_m o') as Hos. unfold row_off in Hr |- *.
      destruct (digits_inj L (row_of m p o') (o' mod L) row (row_of m p o' * L + o' mod L - row * L)) as [Hrw _]; [done|lia|lia|].
      rewrite Hrw in Hos |- *. replace (row * L + o' mod L - row * L) with (o' mod L) by lia.
      replace (index_of m p o' c') with (rot (col_of m p o')) by (unfold rot, index_of; rewrite Hrw; by destruct Hp as [-> | ->]).
      rewrite new_at_rot by lia. unfold new_byte. rewrite (proj2 (Z.ltb_lt _ _)) by lia. f_equal. unfold data_addr. lia.
    + rewrite Hv. symmetry. apply (not_overlaid m' p' o'); [done..|]. intros [Heq Hrw]. apply Hno. split; [done|]. injection Heq as -> ->.
      split; [apply rot_elem; by apply (index_range m p chunk_m o' Ho')|]. unfold row_off. rewrite Hrw. pose proof (so_range m p chunk_m o'). lia.
  - intros [m' p'] row' k x Hin' Hrow' Hk Hx. cbn [fst snd] in *. pose proof (chunk_ok _ ms m' p' Hmap Hin') as Hm'.
    pose proof (vo_parity st ms vol Hvol (m', p') row' k x Hin' Hrow' Hk Hx) as Hv. cbn [fst snd] in Hv.
    pose proof (parity_range m' p' Hm' row' k) as Hpi. pose proof (row_bound row' (rows m' p') x _ Hrow' Hx) as Hrb. fold (dev_len m' p') in Hrb.
    rewrite (Hw m' p' _ _ Hin') by (done || lia). destruct (decide ((m', p') = (m, p) /\ _)) as [(Heq & Hl & Hr)|Hno].
    + injection Heq as -> ->. destruct (digits_inj L row' x row (row' * L + x - row * L)) as [-> _]; [lia..|].
      pose proof (data_num m p chunk_m Hp). replace (parity_index m p row k) with (rot (d + k)) by (unfold rot, parity_index; f_equal; lia).
      rewrite new_at_rot by lia. unfold new_byte. rewrite (proj2 (Z.ltb_ge _ _)) by lia.
      replace (d + k - d) with k by lia. by replace (row * L + x - row * L) with x by lia.
    + rewrite Hv. f_equal. unfold row_bytes. apply list_fmap_ext. intros i j [-> Hj]%lookup_seqZ.
      destruct (compose_offset m' p' Hm' row' (0 + Z.of_nat i) x Hrow') as (Ho' & Hrw & _); [lia|done|].
      symmetry. apply (not_overlaid m' p'); [done..|]. intros [Heq Hrw']. apply Hno. split; [done|]. injection Heq as -> ->.
      assert (row' = row) as -> by congruence. split; [by apply rot_elem|lia].
Qed.
End Stripe.

(** ** The loop of [write_data_to_disk]: what a write makes of the volume. *)

Lemma volume_ok_ext st ms vol vol' : (forall a, vol a = vol' a) -> volume_ok st ms vol -> volume_ok st ms vol'.
Proof.
  intros Heq [H1 H2 H3]. split; [done| |].
  - intros c o copy Hc Ho Hcopy. rewrite <- Heq. by apply H2.
  - intros c row k x Hc Hr Hk Hx. rewrite H3 by done. f_equal. unfold row_bytes. apply list_fmap_ext. intros; by rewrite Heq.
Qed.

(** Two overlays one after the other. *)
Lemma overlay_app vol a n len f y : 0 <= n <= len ->
  overlay (overlay vol a n f) (a + n) (len - n) (fun x => f (n + x)) y = overlay vol a len f y.
Proof.
  intros Hn. unfold overlay.
  destruct (decide (a + n <= y < a + n + (len - n))), (decide (a <= y < a + n)), (decide (a <= y < a + len)); try lia; try done.
  f_equal. lia.
Qed.

Section Data.
Context {T : Type} `{RbTreeLaws T}.
Context (info : io_info T) (ms : list (map_lookup * profile)) (Hmap : mapping_ok (fi_mapping info) ms) (Hd : extents_disjoint ms).
Context (Hrest : fi_on_restoring info = false).
Context (b : buf) (Hb : bytes_ok b).

(** Every stripe is smaller than [big]. *)
Definition stripes_below (big : Z) : Prop := forall m p, (m, p) ∈ ms -> map_stripe_len m <= big.

(** One round on a chunk without parity. *)
Lemma write_round_plain fuel st vol m p o left total mirror :
  volume_ok st ms vol -> (m, p) ∈ ms -> 0 <= o < ce_size (map_ce m) -> parity_count p = 0 -> 0 < left <= MAX_RW_COUNT ->
  let n := Z.min (piece m p o) left in
  exists st', volume_ok st' ms (overlay vol (ce_start (map_ce m) + o) n (fun x => b (total + x))) /\
    write_data_loop (S fuel) info b (ce_start (map_ce m) + o) left total mirror st =
      write_data_loop fuel info b (ce_start (map_ce m) + o + n) (left - n) (total + n) mirror st'.
Proof using Hmap Hd Hb.
  intros Hvol Hin Ho Hpar Hleft n. pose proof (chunk_ok _ ms m p Hmap Hin) as Hm. pose proof (piece_range m p Hm o Ho) as Hpr.
  pose proof (piece_fits m p Hm o Ho) as Hpf. pose proof (row_off_range m p Hm o Ho) as Hro. pose proof (copies_pos m p Hm) as Hc.
  pose proof (mo_start m p Hm). pose proof (mo_end m p Hm).
  destruct (write_copies_run ms Hd m p Hin (row_off m p o) n ltac:(lia) ltac:(lia) ltac:(lia) st
    ((fun c => index_of m p o c) <$> seqZ 0 (data_copies m p)) b total (piece m p o) left (fun _ x => b (total + x))) as (st' & Hrun & Hw);
    [apply (vo_store _ _ _ Hvol)| |done| |done|done|].
  { apply Forall_fmap, Forall_forall. intros c Hcin%elem_of_seqZ. apply (index_range m p Hm o Ho). lia. }
  { intros Hnil%fmap_nil_inv. apply (f_equal length) in Hnil. rewrite length_seqZ in Hnil. simpl in Hnil. lia. }
  exists st'. split; [apply (copies_written _ ms Hmap st st' vol m p o n); [done..|lia|exact Hw]|].
  cbn [write_data_loop]. rewrite (proj2 (Z.leb_gt left 0)) by lia.
  rewrite (map_block_write _ ms m p Hmap Hin) by done. cbn [assume_some].
  rewrite (bind_some _ _ st _ st) by done. cbn [mr_ret mr_multi mr_raid_map mr_length]. change (negb (0 =? 0)) with false. cbv iota.
  rewrite (bind_some _ _ st _ st) by done. rewrite <- list_fmap_compose in Hrun. rewrite (bind_some _ _ st _ st' Hrun).
  rewrite (proj2 (Z.ltb_ge left n)) by lia. rewrite (bind_some _ _ st' tt st') by done. by rewrite u64_id by lia.
Qed.

(** One round on a chunk with parity.  What the write has beyond the end of the
    full stripe is lost. *)
Lemma write_round_stripe fuel st vol m p o left total mirror :
  volume_ok st ms vol -> (m, p) ∈ ms -> 0 <= o < ce_size (map_ce m) -> p = Raid5 \/ p = Raid6 -> 0 < left ->
  map_stripe_len m <= Z.of_nat fuel -> 0 < fi_leafsize info ->
  let n := Z.min (Z.min (map_stripe_len m) left) (fi_leafsize info) in
  let width := data_count m p * map_stripe_len m in
  ce_start (map_ce m) + o + n < 2 ^ 64 ->
  exists st', volume_ok st' ms (overlay vol (ce_start (map_ce m) + o) (Z.min n (width - o mod width)) (fun x => b (total + x))) /\
    write_data_loop (S fuel) info b (ce_start (map_ce m) + o) left total mirror st =
      write_data_loop fuel info b (ce_start (map_ce m) + o + n) (left - n) (total + n) mirror st'.
Proof using Hmap Hd Hb Hrest.
  intros Hvol Hin Ho Hp Hleft Hf Hleaf n width Hend. pose proof (chunk_ok _ ms m p Hmap Hin) as Hm. pose proof (row_range m p Hm o Ho) as Hrow.
  remember (row_of m p o) as row eqn:Erow. destruct (row_facts m p Hm Hp row Hrow) as ((? & ?) & ? & ? & ? & Hsz & ? & ? & Hal).
  assert (En : n = Z.min (Z.min (map_stripe_len m) left) (fi_leafsize info)) by done. clearbody n.
  assert (Ewid : width = data_count m p * map_stripe_len m) by done. clearbody width.
  assert (Hwid : 0 < width) by (rewrite Ewid; apply Z.mul_pos_pos; lia).
  assert (Hsplit : o = row * data_count m p * map_stripe_len m + o mod width).
  { rewrite Erow. unfold row_of. rewrite Z.div_div by lia. rewrite (Z.mul_comm (map_stripe_len m)), <- Z.mul_assoc, <- Ewid.
    rewrite Z.mul_comm. apply Z.div_mod. lia. }
  pose proof (Z.mod_pos_bound o width Hwid) as Hmod.
  set (eb := IoBuffer (ce_start (map_ce m) + o) n 0 0 0 (fun x => b (total + x))).
  assert (Hok : bytes_ok (io_data eb)) by (intros x; apply Hb).
  destruct (write_stripe_run info ms Hmap Hd Hrest st vol Hvol m p Hin Hp row Hrow eb Hok) with (fuel := fuel) as (st' & Hrun & Hw);
    [cbn; lia|cbn; lia|cbn; lia|done|].
  exists st'. split.
  { pose proof (stripe_written info ms Hmap st vol Hvol m p Hin Hp row Hrow eb ltac:(cbn; lia) st' Hw) as Hv.
    eapply volume_ok_ext; [|exact Hv]. intros a. unfold new_vol, stripe_len_left, eb. cbn [io_start io_len io_data].
    f_equal. lia. }
  cbn [write_data_loop]. rewrite (proj2 (Z.leb_gt left 0)) by lia.
  rewrite (map_block_full _ ms m p Hmap Hin) by done. cbn [assume_some].
  rewrite (bind_some _ _ st _ st) by done. cbn [mr_ret mr_multi mr_raid_map mr_length]. change (negb (0 =? 0)) with false. cbv iota zeta.
  rewrite (bind_some _ _ st _ st) by done. rewrite <- Erow, <- En. fold eb.
  rewrite (bind_some _ _ st (inr n) st').
  2: { rewrite (bind_some _ _ st 0 st') by exact Hrun. done. }
  rewrite (proj2 (Z.ltb_ge left n)) by lia. rewrite (bind_some _ _ st' tt st') by done. by rewrite u64_id by lia.
Qed.

(** All of the write, when it is aligned to leaves. *)
Definition leaf_aligned : Prop :=
  0 < fi_leafsize info /\ forall m p, (m, p) ∈ ms -> (fi_leafsize info | ce_start (map_ce m)) /\ (fi_leafsize info | map_stripe_len m).

Lemma mapped_end a n : mapped ms a (a + n) -> 0 < n -> 0 <= a /\ a + n < 2 ^ 64.
Proof using Hmap.
  intros Hr Hn. split.
  - destruct (Hr a) as (m & p & o & Hin & Ho & ->); [lia|]. pose proof (mo_start m p (chunk_ok _ ms m p Hmap Hin)). lia.
  - destruct (Hr (a + n - 1)) as (m & p & o & Hin & Ho & Heq); [lia|].
    pose proof (mo_end m p (chunk_ok _ ms m p Hmap Hin)). lia.
Qed.

(** The end of a piece is aligned. *)
Lemma piece_aligned m p o k : map_ok m p -> 0 <= o < ce_size (map_ce m) -> (k | map_stripe_len m) -> (k | o + piece m p o).
Proof using Type.
  intros Hm Ho [q Hq]. assert (Hs : (k | ce_size (map_ce m))).
  { rewrite (mo_size m p Hm), Hq. exists (rows m p * data_count m p * q). lia. }
  assert (Hl : (k | o + (map_stripe_len m - o mod map_stripe_len m))).
  { pose proof (mo_len m p Hm). exists ((o / map_stripe_len m + 1) * q).
    rewrite (Z.div_mod o (map_stripe_len m)) at 1 by lia. rewrite <- (Z.mul_assoc _ q), <- Hq. lia. }
  unfold piece. destruct p; try exact Hl. by replace (o + (ce_size (map_ce m) - o)) with (ce_size (map_ce m)) by lia.
Qed.

(** An aligned write does not reach beyond the full stripe. *)
Lemma leaf_in_width k L c o : 0 < k -> 0 < c -> 0 < L -> (k | L) -> (k | o) -> 0 <= o -> k <= c * L - o mod (c * L) /\ k <= L.
Proof using Type.
  intros Hk Hc HL HkL Hko Ho. assert (Hw : 0 < c * L) by (apply Z.mul_pos_pos; lia). pose proof (Z.mod_pos_bound o (c * L) Hw).
  split; [|apply Z.divide_pos_le; done]. apply Z.divide_pos_le; [lia|]. apply Z.divide_sub_r; [by apply Z.divide_mul_r|].
  rewrite Z.mod_eq by lia. apply Z.divide_sub_r; [done|]. apply Z.divide_mul_l. by apply Z.divide_mul_r.
Qed.

Lemma write_data_run (Hleaf : leaf_aligned) big (Hbig : stripes_below big) fuel st vol a left total mirror :
  volume_ok st ms vol -> mapped ms a (a + left) -> 0 <= left <= MAX_RW_COUNT -> left + big <= Z.of_nat fuel -> 0 <= big ->
  (left = 0 \/ (fi_leafsize info | a)) ->
  exists st', write_data_loop fuel info b a left total mirror st = Some (0, st') /\
    volume_ok st' ms (overlay vol a left (fun x => b (total + x))).
Proof using Hmap Hd Hb Hrest.
  intros Hvol Hr Hl Hf Hb0 Hal. revert st vol a left total Hvol Hr Hl Hf Hal.
  induction fuel as [|fuel IH]; intros st vol a left total Hvol Hr Hl Hf Hal;
    (destruct (Z.eq_dec left 0) as [->|Hne];
     [exists st; split; [done|]; eapply volume_ok_ext; [|exact Hvol]; intros y; unfold overlay; by rewrite decide_False by lia|]); [lia|].
  destruct Hal as [|Hal]; [done|]. destruct (mapped_end a left Hr) as [Ha0 Hae]; [lia|]. destruct (Hr a) as (m & p & o & Hin & Ho & ->); [lia|].
  pose proof (chunk_ok _ ms m p Hmap Hin) as Hm. destruct Hleaf as [Hk Hleafs]. destruct (Hleafs m p Hin) as [Hks HkL].
  pose proof (mo_start m p Hm). pose proof (piece_range m p Hm o Ho) as Hpr.
  assert (Hko : (fi_leafsize info | o)) by (apply (Z.divide_add_cancel_r _ (ce_start (map_ce m))); done).
  assert (Hstep : exists n st1, 0 < n <= left /\ (left - n = 0 \/ (fi_leafsize info | ce_start (map_ce m) + o + n)) /\
    volume_ok st1 ms (overlay vol (ce_start (map_ce m) + o) n (fun x => b (total + x))) /\
    write_data_loop (S fuel) info b (ce_start (map_ce m) + o) left total mirror st =
      write_data_loop fuel info b (ce_start (map_ce m) + o + n) (left - n) (total + n) mirror st1).
  { destruct (Z.eq_dec (parity_count p) 0) as [Hpar|Hpar].
    - destruct (write_round_plain fuel st vol m p o left total mirror Hvol Hin Ho Hpar) as (st1 & V1 & R1); [lia|].
      exists (Z.min (piece m p o) left), st1. split; [lia|]. split; [|done].
      destruct (Z.le_gt_cases left (piece m p o)); [left; lia|right]. rewrite Z.min_l, <- Z.add_assoc by lia.
      apply Z.divide_add_r; [done|]. by apply piece_aligned.
    - assert (Hp : p = Raid5 \/ p = Raid6) by (destruct p; simpl in Hpar; try lia; auto).
      destruct (leaf_in_width (fi_leafsize info) (map_stripe_len m) (data_count m p) o) as [W1 W2];
        [done|apply (data_pos m p Hm)|apply (mo_len m p Hm)|done|done|lia|].
      pose proof (Hbig m p Hin).
      destruct (write_round_stripe fuel st vol m p o left total mirror Hvol Hin Ho Hp) as (st1 & V1 & R1); [lia|lia|done|lia|].
      replace (Z.min (Z.min (map_stripe_len m) left) (fi_leafsize info)) with (Z.min left (fi_leafsize info)) in V1, R1 by lia.
      rewrite Z.min_l in V1 by lia. exists (Z.min left (fi_leafsize info)), st1. split; [lia|]. split; [|done].
      destruct (Z.le_gt_cases left (fi_leafsize info)); [left; lia|right]. rewrite Z.min_r by lia.
      apply Z.divide_add_r; [done|exists 1; lia]. }
  destruct Hstep as (n & st1 & Hn & Hal1 & V1 & R1). remember (ce_start (map_ce m) + o) as a eqn:Ea.
  destruct (IH st1 _ (a + n) (left - n) (total + n) V1) as (st' & Hrun & V2);
    [replace (a + n + (left - n)) with (a + left) by lia; apply mapped_after; [done|lia]|lia|lia|done|].
  exists st'. split; [by rewrite R1|]. eapply volume_ok_ext; [|exact V2]. intros y.
  rewrite <- (overlay_app vol a n left (fun x => b (total + x)) y) by lia.
  unfold overlay. destruct (decide _); [f_equal; lia|done].
Qed.
End Data.
