(* ===== verification/BlockIoTree.v ===== *)
(** Reading tree blocks: what each mirror holds, and which of them is taken. *)

From S2P Require Import Prelude RbSpec ExtentCache ExtentIo Buf CtreeFmt LeafProps TreeWorld Crc Volumes.
From S2P Require Import VolumesSpec VolumesMap VolumesMapping Raid6 BlockIo BlockIoSpec BlockIoStripe.

Lemma has_type_lor t f : f <> 0 -> has_type (Z.lor t f) f = true.
Proof.
  intros Hf. unfold has_type. replace (Z.land (Z.lor t f) f) with f; [by rewrite (proj2 (Z.eqb_neq f 0))|].
  apply Z.bits_inj'. intros n Hn. rewrite Z.land_spec, Z.lor_spec. by destruct (Z.testbit t n), (Z.testbit f n).
Qed.

Lemma has_type_keep t f g : has_type t f = true -> has_type (Z.lor t g) f = true.
Proof.
  unfold has_type. rewrite !negb_true_iff, !Z.eqb_neq, Z.land_lor_distr_l. intros Hne Hz. apply Z.lor_eq_0_iff in Hz as [Hz _]. done.
Qed.

(** ** The tests of a block *)

Definition right_transid (parent_transid : Z) (b : buf) : bool :=
  (parent_transid =? 0) || (btrfs_header_generation b =? parent_transid).

Section Tests.
Context {T : Type}.
Context (info : io_info T) (Hcs : fi_csum_size info = 4).

(** The block says where it is and what it belongs to, and its sum is right. *)
Definition block_valid (start len : Z) (b : buf) : bool :=
  (start =? btrfs_header_bytenr b) && existsb (fun fsid => memcmp_extent_buffer b fsid btrfs_header_fsid) (fi_fsids info) &&
  match csum_tree_block_size b len 4 true with Some (r, _) => r =? 0 | None => false end.

Lemma csum_verify_run b len : exists r, csum_tree_block_size b len 4 true = Some (r, b) /\ (r = 0 \/ r = 1).
Proof using Type. unfold csum_tree_block_size. cbn [Z.eqb Pos.eqb negb]. destruct (negb _); eauto. Qed.

Definition same_block (eb eb' : io_buffer) : Prop := io_start eb' = io_start eb /\ io_len eb' = io_len eb /\ io_data eb' = io_data eb.

Lemma tests_run eb parent ignore :
  exists eb', tree_block_tests info eb parent ignore =
      Some (block_valid (io_start eb) (io_len eb) (io_data eb) && (right_transid parent (io_data eb) || ignore), eb') /\
    same_block eb eb' /\
    (block_valid (io_start eb) (io_len eb) (io_data eb) && (right_transid parent (io_data eb) || ignore) = true ->
       right_transid parent (io_data eb) = true \/ has_type (io_flags eb') EXTENT_BAD_TRANSID = true).
Proof using Hcs.
  unfold tree_block_tests, check_tree_block, block_valid, csum_tree_block. rewrite Hcs. destruct (_ =? btrfs_header_bytenr _); cbn [negb andb].
  2: { eexists. by split; [done|]. }
  destruct (existsb _ _); cbn [negb andb].
  2: { eexists. by split; [done|]. }
  change (negb (0 =? 0)) with false. cbv iota.
  destruct (csum_verify_run (io_data eb) (io_len eb)) as (r & -> & Hr). cbn [mbind option_bind].
  rewrite io_with_same. destruct Hr as [-> | ->]; [|eexists; by split; [done|]]. change (negb (0 =? 0)) with false. cbv iota.
  change (0 =? 0) with true. cbn [andb]. unfold verify_parent_transid, right_transid.
  destruct ((parent =? 0) || (_ =? parent)) eqn:Et; [eexists; split; [done|]; split; [done|]; by left|].
  apply orb_false_iff in Et as [_ Et]. rewrite Et, andb_false_r. destruct ignore.
  - eexists. split; [done|]. split; [done|]. right. by apply has_type_lor.
  - eexists. by split; [done|].
Qed.

(** They look at the block only. *)
Context (Hfs : Forall (fun fsid => length fsid = 16%nat) (fi_fsids info)).

Lemma valid_agree start len b b' : 101 <= len -> agree b b' 0 len -> block_valid start len b' = block_valid start len b.
Proof using Hfs.
  intros Hlen Hag. unfold block_valid. f_equal; [f_equal|].
  - unfold btrfs_header_bytenr. rewrite (get_le_same 8 b b' 48) by (eapply agree_sub; [exact Hag|lia..]). done.
  - clear Hcs. revert Hfs. induction (fi_fsids info) as [|fsid l IH]; intros Hl; [done|]. apply Forall_cons in Hl as [Hl Hls]. cbn [existsb]. f_equal; [|by apply IH].
    unfold memcmp_extent_buffer, btrfs_header_fsid. rewrite Hl. by rewrite (read_same b b' 32) by (eapply agree_sub; [exact Hag|lia..]).
  - unfold csum_tree_block_size, BTRFS_CSUM_SIZE. cbn [Z.eqb Pos.eqb negb].
    rewrite (read_same b b' 32) by (eapply agree_sub; [exact Hag|lia..]). unfold memcmp_extent_buffer.
    change (length (btrfs_csum_final _)) with 4%nat. rewrite (read_same b b' 0) by (eapply agree_sub; [exact Hag|lia..]). by destruct (negb _).
Qed.

Lemma transid_agree parent len b b' : 101 <= len -> agree b b' 0 len -> right_transid parent b' = right_transid parent b.
Proof using Type.
  intros Hlen Hag. unfold right_transid, btrfs_header_generation. by rewrite (get_le_same 8 b b' 80) by (eapply agree_sub; [exact Hag|lia..]).
Qed.
End Tests.

(** ** The mirrors of a block *)

Section Mirrors.
Context {T : Type} `{RbTreeLaws T}.
Context (info : io_info T) (ms : list (map_lookup * profile)) (Hmap : mapping_ok (fi_mapping info) ms).
Context (Hrest : fi_on_restoring info = false).
Context (st : disks).
Context (m : map_lookup) (p : profile) (Hin : (m, p) ∈ ms) (o len : Z) (Ho : 0 <= o) (Hlen : 0 < len) (Hend : o + len <= ce_size (map_ce m)).
Abbreviation start := (ce_start (map_ce m) + o).

Definition is_block (eb : io_buffer) : Prop := io_start eb = start /\ io_len eb = len.

(** One round: it fails, or gets the same bytes whatever the buffer is. *)
Lemma read_round offset left mirror : 0 <= offset -> 0 < left -> offset + left = len -> 0 <= mirror <= num_copies m ->
  (forall fuel eb, is_block eb -> exists eb', read_whole_eb_loop (S fuel) info st eb mirror offset left = Some (- EIO, eb') /\ is_block eb') \/
  exists n fd phys f, 0 < n <= left /\ forall fuel eb, is_block eb ->
    read_whole_eb_loop (S fuel) info st eb mirror offset left =
      read_whole_eb_loop fuel info st (io_with_data (io_at eb fd phys) (write_extent_buffer (io_data eb) (read_extent_buffer f 0 (Z.to_nat n)) offset))
        mirror (offset + n) (left - n).
Proof using Hmap Hrest Hin Ho Hend.
  intros Hoff Hleft Hl Hmir. pose proof (chunk_ok _ ms m p Hmap Hin) as Hm. pose proof (mo_start m p Hm). pose proof (mo_end m p Hm).
  pose proof (piece_range m p Hm (o + offset) ltac:(lia)) as Hpr.
  set (s := located m (read_index m p (o + offset) mirror) (row_off m p (o + offset))).
  set (n := if left <? piece m p (o + offset) then left else piece m p (o + offset)).
  assert (Hn : 0 < n <= left) by (unfold n; destruct (Z.ltb_spec left (piece m p (o + offset))); lia).
  assert (Hstep : forall fuel eb, is_block eb -> read_whole_eb_loop (S fuel) info st eb mirror offset left =
    if dev_fd (bs_dev s) =? 0 then Some (- EIO, eb)
    else let '(ret, eb) := read_extent_from_disk st (io_at eb (dev_fd (bs_dev s)) (bs_physical s)) offset n in
      if negb (ret =? 0) then Some (- EIO, eb) else read_whole_eb_loop fuel info st eb mirror (offset + n) (left - n)).
  { intros fuel eb [E1 E2]. cbn [read_whole_eb_loop]. rewrite (proj2 (Z.eqb_neq left 0)) by lia. rewrite Hrest. cbn [negb]. cbv zeta.
    rewrite E1, u64_id by lia. rewrite <- (Z.add_assoc _ o offset). rewrite (map_block_read _ ms m p Hmap Hin) by (done || lia).
    cbn [mbind option_bind mr_ret mr_multi mr_length head]. change (negb (0 =? 0)) with false. cbv iota. fold s. by destruct (_ =? 0). }
  clearbody n s. destruct (dev_fd (bs_dev s) =? 0).
  { left. intros fuel eb Heb. exists eb. by rewrite Hstep. }
  unfold read_extent_from_disk in Hstep. cbn [io_at io_fd io_dev_bytenr io_data] in Hstep.
  destruct (pread st (dev_fd (bs_dev s)) n (bs_physical s)) as [ret bytes] eqn:Epr.
  destruct (Z.eq_dec ret n) as [->|Hne].
  - right. exists n, (dev_fd (bs_dev s)), (bs_physical s). unfold pread in Epr.
    destruct (st !! _) as [dk|]; [|injection Epr as <- _; lia]. destruct (existsb _ _); [injection Epr as <- _; lia|]. injection Epr as Hc <-.
    exists (fun x => dk_data dk (bs_physical s + x)). split; [done|]. intros fuel eb Heb. rewrite Hstep by done.
    rewrite (proj2 (Z.ltb_ge n 0)), Z.eqb_refl by lia. cbn [negb]. change (negb (0 =? 0)) with false. cbv iota. rewrite Hc.
    do 3 f_equal. apply read_agree. intros x Hx. by rewrite Z.add_0_l.
  - left. intros fuel eb Heb. eexists. rewrite Hstep by done. destruct (Z.ltb_spec ret 0).
    + rewrite (proj2 (Z.eqb_neq ret 0)) by lia. cbn [negb]. split; [done|]. exact Heb.
    + rewrite (proj2 (Z.eqb_neq ret n)) by lia. cbn [negb]. split; [done|]. exact Heb.
Qed.

Lemma read_whole_cases fuel offset left mirror :
  0 <= offset -> 0 <= left <= Z.of_nat fuel -> offset + left = len -> 0 <= mirror <= num_copies m ->
  (forall eb, is_block eb -> exists eb', read_whole_eb_loop fuel info st eb mirror offset left = Some (- EIO, eb') /\ is_block eb') \/
  exists f : buf, forall eb, is_block eb -> exists eb', read_whole_eb_loop fuel info st eb mirror offset left = Some (0, eb') /\
    is_block eb' /\ forall x, io_data eb' x = if decide (offset <= x < len) then f x else io_data eb x.
Proof using Hmap Hrest Hin Ho Hend.
  intros Hoff Hleft Hl Hmir. revert offset left Hoff Hleft Hl. induction fuel as [|fuel IH]; intros offset left Hoff Hleft Hl;
    (destruct (Z.eq_dec left 0) as [->|Hne];
     [right; exists (fun _ => 0); intros eb Heb; exists eb; split; [done|]; split; [done|]; intros x; by rewrite decide_False by lia|]); [lia|].
  destruct (read_round offset left mirror Hoff ltac:(lia) Hl Hmir) as [Hbad|(n & fd & phys & f & Hn & Hstep)]; [left; by apply Hbad|].
  assert (Heb1 : forall eb, is_block eb ->
    is_block (io_with_data (io_at eb fd phys) (write_extent_buffer (io_data eb) (read_extent_buffer f 0 (Z.to_nat n)) offset))) by done.
  destruct (IH (offset + n) (left - n)) as [Hbad|(g & Hgood)]; [lia..| |].
  - left. intros eb Heb. rewrite Hstep by done. by apply Hbad, Heb1.
  - right. exists (fun x => if decide (offset <= x < offset + n) then f (x - offset) else g x). intros eb Heb. rewrite Hstep by done.
    destruct (Hgood _ (Heb1 eb Heb)) as (eb' & Hrun & Hb' & Hx). exists eb'. split; [done|]. split; [done|]. intros x. rewrite Hx.
    cbn [io_with_data io_data]. rewrite write_read_bytes by lia.
    destruct (decide (offset + n <= x < len)), (decide (offset <= x < offset + n)), (decide (offset <= x < len)); try lia; done.
Qed.

(** What the mirror [k] holds of the block. *)
Definition mirror_reads (rounds : nat) (k : Z) (f : buf) : Prop :=
  forall eb, is_block eb -> exists eb', read_whole_eb rounds info st eb k = Some (0, eb') /\ is_block eb' /\ agree f (io_data eb') 0 len.

Context (rounds : nat) (Hrounds : len <= Z.of_nat rounds).

Lemma mirror_cases k : 0 <= k <= num_copies m ->
  (forall eb, is_block eb -> exists eb', read_whole_eb rounds info st eb k = Some (- EIO, eb') /\ is_block eb') \/ exists f, mirror_reads rounds k f.
Proof using Hmap Hrest Hin Ho Hlen Hend Hrounds.
  intros Hk. destruct (read_whole_cases rounds 0 len k) as [Hbad|(f & Hf)]; [lia..| |].
  - left. intros eb Heb. destruct (Hbad eb Heb) as (eb' & Hrun & Hb). exists eb'. unfold read_whole_eb. destruct Heb as [_ ->]. by split.
  - right. exists f. intros eb Heb. destruct (Hf eb Heb) as (eb' & Hrun & Hb & Hx). exists eb'. unfold read_whole_eb. destruct Heb as [_ ->].
    split; [done|]. split; [done|]. intros x Hr. rewrite Hx. by rewrite decide_True by lia.
Qed.

(** ** The loop over the mirrors *)

Context (Hcs : fi_csum_size info = 4) (Hfs : Forall (fun fsid => length fsid = 16%nat) (fi_fsids info)) (Hbig : 101 <= len).
Context (parent : Z).

Definition taken (eb : io_buffer) : Prop :=
  is_block eb /\ extent_buffer_uptodate eb = true /\ block_valid info start len (io_data eb) = true /\
  (right_transid parent (io_data eb) = true \/ has_type (io_flags eb) EXTENT_BAD_TRANSID = true) /\
  exists k f, 0 <= k <= num_copies m /\ mirror_reads rounds k f /\ agree f (io_data eb) 0 len.

Definition passes (ignore : bool) (b : buf) : bool := block_valid info start len b && (right_transid parent b || ignore).

Lemma loop_round fuel eb k good best ignore : is_block eb -> 0 <= k <= num_copies m ->
  (exists eb', read_tree_block_loop (S fuel) rounds info st eb parent k good best ignore = Some (Some eb') /\ taken eb' /\
     passes ignore (io_data eb') = true /\ forall f, mirror_reads rounds k f -> agree f (io_data eb') 0 len) \/
  (forall f, mirror_reads rounds k f -> passes ignore f = false) /\
  exists eb' good' best', is_block eb' /\ (good' = good \/ good' = k) /\
    read_tree_block_loop (S fuel) rounds info st eb parent k good best ignore =
      if ignore then Some None
      else if num_copies m =? 1 then read_tree_block_loop fuel rounds info st eb' parent k good best true
      else if num_copies m <? k + 1 then read_tree_block_loop fuel rounds info st eb' parent good' good' best' true
      else read_tree_block_loop fuel rounds info st eb' parent (k + 1) good' best' false.
Proof using Hmap Hrest Hin Ho Hlen Hend Hrounds Hcs Hfs Hbig.
  intros Heb Hk.
  assert (Hfail : forall eb', is_block eb' -> exists good' best', (good' = good \/ good' = k) /\
    (if ignore then Some None
     else num_copies ← btrfs_num_copies (fi_mapping info) (io_start eb');
       if num_copies =? 1 then read_tree_block_loop fuel rounds info st eb' parent k good best true
       else
         let gen := btrfs_header_generation (io_data eb') in
         let '(best_transid, good_mirror) := if best <? gen then (gen, k) else (best, good) in
         let mirror_num := k + 1 in
         if num_copies <? mirror_num
         then read_tree_block_loop fuel rounds info st eb' parent good_mirror good_mirror best_transid true
         else read_tree_block_loop fuel rounds info st eb' parent mirror_num good_mirror best_transid false) =
      if ignore then Some None
      else if num_copies m =? 1 then read_tree_block_loop fuel rounds info st eb' parent k good best true
      else if num_copies m <? k + 1 then read_tree_block_loop fuel rounds info st eb' parent good' good' best' true
      else read_tree_block_loop fuel rounds info st eb' parent (k + 1) good' best' false).
  { intros eb' [-> _]. rewrite (num_copies_run _ ms m p Hmap Hin) by lia. cbn [mbind option_bind]. cbv zeta.
    destruct (best <? _); eexists _, _; (split; [|reflexivity]); auto. }
  cbn [read_tree_block_loop]. destruct (mirror_cases k Hk) as [Hbad|[f Hf]].
  - destruct (Hbad eb Heb) as (eb' & Hrun & Hb). right. split.
    { intros f Hf. destruct (Hf eb Heb) as (eb2 & Hrun2 & _). rewrite Hrun in Hrun2. discriminate. }
    rewrite Hrun. cbn [mbind option_bind]. change (- EIO =? 0) with false. cbv iota. cbn [mbind option_bind]. destruct (Hfail eb' Hb) as (good' & best' & Hg & Hrest'). by exists eb', good', best'.
  - destruct (Hf eb Heb) as (eb' & Hrun & Hb & Hag). rewrite Hrun. cbn [mbind option_bind]. change (0 =? 0) with true. cbv iota.
    destruct (tests_run info Hcs eb' parent ignore) as (eb2 & Ht & (T1 & T2 & T3) & Hflag). rewrite Ht. cbn [mbind option_bind].
    destruct Hb as [B1 B2]. rewrite B1, B2 in Hflag |- *. fold (passes ignore (io_data eb')) in Hflag |- *.
    assert (Hb2 : is_block eb2) by (split; congruence). destruct (passes ignore (io_data eb')) eqn:Epass.
    + left. eexists. split; [reflexivity|]. unfold taken. unfold extent_buffer_uptodate, set_extent_buffer_uptodate.
      cbn [io_with_flags io_data io_flags]. rewrite T3. split; [|split; [done|]].
      2: { intros g Hg. destruct (Hg eb Heb) as (eb3 & Hrun3 & _ & Hag3). rewrite Hrun in Hrun3. by injection Hrun3 as <-. }
      split; [done|]. split; [by apply has_type_lor|].
      pose proof Epass as Ev. apply andb_true_iff in Ev as [Ev _]. split; [done|].
      split; [|by exists k, f]. destruct (Hflag eq_refl) as [Hr|Hr]; [by left|right; by apply has_type_keep].
    + right. split.
      * intros g Hg. destruct (Hg eb Heb) as (eb3 & Hrun3 & _ & Hag3). rewrite Hrun in Hrun3. injection Hrun3 as <-.
        rewrite <- Epass. unfold passes. by rewrite (valid_agree info Hfs start len g _ Hbig Hag3), (transid_agree parent len g _ Hbig Hag3).
      * destruct (Hfail eb2 Hb2) as (good' & best' & Hg & Hrest'). by exists eb2, good', best'.
Qed.

(** It ends, and what it returns has passed. *)
Lemma loop_returns fuel eb k good best (ignore : bool) :
  is_block eb -> 0 <= k <= num_copies m -> 0 <= good <= num_copies m ->
  (if ignore then 1 else num_copies m - k + 2) <= Z.of_nat fuel ->
  exists r, read_tree_block_loop fuel rounds info st eb parent k good best ignore = Some r /\ forall eb', r = Some eb' -> taken eb'.
Proof using Hmap Hrest Hin Ho Hlen Hend Hrounds Hcs Hfs Hbig.
  revert eb k good best ignore. induction fuel as [|fuel IH]; intros eb k good best ignore Heb Hk Hg Hf; [destruct ignore; lia|].
  destruct (loop_round fuel eb k good best ignore Heb Hk) as [(eb' & -> & Ht & _)|(_ & eb' & good' & best' & Heb' & Hg' & ->)].
  - exists (Some eb'). split; [done|]. intros e [= <-]. done.
  - destruct ignore; [by exists None|]. destruct (num_copies m =? 1); [apply IH; [done..|lia]|].
    destruct (Z.ltb_spec (num_copies m) (k + 1)); apply IH; (done || lia).
Qed.

(** A good mirror is found. *)
Lemma loop_finds fuel eb k good best j f :
  is_block eb -> 0 <= k <= j -> j <= num_copies m -> k = j \/ num_copies m <> 1 -> mirror_reads rounds j f -> passes false f = true ->
  j - k + 1 <= Z.of_nat fuel ->
  exists eb', read_tree_block_loop fuel rounds info st eb parent k good best false = Some (Some eb') /\ taken eb' /\ passes false (io_data eb') = true.
Proof using Hmap Hrest Hin Ho Hlen Hend Hrounds Hcs Hfs Hbig.
  intros Heb Hk Hj Hone Hread Hpass. revert eb k good best Heb Hk Hone. induction fuel as [|fuel IH]; intros eb k good best Heb Hk Hone Hf; [lia|].
  destruct (loop_round fuel eb k good best false Heb) as [(eb' & -> & Ht & Hp & _)|(Hno & eb' & good' & best' & Heb' & Hg' & ->)]; [lia|by exists eb'|].
  destruct (Z.eq_dec k j) as [->|Hne]; [rewrite (Hno f Hread) in Hpass; done|].
  rewrite (proj2 (Z.eqb_neq _ 1)), (proj2 (Z.ltb_ge _ _)) by lia. apply IH; [done|lia|lia|lia].
Qed.
End Mirrors.

(** ** Writing tree blocks: every copy and the parity of the block. *)

(** ** What is written *)

Definition block_sum (b : buf) (len : Z) : list Z := btrfs_csum_final (crc_ref (u32 (Z.lnot 0)) (csummed b len)).

(** The block with its flag and its sum. *)
Definition stored_block (len : Z) (b : buf) : buf :=
  let b := btrfs_set_header_flag b BTRFS_HEADER_FLAG_WRITTEN in write_extent_buffer b (block_sum b len) 0.

Lemma set_flag_outside b flag x : ~ 56 <= x < 64 -> btrfs_set_header_flag b flag x = b x.
Proof. unfold btrfs_set_header_flag, btrfs_set_header_flags, put_le. intros Hx. zbool; lia || done. Qed.

Lemma block_sum_length b len : length (block_sum b len) = 4%nat.
Proof. done. Qed.

Lemma stored_outside len b x : ~ 56 <= x < 64 -> 4 <= x -> stored_block len b x = b x.
Proof.
  intros Hx H4. unfold stored_block. cbv zeta. rewrite write_outside by (right; rewrite block_sum_length; lia). by apply set_flag_outside.
Qed.

Lemma stored_ok len b : bytes_ok b -> bytes_ok (stored_block len b).
Proof.
  intros Hb x. unfold stored_block. cbv zeta. set (b1 := btrfs_set_header_flag b _).
  assert (Hb1 : in_byte (b1 x)) by (apply put_le_ok; exact Hb). clearbody b1.
  unfold block_sum, btrfs_csum_final, write_extent_buffer, in_byte.
  repeat (destruct (_ =? _); [apply Z.mod_pos_bound; lia|]). exact Hb1.
Qed.

Lemma stored_valid {T} (info : io_info T) start len b :
  Forall (fun fsid => length fsid = 16%nat) (fi_fsids info) -> bytes_ok b ->
  start = btrfs_header_bytenr b -> existsb (fun fsid => memcmp_extent_buffer b fsid btrfs_header_fsid) (fi_fsids info) = true ->
  block_valid info start len (stored_block len b) = true.
Proof.
  intros Hfs Hb Hs Hf. unfold block_valid. apply andb_true_iff. split; [apply andb_true_iff; split|].
  - apply Z.eqb_eq. rewrite Hs. unfold btrfs_header_bytenr. symmetry. apply get_le_same. intros x Hx. apply stored_outside; lia.
  - rewrite <- Hf. clear Hf. induction Hfs as [|fsid l Hl _ IH]; [done|]. cbn [existsb]. f_equal; [|exact IH].
    unfold memcmp_extent_buffer. rewrite Hl. rewrite (read_same b (stored_block len b)); [done|]. intros x Hx.
    unfold btrfs_header_fsid in Hx. apply stored_outside; lia.
  - rewrite (csum_size_run _ len true (stored_ok len b Hb)). cbv zeta.
    assert (Hc : csummed (stored_block len b) len = csummed (btrfs_set_header_flag b BTRFS_HEADER_FLAG_WRITTEN) len).
    { apply read_same. intros x Hx. unfold stored_block. cbv zeta. apply write_outside. rewrite block_sum_length.
      unfold BTRFS_CSUM_SIZE in Hx. lia. }
    rewrite Hc. rewrite bool_decide_eq_true_2; [done|]. exact (read_write _ (block_sum _ len) 0).
Qed.

Section WriteTree.
Context {T : Type} `{RbTreeLaws T}.
Context (info : io_info T) (ms : list (map_lookup * profile)) (Hmap : mapping_ok (fi_mapping info) ms) (Hd : extents_disjoint ms).
Context (Hrest : fi_on_restoring info = false).
Context (m : map_lookup) (p : profile) (Hin : (m, p) ∈ ms) (o len : Z) (Ho : 0 <= o) (Hlen : 0 < len) (Hend : o + len <= ce_size (map_ce m)).
Context (Hpiece : len <= piece m p o) (Hmax : len <= MAX_RW_COUNT).
Abbreviation start := (ce_start (map_ce m) + o).

Lemma write_and_map_run fuel st vol eb :
  volume_ok st ms vol -> is_block m o len eb -> bytes_ok (io_data eb) -> map_stripe_len m <= Z.of_nat fuel ->
  exists st', write_and_map_eb fuel info eb st = Some (0, st') /\ volume_ok st' ms (overlay vol start len (io_data eb)).
Proof using Hmap Hd Hrest Hin Ho Hlen Hend Hpiece Hmax.
  intros Hvol [E1 E2] Hb Hf. assert (Hos : 0 <= o < ce_size (map_ce m)) by lia.
  pose proof (chunk_ok _ ms m p Hmap Hin) as Hm. pose proof (piece_fits m p Hm o Hos) as Hpf. pose proof (row_off_range m p Hm o Hos) as Hro.
  pose proof (copies_pos m p Hm) as Hc. pose proof (mo_start m p Hm). pose proof (mo_end m p Hm).
  unfold write_and_map_eb. rewrite E1, E2. destruct (Z.eq_dec (parity_count p) 0) as [Hpar|Hpar].
  - destruct (write_eb_copies_run ms Hd m p Hin (row_off m p o) len ltac:(lia) ltac:(lia) ltac:(lia) st
      ((fun c => index_of m p o c) <$> seqZ 0 (data_copies m p)) eb (fun _ => io_data eb)) as (st' & Hrun & Hw);
      [apply (vo_store _ _ _ Hvol)| |done|done|done|].
    { apply Forall_fmap, Forall_forall. intros c Hcin%elem_of_seqZ. apply (index_range m p Hm o Hos). lia. }
    exists st'. split; [|apply (copies_written _ ms Hmap st st' vol m p o len); [done..|lia|exact Hw]].
    rewrite (map_block_write _ ms m p Hmap Hin) by done. cbn [assume_some].
    rewrite (bind_some _ _ st _ st) by done. cbn [mr_ret mr_multi mr_raid_map]. rewrite <- list_fmap_compose in Hrun.
    rewrite (bind_some _ _ st tt st') by (rewrite (bind_some _ _ st _ st) by done; exact Hrun). done.
  - assert (Hp : p = Raid5 \/ p = Raid6) by (destruct p; simpl in Hpar; try lia; auto).
    pose proof (row_range m p Hm o Hos) as Hrow. pose proof (o_split m p Hm o) as Hsp. pose proof (col_range m p Hm o Hos) as Hcol.
    pose proof (so_range m p Hm o) as Hso. pose proof (mo_len m p Hm) as HL.
    assert (Hpc : piece m p o = map_stripe_len m - o mod map_stripe_len m) by (by destruct Hp as [-> | ->]).
    assert ((col_of m p o + 1) * map_stripe_len m <= data_count m p * map_stripe_len m) by (apply Z.mul_le_mono_nonneg_r; lia).
    assert (0 <= col_of m p o * map_stripe_len m) by (apply Z.mul_nonneg_nonneg; lia).
    destruct (write_stripe_run info ms Hmap Hd Hrest st vol Hvol m p Hin Hp (row_of m p o) Hrow eb Hb) with (fuel := fuel) as (st' & Hrun & Hw);
      [lia|lia|lia|done|].
    exists st'. split.
    + rewrite (map_block_full _ ms m p Hmap Hin) by done. cbn [assume_some].
      rewrite (bind_some _ _ st _ st) by done. cbn [mr_ret mr_multi mr_raid_map mr_length].
      rewrite (bind_some _ _ st tt st'); [done|]. rewrite (bind_some _ _ st _ st) by done. rewrite (bind_some _ _ st 0 st') by exact Hrun. done.
    + pose proof (stripe_written info ms Hmap st vol Hvol m p Hin Hp (row_of m p o) Hrow eb ltac:(lia) st' Hw) as Hv.
      eapply volume_ok_ext; [|exact Hv]. intros a. unfold new_vol, stripe_len_left. rewrite E1, E2. f_equal. lia.
Qed.

Lemma write_tree_run fuel st vol eb transid :
  volume_ok st ms vol -> is_block m o len eb -> bytes_ok (io_data eb) -> map_stripe_len m <= Z.of_nat fuel -> fi_csum_size info = 4 ->
  check_tree_block info eb = 0 -> extent_buffer_uptodate eb = true -> right_transid transid (io_data eb) = true ->
  exists st', write_tree_block fuel info transid eb st = Some (0, st') /\ volume_ok st' ms (overlay vol start len (stored_block len (io_data eb))).
Proof using Hmap Hd Hrest Hin Ho Hlen Hend Hpiece Hmax.
  intros Hvol Heb Hb Hf Hcs Hck Hup Htr. unfold write_tree_block. rewrite Hck. change (negb (0 =? 0)) with false. cbv iota.
  unfold btrfs_buffer_uptodate. rewrite Hup. cbn [negb]. unfold verify_parent_transid. fold (right_transid transid (io_data eb)). rewrite Htr.
  change (0 =? 0) with true. cbn [negb]. unfold csum_tree_block. cbn [io_with_data io_data io_len]. destruct Heb as [E1 E2]. rewrite E2, Hcs.
  rewrite csum_size_run by (apply put_le_ok; exact Hb). cbn [mbind option_bind].
  apply (write_and_map_run fuel st vol (io_with_data _ (stored_block len (io_data eb)))); [done|by split|by apply stored_ok|done].
Qed.

(** The volume's bytes are what mirror 0 holds. *)
Lemma volume_mirror st vol rounds : volume_ok st ms vol -> len <= Z.of_nat rounds ->
  mirror_reads info st m o len rounds 0 (fun x => vol (start + x)).
Proof using Hmap Hrest Hin Ho Hlen Hend Hmax.
  intros Hvol Hr eb [E1 E2].
  destruct (read_whole_run info ms Hmap st vol Hvol rounds eb 0 len 0) as (eb' & Hrun & B1 & B2 & _ & Hx);
    [done|lia|lia| |lia|done|by apply (mirror_zero info)|].
  { intros a Ha. exists m, p, (a - ce_start (map_ce m)). split; [done|]. lia. }
  exists eb'. unfold read_whole_eb. rewrite E2. split; [done|]. split; [split; congruence|]. intros x Hx'. rewrite Hx, E1.
  by rewrite decide_True by lia.
Qed.
End WriteTree.
