(* ===== verification/BlockIoProps.v ===== *)
(** Disks for the examples of the theorems. *)

From S2P Require Import Prelude RbSpec RbTree RbInstance ExtentCache ExtentIo Buf CtreeFmt TreeWorld Crc.
From S2P Require Import Volumes VolumesSpec VolumesMap VolumesMapping VolumesProps Raid6 BlockIo BlockIoSpec.
From S2P Require Import BlockIoStripe BlockIoTree.

Definition zero_disk : disk := Disk 0x10000000 (fun _ => false) (fun _ => 0).

(** The disks of the demo devices, all zero. *)
Definition zero_disks : disks := list_to_map ((fun fd => (fd, zero_disk)) <$> seqZ 3 8).

Lemma zero_disks_lookup fd : 3 <= fd < 11 -> zero_disks !! fd = Some zero_disk.
Proof.
  intros Hfd. apply elem_of_list_to_map_1.
  - rewrite <- list_fmap_compose. cbn [compose]. change (NoDup ((fun fd : Z => fd) <$> seqZ 3 8)). rewrite list_fmap_id. apply NoDup_seqZ.
  - apply list_elem_of_fmap. exists fd. split; [done|]. apply elem_of_seqZ. lia.
Qed.

Lemma zero_byte fd x : dev_byte zero_disks fd x = 0.
Proof.
  unfold dev_byte. destruct (zero_disks !! fd) as [d|] eqn:Hd; [|done]. apply elem_of_list_to_map_2, list_elem_of_fmap in Hd as (y & [=-> ->] & _). done.
Qed.

Lemma zero_parity {A} (l : list A) k : parity_of k ((fun _ => 0) <$> l) = 0.
Proof.
  unfold parity_of, gf_parity, gf_syndrome. destruct (k =? 0); (induction l as [|a l IH]; [done|]); cbn [fmap list_fmap foldr]; by rewrite IH.
Qed.

Lemma demo_volume type num sub size p :
  0 <= num <= 8 -> dev_len (demo_chunk type num sub size) p <= 0x1000000 ->
  volume_ok zero_disks [(demo_chunk type num sub size, p)] (fun _ => 0).
Proof.
  intros Hnum Hlen. split.
  - split.
    + intros c i ->%list_elem_of_singleton Hi. cbn [fst snd map_num_stripes demo_chunk] in *. cbv zeta.
      assert (Hst : the_stripe (demo_chunk type num sub size) i = BioStripe (demo_device i) (0x100000 + i * 0x1000000)).
      { unfold the_stripe, stripe_at. rewrite (proj2 (Z.ltb_ge _ _)) by lia. cbn [map_stripes demo_chunk].
        rewrite list_lookup_fmap, lookup_seqZ_lt by lia. simpl. by replace (0 + Z.of_nat (Z.to_nat i)) with i by lia. }
      rewrite Hst. cbn [bs_dev bs_physical demo_device dev_fd]. split; [lia|]. exists zero_disk.
      split; [apply zero_disks_lookup; lia|]. split; [|done]. cbn [zero_disk dk_size]. lia.
    + intros fd x. rewrite zero_byte. unfold in_byte. lia.
  - intros c o copy _ _ _. apply zero_byte.
  - intros c row k x _ _ _ _. unfold place_byte. rewrite zero_byte. symmetry. apply zero_parity.
Qed.

Definition demo_info (m : map_lookup) : io_info rb_mem :=
  IoInfo (one_chunk m) false [] [replicate 16 0] 4 0x1000.

(** A mirrored chunk. *)
Definition demo_raid1 : map_lookup := demo_chunk 0x14 2 1 0x40000.

Lemma demo_raid1_ok : map_ok demo_raid1 Raid1.
Proof.
  split.
  - vm_compute. reflexivity.
  - vm_compute. reflexivity.
  - exists 0x2000. vm_compute. reflexivity.
  - vm_compute. reflexivity.
  - vm_compute. reflexivity.
  - vm_compute. reflexivity.
  - vm_compute. reflexivity.
  - vm_compute. reflexivity.
  - vm_compute. intros [=].
  - vm_compute. reflexivity.
  - vm_compute. reflexivity.
  - apply (bool_decide_unpack _). vm_compute. exact I.
Qed.

(** A block of 128 bytes at the start of the chunk, of generation 7. *)
Definition demo_block : buf := put_le 8 48 0x500000 (put_le 8 80 7 (fun _ => 0)).

Definition demo_sum : list Z := Eval vm_compute in block_sum demo_block 128.

(** The second copy is good, the sectors of the first are bad. *)
Definition damaged_disks : disks :=
  <[3 := Disk 0x10000000 (fun _ => true) (fun _ => 0)]>
  (<[4 := Disk 0x10000000 (fun _ => false) (fun x =>
       if (0x1100000 <=? x) && (x <? 0x1100080) then write_extent_buffer demo_block demo_sum 0 (x - 0x1100000) else 0)]> zero_disks).

(** ** What block I/O guarantees. *)

(** Whether the mirror [k] has a block that passes all tests. *)
Definition mirror_good {T} `{RbTree T} (info : io_info T) (st : disks) (rounds : nat) (start len parent k : Z) : bool :=
  match read_whole_eb rounds info st (IoBuffer start len 0 0 0 (fun _ => 0)) k with
  | Some (ret, eb) => (ret =? 0) && block_valid info start len (io_data eb) && right_transid parent (io_data eb)
  | None => false
  end.

Section Props.
Context {T : Type} `{RbTreeLaws T}.
Implicit Types (info : io_info T) (ms : list (map_lookup * profile)).

(** C8: [write_data_to_disk] refines an assignment to a range of the logical
    address space, when the range begins at a multiple of the leaf size and all
    chunks and stripes are aligned to it: if the disks hold the contents [vol],
    every copy and the parity included, then after the write they hold [vol]
    with the range replaced, in all copies and with the right parity, for every
    profile and whichever chunks the range crosses.  A write to RAID 5 or 6 that
    is not aligned so can lose what is past the end of its full stripe
    ([write_past_stripe_lost]). *)
Theorem write_data_correct info ms st vol fuel b offset bytes mirror big
  (Hmap : mapping_ok (fi_mapping info) ms) (Hd : extents_disjoint ms) (Hrest : fi_on_restoring info = false)
  (Hvol : volume_ok st ms vol) (Hb : bytes_ok b) (Hleaf : leaf_aligned info ms)
  (Hr : mapped ms offset (offset + bytes)) (Hbytes : 0 <= bytes <= MAX_RW_COUNT) (Hal : (fi_leafsize info | offset))
  (Hbig : stripes_below ms big) (Hbig0 : 0 <= big) (Hfuel : bytes + big <= Z.of_nat fuel) :
  exists st', write_data_to_disk fuel info b offset bytes mirror st = Some (0, st') /\
    volume_ok st' ms (overlay vol offset bytes b).
Proof.
  apply (write_data_run info ms Hmap Hd Hrest b Hb Hleaf big Hbig fuel st vol offset bytes 0 mirror Hvol Hr Hbytes Hfuel Hbig0). by right.
Qed.

(** C27: [read_data_from_disk] returns the contents of the volume, from any
    mirror that has data, and writes no other byte of the caller's buffer. *)
Theorem read_data_correct info ms st vol fuel b offset bytes mirror
  (Hmap : mapping_ok (fi_mapping info) ms) (Hvol : volume_ok st ms vol) (Hr : mapped ms offset (offset + bytes))
  (Hbytes : 0 <= bytes <= MAX_RW_COUNT) (Hfuel : bytes <= Z.of_nat fuel) (Hmir : mirror_ok ms mirror) :
  exists b', read_data_from_disk fuel info st b offset bytes mirror = Some (0, b') /\
    forall x, b' x = if decide (0 <= x < bytes) then vol (offset + x) else b x.
Proof.
  destruct (read_data_run info ms Hmap st vol Hvol fuel b offset bytes 0 mirror Hr) as (b' & Hrun & Hx); [lia|lia|done|].
  exists b'. split; [exact Hrun|]. intros x. rewrite Hx, Z.add_0_l. destruct (decide _); [f_equal; lia|done].
Qed.

(** a write of at most one leaf to RAID 5 or 6 that reaches beyond the end of
    its full stripe reports success, but the bytes beyond keep their old
    values: the length is cut to the stripe length and the leaf size only,
    whatever the place in the stripe is. *)
Theorem write_past_stripe_lost info ms st vol fuel b m p o bytes mirror
  (Hmap : mapping_ok (fi_mapping info) ms) (Hd : extents_disjoint ms) (Hrest : fi_on_restoring info = false)
  (Hvol : volume_ok st ms vol) (Hb : bytes_ok b) (Hin : (m, p) ∈ ms) (Hp : p = Raid5 \/ p = Raid6)
  (Ho : 0 <= o < ce_size (map_ce m)) (Hend : ce_start (map_ce m) + o + bytes < 2 ^ 64)
  (Hbytes : 0 < bytes <= Z.min (map_stripe_len m) (fi_leafsize info)) (Hfuel : map_stripe_len m <= Z.of_nat fuel) :
  let width := data_count m p * map_stripe_len m in
  width - o mod width < bytes ->
  exists st', write_data_to_disk (S fuel) info b (ce_start (map_ce m) + o) bytes mirror st = Some (0, st') /\
    volume_ok st' ms (overlay vol (ce_start (map_ce m) + o) (width - o mod width) b).
Proof.
  intros width Hcross. unfold write_data_to_disk.
  destruct (write_round_stripe info ms Hmap Hd Hrest b Hb fuel st vol m p o bytes 0 mirror Hvol Hin Ho Hp) as (st' & V & R); [lia|done|lia|lia|].
  replace (Z.min (Z.min (map_stripe_len m) bytes) (fi_leafsize info)) with bytes in V, R by lia. fold width in V. rewrite Z.min_r in V by lia.
  exists st'. split; [|exact V]. rewrite R, Z.sub_diag. by destruct fuel.
Qed.

Section Block.
Context info ms m p o len (Hmap : mapping_ok (fi_mapping info) ms) (Hrest : fi_on_restoring info = false)
  (Hcs : fi_csum_size info = 4) (Hfs : Forall (fun fsid => length fsid = 16%nat) (fi_fsids info))
  (Hin : (m, p) ∈ ms) (Ho : 0 <= o) (Hlen : 101 <= len) (Hend : o + len <= ce_size (map_ce m)).
Abbreviation start := (ce_start (map_ce m) + o).

Lemma fresh_not_uptodate eb parent : extent_buffer_uptodate eb = false -> btrfs_buffer_uptodate eb parent = (false, eb).
Proof using Type. intros Hup. unfold btrfs_buffer_uptodate. by rewrite Hup. Qed.

(** C23: [read_tree_block] always returns, and a block it returns is marked up to
    date, is what one of the mirrors holds, says that it belongs to this
    address and file system, has the right checksum, and has the generation
    asked for or is marked [EXTENT_BAD_TRANSID]. *)
Theorem read_tree_block_checked st fuel rounds eb parent
  (Hst : io_start eb = start) (Hl : io_len eb = len) (Hup : extent_buffer_uptodate eb = false)
  (Hr : len <= Z.of_nat rounds) (Hf : num_copies m + 2 <= Z.of_nat fuel) :
  exists r, read_tree_block fuel rounds info st (Some eb) parent = Some r /\ forall eb', r = Some eb' ->
    extent_buffer_uptodate eb' = true /\ io_start eb' = start /\ io_len eb' = len /\
    block_valid info start len (io_data eb') = true /\
    (right_transid parent (io_data eb') = true \/ has_type (io_flags eb') EXTENT_BAD_TRANSID = true) /\
    exists k ebk, 0 <= k <= num_copies m /\
      read_whole_eb rounds info st (IoBuffer start len 0 0 0 (fun _ => 0)) k = Some (0, ebk) /\ agree (io_data ebk) (io_data eb') 0 len.
Proof using All.
  unfold read_tree_block. rewrite fresh_not_uptodate by done.
  pose proof (num_copies_ok m p (chunk_ok _ ms m p Hmap Hin)) as Hn. pose proof (copies_pos m p (chunk_ok _ ms m p Hmap Hin)).
  assert (Hnc : 1 <= num_copies m) by (destruct p; lia).
  destruct (loop_returns info ms Hmap Hrest st m p Hin o len Ho ltac:(lia) Hend rounds Hr Hcs Hfs Hlen parent fuel eb 0 0 0 false) as (r & -> & Ht);
    [done|lia..|]. exists r. split; [done|]. intros eb' Heq. destruct (Ht eb' Heq) as ([B1 B2] & Tu & Tv & Tt & k & f & Hk & Hread & Hag).
  split; [done|]. split; [done|]. split; [done|]. split; [done|]. split; [done|].
  destruct (Hread (IoBuffer start len 0 0 0 (fun _ => 0))) as (ebk & Hrun & _ & Hagk); [done|]. exists k, ebk. split; [done|]. split; [done|].
  intros x Hx. by rewrite Hag, Hagk.
Qed.

(** C16: when any mirror has a good block, [read_tree_block] returns a good block,
    whatever the other mirrors hold and whether they can be read at all. *)
Theorem read_tree_block_recovers st fuel rounds eb parent k
  (Hst : io_start eb = start) (Hl : io_len eb = len) (Hup : extent_buffer_uptodate eb = false)
  (Hr : len <= Z.of_nat rounds) (Hf : num_copies m + 1 <= Z.of_nat fuel)
  (Hk : 0 <= k <= num_copies m) (Hk1 : num_copies m <> 1 \/ k = 0) (Hgood : mirror_good info st rounds start len parent k = true) :
  exists eb', read_tree_block fuel rounds info st (Some eb) parent = Some (Some eb') /\
    extent_buffer_uptodate eb' = true /\ io_start eb' = start /\ io_len eb' = len /\
    block_valid info start len (io_data eb') = true /\ right_transid parent (io_data eb') = true.
Proof using All.
  unfold read_tree_block. rewrite fresh_not_uptodate by done. unfold mirror_good in Hgood.
  assert (Hblank : is_block m o len (IoBuffer start len 0 0 0 (fun _ => 0))) by done.
  destruct (mirror_cases info ms Hmap Hrest st m p Hin o len Ho ltac:(lia) Hend rounds Hr k Hk) as [Hbad|[f Hread]].
  { destruct (Hbad _ Hblank) as (ebk & Hrun & _). rewrite Hrun in Hgood. done. }
  destruct (Hread _ Hblank) as (ebk & Hrun & _ & Hag). rewrite Hrun in Hgood. rewrite Z.eqb_refl in Hgood. cbn [andb] in Hgood.
  rewrite (valid_agree info Hfs start len f _ Hlen Hag), (transid_agree parent len f _ Hlen Hag) in Hgood.
  destruct (loop_finds info ms Hmap Hrest st m p Hin o len Ho ltac:(lia) Hend rounds Hr Hcs Hfs Hlen parent fuel eb 0 0 0 k f) as (eb' & Hloop & Ht & Hp);
    [done|lia|lia|lia|done|unfold passes; by rewrite orb_false_r|lia|].
  exists eb'. split; [exact Hloop|]. destruct Ht as ([B1 B2] & Tu & Tv & _). split; [done|]. split; [done|]. split; [done|]. split; [done|].
  unfold passes in Hp. rewrite orb_false_r in Hp. by apply andb_true_iff in Hp as [_ Hp].
Qed.

(** C9: a block that [write_tree_block] has written, [read_tree_block] reads
    back: it is the block with the flag that it was written and with its
    checksum, and all other contents of the volume are as they were. *)
Theorem tree_block_roundtrip st vol fuel eb transid
  (Hd : extents_disjoint ms) (Hpiece : len <= piece m p o) (Hmax : len <= MAX_RW_COUNT)
  (Hst : io_start eb = start) (Hl : io_len eb = len) (Hb : bytes_ok (io_data eb)) (Hvol : volume_ok st ms vol)
  (Hck : check_tree_block info eb = 0) (Hup : extent_buffer_uptodate eb = true) (Htr : btrfs_header_generation (io_data eb) = transid)
  (Hf : map_stripe_len m <= Z.of_nat fuel) :
  exists st', write_tree_block fuel info transid eb st = Some (0, st') /\
    volume_ok st' ms (overlay vol start len (stored_block len (io_data eb))) /\
    (forall x, 4 <= x -> ~ 56 <= x < 64 -> stored_block len (io_data eb) x = io_data eb x) /\
    forall fuel' rounds fresh, io_start fresh = start -> io_len fresh = len -> extent_buffer_uptodate fresh = false ->
      len <= Z.of_nat rounds -> (0 < fuel')%nat ->
      exists eb', read_tree_block fuel' rounds info st' (Some fresh) transid = Some (Some eb') /\
        agree (stored_block len (io_data eb)) (io_data eb') 0 len.
Proof using All.
  assert (Htr' : right_transid transid (io_data eb) = true) by (unfold right_transid; rewrite Htr, Z.eqb_refl; apply orb_true_r).
  destruct (write_tree_run info ms Hmap Hd Hrest m p Hin o len Ho ltac:(lia) Hend Hpiece Hmax fuel st vol eb transid) as (st' & Hrun & Hvol'); [done..|].
  exists st'. split; [done|]. split; [done|]. split; [intros; by apply stored_outside|].
  intros fuel' rounds fresh F1 F2 F3 Hr Hf'. unfold read_tree_block. rewrite fresh_not_uptodate by done. destruct fuel' as [|fuel']; [lia|].
  pose proof (num_copies_ok m p (chunk_ok _ ms m p Hmap Hin)) as Hn. pose proof (copies_pos m p (chunk_ok _ ms m p Hmap Hin)).
  assert (Hnc : 1 <= num_copies m) by (destruct p; lia).
  pose proof (volume_mirror info ms Hmap Hrest m p Hin o len Ho ltac:(lia) Hend Hmax st' _ rounds Hvol' Hr) as Hmir.
  set (f := fun x => overlay _ _ _ _ (start + x)) in Hmir.
  assert (Hag : agree (stored_block len (io_data eb)) f 0 len).
  { intros x Hx. unfold f, overlay. rewrite decide_True by lia. f_equal. lia. }
  assert (Hpass : passes info m o len transid false f = true).
  { unfold passes. rewrite (valid_agree info Hfs start len _ _ Hlen Hag), (transid_agree transid len _ _ Hlen Hag), orb_false_r.
    apply andb_true_iff. split.
    - unfold check_tree_block in Hck. destruct (Z.eqb_spec (io_start eb) (btrfs_header_bytenr (io_data eb))) as [Hs|]; [|done]. cbn [negb] in Hck.
      destruct (existsb _ _) eqn:Ef; [|done]. apply stored_valid; [done|done|congruence|done].
    - rewrite <- Htr'. unfold right_transid, btrfs_header_generation. rewrite (get_le_same 8 (io_data eb)); [done|].
      intros x Hx. apply stored_outside; lia. }
  destruct (loop_round info ms Hmap Hrest st' m p Hin o len Ho ltac:(lia) Hend rounds Hr Hcs Hfs Hlen transid fuel' fresh 0 0 0 false)
    as [(eb' & Hloop & _ & _ & Hall)|(Hno & _)]; [done|lia| |rewrite (Hno f Hmir) in Hpass; done].
  exists eb'. split; [exact Hloop|]. intros x Hx. by rewrite (Hall f Hmir x Hx), (Hag x Hx).
Qed.
End Block.
End Props.

(** ** Examples *)

Definition demo_bytes : buf := fun x => x mod 256.

Lemma demo_bytes_ok : bytes_ok demo_bytes.
Proof. intros x. apply Z.mod_pos_bound. lia. Qed.

Lemma demo_mapped type num sub size p lo hi :
  0x500000 <= lo -> hi <= 0x500000 + size -> mapped [(demo_chunk type num sub size, p)] lo hi.
Proof.
  intros Hlo Hhi a Ha. exists (demo_chunk type num sub size), p, (a - 0x500000). split; [by left|].
  cbn [demo_chunk map_ce ce_start ce_size]. lia.
Qed.

Lemma demo_aligned type num sub size p : leaf_aligned (demo_info (demo_chunk type num sub size)) [(demo_chunk type num sub size, p)].
Proof.
  split; [done|]. intros m p' Hin%list_elem_of_singleton. injection Hin as -> ->. split; [by exists 0x500|by exists 0x10].
Qed.

Lemma demo_below type num sub size p : stripes_below [(demo_chunk type num sub size, p)] 0x10000.
Proof. intros m p' Hin%list_elem_of_singleton. injection Hin as -> ->. done. Qed.

Lemma demo_fsids m : Forall (fun fsid => length fsid = 16%nat) (fi_fsids (demo_info m)).
Proof. constructor; [done|constructor]. Qed.

Lemma demo_mirror_zero type num sub size p : map_ok (demo_chunk type num sub size) p -> mirror_ok [(demo_chunk type num sub size, p)] 0.
Proof. intros Hm. apply (mirror_zero (demo_info (demo_chunk type num sub size))). by apply one_chunk_ok. Qed.

Lemma demo_raid6_len : dev_len demo_raid6 Raid6 <= 0x1000000.
Proof. apply (bool_decide_unpack _). vm_compute. exact I. Qed.
Lemma demo_raid1_len : dev_len demo_raid1 Raid1 <= 0x1000000.
Proof. apply (bool_decide_unpack _). vm_compute. exact I. Qed.

Lemma write_data_correct_witness :
  exists st', write_data_to_disk (Z.to_nat 0x20000) (demo_info demo_raid6) demo_bytes 0x50F000 0x2000 0 zero_disks = Some (0, st') /\
    volume_ok st' [(demo_raid6, Raid6)] (overlay (fun _ => 0) 0x50F000 0x2000 demo_bytes).
Proof.
  apply (write_data_correct (demo_info demo_raid6) [(demo_raid6, Raid6)] zero_disks (fun _ => 0) (Z.to_nat 0x20000) demo_bytes 0x50F000 0x2000 0 0x10000).
  - exact (one_chunk_ok _ _ demo_raid6_ok).
  - exact (demo_disjoint 0x101 4 1 0x60000 Raid6 ltac:(lia)).
  - exact eq_refl.
  - exact (demo_volume 0x101 4 1 0x60000 Raid6 ltac:(lia) demo_raid6_len).
  - exact demo_bytes_ok.
  - exact (demo_aligned 0x101 4 1 0x60000 Raid6).
  - exact (demo_mapped 0x101 4 1 0x60000 Raid6 0x50F000 (0x50F000 + 0x2000) ltac:(lia) ltac:(lia)).
  - unfold MAX_RW_COUNT. lia.
  - exists 0x50F. vm_compute. reflexivity.
  - exact (demo_below 0x101 4 1 0x60000 Raid6).
  - lia.
  - rewrite Z2Nat.id by lia. lia.
Defined.

Lemma read_data_correct_witness :
  exists b', read_data_from_disk (Z.to_nat 0x2000) (demo_info demo_raid6) zero_disks demo_bytes 0x50F000 0x2000 0 = Some (0, b') /\
    forall x, b' x = if decide (0 <= x < 0x2000) then 0 else demo_bytes x.
Proof.
  apply (read_data_correct (demo_info demo_raid6) [(demo_raid6, Raid6)] zero_disks (fun _ => 0) (Z.to_nat 0x2000) demo_bytes 0x50F000 0x2000 0).
  - exact (one_chunk_ok _ _ demo_raid6_ok).
  - exact (demo_volume 0x101 4 1 0x60000 Raid6 ltac:(lia) demo_raid6_len).
  - exact (demo_mapped 0x101 4 1 0x60000 Raid6 0x50F000 (0x50F000 + 0x2000) ltac:(lia) ltac:(lia)).
  - unfold MAX_RW_COUNT. lia.
  - rewrite Z2Nat.id by lia. lia.
  - exact (demo_mirror_zero 0x101 4 1 0x60000 Raid6 demo_raid6_ok).
Defined.

(** 4 KiB at 2 KiB before the end of a full stripe. *)
Lemma write_past_stripe_lost_witness :
  exists st', write_data_to_disk (S (Z.to_nat 0x10000)) (demo_info demo_raid6) demo_bytes (0x500000 + 0x1F800) 0x1000 0 zero_disks = Some (0, st') /\
    volume_ok st' [(demo_raid6, Raid6)] (overlay (fun _ => 0) (0x500000 + 0x1F800) 0x800 demo_bytes).
Proof.
  apply (write_past_stripe_lost (demo_info demo_raid6) [(demo_raid6, Raid6)] zero_disks (fun _ => 0) (Z.to_nat 0x10000) demo_bytes demo_raid6 Raid6 0x1F800 0x1000 0).
  - exact (one_chunk_ok _ _ demo_raid6_ok).
  - exact (demo_disjoint 0x101 4 1 0x60000 Raid6 ltac:(lia)).
  - exact eq_refl.
  - exact (demo_volume 0x101 4 1 0x60000 Raid6 ltac:(lia) demo_raid6_len).
  - exact demo_bytes_ok.
  - exact (list_elem_of_here _ _).
  - right. exact eq_refl.
  - cbn. lia.
  - cbn. lia.
  - cbn. lia.
  - rewrite Z2Nat.id by lia. cbn. lia.
  - vm_compute. reflexivity.
Defined.

Definition demo_buffer : io_buffer := IoBuffer 0x500000 128 0 0 0 (fun _ => 0).

Lemma read_tree_block_checked_witness :
  exists r, read_tree_block 4 128 (demo_info demo_raid1) damaged_disks (Some demo_buffer) 7 = Some r /\ forall eb', r = Some eb' ->
    extent_buffer_uptodate eb' = true /\ block_valid (demo_info demo_raid1) 0x500000 128 (io_data eb') = true.
Proof.
  destruct (read_tree_block_checked (demo_info demo_raid1) [(demo_raid1, Raid1)] demo_raid1 Raid1 0 128 (one_chunk_ok _ _ demo_raid1_ok) eq_refl eq_refl
    (demo_fsids demo_raid1) (list_elem_of_here _ _) ltac:(lia) ltac:(lia) ltac:(cbn; lia) damaged_disks 4 128 demo_buffer 7 eq_refl eq_refl eq_refl
    ltac:(lia) ltac:(vm_compute; intros [=])) as (r & Hr & Hall).
  exists r. split; [exact Hr|]. intros eb' Heq. destruct (Hall eb' Heq) as (H1 & _ & _ & H4 & _). split; [exact H1|exact H4].
Defined.

Lemma read_tree_block_recovers_witness :
  mirror_good (demo_info demo_raid1) damaged_disks 128 0x500000 128 7 1 = false /\
  exists eb', read_tree_block 4 128 (demo_info demo_raid1) damaged_disks (Some demo_buffer) 7 = Some (Some eb') /\
    right_transid 7 (io_data eb') = true.
Proof.
  split; [vm_compute; reflexivity|].
  destruct (read_tree_block_recovers (demo_info demo_raid1) [(demo_raid1, Raid1)] demo_raid1 Raid1 0 128 (one_chunk_ok _ _ demo_raid1_ok) eq_refl eq_refl
    (demo_fsids demo_raid1) (list_elem_of_here _ _) ltac:(lia) ltac:(lia) ltac:(cbn; lia) damaged_disks 4 128 demo_buffer 7 2 eq_refl eq_refl eq_refl
    ltac:(lia) ltac:(vm_compute; intros [=]) ltac:(vm_compute; split; intros [=]) ltac:(left; vm_compute; intros [=]) ltac:(vm_compute; reflexivity))
    as (eb' & H1 & _ & _ & _ & _ & H6).
  exists eb'. split; [exact H1|exact H6].
Defined.

Lemma demo_block_ok : bytes_ok demo_block.
Proof. apply put_le_ok, put_le_ok. intros x. unfold in_byte. lia. Qed.

Lemma tree_block_roundtrip_witness :
  exists st', write_tree_block (Z.to_nat 0x10000) (demo_info demo_raid1) 7 (IoBuffer 0x500000 128 0 0 EXTENT_UPTODATE demo_block) zero_disks = Some (0, st') /\
    exists eb', read_tree_block 1 128 (demo_info demo_raid1) st' (Some demo_buffer) 7 = Some (Some eb') /\
      agree (stored_block 128 demo_block) (io_data eb') 0 128.
Proof.
  destruct (tree_block_roundtrip (demo_info demo_raid1) [(demo_raid1, Raid1)] demo_raid1 Raid1 0 128 (one_chunk_ok _ _ demo_raid1_ok) eq_refl eq_refl
    (demo_fsids demo_raid1) (list_elem_of_here _ _) ltac:(lia) ltac:(lia) ltac:(cbn; lia) zero_disks (fun _ => 0) (Z.to_nat 0x10000)
    (IoBuffer 0x500000 128 0 0 EXTENT_UPTODATE demo_block) 7 (demo_disjoint 0x14 2 1 0x40000 Raid1 ltac:(lia)) ltac:(vm_compute; intros [=])
    ltac:(unfold MAX_RW_COUNT; lia) eq_refl eq_refl demo_block_ok (demo_volume 0x14 2 1 0x40000 Raid1 ltac:(lia) demo_raid1_len)
    ltac:(vm_compute; reflexivity) eq_refl ltac:(vm_compute; reflexivity) ltac:(rewrite Z2Nat.id by lia; cbn; lia)) as (st' & H1 & _ & _ & H4).
  exists st'. split; [exact H1|]. exact (H4 1%nat 128%nat demo_buffer eq_refl eq_refl eq_refl ltac:(lia) ltac:(lia)).
Defined.
