(* ===== verification/CheckRec.v ===== *)
(** The extent records of [src/cmds-check.c]: what the checker has read about an
    extent, in the extent tree and in the trees that use it, and the verdict.
    The repair of a damaged file system is not modelled. *)

From S2P Require Import Prelude RbSpec ExtentCache Buf CtreeFmt ItemFmt LeafOps NodeOps TreeWorld InodeItem ExtentAlloc ExtentItem.

(** ** References

    [struct extent_backref], and what follows it in [struct tree_backref] or
    [struct data_backref].  [parent] and [root] are a union.  The flag [broken]
    is for the repair only. *)
Record backref_node := BackrefNode {
  bn_found_extent_tree : bool;
  bn_full_backref : bool;
  bn_found_ref : bool;
}.

Record data_backref := DataPart {
  db_owner : Z; db_offset : Z; db_disk_bytenr : Z; db_bytes : Z;
  db_num_refs : Z; db_found_ref : Z;
}.

Inductive extent_backref :=
| TreeBackref (node : backref_node) (root : Z)
| DataBackref (node : backref_node) (root : Z) (d : data_backref).

Definition back_node (b : extent_backref) : backref_node :=
  match b with TreeBackref node _ | DataBackref node _ _ => node end.

(** [find_tree_backref], [find_data_backref]: the index of the reference. *)
Definition tree_backref_matches (parent root : Z) (b : extent_backref) : bool :=
  match b with
  | TreeBackref node r =>
      if 0 <? parent then bn_full_backref node && (parent =? r) else negb (bn_full_backref node) && (r =? root)
  | DataBackref _ _ _ => false
  end.

Definition data_backref_matches (parent root owner offset : Z) (found_ref : bool) (disk_bytenr bytes : Z) (b : extent_backref) : bool :=
  match b with
  | TreeBackref _ _ => false
  | DataBackref node r d =>
      if 0 <? parent then bn_full_backref node && (parent =? r)
      else if bn_full_backref node then false
      else
        (r =? root) && (db_owner d =? owner) && (db_offset d =? offset) &&
        negb (found_ref && bn_found_ref node && (negb (db_bytes d =? bytes) || negb (db_disk_bytenr d =? disk_bytenr)))
  end.

Fixpoint find_backref (matches : extent_backref -> bool) (l : list extent_backref) : option nat :=
  match l with
  | [] => None
  | b :: l => if matches b then Some O else S <$> find_backref matches l
  end.

Definition find_tree_backref (l : list extent_backref) (parent root : Z) : option nat :=
  find_backref (tree_backref_matches parent root) l.
Definition find_data_backref (l : list extent_backref) (parent root owner offset : Z) (found_ref : bool) (disk_bytenr bytes : Z)
    : option nat :=
  find_backref (data_backref_matches parent root owner offset found_ref disk_bytenr bytes) l.

(** ** Records *)

(** Another item for the same bytes: the fields of [struct extent_record] that
    are set for it. *)
Record dup_record := DupRecord {
  du_start : Z; du_max_size : Z; du_nr : Z; du_metadata : bool; du_extent_item_refs : Z;
}.

(** [struct extent_record].  [er_listed]: it is on the list of duplicates.  The
    generation, [info_objectid] and [info_level] are for the repair only. *)
Record extent_record := ExtentRecord {
  er_cache : cache_extent;
  er_backrefs : list extent_backref;
  er_dups : list dup_record;
  er_listed : bool;
  er_parent_key : btrfs_key;
  er_found_rec : bool;
  er_start : Z; er_max_size : Z; er_nr : Z;
  er_refs : Z; er_extent_item_refs : Z; er_num_duplicates : Z;
  er_content_checked : bool; er_owner_ref_checked : bool;
  er_is_root : bool; er_metadata : bool;
}.

Definition er_with_backrefs (r : extent_record) l : extent_record :=
  ExtentRecord (er_cache r) l (er_dups r) (er_listed r) (er_parent_key r) (er_found_rec r) (er_start r) (er_max_size r) (er_nr r)
    (er_refs r) (er_extent_item_refs r) (er_num_duplicates r) (er_content_checked r) (er_owner_ref_checked r) (er_is_root r) (er_metadata r).
Definition er_with_dups (r : extent_record) l n : extent_record :=
  ExtentRecord (er_cache r) (er_backrefs r) l (er_listed r) (er_parent_key r) (er_found_rec r) (er_start r) (er_max_size r) (er_nr r)
    (er_refs r) (er_extent_item_refs r) n (er_content_checked r) (er_owner_ref_checked r) (er_is_root r) (er_metadata r).
Definition er_with_listed (r : extent_record) b : extent_record :=
  ExtentRecord (er_cache r) (er_backrefs r) (er_dups r) b (er_parent_key r) (er_found_rec r) (er_start r) (er_max_size r) (er_nr r)
    (er_refs r) (er_extent_item_refs r) (er_num_duplicates r) (er_content_checked r) (er_owner_ref_checked r) (er_is_root r) (er_metadata r).
Definition er_with_parent_key (r : extent_record) k : extent_record :=
  ExtentRecord (er_cache r) (er_backrefs r) (er_dups r) (er_listed r) k (er_found_rec r) (er_start r) (er_max_size r) (er_nr r)
    (er_refs r) (er_extent_item_refs r) (er_num_duplicates r) (er_content_checked r) (er_owner_ref_checked r) (er_is_root r) (er_metadata r).
Definition er_with_found_rec (r : extent_record) nr : extent_record :=
  ExtentRecord (er_cache r) (er_backrefs r) (er_dups r) (er_listed r) (er_parent_key r) true (er_start r) (er_max_size r) nr
    (er_refs r) (er_extent_item_refs r) (er_num_duplicates r) (er_content_checked r) (er_owner_ref_checked r) (er_is_root r) (er_metadata r).
Definition er_with_sizes (r : extent_record) max_size nr : extent_record :=
  ExtentRecord (er_cache r) (er_backrefs r) (er_dups r) (er_listed r) (er_parent_key r) (er_found_rec r) (er_start r) max_size nr
    (er_refs r) (er_extent_item_refs r) (er_num_duplicates r) (er_content_checked r) (er_owner_ref_checked r) (er_is_root r) (er_metadata r).
Definition er_with_refs (r : extent_record) refs item_refs : extent_record :=
  ExtentRecord (er_cache r) (er_backrefs r) (er_dups r) (er_listed r) (er_parent_key r) (er_found_rec r) (er_start r) (er_max_size r) (er_nr r)
    refs item_refs (er_num_duplicates r) (er_content_checked r) (er_owner_ref_checked r) (er_is_root r) (er_metadata r).
Definition er_with_checked (r : extent_record) content owner : extent_record :=
  ExtentRecord (er_cache r) (er_backrefs r) (er_dups r) (er_listed r) (er_parent_key r) (er_found_rec r) (er_start r) (er_max_size r) (er_nr r)
    (er_refs r) (er_extent_item_refs r) (er_num_duplicates r) content owner (er_is_root r) (er_metadata r).
Definition er_with_is_root (r : extent_record) b : extent_record :=
  ExtentRecord (er_cache r) (er_backrefs r) (er_dups r) (er_listed r) (er_parent_key r) (er_found_rec r) (er_start r) (er_max_size r) (er_nr r)
    (er_refs r) (er_extent_item_refs r) (er_num_duplicates r) (er_content_checked r) (er_owner_ref_checked r) b (er_metadata r).

(** ** The verdict on one record *)

Definition backref_wrong (start nr : Z) (b : extent_backref) : bool :=
  negb (bn_found_extent_tree (back_node b)) ||
  match b with
  | TreeBackref node _ => negb (bn_found_ref node)
  | DataBackref _ _ d =>
      negb (db_found_ref d =? db_num_refs d) || negb (db_disk_bytenr d =? start) || negb (db_bytes d =? nr)
  end.

(** The references found, and whether one is wrong: without [print_errs] the
    first one ends the loop. *)
Fixpoint backpointers_loop (print_errs : bool) (start nr : Z) (l : list extent_backref) (found : Z) (err : bool) : Z * bool :=
  match l with
  | [] => (found, err)
  | b :: l =>
      let e := backref_wrong start nr b in
      if e && negb print_errs then (found, true)
      else
        backpointers_loop print_errs start nr l
          (u64 (found + match b with TreeBackref _ _ => 1 | DataBackref _ _ d => db_found_ref d end)) (err || e)
  end.

(** Whether there is an error. *)
Definition all_backpointers_checked (rec : extent_record) (print_errs : bool) : bool :=
  let '(found, err) := backpointers_loop print_errs (er_start rec) (er_nr rec) (er_backrefs rec) 0 false in
  if err && negb print_errs then true else err || negb (found =? er_refs rec).

Definition is_extent_tree_record (rec : extent_record) : bool :=
  forallb (fun b => match b with TreeBackref node _ => negb (bn_full_backref node) | DataBackref _ _ _ => false end) (er_backrefs rec) &&
  existsb (fun b => match b with TreeBackref _ root => root =? BTRFS_EXTENT_TREE_OBJECTID | DataBackref _ _ _ => false end) (er_backrefs rec).

Section Check.
Context {T : Type} `{RbTree T}.

(** The cache of records, the records by address, and the list of the records
    with duplicates.  [ck_mallocs] is how many more calls of [malloc] succeed. *)
Record check_world := CheckWorld {
  ck_tree : T;
  ck_recs : gmap ptr extent_record;
  ck_next : ptr;
  ck_mallocs : nat;
  ck_duplicates : list ptr;
  ck_bytes_used : Z;
  ck_data_allocated : Z;
}.
Open Scope act_scope.

(** What [malloc] leaves in the field [disk_bytenr]. *)
Context (junk : Z).

Definition ck_with_tree t : act check_world unit := modify (fun w =>
  CheckWorld t (ck_recs w) (ck_next w) (ck_mallocs w) (ck_duplicates w) (ck_bytes_used w) (ck_data_allocated w)).
Definition ck_with_recs m : act check_world unit := modify (fun w =>
  CheckWorld (ck_tree w) m (ck_next w) (ck_mallocs w) (ck_duplicates w) (ck_bytes_used w) (ck_data_allocated w)).
Definition ck_with_duplicates l : act check_world unit := modify (fun w =>
  CheckWorld (ck_tree w) (ck_recs w) (ck_next w) (ck_mallocs w) l (ck_bytes_used w) (ck_data_allocated w)).

Definition ck_entries (w : check_world) : entries := fun p => er_cache <$> ck_recs w !! p.
Definition rec_get (p : ptr) : act check_world extent_record := deref (fun w => ck_recs w !! p).
Definition rec_put (p : ptr) (r : extent_record) : act check_world unit :=
  m <- gets ck_recs ;; ck_with_recs (<[p := r]> m).
Definition rec_update (p : ptr) (f : extent_record -> extent_record) : act check_world unit :=
  r <- rec_get p ;; rec_put p (f r).

Definition malloc : act check_world bool := fun w =>
  match ck_mallocs w with
  | O => Some (false, w)
  | S n => Some (true, CheckWorld (ck_tree w) (ck_recs w) (ck_next w) n (ck_duplicates w) (ck_bytes_used w) (ck_data_allocated w))
  end.

Definition rec_lookup (start nr : Z) : act check_world (option ptr) :=
  deref (fun w => lookup_cache_extent (ck_tree w) (ck_entries w) start nr).

Definition rec_remove (p : ptr) : act check_world unit :=
  t <- deref (fun w => remove_cache_extent (ck_tree w) p) ;; ck_with_tree t.

(** The record is freed with its references. *)
Definition rec_free (p : ptr) : act check_world unit :=
  m <- gets ck_recs ;; ck_with_recs (delete p m).

(** [list_del_init] *)
Definition rec_unlist (p : ptr) : act check_world unit :=
  l <- gets ck_duplicates ;; ck_with_duplicates (filter (fun q => q <> p) l).

Definition maybe_free_extent_rec (p : ptr) : act check_world unit :=
  rec <- rec_get p ;;
  if er_content_checked rec && er_owner_ref_checked rec && (er_extent_item_refs rec =? er_refs rec) && (0 <? er_refs rec) &&
     (er_num_duplicates rec =? 0) && negb (all_backpointers_checked rec false)
  then
    rec_remove p ;;;
    rec_unlist p ;;;
    rec_free p
  else ret tt.

(** ** Records of extents *)

(** Another item, noted with the record [p]. *)
Definition add_dup (p : ptr) (d : dup_record) : act check_world Z :=
  rec <- rec_get p ;;
  (if er_listed rec then ret tt else l <- gets ck_duplicates ;; ck_with_duplicates (l ++ [p])) ;;;
  rec_put p (er_with_listed rec true) ;;;
  m <- malloc ;;
  if negb m then ret (- ENOMEM)
  else
    rec_update p (fun rec => er_with_dups rec (er_dups rec ++ [d]) (u64 (er_num_duplicates rec + 1))) ;;;
    ret 0.

Definition new_extent_rec (parent_key : option btrfs_key) (start nr extent_item_refs : Z)
    (is_root inc_ref set_checked metadata extent_rec : bool) (max_size : Z) : extent_record :=
  ExtentRecord (CacheExtent 0 start nr) [] [] false (default (BtrfsKey 0 0 0) parent_key) extent_rec start max_size (Z.max nr max_size)
    (if inc_ref then 1 else 0) extent_item_refs 0 set_checked set_checked is_root metadata.

Definition insert_extent_rec (rec : extent_record) : act check_world unit :=
  m <- malloc ;;
  bug_on (negb m) ;;;
  p <- gets ck_next ;;
  modify (fun w => CheckWorld (ck_tree w) (<[p := rec]> (ck_recs w)) (Pos.succ p) (ck_mallocs w) (ck_duplicates w)
                     (ck_bytes_used w) (ck_data_allocated w)) ;;;
  i <- deref (fun w => insert_cache_extent (ck_tree w) (ck_entries w) p) ;;
  ck_with_tree i.1 ;;;
  bug_on (negb (i.2 =? 0)).

Definition add_extent_rec (parent_key : option btrfs_key) (start nr extent_item_refs : Z)
    (is_root inc_ref set_checked metadata extent_rec : bool) (max_size : Z) : act check_world Z :=
  cache <- rec_lookup start nr ;;
  match cache with
  | Some p =>
      rec_update p (fun rec =>
        let rec := if inc_ref then er_with_refs rec (u64 (er_refs rec + 1)) (er_extent_item_refs rec) else rec in
        if er_nr rec =? 1 then er_with_sizes rec (er_max_size rec) (Z.max nr max_size) else rec) ;;;
      rec <- rec_get p ;;
      let dup := extent_rec && (negb (start =? er_start rec) || er_found_rec rec) in
      r <- (if dup then add_dup p (DupRecord start max_size nr metadata extent_item_refs)
            else (if extent_rec then rec_update p (fun rec => er_with_found_rec rec nr) else ret tt) ;;; ret 0) ;;
      if negb (r =? 0) then ret r
      else
        rec_update p (fun rec =>
          let rec := if negb (extent_item_refs =? 0) && negb dup then er_with_refs rec (er_refs rec) extent_item_refs else rec in
          let rec := if is_root then er_with_is_root rec true else rec in
          let rec := if set_checked then er_with_checked rec true true else rec in
          let rec := match parent_key with Some k => er_with_parent_key rec k | None => rec end in
          if er_max_size rec <? max_size then er_with_sizes rec max_size (er_nr rec) else rec) ;;;
        maybe_free_extent_rec p ;;;
        ret 0
  | None =>
      insert_extent_rec (new_extent_rec parent_key start nr extent_item_refs is_root inc_ref set_checked metadata extent_rec max_size) ;;;
      modify (fun w => CheckWorld (ck_tree w) (ck_recs w) (ck_next w) (ck_mallocs w) (ck_duplicates w)
                         (u64 (ck_bytes_used w + nr)) (ck_data_allocated w)) ;;;
      ret 0
  end.

(** The record for a reference to [bytenr]: a new one has one byte and no item. *)
Definition rec_for_ref (bytenr : Z) (metadata : bool) (max_size : Z) : act check_world ptr :=
  cache <- rec_lookup bytenr 1 ;;
  match cache with
  | Some p => ret p
  | None =>
      add_extent_rec None bytenr 1 0 false false false metadata false max_size ;;;
      cache <- rec_lookup bytenr 1 ;;
      assume_some cache
  end.

(** ** References to extents *)

Definition alloc_tree_backref (parent root : Z) : extent_backref :=
  TreeBackref (BackrefNode false (0 <? parent) false) (if 0 <? parent then parent else root).

Definition alloc_data_backref (parent root owner offset max_size : Z) : extent_backref :=
  DataBackref (BackrefNode false (0 <? parent) false) (if 0 <? parent then parent else root)
    (DataPart (if 0 <? parent then 0 else owner) (if 0 <? parent then 0 else offset) junk max_size 0 0).

Definition set_tree_found (found_ref : bool) (b : extent_backref) : extent_backref :=
  match b with
  | TreeBackref node root =>
      TreeBackref (if found_ref then BackrefNode (bn_found_extent_tree node) (bn_full_backref node) true
                   else BackrefNode true (bn_full_backref node) (bn_found_ref node)) root
  | DataBackref _ _ _ => b
  end.

Definition add_tree_backref (bytenr parent root : Z) (found_ref : bool) : act check_world Z :=
  p <- rec_for_ref bytenr true 0 ;;
  rec <- rec_get p ;;
  bug_on (negb (er_start rec =? bytenr)) ;;;
  i <- match find_tree_backref (er_backrefs rec) parent root with
       | Some i => ret i
       | None =>
           m <- malloc ;;
           bug_on (negb m) ;;;
           rec_put p (er_with_backrefs rec (er_backrefs rec ++ [alloc_tree_backref parent root])) ;;;
           ret (length (er_backrefs rec))
       end ;;
  rec_update p (fun rec => er_with_backrefs rec (alter (set_tree_found found_ref) i (er_backrefs rec))) ;;;
  ret 0.

(** A reference from a file, or the count the extent tree has for it. *)
Definition data_found (bytenr max_size : Z) (b : extent_backref) : extent_backref :=
  match b with
  | TreeBackref _ _ => b
  | DataBackref node root d =>
      DataBackref (BackrefNode (bn_found_extent_tree node) (bn_full_backref node) true) root
        (DataPart (db_owner d) (db_offset d) bytenr max_size (db_num_refs d) (u32 (db_found_ref d + 1)))
  end.

Definition data_declared (num_refs : Z) (b : extent_backref) : extent_backref :=
  match b with
  | TreeBackref _ _ => b
  | DataBackref node root d =>
      DataBackref (BackrefNode true (bn_full_backref node) (bn_found_ref node)) root
        (DataPart (db_owner d) (db_offset d) (db_disk_bytenr d) (db_bytes d) num_refs (db_found_ref d))
  end.

(** [BUG_ON(back->bytes != max_size)] *)
Definition other_bytes (max_size : Z) (b : extent_backref) : bool :=
  match b with
  | TreeBackref _ _ => false
  | DataBackref node _ d => bn_found_ref node && negb (db_bytes d =? max_size)
  end.

Definition add_data_backref (bytenr parent root owner offset num_refs : Z) (found_ref : bool) (max_size : Z) : act check_world Z :=
  p <- rec_for_ref bytenr false max_size ;;
  rec_update p (fun rec => if er_max_size rec <? max_size then er_with_sizes rec max_size (er_nr rec) else rec) ;;;
  rec <- rec_get p ;;
  i <- match find_data_backref (er_backrefs rec) parent root owner offset found_ref bytenr max_size with
       | Some i => ret i
       | None =>
           m <- malloc ;;
           bug_on (negb m) ;;;
           let rec' := er_with_backrefs rec (er_backrefs rec ++ [alloc_data_backref parent root owner offset max_size]) in
           rec_put p (if er_max_size rec' <? max_size then er_with_sizes rec' max_size (er_nr rec') else rec') ;;;
           ret (length (er_backrefs rec))
       end ;;
  (if found_ref then
     bug_on (negb (num_refs =? 1)) ;;;
     rec <- rec_get p ;;
     b <- assume_some (er_backrefs rec !! i) ;;
     bug_on (other_bytes max_size b) ;;;
     rec_put p (er_with_checked (er_with_refs (er_with_backrefs rec (alter (data_found bytenr max_size) i (er_backrefs rec)))
       (u64 (er_refs rec + 1)) (er_extent_item_refs rec)) true true)
   else
     rec_update p (fun rec => er_with_backrefs rec (alter (data_declared num_refs) i (er_backrefs rec)))) ;;;
  ret 0.

(** ** Items and pointers *)

(** The loop of [process_extent_item] over the inline references.  An unknown
    type ends it. *)
Fixpoint inline_refs_loop (fuel : nat) (eb : buf) (bytenr num_bytes ptr last : Z) : act check_world Z :=
  if last <=? ptr then bug_on (last <? ptr) ;;; ret 0
  else
    match fuel with
    | O => bug
    | S fuel =>
        let type := btrfs_extent_inline_ref_type eb ptr in
        let offset := btrfs_extent_inline_ref_offset eb ptr in
        let next :=
          size <- assume_some (btrfs_extent_inline_ref_size type) ;;
          inline_refs_loop fuel eb bytenr num_bytes (ptr + size) last in
        if type =? BTRFS_TREE_BLOCK_REF_KEY then add_tree_backref bytenr 0 offset false ;;; next
        else if type =? BTRFS_SHARED_BLOCK_REF_KEY then add_tree_backref bytenr offset 0 false ;;; next
        else if type =? BTRFS_EXTENT_DATA_REF_KEY then
          let dref := ptr + offsetof_inline_offset in
          add_data_backref bytenr 0 (btrfs_extent_data_ref_root eb dref) (btrfs_extent_data_ref_objectid eb dref)
            (btrfs_extent_data_ref_offset eb dref) (btrfs_extent_data_ref_count eb dref) false num_bytes ;;; next
        else if type =? BTRFS_SHARED_DATA_REF_KEY then
          let sref := ptr + sizeof_extent_inline_ref in
          add_data_backref bytenr offset 0 0 0 (btrfs_shared_data_ref_count eb sref) false num_bytes ;;; next
        else ret 0
    end.

Definition process_extent_item (leafsize : Z) (eb : buf) (slot : Z) : act check_world Z :=
  let item_size := btrfs_item_size_nr eb slot in
  let key := btrfs_item_key eb slot in
  let metadata := type key =? BTRFS_METADATA_ITEM_KEY in
  let num_bytes := if metadata then leafsize else offset key in
  let ei := btrfs_item_ptr_offset eb slot in
  if item_size <? sizeof_extent_item then
    bug_on (negb (item_size =? sizeof_extent_item_v0)) ;;;
    add_extent_rec None (objectid key) num_bytes (btrfs_extent_refs_v0 eb ei) false false false metadata true num_bytes
  else
    add_extent_rec None (objectid key) num_bytes (btrfs_extent_refs eb ei) false false false metadata true num_bytes ;;;
    let ptr := ei + sizeof_extent_item +
      (if has_flag (btrfs_extent_flags eb ei) BTRFS_EXTENT_FLAG_TREE_BLOCK && (type key =? BTRFS_EXTENT_ITEM_KEY)
       then sizeof_tree_block_info else 0) in
    inline_refs_loop (Z.to_nat item_size) eb (objectid key) num_bytes ptr (ei + item_size).

Definition process_extent_ref_v0 (leaf : buf) (slot : Z) : act check_world Z :=
  let key := btrfs_item_key leaf slot in
  let ref0 := btrfs_item_ptr_offset leaf slot in
  (if btrfs_ref_objectid_v0 leaf ref0 <? BTRFS_FIRST_FREE_OBJECTID then add_tree_backref (objectid key) (offset key) 0 false
   else add_data_backref (objectid key) (offset key) 0 0 0 (btrfs_ref_count_v0 leaf ref0) false 0) ;;;
  ret 0.

(** What [run_next_block] does with item [i] of a leaf; the items of chunks,
    devices and block groups go to other records.  The references of a leaf are
    counted for [parent] or [owner]. *)
Definition check_leaf_item (leafsize sectorsize : Z) (b : buf) (parent owner i : Z) : act check_world unit :=
  let key := btrfs_item_key b i in
  let p := btrfs_item_ptr_offset b i in
  if (type key =? BTRFS_EXTENT_ITEM_KEY) || (type key =? BTRFS_METADATA_ITEM_KEY) then process_extent_item leafsize b i ;;; ret tt
  else if type key =? BTRFS_EXTENT_REF_V0_KEY then process_extent_ref_v0 b i ;;; ret tt
  else if type key =? BTRFS_TREE_BLOCK_REF_KEY then add_tree_backref (objectid key) 0 (offset key) false ;;; ret tt
  else if type key =? BTRFS_SHARED_BLOCK_REF_KEY then add_tree_backref (objectid key) (offset key) 0 false ;;; ret tt
  else if type key =? BTRFS_EXTENT_DATA_REF_KEY then
    add_data_backref (objectid key) 0 (btrfs_extent_data_ref_root b p) (btrfs_extent_data_ref_objectid b p)
      (btrfs_extent_data_ref_offset b p) (btrfs_extent_data_ref_count b p) false sectorsize ;;; ret tt
  else if type key =? BTRFS_SHARED_DATA_REF_KEY then
    add_data_backref (objectid key) (offset key) 0 0 0 (btrfs_shared_data_ref_count b p) false sectorsize ;;; ret tt
  else if negb (type key =? BTRFS_EXTENT_DATA_KEY) then ret tt
  else if btrfs_file_extent_type b p =? BTRFS_FILE_EXTENT_INLINE then ret tt
  else if btrfs_file_extent_disk_bytenr b p =? 0 then ret tt
  else
    a <- gets ck_data_allocated ;;
    let a := u64 (a + btrfs_file_extent_disk_num_bytes b p) in
    modify (fun w => CheckWorld (ck_tree w) (ck_recs w) (ck_next w) (ck_mallocs w) (ck_duplicates w) (ck_bytes_used w) a) ;;;
    bug_on (a <? sectorsize) ;;;
    add_data_backref (btrfs_file_extent_disk_bytenr b p) parent owner (objectid key)
      (u64 (offset key - btrfs_file_extent_offset b p)) 1 true (btrfs_file_extent_disk_num_bytes b p) ;;;
    ret tt.

(** The pointer [i] of a node, to a block of [size] bytes. *)
Definition check_node_ptr (size : Z) (b : buf) (parent owner i : Z) : act check_world unit :=
  let ptr := btrfs_node_blockptr b i in
  r <- add_extent_rec (Some (btrfs_node_key b i)) ptr size 0 false true false true false size ;;
  bug_on (negb (r =? 0)) ;;;
  add_tree_backref ptr parent owner true ;;;
  ret tt.

(** The root of a tree, from [add_root_to_pending]. *)
Definition check_root_block (start len : Z) (b : buf) (root_objectid : Z) : act check_world unit :=
  add_extent_rec None start len 0 true true false true false len ;;;
  (if (root_objectid =? BTRFS_TREE_RELOC_OBJECTID) || (btrfs_header_backref_rev b <? BTRFS_MIXED_BACKREF_REV)
   then add_tree_backref start start 0 true else add_tree_backref start 0 root_objectid true) ;;;
  ret tt.

(** ** Blocks that were read *)

(** [check_owner_ref]; [search] is the search for the parent of the block in the
    tree that owns it. *)
Definition check_owner_ref (search : buf -> Z) (rec : extent_record) (b : buf) : option Z :=
  if existsb (fun r => match r with
                       | TreeBackref node root => bn_found_ref node && negb (bn_full_backref node) && (btrfs_header_owner b =? root)
                       | DataBackref _ _ _ => false
                       end) (er_backrefs rec)
  then Some 0
  else if er_is_root rec then None
  else Some (search b).

(** What [check_block] notes of a block that passed, [o] being the result for
    its owner. *)
Definition block_checked (p : ptr) (o : Z) : act check_world unit :=
  rec_update p (fun rec => er_with_checked rec true (er_owner_ref_checked rec || (o =? 0))) ;;;
  if o =? 0 then maybe_free_extent_rec p else ret tt.

Definition check_block (root : btrfs_root) (search : buf -> Z) (start len : Z) (b : buf) (flags : Z) : act check_world Z :=
  cache <- rec_lookup start len ;;
  match cache with
  | None => ret 1
  | Some p =>
      rec <- rec_get p ;;
      r <- (if btrfs_header_level b =? 0 then
              c <- assume_some (btrfs_check_leaf root (Some (er_parent_key rec)) b len) ;; ret c.1
            else ret (btrfs_check_node root (Some (er_parent_key rec)) b).1) ;;
      if negb (r =? 0) then ret r
      else
        o <- (if has_flag flags BTRFS_BLOCK_FLAG_FULL_BACKREF then ret 0 else assume_some (check_owner_ref search rec b)) ;;
        block_checked p o ;;;
        ret o
  end.

(** ** The verdict *)

(** Whether a record that is left is an error; not [repair]. *)
Definition record_wrong (rec : extent_record) : bool :=
  negb (er_num_duplicates rec =? 0) || negb (er_refs rec =? er_extent_item_refs rec) ||
  all_backpointers_checked rec true || negb (er_owner_ref_checked rec).

Fixpoint extent_refs_loop (fuel : nat) (err : bool) : act check_world Z :=
  match fuel with
  | O => bug
  | S fuel =>
      cache <- deref (fun w => search_cache_extent (ck_tree w) (ck_entries w) 0) ;;
      match cache with
      | None => ret (if err then 1 else 0)
      | Some p =>
          rec <- rec_get p ;;
          rec_remove p ;;;
          rec_free p ;;;
          extent_refs_loop fuel (err || record_wrong rec)
      end
  end.

Definition check_extent_refs (fuel : nat) : act check_world Z := extent_refs_loop fuel false.

(** ** Extents that are freed during a repair *)

Definition tree_freed (b : extent_backref) : extent_backref :=
  match b with
  | TreeBackref node root => TreeBackref (BackrefNode false (bn_full_backref node) false) root
  | DataBackref _ _ _ => b
  end.

Definition data_freed (refs_to_drop : Z) (b : extent_backref) : extent_backref :=
  match b with
  | TreeBackref _ _ => b
  | DataBackref node root d =>
      let found := if bn_found_ref node then u32 (db_found_ref d - refs_to_drop) else db_found_ref d in
      let num := if bn_found_extent_tree node then u32 (db_num_refs d - refs_to_drop) else db_num_refs d in
      DataBackref (BackrefNode (bn_found_extent_tree node && negb (num =? 0)) (bn_full_backref node)
                     (bn_found_ref node && negb (found =? 0))) root
        (DataPart (db_owner d) (db_offset d) (db_disk_bytenr d) (db_bytes d) num found)
  end.

(** The reference is forgotten when it is found and not declared. *)
Definition free_extent_hook (bytenr num_bytes parent root_objectid owner offset refs_to_drop : Z) : act check_world Z :=
  let is_data := BTRFS_FIRST_FREE_OBJECTID <=? owner in
  cache <- rec_lookup bytenr num_bytes ;;
  match cache with
  | None => ret 0
  | Some p =>
      rec <- rec_get p ;;
      let l := er_backrefs rec in
      match (if is_data then find_data_backref l parent root_objectid owner offset true bytenr num_bytes
             else find_tree_backref l parent root_objectid) with
      | None => ret 0
      | Some i =>
          b <- assume_some (l !! i) ;;
          let drop := if is_data then refs_to_drop else 1 in
          let refs := if bn_found_ref (back_node b) && negb (er_refs rec =? 0) then u64 (er_refs rec - drop) else er_refs rec in
          let item_refs := if bn_found_extent_tree (back_node b) && negb (er_extent_item_refs rec =? 0)
                           then u64 (er_extent_item_refs rec - drop) else er_extent_item_refs rec in
          let b := if is_data then data_freed refs_to_drop b else tree_freed b in
          let forgotten := negb (bn_found_extent_tree (back_node b)) && bn_found_ref (back_node b) in
          rec_put p (er_with_refs (er_with_backrefs rec (if forgotten then delete i l else <[i := b]> l)) refs item_refs) ;;;
          maybe_free_extent_rec p ;;;
          ret 0
      end
  end.
End Check.
Arguments check_world : clear implicits.
