(* ===== verification/CheckRun.v ===== *)
(** What the operations on the records of the checker do to the records, when
    the extents they are called for lie apart: each is a function on the record
    of its extent. *)

From S2P Require Import Prelude RbSpec ExtentCache Buf CtreeFmt ItemFmt LeafOps NodeOps TreeWorld InodeItem.
From S2P Require Import ExtentAlloc ExtentItem ExtentItemSpec CheckRec.

Section Spec.
Context {T : Type} `{RbTreeLaws T}.
Implicit Types (w : check_world T) (L : list (ptr * extent_record)) (r : extent_record).

(** ** The records of the cache *)

Record recs_ok w L : Prop := {
  ro_seq : rb_seq (ck_tree w) L.*1;
  ro_heap : ck_recs w = list_to_map L;
  ro_ranges : ranges_ok 0 (er_cache <$> L.*2);
  ro_next : forall p, p ∈ L.*1 -> (p < ck_next w)%positive;
}.

Lemma ro_get w L p r : recs_ok w L -> (p, r) ∈ L -> ck_recs w !! p = Some r.
Proof.
  intros [Hs -> _ _] Hin. apply elem_of_list_to_map; [|done]. apply (rb_seq_nodup _ _ Hs).
Qed.

Lemma recs_views (m : gmap ptr extent_record) L :
  (forall p r, (p, r) ∈ L -> m !! p = Some r) -> views (fun p => er_cache <$> m !! p) L.*1 (er_cache <$> L.*2).
Proof.
  intros Hm. induction L as [|[p r] L IH]; [constructor|]. rewrite !fmap_cons. constructor.
  - simpl. by rewrite (Hm p r (list_elem_of_here _ _)).
  - apply IH. intros q s Hq. apply Hm. by right.
Qed.

Lemma recs_seq w L : recs_ok w L -> cache_seq (ck_tree w) (ck_entries w) L.*1 (er_cache <$> L.*2).
Proof. intros Hok. split; [apply Hok| |apply Hok]. apply recs_views. intros p r. by apply ro_get. Qed.

(** ** Extents apart

    [E]: the extents by their first byte, with their sizes. *)
Context (E : gmap Z Z).
Hypothesis Hsizes : forall s n, E !! s = Some n -> 0 <= s /\ 0 < n /\ s + n < 2 ^ 64.
Hypothesis Happart : forall s n s' n', E !! s = Some n -> E !! s' = Some n' -> s <> s' -> s + n <= s' \/ s' + n' <= s.

Record placed r : Prop := {
  pl_start : ce_start (er_cache r) = er_start r;
  pl_size : exists n, E !! er_start r = Some n /\ 0 < ce_size (er_cache r) <= n;
}.

(** The records by the extent they are for. *)
Definition holds_recs w (M : gmap Z (ptr * extent_record)) : Prop :=
  exists L, recs_ok w L /\ (forall p r, (p, r) ∈ L -> placed r) /\
    forall s p r, M !! s = Some (p, r) <-> (p, r) ∈ L /\ er_start r = s.

Lemma rec_held w M s p r : holds_recs w M -> M !! s = Some (p, r) -> ck_recs w !! p = Some r /\ er_start r = s /\ placed r.
Proof. intros (L & Hok & Hpl & HM) [Hin Hs]%HM. split; [by apply (ro_get w L)|]. split; [done|by eapply Hpl]. Qed.

Lemma rec_get_run w M s p r : holds_recs w M -> M !! s = Some (p, r) -> rec_get p w = Some (r, w).
Proof. intros Hh Hs. destruct (rec_held _ _ _ _ _ Hh Hs) as [Hg _]. unfold rec_get, deref. by rewrite Hg. Qed.

Lemma rec_lookup_run w M s n : holds_recs w M -> (exists m, E !! s = Some m /\ 0 < n <= m) ->
  rec_lookup s n w = Some (fst <$> M !! s, w).
Proof using Hsizes Happart.
  intros (L & Hok & Hpl & HM) (m & Hm & Hn). destruct (Hsizes _ _ Hm) as (H1 & H2 & H3).
  destruct (lookup_cache_extent_spec _ _ _ _ s n (recs_seq w L Hok)) as (res & Hrun & Hres); [lia..|].
  unfold rec_lookup, deref. rewrite Hrun. simpl. do 2 f_equal. destruct res as [p|].
  - destruct Hres as (e & Hp & He & Ho1 & Ho2). apply list_elem_of_fmap in Hp as ([p' r] & -> & Hin). simpl in *.
    assert (Hg := ro_get w L p' r Hok Hin). unfold ck_entries in He. rewrite Hg in He. simpl in He. injection He as <-.
    destruct (Hpl _ _ Hin) as [Hst (k & Hk & Hsz)]. unfold ce_end in Ho1. rewrite Hst in Ho1, Ho2.
    assert (Hs : er_start r = s).
    { destruct (decide (er_start r = s)) as [|Hne]; [done|]. destruct (Happart _ _ _ _ Hk Hm Hne); lia. }
    by rewrite (proj2 (HM s p' r) (conj Hin Hs)).
  - destruct (M !! s) as [[p r]|] eqn:Hs; [|done]. exfalso. apply HM in Hs as [Hin Hst].
    destruct (Hpl _ _ Hin) as [Hc (k & Hk & Hsz)].
    assert (Hin2 : er_cache r ∈ er_cache <$> L.*2) by (apply list_elem_of_fmap_2; by apply (list_elem_of_fmap_2 snd) in Hin).
    destruct (Hres _ Hin2); unfold ce_end in *; lia.
Qed.

(** Changing a record in its place. *)
Lemma rec_put_run w M s p r r' : holds_recs w M -> M !! s = Some (p, r) -> er_cache r' = er_cache r -> er_start r' = er_start r ->
  exists w', rec_put p r' w = Some (tt, w') /\ holds_recs w' (<[s := (p, r')]> M) /\ ck_mallocs w' = ck_mallocs w.
Proof using Type.
  intros (L & Hok & Hpl & HM) Hs Hc Hst. eexists. split; [done|]. split; [|done].
  apply HM in Hs as [Hin Hs]. pose proof (rb_seq_nodup _ _ (ro_seq _ _ Hok)) as Hnd.
  apply list_elem_of_split in Hin as (A & B & ->). exists (A ++ (p, r') :: B).
  assert (Hin' : forall q t, (q, t) ∈ A ++ (p, r') :: B <-> (q = p /\ t = r') \/ (q <> p /\ (q, t) ∈ A ++ (p, r) :: B)).
  { intros q t. rewrite fmap_app, fmap_cons in Hnd. apply NoDup_app in Hnd as (_ & HA & [HB _]%NoDup_cons). simpl in *.
    rewrite !elem_of_app, !elem_of_cons. split.
    - intros [Ha|[[= -> ->]|Hb]]; [|by left|].
      + right. split; [|by left]. intros ->. apply (HA p); [by apply (list_elem_of_fmap_2 fst) in Ha|left].
      + right. split; [|by right; right]. intros ->. apply HB. by apply (list_elem_of_fmap_2 fst) in Hb.
    - intros [[-> ->]|[Hne [Ha|[[= -> ->]|Hb]]]]; auto. done. }
  split; [|split].
  - destruct Hok as [H1 H2 H3 H4]. split; cbn [ck_tree ck_recs ck_next].
    + by rewrite fmap_app, fmap_cons in *.
    + rewrite H2. apply (proj2 (heap_is_update_at _ A B p r r' (conj Hnd eq_refl))).
    + rewrite !fmap_app, !fmap_cons in *. simpl in *. by rewrite Hc.
    + intros q Hq. apply H4. by rewrite fmap_app, fmap_cons in *.
  - intros q t [[-> ->]|[_ Hq]]%Hin'; [|by eapply Hpl]. destruct (Hpl p r) as [Ha Hb].
    { apply elem_of_app. right. left. }
    split; [by rewrite Hc, Hst|]. by rewrite Hc, Hst.
  - intros s' q t. rewrite Hin'. destruct (decide (s' = s)) as [->|Hne].
    + rewrite lookup_insert_eq. split.
      * intros [= <- <-]. split; [by left|]. by rewrite Hst.
      * intros [[[-> ->]|[Hq Hin]] Ht]; [done|]. exfalso. assert (Hs2 : M !! s = Some (q, t)) by by apply HM.
        assert (Hs3 : M !! s = Some (p, r)) by (apply HM; split; [apply elem_of_app; right; left|done]). congruence.
    + rewrite lookup_insert_ne by done. rewrite HM. split.
      * intros [Hin Ht]. split; [|done]. right. split; [|done]. intros ->.
        assert (t = r) as ->; [|congruence].
        assert (Hg := ro_get w _ p t Hok Hin). rewrite (ro_get w _ p r Hok) in Hg by (apply elem_of_app; right; left). congruence.
      * intros [[[-> ->]|[_ Hin]] Ht]; [|done]. congruence.
Qed.

Lemma rec_update_run w M s p r f : holds_recs w M -> M !! s = Some (p, r) -> er_cache (f r) = er_cache r -> er_start (f r) = er_start r ->
  exists w', rec_update p f w = Some (tt, w') /\ holds_recs w' (<[s := (p, f r)]> M) /\ ck_mallocs w' = ck_mallocs w.
Proof using Type.
  intros Hh Hs Hc Hst. unfold rec_update. rewrite (bind_some _ _ _ _ _ (rec_get_run _ _ _ _ _ Hh Hs)). by apply (rec_put_run w M s p r).
Qed.

Lemma malloc_run w M : holds_recs w M -> ck_mallocs w <> O ->
  exists w', malloc w = Some (true, w') /\ holds_recs w' M /\ S (ck_mallocs w') = ck_mallocs w.
Proof using Type.
  intros (L & [H1 H2 H3 H4] & Hpl & HM) Hm. unfold malloc. destruct (ck_mallocs w) as [|n]; [done|].
  eexists. split; [done|]. split; [|done]. by exists L.
Qed.

(** A new record. *)
Lemma insert_rec_run w M r : holds_recs w M -> ck_mallocs w <> O -> M !! er_start r = None -> placed r ->
  exists w' p, insert_extent_rec r w = Some (tt, w') /\ holds_recs w' (<[er_start r := (p, r)]> M) /\ S (ck_mallocs w') = ck_mallocs w.
Proof using Hsizes Happart.
  intros Hh Hm Hno Hp. unfold insert_extent_rec. destruct (malloc_run w M Hh Hm) as (w1 & Hrun & (L & Hok & Hpl & HM) & Hm1).
  rewrite (bind_some _ _ _ _ _ Hrun). cbn [negb]. rewrite (bind_some _ _ w1 tt w1) by done. set (p := ck_next w1).
  rewrite (bind_some _ _ w1 p w1) by done.
  pose proof Hp as [Hst (n & Hn & Hsz)]. destruct (Hsizes _ _ Hn) as (S1 & S2 & S3).
  destruct (ranges_split 0 (er_cache <$> L.*2) (er_start r) (ce_size (er_cache r)) (ro_ranges _ _ Hok) ltac:(lia))
    as (A & X & C & Heq & HAe & HA & HX & HC).
  assert (Hmid : X = []).
  { destruct X as [|x X]; [done|]. exfalso. destruct (HX x (list_elem_of_here _ _)) as [X1 X2].
    assert (Hx : x ∈ er_cache <$> L.*2) by (rewrite Heq; apply elem_of_app; right; left).
    apply list_elem_of_fmap in Hx as (r2 & -> & Hr2). apply list_elem_of_fmap in Hr2 as ([q r3] & Hr3 & Hin). simpl in Hr3. subst r3.
    destruct (Hpl _ _ Hin) as [Hst2 (n2 & Hn2 & Hsz2)]. unfold ce_end in X1. rewrite Hst2 in X1, X2.
    destruct (decide (er_start r2 = er_start r)) as [Hs|Hs].
    - assert (Hsome : M !! er_start r = Some (q, r2)) by by apply HM. congruence.
    - destruct (Happart _ _ _ _ Hn2 Hn Hs); lia. }
  subst X. simpl in Heq. apply fmap_app_inv in Heq as (R1 & R2 & HA1 & HC1 & HL). apply fmap_app_inv in HL as (L1 & L2 & HL1 & HL2 & HL).
  subst L A C R1 R2.
  assert (Hfresh : p ∉ (L1 ++ L2).*1) by (intros Hin; pose proof (ro_next _ _ Hok _ Hin); unfold p in *; lia).
  pose proof (rb_seq_nodup _ _ (ro_seq _ _ Hok)) as Hnd.
  set (m := <[p := r]> (ck_recs w1)).
  assert (Hlook : forall q t, (q, t) ∈ L1 ++ L2 -> m !! q = Some t).
  { intros q t Hq. unfold m. rewrite lookup_insert_ne; [by apply (ro_get w1 _ q t Hok)|]. intros <-. apply Hfresh. by apply (list_elem_of_fmap_2 fst) in Hq. }
  pose proof (ro_ranges _ _ Hok) as Hr. rewrite !fmap_app in Hr. apply ranges_ok_app in Hr as [HrA HrC].
  assert (Hrange : ranges_ok 0 ((er_cache <$> L1.*2) ++ er_cache r :: (er_cache <$> L2.*2))).
  { apply ranges_ok_app. split; [done|]. simpl. unfold ce_end. rewrite Hst. split_and!; [lia..|].
    destruct (er_cache <$> L2.*2) as [|c C]; [done|]. specialize (HC c (list_elem_of_here _ _)). simpl in *. intuition lia. }
  destruct (insert_cache_extent_split (ck_tree w1) (fun q => er_cache <$> m !! q) L1.*1 L2.*1 (er_cache <$> L1.*2) (er_cache <$> L2.*2) p (er_cache r))
    as (t' & Hins & Hseq').
  - rewrite <- fmap_app. apply Hok.
  - apply recs_views. intros q t Hq. apply Hlook, elem_of_app. by left.
  - apply recs_views. intros q t Hq. apply Hlook, elem_of_app. by right.
  - by rewrite <- fmap_app.
  - unfold m. by rewrite lookup_insert_eq.
  - done.
  - set (w2 := CheckWorld (ck_tree w1) m (Pos.succ p) (ck_mallocs w1) (ck_duplicates w1) (ck_bytes_used w1) (ck_data_allocated w1)).
    rewrite (bind_some _ _ w1 tt w2) by done. 
    assert (Hi : deref (fun w => insert_cache_extent (ck_tree w) (ck_entries w) p) w2 = Some (t', 0, w2)).
    { unfold deref, ck_entries. cbn [ck_tree ck_recs w2]. by rewrite Hins. }
    rewrite (bind_some _ _ _ _ _ Hi).
    cbn [fst snd]. set (w3 := CheckWorld t' m (Pos.succ p) (ck_mallocs w1) (ck_duplicates w1) (ck_bytes_used w1) (ck_data_allocated w1)).
    rewrite (bind_some _ _ w2 tt w3) by done. exists w3, p. split; [done|]. split; [|done].
    assert (Hin' : forall q t, (q, t) ∈ L1 ++ (p, r) :: L2 <-> (q = p /\ t = r) \/ (q, t) ∈ L1 ++ L2).
    { intros q t. rewrite !elem_of_app, elem_of_cons. split; [intros [?|[[= -> ->]|?]]; auto|intros [[-> ->]|[?|?]]; auto]. }
    exists (L1 ++ (p, r) :: L2). split; [|split].
    + split; cbn [ck_tree ck_recs ck_next w3].
      * by rewrite fmap_app, fmap_cons.
      * unfold m. rewrite (ro_heap _ _ Hok), !list_to_map_app. simpl. rewrite insert_union_r; [done|].
        apply not_elem_of_list_to_map_1. intros Hin. apply Hfresh. rewrite fmap_app. apply elem_of_app. by left.
      * by rewrite !fmap_app, !fmap_cons.
      * intros q Hq. rewrite fmap_app, fmap_cons, elem_of_app, elem_of_cons in Hq.
        assert (q = p \/ q ∈ (L1 ++ L2).*1) as [->|Hq'] by (rewrite fmap_app, elem_of_app; tauto); [lia|].
        pose proof (ro_next _ _ Hok _ Hq'). unfold p. lia.
    + intros q t [[-> ->]|Hq]%Hin'; [done|by eapply Hpl].
    + intros s q t. rewrite Hin'. destruct (decide (s = er_start r)) as [->|Hne].
      * rewrite lookup_insert_eq. split; [intros [= <- <-]; auto|]. intros [[[-> ->]|Hin] Ht]; [done|].
        assert (Hsome : M !! er_start r = Some (q, t)) by by apply HM. congruence.
      * rewrite lookup_insert_ne by done. rewrite HM. split; [intros [? ?]; auto|]. intros [[[-> ->]|Hin] Ht]; [congruence|done].
Qed.

(** A record leaves the cache and is freed; [D] is what becomes of the list of
    duplicates. *)
Lemma rec_delete_run w M s p r (k : act (check_world T) unit) (D : list ptr) : holds_recs w M -> M !! s = Some (p, r) ->
  (forall w, exists l, k w = Some (tt, CheckWorld (ck_tree w) (ck_recs w) (ck_next w) (ck_mallocs w) l (ck_bytes_used w) (ck_data_allocated w))) ->
  exists w', (rec_remove p ;;; k ;;; rec_free p)%act w = Some (tt, w') /\ holds_recs w' (delete s M) /\ ck_mallocs w' = ck_mallocs w.
Proof using Type.
  intros (L & Hok & Hpl & HM) Hs Hk. apply HM in Hs as [Hin Hs]. pose proof (rb_seq_nodup _ _ (ro_seq _ _ Hok)) as Hnd.
  apply list_elem_of_split in Hin as (A & B & ->). pose proof (ro_seq _ _ Hok) as Hseq. rewrite fmap_app, fmap_cons in Hseq.
  destruct (rb_erase_spec _ _ _ _ Hseq) as (t' & Her & Hseq'). simpl in Her.
  unfold rec_remove, remove_cache_extent. rewrite bind_assoc. unfold deref at 1. rewrite (bind_some _ _ w t' w) by (by rewrite Her).
  set (w1 := CheckWorld t' (ck_recs w) (ck_next w) (ck_mallocs w) (ck_duplicates w) (ck_bytes_used w) (ck_data_allocated w)).
  rewrite (bind_some _ _ w tt w1) by done. destruct (Hk w1) as (l & Hl). rewrite (bind_some _ _ _ _ _ Hl).
  eexists. split; [done|]. split; [|done].
  assert (Hin' : forall q t, (q, t) ∈ A ++ B <-> q <> p /\ (q, t) ∈ A ++ (p, r) :: B).
  { intros q t. rewrite fmap_app, fmap_cons in Hnd. apply NoDup_app in Hnd as (_ & HA & [HB _]%NoDup_cons). simpl in *.
    rewrite !elem_of_app, !elem_of_cons. split.
    - intros [Ha|Hb].
      + split; [|by left]. intros ->. apply (HA p); [by apply (list_elem_of_fmap_2 fst) in Ha|left].
      + split; [|by right; right]. intros ->. apply HB. by apply (list_elem_of_fmap_2 fst) in Hb.
    - intros [Hne [Ha|[[= -> ->]|Hb]]]; auto. done. }
  exists (A ++ B). split; [|split].
  - destruct Hok as [H1 H2 H3 H4]. split; cbn [ck_tree ck_recs ck_next w1].
    + by rewrite fmap_app.
    + rewrite H2. apply (proj2 (heap_is_delete_at _ A B p r (conj Hnd eq_refl))).
    + rewrite !fmap_app, !fmap_cons in *. apply ranges_ok_app in H3 as [R1 (R2 & R3 & R4 & R5)]. apply ranges_ok_app. split; [done|].
      eapply ranges_ok_weaken, R5. unfold ce_end. lia.
    + intros q Hq. apply H4. rewrite fmap_app, fmap_cons in *. apply elem_of_app in Hq as [?|?]; apply elem_of_app; [by left|by right; right].
  - intros q t [_ Hq]%Hin'. by eapply Hpl.
  - intros s' q t. rewrite Hin'. destruct (decide (s' = s)) as [->|Hne].
    + rewrite lookup_delete_eq. split; [done|]. intros [[Hq Hin] Ht]. exfalso.
      assert (Hs2 : M !! s = Some (q, t)) by by apply HM.
      assert (Hs3 : M !! s = Some (p, r)) by (apply HM; split; [apply elem_of_app; right; left|done]). congruence.
    + rewrite lookup_delete_ne by done. rewrite HM. split; [|by intros [[_ ?] ?]].
      intros [Hin Ht]. split; [|done]. split; [|done]. intros ->.
      assert (Hg := ro_get w _ p t Hok Hin). rewrite (ro_get w _ p r Hok) in Hg by (apply elem_of_app; right; left). congruence.
Qed.
End Spec.

(** ** The calls the checker makes for one extent, as functions on its record. *)

Implicit Types (o : option extent_record) (l : list extent_backref).

(** ** The record after a call *)

Definition after_free r : option extent_record :=
  if er_content_checked r && er_owner_ref_checked r && (er_extent_item_refs r =? er_refs r) && (0 <? er_refs r) &&
     (er_num_duplicates r =? 0) && negb (all_backpointers_checked r false) then None else Some r.

Definition rec_again (parent_key : option btrfs_key) (start nr extent_item_refs : Z) (is_root inc_ref set_checked metadata extent_rec : bool)
    (max_size : Z) r : extent_record :=
  let r := if inc_ref then er_with_refs r (u64 (er_refs r + 1)) (er_extent_item_refs r) else r in
  let r := if er_nr r =? 1 then er_with_sizes r (er_max_size r) (Z.max nr max_size) else r in
  let dup := extent_rec && (negb (start =? er_start r) || er_found_rec r) in
  let r := if dup then er_with_dups (er_with_listed r true) (er_dups r ++ [DupRecord start max_size nr metadata extent_item_refs])
                         (u64 (er_num_duplicates r + 1))
           else if extent_rec then er_with_found_rec r nr else r in
  let r := if negb (extent_item_refs =? 0) && negb dup then er_with_refs r (er_refs r) extent_item_refs else r in
  let r := if is_root then er_with_is_root r true else r in
  let r := if set_checked then er_with_checked r true true else r in
  let r := match parent_key with Some k => er_with_parent_key r k | None => r end in
  if er_max_size r <? max_size then er_with_sizes r max_size (er_nr r) else r.

Definition extent_step parent_key start nr extent_item_refs is_root inc_ref set_checked metadata extent_rec max_size o :
    option extent_record :=
  match o with
  | Some r => after_free (rec_again parent_key start nr extent_item_refs is_root inc_ref set_checked metadata extent_rec max_size r)
  | None => Some (new_extent_rec parent_key start nr extent_item_refs is_root inc_ref set_checked metadata extent_rec max_size)
  end.

(** The record that a reference is noted in. *)
Definition ref_rec (s : Z) (metadata : bool) (max_size : Z) o : extent_record :=
  match o with Some r => r | None => new_extent_rec None s 1 0 false false false metadata false max_size end.

Definition note_backref (found : option nat) (new : extent_backref) (f : extent_backref -> extent_backref) l : list extent_backref :=
  match found with
  | Some i => alter f i l
  | None => alter f (length l) (l ++ [new])
  end.

Definition tree_step (s parent root : Z) (found_ref : bool) o : extent_record :=
  let r := ref_rec s true 0 o in
  er_with_backrefs r (note_backref (find_tree_backref (er_backrefs r) parent root) (alloc_tree_backref parent root)
                        (set_tree_found found_ref) (er_backrefs r)).

Definition grown (max_size : Z) r : extent_record := if er_max_size r <? max_size then er_with_sizes r max_size (er_nr r) else r.

Definition data_step (junk s parent root owner offset num_refs : Z) (found_ref : bool) (max_size : Z) o : extent_record :=
  let r := grown max_size (ref_rec s false max_size o) in
  let i := find_data_backref (er_backrefs r) parent root owner offset found_ref s max_size in
  let new := alloc_data_backref junk parent root owner offset max_size in
  if found_ref then
    er_with_checked (er_with_refs (er_with_backrefs r (note_backref i new (data_found s max_size) (er_backrefs r)))
      (u64 (er_refs r + 1)) (er_extent_item_refs r)) true true
  else er_with_backrefs r (note_backref i new (data_declared num_refs) (er_backrefs r)).

Lemma find_backref_some (P : extent_backref -> bool) l i : find_backref P l = Some i -> exists b, l !! i = Some b /\ P b = true.
Proof.
  revert i. induction l as [|b l IH]; intros i; [done|]. cbn [find_backref]. destruct (P b) eqn:Hb.
  - intros [= <-]. by exists b.
  - destruct (find_backref P l) as [k|]; [|done]. intros [= <-]. by apply IH.
Qed.

(** ** The calls *)

Section Run.
Context {T : Type} `{RbTreeLaws T} (E : gmap Z Z).
Hypothesis Hsizes : forall s n, E !! s = Some n -> 0 <= s /\ 0 < n /\ s + n < 2 ^ 64.
Hypothesis Happart : forall s n s' n', E !! s = Some n -> E !! s' = Some n' -> s <> s' -> s + n <= s' \/ s' + n' <= s.
Implicit Types (M : gmap Z (ptr * extent_record)) (R : gmap Z extent_record).

(** The records by the extents they are for. *)
Definition checks w R : Prop := exists M, holds_recs E w M /\ R = snd <$> M.

Definition rec_set (s : Z) (p : ptr) o M : gmap Z (ptr * extent_record) :=
  match o with Some r => <[s := (p, r)]> M | None => delete s M end.

Lemma checks_set w M s p o : holds_recs E w (rec_set s p o M) -> checks w (partial_alter (fun _ => o) s (snd <$> M)).
Proof using Type.
  intros Hh. exists (rec_set s p o M). split; [done|]. destruct o as [r|]; simpl.
  - by rewrite fmap_insert.
  - by rewrite fmap_delete.
Qed.

Lemma maybe_free_run w M s p r : holds_recs E w M -> M !! s = Some (p, r) ->
  exists w', maybe_free_extent_rec p w = Some (tt, w') /\ holds_recs E w' (rec_set s p (after_free r) M) /\ ck_mallocs w' = ck_mallocs w.
Proof using Type.
  intros Hh Hs. unfold maybe_free_extent_rec, after_free. rewrite (bind_some _ _ _ _ _ (rec_get_run E _ _ _ _ _ Hh Hs)).
  destruct (_ && negb _) eqn:Hc; cbn [rec_set].
  - apply (rec_delete_run E w M s p r (rec_unlist p) [] Hh Hs). intros v. by eexists.
  - exists w. split; [done|]. split; [|done]. by rewrite insert_id.
Qed.

Lemma add_dup_run w M s p r d : holds_recs E w M -> M !! s = Some (p, r) -> ck_mallocs w <> O ->
  exists w', add_dup p d w = Some (0, w') /\
    holds_recs E w' (<[s := (p, er_with_dups (er_with_listed r true) (er_dups r ++ [d]) (u64 (er_num_duplicates r + 1)))]> M) /\
    S (ck_mallocs w') = ck_mallocs w.
Proof using Type.
  intros Hh Hs Hm. unfold add_dup. rewrite (bind_some _ _ _ _ _ (rec_get_run E _ _ _ _ _ Hh Hs)).
  match goal with |- context [bind ?c _ w] => assert (Hd : exists v, c w = Some (tt, v) /\ holds_recs E v M /\ ck_mallocs v = ck_mallocs w) end.
  { destruct (er_listed r); [by exists w|]. eexists. split; [done|]. split; [|done]. destruct Hh as (L & [H1 H2 H3 H4] & Hpl & HM). by exists L. }
  destruct Hd as (w1 & Hrun & Hh1 & Hm1). rewrite (bind_some _ _ _ _ _ Hrun). clear Hrun.
  destruct (rec_put_run E w1 M s p r (er_with_listed r true) Hh1 Hs eq_refl eq_refl) as (w2 & Hrun & Hh2 & Hm2).
  rewrite (bind_some _ _ _ _ _ Hrun). clear Hrun.
  destruct (malloc_run E w2 _ Hh2 ltac:(congruence)) as (w3 & Hrun & Hh3 & Hm3). rewrite (bind_some _ _ _ _ _ Hrun). cbn [negb]. clear Hrun.
  destruct (rec_update_run E w3 _ s p (er_with_listed r true)
    (fun rec => er_with_dups rec (er_dups rec ++ [d]) (u64 (er_num_duplicates rec + 1))) Hh3 (lookup_insert_eq _ _ _) eq_refl eq_refl)
    as (w4 & Hrun & Hh4 & Hm4). rewrite (bind_some _ _ _ _ _ Hrun), insert_insert_eq in *.
  exists w4. split; [done|]. split; [exact Hh4|congruence].
Qed.

Lemma add_extent_rec_run w R s n parent_key nr item_refs is_root inc_ref set_checked metadata extent_rec max_size :
  checks w R -> E !! s = Some n -> 0 < nr <= n -> ck_mallocs w <> O ->
  exists w', add_extent_rec parent_key s nr item_refs is_root inc_ref set_checked metadata extent_rec max_size w = Some (0, w') /\
    checks w' (partial_alter (extent_step parent_key s nr item_refs is_root inc_ref set_checked metadata extent_rec max_size) s R) /\
    (ck_mallocs w <= S (ck_mallocs w'))%nat.
Proof using Hsizes Happart.
  intros (M & Hh & ->) Hn Hnr Hm. unfold add_extent_rec.
  rewrite (bind_some _ _ _ _ _ (rec_lookup_run E Hsizes Happart w M s nr Hh (ex_intro _ n (conj Hn Hnr)))).
  set (step := extent_step _ _ _ _ _ _ _ _ _ _).
  rewrite (partial_alter_ext step (fun _ => step (snd <$> M !! s)) (snd <$> M) s) by (intros o <-; by rewrite lookup_fmap).
  destruct (M !! s) as [[p r]|] eqn:Hs; cbn [fst fmap option_fmap option_map snd].
  - match goal with |- context [rec_update p ?f] =>
      destruct (rec_update_run E w M s p r f Hh Hs) as (w1 & Hrun & Hh1 & Hm1); [destruct inc_ref; by case_match..|] end.
    rewrite (bind_some _ _ _ _ _ Hrun). clear Hrun. revert Hh1. set (r1 := if er_nr _ =? 1 then _ else _). intros Hh1.
    rewrite (bind_some _ _ _ _ _ (rec_get_run E _ _ _ _ _ Hh1 (lookup_insert_eq _ _ _))). cbv zeta.
    set (dup := extent_rec && _).
    set (r2 := if dup then er_with_dups (er_with_listed r1 true) (er_dups r1 ++ [DupRecord s max_size nr metadata item_refs])
                         (u64 (er_num_duplicates r1 + 1))
               else if extent_rec then er_with_found_rec r1 nr else r1).
    match goal with |- context [bind ?c _ w1] =>
      assert (Hd : exists v, c w1 = Some (0, v) /\ holds_recs E v (<[s := (p, r2)]> M) /\ (ck_mallocs w <= S (ck_mallocs v))%nat) end.
    { unfold r2. destruct dup.
      - destruct (add_dup_run w1 _ s p r1 (DupRecord s max_size nr metadata item_refs) Hh1 (lookup_insert_eq _ _ _) ltac:(congruence))
          as (v & Hrun & Hv & Hmv). rewrite insert_insert_eq in Hv. exists v. split; [done|]. split; [done|lia].
      - destruct extent_rec.
        + destruct (rec_update_run E w1 _ s p r1 (fun rec => er_with_found_rec rec nr) Hh1 (lookup_insert_eq _ _ _) eq_refl eq_refl)
            as (v & Hrun & Hv & Hmv). rewrite insert_insert_eq in Hv. exists v. rewrite (bind_some _ _ _ _ _ Hrun). split; [done|]. split; [done|lia].
        + exists w1. split; [done|]. split; [done|lia]. }
    destruct Hd as (w2 & Hrun & Hh2 & Hm2). rewrite (bind_some _ _ _ _ _ Hrun). change (negb (0 =? 0)) with false. cbv iota. clear Hrun.
    assert (Hstart : er_cache r2 = er_cache r /\ er_start r2 = er_start r).
    { unfold r2, r1. destruct dup, extent_rec, inc_ref; case_match; done. }
    match goal with |- context [rec_update p ?f] =>
      destruct (rec_update_run E w2 _ s p r2 f Hh2 (lookup_insert_eq _ _ _)) as (w3 & Hrun & Hh3 & Hm3);
      [repeat case_match; done..|] end.
    rewrite (bind_some _ _ _ _ _ Hrun). clear Hrun. rewrite insert_insert_eq in Hh3.
    destruct (maybe_free_run w3 _ s p _ Hh3 (lookup_insert_eq _ _ _)) as (w4 & Hrun & Hh4 & Hm4). rewrite (bind_some _ _ _ _ _ Hrun).
    exists w4. split; [done|]. split; [|lia]. apply (checks_set _ _ _ p). revert Hh4. subst step. unfold extent_step, rec_again. cbv zeta.
    fold r1. fold dup. fold r2. match goal with |- context [after_free ?x] => destruct (after_free x) as [r4|] end; cbn [rec_set].
    + by rewrite insert_insert_eq.
    + by rewrite delete_insert_eq.
  - destruct (insert_rec_run E Hsizes Happart w M
      (new_extent_rec parent_key s nr item_refs is_root inc_ref set_checked metadata extent_rec max_size) Hh Hm Hs) as (w1 & p & Hrun & Hh1 & Hm1).
    { split; [done|]. by exists n. }
    rewrite (bind_some _ _ _ _ _ Hrun). eexists. split; [done|]. split; [|cbn [ck_mallocs]; lia].
    apply (checks_set _ _ _ p). cbn [rec_set step extent_step]. destruct Hh1 as (L & [H1 H2 H3 H4] & Hpl & HM). by exists L.
Qed.

Lemma rec_for_ref_run w M s n metadata max_size : holds_recs E w M -> E !! s = Some n -> ck_mallocs w <> O ->
  exists w' p M', rec_for_ref s metadata max_size w = Some (p, w') /\ holds_recs E w' M' /\
    snd <$> M' = <[s := ref_rec s metadata max_size (snd <$> M !! s)]> (snd <$> M) /\
    M' !! s = Some (p, ref_rec s metadata max_size (snd <$> M !! s)) /\ (ck_mallocs w <= S (ck_mallocs w'))%nat.
Proof using Hsizes Happart.
  intros Hh Hn Hm. destruct (Hsizes _ _ Hn) as (H1 & H2 & H3). unfold rec_for_ref.
  assert (Hone : exists m, E !! s = Some m /\ 0 < 1 <= m) by (exists n; split; [done|lia]).
  rewrite (bind_some _ _ _ _ _ (rec_lookup_run E Hsizes Happart w M s 1 Hh Hone)).
  destruct (M !! s) as [[p r]|] eqn:Hs; cbn [fst fmap option_fmap option_map snd ref_rec].
  - exists w, p, M. split; [done|]. split; [done|]. split; [|split; [done|lia]].
    rewrite insert_id; [done|]. by rewrite lookup_fmap, Hs.
  - destruct (add_extent_rec_run w (snd <$> M) s n None 1 0 false false false metadata false max_size)
      as (w1 & Hrun & (M' & Hh' & HM') & Hm1); [by exists M|done|lia|done|].
    rewrite (bind_some _ _ _ _ _ Hrun), (bind_some _ _ _ _ _ (rec_lookup_run E Hsizes Happart w1 M' s 1 Hh' Hone)).
    assert (Hs' : snd <$> M' !! s = Some (new_extent_rec None s 1 0 false false false metadata false max_size)).
    { by rewrite <- lookup_fmap, <- HM', lookup_partial_alter_eq, lookup_fmap, Hs. }
    destruct (M' !! s) as [[p r]|] eqn:Hs2; [|done]. cbn in Hs'. injection Hs' as ->.
    exists w1, p, M'. split; [done|]. split; [done|]. split; [|done]. rewrite <- HM'.
    apply map_eq. intros i. destruct (decide (i = s)) as [->|Hi].
    + by rewrite lookup_partial_alter_eq, lookup_insert_eq, lookup_fmap, Hs.
    + by rewrite lookup_partial_alter_ne, lookup_insert_ne.
Qed.

(** The reference that is found, or a new one at the end. *)
Lemma noted found new f l :
  (forall i, found = Some i -> (i < length l)%nat) -> note_backref found new f l =
  match found with Some i => alter f i l | None => l ++ [f new] end.
Proof using Type.
  intros Hi. destruct found as [i|]; [done|]. unfold note_backref. induction l as [|b l IH]; [done|]. simpl. f_equal. apply IH. done.
Qed.

Lemma add_tree_backref_run w R s n parent root found_ref : checks w R -> E !! s = Some n -> (2 <= ck_mallocs w)%nat ->
  exists w', add_tree_backref s parent root found_ref w = Some (0, w') /\
    checks w' (partial_alter (fun o => Some (tree_step s parent root found_ref o)) s R) /\ (ck_mallocs w <= 2 + ck_mallocs w')%nat.
Proof using Hsizes Happart.
  intros (M & Hh & ->) Hn Hm. unfold add_tree_backref.
  destruct (rec_for_ref_run w M s n true 0 Hh Hn ltac:(lia)) as (w1 & p & M1 & Hrun & Hh1 & HM1 & Hs1 & Hm1).
  rewrite (bind_some _ _ _ _ _ Hrun), (bind_some _ _ _ _ _ (rec_get_run E _ _ _ _ _ Hh1 Hs1)). clear Hrun.
  destruct (rec_held E _ _ _ _ _ Hh1 Hs1) as (_ & Hst & _).
  set (r := ref_rec s true 0 _) in *. rewrite Hst, Z.eqb_refl. cbn [negb]. rewrite (bind_some _ _ w1 tt w1) by done.
  set (found := find_tree_backref (er_backrefs r) parent root).
  set (r2 := match found with Some _ => r | None => er_with_backrefs r (er_backrefs r ++ [alloc_tree_backref parent root]) end).
  match goal with |- context [bind ?c _ w1] =>
    assert (Hi : exists v, c w1 = Some (match found with Some i => i | None => length (er_backrefs r) end, v) /\
      holds_recs E v (<[s := (p, r2)]> M1) /\ (ck_mallocs w <= 2 + ck_mallocs v)%nat) end.
  { unfold r2. destruct found as [i|].
    - exists w1. split; [done|]. split; [|lia]. by rewrite insert_id.
    - destruct (malloc_run E w1 _ Hh1 ltac:(lia)) as (v & Hrun & Hv & Hmv). rewrite (bind_some _ _ _ _ _ Hrun). cbn [negb].
      rewrite (bind_some _ _ v tt v) by done.
      destruct (rec_put_run E v M1 s p r (er_with_backrefs r (er_backrefs r ++ [alloc_tree_backref parent root])) Hv Hs1 eq_refl eq_refl)
        as (v2 & Hrun2 & Hv2 & Hmv2). rewrite (bind_some _ _ _ _ _ Hrun2). exists v2. split; [done|]. split; [done|lia]. }
  destruct Hi as (w2 & Hrun & Hh2 & Hm2). rewrite (bind_some _ _ _ _ _ Hrun). clear Hrun.
  match goal with |- context [rec_update p ?f] =>
    destruct (rec_update_run E w2 _ s p r2 f Hh2 (lookup_insert_eq _ _ _) eq_refl eq_refl) as (w3 & Hrun & Hh3 & Hm3) end.
  rewrite (bind_some _ _ _ _ _ Hrun), insert_insert_eq in *. exists w3. split; [done|]. split; [|lia].
  eexists. split; [exact Hh3|]. rewrite fmap_insert, HM1, insert_insert_eq. cbn [snd].
  apply map_eq. intros i. destruct (decide (i = s)) as [->|Hne].
  - rewrite lookup_partial_alter_eq, lookup_insert_eq, lookup_fmap. f_equal. unfold tree_step. fold r. unfold r2, note_backref. fold found.
    by destruct found.
  - by rewrite lookup_partial_alter_ne, lookup_insert_ne.
Qed.

Lemma add_data_backref_run junk w R s n parent root owner offset num_refs (found_ref : bool) max_size :
  checks w R -> E !! s = Some n -> (2 <= ck_mallocs w)%nat ->
  (found_ref = true -> num_refs = 1) ->
  (found_ref = true -> forall b, b ∈ default [] (er_backrefs <$> R !! s) ->
     data_backref_matches parent root owner offset true s max_size b = true -> other_bytes max_size b = false) ->
  exists w', add_data_backref junk s parent root owner offset num_refs found_ref max_size w = Some (0, w') /\
    checks w' (partial_alter (fun o => Some (data_step junk s parent root owner offset num_refs found_ref max_size o)) s R) /\
    (ck_mallocs w <= 2 + ck_mallocs w')%nat.
Proof using Hsizes Happart.
  intros (M & Hh & ->) Hn Hm Hnum Hbytes. unfold add_data_backref.
  destruct (rec_for_ref_run w M s n false max_size Hh Hn ltac:(lia)) as (w1 & p & M1 & Hrun & Hh1 & HM1 & Hs1 & Hm1).
  rewrite (bind_some _ _ _ _ _ Hrun). clear Hrun.
  set (r0 := ref_rec s false max_size _) in *.
  destruct (rec_update_run E w1 _ s p r0 (fun rec => grown max_size rec) Hh1 Hs1) as (w2 & Hrun & Hh2 & Hm2);
    [unfold grown; by case_match..|].
  rewrite (bind_some _ _ _ _ _ Hrun). clear Hrun. set (r := grown max_size r0) in *.
  rewrite (bind_some _ _ _ _ _ (rec_get_run E _ _ _ _ _ Hh2 (lookup_insert_eq _ _ _))).
  assert (Hl : er_backrefs r = default [] (er_backrefs <$> (snd <$> M) !! s)).
  { unfold r, grown, r0. rewrite lookup_fmap. destruct (M !! s) as [[q t]|]; cbn; by case_match. }
  set (new := alloc_data_backref junk parent root owner offset max_size).
  set (found := find_data_backref (er_backrefs r) parent root owner offset found_ref s max_size).
  set (r2 := match found with Some _ => r | None => er_with_backrefs r (er_backrefs r ++ [new]) end).
  match goal with |- context [bind ?c _ w2] =>
    assert (Hi : exists v, c w2 = Some (match found with Some i => i | None => length (er_backrefs r) end, v) /\
      holds_recs E v (<[s := (p, r2)]> M1) /\ (ck_mallocs w <= 2 + ck_mallocs v)%nat) end.
  { unfold r2. destruct found as [i|].
    - exists w2. split; [done|]. split; [done|lia].
    - destruct (malloc_run E w2 _ Hh2 ltac:(lia)) as (v & Hrun & Hv & Hmv). rewrite (bind_some _ _ _ _ _ Hrun). cbn [negb].
      rewrite (bind_some _ _ v tt v) by done.
      assert (Hgrown : (if er_max_size r <? max_size then
        er_with_sizes (er_with_backrefs r (er_backrefs r ++ [new])) max_size (er_nr r) else er_with_backrefs r (er_backrefs r ++ [new])) =
        er_with_backrefs r (er_backrefs r ++ [new])).
      { rewrite (proj2 (Z.ltb_ge _ _)); [done|]. unfold r, grown. destruct (Z.ltb_spec (er_max_size r0) max_size); simpl; lia. }
      cbv zeta. change (er_max_size (er_with_backrefs r (er_backrefs r ++ [new]))) with (er_max_size r).
      change (er_nr (er_with_backrefs r (er_backrefs r ++ [new]))) with (er_nr r). fold new. rewrite Hgrown.
      destruct (rec_put_run E v _ s p r (er_with_backrefs r (er_backrefs r ++ [new])) Hv (lookup_insert_eq _ _ _) eq_refl eq_refl)
        as (v2 & Hrun2 & Hv2 & Hmv2). rewrite (bind_some _ _ _ _ _ Hrun2), insert_insert_eq in *. exists v2. split; [done|]. split; [done|lia]. }
  destruct Hi as (w3 & Hrun & Hh3 & Hm3). rewrite (bind_some _ _ _ _ _ Hrun). clear Hrun. set (i := match found with Some i => i | None => _ end).
  match goal with |- context [bind ?c _ w3] =>
    assert (Hd : exists v, c w3 = Some (tt, v) /\
      holds_recs E v (<[s := (p, data_step junk s parent root owner offset num_refs found_ref max_size (snd <$> M !! s))]> M1) /\
      (ck_mallocs w <= 2 + ck_mallocs v)%nat) end.
  { assert (Hstep : forall f, alter f i (er_backrefs r2) = note_backref found new f (er_backrefs r))
      by (intros f; unfold r2, i, note_backref; by destruct found).
    unfold data_step. fold r0 r new found. destruct found_ref.
    - rewrite Hnum by done. change (negb (1 =? 1)) with false. rewrite (bind_some _ _ w3 tt w3) by done.
      rewrite (bind_some _ _ _ _ _ (rec_get_run E _ _ _ _ _ Hh3 (lookup_insert_eq _ _ _))).
      assert (Hb : exists b, er_backrefs r2 !! i = Some b /\ other_bytes max_size b = false).
      { unfold r2, i. destruct found as [j|] eqn:Hf.
        - apply find_backref_some in Hf as (b & Hb & Hmb). exists b. split; [done|]. apply Hbytes; [done| |done].
          rewrite <- Hl. by apply list_elem_of_lookup_2 in Hb.
        - exists new. cbn [er_backrefs er_with_backrefs]. rewrite list_lookup_middle by done. done. }
      destruct Hb as (b & Hb & Hob). rewrite (bind_some _ _ w3 b w3) by (unfold assume_some; by rewrite Hb).
      rewrite Hob. rewrite (bind_some _ _ w3 tt w3) by done. rewrite Hstep.
      match goal with |- context [rec_put p ?t w3] =>
        destruct (rec_put_run E w3 _ s p r2 t Hh3 (lookup_insert_eq _ _ _)) as (v & Hrun & Hv & Hmv);
        [unfold r2; by destruct found..|] end.
      exists v. split; [done|]. split; [|lia]. rewrite insert_insert_eq in Hv. revert Hv. unfold r2. by destruct found.
    - match goal with |- context [rec_update p ?f] =>
        destruct (rec_update_run E w3 _ s p r2 f Hh3 (lookup_insert_eq _ _ _) eq_refl eq_refl) as (v & Hrun & Hv & Hmv) end.
      exists v. split; [done|]. split; [|lia]. rewrite insert_insert_eq, Hstep in Hv. revert Hv. unfold r2. by destruct found. }
  destruct Hd as (w4 & Hrun & Hh4 & Hm4). rewrite (bind_some _ _ _ _ _ Hrun). exists w4. split; [done|]. split; [|done].
  eexists. split; [exact Hh4|]. rewrite fmap_insert, HM1, insert_insert_eq. cbn [snd].
  apply map_eq. intros k. destruct (decide (k = s)) as [->|Hne].
  - by rewrite lookup_partial_alter_eq, lookup_insert_eq, lookup_fmap.
  - by rewrite lookup_partial_alter_ne, lookup_insert_ne.
Qed.
End Run.
