(* ===== verification/CheckHist.v ===== *)
(** What the checker has been told about one extent, and the record it has of
    it: the record is right exactly when the extent tree and the other trees
    agree. *)

From S2P Require Import Prelude RbSpec ExtentCache Buf CtreeFmt ItemFmt LeafOps NodeOps TreeWorld InodeItem.
From S2P Require Import ExtentAlloc ExtentItem ExtentItemSpec CheckRec CheckRun.

(** ** Calls for one extent *)

(** The item of the extent; a reference the extent tree has, to a tree block or
    to data; a pointer to the block; a file that uses the data; the block passed
    its own checks. *)
Inductive event :=
| Item (refs : Z) (metadata : bool)
| DeclTree (parent root : Z)
| DeclData (parent root owner offset num max_size : Z)
| Ptr (parent root : Z) (key : option btrfs_key) (is_root : bool)
| File (parent root owner offset bytes : Z)
| Checked.

Implicit Types (e : event) (evs : list event) (r : extent_record) (o : option extent_record) (l : list extent_backref).

Definition tree_ref (parent root : Z) : extent_ref := if 0 <? parent then SharedTreeRef parent else TreeRef root.
Definition data_ref (parent root owner offset : Z) : extent_ref :=
  if 0 <? parent then SharedDataRef parent else DataRef root owner offset.

Definition event_step (junk s n : Z) e o : option extent_record :=
  match e with
  | Item refs metadata => extent_step None s n refs false false false metadata true n o
  | DeclTree parent root => Some (tree_step s parent root false o)
  | DeclData parent root owner offset num max_size => Some (data_step junk s parent root owner offset num false max_size o)
  | Ptr parent root key is_root => Some (tree_step s parent root true (extent_step key s n 0 is_root true false true false n o))
  | File parent root owner offset bytes => Some (data_step junk s parent root owner offset 1 true bytes o)
  | Checked => r ← o; after_free (er_with_checked r true true)
  end.

(** ** What the calls say *)

Definition items evs : list Z := omap (fun e => match e with Item refs _ => Some refs | _ => None end) evs.

Definition decl_of e : option (extent_ref * Z) :=
  match e with
  | DeclTree parent root => Some (tree_ref parent root, 1)
  | DeclData parent root owner offset num _ => Some (data_ref parent root owner offset, num)
  | _ => None
  end.
Definition found_of e : option extent_ref :=
  match e with
  | Ptr parent root _ _ => Some (tree_ref parent root)
  | File parent root owner offset _ => Some (data_ref parent root owner offset)
  | _ => None
  end.

(** The references the extent tree has, with their counts, and those found. *)
Definition declared evs : gmap extent_ref Z := list_to_map (omap decl_of evs).
Fixpoint counted (rs : list extent_ref) : gmap extent_ref Z :=
  match rs with [] => ∅ | x :: rs => partial_alter (fun c => Some (default 0 c + 1)) x (counted rs) end.
Definition found evs : gmap extent_ref Z := counted (omap found_of evs).
Definition total evs : Z := Z.of_nat (length (omap found_of evs)).

Definition checked evs : bool :=
  existsb (fun e => match e with File _ _ _ _ _ | Checked => true | _ => false end) evs.

(** The trees agree about the extent of [n] bytes: it has one item, the item
    counts the references that were found, each as often as it was found, and
    files use all of the extent; and it was checked. *)
Record consistent (n : Z) evs : Prop := {
  cn_item : items evs = [total evs];
  cn_refs : declared evs = found evs;
  cn_bytes : forall parent root owner offset bytes, File parent root owner offset bytes ∈ evs -> bytes = n;
  cn_checked : checked evs = true;
}.

(** ** Sums over references *)

Definition count (m : gmap extent_ref Z) (x : extent_ref) : Z := default 0 (m !! x).

Lemma counted_pos rs x c : counted rs !! x = Some c -> 0 < c.
Proof.
  revert c. induction rs as [|y rs IH]; intros c; [done|]. cbn [counted]. destruct (decide (x = y)) as [->|Hne].
  - rewrite lookup_partial_alter_eq. intros [= <-]. destruct (counted rs !! y) as [d|]; cbn [default from_option id]; [|lia].
    specialize (IH d eq_refl). lia.
  - rewrite lookup_partial_alter_ne by done. apply IH.
Qed.

Lemma counted_snoc rs x : counted (rs ++ [x]) = <[x := count (counted rs) x + 1]> (counted rs).
Proof.
  unfold count. induction rs as [|z rs IH]; cbn [app counted]; [done|]. rewrite IH. apply map_eq. intros y.
  destruct (decide (y = x)) as [->|Hx].
  - rewrite lookup_insert_eq. destruct (decide (x = z)) as [->|Hz].
    + rewrite !lookup_partial_alter_eq, lookup_insert_eq. cbn [default from_option id]. done.
    + rewrite !lookup_partial_alter_ne, lookup_insert_eq by done. done.
  - rewrite (lookup_insert_ne _ x y) by done. destruct (decide (y = z)) as [->|Hz].
    + by rewrite !lookup_partial_alter_eq, lookup_insert_ne.
    + by rewrite !lookup_partial_alter_ne, lookup_insert_ne.
Qed.

Lemma count_nonneg rs x : 0 <= count (counted rs) x.
Proof. unfold count. destruct (counted rs !! x) as [c|] eqn:Hc; cbn; [apply counted_pos in Hc; lia|lia]. Qed.

Definition sum_of {A} (f : A -> Z) (xs : list A) : Z := foldr (fun x a => f x + a) 0 xs.

Lemma sum_app {A} (f : A -> Z) xs ys : sum_of f (xs ++ ys) = sum_of f xs + sum_of f ys.
Proof. unfold sum_of. induction xs as [|x xs IH]; cbn [app foldr]; [lia|]. rewrite IH. lia. Qed.

Lemma sum_ext {A} (f g : A -> Z) xs : (forall x, x ∈ xs -> f x = g x) -> sum_of f xs = sum_of g xs.
Proof.
  intros Hfg. unfold sum_of. induction xs as [|x xs IH]; cbn [foldr]; [done|]. rewrite (Hfg x) by left. rewrite IH; [done|].
  intros y Hy. apply Hfg. by right.
Qed.

Lemma sum_fmap {A B} (f : B -> Z) (g : A -> B) xs : sum_of f (g <$> xs) = sum_of (fun x => f (g x)) xs.
Proof. unfold sum_of. induction xs as [|x xs IH]; cbn; [done|]. by rewrite IH. Qed.

Lemma sum_plus_one f g (xs : list extent_ref) x : NoDup xs -> x ∈ xs -> (forall y, g y = f y + if decide (y = x) then 1 else 0) -> sum_of g xs = sum_of f xs + 1.
Proof.
  intros Hnd Hx Hg. apply list_elem_of_split in Hx as (A & B & ->). apply NoDup_app in Hnd as (_ & HA & [HB _]%NoDup_cons).
  rewrite !sum_app. unfold sum_of at 2 4. cbn [foldr]. fold (sum_of f B) (sum_of g B). rewrite (Hg x), decide_True by done.
  rewrite (sum_ext g f A), (sum_ext g f B); [lia|..].
  - intros y Hy. rewrite Hg, decide_False; [lia|]. by intros ->.
  - intros y Hy. rewrite Hg, decide_False; [lia|]. intros ->. apply (HA x Hy). left.
Qed.

(** Sums that agree, of numbers of which none is smaller. *)
Lemma sum_le_eq {A} (f g : A -> Z) xs : (forall x, x ∈ xs -> f x <= g x) -> sum_of f xs <= sum_of g xs /\
  (sum_of f xs = sum_of g xs -> forall x, x ∈ xs -> f x = g x).
Proof.
  unfold sum_of. induction xs as [|x xs IH]; intros Hle; cbn [foldr].
  - split; [done|]. intros _ x Hx. by apply elem_of_nil in Hx.
  - destruct IH as [H1 H2]; [intros y Hy; apply Hle; by right|]. pose proof (Hle x (list_elem_of_here _ _)). split; [lia|].
    intros Heq y [->|Hy]%elem_of_cons; [lia|]. apply H2; [lia|done].
Qed.

(** The numbers of times the references in [xs] were found add up to the number
    of calls. *)
Lemma sum_counted rs xs : NoDup xs -> (forall x, is_Some (counted rs !! x) -> x ∈ xs) ->
  sum_of (count (counted rs)) xs = Z.of_nat (length rs).
Proof.
  intros Hnd. induction rs as [|x rs IH] using rev_ind; intros Hin.
  - unfold sum_of. clear. induction xs as [|x xs IH]; [done|]. exact IH.
  - rewrite (sum_plus_one (count (counted rs)) (count (counted (rs ++ [x]))) xs x Hnd).
    + rewrite IH, length_app; [simpl; lia|]. intros y Hy. apply Hin. rewrite counted_snoc.
      destruct (decide (y = x)) as [->|Hne]; [by rewrite lookup_insert_eq|by rewrite lookup_insert_ne].
    + apply Hin. rewrite counted_snoc, lookup_insert_eq. done.
    + intros y. rewrite counted_snoc. unfold count. destruct (decide (y = x)) as [->|Hne].
      * by rewrite lookup_insert_eq.
      * rewrite lookup_insert_ne by done. lia.
Qed.

Lemma found_snoc evs e : found (evs ++ [e]) = match found_of e with Some x => <[x := count (found evs) x + 1]> (found evs) | None => found evs end.
Proof. unfold found. rewrite omap_app. cbn [omap list_omap]. destruct (found_of e) as [x|]; [apply counted_snoc|by rewrite app_nil_r]. Qed.

Lemma total_snoc evs e : total (evs ++ [e]) = total evs + match found_of e with Some _ => 1 | None => 0 end.
Proof. unfold total. rewrite omap_app, length_app. cbn [omap list_omap]. destruct (found_of e); simpl; lia. Qed.

Lemma declared_snoc evs e : NoDup (omap decl_of (evs ++ [e])).*1 ->
  declared (evs ++ [e]) = match decl_of e with Some (x, v) => <[x := v]> (declared evs) | None => declared evs end /\
  forall x v, decl_of e = Some (x, v) -> declared evs !! x = None.
Proof.
  unfold declared. rewrite omap_app. cbn [omap list_omap]. destruct (decl_of e) as [[x v]|]; intros Hnd.
  - rewrite fmap_app in Hnd. apply NoDup_app in Hnd as (_ & Hno & _).
    assert (Hx : (list_to_map (omap decl_of evs) : gmap extent_ref Z) !! x = None).
    { apply not_elem_of_list_to_map_1. intros Hin. apply (Hno x Hin). left. }
    split; [|by intros ? ? [= <- <-]]. rewrite list_to_map_app, list_to_map_cons, list_to_map_nil, insert_empty. symmetry. by apply insert_union_singleton_r.
  - split; [by rewrite app_nil_r|done].
Qed.

Lemma items_snoc evs e : items (evs ++ [e]) = items evs ++ match e with Item refs _ => [refs] | _ => [] end.
Proof. unfold items. rewrite omap_app. by destruct e. Qed.

Lemma checked_snoc evs e : checked (evs ++ [e]) = checked evs || match e with File _ _ _ _ _ | Checked => true | _ => false end.
Proof. unfold checked. rewrite existsb_app. cbn [existsb]. by rewrite orb_false_r. Qed.

(** ** The references of a record *)

Definition ref_of (b : extent_backref) : extent_ref :=
  match b with
  | TreeBackref node root => if bn_full_backref node then SharedTreeRef root else TreeRef root
  | DataBackref node root d => if bn_full_backref node then SharedDataRef root else DataRef root (db_owner d) (db_offset d)
  end.

Lemma tree_matches parent root b : tree_backref_matches parent root b = bool_decide (ref_of b = tree_ref parent root).
Proof.
  symmetry. unfold tree_ref, tree_backref_matches, ref_of.
  destruct b as [[a f c] r|[a f c] r d]; cbn [bn_full_backref]; destruct f, (0 <? parent); cbn [negb andb];
    try (apply bool_decide_eq_false_2; congruence).
  - destruct (Z.eqb_spec parent r); [apply bool_decide_eq_true_2|apply bool_decide_eq_false_2]; congruence.
  - destruct (Z.eqb_spec r root); [apply bool_decide_eq_true_2|apply bool_decide_eq_false_2]; congruence.
Qed.

Lemma data_matches parent root owner offset (found_ref : bool) s bytes b :
  (found_ref = true -> match b with TreeBackref _ _ => True | DataBackref node _ d =>
     bn_found_ref node = true -> db_disk_bytenr d = s /\ db_bytes d = bytes end) ->
  data_backref_matches parent root owner offset found_ref s bytes b = bool_decide (ref_of b = data_ref parent root owner offset).
Proof.
  intros Hb. symmetry. unfold data_ref, data_backref_matches, ref_of.
  destruct b as [[a f c] r|[a f c] r d]; cbn [bn_full_backref bn_found_ref] in *; destruct f, (0 <? parent); cbn [andb];
    try (apply bool_decide_eq_false_2; congruence).
  - destruct (Z.eqb_spec parent r); [apply bool_decide_eq_true_2|apply bool_decide_eq_false_2]; congruence.
  - assert (Hsame : found_ref && c && (negb (db_bytes d =? bytes) || negb (db_disk_bytenr d =? s)) = false).
    { destruct found_ref, c; try done. destruct Hb as [-> ->]; [done..|]. by rewrite !Z.eqb_refl. }
    rewrite Hsame. destruct (Z.eqb_spec r root), (Z.eqb_spec (db_owner d) owner), (Z.eqb_spec (db_offset d) offset);
      cbn [andb negb]; [apply bool_decide_eq_true_2|apply bool_decide_eq_false_2..]; congruence.
Qed.

Section Backs.
Context (s bytes : Z).

(** A reference noted for [x], when [D] are the declared ones and [F] the found
    ones. *)
Record back_is (D F : gmap extent_ref Z) b : Prop := {
  bi_decl : bn_found_extent_tree (back_node b) = bool_decide (is_Some (D !! ref_of b));
  bi_found : bn_found_ref (back_node b) = bool_decide (is_Some (F !! ref_of b));
  bi_data : match b with
            | TreeBackref _ _ => True
            | DataBackref _ _ d =>
                db_num_refs d = count D (ref_of b) /\ db_found_ref d = count F (ref_of b) /\
                (is_Some (F !! ref_of b) -> db_disk_bytenr d = s /\ db_bytes d = bytes)
            end;
}.

Record backs (D F : gmap extent_ref Z) l : Prop := {
  bk_nodup : NoDup (ref_of <$> l);
  bk_each : forall b, b ∈ l -> back_is D F b;
  bk_refs : forall x, x ∈ ref_of <$> l <-> is_Some (D !! x) \/ is_Some (F !! x);
}.

Lemma find_backref_none (P : extent_backref -> bool) l : find_backref P l = None -> forall b, b ∈ l -> P b = false.
Proof.
  induction l as [|c l IH]; intros Hf b Hb; [by apply elem_of_nil in Hb|]. cbn [find_backref] in Hf.
  destruct (P c) eqn:Hc; [done|]. destruct (find_backref P l); [done|]. apply elem_of_cons in Hb as [->|Hb]; [done|by apply IH].
Qed.

(** Noting [x]: in the place it has, or in a new one. *)
Lemma note_backs P new f D F D' F' l x :
  backs D F l -> (forall b, b ∈ l -> P b = bool_decide (ref_of b = x)) -> ref_of new = x -> (forall b, ref_of (f b) = ref_of b) ->
  (forall y, is_Some (D' !! y) \/ is_Some (F' !! y) <-> y = x \/ is_Some (D !! y) \/ is_Some (F !! y)) ->
  (D !! x = None -> F !! x = None -> back_is D F new) ->
  (forall b, back_is D F b -> ref_of b <> x -> back_is D' F' b) ->
  (forall b, back_is D F b -> ref_of b = x -> back_is D' F' (f b)) ->
  backs D' F' (note_backref (find_backref P l) new f l).
Proof.
  intros [Hnd Hl Hr] HP Hnew Hf HDF Hn Hother Hsame. rewrite noted.
  2:{ intros i (b & Hb & _)%find_backref_some. by apply lookup_lt_Some in Hb. }
  destruct (find_backref P l) as [i|] eqn:Hi.
  - apply find_backref_some in Hi as (b & Hb & HPb). rewrite HP in HPb by (by apply list_elem_of_lookup_2 in Hb). apply bool_decide_eq_true_1 in HPb.
    assert (Hrefs : ref_of <$> alter f i l = ref_of <$> l).
    { apply list_eq. intros j. rewrite !list_lookup_fmap. destruct (decide (j = i)) as [->|Hne].
      - rewrite list_lookup_alter_eq, Hb. cbn. by rewrite Hf.
      - by rewrite list_lookup_alter_ne. }
    split; [by rewrite Hrefs|..].
    + intros c Hc. apply list_elem_of_lookup in Hc as (j & Hj). destruct (decide (j = i)) as [->|Hne].
      * rewrite list_lookup_alter_eq, Hb in Hj. injection Hj as <-. apply Hsame; [|done]. apply Hl. by apply list_elem_of_lookup_2 in Hb.
      * rewrite list_lookup_alter_ne in Hj by done. apply Hother; [apply Hl; by apply list_elem_of_lookup_2 in Hj|].
        intros Hc. assert (j = i); [|done]. apply (NoDup_lookup (ref_of <$> l) j i x Hnd).
        -- by rewrite list_lookup_fmap, Hj; cbn; rewrite Hc.
        -- by rewrite list_lookup_fmap, Hb; cbn; rewrite HPb.
    + intros y. rewrite Hrefs, Hr, HDF. split; [auto|]. intros [->|?]; [|done]. apply Hr. rewrite <- HPb.
      apply list_elem_of_fmap_2. by apply list_elem_of_lookup_2 in Hb.
  - assert (Hx : x ∉ ref_of <$> l).
    { intros (b & -> & Hb)%list_elem_of_fmap. pose proof (find_backref_none P l Hi b Hb) as Hno. rewrite HP in Hno by done.
      by rewrite bool_decide_eq_true_2 in Hno. }
    assert (HDx : D !! x = None) by (apply eq_None_not_Some; intros Hs; apply Hx, Hr; by left).
    assert (HFx : F !! x = None) by (apply eq_None_not_Some; intros Hs; apply Hx, Hr; by right).
    split.
    + rewrite fmap_app. cbn [fmap list_fmap]. rewrite Hf, Hnew. apply NoDup_app. split; [done|]. split; [|apply NoDup_singleton].
      intros y Hy ->%list_elem_of_singleton. done.
    + intros b [Hb| ->%list_elem_of_singleton]%elem_of_app.
      * apply Hother; [by apply Hl|]. intros Hbx. apply Hx. rewrite <- Hbx. by apply list_elem_of_fmap_2.
      * apply Hsame; [by apply Hn|done].
    + intros y. rewrite fmap_app, elem_of_app. cbn [fmap list_fmap]. rewrite list_elem_of_singleton, Hf, Hnew, HDF, Hr. tauto.
Qed.
End Backs.

(** ** The record of an extent *)

Definition heard evs : Prop := exists e, e ∈ evs /\ e <> Checked.

Section Extent.
Context (junk s n bytes : Z).
Hypothesis Hn : 0 < n.
Local Abbreviation back_is := (back_is s bytes).
Local Abbreviation backs := (backs s bytes).

Lemma back_other D F D' F' b : D' !! ref_of b = D !! ref_of b -> F' !! ref_of b = F !! ref_of b -> back_is D F b -> back_is D' F' b.
Proof using Type. intros HD HF [H1 H2 H3]. split; unfold count in *; rewrite ?HD, ?HF; done. Qed.

Lemma ref_of_tree_found b fr : ref_of (set_tree_found fr b) = ref_of b.
Proof using Type. by destruct b, fr. Qed.
Lemma ref_of_data_found b k m : ref_of (data_found k m b) = ref_of b.
Proof using Type. by destruct b. Qed.
Lemma ref_of_data_declared b v : ref_of (data_declared v b) = ref_of b.
Proof using Type. by destruct b. Qed.

Lemma tree_not_data parent root parent' root' owner offset : tree_ref parent root <> data_ref parent' root' owner offset.
Proof using Type. unfold tree_ref, data_ref. by repeat case_match. Qed.

Lemma ref_of_tree_shape b parent root : ref_of b = tree_ref parent root -> exists node k, b = TreeBackref node k.
Proof using Type. unfold tree_ref. destruct b as [node k|node k d]; [by exists node, k|]. cbn. by repeat case_match. Qed.
Lemma ref_of_data_shape b parent root owner offset : ref_of b = data_ref parent root owner offset -> exists node k d, b = DataBackref node k d.
Proof using Type. unfold data_ref. destruct b as [node k|node k d]; [|by exists node, k, d]. cbn. by repeat case_match. Qed.

Lemma alloc_tree_ref parent root : ref_of (alloc_tree_backref parent root) = tree_ref parent root.
Proof using Type. unfold alloc_tree_backref, tree_ref. simpl. by destruct (0 <? parent). Qed.
Lemma alloc_data_ref parent root owner offset m : ref_of (alloc_data_backref junk parent root owner offset m) = data_ref parent root owner offset.
Proof using Type. unfold alloc_data_backref, data_ref. simpl. by destruct (0 <? parent). Qed.

Lemma alloc_tree_is D F parent root : D !! tree_ref parent root = None -> F !! tree_ref parent root = None ->
  back_is D F (alloc_tree_backref parent root).
Proof using Type. intros HD HF. split; rewrite ?alloc_tree_ref, ?HD, ?HF; done. Qed.
Lemma alloc_data_is D F parent root owner offset m : D !! data_ref parent root owner offset = None -> F !! data_ref parent root owner offset = None ->
  back_is D F (alloc_data_backref junk parent root owner offset m).
Proof using Type.
  intros HD HF. split; rewrite ?alloc_data_ref; unfold count; rewrite ?HD, ?HF; [done..|]. split_and!; [done..|].
  by intros [? ?].
Qed.

(** The four ways to note a reference. *)
Ltac noted_refs y x := intros y; destruct (decide (y = x)) as [->|?];
  [rewrite ?lookup_insert_eq; split; [auto|]; intros _; (left; by eexists) || (right; by eexists)
  |rewrite ?lookup_insert_ne by done; tauto].

Lemma backs_decl_tree D F l parent root : backs D F l -> 
  backs (<[tree_ref parent root := 1]> D) F
    (note_backref (find_tree_backref l parent root) (alloc_tree_backref parent root) (set_tree_found false) l).
Proof using Type.
  intros Hb. apply (note_backs s bytes _ _ _ D F _ _ _ (tree_ref parent root) Hb).
  - intros b _. apply tree_matches.
  - apply alloc_tree_ref.
  - intros b. apply ref_of_tree_found.
  - noted_refs y (tree_ref parent root).
  - apply alloc_tree_is.
  - intros b Hb1 Hne. apply (back_other D F); [by apply lookup_insert_ne|done..].
  - intros b [H1 H2 H3] Hx. destruct (ref_of_tree_shape b _ _ Hx) as (node & k & ->). split; rewrite ?ref_of_tree_found, Hx in *; [|done..].
    rewrite lookup_insert_eq. done.
Qed.

Lemma backs_found_tree D F l parent root : backs D F l -> 
  backs D (<[tree_ref parent root := count F (tree_ref parent root) + 1]> F)
    (note_backref (find_tree_backref l parent root) (alloc_tree_backref parent root) (set_tree_found true) l).
Proof using Type.
  intros Hb. apply (note_backs s bytes _ _ _ D F _ _ _ (tree_ref parent root) Hb).
  - intros b _. apply tree_matches.
  - apply alloc_tree_ref.
  - intros b. apply ref_of_tree_found.
  - noted_refs y (tree_ref parent root).
  - apply alloc_tree_is.
  - intros b Hb1 Hne. apply (back_other D F); [done|by apply lookup_insert_ne|done].
  - intros b [H1 H2 H3] Hx. destruct (ref_of_tree_shape b _ _ Hx) as (node & k & ->). split; rewrite ?ref_of_tree_found, Hx in *; [done| |done].
    rewrite lookup_insert_eq. done.
Qed.

Lemma backs_decl_data D F l parent root owner offset v m : backs D F l -> 
  backs (<[data_ref parent root owner offset := v]> D) F
    (note_backref (find_data_backref l parent root owner offset false s m) (alloc_data_backref junk parent root owner offset m) (data_declared v) l).
Proof using Type.
  intros Hb. apply (note_backs s bytes _ _ _ D F _ _ _ (data_ref parent root owner offset) Hb).
  - intros b _. by apply data_matches.
  - apply alloc_data_ref.
  - intros b. apply ref_of_data_declared.
  - noted_refs y (data_ref parent root owner offset).
  - apply alloc_data_is.
  - intros b Hb1 Hne. apply (back_other D F); [by apply lookup_insert_ne|done..].
  - intros b [H1 H2 H3] Hx. destruct (ref_of_data_shape b _ _ _ _ Hx) as (node & k & d & ->). split; rewrite ?ref_of_data_declared, Hx in *; [|done|].
    + rewrite lookup_insert_eq. done.
    + destruct H3 as (_ & H3 & H4). unfold count at 1. rewrite lookup_insert_eq. done.
Qed.

Lemma backs_found_data D F l parent root owner offset : backs D F l -> count F (data_ref parent root owner offset) + 1 < 2 ^ 32 ->
  (forall x, 0 <= count F x) ->
  backs D (<[data_ref parent root owner offset := count F (data_ref parent root owner offset) + 1]> F)
    (note_backref (find_data_backref l parent root owner offset true s bytes) (alloc_data_backref junk parent root owner offset bytes)
       (data_found s bytes) l).
Proof using Type.
  intros Hb Hlt Hpos. apply (note_backs s bytes _ _ _ D F _ _ _ (data_ref parent root owner offset) Hb).
  - intros b Hin. apply data_matches. intros _. destruct (bk_each _ _ _ _ _ Hb b Hin) as [H1 H2 H3]. destruct b as [|node k d]; [done|].
    intros Hf. cbn [back_node] in H2. rewrite Hf in H2. apply H3. by apply (bool_decide_eq_true_1 _).
  - apply alloc_data_ref.
  - intros b. apply ref_of_data_found.
  - noted_refs y (data_ref parent root owner offset).
  - apply alloc_data_is.
  - intros b Hb1 Hne. apply (back_other D F); [done|by apply lookup_insert_ne|done].
  - intros b [H1 H2 H3] Hx. destruct (ref_of_data_shape b _ _ _ _ Hx) as (node & k & d & ->). split; rewrite ?ref_of_data_found, Hx in *; [done| |].
    + rewrite lookup_insert_eq. done.
    + destruct H3 as (H3 & H4 & _). split; [done|]. split; [|done]. cbn [db_found_ref]. rewrite H4. unfold count at 2. rewrite lookup_insert_eq.
      cbn [default from_option id]. specialize (Hpos (data_ref parent root owner offset)). unfold u32. rewrite Z.mod_small; [done|lia].
Qed.
End Extent.
