(* ===== verification/CheckVerdict.v ===== *)
(** The record of one extent through all the calls for it, and the verdict on
    it. *)

From S2P Require Import Prelude RbSpec ExtentCache Buf CtreeFmt ItemFmt LeafOps NodeOps TreeWorld InodeItem.
From S2P Require Import ExtentAlloc ExtentItem ExtentItemSpec CheckRec CheckRun CheckHist.

Implicit Types (e : event) (evs : list event) (r : extent_record) (o : option extent_record) (l : list extent_backref).

(** ** The loop over the references *)

Definition backref_found (b : extent_backref) : Z := match b with TreeBackref _ _ => 1 | DataBackref _ _ d => db_found_ref d end.

Lemma backpointers_err p start nr l c : (backpointers_loop p start nr l c true).2 = true.
Proof. revert c. induction l as [|b l IH]; intros c; [done|]. cbn [backpointers_loop]. by case_match. Qed.

Lemma backpointers_wrong p start nr l c err : existsb (backref_wrong start nr) l = true -> (backpointers_loop p start nr l c err).2 = true.
Proof.
  revert c err. induction l as [|b l IH]; intros c err; [done|]. cbn [existsb backpointers_loop].
  destruct (backref_wrong start nr b); cbn [orb andb].
  - intros _. destruct p; [rewrite orb_true_r; apply backpointers_err|done].
  - apply IH.
Qed.

Lemma backpointers_right p start nr l c err : existsb (backref_wrong start nr) l = false -> 0 <= c -> (forall b, b ∈ l -> 0 <= backref_found b) ->
  c + sum_of backref_found l < 2 ^ 64 -> backpointers_loop p start nr l c err = (c + sum_of backref_found l, err).
Proof.
  revert c. unfold sum_of. induction l as [|b l IH]; intros c; cbn [existsb backpointers_loop foldr]; intros Hw Hc Hpos Hlt.
  - by rewrite Z.add_0_r.
  - apply orb_false_elim in Hw as [Hw1 Hw2]. rewrite Hw1, orb_false_r. cbn [andb]. fold (backref_found b).
    assert (0 <= backref_found b) by (apply Hpos; left).
    assert (0 <= foldr (fun x a => backref_found x + a) 0 l).
    { clear -Hpos. induction l as [|d l IH]; cbn [foldr]; [lia|].
      assert (0 <= backref_found d) by (apply Hpos; right; left). enough (0 <= foldr (fun x a => backref_found x + a) 0 l) by lia.
      apply IH. intros x [->|Hx]%elem_of_cons; apply Hpos; [left|by right; right]. }
    rewrite (u64_id (c + backref_found b)) by lia. rewrite IH; [f_equal; lia|done|lia| |lia].
    intros x Hx. apply Hpos. by right.
Qed.

(** No error: no reference is wrong, and they add up. *)
Lemma backpointers_checked r p : 
  (existsb (backref_wrong (er_start r) (er_nr r)) (er_backrefs r) = false ->
     (forall b, b ∈ er_backrefs r -> 0 <= backref_found b) /\ sum_of backref_found (er_backrefs r) < 2 ^ 64) ->
  all_backpointers_checked r p = false <->
  existsb (backref_wrong (er_start r) (er_nr r)) (er_backrefs r) = false /\ sum_of backref_found (er_backrefs r) = er_refs r.
Proof.
  intros Hsum. unfold all_backpointers_checked. destruct (existsb _ _) eqn:Hw.
  - pose proof (backpointers_wrong p _ _ _ 0 false Hw) as He. destruct (backpointers_loop _ _ _ _ _ _) as [c err]. simpl in He. subst err.
    split; [by destruct p|by intros [? _]].
  - destruct (Hsum eq_refl) as [Hpos Hlt]. rewrite (backpointers_right p _ _ _ 0 false Hw) by (done || lia). cbn [negb andb orb].
    rewrite Z.add_0_l. destruct (Z.eqb_spec (sum_of backref_found (er_backrefs r)) (er_refs r)); cbn; split; [done|done|done|]. by intros [_ ?].
Qed.

(** ** Records and what was said *)

Section Verdict.
Context (junk s n bytes : Z).
Hypothesis Hn : 0 < n.

(** What the calls may be: one item for the extent, each reference declared
    once, and files that agree about the size. *)
Record plain evs : Prop := {
  pn_items : (length (items evs) <= 1)%nat;
  pn_decl : NoDup (omap decl_of evs).*1;
  pn_nums : forall x v, (x, v) ∈ omap decl_of evs -> 0 < v;
  pn_bytes : forall parent root owner offset b, File parent root owner offset b ∈ evs -> b = bytes;
  pn_length : Z.of_nat (length evs) < 2 ^ 32;
}.

Record tally evs r : Prop := {
  ta_start : er_start r = s;
  ta_nr : items evs <> [] -> er_nr r = n;
  ta_refs : er_refs r = total evs;
  ta_item_refs : er_extent_item_refs r = default 0 (head (items evs));
  ta_found_rec : er_found_rec r = bool_decide (items evs <> []);
  ta_dups : er_num_duplicates r = 0;
  ta_content : er_content_checked r = checked evs;
  ta_owner : er_owner_ref_checked r = checked evs;
  ta_backs : backs s bytes (declared evs) (found evs) (er_backrefs r);
}.

Lemma total_bounds evs : 0 <= total evs <= Z.of_nat (length evs).
Proof using Type.
  unfold total. split; [lia|]. enough (length (omap found_of evs) <= length evs)%nat by lia.
  induction evs as [|e evs IH]; [done|]. cbn. destruct (found_of e); simpl; lia.
Qed.

Lemma found_pos evs x : is_Some (found evs !! x) <-> 0 < count (found evs) x.
Proof using Type.
  unfold count. split; [intros [c Hc]|].
  - rewrite Hc. by apply counted_pos in Hc.
  - destruct (found evs !! x); [done|]. cbn. lia.
Qed.

Lemma sum_found evs r : tally evs r -> sum_of (fun b => count (found evs) (ref_of b)) (er_backrefs r) = total evs.
Proof using Type.
  intros Ht. rewrite <- (sum_fmap (count (found evs)) ref_of). apply sum_counted; [apply (ta_backs _ _ Ht)|].
  intros x Hx. apply (ta_backs _ _ Ht). by right.
Qed.

(** A reference that is not wrong. *)
Lemma not_wrong evs r b : tally evs r -> b ∈ er_backrefs r -> backref_wrong (er_start r) (er_nr r) b = false ->
  is_Some (declared evs !! ref_of b) /\
  match b with TreeBackref _ _ => 0 < count (found evs) (ref_of b)
  | DataBackref _ _ _ => count (found evs) (ref_of b) = count (declared evs) (ref_of b) end.
Proof using Type.
  intros Ht Hb Hw. destruct (bk_each _ _ _ _ _ (ta_backs _ _ Ht) b Hb) as [H1 H2 H3]. unfold backref_wrong in Hw.
  apply orb_false_elim in Hw as [Hd Hw]. rewrite H1 in Hd. apply negb_false_iff, bool_decide_eq_true_1 in Hd. split; [done|].
  destruct b as [node k|node k d].
  - cbn [back_node] in H2. rewrite H2 in Hw. apply negb_false_iff, bool_decide_eq_true_1 in Hw. by apply found_pos.
  - destruct H3 as (Hnum & Hf & _). apply orb_false_elim in Hw as [[Hw _]%orb_false_elim _]. apply negb_false_iff, Z.eqb_eq in Hw. lia.
Qed.

Lemma found_event evs x : is_Some (found evs !! x) <-> exists e, e ∈ evs /\ found_of e = Some x.
Proof using Type.
  assert (Hc : forall rs, is_Some (counted rs !! x) <-> x ∈ rs).
  { clear. intros rs. induction rs as [|y rs IH] using rev_ind.
    - rewrite elem_of_nil. split; [by intros [? ?]|done].
    - rewrite counted_snoc, elem_of_app, list_elem_of_singleton. destruct (decide (x = y)) as [->|Hne].
      + rewrite lookup_insert_eq. split; [auto|by eexists].
      + rewrite lookup_insert_ne, IH by done. tauto. }
  unfold found. rewrite Hc, list_elem_of_omap. done.
Qed.

Lemma declared_event evs x v : declared evs !! x = Some v -> exists e, e ∈ evs /\ decl_of e = Some (x, v).
Proof using Type. intros Hd%elem_of_list_to_map_2. by apply list_elem_of_omap in Hd. Qed.

Lemma total_pos evs e x : e ∈ evs -> found_of e = Some x -> 0 < total evs.
Proof using Type.
  intros He Hx. unfold total. assert (Hin : x ∈ omap found_of evs) by (apply list_elem_of_omap; by exists e).
  destruct (omap found_of evs); [by apply elem_of_nil in Hin|simpl; lia].
Qed.

Lemma item_of_total evs : default 0 (head (items evs)) = total evs -> 0 < total evs -> items evs <> [].
Proof using Type. intros Hi Hp Hno. rewrite Hno in Hi. simpl in Hi. lia. Qed.

(** The sum that the loop makes, when no reference is wrong. *)
Lemma sum_right evs r : tally evs r -> plain evs -> existsb (backref_wrong (er_start r) (er_nr r)) (er_backrefs r) = false ->
  (forall b, b ∈ er_backrefs r -> 0 <= backref_found b <= count (found evs) (ref_of b)) /\ sum_of backref_found (er_backrefs r) < 2 ^ 64.
Proof using Type.
  intros Ht Hp Hw.
  assert (Hb : forall b, b ∈ er_backrefs r -> 0 <= backref_found b <= count (found evs) (ref_of b)).
  { intros b Hb. destruct (not_wrong evs r b Ht Hb) as [_ Hc].
    { rewrite <- not_true_iff_false in Hw |- *. intros Hbw. apply Hw, existsb_exists. exists b. by rewrite <- list_elem_of_In. }
    destruct (bk_each _ _ _ _ _ (ta_backs _ _ Ht) b Hb) as [_ _ H3]. destruct b as [node k|node k d]; cbn [backref_found]; [lia|].
    pose proof (count_nonneg (omap found_of evs) (ref_of (DataBackref node k d))). unfold found in *. lia. }
  split; [done|]. destruct (sum_le_eq backref_found _ _ (fun b Hin => proj2 (Hb b Hin))) as [Hle _]. rewrite (sum_found evs r Ht) in Hle.
  pose proof (total_bounds evs). pose proof (pn_length _ Hp). lia.
Qed.

(** What a record without an error says of the trees. *)
Lemma verdict_agree evs r : tally evs r -> plain evs -> default 0 (head (items evs)) = total evs ->
  existsb (backref_wrong (er_start r) (er_nr r)) (er_backrefs r) = false -> sum_of backref_found (er_backrefs r) = total evs ->
  declared evs = found evs /\ forall parent root owner offset b, File parent root owner offset b ∈ evs -> b = n.
Proof using Type.
  intros Ht Hp. pose proof (ta_backs _ _ Ht) as [_ Heach Hrefs].
  intros Hi Hw Hsum. destruct (sum_right evs r Ht Hp Hw) as [Hb _].
  assert (Hnw : forall b, b ∈ er_backrefs r -> backref_wrong (er_start r) (er_nr r) b = false).
  { intros b Hin. rewrite <- not_true_iff_false in Hw |- *. intros Hbw. apply Hw, existsb_exists. exists b. by rewrite <- list_elem_of_In. }
  destruct (sum_le_eq backref_found _ _ (fun b Hin => proj2 (Hb b Hin))) as [_ Heq]. rewrite (sum_found evs r Ht) in Heq. specialize (Heq Hsum).
  assert (Hsame : forall x, x ∈ ref_of <$> er_backrefs r -> declared evs !! x = found evs !! x).
  { intros x (b & -> & Hin)%list_elem_of_fmap. destruct (not_wrong evs r b Ht Hin (Hnw b Hin)) as [[v Hv] Hc].
    assert (Hcount : count (found evs) (ref_of b) = v).
    { destruct (declared_event _ _ _ Hv) as (e & He & Hde). destruct b as [node k|node k d].
      - rewrite <- (Heq _ Hin). destruct e; try done; cbn in Hde; injection Hde as Hx Hval; cbn; [done|].
        destruct (ref_of_data_shape (TreeBackref node k) parent root owner offset) as (? & ? & ? & ?); [by rewrite Hx|done].
      - rewrite Hc. unfold count. by rewrite Hv. }
    assert (0 < v) by (apply (pn_nums _ Hp (ref_of b)), list_elem_of_omap; by apply declared_event).
    rewrite Hv. unfold count in Hcount. destruct (found evs !! ref_of b); cbn in Hcount; [by subst|lia]. }
  split.
  + apply map_eq. intros x. destruct (decide (x ∈ ref_of <$> er_backrefs r)) as [Hin|Hno]; [by apply Hsame|].
    assert (~ is_Some (declared evs !! x) /\ ~ is_Some (found evs !! x)) as [H1%eq_None_not_Some H2%eq_None_not_Some] by (rewrite Hrefs in Hno; tauto).
    congruence.
  + intros parent root owner offset b Hf. set (x := data_ref parent root owner offset).
    assert (Hx : is_Some (found evs !! x)) by (apply found_event; by eexists).
    assert (Hin : x ∈ ref_of <$> er_backrefs r) by (apply Hrefs; by right).
    apply list_elem_of_fmap in Hin as (c & Hxc & Hin). destruct (ref_of_data_shape c parent root owner offset (eq_sym Hxc)) as (node & k & d & ->).
    destruct (Heach _ Hin) as [_ _ (_ & _ & Hd)]. rewrite <- Hxc in Hd. destruct (Hd Hx) as [_ Hbytes].
    rewrite (pn_bytes _ Hp _ _ _ _ _ Hf), <- Hbytes.
    rewrite <- (ta_nr _ _ Ht). 2:{ apply item_of_total; [done|]. by eapply total_pos. }
    specialize (Hnw _ Hin). unfold backref_wrong in Hnw. apply orb_false_elim in Hnw as [_ [_ Hnr]%orb_false_elim].
    apply negb_false_iff, Z.eqb_eq in Hnr. done.
Qed.

(** The record when the trees agree. *)
Lemma agree_verdict evs r : tally evs r -> plain evs -> default 0 (head (items evs)) = total evs -> declared evs = found evs ->
  (forall parent root owner offset b, File parent root owner offset b ∈ evs -> b = n) ->
  existsb (backref_wrong (er_start r) (er_nr r)) (er_backrefs r) = false /\ sum_of backref_found (er_backrefs r) = total evs.
Proof using Type.
  intros Ht Hp. pose proof (ta_backs _ _ Ht) as [_ Heach Hrefs].
  intros Hi HDF Hfiles.
  assert (Hfound : forall b, b ∈ er_backrefs r -> is_Some (found evs !! ref_of b)).
  { intros b Hin. apply (list_elem_of_fmap_2 ref_of), Hrefs in Hin. rewrite HDF in Hin. tauto. }
  assert (Hw : existsb (backref_wrong (er_start r) (er_nr r)) (er_backrefs r) = false).
  { apply not_true_iff_false. rewrite existsb_exists. intros (b & Hin%list_elem_of_In & Hbw). specialize (Hfound b Hin).
    destruct (Heach b Hin) as [H1 H2 H3]. unfold backref_wrong in Hbw. rewrite H1, HDF, bool_decide_eq_true_2 in Hbw by done. cbn [negb orb] in Hbw.
    destruct b as [node k|node k d].
    - cbn [back_node] in H2. by rewrite H2, bool_decide_eq_true_2 in Hbw.
    - destruct H3 as (Hnum & Hf & Hd). destruct (Hd Hfound) as [Hdisk Hbytes].
      apply found_event in Hfound as (e & He & Hfe). destruct e as [| | |parent root| parent root owner offset b|]; try done; cbn in Hfe.
      { injection Hfe as Hx. by destruct (ref_of_tree_shape (DataBackref node k d) parent root (eq_sym Hx)) as (? & ? & ?). }
      rewrite Hnum, Hf, HDF, Hdisk, Hbytes, <- (pn_bytes _ Hp _ _ _ _ _ He), (Hfiles _ _ _ _ _ He) in Hbw.
      rewrite (ta_start _ _ Ht), (ta_nr _ _ Ht) in Hbw; [by rewrite !Z.eqb_refl in Hbw|]. apply item_of_total; [done|]. by eapply total_pos. }
  split; [done|]. rewrite <- (sum_found evs r Ht). apply sum_ext. intros b Hin. specialize (Hfound b Hin).
  destruct (Heach b Hin) as [_ _ H3]. destruct b as [node k|node k d]; cbn [backref_found].
  + rewrite <- HDF in *. destruct Hfound as [v Hv]. unfold count. rewrite Hv. cbn. destruct (declared_event _ _ _ Hv) as (e & He & Hde).
    destruct e; try done; cbn in Hde; injection Hde as Hx Hval; [done|].
    by destruct (ref_of_data_shape (TreeBackref node k) parent root owner offset (eq_sym Hx)) as (? & ? & ? & ?).
  + destruct H3 as (_ & H3 & _). done.
Qed.

Lemma verdict evs r p : tally evs r -> plain evs ->
  er_extent_item_refs r = er_refs r /\ all_backpointers_checked r p = false <->
  default 0 (head (items evs)) = total evs /\ declared evs = found evs /\
  forall parent root owner offset b, File parent root owner offset b ∈ evs -> b = n.
Proof using Type.
  intros Ht Hp. rewrite backpointers_checked, (ta_item_refs _ _ Ht), (ta_refs _ _ Ht).
  2:{ intros Hw. destruct (sum_right evs r Ht Hp Hw) as [Hb Hlt]. split; [|done]. intros b Hin. apply (Hb b Hin). }
  split.
  - intros (Hi & Hw & Hsum). split; [done|]. by apply (verdict_agree evs r).
  - intros (Hi & HDF & Hfiles). split; [done|]. by apply (agree_verdict evs r).
Qed.
End Verdict.

(** ** The record of one extent, through all the calls for it. *)



(** ** One extent *)

Section Extent.
Context (junk s n bytes : Z).
Hypothesis Hn : 0 < n.
Local Abbreviation tally := (tally s n bytes).
Local Abbreviation plain := (plain bytes).

Lemma plain_app evs1 evs2 : plain (evs1 ++ evs2) -> plain evs1 /\ plain evs2.
Proof using Type.
  intros [H1 H2 H3 H4 H5]. unfold items in *. rewrite omap_app, length_app in H1. rewrite length_app in H5.
  rewrite omap_app in H2, H3. rewrite fmap_app in H2. apply NoDup_app in H2 as (N1 & _ & N2).
  split; (split; [unfold items; lia|done| | |lia]).
  - intros x v Hx. apply (H3 x), elem_of_app. by left.
  - intros parent root owner offset b Hf. apply (H4 parent root owner offset), elem_of_app. by left.
  - intros x v Hx. apply (H3 x), elem_of_app. by right.
  - intros parent root owner offset b Hf. apply (H4 parent root owner offset), elem_of_app. by right.
Qed.

(** The record when the next call comes. *)
Definition held evs o : Prop := match o with None => evs = [] | Some r => tally evs r end.

Lemma held_rec evs o metadata m : held evs o -> tally evs (ref_rec s metadata m o).
Proof using Type.
  destruct o as [r|]; [done|]. intros ->. split; try done. split; [constructor|by intros b Hb%elem_of_nil|]. intros x.
  unfold declared, found. cbn. rewrite lookup_empty, elem_of_nil. split; [done|]. by intros [[? ?]|[? ?]].
Qed.

Lemma step_decl_tree evs o parent root : held evs o -> plain (evs ++ [DeclTree parent root]) ->
  tally (evs ++ [DeclTree parent root]) (tree_step s parent root false o).
Proof using Type.
  intros Ht Hp. apply (held_rec _ _ true 0) in Ht as [H1 H2 H3 H4 H5 H6 H7 H8 H9].
  destruct (declared_snoc _ _ (pn_decl _ _ Hp)) as [Hd Hnew].
  split; cbn; rewrite ?items_snoc, ?app_nil_r, ?total_snoc, ?checked_snoc, ?orb_false_r, ?found_snoc, ?Hd; cbn; try done; [lia|].
  by apply backs_decl_tree.
Qed.

Lemma tally_grown evs m r : tally evs r -> tally evs (grown m r).
Proof using Type. unfold grown. case_match; [|done]. intros []. by split. Qed.

Lemma step_decl_data evs o parent root owner offset num m : let e := DeclData parent root owner offset num m in held evs o -> plain (evs ++ [e]) ->
  tally (evs ++ [e]) (data_step junk s parent root owner offset num false m o).
Proof using Type.
  intros e Ht Hp. apply (held_rec _ _ false m), (tally_grown _ m) in Ht as [H1 H2 H3 H4 H5 H6 H7 H8 H9].
  destruct (declared_snoc _ _ (pn_decl _ _ Hp)) as [Hd Hnew]. unfold data_step. cbv zeta.
  split; cbn; rewrite ?items_snoc, ?app_nil_r, ?total_snoc, ?checked_snoc, ?orb_false_r, ?found_snoc, ?Hd; cbn; try done; [lia|].
  by apply backs_decl_data.
Qed.

Lemma count_found evs x : count (found evs) x <= total evs.
Proof using Type.
  unfold found, total. induction (omap found_of evs) as [|y rs IH] using rev_ind; [done|]. rewrite counted_snoc, length_app.
  unfold count at 1. destruct (decide (x = y)) as [->|Hne].
  - rewrite lookup_insert_eq. simpl. lia.
  - rewrite lookup_insert_ne by done. fold (count (counted rs) x). simpl. lia.
Qed.

Lemma step_file evs o parent root owner offset : let e := File parent root owner offset bytes in held evs o -> plain (evs ++ [e]) ->
  tally (evs ++ [e]) (data_step junk s parent root owner offset 1 true bytes o).
Proof using Type.
  intros e Ht Hp. apply (held_rec _ _ false bytes), (tally_grown _ bytes) in Ht as [H1 H2 H3 H4 H5 H6 H7 H8 H9].
  destruct (declared_snoc _ _ (pn_decl _ _ Hp)) as [Hd Hnew]. unfold data_step. cbv zeta.
  pose proof (total_bounds evs) as Htb. pose proof (pn_length _ _ Hp) as Hlen. rewrite length_app in Hlen.
  split; cbn; rewrite ?items_snoc, ?app_nil_r, ?total_snoc, ?checked_snoc, ?orb_true_r, ?found_snoc, ?Hd; cbn; try done.
  - rewrite H3. apply u64_id. cbn in Hlen. lia.
  - apply backs_found_data; [done| |intros x; apply count_nonneg].
    pose proof (count_found evs (data_ref parent root owner offset)). cbn in Hlen. lia.
Qed.

(** Freeing a record that is right. *)
Lemma free_tally evs r : tally evs r -> plain evs ->
  match after_free r with Some r' => r' = r | None => consistent n evs /\ 0 < total evs end.
Proof using Type.
  intros Ht Hp. unfold after_free. destruct (_ && negb _) eqn:Hc; [|done].
  apply andb_true_iff in Hc as [Hc Hb%negb_true_iff]. rewrite !andb_true_iff in Hc. destruct Hc as [[[[H1 H2] H3] H4] H5].
  apply Z.eqb_eq in H3. apply Z.ltb_lt in H4. rewrite (ta_content _ _ _ _ _ Ht) in H1. rewrite (ta_refs _ _ _ _ _ Ht) in H4.
  destruct (proj1 (verdict s n bytes evs r false Ht Hp) (conj H3 Hb)) as (Hi & HDF & Hf). split; [|done]. split; [|done..].
  pose proof (pn_items _ _ Hp) as Hlen. destruct (items evs) as [|x [|y its]]; simpl in *; [lia|by rewrite Hi|lia].
Qed.

(** A record that is counted one reference more than it has is kept. *)
Lemma after_free_more evs r refs : tally evs (er_with_refs r refs (er_extent_item_refs r)) -> plain evs -> er_refs r = total evs + 1 ->
  after_free r = Some r.
Proof using Type.
  intros Ht Hp Hr. unfold after_free. destruct (all_backpointers_checked r false) eqn:Hc; [by rewrite andb_false_r|]. exfalso.
  rewrite backpointers_checked in Hc.
  2:{ intros Hw. destruct (sum_right s n bytes _ _ Ht Hp Hw) as [Hb Hlt]. split; [|done]. intros b Hin. apply (Hb b Hin). }
  destruct Hc as [Hw Hsum]. destruct (sum_right s n bytes _ _ Ht Hp Hw) as [Hb _].
  destruct (sum_le_eq backref_found _ _ (fun b Hin => proj2 (Hb b Hin))) as [Hle _].
  rewrite (sum_found s n bytes evs _ Ht) in Hle. cbn [er_backrefs er_with_refs] in Hle. lia.
Qed.

Lemma ptr_rec evs o key is_root : held evs o -> plain evs -> Z.of_nat (length evs) + 1 < 2 ^ 32 ->
  exists r, extent_step key s n 0 is_root true false true false n o = Some r /\ er_refs r = total evs + 1 /\
    tally evs (er_with_refs r (total evs) (er_extent_item_refs r)).
Proof using Hn.
  intros Hh Hp Hlen. destruct o as [r|].
  - pose proof (total_bounds evs) as Htb. cbn [extent_step].
    set (r' := rec_again _ _ _ _ _ _ _ _ _ _ r).
    assert (Hr : er_refs r' = total evs + 1 /\ tally evs (er_with_refs r' (total evs) (er_extent_item_refs r'))).
    { destruct Hh as [H1 H2 H3 H4 H5 H6 H7 H8 H9]. unfold r', rec_again. cbn [andb negb Z.eqb].
      split; [repeat case_match; cbn; rewrite H3; apply u64_id; lia|].
      split; repeat case_match; cbn in *; try done; try lia.
      all: intros Hi; rewrite H2 in *; by try lia. }
    destruct Hr as [Hr Ht]. exists r'. split; [|done]. by apply (after_free_more evs r' (total evs)).
  - cbn in Hh. subst evs. eexists. split; [done|]. split; [done|]. split; try done.
    apply (ta_backs _ _ _ _ _ (held_rec [] None true 0 eq_refl)).
Qed.

Lemma step_ptr evs o parent root key is_root : let e := Ptr parent root key is_root in held evs o -> plain (evs ++ [e]) ->
  tally (evs ++ [e]) (tree_step s parent root true (extent_step key s n 0 is_root true false true false n o)).
Proof using Hn.
  intros e Hh Hp. destruct (plain_app _ _ Hp) as [Hp1 _]. pose proof (pn_length _ _ Hp) as Hlen. rewrite length_app in Hlen. cbn in Hlen.
  destruct (ptr_rec evs o key is_root Hh Hp1 ltac:(lia)) as (r & -> & Hr & [H1 H2 H3 H4 H5 H6 H7 H8 H9]).
  destruct (declared_snoc _ _ (pn_decl _ _ Hp)) as [Hd Hnew].
  split; cbn in *; rewrite ?items_snoc, ?app_nil_r, ?total_snoc, ?checked_snoc, ?orb_false_r, ?found_snoc, ?Hd; cbn; try done.
  by apply backs_found_tree.
Qed.

Lemma step_item evs o refs metadata : let e := Item refs metadata in held evs o -> plain (evs ++ [e]) ->
  match extent_step None s n refs false false false metadata true n o with
  | Some r => tally (evs ++ [e]) r
  | None => consistent n (evs ++ [e]) /\ 0 < total (evs ++ [e])
  end.
Proof using Hn.
  intros e Hh Hp. pose proof (pn_items _ _ Hp) as Hone. rewrite items_snoc, length_app in Hone. cbn in Hone.
  assert (Hno : items evs = []) by (apply nil_length_inv; lia).
  destruct (declared_snoc _ _ (pn_decl _ _ Hp)) as [Hd _]. cbn in Hd.
  assert (Ht : tally (evs ++ [e]) (match o with Some r => rec_again None s n refs false false false metadata true n r
    | None => new_extent_rec None s n refs false false false metadata true n end)).
  { destruct o as [r|].
    - destruct Hh as [H1 H2 H3 H4 H5 H6 H7 H8 H9]. rewrite Hno in H5. rewrite bool_decide_eq_false_2 in H5 by (intros Hx; by apply Hx).
      assert (Hsame : forall m k, er_start (if er_nr r =? 1 then er_with_sizes r m k else r) = s /\
        er_found_rec (if er_nr r =? 1 then er_with_sizes r m k else r) = false) by (intros m k; by destruct (er_nr r =? 1)).
      unfold rec_again. cbn [andb]. destruct (Hsame (er_max_size r) (Z.max n n)) as [-> ->]. rewrite Z.eqb_refl. cbn [negb orb andb].
      rewrite andb_true_r.
      split; rewrite ?items_snoc, ?Hno, ?total_snoc, ?checked_snoc, ?orb_false_r, ?found_snoc, ?Hd; cbn [app head default from_option id found_of decl_of e];
        destruct (Z.eqb_spec refs 0); repeat case_match; cbn in *; try done; try lia.
      all: by rewrite H4, Hno.
    - cbn in Hh. subst evs. split; try done; [intros _; cbn; lia|].
      apply (ta_backs _ _ _ _ _ (held_rec [] None true 0 eq_refl)). }
  destruct o as [r|]; [|done]. cbn [extent_step]. pose proof (free_tally _ _ Ht Hp) as Hf. by destruct (after_free _); [subst|].
Qed.

Lemma step_checked evs r : tally evs r -> plain (evs ++ [Checked]) ->
  match after_free (er_with_checked r true true) with
  | Some r => tally (evs ++ [Checked]) r
  | None => consistent n (evs ++ [Checked]) /\ 0 < total (evs ++ [Checked])
  end.
Proof using Type.
  intros [H1 H2 H3 H4 H5 H6 H7 H8 H9] Hp. destruct (declared_snoc _ _ (pn_decl _ _ Hp)) as [Hd Hnew].
  assert (Ht : tally (evs ++ [Checked]) (er_with_checked r true true)).
  { split; rewrite ?items_snoc, ?app_nil_r, ?total_snoc, ?checked_snoc, ?orb_true_r, ?found_snoc, ?Hd; cbn; try done. lia. }
  pose proof (free_tally _ _ Ht Hp) as Hf. by destruct (after_free _); [subst|].
Qed.

Lemma event_tally evs o e : held evs o -> plain (evs ++ [e]) -> (o = None -> e <> Checked) ->
  match event_step junk s n e o with
  | Some r => tally (evs ++ [e]) r
  | None => consistent n (evs ++ [e]) /\ 0 < total (evs ++ [e])
  end.
Proof using Hn.
  intros Hh Hp Hfirst. destruct e as [refs metadata|parent root|parent root owner offset num m|parent root key is_root|parent root owner offset b|].
  - by apply step_item.
  - by apply step_decl_tree.
  - by apply step_decl_data.
  - by apply step_ptr.
  - assert (b = bytes) as -> by (eapply (pn_bytes _ _ Hp); apply elem_of_app; right; left). by apply step_file.
  - destruct o as [r|]; [|by destruct Hfirst]. by apply step_checked.
Qed.

(** A record is freed when all that was said agrees; what comes after that makes
    a new one. *)
Definition fate evs o : Prop :=
  exists evs1 evs2, evs = evs1 ++ evs2 /\ (evs1 = [] \/ consistent n evs1 /\ 0 < total evs1) /\
    match o with None => evs2 = [] | Some r => tally evs2 r /\ heard evs2 end.

Lemma fate_step evs o e : fate evs o -> plain (evs ++ [e]) -> (evs = [] -> e <> Checked) -> fate (evs ++ [e]) (event_step junk s n e o).
Proof using Hn.
  intros (evs1 & evs2 & -> & H1 & Ho) Hp Hfirst. rewrite <- app_assoc in Hp |- *. destruct (plain_app _ _ Hp) as [_ Hp2].
  assert (Hcase : o = None /\ e = Checked \/ (o = None -> e <> Checked)) by (destruct o, e; auto; by right).
  destruct Hcase as [[-> ->]|Hne].
  - subst evs2. destruct H1 as [->|[[C1 C2 C3 C4] Hpos]]; [exfalso; by apply Hfirst|]. exists (evs1 ++ [Checked]), []. rewrite app_nil_r. split; [done|]. split; [|done].
    right. rewrite total_snoc, Z.add_0_r. split; [|done]. destruct (declared_snoc _ _ (pn_decl _ _ Hp)) as [Hd _].
    split; rewrite ?items_snoc, ?app_nil_r, ?total_snoc, ?Z.add_0_r, ?Hd, ?found_snoc; [done..| |by rewrite checked_snoc, orb_true_r].
    intros parent root owner offset b [Hin|Hin%list_elem_of_singleton]%elem_of_app; [by eapply C3|done].
  - assert (Hh : held evs2 o) by (destruct o; [apply Ho|done]).
    pose proof (event_tally evs2 o e Hh Hp2 Hne) as He.
    destruct (event_step _ _ _ _ _) as [r|].
    + exists evs1, (evs2 ++ [e]). split; [done|]. split; [done|]. split; [done|]. destruct o as [r'|].
      * destruct Ho as [_ (c & Hc & Hcc)]. exists c. split; [|done]. apply elem_of_app. by left.
      * exists e. split; [apply elem_of_app; right; left|]. by apply Hne.
    + exists (evs1 ++ evs2 ++ [e]), []. rewrite app_nil_r. split; [done|]. split; [|done]. right.
      destruct H1 as [->|[C1 _]]; [done|]. exfalso. destruct He as [[C2 _ _ _] _].
      destruct C1 as [C1 _ _ _]. pose proof (pn_items _ _ Hp) as Hi. unfold items in *. rewrite omap_app, length_app, C1, C2 in Hi. simpl in Hi. lia.
Qed.

Definition record_of evs : option extent_record := foldl (fun o e => event_step junk s n e o) None evs.

Lemma record_fate evs : plain evs -> head evs <> Some Checked -> fate evs (record_of evs).
Proof using Hn.
  unfold record_of. induction evs as [|e evs IH] using rev_ind; intros Hp Hh.
  - exists [], []. split; [done|]. split; [by left|done].
  - rewrite foldl_snoc. destruct (plain_app _ _ Hp) as [Hp1 _]. apply fate_step; [|done|by intros -> ->].
    apply IH; [done|]. by destruct evs.
Qed.

Lemma record_verdict evs r : tally evs r -> plain evs -> heard evs -> record_wrong r = false <-> consistent n evs.
Proof using Type.
  intros Ht Hp Hheard. unfold record_wrong. rewrite (ta_dups _ _ _ _ _ Ht), (ta_owner _ _ _ _ _ Ht). cbn [negb Z.eqb orb].
  assert (Hv := verdict s n bytes evs r true Ht Hp). split.
  - intros [[Hi%negb_false_iff%Z.eqb_eq Hb]%orb_false_elim Hc%negb_false_iff]%orb_false_elim.
    destruct (proj1 Hv (conj (eq_sym Hi) Hb)) as (Htot & HDF & Hf). split; [|done..].
    pose proof (pn_items _ _ Hp) as Hlen. destruct (items evs) as [|x [|y its]] eqn:Hits; simpl in *; [|by rewrite Htot|lia]. exfalso.
    assert (HF : found evs = ∅).
    { unfold found. unfold total in Htot. destruct (omap found_of evs); [done|simpl in Htot; lia]. }
    destruct Hheard as (e & He & Hne). destruct (decl_of e) as [[x v]|] eqn:Hde.
    + assert (Hx : declared evs !! x = Some v).
      { apply elem_of_list_to_map; [apply (pn_decl _ _ Hp)|]. apply list_elem_of_omap. by exists e. }
      by rewrite HDF, HF, lookup_empty in Hx.
    + destruct (found_of e) as [x|] eqn:Hfe; [pose proof (total_pos evs e x He Hfe); lia|].
      destruct e; try done. assert (Hin : refs ∈ items evs) by (apply list_elem_of_omap; by eexists). rewrite Hits in Hin. by apply elem_of_nil in Hin.
  - intros [C1 C2 C3 C4]. destruct (proj2 Hv) as [Hi Hb].
    + rewrite C1. done.
    + rewrite Hi, Z.eqb_refl, Hb, C4. done.
Qed.

Lemma fate_verdict evs o : fate evs o -> plain evs -> evs <> [] ->
  match o with Some r => record_wrong r | None => false end = false <-> consistent n evs.
Proof using Type.
  intros (evs1 & evs2 & -> & H1 & Ho) Hp Hne. destruct (plain_app _ _ Hp) as [_ Hp2]. destruct o as [r|].
  - destruct Ho as [Ht Hheard]. rewrite (record_verdict evs2 r Ht Hp2 Hheard). destruct H1 as [->|[[C1 C2 C3 C4] Hpos]]; [done|].
    pose proof (pn_items _ _ Hp) as Hi. unfold items in Hi, C1. rewrite omap_app, length_app, C1 in Hi. simpl in Hi.
    assert (Hno : items evs2 = []) by (apply nil_length_inv; unfold items; lia). split; intros [D1 D2 D3 D4].
    + by rewrite Hno in D1.
    + exfalso. unfold items in D1, Hno. rewrite omap_app, C1, Hno in D1. injection D1 as D1. unfold total in D1. rewrite omap_app, length_app in D1.
      assert (Hnf : omap found_of evs2 = []) by (apply nil_length_inv; lia).
      destruct Hheard as (e & He & Hec). unfold found in D2. rewrite omap_app, Hnf, app_nil_r in D2. fold (found evs1) in D2.
      destruct (decl_of e) as [[x v]|] eqn:Hde.
      * assert (Hin : (x, v) ∈ omap decl_of evs2) by (apply list_elem_of_omap; by exists e).
        assert (Hx : declared (evs1 ++ evs2) !! x = Some v).
        { apply elem_of_list_to_map; [apply (pn_decl _ _ Hp)|]. rewrite omap_app. apply elem_of_app. by right. }
        rewrite D2, <- C2 in Hx. apply elem_of_list_to_map_2 in Hx. pose proof (pn_decl _ _ Hp) as Hnd. rewrite omap_app, fmap_app in Hnd.
        apply NoDup_app in Hnd as (_ & Hdis & _). by apply (Hdis x); [apply (list_elem_of_fmap_2 fst _ (x, v))|apply (list_elem_of_fmap_2 fst _ (x, v))].
      * destruct e as [refs metadata| | |parent root key is_root|parent root owner offset b|]; try done.
        -- assert (Hin : refs ∈ items evs2) by (apply list_elem_of_omap; by eexists). unfold items in Hin. rewrite Hno in Hin. by apply elem_of_nil in Hin.
        -- assert (Hin : tree_ref parent root ∈ omap found_of evs2) by (apply list_elem_of_omap; by eexists). rewrite Hnf in Hin. by apply elem_of_nil in Hin.
        -- assert (Hin : data_ref parent root owner offset ∈ omap found_of evs2) by (apply list_elem_of_omap; by eexists). rewrite Hnf in Hin. by apply elem_of_nil in Hin.
  - subst evs2. rewrite app_nil_r in *. destruct H1 as [->|[C1 _]]; done.
Qed.
End Extent.
