(* ===== verification/CheckProps.v ===== *)
(** The checker finds nothing wrong with the extents exactly when the extent tree
    and the trees that use the extents agree about each of them. *)

From S2P Require Import Prelude RbSpec RbTree RbInstance ExtentCache Buf CtreeFmt ItemFmt LeafOps NodeOps.
From S2P Require Import TreeWorld InodeItem ExtentAlloc ExtentAllocProps ExtentItem ExtentItemSpec.
From S2P Require Import ExtentRefProps CheckRec CheckRun CheckHist CheckVerdict.

Implicit Types (e : event) (evs : list event) (r : extent_record) (o : option extent_record).

(** ** The calls of the checker

    What it makes of an item, of a pointer, of a file's extent and of a block
    that passed: [process_extent_item], [run_next_block], [add_root_to_pending]
    and [check_block] come to these. *)
Section Calls.
Context {T : Type} `{RbTree T} (junk : Z).
Open Scope act_scope.

Definition run_event (s n : Z) e : act (check_world T) unit :=
  match e with
  | Item refs metadata => add_extent_rec None s n refs false false false metadata true n ;;; ret tt
  | DeclTree parent root => add_tree_backref s parent root false ;;; ret tt
  | DeclData parent root owner offset num max_size => add_data_backref junk s parent root owner offset num false max_size ;;; ret tt
  | Ptr parent root key is_root =>
      add_extent_rec key s n 0 is_root true false true false n ;;; add_tree_backref s parent root true ;;; ret tt
  | File parent root owner offset bytes => add_data_backref junk s parent root owner offset 1 true bytes ;;; ret tt
  | Checked => cache <- rec_lookup s n ;; match cache with Some p => block_checked p 0 | None => ret tt end
  end.

Fixpoint run_calls (E : gmap Z Z) (calls : list (Z * event)) : act (check_world T) unit :=
  match calls with
  | [] => ret tt
  | (s, e) :: calls => run_event s (default 0 (E !! s)) e ;;; run_calls E calls
  end.
End Calls.

(** The calls for one extent, in their order. *)
Definition calls_for (s : Z) (calls : list (Z * event)) : list event :=
  omap (fun c => if decide (c.1 = s) then Some c.2 else None) calls.

Section Run.
Context {T : Type} `{RbTreeLaws T} (junk : Z) (E : gmap Z Z).
Hypothesis Hsizes : forall s n, E !! s = Some n -> 0 <= s /\ 0 < n /\ s + n < 2 ^ 64.
Hypothesis Happart : forall s n s' n', E !! s = Some n -> E !! s' = Some n' -> s <> s' -> s + n <= s' \/ s' + n' <= s.
Implicit Types (w : check_world T) (R : gmap Z extent_record).

Lemma checked_run w R s n : checks E w R -> E !! s = Some n ->
  exists w', run_event junk s n Checked w = Some (tt, w') /\ checks E w' (partial_alter (event_step junk s n Checked) s R) /\
    ck_mallocs w' = ck_mallocs w.
Proof using Hsizes Happart.
  intros (M & Hh & ->) Hn. destruct (Hsizes _ _ Hn) as (S1 & S2 & S3). cbn [run_event].
  rewrite (bind_some _ _ _ _ _ (rec_lookup_run E Hsizes Happart w M s n Hh (ex_intro _ n (conj Hn (conj S2 (Z.le_refl n)))))).
  rewrite (partial_alter_ext (event_step junk s n Checked) (fun _ => event_step junk s n Checked (snd <$> M !! s)) (snd <$> M) s)
    by (intros o <-; by rewrite lookup_fmap).
  destruct (M !! s) as [[p r]|] eqn:Hs; cbn [fst snd fmap option_fmap option_map event_step].
  - unfold block_checked. 
    destruct (rec_update_run E w M s p r (fun rec => er_with_checked rec true (er_owner_ref_checked rec || (0 =? 0))) Hh Hs eq_refl eq_refl)
      as (w1 & Hrun & Hh1 & Hm1). rewrite (bind_some _ _ _ _ _ Hrun). cbn [Z.eqb]. rewrite orb_true_r in Hh1. clear Hrun.
    destruct (maybe_free_run E w1 _ s p _ Hh1 (lookup_insert_eq _ _ _)) as (w2 & Hrun & Hh2 & Hm2). exists w2. split; [exact Hrun|]. split; [|congruence].
    apply (checks_set E _ _ _ p). revert Hh2. cbn [mbind option_bind]. destruct (after_free _) as [r'|]; cbn [rec_set].
    + by rewrite insert_insert_eq.
    + by rewrite delete_insert_eq.
  - exists w. split; [done|]. split; [|done]. cbn [mbind option_bind]. apply (checks_set E w M s 1%positive None). cbn [rec_set]. by rewrite delete_id.
Qed.

Lemma event_run w R s n bytes evs e : checks E w R -> E !! s = Some n -> fate s n bytes evs (R !! s) -> plain bytes (evs ++ [e]) ->
  (3 <= ck_mallocs w)%nat ->
  exists w', run_event junk s n e w = Some (tt, w') /\ checks E w' (partial_alter (event_step junk s n e) s R) /\
    (ck_mallocs w <= 3 + ck_mallocs w')%nat.
Proof using Hsizes Happart.
  intros Hc Hn Hf Hp Hm. destruct (Hsizes _ _ Hn) as (S1 & S2 & S3). assert (Hnn : 0 < n <= n) by lia.
  destruct e as [refs metadata|parent root|parent root owner offset num m|parent root key is_root|parent root owner offset b|]; cbn [run_event].
  - destruct (add_extent_rec_run E Hsizes Happart w R s n None n refs false false false metadata true n Hc Hn Hnn ltac:(lia)) as (w' & Hrun & Hc' & Hm').
    rewrite (bind_some _ _ _ _ _ Hrun). exists w'. split; [done|]. split; [done|lia].
  - destruct (add_tree_backref_run E Hsizes Happart w R s n parent root false Hc Hn ltac:(lia)) as (w' & Hrun & Hc' & Hm').
    rewrite (bind_some _ _ _ _ _ Hrun). exists w'. split; [done|]. split; [done|lia].
  - destruct (add_data_backref_run E Hsizes Happart junk w R s n parent root owner offset num false m Hc Hn ltac:(lia)) as (w' & Hrun & Hc' & Hm'); [done..|].
    rewrite (bind_some _ _ _ _ _ Hrun). exists w'. split; [done|]. split; [done|lia].
  - destruct (add_extent_rec_run E Hsizes Happart w R s n key n 0 is_root true false true false n Hc Hn Hnn ltac:(lia)) as (w1 & Hrun & Hc1 & Hm1).
    rewrite (bind_some _ _ _ _ _ Hrun). clear Hrun.
    destruct (add_tree_backref_run E Hsizes Happart w1 _ s n parent root true Hc1 Hn ltac:(lia)) as (w2 & Hrun & Hc2 & Hm2).
    rewrite (bind_some _ _ _ _ _ Hrun). exists w2. split; [done|]. split; [|lia]. by rewrite partial_alter_partial_alter_eq in Hc2.
  - assert (b = bytes) as -> by (eapply (pn_bytes _ _ Hp); apply elem_of_app; right; left).
    destruct (add_data_backref_run E Hsizes Happart junk w R s n parent root owner offset 1 true bytes Hc Hn ltac:(lia)) as (w' & Hrun & Hc' & Hm'); [done| |].
    { intros _ b Hb _. destruct (R !! s) as [r|]; [|by apply elem_of_nil in Hb]. destruct Hf as (evs1 & evs2 & _ & _ & [Ht _]).
      destruct (bk_each _ _ _ _ _ (ta_backs _ _ _ _ _ Ht) b Hb) as [_ H2 H3]. destruct b as [|node k d]; [done|]. cbn [other_bytes].
      cbn [back_node] in H2. rewrite H2. case_bool_decide as Hfound; [|done]. destruct H3 as (_ & _ & Hd). destruct (Hd Hfound) as [_ ->].
      by rewrite Z.eqb_refl. }
    rewrite (bind_some _ _ _ _ _ Hrun). exists w'. split; [done|]. split; [done|lia].
  - destruct (checked_run w R s n Hc Hn) as (w' & Hrun & Hc' & Hm'). exists w'. split; [done|]. split; [done|lia].
Qed.

Lemma calls_for_snoc s calls s' e : calls_for s (calls ++ [(s', e)]) = calls_for s calls ++ if decide (s' = s) then [e] else [].
Proof using Type. unfold calls_for. rewrite omap_app. cbn. by destruct (decide (s' = s)). Qed.

Lemma run_calls_snoc calls s e w w1 : run_calls junk E calls w = Some (tt, w1) ->
  run_calls junk E (calls ++ [(s, e)]) w = run_event junk s (default 0 (E !! s)) e w1.
Proof using Type.
  revert w. induction calls as [|[s' e'] calls IH]; intros w; cbn [run_calls app].
  - intros [= ->]. unfold bind. by destruct (run_event _ _ _ _ _) as [[[] ?]|].
  - unfold bind. destruct (run_event junk s' _ e' w) as [[[] w2]|]; [apply IH|done].
Qed.

(** What the calls may be. *)
Definition calls_ok (calls : list (Z * event)) : Prop :=
  forall s, calls_for s calls <> [] -> is_Some (E !! s) /\ head (calls_for s calls) <> Some Checked /\ exists bytes, plain bytes (calls_for s calls).

Lemma calls_run calls w R0 : checks E w R0 -> R0 = ∅ -> calls_ok calls -> (3 * length calls <= ck_mallocs w)%nat ->
  exists w' R, run_calls junk E calls w = Some (tt, w') /\ checks E w' R /\
    (ck_mallocs w <= 3 * length calls + ck_mallocs w')%nat /\
    forall s, R !! s = match E !! s with Some n => record_of junk s n (calls_for s calls) | None => None end.
Proof using Hsizes Happart.
  intros Hc ->. induction calls as [|[s e] calls IH] using rev_ind; intros Hok Hm.
  - exists w, ∅. split; [done|]. split; [done|]. split; [simpl; lia|]. intros s. rewrite lookup_empty. by destruct (E !! s).
  - rewrite length_app in Hm |- *. cbn [length] in *.
    assert (Hok1 : calls_ok calls).
    { intros k Hk. destruct (Hok k) as (H1 & H2 & b & H3).
      { rewrite calls_for_snoc. intros [? _]%app_nil. done. }
      split; [done|]. rewrite calls_for_snoc in H2, H3. split; [by destruct (calls_for k calls)|]. exists b. by apply plain_app in H3 as [? _]. }
    destruct (IH Hok1 ltac:(lia)) as (w1 & R & Hrun & Hc1 & Hm1 & HR).
    destruct (Hok s) as ([n Hn] & Hhead & b & Hp); [rewrite calls_for_snoc, decide_True by done; by destruct (calls_for s calls)|].
    rewrite calls_for_snoc, decide_True in Hhead, Hp by done. destruct (Hsizes _ _ Hn) as (S1 & S2 & S3).
    assert (Hf : fate s n b (calls_for s calls) (R !! s)).
    { rewrite HR, Hn. apply record_fate; [done|by apply plain_app in Hp as [? _]|by destruct (calls_for s calls)]. }
    destruct (event_run w1 R s n b _ e Hc1 Hn Hf Hp ltac:(lia)) as (w2 & Hev & Hc2 & Hm2).
    exists w2, (partial_alter (event_step junk s n e) s R). split; [by rewrite (run_calls_snoc _ _ _ _ _ Hrun), Hn|].
    split; [done|]. split; [lia|]. intros k. rewrite calls_for_snoc. destruct (decide (s = k)) as [<-|Hne].
    + rewrite lookup_partial_alter_eq, HR, Hn. unfold record_of. by rewrite foldl_snoc.
    + by rewrite lookup_partial_alter_ne, app_nil_r.
Qed.

(** The loop over the records that are left. *)
Lemma extent_refs_run fuel err w R : checks E w R -> (size R < fuel)%nat ->
  exists v w', extent_refs_loop fuel err w = Some (v, w') /\
    (v = 0 <-> err = false /\ forall s r, R !! s = Some r -> record_wrong r = false).
Proof using Hsizes.
  revert err w R. induction fuel as [|fuel IH]; intros err w R Hc Hsz; [lia|].
  destruct Hc as (M & (L & Hok & Hpl & HM) & ->). cbn [extent_refs_loop].
  assert (Hfirst : search_cache_extent (ck_tree w) (ck_entries w) 0 = Some (head L.*1)).
  { apply (search_cache_extent_split _ _ [] L.*1 [] (er_cache <$> L.*2) 0 (recs_seq w L Hok)); [done|lia|done|].
    destruct L as [|[p r] L]; [done|]. cbn. destruct (Hpl p r (list_elem_of_here _ _)) as [Hst (n & Hn & Hsz')].
    destruct (Hsizes _ _ Hn). unfold ce_end. lia. }
  unfold deref at 1. rewrite (bind_some _ _ w (head L.*1) w) by (by rewrite Hfirst). destruct L as [|[p r] L]; cbn [fmap list_fmap fst head].
  - eexists _, w. split; [done|]. split.
    + destruct err; [done|]. intros _. split; [done|]. intros s r Hs. rewrite lookup_fmap in Hs. destruct (M !! s) as [[p r']|] eqn:Hms; [|done].
      apply HM in Hms as [Hin _]. by apply elem_of_nil in Hin.
    + by intros [-> _].
  - assert (Hs : M !! er_start r = Some (p, r)) by (apply HM; split; [left|done]).
    assert (Hh : holds_recs E w M) by (exists ((p, r) :: L); done).
    rewrite (bind_some _ _ _ _ _ (rec_get_run E _ _ _ _ _ Hh Hs)).
    destruct (rec_delete_run E w M (er_start r) p r (ret tt) [] Hh Hs) as (w1 & Hrun & Hh1 & _).
    { intros v. exists (ck_duplicates v). by destruct v. }
    assert (Hrun2 : (rec_remove p ;;; rec_free p)%act w = Some (tt, w1)) by exact Hrun.
    rewrite <- bind_assoc. rewrite (bind_some _ _ _ _ _ Hrun2).
    destruct (IH (err || record_wrong r) w1 (snd <$> delete (er_start r) M)) as (v & w2 & Hl & Hv).
    + by eexists.
    + rewrite map_size_fmap, map_size_delete_Some by (by eexists). rewrite map_size_fmap in Hsz.
      assert (size M <> 0%nat) by (apply map_size_ne_0_lookup; by eexists). lia.
    + exists v, w2. split; [exact Hl|]. rewrite Hv, orb_false_iff. split.
      * intros [[He Hr] Hall]. split; [done|]. intros s t Ht. destruct (decide (s = er_start r)) as [->|Hne].
        -- rewrite lookup_fmap, Hs in Ht. by injection Ht as <-.
        -- apply (Hall s). by rewrite lookup_fmap, lookup_delete_ne, <- lookup_fmap.
      * intros [He Hall]. split; [split; [done|]|].
        -- apply (Hall (er_start r)). by rewrite lookup_fmap, Hs.
        -- intros s t Ht. apply (Hall s). rewrite lookup_fmap in *. destruct (decide (s = er_start r)) as [->|Hne].
           ++ by rewrite lookup_delete_eq in Ht.
           ++ by rewrite lookup_delete_ne in Ht.
Qed.
End Run.

(** C3: After calls that describe extents which lie apart, the checker reports
    no error exactly when for every extent the one item counts the references
    that the trees hold, the extent tree lists these and no others, each with
    the number of times it was found, files use the whole extent, and the extent
    was checked.  The records that were freed on the way, and in which order the
    calls came, make no difference.  The calls are those of [calls_ok]: for each
    extent the extent tree has at most one item, lists no reference twice and
    none with the count 0, all file extents that use it say the same size, the
    first call is not that of a checked block, and there are less than 2^32 of
    them; no allocation fails. *)
Theorem check_extents_correct {T : Type} `{RbTreeLaws T} (junk : Z) (E : gmap Z Z) (calls : list (Z * event)) (w : check_world T) (fuel : nat) :
  (forall s n, E !! s = Some n -> 0 <= s /\ 0 < n /\ s + n < 2 ^ 64) ->
  (forall s n s' n', E !! s = Some n -> E !! s' = Some n' -> s <> s' -> s + n <= s' \/ s' + n' <= s) ->
  ck_tree w = RB_ROOT -> ck_recs w = ∅ -> calls_ok E calls -> (3 * length calls <= ck_mallocs w)%nat -> (size E < fuel)%nat ->
  exists w1 v w2, run_calls junk E calls w = Some (tt, w1) /\ check_extent_refs fuel w1 = Some (v, w2) /\
    (v = 0 <-> forall s n, E !! s = Some n -> calls_for s calls <> [] -> consistent n (calls_for s calls)).
Proof.
  intros Hsizes Happart Ht Hr Hok Hm Hfuel.
  assert (Hc : checks E w ∅).
  { exists ∅. split; [|by rewrite fmap_empty]. exists []. split; [|split].
    - split; [rewrite Ht; apply rb_seq_empty|by rewrite Hr|done|by intros p ?%elem_of_nil].
    - by intros p r ?%elem_of_nil.
    - intros s p r. rewrite lookup_empty, elem_of_nil. split; [done|by intros [? _]]. }
  destruct (calls_run junk E Hsizes Happart calls w ∅ Hc eq_refl Hok Hm) as (w1 & R & Hrun & Hc1 & _ & HR).
  destruct (extent_refs_run E Hsizes fuel false w1 R Hc1) as (v & w2 & Hloop & Hv).
  { enough (size R <= size E)%nat by lia. rewrite <- !size_dom. apply subseteq_size. intros s [r Hs]%elem_of_dom.
    rewrite HR in Hs. apply elem_of_dom. by destruct (E !! s). }
  exists w1, v, w2. split; [done|]. split; [exact Hloop|]. rewrite Hv.
  assert (Hone : forall s n, E !! s = Some n -> calls_for s calls <> [] ->
    match R !! s with Some r => record_wrong r | None => false end = false <-> consistent n (calls_for s calls)).
  { intros s n Hn Hne. destruct (Hok s Hne) as (_ & Hhead & b & Hp). destruct (Hsizes _ _ Hn) as (_ & Hpos & _).
    apply (fate_verdict s n b); [|done|done]. rewrite HR, Hn. by apply record_fate. }
  split.
  - intros [_ Hall] s n Hn Hne. apply (Hone s n Hn Hne). destruct (R !! s) as [r|] eqn:Hs; [by eapply Hall|done].
  - intros Hcons. split; [done|]. intros s r Hs. pose proof Hs as Hs'. rewrite HR in Hs'. destruct (E !! s) as [n|] eqn:Hn; [|done].
    assert (Hne : calls_for s calls <> []) by (intros Hno; by rewrite Hno in Hs').
    pose proof (proj2 (Hone s n Hn Hne) (Hcons s n Hn Hne)) as Hw. by rewrite Hs in Hw.
Qed.

(** ** Items of the extent tree *)

Definition declares (num_bytes : Z) (i : inline_ref) : event :=
  match ir_ref i with
  | TreeRef root => DeclTree 0 root
  | SharedTreeRef parent => DeclTree parent 0
  | DataRef root objectid off => DeclData 0 root objectid off (ir_count i) num_bytes
  | SharedDataRef parent => DeclData parent 0 0 0 (ir_count i) num_bytes
  end.

Section ItemCalls.
Context {T : Type} `{RbTree T} (junk : Z) (E : gmap Z Z).
Open Scope act_scope.

Lemma inline_refs_calls (s n : Z) (irs : list inline_ref) fuel eb p m (w : check_world T) :
  Forall iref_ok irs -> read_extent_buffer eb p m = irefs_bytes irs -> (length irs < fuel)%nat ->
  inline_refs_loop junk fuel eb s n p (p + Z.of_nat (length (irefs_bytes irs))) w =
    (run_calls junk E ((fun i => (s, declares n i)) <$> irs) ;;; ret 0) w.
Proof.
  revert fuel p m w. induction irs as [|i irs IH]; intros fuel p m w Hok Hb Hf; (destruct fuel as [|fuel]; [simpl in Hf; lia|]); cbn [inline_refs_loop].
  { rewrite (proj2 (Z.leb_le _ _)), (proj2 (Z.ltb_ge _ _)) by (simpl; lia). done. }
  apply Forall_cons in Hok as [Hi Hok]. rewrite irefs_bytes_cons in Hb |- *. apply read_split in Hb as [Hb1 Hb2].
  destruct (iref_at_bytes eb p i _ Hi Hb1) as [Ht Hv Hc]. pose proof (iref_bytes_length i) as Hl. pose proof (ref_size_pos (ir_ref i)).
  rewrite length_app, Nat2Z.inj_add. rewrite (proj2 (Z.leb_gt _ _)) by lia. cbv zeta. rewrite Ht, inline_size. rewrite Hl in Hb2 |- *.
  assert (Hnext : forall v, (size <- assume_some (Some (ref_size (ir_ref i))) ;;
      inline_refs_loop junk fuel eb s n (p + size) (p + (ref_size (ir_ref i) + Z.of_nat (length (irefs_bytes irs))))) v =
      (run_calls junk E ((fun i => (s, declares n i)) <$> irs) ;;; ret 0) v).
  { intros v. rewrite (bind_some _ _ v (ref_size (ir_ref i)) v) by done. rewrite Z.add_assoc. eapply IH; [done|exact Hb2|simpl in Hf; lia]. }
  assert (Hcall : forall (c : act (check_world T) Z) (k k' : act (check_world T) Z) u, (forall v, k v = k' v) -> (c ;;; k) u = ((c ;;; ret tt) ;;; k') u).
  { intros c k k' u Hk. unfold bind. destruct (c u) as [[? v]|]; [apply Hk|done]. }
  rewrite fmap_cons. cbn [run_calls]. rewrite bind_assoc. unfold inline_ref_count in Hc. unfold declares at 1.
  destruct (ir_ref i) as [root|parent|root objectid off|parent]; cbn [ref_type ref_is_data run_event] in *; cbn [ref_rank] in Hv;
    rewrite ?Hv in *; cbn in Hc |- *; try (apply Hcall; exact Hnext).
  - destruct Hv as (H1 & H2 & H3). injection Hc as ->. change offsetof_inline_offset with 1. rewrite H1, H2, H3. apply Hcall, Hnext.
  - injection Hc as ->. apply Hcall, Hnext.
Qed.


(** C17: What the checker makes of a well formed item of the extent tree is the
    sequence of calls that declare the extent with its count and then each of
    the references it holds, with theirs. *)
Theorem process_extent_item_calls (leafsize slot : Z) (eb : buf) (k : btrfs_key) (x : extent) (w : check_world T) :
  let metadata := type k =? BTRFS_METADATA_ITEM_KEY in
  let num_bytes := if metadata then leafsize else offset k in
  btrfs_item_key eb slot = k -> metadata = true \/ type k = BTRFS_EXTENT_ITEM_KEY -> extent_ok metadata x ->
  btrfs_item_size_nr eb slot = Z.of_nat (length (extent_bytes x)) ->
  read_extent_buffer eb (btrfs_item_ptr_offset eb slot) (length (extent_bytes x)) = extent_bytes x ->
  E !! objectid k = Some num_bytes ->
  process_extent_item junk leafsize eb slot w =
    (run_calls junk E ((objectid k, Item (ex_refs x) metadata) :: ((fun i => (objectid k, declares num_bytes i)) <$> ex_irefs x)) ;;; ret 0) w.
Proof.
  intros metadata num_bytes Hk Hkind Hx Hsize Hb HE. unfold process_extent_item. rewrite Hk, Hsize. fold metadata. fold num_bytes.
  pose proof (extent_bytes_length x) as Hlen. unfold head_size in Hlen.
  destruct (extent_at_bytes _ _ _ _ _ Hx Hb) as [Hrefs Hflags Hirefs].
  rewrite (proj2 (Z.ltb_ge _ _)) by (unfold sizeof_extent_item; lia). rewrite Hrefs, Hflags.
  cbn [run_calls run_event]. rewrite HE. cbn [default from_option id]. rewrite !bind_assoc. unfold bind at 1 2. cbn [ret].
  destruct (add_extent_rec _ _ _ _ _ _ _ _ _ _ w) as [[v w1]|]; [|done].
  set (p := btrfs_item_ptr_offset eb slot) in *.
  assert (Hp : p + sizeof_extent_item + (if has_flag (ex_flags x) BTRFS_EXTENT_FLAG_TREE_BLOCK && (type k =? BTRFS_EXTENT_ITEM_KEY)
     then sizeof_tree_block_info else 0) = p + head_size x).
  { unfold head_size. rewrite (xo_info _ _ Hx). fold (is_block x). replace (type k =? BTRFS_EXTENT_ITEM_KEY) with (negb metadata); [unfold sizeof_extent_item; lia|].
    destruct Hkind as [Hm|Hm].
    - rewrite Hm. unfold metadata in Hm. apply Z.eqb_eq in Hm. by rewrite Hm.
    - unfold metadata. by rewrite Hm. }
  rewrite Hp, Hlen. fold (head_size x). rewrite Z.add_assoc.
  rewrite (inline_refs_calls (objectid k) num_bytes (ex_irefs x) _ eb _ _ w1 (is_ok _ (xo_irefs _ _ Hx)) Hirefs); [done|].
  pose proof (irefs_bytes_fuel (ex_irefs x)). unfold head_size. lia.
Qed.
End ItemCalls.

(** ** A small file system *)

(** A block of one tree, and data that a file uses. *)
Definition demo_layout : gmap Z Z := {[ 16384 := 16384; 65536 := 8192 ]}.
Definition demo_calls : list (Z * event) :=
  [(16384, Ptr 0 5 None true); (16384, Checked); (65536, File 0 5 257 0 8192);
   (16384, Item 1 true); (16384, DeclTree 0 5); (65536, Item 1 false); (65536, DeclData 0 5 257 0 1 8192)].
Definition demo_check : check_world rb_mem := CheckWorld RB_ROOT ∅ 1%positive 100 [] 0 0.

Lemma demo_layout_in s n : demo_layout !! s = Some n -> s = 16384 /\ n = 16384 \/ s = 65536 /\ n = 8192.
Proof. unfold demo_layout. intros [[<- <-]|[_ [<- <-]%lookup_singleton_Some]]%lookup_insert_Some; auto. Qed.

Lemma demo_layout_sizes s n : demo_layout !! s = Some n -> 0 <= s /\ 0 < n /\ s + n < 2 ^ 64.
Proof. intros [[-> ->]|[-> ->]]%demo_layout_in; lia. Qed.

Lemma demo_layout_apart s n s' n' : demo_layout !! s = Some n -> demo_layout !! s' = Some n' -> s <> s' -> s + n <= s' \/ s' + n' <= s.
Proof. intros [[-> ->]|[-> ->]]%demo_layout_in [[-> ->]|[-> ->]]%demo_layout_in; lia. Qed.

Lemma demo_calls_ok : calls_ok demo_layout demo_calls.
Proof.
  intros s Hs. assert (Hcases : s = 16384 \/ s = 65536).
  { destruct (decide (s = 16384)) as [|H1]; [by left|]. destruct (decide (s = 65536)) as [|H2]; [by right|]. destruct Hs.
    unfold calls_for, demo_calls. cbn -[decide]. by repeat rewrite decide_False by done. }
  assert (Hplain : forall evs d b, omap decl_of evs = [d] -> 0 < d.2 -> (length (items evs) <= 1)%nat -> Z.of_nat (length evs) < 2 ^ 32 ->
    Forall (fun e => match e with File _ _ _ _ c => c = b | _ => True end) evs -> plain b evs).
  { intros evs d b Hd Hd0 Hi Hl Hf. split; [done| | | |done].
    - rewrite Hd. apply NoDup_singleton.
    - rewrite Hd. intros x v Hin. apply list_elem_of_singleton in Hin. by subst d.
    - intros parent root owner offset c Hin. by apply (proj1 (Forall_forall _ _) Hf _ Hin). }
  destruct Hcases as [->| ->]; (split; [by eexists|]; split; [done|]).
  - exists 0. apply (Hplain _ (tree_ref 0 5, 1)); [done|simpl; lia|simpl; lia|simpl; lia|by repeat constructor].
  - exists 8192. apply (Hplain _ (data_ref 0 5 257 0, 1)); [done|simpl; lia|simpl; lia|simpl; lia|by repeat constructor].
Qed.

Lemma check_extents_correct_witness :
  exists w1 v w2, run_calls 0 demo_layout demo_calls demo_check = Some (tt, w1) /\ check_extent_refs 3 w1 = Some (v, w2) /\
    (v = 0 <-> forall s n, demo_layout !! s = Some n -> calls_for s demo_calls <> [] -> consistent n (calls_for s demo_calls)).
Proof.
  apply (check_extents_correct 0 demo_layout demo_calls demo_check 3 demo_layout_sizes demo_layout_apart eq_refl eq_refl demo_calls_ok);
    vm_compute; lia.
Defined.

(** The verdicts of the code: on these calls, on others, and when a block that was
    found is freed by the repair. *)
Definition verdict_of (c : act (check_world rb_mem) unit) : option Z := fst <$> (c ;;; check_extent_refs 3)%act demo_check.

Example demo_right : verdict_of (run_calls 0 demo_layout demo_calls) = Some 0.
Proof. vm_compute. reflexivity. Qed.

Example demo_count_wrong : verdict_of (run_calls 0 demo_layout [(16384, Ptr 0 5 None true); (16384, Checked); (16384, Item 2 true); (16384, DeclTree 0 5)]) = Some 1.
Proof. vm_compute. reflexivity. Qed.

(** A reference that the extent tree declares twice: the second count takes the
    place of the first, which nothing notes, so five references that no file has
    go unreported. *)
Example declared_twice_accepted :
  verdict_of (run_calls 0 demo_layout
    [(65536, File 0 5 257 0 8192); (65536, Item 1 false); (65536, DeclData 0 5 257 0 5 8192); (65536, DeclData 0 5 257 0 1 8192)]) = Some 0.
Proof. vm_compute. reflexivity. Qed.

(** The record keeps the reference that was dropped. *)
Example freed_block_reported :
  verdict_of (run_calls 0 demo_layout [(16384, Item 1 true); (16384, DeclTree 0 5); (16384, Ptr 0 5 None true)] ;;;
              free_extent_hook 16384 16384 0 5 0 0 1 ;;; ret tt)%act = Some 1.
Proof. vm_compute. reflexivity. Qed.

Lemma process_extent_item_calls_witness :
  process_extent_item 0 4096 refs_leaf 0 demo_check =
    (run_calls 0 {[ 200704 := 4096 ]} [(200704, Item 2 false); (200704, DeclData 0 5 257 0 2 4096)] ;;; ret 0)%act demo_check.
Proof.
  refine (process_extent_item_calls 0 {[ 200704 := 4096 ]} 4096 0 refs_leaf twice_key twice_used demo_check _ _ twice_ok _ _ _);
    [vm_compute; reflexivity|by right|vm_compute; reflexivity..].
Defined.
