(* ===== verification/SendStream.v ===== *)
(** Send streams, [src/send-stream.c]: commands with a checksum, each a sequence
    of attributes, read from a file descriptor and passed to the operations of
    the receiver. *)

From S2P Require Import Prelude Buf CtreeFmt Crc.

(** ** The format, [src/send.h] *)

(** ["btrfs-stream"] with its terminating zero. *)
Definition BTRFS_SEND_STREAM_MAGIC : list Z := [98; 116; 114; 102; 115; 45; 115; 116; 114; 101; 97; 109; 0].
Definition BTRFS_SEND_STREAM_VERSION : Z := 1.
Definition BTRFS_SEND_BUF_SIZE : Z := 1024 * 64.

Definition sizeof_stream_header : Z := 17.
Definition sizeof_cmd_header : Z := 10.
Definition sizeof_tlv_header : Z := 4.
Definition sizeof_timespec : Z := 12.

Definition cmd_header_len (b : buf) (off : Z) : Z := get_le 4 b off.
Definition cmd_header_cmd (b : buf) (off : Z) : Z := get_le 2 b (off + 4).
Definition cmd_header_crc (b : buf) (off : Z) : Z := get_le 4 b (off + 6).
Definition set_cmd_header_crc (b : buf) (off v : Z) : buf := put_le 4 (off + 6) v b.
Definition tlv_header_type (b : buf) (off : Z) : Z := get_le 2 b off.
Definition tlv_header_len (b : buf) (off : Z) : Z := get_le 2 b (off + 2).

Definition BTRFS_SEND_C_SUBVOL : Z := 1.
Definition BTRFS_SEND_C_SNAPSHOT : Z := 2.
Definition BTRFS_SEND_C_MKFILE : Z := 3.
Definition BTRFS_SEND_C_MKDIR : Z := 4.
Definition BTRFS_SEND_C_MKNOD : Z := 5.
Definition BTRFS_SEND_C_MKFIFO : Z := 6.
Definition BTRFS_SEND_C_MKSOCK : Z := 7.
Definition BTRFS_SEND_C_SYMLINK : Z := 8.
Definition BTRFS_SEND_C_RENAME : Z := 9.
Definition BTRFS_SEND_C_LINK : Z := 10.
Definition BTRFS_SEND_C_UNLINK : Z := 11.
Definition BTRFS_SEND_C_RMDIR : Z := 12.
Definition BTRFS_SEND_C_SET_XATTR : Z := 13.
Definition BTRFS_SEND_C_REMOVE_XATTR : Z := 14.
Definition BTRFS_SEND_C_WRITE : Z := 15.
Definition BTRFS_SEND_C_CLONE : Z := 16.
Definition BTRFS_SEND_C_TRUNCATE : Z := 17.
Definition BTRFS_SEND_C_CHMOD : Z := 18.
Definition BTRFS_SEND_C_CHOWN : Z := 19.
Definition BTRFS_SEND_C_UTIMES : Z := 20.
Definition BTRFS_SEND_C_END : Z := 21.
Definition BTRFS_SEND_C_UPDATE_EXTENT : Z := 22.

Definition BTRFS_SEND_A_UUID : Z := 1.
Definition BTRFS_SEND_A_CTRANSID : Z := 2.
Definition BTRFS_SEND_A_SIZE : Z := 4.
Definition BTRFS_SEND_A_MODE : Z := 5.
Definition BTRFS_SEND_A_UID : Z := 6.
Definition BTRFS_SEND_A_GID : Z := 7.
Definition BTRFS_SEND_A_RDEV : Z := 8.
Definition BTRFS_SEND_A_CTIME : Z := 9.
Definition BTRFS_SEND_A_MTIME : Z := 10.
Definition BTRFS_SEND_A_ATIME : Z := 11.
Definition BTRFS_SEND_A_XATTR_NAME : Z := 13.
Definition BTRFS_SEND_A_XATTR_DATA : Z := 14.
Definition BTRFS_SEND_A_PATH : Z := 15.
Definition BTRFS_SEND_A_PATH_TO : Z := 16.
Definition BTRFS_SEND_A_PATH_LINK : Z := 17.
Definition BTRFS_SEND_A_FILE_OFFSET : Z := 18.
Definition BTRFS_SEND_A_DATA : Z := 19.
Definition BTRFS_SEND_A_CLONE_UUID : Z := 20.
Definition BTRFS_SEND_A_CLONE_CTRANSID : Z := 21.
Definition BTRFS_SEND_A_CLONE_PATH : Z := 22.
Definition BTRFS_SEND_A_CLONE_OFFSET : Z := 23.
Definition BTRFS_SEND_A_CLONE_LEN : Z := 24.
Definition BTRFS_SEND_A_MAX : Z := 24.

(** ** The operations of the receiver

    [struct btrfs_send_ops], [src/send-stream.h]: one constructor for each
    function pointer, with its arguments.  A path is the bytes of the string in
    front of the terminating zero that [tlv_get_string] puts behind them. *)
Record timespec := Timespec { tv_sec : Z; tv_nsec : Z }.

Inductive send_op :=
| Op_subvol (path uuid : list Z) (ctransid : Z)
| Op_snapshot (path uuid : list Z) (ctransid : Z) (parent_uuid : list Z) (parent_ctransid : Z)
| Op_mkfile (path : list Z)
| Op_mkdir (path : list Z)
| Op_mknod (path : list Z) (mode dev : Z)
| Op_mkfifo (path : list Z)
| Op_mksock (path : list Z)
| Op_symlink (path lnk : list Z)
| Op_rename (from to : list Z)
| Op_link (path lnk : list Z)
| Op_unlink (path : list Z)
| Op_rmdir (path : list Z)
| Op_write (path data : list Z) (offset len : Z)
| Op_clone (path : list Z) (offset len : Z) (clone_uuid : list Z) (clone_ctransid : Z) (clone_path : list Z) (clone_offset : Z)
| Op_set_xattr (path name data : list Z) (len : Z)
| Op_remove_xattr (path name : list Z)
| Op_truncate (path : list Z) (size : Z)
| Op_chmod (path : list Z) (mode : Z)
| Op_chown (path : list Z) (uid gid : Z)
| Op_utimes (path : list Z) (at_ mt ct : timespec)
| Op_update_extent (path : list Z) (offset len : Z).

(** ** Reading from the descriptor

    What [read] does with the bytes that are left: it returns some of those asked
    for, at least one, or fails.  Past [fi_reads] it returns all that it can. *)
Inductive read_result := Got (more : nat) | Failed (errno : Z).

Record fd_input := FdInput { fi_bytes : list Z; fi_reads : list read_result }.

(** [ret], negative for an error, and the bytes. *)
Definition read_fd (i : fd_input) (len : Z) : Z * list Z * fd_input :=
  match fi_reads i with
  | Failed errno :: reads => (- errno, [], FdInput (fi_bytes i) reads)
  | Got more :: reads =>
      let n := Nat.min (S more) (Z.to_nat len) in
      let l := take n (fi_bytes i) in (Z.of_nat (length l), l, FdInput (drop n (fi_bytes i)) reads)
  | [] =>
      let n := Z.to_nat len in
      let l := take n (fi_bytes i) in (Z.of_nat (length l), l, FdInput (drop n (fi_bytes i)) [])
  end.

Section Send.
Context {U : Type} (ops : send_op -> U -> Z * U).

(** [struct btrfs_send_stream]: [s_attrs] has the place in [read_buf] of the
    header of each attribute. *)
Record send_stream := SendStream {
  s_fd : fd_input;
  s_read_buf : buf;
  s_cmd : Z;
  s_attrs : gmap Z Z;
  s_version : Z;
  s_user : U;
  s_mallocs : nat;
}.
Open Scope act_scope.

Definition set_fd (i : fd_input) : act send_stream unit := modify (fun s =>
  SendStream i (s_read_buf s) (s_cmd s) (s_attrs s) (s_version s) (s_user s) (s_mallocs s)).
Definition set_read_buf (b : buf) : act send_stream unit := modify (fun s =>
  SendStream (s_fd s) b (s_cmd s) (s_attrs s) (s_version s) (s_user s) (s_mallocs s)).
Definition set_cmd (c : Z) : act send_stream unit := modify (fun s =>
  SendStream (s_fd s) (s_read_buf s) c (s_attrs s) (s_version s) (s_user s) (s_mallocs s)).
Definition set_attrs (m : gmap Z Z) : act send_stream unit := modify (fun s =>
  SendStream (s_fd s) (s_read_buf s) (s_cmd s) m (s_version s) (s_user s) (s_mallocs s)).
Definition set_version (v : Z) : act send_stream unit := modify (fun s =>
  SendStream (s_fd s) (s_read_buf s) (s_cmd s) (s_attrs s) v (s_user s) (s_mallocs s)).

(** The loop of [read_buf]: 0, 1 at the end of the file, or an error, with the
    bytes that were read.  There is a round for every byte. *)
Fixpoint read_buf_loop (fuel : nat) (len : Z) : act send_stream (Z * list Z) :=
  if len <=? 0 then ret (0, [])
  else
    match fuel with
    | O => bug
    | S fuel =>
        i <- gets s_fd ;;
        let '(r, l, i) := read_fd i len in
        set_fd i ;;;
        if r <? 0 then ret (r, [])
        else if r =? 0 then ret (1, [])
        else
          rest <- read_buf_loop fuel (len - r) ;;
          ret (rest.1, l ++ rest.2)
    end.

Definition read_buf (len : Z) : act send_stream (Z * list Z) := read_buf_loop (S (Z.to_nat len)) len.

(** Into [read_buf] at [off]; what does not fit is written behind the array. *)
Definition read_into (off len : Z) : act send_stream Z :=
  r <- read_buf len ;;
  bug_on (BTRFS_SEND_BUF_SIZE <? off + Z.of_nat (length r.2)) ;;;
  b <- gets s_read_buf ;;
  set_read_buf (write_extent_buffer b r.2 off) ;;;
  ret r.1.

(** ** Commands *)

(** The loop of [read_cmd] over the attributes.  A header that is not inside the
    array is read from behind it. *)
Fixpoint attrs_loop (fuel : nat) (data pos cmd_len : Z) : act send_stream Z :=
  if cmd_len <=? pos then ret 0
  else
    match fuel with
    | O => bug
    | S fuel =>
        bug_on (BTRFS_SEND_BUF_SIZE <? data + sizeof_tlv_header) ;;;
        b <- gets s_read_buf ;;
        let tlv_type := tlv_header_type b data in
        let tlv_len := tlv_header_len b data in
        if (tlv_type <=? 0) || (BTRFS_SEND_A_MAX <? tlv_type) || (tlv_len <? 0) || (BTRFS_SEND_BUF_SIZE <? tlv_len) then ret (- EINVAL)
        else
          m <- gets s_attrs ;;
          set_attrs (<[tlv_type := data]> m) ;;;
          attrs_loop fuel (data + (sizeof_tlv_header + tlv_len)) (pos + (sizeof_tlv_header + tlv_len)) cmd_len
    end.

(** [cmd_len] is an [int]; the length of the sum is a [size_t]. *)
Definition read_cmd : act send_stream Z :=
  set_attrs ∅ ;;;
  r <- read_into 0 sizeof_cmd_header ;;
  if r <? 0 then ret r
  else if negb (r =? 0) then ret (- EINVAL)
  else
    b <- gets s_read_buf ;;
    let cmd := cmd_header_cmd b 0 in
    let cmd_len := s32 (cmd_header_len b 0) in
    r <- read_into sizeof_cmd_header cmd_len ;;
    if r <? 0 then ret r
    else if negb (r =? 0) then ret (- EINVAL)
    else
      b <- gets s_read_buf ;;
      let crc := cmd_header_crc b 0 in
      let b := set_cmd_header_crc b 0 0 in
      set_read_buf b ;;;
      let n := u64 (sizeof_cmd_header + cmd_len) in
      bug_on (BTRFS_SEND_BUF_SIZE <? n) ;;;
      if negb (crc =? __crc32c_le 0 (read_extent_buffer b 0 (Z.to_nat n))) then ret (- EINVAL)
      else
        r <- attrs_loop (Z.to_nat cmd_len) sizeof_cmd_header 0 cmd_len ;;
        if r <? 0 then ret r
        else set_cmd cmd ;;; ret 0.

(** ** Attributes

    Getting one gives its value or an error code: the macros go to
    [tlv_get_failed] for the latter. *)
Definition tlv (A : Type) : Type := act send_stream (A + Z).

Definition tlv_bind {A B} (c : tlv A) (k : A -> tlv B) : tlv B :=
  r <- c ;; match r with inl a => k a | inr e => ret (inr e) end.
Notation "x <~ c ;; k" := (tlv_bind c (fun x => k)) (at level 100, c at next level, right associativity) : act_scope.

(** The place of the data and its length. *)
Definition tlv_get (attr : Z) : tlv (Z * Z) :=
  if (attr <=? 0) || (BTRFS_SEND_A_MAX <? attr) then ret (inr (- EINVAL))
  else
    m <- gets s_attrs ;;
    match m !! attr with
    | None => ret (inr (- ENOENT))
    | Some h => b <- gets s_read_buf ;; ret (inl (h + sizeof_tlv_header, tlv_header_len b h))
    end.

(** The bytes, which may reach behind the array. *)
Definition tlv_bytes (p len : Z) : act send_stream (list Z) :=
  bug_on (BTRFS_SEND_BUF_SIZE <? p + len) ;;;
  b <- gets s_read_buf ;;
  ret (read_extent_buffer b p (Z.to_nat len)).

Definition tlv_check_len (expected got : Z) : tlv unit := if negb (expected =? got) then ret (inr (- EINVAL)) else ret (inl tt).

Definition tlv_get_u64 (attr : Z) : tlv Z :=
  d <~ tlv_get attr ;;
  _ <~ tlv_check_len 8 d.2 ;;
  bug_on (BTRFS_SEND_BUF_SIZE <? d.1 + 8) ;;;
  b <- gets s_read_buf ;;
  ret (inl (get_le 8 b d.1)).

Definition send_malloc : act send_stream bool := fun s =>
  match s_mallocs s with
  | O => Some (false, s)
  | S n => Some (true, SendStream (s_fd s) (s_read_buf s) (s_cmd s) (s_attrs s) (s_version s) (s_user s) n)
  end.

Definition tlv_get_string (attr : Z) : tlv (list Z) :=
  d <~ tlv_get attr ;;
  m <- send_malloc ;;
  if negb m then ret (inr (- ENOMEM))
  else l <- tlv_bytes d.1 d.2 ;; ret (inl l).

(** The value a 64-bit [time_t] takes. *)
Definition s64 (x : Z) : Z := (x + 2 ^ 63) `mod` 2 ^ 64 - 2 ^ 63.

Definition tlv_get_timespec (attr : Z) : tlv timespec :=
  d <~ tlv_get attr ;;
  _ <~ tlv_check_len sizeof_timespec d.2 ;;
  bug_on (BTRFS_SEND_BUF_SIZE <? d.1 + sizeof_timespec) ;;;
  b <- gets s_read_buf ;;
  ret (inl (Timespec (s64 (get_le 8 b d.1)) (get_le 4 b (d.1 + 8)))).

Definition tlv_get_uuid (attr : Z) : tlv (list Z) :=
  d <~ tlv_get attr ;;
  _ <~ tlv_check_len BTRFS_UUID_SIZE d.2 ;;
  l <- tlv_bytes d.1 BTRFS_UUID_SIZE ;;
  ret (inl l).

(** The data of an attribute, of whatever length. *)
Definition tlv_get_data (attr : Z) : tlv (list Z * Z) :=
  d <~ tlv_get attr ;;
  l <- tlv_bytes d.1 d.2 ;;
  ret (inl (l, d.2)).

Definition call_op (op : send_op) : tlv Z := fun s =>
  let (r, u) := ops op (s_user s) in
  Some (inl r, SendStream (s_fd s) (s_read_buf s) (s_cmd s) (s_attrs s) (s_version s) u (s_mallocs s)).


(** The switch of [read_and_process_cmd].  A command of another number is passed
    over.  The length of a clone goes through an [int]. *)
Definition process_cmd (cmd : Z) : tlv Z :=
  if cmd =? BTRFS_SEND_C_SUBVOL then
    path <~ tlv_get_string BTRFS_SEND_A_PATH ;;
    uuid <~ tlv_get_uuid BTRFS_SEND_A_UUID ;;
    ctransid <~ tlv_get_u64 BTRFS_SEND_A_CTRANSID ;;
    call_op (Op_subvol path uuid ctransid)
  else if cmd =? BTRFS_SEND_C_SNAPSHOT then
    path <~ tlv_get_string BTRFS_SEND_A_PATH ;;
    uuid <~ tlv_get_uuid BTRFS_SEND_A_UUID ;;
    ctransid <~ tlv_get_u64 BTRFS_SEND_A_CTRANSID ;;
    clone_uuid <~ tlv_get_uuid BTRFS_SEND_A_CLONE_UUID ;;
    clone_ctransid <~ tlv_get_u64 BTRFS_SEND_A_CLONE_CTRANSID ;;
    call_op (Op_snapshot path uuid ctransid clone_uuid clone_ctransid)
  else if cmd =? BTRFS_SEND_C_MKFILE then
    path <~ tlv_get_string BTRFS_SEND_A_PATH ;;
    call_op (Op_mkfile path)
  else if cmd =? BTRFS_SEND_C_MKDIR then
    path <~ tlv_get_string BTRFS_SEND_A_PATH ;;
    call_op (Op_mkdir path)
  else if cmd =? BTRFS_SEND_C_MKNOD then
    path <~ tlv_get_string BTRFS_SEND_A_PATH ;;
    mode <~ tlv_get_u64 BTRFS_SEND_A_MODE ;;
    dev <~ tlv_get_u64 BTRFS_SEND_A_RDEV ;;
    call_op (Op_mknod path mode dev)
  else if cmd =? BTRFS_SEND_C_MKFIFO then
    path <~ tlv_get_string BTRFS_SEND_A_PATH ;;
    call_op (Op_mkfifo path)
  else if cmd =? BTRFS_SEND_C_MKSOCK then
    path <~ tlv_get_string BTRFS_SEND_A_PATH ;;
    call_op (Op_mksock path)
  else if cmd =? BTRFS_SEND_C_SYMLINK then
    path <~ tlv_get_string BTRFS_SEND_A_PATH ;;
    path_to <~ tlv_get_string BTRFS_SEND_A_PATH_LINK ;;
    call_op (Op_symlink path path_to)
  else if cmd =? BTRFS_SEND_C_RENAME then
    path <~ tlv_get_string BTRFS_SEND_A_PATH ;;
    path_to <~ tlv_get_string BTRFS_SEND_A_PATH_TO ;;
    call_op (Op_rename path path_to)
  else if cmd =? BTRFS_SEND_C_LINK then
    path <~ tlv_get_string BTRFS_SEND_A_PATH ;;
    path_to <~ tlv_get_string BTRFS_SEND_A_PATH_LINK ;;
    call_op (Op_link path path_to)
  else if cmd =? BTRFS_SEND_C_UNLINK then
    path <~ tlv_get_string BTRFS_SEND_A_PATH ;;
    call_op (Op_unlink path)
  else if cmd =? BTRFS_SEND_C_RMDIR then
    path <~ tlv_get_string BTRFS_SEND_A_PATH ;;
    call_op (Op_rmdir path)
  else if cmd =? BTRFS_SEND_C_WRITE then
    path <~ tlv_get_string BTRFS_SEND_A_PATH ;;
    offset <~ tlv_get_u64 BTRFS_SEND_A_FILE_OFFSET ;;
    data <~ tlv_get_data BTRFS_SEND_A_DATA ;;
    call_op (Op_write path data.1 offset data.2)
  else if cmd =? BTRFS_SEND_C_CLONE then
    path <~ tlv_get_string BTRFS_SEND_A_PATH ;;
    offset <~ tlv_get_u64 BTRFS_SEND_A_FILE_OFFSET ;;
    len <~ tlv_get_u64 BTRFS_SEND_A_CLONE_LEN ;;
    clone_uuid <~ tlv_get_uuid BTRFS_SEND_A_CLONE_UUID ;;
    clone_ctransid <~ tlv_get_u64 BTRFS_SEND_A_CLONE_CTRANSID ;;
    clone_path <~ tlv_get_string BTRFS_SEND_A_CLONE_PATH ;;
    clone_offset <~ tlv_get_u64 BTRFS_SEND_A_CLONE_OFFSET ;;
    call_op (Op_clone path offset (u64 (s32 len)) clone_uuid clone_ctransid clone_path clone_offset)
  else if cmd =? BTRFS_SEND_C_SET_XATTR then
    path <~ tlv_get_string BTRFS_SEND_A_PATH ;;
    xattr_name <~ tlv_get_string BTRFS_SEND_A_XATTR_NAME ;;
    xattr_data <~ tlv_get_data BTRFS_SEND_A_XATTR_DATA ;;
    call_op (Op_set_xattr path xattr_name xattr_data.1 xattr_data.2)
  else if cmd =? BTRFS_SEND_C_REMOVE_XATTR then
    path <~ tlv_get_string BTRFS_SEND_A_PATH ;;
    xattr_name <~ tlv_get_string BTRFS_SEND_A_XATTR_NAME ;;
    call_op (Op_remove_xattr path xattr_name)
  else if cmd =? BTRFS_SEND_C_TRUNCATE then
    path <~ tlv_get_string BTRFS_SEND_A_PATH ;;
    tmp <~ tlv_get_u64 BTRFS_SEND_A_SIZE ;;
    call_op (Op_truncate path tmp)
  else if cmd =? BTRFS_SEND_C_CHMOD then
    path <~ tlv_get_string BTRFS_SEND_A_PATH ;;
    tmp <~ tlv_get_u64 BTRFS_SEND_A_MODE ;;
    call_op (Op_chmod path tmp)
  else if cmd =? BTRFS_SEND_C_CHOWN then
    path <~ tlv_get_string BTRFS_SEND_A_PATH ;;
    tmp <~ tlv_get_u64 BTRFS_SEND_A_UID ;;
    tmp2 <~ tlv_get_u64 BTRFS_SEND_A_GID ;;
    call_op (Op_chown path tmp tmp2)
  else if cmd =? BTRFS_SEND_C_UTIMES then
    path <~ tlv_get_string BTRFS_SEND_A_PATH ;;
    at_ <~ tlv_get_timespec BTRFS_SEND_A_ATIME ;;
    mt <~ tlv_get_timespec BTRFS_SEND_A_MTIME ;;
    ct <~ tlv_get_timespec BTRFS_SEND_A_CTIME ;;
    call_op (Op_utimes path at_ mt ct)
  else if cmd =? BTRFS_SEND_C_UPDATE_EXTENT then
    path <~ tlv_get_string BTRFS_SEND_A_PATH ;;
    offset <~ tlv_get_u64 BTRFS_SEND_A_FILE_OFFSET ;;
    tmp <~ tlv_get_u64 BTRFS_SEND_A_SIZE ;;
    call_op (Op_update_extent path offset tmp)
  else if cmd =? BTRFS_SEND_C_END then ret (inl 1)
  else ret (inl 0).

Definition read_and_process_cmd : act send_stream Z :=
  r <- read_cmd ;;
  if negb (r =? 0) then ret r
  else
    cmd <- gets s_cmd ;;
    v <- process_cmd cmd ;;
    ret (match v with inl r | inr r => r end).

(** The loop runs on [fuel], a unit for each command. *)
Fixpoint cmds_loop (fuel : nat) (honor_end_cmd : bool) : act send_stream Z :=
  match fuel with
  | O => bug
  | S fuel =>
      r <- read_and_process_cmd ;;
      if r <? 0 then ret r
      else if negb (r =? 0) then ret (if honor_end_cmd then r else 0)
      else cmds_loop fuel honor_end_cmd
  end.

Definition btrfs_read_and_process_send_stream (fuel : nat) (honor_end_cmd : bool) : act send_stream Z :=
  r <- read_buf sizeof_stream_header ;;
  if r.1 <? 0 then ret r.1
  else if negb (r.1 =? 0) then ret 1
  else
    let hdr := write_extent_buffer (fun _ => 0) r.2 0 in
    if negb (memcmp_extent_buffer hdr BTRFS_SEND_STREAM_MAGIC 0) then ret (- EINVAL)
    else
      let version := get_le 4 hdr 13 in
      set_version version ;;;
      if BTRFS_SEND_STREAM_VERSION <? version then ret (- EINVAL)
      else cmds_loop fuel honor_end_cmd.
End Send.
Arguments send_stream : clear implicits.
