(* ===== verification/SendProps.v ===== *)
(** What receiving a send stream does: it replays the operations that were
    encoded, however the bytes arrive, and refuses a command with a wrong byte. *)

From S2P Require Import Prelude Buf CtreeFmt ItemFmt Crc SendStream.

(** ** The encoding *)

Definition tlv_bytes_of (a : Z * list Z) : list Z := le_bytes 2 a.1 ++ le_bytes 2 (Z.of_nat (length a.2)) ++ a.2.
Definition payload (attrs : list (Z * list Z)) : list Z := concat (tlv_bytes_of <$> attrs).
Definition cmd_bytes (c : Z) (p : list Z) (crc : Z) : list Z :=
  le_bytes 4 (Z.of_nat (length p)) ++ le_bytes 2 c ++ le_bytes 4 crc ++ p.
Definition encode (c : Z) (attrs : list (Z * list Z)) : list Z :=
  cmd_bytes c (payload attrs) (__crc32c_le 0 (cmd_bytes c (payload attrs) 0)).

Definition op_cmd (op : send_op) : Z :=
  match op with
  | Op_subvol _ _ _ => BTRFS_SEND_C_SUBVOL
  | Op_snapshot _ _ _ _ _ => BTRFS_SEND_C_SNAPSHOT
  | Op_mkfile _ => BTRFS_SEND_C_MKFILE
  | Op_mkdir _ => BTRFS_SEND_C_MKDIR
  | Op_mknod _ _ _ => BTRFS_SEND_C_MKNOD
  | Op_mkfifo _ => BTRFS_SEND_C_MKFIFO
  | Op_mksock _ => BTRFS_SEND_C_MKSOCK
  | Op_symlink _ _ => BTRFS_SEND_C_SYMLINK
  | Op_rename _ _ => BTRFS_SEND_C_RENAME
  | Op_link _ _ => BTRFS_SEND_C_LINK
  | Op_unlink _ => BTRFS_SEND_C_UNLINK
  | Op_rmdir _ => BTRFS_SEND_C_RMDIR
  | Op_write _ _ _ _ => BTRFS_SEND_C_WRITE
  | Op_clone _ _ _ _ _ _ _ => BTRFS_SEND_C_CLONE
  | Op_set_xattr _ _ _ _ => BTRFS_SEND_C_SET_XATTR
  | Op_remove_xattr _ _ => BTRFS_SEND_C_REMOVE_XATTR
  | Op_truncate _ _ => BTRFS_SEND_C_TRUNCATE
  | Op_chmod _ _ => BTRFS_SEND_C_CHMOD
  | Op_chown _ _ _ => BTRFS_SEND_C_CHOWN
  | Op_utimes _ _ _ _ => BTRFS_SEND_C_UTIMES
  | Op_update_extent _ _ _ => BTRFS_SEND_C_UPDATE_EXTENT
  end.

Definition time_bytes (t : timespec) : list Z := le_bytes 8 (tv_sec t) ++ le_bytes 4 (tv_nsec t).

(** The attributes an operation needs. *)
Definition op_attrs (op : send_op) : list (Z * list Z) :=
  match op with
  | Op_subvol path uuid ctransid => [(BTRFS_SEND_A_PATH, path); (BTRFS_SEND_A_UUID, uuid); (BTRFS_SEND_A_CTRANSID, le_bytes 8 ctransid)]
  | Op_snapshot path uuid ctransid puuid pctransid =>
      [(BTRFS_SEND_A_PATH, path); (BTRFS_SEND_A_UUID, uuid); (BTRFS_SEND_A_CTRANSID, le_bytes 8 ctransid);
       (BTRFS_SEND_A_CLONE_UUID, puuid); (BTRFS_SEND_A_CLONE_CTRANSID, le_bytes 8 pctransid)]
  | Op_mkfile path | Op_mkdir path | Op_mkfifo path | Op_mksock path | Op_unlink path | Op_rmdir path => [(BTRFS_SEND_A_PATH, path)]
  | Op_mknod path mode dev => [(BTRFS_SEND_A_PATH, path); (BTRFS_SEND_A_MODE, le_bytes 8 mode); (BTRFS_SEND_A_RDEV, le_bytes 8 dev)]
  | Op_symlink path lnk | Op_link path lnk => [(BTRFS_SEND_A_PATH, path); (BTRFS_SEND_A_PATH_LINK, lnk)]
  | Op_rename from to => [(BTRFS_SEND_A_PATH, from); (BTRFS_SEND_A_PATH_TO, to)]
  | Op_write path data offset _ => [(BTRFS_SEND_A_PATH, path); (BTRFS_SEND_A_FILE_OFFSET, le_bytes 8 offset); (BTRFS_SEND_A_DATA, data)]
  | Op_clone path offset len uuid ctransid cpath coffset =>
      [(BTRFS_SEND_A_PATH, path); (BTRFS_SEND_A_FILE_OFFSET, le_bytes 8 offset); (BTRFS_SEND_A_CLONE_LEN, le_bytes 8 len);
       (BTRFS_SEND_A_CLONE_UUID, uuid); (BTRFS_SEND_A_CLONE_CTRANSID, le_bytes 8 ctransid); (BTRFS_SEND_A_CLONE_PATH, cpath);
       (BTRFS_SEND_A_CLONE_OFFSET, le_bytes 8 coffset)]
  | Op_set_xattr path name data _ => [(BTRFS_SEND_A_PATH, path); (BTRFS_SEND_A_XATTR_NAME, name); (BTRFS_SEND_A_XATTR_DATA, data)]
  | Op_remove_xattr path name => [(BTRFS_SEND_A_PATH, path); (BTRFS_SEND_A_XATTR_NAME, name)]
  | Op_truncate path size => [(BTRFS_SEND_A_PATH, path); (BTRFS_SEND_A_SIZE, le_bytes 8 size)]
  | Op_chmod path mode => [(BTRFS_SEND_A_PATH, path); (BTRFS_SEND_A_MODE, le_bytes 8 mode)]
  | Op_chown path uid gid => [(BTRFS_SEND_A_PATH, path); (BTRFS_SEND_A_UID, le_bytes 8 uid); (BTRFS_SEND_A_GID, le_bytes 8 gid)]
  | Op_utimes path a m c =>
      [(BTRFS_SEND_A_PATH, path); (BTRFS_SEND_A_ATIME, time_bytes a); (BTRFS_SEND_A_MTIME, time_bytes m); (BTRFS_SEND_A_CTIME, time_bytes c)]
  | Op_update_extent path offset len => [(BTRFS_SEND_A_PATH, path); (BTRFS_SEND_A_FILE_OFFSET, le_bytes 8 offset); (BTRFS_SEND_A_SIZE, le_bytes 8 len)]
  end.

(** Numbers in range.  The length of a clone is one that an [int] holds. *)
Definition u64_in (v : Z) : Prop := 0 <= v < 2 ^ 64.
Definition time_ok (t : timespec) : Prop := - 2 ^ 63 <= tv_sec t < 2 ^ 63 /\ 0 <= tv_nsec t < 2 ^ 32.
Definition op_ok (op : send_op) : Prop :=
  match op with
  | Op_subvol _ uuid ctransid => length uuid = 16%nat /\ u64_in ctransid
  | Op_snapshot _ uuid ctransid puuid pctransid => (length uuid = 16%nat /\ length puuid = 16%nat) /\ u64_in ctransid /\ u64_in pctransid
  | Op_mknod _ mode dev => u64_in mode /\ u64_in dev
  | Op_write _ data offset len => u64_in offset /\ len = Z.of_nat (length data)
  | Op_clone _ offset len uuid ctransid _ coffset => length uuid = 16%nat /\ u64_in offset /\ 0 <= len < 2 ^ 31 /\ u64_in ctransid /\ u64_in coffset
  | Op_set_xattr _ _ data len => len = Z.of_nat (length data)
  | Op_truncate _ v | Op_chmod _ v => u64_in v
  | Op_chown _ uid gid => u64_in uid /\ u64_in gid
  | Op_utimes _ a m c => time_ok a /\ time_ok m /\ time_ok c
  | Op_update_extent _ offset len => u64_in offset /\ u64_in len
  | _ => True
  end.

(** The attributes of a command: in any order, with others among them. *)
Record attrs_for (op : send_op) (attrs : list (Z * list Z)) : Prop := {
  af_keys : forall a d, (a, d) ∈ attrs -> 0 < a <= BTRFS_SEND_A_MAX;
  af_once : NoDup attrs.*1;
  af_bytes : forall a d, (a, d) ∈ attrs -> Forall is_byte d;
  af_has : op_attrs op ⊆ attrs;
  af_fits : sizeof_cmd_header + Z.of_nat (length (payload attrs)) <= BTRFS_SEND_BUF_SIZE;
}.

(** ** Reading *)

Section Run.
Context {U : Type} (ops : send_op -> U -> Z * U).
Implicit Types (s : send_stream U) (l : list Z).

Definition is_got (r : read_result) : Prop := match r with Got _ => True | Failed _ => False end.

(** The descriptor holds the bytes [l] and has no error ahead. *)
Definition holds_bytes s l : Prop := fi_bytes (s_fd s) = l /\ Forall is_got (fi_reads (s_fd s)).

Definition with_fd s (i : fd_input) : send_stream U :=
  SendStream i (s_read_buf s) (s_cmd s) (s_attrs s) (s_version s) (s_user s) (s_mallocs s).

Lemma read_buf_loop_run fuel s l rest :
  holds_bytes s (l ++ rest) -> (length l < fuel)%nat ->
  exists reads, read_buf_loop fuel (Z.of_nat (length l)) s = Some (0, l, with_fd s (FdInput rest reads)) /\ Forall is_got reads.
Proof.
  revert s l. induction fuel as [|fuel IH]; intros s l [Hb Hr] Hf; [lia|]. cbn [read_buf_loop].
  destruct l as [|x l]; [exists (fi_reads (s_fd s)); split; [destruct s as [[]]; cbn in *; by subst|done]|].
  destruct (Z.leb_spec (Z.of_nat (length (x :: l))) 0); [simpl in *; lia|].
  rewrite (bind_some _ _ s (s_fd s) s) by done.
  assert (Hread : exists k reads, read_fd (s_fd s) (Z.of_nat (length (x :: l))) =
     (Z.of_nat (S k), take (S k) (x :: l), FdInput (drop (S k) (x :: l) ++ rest) reads) /\ (k <= length l)%nat /\ Forall is_got reads).
  { unfold read_fd. rewrite Hb, Nat2Z.id.
    assert (Hn : forall n, (1 <= n <= length (x :: l))%nat -> (length (take n ((x :: l) ++ rest)) = n /\
      take n ((x :: l) ++ rest) = take n (x :: l) /\ drop n ((x :: l) ++ rest) = drop n (x :: l) ++ rest)).
    { intros n Hn. rewrite take_app_le, drop_app_le by lia. rewrite length_take. split_and!; [lia|done..]. }
    destruct (fi_reads (s_fd s)) as [|[more|errno] reads].
    - exists (length l), []. destruct (Hn (length (x :: l))) as (H1 & H2 & H3); [simpl; lia|]. rewrite H1, H2, H3. by split_and!.
    - apply Forall_cons in Hr as [_ Hr]. exists (Nat.min more (length l)), reads. cbv zeta. change (length (x :: l)) with (S (length l)). rewrite <- Nat.succ_min_distr.
      destruct (Hn (S (Nat.min more (length l)))) as (H1 & H2 & H3); [simpl; lia|]. rewrite H1, H2, H3. split_and!; [done|lia|done].
    - by apply Forall_cons in Hr as [[] _]. }
  destruct Hread as (k & reads & -> & Hk & Hg). cbn [fst snd].
  set (s1 := with_fd s (FdInput (drop (S k) (x :: l) ++ rest) reads)). rewrite (bind_some _ _ s tt s1) by done.
  rewrite (proj2 (Z.ltb_ge _ _)), (proj2 (Z.eqb_neq _ _)) by lia.
  destruct (IH s1 (drop (S k) (x :: l))) as (reads' & Hrun & Hg'); [by split|rewrite length_drop; simpl in *; lia|].
  assert (Hlen : Z.of_nat (length (drop (S k) (x :: l))) = Z.of_nat (length (x :: l)) - Z.of_nat (S k)) by (rewrite length_drop; simpl; lia).
  rewrite Hlen in Hrun. rewrite (bind_some _ _ _ _ _ Hrun). exists reads'. split; [|done]. cbn [fst snd]. by rewrite take_drop.
Qed.

Lemma read_buf_run s l rest : holds_bytes s (l ++ rest) ->
  exists reads, read_buf (Z.of_nat (length l)) s = Some (0, l, with_fd s (FdInput rest reads)) /\ Forall is_got reads.
Proof. intros Hs. unfold read_buf. apply read_buf_loop_run; [done|lia]. Qed.

Definition with_read_buf s (b : buf) : send_stream U :=
  SendStream (s_fd s) b (s_cmd s) (s_attrs s) (s_version s) (s_user s) (s_mallocs s).

Lemma read_into_run s off l rest : holds_bytes s (l ++ rest) -> off + Z.of_nat (length l) <= BTRFS_SEND_BUF_SIZE ->
  exists reads, read_into off (Z.of_nat (length l)) s =
    Some (0, with_read_buf (with_fd s (FdInput rest reads)) (write_extent_buffer (s_read_buf s) l off)) /\ Forall is_got reads.
Proof.
  intros Hs Hfit. unfold read_into. destruct (read_buf_run s l rest Hs) as (reads & Hrun & Hg). rewrite (bind_some _ _ _ _ _ Hrun). cbn [fst snd].
  rewrite (proj2 (Z.ltb_ge _ _)) by lia. exists reads. split; [done|done].
Qed.

(** ** One command *)

Lemma cmd_bytes_length c p crc : length (cmd_bytes c p crc) = (10 + length p)%nat.
Proof. unfold cmd_bytes. by rewrite !length_app, !le_bytes_length. Qed.

Lemma cmd_bytes_read (b : buf) c p crc n :
  read_extent_buffer b 0 n = cmd_bytes c p crc -> Z.of_nat (length p) < 2 ^ 32 -> 0 <= c < 2 ^ 16 -> 0 <= crc < 2 ^ 32 ->
  cmd_header_len b 0 = Z.of_nat (length p) /\ cmd_header_cmd b 0 = c /\ cmd_header_crc b 0 = crc /\
  read_extent_buffer (set_cmd_header_crc b 0 0) 0 n = cmd_bytes c p 0 /\
  read_extent_buffer (set_cmd_header_crc b 0 0) 10 (length p) = p.
Proof.
  intros Hr Hp Hc Hcrc. assert (Hn : n = (10 + length p)%nat) by (by rewrite <- (cmd_bytes_length c p crc), <- Hr, read_length). subst n.
  unfold cmd_bytes in Hr. apply read_split in Hr as [H1 Hr]. apply read_split in Hr as [H2 Hr]. apply read_split in Hr as [H3 H4].
  rewrite !le_bytes_length in *. change (0 + Z.of_nat 4) with 4 in *. change (4 + Z.of_nat 2) with 6 in *. change (6 + Z.of_nat 4) with 10 in *.
  assert (H4' : read_extent_buffer (set_cmd_header_crc b 0 0) 10 (length p) = p).
  { rewrite <- H4 at 2. apply read_same. intros x Hx. unfold set_cmd_header_crc, put_le. zbool; lia || done. }
  split_and!; [..|exact H4'].
  - unfold cmd_header_len. rewrite get_le_read, H1. apply le_val_id. cbn. lia.
  - unfold cmd_header_cmd. change (0 + 4) with 4. rewrite get_le_read, H2. apply le_val_id. cbn. lia.
  - unfold cmd_header_crc. change (0 + 6) with 6. rewrite get_le_read, H3. apply le_val_id. cbn. lia.
  - change (10 + length p)%nat with (4 + (2 + (4 + length p)))%nat. rewrite !read_app. unfold cmd_bytes.
    assert (Hlo : forall off m, 0 <= off -> off + Z.of_nat m <= 6 -> read_extent_buffer (set_cmd_header_crc b 0 0) off m = read_extent_buffer b off m).
    { intros off m H0 Hm. apply read_same. intros x Hx. unfold set_cmd_header_crc, put_le. zbool; lia || done. }
    change (0 + Z.of_nat 4) with 4. change (4 + Z.of_nat 2) with 6. change (6 + Z.of_nat 4) with 10.
    rewrite !Hlo by (cbn; lia). rewrite H1, H2, H4'.
    unfold set_cmd_header_crc. change (0 + 6) with 6. by rewrite read_put_le.
Qed.

(** The attribute with the data [d] has its header at [h]. *)
Definition attr_at (b : buf) (h : Z) (d : list Z) : Prop :=
  tlv_header_len b h = Z.of_nat (length d) /\ read_extent_buffer b (h + 4) (length d) = d /\ h + 4 + Z.of_nat (length d) <= BTRFS_SEND_BUF_SIZE.

Definition loaded s (attrs : list (Z * list Z)) : Prop :=
  forall a d, (a, d) ∈ attrs -> exists h, s_attrs s !! a = Some h /\ attr_at (s_read_buf s) h d.

Definition with_attrs s (m : gmap Z Z) : send_stream U :=
  SendStream (s_fd s) (s_read_buf s) (s_cmd s) m (s_version s) (s_user s) (s_mallocs s).

Lemma payload_cons a attrs : payload (a :: attrs) = tlv_bytes_of a ++ payload attrs.
Proof. done. Qed.

Lemma tlv_bytes_length a : Z.of_nat (length (tlv_bytes_of a)) = 4 + Z.of_nat (length a.2).
Proof. unfold tlv_bytes_of. rewrite !length_app, !le_bytes_length. lia. Qed.

Lemma attrs_loop_run attrs fuel s data pos :
  (forall a d, (a, d) ∈ attrs -> 0 < a <= BTRFS_SEND_A_MAX) -> NoDup attrs.*1 ->
  read_extent_buffer (s_read_buf s) data (length (payload attrs)) = payload attrs ->
  data + Z.of_nat (length (payload attrs)) <= BTRFS_SEND_BUF_SIZE -> 0 <= data -> (length (payload attrs) <= fuel)%nat ->
  exists m, attrs_loop fuel data pos (pos + Z.of_nat (length (payload attrs))) s = Some (0, with_attrs s m) /\
    loaded (with_attrs s m) attrs /\ forall a, a ∉ attrs.*1 -> m !! a = s_attrs s !! a.
Proof.
  revert fuel s data pos. induction attrs as [|[a d] attrs IH]; intros fuel s data pos Hkeys Hnd Hr Hfit Hdata Hf.
  - exists (s_attrs s). split; [|split; [by intros ? ? ?%elem_of_nil|done]].
    destruct s, fuel; cbn [attrs_loop]; by rewrite (proj2 (Z.leb_le _ _)) by (simpl; lia).
  - rewrite payload_cons in *. pose proof (tlv_bytes_length (a, d)) as Hlen. cbn [snd] in Hlen.
    rewrite length_app in *. destruct fuel as [|fuel]; [lia|]. cbn [attrs_loop].
    rewrite (proj2 (Z.leb_gt _ _)) by lia. unfold sizeof_tlv_header.
    rewrite (proj2 (Z.ltb_ge _ _)) by lia. rewrite (bind_some _ _ s tt s), (bind_some _ _ s (s_read_buf s) s) by done.
    apply read_split in Hr as [Ht Hrest]. unfold tlv_bytes_of in Ht. apply read_split in Ht as [Ht1 Ht]. apply read_split in Ht as [Ht2 Ht3].
    rewrite !le_bytes_length in *. cbn [fst snd] in *.
    pose proof (Hkeys a d (list_elem_of_here _ _)) as Ha. unfold BTRFS_SEND_A_MAX, BTRFS_SEND_BUF_SIZE in *.
    assert (Hty : tlv_header_type (s_read_buf s) data = a).
    { unfold tlv_header_type. rewrite get_le_read, Ht1. apply le_val_id. cbn. lia. }
    assert (Htl : tlv_header_len (s_read_buf s) data = Z.of_nat (length d)).
    { unfold tlv_header_len. change 2 with (Z.of_nat 2) at 1. rewrite get_le_read, Ht2. apply le_val_id. cbn. lia. }
    cbv zeta. rewrite Hty, Htl. rewrite (proj2 (Z.leb_gt a 0)), !(proj2 (Z.ltb_ge _ _)) by lia. cbn [orb].
    rewrite (bind_some _ _ s (s_attrs s) s) by done. set (s1 := with_attrs s (<[a := data]> (s_attrs s))). rewrite (bind_some _ _ s tt s1) by done.
    apply NoDup_cons in Hnd as [Hni Hnd].
    destruct (IH fuel s1 (data + (4 + Z.of_nat (length d))) (pos + (4 + Z.of_nat (length d)))) as (m & Hrun & Hload & Hother).
    + intros a' d' Hin. apply (Hkeys a' d'). by right.
    + done.
    + rewrite <- Hlen. exact Hrest.
    + lia.
    + lia.
    + lia.
    + exists m. split; [|split].
      * change (with_attrs s m) with (with_attrs s1 m). rewrite <- Hrun. f_equal. lia.
      * intros a' d' [Heq|Hin]%elem_of_cons; [|by apply Hload]. injection Heq as -> ->. exists data. split.
        -- cbn. rewrite Hother by exact Hni. apply lookup_insert_eq.
        -- split; [exact Htl|]. split; [|unfold BTRFS_SEND_BUF_SIZE; lia]. replace (data + 4) with (data + Z.of_nat 2 + Z.of_nat 2) by lia. exact Ht3.
      * intros a' Hin. rewrite Hother by (intros Hx; apply Hin; right; exact Hx). cbn. rewrite lookup_insert_ne; [done|].
        intros ->. apply Hin. left.
Qed.

Lemma le_bytes_ok n v : Forall is_byte (le_bytes n v).
Proof. revert v. induction n as [|n IH]; intros v; [constructor|]. constructor; [apply Z.mod_pos_bound; lia|apply IH]. Qed.

Lemma cmd_bytes_ok c p crc : Forall is_byte p -> Forall is_byte (cmd_bytes c p crc).
Proof. intros Hp. unfold cmd_bytes. rewrite !Forall_app. split_and!; [apply le_bytes_ok..|done]. Qed.

Lemma payload_ok attrs : (forall a d, (a, d) ∈ attrs -> Forall is_byte d) -> Forall is_byte (payload attrs).
Proof.
  induction attrs as [|[a d] attrs IH]; intros Hb; [constructor|]. rewrite payload_cons. apply Forall_app. split.
  - unfold tlv_bytes_of. rewrite !Forall_app. split_and!; [apply le_bytes_ok..|]. apply (Hb a d). left.
  - apply IH. intros a' d' Hin. apply (Hb a' d'). by right.
Qed.

Lemma sum_range l : Forall is_byte l -> 0 <= __crc32c_le 0 l < 2 ^ 32.
Proof. intros Hl. rewrite crc_table_ref by done. apply crc_ref_ok; [unfold crc_ok; lia|done]. Qed.

(** What is in [read_buf] when the length and the rest of a command were read. *)
Lemma read_parts_run s l1 l2 rest : holds_bytes s (l1 ++ l2 ++ rest) -> Z.of_nat (length (l1 ++ l2)) <= BTRFS_SEND_BUF_SIZE ->
  exists s1 s2, read_into 0 (Z.of_nat (length l1)) s = Some (0, s1) /\ read_extent_buffer (s_read_buf s1) 0 (length l1) = l1 /\
    read_into (Z.of_nat (length l1)) (Z.of_nat (length l2)) s1 = Some (0, s2) /\
    read_extent_buffer (s_read_buf s2) 0 (length (l1 ++ l2)) = l1 ++ l2 /\ holds_bytes s2 rest /\
    s_attrs s2 = s_attrs s /\ s_user s2 = s_user s /\ s_mallocs s2 = s_mallocs s.
Proof.
  intros Hs Hfit. rewrite length_app in Hfit.
  destruct (read_into_run s 0 l1 _ Hs) as (reads & Hrun & Hg); [lia|]. set (s1 := with_read_buf _ _) in Hrun.
  destruct (read_into_run s1 (Z.of_nat (length l1)) l2 rest) as (reads2 & Hrun2 & Hg2); [by split|lia|]. set (s2 := with_read_buf _ _) in Hrun2.
  exists s1, s2. split; [exact Hrun|]. split; [apply read_write|]. split; [exact Hrun2|]. split; [|by split_and!].
  rewrite length_app, read_app. f_equal.
  - rewrite <- (read_write (s_read_buf s) l1 0) at 2. apply read_same. intros x Hx. cbn. apply write_outside. lia.
  - apply read_write.
Qed.

Lemma read_cmd_run s c attrs rest : holds_bytes s (encode c attrs ++ rest) -> 0 <= c < 2 ^ 16 ->
  (forall a d, (a, d) ∈ attrs -> 0 < a <= BTRFS_SEND_A_MAX) -> NoDup attrs.*1 -> (forall a d, (a, d) ∈ attrs -> Forall is_byte d) ->
  sizeof_cmd_header + Z.of_nat (length (payload attrs)) <= BTRFS_SEND_BUF_SIZE ->
  exists s', read_cmd s = Some (0, s') /\ holds_bytes s' rest /\ s_cmd s' = c /\ loaded s' attrs /\
    s_user s' = s_user s /\ s_mallocs s' = s_mallocs s.
Proof.
  intros Hs Hc Hkeys Hnd Hbytes Hfit. unfold sizeof_cmd_header, BTRFS_SEND_BUF_SIZE in Hfit.
  set (p := payload attrs) in *. set (crc := __crc32c_le 0 (cmd_bytes c p 0)).
  assert (Hcrc : 0 <= crc < 2 ^ 32) by (apply sum_range, cmd_bytes_ok, payload_ok; exact Hbytes).
  set (hdr := le_bytes 4 (Z.of_nat (length p)) ++ le_bytes 2 c ++ le_bytes 4 crc).
  assert (Henc : encode c attrs = hdr ++ p) by (unfold encode, cmd_bytes, hdr; by rewrite !(assoc_L (++))).
  assert (Hhdr : Z.of_nat (length hdr) = sizeof_cmd_header) by (unfold hdr; by rewrite !length_app, !le_bytes_length).
  rewrite Henc, <- (assoc_L (++)) in Hs. unfold read_cmd. set (s0 := with_attrs s ∅). rewrite (bind_some _ _ s tt s0) by done.
  destruct (read_parts_run s0 hdr p rest Hs) as (s1 & s2 & Hr1 & Hb1 & Hr2 & Hb2 & Hs2 & Ha2 & Hu2 & Hm2).
  { rewrite length_app. unfold sizeof_cmd_header in Hhdr. unfold BTRFS_SEND_BUF_SIZE. lia. }
  rewrite Hhdr in Hr1, Hr2. rewrite (bind_some _ _ _ _ _ Hr1). cbn [Z.ltb Z.compare Z.eqb negb].
  rewrite (bind_some _ _ s1 (s_read_buf s1) s1) by done. cbv zeta.
  assert (Hlen : s32 (cmd_header_len (s_read_buf s1) 0) = Z.of_nat (length p)).
  { unfold hdr in Hb1. apply read_split in Hb1 as [H1 _]. rewrite le_bytes_length in H1. unfold cmd_header_len.
    rewrite get_le_read, H1, le_val_id by (cbn; lia). apply s32_id. lia. }
  assert (Hcmd1 : cmd_header_cmd (s_read_buf s1) 0 = c).
  { unfold hdr in Hb1. apply read_split in Hb1 as [_ H1]. apply read_split in H1 as [H1 _]. rewrite !le_bytes_length in H1.
    unfold cmd_header_cmd. change (0 + 4) with (0 + Z.of_nat 4). rewrite get_le_read, H1. apply le_val_id. cbn. lia. }
  rewrite Hlen, Hcmd1, (bind_some _ _ _ _ _ Hr2). cbn [Z.ltb Z.compare Z.eqb negb].
  rewrite (bind_some _ _ s2 (s_read_buf s2) s2) by done.
  assert (Hb2' : read_extent_buffer (s_read_buf s2) 0 (length (hdr ++ p)) = cmd_bytes c p crc) by (rewrite Hb2, <- Henc; done).
  destruct (cmd_bytes_read _ c p crc _ Hb2') as (_ & _ & Hcrc2 & Hz & Hp); [lia|lia|lia|]. cbv zeta. rewrite Hcrc2.
  set (b3 := set_cmd_header_crc (s_read_buf s2) 0 0) in *. set (s3 := with_read_buf s2 b3). rewrite (bind_some _ _ s2 tt s3) by done.
  unfold sizeof_cmd_header, BTRFS_SEND_BUF_SIZE in *. rewrite u64_id, (proj2 (Z.ltb_ge _ _)) by lia. rewrite (bind_some _ _ s3 tt s3) by done.
  assert (Hn : Z.to_nat (10 + Z.of_nat (length p)) = length (hdr ++ p)) by (rewrite length_app; lia).
  rewrite Hn, Hz. fold crc. rewrite Z.eqb_refl. cbn [negb].
  destruct (attrs_loop_run attrs (Z.to_nat (Z.of_nat (length p))) s3 10 0) as (m & Hrun & Hload & _); [done|done|exact Hp|fold p; unfold BTRFS_SEND_BUF_SIZE; lia|lia|fold p; lia|].
  rewrite Z.add_0_l in Hrun. fold p in Hrun. rewrite (bind_some _ _ _ _ _ Hrun). cbn [Z.ltb Z.compare].
  eexists. split; [done|]. split; [exact Hs2|]. split; [done|]. split; [exact Hload|]. cbn. by rewrite Hu2, Hm2.
Qed.

(** ** Attributes of a command that was read *)

Definition after_malloc s : send_stream U :=
  SendStream (s_fd s) (s_read_buf s) (s_cmd s) (s_attrs s) (s_version s) (s_user s) (pred (s_mallocs s)).

Lemma tlv_bind_run {A B} (c : tlv A) (k : A -> tlv B) s a s' : c s = Some (inl a, s') -> tlv_bind c k s = k a s'.
Proof. intros Hc. unfold tlv_bind. by rewrite (bind_some _ _ _ _ _ Hc). Qed.

Section Get.
Context s (attrs : list (Z * list Z)).
Hypothesis Hload : loaded s attrs.
Context (a : Z) (d : list Z).
Hypothesis Hin : (a, d) ∈ attrs.
Hypothesis Ha : 0 < a <= BTRFS_SEND_A_MAX.

Lemma tlv_get_run : exists h, tlv_get a s = Some (inl (h + 4, Z.of_nat (length d)), s) /\ attr_at (s_read_buf s) h d.
Proof using All.
  destruct (Hload a d Hin) as (h & Hh & Hat). exists h. split; [|done]. unfold tlv_get.
  rewrite (proj2 (Z.leb_gt _ _)), (proj2 (Z.ltb_ge _ _)) by lia. cbn [orb]. rewrite (bind_some _ _ s (s_attrs s) s) by done. rewrite Hh.
  destruct Hat as (<- & _). done.
Qed.

Lemma bytes_run h : attr_at (s_read_buf s) h d -> tlv_bytes (h + 4) (Z.of_nat (length d)) s = Some (d, s).
Proof using Type.
  intros (H1 & H2 & H3). unfold tlv_bytes. rewrite (proj2 (Z.ltb_ge _ _)) by lia. rewrite (bind_some _ _ s tt s) by done.
  rewrite (bind_some _ _ s (s_read_buf s) s) by done. by rewrite Nat2Z.id, H2.
Qed.

Lemma string_run : s_mallocs s <> O -> tlv_get_string a s = Some (inl d, after_malloc s).
Proof using All.
  intros Hm. destruct tlv_get_run as (h & Hg & Hat). unfold tlv_get_string. rewrite (tlv_bind_run _ _ _ _ _ Hg). unfold send_malloc.
  unfold bind at 1. unfold after_malloc. destruct (s_mallocs s) as [|k]; [done|]. cbn [negb fst snd pred].
  unfold tlv_bytes. destruct Hat as (H1 & H2 & H3). rewrite (proj2 (Z.ltb_ge _ _)) by lia. unfold bind, gets. cbn. by rewrite Nat2Z.id, H2.
Qed.

Lemma data_run : tlv_get_data a s = Some (inl (d, Z.of_nat (length d)), s).
Proof using All.
  destruct tlv_get_run as (h & Hg & Hat). unfold tlv_get_data. rewrite (tlv_bind_run _ _ _ _ _ Hg). cbn [fst snd].
  by rewrite (bind_some _ _ _ _ _ (bytes_run h Hat)).
Qed.

Lemma uuid_run : length d = 16%nat -> tlv_get_uuid a s = Some (inl d, s).
Proof using All.
  intros Hl. destruct tlv_get_run as (h & Hg & Hat). unfold tlv_get_uuid. rewrite (tlv_bind_run _ _ _ _ _ Hg). cbn [fst snd].
  pose proof (bytes_run h Hat) as Hb. rewrite Hl in *. rewrite (tlv_bind_run _ _ s tt s) by done.
  change BTRFS_UUID_SIZE with (Z.of_nat 16). by rewrite (bind_some _ _ _ _ _ Hb).
Qed.
End Get.

Lemma u64_run s attrs a v : loaded s attrs -> (a, le_bytes 8 v) ∈ attrs -> 0 < a <= BTRFS_SEND_A_MAX -> u64_in v ->
  tlv_get_u64 a s = Some (inl v, s).
Proof.
  intros Hload Hin Ha Hv. destruct (tlv_get_run s attrs Hload a _ Hin Ha) as (h & Hg & H1 & H2 & H3). rewrite le_bytes_length in *.
  unfold tlv_get_u64. rewrite (tlv_bind_run _ _ _ _ _ Hg). cbn [fst snd]. rewrite (tlv_bind_run _ _ s tt s) by done.
  rewrite (proj2 (Z.ltb_ge _ _)) by lia. rewrite (bind_some _ _ s tt s), (bind_some _ _ s (s_read_buf s) s) by done.
  by rewrite get_le_read, H2, le_val_id.
Qed.

Lemma s64_id x : - 2 ^ 63 <= x < 2 ^ 63 -> s64 (x mod 2 ^ 64) = x.
Proof.
  intros Hx. unfold s64. rewrite Zplus_mod_idemp_l, Z.mod_small; lia.
Qed.

Lemma timespec_run s attrs a t : loaded s attrs -> (a, time_bytes t) ∈ attrs -> 0 < a <= BTRFS_SEND_A_MAX -> time_ok t ->
  tlv_get_timespec a s = Some (inl t, s).
Proof.
  intros Hload Hin Ha [Ht1 Ht2]. destruct (tlv_get_run s attrs Hload a _ Hin Ha) as (h & Hg & H1 & H2 & H3).
  assert (Hlen : length (time_bytes t) = 12%nat) by (unfold time_bytes; by rewrite length_app, !le_bytes_length). rewrite Hlen in *.
  unfold tlv_get_timespec. rewrite (tlv_bind_run _ _ _ _ _ Hg). cbn [fst snd]. rewrite (tlv_bind_run _ _ s tt s) by done.
  unfold sizeof_timespec. rewrite (proj2 (Z.ltb_ge _ _)) by lia. rewrite (bind_some _ _ s tt s), (bind_some _ _ s (s_read_buf s) s) by done.
  unfold time_bytes in H2. apply read_split in H2 as [H2a H2b]. rewrite !le_bytes_length in *.
  change (h + 4 + 8) with (h + 4 + Z.of_nat 8). rewrite !get_le_read, H2a, H2b, le_val_bytes, le_val_id by (cbn; lia).
  change (256 ^ Z.of_nat 8) with (2 ^ 64). rewrite s64_id by done. by destruct t.
Qed.

Lemma call_op_run s op : exists s', call_op ops op s = Some (inl (ops op (s_user s)).1, s') /\ s_user s' = (ops op (s_user s)).2 /\
  s_fd s' = s_fd s /\ s_mallocs s' = s_mallocs s.
Proof. unfold call_op. destruct (ops op (s_user s)) as [r u] eqn:Ho. by eexists. Qed.

(** The next attribute; its place and value are found in any state with the
    same attributes and buffer. *)
Ltac in_attrs Hsub := apply Hsub; repeat (apply elem_of_cons; first [left; reflexivity | right]).
Ltac attr_range := split; vm_compute; congruence.
Ltac get_attr Hload Hsub :=
  match goal with
  | |- context [tlv_bind (tlv_get_string ?a) _ ?s] =>
      erewrite (tlv_bind_run (tlv_get_string a)); [|eapply (string_run s); [exact Hload|in_attrs Hsub|attr_range|cbn; lia]]
  | |- context [tlv_bind (tlv_get_u64 ?a) _ ?s] =>
      erewrite (tlv_bind_run (tlv_get_u64 a)); [|eapply (u64_run s); [exact Hload|in_attrs Hsub|attr_range|unfold u64_in in *; lia]]
  | |- context [tlv_bind (tlv_get_uuid ?a) _ ?s] =>
      erewrite (tlv_bind_run (tlv_get_uuid a)); [|eapply (uuid_run s); [exact Hload|in_attrs Hsub|attr_range|done]]
  | |- context [tlv_bind (tlv_get_data ?a) _ ?s] =>
      erewrite (tlv_bind_run (tlv_get_data a)); [|eapply (data_run s); [exact Hload|in_attrs Hsub|attr_range]]
  | |- context [tlv_bind (tlv_get_timespec ?a) _ ?s] =>
      erewrite (tlv_bind_run (tlv_get_timespec a)); [|eapply (timespec_run s); [exact Hload|in_attrs Hsub|attr_range|done]]
  end.

Lemma process_cmd_run s op attrs : op_ok op -> loaded s attrs -> op_attrs op ⊆ attrs -> (2 <= s_mallocs s)%nat ->
  exists s', process_cmd ops (op_cmd op) s = Some (inl (ops op (s_user s)).1, s') /\ s_user s' = (ops op (s_user s)).2 /\
    s_fd s' = s_fd s /\ (s_mallocs s <= 2 + s_mallocs s')%nat.
Proof.
  intros Hop Hload Hsub Hm.
  assert (Hcall : forall s1 (k : tlv Z), k s = call_op ops op s1 -> s_user s1 = s_user s -> s_fd s1 = s_fd s -> (s_mallocs s <= 2 + s_mallocs s1)%nat ->
    exists s', k s = Some (inl (ops op (s_user s)).1, s') /\ s_user s' = (ops op (s_user s)).2 /\ s_fd s' = s_fd s /\ (s_mallocs s <= 2 + s_mallocs s')%nat).
  { intros s1 k -> Hu Hf Hk. destruct (call_op_run s1 op) as (s' & -> & Hu' & Hf' & Hm'). exists s'. rewrite <- Hu. split_and!; [done|done|congruence|lia]. }
  assert (Hclone : forall len, 0 <= len < 2 ^ 31 -> u64 (s32 len) = len) by (intros len Hlen; rewrite s32_id, u64_id; lia).
  destruct op; cbn [op_ok op_attrs] in *; unfold process_cmd; cbn [op_cmd];
    repeat (match goal with |- context [if ?x =? ?y then _ else _] => let r := eval vm_compute in (x =? y) in change (x =? y) with r end; cbv iota);
    repeat match goal with H : _ /\ _ |- _ => destruct H end; subst;
    (eapply Hcall; [repeat get_attr Hload Hsub; cbn [fst snd]; rewrite ?Hclone by lia; reflexivity|reflexivity|reflexivity|cbn; lia]).
Qed.

(** ** The whole stream *)

(** The operations one after the other, until one does not return 0. *)
Fixpoint replay (l : list send_op) (u : U) : Z * U :=
  match l with
  | [] => (1, u)
  | op :: l => let (r, u) := ops op u in if r =? 0 then replay l u else (r, u)
  end.

Definition finish (honor_end_cmd : bool) (r : Z) : Z := if r <? 0 then r else if honor_end_cmd then r else 0.

Definition encode_all (cmds : list (send_op * list (Z * list Z))) : list Z :=
  concat ((fun c => encode (op_cmd c.1) c.2) <$> cmds) ++ encode BTRFS_SEND_C_END [].

Lemma op_cmd_range op : 0 <= op_cmd op < 2 ^ 16.
Proof. destruct op; vm_compute; split; congruence. Qed.

Lemma cmds_loop_run cmds fuel honor s rest :
  holds_bytes s (encode_all cmds ++ rest) -> Forall (fun c => op_ok c.1 /\ attrs_for c.1 c.2) cmds ->
  (2 * length cmds <= s_mallocs s)%nat -> (length cmds < fuel)%nat ->
  exists s', cmds_loop ops fuel honor s = Some (finish honor (replay cmds.*1 (s_user s)).1, s') /\
    s_user s' = (replay cmds.*1 (s_user s)).2.
Proof.
  revert fuel s. induction cmds as [|[op attrs] cmds IH]; intros fuel s Hs Hok Hm Hf; (destruct fuel as [|fuel]; [lia|]); cbn [cmds_loop];
    unfold read_and_process_cmd; rewrite ?bind_assoc.
  - destruct (read_cmd_run s BTRFS_SEND_C_END [] rest) as (s1 & Hrun & Hs1 & Hc & _ & Hu & _);
      [exact Hs|vm_compute; split; congruence|by intros ? ? ?%elem_of_nil|constructor|by intros ? ? ?%elem_of_nil|vm_compute; congruence|].
    rewrite (bind_some _ _ _ _ _ Hrun). cbn [Z.eqb negb]. rewrite bind_assoc, (bind_some _ _ s1 (s_cmd s1) s1), Hc by done.
    exists s1. split; [|by rewrite Hu]. cbn. by destruct honor.
  - apply Forall_cons in Hok as [[Hop [K1 K2 K3 K4 K5]] Hok]. cbn [fst snd] in *. unfold encode_all in Hs. rewrite fmap_cons in Hs. cbn [concat fst snd] in Hs.
    rewrite <- !(assoc_L (++)) in Hs.
    destruct (read_cmd_run s (op_cmd op) attrs _ Hs (op_cmd_range op) K1 K2 K3 K5) as (s1 & Hrun & Hs1 & Hc & Hload & Hu & Hm1).
    rewrite (bind_some _ _ _ _ _ Hrun). cbn [Z.eqb negb]. rewrite bind_assoc, (bind_some _ _ s1 (s_cmd s1) s1), Hc by done.
    cbn [length] in *.
    destruct (process_cmd_run s1 op attrs Hop Hload K4 ltac:(lia)) as (s2 & Hrun2 & Hu2 & Hf2 & Hm2).
    rewrite bind_assoc, (bind_some _ _ _ _ _ Hrun2). rewrite Hu in *. cbn [replay fmap list_fmap fst].
    destruct (ops op (s_user s)) as [r u] eqn:Hres. cbn [fst snd] in *. rewrite (bind_some _ _ s2 r s2) by done.
    destruct (Z.eqb_spec r 0) as [->|Hr].
    + cbn [Z.ltb Z.compare negb]. destruct (IH fuel s2) as (s3 & Hrun3 & Hu3).
      * unfold holds_bytes, encode_all. rewrite Hf2, <- (assoc_L (++)). exact Hs1.
      * done.
      * lia.
      * lia.
      * exists s3. rewrite Hrun3, Hu3, Hu2. done.
    + exists s2. split; [|done]. unfold finish. cbn [fst]. destruct (Z.ltb_spec r 0); [done|]. cbn [negb]. by destruct honor.
Qed.

(** C11: A stream is replayed: the header, the commands for the operations, with
    their attributes in any order and others among them, and the end command
    make the receiver call these operations in this order until one fails, and
    return what the last one returned or the end says, however few bytes the
    reads return at a time.  There is a unit of fuel for each command. *)
Theorem send_stream_replayed s (version : Z) (cmds : list (send_op * list (Z * list Z))) (rest : list Z) (honor : bool) (fuel : nat) :
  holds_bytes s (BTRFS_SEND_STREAM_MAGIC ++ le_bytes 4 version ++ encode_all cmds ++ rest) -> 0 <= version <= BTRFS_SEND_STREAM_VERSION ->
  Forall (fun c => op_ok c.1 /\ attrs_for c.1 c.2) cmds -> (2 * length cmds <= s_mallocs s)%nat -> (length cmds < fuel)%nat ->
  exists s', btrfs_read_and_process_send_stream ops fuel honor s = Some (finish honor (replay cmds.*1 (s_user s)).1, s') /\
    s_user s' = (replay cmds.*1 (s_user s)).2.
Proof.
  intros Hs Hv Hok Hm Hf. unfold btrfs_read_and_process_send_stream. rewrite (assoc_L (++)) in Hs.
  destruct (read_buf_run s _ _ Hs) as (reads & Hrun & Hg). rewrite length_app, le_bytes_length in Hrun.
  change (Z.of_nat (length BTRFS_SEND_STREAM_MAGIC + 4)) with sizeof_stream_header in Hrun.
  rewrite (bind_some _ _ _ _ _ Hrun). cbn [fst snd Z.ltb Z.compare Z.eqb negb].
  pose proof (read_write (fun _ => 0) (BTRFS_SEND_STREAM_MAGIC ++ le_bytes 4 version) 0) as Hw. set (hdr := write_extent_buffer _ _ _) in *.
  apply read_split in Hw as [Hw1 Hw2]. rewrite le_bytes_length in Hw2. unfold memcmp_extent_buffer. rewrite Hw1, bool_decide_eq_true_2 by done. cbn [negb].
  change (0 + Z.of_nat (length BTRFS_SEND_STREAM_MAGIC)) with 13 in Hw2. unfold BTRFS_SEND_STREAM_VERSION in *.
  cbv zeta. rewrite get_le_read, Hw2, le_val_id by (cbn; lia). set (s0 := with_fd s _) in *.
  set (s1 := SendStream (s_fd s0) (s_read_buf s0) (s_cmd s0) (s_attrs s0) version (s_user s0) (s_mallocs s0)).
  rewrite (bind_some _ _ s0 tt s1) by done. rewrite (proj2 (Z.ltb_ge _ _)) by lia.
  by apply (cmds_loop_run cmds fuel honor s1 rest).
Qed.

(** ** Damaged commands *)

(** A command with its checksum cleared. *)
Definition cleared l : list Z := take 6 l ++ le_bytes 4 0 ++ drop 10 l.
Definition stored_sum l : Z := le_val (take 4 (drop 6 l)).

Lemma cleared_run (b : buf) l : read_extent_buffer b 0 (length l) = l -> (10 <= length l)%nat ->
  cmd_header_crc b 0 = stored_sum l /\ read_extent_buffer (set_cmd_header_crc b 0 0) 0 (length l) = cleared l.
Proof.
  intros Hr Hl. split.
  - unfold cmd_header_crc, stored_sum. rewrite get_le_read. f_equal. rewrite <- Hr at 1. rewrite read_drop, read_take by lia. done.
  - assert (H6 : take 6 l = read_extent_buffer b 0 6) by (rewrite <- Hr at 1; apply read_take; lia).
    assert (H10 : drop 10 l = read_extent_buffer b 10 (length l - 10)) by (rewrite <- Hr at 1; apply read_drop; lia).
    unfold cleared. replace (length l) with (6 + (4 + (length l - 10)))%nat by lia. rewrite !read_app.
    change (0 + Z.of_nat 6) with 6. change (6 + Z.of_nat 4) with 10. unfold set_cmd_header_crc. change (0 + 6) with 6. rewrite read_put_le, H6, H10.
    assert (Hother : forall off m, off + Z.of_nat m <= 6 \/ 10 <= off -> read_extent_buffer (put_le 4 6 0 b) off m = read_extent_buffer b off m).
    { intros off m Hoff. apply read_same. intros x Hx. unfold put_le. zbool; lia || done. }
    by rewrite !Hother by lia.
Qed.

Lemma wrong_sum_refused s l rest : holds_bytes s (l ++ rest) -> (10 <= length l)%nat -> Z.of_nat (length l) <= BTRFS_SEND_BUF_SIZE ->
  take 4 l = le_bytes 4 (Z.of_nat (length l) - 10) -> stored_sum l <> __crc32c_le 0 (cleared l) ->
  exists s', read_and_process_cmd ops s = Some (- EINVAL, s') /\ s_user s' = s_user s.
Proof.
  intros Hs Hl Hfit Hlen Hsum. unfold read_and_process_cmd, read_cmd. rewrite bind_assoc. set (s0 := with_attrs s ∅). rewrite (bind_some _ _ s tt s0) by done.
  assert (Hl1 : length (take 10 l) = 10%nat) by (rewrite length_take; lia).
  destruct (read_parts_run s0 (take 10 l) (drop 10 l) rest) as (s1 & s2 & Hr1 & Hb1 & Hr2 & Hb2 & _ & _ & Hu2 & _).
  { by rewrite (assoc_L (++)), take_drop. }
  { by rewrite take_drop. }
  rewrite Hl1 in *. rewrite take_drop in Hb2. change (Z.of_nat 10) with sizeof_cmd_header in *.
  rewrite bind_assoc, (bind_some _ _ _ _ _ Hr1). cbn [Z.ltb Z.compare Z.eqb negb].
  rewrite bind_assoc, (bind_some _ _ s1 (s_read_buf s1) s1) by done. cbv zeta. unfold BTRFS_SEND_BUF_SIZE in Hfit.
  assert (Hn : s32 (cmd_header_len (s_read_buf s1) 0) = Z.of_nat (length (drop 10 l))).
  { unfold cmd_header_len. rewrite get_le_read. replace (read_extent_buffer (s_read_buf s1) 0 4) with (take 4 l).
    - rewrite Hlen, le_val_id, s32_id, length_drop by (cbn; lia). lia.
    - rewrite <- (read_take (s_read_buf s1) 0 10 4), Hb1, take_take by lia. done. }
  rewrite Hn, bind_assoc, (bind_some _ _ _ _ _ Hr2). cbn [Z.ltb Z.compare Z.eqb negb].
  rewrite bind_assoc, (bind_some _ _ s2 (s_read_buf s2) s2) by done. cbv zeta.
  destruct (cleared_run _ l Hb2 Hl) as [Hc1 Hc2]. rewrite Hc1.
  set (s3 := with_read_buf s2 (set_cmd_header_crc (s_read_buf s2) 0 0)). rewrite bind_assoc, (bind_some _ _ s2 tt s3) by done. unfold sizeof_cmd_header, BTRFS_SEND_BUF_SIZE.
  rewrite length_drop. rewrite u64_id, (proj2 (Z.ltb_ge _ _)) by lia. rewrite bind_assoc, (bind_some _ _ s3 tt s3) by done.
  replace (Z.to_nat (10 + Z.of_nat (length l - 10))) with (length l) by lia. rewrite Hc2, (proj2 (Z.eqb_neq _ _)) by done.
  cbn [negb]. exists s3. done.
Qed.

Lemma le_val_byte A B x y : is_byte x -> is_byte y -> x <> y -> le_val (A ++ x :: B) <> le_val (A ++ y :: B).
Proof.
  intros Hx Hy Hne. induction A as [|a A IH]; cbn [app le_val]; [|lia]. unfold is_byte in *. rewrite !u8_id by lia. lia.
Qed.

(** Where the byte is in the cleared command, or in the sum. *)
Lemma byte_cases A B : (4 <= length A)%nat -> (10 <= length A + S (length B))%nat ->
  (exists A' B', (forall z, cleared (A ++ z :: B) = A' ++ z :: B') /\ forall y z, stored_sum (A ++ z :: B) = stored_sum (A ++ y :: B)) \/
  exists A' B', (forall z, take 4 (drop 6 (A ++ z :: B)) = A' ++ z :: B') /\ forall y z, cleared (A ++ z :: B) = cleared (A ++ y :: B).
Proof.
  intros Hlo Hl. unfold cleared, stored_sum.
  destruct (decide (length A < 6)%nat) as [H6|H6]; [|destruct (decide (length A < 10)%nat) as [H10|H10]].
  - left. exists A, (take (5 - length A) B ++ le_bytes 4 0 ++ drop (9 - length A) B). split; intros z.
    + rewrite take_app_ge, drop_app_ge by lia. replace (6 - length A)%nat with (S (5 - length A)) by lia.
      replace (10 - length A)%nat with (S (9 - length A)) by lia. cbn [firstn skipn take drop]. by rewrite <- (assoc_L (++)).
    + intros y. rewrite !drop_app_ge by lia. by replace (6 - length A)%nat with (S (5 - length A)) by lia.
  - right. exists (drop 6 A), (take (9 - length A) B). split; intros z.
    + rewrite drop_app_le by lia. rewrite take_app_ge by (rewrite length_drop; lia). rewrite length_drop.
      by replace (4 - (length A - 6))%nat with (S (9 - length A)) by lia.
    + intros y. rewrite !take_app_le, !drop_app_ge by lia. by replace (10 - length A)%nat with (S (9 - length A)) by lia.
  - left. exists (take 6 A ++ le_bytes 4 0 ++ drop 10 A), B. split; intros z.
    + rewrite take_app_le, drop_app_le by lia. by rewrite <- !(assoc_L (++)).
    + intros y. rewrite !drop_app_le, !take_app_le by (rewrite ?length_drop; lia). done.
Qed.

(** C18: A command that is as its sender made it but for one byte behind its
    length - of its number, its checksum or its attributes - is refused: the
    receiver returns -EINVAL and calls no operation. *)
Theorem damaged_command_refused s (c : Z) (attrs : list (Z * list Z)) (A B : list Z) (x y : Z) (rest : list Z) :
  encode c attrs = A ++ x :: B -> (4 <= length A)%nat -> is_byte y -> y <> x ->
  holds_bytes s (A ++ y :: B ++ rest) -> 0 <= c < 2 ^ 16 -> (forall a d, (a, d) ∈ attrs -> Forall is_byte d) ->
  sizeof_cmd_header + Z.of_nat (length (payload attrs)) <= BTRFS_SEND_BUF_SIZE ->
  exists s', read_and_process_cmd ops s = Some (- EINVAL, s') /\ s_user s' = s_user s.
Proof.
  intros Henc HA Hy Hne Hs Hc Hbytes Hfit. unfold sizeof_cmd_header in Hfit.
  pose proof (payload_ok _ Hbytes) as Hp. pose proof (sum_range _ (cmd_bytes_ok c _ 0 Hp)) as Hcrc.
  assert (Hlen : length (A ++ x :: B) = (10 + length (payload attrs))%nat) by (rewrite <- Henc; apply cmd_bytes_length).
  assert (Hsum : stored_sum (A ++ x :: B) = __crc32c_le 0 (cleared (A ++ x :: B))).
  { rewrite <- Henc. unfold encode. remember (__crc32c_le 0 (cmd_bytes c (payload attrs) 0)) as crc eqn:Ecrc. unfold stored_sum, cleared, cmd_bytes in *.
    assert (Hsplit : forall v, le_bytes 4 (Z.of_nat (length (payload attrs))) ++ le_bytes 2 c ++ le_bytes 4 v ++ payload attrs =
      (le_bytes 4 (Z.of_nat (length (payload attrs))) ++ le_bytes 2 c) ++ le_bytes 4 v ++ payload attrs) by (intros v; by rewrite <- !(assoc_L (++))).
    rewrite !Hsplit. set (h := le_bytes 4 _ ++ le_bytes 2 c). assert (Hh : length h = 6%nat) by (unfold h; by rewrite length_app, !le_bytes_length).
    rewrite (drop_app_length' h), (take_app_length' h) by done. rewrite (take_app_length' (le_bytes 4 crc)) by (by rewrite le_bytes_length).
    rewrite (drop_app_ge h) by lia. rewrite Hh, (drop_app_length' (le_bytes 4 crc)) by (by rewrite le_bytes_length). rewrite le_val_id by done.
    by rewrite Ecrc, Hsplit. }
  assert (Hok : Forall is_byte (A ++ x :: B)) by (rewrite <- Henc; by apply cmd_bytes_ok).
  assert (Hx : is_byte x) by (apply Forall_app in Hok as [_ [? _]%Forall_cons]; done).
  apply (wrong_sum_refused s (A ++ y :: B) rest).
  - by rewrite <- (assoc_L (++)).
  - rewrite length_app in *. simpl in *. lia.
  - rewrite length_app in *. simpl in *. unfold BTRFS_SEND_BUF_SIZE in *. lia.
  - rewrite take_app_le by lia. rewrite <- (take_app_le A (x :: B)), <- Henc by lia. unfold encode, cmd_bytes.
    rewrite take_app_length' by (by rewrite le_bytes_length). f_equal. rewrite length_app in *. simpl in *. lia.
  - rewrite length_app in Hlen. simpl in Hlen.
    destruct (byte_cases A B HA ltac:(lia)) as [(A' & B' & Hcl & Hst)|(A' & B' & Hst & Hcl)].
    + rewrite (Hst x y), Hsum, !Hcl.
      assert (Hbok : Forall is_byte (A' ++ x :: B')).
      { rewrite <- Hcl. unfold cleared. rewrite !Forall_app. split_and!; [by apply Forall_take|apply le_bytes_ok|by apply Forall_drop]. }
      rewrite !crc_table_ref; [|apply Forall_app in Hbok as [? [? ?]%Forall_cons]; apply Forall_app; split; [done|by constructor]|done].
      apply crc_one_byte; [unfold crc_ok; lia|done|done|congruence].
    + rewrite (Hcl x y), <- Hsum. unfold stored_sum. rewrite !Hst. by apply le_val_byte.
Qed.

(** ** Staying inside the buffer *)

Definition read_ok (r : read_result) : Prop := match r with Got _ => True | Failed errno => 0 < errno end.

Lemma read_fd_total i len : 0 < len -> Forall read_ok (fi_reads i) ->
  exists r l i', read_fd i len = (r, l, i') /\ l ++ fi_bytes i' = fi_bytes i /\ Forall read_ok (fi_reads i') /\ r <= len /\
    (0 < r -> r = Z.of_nat (length l)) /\ (r <= 0 -> l = []).
Proof.
  intros Hlen Hok. unfold read_fd.
  assert (Hgot : forall n reads, (n <= Z.to_nat len)%nat -> Forall read_ok reads ->
    exists r l i', (Z.of_nat (length (take n (fi_bytes i))), take n (fi_bytes i), FdInput (drop n (fi_bytes i)) reads) = (r, l, i') /\
      l ++ fi_bytes i' = fi_bytes i /\ Forall read_ok (fi_reads i') /\ r <= len /\ (0 < r -> r = Z.of_nat (length l)) /\ (r <= 0 -> l = [])).
  { intros n reads Hn Hr. do 3 eexists. split; [done|]. cbn [fi_bytes fi_reads]. split; [apply take_drop|]. split; [done|].
    split; [rewrite length_take; lia|]. split; [done|]. intros H0. apply nil_length_inv. lia. }
  destruct (fi_reads i) as [|[more|errno] reads].
  - apply Hgot; [lia|done].
  - apply Forall_cons in Hok as [_ Hok]. apply Hgot; [lia|done].
  - apply Forall_cons in Hok as [He Hok]. cbn in He. exists (- errno), [], (FdInput (fi_bytes i) reads). split_and!; [done|done|done|lia|lia|done].
Qed.

Lemma read_buf_loop_total fuel len s : Forall read_ok (fi_reads (s_fd s)) -> (Z.to_nat len < fuel)%nat ->
  exists r l i, read_buf_loop fuel len s = Some (r, l, with_fd s i) /\ l ++ fi_bytes i = fi_bytes (s_fd s) /\ Forall read_ok (fi_reads i) /\
    (length l <= Z.to_nat len)%nat /\ (r = 0 -> length l = Z.to_nat len).
Proof.
  revert len s. induction fuel as [|fuel IH]; intros len s Hok Hf; [lia|]. cbn [read_buf_loop].
  destruct (Z.leb_spec len 0).
  { exists 0, [], (s_fd s). split; [by destruct s|]. split_and!; [done|done|simpl; lia|intros _; simpl; lia]. }
  rewrite (bind_some _ _ s (s_fd s) s) by done.
  destruct (read_fd_total (s_fd s) len ltac:(lia) Hok) as (r & l & i & -> & Hl & Hok' & Hr & Hpos & Hneg). cbn [fst snd].
  rewrite (bind_some _ _ s tt (with_fd s i)) by done. destruct (Z.ltb_spec r 0); [|destruct (Z.eqb_spec r 0)].
  - rewrite Hneg in Hl by lia. exists r, [], i. split_and!; [done|done|done|simpl; lia|lia].
  - rewrite Hneg in Hl by lia. exists 1, [], i. split_and!; [done|done|done|simpl; lia|lia].
  - assert (Hrl := Hpos ltac:(lia)). subst r. destruct (IH (len - Z.of_nat (length l)) (with_fd s i)) as (r' & l' & i' & Hrun & Hl' & Hok2 & Hle & Heq); [done|lia|].
    rewrite (bind_some _ _ _ _ _ Hrun). exists r', (l ++ l'), i'. split; [done|]. cbn in Hl'. rewrite <- (assoc_L (++)), Hl', length_app. split_and!; [done|done|lia|].
    cbn [fst]. intros He. specialize (Heq He). lia.
Qed.

Lemma read_into_total off len s : Forall read_ok (fi_reads (s_fd s)) -> off + Z.max 0 len <= BTRFS_SEND_BUF_SIZE ->
  exists r l i, read_into off len s = Some (r, with_read_buf (with_fd s i) (write_extent_buffer (s_read_buf s) l off)) /\
    l ++ fi_bytes i = fi_bytes (s_fd s) /\ Forall read_ok (fi_reads i) /\ (r = 0 -> length l = Z.to_nat len).
Proof.
  intros Hok Hfit. unfold read_into, read_buf.
  destruct (read_buf_loop_total (S (Z.to_nat len)) len s Hok ltac:(lia)) as (r & l & i & Hrun & Hl & Hok' & Hle & Heq).
  rewrite (bind_some _ _ _ _ _ Hrun). cbn [fst snd]. rewrite (proj2 (Z.ltb_ge _ _)) by lia. exists r, l, i. split; [done|]. by split_and!.
Qed.

Lemma attrs_loop_total fuel data pos cmd_len s : (Z.to_nat (cmd_len - pos) <= fuel)%nat -> data = sizeof_cmd_header + pos -> 0 <= pos ->
  sizeof_cmd_header + cmd_len + 3 <= BTRFS_SEND_BUF_SIZE ->
  exists r s', attrs_loop fuel data pos cmd_len s = Some (r, s') /\ (r = 0 \/ r = - EINVAL) /\ s_user s' = s_user s.
Proof.
  revert data pos s. unfold sizeof_cmd_header, BTRFS_SEND_BUF_SIZE. induction fuel as [|fuel IH]; intros data pos s Hf -> Hpos Hfit; cbn [attrs_loop];
    (destruct (Z.leb_spec cmd_len pos); [exists 0, s; auto|]); [lia|].
  unfold sizeof_tlv_header, BTRFS_SEND_BUF_SIZE. rewrite (proj2 (Z.ltb_ge _ _)) by lia. rewrite (bind_some _ _ s tt s) by done.
  rewrite (bind_some _ _ s (s_read_buf s) s) by done. cbv zeta.
  destruct (_ || _); [exists (- EINVAL), s; auto|]. rewrite (bind_some _ _ s (s_attrs s) s) by done.
  match goal with |- context [set_attrs ?m] => set (s1 := with_attrs s m) end. rewrite (bind_some _ _ s tt s1) by done.
  assert (0 <= tlv_header_len (s_read_buf s) (10 + pos)) by (apply get_le_range).
  apply (IH _ _ s1); lia.
Qed.

(** C19: Whatever the descriptor delivers, and whenever it fails: a command that
    claims a length up to 65523 is read without leaving the buffer; it is
    accepted or refused, and no operation is called yet. *)
Theorem read_cmd_inside s (n : Z) :
  take 4 (fi_bytes (s_fd s)) = le_bytes 4 n -> 0 <= n <= BTRFS_SEND_BUF_SIZE - sizeof_cmd_header - 3 -> Forall read_ok (fi_reads (s_fd s)) ->
  exists r s', read_cmd s = Some (r, s') /\ s_user s' = s_user s.
Proof.
  unfold sizeof_cmd_header, BTRFS_SEND_BUF_SIZE. intros Hn Hrange Hok. unfold read_cmd. set (s0 := with_attrs s ∅). rewrite (bind_some _ _ s tt s0) by done.
  destruct (read_into_total 0 sizeof_cmd_header s0 Hok) as (r & l & i & Hrun & Hl & Hok1 & Heq); [vm_compute; congruence|].
  rewrite (bind_some _ _ _ _ _ Hrun). set (s1 := with_read_buf _ _). destruct (r <? 0); [by exists r, s1|].
  destruct (Z.eqb_spec r 0) as [->|]; cbn [negb]; [|by exists (- EINVAL), s1]. specialize (Heq eq_refl). change (Z.to_nat sizeof_cmd_header) with 10%nat in Heq.
  rewrite (bind_some _ _ s1 (s_read_buf s1) s1) by done. cbv zeta.
  assert (Hlen : s32 (cmd_header_len (s_read_buf s1) 0) = n).
  { unfold cmd_header_len. rewrite get_le_read. replace (read_extent_buffer (s_read_buf s1) 0 4) with (le_bytes 4 n).
    - rewrite le_val_id by (cbn; lia). apply s32_id. lia.
    - rewrite <- Hn. change (fi_bytes (s_fd s)) with (fi_bytes (s_fd s0)). rewrite <- Hl, take_app_le by lia.
      pose proof (read_write (s_read_buf s0) l 0) as Hw. rewrite <- Hw at 1. by rewrite read_take by lia. }
  rewrite Hlen. destruct (read_into_total sizeof_cmd_header n s1 Hok1) as (r2 & l2 & i2 & Hrun2 & _ & _ & _); [unfold sizeof_cmd_header, BTRFS_SEND_BUF_SIZE; lia|].
  rewrite (bind_some _ _ _ _ _ Hrun2). set (s2 := with_read_buf _ _). destruct (r2 <? 0); [by exists r2, s2|].
  destruct (negb (r2 =? 0)); [by exists (- EINVAL), s2|]. rewrite (bind_some _ _ s2 (s_read_buf s2) s2) by done. cbv zeta.
  set (b := set_cmd_header_crc _ _ _). set (s3 := with_read_buf s2 b). rewrite (bind_some _ _ s2 tt s3) by done.
  rewrite u64_id by (unfold sizeof_cmd_header; lia). rewrite (proj2 (Z.ltb_ge _ _)) by (unfold sizeof_cmd_header, BTRFS_SEND_BUF_SIZE; lia).
  rewrite (bind_some _ _ s3 tt s3) by done. destruct (negb _); [by exists (- EINVAL), s3|].
  destruct (attrs_loop_total (Z.to_nat n) sizeof_cmd_header 0 n s3) as (r3 & s4 & Hrun3 & _ & Hu); [lia|done|lia|unfold sizeof_cmd_header, BTRFS_SEND_BUF_SIZE; lia|].
  rewrite (bind_some _ _ _ _ _ Hrun3). destruct (r3 <? 0); [by exists r3, s4|]. eexists 0, _. by split.
Qed.

(** A command that claims more bytes than the buffer has left, and brings
    them, is written behind the buffer. *)
Theorem oversized_command_overruns s (hdr p rest : list Z) :
  holds_bytes s (hdr ++ p ++ rest) -> length hdr = 10%nat -> take 4 hdr = le_bytes 4 (Z.of_nat (length p)) ->
  BTRFS_SEND_BUF_SIZE - sizeof_cmd_header < Z.of_nat (length p) < 2 ^ 31 -> read_cmd s = None.
Proof.
  unfold sizeof_cmd_header, BTRFS_SEND_BUF_SIZE. intros Hs Hh Hlen Hbig. unfold read_cmd. set (s0 := with_attrs s ∅). rewrite (bind_some _ _ s tt s0) by done.
  destruct (read_into_run s0 0 hdr _ Hs) as (reads & Hrun & Hg); [unfold BTRFS_SEND_BUF_SIZE; lia|]. rewrite Hh in Hrun. change (Z.of_nat 10) with sizeof_cmd_header in Hrun.
  rewrite (bind_some _ _ _ _ _ Hrun). set (s1 := with_read_buf _ _). cbn [Z.ltb Z.compare Z.eqb negb].
  rewrite (bind_some _ _ s1 (s_read_buf s1) s1) by done. cbv zeta.
  replace (s32 (cmd_header_len (s_read_buf s1) 0)) with (Z.of_nat (length p)).
  2:{ unfold cmd_header_len. rewrite get_le_read. pose proof (read_write (s_read_buf s0) hdr 0) as Hw.
      replace (read_extent_buffer (s_read_buf s1) 0 4) with (le_bytes 4 (Z.of_nat (length p))); [rewrite le_val_id, s32_id by (cbn; lia); done|].
      rewrite <- Hlen, <- Hw at 1. by rewrite read_take by lia. }
  unfold read_into at 1. destruct (read_buf_run s1 p rest) as (reads2 & Hrun2 & _); [by split|]. rewrite bind_assoc, (bind_some _ _ _ _ _ Hrun2). cbn [fst snd].
  rewrite bind_assoc. unfold bug_on. rewrite (proj2 (Z.ltb_lt _ _)) by (unfold sizeof_cmd_header, BTRFS_SEND_BUF_SIZE; lia). done.
Qed.
End Run.

(** ** Examples *)

(** A receiver that notes what it is told to do. *)
Definition noting (op : send_op) (u : list send_op) : Z * list send_op := (0, u ++ [op]).

Definition demo_cmds : list (send_op * list (Z * list Z)) :=
  [(Op_mkfile [97], [(BTRFS_SEND_A_PATH, [97])]);
   (Op_write [97] [1; 2; 3] 4096 3, [(BTRFS_SEND_A_DATA, [1; 2; 3]); (BTRFS_SEND_A_PATH, [97]); (BTRFS_SEND_A_FILE_OFFSET, le_bytes 8 4096)])].

Definition demo_bytes : list Z := BTRFS_SEND_STREAM_MAGIC ++ le_bytes 4 1 ++ encode_all demo_cmds.

Definition demo_stream (bytes : list Z) : send_stream (list send_op) :=
  SendStream (FdInput bytes [Got 3; Got 0; Got 100]) (fun _ => 0) 0 ∅ 0 [] 10.

Lemma small_bytes l : forallb (fun x => (0 <=? x) && (x <? 256)) l = true -> Forall is_byte l.
Proof.
  intros Hl. apply Forall_forall. intros x Hx. rewrite forallb_forall in Hl. apply list_elem_of_In, Hl in Hx. unfold is_byte. lia.
Qed.

Definition attr_small (a : Z * list Z) : bool :=
  (0 <? a.1) && (a.1 <=? BTRFS_SEND_A_MAX) && forallb (fun x => (0 <=? x) && (x <? 256)) a.2.

Lemma attrs_for_small op attrs : forallb attr_small attrs = true -> bool_decide (NoDup attrs.*1) = true ->
  op_attrs op ⊆ attrs -> sizeof_cmd_header + Z.of_nat (length (payload attrs)) <= BTRFS_SEND_BUF_SIZE -> attrs_for op attrs.
Proof.
  intros Ha Hnd Hsub Hfit. rewrite forallb_forall in Ha. split; [|by apply bool_decide_eq_true_1 in Hnd| |done|done]; intros a d Hin;
    apply list_elem_of_In, Ha in Hin; unfold attr_small in Hin; cbn [fst snd] in Hin; apply andb_true_iff in Hin as [Hk Hd].
  - apply andb_true_iff in Hk as [?%Z.ltb_lt ?%Z.leb_le]. lia.
  - by apply small_bytes.
Qed.

Lemma demo_cmds_ok : Forall (fun c => op_ok c.1 /\ attrs_for c.1 c.2) demo_cmds.
Proof.
  constructor; [|constructor; [|constructor]]; (split; [cbn; unfold u64_in; lia || split; lia || done|]);
    (apply attrs_for_small; [by vm_compute|by vm_compute| |vm_compute; congruence]); intros x Hx; cbn in *; set_solver.
Qed.

Lemma send_stream_replayed_witness :
  exists s', btrfs_read_and_process_send_stream noting 3 true (demo_stream demo_bytes) = Some (1, s') /\
    s_user s' = [Op_mkfile [97]; Op_write [97] [1; 2; 3] 4096 3].
Proof.
  destruct (send_stream_replayed noting (demo_stream demo_bytes) 1 demo_cmds [] true 3) as (s' & Hrun & Hu).
  - split; [vm_compute; reflexivity|repeat constructor].
  - vm_compute. split; congruence.
  - exact demo_cmds_ok.
  - cbn. lia.
  - cbn. lia.
  - exists s'. split; [exact Hrun|exact Hu].
Defined.

Definition demo_command : list Z := encode BTRFS_SEND_C_MKFILE [(BTRFS_SEND_A_PATH, [97])].

Lemma damaged_command_refused_witness :
  exists s', read_and_process_cmd noting (demo_stream (take 14 demo_command ++ 98 :: [])) = Some (- EINVAL, s') /\ s_user s' = [].
Proof.
  apply (damaged_command_refused noting (demo_stream (take 14 demo_command ++ [98])) BTRFS_SEND_C_MKFILE [(BTRFS_SEND_A_PATH, [97])]
    (take 14 demo_command) [] 97 98 []).
  - vm_compute. reflexivity.
  - vm_compute. lia.
  - unfold is_byte. lia.
  - lia.
  - split; [reflexivity|repeat constructor].
  - vm_compute. split; congruence.
  - intros a d Hin. apply list_elem_of_singleton in Hin. injection Hin as -> ->. by apply small_bytes.
  - vm_compute. congruence.
Defined.

Lemma read_cmd_inside_witness : exists r s', read_cmd (demo_stream [200; 1; 0; 0; 7]) = Some (r, s') /\ s_user s' = [].
Proof.
  apply (read_cmd_inside (demo_stream [200; 1; 0; 0; 7]) 456).
  - vm_compute. reflexivity.
  - vm_compute. split; congruence.
  - repeat constructor.
Defined.

Lemma oversized_command_overruns_witness :
  read_cmd (demo_stream ([247; 255; 0; 0; 3; 0; 0; 0; 0; 0] ++ replicate (Z.to_nat 65527) 0 ++ [])) = None.
Proof.
  apply (oversized_command_overruns _ [247; 255; 0; 0; 3; 0; 0; 0; 0; 0] (replicate (Z.to_nat 65527) 0) []).
  - split; [reflexivity|repeat constructor].
  - reflexivity.
  - vm_compute. reflexivity.
  - rewrite length_replicate. vm_compute. split; congruence.
Defined.

(** An attribute that claims more bytes than its command has is not refused: the
    path is read from behind the buffer. *)
Example attribute_past_buffer :
  let cmd := le_bytes 4 4 ++ le_bytes 2 BTRFS_SEND_C_MKFILE in
  let attr := le_bytes 2 BTRFS_SEND_A_PATH ++ le_bytes 2 65535 in
  read_and_process_cmd noting (demo_stream (cmd ++ le_bytes 4 (__crc32c_le 0 (cmd ++ le_bytes 4 0 ++ attr)) ++ attr)) = None.
Proof. vm_compute. reflexivity. Qed.

(** A clone of 4 GiB is passed on as a clone of 0 bytes. *)
Example clone_length_lost :
  let op := Op_clone [97] 0 (2 ^ 32) (replicate 16 0) 7 [98] 0 in
  (fun r => s_user r.2) <$> read_and_process_cmd noting (demo_stream (encode (op_cmd op) (op_attrs op))) =
    Some [Op_clone [97] 0 0 (replicate 16 0) 7 [98] 0].
Proof. vm_compute. reflexivity. Qed.
