(* ===== verification/SuperBlock.v ===== *)
(** Super blocks and the devices they are found on: reading and writing the
    copies of a super block, the functions of [src/disk-io.c], and the devices a
    scan has found, the functions of [src/volumes.c] that keep them.

    A super block is a [buf], its structure at offset 0 with
    [BTRFS_SUPER_INFO_SIZE] bytes around it. *)

From S2P Require Import Prelude Buf CtreeFmt ItemFmt LeafOps NodeOps TreeWorld Crc Volumes BlockIo.

Implicit Types (b sb : buf).

Definition BTRFS_MAGIC : Z := 0x4D5F53665248425F.
Definition BTRFS_SUPER_FLAG_METADUMP : Z := Z.shiftl 1 33.
Definition BTRFS_NUM_BACKUP_ROOTS : Z := 4.
Definition BTRFS_FEATURE_INCOMPAT_MIXED_BACKREF : Z := 1.
Definition BTRFS_FEATURE_INCOMPAT_SUPP : Z := 1 + 2 + 8 + 32 + 64 + 128 + 4 + 256.
Definition BTRFS_FEATURE_COMPAT_RO_SUPP : Z := 0.
Definition ENOTSUP : Z := 95.

(** ** [struct btrfs_super_block] *)

Definition sizeof_super_block : Z := 3531.
Definition btrfs_super_fsid sb : list Z := read_extent_buffer sb 32 16.
Definition btrfs_super_bytenr sb : Z := get_le 8 sb 48.
Definition btrfs_set_super_bytenr sb (v : Z) : buf := put_le 8 48 v sb.
Definition btrfs_super_flags sb : Z := get_le 8 sb 56.
Definition btrfs_set_super_flags sb (v : Z) : buf := put_le 8 56 v sb.
Definition btrfs_super_magic sb : Z := get_le 8 sb 64.
Definition btrfs_super_generation sb : Z := get_le 8 sb 72.
Definition btrfs_set_super_generation sb (v : Z) : buf := put_le 8 72 v sb.
Definition btrfs_super_root sb : Z := get_le 8 sb 80.
Definition btrfs_set_super_root sb (v : Z) : buf := put_le 8 80 v sb.
Definition btrfs_super_chunk_root sb : Z := get_le 8 sb 88.
Definition btrfs_set_super_chunk_root sb (v : Z) : buf := put_le 8 88 v sb.
Definition btrfs_super_bytes_used sb : Z := get_le 8 sb 120.
Definition btrfs_super_num_devices sb : Z := get_le 8 sb 136.
Definition btrfs_super_chunk_root_generation sb : Z := get_le 8 sb 164.
Definition btrfs_set_super_chunk_root_generation sb (v : Z) : buf := put_le 8 164 v sb.
Definition btrfs_super_compat_ro_flags sb : Z := get_le 8 sb 180.
Definition btrfs_super_incompat_flags sb : Z := get_le 8 sb 188.
Definition btrfs_set_super_incompat_flags sb (v : Z) : buf := put_le 8 188 v sb.
Definition btrfs_super_root_level sb : Z := get_le 1 sb 198.
Definition btrfs_set_super_root_level sb (v : Z) : buf := put_le 1 198 v sb.
Definition btrfs_super_chunk_root_level sb : Z := get_le 1 sb 199.
Definition btrfs_set_super_chunk_root_level sb (v : Z) : buf := put_le 1 199 v sb.
Definition offsetof_dev_item : Z := 201.
Definition offsetof_label : Z := 299.

(** [struct btrfs_root_backup], the [i]-th of [super_roots]. *)
Definition backup_offset (i : Z) : Z := 2859 + 168 * i.
Definition btrfs_backup_tree_root_gen sb (i : Z) : Z := get_le 8 sb (backup_offset i + 8).

(** ** [struct btrfs_dev_item] at [d], in a leaf or in a super block *)

Definition btrfs_device_id b (d : Z) : Z := get_le 8 b d.
Definition btrfs_set_device_id b (d v : Z) : buf := put_le 8 d v b.
Definition btrfs_device_total_bytes b (d : Z) : Z := get_le 8 b (d + 8).
Definition btrfs_set_device_total_bytes b (d v : Z) : buf := put_le 8 (d + 8) v b.
Definition btrfs_device_bytes_used b (d : Z) : Z := get_le 8 b (d + 16).
Definition btrfs_set_device_bytes_used b (d v : Z) : buf := put_le 8 (d + 16) v b.
Definition btrfs_device_io_align b (d : Z) : Z := get_le 4 b (d + 24).
Definition btrfs_set_device_io_align b (d v : Z) : buf := put_le 4 (d + 24) v b.
Definition btrfs_device_io_width b (d : Z) : Z := get_le 4 b (d + 28).
Definition btrfs_set_device_io_width b (d v : Z) : buf := put_le 4 (d + 28) v b.
Definition btrfs_device_sector_size b (d : Z) : Z := get_le 4 b (d + 32).
Definition btrfs_set_device_sector_size b (d v : Z) : buf := put_le 4 (d + 32) v b.
Definition btrfs_device_type b (d : Z) : Z := get_le 8 b (d + 36).
Definition btrfs_set_device_type b (d v : Z) : buf := put_le 8 (d + 36) v b.
Definition btrfs_set_device_generation b (d v : Z) : buf := put_le 8 (d + 44) v b.
Definition btrfs_device_uuid b (d : Z) : list Z := read_extent_buffer b (d + 66) (Z.to_nat BTRFS_UUID_SIZE).
Definition btrfs_device_fsid b (d : Z) : list Z := read_extent_buffer b (d + 82) (Z.to_nat BTRFS_UUID_SIZE).

(** [struct btrfs_device]; the [fs_devices] it belongs to is named by its
    [fsid]. *)
Record device := Device {
  dv_devid : Z;
  dv_uuid : list Z;
  dv_fs_devices : option (list Z);
  dv_fd : Z;
  dv_writeable : bool;
  dv_name : option (list Z);
  dv_label : list Z;
  dv_total_devs : Z;
  dv_super_bytes_used : Z;
  dv_total_bytes : Z;
  dv_bytes_used : Z;
  dv_type : Z;
  dv_io_align : Z;
  dv_io_width : Z;
  dv_sector_size : Z;
}.

(** ** Reading and writing the copies, [src/disk-io.c] *)

(** One [pread64] into [b]: whether the count is less than the size, in the type
    of the size, and what [b] holds then. *)
Definition read_super_at (st : disks) (fd bytenr : Z) b : bool * buf :=
  let '(ret, bytes) := pread st fd sizeof_super_block bytenr in
  (u64 ret <? sizeof_super_block, write_extent_buffer b bytes 0).

Definition copy_super sb b : buf := copy_extent_buffer sb b 0 0 sizeof_super_block.

(** The loop over the copies from the [i]-th on, [n] of them. *)
Fixpoint read_mirrors (n : nat) (i : Z) (st : disks) (fd : Z) b (fsid : option (list Z)) sb (transid : Z) : Z * buf :=
  let out := (if 0 <? transid then 0 else -1, sb) in
  match n with
  | O => out
  | S n =>
      let bytenr := btrfs_sb_offset i in
      let '(short, b) := read_super_at st fd bytenr b in
      if short then out
      else if negb (btrfs_super_bytenr b =? bytenr) then read_mirrors n (i + 1) st fd b fsid sb transid
      else if (btrfs_super_magic b =? 0) && (i =? 0) then (-1, sb)
      else if negb (btrfs_super_magic b =? BTRFS_MAGIC) then read_mirrors n (i + 1) st fd b fsid sb transid
      else
        let f := match fsid with Some f => f | None => btrfs_super_fsid b end in
        if negb (memcmp_extent_buffer b f 32) then read_mirrors n (i + 1) st fd b fsid sb transid
        else if transid <? btrfs_super_generation b
        then read_mirrors n (i + 1) st fd b (Some f) (copy_super sb b) (btrfs_super_generation b)
        else read_mirrors n (i + 1) st fd b (Some f) sb transid
  end.

(** [b] is what the local buffer holds before. *)
Definition btrfs_read_dev_super (st : disks) (fd : Z) b sb (sb_bytenr : Z) : Z * buf :=
  if negb (sb_bytenr =? BTRFS_SUPER_INFO_OFFSET) then
    let '(short, b) := read_super_at st fd sb_bytenr b in
    if short then (-1, sb)
    else if negb (btrfs_super_bytenr b =? sb_bytenr) || negb (btrfs_super_magic b =? BTRFS_MAGIC) then (-1, sb)
    else (0, copy_super sb b)
  else read_mirrors (Z.to_nat BTRFS_SUPER_MIRROR_MAX) 0 st fd b None sb 0.

Record super_world := SuperWorld { sw_super : buf; sw_disks : disks }.
Open Scope act_scope.

Definition set_super (f : buf -> buf) : act super_world unit := modify (fun w => SuperWorld (f (sw_super w)) (sw_disks w)).

(** The sum over all but its own place. *)
Definition csum_super sb : buf :=
  let crc := __crc32c_le (u32 (Z.lnot 0)) (read_extent_buffer sb BTRFS_CSUM_SIZE (Z.to_nat (BTRFS_SUPER_INFO_SIZE - BTRFS_CSUM_SIZE))) in
  write_extent_buffer sb (btrfs_csum_final crc) 0.

Definition write_super_at (fd bytenr : Z) : act super_world unit :=
  set_super (fun sb => csum_super (btrfs_set_super_bytenr sb bytenr)) ;;;
  w <- gets (fun w => w) ;;
  let '(ret, _, st) := pwrite (sw_disks w) fd (sw_super w) 0 BTRFS_SUPER_INFO_SIZE bytenr in
  modify (fun w => SuperWorld (sw_super w) st) ;;;
  bug_on (negb (ret =? BTRFS_SUPER_INFO_SIZE)).

Fixpoint write_mirrors (n : nat) (i : Z) (fd total_bytes : Z) : act super_world unit :=
  match n with
  | O => ret tt
  | S n =>
      let bytenr := btrfs_sb_offset i in
      if total_bytes <? u64 (bytenr + BTRFS_SUPER_INFO_SIZE) then ret tt
      else write_super_at fd bytenr ;;; write_mirrors n (i + 1) fd total_bytes
  end.

(** [super_bytenr] is that of [root->fs_info]; [sb] is its [super_copy]. *)
Definition write_dev_supers (super_bytenr : Z) (dev : device) : act super_world Z :=
  if negb (super_bytenr =? BTRFS_SUPER_INFO_OFFSET) then write_super_at (dv_fd dev) super_bytenr ;;; ret 0
  else write_mirrors (Z.to_nat BTRFS_SUPER_MIRROR_MAX) 0 (dv_fd dev) (dv_total_bytes dev) ;;; ret 0.

(** What [write_all_supers] puts into the super block for a device. *)
Definition fill_super_dev_item sb (dev : device) (fsid : list Z) : buf :=
  let d := offsetof_dev_item in
  let sb := btrfs_set_device_generation sb d 0 in
  let sb := btrfs_set_device_type sb d (dv_type dev) in
  let sb := btrfs_set_device_id sb d (dv_devid dev) in
  let sb := btrfs_set_device_total_bytes sb d (dv_total_bytes dev) in
  let sb := btrfs_set_device_bytes_used sb d (dv_bytes_used dev) in
  let sb := btrfs_set_device_io_align sb d (dv_io_align dev) in
  let sb := btrfs_set_device_io_width sb d (dv_io_width dev) in
  let sb := btrfs_set_device_sector_size sb d (dv_sector_size dev) in
  let sb := write_extent_buffer sb (dv_uuid dev) (d + 66) in
  let sb := write_extent_buffer sb fsid (d + 82) in
  btrfs_set_super_flags sb (Z.lor (btrfs_super_flags sb) BTRFS_HEADER_FLAG_WRITTEN).

Fixpoint write_all_supers (super_bytenr : Z) (devices : list device) : act super_world Z :=
  match devices with
  | [] => ret 0
  | dev :: devices =>
      if negb (dv_writeable dev) then write_all_supers super_bytenr devices
      else
        fsid <- assume_some (dv_fs_devices dev) ;;
        set_super (fun sb => fill_super_dev_item sb dev fsid) ;;;
        r <- write_dev_supers super_bytenr dev ;;
        bug_on (negb (r =? 0)) ;;;
        write_all_supers super_bytenr devices
  end.

(** [write_ctree_super]: [tree_start], [tree_level] and so on are of the nodes of
    the two roots. *)
Definition write_ctree_super (readonly : bool) (super_bytenr : Z) (devices : list device) (transid tree_start tree_level chunk_start chunk_level chunk_generation : Z) :
    act super_world Z :=
  if readonly then ret 0
  else
    set_super (fun sb =>
      let sb := btrfs_set_super_generation sb transid in
      let sb := btrfs_set_super_root sb tree_start in
      let sb := btrfs_set_super_root_level sb tree_level in
      let sb := btrfs_set_super_chunk_root sb chunk_start in
      let sb := btrfs_set_super_chunk_root_level sb chunk_level in
      btrfs_set_super_chunk_root_generation sb chunk_generation) ;;;
    write_all_supers super_bytenr devices.

(** The return value and the super block. *)
Definition btrfs_check_fs_compatibility sb (writable : bool) : Z * buf :=
  let features := Z.ldiff (btrfs_super_incompat_flags sb) BTRFS_FEATURE_INCOMPAT_SUPP in
  if negb (features =? 0) then (- ENOTSUP, sb)
  else
    let features := btrfs_super_incompat_flags sb in
    let sb := if Z.land features BTRFS_FEATURE_INCOMPAT_MIXED_BACKREF =? 0
              then btrfs_set_super_incompat_flags sb (Z.lor features BTRFS_FEATURE_INCOMPAT_MIXED_BACKREF) else sb in
    let features := Z.ldiff (btrfs_super_compat_ro_flags sb) BTRFS_FEATURE_COMPAT_RO_SUPP in
    if writable && negb (features =? 0) then (- ENOTSUP, sb) else (0, sb).

Fixpoint best_backup_loop sb (n : nat) (i orig_gen gen best_index : Z) : Z :=
  match n with
  | O => best_index
  | S n =>
      let g := btrfs_backup_tree_root_gen sb i in
      if negb (g =? orig_gen) && (gen <? g) then best_backup_loop sb n (i + 1) orig_gen g i
      else best_backup_loop sb n (i + 1) orig_gen gen best_index
  end.

Definition find_best_backup_root sb : Z :=
  best_backup_loop sb (Z.to_nat BTRFS_NUM_BACKUP_ROOTS) 0 (btrfs_super_generation sb) 0 0.

(** ** The devices that were found, [src/volumes.c] *)

(** [struct btrfs_fs_devices]; [fs_seed] names another by its [fsid]. *)
Record fs_devices := FsDevices {
  fs_fsid : list Z;
  fs_latest_devid : Z;
  fs_latest_trans : Z;
  fs_lowest_devid : Z;
  fs_latest_bdev : Z;
  fs_lowest_bdev : Z;
  fs_devs : list device;
  fs_seed : option (list Z);
}.

(** [fs_uuids], and how many times [malloc] will succeed. *)
Record scan_world := ScanWorld { sc_uuids : list fs_devices; sc_mallocs : nat }.

Definition fs_with_devs (f : fs_devices) (l : list device) : fs_devices :=
  FsDevices (fs_fsid f) (fs_latest_devid f) (fs_latest_trans f) (fs_lowest_devid f) (fs_latest_bdev f) (fs_lowest_bdev f) l (fs_seed f).
Definition fs_with_latest (f : fs_devices) (devid trans : Z) : fs_devices :=
  FsDevices (fs_fsid f) devid trans (fs_lowest_devid f) (fs_latest_bdev f) (fs_lowest_bdev f) (fs_devs f) (fs_seed f).
Definition fs_with_lowest (f : fs_devices) (devid : Z) : fs_devices :=
  FsDevices (fs_fsid f) (fs_latest_devid f) (fs_latest_trans f) devid (fs_latest_bdev f) (fs_lowest_bdev f) (fs_devs f) (fs_seed f).
Definition fs_with_bdevs (f : fs_devices) (latest lowest : Z) : fs_devices :=
  FsDevices (fs_fsid f) (fs_latest_devid f) (fs_latest_trans f) (fs_lowest_devid f) latest lowest (fs_devs f) (fs_seed f).
Definition fs_with_seed (f : fs_devices) (seed : option (list Z)) : fs_devices :=
  FsDevices (fs_fsid f) (fs_latest_devid f) (fs_latest_trans f) (fs_lowest_devid f) (fs_latest_bdev f) (fs_lowest_bdev f) (fs_devs f) seed.

Definition dv_with_name (d : device) (name : list Z) : device :=
  Device (dv_devid d) (dv_uuid d) (dv_fs_devices d) (dv_fd d) (dv_writeable d) (Some name) (dv_label d) (dv_total_devs d)
    (dv_super_bytes_used d) (dv_total_bytes d) (dv_bytes_used d) (dv_type d) (dv_io_align d) (dv_io_width d) (dv_sector_size d).
Definition dv_with_fd (d : device) (fd : Z) (writeable : bool) : device :=
  Device (dv_devid d) (dv_uuid d) (dv_fs_devices d) fd writeable (dv_name d) (dv_label d) (dv_total_devs d)
    (dv_super_bytes_used d) (dv_total_bytes d) (dv_bytes_used d) (dv_type d) (dv_io_align d) (dv_io_width d) (dv_sector_size d).

Definition same_device (devid : Z) (uuid : list Z) (d : device) : bool := (dv_devid d =? devid) && bool_decide (dv_uuid d = uuid).
Definition __find_device (l : list device) (devid : Z) (uuid : list Z) : option device := List.find (same_device devid uuid) l.
Definition same_fs (fsid : list Z) (f : fs_devices) : bool := bool_decide (fsid = fs_fsid f).
Definition find_fsid (fsid : list Z) (l : list fs_devices) : option fs_devices := List.find (same_fs fsid) l.

(** A write through the pointer that a search has returned. *)
Fixpoint alter_first {A} (p : A -> bool) (f : A -> A) (l : list A) : list A :=
  match l with [] => [] | x :: l => if p x then f x :: l else x :: alter_first p f l end.
Definition alter_fs (fsid : list Z) (f : fs_devices -> fs_devices) : act scan_world unit :=
  modify (fun w => ScanWorld (alter_first (same_fs fsid) f (sc_uuids w)) (sc_mallocs w)).

Definition scan_malloc : act scan_world bool := fun w =>
  match sc_mallocs w with O => Some (false, w) | S n => Some (true, ScanWorld (sc_uuids w) n) end.

(** The bytes of a string up to its terminating zero. *)
Fixpoint c_string (n : nat) b (off : Z) : option (list Z) :=
  match n with
  | O => None
  | S n => if b off =? 0 then Some [] else l ← c_string n b (off + 1); Some (b off :: l)
  end.

(** A device the list lacks; the error, or the device. *)
Definition new_scanned_device (path : list Z) sb (devid : Z) (fsid : list Z) : act scan_world (option device) :=
  m <- scan_malloc ;;
  if negb m then ret None
  else
    m <- scan_malloc ;;
    if negb m then ret None
    else
      m <- scan_malloc ;;
      if negb m then ret None
      else
        label <- assume_some (c_string (Z.to_nat (BTRFS_SUPER_INFO_SIZE - offsetof_label)) sb offsetof_label) ;;
        let d := offsetof_dev_item in
        ret (Some (Device devid (btrfs_device_uuid sb d) (Some fsid) (-1) false (Some path) label (btrfs_super_num_devices sb)
          (btrfs_super_bytes_used sb) (btrfs_device_total_bytes sb d) (btrfs_device_bytes_used sb d) 0 0 0 0)).

(** The return value; [*fs_devices_ret] is the entry with the [fsid] of [sb]. *)
Definition device_list_add (path : list Z) sb (devid : Z) : act scan_world Z :=
  let found_transid := btrfs_super_generation sb in
  let fsid := btrfs_super_fsid sb in
  let uuid := btrfs_device_uuid sb offsetof_dev_item in
  let finish :=
    alter_fs fsid (fun f => if fs_latest_trans f <? found_transid then fs_with_latest f devid found_transid else f) ;;;
    alter_fs fsid (fun f => if devid <? fs_lowest_devid f then fs_with_lowest f devid else f) ;;;
    ret 0 in
  let add :=
    dev <- new_scanned_device path sb devid fsid ;;
    match dev with
    | None => ret (- ENOMEM)
    | Some dev => alter_fs fsid (fun f => fs_with_devs f (dev :: fs_devs f)) ;;; finish
    end in
  l <- gets sc_uuids ;;
  match find_fsid fsid l with
  | None =>
      m <- scan_malloc ;;
      if negb m then ret (- ENOMEM)
      else
        modify (fun w => ScanWorld (FsDevices fsid devid found_transid U64_MAX 0 0 [] None :: sc_uuids w) (sc_mallocs w)) ;;;
        add
  | Some fs =>
      match __find_device (fs_devs fs) devid uuid with
      | None => add
      | Some dev =>
          if bool_decide (dv_name dev = Some path) then finish
          else
            m <- scan_malloc ;;
            if negb m then ret (- ENOMEM)
            else
              alter_fs fsid (fun f => fs_with_devs f (alter_first (same_device devid uuid) (fun d => dv_with_name d path) (fs_devs f))) ;;;
              finish
      end
  end.

(** The return value and [*total_devs], which is set only when a super block was
    read. [b] is what the local buffer of [btrfs_read_dev_super] holds before, and
    [sb] the new one. *)
Definition btrfs_scan_one_device (st : disks) (fd : Z) (path : list Z) b sb (super_offset : Z) : act scan_world (Z * option Z) :=
  m <- scan_malloc ;;
  if negb m then ret (- ENOMEM, None)
  else
    let '(r, sb) := btrfs_read_dev_super st fd b sb super_offset in
    if r <? 0 then ret (- EIO, None)
    else
      let devid := btrfs_device_id sb offsetof_dev_item in
      let total_devs := if negb (Z.land (btrfs_super_flags sb) BTRFS_SUPER_FLAG_METADUMP =? 0) then 1 else btrfs_super_num_devices sb in
      r <- device_list_add path sb devid ;;
      ret (r, Some total_devs).

(** [open] gives a descriptor or a negated [errno]. *)
Fixpoint open_devices_loop (open : list Z -> Z) (rdwr : bool) (fs : fs_devices) (before rest : list device) : Z * fs_devices :=
  match rest with
  | [] => (0, fs_with_devs fs before)
  | dev :: rest =>
      match dv_name dev with
      | None => open_devices_loop open rdwr fs (before ++ [dev]) rest
      | Some name =>
          let fd := open name in
          if fd <? 0 then (fd, fs_with_devs fs (before ++ dev :: rest))
          else
            let fs := fs_with_bdevs fs (if dv_devid dev =? fs_latest_devid fs then fd else fs_latest_bdev fs)
                                       (if dv_devid dev =? fs_lowest_devid fs then fd else fs_lowest_bdev fs) in
            open_devices_loop open rdwr fs (before ++ [dv_with_fd dev fd (rdwr || dv_writeable dev)]) rest
      end
  end.

(** The loop of [btrfs_close_devices] over the seeds; the entries of [fs_uuids]
    are as many as there can be. *)
Fixpoint btrfs_close_devices (fuel : nat) (fsid : list Z) (l : list fs_devices) : option (list fs_devices) :=
  match fuel with
  | O => None
  | S fuel =>
      fs ← find_fsid fsid l;
      let l := alter_first (same_fs fsid) (fun f => fs_with_seed (fs_with_devs f ((fun d => dv_with_fd d (-1) false) <$> fs_devs f)) None) l in
      match fs_seed fs with None => Some l | Some seed => btrfs_close_devices fuel seed l end
  end.

Definition btrfs_open_devices (open : list Z -> Z) (fuel : nat) (rdwr : bool) (fsid : list Z) (l : list fs_devices) : option (Z * list fs_devices) :=
  fs ← find_fsid fsid l;
  let '(r, fs) := open_devices_loop open rdwr fs [] (fs_devs fs) in
  let l := alter_first (same_fs fsid) (fun _ => fs) l in
  if r <? 0 then l ← btrfs_close_devices fuel fsid l; Some (r, l) else Some (r, l).
