(* ===== verification/SuperProps.v ===== *)
(** What the functions on super blocks guarantee: the newest copy is read, what
    was written is read back, also when only some of the copies were written, and
    a scan knows the devices it has seen. *)

From S2P Require Import Prelude Buf CtreeFmt ItemFmt TreeWorld Crc Volumes BlockIo SuperBlock.

Implicit Types (b sb : buf) (d : disk).

(** ** Reading *)

(** What is on the disk at the place of the [i]-th copy. *)
Definition disk_super d (i : Z) : buf := fun x => dk_data d (btrfs_sb_offset i + x).
Definition no_bad d (i : Z) : Prop := forall x, 0 <= x < sizeof_super_block -> dk_bad d (btrfs_sb_offset i + x) = false.
Definition copy_readable d (i : Z) : Prop := btrfs_sb_offset i + sizeof_super_block <= dk_size d /\ no_bad d i.

(** A copy that passes the tests on it. *)
Definition copy_good d (i : Z) : Prop :=
  copy_readable d i /\ btrfs_super_bytenr (disk_super d i) = btrfs_sb_offset i /\ btrfs_super_magic (disk_super d i) = BTRFS_MAGIC.
Definition first_copy d (i : Z) : Prop := 0 <= i < 3 /\ copy_good d i /\ forall j, 0 <= j < i -> ~ copy_good d j.
Definition device_removed d : Prop :=
  copy_readable d 0 /\ btrfs_super_bytenr (disk_super d 0) = btrfs_sb_offset 0 /\ btrfs_super_magic (disk_super d 0) = 0.

Abbreviation generation d i := (btrfs_super_generation (disk_super d i)).

(** What is known after the copies below [i]: the file system of the first good
    one, the newest of its copies and its generation. *)
Record newest d (i : Z) (fsid : option (list Z)) sb0 sb (transid : Z) : Prop := {
  nw_fsid : match fsid with
            | None => forall j, 0 <= j < i -> ~ copy_good d j
            | Some f => exists j, 0 <= j < i /\ first_copy d j /\ f = btrfs_super_fsid (disk_super d j)
            end;
  nw_least : forall j f, 0 <= j < i -> copy_good d j -> fsid = Some f -> btrfs_super_fsid (disk_super d j) = f -> generation d j <= transid;
  nw_copy : transid = 0 /\ sb = sb0 \/
            0 < transid /\ exists j f, 0 <= j < i /\ copy_good d j /\ fsid = Some f /\ btrfs_super_fsid (disk_super d j) = f /\
              generation d j = transid /\ forall x, 0 <= x < sizeof_super_block -> sb x = disk_super d j x;
}.

Lemma sb_offset_cases i : 0 <= i < 3 ->
  i = 0 /\ btrfs_sb_offset i = 65536 \/ i = 1 /\ btrfs_sb_offset i = 67108864 \/ i = 2 /\ btrfs_sb_offset i = 274877906944.
Proof. intros Hi. assert (i = 0 \/ i = 1 \/ i = 2) as [->|[->| ->]] by lia; auto. Qed.

Lemma sb_offset_lt i j : 0 <= i < 3 -> 0 <= j < 3 -> i < j -> btrfs_sb_offset i + 4096 <= btrfs_sb_offset j.
Proof. intros Hi Hj Hij. destruct (sb_offset_cases i Hi) as [[-> ->]|[[-> ->]|[-> ->]]], (sb_offset_cases j Hj) as [[-> ->]|[[-> ->]|[-> ->]]]; lia. Qed.

Lemma sb_offset_range i : 0 <= i < 3 -> 65536 <= btrfs_sb_offset i < 2 ^ 39.
Proof. intros Hi. destruct (sb_offset_cases i Hi) as [[-> ->]|[[-> ->]|[-> ->]]]; lia. Qed.

(** The fields do not depend on what surrounds the structure. *)
Lemma super_fields b b' : (forall x, 0 <= x < sizeof_super_block -> b' x = b x) ->
  btrfs_super_bytenr b' = btrfs_super_bytenr b /\ btrfs_super_magic b' = btrfs_super_magic b /\
  btrfs_super_generation b' = btrfs_super_generation b /\ btrfs_super_fsid b' = btrfs_super_fsid b.
Proof.
  unfold sizeof_super_block. intros Hb. split_and!; [apply get_le_same|apply get_le_same|apply get_le_same|apply read_same];
    intros x Hx; apply Hb; lia.
Qed.

Lemma bad_seq d off n :
  existsb (fun k => dk_bad d (off + Z.of_nat k)) (seq 0 n) = false <-> forall x, 0 <= x < Z.of_nat n -> dk_bad d (off + x) = false.
Proof.
  rewrite <- not_true_iff_false, existsb_exists. split.
  - intros Hn x Hx. apply not_true_is_false. intros Hb. apply Hn. exists (Z.to_nat x). rewrite in_seq. split; [lia|]. by rewrite Z2Nat.id by lia.
  - intros Hx (k & Hk & Hb). apply in_seq in Hk. rewrite Hx in Hb by lia. done.
Qed.

(** One [pread]: the copy, or an error that leaves the buffer, or a short count. *)
Lemma read_super_at_run (st : disks) (fd : Z) d i b : st !! fd = Some d -> 0 <= i < 3 ->
  let '(short, b') := read_super_at st fd (btrfs_sb_offset i) b in
  if short then dk_size d < btrfs_sb_offset i + sizeof_super_block
  else copy_readable d i /\ (forall x, 0 <= x < sizeof_super_block -> b' x = disk_super d i x) \/ ~ no_bad d i /\ b' = b.
Proof.
  intros Hd Hi. pose proof (sb_offset_range i Hi) as Ho. unfold read_super_at, pread, copy_readable, no_bad. rewrite Hd. unfold rw_count.
  set (off := btrfs_sb_offset i) in *. set (n := Z.max 0 (Z.min (Z.min sizeof_super_block MAX_RW_COUNT) (dk_size d - off))).
  assert (Hn : n = Z.max 0 (Z.min sizeof_super_block (dk_size d - off))) by (unfold n, MAX_RW_COUNT, sizeof_super_block; lia). clearbody n.
  destruct (existsb _ _) eqn:Hbad.
  - change (u64 (-1) <? sizeof_super_block) with false. cbv iota. right. split; [|done]. intros Hx.
    assert (Hf : existsb (fun k => dk_bad d (off + Z.of_nat k)) (seq 0 (Z.to_nat n)) = false); [|congruence].
    apply bad_seq. intros x Hr. apply Hx. lia.
  - rewrite u64_id by (unfold sizeof_super_block in *; lia). destruct (Z.ltb_spec n sizeof_super_block); [unfold sizeof_super_block in *; lia|].
    left. assert (n = sizeof_super_block) as -> by (unfold sizeof_super_block in *; lia). split; [split; [unfold sizeof_super_block in *; lia|]|].
    + intros x Hx. apply (proj1 (bad_seq d off _) Hbad). unfold sizeof_super_block in *. lia.
    + intros x Hx. unfold disk_super. pose proof (read_write b (read_extent_buffer (dk_data d) off (Z.to_nat sizeof_super_block)) 0) as Hw.
      rewrite read_length in Hw. apply (f_equal (fun l => nth (Z.to_nat x) l 0)) in Hw. rewrite !read_nth in Hw by (unfold sizeof_super_block in *; lia).
      rewrite !Z2Nat.id in Hw by lia. exact Hw.
Qed.

Lemma newest_skip d i fsid sb0 sb transid : newest d i fsid sb0 sb transid -> ~ copy_good d i -> newest d (i + 1) fsid sb0 sb transid.
Proof.
  intros [H1 H2 H3] Hi. assert (Hcase : forall j, 0 <= j < i + 1 -> copy_good d j -> 0 <= j < i)
    by (intros j Hj Hg; destruct (decide (j = i)) as [->|]; [done|lia]). split.
  - destruct fsid as [f|]; [destruct H1 as (j & Hj & Hrest); exists j; split; [lia|done]|].
    intros j Hj Hg. exact (H1 j (Hcase j Hj Hg) Hg).
  - intros j f Hj Hg. apply H2; auto.
  - destruct H3 as [H3|(H3 & j & f & Hj & Hrest)]; [by left|right]. split; [done|]. exists j, f. split; [lia|done].
Qed.

(** A good copy of the file system, newer or not. *)
Lemma newest_take d i fsid sb0 sb transid : newest d i fsid sb0 sb transid -> 0 <= i < 3 -> copy_good d i ->
  let f := match fsid with Some f => f | None => btrfs_super_fsid (disk_super d i) end in
  btrfs_super_fsid (disk_super d i) = f ->
  (generation d i <= transid -> newest d (i + 1) (Some f) sb0 sb transid) /\
  (transid < generation d i -> forall sb', (forall x, 0 <= x < sizeof_super_block -> sb' x = disk_super d i x) ->
     newest d (i + 1) (Some f) sb0 sb' (generation d i)).
Proof.
  intros [H1 H2 H3] Hi Hg f Hf. assert (Ht : 0 <= transid) by (destruct H3 as [[-> _]|[? _]]; lia).
  assert (Hfirst : exists j, 0 <= j < i + 1 /\ first_copy d j /\ f = btrfs_super_fsid (disk_super d j)).
  { destruct fsid as [f'|]; [destruct H1 as (j & Hj & Hrest); exists j; split; [lia|done]|]. exists i. split; [lia|]. split; [|done]. split; [done|]. by split; [|apply H1]. }
  assert (Hold : forall j f', 0 <= j < i + 1 -> copy_good d j -> Some f = Some f' -> btrfs_super_fsid (disk_super d j) = f' ->
            j = i \/ generation d j <= transid).
  { intros j f' Hj Hgj [= <-] Hfj. destruct (decide (j = i)) as [->|]; [by left|right]. destruct fsid as [f'|].
    - apply (H2 j f); [lia|done|done|done].
    - exfalso. apply (H1 j); [lia|done]. }
  split.
  - intros Hle. split; [done| |].
    + intros j f' Hj Hgj Hs Hfj. destruct (Hold j f' Hj Hgj Hs Hfj) as [->|]; done.
    + destruct H3 as [H3|(H3 & j & f' & Hj & Hgj & Hs & Hfj & Hgen & Hx)]; [by left|right]. split; [done|]. exists j, f.
      split_and!; [lia|lia|done|done| |done|done]. subst f. by rewrite Hs.
  - intros Hlt sb' Hx. split; [done| |].
    + intros j f' Hj Hgj Hs Hfj. destruct (Hold j f' Hj Hgj Hs Hfj) as [->|]; lia.
    + right. split; [lia|]. exists i, f. split_and!; [lia|lia|done|done|done|done|done].
Qed.

(** A good copy of another file system. *)
Lemma newest_other d i f0 sb0 sb transid : newest d i (Some f0) sb0 sb transid -> btrfs_super_fsid (disk_super d i) <> f0 ->
  newest d (i + 1) (Some f0) sb0 sb transid.
Proof.
  intros [(j0 & Hj0 & H1) H2 H3] Hne. split.
  - exists j0. split; [lia|done].
  - intros j f Hj Hgj [= <-] Hfj. destruct (decide (j = i)) as [->|]; [done|]. apply (H2 j f0); [lia|done|done|done].
  - destruct H3 as [H3|(H3 & j & f & Hj & Hrest)]; [by left|right]. split; [done|]. exists j, f. split; [lia|done].
Qed.

Lemma newest_rest d i fsid sb0 sb transid : (forall j, i <= j < 3 -> ~ copy_good d j) -> 0 <= i <= 3 ->
  newest d i fsid sb0 sb transid -> newest d 3 fsid sb0 sb transid.
Proof.
  intros Hn Hi Hw. remember (Z.to_nat (3 - i)) as k eqn:Hk. revert i Hn Hi Hw Hk. induction k as [|k IH]; intros i Hn Hi Hw Hk.
  - by replace 3 with i by lia.
  - apply (IH (i + 1)); [intros j Hj; apply Hn; lia|lia| |lia]. apply newest_skip; [done|]. apply Hn. lia.
Qed.

(** The buffer holds no copy that is still to be looked at and cannot be read. *)
Definition not_stale d b (i : Z) : Prop := forall j, i <= j < 3 -> btrfs_super_bytenr b = btrfs_sb_offset j -> no_bad d j.

Lemma read_mirrors_run n (i : Z) (st : disks) (fd : Z) d b fsid sb0 sb transid :
  st !! fd = Some d -> 0 <= i -> i + Z.of_nat n = 3 -> not_stale d b i ->
  (forall i j, 0 <= i < j -> j < 3 -> btrfs_super_bytenr (disk_super d i) = btrfs_sb_offset j -> no_bad d j) ->
  (i = 0 -> ~ device_removed d) -> newest d i fsid sb0 sb transid ->
  exists fsid' sb' t, read_mirrors n i st fd b fsid sb transid = (if 0 <? t then 0 else -1, sb') /\ newest d 3 fsid' sb0 sb' t.
Proof.
  intros Hd. revert i b fsid sb transid. induction n as [|n IH]; intros i b fsid sb transid Hi Hn Hstale Hmis Hrem Hw.
  { replace i with 3 in Hw by lia. by exists fsid, sb, transid. }
  assert (Hi3 : 0 <= i < 3) by lia. pose proof (read_super_at_run st fd d i b Hd Hi3) as Hrun. cbn [read_mirrors].
  destruct (read_super_at st fd (btrfs_sb_offset i) b) as [short b']. cbv zeta. destruct short.
  { exists fsid, sb, transid. split; [done|]. apply (newest_rest d i); [|lia|done]. intros j Hj ([Hsz _] & _ & _).
    destruct (decide (j = i)) as [->|]; [lia|]. pose proof (sb_offset_lt i j Hi3 ltac:(lia) ltac:(lia)). lia. }
  (* Past a copy that is not good. *)
  assert (Hskip : ~ copy_good d i -> not_stale d b' (i + 1) -> exists fsid' sb' t,
            read_mirrors n (i + 1) st fd b' fsid sb transid = (if 0 <? t then 0 else -1, sb') /\ newest d 3 fsid' sb0 sb' t).
  { intros Hg Hs. apply IH; [lia|lia|done|done|lia|by apply newest_skip]. }
  destruct Hrun as [[Hr Hb']|[Hr ->]].
  2:{ assert (Hg : ~ copy_good d i) by (by intros [[_ ?] _]). destruct (Z.eqb_spec (btrfs_super_bytenr b) (btrfs_sb_offset i)) as [He|]; cbn [negb].
      - exfalso. apply Hr, (Hstale i); [lia|done].
      - apply Hskip; [done|]. intros j Hj. apply Hstale. lia. }
  destruct (super_fields _ _ Hb') as (Eb & Em & Eg & Ef).
  assert (Hs' : not_stale d b' (i + 1)) by (intros j Hj; rewrite Eb; apply Hmis; lia).
  rewrite Eb, Em, Eg. destruct (Z.eqb_spec (btrfs_super_bytenr (disk_super d i)) (btrfs_sb_offset i)) as [He|Hne]; cbn [negb];
    [|by apply Hskip; [intros (_ & ? & _)|]].
  destruct (Z.eqb_spec (btrfs_super_magic (disk_super d i)) 0) as [Hz|Hz]; cbn [andb].
  { destruct (Z.eqb_spec i 0) as [->|]; [by exfalso; apply Hrem|]. rewrite Hz. apply Hskip; [|done]. intros (_ & _ & Hm). by rewrite Hz in Hm. }
  destruct (Z.eqb_spec (btrfs_super_magic (disk_super d i)) BTRFS_MAGIC) as [Hm|Hm]; cbn [negb]; [|by apply Hskip; [intros (_ & _ & ?)|]].
  assert (Hg : copy_good d i) by done. set (f := match fsid with Some f => f | None => _ end).
  assert (Hf : f = match fsid with Some f => f | None => btrfs_super_fsid (disk_super d i) end) by (unfold f; by rewrite Ef).
  destruct (memcmp_extent_buffer b' f 32) eqn:Hcmp; cbn [negb].
  2:{ (* A copy of another file system is passed over. *)
      assert (Hne : btrfs_super_fsid (disk_super d i) <> f \/ length f <> 16%nat).
      { unfold memcmp_extent_buffer in Hcmp. apply bool_decide_eq_false in Hcmp. rewrite <- Ef. unfold btrfs_super_fsid.
        destruct (decide (length f = 16%nat)) as [Hl|]; [left; by rewrite <- Hl|by right]. }
      destruct fsid as [f0|].
      2:{ exfalso. destruct Hne as [Hne|Hne]; [by rewrite Hf in Hne|]. apply Hne. rewrite Hf. unfold btrfs_super_fsid. by rewrite read_length. }
      simpl in f. subst f. clear Hf. assert (Hne' : btrfs_super_fsid (disk_super d i) <> f0).
      { destruct Hne as [Hne|Hne]; [done|]. intros <-. apply Hne. unfold btrfs_super_fsid. by rewrite read_length. }
      apply IH; [lia|lia|done|done|lia|]. by apply newest_other. }
  assert (Hfs : btrfs_super_fsid (disk_super d i) = match fsid with Some f => f | None => btrfs_super_fsid (disk_super d i) end).
  { destruct fsid as [f0|]; [|done]. simpl in f. subst f. unfold memcmp_extent_buffer in Hcmp. apply bool_decide_eq_true in Hcmp.
    rewrite <- Ef. destruct Hw as [(j0 & _ & _ & ->) _ _]. unfold btrfs_super_fsid in *. by rewrite read_length in Hcmp. }
  destruct (newest_take d i fsid sb0 sb transid Hw Hi3 Hg Hfs) as [Hold Hnew]. rewrite Hf.
  destruct (Z.ltb_spec transid (generation d i)) as [Hlt|Hge].
  - apply IH; [lia|lia|done|done|lia|]. apply Hnew; [done|]. intros x Hx. rewrite <- (Hb' x Hx). unfold copy_super, copy_extent_buffer.
    rewrite (proj2 (Z.leb_le _ _)), (proj2 (Z.ltb_lt _ _)) by lia. cbn [andb]. f_equal. lia.
  - apply IH; [lia|lia|done|done|lia|]. by apply Hold.
Qed.

Lemma read_newest (st : disks) (fd : Z) d b sb :
  st !! fd = Some d -> not_stale d b 0 ->
  (forall i j, 0 <= i < j -> j < 3 -> btrfs_super_bytenr (disk_super d i) = btrfs_sb_offset j -> no_bad d j) ->
  ~ device_removed d ->
  (exists sb' i j, btrfs_read_dev_super st fd b sb BTRFS_SUPER_INFO_OFFSET = (0, sb') /\ 0 <= i < 3 /\ copy_good d i /\
     (forall x, 0 <= x < sizeof_super_block -> sb' x = disk_super d i x) /\
     first_copy d j /\ btrfs_super_fsid (disk_super d i) = btrfs_super_fsid (disk_super d j) /\ 0 < generation d i /\
     forall k, 0 <= k < 3 -> copy_good d k -> btrfs_super_fsid (disk_super d k) = btrfs_super_fsid (disk_super d j) ->
       generation d k <= generation d i) \/
  (btrfs_read_dev_super st fd b sb BTRFS_SUPER_INFO_OFFSET = (-1, sb) /\
     forall k j, 0 <= k < 3 -> copy_good d k -> first_copy d j -> btrfs_super_fsid (disk_super d k) = btrfs_super_fsid (disk_super d j) ->
       generation d k = 0).
Proof.
  intros Hd Hst Hmis Hrem. unfold btrfs_read_dev_super. cbn [Z.eqb BTRFS_SUPER_INFO_OFFSET Z.mul negb]. rewrite Z.eqb_refl. cbn [negb].
  destruct (read_mirrors_run (Z.to_nat BTRFS_SUPER_MIRROR_MAX) 0 st fd d b None sb sb 0) as (fsid & sb' & t & Hrun & [H1 H2 H3]); try done.
  { split; [intros j Hj; lia|intros j f Hj; lia|by left]. }
  destruct H3 as [[-> ->]|(Ht & i & f & Hi & Hg & -> & Hf & Hgen & Hx)].
  - right. split; [done|]. intros k j Hk Hg Hj Hf. destruct fsid as [f|]; [|by exfalso; apply (H1 k)].
    destruct H1 as (j' & Hj' & Hfirst & ->). pose proof (get_le_range 8 (disk_super d k) 72) as Hr.
    assert (j' = j) as ->.
    { destruct Hfirst as (R1 & G1 & L1), Hj as (R2 & G2 & L2). destruct (Z.lt_trichotomy j' j) as [?|[?|?]]; [|done|].
      - exfalso. apply (L2 j'); [lia|done].
      - exfalso. apply (L1 j); [lia|done]. }
    unfold btrfs_super_generation in *. specialize (H2 k _ Hk Hg eq_refl Hf). lia.
  - left. destruct H1 as (j & Hj & Hfirst & ->). exists sb', i, j. rewrite (proj2 (Z.ltb_lt _ _) Ht) in Hrun.
    split_and!; [done|lia|lia|done|done|done|done|lia|]. intros k Hk Hgk Hfk. rewrite Hgen. by apply (H2 k _ Hk Hgk eq_refl).
Qed.

(** C32: On a device that is not marked as removed - the first copy at its place
    and without a magic number - [btrfs_read_dev_super] returns a copy that is good
    - its place, its magic and the file system of the first good one are right - and
    of the largest generation among those; it fails only when these are of
    generation 0.  Copies behind the end of the device, or of another file system,
    do no harm.  The code takes a failed [pread64] for a success and goes on with
    what the buffer holds, so no copy may be unreadable whose place stands in the
    buffer ([not_stale]) or in an earlier copy. *)
Theorem read_dev_super_newest (st : disks) (fd : Z) d b sb :
  st !! fd = Some d -> not_stale d b 0 ->
  (forall i j, 0 <= i < j -> j < 3 -> btrfs_super_bytenr (disk_super d i) = btrfs_sb_offset j -> no_bad d j) ->
  ~ device_removed d ->
  (exists sb' i j, btrfs_read_dev_super st fd b sb BTRFS_SUPER_INFO_OFFSET = (0, sb') /\ 0 <= i < 3 /\ copy_good d i /\
     (forall x, 0 <= x < sizeof_super_block -> sb' x = disk_super d i x) /\
     first_copy d j /\ btrfs_super_fsid (disk_super d i) = btrfs_super_fsid (disk_super d j) /\ 0 < generation d i /\
     forall k, 0 <= k < 3 -> copy_good d k -> btrfs_super_fsid (disk_super d k) = btrfs_super_fsid (disk_super d j) ->
       generation d k <= generation d i) \/
  (btrfs_read_dev_super st fd b sb BTRFS_SUPER_INFO_OFFSET = (-1, sb) /\
     forall k j, 0 <= k < 3 -> copy_good d k -> first_copy d j -> btrfs_super_fsid (disk_super d k) = btrfs_super_fsid (disk_super d j) ->
       generation d k = 0).
Proof. apply read_newest. Qed.

(** ** Writing *)

(** The same but for the sum and the place; for the part that is about a device
    too. *)
Definition same_content sb sb' : Prop := forall x, ~ (0 <= x < 4) -> ~ (48 <= x < 56) -> sb' x = sb x.
Definition same_fs_content sb sb' : Prop := forall x, 4 <= x < 48 \/ 64 <= x < 201 \/ 299 <= x -> sb' x = sb x.

(** The [i]-th copy of [sb]. *)
Definition sealed sb (i : Z) : buf := csum_super (btrfs_set_super_bytenr sb (btrfs_sb_offset i)).

Lemma sealed_content sb i : same_content sb (sealed sb i).
Proof.
  intros x H1 H2. unfold sealed, csum_super. rewrite write_outside by (unfold btrfs_csum_final; simpl; lia).
  unfold btrfs_set_super_bytenr. untouched.
Qed.

Lemma sealed_bytenr sb i : 0 <= i < 3 -> btrfs_super_bytenr (sealed sb i) = btrfs_sb_offset i.
Proof.
  intros Hi. pose proof (sb_offset_range i Hi). unfold btrfs_super_bytenr, sealed, csum_super.
  rewrite (get_le_same 8 (btrfs_set_super_bytenr sb (btrfs_sb_offset i))).
  - unfold btrfs_set_super_bytenr. rewrite get_put_le_id; [done|]. cbn; lia.
  - intros x Hx. apply write_outside. unfold btrfs_csum_final. simpl. lia.
Qed.

(** The disk with [sb] at the place of the [i]-th copy. *)
Definition disk_with d (off : Z) sb : disk := Disk (dk_size d) (dk_bad d) (copy_extent_buffer (dk_data d) sb off 0 BTRFS_SUPER_INFO_SIZE).

Lemma write_super_at_run (w : super_world) (fd : Z) d (i : Z) :
  sw_disks w !! fd = Some d -> 0 <= i < 3 -> btrfs_sb_offset i + BTRFS_SUPER_INFO_SIZE <= dk_size d ->
  write_super_at fd (btrfs_sb_offset i) w =
    Some (tt, SuperWorld (sealed (sw_super w) i) (<[fd := disk_with d (btrfs_sb_offset i) (sealed (sw_super w) i)]> (sw_disks w))).
Proof.
  intros Hd Hi Hsz. pose proof (sb_offset_range i Hi). unfold write_super_at. unfold BTRFS_SUPER_INFO_SIZE in *.
  set (w1 := SuperWorld (sealed (sw_super w) i) (sw_disks w)). rewrite (bind_some _ _ w tt w1) by done. rewrite (bind_some _ _ w1 w1 w1) by done.
  unfold pwrite, rw_count. change (sw_disks w1) with (sw_disks w). rewrite Hd.
  replace (Z.max 0 _) with 4096 by (unfold MAX_RW_COUNT; lia). cbv zeta. by erewrite (bind_some _ _ w1 tt).
Qed.

Lemma disk_with_same d i sb x : disk_super (disk_with d (btrfs_sb_offset i) sb) i x = if (0 <=? x) && (x <? 4096) then sb x else disk_super d i x.
Proof.
  unfold disk_super, disk_with, copy_extent_buffer, BTRFS_SUPER_INFO_SIZE. cbn [dk_data]. zbool; try lia; try done. f_equal. lia.
Qed.

Lemma disk_with_other d i j sb x : 0 <= i < 3 -> 0 <= j < 3 -> j <> i -> 0 <= x < 4096 ->
  disk_super (disk_with d (btrfs_sb_offset i) sb) j x = disk_super d j x.
Proof.
  intros Hi Hj Hne Hx. unfold disk_super, disk_with, copy_extent_buffer, BTRFS_SUPER_INFO_SIZE. cbn [dk_data].
  destruct (Z.lt_trichotomy i j) as [Hlt|[?|Hlt]]; [|done|]; [pose proof (sb_offset_lt i j Hi Hj Hlt)|pose proof (sb_offset_lt j i Hj Hi Hlt)]; zbool; (lia || done).
Qed.

(** What the first copies are after they were written, the others being as they
    were. *)
Record copies_written (sb : buf) d d' (lo hi total : Z) : Prop := {
  cw_size : dk_size d' = dk_size d;
  cw_bad : dk_bad d' = dk_bad d;
  cw_new : forall j, lo <= j < hi -> btrfs_sb_offset j + BTRFS_SUPER_INFO_SIZE <= total ->
    btrfs_super_bytenr (disk_super d' j) = btrfs_sb_offset j /\
    forall x, 0 <= x < BTRFS_SUPER_INFO_SIZE -> ~ (0 <= x < 4) -> ~ (48 <= x < 56) -> disk_super d' j x = sb x;
  cw_old : forall j, 0 <= j < 3 -> ~ (lo <= j < hi /\ btrfs_sb_offset j + BTRFS_SUPER_INFO_SIZE <= total) ->
    forall x, 0 <= x < BTRFS_SUPER_INFO_SIZE -> disk_super d' j x = disk_super d j x;
}.

Lemma same_content_trans a b c : same_content a b -> same_content b c -> same_content a c.
Proof. intros H1 H2 x Hx Hy. by rewrite H2, H1. Qed.

Lemma write_mirrors_run n (i : Z) (w : super_world) (fd total : Z) d :
  sw_disks w !! fd = Some d -> total <= dk_size d -> 0 <= i -> i + Z.of_nat n <= 3 ->
  exists sb' d', write_mirrors n i fd total w = Some (tt, SuperWorld sb' (<[fd := d']> (sw_disks w))) /\
    same_content (sw_super w) sb' /\ copies_written (sw_super w) d d' i (i + Z.of_nat n) total.
Proof.
  intros Hd Hsz. revert i w d Hd Hsz. induction n as [|n IH]; intros i w d Hd Hsz Hi Hn.
  { exists (sw_super w), d. rewrite insert_id by done. split; [by destruct w|]. split; [done|]. split; [done|done|intros; lia|done]. }
  cbn [write_mirrors]. assert (Hi3 : 0 <= i < 3) by lia. pose proof (sb_offset_range i Hi3).
  rewrite u64_id by (unfold BTRFS_SUPER_INFO_SIZE; lia). destruct (Z.ltb_spec total (btrfs_sb_offset i + BTRFS_SUPER_INFO_SIZE)) as [Hout|Hin].
  - exists (sw_super w), d. rewrite insert_id by done. split; [by destruct w|]. split; [done|].
    split; [done|done| |done]. intros j Hj Hfit. exfalso. destruct (decide (j = i)) as [->|]; [lia|].
    pose proof (sb_offset_lt i j Hi3 ltac:(lia) ltac:(lia)). unfold BTRFS_SUPER_INFO_SIZE in *. lia.
  - rewrite (bind_some _ _ _ _ _ (write_super_at_run w fd d i Hd Hi3 ltac:(lia))).
    set (sb1 := sealed (sw_super w) i). set (d1 := disk_with d (btrfs_sb_offset i) sb1). set (w1 := SuperWorld sb1 _).
    destruct (IH (i + 1) w1 d1) as (sb' & d' & Hrun & Hsame & [C1 C2 C3 C4]); [apply lookup_insert_eq|done|lia|lia|].
    exists sb', d'. split; [rewrite Hrun; do 3 f_equal; apply insert_insert_eq|]. split; [exact (same_content_trans _ _ _ (sealed_content _ i) Hsame)|].
    split; [done|done| |].
    + intros j Hj Hfit. destruct (decide (j = i)) as [->|Hne].
      * assert (Hx : forall x, 0 <= x < BTRFS_SUPER_INFO_SIZE -> disk_super d' i x = sb1 x).
        { intros x Hx. rewrite C4 by (done || lia). unfold d1. rewrite disk_with_same. unfold BTRFS_SUPER_INFO_SIZE in *. zbool; lia || done. }
        split; [rewrite <- (sealed_bytenr (sw_super w) i Hi3); apply get_le_same; intros x ?; apply Hx; unfold BTRFS_SUPER_INFO_SIZE; lia|].
        intros x Hr H1 H2. rewrite Hx by done. by apply sealed_content.
      * destruct (C3 j ltac:(lia) Hfit) as [Hb Hx]. split; [done|]. intros x Hr H1 H2. rewrite Hx by done. by apply sealed_content.
    + intros j Hj Hnot x Hx. assert (j <> i) by (intros ->; apply Hnot; lia).
      rewrite C4; [by apply disk_with_other|done| |done]. intros [? ?]. apply Hnot. lia.
Qed.

Lemma fields_of_content b b' : (forall x, 0 <= x < sizeof_super_block -> ~ (0 <= x < 4) -> ~ (48 <= x < 56) -> b' x = b x) ->
  btrfs_super_magic b' = btrfs_super_magic b /\ btrfs_super_generation b' = btrfs_super_generation b /\ btrfs_super_fsid b' = btrfs_super_fsid b.
Proof.
  unfold sizeof_super_block. intros Hb. split_and!; [apply get_le_same|apply get_le_same|apply read_same]; intros x Hx; apply Hb; lia.
Qed.

(** Every copy on the disk is of an older generation, or not of this file system. *)
Definition older d sb : Prop :=
  forall j, 0 <= j < 3 -> copy_good d j -> btrfs_super_fsid (disk_super d j) = btrfs_super_fsid sb -> generation d j < btrfs_super_generation sb.

Lemma written_read_back (st : disks) (fd : Z) sb d d' (n total : Z) b sb0 :
  st !! fd = Some d' -> copies_written sb d d' 0 n total -> 1 <= n <= 3 ->
  btrfs_sb_offset 0 + BTRFS_SUPER_INFO_SIZE <= total <= dk_size d -> (forall x, dk_bad d x = false) ->
  btrfs_super_magic sb = BTRFS_MAGIC -> 0 < btrfs_super_generation sb -> older d sb ->
  exists sb', btrfs_read_dev_super st fd b sb0 BTRFS_SUPER_INFO_OFFSET = (0, sb') /\
    forall x, 0 <= x < sizeof_super_block -> ~ (0 <= x < 4) -> ~ (48 <= x < 56) -> sb' x = sb x.
Proof.
  intros Hd [C1 C2 C3 C4] Hn Hsz Hbad Hmagic Hgen Hold. unfold BTRFS_SUPER_INFO_SIZE in *.
  assert (Hnb : forall j, no_bad d' j) by (intros j x _; rewrite C2; apply Hbad).
  assert (Hnew : forall j, 0 <= j < n -> btrfs_sb_offset j + 4096 <= total -> copy_good d' j /\
    btrfs_super_generation (disk_super d' j) = btrfs_super_generation sb /\ btrfs_super_fsid (disk_super d' j) = btrfs_super_fsid sb).
  { intros j Hj Hfit. destruct (C3 j Hj Hfit) as [Hb Hx]. destruct (fields_of_content sb (disk_super d' j)) as (Em & Eg & Ef).
    { intros x ?. apply Hx. unfold sizeof_super_block in *. lia. }
    split; [|done]. split; [split; [rewrite C1; unfold sizeof_super_block; lia|done]|]. split; [done|]. by rewrite Em. }
  destruct (Hnew 0) as (G0 & Eg0 & Ef0); [lia|lia|].
  assert (Hfirst : forall j, first_copy d' j -> j = 0).
  { intros j (Hj & _ & Hl). destruct (decide (j = 0)) as [->|]; [done|]. exfalso. apply (Hl 0); [lia|done]. }
  destruct (read_newest st fd d' b sb0 Hd) as [(sb' & i & j & Hrun & Hi & Hg & Hx & Hj & Hf & _ & Hmax)|[_ Hnone]].
  - intros j _ _. apply Hnb.
  - intros i j _ _ _. apply Hnb.
  - intros (_ & _ & Hz). destruct G0 as (_ & _ & Hm). by rewrite Hz in Hm.
  - exists sb'. split; [done|]. rewrite (Hfirst j Hj) in *. intros x Hr H1 H2. rewrite Hx by done.
    destruct (decide (i < n /\ btrfs_sb_offset i + 4096 <= total)) as [[? ?]|Hnot].
    + apply (C3 i); [lia|done|unfold sizeof_super_block in *; lia|done|done].
    + exfalso. specialize (Hmax 0 ltac:(lia) G0 eq_refl). rewrite Eg0 in Hmax.
      assert (Hsame : forall x, 0 <= x < sizeof_super_block -> disk_super d' i x = disk_super d i x).
      { intros y Hy. apply C4; [done| |unfold sizeof_super_block in *; lia]. intros [? ?]. apply Hnot. lia. }
      destruct (super_fields _ _ Hsame) as (Eb & Em & Eg & Ef). destruct Hg as ([Hs _] & Hb & Hm).
      specialize (Hold i Hi). rewrite Eg in Hmax. enough (copy_good d i /\ btrfs_super_fsid (disk_super d i) = btrfs_super_fsid sb) as [HA HB] by (specialize (Hold HA HB); lia).
      split; [split; [split; [by rewrite <- C1|intros y _; apply Hbad]|split; congruence]|congruence].
  - exfalso. specialize (Hnone 0 0 ltac:(lia) G0). rewrite Eg0 in Hnone. enough (first_copy d' 0) by (specialize (Hnone H eq_refl); lia).
    split; [lia|]. split; [done|]. intros j Hj. lia.
Qed.

(** A super block that is written to the copies of a device is read back, also
    when the program stops after the first copy or the second: from then on the
    old ones are not taken any more. *)
Theorem super_survives (w : super_world) (fd : Z) d (n : nat) (total : Z) b sb0 :
  sw_disks w !! fd = Some d -> (1 <= n <= Z.to_nat BTRFS_SUPER_MIRROR_MAX)%nat ->
  btrfs_sb_offset 0 + BTRFS_SUPER_INFO_SIZE <= total <= dk_size d -> (forall x, dk_bad d x = false) ->
  btrfs_super_magic (sw_super w) = BTRFS_MAGIC -> 0 < btrfs_super_generation (sw_super w) -> older d (sw_super w) ->
  exists w' sb', write_mirrors n 0 fd total w = Some (tt, w') /\
    btrfs_read_dev_super (sw_disks w') fd b sb0 BTRFS_SUPER_INFO_OFFSET = (0, sb') /\
    forall x, 0 <= x < sizeof_super_block -> ~ (0 <= x < 4) -> ~ (48 <= x < 56) -> sb' x = sw_super w x.
Proof.
  unfold BTRFS_SUPER_MIRROR_MAX. intros Hd Hn Hsz Hbad Hm Hg Hold.
  destruct (write_mirrors_run n 0 w fd total d Hd ltac:(lia) ltac:(lia) ltac:(lia)) as (sb1 & d' & Hrun & _ & Hc).
  destruct (written_read_back (<[fd := d']> (sw_disks w)) fd (sw_super w) d d' (Z.of_nat n) total b sb0) as (sb' & Hread & Hx);
    [apply lookup_insert_eq|done|lia|done|done|done|done|done|].
  eexists _, sb'. split; [exact Hrun|]. by split.
Qed.

(** ** All devices *)

(** The super block describes the device. *)
Record describes sb (dev : device) : Prop := {
  ds_devid : btrfs_device_id sb offsetof_dev_item = dv_devid dev;
  ds_total : btrfs_device_total_bytes sb offsetof_dev_item = dv_total_bytes dev;
  ds_used : btrfs_device_bytes_used sb offsetof_dev_item = dv_bytes_used dev;
  ds_type : btrfs_device_type sb offsetof_dev_item = dv_type dev;
  ds_align : btrfs_device_io_align sb offsetof_dev_item = dv_io_align dev;
  ds_width : btrfs_device_io_width sb offsetof_dev_item = dv_io_width dev;
  ds_sector : btrfs_device_sector_size sb offsetof_dev_item = dv_sector_size dev;
  ds_uuid : btrfs_device_uuid sb offsetof_dev_item = dv_uuid dev;
  ds_fsid : dv_fs_devices dev = Some (btrfs_device_fsid sb offsetof_dev_item);
}.

(** The fields of a device are in the range of their types. *)
Record device_ok (dev : device) : Prop := {
  dok_devid : 0 <= dv_devid dev < 2 ^ 64;
  dok_total : 0 <= dv_total_bytes dev < 2 ^ 64;
  dok_used : 0 <= dv_bytes_used dev < 2 ^ 64;
  dok_type : 0 <= dv_type dev < 2 ^ 64;
  dok_align : 0 <= dv_io_align dev < 2 ^ 32;
  dok_width : 0 <= dv_io_width dev < 2 ^ 32;
  dok_sector : 0 <= dv_sector_size dev < 2 ^ 32;
  dok_uuid : length (dv_uuid dev) = 16%nat;
}.

Lemma describes_same sb sb' dev : (forall x, 201 <= x < 299 -> sb' x = sb x) -> describes sb dev -> describes sb' dev.
Proof.
  intros Hx [H1 H2 H3 H4 H5 H6 H7 H8 H9]. split; [rewrite <- H1|rewrite <- H2|rewrite <- H3|rewrite <- H4|rewrite <- H5|rewrite <- H6|rewrite <- H7|rewrite <- H8|rewrite H9; f_equal; symmetry];
    first [apply get_le_same | apply read_same]; unfold offsetof_dev_item; intros x Hr; apply Hx; change (Z.to_nat BTRFS_UUID_SIZE) with 16%nat in *; cbn in Hr; lia.
Qed.

(** A field of a block that was changed elsewhere, and the one that was set. *)
Ltac field_step :=
  match goal with
  | |- get_le ?n (write_extent_buffer ?b ?l ?p) ?o = _ =>
      transitivity (get_le n b o); [apply get_le_same; intros ? ?; apply write_outside; cbn in *; lia|]
  | |- get_le ?n (put_le ?m ?p ?v ?b) ?o = _ =>
      first [rewrite (get_put_le_other n m b o p v) by lia | rewrite (get_put_le_id n b o v) by (cbn; lia)]
  end.

Lemma put_le_outside n off v b x : x < off \/ off + Z.of_nat n <= x -> put_le n off v b x = b x.
Proof. intros Hx. unfold put_le. zbool; lia || done. Qed.

Lemma fill_describes sb dev fsid : device_ok dev -> length fsid = 16%nat -> dv_fs_devices dev = Some fsid -> describes (fill_super_dev_item sb dev fsid) dev.
Proof.
  intros [H1 H2 H3 H4 H5 H6 H7 H8] Hf Hfs. unfold fill_super_dev_item, offsetof_dev_item. cbv zeta.
  split; unfold btrfs_device_id, btrfs_device_total_bytes, btrfs_device_bytes_used, btrfs_device_type, btrfs_device_io_align,
    btrfs_device_io_width, btrfs_device_sector_size, btrfs_device_uuid, btrfs_device_fsid, btrfs_set_super_flags, btrfs_set_device_sector_size,
    btrfs_set_device_io_width, btrfs_set_device_io_align, btrfs_set_device_bytes_used, btrfs_set_device_total_bytes, btrfs_set_device_id,
    btrfs_set_device_type, btrfs_set_device_generation, offsetof_dev_item; try (by repeat field_step).
  all: change (Z.to_nat BTRFS_UUID_SIZE) with 16%nat.
  2: { rewrite Hfs. f_equal. rewrite <- Hf. symmetry. match goal with |- context [write_extent_buffer ?b fsid ?o] => set (b1 := b) end.
       transitivity (read_extent_buffer (write_extent_buffer b1 fsid (201 + 82)) (201 + 82) (length fsid)); [|apply read_write].
       apply read_same. intros x Hx. apply put_le_outside. cbn in *. lia. }
  rewrite <- H8. set (b1 := write_extent_buffer _ (dv_uuid dev) _).
  match goal with b1 := write_extent_buffer ?b _ _ |- _ => transitivity (read_extent_buffer b1 (201 + 66) (length (dv_uuid dev))); [|apply read_write] end.
  rewrite H8. apply read_same. intros x Hx.
  unfold put_le. zbool; try lia. all: apply write_outside; cbn in *; lia.
Qed.

Lemma fill_content sb dev fsid : length (dv_uuid dev) = 16%nat -> length fsid = 16%nat -> same_fs_content sb (fill_super_dev_item sb dev fsid).
Proof.
  intros Hu Hf x Hx. unfold fill_super_dev_item, offsetof_dev_item, btrfs_set_super_flags. cbv zeta.
  rewrite put_le_outside by (cbn; lia). rewrite !write_outside by lia.
  unfold btrfs_set_device_sector_size, btrfs_set_device_io_width, btrfs_set_device_io_align, btrfs_set_device_bytes_used,
    btrfs_set_device_total_bytes, btrfs_set_device_id, btrfs_set_device_type, btrfs_set_device_generation.
  by rewrite !put_le_outside by (cbn; lia).
Qed.

(** A device that can take the super block. *)
Definition device_ready sb (st : disks) (dev : device) : Prop :=
  exists d fsid, st !! dv_fd dev = Some d /\ dv_fs_devices dev = Some fsid /\ length fsid = 16%nat /\ device_ok dev /\
    btrfs_sb_offset 0 + BTRFS_SUPER_INFO_SIZE <= dv_total_bytes dev <= dk_size d /\ (forall x, dk_bad d x = false) /\ older d sb.

(** What is read from a device is of the content of [sb], and describes the
    device. *)
Definition device_holds sb (st : disks) (dev : device) : Prop := forall b sb0,
  exists sb', btrfs_read_dev_super st (dv_fd dev) b sb0 BTRFS_SUPER_INFO_OFFSET = (0, sb') /\ describes sb' dev /\
    forall x, 4 <= x < 48 \/ 64 <= x < 201 \/ 299 <= x < sizeof_super_block -> sb' x = sb x.

Lemma fs_content_fields sb sb' : same_fs_content sb sb' ->
  btrfs_super_magic sb' = btrfs_super_magic sb /\ btrfs_super_generation sb' = btrfs_super_generation sb /\ btrfs_super_fsid sb' = btrfs_super_fsid sb.
Proof. intros Hs. split_and!; [apply get_le_same|apply get_le_same|apply read_same]; intros x Hx; apply Hs; lia. Qed.

Lemma content_fs a b c : same_fs_content a b -> same_content b c -> same_fs_content a c.
Proof. intros H1 H2 x Hx. rewrite H2 by lia. by apply H1. Qed.

Lemma fs_content_trans a b c : same_fs_content a b -> same_fs_content b c -> same_fs_content a c.
Proof. intros H1 H2 x Hx. by rewrite H2, H1. Qed.

(** The same file system and generation. *)
Definition same_version sb sb' : Prop := btrfs_super_generation sb' = btrfs_super_generation sb /\ btrfs_super_fsid sb' = btrfs_super_fsid sb.

Lemma content_version sb sb' : same_fs_content sb sb' -> same_version sb sb'.
Proof. intros Hs. by destruct (fs_content_fields _ _ Hs) as (_ & Eg & Ef). Qed.

Lemma older_same d sb sb' : same_version sb sb' -> older d sb -> older d sb'.
Proof. intros [Eg Ef] Ho j Hj Hg Hf. rewrite Eg. apply Ho; [done|done|congruence]. Qed.

Lemma ready_same sb sb' st st' dev : same_version sb sb' -> st' !! dv_fd dev = st !! dv_fd dev -> device_ready sb st dev -> device_ready sb' st' dev.
Proof.
  intros Hs Hst (d & fsid & H1 & H2 & H3 & H4 & H5 & H6 & H7). exists d, fsid. rewrite Hst. split_and!; try done; try lia.
  by apply (older_same d sb).
Qed.

Lemma read_super_at_disk st st' fd o b : st' !! fd = st !! fd -> read_super_at st' fd o b = read_super_at st fd o b.
Proof. intros Hst. unfold read_super_at, pread. by rewrite Hst. Qed.

Lemma read_mirrors_disk n i st st' fd b f sb t : st' !! fd = st !! fd -> read_mirrors n i st' fd b f sb t = read_mirrors n i st fd b f sb t.
Proof.
  intros Hst. revert i b f sb t. induction n as [|n IH]; intros i b f sb t; [done|]. cbn [read_mirrors].
  rewrite (read_super_at_disk st st' fd _ b Hst). destruct (read_super_at st fd _ b) as [short c]. by rewrite !IH.
Qed.

Lemma read_dev_super_disk st st' fd b sb off : st' !! fd = st !! fd -> btrfs_read_dev_super st' fd b sb off = btrfs_read_dev_super st fd b sb off.
Proof. intros Hst. unfold btrfs_read_dev_super. by rewrite (read_super_at_disk st st' fd _ b Hst), (read_mirrors_disk _ _ st st') by done. Qed.

Lemma holds_disk sb st st' dev : st' !! dv_fd dev = st !! dv_fd dev -> device_holds sb st dev -> device_holds sb st' dev.
Proof. intros Hst Hh b sb0. rewrite (read_dev_super_disk st st') by done. apply Hh. Qed.

Lemma holds_same sb sb' st dev : same_fs_content sb' sb -> device_holds sb st dev -> device_holds sb' st dev.
Proof.
  intros Hs Hh b sb0. destruct (Hh b sb0) as (r & H1 & H2 & H3). exists r. split_and!; [done|done|]. intros x Hx. rewrite H3 by done. apply Hs. lia.
Qed.

(** One device: what [write_all_supers] does to the super block and the disks. *)
Lemma write_device_run (w : super_world) dev : btrfs_super_magic (sw_super w) = BTRFS_MAGIC -> 0 < btrfs_super_generation (sw_super w) ->
  device_ready (sw_super w) (sw_disks w) dev ->
  exists fsid w', dv_fs_devices dev = Some fsid /\ write_dev_supers BTRFS_SUPER_INFO_OFFSET dev (SuperWorld (fill_super_dev_item (sw_super w) dev fsid) (sw_disks w)) = Some (0, w') /\
    same_fs_content (sw_super w) (sw_super w') /\ (forall fd, fd <> dv_fd dev -> sw_disks w' !! fd = sw_disks w !! fd) /\
    device_holds (sw_super w) (sw_disks w') dev.
Proof.
  intros Hm Hg (d & fsid & Hd & Hfs & Hlen & Hok & Hsz & Hbad & Hold). exists fsid.
  set (sb1 := fill_super_dev_item (sw_super w) dev fsid). assert (Hs1 : same_fs_content (sw_super w) sb1) by (apply fill_content; [apply Hok|done]).
  destruct (fs_content_fields _ _ Hs1) as (Em & Eg & _).
  destruct (write_mirrors_run (Z.to_nat BTRFS_SUPER_MIRROR_MAX) 0 (SuperWorld sb1 (sw_disks w)) (dv_fd dev) (dv_total_bytes dev) d)
    as (sb2 & d' & Hrun & Hsame & Hc); [done|lia|lia|done|]. cbn [sw_super sw_disks] in *.
  exists (SuperWorld sb2 (<[dv_fd dev := d']> (sw_disks w))). split_and!; [done| | | |].
  - unfold write_dev_supers. rewrite Z.eqb_refl. cbn [negb]. by rewrite (bind_some _ _ _ _ _ Hrun).
  - by apply (content_fs _ sb1).
  - intros fd Hne. by apply lookup_insert_ne.
  - intros b sb0. destruct (written_read_back (<[dv_fd dev := d']> (sw_disks w)) (dv_fd dev) sb1 d d' (Z.of_nat (Z.to_nat BTRFS_SUPER_MIRROR_MAX)) (dv_total_bytes dev) b sb0)
      as (r & Hread & Hx); [apply lookup_insert_eq|done|unfold BTRFS_SUPER_MIRROR_MAX; lia|done|done|congruence|lia|by apply (older_same d (sw_super w)); [apply content_version|]|].
    exists r. unfold sizeof_super_block in *. split_and!; [done| |].
    + apply (describes_same sb1); [intros x ?; apply Hx; lia|by apply fill_describes].
    + intros x ?. rewrite Hx by lia. apply Hs1. lia.
Qed.

Lemma write_supers_run devices (w : super_world) :
  NoDup (dv_fd <$> devices) -> btrfs_super_magic (sw_super w) = BTRFS_MAGIC -> 0 < btrfs_super_generation (sw_super w) ->
  (forall dev, dev ∈ devices -> dv_writeable dev = true -> device_ready (sw_super w) (sw_disks w) dev) ->
  exists w', write_all_supers BTRFS_SUPER_INFO_OFFSET devices w = Some (0, w') /\
    (forall dev, dev ∈ devices -> dv_writeable dev = true -> device_holds (sw_super w) (sw_disks w') dev) /\
    (forall fd, (forall dev, dev ∈ devices -> dv_writeable dev = true -> dv_fd dev <> fd) -> sw_disks w' !! fd = sw_disks w !! fd).
Proof.
  revert w. induction devices as [|dev devices IH]; intros w Hnd Hm Hg Hready.
  { exists w. split_and!; [done|intros ? H; set_solver|done]. }
  cbn in Hnd. apply NoDup_cons in Hnd as [Hnew Hnd]. cbn [write_all_supers]. destruct (dv_writeable dev) eqn:Hw; cbn [negb].
  - destruct (write_device_run w dev Hm Hg) as (fsid & w1 & Hfs & Hrun & Hs & Hfr & Hhold); [by apply Hready; [set_solver|]|].
    assert (Hne : forall dev', dev' ∈ devices -> dv_fd dev' <> dv_fd dev).
    { intros dev' Hin He. apply Hnew. rewrite <- He. by apply list_elem_of_fmap_2. }
    destruct (fs_content_fields _ _ Hs) as (Em & Eg & _).
    destruct (IH w1) as (w' & Hall & Hh & Hf); [done|congruence|lia| |].
    { intros dev' Hin Hw'. apply (ready_same (sw_super w) _ (sw_disks w)); [by apply content_version|by apply Hfr, Hne|apply Hready; [set_solver|done]]. }
    exists w'. split_and!.
    + rewrite Hfs, (bind_some _ _ w fsid w) by done. unfold set_super.
      rewrite (bind_some _ _ w tt (SuperWorld (fill_super_dev_item (sw_super w) dev fsid) (sw_disks w))) by done.
      rewrite (bind_some _ _ _ _ _ Hrun). by rewrite (bind_some _ _ w1 tt w1) by done.
    + intros dev' Hin Hw'. apply elem_of_cons in Hin as [->|Hin].
      * apply (holds_disk _ (sw_disks w1)); [|done]. apply Hf. intros dev' Hin _. by apply Hne.
      * apply (holds_same (sw_super w1)); [done|by apply Hh].
    + intros fd Hfd. rewrite Hf by (intros dev' ? ?; apply Hfd; [set_solver|done]). apply Hfr. intros ->. apply (Hfd dev); [set_solver|done|done].
  - destruct (IH w) as (w' & Hall & Hh & Hf); [done|done|done|intros dev' ? ?; apply Hready; [set_solver|done]|].
    exists w'. split_and!; [done| |].
    + intros dev' Hin Hw'. apply elem_of_cons in Hin as [->|Hin]; [congruence|by apply Hh].
    + intros fd Hfd. apply Hf. intros dev' ? ?. apply Hfd; [set_solver|done].
Qed.

(** C39: [write_ctree_super] commits: on devices of their own descriptors and with
    room for the first copy, whose copies of this file system are of older
    generations and whose media are good, every writeable one afterwards gives
    back - through [btrfs_read_dev_super], whatever its buffers held - a super
    block of the new generation that names the new roots, describes that device,
    and is otherwise the old one; the other devices are not touched. *)
Theorem write_ctree_super_correct (w : super_world) devices (transid tree_start tree_level chunk_start chunk_level chunk_generation : Z) :
  NoDup (dv_fd <$> devices) -> btrfs_super_magic (sw_super w) = BTRFS_MAGIC -> 0 < transid < 2 ^ 64 ->
  0 <= tree_start < 2 ^ 64 -> 0 <= tree_level < 2 ^ 8 -> 0 <= chunk_start < 2 ^ 64 -> 0 <= chunk_level < 2 ^ 8 -> 0 <= chunk_generation < 2 ^ 64 ->
  (forall dev, dev ∈ devices -> dv_writeable dev = true -> device_ready (btrfs_set_super_generation (sw_super w) transid) (sw_disks w) dev) ->
  exists w', write_ctree_super false BTRFS_SUPER_INFO_OFFSET devices transid tree_start tree_level chunk_start chunk_level chunk_generation w = Some (0, w') /\
    (forall dev, dev ∈ devices -> dv_writeable dev = true -> forall b sb0, exists sb,
       btrfs_read_dev_super (sw_disks w') (dv_fd dev) b sb0 BTRFS_SUPER_INFO_OFFSET = (0, sb) /\ describes sb dev /\
       btrfs_super_generation sb = transid /\ btrfs_super_root sb = tree_start /\ btrfs_super_root_level sb = tree_level /\
       btrfs_super_chunk_root sb = chunk_start /\ btrfs_super_chunk_root_level sb = chunk_level /\ btrfs_super_chunk_root_generation sb = chunk_generation /\
       forall x, 4 <= x < 48 \/ 64 <= x < 72 \/ 96 <= x < 164 \/ 172 <= x < 198 \/ 200 <= x < 201 \/ 299 <= x < sizeof_super_block -> sb x = sw_super w x) /\
    (forall fd, (forall dev, dev ∈ devices -> dv_writeable dev = true -> dv_fd dev <> fd) -> sw_disks w' !! fd = sw_disks w !! fd).
Proof.
  intros Hnd Hm Ht H1 H2 H3 H4 H5 Hready. unfold write_ctree_super. set (new := fun sb : buf => _).
  set (sb1 := new (sw_super w)).
  assert (Hf : btrfs_super_generation sb1 = transid /\ btrfs_super_root sb1 = tree_start /\ btrfs_super_root_level sb1 = tree_level /\
       btrfs_super_chunk_root sb1 = chunk_start /\ btrfs_super_chunk_root_level sb1 = chunk_level /\ btrfs_super_chunk_root_generation sb1 = chunk_generation).
  { unfold sb1, new, btrfs_set_super_chunk_root_generation, btrfs_set_super_chunk_root_level, btrfs_set_super_chunk_root,
      btrfs_set_super_root_level, btrfs_set_super_root, btrfs_set_super_generation.
    unfold btrfs_super_generation, btrfs_super_root, btrfs_super_root_level, btrfs_super_chunk_root, btrfs_super_chunk_root_level,
      btrfs_super_chunk_root_generation. repeat split; by repeat field_step. }
  assert (Hx : forall x, x < 72 \/ 96 <= x < 164 \/ 172 <= x < 198 \/ 200 <= x -> sb1 x = sw_super w x).
  { intros x Hx. unfold sb1, new, btrfs_set_super_chunk_root_generation, btrfs_set_super_chunk_root_level, btrfs_set_super_chunk_root,
      btrfs_set_super_root_level, btrfs_set_super_root, btrfs_set_super_generation. by rewrite !put_le_outside by (cbn; lia). }
  destruct Hf as (Fg & Fr & Fl & Fc & Fcl & Fcg).
  assert (Hmag : btrfs_super_magic sb1 = BTRFS_MAGIC) by (rewrite <- Hm; apply get_le_same; intros x ?; apply Hx; lia).
  assert (Hv : same_version (btrfs_set_super_generation (sw_super w) transid) sb1).
  { split; [rewrite Fg; symmetry; apply get_put_le_id; cbn; lia|]. apply read_same. intros x ?. rewrite Hx by lia.
    unfold btrfs_set_super_generation. by rewrite put_le_outside by (cbn; lia). }
  destruct (write_supers_run devices (SuperWorld sb1 (sw_disks w))) as (w' & Hrun & Hh & Hfr); [done|done|cbn; lia| |].
  { intros dev Hin Hw. by apply (ready_same _ _ (sw_disks w) _ _ Hv eq_refl), Hready. }
  exists w'. split_and!; [|clear Hfr|done].
  - cbn [negb]. unfold set_super. by rewrite (bind_some _ _ w tt (SuperWorld sb1 (sw_disks w))) by done.
  - intros dev Hin Hw b sb0. destruct (Hh dev Hin Hw b sb0) as (sb & Hread & Hdesc & Hsb). cbn [sw_super] in Hsb. exists sb.
    split_and!; [done|done|rewrite <- Fg|rewrite <- Fr|rewrite <- Fl|rewrite <- Fc|rewrite <- Fcl|rewrite <- Fcg|];
      try (apply get_le_same; intros x ?; apply Hsb; lia). intros x ?. rewrite Hsb by lia. apply Hx. lia.
Qed.

(** ** Witnesses *)

(** A super block of generation [gen]; a disk with two copies, of generations 5
    and 7; an empty disk. *)
Definition demo_super (gen : Z) : buf := btrfs_set_super_generation (put_le 8 64 BTRFS_MAGIC (fun _ => 0)) gen.
Definition demo_copies : disk :=
  Disk (2 ^ 27) (fun _ => false) (fun x =>
    if x <? 2 ^ 20 then btrfs_set_super_bytenr (demo_super 5) (btrfs_sb_offset 0) (x - btrfs_sb_offset 0)
    else btrfs_set_super_bytenr (demo_super 7) (btrfs_sb_offset 1) (x - btrfs_sb_offset 1)).
Definition demo_empty : disk := Disk (2 ^ 20) (fun _ => false) (fun _ => 0).
Definition demo_device (devid fd : Z) (writeable : bool) : device :=
  Device devid (repeat 1 16) (Some (repeat 0 16)) fd writeable None [] 2 0 (2 ^ 20) 0 0 4096 4096 4096.

Lemma demo_older gen : older demo_empty (demo_super gen).
Proof. intros j Hj (_ & _ & Hm). vm_compute in Hm. discriminate. Qed.

Lemma read_dev_super_newest_witness :
  exists sb, btrfs_read_dev_super {[ 3 := demo_copies ]} 3 (fun _ => 0) (fun _ => 0) BTRFS_SUPER_INFO_OFFSET = (0, sb) /\
    7 <= btrfs_super_generation sb.
Proof.
  assert (G0 : copy_good demo_copies 0) by (split; [split; [vm_compute; discriminate|done]|by vm_compute]).
  assert (G1 : copy_good demo_copies 1) by (split; [split; [vm_compute; discriminate|done]|by vm_compute]).
  assert (Hfirst : forall j, first_copy demo_copies j -> j = 0).
  { intros j (Hj & _ & Hl). destruct (decide (j = 0)) as [->|]; [done|]. exfalso. apply (Hl 0); [lia|done]. }
  destruct (read_dev_super_newest {[ 3 := demo_copies ]} 3 demo_copies (fun _ => 0) (fun _ => 0))
    as [(sb & i & j & Hrun & Hi & Hg & Hx & Hj & Hf & Hpos & Hmax)|[_ Hnone]]; [apply lookup_singleton_eq|done|done| | |].
  - intros (_ & _ & Hm). vm_compute in Hm. discriminate.
  - exists sb. split; [done|]. rewrite (Hfirst j Hj) in Hmax. specialize (Hmax 1 ltac:(lia) G1 ltac:(by vm_compute)).
    assert (Eg : btrfs_super_generation sb = btrfs_super_generation (disk_super demo_copies i)) by apply (super_fields _ _ Hx).
    rewrite Eg. etransitivity; [|exact Hmax]. vm_compute. discriminate.
  - exfalso. assert (H0 : first_copy demo_copies 0) by (split; [lia|split; [done|lia]]).
    specialize (Hnone 0 0 ltac:(lia) G0 H0 eq_refl). vm_compute in Hnone. discriminate.
Defined.

Lemma super_survives_witness :
  exists w' sb, write_mirrors 1 0 3 (2 ^ 20) (SuperWorld (demo_super 7) {[ 3 := demo_empty ]}) = Some (tt, w') /\
    btrfs_read_dev_super (sw_disks w') 3 (fun _ => 0) (fun _ => 0) BTRFS_SUPER_INFO_OFFSET = (0, sb) /\
    forall x, 0 <= x < sizeof_super_block -> ~ (0 <= x < 4) -> ~ (48 <= x < 56) -> sb x = demo_super 7 x.
Proof.
  apply (super_survives (SuperWorld (demo_super 7) {[ 3 := demo_empty ]}) 3 demo_empty 1 (2 ^ 20));
    [apply lookup_singleton_eq|unfold BTRFS_SUPER_MIRROR_MAX; lia|vm_compute; split; discriminate|done|by vm_compute|by vm_compute|apply demo_older].
Defined.

Lemma write_ctree_super_correct_witness :
  exists w', write_ctree_super false BTRFS_SUPER_INFO_OFFSET [demo_device 1 3 true; demo_device 2 4 false] 8 65536 1 131072 0 8
      (SuperWorld (demo_super 7) {[ 3 := demo_empty; 4 := demo_copies ]}) = Some (0, w') /\
    (exists sb, btrfs_read_dev_super (sw_disks w') 3 (fun _ => 0) (fun _ => 0) BTRFS_SUPER_INFO_OFFSET = (0, sb) /\
       describes sb (demo_device 1 3 true) /\ btrfs_super_generation sb = 8 /\ btrfs_super_root sb = 65536) /\
    sw_disks w' !! 4 = Some demo_copies.
Proof.
  destruct (write_ctree_super_correct (SuperWorld (demo_super 7) {[ 3 := demo_empty; 4 := demo_copies ]})
    [demo_device 1 3 true; demo_device 2 4 false] 8 65536 1 131072 0 8) as (w' & Hrun & Hread & Hfr);
    [apply NoDup_ListNoDup; repeat constructor; set_solver|by vm_compute|lia|lia|lia|lia|lia|lia| |].
  - intros dev Hin Hw. apply list_elem_of_In in Hin as [<-|[<-|[]]]; [|done]. exists demo_empty, (repeat 0 16). split_and!; try done; try (vm_compute; discriminate).
  - exists w'. split; [done|]. split.
    + destruct (Hread (demo_device 1 3 true)) with (b := (fun _ => 0) : buf) (sb0 := (fun _ => 0) : buf) as (sb & H1 & H2 & H3 & H4 & _);
        [set_solver|done|]. by exists sb.
    + rewrite Hfr; [done|]. intros dev Hin Hw. apply list_elem_of_In in Hin as [<-|[<-|[]]]; done.
Defined.
